(* ===== verification/_CoqProject ===== *)
-Q . S2P
Prelude.v
WsFrame.v
WsFrameProofs.v
WsSocket.v
WsRecvProofs.v
WsSendProofs.v
WsLifecycle.v
WsNetwork.v
Nor.v
Partition.v
PartitionProofs.v
KvBlock.v
KvSet.v
KvNodeProofs.v
KvProofs.v
KvSetProofs.v
KvInitProofs.v
KvTheorems.v
KvPartition.v
Bootab.v
BootabProofs.v
BootabTheorems.v
BootabPower.v
BootabSlice.v
BootabOta.v
Button.v
ButtonSort.v
ButtonPool.v
ButtonProofs.v
ButtonReg.v
ButtonGesture.v
ButtonTick.v
ButtonTheorems.v
Ringbuffer.v
Hash.v
Alarm.v
Ipc.v
IpcProofs.v
IpcLink.v
IpcDeliver.v
IpcTheorems.v
IpcSync.v
IpcSyncProofs.v
KBits.v
KHeap.v
KHeapLists.v
KHeapShape.v
KHeapMem.v
KHeapSearch.v
KHeapCut.v
KHeapAlloc.v
KHeapFree.v
KHeapRealloc.v
KHeapMove.v
KHeapInit.v
KHeapClient.v
KHeapTheorems.v
KPool.v
KPoolProofs.v
KMm.v
KMmRealloc.v
KMmClient.v
KList.v
KKern.v
KCalls.v
KQueue.v
KTasks.v
KSteps.v
KOwn.v
KInherit.v
KInv.v
KCallsOk.v
KSemOk.v
KNew.v
KUnwait.v
KMutexCalls.v
KRelease.v
KRun.v
KView.v
KKernTheorems.v
