(* ===== verification/Prelude.v ===== *)
(** * Verification of the PineVoice realtime firmware

    ** The program

    The firmware runs on the two RISC-V cores of a BL606P.  On the E907 core the
    application keeps a websocket connection to a voice server over which audio goes
    out in binary frames and replies come in; it reads its endpoint and Wi-Fi
    settings from a key-value store in flash, is operated with a few push buttons, and
    is updated over the air into the other one of two slots.  The code modelled here is
    the firmware's own C code for these parts:
    - the websocket client, [components/websocket/websocket/src/];
    - the key-value store, [components/kv/];
    - the flash partitions, [components/partition/src/], over the flash HAL
      [components/aoshal/src/csi2/flash.c];
    - the A/B boot table and the update calls, [components/bootab/src/];
    - the button service, [components/button/src/], with the product's tables in
      [boards/bl606p_pinevoice_e907/src/button/button_gpio.c];
    - the messages between the two cores, [components/ipc/ipc.c] over
      [channel_mailbox.c] and [chip_bl606p/drivers/blyoc_mbox/blyoc_mbox.c];
    - the containers the components share, [components/aos/src/ringbuffer.c] and
      [hash.c];
    - the alarms, [components/clock_alarm/src/clock_alarm.c];
    - the kernel under all of them, [components/rhino/]: its heap, [k_mm.c] with the
      pool of small blocks [k_mm_blk.c]; tasks, timeouts, semaphores and mutexes,
      [k_sched.c], [k_tick.c], [k_pend.c], [k_task.c], [k_sem.c], [k_mutex.c],
      [k_time.c], [k_sys.c].

    The websocket worker thread and the application thread share one socket record;
    the worker is a state machine over [command] that connects, shakes hands, sends
    the queued frames and calls back with what it received.  The store finds keys
    stored twice at start-up with the hash table; it and the boot table reach the flash
    chip through handles of the partition layer, which share one table.  The button service is driven by
    pin interrupts and one timer and calls back with key messages.  The cores share
    memory: a message is cut into blocks there, which a mailbox and an interrupt hand
    over one by one to the receiving thread of the other core and on to the thread of
    the service it is for.

    ** How the code is modelled

    A C function is a Rocq function of the same name on explicit state.  [outcome]
    is [Ret] of the result or [Crash] for undefined behaviour: a NULL dereference, an
    access outside an object, a failed assertion, a double free.  Integers are [Z] with
    the width written out ([u8], [u16], [u32], [i32]); bytes are [Z]; memory blocks are
    lists, read and written with bounds checks.  Loops are structural recursions or
    carry fuel.  What is not in this repository or is hardware (C allocator and random
    generator, lwIP, mbedTLS, flash driver, pins, clock) is a type class without
    definition: [Libc] (WsFrame), [Net] (WsSocket), [Os] (WsNetwork), [Flash] (KvBlock),
    [SpiFlash] (Partition), [ButtonHal] (Button); what the theorems need of it is a second
    class of laws ([OsLaws], [NorFlash], [SpiReads], [SpiNor], [SpiCut], [SteadyHal]) or a
    hypothesis, and each has a concrete instance on which the theorems are run.  The
    interface [Flash] of the store is discharged by the partition layer
    ([KvPartition.partition_nor]).

    ** Files

    - Prelude: outcomes, machine integers, memory blocks, automation.
    - WsFrame: [rws_frame.c] (frame record with an explicit heap pointer, size check,
      parser, header builders, encoders, fragment combiner).  WsFrameProofs: the RFC
      6455 wire image [wire]; encoder and parser invert each other; the parser stays in
      bounds on any input; the combiner and the 32-bit length sum go wrong.
    - WsSocket: [rws_socketpriv.c], [rws_socketpub.c], with what they use of
      [rws_list.c], [rws_string.c], [rws_error.c]: queues and limits, sending,
      receiving, dispatch, handshake, connecting, TLS set-up, the worker's turn
      ([work_iter] = [work_command] then [work_inform]) and the public calls.
      WsRecvProofs: stream delivery.  WsSendProofs: queueing, flushing, ping, handshake.
      WsLifecycle: all interleavings of worker turns and application calls as a step
      relation, refined to an abstract connection lifecycle by rule induction.
    - WsNetwork: [net_read] and [net_write] of [rws_network.c] end and move exactly
      what they report.
    - Nor: cells of NOR flash, shared by the parts below.
    - Partition: [partition.c], [partition_flash.c] and the whole-flash branches of the
      HAL.  PartitionProofs: what an open handle gives access to; opening by name.
    - KvBlock, KvSet: [block.c], [kvset.c] and the public calls of [kv_aos.c].
      KvNodeProofs: the node format and the search.  KvProofs: one block on NOR flash.
      KvSetProofs: the store as a finite map [abs], garbage collection.  KvInitProofs:
      start-up from flash alone.  KvTheorems: the promises and their witnesses.
      KvPartition: the store on a partition.
    - Bootab: [bootab.c] and [ota_ab.c].  BootabProofs: which flash operations each
      function makes and what it returns, on any chip that reads correctly.
      BootabTheorems: trial boots, falling back, ending the trial.  BootabPower: losing
      power at any point of the switch.  BootabSlice, BootabOta: writing an image in
      slices, and a whole update.
    - Button: [button.c], [gpio_button.c], [adc_button.c], [button_gpio.c].
      ButtonSort: the bubble sort sorts.  ButtonPool: the event pool.  ButtonProofs,
      ButtonReg: the invariant, kept by every step of an interleaving.  ButtonGesture,
      ButtonTick: each button refines a small automaton over samples.
      ButtonTheorems: the promises and their witnesses.
    - Ringbuffer, Hash: [ringbuffer.c] is a bounded FIFO queue, [hash.c] a finite map.
    - Ipc: [ipc.c] and the mailbox, as agents (the sending thread, two interrupt
      handlers, the receiving thread, a thread per service) that take turns in any order.
      IpcProofs: cutting a message into pieces and putting it together.  IpcLink: the
      invariant of the link; one token goes round, and blocks are not reused early.
      IpcDeliver: the services.  IpcTheorems: delivery, the end of a run, no deadlock.
      IpcSync, IpcSyncProofs: synchronous calls of both cores over such links.
    - Alarm: [clock_alarm.c], with its copy in the store; start-up reads back the table.
    - KBits: status codes and bit operations of the kernel.  KHeap: [k_mm.c] on a
      memory of words.  KHeapLists: the free lists; KHeapShape: the chain of blocks;
      KHeapMem, KHeapSearch, KHeapCut: both in memory, searching and splitting;
      KHeapAlloc, KHeapFree, KHeapRealloc, KHeapMove, KHeapInit: the operations keep
      [heap_ok].  KHeapClient, KHeapTheorems: what callers get.  KPool, KPoolProofs:
      [k_mm_blk.c] and [k_mm.c] with the pool.  KMm, KMmRealloc, KMmClient: the two
      together, with callers that hold and write buffers.
    - KList: [k_list.h].  KKern: the state of the scheduler and the functions under the
      calls.  KCalls: the calls of tasks, ticks, interrupts, semaphores and mutexes.
      KQueue, KTasks, KSteps: the lists the kernel keeps, and one task moving between
      them.  KOwn, KInherit: mutexes, their owners and inherited priorities.  KInv: the
      invariant between two calls.  KCallsOk, KSemOk, KNew, KUnwait, KMutexCalls,
      KRelease: each call returns and keeps it.  KRun: start of the kernel and its runs.
      KView: what the invariant says of the records.  KKernTheorems: the promises and
      runs that show them.

    ** What the theorems show

    Websocket: encoding then parsing a frame is the identity on opcode, FIN and
    payload for all lengths; however the byte stream is cut into reads, the callbacks
    get exactly the complete messages in order; messages are queued within the limit
    and written in order; pings are answered; under every interleaving the callbacks
    follow connected (message)* disconnected.  Store: [kv_set], [kv_get], [kv_rm],
    garbage collection and restart refine a finite map, for every block size from 512
    to 65535 bytes that is a multiple of four and every number of blocks, with -1 only
    when there is no room; what is stored survives a restart.  Partitions: each is a NOR
    flash of its own, and the store never leaves its one.  Boot table: an update in
    slices of any sizes ends with the new image running on trial; losing power during
    the switch leaves one of the two slots selected; five counted starts without
    [otaab_finish] bring the old slot back, and after it nothing does.  Buttons: no interleaving
    of interrupts, timer and registration crashes or leaves a button unwatched;
    contacts under 90 ms make no callback, a click makes one down and one up
    callback, a long press one; the product's tables meet the conditions.  Messages between the
    cores: under every order of turns they arrive whole, in order and once; every run
    ends, with all of them delivered; a synchronous call gets the answer to that call.
    Heap: allocation fails exactly when no free block is large enough, buffers are
    aligned and disjoint, resizing keeps their bytes, nothing a
    caller may do makes a call go wrong, and when all is given back the heap is one block
    again.  Kernel, for every run of allowed calls from its start: each call returns; a
    task waits only for a semaphore that is used up or a mutex that a live task owns; a
    tick wakes exactly the tasks whose time has come; giving a semaphore or unlocking a
    mutex wakes the most urgent waiter; a mutex leaves its owner only when that task unlocks
    it or is deleted; with [RHINO_CONFIG_MUTEX_INHERIT] the task that runs is a most
    urgent one that is ready, each task has the most urgent of its own priority and those
    of the tasks that wait for it, so that nothing less urgent than a waiting task
    holds it up, and a change of priority ends.  The product leaves that option off;
    the model and the other theorems take it as a parameter.  Alarms: an alarm is set to the first matching time after now; after any
    calls, ringing alarms and restarts start-up reads back the table there was.  A further
    group of theorems pins down behaviour that does not match the intent (combining
    fragments, length wrap, handshake checks, lost error and close frame, stranding
    after a write timeout, combinations matched by first element, double free,
    read-only entries lost, a message delivered again when a service is added, a request
    near 2^32 answered with a small buffer); each is proved for all states that lead to
    it.

    ** Fuel and bounds

    [kvblock_search] and the iterations move on by at least a byte per turn and carry
    the block size plus one as fuel; [gc_loop] empties a block per turn and carries the
    number of blocks plus one; [KvTheorems] proves results, not only partial
    correctness, so the fuel suffices.  A run of the link has at most
    [IpcTheorems.work] turns.  [net_loop] returns [None] while running;
    [net_transfer_exact] shows one turn per byte and per 20 ms is enough.  The walks over
    a free list ([find_fit], [max_walk]) carry the number of words of the memory, enough
    because a list has no block twice; running out is a [Crash], and the theorems show
    there is none.  The bubble sort and the pool scans are structural.
    In the kernel a walk of a list carries the number of links, a walk along the chain of
    mutexes their number, and [task_pri_change] twice the number of tasks plus two rounds;
    [kern_calls_return] and [kern_pri_change_ends] show that this is enough.

    ** Not modelled, and why

    Printing and command lines; the flash operations of the store on a bare device;
    the partition table in flash and image verification ([mtb.c], [verify.c]), which
    [partition_init] only calls; the variant configurations of the store
    (CONFIG_KV_ENABLE_CACHE, address-mapped flash); an interrupt in the middle of the
    button timer function (interrupts are steps between runs); the timeout of a send
    between the cores, after which the code overwrites the mailbox; the probe at
    start-up, [ipc_send_enable] and [ipc_lpm]; of the kernel message queues, events,
    timers, work queues, task semaphores, dynamic creation and deletion, scheduling
    policies, stacks, statistics, more than one CPU and NULL arguments; the driver of the
    real-time clock [rtc_alarm.c] and [CONFIG_CLOCK_ALARM_SCHEDULE] (off); memory exhaustion where
    the code does not check for it.  Vendored libraries (lwIP, mbedTLS, lvgl, libxml2,
    zlib, littlefs, cJSON, the chip drivers) are outside.  The application of the
    solutions directory and the wake-word sources are not part of this source tree.

    ** What could follow

    Power failure between two flash operations of the store; the update client of
    [components/fota]; message queues, events and timers of [components/rhino]; the
    integer signal processing of [components/microwakeword/MicroSpeechFeatures]. *)

From stdpp Require Export base list numbers option.
From Stdlib Require Export ZArith Lia.

#[global] Open Scope Z_scope.
#[global] Set Default Goal Selector "!".

(** ** Outcomes of C code

    [Ret a] is a normal return.  [Crash] is undefined behaviour at the machine
    level: a NULL dereference or an access outside an allocated object. *)

Inductive outcome (A : Type) : Type :=
| Ret (a : A)
| Crash.
Arguments Ret {A} a.
Arguments Crash {A}.

#[global] Instance outcome_ret : MRet outcome := fun A a => Ret a.
#[global] Instance outcome_bind : MBind outcome := fun A B f m =>
  match m with Ret a => f a | Crash => Crash end.

Definition returns {A} (m : outcome A) : Prop := exists a, m = Ret a.

Lemma bind_Ret {A B} (f : A -> outcome B) (m : outcome A) b :
  m ≫= f = Ret b -> exists a, m = Ret a /\ f a = Ret b.
Proof. destruct m as [a|]; cbn; [eauto|done]. Qed.

(** Take the first computation off a successful sequence. *)
Tactic Notation "bind_inv" hyp(H) "as" simple_intropattern(x) simple_intropattern(E) :=
  apply bind_Ret in H; destruct H as (x & E & H).

(** ** Machine integers *)

Definition u8 (z : Z) : Z := z mod 2 ^ 8.
Definition u16 (z : Z) : Z := z mod 2 ^ 16.
Definition u32 (z : Z) : Z := z mod 2 ^ 32.
Definition i32 (z : Z) : Z := (z + 2 ^ 31) mod 2 ^ 32 - 2 ^ 31.

Definition is_byte (b : Z) : Prop := 0 <= b < 256.
Definition bytes (l : list Z) : Prop := Forall is_byte l.

#[global] Instance is_byte_dec b : Decision (is_byte b).
Proof. unfold is_byte. apply _. Defined.
#[global] Instance bytes_dec l : Decision (bytes l).
Proof. unfold bytes. apply _. Defined.

(** ** Memory blocks as lists of bytes, indexed by [Z] *)

Definition zlen {A} (l : list A) : Z := Z.of_nat (length l).
Definition ztake {A} (n : Z) (l : list A) : list A := take (Z.to_nat n) l.
Definition zdrop {A} (n : Z) (l : list A) : list A := drop (Z.to_nat n) l.

(** [p[i]] for a pointer [p] to the first byte of block [l]. *)
Definition mem_get (l : list Z) (i : Z) : outcome Z :=
  if decide (0 <= i)
  then match l !! Z.to_nat i with Some b => Ret b | None => Crash end
  else Crash.

(** The bytes [memcpy(_, p + off, n)] reads. *)
Definition mem_read (l : list Z) (off n : Z) : outcome (list Z) :=
  if decide (0 <= off /\ 0 <= n /\ off + n <= zlen l)
  then Ret (ztake n (zdrop off l)) else Crash.

(** The block after [memcpy(p + off, d, |d|)]. *)
Definition mem_write (l : list Z) (off : Z) (d : list Z) : outcome (list Z) :=
  if decide (0 <= off /\ off + zlen d <= zlen l)
  then Ret (ztake off l ++ d ++ zdrop (off + zlen d) l) else Crash.

(** ** Little-endian 32-bit words (the E907 and C906 cores are little endian) *)

Definition le32_bytes (z : Z) : list Z :=
  [u8 z; u8 (Z.shiftr z 8); u8 (Z.shiftr z 16); u8 (Z.shiftr z 24)].

Definition le32 (l : list Z) : Z :=
  match l with
  | [a; b; c; d] => a + 256 * b + 65536 * c + 16777216 * d
  | _ => 0
  end.

(** ** Generic lemmas *)

Lemma zlen_app {A} (l k : list A) : zlen (l ++ k) = zlen l + zlen k.
Proof. unfold zlen. rewrite length_app. lia. Qed.

Lemma zlen_nil {A} : zlen (@nil A) = 0.
Proof. reflexivity. Qed.

Lemma zlen_cons {A} (x : A) l : zlen (x :: l) = 1 + zlen l.
Proof. unfold zlen. cbn [length]. lia. Qed.

Lemma zlen_nonneg {A} (l : list A) : 0 <= zlen l.
Proof. unfold zlen. lia. Qed.

Lemma zlen_nil_inv {A} (l : list A) : zlen l <= 0 -> l = [].
Proof. unfold zlen. destruct l; [done|]. cbn [length]. lia. Qed.

Lemma zlen_pos {A} (l : list A) : l <> [] -> 0 < zlen l.
Proof. unfold zlen. destruct l; [done|]. cbn [length]. lia. Qed.

Lemma zlen_ztake {A} n (l : list A) : 0 <= n <= zlen l -> zlen (ztake n l) = n.
Proof. unfold zlen, ztake. intros. rewrite length_take. lia. Qed.

Lemma zlen_zdrop {A} n (l : list A) : 0 <= n <= zlen l -> zlen (zdrop n l) = zlen l - n.
Proof. unfold zlen, zdrop. intros. rewrite length_drop. lia. Qed.

Lemma zlen_replicate {A} n (x : A) : zlen (replicate n x) = Z.of_nat n.
Proof. unfold zlen. by rewrite length_replicate. Qed.

Lemma ztake_app_exact {A} n (l k : list A) : n = zlen l -> ztake n (l ++ k) = l.
Proof. unfold ztake, zlen. intros ->. rewrite Nat2Z.id. apply take_app_length. Qed.

Lemma zdrop_app_exact {A} n (l k : list A) : n = zlen l -> zdrop n (l ++ k) = k.
Proof. unfold zdrop, zlen. intros ->. rewrite Nat2Z.id. apply drop_app_length. Qed.

Lemma ztake_all {A} n (l : list A) : zlen l <= n -> ztake n l = l.
Proof. unfold ztake, zlen. intros. apply take_ge. lia. Qed.

Lemma zdrop_all {A} n (l : list A) : zlen l <= n -> zdrop n l = [].
Proof. unfold zdrop, zlen. intros. apply drop_ge. lia. Qed.

Lemma zdrop_0 {A} (l : list A) : zdrop 0 l = l.
Proof. reflexivity. Qed.

Lemma ztake_zdrop {A} n (l : list A) : ztake n l ++ zdrop n l = l.
Proof. apply take_drop. Qed.

Lemma mem_get_ok l i : 0 <= i < zlen l -> exists b, mem_get l i = Ret b.
Proof.
  unfold mem_get, zlen. intros H. rewrite decide_True by lia.
  destruct (lookup_lt_is_Some_2 l (Z.to_nat i)) as [b ->]; [lia | eauto].
Qed.

Lemma mem_get_app_l l k i : i < zlen l -> mem_get (l ++ k) i = mem_get l i.
Proof.
  unfold mem_get, zlen. intros H. case_decide; [|done].
  rewrite lookup_app_l by lia. done.
Qed.

Lemma mem_get_ztake l n i : i < n -> mem_get (ztake n l) i = mem_get l i.
Proof.
  unfold mem_get, ztake. intros Hi. case_decide; [|done].
  rewrite lookup_take_lt by lia. done.
Qed.

Lemma mem_get_byte l i b : bytes l -> mem_get l i = Ret b -> is_byte b.
Proof.
  unfold mem_get, bytes. intros Hl Hg. case_decide; [|done].
  destruct (l !! Z.to_nat i) eqn:E; simplify_eq.
  eapply Forall_lookup_1; eauto.
Qed.

Lemma mem_read_exact p d q :
  mem_read (p ++ d ++ q) (zlen p) (zlen d) = Ret d.
Proof.
  unfold mem_read. rewrite !zlen_app.
  pose proof (zlen_nonneg p). pose proof (zlen_nonneg d). pose proof (zlen_nonneg q).
  rewrite decide_True by lia.
  rewrite zdrop_app_exact by done. rewrite ztake_app_exact by done. done.
Qed.

Lemma mem_read_ok l off n :
  0 <= off -> 0 <= n -> off + n <= zlen l ->
  mem_read l off n = Ret (ztake n (zdrop off l)).
Proof. intros. unfold mem_read. by rewrite decide_True by lia. Qed.

Lemma mem_read_inv l off n d :
  mem_read l off n = Ret d ->
  0 <= off /\ 0 <= n /\ off + n <= zlen l /\ d = ztake n (zdrop off l) /\ zlen d = n.
Proof.
  unfold mem_read. case_decide as Hd; [|done]. intros [= <-].
  repeat split; try lia. rewrite zlen_ztake; [done|].
  rewrite zlen_zdrop by lia. lia.
Qed.

Lemma mem_write_exact p o d q :
  zlen o = zlen d -> mem_write (p ++ o ++ q) (zlen p) d = Ret (p ++ d ++ q).
Proof.
  intros Ho. unfold mem_write. rewrite !zlen_app.
  pose proof (zlen_nonneg p). pose proof (zlen_nonneg q).
  rewrite decide_True by lia.
  rewrite ztake_app_exact by done. f_equal. f_equal. f_equal.
  rewrite app_assoc. apply zdrop_app_exact. rewrite zlen_app. lia.
Qed.

Lemma mem_write_front l d :
  zlen d <= zlen l -> mem_write l 0 d = Ret (d ++ zdrop (zlen d) l).
Proof.
  intros Hd. rewrite <- (ztake_zdrop (zlen d) l) at 1. pose proof (zlen_nonneg d).
  apply (mem_write_exact [] (ztake (zlen d) l) d). apply zlen_ztake. lia.
Qed.

Lemma bytes_app l k : bytes (l ++ k) <-> bytes l /\ bytes k.
Proof. apply Forall_app. Qed.

Lemma u8_byte z : is_byte (u8 z).
Proof. unfold is_byte, u8. apply Z.mod_pos_bound. lia. Qed.

Lemma u8_small n : 0 <= n < 256 -> u8 n = n.
Proof. apply Z.mod_small. Qed.
Lemma u8_id b : is_byte b -> u8 b = b.
Proof. unfold is_byte, u8. intros. apply Z.mod_small. lia. Qed.

Lemma u32_id z : 0 <= z < 2 ^ 32 -> u32 z = z.
Proof. unfold u32. apply Z.mod_small. Qed.

Lemma u32_range z : 0 <= u32 z < 2 ^ 32.
Proof. apply Z.mod_pos_bound. lia. Qed.

Lemma i32_id z : - 2 ^ 31 <= z < 2 ^ 31 -> i32 z = z.
Proof. intros. unfold i32. rewrite Z.mod_small by lia. lia. Qed.

Lemma i32_range z : - 2 ^ 31 <= i32 z < 2 ^ 31.
Proof. unfold i32. pose proof (Z.mod_pos_bound (z + 2 ^ 31) (2 ^ 32) ltac:(lia)). lia. Qed.

Lemma bytes_le32 z : bytes (le32_bytes z).
Proof. unfold bytes, le32_bytes. repeat (constructor; [apply u8_byte|]). constructor. Qed.

Lemma le32_le32_bytes z : le32 (le32_bytes z) = u32 z.
Proof.
  unfold le32, le32_bytes, u8, u32. rewrite !Z.shiftr_div_pow2 by lia.
  change (2 ^ 8) with 256. change (2 ^ 16) with 65536. change (2 ^ 24) with 16777216.
  change (2 ^ 32) with 4294967296. Z.div_mod_to_equations. lia.
Qed.

Lemma land_255 z : Z.land z 255 = z mod 256.
Proof. apply (Z.land_ones z 8). lia. Qed.

Lemma land_1023 z : Z.land z 1023 = z mod 1024.
Proof. apply (Z.land_ones z 10). lia. Qed.

(** Disjoint bits add: the shape of every multi-byte field the code assembles. *)
Lemma lor_shift_add a b n :
  0 <= n -> 0 <= b < 2 ^ n -> Z.lor (Z.shiftl a n) b = a * 2 ^ n + b.
Proof.
  intros Hn Hb. rewrite Z.shiftl_mul_pow2 by done.
  rewrite Z.add_nocarry_lxor.
  - apply Z.bits_inj'. intros m Hm.
    rewrite Z.lor_spec, Z.lxor_spec.
    destruct (decide (m < n)).
    + rewrite Z.mul_pow2_bits_low by lia. by destruct (Z.testbit b m).
    + assert (Z.testbit b m = false) as ->.
      { rewrite <- (Z.mod_small b (2 ^ n)) by lia. apply Z.mod_pow2_bits_high. lia. }
      by destruct (Z.testbit _ m).
  - apply Z.bits_inj'. intros m Hm. rewrite Z.land_spec, Z.bits_0.
    destruct (decide (m < n)).
    + by rewrite Z.mul_pow2_bits_low by lia.
    + assert (Z.testbit b m = false) as ->.
      { rewrite <- (Z.mod_small b (2 ^ n)) by lia. apply Z.mod_pow2_bits_high. lia. }
      by rewrite andb_false_r.
Qed.

(** ** Automation *)

Create HintDb fw discriminated.
#[export] Hint Resolve u8_byte bytes_le32 zlen_nonneg : fw.
Create Rewrite HintDb zlen.
#[export] Hint Rewrite @zlen_app @zlen_nil @zlen_cons @zlen_replicate : zlen.

(** Normalise lengths and hand the arithmetic to [lia]. *)
Ltac zl := autorewrite with zlen in *; lia.

(** Bring concatenations of lists and conses into right-nested form. *)
Ltac norm_app := cbn [app]; repeat (rewrite <- !app_assoc; cbn [app]).
Tactic Notation "norm_app" "in" hyp(H) := cbn [app] in H; repeat (rewrite <- !app_assoc in H; cbn [app] in H).

(** Decide a closed proposition by evaluating its [Decision] instance. *)
Ltac by_decide :=
  match goal with |- ?P => apply (bool_decide_eq_true_1 P); vm_compute; reflexivity end.
