(* ===== verification/WsFrame.v ===== *)
(** * WebSocket frames: [components/websocket/websocket/src/rws_frame.c]

    The frame record, the allocator interface the code calls, frame headers,
    the encoder for outgoing frames, the parser for received ones and the
    fragment combiner.  A data pointer is a heap block with an offset into it,
    so that interior pointers are visible. *)

From S2P Require Import Prelude.

(** ** The C library, as the frame code uses it

    [malloc n] is the fresh block of a successful allocation (its content is
    whatever the heap holds) or [None].  [rand] is a pseudo-random generator
    step on a hidden state. *)

Definition RAND_MAX : Z := 2147483647.

Class Libc := {
  malloc : Z -> option (list Z);
  malloc_len : forall n m, malloc n = Some m -> zlen m = n;
  malloc_bytes : forall n m, malloc n = Some m -> bytes m;
  rand : Z -> Z * Z;
  rand_range : forall st, 0 <= (rand st).1 <= RAND_MAX
}.

(** ** Data *)

Definition rws_opcode_continuation : Z := 0.
Definition rws_opcode_text_frame : Z := 1.
Definition rws_opcode_binary_frame : Z := 2.
Definition rws_opcode_connection_close : Z := 8.
Definition rws_opcode_ping : Z := 9.
Definition rws_opcode_pong : Z := 10.

Inductive rws_binary :=
| rws_binary_start
| rws_binary_continue
| rws_binary_finish.

#[export] Instance rws_binary_eq_dec : EqDecision rws_binary.
Proof. solve_decision. Defined.

(** A pointer into the heap: the block it points into and the offset. *)
Record buf := Buf { blk : list Z; boff : Z }.

Record rws_frame := Frame {
  data : option buf;
  data_size : Z;
  opcode : Z;
  mask : list Z;
  is_masked : bool;
  is_finished : bool;
  header_size : Z
}.

(** [sizeof(_rws_frame)] on the 32-bit E907 core. *)
Definition sizeof_frame : Z := 20.

Definition set_data (d : option buf) (n : Z) (f : rws_frame) : rws_frame :=
  Frame d n (opcode f) (mask f) (is_masked f) (is_finished f) (header_size f).
Definition set_opcode (o : Z) (f : rws_frame) : rws_frame :=
  Frame (data f) (data_size f) o (mask f) (is_masked f) (is_finished f) (header_size f).
Definition set_masked (b : bool) (f : rws_frame) : rws_frame :=
  Frame (data f) (data_size f) (opcode f) (mask f) b (is_finished f) (header_size f).
Definition set_mask (m : list Z) (f : rws_frame) : rws_frame :=
  Frame (data f) (data_size f) (opcode f) m (is_masked f) (is_finished f) (header_size f).
Definition set_finished (b : bool) (f : rws_frame) : rws_frame :=
  Frame (data f) (data_size f) (opcode f) (mask f) (is_masked f) b (header_size f).
Definition set_header_size (n : Z) (f : rws_frame) : rws_frame :=
  Frame (data f) (data_size f) (opcode f) (mask f) (is_masked f) (is_finished f) n.

(** What a reader of [data_size] bytes at [frame->data] sees. *)
Definition frame_read (f : rws_frame) : outcome (list Z) :=
  match data f with
  | None => if decide (data_size f = 0) then Ret [] else Crash
  | Some b => mem_read (blk b) (boff b) (data_size f)
  end.

(** ** Operations *)

Section Operations.
Context `{LC : Libc}.

Definition rws_malloc (size : Z) : option (list Z) :=
  if decide (0 < size) then malloc size else None.

Definition rws_malloc_zero (size : Z) : option (list Z) :=
  match rws_malloc size with
  | Some m => Some (replicate (length m) 0)
  | None => None
  end.

(** The random mask word: [(rand() / (RAND_MAX / 2) + 1) * rand()], stored in an
    [unsigned int] and copied out byte by byte. *)
Definition mask_word (r1 r2 : Z) : Z := u32 ((r1 / (RAND_MAX / 2) + 1) * r2).

(** [memcpy(f->mask, ...)] dereferences the result of the allocation unchecked. *)
Definition rws_frame_create (rng : Z) : outcome (rws_frame * Z) :=
  match rws_malloc_zero sizeof_frame with
  | None => Crash
  | Some _ =>
      let '(r1, rng) := rand rng in
      let '(r2, rng) := rand rng in
      Ret (Frame None 0 0 (le32_bytes (mask_word r1 r2)) false false 0, rng)
  end.

(** The masking loop [*p = *p ^ mask[index & 0x3]], from [index] on. *)
Fixpoint mask_loop (m : list Z) (index : Z) (l : list Z) : outcome (list Z) :=
  match l with
  | [] => Ret []
  | b :: l =>
      k ← mem_get m (Z.land index 3);
      l' ← mask_loop m (index + 1) l;
      Ret (Z.lxor b k :: l')
  end.

(** The base header size of a received frame: 2 bytes, 6 with a mask, and the
    extended length. *)
Definition recv_header_size (is_masked payload : Z) : Z :=
  let header_size := if decide (is_masked = 0) then 2 else 6 in
  if decide (payload = 126) then header_size + 2
  else if decide (payload = 127) then header_size + 8
  else header_size.

(** The payload length and the position of the mask.  Bytes 2 to 5 of a 64-bit
    length are not read. *)
Definition recv_expected_size (udata : list Z) (payload : Z) : outcome (Z * Z) :=
  if decide (payload = 126) then
    b2 ← mem_get udata 2; b3 ← mem_get udata 3;
    Ret (Z.lor (u32 (Z.shiftl b2 8)) b3, 4)
  else if decide (payload = 127) then
    b6 ← mem_get udata 6; b7 ← mem_get udata 7;
    b8 ← mem_get udata 8; b9 ← mem_get udata 9;
    Ret (Z.lor (Z.lor (Z.lor (u32 (Z.shiftl b6 24)) (u32 (Z.shiftl b7 16)))
                      (u32 (Z.shiftl b8 8))) b9, 10)
  else if decide (payload <= 125) then Ret (payload, 2)
  else Ret (0, 0).

(** [if (is_masked) { ... memcpy(frame->mask, &udata[mask_pos], 4); }] *)
Definition recv_take_mask (udata : list Z) (is_mskd mask_pos : Z) (frame : rws_frame)
  : outcome rws_frame :=
  if decide (is_mskd = 0) then Ret frame
  else m ← mem_read udata mask_pos 4; Ret (set_mask m (set_masked true frame)).

(** [if (expected_size > 0) { ... }]: allocate, copy and unmask the payload.  The
    allocation is not checked: the loop or memcpy then writes through NULL. *)
Definition recv_take_payload (udata : list Z) (is_mskd hsize expected_size : Z) (frame : rws_frame)
  : outcome rws_frame :=
  if decide (0 < expected_size) then
    match rws_malloc expected_size with
    | None => Crash
    | Some m =>
        p ← mem_read udata hsize expected_size;
        p ← (if decide (is_mskd = 0) then Ret p else mask_loop (mask frame) 0 p);
        m ← mem_write m 0 p;
        Ret (set_data (Some (Buf m 0)) expected_size frame)
    end
  else Ret frame.

(** [udata] is the memory readable from the [data] argument on, [None] for NULL. *)
Definition rws_frame_create_with_recv_data (rng : Z) (udata : option (list Z)) (data_size : Z)
  : outcome (option rws_frame * Z) :=
  match udata with
  | None => Ret (None, rng)
  | Some udata =>
    if decide (2 <= data_size) then
      u0 ← mem_get udata 0;
      u1 ← mem_get udata 1;
      let opc := Z.land u0 15 in
      let is_finshd := Z.land (Z.shiftr u0 7) 1 in
      let is_mskd := Z.land (Z.shiftr u1 7) 1 in
      let payload := Z.land u1 127 in
      let hsize := recv_header_size is_mskd payload in
      if decide (data_size < hsize) then Ret (None, rng)
      else
        '(expected_size, mask_pos) ← recv_expected_size udata payload;
        '(frame, rng) ← rws_frame_create rng;
        let frame := set_opcode opc frame in
        let frame := if decide (is_finshd = 0) then frame else set_finished true frame in
        let frame := set_header_size (u8 hsize) frame in
        frame ← recv_take_mask udata is_mskd mask_pos frame;
        if decide (opc = rws_opcode_connection_close \/ opc = rws_opcode_pong)
        then Ret (Some frame, rng)
        else
          let frame := if decide (is_finshd = 0) then set_finished false frame else frame in
          frame ← recv_take_payload udata is_mskd hsize expected_size frame;
          Ret (Some frame, rng)
    else Ret (None, rng)
  end.

(** The length field of an outgoing header and the size of the header so far. *)
Definition length_field (masked : bool) (size : Z) : list Z * Z :=
  let m := if masked then 128 else 0 in
  if decide (size < 126) then ([u8 (Z.lor (Z.land size 255) m)], 2)
  else if decide (size < 65536) then
    ([u8 (Z.lor 126 m); Z.land (Z.shiftr size 8) 255; Z.land size 255], 4)
  else
    ([u8 (Z.lor 127 m); 0; 0; 0; 0;
      Z.land (Z.shiftr size 24) 255; Z.land (Z.shiftr size 16) 255;
      Z.land (Z.shiftr size 8) 255; Z.land size 255], 10).

(** The part both header builders share after the first byte: the length field
    and, for a masked frame, the mask. *)
Definition finish_header (b0 : Z) (f : rws_frame) (data_size : Z) : list Z * rws_frame :=
  let '(len, hs) := length_field (is_masked f) (u32 data_size) in
  if is_masked f
  then (b0 :: len ++ mask f, set_header_size (u8 (hs + 4)) f)
  else (b0 :: len, set_header_size hs f).

(** The header bytes written through [header] and the updated frame. *)
Definition rws_frame_create_header (f : rws_frame) (data_size : Z) : list Z * rws_frame :=
  let fin := if is_finished f then 128 else 0 in
  finish_header (u8 (Z.lor fin (opcode f))) f data_size.

Definition litews_frame_create_bin_header (f : rws_frame) (data_size : Z) (bin_type : rws_binary)
  : list Z * rws_frame :=
  let b0 := match bin_type with
            | rws_binary_start => u8 (Z.lor 0 (opcode f))
            | rws_binary_continue => u8 (Z.lor 0 (opcode f))
            | rws_binary_finish => u8 (Z.lor 128 (opcode f))
            end in
  finish_header b0 f data_size.

(** The common tail of both encoders: allocate header plus payload, copy the
    header, copy and mask the payload when there is one. *)
Definition fill_body (header : list Z) (f : rws_frame) (src : option (list Z)) (size : Z)
  : outcome rws_frame :=
  let total := u32 (size + header_size f) in
  match rws_malloc total with
  | None => Ret (set_data None total f)
  | Some m =>
      m ← mem_write m 0 (ztake (header_size f) header);
      match src with
      | None => Ret (set_data (Some (Buf m 0)) total f)
      | Some src =>
          p ← mem_read src 0 size;
          m ← mem_write m (header_size f) p;
          m ← (if is_masked f
               then q ← mask_loop (mask f) 0 p; mem_write m (header_size f) q
               else Ret m);
          Ret (set_data (Some (Buf m 0)) total f)
      end
  end.

Definition rws_frame_fill_with_send_data (f : rws_frame) (src : option (list Z)) (data_size : Z)
  (is_finish : bool) : outcome rws_frame :=
  let f := set_finished is_finish f in
  let '(header, f) := rws_frame_create_header f data_size in
  fill_body header f src data_size.

(** [is_finished] is set last, and not on the path where the allocation fails. *)
Definition litews_frame_fill_with_send_bin_data (f : rws_frame) (src : option (list Z))
  (data_size : Z) (bin_type : rws_binary) : outcome rws_frame :=
  let '(header, f) := litews_frame_create_bin_header f data_size bin_type in
  f ← fill_body header f src data_size;
  match data f with
  | None => Ret f
  | Some _ => Ret (set_finished (bool_decide (bin_type = rws_binary_finish)) f)
  end.

(** [free] of a pointer that is not the start of a block is undefined. *)
Definition rws_free_buf (b : option buf) : outcome unit :=
  match b with
  | None => Ret tt
  | Some b => if decide (boff b = 0) then Ret tt else Crash
  end.

(** [comb_data] is advanced past the first part before it is stored in
    [to->data]: the stored pointer is [to->data_size] bytes into the block. *)
Definition rws_frame_combine_datas (to from : rws_frame) : outcome rws_frame :=
  let n := u32 (data_size to + data_size from) in
  comb ←
    match rws_malloc n with
    | None => Ret None
    | Some m =>
        m ← (if decide (is_Some (data to) /\ data_size to <> 0)
             then p ← frame_read to; mem_write m 0 p else Ret m);
        m ← (if decide (is_Some (data from) /\ data_size from <> 0)
             then p ← frame_read from; mem_write m (data_size to) p else Ret m);
        Ret (Some (Buf m (data_size to)))
    end;
  rws_free_buf (data to) ;;
  Ret (set_data comb n to).

Definition rws_frame_delete (f : option rws_frame) : outcome unit :=
  match f with
  | None => Ret tt
  | Some f => rws_free_buf (data f)
  end.

Definition rws_check_recv_frame_size (udata : option (list Z)) (data_size : Z) : outcome Z :=
  match udata with
  | None => Ret 0
  | Some udata =>
    if decide (2 <= data_size) then
      u1 ← mem_get udata 1;
      let is_mskd := Z.land (Z.shiftr u1 7) 1 in
      let payload := Z.land u1 127 in
      let hsize := recv_header_size is_mskd payload in
      if decide (data_size < hsize) then Ret 0
      else
        '(expected_size, _) ← recv_expected_size udata payload;
        let nPackSize := u32 (expected_size + hsize) in
        Ret (if decide (nPackSize <= data_size) then nPackSize else 0)
    else Ret 0
  end.

End Operations.

(** ** A concrete C library, for evaluation: every allocation succeeds with a
    zeroed block, and [rand] is a linear congruential generator *)

Definition plain_malloc (n : Z) : option (list Z) :=
  if decide (0 <= n) then Some (replicate (Z.to_nat n) 0) else None.
Definition plain_rand (st : Z) : Z * Z :=
  (st mod 2 ^ 31, (1103515245 * st + 12345) mod 2 ^ 31).

Lemma plain_malloc_len n m : plain_malloc n = Some m -> zlen m = n.
Proof.
  unfold plain_malloc. case_decide; [|done]. intros [= <-]. rewrite zlen_replicate. lia.
Qed.

Lemma plain_malloc_bytes n m : plain_malloc n = Some m -> bytes m.
Proof.
  unfold plain_malloc. case_decide; [|done]. intros [= <-].
  apply Forall_replicate. unfold is_byte. lia.
Qed.

Lemma plain_rand_range st : 0 <= (plain_rand st).1 <= RAND_MAX.
Proof. cbn. unfold RAND_MAX. pose proof (Z.mod_pos_bound st (2 ^ 31)). lia. Qed.

#[export] Instance libc_plain : Libc :=
  Build_Libc plain_malloc plain_malloc_len plain_malloc_bytes plain_rand plain_rand_range.
