(* ===== verification/WsFrameProofs.v ===== *)
(** * WebSocket frames: the wire format and the codec theorems

    [wire] is the frame layout of RFC 6455 as the firmware uses it.  The encoder
    of [rws_frame.c] produces it, the parser inverts it, and the parser stays
    inside the bytes that [rws_check_recv_frame_size] vouches for. *)

From S2P Require Import Prelude WsFrame.

(** ** The wire format, stated independently of the code *)

Fixpoint xor_from (k : list Z) (i : nat) (l : list Z) : list Z :=
  match l with
  | [] => []
  | b :: l => Z.lxor b (k !!! (i mod 4)%nat) :: xor_from k (S i) l
  end.

Definition wire_len (masked : bool) (n : Z) : list Z :=
  let m := if masked then 128 else 0 in
  if decide (n < 126) then [m + n]
  else if decide (n < 65536) then [m + 126; n / 256; n mod 256]
  else [m + 127; 0; 0; 0; 0;
        n / 2 ^ 24 mod 256; n / 2 ^ 16 mod 256; n / 2 ^ 8 mod 256; n mod 256].

Definition wire_body (m : option (list Z)) (p : list Z) : list Z :=
  match m with None => p | Some k => k ++ xor_from k 0 p end.

Definition wire (fin : bool) (opc : Z) (m : option (list Z)) (p : list Z) : list Z :=
  ((if fin then 128 else 0) + opc)
    :: wire_len (bool_decide (is_Some m)) (zlen p) ++ wire_body m p.

(** A frame the wire format can carry: a 4-bit opcode, a 4-byte mask if any,
    and a payload whose packet size stays below [2^32]. *)
Record wire_ok (opc : Z) (m : option (list Z)) (p : list Z) : Prop := {
  wok_opc : 0 <= opc < 16;
  wok_mask : forall k, m = Some k -> bytes k /\ length k = 4%nat;
  wok_bytes : bytes p;
  wok_len : zlen p + 14 < 2 ^ 32
}.

(** ** Bit-level facts *)

Lemma land_127 z : Z.land z 127 = z mod 128.
Proof. apply (Z.land_ones z 7). lia. Qed.

Lemma land_15 z : Z.land z 15 = z mod 16.
Proof. apply (Z.land_ones z 4). lia. Qed.

Lemma land_3 z : Z.land z 3 = z mod 4.
Proof. apply (Z.land_ones z 2). lia. Qed.

Lemma land_1 z : Z.land z 1 = z mod 2.
Proof. apply (Z.land_ones z 1). lia. Qed.

Lemma top_bit z : is_byte z -> Z.land (Z.shiftr z 7) 1 = z / 128.
Proof.
  unfold is_byte. intros Hz. rewrite land_1, Z.shiftr_div_pow2 by lia.
  change (2 ^ 7) with 128.
  Z.to_euclidean_division_equations. lia.
Qed.

Lemma lor_flag (b : bool) z :
  0 <= z < 128 -> Z.lor (if b then 128 else 0) z = (if b then 128 else 0) + z.
Proof.
  intros Hz. destruct b; [|by rewrite Z.lor_0_l].
  apply (lor_shift_add 1 z 7); lia.
Qed.

Lemma lor_flag_r (b : bool) z :
  0 <= z < 128 -> Z.lor z (if b then 128 else 0) = (if b then 128 else 0) + z.
Proof. rewrite Z.lor_comm. apply lor_flag. Qed.

Lemma shr_byte z n : 0 <= n -> Z.land (Z.shiftr z n) 255 = z / 2 ^ n mod 256.
Proof. intros. by rewrite land_255, Z.shiftr_div_pow2. Qed.

(** Reassembling four big-endian bytes. *)
Lemma be32_combine a b c d :
  is_byte a -> is_byte b -> is_byte c -> is_byte d ->
  Z.lor (Z.lor (Z.lor (u32 (Z.shiftl a 24)) (u32 (Z.shiftl b 16))) (u32 (Z.shiftl c 8))) d
  = a * 2 ^ 24 + b * 2 ^ 16 + c * 2 ^ 8 + d.
Proof.
  unfold is_byte. intros Ha Hb Hc Hd.
  rewrite !u32_id by (rewrite Z.shiftl_mul_pow2; lia).
  assert (Z.lor (Z.shiftl a 24) (Z.shiftl b 16) = Z.shiftl (a * 2 ^ 8 + b) 16) as ->.
  { rewrite <- (lor_shift_add a b 8) by lia.
    rewrite Z.shiftl_lor, Z.shiftl_shiftl by lia. reflexivity. }
  assert (Z.lor (Z.shiftl (a * 2 ^ 8 + b) 16) (Z.shiftl c 8)
          = Z.shiftl ((a * 2 ^ 8 + b) * 2 ^ 8 + c) 8) as ->.
  { rewrite <- (lor_shift_add _ c 8) by lia.
    rewrite Z.shiftl_lor, Z.shiftl_shiftl by lia. reflexivity. }
  rewrite lor_shift_add by lia. lia.
Qed.

Lemma be32_split n :
  0 <= n < 2 ^ 32 ->
  n / 2 ^ 24 mod 256 * 2 ^ 24 + n / 2 ^ 16 mod 256 * 2 ^ 16
  + n / 2 ^ 8 mod 256 * 2 ^ 8 + n mod 256 = n.
Proof.
  intros Hn. change (2 ^ 24) with 16777216. change (2 ^ 16) with 65536.
  change (2 ^ 8) with 256. change (2 ^ 32) with 4294967296 in Hn.
  Z.to_euclidean_division_equations. lia.
Qed.

Lemma byte_mod256 z : is_byte (z mod 256).
Proof. apply (Z.mod_pos_bound z 256). lia. Qed.
#[export] Hint Resolve byte_mod256 : fw.

(** ** The masking loop *)

Lemma mask_loop_xor k l (i : nat) :
  length k = 4%nat -> mask_loop k (Z.of_nat i) l = Ret (xor_from k i l).
Proof.
  intros Hk. revert i. induction l as [|b l IH]; intros i; [done|].
  cbn [mask_loop xor_from]. rewrite land_3.
  change 4 with (Z.of_nat 4) at 1. rewrite <- Nat2Z.inj_mod.
  assert (mem_get k (Z.of_nat (i mod 4)) = Ret (k !!! (i mod 4)%nat)) as ->.
  { unfold mem_get. rewrite decide_True, Nat2Z.id by lia.
    rewrite (list_lookup_lookup_total_lt k (i mod 4)); [done|].
    rewrite Hk. apply Nat.mod_upper_bound. lia. }
  cbn. replace (Z.of_nat i + 1) with (Z.of_nat (S i)) by lia. by rewrite IH.
Qed.

Lemma mask_loop_xor0 k l : length k = 4%nat -> mask_loop k 0 l = Ret (xor_from k 0 l).
Proof. apply (mask_loop_xor k l 0). Qed.

Lemma xor_from_length k i l : length (xor_from k i l) = length l.
Proof. revert i. induction l as [|b l IH]; intros i; cbn; [done|]. by rewrite IH. Qed.

Lemma xor_from_invol k i l : xor_from k i (xor_from k i l) = l.
Proof.
  revert i. induction l as [|b l IH]; intros i; cbn; [done|].
  rewrite IH. f_equal. rewrite Z.lxor_assoc, Z.lxor_nilpotent. apply Z.lxor_0_r.
Qed.

Lemma zlen_xor_from k i l : zlen (xor_from k i l) = zlen l.
Proof. unfold zlen. by rewrite xor_from_length. Qed.
#[export] Hint Rewrite zlen_xor_from : zlen.

Lemma lxor_byte a b : is_byte a -> is_byte b -> is_byte (Z.lxor a b).
Proof.
  unfold is_byte. intros Ha Hb. split; [apply Z.lxor_nonneg; lia|].
  destruct (Z.eq_dec (Z.lxor a b) 0) as [->|Hn]; [lia|].
  assert (0 <= Z.lxor a b) by (apply Z.lxor_nonneg; lia).
  apply Z.log2_lt_cancel. change (Z.log2 256) with 8.
  eapply Z.le_lt_trans; [apply Z.log2_lxor; lia|].
  assert (forall x, 0 <= x < 256 -> Z.log2 x < 8) as Hlog.
  { intros x Hx. destruct (decide (x = 0)) as [->|]; [done|].
    apply Z.log2_lt_pow2; lia. }
  specialize (Hlog a Ha) as H1. specialize (Hlog b Hb) as H2. lia.
Qed.

(** ** Encoder *)

Lemma wire_len_field masked n :
  0 <= n < 2 ^ 32 ->
  length_field masked n = (wire_len masked n, zlen (wire_len masked n) + 1).
Proof.
  intros Hn. unfold length_field, wire_len.
  destruct (decide (n < 126)).
  { rewrite land_255, Z.mod_small by lia. rewrite lor_flag_r by lia.
    rewrite u8_id by (unfold is_byte; destruct masked; lia). done. }
  assert (forall k, 0 <= k < 128 ->
    u8 (Z.lor k (if masked then 128 else 0)) = (if masked then 128 else 0) + k) as Hb.
  { intros k Hk. rewrite lor_flag_r by lia. apply u8_id. unfold is_byte. destruct masked; lia. }
  destruct (decide (n < 65536)).
  - rewrite Hb, shr_byte, land_255 by lia. change (2 ^ 8) with 256.
    rewrite (Z.mod_small (n / 256)); [done|].
    split; [apply Z.div_pos; lia | apply Z.div_lt_upper_bound; lia].
  - rewrite Hb, !shr_byte, land_255 by lia. done.
Qed.

(** The mask a frame is sent with. *)
Definition frame_mask (f : rws_frame) : option (list Z) :=
  if is_masked f then Some (mask f) else None.

Lemma finish_header_wire b0 f n :
  0 <= n < 2 ^ 32 -> length (mask f) = 4%nat ->
  finish_header b0 f n =
    let h := b0 :: wire_len (is_masked f) n ++ (if is_masked f then mask f else []) in
    (h, set_header_size (zlen h) f).
Proof.
  intros Hn Hm. unfold finish_header. rewrite u32_id by lia.
  rewrite wire_len_field by lia. cbn zeta.
  assert (zlen (mask f) = 4) as Hz by (unfold zlen; lia).
  assert (0 <= zlen (wire_len (is_masked f) n) <= 9) as Hl.
  { unfold wire_len, zlen. repeat case_decide; cbn [length]; lia. }
  destruct (is_masked f) eqn:E.
  - f_equal. f_equal. rewrite u8_id by (unfold is_byte; lia). zl.
  - rewrite app_nil_r. f_equal. f_equal. zl.
Qed.

(** ** Parser: reading back the length field *)

Definition flag (b : bool) : Z := if b then 1 else 0.

Lemma flag_div (b : bool) n : 0 <= n < 128 -> ((if b then 128 else 0) + n) / 128 = flag b.
Proof. intros. symmetry. apply (Z.div_unique _ _ _ n); destruct b; unfold flag; lia. Qed.

Lemma flag_mod (b : bool) n : 0 <= n < 128 -> ((if b then 128 else 0) + n) mod 128 = n.
Proof. intros. symmetry. apply (Z.mod_unique _ _ (flag b)); destruct b; unfold flag; lia. Qed.

Lemma wire_len_decode b0 masked n tail :
  0 <= n < 2 ^ 32 ->
  let l := b0 :: wire_len masked n ++ tail in
  let hl := 1 + zlen (wire_len masked n) in
  exists u1, mem_get l 1 = Ret u1 /\ is_byte u1 /\
    Z.land (Z.shiftr u1 7) 1 = flag masked /\
    recv_header_size (flag masked) (Z.land u1 127) = hl + 4 * flag masked /\
    recv_expected_size l (Z.land u1 127) = Ret (n, hl).
Proof.
  intros Hn. cbn zeta. unfold wire_len, recv_header_size, recv_expected_size.
  destruct (decide (n < 126)); [|destruct (decide (n < 65536))].
  - exists ((if masked then 128 else 0) + n). split; [done|].
    assert (is_byte ((if masked then 128 else 0) + n)) by (unfold is_byte; destruct masked; lia).
    split; [done|]. rewrite top_bit, land_127 by done.
    rewrite flag_mod by lia.
    rewrite !(decide_False (P := n = _)), (decide_True (P := n <= 125)) by lia.
    split; [apply flag_div; lia|].
    split; [by destruct masked|done].
  - exists ((if masked then 128 else 0) + 126). split; [done|].
    split; [unfold is_byte; destruct masked; lia|].
    split; [by destruct masked|]. split; [by destruct masked|].
    assert (Z.land ((if masked then 128 else 0) + 126) 127 = 126) as -> by (by destruct masked).
    rewrite (decide_True (P := 126 = 126)) by done. cbn [app].
    change (mem_get _ 2) with (Ret (n / 256)). change (mem_get _ 3) with (Ret (n mod 256)).
    cbn [mbind outcome_bind]. do 2 f_equal.
    rewrite u32_id, lor_shift_add by (rewrite ?Z.shiftl_mul_pow2;
      Z.to_euclidean_division_equations; lia).
    change (2 ^ 8) with 256. Z.to_euclidean_division_equations. lia.
  - exists ((if masked then 128 else 0) + 127). split; [done|].
    split; [unfold is_byte; destruct masked; lia|].
    split; [by destruct masked|]. split; [by destruct masked|].
    assert (Z.land ((if masked then 128 else 0) + 127) 127 = 127) as -> by (by destruct masked).
    rewrite (decide_False (P := 127 = 126)), (decide_True (P := 127 = 127)) by done. cbn [app].
    change (mem_get _ 6) with (Ret (n / 2 ^ 24 mod 256)).
    change (mem_get _ 7) with (Ret (n / 2 ^ 16 mod 256)).
    change (mem_get _ 8) with (Ret (n / 2 ^ 8 mod 256)).
    change (mem_get _ 9) with (Ret (n mod 256)).
    cbn [mbind outcome_bind]. rewrite be32_combine by auto with fw.
    by rewrite be32_split.
Qed.

Section Codec.
Context `{LC : Libc}.

Definition can_alloc (n : Z) : Prop := is_Some (malloc n).

Lemma rws_malloc_some n :
  0 < n -> can_alloc n -> exists m, rws_malloc n = Some m /\ zlen m = n.
Proof.
  intros Hn [m Hm]. exists m. unfold rws_malloc. rewrite decide_True by done.
  split; [done|]. by apply malloc_len.
Qed.

(** The shared encoder tail lays out header and (masked) payload. *)
Lemma fill_body_wire h f p :
  header_size f = zlen h -> 0 < zlen h -> zlen h + zlen p < 2 ^ 32 ->
  (is_masked f = true -> length (mask f) = 4%nat) ->
  can_alloc (zlen p + zlen h) ->
  fill_body h f (Some p) (zlen p) =
    let w := h ++ (if is_masked f then xor_from (mask f) 0 p else p) in
    Ret (set_data (Some (Buf w 0)) (zlen w) f).
Proof.
  intros Hh Hpos Hsz Hm Ha. unfold fill_body. rewrite Hh.
  pose proof (zlen_nonneg p). rewrite u32_id by lia.
  destruct (rws_malloc_some (zlen p + zlen h)) as (m & -> & Hlen); [lia|done|].
  rewrite ztake_all by lia.
  rewrite <- (ztake_zdrop (zlen h) m).
  assert (zlen (ztake (zlen h) m) = zlen h) as H1 by (apply zlen_ztake; lia).
  assert (zlen (zdrop (zlen h) m) = zlen p) as H2 by (rewrite zlen_zdrop; lia).
  remember (ztake (zlen h) m) as a. remember (zdrop (zlen h) m) as b. clear Heqa Heqb.
  pose proof (mem_write_exact [] a h b H1) as W1. cbn [app] in W1.
  change (zlen []) with 0 in W1. rewrite W1. cbn [mbind outcome_bind].
  pose proof (mem_read_exact [] p []) as R1. cbn [app] in R1. rewrite app_nil_r in R1.
  change (zlen []) with 0 in R1. rewrite R1. cbn [mbind outcome_bind].
  pose proof (mem_write_exact h b p []) as W2. rewrite !app_nil_r in W2.
  rewrite W2 by lia. cbn [mbind outcome_bind].
  destruct (is_masked f) eqn:E; cbn [mbind outcome_bind].
  - rewrite mask_loop_xor0 by auto. cbn [mbind outcome_bind].
    pose proof (mem_write_exact h p (xor_from (mask f) 0 p) []) as W3.
    rewrite !app_nil_r in W3. rewrite W3 by (by rewrite zlen_xor_from).
    cbn [mbind outcome_bind]. do 2 f_equal. zl.
  - do 2 f_equal. zl.
Qed.

(** ** What the encoder puts on the wire *)

Lemma wire_split fin opc f p :
  ((if fin : bool then 128 else 0) + opc)
    :: (wire_len (is_masked f) (zlen p) ++ (if is_masked f then mask f else []))
    ++ (if is_masked f then xor_from (mask f) 0 p else p)
  = wire fin opc (frame_mask f) p.
Proof.
  unfold wire, wire_body, frame_mask.
  destruct (is_masked f); cbn; by rewrite <- ?app_assoc, ?app_nil_r.
Qed.

Lemma zlen_wire fin opc m p k :
  (m = None /\ k = 0 \/ exists q, m = Some q /\ zlen q = k) ->
  zlen (wire fin opc m p) = 1 + zlen (wire_len (bool_decide (is_Some m)) (zlen p)) + k + zlen p.
Proof.
  unfold wire, wire_body. intros [[-> ->]|(q & -> & <-)]; zl.
Qed.

Lemma wire_len_bounds masked n : 1 <= zlen (wire_len masked n) <= 9.
Proof. unfold wire_len, zlen. repeat case_decide; cbn [length]; lia. Qed.

Lemma encode_generic b0 fin opc f p :
  b0 = (if fin : bool then 128 else 0) + opc ->
  length (mask f) = 4%nat -> zlen p + 14 < 2 ^ 32 ->
  can_alloc (zlen (wire fin opc (frame_mask f) p)) ->
  exists n hs,
  (let '(header, f) := finish_header b0 f (zlen p) in fill_body header f (Some p) (zlen p))
  = Ret (set_data (Some (Buf (wire fin opc (frame_mask f) p) 0)) n (set_header_size hs f))
  /\ n = zlen (wire fin opc (frame_mask f) p).
Proof.
  intros -> Hm Hp Ha. pose proof (zlen_nonneg p).
  rewrite finish_header_wire by (done || lia). cbn zeta.
  set (h := _ :: _ ++ _). exists (zlen (wire fin opc (frame_mask f) p)), (zlen h).
  pose proof (wire_len_bounds (is_masked f) (zlen p)) as Hb.
  assert (zlen h <= 14 /\ 0 < zlen h) as [Hh1 Hh2].
  { subst h. destruct (is_masked f); autorewrite with zlen; unfold zlen in *; cbn [length]; lia. }
  assert (zlen p + zlen h = zlen (wire fin opc (frame_mask f) p)) as Hsz.
  { rewrite <- wire_split. subst h. destruct (is_masked f); zl. }
  rewrite fill_body_wire; [|done|lia|lia|by intros|by rewrite Hsz].
  cbn zeta. rewrite <- wire_split. cbn [is_masked mask set_header_size].
  split; [|done]. do 2 f_equal.
Qed.

(** A frame with a data pointer to the start of its block and a payload [p]. *)
Definition holds (f : rws_frame) (p : list Z) : Prop :=
  data f = Some (Buf p 0) /\ data_size f = zlen p.

Lemma holds_read f p : holds f p -> frame_read f = Ret p.
Proof.
  intros [Hd Hs]. unfold frame_read. rewrite Hd, Hs. cbn.
  pose proof (mem_read_exact [] p []) as R. by rewrite app_nil_r in R.
Qed.

(** The text/control frame encoder [rws_frame_fill_with_send_data] puts
    exactly the wire image of the frame (FIN bit, opcode, shortest length field,
    mask, masked payload) into [frame->data], for every payload the 32-bit
    length can describe, and keeps opcode, mask and FIN. *)
Lemma fill_encodes f p fin :
  wire_ok (opcode f) (frame_mask f) p ->
  length (mask f) = 4%nat ->
  can_alloc (zlen (wire fin (opcode f) (frame_mask f) p)) ->
  exists f', rws_frame_fill_with_send_data f (Some p) (zlen p) fin = Ret f' /\
    holds f' (wire fin (opcode f) (frame_mask f) p) /\
    opcode f' = opcode f /\ frame_mask f' = frame_mask f /\ is_finished f' = fin.
Proof.
  intros Hok Hm Ha. pose proof (wok_opc _ _ _ Hok). pose proof (wok_len _ _ _ Hok).
  unfold rws_frame_fill_with_send_data, rws_frame_create_header.
  edestruct (encode_generic (u8 (Z.lor (if fin then 128 else 0) (opcode f))) fin (opcode f)
    (set_finished fin f) p) as (n & hs & E & ->); [|done|lia|done|].
  { rewrite lor_flag by lia. apply u8_id. unfold is_byte. destruct fin; lia. }
  cbn [is_finished set_finished opcode]. rewrite E.
  eexists. split; [done|]. split; [by split|done].
Qed.

Lemma bin_fill_encodes f p bt :
  wire_ok (opcode f) (frame_mask f) p ->
  length (mask f) = 4%nat ->
  let fin := bool_decide (bt = rws_binary_finish) in
  can_alloc (zlen (wire fin (opcode f) (frame_mask f) p)) ->
  exists f', litews_frame_fill_with_send_bin_data f (Some p) (zlen p) bt = Ret f' /\
    holds f' (wire fin (opcode f) (frame_mask f) p) /\
    opcode f' = opcode f /\ frame_mask f' = frame_mask f /\ is_finished f' = fin.
Proof.
  intros Hok Hm fin Ha. pose proof (wok_opc _ _ _ Hok). pose proof (wok_len _ _ _ Hok).
  unfold litews_frame_fill_with_send_bin_data, litews_frame_create_bin_header.
  edestruct (encode_generic ((if fin then 128 else 0) + opcode f) fin (opcode f) f p)
    as (n & hs & E & ->); [done|done|lia|done|].
  assert ((match bt with
           | rws_binary_start | rws_binary_continue => u8 (Z.lor 0 (opcode f))
           | rws_binary_finish => u8 (Z.lor 128 (opcode f))
           end) = (if fin then 128 else 0) + opcode f) as ->.
  { pose proof (lor_flag true (opcode f) ltac:(lia)) as L.
    destruct bt; [change fin with false|change fin with false|change fin with true];
      rewrite ?Z.lor_0_l, ?L; apply u8_id; unfold is_byte; lia. }
  destruct (finish_header _ f (zlen p)) as [h f1]. rewrite E. cbn [mbind outcome_bind data set_data].
  eexists. split; [done|]. split; [by split|done].
Qed.

(** The binary-stream encoder [litews_frame_fill_with_send_bin_data] sends
    the same wire format, with FIN set exactly on [rws_binary_finish]. *)
Theorem ws_bin_fill_encodes f p bt :
  wire_ok (opcode f) (frame_mask f) p ->
  length (mask f) = 4%nat ->
  let fin := bool_decide (bt = rws_binary_finish) in
  can_alloc (zlen (wire fin (opcode f) (frame_mask f) p)) ->
  exists f', litews_frame_fill_with_send_bin_data f (Some p) (zlen p) bt = Ret f' /\
    frame_read f' = Ret (wire fin (opcode f) (frame_mask f) p) /\
    opcode f' = opcode f /\ frame_mask f' = frame_mask f /\ is_finished f' = fin.
Proof.
  intros Hok Hm fin Ha. destruct (bin_fill_encodes f p bt Hok Hm Ha) as (f' & E & Hh & H).
  exists f'. split; [done|]. split; [by apply holds_read|done].
Qed.

(** ** What the parser recovers *)

Lemma frame_create_ok rng :
  can_alloc sizeof_frame ->
  exists k rng', rws_frame_create rng = Ret (Frame None 0 0 k false false 0, rng') /\
                 length k = 4%nat /\ bytes k.
Proof.
  intros Ha. unfold rws_frame_create, rws_malloc_zero.
  destruct (rws_malloc_some sizeof_frame) as (m & -> & _); [by vm_compute|done|].
  destruct (rand rng) as [r1 rng1]. destruct (rand rng1) as [r2 rng2].
  eexists _, _. split; [done|]. split; [done|]. apply bytes_le32.
Qed.

Lemma wire_first_byte fin opc :
  0 <= opc < 16 ->
  let u0 := (if fin : bool then 128 else 0) + opc in
  is_byte u0 /\ Z.land u0 15 = opc /\ Z.land (Z.shiftr u0 7) 1 = flag fin.
Proof.
  intros Ho u0. assert (is_byte u0) as Hb by (subst u0; unfold is_byte; destruct fin; lia).
  split; [done|]. rewrite top_bit, land_15 by done. subst u0. split.
  - symmetry. apply (Z.mod_unique _ _ (8 * flag fin)); destruct fin; unfold flag; lia.
  - apply flag_div. lia.
Qed.

Definition has_mask (m : option (list Z)) : bool := bool_decide (is_Some m).

(** The wire image as first byte, length field and body, with its size. *)
Lemma wire_shape fin opc m p rest :
  wire_ok opc m p ->
  let hd := ((if fin : bool then 128 else 0) + opc) :: wire_len (has_mask m) (zlen p) in
  wire fin opc m p ++ rest = hd ++ wire_body m p ++ rest /\
  zlen (wire fin opc m p) = zlen hd + 4 * flag (has_mask m) + zlen p /\
  2 <= zlen hd <= 10 /\ 0 <= flag (has_mask m) <= 1.
Proof.
  intros Hok hd. unfold wire. fold (has_mask m). fold hd.
  pose proof (wire_len_bounds (has_mask m) (zlen p)).
  split; [subst hd; cbn [app]; by rewrite <- app_assoc|].
  split; [|split; [subst hd; zl|destruct m; cbn; lia]].
  subst hd. destruct m as [k|]; cbn [wire_body has_mask]; autorewrite with zlen.
  - destruct (wok_mask _ _ _ Hok k eq_refl) as [_ Hk].
    change (flag (has_mask (Some k))) with 1. unfold zlen in *. lia.
  - change (flag (has_mask None)) with 0. lia.
Qed.

Lemma take_mask_wire hd m p rest f :
  (forall k, m = Some k -> length k = 4%nat) ->
  recv_take_mask (hd ++ wire_body m p ++ rest) (flag (has_mask m)) (zlen hd) f
  = Ret (match m with Some k => set_mask k (set_masked true f) | None => f end).
Proof.
  intros Hk. unfold recv_take_mask. destruct m as [k|]; [|done].
  change (flag (has_mask (Some k))) with 1. rewrite decide_False by done.
  cbn [wire_body]. rewrite <- (app_assoc k).
  assert (4 = zlen k) as -> by (unfold zlen; rewrite (Hk k eq_refl); done).
  by rewrite mem_read_exact.
Qed.

Lemma take_payload_wire hd m p rest f :
  (forall k, m = Some k -> length k = 4%nat /\ mask f = k) ->
  (0 < zlen p -> can_alloc (zlen p)) ->
  recv_take_payload (hd ++ wire_body m p ++ rest) (flag (has_mask m))
    (zlen hd + 4 * flag (has_mask m)) (zlen p) f
  = Ret (if decide (0 < zlen p) then set_data (Some (Buf p 0)) (zlen p) f else f).
Proof.
  intros Hk Ha. unfold recv_take_payload. case_decide as Hp; [|done].
  destruct (rws_malloc_some (zlen p) Hp (Ha Hp)) as (b & -> & Hb).
  assert (mem_write b 0 p = Ret p) as W.
  { pose proof (mem_write_exact [] b p [] Hb) as W. by rewrite !app_nil_r in W. }
  destruct m as [k|].
  - destruct (Hk k eq_refl) as [Hk4 Hm]. change (flag (has_mask (Some k))) with 1.
    cbn [wire_body]. rewrite <- (app_assoc k), (app_assoc hd).
    replace (zlen hd + 4 * 1) with (zlen (hd ++ k)) by (rewrite zlen_app; unfold zlen; lia).
    rewrite <- (zlen_xor_from k 0 p) at 1. rewrite mem_read_exact. cbn [mbind outcome_bind].
    rewrite (decide_False (P := 1 = 0)) by done. rewrite Hm, mask_loop_xor0 by done.
    cbn [mbind outcome_bind]. rewrite xor_from_invol, W. done.
  - change (flag (has_mask None)) with 0. rewrite Z.mul_0_r, Z.add_0_r. cbn [wire_body].
    rewrite mem_read_exact. cbn [mbind outcome_bind].
    rewrite (decide_True (P := 0 = 0)) by done. cbn [mbind outcome_bind]. by rewrite W.
Qed.

Lemma check_wire fin opc m p rest n :
  wire_ok opc m p -> zlen (wire fin opc m p) <= n ->
  rws_check_recv_frame_size (Some (wire fin opc m p ++ rest)) n
  = Ret (zlen (wire fin opc m p)).
Proof.
  intros Hok Hn. pose proof (wok_len _ _ _ Hok). pose proof (zlen_nonneg p).
  destruct (wire_shape fin opc m p rest Hok) as (Ew & Hw & Hh & Hf).
  destruct (wire_len_decode ((if fin then 128 else 0) + opc) (has_mask m) (zlen p)
              (wire_body m p ++ rest)) as (u1 & G1 & _ & T1 & Hs & E1); [lia|].
  unfold rws_check_recv_frame_size. rewrite decide_True by lia.
  rewrite Ew. cbn [app]. rewrite G1. cbn [mbind outcome_bind]. rewrite T1, Hs.
  rewrite zlen_cons in *. rewrite decide_False by lia.
  rewrite E1. cbn [mbind outcome_bind]. rewrite u32_id by lia.
  rewrite decide_True by lia. f_equal. lia.
Qed.

(** On the wire image of a data or ping frame followed by any further
    bytes, [rws_check_recv_frame_size] reports exactly the frame's length, and
    [rws_frame_create_with_recv_data] on that many bytes recovers the opcode,
    FIN, mask and the unmasked payload. *)
Lemma recv_decodes rng fin opc m p rest :
  wire_ok opc m p ->
  opc <> rws_opcode_connection_close -> opc <> rws_opcode_pong ->
  can_alloc sizeof_frame -> (0 < zlen p -> can_alloc (zlen p)) ->
  let w := wire fin opc m p in
  rws_check_recv_frame_size (Some (w ++ rest)) (zlen (w ++ rest)) = Ret (zlen w) /\
  exists g rng', rws_frame_create_with_recv_data rng (Some (w ++ rest)) (zlen w)
                 = Ret (Some g, rng') /\
    opcode g = opc /\ is_finished g = fin /\ frame_mask g = m /\
    frame_read g = Ret p /\ data_size g = zlen p /\
    (0 < zlen p -> data g = Some (Buf p 0)).
Proof.
  intros Hok Hc Hpong Hsz Hap w. split.
  { apply check_wire; [done|]. subst w. rewrite zlen_app. pose proof (zlen_nonneg rest). lia. }
  pose proof (wok_len _ _ _ Hok). pose proof (zlen_nonneg p).
  assert (forall k, m = Some k -> length k = 4%nat) as Hk4 by (intros; by eapply wok_mask).
  destruct (wire_shape fin opc m p rest Hok) as (Ew & Hw & Hh & Hf).
  destruct (wire_len_decode ((if fin then 128 else 0) + opc) (has_mask m) (zlen p)
              (wire_body m p ++ rest)) as (u1 & G1 & _ & T1 & Hs & E1); [lia|].
  destruct (wire_first_byte fin opc) as (_ & O0 & F0); [apply (wok_opc _ _ _ Hok)|].
  destruct (frame_create_ok rng Hsz) as (k0 & rng' & C0 & _).
  unfold rws_frame_create_with_recv_data. fold w in Ew, Hw. rewrite decide_True by lia.
  rewrite Ew. set (hd := _ :: wire_len _ _) in *.
  assert (1 + zlen (wire_len (has_mask m) (zlen p)) = zlen hd) as Hhd by (subst hd; zl).
  rewrite Hhd in Hs, E1.
  change (_ :: wire_len _ _ ++ wire_body m p ++ rest)
    with (hd ++ wire_body m p ++ rest) in G1, E1.
  rewrite G1. change (mem_get _ 0) with (Ret ((if fin then 128 else 0) + opc)).
  cbn [mbind outcome_bind]. rewrite O0, F0, T1, Hs, (decide_False (P := zlen w < _)) by lia.
  rewrite E1. cbn [mbind outcome_bind]. rewrite C0. cbn [mbind outcome_bind].
  rewrite take_mask_wire by done. cbn [mbind outcome_bind].
  rewrite (decide_False (P := _ \/ _)) by tauto.
  rewrite take_payload_wire; [|intros k ->; split; [auto|by destruct fin]|done].
  eexists _, _. split; [done|].
  destruct (decide (0 < zlen p)) as [Hp|Hp].
  - assert (mem_read p 0 (zlen p) = Ret p) as R.
    { pose proof (mem_read_exact [] p []) as R. by rewrite app_nil_r in R. }
    by destruct m, fin.
  - assert (p = []) as -> by (apply zlen_nil_inv; lia).
    by destruct m, fin.
Qed.

(** ** Memory safety of the parser *)

(** The position of the mask, as a function of the 7-bit length. *)
Definition mask_at (payload : Z) : Z :=
  if decide (payload = 126) then 4 else if decide (payload = 127) then 10 else 2.

Lemma header_size_at mk payload :
  recv_header_size mk payload = mask_at payload + (if decide (mk = 0) then 0 else 4).
Proof. unfold recv_header_size, mask_at. repeat case_decide; lia. Qed.

Lemma expected_size_ok l payload :
  bytes l -> 0 <= payload <= 127 -> mask_at payload <= zlen l ->
  exists e, recv_expected_size l payload = Ret (e, mask_at payload) /\ 0 <= e < 2 ^ 32.
Proof.
  intros Hl Hp. unfold recv_expected_size, mask_at.
  repeat case_decide; subst; intros Hlen; try lia.
  - destruct (mem_get_ok l 2) as [b2 G2]; [lia|]. destruct (mem_get_ok l 3) as [b3 G3]; [lia|].
    pose proof (mem_get_byte _ _ _ Hl G2) as B2. pose proof (mem_get_byte _ _ _ Hl G3) as B3.
    rewrite G2, G3. cbn [mbind outcome_bind]. eexists. split; [done|]. unfold is_byte in *.
    rewrite u32_id, lor_shift_add by (rewrite ?Z.shiftl_mul_pow2; lia). lia.
  - destruct (mem_get_ok l 6) as [b6 G6]; [lia|]. destruct (mem_get_ok l 7) as [b7 G7]; [lia|].
    destruct (mem_get_ok l 8) as [b8 G8]; [lia|]. destruct (mem_get_ok l 9) as [b9 G9]; [lia|].
    rewrite G6, G7, G8, G9. cbn [mbind outcome_bind]. eexists. split; [done|].
    rewrite be32_combine by (eapply mem_get_byte; eauto).
    pose proof (mem_get_byte _ _ _ Hl G6) as B6. pose proof (mem_get_byte _ _ _ Hl G7) as B7.
    pose proof (mem_get_byte _ _ _ Hl G8) as B8. pose proof (mem_get_byte _ _ _ Hl G9) as B9.
    unfold is_byte in *. lia.
  - eexists. split; [done|]. lia.
Qed.

Lemma expected_size_local l n payload :
  mask_at payload <= n ->
  recv_expected_size (ztake n l) payload = recv_expected_size l payload.
Proof.
  unfold recv_expected_size, mask_at. repeat case_decide; intros Hn;
    rewrite ?mem_get_ztake by lia; done.
Qed.

Lemma mask_loop_returns k p i : length k = 4%nat -> 0 <= i -> exists q,
  mask_loop k i p = Ret q /\ zlen q = zlen p.
Proof.
  intros Hk Hi. exists (xor_from k (Z.to_nat i) p).
  rewrite <- (Z2Nat.id i) at 1 by done. rewrite mask_loop_xor, zlen_xor_from; done.
Qed.

Lemma take_payload_safe l mk hs e f :
  length (mask f) = 4%nat -> 0 <= hs -> hs + e <= zlen l ->
  (0 < e -> can_alloc e) -> returns (recv_take_payload l mk hs e f).
Proof.
  intros Hm Hh Hl Ha. unfold recv_take_payload, returns. case_decide as He; [|eauto].
  destruct (rws_malloc_some e He (Ha He)) as (b & -> & Hb).
  rewrite mem_read_ok by lia. cbn [mbind outcome_bind].
  set (p := ztake e (zdrop hs l)).
  assert (zlen p = e) as Hp.
  { subst p. rewrite zlen_ztake; [done|]. rewrite zlen_zdrop; lia. }
  assert (exists q, (if decide (mk = 0) then Ret p else mask_loop (mask f) 0 p) = Ret q
                    /\ zlen q = e) as (q & -> & Hq).
  { case_decide; [eauto|]. destruct (mask_loop_returns (mask f) p 0) as (q & -> & ?); try done.
    exists q. split; [done|lia]. }
  cbn [mbind outcome_bind]. unfold mem_write. rewrite decide_True by lia. eauto.
Qed.

Lemma take_mask_safe l mk pos f :
  length (mask f) = 4%nat -> 0 <= pos -> pos + (if decide (mk = 0) then 0 else 4) <= zlen l ->
  exists g, recv_take_mask l mk pos f = Ret g /\ length (mask g) = 4%nat.
Proof.
  intros Hm Hp Hl. unfold recv_take_mask. destruct (decide (mk = 0)); [eauto|].
  rewrite mem_read_ok by lia. eexists. split; [done|]. cbn.
  assert (zlen (ztake 4 (zdrop pos l)) = 4) as E.
  { apply zlen_ztake. rewrite zlen_zdrop; lia. }
  unfold zlen in E. lia.
Qed.

Lemma check_safe l n :
  bytes l -> n <= zlen l ->
  exists k, rws_check_recv_frame_size (Some l) n = Ret k /\ 0 <= k <= Z.max 0 n.
Proof.
  intros Hl Hn. unfold rws_check_recv_frame_size. case_decide as H2; [|exists 0; split; [done|lia]].
  destruct (mem_get_ok l 1) as [u1 G1]; [lia|]. rewrite G1. cbn [mbind outcome_bind].
  rewrite land_127, header_size_at. case_decide as Hh; [exists 0; split; [done|lia]|].
  pose proof (Z.mod_pos_bound u1 128 ltac:(lia)).
  destruct (expected_size_ok l (u1 mod 128)) as (e & -> & He); [done|lia|case_decide; lia|].
  cbn [mbind outcome_bind]. eexists. split; [done|].
  match goal with |- context [u32 ?x] => pose proof (u32_range x); generalize dependent (u32 x) end.
  intros q Hq. destruct (decide (q <= n)); lia.
Qed.

(** The size check only looks at the first [n] bytes. *)
Lemma check_local l junk :
  rws_check_recv_frame_size (Some (l ++ junk)) (zlen l) = rws_check_recv_frame_size (Some l) (zlen l).
Proof.
  unfold rws_check_recv_frame_size. case_decide as H2; [|done].
  rewrite mem_get_app_l by lia. destruct (mem_get l 1) as [u1|] eqn:G1; [|done].
  cbn [mbind outcome_bind]. destruct (decide (zlen l < _)) as [|Hh]; [done|].
  rewrite header_size_at in Hh.
  assert (mask_at (Z.land u1 127) <= zlen l) as Hm by (destruct (decide (_ = 0)); lia).
  rewrite <- (expected_size_local (l ++ junk) (zlen l)) by done.
  by rewrite ztake_app_exact by done.
Qed.

(** C35. For any received bytes, [rws_check_recv_frame_size] returns (it never
    reads outside the buffer) a size within the buffered length, and
    [rws_frame_create_with_recv_data], given exactly the reported bytes and
    nothing after them, returns without reading past them, also when the 32-bit
    packet size wrapped around; the allocator has to serve the header-sized frame
    and any payload within the reported size. *)
Theorem ws_parse_safe rng l n :
  bytes l -> zlen l < 2 ^ 32 -> n <= zlen l ->
  can_alloc sizeof_frame -> (forall e, 0 < e <= zlen l -> can_alloc e) ->
  exists k, rws_check_recv_frame_size (Some l) n = Ret k /\ 0 <= k <= Z.max 0 n /\
    (0 < k -> returns (rws_frame_create_with_recv_data rng (Some (ztake k l)) k)).
Proof.
  intros Hl Hlt Hn Hsz Ha. destruct (check_safe l n Hl Hn) as (k & Hk & Hkr).
  exists k. split; [done|]. split; [done|]. intros Hpos. revert Hk.
  unfold rws_check_recv_frame_size, rws_frame_create_with_recv_data.
  case_decide as H2; [|intros [= ]; lia].
  destruct (mem_get_ok l 1) as [u1 G1]; [lia|]. rewrite G1. cbn [mbind outcome_bind].
  rewrite land_127, header_size_at. set (hs := mask_at _ + _).
  case_decide as Hh; [intros [= ]; lia|].
  pose proof (Z.mod_pos_bound u1 128 ltac:(lia)).
  assert (2 <= mask_at (u1 mod 128) <= hs) as Hhs.
  { subst hs. unfold mask_at. repeat case_decide; lia. }
  destruct (expected_size_ok l (u1 mod 128)) as (e & E & He); [done|lia|lia|].
  rewrite E. cbn [mbind outcome_bind]. case_decide as Hpk; intros [= Hk]; [|lia].
  case_decide as H2k; [|by eexists].
  destruct (mem_get_ok l 0) as [u0 G0]; [lia|].
  rewrite !mem_get_ztake by lia. rewrite G0, G1. cbn [mbind outcome_bind].
  rewrite land_127, header_size_at. fold hs. case_decide as Hks; [by eexists|].
  assert (k = e + hs) as Hke.
  { unfold u32 in Hk. destruct (decide (e + hs < 2 ^ 32)); [rewrite Z.mod_small in Hk; lia|].
    rewrite <- (Z.mod_unique (e + hs) (2 ^ 32) 1 (e + hs - 2 ^ 32)) in Hk; lia. }
  rewrite expected_size_local, E by lia. cbn [mbind outcome_bind].
  destruct (frame_create_ok rng Hsz) as (k0 & rng' & -> & Hk0 & _). cbn [mbind outcome_bind].
  assert (zlen (ztake k l) = k) as Hkl by (apply zlen_ztake; lia).
  edestruct (take_mask_safe (ztake k l)) as (g & -> & Hg); [| | |cbn [mbind outcome_bind]].
  - by case_decide.
  - lia.
  - subst hs. lia.
  - case_decide; [by eexists|].
    edestruct (take_payload_safe (ztake k l)) as [g' ->]; [| | | |by eexists].
    + by case_decide.
    + lia.
    + lia.
    + intros. apply Ha. lia.
Qed.

(** ** The codec theorems *)


(** Frames from the server, masked or not: on the wire image of a data or
    ping frame followed by any further bytes, [rws_check_recv_frame_size] reports
    exactly the frame's length, and [rws_frame_create_with_recv_data] on that many
    bytes recovers the opcode, FIN, mask and the unmasked payload. *)
Theorem ws_recv_decodes rng fin opc m p rest :
  wire_ok opc m p ->
  opc <> rws_opcode_connection_close -> opc <> rws_opcode_pong ->
  can_alloc sizeof_frame -> (0 < zlen p -> can_alloc (zlen p)) ->
  rws_check_recv_frame_size (Some (wire fin opc m p ++ rest)) (zlen (wire fin opc m p ++ rest))
    = Ret (zlen (wire fin opc m p)) /\
  exists g rng',
    rws_frame_create_with_recv_data rng (Some (wire fin opc m p ++ rest)) (zlen (wire fin opc m p))
      = Ret (Some g, rng') /\
    opcode g = opc /\ is_finished g = fin /\ frame_mask g = m /\ frame_read g = Ret p.
Proof.
  intros Hok Hc Hp Hsz Hap.
  destruct (recv_decodes rng fin _ _ p rest Hok Hc Hp Hsz Hap) as (C & g & rng' & D & ?).
  split; [done|]. exists g, rng'. tauto.
Qed.

Lemma combine_result to from p q :
  holds to p -> holds from q -> p <> [] -> q <> [] -> zlen p + zlen q < 2 ^ 32 ->
  can_alloc (zlen p + zlen q) ->
  rws_frame_combine_datas to from
  = Ret (set_data (Some (Buf (p ++ q) (zlen p))) (zlen p + zlen q) to).
Proof.
  intros Hp Hq Np Nq Hsz Ha. unfold rws_frame_combine_datas.
  rewrite (holds_read _ _ Hp), (holds_read _ _ Hq).
  destruct Hp as [Hpd Hps], Hq as [Hqd Hqs]. rewrite Hpd, Hqd, Hps, Hqs.
  assert (0 < zlen p /\ 0 < zlen q) as [Lp Lq].
  { split; apply zlen_pos; done. }
  rewrite u32_id by lia.
  destruct (rws_malloc_some (zlen p + zlen q)) as (m & -> & Hm); [lia|done|].
  rewrite !(decide_True (P := is_Some _ /\ _)) by (split; [by eexists|lia]).
  cbn [mbind outcome_bind].
  rewrite <- (ztake_zdrop (zlen p) m).
  assert (zlen (ztake (zlen p) m) = zlen p) as H1 by (apply zlen_ztake; lia).
  assert (zlen (zdrop (zlen p) m) = zlen q) as H2 by (rewrite zlen_zdrop; lia).
  pose proof (mem_write_exact [] _ p (zdrop (zlen p) m) H1) as W1. cbn [app] in W1.
  change (zlen []) with 0 in W1. rewrite W1. cbn [mbind outcome_bind].
  pose proof (mem_write_exact p _ q [] H2) as W2. rewrite !app_nil_r in W2.
  rewrite W2, (decide_True (P := is_Some _ /\ _)) by (split; [by eexists|lia]). done.
Qed.

(** The fragment combiner loses the message: for two non-empty fragments
    [rws_frame_combine_datas] builds [p ++ q] in the new block but leaves
    [to->data] pointing at the second fragment, so reading [data_size] bytes there
    leaves the block, and releasing the frame frees an interior pointer. *)
Theorem ws_combine_corrupts to from p q :
  holds to p -> holds from q -> p <> [] -> q <> [] -> zlen p + zlen q < 2 ^ 32 ->
  can_alloc (zlen p + zlen q) ->
  exists g, rws_frame_combine_datas to from = Ret g /\
    data_size g = zlen (p ++ q) /\ data g = Some (Buf (p ++ q) (zlen p)) /\
    frame_read g = Crash /\ rws_frame_delete (Some g) = Crash.
Proof.
  intros Hp Hq Np Nq Hsz Ha. rewrite (combine_result _ _ _ _ Hp Hq) by done.
  assert (0 < zlen p) as Lp.
  { by apply zlen_pos. }
  eexists. split; [done|]. cbn [data_size data set_data]. split; [zl|]. split; [done|].
  unfold frame_read, rws_frame_delete, rws_free_buf, mem_read. cbn [data_size data set_data blk boff].
  rewrite !decide_False by zl. done.
Qed.

(** The packet size is computed in 32 bits: for an unmasked frame whose
    64-bit length field has a low word [e >= 2^32 - 10],
    [rws_check_recv_frame_size] reports [e + 10 - 2^32], fewer bytes than the
    header, and the parser then drops those bytes without producing a frame. *)
Theorem ws_length_wraps rng b0 h0 h1 h2 h3 e rest :
  2 ^ 32 - 10 <= e < 2 ^ 32 ->
  let l := [b0; 127; h0; h1; h2; h3; e / 2 ^ 24 mod 256; e / 2 ^ 16 mod 256;
            e / 2 ^ 8 mod 256; e mod 256] ++ rest in
  rws_check_recv_frame_size (Some l) (zlen l) = Ret (e + 10 - 2 ^ 32) /\
  rws_frame_create_with_recv_data rng (Some l) (e + 10 - 2 ^ 32) = Ret (None, rng).
Proof.
  intros He l.
  assert (zlen l = 10 + zlen rest) as Hl by (subst l; zl). pose proof (zlen_nonneg rest).
  split.
  - unfold rws_check_recv_frame_size. rewrite decide_True by lia.
    change (mem_get l 1) with (Ret 127). cbn [mbind outcome_bind].
    change (recv_header_size _ _) with 10. rewrite decide_False by lia.
    change (recv_expected_size l _) with
      (Ret (Z.lor (Z.lor (Z.lor (u32 (Z.shiftl (e / 2 ^ 24 mod 256) 24))
         (u32 (Z.shiftl (e / 2 ^ 16 mod 256) 16))) (u32 (Z.shiftl (e / 2 ^ 8 mod 256) 8)))
         (e mod 256), 10)).
    cbn [mbind outcome_bind]. rewrite be32_combine, be32_split by (auto with fw; lia).
    assert (u32 (e + 10) = e + 10 - 2 ^ 32) as ->.
    { unfold u32. symmetry. apply (Z.mod_unique _ _ 1); lia. }
    rewrite decide_True by lia. done.
  - unfold rws_frame_create_with_recv_data. case_decide; [|done].
    change (mem_get l 0) with (Ret b0). change (mem_get l 1) with (Ret 127).
    cbn [mbind outcome_bind]. change (recv_header_size _ _) with 10.
    rewrite decide_True by lia. done.
Qed.

End Codec.

(** ** Witnesses *)

Definition w_mask : list Z := [18; 52; 86; 120].
Definition w_text : rws_frame := Frame None 0 rws_opcode_text_frame w_mask true false 0.

Lemma w_text_ok : wire_ok (opcode w_text) (frame_mask w_text) [104; 105].
Proof.
  split; [by vm_compute| |by_decide|by vm_compute].
  intros k [= <-]. split; [by_decide|done].
Qed.

Lemma plain_can_alloc n : 0 <= n -> can_alloc (LC := libc_plain) n.
Proof. intros. unfold can_alloc. cbn. unfold plain_malloc. rewrite decide_True by done. eauto. Qed.


Lemma ws_bin_fill_encodes_witness :
  exists f', litews_frame_fill_with_send_bin_data w_text (Some [104; 105]) 2 rws_binary_finish
             = Ret f' /\ frame_read f' = Ret (wire true 1 (Some w_mask) [104; 105]) /\
    opcode f' = 1 /\ frame_mask f' = Some w_mask /\ is_finished f' = true.
Proof.
  apply (ws_bin_fill_encodes w_text [104; 105] rws_binary_finish); try done.
  - apply w_text_ok.
  - by apply plain_can_alloc.
Defined.

Lemma ws_recv_decodes_witness :
  rws_check_recv_frame_size (Some (wire true 1 (Some w_mask) [104; 105] ++ [9]))
    (zlen (wire true 1 (Some w_mask) [104; 105] ++ [9]))
    = Ret (zlen (wire true 1 (Some w_mask) [104; 105])) /\
  exists g rng',
    rws_frame_create_with_recv_data 7 (Some (wire true 1 (Some w_mask) [104; 105] ++ [9]))
      (zlen (wire true 1 (Some w_mask) [104; 105])) = Ret (Some g, rng') /\
    opcode g = 1 /\ is_finished g = true /\ frame_mask g = Some w_mask /\
    frame_read g = Ret [104; 105].
Proof.
  apply (ws_recv_decodes 7 true 1 (Some w_mask) [104; 105] [9]); try done.
  - apply w_text_ok.
  - by apply plain_can_alloc.
  - intros. by apply plain_can_alloc.
Defined.

Lemma ws_parse_safe_witness :
  exists k, rws_check_recv_frame_size (Some [130; 2; 7; 8; 9]) 5 = Ret k /\ 0 <= k <= 5 /\
    (0 < k -> returns (rws_frame_create_with_recv_data 7 (Some (ztake k [130; 2; 7; 8; 9])) k)).
Proof.
  apply (ws_parse_safe 7 [130; 2; 7; 8; 9] 5).
  - by_decide.
  - by vm_compute.
  - by vm_compute.
  - by apply plain_can_alloc.
  - intros. apply plain_can_alloc. lia.
Defined.

Lemma ws_combine_corrupts_witness :
  exists g, rws_frame_combine_datas
      (set_data (Some (Buf [1; 2] 0)) 2 w_text) (set_data (Some (Buf [3] 0)) 1 w_text) = Ret g /\
    data_size g = 3 /\ data g = Some (Buf [1; 2; 3] 2) /\
    frame_read g = Crash /\ rws_frame_delete (Some g) = Crash.
Proof.
  apply (ws_combine_corrupts _ _ [1; 2] [3]); try done. by apply plain_can_alloc.
Defined.

Lemma ws_length_wraps_witness :
  rws_check_recv_frame_size (Some [130; 127; 0; 0; 0; 0; 255; 255; 255; 250; 1; 2; 3; 4]) 14 = Ret 4
  /\ rws_frame_create_with_recv_data 7
       (Some [130; 127; 0; 0; 0; 0; 255; 255; 255; 250; 1; 2; 3; 4]) 4 = Ret (None, 7).
Proof. apply (ws_length_wraps 7 130 0 0 0 0 4294967290 [1; 2; 3; 4]). lia. Defined.
