(* ===== verification/WsSocket.v ===== *)
(** * WebSocket client: [components/websocket/websocket/src/rws_socketpriv.c]
    and the public entry points of [rws_socketpub.c]

    The socket state, the send and receive paths, frame dispatch, the opening
    handshake, connecting, and the worker loop as a state machine over
    [command].  The operating system, lwIP and mbedTLS are the interface [Net];
    a handler is a function on a [world]: the socket, the network state, the
    random generator and the trace of what the client did. *)

From stdpp Require Import strings.
From S2P Require Import Prelude WsFrame.

(** ** C strings: lists of non-zero bytes *)

Definition str (s : string) : list Z :=
  (fun a => Z.of_nat (Ascii.nat_of_ascii a)) <$> String.list_ascii_of_string s.

Definition CR : Z := 13.
Definition LF : Z := 10.
Definition crlf : list Z := [CR; LF].

(** [sprintf("%u", n)], most significant digit first; ten digits are enough for 32 bits. *)
Fixpoint dec_digits (fuel : nat) (n : Z) (acc : list Z) : list Z :=
  match fuel with
  | O => acc
  | S fuel =>
      let acc := 48 + n mod 10 :: acc in
      if decide (n < 10) then acc else dec_digits fuel (n / 10) acc
  end.
Definition print_u (n : Z) : list Z := dec_digits 10 n [].
Definition print_i (n : Z) : list Z :=
  if decide (n < 0) then 45 :: print_u (- n) else print_u n.

(** ** Data *)

Inductive command :=
| COMMAND_IDLE
| COMMAND_NONE
| COMMAND_CONNECT_TO_HOST
| COMMAND_SEND_HANDSHAKE
| COMMAND_WAIT_HANDSHAKE_RESPONCE
| COMMAND_INFORM_CONNECTED
| COMMAND_INFORM_DISCONNECTED
| COMMAND_DISCONNECT
| COMMAND_END.

#[export] Instance command_eq_dec : EqDecision command.
Proof. solve_decision. Defined.

Definition command_code (c : command) : Z :=
  match c with
  | COMMAND_IDLE => -1
  | COMMAND_NONE => 0
  | COMMAND_CONNECT_TO_HOST => 1
  | COMMAND_SEND_HANDSHAKE => 2
  | COMMAND_WAIT_HANDSHAKE_RESPONCE => 3
  | COMMAND_INFORM_CONNECTED => 4
  | COMMAND_INFORM_DISCONNECTED => 5
  | COMMAND_DISCONNECT => 6
  | COMMAND_END => 9999
  end.

Inductive rws_error_code :=
| rws_error_code_none
| rws_error_code_missed_parameter
| rws_error_code_send_handshake
| rws_error_code_parse_handshake
| rws_error_code_read_write_socket
| rws_error_code_connect_to_host
| rws_error_code_connection_closed.

#[export] Instance rws_error_code_eq_dec : EqDecision rws_error_code.
Proof. solve_decision. Defined.

Record rws_error := Error { code : rws_error_code; description : option (list Z) }.

Definition RWS_INVALID_SOCKET : Z := -1.
Definition RWS_MAX_SEND_APPEND_SIZE : Z := 1024 * 640.
Definition RWS_CONNECT_ATTEMPS : Z := 3.

(** The part of [struct rws_socket_struct] the worker only reads: the endpoint,
    which callbacks and certificates are set, and the send limit. *)
Record ws_conf := Conf {
  port : Z;
  scheme : option (list Z);
  host : option (list Z);
  path : option (list Z);
  token_field : option (list Z);
  token : option (list Z);
  on_connected : bool;
  on_disconnected : bool;
  on_recvd_text : bool;
  on_recvd_bin : bool;
  on_recvd_pong : bool;
  max_send_append_size : Z;
  server_cert : bool;
  client_cert : bool;
  client_pk : bool
}.

(** The rest.  A frame list is the list of its nodes' [value.object]; [[]] is NULL. *)
Record rws_socket := Socket {
  conf : ws_conf;
  socket : Z;
  sec_ws_accept : option (list Z);
  work_thread : bool;
  cmd : command;
  task_quit : Z;
  next_message_id : Z;
  is_connected : bool;
  received : option (list Z);
  received_size : Z;
  received_len : Z;
  send_frames : list (option rws_frame);
  recvd_frames : list (option rws_frame);
  send_append_size : Z;
  error : option rws_error;
  ssl : bool
}.

Definition set_conf (x : ws_conf) (s : rws_socket) : rws_socket :=
  Socket x (socket s) (sec_ws_accept s) (work_thread s) (cmd s) (task_quit s)
    (next_message_id s) (is_connected s) (received s) (received_size s) (received_len s)
    (send_frames s) (recvd_frames s) (send_append_size s) (error s) (ssl s).
Definition set_socket (x : Z) (s : rws_socket) : rws_socket :=
  Socket (conf s) x (sec_ws_accept s) (work_thread s) (cmd s) (task_quit s)
    (next_message_id s) (is_connected s) (received s) (received_size s) (received_len s)
    (send_frames s) (recvd_frames s) (send_append_size s) (error s) (ssl s).
Definition set_sec_ws_accept (x : option (list Z)) (s : rws_socket) : rws_socket :=
  Socket (conf s) (socket s) x (work_thread s) (cmd s) (task_quit s)
    (next_message_id s) (is_connected s) (received s) (received_size s) (received_len s)
    (send_frames s) (recvd_frames s) (send_append_size s) (error s) (ssl s).
Definition set_work_thread (x : bool) (s : rws_socket) : rws_socket :=
  Socket (conf s) (socket s) (sec_ws_accept s) x (cmd s) (task_quit s)
    (next_message_id s) (is_connected s) (received s) (received_size s) (received_len s)
    (send_frames s) (recvd_frames s) (send_append_size s) (error s) (ssl s).
Definition set_cmd (x : command) (s : rws_socket) : rws_socket :=
  Socket (conf s) (socket s) (sec_ws_accept s) (work_thread s) x (task_quit s)
    (next_message_id s) (is_connected s) (received s) (received_size s) (received_len s)
    (send_frames s) (recvd_frames s) (send_append_size s) (error s) (ssl s).
Definition set_task_quit (x : Z) (s : rws_socket) : rws_socket :=
  Socket (conf s) (socket s) (sec_ws_accept s) (work_thread s) (cmd s) x
    (next_message_id s) (is_connected s) (received s) (received_size s) (received_len s)
    (send_frames s) (recvd_frames s) (send_append_size s) (error s) (ssl s).
Definition set_next_message_id (x : Z) (s : rws_socket) : rws_socket :=
  Socket (conf s) (socket s) (sec_ws_accept s) (work_thread s) (cmd s) (task_quit s)
    x (is_connected s) (received s) (received_size s) (received_len s)
    (send_frames s) (recvd_frames s) (send_append_size s) (error s) (ssl s).
Definition set_is_connected (x : bool) (s : rws_socket) : rws_socket :=
  Socket (conf s) (socket s) (sec_ws_accept s) (work_thread s) (cmd s) (task_quit s)
    (next_message_id s) x (received s) (received_size s) (received_len s)
    (send_frames s) (recvd_frames s) (send_append_size s) (error s) (ssl s).
Definition set_received (x : option (list Z)) (s : rws_socket) : rws_socket :=
  Socket (conf s) (socket s) (sec_ws_accept s) (work_thread s) (cmd s) (task_quit s)
    (next_message_id s) (is_connected s) x (received_size s) (received_len s)
    (send_frames s) (recvd_frames s) (send_append_size s) (error s) (ssl s).
Definition set_received_size (x : Z) (s : rws_socket) : rws_socket :=
  Socket (conf s) (socket s) (sec_ws_accept s) (work_thread s) (cmd s) (task_quit s)
    (next_message_id s) (is_connected s) (received s) x (received_len s)
    (send_frames s) (recvd_frames s) (send_append_size s) (error s) (ssl s).
Definition set_received_len (x : Z) (s : rws_socket) : rws_socket :=
  Socket (conf s) (socket s) (sec_ws_accept s) (work_thread s) (cmd s) (task_quit s)
    (next_message_id s) (is_connected s) (received s) (received_size s) x
    (send_frames s) (recvd_frames s) (send_append_size s) (error s) (ssl s).
Definition set_send_frames (x : list (option rws_frame)) (s : rws_socket) : rws_socket :=
  Socket (conf s) (socket s) (sec_ws_accept s) (work_thread s) (cmd s) (task_quit s)
    (next_message_id s) (is_connected s) (received s) (received_size s) (received_len s)
    x (recvd_frames s) (send_append_size s) (error s) (ssl s).
Definition set_recvd_frames (x : list (option rws_frame)) (s : rws_socket) : rws_socket :=
  Socket (conf s) (socket s) (sec_ws_accept s) (work_thread s) (cmd s) (task_quit s)
    (next_message_id s) (is_connected s) (received s) (received_size s) (received_len s)
    (send_frames s) x (send_append_size s) (error s) (ssl s).
Definition set_send_append_size (x : Z) (s : rws_socket) : rws_socket :=
  Socket (conf s) (socket s) (sec_ws_accept s) (work_thread s) (cmd s) (task_quit s)
    (next_message_id s) (is_connected s) (received s) (received_size s) (received_len s)
    (send_frames s) (recvd_frames s) x (error s) (ssl s).
Definition set_error (x : option rws_error) (s : rws_socket) : rws_socket :=
  Socket (conf s) (socket s) (sec_ws_accept s) (work_thread s) (cmd s) (task_quit s)
    (next_message_id s) (is_connected s) (received s) (received_size s) (received_len s)
    (send_frames s) (recvd_frames s) (send_append_size s) x (ssl s).
Definition set_ssl (x : bool) (s : rws_socket) : rws_socket :=
  Socket (conf s) (socket s) (sec_ws_accept s) (work_thread s) (cmd s) (task_quit s)
    (next_message_id s) (is_connected s) (received s) (received_size s) (received_len s)
    (send_frames s) (recvd_frames s) (send_append_size s) (error s) x.

(** What the client does to the outside: bytes handed to the transport with the
    transport's answer, callbacks, and closed descriptors. *)
Inductive event :=
| EvWrite (d : list Z) (ret : Z)
| EvClose (fd : Z)
| EvConnected
| EvDisconnected
| EvText (d : outcome (list Z)) (fin : bool)
| EvBin (d : outcome (list Z)) (fin : bool)
| EvPong.

(** ** The operating system, lwIP and mbedTLS *)

(** How a sequence of reads ends: [net_read] returned 0, or a negative value with [errno]. *)
Inductive read_end :=
| ReadZero
| ReadNeg (ret errno : Z).

Inductive mbed_call :=
| ctr_drbg_seed | set_hostname | crt_parse_client | pk_parse_key | crt_parse_ca
| config_defaults | conf_own_cert | ssl_setup | ssl_handshake.

Class Net := {
  net : Type;
  (** one write on the plain or the TLS transport *)
  net_write : net -> bool -> list Z -> Z * net;
  (** the positive reads available now, up to the first non-positive one *)
  net_reads : net -> bool -> list (list Z) * read_end * net;
  net_errno : net -> Z;
  strerror : Z -> list Z;
  (** [SO_ERROR]; 0 when [getsockopt] fails *)
  so_error : net -> Z;
  (** [getaddrinfo]: its result and the number of addresses in the list *)
  net_resolve : net -> Z * nat * net;
  sock_open : net -> Z * net;
  sock_connect : net -> Z * net;
  (** result of an mbedTLS call; [ssl_handshake] repeats while it wants I/O *)
  mbed : mbed_call -> net -> Z * net;
  sizeof_ssl : Z
}.

Definition MBEDTLS_ERR_SSL_WANT_WRITE : Z := -26752.
Definition MBEDTLS_ERR_SSL_PEER_CLOSE_NOTIFY : Z := -30848.
Definition MBEDTLS_ERR_SSL_TIMEOUT : Z := -26624.
Definition MBEDTLS_ERR_SSL_CONN_EOF : Z := -29312.
Definition MBEDTLS_ERR_SSL_SESSION_TICKET_EXPIRED : Z := -28032.
Definition MBEDTLS_ERR_SSL_NON_FATAL : Z := -26240.

Definition EAGAIN : Z := 11.
Definition EINPROGRESS : Z := 115.

(** The [errno] values [rws_socket_check_write_error] treats as fatal. *)
Definition write_errnos : list Z :=
  [13 (* EACCES *); 11 (* EAGAIN *); 9 (* EBADF *); 104 (* ECONNRESET *);
   89 (* EDESTADDRREQ *); 14 (* EFAULT *); 4 (* EINTR *); 22 (* EINVAL *);
   106 (* EISCONN *); 90 (* EMSGSIZE *); 105 (* ENOBUFS *); 12 (* ENOMEM *);
   107 (* ENOTCONN *); 88 (* ENOTSOCK *); 95 (* EOPNOTSUPP *); 32 (* EPIPE *);
   111 (* ECONNREFUSED *)].

Section Client.
Context `{LC : Libc} `{NC : Net}.

Record world := World {
  sk : rws_socket;
  nt : net;
  rng : Z;
  out : list event   (* oldest first *)
}.

Definition upd (g : rws_socket -> rws_socket) (w : world) : world :=
  World (g (sk w)) (nt w) (rng w) (out w).
Definition emit (e : event) (w : world) : world :=
  World (sk w) (nt w) (rng w) (out w ++ [e]).
Definition set_nt (n : net) (w : world) : world := World (sk w) n (rng w) (out w).
Definition set_rng (r : Z) (w : world) : world := World (sk w) (nt w) r (out w).

Definition is_wss (s : rws_socket) : bool := bool_decide (scheme (conf s) = Some (str "wss")).

(** ** Errors, identifiers, accounting *)

Definition rws_string_copy (s : list Z) : option (list Z) :=
  if decide (0 < zlen s) then
    match rws_malloc (zlen s + 1) with Some _ => Some s | None => None end
  else None.

(** [rws_error_new_code_descr]: the record, with a copy of the description.  The
    allocation of the record itself is taken to succeed. *)
Definition rws_error_new_code_descr (c : rws_error_code) (descr : list Z) : rws_error :=
  Error c (rws_string_copy descr).

Definition fail (c : rws_error_code) (descr : list Z) (w : world) : world :=
  upd (set_error (Some (rws_error_new_code_descr c descr))) w.
Definition error_clean (w : world) : world := upd (set_error None) w.

Definition rws_socket_mem_used_out (data_size : Z) (w : world) : bool * world :=
  let total := i32 (send_append_size (sk w) + i32 data_size) in
  if decide (max_send_append_size (conf (sk w)) < total) then (true, w)
  else (false, upd (set_send_append_size total) w).

Definition rws_socket_get_next_message_id (w : world) : Z * world :=
  let mess_id := u32 (next_message_id (sk w) + 1) in
  let w := upd (set_next_message_id mess_id) w in
  if decide (9999999 < mess_id) then (mess_id, upd (set_next_message_id 0) w)
  else (mess_id, w).

(** ** Frame lists *)

(** [sizeof(_rws_node)] on the 32-bit core. *)
Definition sizeof_node : Z := 8.

(** Appending allocates a node; the result of the allocation is not checked. *)
Definition rws_list_append (l : list (option rws_frame)) (f : rws_frame)
  : outcome (list (option rws_frame)) :=
  match rws_malloc_zero sizeof_node with
  | None => Crash
  | Some _ => Ret (l ++ [Some f])
  end.

Definition rws_socket_append_recvd_frames (f : rws_frame) (w : world) : outcome world :=
  l ← rws_list_append (recvd_frames (sk w)) f; Ret (upd (set_recvd_frames l) w).

Definition rws_socket_append_send_frames (f : rws_frame) (w : world) : outcome world :=
  l ← rws_list_append (send_frames (sk w)) f; Ret (upd (set_send_frames l) w).

Definition frame_create (w : world) : outcome (rws_frame * world) :=
  '(f, r) ← rws_frame_create (rng w); Ret (f, set_rng r w).

(** ** Closing, raw sending and receiving *)

Definition rws_socket_close (w : world) : world :=
  let w := upd (set_received_len 0) w in
  let w := if decide (socket (sk w) = RWS_INVALID_SOCKET) then w
           else upd (set_socket RWS_INVALID_SOCKET) (emit (EvClose (socket (sk w))) w) in
  upd (set_is_connected false) w.

Definition rws_socket_check_write_error (error_num : Z) (w : world) : world :=
  let socket_code :=
    if decide (socket (sk w) = RWS_INVALID_SOCKET) then 0 else so_error (nt w) in
  let c := if decide (0 < socket_code) then socket_code else error_num in
  if decide (c <= 0) then w
  else if decide (c ∈ write_errnos) then fail rws_error_code_read_write_socket (strerror c) w
  else w.

(** The retry loop of [rws_socket_send]: at most [n] writes while the transport
    wants to be called again. *)
Fixpoint send_loop (n : nat) (d : list Z) (sended : Z) (w : world) : Z * world :=
  match n with
  | O => (sended, w)
  | S n =>
      let '(ret, nt') := net_write (nt w) (is_wss (sk w)) d in
      let w := emit (EvWrite d ret) (set_nt nt' w) in
      if decide (ret = MBEDTLS_ERR_SSL_WANT_WRITE) then send_loop n d ret w else (ret, w)
  end.

Definition rws_socket_send (d : list Z) (w : world) : bool * world :=
  let w := error_clean w in
  let '(sended, w) := send_loop 100 d (-1) w in
  let error_number := net_errno (nt w) in
  if decide (0 < sended) then (true, w)
  else if decide (sended = 0) then (false, rws_socket_close w)
  else
    let w := rws_socket_check_write_error error_number w in
    match error (sk w) with
    | Some _ => (false, rws_socket_close w)
    | None => (true, w)
    end.

Definition rws_socket_resize_received (size : Z) (w : world) : outcome world :=
  let s := sk w in
  if decide (size = received_size s) then Ret w
  else
    let res := rws_malloc size in
    let min := if decide (received_size s < size) then received_size s else size in
    res ←
      match received s with
      | Some old =>
          if decide (0 < min) then
            match res with
            | None => Crash
            | Some r => d ← mem_read old 0 min; r ← mem_write r 0 d; Ret (Some r)
            end
          else Ret res
      | None => Ret res
      end;
    Ret (upd (fun s => set_received_size size (set_received res s)) w).

(** Store one chunk of [len > 0] received bytes behind what is already buffered. *)
Definition recv_chunk (d : list Z) (w : world) : outcome world :=
  let s := sk w in
  w ← (if decide (u32 (received_size s - received_len s) < zlen d)
       then rws_socket_resize_received (u32 (received_size s + zlen d)) w else Ret w);
  match received (sk w) with
  | None => Crash
  | Some r =>
      r ← mem_write r (received_len (sk w)) d;
      Ret (upd (fun s => set_received_len (u32 (received_len s + zlen d))
                           (set_received (Some r) s)) w)
  end.

Fixpoint recv_chunks (ds : list (list Z)) (w : world) : outcome world :=
  match ds with
  | [] => Ret w
  | d :: ds => w ← recv_chunk d w; recv_chunks ds w
  end.

Definition BUFF_SIZE : Z := 8192.

Definition rws_socket_recv (w : world) : outcome (bool * world) :=
  match rws_malloc_zero BUFF_SIZE with
  | None => Ret (false, w)
  | Some _ =>
    let w := error_clean w in
    let '(chunks, fin, nt') := net_reads (nt w) (is_wss (sk w)) in
    w ← recv_chunks chunks (set_nt nt' w);
    let '(error_number, ssl_status) :=
      match fin with
      | ReadZero =>
          let socket_code :=
            if decide (socket (sk w) = RWS_INVALID_SOCKET) then 0 else so_error (nt w) in
          (if decide (socket_code = 0) then -1 else socket_code, false)
      | ReadNeg len errno =>
          (errno, bool_decide (len = MBEDTLS_ERR_SSL_TIMEOUT \/ len = MBEDTLS_ERR_SSL_CONN_EOF
                               \/ len = MBEDTLS_ERR_SSL_SESSION_TICKET_EXPIRED
                               \/ len = MBEDTLS_ERR_SSL_NON_FATAL))
      end in
    if decide (0 < received_len (sk w) \/ error_number < 0) then Ret (true, w)
    else if decide (error_number <> EAGAIN /\ error_number <> EINPROGRESS /\ ssl_status = false)
    then Ret (false, rws_socket_close
                       (fail rws_error_code_read_write_socket (str "Failed read/write socket") w))
    else Ret (true, w)
  end.

(** ** Sending through the queue *)

(** The shape the queueing functions share: account for the payload, create a
    masked frame, fill it, append it. *)
Definition queue_frame (opc : Z) (fin : bool) (src : list Z) (len : Z) (w : world)
  : outcome (bool * world) :=
  if decide (len <= 0) then Ret (false, w)
  else
    let '(used_out, w) := rws_socket_mem_used_out len w in
    if used_out then Ret (false, w)
    else
      '(f, w) ← frame_create w;
      f ← rws_frame_fill_with_send_data (set_opcode opc (set_masked true f)) (Some src) len fin;
      w ← rws_socket_append_send_frames f w;
      Ret (true, w).

Definition rws_socket_send_text_priv2 (text : list Z) (len : Z) (w : world) :=
  queue_frame rws_opcode_text_frame true text len w.

(** [text] is NULL or a C string; its length is [strlen]. *)
Definition rws_socket_send_text_priv (text : option (list Z)) (w : world) : outcome (bool * world) :=
  match text with
  | None => Ret (false, w)
  | Some t => queue_frame rws_opcode_text_frame true t (zlen t) w
  end.

Definition rws_socket_send_bin_start_priv (bin : option (list Z)) (len : Z) (w : world)
  : outcome (bool * world) :=
  match bin with
  | None => Ret (false, w)
  | Some b => queue_frame rws_opcode_binary_frame false b len w
  end.

Definition rws_socket_send_bin_continue_priv (bin : option (list Z)) (len : Z) (w : world)
  : outcome (bool * world) :=
  match bin with
  | None => Ret (false, w)
  | Some b => queue_frame rws_opcode_continuation false b len w
  end.

Definition rws_socket_send_bin_finish_priv (bin : option (list Z)) (len : Z) (w : world)
  : outcome (bool * world) :=
  match bin with
  | None => Ret (false, w)
  | Some b => queue_frame rws_opcode_continuation true b len w
  end.

Definition bin_opcode (bin_type : rws_binary) : Z :=
  match bin_type with
  | rws_binary_start => rws_opcode_binary_frame
  | rws_binary_continue => rws_opcode_continuation
  | rws_binary_finish => rws_opcode_continuation
  end.

Definition rws_socket_send_bin_priv (bin : option (list Z)) (size : Z) (bin_type : rws_binary)
  (w : world) : outcome (bool * world) :=
  let '(used_out, w) := rws_socket_mem_used_out size w in
  if used_out then Ret (false, w)
  else
    '(f, w) ← frame_create w;
    f ← litews_frame_fill_with_send_bin_data
          (set_opcode (bin_opcode bin_type) (set_masked true f)) bin size bin_type;
    w ← rws_socket_append_send_frames f w;
    Ret (true, w).

Definition rws_socket_send_ping (w : world) : outcome world :=
  '(f, w) ← frame_create w;
  let '(mess_id, w) := rws_socket_get_next_message_id w in
  let buff := print_u mess_id in
  f ← rws_frame_fill_with_send_data
        (set_opcode rws_opcode_ping (set_masked true f)) (Some buff) (zlen buff) true;
  rws_socket_append_send_frames f w.

(** Queued frames are handed to the transport in order while the connection
    holds and sends succeed; the result is the frames not taken off the list.  A
    frame without data goes out as an empty write, which the transport refuses. *)
Fixpoint send_queued (fs : list (option rws_frame)) (w : world)
  : outcome (list (option rws_frame) * world) :=
  match fs with
  | [] => Ret ([], w)
  | f :: fs' =>
      if is_connected (sk w) then
        match f with
        | None => send_queued fs' w
        | Some f =>
            d ← (match data f with None => Ret [] | Some _ => frame_read f end);
            let '(sending, w) := rws_socket_send d w in
            rws_frame_delete (Some f) ;;
            if sending then send_queued fs' w else Ret (fs', w)
        end
      else Ret (fs, w)
  end.

Fixpoint rws_socket_delete_all_frames_in_list (fs : list (option rws_frame)) : outcome unit :=
  match fs with
  | [] => Ret tt
  | f :: fs => rws_frame_delete f ;; rws_socket_delete_all_frames_in_list fs
  end.

Definition rws_socket_idle_send (w : world) : outcome world :=
  match send_frames (sk w) with
  | [] => Ret w
  | fs =>
      '(rest, w) ← send_queued fs w;
      rws_socket_delete_all_frames_in_list rest ;;
      let w := upd (fun s => set_send_append_size 0 (set_send_frames [] s)) w in
      match error (sk w) with
      | Some _ => Ret (upd (set_cmd COMMAND_INFORM_DISCONNECTED) w)
      | None => Ret w
      end
  end.

Definition rws_socket_send_disconnect (w : world) : outcome world :=
  '(f, w) ← frame_create w;
  let '(mess_id, w) := rws_socket_get_next_message_id w in
  let buff := print_u mess_id in
  f ← rws_frame_fill_with_send_data
        (set_opcode rws_opcode_connection_close (set_masked true f)) (Some buff) (zlen buff) true;
  d ← (match data f with None => Ret [] | Some _ => frame_read f end);
  let '(_, w) := rws_socket_send d w in
  rws_frame_delete (Some f) ;;
  Ret (upd (set_cmd COMMAND_END) w).

(** ** Received frames *)

(** The index of the last node whose frame is not finished.  The opcode the
    C function is given is not used. *)
Fixpoint last_unfin (i : nat) (fs : list (option rws_frame)) (last : option nat) : option nat :=
  match fs with
  | [] => last
  | Some f :: fs => last_unfin (S i) fs (if is_finished f then last else Some i)
  | None :: fs => last_unfin (S i) fs last
  end.

Definition rws_socket_last_unfin_recvd_frame_by_opcode (w : world) : option nat :=
  last_unfin 0 (recvd_frames (sk w)) None.

Definition rws_socket_process_bin_or_text_frame (f : rws_frame) (w : world) : outcome world :=
  match rws_socket_last_unfin_recvd_frame_by_opcode w with
  | Some i =>
      match recvd_frames (sk w) !! i with
      | Some (Some g) =>
          g ← rws_frame_combine_datas g f;
          let g := set_finished (is_finished f) g in
          rws_frame_delete (Some f) ;;
          Ret (upd (fun s => set_recvd_frames (<[i := Some g]> (recvd_frames s)) s) w)
      | _ => Ret w
      end
  | None =>
      if decide (is_Some (data f) /\ data_size f <> 0)
      then rws_socket_append_recvd_frames f w
      else rws_frame_delete (Some f) ;; Ret w
  end.

Definition rws_socket_process_ping_frame (f : rws_frame) (w : world) : outcome world :=
  '(g, w) ← frame_create w;
  let g := set_masked true (set_opcode rws_opcode_pong g) in
  src ← (match data f with None => Ret None | Some _ => d ← frame_read f; Ret (Some d) end);
  g ← rws_frame_fill_with_send_data g src (data_size f) true;
  rws_frame_delete (Some f) ;;
  rws_socket_append_send_frames g w.

Definition rws_socket_process_conn_close_frame (f : rws_frame) (w : world) : outcome world :=
  let w := upd (set_cmd COMMAND_INFORM_DISCONNECTED) w in
  let w := fail rws_error_code_connection_closed (str "Connection was closed by endpoint") w in
  rws_frame_delete (Some f) ;; Ret w.

Definition rws_socket_process_received_frame (f : rws_frame) (w : world) : outcome world :=
  if decide (opcode f = rws_opcode_ping) then rws_socket_process_ping_frame f w
  else if decide (opcode f = rws_opcode_pong) then
    let w := if on_recvd_pong (conf (sk w)) then emit EvPong w else w in
    rws_frame_delete (Some f) ;; Ret w
  else if decide (opcode f = rws_opcode_text_frame \/ opcode f = rws_opcode_binary_frame
                  \/ opcode f = rws_opcode_continuation)
  then rws_socket_process_bin_or_text_frame f w
  else if decide (opcode f = rws_opcode_connection_close)
  then rws_socket_process_conn_close_frame f w
  else rws_frame_delete (Some f) ;; Ret w.

(** Dropping the [n] bytes of the frame just processed from the receive buffer. *)
Definition consume (n : Z) (w : world) : outcome world :=
  let len := received_len (sk w) in
  if decide (n = len) then Ret (upd (set_received_len 0) w)
  else if decide (n < len) then
    match received (sk w) with
    | None => Crash
    | Some r =>
        d ← mem_read r n (len - n);
        r ← mem_write r 0 d;
        Ret (upd (fun s => set_received_len (len - n) (set_received (Some r) s)) w)
    end
  else Ret w.

(** One turn of the [while (1)] loop of [rws_socket_idle_recv]: [None] when no
    complete frame is buffered. *)
Definition recv_one (w : world) : outcome (option world) :=
  n ← rws_check_recv_frame_size (received (sk w)) (received_len (sk w));
  if decide (n = 0) then Ret None
  else
    '(f, r) ← rws_frame_create_with_recv_data (rng w) (received (sk w)) n;
    let w := set_rng r w in
    w ← (match f with Some f => rws_socket_process_received_frame f w | None => Ret w end);
    w ← consume n w;
    Ret (Some w).

(** Every turn consumes at least one buffered byte, so [received_len] turns are
    enough; running out of them is reported as [Crash] and proved impossible. *)
Fixpoint recv_frames (fuel : nat) (w : world) : outcome world :=
  match fuel with
  | O => Crash
  | S fuel =>
      r ← recv_one w;
      match r with None => Ret w | Some w => recv_frames fuel w end
  end.

Definition rws_socket_idle_recv (w : world) : outcome world :=
  '(ok, w) ← rws_socket_recv w;
  if ok : bool then recv_frames (S (Z.to_nat (received_len (sk w)))) w
  else match error (sk w) with
       | Some _ => Ret (upd (set_cmd COMMAND_INFORM_DISCONNECTED) w)
       | None => Ret w
       end.

(** The callback for one received frame. *)
Definition inform_frame (f : rws_frame) (w : world) : world :=
  let c := conf (sk w) in
  if decide (opcode f = rws_opcode_continuation) then
    if on_recvd_bin c then emit (EvBin (frame_read f) (is_finished f)) w else w
  else if decide (opcode f = rws_opcode_text_frame) then
    if on_recvd_text c then emit (EvText (frame_read f) (is_finished f)) w else w
  else if decide (opcode f = rws_opcode_binary_frame) then
    if on_recvd_bin c then emit (EvBin (frame_read f) (is_finished f)) w else w
  else if decide (opcode f = rws_opcode_pong) then
    if on_recvd_pong c then emit EvPong w else w
  else w.

Fixpoint inform_frames (fs : list (option rws_frame)) (w : world) : outcome world :=
  match fs with
  | [] => Ret w
  | None :: fs => inform_frames fs w
  | Some f :: fs =>
      let w := inform_frame f w in
      rws_frame_delete (Some f) ;; inform_frames fs w
  end.

Definition rws_socket_inform_recvd_frames (w : world) : outcome world :=
  w ← inform_frames (recvd_frames (sk w)) w;
  Ret (upd (set_recvd_frames []) w).

(** ** The opening handshake *)

(** [sprintf(ptr + written, ...)] into the 512-byte stack buffer: the length
    argument of [rws_sprintf] is dropped by the macro, so only the buffer's end
    stops it. *)
Definition sprintf_at (buff : list Z) (text : list Z) : outcome (list Z) :=
  if decide (zlen buff + zlen text + 1 <= 512) then Ret (buff ++ text) else Crash.

Definition cstr (s : option (list Z)) : outcome (list Z) :=
  match s with Some s => Ret s | None => Crash end.

Definition handshake_request (c : ws_conf) : outcome (list Z) :=
  p ← cstr (path c);
  b ← sprintf_at [] (str "GET " ++ p ++ str " HTTP/" ++ str "1.1" ++ crlf);
  h ← cstr (host c);
  b ← (if decide (port c = 80)
       then sprintf_at b (str "Host: " ++ h ++ crlf)
       else sprintf_at b (str "Host: " ++ h ++ str ":" ++ print_i (port c) ++ crlf));
  sch ← cstr (scheme c);
  b ← sprintf_at b (str "Upgrade: websocket" ++ crlf ++ str "Connection: Upgrade" ++ crlf
                    ++ str "Origin: " ++ sch ++ str "://" ++ h ++ crlf);
  b ← (match token c, token_field c with
       | Some t, Some f => sprintf_at b (f ++ str ": " ++ t ++ crlf)
       | _, _ => Ret b
       end);
  sprintf_at b (str "Sec-WebSocket-Key: " ++ str "dGhlIHNhbXBsZSBub25jZQ==" ++ crlf
                ++ str "Sec-WebSocket-Protocol: chat, superchat" ++ crlf
                ++ str "Sec-WebSocket-Version: 13" ++ crlf ++ crlf).

Definition rws_socket_send_handshake (w : world) : outcome world :=
  buff ← handshake_request (conf (sk w));
  let '(ok, w) := rws_socket_send buff w in
  if ok then Ret (upd (set_cmd COMMAND_WAIT_HANDSHAKE_RESPONCE) w)
  else
    let w := match error (sk w) with
             | Some e => upd (set_error (Some (Error rws_error_code_send_handshake (description e)))) w
             | None => fail rws_error_code_send_handshake (str "Send handshake") w
             end in
    Ret (upd (set_cmd COMMAND_INFORM_DISCONNECTED) (rws_socket_close w)).

(** Reading C strings out of the receive buffer.  The buffer is not
    NUL-terminated: running off its end is an out-of-bounds read. *)

Fixpoint span (p : Z -> bool) (l : list Z) : outcome (list Z * list Z) :=
  match l with
  | [] => Crash
  | b :: t => if p b then '(a, r) ← span p t; Ret (b :: a, r) else Ret ([], l)
  end.

Definition tolower (c : Z) : Z := if decide (65 <= c <= 90) then c + 32 else c.
Definition is_digit (c : Z) : bool := bool_decide (48 <= c <= 57).
Definition is_space (c : Z) : bool := bool_decide (c = 32 \/ 9 <= c <= 13).

(** Does the string at [l] start with [pat], comparing [eq c p]? *)
Fixpoint starts (eq : Z -> Z -> bool) (l pat : list Z) : outcome bool :=
  match pat with
  | [] => Ret true
  | p :: pat =>
      match l with
      | [] => Crash
      | c :: l => if eq c p then starts eq l pat else Ret false
      end
  end.

(** [strstr]/[strstri]: the suffix that starts with the pattern; NUL ends the string. *)
Fixpoint find_sub (eq : Z -> Z -> bool) (l pat : list Z) : outcome (option (list Z)) :=
  match l with
  | [] => Crash
  | c :: t =>
      if decide (c = 0) then Ret None
      else b ← starts eq l pat; if b : bool then Ret (Some l) else find_sub eq t pat
  end.

Definition strstr (l pat : list Z) := find_sub (fun c p => bool_decide (c = p)) l pat.
Definition strstri (l pat : list Z) : outcome (option (list Z)) :=
  if decide (zlen pat = 0) then Ret None
  else find_sub (fun c p => bool_decide (tolower c = tolower p)) l pat.

(** [sscanf(s, "%f %i")]: the [%i] value when both conversions succeed.  Decimal
    version numbers; the other forms [%f] admits count as not converted. *)
Definition skip_sign (l : list Z) : list Z * bool :=
  match l with
  | b :: t => if decide (b = 45) then (t, true) else if decide (b = 43) then (t, false) else (l, false)
  | [] => (l, false)
  end.

Definition scan_float (l : list Z) : outcome (option (list Z)) :=
  '(_, l) ← span is_space l;
  let '(l, _) := skip_sign l in
  '(d1, l) ← span is_digit l;
  '(d2, l) ← (match l with
              | b :: t => if decide (b = 46) then span is_digit t else Ret ([], l)
              | [] => Crash
              end);
  Ret (if decide (d1 ++ d2 = []) then None else Some l).

Definition digit_value (c : Z) : Z :=
  if decide (48 <= c <= 57) then c - 48
  else if decide (97 <= tolower c <= 102) then tolower c - 87 else 99.
Definition digits_value (base : Z) (ds : list Z) : Z :=
  foldl (fun acc c => acc * base + digit_value c) 0 ds.

Definition scan_int (l : list Z) : outcome (option Z) :=
  '(_, l) ← span is_space l;
  let '(l, neg) := skip_sign l in
  let base := match l with
              | 48 :: x :: _ => if decide (tolower x = 120) then 16 else 8
              | 48 :: [] => 8
              | _ => 10
              end in
  let l := if decide (base = 16) then drop 2 l else l in
  '(ds, _) ← span (fun c => bool_decide (digit_value c < base)) l;
  if decide (ds = []) then Ret None
  else
    let v := digits_value base ds in
    let v := if neg then - v else v in
    Ret (Some (Z.max (- 2 ^ 31) (Z.min v (2 ^ 31 - 1)))).

Definition sscanf_f_i (l : list Z) : outcome (option Z) :=
  r ← scan_float l;
  match r with None => Ret None | Some l => scan_int l end.

Definition rws_socket_read_handshake_responce_value (l : list Z) : outcome (option (list Z)) :=
  '(_, l) ← span (fun c => bool_decide (c = 58 \/ c = 32)) l;
  '(v, _) ← span (fun c => bool_decide (c <> CR /\ c <> LF)) l;
  Ret (if decide (0 < zlen v) then rws_string_copy v else None).

Definition k_sec_websocket_accept : list Z := str "sec-websocket-accept".

Definition rws_socket_process_handshake_responce (w : world) : outcome (bool * world) :=
  let w := error_clean w in
  buf ← cstr (received (sk w));
  sub ← strstr buf (str "HTTP/");
  match sub with
  | None => Ret (false, w)
  | Some sub =>
      c ← sscanf_f_i (drop 5 sub);
      let http_code := default 101 c in
      acc ← strstri buf k_sec_websocket_accept;
      w ← (match acc with
           | None => Ret w
           | Some sub =>
               v ← rws_socket_read_handshake_responce_value
                     (drop (length k_sec_websocket_accept) sub);
               Ret (match v with
                    | Some v => upd (set_sec_ws_accept (Some v)) w
                    | None => w
                    end)
           end);
      if decide (http_code <> 101 \/ sec_ws_accept (sk w) = None)
      then Ret (false, fail rws_error_code_parse_handshake
                  (if decide (http_code <> 101) then str "HTPP code not found or non 101"
                   else str "Accept key not found") w)
      else Ret (true, w)
  end.

Definition rws_socket_wait_handshake_responce (w : world) : outcome world :=
  '(ok, w) ← rws_socket_recv w;
  if ok : bool then
    if decide (received_len (sk w) = 0) then Ret w
    else
      '(ok, w) ← rws_socket_process_handshake_responce w;
      if ok : bool then
        Ret (upd (fun s => set_cmd COMMAND_INFORM_CONNECTED
                             (set_is_connected true (set_received_len 0 s))) w)
      else Ret (upd (set_cmd COMMAND_INFORM_DISCONNECTED) (rws_socket_close w))
  else match error (sk w) with
       | Some _ => Ret (upd (set_cmd COMMAND_INFORM_DISCONNECTED) w)
       | None => Ret w
       end.

(** ** Connecting *)

Definition gai_strerror (ret : Z) : list Z :=
  if decide (ret = 204) then str "不支持ai_family"
  else if decide (ret = 202) then str "名字解析中不可恢复的失败"
  else if decide (ret = 203) then str "内存分配失败"
  else if decide (ret = 200) then str "hostname或service未提供，或者不可知"
  else if decide (ret = 201) then str "不支持ai_socktype类型的service"
  else [].

(** [n] attempts to resolve the host; the number of addresses found. *)
Fixpoint resolve_loop (n : nat) (last_ret : Z) (w : world) : option nat * Z * world :=
  match n with
  | O => (None, last_ret, w)
  | S n =>
      let '(ret, cnt, nt') := net_resolve (nt w) in
      let w := set_nt nt' w in
      if decide (ret = 0 /\ cnt <> O) then (Some cnt, last_ret, w)
      else resolve_loop n (if decide (ret = 0) then last_ret else ret) w
  end.

Definition rws_socket_connect_getaddr_info (w : world) : option nat * world :=
  let w := error_clean w in
  match resolve_loop (Z.to_nat (RWS_CONNECT_ATTEMPS - 1)) 0 w with
  | (Some cnt, _, w) => (Some cnt, w)
  | (None, last_ret, w) =>
      let w := fail rws_error_code_connect_to_host
                 (if decide (0 < last_ret) then gai_strerror last_ret
                  else str "Failed connect to host") w in
      (None, upd (set_cmd COMMAND_INFORM_DISCONNECTED) w)
  end.

(** The [for] loop over the resolved addresses: open a descriptor, connect it,
    close it again when that fails.  [sock] keeps the last descriptor opened,
    closed or not. *)
Fixpoint connect_addrs (k : nat) (sock : Z) (w : world) : Z * world :=
  match k with
  | O => (sock, w)
  | S k =>
      let '(sock, nt') := sock_open (nt w) in
      let w := set_nt nt' w in
      if decide (sock = RWS_INVALID_SOCKET) then connect_addrs k sock w
      else
        let '(r, nt') := sock_connect (nt w) in
        let w := set_nt nt' w in
        if decide (r = 0)
        then (sock, upd (fun s => set_socket sock (set_received_len 0 s)) w)
        else connect_addrs k sock (emit (EvClose sock) w)
  end.

Fixpoint connect_rounds (n k : nat) (sock : Z) (w : world) : Z * world :=
  match n with
  | O => (sock, w)
  | S n =>
      if decide (sock = RWS_INVALID_SOCKET) then
        let '(sock, w) := connect_addrs k sock w in connect_rounds n k sock w
      else (sock, w)
  end.

Definition rws_socket_connect_to_host (w : world) : world :=
  match rws_socket_connect_getaddr_info w with
  | (None, w) => w
  | (Some k, w) =>
      let '(_, w) := connect_rounds (Z.to_nat (RWS_CONNECT_ATTEMPS - 1)) k RWS_INVALID_SOCKET w in
      if decide (socket (sk w) = RWS_INVALID_SOCKET) then
        upd (set_cmd COMMAND_INFORM_DISCONNECTED)
          (fail rws_error_code_connect_to_host (str "Failed connect to host") w)
      else upd (set_cmd COMMAND_SEND_HANDSHAKE) w
  end.

(** One mbedTLS call. *)
Definition call (c : mbed_call) (w : world) : Z * world :=
  let '(r, n) := mbed c (nt w) in (r, set_nt n w).

(** TLS connect: the configuration calls up to the handshake, each failure
    leaving through [exit] with its return value. *)
Definition ssl_setup_steps (w : world) : Z * world :=
  let '(v, w) := call config_defaults w in
  if decide (v <> 0) then (-1, w) else
  let '(r, w) := (if client_cert (conf (sk w)) then call conf_own_cert w else (0, w)) in
  if decide (r <> 0) then (r, w) else
  let '(v, w) := call ssl_setup w in
  if decide (v <> 0) then (-1, w) else
  let '(r, w) := call ssl_handshake w in
  if decide (r <> 0) then (-1, w) else (0, w).

Definition ssl_conn_steps (w : world) : Z * world :=
  match rws_malloc_zero sizeof_ssl with
  | None => (-1, upd (set_ssl false) w)
  | Some _ =>
    let w := upd (set_ssl true) w in
    let '(v, w) := call ctr_drbg_seed w in
    if decide (v <> 0) then (-1, w) else
    let '(r, w) := call set_hostname w in
    if decide (r <> 0) then (-1, w) else
    let '(r, w) :=
      (if client_cert (conf (sk w)) && client_pk (conf (sk w)) then
         let '(r, w) := call crt_parse_client w in
         if decide (r < 0) then (r, w) else call pk_parse_key w
       else (0, w)) in
    if decide (r <> 0) then (r, w) else
    let '(v, w) := (if server_cert (conf (sk w)) then call crt_parse_ca w else (0, w)) in
    if decide (v < 0) then (-1, w) else
    let w := rws_socket_connect_to_host w in
    if decide (socket (sk w) = RWS_INVALID_SOCKET) then (0, w) else ssl_setup_steps w
  end.

Definition rws_ssl_conn (w : world) : Z * world :=
  let '(ret, w) := ssl_conn_steps w in
  if decide (ret <> 0)
  then (ret, upd (set_cmd COMMAND_INFORM_DISCONNECTED)
               (fail rws_error_code_connect_to_host (str "Failed connect to host") w))
  else (ret, w).

(** ** The worker loop *)

(** The first [switch], under [work_mutex]. *)
Definition work_command (loop_number : Z) (w : world) : outcome (Z * world) :=
  match cmd (sk w) with
  | COMMAND_CONNECT_TO_HOST =>
      Ret (loop_number, if is_wss (sk w) then (rws_ssl_conn w).2 else rws_socket_connect_to_host w)
  | COMMAND_SEND_HANDSHAKE => w ← rws_socket_send_handshake w; Ret (loop_number, w)
  | COMMAND_WAIT_HANDSHAKE_RESPONCE =>
      w ← rws_socket_wait_handshake_responce w; Ret (loop_number, w)
  | COMMAND_DISCONNECT => w ← rws_socket_send_disconnect w; Ret (loop_number, w)
  | COMMAND_IDLE =>
      '(loop_number, w) ←
        (if decide (400 <= loop_number) then
           w ← (if is_connected (sk w) then rws_socket_send_ping w else Ret w); Ret (0, w)
         else Ret (loop_number, w));
      w ← (if is_connected (sk w) then rws_socket_idle_send w else Ret w);
      w ← (if is_connected (sk w) then rws_socket_idle_recv w else Ret w);
      Ret (loop_number, w)
  | _ => Ret (loop_number, w)
  end.

(** The second [switch], after [work_mutex] is released. *)
Definition work_inform (w : world) : outcome world :=
  match cmd (sk w) with
  | COMMAND_INFORM_CONNECTED =>
      let w := upd (set_cmd COMMAND_IDLE) w in
      Ret (if on_connected (conf (sk w)) then emit EvConnected w else w)
  | COMMAND_INFORM_DISCONNECTED =>
      let w := upd (set_cmd COMMAND_END) w in
      w ← rws_socket_send_disconnect w;
      Ret (if on_disconnected (conf (sk w)) then emit EvDisconnected w else w)
  | COMMAND_IDLE =>
      match recvd_frames (sk w) with
      | [] => Ret w
      | _ => rws_socket_inform_recvd_frames w
      end
  | _ => Ret w
  end.

Definition work_continues (w : world) : bool :=
  bool_decide (command_code (cmd (sk w)) < command_code COMMAND_END /\ task_quit (sk w) = 0).

(** The body of [while ((s->command < COMMAND_END) && (s->task_quit == 0))]. *)
Definition work_iter (loop_number : Z) (w : world) : outcome (Z * world) :=
  '(loop_number, w) ← work_command (u32 (loop_number + 1)) w;
  w ← work_inform w;
  Ret (loop_number, w).

(** ** Public entry points *)

Definition rws_socket_create_start_work_thread (thread_ok : bool) (w : world) : bool * world :=
  let w := upd (set_cmd COMMAND_NONE) (error_clean w) in
  let w := upd (set_work_thread thread_ok) w in
  if thread_ok then (true, upd (set_cmd COMMAND_CONNECT_TO_HOST) w) else (false, w).

Definition connect_params_error (c : ws_conf) : option string :=
  let msg := None in
  let msg := if decide (port c <= 0) then Some "No URL port provided"%string else msg in
  let msg := if decide (scheme c = None) then Some "No URL scheme provided"%string else msg in
  let msg := if decide (host c = None) then Some "No URL host provided"%string else msg in
  let msg := if decide (path c = None) then Some "No URL path provided"%string else msg in
  if on_disconnected c then msg else Some "No on_disconnected callback provided"%string.

Definition rws_socket_connect (thread_ok : bool) (w : world) : bool * world :=
  let w := error_clean w in
  let w := upd (set_received_len 0) w in
  match connect_params_error (conf (sk w)) with
  | Some m => (false, fail rws_error_code_missed_parameter (str m) w)
  | None => rws_socket_create_start_work_thread thread_ok w
  end.

(** [rws_socket_disconnect_and_release]: the command is set under [work_mutex],
    the quit flag after it is released; then the worker is joined and
    [rws_socket_delete] runs. *)
Definition rws_socket_disconnect_request (w : world) : world :=
  if is_connected (sk w) then upd (set_cmd COMMAND_DISCONNECT) w
  else if work_thread (sk w) then upd (set_cmd COMMAND_END) w else w.

Definition rws_socket_disconnect_quit (w : world) : world :=
  if work_thread (sk w) then upd (set_task_quit 1) w else w.

Definition rws_socket_send_text (text : option (list Z)) (w : world) :=
  rws_socket_send_text_priv text w.
Definition rws_socket_send_text2 (text : list Z) (len : Z) (w : world) :=
  rws_socket_send_text_priv2 text len w.
Definition rws_socket_send_bin_start (bin : option (list Z)) (len : Z) (w : world) :=
  rws_socket_send_bin_priv bin len rws_binary_start w.
Definition rws_socket_send_bin_continue (bin : option (list Z)) (len : Z) (w : world) :=
  rws_socket_send_bin_priv bin len rws_binary_continue w.
Definition rws_socket_send_bin_finish (bin : option (list Z)) (len : Z) (w : world) :=
  rws_socket_send_bin_priv bin len rws_binary_finish w.

(** [rws_socket_create]: a zeroed record with the defaults; the setters below
    then fill in the configuration. *)
Definition default_conf : ws_conf :=
  Conf (-1) None None None None None false false false false false RWS_MAX_SEND_APPEND_SIZE
    false false false.

Definition rws_socket_create : rws_socket :=
  Socket default_conf RWS_INVALID_SOCKET None false COMMAND_NONE 0 0 false None 0 0 [] [] 0 None false.

(** The setters replace a string by a copy of the argument; an empty or NULL
    argument leaves NULL. *)
Definition copy_arg (a : option (list Z)) : option (list Z) :=
  match a with Some a => rws_string_copy a | None => None end.

Definition rws_socket_set_url (sch hst : option (list Z)) (prt : Z) (pth : option (list Z))
  (c : ws_conf) : ws_conf :=
  Conf prt (copy_arg sch) (copy_arg hst) (copy_arg pth) (token_field c) (token c)
    (on_connected c) (on_disconnected c) (on_recvd_text c) (on_recvd_bin c) (on_recvd_pong c)
    (max_send_append_size c) (server_cert c) (client_cert c) (client_pk c).

Definition rws_socket_set_scheme (sch : option (list Z)) (c : ws_conf) : ws_conf :=
  Conf (port c) (copy_arg sch) (host c) (path c) (token_field c) (token c)
    (on_connected c) (on_disconnected c) (on_recvd_text c) (on_recvd_bin c) (on_recvd_pong c)
    (max_send_append_size c) (server_cert c) (client_cert c) (client_pk c).
Definition rws_socket_set_host (hst : option (list Z)) (c : ws_conf) : ws_conf :=
  Conf (port c) (scheme c) (copy_arg hst) (path c) (token_field c) (token c)
    (on_connected c) (on_disconnected c) (on_recvd_text c) (on_recvd_bin c) (on_recvd_pong c)
    (max_send_append_size c) (server_cert c) (client_cert c) (client_pk c).
Definition rws_socket_set_path (pth : option (list Z)) (c : ws_conf) : ws_conf :=
  Conf (port c) (scheme c) (host c) (copy_arg pth) (token_field c) (token c)
    (on_connected c) (on_disconnected c) (on_recvd_text c) (on_recvd_bin c) (on_recvd_pong c)
    (max_send_append_size c) (server_cert c) (client_cert c) (client_pk c).
Definition rws_socket_set_port (prt : Z) (c : ws_conf) : ws_conf :=
  Conf prt (scheme c) (host c) (path c) (token_field c) (token c)
    (on_connected c) (on_disconnected c) (on_recvd_text c) (on_recvd_bin c) (on_recvd_pong c)
    (max_send_append_size c) (server_cert c) (client_cert c) (client_pk c).

(** [rws_socket_delete] after the worker has been joined: close the descriptor
    and release what the socket owns. *)
Definition rws_socket_delete (w : world) : outcome world :=
  let w := rws_socket_close w in
  rws_socket_delete_all_frames_in_list (send_frames (sk w)) ;;
  rws_socket_delete_all_frames_in_list (recvd_frames (sk w)) ;;
  Ret (upd (fun s => set_recvd_frames [] (set_send_frames [] (set_send_append_size 0
              (set_received_len 0 (set_received_size 0 (set_received None
                (set_sec_ws_accept None (set_ssl false (set_error None s))))))))) w).

(** ** Interleavings of the worker thread and the application

    The worker alternates between the two [switch] statements of its loop body
    and the application calls the send functions and, once,
    [rws_socket_disconnect_and_release].  A step is one of the code's critical
    sections (or the second [switch], which runs outside [work_mutex]). *)

Record conc := Conc {
  loop_number : Z;
  at_inform : bool;    (* between the two switches *)
  releasing : bool;    (* [rws_socket_disconnect_and_release] was called *)
  wd : world
}.

Inductive step : conc -> conc -> Prop :=
| step_command n n' q w w' :
    work_continues w = true -> work_command (u32 (n + 1)) w = Ret (n', w') ->
    step (Conc n false q w) (Conc n' true q w')
| step_inform n q w w' :
    work_inform w = Ret w' -> step (Conc n true q w) (Conc n false q w')
| step_text n i w w' t b :
    rws_socket_send_text t w = Ret (b, w') -> step (Conc n i false w) (Conc n i false w')
| step_text2 n i w w' t len b :
    rws_socket_send_text2 t len w = Ret (b, w') -> step (Conc n i false w) (Conc n i false w')
| step_bin n i w w' d len bt b :
    rws_socket_send_bin_priv d len bt w = Ret (b, w') -> step (Conc n i false w) (Conc n i false w')
| step_disconnect n i w :
    step (Conc n i false w) (Conc n i true (rws_socket_disconnect_request w))
| step_quit n i w :
    step (Conc n i true w) (Conc n i true (rws_socket_disconnect_quit w)).

End Client.

(** ** A scripted network, for evaluation *)

Record script := Script {
  sc_reads : list (list (list Z) * read_end);
  sc_writes : list Z;        (* answers to writes; the full length when exhausted *)
  sc_errno : Z;
  sc_soerr : Z;
  sc_resolve : list (Z * nat);
  sc_open : list Z;
  sc_conn : list Z
}.

#[export] Instance net_script : Net := {|
  net := script;
  net_write n _ d :=
    match sc_writes n with
    | [] => (zlen d, n)
    | r :: rs => (r, Script (sc_reads n) rs (sc_errno n) (sc_soerr n) (sc_resolve n) (sc_open n) (sc_conn n))
    end;
  net_reads n _ :=
    match sc_reads n with
    | [] => ([], ReadZero, n)
    | (cs, e) :: rs =>
        (cs, e, Script rs (sc_writes n) (sc_errno n) (sc_soerr n) (sc_resolve n) (sc_open n) (sc_conn n))
    end;
  net_errno n := sc_errno n;
  strerror _ := str "error";
  so_error n := sc_soerr n;
  net_resolve n :=
    match sc_resolve n with
    | [] => (0, 1%nat, n)
    | (r, k) :: rs =>
        (r, k, Script (sc_reads n) (sc_writes n) (sc_errno n) (sc_soerr n) rs (sc_open n) (sc_conn n))
    end;
  sock_open n :=
    match sc_open n with
    | [] => (3, n)
    | r :: rs => (r, Script (sc_reads n) (sc_writes n) (sc_errno n) (sc_soerr n) (sc_resolve n) rs (sc_conn n))
    end;
  sock_connect n :=
    match sc_conn n with
    | [] => (0, n)
    | r :: rs => (r, Script (sc_reads n) (sc_writes n) (sc_errno n) (sc_soerr n) (sc_resolve n) (sc_open n) rs)
    end;
  mbed _ n := (0, n);
  sizeof_ssl := 1024
|}.

Definition quiet : script := Script [] [] 11 0 [] [] [].

Definition demo_conf : ws_conf :=
  Conf 8080 (Some (str "ws")) (Some (str "ha.lan")) (Some (str "/")) None None
    true true true true true RWS_MAX_SEND_APPEND_SIZE false false false.

Fixpoint run (fuel : nat) (n : Z) (w : world) : outcome world :=
  match fuel with
  | O => Ret w
  | S fuel => if work_continues w then '(n, w) ← work_iter n w; run fuel n w else Ret w
  end.
