(* ===== verification/WsRecvProofs.v ===== *)
(** * WebSocket client: the receive path

    Chunks from the transport are appended to the receive buffer, complete
    frames are taken off its front, and their payloads reach the callbacks in
    order, however the byte stream was cut into chunks. *)

From S2P Require Import Prelude WsFrame WsFrameProofs WsSocket.

Section Receive.
Context `{LC : Libc} `{NC : Net}.

(** No allocation of a representable size fails. *)
Definition heap_ok : Prop := forall n, 0 < n < 2 ^ 32 -> can_alloc n.

(** [rx s l]: the receive buffer of [s] holds exactly the bytes [l]. *)
Definition rx (s : rws_socket) (l : list Z) : Prop :=
  received_len s = zlen l /\ received_size s < 2 ^ 32 /\
  match received s with
  | Some b => received_size s = zlen b /\ exists junk, b = l ++ junk
  | None => received_size s = 0 /\ l = []
  end.

(** Two worlds that differ in the receive buffer only. *)
Definition no_rx (w : world) : world :=
  upd (fun s => set_received_len 0 (set_received_size 0 (set_received None s))) w.

Definition same_but_rx (w w' : world) : Prop := no_rx w' = no_rx w.

Lemma same_but_rx_trans w1 w2 w3 : same_but_rx w1 w2 -> same_but_rx w2 w3 -> same_but_rx w1 w3.
Proof. unfold same_but_rx. congruence. Qed.

Lemma rx_size s l : rx s l -> zlen l <= received_size s.
Proof.
  intros (Hl & Hs & Hr). destruct (received s) as [b|].
  - destruct Hr as (-> & junk & ->). rewrite zlen_app. pose proof (zlen_nonneg junk). lia.
  - destruct Hr as (-> & ->). done.
Qed.

(** Growing the buffer keeps its content. *)
Lemma resize_rx w l size :
  heap_ok -> rx (sk w) l -> received_size (sk w) < size < 2 ^ 32 ->
  exists w', rws_socket_resize_received size w = Ret w' /\ same_but_rx w w' /\
    rx (sk w') l /\ received_size (sk w') = size /\ exists b, received (sk w') = Some b.
Proof.
  intros Hh (Hl & Hs & Hr) Hsz. pose proof (zlen_nonneg l).
  assert (0 <= received_size (sk w)).
  { destruct (received (sk w)); destruct Hr as [-> _]; [apply zlen_nonneg|lia]. }
  unfold rws_socket_resize_received. rewrite decide_False by lia.
  rewrite (decide_True (P := received_size (sk w) < size)) by lia.
  destruct (rws_malloc_some size) as (m & -> & Hm); [lia|apply Hh; lia|].
  destruct (received (sk w)) as [old|] eqn:Er.
  - destruct Hr as (Hsize & junk & ->). case_decide as Hpos.
    + rewrite mem_read_ok by lia. rewrite zdrop_0, ztake_all by lia. cbn [mbind outcome_bind].
      rewrite <- (ztake_zdrop (zlen (l ++ junk)) m).
      assert (zlen (ztake (zlen (l ++ junk)) m) = zlen (l ++ junk)) as Ht
        by (apply zlen_ztake; lia).
      pose proof (mem_write_exact [] _ (l ++ junk) (zdrop (zlen (l ++ junk)) m) Ht) as W.
      cbn [app] in W. change (zlen []) with 0 in W. rewrite W. cbn [mbind outcome_bind].
      eexists. split; [done|]. split; [reflexivity|]. cbn. split.
      { split; [done|]. split; [cbn; lia|]. cbn. split; [rewrite zlen_app, zlen_zdrop; lia|].
        exists (junk ++ zdrop (zlen (l ++ junk)) m). by rewrite app_assoc. }
      split; [done|eauto].
    + assert (l = []) as -> by (apply zlen_nil_inv; rewrite zlen_app in *; pose proof (zlen_nonneg junk); lia).
      cbn [mbind outcome_bind]. eexists. split; [done|]. split; [reflexivity|].
      split; [|split; [done|eauto]]. split; [done|]. split; [cbn; lia|]. cbn. split; [done|by exists m].
  - destruct Hr as (Hsize & ->). cbn [mbind outcome_bind].
    eexists. split; [done|]. split; [reflexivity|].
    split; [|split; [done|eauto]]. split; [done|]. split; [cbn; lia|]. cbn. split; [done|by exists m].
Qed.

(** Writing a chunk into a buffer with room for it. *)
Lemma append_rx w l d b :
  rx (sk w) l -> received (sk w) = Some b -> zlen d <= received_size (sk w) - zlen l ->
  exists w', (r ← mem_write b (received_len (sk w)) d;
              Ret (upd (fun s => set_received_len (u32 (received_len s + zlen d))
                                   (set_received (Some r) s)) w)) = Ret w' /\
    same_but_rx w w' /\ rx (sk w') (l ++ d) /\ received_size (sk w') = received_size (sk w).
Proof.
  intros (Hl & Hs & Hr) Hb Hroom. rewrite Hb in Hr. destruct Hr as (Hsize & junk & ->).
  pose proof (zlen_nonneg l). pose proof (zlen_nonneg d).
  rewrite zlen_app in Hsize. rewrite Hl.
  rewrite <- (ztake_zdrop (zlen d) junk).
  assert (zlen (ztake (zlen d) junk) = zlen d) as Ht by (apply zlen_ztake; lia).
  rewrite (mem_write_exact l _ d (zdrop (zlen d) junk) Ht). cbn [mbind outcome_bind].
  eexists. split; [done|].
  split; [reflexivity|].
  split; [|done]. split; [cbn; rewrite Hl, u32_id, zlen_app; lia|]. split; [done|]. cbn.
  split; [rewrite !zlen_app, zlen_zdrop; lia|].
  exists (zdrop (zlen d) junk). by rewrite <- app_assoc.
Qed.

Lemma recv_chunk_rx w l d :
  heap_ok -> rx (sk w) l -> d <> [] -> received_size (sk w) + zlen d < 2 ^ 32 ->
  exists w', recv_chunk d w = Ret w' /\ same_but_rx w w' /\ rx (sk w') (l ++ d) /\
             received_size (sk w') <= received_size (sk w) + zlen d.
Proof.
  intros Hh Hrx Hd Hsz. pose proof (zlen_pos d Hd) as Hpos.
  pose proof (rx_size _ _ Hrx) as Hle. pose proof (zlen_nonneg l).
  pose proof Hrx as (Hl & Hs & Hr). unfold recv_chunk. rewrite Hl.
  rewrite u32_id by lia. destruct (decide (received_size (sk w) - zlen l < zlen d)) as [Hlt|Hge].
  - rewrite u32_id by lia.
    destruct (resize_rx w l (received_size (sk w) + zlen d)) as (w1 & -> & Hsame & Hrx1 & Hsz1 & b & Hb);
      [done|done|lia|].
    cbn [mbind outcome_bind]. rewrite Hb.
    destruct (append_rx w1 l d b Hrx1 Hb) as (w2 & -> & Hs2 & Hrx2 & Hsz2); [lia|].
    exists w2. split; [done|]. split; [by eapply same_but_rx_trans|]. split; [done|lia].
  - cbn [mbind outcome_bind]. destruct (received (sk w)) as [b|] eqn:Hb.
    + destruct (append_rx w l d b Hrx Hb) as (w2 & -> & Hs2 & Hrx2 & Hsz2); [lia|].
      exists w2. split; [done|]. split; [done|]. split; [done|lia].
    + destruct Hr as [Hz ->]. rewrite zlen_nil in *. lia.
Qed.

Lemma recv_chunks_rx ds : forall w l,
  heap_ok -> rx (sk w) l -> Forall (fun d => d <> []) ds ->
  received_size (sk w) + zlen (concat ds) < 2 ^ 32 ->
  exists w', recv_chunks ds w = Ret w' /\ same_but_rx w w' /\ rx (sk w') (l ++ concat ds).
Proof.
  induction ds as [|d ds IH]; intros w l Hh Hrx Hne Hsz.
  { exists w. split; [done|]. split; [reflexivity|]. cbn. by rewrite app_nil_r. }
  inversion Hne as [|? ? Hd Hne']; subst. cbn [concat] in Hsz. rewrite zlen_app in Hsz.
  pose proof (zlen_nonneg (concat ds)).
  destruct (recv_chunk_rx w l d) as (w1 & E1 & Hs1 & Hrx1 & Hsz1); [done..|lia|].
  destruct (IH w1 (l ++ d)) as (w2 & E2 & Hs2 & Hrx2); [done..|lia|].
  exists w2. cbn [recv_chunks concat]. rewrite E1. cbn [mbind outcome_bind]. rewrite E2.
  split; [done|]. split; [by eapply same_but_rx_trans|]. by rewrite app_assoc.
Qed.

(** ** One complete frame at the front of the buffer *)

(** Dropping the frame just processed leaves the rest. *)
Lemma consume_rx w front rest :
  rx (sk w) (front ++ rest) -> front <> [] ->
  exists w', consume (zlen front) w = Ret w' /\ same_but_rx w w' /\ rx (sk w') rest /\
             received_size (sk w') = received_size (sk w).
Proof.
  intros (Hl & Hs & Hr) Hf. pose proof (zlen_pos front Hf) as Hpos.
  destruct (received (sk w)) as [b|] eqn:Hb; [|destruct Hr as [_ [? ?]%app_eq_nil]; done].
  destruct Hr as (Hsize & junk & ->). unfold consume. rewrite Hl, Hb.
  rewrite !zlen_app in *. pose proof (zlen_nonneg rest). pose proof (zlen_nonneg junk).
  destruct (decide (zlen front = zlen front + zlen rest)) as [E|E].
  - assert (rest = []) as -> by (apply zlen_nil_inv; lia).
    eexists. split; [done|]. split; [reflexivity|]. split; [|done].
    split; [done|]. split; [cbn; lia|]. cbn. rewrite Hb.
    split; [zl|]. exists (front ++ junk). by rewrite app_nil_r.
  - rewrite decide_True by lia.
    replace (zlen front + zlen rest - zlen front) with (zlen rest) by lia.
    rewrite <- app_assoc, mem_read_exact. cbn [mbind outcome_bind].
    rewrite mem_write_front by zl. cbn [mbind outcome_bind].
    eexists. split; [done|]. split; [reflexivity|]. split; [|done].
    split; [done|]. split; [cbn; lia|]. cbn.
    split; [rewrite zlen_app, zlen_zdrop by zl; zl|]. by eexists.
Qed.

Lemma rx_received w l : rx (sk w) l -> l <> [] -> exists junk, received (sk w) = Some (l ++ junk).
Proof.
  intros (_ & _ & Hr) Hl. destruct (received (sk w)) as [b|]; [|by destruct Hr as [_ ->]].
  destruct Hr as (_ & junk & ->). eauto.
Qed.

(** A received message that needs no reassembly. *)
Record msg := Msg { m_opc : Z; m_mask : option (list Z); m_data : list Z }.

Definition msg_ok (x : msg) : Prop :=
  wire_ok (m_opc x) (m_mask x) (m_data x) /\ m_data x <> [] /\
  (m_opc x = rws_opcode_text_frame \/ m_opc x = rws_opcode_binary_frame).

Definition msg_wire (x : msg) : list Z := wire true (m_opc x) (m_mask x) (m_data x).

(** The frame the parser builds for a message. *)
Definition frame_of (x : msg) (f : rws_frame) : Prop :=
  opcode f = m_opc x /\ is_finished f = true /\ holds f (m_data x).

Definition all_finished (fs : list (option rws_frame)) : Prop :=
  Forall (fun o => exists f, o = Some f /\ is_finished f = true) fs.

Lemma last_unfin_none fs i last : all_finished fs -> last_unfin i fs last = last.
Proof.
  intros Hf. revert i. induction Hf as [|o fs (f & -> & Hfin) Hfs IH]; intros i; [done|].
  cbn. rewrite Hfin. apply IH.
Qed.

Lemma list_append_ok l f : heap_ok -> rws_list_append l f = Ret (l ++ [Some f]).
Proof.
  intros Hh. unfold rws_list_append, rws_malloc_zero.
  destruct (rws_malloc_some sizeof_node) as (m & -> & _); [by vm_compute|by apply Hh|done].
Qed.

Lemma wire_nonempty fin opc m p : wire fin opc m p <> [].
Proof. done. Qed.

Lemma recv_one_data w x rest :
  heap_ok -> msg_ok x -> rx (sk w) (msg_wire x ++ rest) -> all_finished (recvd_frames (sk w)) ->
  exists f r w', recv_one w = Ret (Some w') /\ frame_of x f /\
    rx (sk w') rest /\ received_size (sk w') = received_size (sk w) /\
    same_but_rx (upd (set_recvd_frames (recvd_frames (sk w) ++ [Some f])) (set_rng r w)) w'.
Proof.
  intros Hh (Hok & Hne & Hopc) Hrx Hfin.
  destruct (rx_received w (msg_wire x ++ rest) Hrx) as [junk Hb]; [done|].
  assert (received_len (sk w) = zlen (msg_wire x) + zlen rest) as Hlen
    by (destruct Hrx as [-> _]; apply zlen_app).
  pose proof (zlen_nonneg rest). pose proof (zlen_pos _ Hne).
  pose proof (wok_len _ _ _ Hok).
  destruct (recv_decodes (rng w) true (m_opc x) (m_mask x) (m_data x) (rest ++ junk) Hok)
    as (_ & f & r & Hcreate & Ho & Hf & _ & Hread & Hsz & Hdata);
    [by destruct Hopc as [->| ->]|by destruct Hopc as [->| ->]|by apply Hh|intros; apply Hh; lia|].
  assert (holds f (m_data x)) as Hhold by (split; auto).
  unfold recv_one. rewrite Hb, Hlen, <- app_assoc. unfold msg_wire at 1 2.
  rewrite check_wire by (done || (fold (msg_wire x); lia)). cbn [mbind outcome_bind].
  fold (msg_wire x) in Hcreate |- *.
  assert (0 < zlen (msg_wire x)) by (by apply zlen_pos).
  rewrite decide_False by lia. rewrite Hcreate. cbn [mbind outcome_bind].
  unfold rws_socket_process_received_frame, rws_socket_process_bin_or_text_frame,
    rws_socket_last_unfin_recvd_frame_by_opcode. rewrite Ho.
  rewrite (decide_False (P := m_opc x = rws_opcode_ping)) by (by destruct Hopc as [->| ->]).
  rewrite (decide_False (P := m_opc x = rws_opcode_pong)) by (by destruct Hopc as [->| ->]).
  rewrite decide_True by tauto. cbn [sk set_rng]. rewrite last_unfin_none by done.
  destruct Hhold as [Hd Hs]. rewrite Hd, Hs.
  rewrite decide_True by (split; [by eexists|lia]).
  unfold rws_socket_append_recvd_frames. rewrite list_append_ok by done. cbn [mbind outcome_bind].
  destruct (consume_rx (upd (set_recvd_frames (recvd_frames (sk w) ++ [Some f])) (set_rng r w))
              (msg_wire x) rest) as (w' & Hc & Hsame & Hrx' & Hsz'); [exact Hrx|done|].
  cbn [sk set_rng]. rewrite Hc. cbn [mbind outcome_bind].
  exists f, r, w'. split; [done|]. by split; [split_and!|].
Qed.

(** ** A batch of frames *)

(** [tail] does not hold a complete frame yet. *)
Definition incomplete (tail : list Z) : Prop :=
  rws_check_recv_frame_size (Some tail) (zlen tail) = Ret 0.

Lemma recv_one_none w tail : rx (sk w) tail -> incomplete tail -> recv_one w = Ret None.
Proof.
  intros (Hl & _ & Hr) Hinc. unfold recv_one. rewrite Hl.
  destruct (received (sk w)) as [b|].
  - destruct Hr as (_ & junk & ->). by rewrite check_local, Hinc.
  - done.
Qed.

Definition wires (xs : list msg) : list Z := concat (msg_wire <$> xs).

Lemma wires_length xs : Z.of_nat (length xs) <= zlen (wires xs).
Proof.
  induction xs as [|x xs IH]; [done|]. unfold wires in *. cbn [fmap list_fmap concat].
  rewrite zlen_app. cbn [length].
  assert (0 < zlen (msg_wire x)) by (by apply zlen_pos). lia.
Qed.

Lemma recv_frames_batch xs : forall fuel w tail,
  heap_ok -> Forall msg_ok xs -> rx (sk w) (wires xs ++ tail) -> incomplete tail ->
  all_finished (recvd_frames (sk w)) -> (length xs < fuel)%nat ->
  exists fs r w', recv_frames fuel w = Ret w' /\ Forall2 frame_of xs fs /\ rx (sk w') tail /\
    same_but_rx (upd (set_recvd_frames (recvd_frames (sk w) ++ (Some <$> fs))) (set_rng r w)) w'.
Proof.
  induction xs as [|x xs IH]; intros fuel w tail Hh Hok Hrx Hinc Hfin Hfuel;
    (destruct fuel as [|fuel]; [cbn in Hfuel; lia|]); cbn [recv_frames].
  - exists [], (rng w), w. cbn [wires] in Hrx. rewrite (recv_one_none w tail) by done.
    split; [done|]. split; [done|]. split; [done|]. cbn. rewrite app_nil_r. by destruct w as [[] ].
  - inversion Hok as [|? ? Hx Hxs]; subst. unfold wires in Hrx. cbn [fmap list_fmap concat] in Hrx.
    rewrite <- app_assoc in Hrx.
    destruct (recv_one_data w x _ Hh Hx Hrx Hfin) as (f & r & w1 & E1 & Hf & Hrx1 & Hsz1 & Hs1).
    rewrite E1. cbn [mbind outcome_bind].
    assert (recvd_frames (sk w1) = recvd_frames (sk w) ++ [Some f]) as Hr1
      by apply (f_equal (fun w => recvd_frames (sk w)) Hs1).
    destruct (IH fuel w1 tail) as (fs & r' & w2 & E2 & Hfs & Hrx2 & Hs2); [done..| |cbn in Hfuel; lia|].
    { rewrite Hr1. apply Forall_app. split; [done|]. constructor; [|done].
      exists f. split; [done|]. apply Hf. }
    exists (f :: fs), r', w2. split; [done|]. split; [by constructor|]. split; [done|].
    rewrite Hr1, <- app_assoc in Hs2. unfold same_but_rx in *. rewrite Hs2.
    transitivity (upd (set_recvd_frames (recvd_frames (sk w) ++ (Some <$> f :: fs)))
                    (set_rng r' (no_rx w1))); [reflexivity|].
    rewrite Hs1. reflexivity.
Qed.

(** The callbacks a message causes. *)
Definition delivered (c : ws_conf) (x : msg) : list event :=
  if decide (m_opc x = rws_opcode_text_frame)
  then if on_recvd_text c then [EvText (Ret (m_data x)) true] else []
  else if on_recvd_bin c then [EvBin (Ret (m_data x)) true] else [].

Lemma inform_frame_out w x f :
  msg_ok x -> frame_of x f ->
  sk (inform_frame f w) = sk w /\ out (inform_frame f w) = out w ++ delivered (conf (sk w)) x.
Proof.
  intros (_ & _ & Hopc) (Ho & Hf & Hh). unfold inform_frame, delivered.
  rewrite Ho, Hf, (holds_read _ _ Hh).
  rewrite (decide_False (P := m_opc x = rws_opcode_continuation)) by (by destruct Hopc as [->| ->]).
  destruct Hopc as [->| ->].
  - rewrite !(decide_True (P := rws_opcode_text_frame = rws_opcode_text_frame)) by done.
    destruct (on_recvd_text _); cbn; rewrite ?app_nil_r; done.
  - rewrite !(decide_False (P := rws_opcode_binary_frame = rws_opcode_text_frame)) by done.
    rewrite (decide_True (P := rws_opcode_binary_frame = rws_opcode_binary_frame)) by done.
    destruct (on_recvd_bin _); cbn; rewrite ?app_nil_r; done.
Qed.

Lemma inform_frames_out xs fs w :
  Forall msg_ok xs -> Forall2 frame_of xs fs ->
  exists w', inform_frames (Some <$> fs) w = Ret w' /\ sk w' = sk w /\
    out w' = out w ++ concat (delivered (conf (sk w)) <$> xs).
Proof.
  intros Hok Hfs. revert w. induction Hfs as [|x f xs fs Hf Hfs IH]; intros w.
  { exists w. cbn. by rewrite app_nil_r. }
  inversion Hok as [|? ? Hx Hxs]; subst. cbn [fmap list_fmap inform_frames concat].
  destruct (inform_frame_out w x f Hx Hf) as [Hsk Hout].
  assert (rws_frame_delete (Some f) = Ret tt) as ->.
  { destruct Hf as (_ & _ & Hd & _). cbn. by rewrite Hd. }
  cbn [mbind outcome_bind]. destruct (IH Hxs (inform_frame f w)) as (w' & -> & Hsk' & Hout').
  exists w'. split; [done|]. split; [congruence|]. by rewrite Hout', Hout, Hsk, app_assoc.
Qed.


End Receive.

(** ** A concrete session *)

(** "hi" in two reads, the second of which also holds the first byte of the next frame. *)
Definition w_net : script :=
  Script [([[129; 2; 104]; [105; 130]], ReadNeg (-1) EAGAIN)] [] EAGAIN 0 [] [] [].
Definition w_world : world :=
  World (set_cmd COMMAND_IDLE (set_is_connected true (set_socket 3 (set_conf demo_conf rws_socket_create))))
    w_net 7 [].
Definition w_msg : msg := Msg rws_opcode_text_frame None [104; 105].

Lemma plain_heap_ok : heap_ok (LC := libc_plain).
Proof. intros n Hn. apply plain_can_alloc. lia. Qed.

Lemma w_msg_ok : msg_ok w_msg.
Proof.
  split; [|split; [done|by left]].
  constructor; [done|done|by_decide|done].
Qed.

