(* ===== verification/WsSendProofs.v ===== *)
(** * WebSocket client: the send path and the opening handshake

    Messages are queued as masked wire images within the send limit, the worker
    writes the queue in order, a ping is answered with its own payload; the
    request text of the handshake and what the client accepts as a reply. *)

From stdpp Require Import strings.
From S2P Require Import Prelude WsFrame WsFrameProofs WsSocket WsRecvProofs.

Section Send.
Context `{LC : Libc} `{NC : Net}.

(** ** Queueing *)

(** A masking key as [rws_frame_create] makes it. *)
Definition key (k : list Z) : Prop := length k = 4%nat /\ bytes k.

Lemma frame_create_key w :
  heap_ok -> exists k r, frame_create w = Ret (Frame None 0 0 k false false 0, set_rng r w) /\ key k.
Proof.
  intros Hh. unfold frame_create.
  destruct (frame_create_ok (rng w)) as (k & r & -> & Hk); [by apply Hh|].
  exists k, r. by split.
Qed.

Lemma key_wire_ok opc k p :
  key k -> 0 <= opc < 16 -> bytes p -> zlen p + 14 < 2 ^ 32 -> wire_ok opc (Some k) p.
Proof. intros [Hk Hb] Ho Hp Hl. split; try done. by intros ? [= <-]. Qed.

Lemma wire_alloc fin opc k p :
  heap_ok -> key k -> zlen p + 14 < 2 ^ 32 -> can_alloc (zlen (wire fin opc (Some k) p)).
Proof.
  intros Hh [Hk _] Hp. apply Hh. pose proof (zlen_nonneg p).
  assert (zlen k = 4) as Hk4 by (unfold zlen; rewrite Hk; done).
  rewrite (zlen_wire _ _ _ _ 4) by (right; eauto).
  pose proof (wire_len_bounds (bool_decide (is_Some (Some k))) (zlen p)). lia.
Qed.

(** The frame [f] of a message: the wire image, masked with some key. *)
Definition image (fin : bool) (opc : Z) (p : list Z) (f : rws_frame) : Prop :=
  exists k, key k /\ holds f (wire fin opc (Some k) p).

(** [w'] is [w] with one more frame queued (and a new random state). *)
Definition queued (f : rws_frame) (size : Z) (w w' : world) : Prop :=
  exists r, w' = upd (fun s => set_send_frames (send_frames s ++ [Some f])
                               (set_send_append_size size s)) (set_rng r w).

Definition within_limit (len : Z) (w : world) : Prop :=
  send_append_size (sk w) + len <= max_send_append_size (conf (sk w)).

#[export] Instance within_limit_dec len w : Decision (within_limit len w).
Proof. unfold within_limit. apply _. Defined.

(** The send limit is what the setter allows and the accounting respects it. *)
Definition limits_ok (w : world) : Prop :=
  0 <= send_append_size (sk w) <= max_send_append_size (conf (sk w)) /\
  max_send_append_size (conf (sk w)) < 2 ^ 30.

Lemma mem_used_out_spec len w :
  limits_ok w -> 0 <= len < 2 ^ 30 ->
  rws_socket_mem_used_out len w =
    if decide (within_limit len w)
    then (false, upd (set_send_append_size (send_append_size (sk w) + len)) w) else (true, w).
Proof.
  intros [H1 H2] Hl. unfold rws_socket_mem_used_out, within_limit.
  assert (forall z, - 2 ^ 31 <= z < 2 ^ 31 -> i32 z = z) as Hi.
  { intros z Hz. unfold i32. rewrite Z.mod_small; lia. }
  rewrite (Hi len), Hi by lia.
  destruct (decide (max_send_append_size (conf (sk w)) < send_append_size (sk w) + len)).
  - rewrite decide_False by lia. done.
  - rewrite decide_True by lia. done.
Qed.

Lemma queue_frame_spec opc fin p w :
  heap_ok -> limits_ok w -> 0 <= opc < 16 -> bytes p -> 0 < zlen p < 2 ^ 30 ->
  (within_limit (zlen p) w ->
     exists f w', queue_frame opc fin p (zlen p) w = Ret (true, w') /\ image fin opc p f /\
       queued f (send_append_size (sk w) + zlen p) w w') /\
  (~ within_limit (zlen p) w -> queue_frame opc fin p (zlen p) w = Ret (false, w)).
Proof.
  intros Hh Hlim Hopc Hp Hlen. unfold queue_frame. rewrite decide_False by lia.
  rewrite mem_used_out_spec by (done || lia).
  destruct (decide (within_limit (zlen p) w)) as [Hin|Hout]; [|done].
  split; [intros _|done].
  set (w1 := upd _ w). destruct (frame_create_key w1 Hh) as (k & r & -> & Hk).
  cbn [mbind outcome_bind].
  destruct (fill_encodes (set_opcode opc (set_masked true (Frame None 0 0 k false false 0))) p fin)
    as (f & -> & Hf & _); [apply key_wire_ok; (done || lia)|apply Hk|apply wire_alloc; (done || lia)|].
  cbn [mbind outcome_bind]. unfold rws_socket_append_send_frames.
  rewrite list_append_ok by done. cbn [mbind outcome_bind].
  exists f. eexists. split; [done|]. split; [by exists k|]. by exists r.
Qed.

(** Text messages: [rws_socket_send_text] queues exactly one final text
    frame whose bytes are the masked RFC 6455 image of the text, behind what is
    queued already, and accounts for its length; a text that would exceed the
    send limit is refused and changes nothing; NULL and the empty text are refused. *)
Theorem ws_send_text_queues p w :
  heap_ok -> limits_ok w -> bytes p -> zlen p < 2 ^ 30 ->
  (p <> [] -> within_limit (zlen p) w ->
     exists f w', rws_socket_send_text (Some p) w = Ret (true, w') /\
       image true rws_opcode_text_frame p f /\
       queued f (send_append_size (sk w) + zlen p) w w' /\ limits_ok w') /\
  (~ within_limit (zlen p) w -> rws_socket_send_text (Some p) w = Ret (false, w)) /\
  rws_socket_send_text (Some []) w = Ret (false, w) /\
  rws_socket_send_text None w = Ret (false, w).
Proof.
  intros Hh Hlim Hp Hlen. split_and!; try done.
  - intros Hne Hin. pose proof (zlen_pos p Hne).
    destruct (queue_frame_spec rws_opcode_text_frame true p w) as [Hq _]; try done.
    destruct (Hq Hin) as (f & w' & E & Hi & r & ->).
    exists f. eexists. split; [exact E|]. split; [done|]. split; [by exists r|].
    unfold limits_ok, within_limit in *. cbn. lia.
  - intros Hout. destruct p as [|b p]; [by unfold within_limit, limits_ok in *; rewrite zlen_nil in Hout; lia|].
    assert (0 < zlen (b :: p)) by (by apply zlen_pos).
    by apply (queue_frame_spec rws_opcode_text_frame true (b :: p) w).
Qed.

(** Binary streams: start, continue and finish queue one frame each with the
    opcode and FIN bit RFC 6455 fragmentation asks for (binary and continuation,
    FIN on the last one only), accounted against the send limit. *)
Theorem ws_send_bin_queues p bt w :
  heap_ok -> limits_ok w -> bytes p -> zlen p < 2 ^ 30 ->
  (within_limit (zlen p) w ->
     exists f w', rws_socket_send_bin_priv (Some p) (zlen p) bt w = Ret (true, w') /\
       image (bool_decide (bt = rws_binary_finish)) (bin_opcode bt) p f /\
       queued f (send_append_size (sk w) + zlen p) w w' /\ limits_ok w') /\
  (~ within_limit (zlen p) w ->
     rws_socket_send_bin_priv (Some p) (zlen p) bt w = Ret (false, w)).
Proof.
  intros Hh Hlim Hp Hlen. pose proof (zlen_nonneg p).
  unfold rws_socket_send_bin_priv. rewrite mem_used_out_spec by (done || lia).
  destruct (decide (within_limit (zlen p) w)) as [Hin|Hout]; [|done].
  split; [intros _|done].
  set (w1 := upd _ w). destruct (frame_create_key w1 Hh) as (k & r & -> & Hk).
  cbn [mbind outcome_bind].
  destruct (bin_fill_encodes (set_opcode (bin_opcode bt) (set_masked true (Frame None 0 0 k false false 0))) p bt)
    as (f & -> & Hf & _);
    [apply key_wire_ok; (done || lia || by destruct bt)|apply Hk|apply wire_alloc; (done || lia)|].
  cbn [mbind outcome_bind]. unfold rws_socket_append_send_frames.
  rewrite list_append_ok by done. cbn [mbind outcome_bind].
  exists f. eexists. split; [done|]. split; [by exists k|]. split; [by exists r|].
  unfold limits_ok, within_limit in *. cbn. lia.
Qed.

(** Pings are answered: a received ping frame queues one final pong frame
    with the same payload, masked, and changes nothing else but the random state. *)
Theorem ws_ping_pong p f w :
  heap_ok -> bytes p -> zlen p < 2 ^ 30 -> holds f p -> opcode f = rws_opcode_ping ->
  exists g w', rws_socket_process_received_frame f w = Ret w' /\
    image true rws_opcode_pong p g /\ queued g (send_append_size (sk w)) w w'.
Proof.
  intros Hh Hp Hlen Hf Hopc. unfold rws_socket_process_received_frame, rws_socket_process_ping_frame.
  rewrite decide_True by done. destruct (frame_create_key w Hh) as (k & r & -> & Hk).
  cbn [mbind outcome_bind]. rewrite (holds_read _ _ Hf). destruct Hf as [Hd Hs]. rewrite Hd, Hs.
  cbn [mbind outcome_bind].
  destruct (fill_encodes (set_masked true (set_opcode rws_opcode_pong (Frame None 0 0 k false false 0))) p true)
    as (g & -> & Hg & _); [apply key_wire_ok; (done || lia)|apply Hk|apply wire_alloc; (done || lia)|].
  cbn [mbind outcome_bind rws_frame_delete]. rewrite Hd. cbn [rws_free_buf mbind outcome_bind boff].
  unfold rws_socket_append_send_frames. rewrite list_append_ok by done. cbn [mbind outcome_bind].
  exists g. eexists. split; [done|]. split; [by exists k|]. exists r. by destruct w as [[]].
Qed.

(** ** Writing the queue *)

(** The events of sending [d] once: the write, repeated while the transport wants
    it, and the close of the descriptor when it failed. *)
Definition attempt (d : list Z) (es : list event) : Prop :=
  exists rs cl, rs <> [] /\ es = (EvWrite d <$> rs) ++ cl /\ (cl = [] \/ exists fd, cl = [EvClose fd]).

Lemma send_loop_out n d r w :
  exists rs, out (send_loop n d r w).2 = out w ++ (EvWrite d <$> rs) /\
    (n <> O -> rs <> []) /\ sk (send_loop n d r w).2 = sk w.
Proof.
  revert r w. induction n as [|n IH]; intros r w.
  { exists []. cbn. by rewrite app_nil_r. }
  cbn [send_loop]. destruct (net_write _ _ _) as [ret nt'].
  case_decide.
  - destruct (IH ret (emit (EvWrite d ret) (set_nt nt' w))) as (rs & -> & _ & ->).
    exists (ret :: rs). cbn. by rewrite <- app_assoc.
  - exists [ret]. done.
Qed.

Lemma close_out w :
  exists cl, out (rws_socket_close w) = out w ++ cl /\ (cl = [] \/ exists fd, cl = [EvClose fd]) /\
    is_connected (sk (rws_socket_close w)) = false.
Proof.
  unfold rws_socket_close. cbn. case_decide; cbn.
  { exists []. rewrite app_nil_r. auto. }
  eexists. split; [done|]. split; [right; by eexists|done].
Qed.

Lemma send_attempt d w :
  exists es, attempt d es /\ out (rws_socket_send d w).2 = out w ++ es /\
    if (rws_socket_send d w).1 then is_connected (sk (rws_socket_send d w).2) = is_connected (sk w)
    else is_connected (sk (rws_socket_send d w).2) = false.
Proof.
  unfold rws_socket_send.
  destruct (send_loop_out 100 d (-1) (error_clean w)) as (rs & Ho & Hrs & Hsk).
  specialize (Hrs ltac:(done)). destruct (send_loop 100 d (-1) (error_clean w)) as [r w1].
  cbn [snd] in Ho, Hsk. cbn [error_clean upd out] in Ho.
  assert (attempt d (EvWrite d <$> rs)) as Hatt
    by (exists rs, []; rewrite app_nil_r; auto).
  assert (forall w2, out w2 = out w1 -> exists es, attempt d es /\
            out (rws_socket_close w2) = out w ++ es /\
            is_connected (sk (rws_socket_close w2)) = false) as Hclose.
  { intros w2 H2. destruct (close_out w2) as (cl & Hc & Hcl & Hn).
    exists ((EvWrite d <$> rs) ++ cl). split; [by exists rs, cl|].
    by rewrite Hc, H2, Ho, app_assoc. }
  assert (is_connected (sk w1) = is_connected (sk w)) as Hc1 by (by rewrite Hsk).
  destruct (decide (0 < r)); [by exists (EvWrite d <$> rs)|].
  destruct (decide (r = 0)); [by apply Hclose|].
  set (w2 := rws_socket_check_write_error _ w1).
  assert (out w2 = out w1 /\ is_connected (sk w2) = is_connected (sk w1)) as [Ho2 Hc2]
    by (unfold w2, rws_socket_check_write_error; repeat case_decide; done).
  destruct (error (sk w2)); [by apply Hclose|].
  exists (EvWrite d <$> rs). cbn [fst snd]. rewrite Ho2, Ho, Hc2. done.
Qed.

Lemma delete_held fs ds :
  Forall2 holds fs ds -> rws_socket_delete_all_frames_in_list (Some <$> fs) = Ret tt.
Proof.
  induction 1 as [|f d fs ds [Hd _] _ IH]; [done|]. cbn. rewrite Hd. cbn. exact IH.
Qed.

Lemma send_queued_fifo fs : forall ds w,
  Forall2 holds fs ds -> is_connected (sk w) = true ->
  exists rest w' j ess, send_queued (Some <$> fs) w = Ret (rest, w') /\
    rest = Some <$> drop j fs /\ Forall2 attempt (take j ds) ess /\
    out w' = out w ++ concat ess /\
    (j = length ds \/ (j < length ds)%nat /\ is_connected (sk w') = false).
Proof.
  induction fs as [|f fs IH]; intros ds w Hh Hn; inversion Hh as [|? d ? ds' Hf Hfs]; subst.
  { exists [], w, O, []. cbn. rewrite app_nil_r. by split_and!; auto. }
  cbn [fmap list_fmap send_queued]. rewrite Hn, (holds_read _ _ Hf). destruct Hf as [Hd _].
  rewrite Hd. cbn [mbind outcome_bind].
  destruct (send_attempt d w) as (es & Hes & Ho & Hc).
  destruct (rws_socket_send d w) as [ok w1]. cbn [fst snd] in *.
  cbn [rws_frame_delete]. rewrite Hd. cbn [rws_free_buf mbind outcome_bind boff].
  destruct ok.
  - rewrite Hn in Hc. destruct (IH ds' w1 Hfs Hc) as (rest & w' & j & ess & E & Hr & Ha & Ho' & Hj).
    exists rest, w', (S j), (es :: ess). cbn. rewrite E.
    split; [done|]. split; [done|]. split; [by constructor|].
    rewrite Ho', Ho, app_assoc. split; [done|]. destruct Hj as [->|[? ?]]; [by left|right; split; [lia|done]].
  - exists (Some <$> fs), w1, 1%nat, [es]. cbn. rewrite app_nil_r.
    split; [done|]. split; [by rewrite drop_0|]. split; [repeat constructor; done|]. split; [done|].
    destruct ds'; [by left|right; cbn; split; [lia|done]].
Qed.

(** The worker writes the queue first in, first out: [rws_socket_idle_send]
    hands a prefix of the queued frames to the transport, each frame's bytes in
    order, repeating a write only while the transport asks for it, and stops early only
    because the connection was closed; afterwards the queue is empty and the
    accounting is reset, whatever the transport did. *)
Theorem ws_flush_fifo fs ds w :
  send_frames (sk w) = Some <$> fs -> fs <> [] -> Forall2 holds fs ds ->
  is_connected (sk w) = true ->
  exists w' j ess, rws_socket_idle_send w = Ret w' /\
    Forall2 attempt (take j ds) ess /\ out w' = out w ++ concat ess /\
    (j = length ds \/ (j < length ds)%nat /\ is_connected (sk w') = false) /\
    send_frames (sk w') = [] /\ send_append_size (sk w') = 0.
Proof.
  intros Hq Hne Hh Hn. unfold rws_socket_idle_send. rewrite Hq.
  destruct (send_queued_fifo fs ds w Hh Hn) as (rest & w1 & j & ess & E & -> & Ha & Ho & Hj).
  destruct (Some <$> fs) as [|o os] eqn:Ef; [by destruct fs|]. rewrite E. cbn [mbind outcome_bind].
  rewrite (delete_held (drop j fs) (drop j ds)) by (by apply Forall2_drop). cbn [mbind outcome_bind].
  destruct (error _); (eexists _, j, ess; split; [done|]; done).
Qed.

(** ** The opening handshake *)

(** The request text of RFC 6455 section 4.1 as this client words it. *)
Definition request_text (c : ws_conf) (p h sch : list Z) : list Z :=
  str "GET " ++ p ++ str " HTTP/1.1" ++ crlf
  ++ str "Host: " ++ h ++ (if decide (port c = 80) then [] else str ":" ++ print_i (port c)) ++ crlf
  ++ str "Upgrade: websocket" ++ crlf ++ str "Connection: Upgrade" ++ crlf
  ++ str "Origin: " ++ sch ++ str "://" ++ h ++ crlf
  ++ (match token c, token_field c with Some t, Some f => f ++ str ": " ++ t ++ crlf | _, _ => [] end)
  ++ str "Sec-WebSocket-Key: dGhlIHNhbXBsZSBub25jZQ==" ++ crlf
  ++ str "Sec-WebSocket-Protocol: chat, superchat" ++ crlf
  ++ str "Sec-WebSocket-Version: 13" ++ crlf ++ crlf.

(** Several prints into the buffer are one print of all the pieces. *)
Lemma sprintf_seq b x y :
  (b1 ← sprintf_at b x; sprintf_at b1 y) = sprintf_at b (x ++ y).
Proof.
  unfold sprintf_at. rewrite zlen_app. pose proof (zlen_nonneg y). case_decide as H1.
  - cbn. rewrite zlen_app. repeat case_decide; (lia || (try by rewrite app_assoc)). done.
  - rewrite decide_False by lia. done.
Qed.

Lemma sprintf_seq_k {A} b x y (k : list Z -> outcome A) :
  (b1 ← sprintf_at b x; b2 ← sprintf_at b1 y; k b2) = (b2 ← sprintf_at b (x ++ y); k b2).
Proof.
  rewrite <- sprintf_seq. by destruct (sprintf_at b x).
Qed.

Lemma sprintf_skip {A} b x (k : list Z -> outcome A) :
  (b1 ← sprintf_at b x; b2 ← Ret b1; k b2) = (b1 ← sprintf_at b x; k b1).
Proof. by destruct (sprintf_at b x). Qed.

(** The handshake request: when the whole request fits the 512-byte stack
    buffer the client sends exactly the RFC 6455 request text for its URL and
    token; when it does not, the unchecked [sprintf]s write past the buffer. *)
Theorem ws_handshake_request c p h sch :
  path c = Some p -> host c = Some h -> scheme c = Some sch ->
  handshake_request c =
    if decide (zlen (request_text c p h sch) <= 511) then Ret (request_text c p h sch) else Crash.
Proof.
  intros Hp Hh Hs. transitivity (sprintf_at [] (request_text c p h sch)).
  2: { unfold sprintf_at. rewrite zlen_nil. repeat case_decide; done || lia. }
  unfold handshake_request, request_text. rewrite Hp, Hh, Hs. cbn [cstr mbind outcome_bind].
  change (str " HTTP/1.1") with (str " HTTP/" ++ str "1.1").
  change (str "Sec-WebSocket-Key: dGhlIHNhbXBsZSBub25jZQ==")
    with (str "Sec-WebSocket-Key: " ++ str "dGhlIHNhbXBsZSBub25jZQ==").
  destruct (decide (port c = 80)), (token c), (token_field c); 
    rewrite ?sprintf_seq_k, ?sprintf_skip, ?sprintf_seq_k, sprintf_seq.
  all: by rewrite <- ?app_assoc.
Qed.

(** A status line with a three-digit code. *)
Definition status_line (d1 d2 d3 : Z) : list Z :=
  str "HTTP/1.1 " ++ [48 + d1; 48 + d2; 48 + d3; 32].

Lemma is_digit_spec d : 0 <= d <= 9 -> is_digit (48 + d) = true.
Proof. intros. unfold is_digit. apply bool_decide_eq_true_2. lia. Qed.

Lemma digit_value_spec d : 0 <= d <= 9 -> digit_value (48 + d) = d.
Proof. intros. unfold digit_value. rewrite decide_True by lia. lia. Qed.

Lemma scan_status d1 d2 d3 tail :
  1 <= d1 <= 9 -> 0 <= d2 <= 9 -> 0 <= d3 <= 9 ->
  sscanf_f_i (drop 5 (status_line d1 d2 d3 ++ tail)) = Ret (Some (100 * d1 + 10 * d2 + d3)).
Proof.
  intros H1 H2 H3. unfold sscanf_f_i. change (drop 5 (status_line d1 d2 d3 ++ tail))
    with ([49; 46; 49; 32; 48 + d1; 48 + d2; 48 + d3; 32] ++ tail).
  assert (scan_float ([49; 46; 49; 32; 48 + d1; 48 + d2; 48 + d3; 32] ++ tail)
          = Ret (Some ([32; 48 + d1; 48 + d2; 48 + d3; 32] ++ tail))) as -> by reflexivity.
  cbn [mbind outcome_bind]. unfold scan_int.
  assert (span is_space ([32; 48 + d1; 48 + d2; 48 + d3; 32] ++ tail)
          = Ret ([32], [48 + d1; 48 + d2; 48 + d3; 32] ++ tail)) as ->.
  { cbn. assert (is_space (48 + d1) = false) as -> by (apply bool_decide_eq_false_2; lia). done. }
  cbn [mbind outcome_bind app skip_sign]. rewrite !decide_False by lia.
  assert (match 48 + d1 :: 48 + d2 :: 48 + d3 :: 32 :: tail with
          | 48 :: x :: _ => if decide (tolower x = 120) then 16 else 8
          | 48 :: [] => 8 | _ => 10 end = 10) as ->.
  { assert (d1 = 1 \/ d1 = 2 \/ d1 = 3 \/ d1 = 4 \/ d1 = 5 \/ d1 = 6 \/ d1 = 7 \/ d1 = 8 \/ d1 = 9)
      as Hd by lia. by repeat (destruct Hd as [->|Hd]; [done|]); subst. }
  rewrite (decide_False (P := 10 = 16)) by lia. cbn [span].
  rewrite !digit_value_spec by lia. rewrite !bool_decide_eq_true_2 by lia.
  rewrite (bool_decide_eq_false_2 (digit_value 32 < 10)) by by_decide. cbn [mbind outcome_bind].
  rewrite decide_False by done. do 2 f_equal. unfold digits_value. cbn [foldl].
  rewrite !digit_value_spec by lia. lia.
Qed.

Lemma strstr_http tail :
  strstr (str "HTTP/" ++ tail) (str "HTTP/") = Ret (Some (str "HTTP/" ++ tail)).
Proof. by destruct tail. Qed.

(** Reading the server's reply: with a well-formed status line and a
    non-empty Sec-WebSocket-Accept header the handshake succeeds exactly on status
    101, the accept value is stored, and any other status is reported as a
    handshake error. *)
Theorem ws_handshake_status w d1 d2 d3 tail sub v :
  1 <= d1 <= 9 -> 0 <= d2 <= 9 -> 0 <= d3 <= 9 ->
  received (sk w) = Some (status_line d1 d2 d3 ++ tail) ->
  strstri (status_line d1 d2 d3 ++ tail) k_sec_websocket_accept = Ret (Some sub) ->
  rws_socket_read_handshake_responce_value (drop (length k_sec_websocket_accept) sub) = Ret (Some v) ->
  exists ok w', rws_socket_process_handshake_responce w = Ret (ok, w') /\
    (ok = true <-> 100 * d1 + 10 * d2 + d3 = 101) /\ sec_ws_accept (sk w') = Some v /\
    (ok = false -> exists t, error (sk w') = Some (Error rws_error_code_parse_handshake t)).
Proof.
  intros H1 H2 H3 Hr Hs Hv. unfold rws_socket_process_handshake_responce.
  change (received (sk (error_clean w))) with (received (sk w)). rewrite Hr. cbn [cstr mbind outcome_bind].
  assert (strstr (status_line d1 d2 d3 ++ tail) (str "HTTP/")
          = Ret (Some (status_line d1 d2 d3 ++ tail))) as -> by apply (strstr_http (_ :: _ :: _ :: _ :: _)).
  cbn [mbind outcome_bind]. rewrite scan_status by done. cbn [mbind outcome_bind default].
  rewrite Hs. cbn [mbind outcome_bind]. rewrite Hv. cbn [mbind outcome_bind default from_option id].
  case_decide as Hd; cbn in Hd; (eexists _, _; split; [done|]; cbn; split; [|split; [done|]]).
  - split; [done|]. intros. by destruct Hd.
  - intros _. eauto.
  - split; [|done]. intros _. destruct (decide (100 * d1 + 10 * d2 + d3 = 101)); tauto.
  - done.
Qed.

(** A reply without a readable status is taken for 101: [http_code] starts
    as 101 and a failed [sscanf] leaves it, so "HTTP/" followed by anything that
    does not start a number (digits, sign, point, inf, nan) is accepted as soon as an accept header is there. *)
Theorem ws_handshake_unparsed_accepted w x tail sub v :
  is_digit x = false -> is_space x = false -> x <> 43 -> x <> 45 -> x <> 46 ->
  tolower x <> 105 -> tolower x <> 110 ->
  received (sk w) = Some (str "HTTP/" ++ x :: tail) ->
  strstri (str "HTTP/" ++ x :: tail) k_sec_websocket_accept = Ret (Some sub) ->
  rws_socket_read_handshake_responce_value (drop (length k_sec_websocket_accept) sub) = Ret (Some v) ->
  exists w', rws_socket_process_handshake_responce w = Ret (true, w').
Proof.
  intros Hd Hsp H43 H45 H46 _ _ Hr Hs Hv. unfold rws_socket_process_handshake_responce.
  change (received (sk (error_clean w))) with (received (sk w)). rewrite Hr. cbn [cstr mbind outcome_bind].
  rewrite strstr_http. cbn [mbind outcome_bind].
  change (drop 5 (str "HTTP/" ++ x :: tail)) with (x :: tail).
  assert (sscanf_f_i (x :: tail) = Ret None) as ->.
  { unfold sscanf_f_i, scan_float. cbn [span]. rewrite Hsp. cbn [mbind outcome_bind skip_sign].
    rewrite !decide_False by done. cbn [span]. rewrite Hd. cbn [mbind outcome_bind].
    rewrite decide_False by done. done. }
  cbn [mbind outcome_bind]. rewrite Hs. cbn [mbind outcome_bind]. rewrite Hv. cbn [mbind outcome_bind].
  cbn [default from_option]. rewrite decide_False by (cbn; intros [?|?]; done). by eexists.
Qed.

Lemma find_sub_no_nul eq l pat :
  Forall (fun b => b <> 0) l -> find_sub eq l pat = Crash \/ exists s, find_sub eq l pat = Ret (Some s).
Proof.
  induction 1 as [|b l Hb _ IH]; [by left|]. cbn [find_sub]. rewrite decide_False by done.
  destruct (starts eq (b :: l) pat) as [[]|]; cbn; eauto.
Qed.

(** The reply buffer is not NUL-terminated: on a reply without a zero byte
    and without a Sec-WebSocket-Accept header (any ordinary HTTP error page) the
    string search runs past the end of the receive buffer. *)
Theorem ws_handshake_overread w buf :
  received (sk w) = Some buf -> Forall (fun b => b <> 0) buf ->
  (forall sub, strstri buf k_sec_websocket_accept <> Ret (Some sub)) ->
  rws_socket_process_handshake_responce w = Crash.
Proof.
  intros Hr Hn Ha. unfold rws_socket_process_handshake_responce.
  change (received (sk (error_clean w))) with (received (sk w)). rewrite Hr. cbn [cstr mbind outcome_bind]. unfold strstr.
  destruct (find_sub_no_nul (fun c p => bool_decide (c = p)) buf (str "HTTP/") Hn) as [->|[s ->]]; [done|].
  cbn [mbind outcome_bind]. destruct (sscanf_f_i (drop 5 s)); [|done]. cbn [mbind outcome_bind].
  unfold strstri in *. rewrite decide_False in * by done.
  destruct (find_sub_no_nul (fun c p => bool_decide (tolower c = tolower p)) buf
              k_sec_websocket_accept Hn) as [->|[s' E]]; [done|].
  by destruct (Ha s').
Qed.
End Send.

(** ** Concrete cases *)

Lemma w_limits : limits_ok w_world.
Proof. by_decide. Qed.

Lemma ws_send_text_queues_witness :
  within_limit (zlen [104; 105]) w_world /\
  exists f w', rws_socket_send_text (Some [104; 105]) w_world = Ret (true, w') /\
    image true rws_opcode_text_frame [104; 105] f /\
    queued f (send_append_size (sk w_world) + zlen [104; 105]) w_world w' /\ limits_ok w'.
Proof.
  split; [by_decide|].
  apply (ws_send_text_queues [104; 105] w_world plain_heap_ok w_limits); by_decide || done.
Defined.

Lemma ws_send_bin_queues_witness :
  exists f w', rws_socket_send_bin_priv (Some [1; 2; 3]) (zlen [1; 2; 3]) rws_binary_finish w_world
                 = Ret (true, w') /\
    image (bool_decide (rws_binary_finish = rws_binary_finish)) (bin_opcode rws_binary_finish) [1; 2; 3] f /\
    queued f (send_append_size (sk w_world) + zlen [1; 2; 3]) w_world w' /\ limits_ok w'.
Proof.
  apply (ws_send_bin_queues [1; 2; 3] rws_binary_finish w_world plain_heap_ok w_limits);
    by_decide || done.
Defined.

Definition w_ping : rws_frame :=
  Frame (Some (Buf [7; 8] 0)) 2 rws_opcode_ping w_mask false true 0.

Lemma ws_ping_pong_witness :
  exists g w', rws_socket_process_received_frame w_ping w_world = Ret w' /\
    image true rws_opcode_pong [7; 8] g /\ queued g (send_append_size (sk w_world)) w_world w'.
Proof.
  apply (ws_ping_pong [7; 8] w_ping w_world plain_heap_ok); by_decide || done.
Defined.

Definition w_frame (d : list Z) : rws_frame := Frame (Some (Buf d 0)) (zlen d) 1 w_mask true true 6.
Definition w_queue : world :=
  upd (set_send_frames (Some <$> [w_frame [1; 2]; w_frame [3]])) w_world.

Lemma ws_flush_fifo_witness :
  exists w' j ess, rws_socket_idle_send w_queue = Ret w' /\
    Forall2 attempt (take j [[1; 2]; [3]]) ess /\ out w' = out w_queue ++ concat ess /\
    (j = length [[1; 2]; [3]] \/ (j < length [[1; 2]; [3]])%nat /\ is_connected (sk w') = false) /\
    send_frames (sk w') = [] /\ send_append_size (sk w') = 0.
Proof.
  apply (ws_flush_fifo [w_frame [1; 2]; w_frame [3]] [[1; 2]; [3]] w_queue); try done.
  by repeat constructor.
Defined.

Lemma ws_handshake_request_witness :
  zlen (request_text demo_conf (str "/") (str "ha.lan") (str "ws")) <= 511 /\
  handshake_request demo_conf =
    if decide (zlen (request_text demo_conf (str "/") (str "ha.lan") (str "ws")) <= 511)
    then Ret (request_text demo_conf (str "/") (str "ha.lan") (str "ws")) else Crash.
Proof. split; [by_decide|]. by apply ws_handshake_request. Defined.

(** A reply in the receive buffer. *)
Definition w_reply (l : list Z) : world :=
  upd (fun s => set_received_len (zlen l) (set_received_size (zlen l) (set_received (Some l) s))) w_world.
Definition w_accept : list Z := str "Sec-WebSocket-Accept: abc=" ++ crlf.

Lemma ws_handshake_status_witness :
  exists ok w', rws_socket_process_handshake_responce (w_reply (status_line 1 0 1 ++ w_accept))
                  = Ret (ok, w') /\
    (ok = true <-> 100 * 1 + 10 * 0 + 1 = 101) /\ sec_ws_accept (sk w') = Some (str "abc=") /\
    (ok = false -> exists t, error (sk w') = Some (Error rws_error_code_parse_handshake t)).
Proof.
  apply (ws_handshake_status (w_reply (status_line 1 0 1 ++ w_accept)) 1 0 1 w_accept w_accept
           (str "abc=")); by_decide || by vm_compute.
Defined.

Lemma ws_handshake_unparsed_accepted_witness :
  exists w', rws_socket_process_handshake_responce (w_reply (str "HTTP/x" ++ w_accept)) = Ret (true, w').
Proof.
  apply (ws_handshake_unparsed_accepted (w_reply (str "HTTP/x" ++ w_accept)) 120 w_accept w_accept
           (str "abc=")); by_decide || by vm_compute.
Defined.

Definition w_notfound : list Z := str "HTTP/1.1 404 Not Found" ++ crlf ++ crlf.

Lemma ws_handshake_overread_witness :
  rws_socket_process_handshake_responce (w_reply w_notfound) = Crash.
Proof.
  apply (ws_handshake_overread (w_reply w_notfound) w_notfound); [done|by_decide|].
  intros sub. assert (strstri w_notfound k_sec_websocket_accept = Crash) as -> by by vm_compute. done.
Defined.
