(* ===== verification/WsLifecycle.v ===== *)
(** * WebSocket client: the connection lifecycle

    What every operation of the client may change ([eff]), the lifecycle a user
    of the callbacks sees ([phase], [trace_step]), and the proof that every
    interleaving of the worker and the application refines it. *)

From stdpp Require Import strings relations.
From S2P Require Import Prelude WsFrame WsSocket.

(** ** The abstract lifecycle *)

Inductive phase := Opening | Open | Closed.

(** Which events may happen in which phase, and the phase after them. *)
Definition trace_step (ph : phase) (e : event) : option phase :=
  match e, ph with
  | EvWrite _ _, _ | EvClose _, _ => Some ph
  | EvConnected, Opening => Some Open
  | EvDisconnected, (Opening | Open) => Some Closed
  | (EvText _ _ | EvBin _ _ | EvPong), Open => Some Open
  | _, _ => None
  end.

Fixpoint run_trace (ph : phase) (es : list event) : option phase :=
  match es with
  | [] => Some ph
  | e :: es => match trace_step ph e with Some ph => run_trace ph es | None => None end
  end.

Lemma run_trace_app ph es es' :
  run_trace ph (es ++ es') = match run_trace ph es with Some ph => run_trace ph es' | None => None end.
Proof. revert ph. induction es as [|e es IH]; intros ph; [done|]. cbn. by destruct (trace_step ph e). Qed.

Lemma run_trace_snoc ph es ph' e ph'' :
  run_trace ph es = Some ph' -> trace_step ph' e = Some ph'' -> run_trace ph (es ++ [e]) = Some ph''.
Proof. intros H1 H2. rewrite run_trace_app, H1. cbn. by rewrite H2. Qed.

(** Traffic, and the events of an open connection. *)
Definition io (e : event) : Prop := match e with EvWrite _ _ | EvClose _ => True | _ => False end.
Definition live (e : event) : Prop :=
  match e with EvConnected | EvDisconnected => False | _ => True end.

Lemma io_live e : io e -> live e.
Proof. by destruct e. Qed.

Lemma run_trace_io ph es : Forall io es -> run_trace ph es = Some ph.
Proof. induction 1 as [|e es He _ IH]; [done|]. destruct e; try done; cbn; by destruct ph. Qed.

Lemma run_trace_live es : Forall live es -> run_trace Open es = Some Open.
Proof. induction 1 as [|e es He _ IH]; [done|]. by destruct e. Qed.

Section Lifecycle.
Context `{LC : Libc} `{NC : Net}.

(** ** What an operation may change *)

(** The configuration and the thread flags stay; the command stays or becomes
    INFORM_DISCONNECTED; the connection stays or is closed; the events satisfy [P]. *)
Record eff (P : event -> Prop) (w w' : world) : Prop := Eff {
  e_conf : conf (sk w') = conf (sk w);
  e_quit : task_quit (sk w') = task_quit (sk w);
  e_thread : work_thread (sk w') = work_thread (sk w);
  e_cmd : cmd (sk w') = cmd (sk w) \/ cmd (sk w') = COMMAND_INFORM_DISCONNECTED;
  e_link : (is_connected (sk w') = is_connected (sk w) /\ socket (sk w') = socket (sk w)) \/
           (is_connected (sk w') = false /\ socket (sk w') = RWS_INVALID_SOCKET);
  e_out : exists es, out w' = out w ++ es /\ Forall P es
}.

(** The same, with command and connection untouched. *)
Record eff0 (P : event -> Prop) (w w' : world) : Prop := Eff0 {
  e0_conf : conf (sk w') = conf (sk w);
  e0_quit : task_quit (sk w') = task_quit (sk w);
  e0_thread : work_thread (sk w') = work_thread (sk w);
  e0_cmd : cmd (sk w') = cmd (sk w);
  e0_conn : is_connected (sk w') = is_connected (sk w);
  e0_sock : socket (sk w') = socket (sk w);
  e0_out : exists es, out w' = out w ++ es /\ Forall P es
}.

Lemma eff_of_eff0 P w w' : eff0 P w w' -> eff P w w'.
Proof. intros []. constructor; auto. Qed.

Lemma outs_refl (P : event -> Prop) (l : list event) : exists es, l = l ++ es /\ Forall P es.
Proof. exists []. by rewrite app_nil_r. Qed.

Lemma outs_trans (P : event -> Prop) (l1 l2 l3 : list event) :
  (exists es, l2 = l1 ++ es /\ Forall P es) -> (exists es, l3 = l2 ++ es /\ Forall P es) ->
  exists es, l3 = l1 ++ es /\ Forall P es.
Proof.
  intros (e1 & -> & H1) (e2 & -> & H2). exists (e1 ++ e2). rewrite app_assoc.
  split; [done|]. by apply Forall_app.
Qed.

#[global] Instance eff0_refl P : Reflexive (eff0 P).
Proof. intros w. constructor; auto using outs_refl. Qed.

#[global] Instance eff0_trans P : Transitive (eff0 P).
Proof. intros w1 w2 w3 [] []. constructor; try congruence. eauto using outs_trans. Qed.

#[global] Instance eff_refl P : Reflexive (eff P).
Proof. intros w. apply eff_of_eff0. reflexivity. Qed.

#[global] Instance eff_trans P : Transitive (eff P).
Proof.
  intros w1 w2 w3 [??? C1 L1 ?] [??? C2 L2 ?].
  constructor; try congruence; [| |eauto using outs_trans].
  - destruct C1, C2; auto; [left|right]; congruence.
  - destruct L1 as [[]|[]], L2 as [[]|[]]; try (by right); [left|right]; split; congruence.
Qed.

Lemma eff_mono (P Q : event -> Prop) w w' : (forall e, P e -> Q e) -> eff P w w' -> eff Q w w'.
Proof.
  intros H []. constructor; auto. destruct e_out0 as (es & ? & ?). exists es.
  split; [done|]. by eapply Forall_impl.
Qed.

Lemma eff_live w w' : eff io w w' -> eff live w w'.
Proof. apply eff_mono, io_live. Qed.

(** Updating fields other than the ones [eff0] tracks. *)
Ltac untouched := constructor; cbn; auto using outs_refl.

Lemma eff0_emit (P : event -> Prop) e w : P e -> eff0 P w (emit e w).
Proof. intros. constructor; cbn; auto. exists [e]. auto. Qed.

(** ** Lower layers *)

Lemma fail_eff P c d w : eff0 P w (fail c d w).
Proof. untouched. Qed.

Lemma close_eff w : eff io w (rws_socket_close w).
Proof.
  unfold rws_socket_close. cbn. case_decide as H; cbn in *.
  - untouched.
  - constructor; cbn; auto. eexists. split; [done|]. by constructor.
Qed.

Lemma send_loop_eff n d r w : eff0 io w (send_loop n d r w).2.
Proof.
  revert r w. induction n as [|n IH]; intros r w; [reflexivity|]. cbn.
  destruct (net_write _ _ _) as [ret nt']. 
  assert (eff0 io w (emit (EvWrite d ret) (set_nt nt' w))) as H.
  { transitivity (set_nt nt' w); [untouched|]. by apply eff0_emit. }
  case_decide; [|done]. etransitivity; [done|apply IH].
Qed.

Lemma check_write_error_eff c w : eff0 io w (rws_socket_check_write_error c w).
Proof. unfold rws_socket_check_write_error. repeat case_decide; try reflexivity; apply fail_eff. Qed.

Lemma send_spec d w :
  eff io w (rws_socket_send d w).2 /\
  ((rws_socket_send d w).1 = true -> eff0 io w (rws_socket_send d w).2).
Proof.
  unfold rws_socket_send.
  pose proof (send_loop_eff 100 d (-1) (error_clean w)) as H.
  destruct (send_loop 100 d (-1) (error_clean w)) as [r w1]. cbn in H.
  assert (eff0 io w w1) as H1 by (etransitivity; [|done]; untouched).
  repeat case_decide; cbn.
  - split; auto using eff_of_eff0.
  - split; [|done]. etransitivity; [by apply eff_of_eff0|apply close_eff].
  - assert (eff0 io w (rws_socket_check_write_error (net_errno (nt w1)) w1)) as Hc
      by (etransitivity; [done|apply check_write_error_eff]).
    destruct (error _); cbn; [split; [|done]|split; auto using eff_of_eff0].
    etransitivity; [by apply eff_of_eff0|apply close_eff].
Qed.

Lemma resize_eff size w w' : rws_socket_resize_received size w = Ret w' -> eff0 io w w'.
Proof.
  unfold rws_socket_resize_received. case_decide; [by intros [= <-]|].
  intros Hr. destruct (match received (sk w) with Some _ => _ | None => _ end); [|done].
  cbn in Hr. injection Hr as <-. untouched.
Qed.

Lemma recv_chunk_eff d w w' : recv_chunk d w = Ret w' -> eff0 io w w'.
Proof.
  unfold recv_chunk. intros H.
  destruct (if decide _ then _ else _) as [w1|] eqn:E; [|done]. cbn in H.
  assert (eff0 io w w1) as H1.
  { case_decide; [by eapply resize_eff|]. by injection E as <-. }
  destruct (received (sk w1)) as [r|]; [|done]. destruct (mem_write _ _ _); [|done].
  injection H as <-. etransitivity; [done|]. untouched.
Qed.

Lemma recv_chunks_eff ds w w' : recv_chunks ds w = Ret w' -> eff0 io w w'.
Proof.
  revert w. induction ds as [|d ds IH]; intros w; cbn; [by intros [= <-]|].
  destruct (recv_chunk d w) as [w1|] eqn:E; [|done]. cbn. intros H.
  etransitivity; [by eapply recv_chunk_eff|by apply IH].
Qed.

Lemma recv_spec w b w' :
  rws_socket_recv w = Ret (b, w') ->
  eff io w w' /\ (b = true -> eff0 io w w') /\ (b = false -> w' = w \/ is_Some (error (sk w'))).
Proof.
  unfold rws_socket_recv. destruct (rws_malloc_zero BUFF_SIZE).
  2: { intros [= <- <-]. split; [reflexivity|]. split; [done|by left]. }
  destruct (net_reads _ _) as [[cs e] nt'].
  destruct (recv_chunks _ _) as [w1|] eqn:E; [|done]. cbn.
  apply recv_chunks_eff in E.
  assert (eff0 io w w1) as H1 by (etransitivity; [|done]; untouched).
  destruct (match e with ReadZero => _ | ReadNeg _ _ => _ end) as [en st].
  repeat case_decide; intros [= <- <-]; split_and!; auto using eff_of_eff0; try done.
  - etransitivity; [by apply eff_of_eff0|].
    etransitivity; [apply eff_of_eff0, fail_eff|apply close_eff].
  - intros _. right. unfold rws_socket_close. cbn. by case_decide; eexists.
Qed.

(** ** Queueing and sending *)

Lemma frame_create_eff P w f w' : frame_create w = Ret (f, w') -> eff0 P w w'.
Proof.
  unfold frame_create. intros H. bind_inv H as [g r] E. injection H as <- <-. untouched.
Qed.

Lemma append_send_eff P f w w' : rws_socket_append_send_frames f w = Ret w' -> eff0 P w w'.
Proof. intros H. bind_inv H as l E. injection H as <-. untouched. Qed.

Lemma append_recvd_eff P f w w' : rws_socket_append_recvd_frames f w = Ret w' -> eff0 P w w'.
Proof. intros H. bind_inv H as l E. injection H as <-. untouched. Qed.

Lemma mem_used_out_eff P n w : eff0 P w (rws_socket_mem_used_out n w).2.
Proof. unfold rws_socket_mem_used_out. case_decide; untouched. Qed.

Lemma next_message_id_eff P w : eff0 P w (rws_socket_get_next_message_id w).2.
Proof. unfold rws_socket_get_next_message_id. case_decide; untouched. Qed.

(** The tail the queueing functions share: create, fill, append. *)
Lemma create_append_eff P (fill : rws_frame -> outcome rws_frame) w b w' :
  ('(f, w1) ← frame_create w; f ← fill f; w1 ← rws_socket_append_send_frames f w1; Ret (true, w1))
    = Ret (b, w') -> eff0 P w w'.
Proof.
  intros H. bind_inv H as [f w1] E1. bind_inv H as g E2. bind_inv H as w2 E3.
  injection H as <- <-. etransitivity; [by eapply frame_create_eff|by eapply append_send_eff].
Qed.

Lemma queue_frame_eff P opc fin src len w b w' :
  queue_frame opc fin src len w = Ret (b, w') -> eff0 P w w'.
Proof.
  unfold queue_frame. case_decide; [by intros [= <- <-]|].
  pose proof (mem_used_out_eff P len w) as Hm.
  destruct (rws_socket_mem_used_out len w) as [[] w1]; cbn in Hm; [by intros [= <- <-]|].
  intros Hq. etransitivity; [done|]. exact (create_append_eff P _ _ _ _ Hq).
Qed.

Lemma send_text_eff P t w b w' : rws_socket_send_text t w = Ret (b, w') -> eff0 P w w'.
Proof.
  unfold rws_socket_send_text, rws_socket_send_text_priv.
  destruct t; [apply queue_frame_eff|by intros [= <- <-]].
Qed.

Lemma send_bin_eff P d len bt w b w' :
  rws_socket_send_bin_priv d len bt w = Ret (b, w') -> eff0 P w w'.
Proof.
  unfold rws_socket_send_bin_priv. pose proof (mem_used_out_eff P len w) as Hm.
  destruct (rws_socket_mem_used_out len w) as [[] w1]; cbn in Hm; [by intros [= <- <-]|].
  intros Hq. etransitivity; [done|]. exact (create_append_eff P _ _ _ _ Hq).
Qed.

Lemma send_ping_eff w w' : rws_socket_send_ping w = Ret w' -> eff0 io w w'.
Proof.
  unfold rws_socket_send_ping. intros H. bind_inv H as [f w1] E1.
  pose proof (next_message_id_eff io w1) as Hm.
  destruct (rws_socket_get_next_message_id w1) as [i w2]. cbn in Hm. bind_inv H as g E2.
  etransitivity; [by eapply frame_create_eff|]. etransitivity; [done|by eapply append_send_eff].
Qed.

Lemma send_queued_eff fs w rest w' : send_queued fs w = Ret (rest, w') -> eff io w w'.
Proof.
  revert w. induction fs as [|f fs IH]; intros w; cbn [send_queued]; [by intros [= <- <-]|].
  destruct (is_connected (sk w)); [|by intros [= <- <-]].
  destruct f as [f|]; [|apply IH]. intros H. bind_inv H as d E. pose proof (send_spec d w) as [Hs _].
  destruct (rws_socket_send d w) as [ok w1]. cbn in Hs. bind_inv H as u E'.
  destruct ok; [|by injection H as <- <-]. etransitivity; [done|by apply IH].
Qed.

Lemma idle_send_eff w w' : rws_socket_idle_send w = Ret w' -> eff io w w'.
Proof.
  unfold rws_socket_idle_send. destruct (send_frames (sk w)) as [|f fs]; [by intros [= <-]|].
  intros H. bind_inv H as [rest w1] E1. bind_inv H as u E2.
  apply send_queued_eff in E1. etransitivity; [done|].
  destruct (error _); injection H as <-; untouched.
Qed.

Lemma send_disconnect_eff w w' :
  rws_socket_send_disconnect w = Ret w' ->
  exists w1, eff io w w1 /\ w' = upd (set_cmd COMMAND_END) w1.
Proof.
  unfold rws_socket_send_disconnect. intros H. bind_inv H as [f w1] E1.
  pose proof (next_message_id_eff io w1) as Hm.
  destruct (rws_socket_get_next_message_id w1) as [i w2]. cbn in Hm.
  bind_inv H as g E2. bind_inv H as d E3. pose proof (send_spec d w2) as [Hs _].
  destruct (rws_socket_send d w2) as [ok w3]. cbn in Hs. bind_inv H as u E4.
  injection H as <-. exists w3. split; [|done].
  apply frame_create_eff with (P := io) in E1.
  etransitivity; [apply eff_of_eff0; etransitivity; [exact E1|exact Hm]|done].
Qed.

(** ** Receiving *)

Lemma process_data_eff f w w' :
  rws_socket_process_bin_or_text_frame f w = Ret w' -> eff0 live w w'.
Proof.
  unfold rws_socket_process_bin_or_text_frame.
  destruct (rws_socket_last_unfin_recvd_frame_by_opcode w) as [i|].
  - destruct (recvd_frames (sk w) !! i) as [[g|]|]; try by intros [= <-].
    intros H. bind_inv H as g' E. bind_inv H as u E'. injection H as <-. untouched.
  - case_decide; [apply append_recvd_eff|]. intros Hp. bind_inv Hp as u E. by injection Hp as <-.
Qed.

Lemma process_ping_eff f w w' : rws_socket_process_ping_frame f w = Ret w' -> eff0 live w w'.
Proof.
  unfold rws_socket_process_ping_frame. intros H. bind_inv H as [g w1] E1. bind_inv H as src E2.
  bind_inv H as g' E3. bind_inv H as u E4.
  etransitivity; [by eapply frame_create_eff|by eapply append_send_eff].
Qed.

Lemma process_eff f w w' : rws_socket_process_received_frame f w = Ret w' -> eff live w w'.
Proof.
  unfold rws_socket_process_received_frame. intros H.
  repeat case_decide; [apply eff_of_eff0; by eapply process_ping_eff| |
    apply eff_of_eff0; by eapply process_data_eff| |].
  - bind_inv H as u E. injection H as <-. apply eff_of_eff0.
    destruct (on_recvd_pong _); [by apply eff0_emit|reflexivity].
  - unfold rws_socket_process_conn_close_frame in H. bind_inv H as u E. injection H as <-. untouched.
  - bind_inv H as u E. by injection H as <-.
Qed.

Lemma consume_eff n w w' : consume n w = Ret w' -> eff0 live w w'.
Proof.
  unfold consume. repeat case_decide; [intros [= <-]; untouched| |by intros [= <-]].
  destruct (received (sk w)) as [r|]; [|done]. intros Hc. bind_inv Hc as d E. bind_inv Hc as r' E'.
  injection Hc as <-. untouched.
Qed.

Lemma recv_one_eff w w' : recv_one w = Ret (Some w') -> eff live w w'.
Proof.
  unfold recv_one. intros H. bind_inv H as n E. case_decide; [done|].
  bind_inv H as [f r] E1. bind_inv H as w1 E2. bind_inv H as w2 E3. injection H as <-.
  apply consume_eff in E3. etransitivity; [|by apply eff_of_eff0].
  transitivity (set_rng r w); [untouched|].
  destruct f; [by eapply process_eff|by injection E2 as <-].
Qed.

Lemma recv_frames_eff fuel w w' : recv_frames fuel w = Ret w' -> eff live w w'.
Proof.
  revert w. induction fuel as [|fuel IH]; intros w; cbn; [done|]. intros H.
  bind_inv H as [w1|] E; [|by injection H as <-].
  etransitivity; [by eapply recv_one_eff|by apply IH].
Qed.

Lemma idle_recv_eff w w' : rws_socket_idle_recv w = Ret w' -> eff live w w'.
Proof.
  unfold rws_socket_idle_recv. intros H. bind_inv H as [ok w1] E.
  apply recv_spec in E as (E & _). apply eff_live in E. etransitivity; [done|].
  destruct ok; [by eapply recv_frames_eff|].
  destruct (error (sk w1)); injection H as <-; untouched.
Qed.

Lemma inform_frame_eff f w : eff0 live w (inform_frame f w).
Proof.
  unfold inform_frame. repeat case_decide; try reflexivity;
    (destruct (_ (conf (sk w))); [by apply eff0_emit|reflexivity]).
Qed.

Lemma inform_frames_eff fs w w' : inform_frames fs w = Ret w' -> eff0 live w w'.
Proof.
  revert w. induction fs as [|[f|] fs IH]; intros w; cbn; [by intros [= <-]| |apply IH].
  intros H. bind_inv H as u E. etransitivity; [apply inform_frame_eff|by eapply IH].
Qed.

Lemma inform_recvd_eff w w' : rws_socket_inform_recvd_frames w = Ret w' -> eff0 live w w'.
Proof.
  intros H. bind_inv H as w1 E. injection H as <-. apply inform_frames_eff in E.
  etransitivity; [done|]. untouched.
Qed.

(** ** Connecting and the handshake *)

(** Before the connection is up: the flags stay, [is_connected] stays, and the
    worker either goes on to [next] with a valid descriptor or gives up. *)
Definition advances (next : command) (w w' : world) : Prop :=
  conf (sk w') = conf (sk w) /\ task_quit (sk w') = task_quit (sk w) /\
  work_thread (sk w') = work_thread (sk w) /\
  (exists es, out w' = out w ++ es /\ Forall io es) /\
  ((cmd (sk w') = next /\ socket (sk w') <> RWS_INVALID_SOCKET /\
    is_connected (sk w') = is_connected (sk w)) \/
   (cmd (sk w') = COMMAND_INFORM_DISCONNECTED /\
    (is_connected (sk w') = true -> is_connected (sk w) = true /\ socket (sk w') = socket (sk w)))).

(** Connecting: the command and the descriptor may change. *)
Record dials (w w' : world) : Prop := Dials {
  d_conf : conf (sk w') = conf (sk w);
  d_quit : task_quit (sk w') = task_quit (sk w);
  d_thread : work_thread (sk w') = work_thread (sk w);
  d_conn : is_connected (sk w') = is_connected (sk w);
  d_out : exists es, out w' = out w ++ es /\ Forall io es
}.

#[local] Instance dials_refl : Reflexive dials.
Proof. intros w. constructor; auto using outs_refl. Qed.
#[local] Instance dials_trans : Transitive dials.
Proof. intros w1 w2 w3 [] []. constructor; try congruence. eauto using outs_trans. Qed.

Lemma dials_eff0 w w' : eff0 io w w' -> dials w w'.
Proof. intros []. by constructor. Qed.

Lemma dials_nt n w : dials w (set_nt n w).
Proof. untouched. Qed.

Lemma resolve_loop_dials n r w : dials w (resolve_loop n r w).2.
Proof.
  revert r w. induction n as [|n IH]; intros r w; [reflexivity|]. cbn.
  destruct (net_resolve (nt w)) as [[ret cnt] nt'].
  case_decide; [apply dials_nt|]. etransitivity; [apply (dials_nt nt')|apply IH].
Qed.

Lemma connect_addrs_dials k sock w : dials w (connect_addrs k sock w).2.
Proof.
  revert sock w. induction k as [|k IH]; intros sock w; [reflexivity|]. cbn.
  destruct (sock_open (nt w)) as [s1 nt']. case_decide.
  { etransitivity; [apply (dials_nt nt')|apply IH]. }
  destruct (sock_connect _) as [r nt2]. case_decide; [untouched|].
  etransitivity; [|apply IH]. etransitivity; [|apply dials_eff0; by apply eff0_emit]. untouched.
Qed.

Lemma connect_rounds_dials n k sock w : dials w (connect_rounds n k sock w).2.
Proof.
  revert sock w. induction n as [|n IH]; intros sock w; [reflexivity|]. cbn.
  case_decide; [|reflexivity]. pose proof (connect_addrs_dials k sock w) as Hd.
  destruct (connect_addrs k sock w) as [s1 w1]. cbn in Hd. etransitivity; [done|apply IH].
Qed.

(** The command after connecting says whether there is a descriptor. *)
Definition dialled (w : world) : Prop :=
  cmd (sk w) = COMMAND_INFORM_DISCONNECTED \/
  (cmd (sk w) = COMMAND_SEND_HANDSHAKE /\ socket (sk w) <> RWS_INVALID_SOCKET).

Lemma connect_to_host_dials w :
  dials w (rws_socket_connect_to_host w) /\ dialled (rws_socket_connect_to_host w).
Proof.
  unfold rws_socket_connect_to_host, rws_socket_connect_getaddr_info.
  pose proof (resolve_loop_dials (Z.to_nat (RWS_CONNECT_ATTEMPS - 1)) 0 (error_clean w)) as Hr.
  destruct (resolve_loop _ 0 _) as [[[k|] r] w1]; cbn in Hr.
  2: { split; [|by left]. etransitivity; [|etransitivity; [exact Hr|]]; untouched. }
  pose proof (connect_rounds_dials (Z.to_nat (RWS_CONNECT_ATTEMPS - 1)) k RWS_INVALID_SOCKET w1) as Hc.
  destruct (connect_rounds _ _ _ _) as [s2 w2]. cbn in Hc.
  assert (dials w w2) as Hw by (etransitivity; [|etransitivity; [exact Hr|exact Hc]]; untouched).
  case_decide; (split; [etransitivity; [exact Hw|untouched]|]); [by left|by right].
Qed.

Lemma call_dials c w : dials w (call c w).2.
Proof. unfold call. destruct (mbed c (nt w)). apply dials_nt. Qed.

Lemma call_sk c w : sk (call c w).2 = sk w.
Proof. unfold call. by destruct (mbed c (nt w)). Qed.

Lemma ssl_setup_steps_dials w : dials w (ssl_setup_steps w).2 /\ sk (ssl_setup_steps w).2 = sk w.
Proof.
  unfold ssl_setup_steps.
  assert (forall c w1, (dials w w1 /\ sk w1 = sk w) ->
            dials w (call c w1).2 /\ sk (call c w1).2 = sk w) as Hcall.
  { intros c w1 [H1 H2]. rewrite call_sk. split; [|done]. etransitivity; [done|apply call_dials]. }
  assert (dials w w /\ sk w = sk w) as H0 by (by split).
  apply (Hcall config_defaults) in H0. destruct (call config_defaults w) as [r1 w1]. cbn [snd] in H0.
  case_decide; [done|].
  assert (dials w (if client_cert (conf (sk w1)) then call conf_own_cert w1 else (0, w1)).2 /\
          sk (if client_cert (conf (sk w1)) then call conf_own_cert w1 else (0, w1)).2 = sk w) as H1
    by (destruct (client_cert _); [by apply Hcall|done]).
  destruct (if client_cert _ then _ else _) as [r2 w2]. cbn [snd] in H1. case_decide; [done|].
  apply (Hcall ssl_setup) in H1. destruct (call ssl_setup w2) as [r3 w3]. cbn [snd] in H1.
  case_decide; [done|].
  apply (Hcall ssl_handshake) in H1. destruct (call ssl_handshake w3) as [r4 w4]. cbn [snd] in H1.
  by case_decide.
Qed.

Lemma dials_call c w w1 : dials w w1 -> dials w (call c w1).2.
Proof. intros. etransitivity; [done|apply call_dials]. Qed.

(** The client certificate is parsed only when certificate and key are set. *)
Lemma client_cert_dials w :
  dials w (if client_cert (conf (sk w)) && client_pk (conf (sk w)) then
             let '(r, w) := call crt_parse_client w in
             if decide (r < 0) then (r, w) else call pk_parse_key w
           else (0, w)).2.
Proof.
  destruct (_ && _); [|reflexivity]. pose proof (call_dials crt_parse_client w) as H.
  destruct (call crt_parse_client w) as [r w1]. cbn [snd] in H.
  case_decide; [done|]. by apply dials_call.
Qed.

Lemma ssl_connect_dials w :
  let r := (let w := rws_socket_connect_to_host w in
            if decide (socket (sk w) = RWS_INVALID_SOCKET) then (0, w) else ssl_setup_steps w) in
  dials w r.2 /\ (r.1 = 0 -> dialled r.2).
Proof.
  cbv zeta. destruct (connect_to_host_dials w) as [Hd Hc].
  case_decide; [done|].
  destruct (ssl_setup_steps_dials (rws_socket_connect_to_host w)) as [Hs Hsk].
  split; [by etransitivity|]. intros _. unfold dialled. by rewrite Hsk.
Qed.

Lemma ssl_conn_steps_dials w :
  dials w (ssl_conn_steps w).2 /\ ((ssl_conn_steps w).1 = 0 -> dialled (ssl_conn_steps w).2).
Proof.
  unfold ssl_conn_steps. destruct (rws_malloc_zero sizeof_ssl); [|split; [untouched|done]].
  assert (dials w (upd (set_ssl true) w)) as H by untouched.
  apply (dials_call ctr_drbg_seed) in H. destruct (call ctr_drbg_seed _) as [r1 w1]. cbn [snd] in H.
  destruct (decide (r1 <> 0)); [done|].
  apply (dials_call set_hostname) in H. destruct (call set_hostname _) as [r2 w2]. cbn [snd] in H.
  destruct (decide (r2 <> 0)); [done|].
  pose proof (client_cert_dials w2) as H2.
  destruct (if _ && _ then _ else _) as [r3 w3]. cbn [snd] in H2.
  assert (dials w w3) as H3 by (by etransitivity). clear H H2.
  destruct (decide (r3 <> 0)); [done|].
  assert (dials w (if server_cert (conf (sk w3)) then call crt_parse_ca w3 else (0, w3)).2) as H4
    by (destruct (server_cert _); [by apply dials_call|done]).
  destruct (if server_cert _ then _ else _) as [r4 w4]. cbn [snd] in H4.
  destruct (decide (r4 < 0)); [done|].
  destruct (ssl_connect_dials w4) as [H5 H6]. split; [by etransitivity|done].
Qed.

Lemma connect_advances w :
  advances COMMAND_SEND_HANDSHAKE w
    (if is_wss (sk w) then (rws_ssl_conn w).2 else rws_socket_connect_to_host w)
  \/ is_connected (sk w) = true.
Proof.
  destruct (is_connected (sk w)) eqn:Hn; [by right|left].
  assert (forall w', dials w w' -> dialled w' -> advances COMMAND_SEND_HANDSHAKE w w') as Hadv.
  { intros w' [] Hc. unfold advances. rewrite d_conn0, Hn. destruct Hc as [Hc|[Hc Hs]].
    - repeat split; auto. right. split; [done|]. intros; congruence.
    - repeat split; auto. }
  destruct (is_wss (sk w)).
  - destruct (ssl_conn_steps_dials w) as [Hd Hc]. unfold rws_ssl_conn.
    destruct (ssl_conn_steps w) as [r w1]. cbn [fst snd] in *.
    destruct (decide (r <> 0)) as [|Hr]; cbn [snd].
    + apply Hadv; [etransitivity; [exact Hd|untouched]|by left].
    + apply Hadv; [done|]. apply Hc. lia.
  - apply Hadv; apply connect_to_host_dials.
Qed.

Lemma send_handshake_advances w w' :
  socket (sk w) <> RWS_INVALID_SOCKET -> rws_socket_send_handshake w = Ret w' ->
  advances COMMAND_WAIT_HANDSHAKE_RESPONCE w w'.
Proof.
  unfold rws_socket_send_handshake. intros Hsock H. bind_inv H as buff E.
  destruct (send_spec buff w) as [He H0]. destruct (rws_socket_send buff w) as [ok w1].
  cbn [fst snd] in *. destruct ok.
  - injection H as <-. destruct (H0 eq_refl). repeat split; cbn; auto.
    left. repeat split; congruence.
  - injection H as <-. set (w2 := match error (sk w1) with Some _ => _ | None => _ end).
    assert (eff0 io w1 w2) as H2 by (unfold w2; destruct (error (sk w1)); [untouched|apply fail_eff]).
    assert (eff io w (rws_socket_close w2)) as [].
    { etransitivity; [done|]. etransitivity; [by apply eff_of_eff0|apply close_eff]. }
    repeat split; auto. right. split; [done|]. cbn [sk upd]. by intros Hc.
Qed.

(** Reading the reply touches neither the command nor the connection. *)
Lemma process_handshake_eff w b w' :
  rws_socket_process_handshake_responce w = Ret (b, w') -> eff0 io w w'.
Proof.
  unfold rws_socket_process_handshake_responce. intros H. bind_inv H as buf Eb.
  bind_inv H as sub E1. destruct sub as [sub|]; [|injection H as <- <-; untouched].
  bind_inv H as c E2. bind_inv H as acc E3. bind_inv H as w1 E4.
  assert (eff0 io w w1) as Hw.
  { destruct acc as [acc|]; [|injection E4 as <-; untouched].
    bind_inv E4 as v E5. injection E4 as <-. destruct v; untouched. }
  destruct (decide _) in H; injection H as <- <-; [|done].
  etransitivity; [done|apply fail_eff].
Qed.

(** Waiting for the reply: no progress, giving up, or the connection is up. *)
Lemma wait_handshake_cases w w' :
  rws_socket_wait_handshake_responce w = Ret w' ->
  eff0 io w w' \/ (eff io w w' /\ cmd (sk w') = COMMAND_INFORM_DISCONNECTED) \/
  (exists w1, eff0 io w w1 /\
     w' = upd (fun s => set_cmd COMMAND_INFORM_CONNECTED
                          (set_is_connected true (set_received_len 0 s))) w1).
Proof.
  unfold rws_socket_wait_handshake_responce. intros H. bind_inv H as [ok w1] E.
  apply recv_spec in E as (He & H0 & Hf). destruct ok.
  - specialize (H0 eq_refl). destruct (decide _); [injection H as <-; by left|].
    bind_inv H as [ok2 w2] E2. apply process_handshake_eff in E2.
    assert (eff0 io w w2) by (by etransitivity).
    destruct ok2; injection H as <-; right; [right; eauto|left]. split; [|done].
    etransitivity; [by apply eff_of_eff0|]. etransitivity; [apply close_eff|untouched].
  - destruct (error (sk w1)) eqn:Er; injection H as <-.
    + right; left. split; [|done]. etransitivity; [done|untouched].
    + left. destruct (Hf eq_refl) as [->|[? ?]]; [reflexivity|congruence].
Qed.

(** ** The invariant *)

Definition thread_ok (w : world) : Prop :=
  work_thread (sk w) = true /\
  (on_connected (conf (sk w)) = true /\ on_disconnected (conf (sk w)) = true) /\
  (is_connected (sk w) = true -> socket (sk w) <> RWS_INVALID_SOCKET).

(** What the command says about the phase while the application has not asked
    for release. *)
Definition cmd_ok (inform : bool) (ph : phase) (w : world) : Prop :=
  match cmd (sk w) with
  | COMMAND_CONNECT_TO_HOST => ph = Opening /\ is_connected (sk w) = false
  | COMMAND_SEND_HANDSHAKE | COMMAND_WAIT_HANDSHAKE_RESPONCE =>
      ph = Opening /\ is_connected (sk w) = false /\ socket (sk w) <> RWS_INVALID_SOCKET
  | COMMAND_INFORM_CONNECTED => inform = true /\ ph = Opening
  | COMMAND_IDLE => ph = Open
  | COMMAND_INFORM_DISCONNECTED => inform = true /\ ph <> Closed
  | COMMAND_END => ph = Closed
  | COMMAND_NONE | COMMAND_DISCONNECT => False
  end.

Definition rel_ok (w : world) : Prop :=
  cmd (sk w) = COMMAND_DISCONNECT \/ cmd (sk w) = COMMAND_END.

Definition inv (c : conc) (ph : phase) : Prop :=
  run_trace Opening (out (wd c)) = Some ph /\ thread_ok (wd c) /\
  if releasing c then rel_ok (wd c) else cmd_ok (at_inform c) ph (wd c).

Lemma thread_ok_eff P w w' : eff P w w' -> thread_ok w -> thread_ok w'.
Proof.
  intros [Hc ? Ht _ Hl _] (H1 & H2 & H3). unfold thread_ok. rewrite Hc, Ht.
  split; [done|]. split; [done|]. intros Hconn. destruct Hl as [[? ->]|[? ?]]; [|congruence]. apply H3. congruence.
Qed.

Lemma trace_io w w' ph :
  (exists es, out w' = out w ++ es /\ Forall io es) ->
  run_trace Opening (out w) = Some ph -> run_trace Opening (out w') = Some ph.
Proof. intros (es & -> & Hes) Ht. rewrite run_trace_app, Ht. by apply run_trace_io. Qed.

Lemma trace_live w w' :
  (exists es, out w' = out w ++ es /\ Forall live es) ->
  run_trace Opening (out w) = Some Open -> run_trace Opening (out w') = Some Open.
Proof. intros (es & -> & Hes) Ht. rewrite run_trace_app, Ht. by apply run_trace_live. Qed.

Lemma thread_ok_advances next w w' : advances next w w' -> thread_ok w -> thread_ok w'.
Proof.
  intros (Hc & _ & Ht & _ & Hs) (H1 & H2 & H3). unfold thread_ok. rewrite Hc, Ht.
  split; [done|]. split; [done|]. intros Hn. destruct Hs as [(_ & ? & _)|(_ & Hs)]; [done|].
  destruct (Hs Hn) as [? ->]. auto.
Qed.

Lemma cmd_ok_advances next w w' :
  next = COMMAND_SEND_HANDSHAKE \/ next = COMMAND_WAIT_HANDSHAKE_RESPONCE ->
  is_connected (sk w) = false -> advances next w w' -> cmd_ok true Opening w'.
Proof.
  intros Hn Hc (_ & _ & _ & _ & Hs). unfold cmd_ok. destruct Hs as [(-> & Hs & Hconn)|(-> & Hs)].
  - destruct Hn as [->| ->]; repeat split; congruence.
  - done.
Qed.

(** The worker's IDLE branch. *)
Lemma idle_eff loops n w w' :
  cmd (sk w) = COMMAND_IDLE -> work_command loops w = Ret (n, w') -> eff live w w'.
Proof.
  unfold work_command. intros -> H. bind_inv H as [l w1] E1. bind_inv H as w2 E2.
  bind_inv H as w3 E3. injection H as <- <-.
  assert (eff live w w1) as H1.
  { destruct (decide _) in E1; [|by injection E1 as <- <-]. bind_inv E1 as w0 E0.
    injection E1 as <- <-. destruct (is_connected _) in E0; [|by injection E0 as <-].
    apply eff_live, eff_of_eff0. by eapply send_ping_eff. }
  assert (eff live w1 w2) as H2.
  { destruct (is_connected _) in E2; [|by injection E2 as <-]. apply eff_live. by eapply idle_send_eff. }
  assert (eff live w2 w3) as H3.
  { destruct (is_connected _) in E3; [|by injection E3 as <-]. by eapply idle_recv_eff. }
  etransitivity; [exact H1|]. by etransitivity.
Qed.

Lemma command_preserves n n' q w w' ph :
  inv (Conc n false q w) ph -> work_command (u32 (n + 1)) w = Ret (n', w') ->
  inv (Conc n' true q w') ph.
Proof.
  unfold inv; cbn [wd releasing at_inform]. intros (Htr & Hth & Hcmd) Hw.
  destruct (cmd (sk w)) eqn:Ec.
  1: { (* idle *) pose proof (idle_eff _ _ _ _ Ec Hw) as He.
    destruct q; [by destruct Hcmd; congruence|]. unfold cmd_ok in Hcmd. rewrite Ec in Hcmd. subst ph.
    split; [by eapply trace_live; [apply He|]|]. split; [by eapply thread_ok_eff|].
    unfold cmd_ok. destruct (e_cmd _ _ _ He) as [-> | ->]; [by rewrite Ec|done]. }
  all: unfold work_command in Hw; rewrite Ec in Hw.
  all: destruct q; [unfold rel_ok in Hcmd |- *; rewrite Ec in Hcmd; destruct Hcmd as [Hcmd|Hcmd];
                    try discriminate Hcmd|unfold cmd_ok in Hcmd; rewrite Ec in Hcmd; try done].
  - (* connect *) injection Hw as <- <-. destruct Hcmd as [-> Hn].
    destruct (connect_advances w) as [Ha|]; [|congruence].
    split; [eapply trace_io; [apply Ha|done]|]. split; [by eapply thread_ok_advances|].
    exact (cmd_ok_advances _ w _ (or_introl eq_refl) Hn Ha).
  - (* handshake *) bind_inv Hw as w1 E. injection Hw as <- <-. destruct Hcmd as (-> & Hn & Hs).
    pose proof (send_handshake_advances _ _ Hs E) as Ha.
    split; [eapply trace_io; [apply Ha|done]|]. split; [by eapply thread_ok_advances|].
    exact (cmd_ok_advances _ w _ (or_intror eq_refl) Hn Ha).
  - (* reply *) bind_inv Hw as w1 E. injection Hw as <- <-. destruct Hcmd as (-> & Hn & Hs).
    destruct (wait_handshake_cases _ _ E) as [He|[[He Hc]|(w2 & He & ->)]].
    + split; [eapply trace_io; [apply He|done]|].
      split; [eapply thread_ok_eff; [by apply eff_of_eff0|done]|].
      unfold cmd_ok. rewrite (e0_cmd _ _ _ He), Ec, (e0_conn _ _ _ He), (e0_sock _ _ _ He). done.
    + split; [eapply trace_io; [apply He|done]|]. split; [by eapply thread_ok_eff|].
      unfold cmd_ok. by rewrite Hc.
    + split; [eapply (trace_io w); [apply He|done]|].
      pose proof (thread_ok_eff _ _ _ (eff_of_eff0 _ _ _ He) Hth) as (H1 & H2 & _).
      split; [|done]. split; [done|]. split; [done|]. intros _. cbn. by rewrite (e0_sock _ _ _ He).
  - by destruct Hcmd.
  - by destruct Hcmd.
  - (* disconnect *) bind_inv Hw as w1 E. injection Hw as <- <-.
    destruct (send_disconnect_eff _ _ E) as (w2 & He & ->).
    split; [eapply (trace_io w); [apply He|done]|]. split; [by eapply (thread_ok_eff io w w2)|by right].
  - injection Hw as <- <-. split; [done|]. split; [done|]. by right.
  - injection Hw as <- <-. split; [done|]. split; [done|]. unfold cmd_ok. by rewrite Ec.
Qed.

Lemma inform_preserves n q w w' ph :
  inv (Conc n true q w) ph -> work_inform w = Ret w' -> exists ph', inv (Conc n false q w') ph'.
Proof.
  unfold inv; cbn [wd releasing at_inform]. intros (Htr & Hth & Hcmd) Hw.
  unfold work_inform in Hw. destruct q.
  { assert (w' = w) as ->; [|by exists ph]. destruct Hcmd as [Hc|Hc]; rewrite Hc in Hw; congruence. }
  unfold cmd_ok in Hcmd. destruct (cmd (sk w)) eqn:Ec; try done.
  - (* idle *) subst ph. exists Open. assert (eff0 live w w') as He.
    { destruct (recvd_frames (sk w)); [by injection Hw as <-|by eapply inform_recvd_eff]. }
    split; [by eapply trace_live; [apply He|]|].
    split; [eapply thread_ok_eff; [by apply eff_of_eff0|done]|].
    unfold cmd_ok. by rewrite (e0_cmd _ _ _ He), Ec.
  - injection Hw as <-. exists ph. split; [done|]. split; [done|]. unfold cmd_ok. by rewrite Ec.
  - injection Hw as <-. exists ph. split; [done|]. split; [done|]. unfold cmd_ok. by rewrite Ec.
  - injection Hw as <-. exists ph. split; [done|]. split; [done|]. unfold cmd_ok. by rewrite Ec.
  - (* connected *) destruct Hcmd as [_ ->]. destruct Hth as (H1 & [H2 H2'] & H3).
    cbn in Hw. rewrite H2 in Hw. injection Hw as <-. exists Open.
    split; [by eapply run_trace_snoc|]. by split.
  - (* disconnected *) destruct Hcmd as [_ Hph]. bind_inv Hw as w1 E.
    destruct (send_disconnect_eff _ _ E) as (w2 & He & ->).
    assert (run_trace Opening (out w2) = Some ph) as Ht2 by (eapply (trace_io w); [apply He|done]).
    assert (thread_ok w2) as Hth2 by (eapply (thread_ok_eff io (upd (set_cmd COMMAND_END) w) w2); done).
    destruct Hth2 as (H1 & [H2 H2'] & H3). cbn in Hw. rewrite H2' in Hw. injection Hw as <-.
    exists Closed. split; [|by split]. eapply run_trace_snoc; [exact Ht2|]. by destruct ph.
  - injection Hw as <-. exists ph. split; [done|]. split; [done|]. unfold cmd_ok. by rewrite Ec.
Qed.

(** The application's calls. *)
Lemma app_preserves n i w w' ph :
  inv (Conc n i false w) ph -> eff0 io w w' -> inv (Conc n i false w') ph.
Proof.
  unfold inv; cbn [wd releasing at_inform]. intros (Htr & Hth & Hcmd) He.
  split; [by eapply trace_io; [apply He|]|].
  split; [eapply thread_ok_eff; [by apply eff_of_eff0|done]|].
  unfold cmd_ok. by rewrite (e0_cmd _ _ _ He), (e0_conn _ _ _ He), (e0_sock _ _ _ He).
Qed.

Lemma step_preserves c c' ph : step c c' -> inv c ph -> exists ph', inv c' ph'.
Proof.
  intros Hstep Hinv. destruct Hstep as [n n' q w w' _ Hw|n q w w' Hw|n i w w' t b Hw
    |n i w w' t len b Hw|n i w w' d len bt b Hw|n i w|n i w].
  - exists ph. by eapply command_preserves.
  - by eapply inform_preserves.
  - exists ph. eapply app_preserves; [done|by eapply send_text_eff].
  - exists ph. eapply app_preserves; [done|by eapply queue_frame_eff].
  - exists ph. eapply app_preserves; [done|by eapply send_bin_eff].
  - destruct Hinv as (Htr & Hth & _). cbn [wd] in *. exists ph.
    unfold inv, rws_socket_disconnect_request, rel_ok. cbn [wd releasing]. pose proof Hth as (Ht & _ & _). rewrite Ht.
    destruct (is_connected (sk w)); (split; [done|]); (split; [done|]); cbn; auto.
  - destruct Hinv as (Htr & Hth & Hr). exists ph. unfold inv, rws_socket_disconnect_quit.
    cbn [wd releasing] in *. destruct (work_thread (sk w)); done.
Qed.

Lemma steps_preserve c c' ph : rtc step c c' -> inv c ph -> exists ph', inv c' ph'.
Proof.
  intros Hs. revert ph. induction Hs as [c|c1 c2 c3 H12 _ IH]; intros ph Hinv; [eauto|].
  destruct (step_preserves _ _ _ H12 Hinv) as [ph' H']. by eapply IH.
Qed.

(** A freshly created socket on which [rws_socket_connect] succeeded. *)
Definition started (c : ws_conf) (n0 : net) (r : Z) (w0 : world) : Prop :=
  rws_socket_connect true (World (set_conf c rws_socket_create) n0 r []) = (true, w0).

Lemma started_inv c n0 r w0 :
  on_connected c = true -> started c n0 r w0 -> inv (Conc 0 false false w0) Opening.
Proof.
  unfold started, rws_socket_connect. cbn. intros Hc.
  destruct (connect_params_error c) eqn:Ep; [done|]. intros [= <-].
  unfold inv, thread_ok, cmd_ok. cbn. repeat split; auto.
  unfold connect_params_error in Ep. by destruct (on_disconnected c).
Qed.

(** C8. Connection lifecycle: under every interleaving of the worker with the
    application's sends and its release of the socket, what the callbacks see is
    a run of the abstract lifecycle (on_connected at most once; text, binary and
    pong callbacks only after it and before on_disconnected; on_disconnected at
    most once and nothing but traffic after it); a connected socket always has a
    descriptor; and until release the worker's command agrees with the phase. *)
Theorem ws_lifecycle c n0 r w0 st :
  on_connected c = true -> started c n0 r w0 -> rtc step (Conc 0 false false w0) st ->
  exists ph, run_trace Opening (out (wd st)) = Some ph /\
    (is_connected (sk (wd st)) = true -> socket (sk (wd st)) <> RWS_INVALID_SOCKET) /\
    (releasing st = false -> at_inform st = false ->
       (ph = Open <-> cmd (sk (wd st)) = COMMAND_IDLE) /\
       (ph = Closed <-> cmd (sk (wd st)) = COMMAND_END)).
Proof.
  intros Hc H0 Hs. destruct (steps_preserve _ _ _ Hs (started_inv _ _ _ _ Hc H0)) as (ph & Ht & Hth & Hcmd).
  exists ph. split; [done|]. split; [apply Hth|]. intros Hr Hi. rewrite Hr, Hi in Hcmd.
  unfold cmd_ok in Hcmd. destruct (cmd _); destruct_and?; try done; subst; done.
Qed.

(** After the quit flag is up nothing happens outside any more. *)
Lemma quit_silent c c' :
  rtc step c c' -> releasing c = true -> rel_ok (wd c) -> task_quit (sk (wd c)) <> 0 ->
  out (wd c') = out (wd c).
Proof.
  induction 1 as [c|c1 c2 c3 H12 _ IH]; [done|]. intros Hr Hrel Hq.
  assert (out (wd c2) = out (wd c1) /\ releasing c2 = true /\ rel_ok (wd c2) /\
          task_quit (sk (wd c2)) <> 0) as (H1 & H2 & H3 & H4).
  { destruct H12 as [n n' q w w' Hcont _|n q w w' Hw| | | | |n i w]; cbn in *; try done.
    - unfold work_continues in Hcont. apply bool_decide_eq_true_1 in Hcont. tauto.
    - unfold work_inform in Hw. assert (w' = w) as -> by (destruct Hrel as [Hc|Hc]; rewrite Hc in Hw; congruence).
      done.
    - unfold rws_socket_disconnect_quit. destruct (work_thread _); done. }
  rewrite IH by done. done.
Qed.

(** Release without a close frame: when the application's
    [rws_socket_disconnect_and_release] sets the command and the quit flag without
    a worker iteration in between, the worker leaves its loop and no byte is
    written and no callback is called any more; in particular the close frame
    COMMAND_DISCONNECT stands for is never sent. *)
Theorem ws_release_sends_no_close n i w st :
  work_thread (sk w) = true ->
  rtc step (Conc n i true (rws_socket_disconnect_quit (rws_socket_disconnect_request w))) st ->
  out (wd st) = out w.
Proof.
  intros Ht Hs.
  assert (rel_ok (rws_socket_disconnect_quit (rws_socket_disconnect_request w)) /\
          task_quit (sk (rws_socket_disconnect_quit (rws_socket_disconnect_request w))) <> 0 /\
          out (rws_socket_disconnect_quit (rws_socket_disconnect_request w)) = out w) as (H1 & H2 & H3).
  { unfold rws_socket_disconnect_quit, rws_socket_disconnect_request, rel_ok. rewrite Ht.
    destruct (is_connected (sk w)); cbn; rewrite Ht; cbn; auto. }
  rewrite <- H3. by apply (quit_silent _ _ Hs).
Qed.

(** ** What is lost or stuck *)

Lemma send_error d w :
  error (sk (rws_socket_send d w).2) = None \/
  exists t, error (sk (rws_socket_send d w).2) = Some (Error rws_error_code_read_write_socket t).
Proof.
  unfold rws_socket_send.
  assert (error (sk (send_loop 100 d (-1) (error_clean w)).2) = None) as H.
  { assert (error (sk (error_clean w)) = None) as H by done. revert H. generalize (error_clean w) as w1.
    generalize (-1) as r. generalize 100%nat as n. induction n as [|n IH]; intros r w1 H1; [done|]. cbn.
    destruct (net_write _ _ _) as [ret nt']. case_decide; [by apply IH|done]. }
  destruct (send_loop 100 d (-1) (error_clean w)) as [r w1]. cbn in H.
  assert (forall w2, error (sk (rws_socket_close w2)) = error (sk w2)) as Hclose.
  { intros w2. unfold rws_socket_close. cbn. by case_decide. }
  destruct (decide (0 < r)); [by left|]. destruct (decide (r = 0)); [cbn [snd]; rewrite Hclose; by left|].
  set (w2 := rws_socket_check_write_error _ w1).
  assert (error (sk w2) = None \/
          exists t, error (sk w2) = Some (Error rws_error_code_read_write_socket t)) as H2.
  { unfold w2, rws_socket_check_write_error. repeat case_decide; cbn; eauto. }
  destruct (error (sk w2)) eqn:E2; cbn [snd]; rewrite ?Hclose, E2; auto.
Qed.

(** The reason of a disconnect is lost: when the worker reports a
    disconnect, [rws_socket_send_disconnect] runs first and its write clears the
    socket's error, so whatever the error was (connection closed by the endpoint,
    failed handshake, failed connect), the error [on_disconnected] can read is
    none, or a read/write error of that last write. *)
Theorem ws_disconnect_reason_lost w w' :
  cmd (sk w) = COMMAND_INFORM_DISCONNECTED -> work_inform w = Ret w' ->
  cmd (sk w') = COMMAND_END /\
  (error (sk w') = None \/
   exists t, error (sk w') = Some (Error rws_error_code_read_write_socket t)).
Proof.
  unfold work_inform. intros -> H. bind_inv H as w1 E.
  unfold rws_socket_send_disconnect in E. bind_inv E as [f w2] E1.
  destruct (rws_socket_get_next_message_id w2) as [mid w3]. bind_inv E as g E2. bind_inv E as d E3.
  pose proof (send_error d w3) as He. destruct (rws_socket_send d w3) as [ok w4]. cbn in He.
  bind_inv E as u E4. injection E as <-.
  destruct (on_disconnected _) in H; injection H as <-; done.
Qed.

(** A worker whose connection was closed without an error: it idles. *)
Definition stranded (w : world) : Prop :=
  cmd (sk w) = COMMAND_IDLE /\ is_connected (sk w) = false /\ recvd_frames (sk w) = [].

(** Sending touches the send queue and its accounting only. *)
Lemma send_recvd_frames w b w' :
  (exists t, rws_socket_send_text t w = Ret (b, w')) \/
  (exists t len, rws_socket_send_text2 t len w = Ret (b, w')) \/
  (exists d len bt, rws_socket_send_bin_priv d len bt w = Ret (b, w')) ->
  recvd_frames (sk w') = recvd_frames (sk w).
Proof.
  assert (forall n w1, recvd_frames (sk (rws_socket_mem_used_out n w1).2) = recvd_frames (sk w1)) as Hm.
  { intros n w1. unfold rws_socket_mem_used_out. by case_decide. }
  assert (forall fill w1 b1 w2,
    ('(f, w1) ← frame_create w1; f ← fill f; w1 ← rws_socket_append_send_frames f w1; Ret (true, w1))
      = Ret (b1, w2) -> recvd_frames (sk w2) = recvd_frames (sk w1)) as Hc.
  { intros fill w1 b1 w2 H. bind_inv H as [f w3] E1. bind_inv H as g E2. bind_inv H as w4 E3.
    injection H as <- <-. bind_inv E1 as [f' r] E. injection E1 as <- <-.
    bind_inv E3 as l E4. by injection E3 as <-. }
  assert (forall opc fin src len, queue_frame opc fin src len w = Ret (b, w') ->
            recvd_frames (sk w') = recvd_frames (sk w)) as Hq.
  { intros opc fin src len. unfold queue_frame. case_decide; [by intros [= <- <-]|].
    specialize (Hm len w). destruct (rws_socket_mem_used_out len w) as [[] w1]; cbn in Hm;
      [by intros [= <- <-]|]. intros Hf. by rewrite (Hc _ _ _ _ Hf). }
  intros [[[t|] H]|[(t & len & H)|(d & len & bt & H)]]; [by eapply Hq|by injection H as <- <-|by eapply Hq|].
  unfold rws_socket_send_bin_priv in H. specialize (Hm len w).
  destruct (rws_socket_mem_used_out len w) as [[] w1]; cbn in Hm; [by injection H as <- <-|].
  by rewrite (Hc _ _ _ _ H).
Qed.

Lemma stranded_app w w' :
  eff0 io w w' -> recvd_frames (sk w') = recvd_frames (sk w) -> stranded w -> stranded w'.
Proof. intros [] Hr (H1 & H2 & H3). unfold stranded. rewrite Hr. repeat split; congruence. Qed.

(** Application sends produce no events. *)
Lemma app_out w w' : eff0 (fun _ => False) w w' -> out w' = out w.
Proof. intros []. destruct e0_out0 as (es & -> & He). destruct He; [apply app_nil_r|done]. Qed.

Lemma stranded_step c c' :
  step c c' -> stranded (wd c) -> releasing c' = false ->
  stranded (wd c') /\ out (wd c') = out (wd c) /\ releasing c = false.
Proof.
  intros Hstep (H1 & H2 & H3) Hr.
  destruct Hstep as [n n' q w w' _ Hw|n q w w' Hw|n i w w' t b Hw
    |n i w w' t len b Hw|n i w w' d len bt b Hw|n i w|n i w]; cbn in *; try done.
  - unfold work_command in Hw. rewrite H1, H2 in Hw. cbn in Hw.
    assert (w' = w) as -> by (destruct (decide _) in Hw; cbn in Hw; rewrite H2 in Hw; cbn in Hw;
      rewrite ?H2 in Hw; cbn in Hw; congruence). done.
  - unfold work_inform in Hw. rewrite H1, H3 in Hw. injection Hw as <-. done.
  - split; [|split; [by eapply app_out, send_text_eff|done]].
    eapply stranded_app; [by eapply send_text_eff|eapply send_recvd_frames; eauto|done].
  - split; [|split; [by eapply app_out, queue_frame_eff|done]].
    eapply stranded_app; [by eapply queue_frame_eff|eapply send_recvd_frames; eauto|done].
  - split; [|split; [by eapply app_out, send_bin_eff|done]].
    eapply stranded_app; [by eapply send_bin_eff|eapply send_recvd_frames; eauto 6|done].
Qed.

Lemma released_stays c c' : rtc step c c' -> releasing c = true -> releasing c' = true.
Proof.
  induction 1 as [|c1 c2 c3 H12 _ IH]; [done|]. intros H. apply IH.
  by destruct H12.
Qed.

Lemma stranded_forever c c' :
  rtc step c c' -> stranded (wd c) -> releasing c' = false -> out (wd c') = out (wd c).
Proof.
  induction 1 as [|c1 c2 c3 H12 H23 IH]; [done|]. intros Hs Hr.
  destruct (releasing c2) eqn:E2; [by rewrite (released_stays _ _ H23 E2) in Hr|].
  destruct (stranded_step _ _ H12 Hs E2) as (Hs2 & Ho & _). by rewrite IH.
Qed.

(** A stalled write strands the worker: when the transport returns 0 for a
    queued frame (what net_write gives when select times out before any byte),
    the socket is closed, no error is set and the command stays IDLE; from then
    on, until the application releases the socket, no callback is ever called and
    nothing is written: on_disconnected never reports the loss. *)
Theorem ws_stalled_write_strands n w f fs p nt' :
  cmd (sk w) = COMMAND_IDLE -> is_connected (sk w) = true -> u32 (n + 1) < 400 ->
  recvd_frames (sk w) = [] -> send_frames (sk w) = Some f :: fs ->
  is_Some (data f) -> frame_read f = Ret p -> rws_frame_delete (Some f) = Ret tt ->
  rws_socket_delete_all_frames_in_list fs = Ret tt ->
  net_write (nt w) (is_wss (sk w)) p = (0, nt') ->
  exists w', work_command (u32 (n + 1)) w = Ret (u32 (n + 1), w') /\
    is_connected (sk w') = false /\ error (sk w') = None /\ send_frames (sk w') = [] /\
    forall st, rtc step (Conc (u32 (n + 1)) true false w') st -> releasing st = false ->
      out (wd st) = out w'.
Proof.
  intros Hc Hn Hl Hr Hf [d Hd] Hp Hdel Hall Hnet.
  unfold work_command. rewrite Hc, decide_False by lia. cbn [mbind outcome_bind]. rewrite Hn.
  unfold rws_socket_idle_send. rewrite Hf. cbn [send_queued]. rewrite Hn, Hd, Hp.
  cbn [mbind outcome_bind]. unfold rws_socket_send. cbn [send_loop].
  change (is_wss (sk (error_clean w))) with (is_wss (sk w)).
  change (nt (error_clean w)) with (nt w). rewrite Hnet.
  rewrite (decide_False (P := 0 = MBEDTLS_ERR_SSL_WANT_WRITE)) by done.
  rewrite (decide_False (P := 0 < 0)) by lia. rewrite (decide_True (P := 0 = 0)) by done.
  set (w1 := emit _ _). rewrite Hdel. cbn [mbind outcome_bind]. rewrite Hall. cbn [mbind outcome_bind].
  set (w2 := upd _ (rws_socket_close w1)).
  assert (error (sk w2) = None /\ is_connected (sk w2) = false /\ send_frames (sk w2) = [] /\
          cmd (sk w2) = COMMAND_IDLE /\ recvd_frames (sk w2) = []) as (He & Hn2 & Hs2 & Hc2 & Hr2).
  { unfold w2, rws_socket_close. cbn. case_decide; cbn; auto. }
  rewrite He. cbn [mbind outcome_bind]. rewrite Hn2. cbn [mbind outcome_bind].
  exists w2. repeat (split; [done|]). intros st Hst Hrel.
  by apply (stranded_forever _ _ Hst).
Qed.
End Lifecycle.

(** ** A concrete session *)

Section Drive.
Context `{LC : Libc} `{NC : Net}.

(** Let the worker run [k] steps. *)
Fixpoint drive (k : nat) (c : conc) : conc :=
  match k with
  | O => c
  | S k =>
      if at_inform c then
        match work_inform (wd c) with
        | Ret w => drive k (Conc (loop_number c) false (releasing c) w)
        | Crash => c
        end
      else if work_continues (wd c) then
        match work_command (u32 (loop_number c + 1)) (wd c) with
        | Ret (n, w) => drive k (Conc n true (releasing c) w)
        | Crash => c
        end
      else c
  end.

Lemma drive_steps k c : rtc step c (drive k c).
Proof.
  revert c. induction k as [|k IH]; intros [n i q w]; [apply rtc_refl|]. cbn. destruct i.
  - destruct (work_inform w) eqn:E; [|apply rtc_refl].
    eapply rtc_l; [by apply step_inform|apply IH].
  - destruct (work_continues w) eqn:Ec; [|apply rtc_refl].
    destruct (work_command _ w) as [[n' w']|] eqn:E; [|apply rtc_refl].
    eapply rtc_l; [by apply step_command|apply IH].
Qed.
End Drive.

Definition demo_reply : list Z :=
  str "HTTP/1.1 101 Switching Protocols" ++ crlf ++ str "Sec-WebSocket-Accept: abc=" ++ crlf ++ crlf
    ++ [0].

(** The server accepts, says "hi" and closes. *)
Definition demo_net : script :=
  Script [([demo_reply], ReadNeg (-1) EAGAIN); ([[129; 2; 104; 105]], ReadNeg (-1) EAGAIN);
          ([[136; 0]], ReadNeg (-1) EAGAIN)] [] EAGAIN 0 [] [] [].

Definition demo_start : world :=
  (rws_socket_connect true (World (set_conf demo_conf rws_socket_create) demo_net 7 [])).2.

Definition demo_end : conc := drive 20 (Conc 0 false false demo_start).

Lemma ws_lifecycle_witness :
  run_trace Opening (out (wd demo_end)) = Some Closed /\
  exists ph, run_trace Opening (out (wd demo_end)) = Some ph /\
    (is_connected (sk (wd demo_end)) = true -> socket (sk (wd demo_end)) <> RWS_INVALID_SOCKET) /\
    (releasing demo_end = false -> at_inform demo_end = false ->
       (ph = Open <-> cmd (sk (wd demo_end)) = COMMAND_IDLE) /\
       (ph = Closed <-> cmd (sk (wd demo_end)) = COMMAND_END)).
Proof.
  split; [by vm_compute|].
  apply (ws_lifecycle (NC := net_script) demo_conf demo_net 7 demo_start); [done|by vm_compute|apply drive_steps].
Defined.

(** An open connection, in the worker's idle state. *)
Definition demo_open : world := wd (drive 6 (Conc 0 false false demo_start)).

Lemma ws_release_sends_no_close_witness :
  is_connected (sk demo_open) = true /\
  out (wd (drive 5 (Conc 3 false true
        (rws_socket_disconnect_quit (rws_socket_disconnect_request demo_open))))) = out demo_open.
Proof.
  split; [by vm_compute|].
  apply (ws_release_sends_no_close 3 false demo_open); [by vm_compute|apply drive_steps].
Defined.

Definition demo_closed_by_peer : world :=
  fail rws_error_code_connection_closed (str "Connection was closed by endpoint")
    (upd (set_cmd COMMAND_INFORM_DISCONNECTED) demo_open).

Lemma ws_disconnect_reason_lost_witness :
  exists w', work_inform demo_closed_by_peer = Ret w' /\ cmd (sk w') = COMMAND_END /\
  (error (sk w') = None \/
   exists t, error (sk w') = Some (Error rws_error_code_read_write_socket t)).
Proof.
  destruct (work_inform demo_closed_by_peer) as [w'|] eqn:E; [|by vm_compute in E].
  exists w'. split; [done|]. apply (ws_disconnect_reason_lost demo_closed_by_peer); [by vm_compute|done].
Defined.

(** "hi" queued on an open connection whose next write stalls. *)
Definition demo_frame : rws_frame :=
  Frame (Some (Buf [129; 130; 1; 2; 3; 4; 105; 107] 0)) 8 1 [1; 2; 3; 4] true true 6.
Definition demo_stalled : world :=
  World (set_send_frames [Some demo_frame]
          (set_cmd COMMAND_IDLE (set_is_connected true (set_socket 3 (set_conf demo_conf rws_socket_create)))))
    (Script [] [0] EAGAIN 0 [] [] []) 7 [].

Lemma ws_stalled_write_strands_witness :
  exists w', work_command (u32 (5 + 1)) demo_stalled = Ret (u32 (5 + 1), w') /\
    is_connected (sk w') = false /\ error (sk w') = None /\ send_frames (sk w') = [] /\
    forall st, rtc step (Conc (u32 (5 + 1)) true false w') st -> releasing st = false ->
      out (wd st) = out w'.
Proof.
  apply (ws_stalled_write_strands (NC := net_script) 5 demo_stalled demo_frame [] [129; 130; 1; 2; 3; 4; 105; 107] quiet);
    done.
Defined.
