(* ===== verification/WsNetwork.v ===== *)
(** * Websocket transport, [components/websocket/websocket/src/rws_network.c]

    [net_read] and [net_write] on a socket: the loops around [select], [recv] and
    [sendto] with their time limit; that they end, and what they have moved when they
    do.  The operating system is the interface [Os]. *)

From S2P Require Import Prelude.

(** ** Model *)

(** [gettimeofday] (seconds, microseconds); [select] on the socket (result, [errno],
    [FD_ISSET]); [recv] of at most so many bytes (result, bytes, [errno]); [sendto]
    (result, [errno]); sleeping for some milliseconds. *)
Class Os := {
  os : Type;
  os_time : os -> Z * Z * os;
  os_select : os -> Z * Z * bool * os;
  os_recv : Z -> os -> Z * list Z * Z * os;
  os_send : list Z -> os -> Z * Z * os;
  os_sleep : Z -> os -> os
}.

Definition EINTR : Z := 4.
Definition EAGAIN : Z := 11.
Definition again (e : Z) : bool := bool_decide (e = EINTR \/ e = EAGAIN).

Definition u64 (z : Z) : Z := z mod 2 ^ 64.

(** [(t2.tv_sec - t1.tv_sec) * 1000 + (t2.tv_usec - t1.tv_usec) / 1000]. *)
Definition delta (t1 t2 : Z * Z) : Z := u64 ((t2.1 - t1.1) * 1000 + Z.quot (t2.2 - t1.2) 1000).

Section Network.
Context `{OS : Os}.

(** The [while] loop, the same in both functions but for the call [io] that moves
    bytes: from [len] on, its result, the bytes and [errno].  The result is what the
    function returns and all bytes moved; [None] while the loop still runs. *)
Fixpoint net_loop (fuel : nat) (io : Z -> os -> Z * list Z * Z * os) (count timeout_ms : Z) (t1 : Z * Z)
  (lfirst : bool) (len : Z) (moved : list Z) (o : os) : option (Z * list Z * os) :=
  match fuel with
  | O => None
  | S fuel =>
      if decide (len < count) then
        let '(late, o) :=
          if lfirst then (false, o)
          else let '(sec, usec, o) := os_time o in (bool_decide (u64 timeout_ms <= delta t1 (sec, usec)), o) in
        if late : bool then Some (len, moved, o)
        else
          let '(rc, errno, isset, o) := os_select o in
          if decide (rc < 0) then
            if again errno then net_loop fuel io count timeout_ms t1 false len moved (os_sleep 20 o)
            else Some (-1, moved, o)
          else if decide (rc = 0) then Some (len, moved, o)
          else if negb isset then net_loop fuel io count timeout_ms t1 false len moved (os_sleep 20 o)
          else
            let '(rc, d, errno, o) := io len o in
            if decide (rc < 0) then
              if again errno then net_loop fuel io count timeout_ms t1 false len moved (os_sleep 20 o)
              else Some (-1, moved, o)
            else if decide (rc = 0) then Some (len, moved, o)
            else net_loop fuel io count timeout_ms t1 false (len + rc) (moved ++ d) o
      else Some (len, moved, o)
  end.

Definition recv_io (count : Z) (len : Z) (o : os) : Z * list Z * Z * os := os_recv (count - len) o.
Definition send_io (buf : list Z) (count : Z) (len : Z) (o : os) : Z * list Z * Z * os :=
  let d := ztake (count - len) (zdrop len buf) in
  let '(rc, errno, o) := os_send d o in (rc, ztake rc d, errno, o).

(** The result and the bytes stored to [buf]. *)
Definition net_read (fuel : nat) (count timeout_ms : Z) (o : os) : option (Z * list Z * os) :=
  if decide (count = 0) then Some (-1, [], o)
  else let '(sec, usec, o) := os_time o in
       net_loop fuel (recv_io count) count timeout_ms (sec, usec) true 0 [] o.

(** The result and the bytes the socket accepted. *)
Definition net_write (fuel : nat) (buf : list Z) (count timeout_ms : Z) (o : os) : option (Z * list Z * os) :=
  if decide (count = 0) then Some (-1, [], o)
  else let '(sec, usec, o) := os_time o in
       net_loop fuel (send_io buf count) count timeout_ms (sec, usec) true 0 [] o.

End Network.

(** ** What the operating system promises

    Calls move no more than asked for; the clock does not go back, no call takes
    longer than 2^41 microseconds (the longest time limit is 2^31 milliseconds), and
    sleeping for 20 ms takes at least that long. *)

Definition soon (m m' : Z) : Prop := m <= m' <= m + 2 ^ 41.

Class OsLaws `{OS : Os} := {
  micros : os -> Z;
  time_law o : let '(sec, usec, o') := os_time o in
    sec * 1000000 + usec = micros o /\ 0 <= usec < 1000000 /\ soon (micros o) (micros o');
  select_law o : soon (micros o) (micros (os_select o).2);
  recv_law n o : 0 < n -> let '(rc, d, _, o') := os_recv n o in
    rc <= n /\ (0 <= rc -> zlen d = rc) /\ soon (micros o) (micros o');
  send_law d o : let '(rc, _, o') := os_send d o in rc <= zlen d /\ soon (micros o) (micros o');
  sleep_law o : micros o + 20 * 1000 <= micros (os_sleep 20 o) <= micros o + 2 ^ 41
}.

Section Proofs.
Context `{OL : OsLaws}.

(** The elapsed time reaches the limit at the latest one millisecond after it. *)
Lemma delta_late sec1 usec1 sec2 usec2 timeout :
  0 <= usec1 < 1000000 -> 0 <= usec2 < 1000000 -> 0 <= timeout ->
  (timeout + 1) * 1000 <= (sec2 * 1000000 + usec2) - (sec1 * 1000000 + usec1) < 2 ^ 71 ->
  timeout <= delta (sec1, usec1) (sec2, usec2).
Proof.
  intros Hu1 Hu2 Ht Hlate. unfold delta, u64. cbn [fst snd].
  pose proof (Z.quot_rem' (usec2 - usec1) 1000) as Hq. pose proof (Z.rem_bound_abs (usec2 - usec1) 1000) as Hr.
  rewrite Z.mod_small by lia. lia.
Qed.

(** A call that moves bytes moves at most what is left. *)
Definition io_ok (io : Z -> os -> Z * list Z * Z * os) (count : Z) : Prop :=
  forall len o, 0 <= len < count ->
    let '(rc, d, _, o') := io len o in rc <= count - len /\ (0 <= rc -> zlen d = rc) /\ soon (micros o) (micros o').

Lemma recv_io_ok count : io_ok (recv_io count) count.
Proof.
  intros len o Hl. unfold recv_io. pose proof (recv_law (count - len) o) as H.
  destruct (os_recv (count - len) o) as [[[rc d] e] o']. apply H. lia.
Qed.

Lemma send_io_ok buf count : count <= zlen buf -> io_ok (send_io buf count) count.
Proof.
  intros Hb len o Hl. unfold send_io. pose proof (send_law (ztake (count - len) (zdrop len buf)) o) as H.
  destruct (os_send _ o) as [[rc e] o']. destruct H as [H1 H2].
  assert (zlen (ztake (count - len) (zdrop len buf)) = count - len) as Hz
    by (apply zlen_ztake; rewrite zlen_zdrop; lia).
  rewrite Hz in H1. split; [done|]. split; [|done]. intros H0. apply zlen_ztake. lia.
Qed.

(** The loop ends, in at most one turn per byte and per 20 ms of the time limit. *)
Lemma net_loop_ends io count timeout sec1 usec1 :
  io_ok io count -> 0 <= timeout < 2 ^ 31 -> 0 <= usec1 < 1000000 ->
  forall fuel lfirst len moved o k,
    0 <= len <= count -> 0 <= k -> (timeout + 1) * 1000 - k * 20000 <= micros o - (sec1 * 1000000 + usec1) ->
    micros o - (sec1 * 1000000 + usec1) + Z.of_nat fuel * 2 ^ 44 < 2 ^ 71 ->
    (count - len) + k + (if lfirst : bool then 1 else 0) < Z.of_nat fuel ->
    exists r, net_loop fuel io count timeout (sec1, usec1) lfirst len moved o = Some r.
Proof.
  intros Hio Ht Hu1. unfold soon in *. induction fuel as [|fuel IH]; intros lfirst len moved o k Hl Hk Htime Hup Hfuel; [destruct lfirst; lia|].
  cbn [net_loop]. destruct (decide (len < count)) as [Hlt|]; [|by eexists].
  assert (exists late o1, (if lfirst then (false, o)
      else let '(sec, usec, o0) := os_time o in (bool_decide (u64 timeout <= delta (sec1, usec1) (sec, usec)), o0)) = (late, o1) /\
      soon (micros o) (micros o1) /\ (late = false -> lfirst = false -> 1 <= k)) as (late & o1 & -> & Hm1 & Hlate).
  { unfold soon. destruct lfirst; [exists false, o; split; [done|]; split; [lia|done]|]. pose proof (time_law o) as Htl. destruct (os_time o) as [[sec usec] o1].
    destruct Htl as (Hmic & Hu & Hm). eexists _, o1. split; [done|]. split; [done|]. intros Hno _.
    apply bool_decide_eq_false in Hno. unfold u64 at 1 in Hno. rewrite Z.mod_small in Hno by lia.
    destruct (decide (1 <= k)); [done|]. exfalso. apply Hno. apply delta_late; try done; lia. }
  destruct late; [by eexists|]. specialize (Hlate eq_refl).
  unfold soon in *. assert (forall moved o2, micros o1 <= micros o2 <= micros o1 + 2 ^ 42 ->
    exists r, net_loop fuel io count timeout (sec1, usec1) false len moved (os_sleep 20 o2) = Some r) as Hagain.
  { intros mv o2 Hm2. pose proof (sleep_law o2). apply (IH false len mv _ (Z.max 0 (k - 1))); [lia|lia|lia|lia|].
    destruct lfirst; [lia|]. specialize (Hlate eq_refl). lia. }
  pose proof (select_law o1) as Hsel. unfold soon in Hsel. destruct (os_select o1) as [[[rc errno] isset] o2]. cbn in Hsel.
  destruct (decide (rc < 0)); [destruct (again errno); [apply Hagain; lia|by eexists]|].
  destruct (decide (rc = 0)); [by eexists|]. destruct isset; cbn [negb]; [|apply Hagain; lia].
  pose proof (Hio len o2 ltac:(lia)) as Hcall. destruct (io len o2) as [[[rc2 d] errno2] o3].
  destruct Hcall as (Hrc & _ & Hm3). unfold soon in Hm3.
  destruct (decide (rc2 < 0)); [destruct (again errno2); [apply Hagain; lia|by eexists]|].
  destruct (decide (rc2 = 0)); [by eexists|].
  apply (IH false (len + rc2) (moved ++ d) o3 k); [lia|lia|lia|lia|]. destruct lfirst; lia.
Qed.

(** What the loop has moved when it ends. *)
Lemma net_loop_moved io count timeout t1 (P : list Z -> Prop) :
  io_ok io count ->
  (forall len o moved, 0 <= len < count -> zlen moved = len -> P moved ->
     let '(rc, d, _, _) := io len o in 0 < rc -> P (moved ++ d)) ->
  forall fuel lfirst len moved o r moved' o',
    zlen moved = len -> len <= count -> P moved ->
    net_loop fuel io count timeout t1 lfirst len moved o = Some (r, moved', o') ->
    P moved' /\ zlen moved' <= count /\ (r = -1 \/ r = zlen moved').
Proof.
  intros Hio HP. induction fuel as [|fuel IH]; intros lfirst len moved o r moved' o' Hm Hl Hmv; [done|].
  cbn [net_loop]. pose proof (zlen_nonneg moved).
  assert (forall x o'', Some (x, moved, o'') = Some (r, moved', o') -> x = -1 \/ x = len ->
            P moved' /\ zlen moved' <= count /\ (r = -1 \/ r = zlen moved')) as Hend.
  { intros x o'' [= -> -> ->] Hx. split; [done|]. split; [lia|]. destruct Hx as [->| ->]; auto. }
  destruct (decide (len < count)); [|intros E; apply (Hend _ _ E); by right].
  destruct (if lfirst then _ else _) as [late o1]. destruct late; [intros E; apply (Hend _ _ E); by right|].
  destruct (os_select o1) as [[[rc errno] isset] o2].
  destruct (decide (rc < 0)); [destruct (again errno); [by apply IH|intros E; apply (Hend _ _ E); by left]|].
  destruct (decide (rc = 0)); [intros E; apply (Hend _ _ E); by right|]. destruct isset; cbn [negb]; [|by apply IH].
  pose proof (Hio len o2 ltac:(lia)) as Hcall. pose proof (HP len o2 moved ltac:(lia) Hm Hmv) as HP'.
  destruct (io len o2) as [[[rc2 d] errno2] o3]. destruct Hcall as (Hrc & Hd & _).
  destruct (decide (rc2 < 0)); [destruct (again errno2); [by apply IH|intros E; apply (Hend _ _ E); by left]|].
  destruct (decide (rc2 = 0)); [intros E; apply (Hend _ _ E); by right|].
  apply IH; [rewrite zlen_app; specialize (Hd ltac:(lia)); lia|lia|apply HP'; lia].
Qed.

Definition net_fuel (count timeout : Z) : nat := Z.to_nat (count + timeout + 3).

Lemma start_ends io count timeout (o : os) : io_ok io count -> 0 < count < 2 ^ 24 -> 0 <= timeout < 2 ^ 24 ->
  exists r, (let '(sec, usec, o) := os_time o in
       net_loop (net_fuel count timeout) io count timeout (sec, usec) true 0 [] o) = Some r.
Proof.
  intros Hio Hc Ht. pose proof (time_law o) as Htl. destruct (os_time o) as [[sec usec] o1].
  destruct Htl as (Hmic & Hu & Hm). unfold soon in Hm. apply net_loop_ends with (k := timeout + 1); unfold net_fuel; (done || lia).
Qed.


End Proofs.

(** ** A socket that takes two bytes at a time, and a clock in microseconds *)

#[export] Instance slow_os : Os := {|
  os := Z;
  os_time o := (o / 1000000, o mod 1000000, o);
  os_select o := (1, 0, true, o);
  os_recv n o := (Z.min n 2, replicate (Z.to_nat (Z.min n 2)) 7, 0, o);
  os_send d o := (Z.min (zlen d) 2, 0, o);
  os_sleep ms o := o + Z.max 0 (ms * 1000)
|}.

#[export] Instance slow_os_laws : OsLaws (OS := slow_os).
Proof.
  refine {| micros := fun o : os (Os := slow_os) => o |}; cbn; unfold soon.
  - intros o. pose proof (Z.div_mod o 1000000). pose proof (Z.mod_pos_bound o 1000000). lia.
  - lia.
  - intros n o Hn. rewrite zlen_replicate. lia.
  - lia.
  - lia.
Defined.

Definition d_start : os (Os := slow_os) := 0.

