(* ===== verification/Nor.v ===== *)
(** * NOR flash cells

    What erasing and programming do to the cells of a NOR flash, shared by the
    key-value store, the partitions and the A/B boot table. *)

From S2P Require Import Prelude.

(** Programming can only clear bits. *)
Definition nor_write (l : list Z) (pos : Z) (d : list Z) : list Z :=
  ztake pos l ++ zip_with Z.land (zdrop pos l) d ++ zdrop (pos + zlen d) l.

(** Erased cells. *)
Definition erased (n : Z) : list Z := replicate (Z.to_nat n) 255.

(** ** Programming a stretch of cells *)

Lemma nor_write_inside p c q o d :
  0 <= o -> o + zlen d <= zlen c ->
  nor_write (p ++ c ++ q) (zlen p + o) d = p ++ nor_write c o d ++ q.
Proof.
  intros Ho Hd. unfold nor_write. pose proof (zlen_nonneg d).
  assert (forall n, 0 <= n -> ztake (zlen p + n) (p ++ c ++ q) = p ++ ztake n (c ++ q)) as Ht.
  { intros n Hn. unfold ztake, zlen. replace (Z.to_nat (Z.of_nat (length p) + n)) with (length p + Z.to_nat n)%nat by lia.
    apply take_app_add. }
  assert (forall n, 0 <= n -> zdrop (zlen p + n) (p ++ c ++ q) = zdrop n (c ++ q)) as Hdr.
  { intros n Hn. unfold zdrop, zlen. replace (Z.to_nat (Z.of_nat (length p) + n)) with (length p + Z.to_nat n)%nat by lia.
    apply drop_app_add. }
  rewrite <- Z.add_assoc, Ht, !Hdr by lia.
  assert (forall n, 0 <= n <= zlen c -> ztake n (c ++ q) = ztake n c) as Htc.
  { intros n Hn. unfold ztake, zlen in *. apply take_app_le. lia. }
  assert (forall n, 0 <= n <= zlen c -> zdrop n (c ++ q) = zdrop n c ++ q) as Hdc.
  { intros n Hn. unfold zdrop, zlen in *. apply drop_app_le. lia. }
  rewrite Htc, !Hdc by lia. norm_app. do 2 f_equal.
  rewrite !app_assoc. f_equal. f_equal. rewrite zip_with_app_l.
  assert (drop (length (zdrop o c)) d = []) as ->.
  { apply drop_ge. unfold zdrop, zlen in *. rewrite length_drop. lia. }
  rewrite zip_with_nil_r, app_nil_r, take_ge; [done|].
  unfold zdrop, zlen in *. rewrite length_drop. lia.
Qed.

Lemma land_ff d : bytes d -> zip_with Z.land (erased (zlen d)) d = d.
Proof.
  unfold erased, zlen. rewrite Nat2Z.id. induction 1 as [|b d Hb _ IH]; [done|]. cbn. f_equal; [|done].
  rewrite Z.land_comm, land_255. unfold is_byte in Hb. apply Z.mod_small. lia.
Qed.

Lemma erased_app n m : 0 <= n -> 0 <= m -> erased (n + m) = erased n ++ erased m.
Proof. intros. unfold erased. rewrite Z2Nat.inj_add by lia. apply replicate_add. Qed.

Lemma zlen_erased n : 0 <= n -> zlen (erased n) = n.
Proof. intros. unfold erased. rewrite zlen_replicate. lia. Qed.

Lemma nor_write_length l pos d : 0 <= pos -> pos + zlen d <= zlen l -> zlen (nor_write l pos d) = zlen l.
Proof.
  intros. unfold nor_write. pose proof (zlen_nonneg d). rewrite !zlen_app, zlen_ztake, zlen_zdrop by lia.
  assert (zlen (zip_with Z.land (zdrop pos l) d) = zlen d) as ->; [|lia].
  unfold zlen, zdrop in *. rewrite length_zip_with, length_drop. lia.
Qed.

(** Programming erased cells stores the data. *)
Lemma program_erased a n d q :
  bytes d -> zlen d <= n ->
  nor_write (a ++ erased n ++ q) (zlen a) d = a ++ d ++ erased (n - zlen d) ++ q.
Proof.
  intros Hd Hn. pose proof (zlen_nonneg d).
  replace n with (zlen d + (n - zlen d)) at 1 by lia. rewrite erased_app by lia. norm_app.
  rewrite <- (Z.add_0_r (zlen a)), nor_write_inside by (rewrite ?zlen_erased; lia). do 2 f_equal.
  unfold nor_write. rewrite zdrop_0. change (ztake 0 ?l) with (@nil Z). cbn [app].
  rewrite Z.add_0_l, zdrop_all, app_nil_r by (rewrite zlen_erased; lia). by apply land_ff.
Qed.

(** Programming zeros gives zeros. *)
Lemma program_zero a c q :
  zlen c = 4 -> nor_write (a ++ c ++ q) (zlen a) [0; 0; 0; 0] = a ++ [0; 0; 0; 0] ++ q.
Proof.
  intros Hc. rewrite <- (Z.add_0_r (zlen a)), nor_write_inside by (rewrite ?Hc; done || lia). do 2 f_equal.
  destruct c as [|c0 [|c1 [|c2 [|c3 [|? ?]]]]]; try (unfold zlen in Hc; cbn in Hc; lia).
  unfold nor_write. rewrite zdrop_0. change (ztake 0 ?l) with (@nil Z).
  change (zdrop (0 + zlen [0; 0; 0; 0]) [c0; c1; c2; c3]) with (@nil Z).
  cbn. by rewrite !Z.land_0_r.
Qed.

