(* ===== verification/Partition.v ===== *)
(** * Flash partitions

    [components/partition/src/partition.c] and [partition_flash.c] over
    [components/aoshal/src/csi2/flash.c]: the table of named partitions, and
    reading, programming and erasing by partition and offset.  Built as the product
    builds it: one flash (CONFIG_FLASH_NUM 1), not CONFIG_KERNEL_NONE, no
    CONFIG_MULTI_FLASH_SUPPORT, 32-bit [off_t], [size_t] and [unsigned long].  The
    chip driver behind [csi_spiflash_*] is the interface [SpiFlash], and the
    partition list read from the image table by [mtb] is an argument of
    [partition_init].  A pointer argument is never NULL; the two counters kept for the
    store's tests are left out. *)

From S2P Require Import Prelude Nor.

Definition EINVAL : Z := 22.

(** ** The chip driver, [drv/spiflash.h] *)

(** The part of [csi_spiflash_info_t] that is used. *)
Record spiflash_info := SpiInfo {
  flash_size : Z;
  xip_addr : Z;
  info_sector_size : Z
}.

(** A driver without error information gives [None].  [spiflash_read] also gives the
    bytes it has put at the front of the buffer. *)
Class SpiFlash := {
  chip : Type;
  spiflash_get_flash_info : chip -> option spiflash_info;
  spiflash_erase : chip -> Z -> Z -> Z * chip;
  spiflash_program : chip -> Z -> list Z -> Z * chip;
  spiflash_read : chip -> Z -> Z -> Z * list Z
}.

(** ** [aoshal/src/csi2/flash.c] *)

(** The handles the partition layer uses. *)
Inductive hal_partition := HAL_ALL_FLASH_0 | HAL_ALL_FLASH_1 | HAL_ALL_FLASH_2.
#[export] Instance hal_partition_eq_dec : EqDecision hal_partition.
Proof. solve_decision. Defined.

(** [hal_logic_partition_t], what is filled in for a whole flash. *)
Record hal_logic_partition := HalPartition {
  partition_start_addr : Z;
  partition_length : Z;
  partition_options : Z
}.

(** [partition_info_t]; [flash_dev] tells whether the pointer is not NULL. *)
Record partition_info := PartitionInfo {
  description : list Z;
  base_addr : Z;
  start_addr : Z;
  plength : Z;
  sector_size : Z;
  idx : Z;
  flash_dev : bool;
  load_addr : Z;
  image_size : Z
}.

Definition set_flash_dev (d : bool) (p : partition_info) : partition_info :=
  PartitionInfo (description p) (base_addr p) (start_addr p) (plength p) (sector_size p)
    (idx p) d (load_addr p) (image_size p).

(** [sys_partition_info_t]. *)
Record sys_partition_info := SysPartition {
  image_name : list Z;
  part_addr : Z;
  part_size : Z;
  sys_load_addr : Z;
  sys_image_size : Z
}.

Definition MTB_IMAGE_NAME_SIZE : Z := 8.
Definition CONFIG_MAX_PARTITION_NUM : Z := 16.
Definition CONFIG_FLASH_NUM : Z := 1.

Section Partition.
Context `{SF : SpiFlash}.

(** Any other handle than the first whole flash indexes [hal_partitions] far behind
    its only element. *)
Definition hal_flash_info_get (h : hal_partition) (c : chip) : outcome (Z * option hal_logic_partition) :=
  match h with
  | HAL_ALL_FLASH_0 =>
      match spiflash_get_flash_info c with
      | None => Ret (-1, None)
      | Some i =>
          if decide (info_sector_size i = 0) then Crash
          else Ret (0, Some (HalPartition (xip_addr i) (flash_size i) (flash_size i / info_sector_size i)))
      end
  | _ => Crash
  end.

Definition hal_flash_erase (h : hal_partition) (off_set size : Z) (c : chip) : outcome (Z * chip) :=
  match h with
  | HAL_ALL_FLASH_0 =>
      match spiflash_get_flash_info c with
      | None => Ret (-1, c)
      | Some _ => let '(ret, c) := spiflash_erase c off_set size in
                  Ret (if decide (ret < 0) then -1 else 0, c)
      end
  | _ => Crash
  end.

Definition hal_flash_write (h : hal_partition) (off_set : Z) (buf : list Z) (c : chip) : outcome (Z * chip) :=
  match h with
  | HAL_ALL_FLASH_0 => Ret (0, (spiflash_program c off_set buf).2)
  | _ => Crash
  end.

Definition hal_flash_read (h : hal_partition) (off_set len : Z) (c : chip) : outcome (Z * list Z) :=
  match h with
  | HAL_ALL_FLASH_0 => let '(ret, d) := spiflash_read c off_set len in
                       Ret (if decide (u32 ret <> len) then -1 else 0, d)
  | _ => Crash
  end.

(** ** [partition_flash.c]: the default operations *)

Definition part_flash_open (id : Z) : hal_partition :=
  if decide (id = 1) then HAL_ALL_FLASH_1 else if decide (id = 2) then HAL_ALL_FLASH_2 else HAL_ALL_FLASH_0.

(** [info->start_addr], [sector_size] and [sector_count]. *)
Definition part_flash_info_get (handle : option hal_partition) (c : chip) : outcome (Z * option (Z * Z * Z)) :=
  match handle with
  | None => Ret (- EINVAL, None)
  | Some h =>
      '(rc, p) ← hal_flash_info_get h c;
      match p with
      | Some p =>
          if decide (partition_options p = 0) then Crash
          else Ret (0, Some (partition_start_addr p, partition_length p / partition_options p, partition_options p))
      | None => Ret (- EINVAL, None)
      end
  end.

(** The range test of reading, writing and erasing. *)
Definition part_in_range (p : hal_logic_partition) (addr len : Z) : bool :=
  negb (bool_decide (addr < partition_start_addr p) || bool_decide (partition_length p < len) ||
        bool_decide (u32 (partition_start_addr p + partition_length p) < u32 (addr + len))).

Definition part_flash_read (handle : option hal_partition) (addr len : Z) (c : chip) : outcome (Z * list Z) :=
  if decide (len = 0) then Ret (0, []) else
  match handle with
  | None => Ret (- EINVAL, [])
  | Some h =>
      '(rc, p) ← hal_flash_info_get h c;
      match p with
      | Some p => if part_in_range p addr len then hal_flash_read h (u32 (addr - partition_start_addr p)) len c
                  else Ret (- EINVAL, [])
      | None => Ret (- EINVAL, [])
      end
  end.

Definition part_flash_write (handle : option hal_partition) (addr : Z) (data : list Z) (c : chip)
    : outcome (Z * chip) :=
  if decide (zlen data = 0) then Ret (0, c) else
  match handle with
  | None => Ret (- EINVAL, c)
  | Some h =>
      '(rc, p) ← hal_flash_info_get h c;
      match p with
      | Some p => if part_in_range p addr (zlen data)
                  then hal_flash_write h (u32 (addr - partition_start_addr p)) data c
                  else Ret (- EINVAL, c)
      | None => Ret (- EINVAL, c)
      end
  end.

Definition part_flash_erase (handle : option hal_partition) (addr len : Z) (c : chip) : outcome (Z * chip) :=
  if decide (len = 0) then Ret (0, c) else
  match handle with
  | None => Ret (- EINVAL, c)
  | Some h =>
      '(rc, p) ← hal_flash_info_get h c;
      match p with
      | Some p => if part_in_range p addr len then hal_flash_erase h (u32 (addr - partition_start_addr p)) len c
                  else Ret (- EINVAL, c)
      | None => Ret (- EINVAL, c)
      end
  end.

(** ** The state of the two files

    [flash_ops] is [g_flash_ops[0]]: [None] before the default operations are
    registered, then the handle in its [hdl_mgr].  A [void *flash_dev] is NULL or the
    address of that [hdl_mgr], so a [bool]. *)
Record pworld := PWorld {
  scn_list : list partition_info;
  num : Z;
  part_init_ok : bool;
  flash_ops : option (option hal_partition);
  spi : chip
}.

Definition with_scn (l : list partition_info) (w : pworld) : pworld :=
  PWorld l (num w) (part_init_ok w) (flash_ops w) (spi w).
Definition with_num (n : Z) (w : pworld) : pworld :=
  PWorld (scn_list w) n (part_init_ok w) (flash_ops w) (spi w).
Definition with_ops (o : option (option hal_partition)) (w : pworld) : pworld :=
  PWorld (scn_list w) (num w) (part_init_ok w) o (spi w).
Definition with_spi (c : chip) (w : pworld) : pworld :=
  PWorld (scn_list w) (num w) (part_init_ok w) (flash_ops w) c.

Definition partition_flash_register_default (w : pworld) : pworld :=
  match flash_ops w with None => with_ops (Some None) w | Some _ => w end.

Definition partition_flash_open (id : Z) (w : pworld) : bool * pworld :=
  if decide (CONFIG_FLASH_NUM - 1 < id) then (false, w) else
  match flash_ops w with
  | Some _ => (true, with_ops (Some (Some (part_flash_open id))) w)
  | None => (false, w)
  end.

(** [_get_handle_id] and the operation behind it. *)
Definition get_handle (dev : bool) (hd : option hal_partition) : option hal_partition :=
  if dev then hd else None.

Definition partition_flash_info_get (dev : bool) (w : pworld) : outcome (Z * option (Z * Z * Z)) :=
  match flash_ops w with
  | Some hd => part_flash_info_get (get_handle dev hd) (spi w)
  | None => Ret (-1, None)
  end.

Definition partition_flash_read (dev : bool) (addr len : Z) (w : pworld) : outcome (Z * list Z) :=
  if decide (len = 0) then Ret (0, []) else
  match flash_ops w with
  | Some hd => part_flash_read (get_handle dev hd) addr len (spi w)
  | None => Ret (-1, [])
  end.

Definition partition_flash_write (dev : bool) (addr : Z) (data : list Z) (w : pworld) : outcome (Z * pworld) :=
  if decide (zlen data = 0) then Ret (0, w) else
  match flash_ops w with
  | Some hd => '(ret, c) ← part_flash_write (get_handle dev hd) addr data (spi w); Ret (ret, with_spi c w)
  | None => Ret (-1, w)
  end.

Definition partition_flash_erase (dev : bool) (addr len : Z) (w : pworld) : outcome (Z * pworld) :=
  if decide (len = 0) then Ret (0, w) else
  match flash_ops w with
  | Some hd => '(ret, c) ← part_flash_erase (get_handle dev hd) addr len (spi w); Ret (ret, with_spi c w)
  | None => Ret (-1, w)
  end.

(** ** [partition.c] *)

(** The entry written for one listed partition. *)
Definition scn_of (f_start f_sector flash_idx : Z) (s : sys_partition_info) (old : partition_info) : partition_info :=
  PartitionInfo (image_name s) f_start (u32 (part_addr s - f_start)) (u32 (part_size s)) f_sector flash_idx
    (flash_dev old) (u32 (sys_load_addr s)) (sys_image_size s).

(** The loop over the listed partitions of one flash; [None] is [goto failure].  The
    addresses are 64-bit here. *)
Fixpoint init_scns (f_start f_sector f_count flash_idx : Z) (i : nat) (l : list sys_partition_info) (w : pworld)
    : option pworld * pworld :=
  match l with
  | [] => (Some w, w)
  | s :: l =>
      if decide (f_start <= part_addr s /\
                 (part_addr s + part_size s) mod 2 ^ 64 <= u32 (f_start + f_sector * f_count)) then
        match scn_list w !! i with
        | Some old =>
            let w := if decide (sector_size old = 0) then with_num (u8 (num w + 1)) w else w in
            let scn := scn_of f_start f_sector flash_idx s old in
            let w := with_scn (<[i := scn]> (scn_list w)) w in
            if decide (plength scn <> 0 /\ sector_size scn <> 0 /\ description scn !! O <> Some 0)
            then init_scns f_start f_sector f_count flash_idx (S i) l w
            else (None, w)
        | None => (None, w)
        end
      else init_scns f_start f_sector f_count flash_idx (S i) l w
  end.

(** [partition_init]: [parts] is what [mtb_init] and [get_sys_partition] give, [None]
    for an error. *)
Definition partition_init (parts : option (list sys_partition_info)) (w : pworld) : outcome (Z * pworld) :=
  if part_init_ok w then Ret (num w, w) else
  let w := partition_flash_register_default w in
  match parts with
  | None => Ret (-1, w)
  | Some l =>
      if decide (CONFIG_MAX_PARTITION_NUM < zlen l) then Ret (-1, w) else
      let '(dev, w) := partition_flash_open 0 w in
      '(_, info) ← partition_flash_info_get dev w;
      match info with
      | Some (f_start, f_sector, f_count) =>
          match init_scns f_start f_sector f_count 0 0 l w with
          | (Some w, _) => Ret (num w, PWorld (scn_list w) (num w) true (flash_ops w) (spi w))
          | (None, w) => Ret (-1, w)
          end
      | None => Ret (num w, PWorld (scn_list w) (num w) true (flash_ops w) (spi w))
      end
  end.

(** [partition_info_get] and its alias [hal_flash_get_info]: the entry when it is
    open. *)
Definition partition_info_get (partition : Z) (w : pworld) : option partition_info :=
  if decide (0 <= partition < num w) then
    match scn_list w !! Z.to_nat partition with
    | Some p => if flash_dev p then Some p else None
    | None => None
    end
  else None.

(** [memcmp(name, description, len) == 0] with [len] the length of the name, at
    most 8. *)
Definition name_matches (name desc : list Z) : bool :=
  let len := Z.min (zlen name) MTB_IMAGE_NAME_SIZE in bool_decide (ztake len name = ztake len desc).

(** The first of the [n] entries from index [i] on whose name starts with [name]. *)
Fixpoint open_loop (n : nat) (i : nat) (name : list Z) (w : pworld) : Z * pworld :=
  match n with
  | O => (- EINVAL, w)
  | S n =>
      match scn_list w !! i with
      | Some p =>
          if name_matches name (description p) then
            if flash_dev p then (Z.of_nat i, w)
            else let '(dev, w) := partition_flash_open (idx p) w in
                 (Z.of_nat i, with_scn (<[i := set_flash_dev dev p]> (scn_list w)) w)
          else open_loop n (S i) name w
      | None => (- EINVAL, w)
      end
  end.

Definition partition_open (name : list Z) (w : pworld) : Z * pworld :=
  open_loop (Z.to_nat (num w)) 0 name w.

Definition partition_close (partition : Z) (w : pworld) : pworld :=
  match partition_info_get partition w with
  | Some p => with_scn (<[Z.to_nat partition := set_flash_dev false p]> (scn_list w)) w
  | None => w
  end.

Definition abs_addr (p : partition_info) (off_set : Z) : Z := u32 (base_addr p + start_addr p + off_set).

Definition partition_read (partition off_set size : Z) (w : pworld) : outcome (Z * list Z) :=
  if decide (size = 0) then Ret (0, []) else
  if decide (off_set < 0) then Ret (- EINVAL, []) else
  match partition_info_get partition w with
  | Some node =>
      if decide (u32 (off_set + size) <= plength node)
      then partition_flash_read (flash_dev node) (abs_addr node off_set) size w
      else Ret (- EINVAL, [])
  | None => Ret (- EINVAL, [])
  end.

Definition partition_write (partition off_set : Z) (data : list Z) (w : pworld) : outcome (Z * pworld) :=
  if decide (zlen data = 0) then Ret (0, w) else
  if decide (off_set < 0) then Ret (- EINVAL, w) else
  match partition_info_get partition w with
  | Some node =>
      if decide (u32 (off_set + zlen data) <= plength node)
      then partition_flash_write (flash_dev node) (abs_addr node off_set) data w
      else Ret (- EINVAL, w)
  | None => Ret (- EINVAL, w)
  end.

Definition partition_erase (partition off_set block_count : Z) (w : pworld) : outcome (Z * pworld) :=
  if decide (block_count = 0) then Ret (0, w) else
  if decide (off_set < 0) then Ret (- EINVAL, w) else
  match partition_info_get partition w with
  | Some node =>
      if decide (sector_size node = 0) then Crash
      else if decide (u32 (off_set / sector_size node + block_count) <= plength node / sector_size node)
      then partition_flash_erase (flash_dev node) (abs_addr node off_set) (u32 (block_count * sector_size node)) w
      else Ret (- EINVAL, w)
  | None => Ret (- EINVAL, w)
  end.

End Partition.
Arguments pworld {SF}.
Arguments PWorld {SF}.
