(* ===== verification/PartitionProofs.v ===== *)
(** * Flash partitions: each partition is a NOR flash of its own

    What the partition layer relies on from the chip driver ([SpiReads], [SpiNor]),
    and that reading, programming and erasing through a handle act on the handle's
    stretch of the chip alone, as on a NOR flash of the partition's length. *)

From S2P Require Import Prelude Nor Partition.

(** ** The chip *)

(** A chip that reports its geometry and is read correctly. *)
Class SpiReads `{SF : SpiFlash} := {
  spi_cells : chip -> list Z;
  spi_xip : Z;
  spi_sector : Z;
  spi_sector_pos : 0 < spi_sector;
  spi_xip_pos : 0 <= spi_xip;
  spi_size : Z;
  spi_len : forall c, zlen (spi_cells c) = spi_size;
  spi_below : spi_xip + spi_size < 2 ^ 31;
  spi_info : forall c, spiflash_get_flash_info c = Some (SpiInfo spi_size spi_xip spi_sector);
  spi_read_ok : forall c off n, 0 <= off -> 0 < n -> off + n <= zlen (spi_cells c) ->
    spiflash_read c off n = (n, ztake n (zdrop off (spi_cells c)))
}.

(** A chip that also programs and erases as NOR flash does. *)
Class SpiNor `{SR : SpiReads} := {
  spi_program_ok : forall c off d, 0 <= off -> off + zlen d <= zlen (spi_cells c) ->
    spi_cells (spiflash_program c off d).2 = nor_write (spi_cells c) off d;
  spi_erase_ok : forall c off n, 0 <= off -> off mod spi_sector = 0 -> 0 < n -> n mod spi_sector = 0 ->
    off + n <= zlen (spi_cells c) ->
    0 <= (spiflash_erase c off n).1 /\
    spi_cells (spiflash_erase c off n).2
    = ztake off (spi_cells c) ++ erased n ++ zdrop (off + n) (spi_cells c)
}.

(** ** Slices *)

Lemma slice_slice {A} (l : list A) a n o m :
  0 <= a -> 0 <= o -> 0 <= m -> o + m <= n ->
  ztake m (zdrop o (ztake n (zdrop a l))) = ztake m (zdrop (a + o) l).
Proof.
  intros Ha Ho Hm Hn. unfold ztake, zdrop.
  rewrite (take_drop_commute (take _ _)), take_take, Nat.min_l by lia.
  rewrite <- take_drop_commute, drop_drop. f_equal. f_equal. lia.
Qed.

Lemma split_at {A} (l : list A) a n :
  0 <= a -> 0 <= n -> a + n <= zlen l ->
  exists p q, l = p ++ ztake n (zdrop a l) ++ q /\ zlen p = a /\ zlen (ztake n (zdrop a l)) = n.
Proof.
  intros Ha Hn Hl. exists (ztake a l), (zdrop n (zdrop a l)).
  rewrite !ztake_zdrop. rewrite !zlen_ztake; rewrite ?zlen_zdrop; lia || done.
Qed.

Lemma slice_here {A} (p c q : list A) a n : zlen p = a -> zlen c = n -> ztake n (zdrop a (p ++ c ++ q)) = c.
Proof. intros Hp Hc. rewrite zdrop_app_exact by done. by apply ztake_app_exact. Qed.

Lemma slice_front {A} (a l : list A) o n :
  0 <= o -> 0 <= n -> o + n <= zlen a -> ztake n (zdrop o (a ++ l)) = ztake n (zdrop o a).
Proof.
  intros. unfold ztake, zdrop, zlen in *. rewrite drop_app_le, take_app_le by (rewrite ?length_drop; lia). done.
Qed.

Lemma slice_back {A} (a l : list A) o n : zlen a <= o -> ztake n (zdrop o (a ++ l)) = ztake n (zdrop (o - zlen a) l).
Proof.
  intros. unfold ztake, zdrop, zlen in *. rewrite drop_app_ge by lia. do 2 f_equal. lia.
Qed.

Section Chip.
Context `{SR : SpiReads}.

Lemma spi_small c : spi_xip + zlen (spi_cells c) < 2 ^ 31.
Proof. rewrite spi_len. apply spi_below. Qed.

(** The partition lies on the chip, in whole sectors. *)
Record on_chip (p : partition_info) (c : chip) : Prop := OnChip {
  oc_base : base_addr p = spi_xip;
  oc_sector : sector_size p = spi_sector;
  oc_start : 0 <= start_addr p;
  oc_start_sector : start_addr p mod spi_sector = 0;
  oc_length : 0 < plength p;
  oc_length_sector : plength p mod spi_sector = 0;
  oc_end : start_addr p + plength p <= zlen (spi_cells c)
}.

Lemma on_chip_any p c c' : on_chip p c -> on_chip p c'.
Proof. intros []. split; try done. by rewrite spi_len in *. Qed.

#[export] Instance on_chip_dec p c : Decision (on_chip p c).
Proof.
  refine (cast_if (decide (base_addr p = spi_xip /\ sector_size p = spi_sector /\ 0 <= start_addr p /\
    start_addr p mod spi_sector = 0 /\ 0 < plength p /\ plength p mod spi_sector = 0 /\
    start_addr p + plength p <= zlen (spi_cells c)))).
  - abstract (destruct_and?; by split).
  - abstract (by intros []; match goal with H : ~ _ |- _ => apply H end; split_and!).
Defined.

(** The handle [h] is open on partition [p]. *)
Definition opened (h : Z) (p : partition_info) (w : pworld) : Prop :=
  partition_info_get h w = Some p /\ flash_ops w = Some (Some HAL_ALL_FLASH_0) /\ on_chip p (spi w).

(** What partition [p] holds. *)
Definition region (p : partition_info) (c : chip) : list Z := ztake (plength p) (zdrop (start_addr p) (spi_cells c)).

(** Only the cells of [p] differ. *)
Definition only_region (p : partition_info) (c c' : chip) : Prop :=
  ztake (start_addr p) (spi_cells c') = ztake (start_addr p) (spi_cells c) /\
  zdrop (start_addr p + plength p) (spi_cells c') = zdrop (start_addr p + plength p) (spi_cells c) /\
  zlen (spi_cells c') = zlen (spi_cells c).

#[export] Instance only_region_refl p : Reflexive (only_region p).
Proof. done. Qed.

#[export] Instance only_region_trans p : Transitive (only_region p).
Proof. intros a b c (A1 & A2 & A3) (B1 & B2 & B3). split; [|split]; congruence. Qed.

Lemma info_get_flash_dev h p w : partition_info_get h w = Some p -> flash_dev p = true.
Proof.
  unfold partition_info_get. case_decide; [|done]. destruct (_ !! _) as [p'|]; [|done].
  destruct (flash_dev p') eqn:E; [|done]. by intros [= <-].
Qed.

Lemma region_len p c : on_chip p c -> zlen (region p c) = plength p.
Proof.
  intros []. unfold region. rewrite zlen_ztake; [done|]. rewrite zlen_zdrop by lia. lia.
Qed.

(** Replacing the cells of the partition. *)
Lemma region_replace p c c' l :
  on_chip p c -> zlen l = plength p ->
  spi_cells c' = ztake (start_addr p) (spi_cells c) ++ l ++ zdrop (start_addr p + plength p) (spi_cells c) ->
  region p c' = l /\ only_region p c c'.
Proof.
  intros [] Hl E.
  assert (zlen (ztake (start_addr p) (spi_cells c)) = start_addr p) as Hp by (rewrite zlen_ztake; lia).
  unfold region, only_region. rewrite E. split; [by apply slice_here|].
  split; [by rewrite ztake_app_exact|]. split.
  - rewrite app_assoc. apply zdrop_app_exact. rewrite zlen_app. lia.
  - rewrite !zlen_app, zlen_zdrop by lia. lia.
Qed.

(** Two partitions without a common cell; changing one leaves the other. *)
Definition apart (p q : partition_info) : Prop :=
  start_addr q + plength q <= start_addr p \/ start_addr p + plength p <= start_addr q.

Lemma region_apart p q c c' :
  on_chip p c -> on_chip q c -> apart p q -> only_region p c c' -> region q c' = region q c.
Proof.
  intros [] [] Hap (Hl & Hr & Hlen). unfold region.
  destruct Hap as [Hap|Hap].
  - assert (forall l : list Z, ztake (plength q) (zdrop (start_addr q) l)
                          = ztake (plength q) (zdrop (start_addr q) (ztake (start_addr p) l))) as E.
    { intros l. pose proof (slice_slice l 0 (start_addr p) (start_addr q) (plength q)) as Hs.
      rewrite zdrop_0 in Hs. rewrite Hs by lia. by rewrite Z.add_0_l. }
    by rewrite (E (spi_cells c')), (E (spi_cells c)), Hl.
  - unfold ztake, zdrop in *. f_equal.
    replace (Z.to_nat (start_addr q)) with
      (Z.to_nat (start_addr p + plength p) + Z.to_nat (start_addr q - (start_addr p + plength p)))%nat by lia.
    by rewrite <- !drop_drop, Hr.
Qed.

(** ** Opening by name *)

(** [p], at index [i], is the first partition whose name starts with [name]. *)
Definition first_named (name : list Z) (i : nat) (p : partition_info) (w : pworld) : Prop :=
  scn_list w !! i = Some p /\ Z.of_nat i < num w /\ name_matches name (description p) = true /\
  forall j q, (j < i)%nat -> scn_list w !! j = Some q -> name_matches name (description q) = false.

(** The partition layer is initialised and [p] is an entry for its chip. *)
Definition ready (p : partition_info) (w : pworld) : Prop :=
  is_Some (flash_ops w) /\ (flash_dev p = true -> flash_ops w = Some (Some HAL_ALL_FLASH_0)) /\
  idx p = 0 /\ on_chip p (spi w).

Lemma open_loop_spec name i0 p w n i :
  scn_list w !! i0 = Some p -> name_matches name (description p) = true ->
  (forall j q, (j < i0)%nat -> scn_list w !! j = Some q -> name_matches name (description q) = false) ->
  (i <= i0 < i + n)%nat -> open_loop n i name w = open_loop 1 i0 name w.
Proof.
  intros Hp Hm Hf. revert i. induction n as [|n IH]; intros i Hi; [lia|].
  destruct (decide (i = i0)) as [->|]; [cbn [open_loop]; rewrite Hp, Hm; done|].
  destruct (lookup_lt_is_Some_2 (scn_list w) i) as [q Hq]; [apply lookup_lt_Some in Hp; lia|].
  transitivity (open_loop n (S i) name w); [|apply IH; lia].
  cbn [open_loop]. by rewrite Hq, (Hf i q) by (done || lia).
Qed.

Lemma partition_open_spec name i p w :
  first_named name i p w -> ready p w ->
  exists w', partition_open name w = (Z.of_nat i, w') /\ opened (Z.of_nat i) (set_flash_dev true p) w' /\
    spi w' = spi w /\ scn_list w' = <[i := set_flash_dev true p]> (scn_list w) /\ num w' = num w.
Proof.
  intros (Hp & Hi & Hm & Hf) ([ops Hops] & Hdev & Hidx & Hon). unfold partition_open.
  rewrite (open_loop_spec name i p w) by (done || lia). cbn [open_loop]. rewrite Hp, Hm.
  pose proof (lookup_lt_Some _ _ _ Hp).
  assert (on_chip (set_flash_dev true p) (spi w)) as Hon' by (destruct Hon; by split).
  destruct (flash_dev p) eqn:Ed.
  - assert (set_flash_dev true p = p) as Es by (destruct p; cbn in *; by subst).
    exists w. split; [done|]. rewrite Es in *. split_and!; [|done|by rewrite list_insert_id|done].
    split; [|by auto]. unfold partition_info_get. by rewrite decide_True, Nat2Z.id, Hp, Ed by lia.
  - unfold partition_flash_open. rewrite Hidx, Hops, decide_False by (unfold CONFIG_FLASH_NUM; lia). change (part_flash_open 0) with HAL_ALL_FLASH_0.
    eexists. split; [done|]. split; [|done]. split; [|done].
    unfold partition_info_get. cbn [scn_list num with_scn with_ops]. rewrite decide_True, Nat2Z.id by lia.
    by rewrite list_lookup_insert_eq.
Qed.

(** Partition [p] is what [name] opens, at index [i]; open or not. *)
Definition part_at (name : list Z) (i : nat) (p : partition_info) (w : pworld) : Prop :=
  exists dev, first_named name i (set_flash_dev dev p) w /\ ready (set_flash_dev dev p) w.

Lemma part_on_chip name i p w c : part_at name i p w -> on_chip p c.
Proof. intros (dev & _ & _ & _ & _ & Hon). eapply on_chip_any. destruct Hon. by split. Qed.

(** Opening the partition; closing it again from any chip state. *)
Lemma part_open name i p w :
  part_at name i p w ->
  exists w1, partition_open name w = (Z.of_nat i, w1) /\
    (opened (Z.of_nat i) (set_flash_dev true p) w1 /\ part_at name i p w1) /\
    spi w1 = spi w /\
    forall c, part_at name i p (partition_close (Z.of_nat i) (with_spi c w1)) /\
              spi (partition_close (Z.of_nat i) (with_spi c w1)) = c.
Proof.
  intros (dev & Hf & Hr). destruct (partition_open_spec _ _ _ _ Hf Hr) as (w1 & Eo & Ho & Hspi & Hscn & Hnum).
  exists w1. split; [done|]. destruct Hf as (Hi & Hlt & Hm & Hfirst). pose proof (lookup_lt_Some _ _ _ Hi).
  destruct Hr as (_ & _ & Hidx & _). destruct Ho as (Hg & Hops & Hon).
  assert (forall dev' c ops, (dev' = true -> ops = Some (Some HAL_ALL_FLASH_0)) -> is_Some ops ->
    part_at name i p (PWorld (<[i := set_flash_dev dev' p]> (scn_list w)) (num w) (part_init_ok w1) ops c)) as Hany.
  { intros dev' c ops Hops' Hsome. exists dev'. split; [|split_and!; [done|done|done|]].
    - unfold first_named. cbn [scn_list num]. split_and!; [by rewrite list_lookup_insert_eq|done|done|].
      intros j q Hj. rewrite list_lookup_insert_ne by lia. by apply Hfirst.
    - eapply on_chip_any. destruct Hon. by split. }
  split; [split; [by split_and!|]|split; [done|]].
  - destruct w1. cbn in *. subst. by apply (Hany true).
  - intros c. unfold partition_close.
    change (partition_info_get (Z.of_nat i) (with_spi c w1)) with (partition_info_get (Z.of_nat i) w1).
    rewrite Hg, Nat2Z.id. split; [|done]. unfold with_scn, with_spi. cbn [scn_list num part_init_ok flash_ops spi].
    rewrite Hscn, list_insert_insert_eq, Hnum, Hops. by apply (Hany false).
Qed.

(** Opening and closing one partition leaves the others as they were. *)
Lemma part_open_other name j q w w1 name' i p c :
  part_at name j q w -> partition_open name w = (Z.of_nat j, w1) -> i <> j ->
  part_at name' i p w -> part_at name' i p (partition_close (Z.of_nat j) (with_spi c w1)).
Proof.
  intros (dev & Hf & Hr) Eo Hij (dev' & (Hi & Hlt & Hm & Hfirst) & _ & Hdev & Hidx & Hon).
  destruct (partition_open_spec _ _ _ _ Hf Hr) as (w1' & Eo' & Ho & _ & Hscn & Hnum).
  rewrite Eo in Eo'. injection Eo' as <-. destruct Hf as (Hj & _). destruct Ho as (Hg & Hops & _).
  unfold partition_close.
  change (partition_info_get (Z.of_nat j) (with_spi c w1)) with (partition_info_get (Z.of_nat j) w1).
  rewrite Hg, Nat2Z.id. exists dev'. unfold first_named, ready, with_scn, with_spi. cbn [scn_list num flash_ops spi].
  rewrite Hscn, list_insert_insert_eq, Hnum, Hops, list_lookup_insert_ne by done.
  split_and!; [done|done|done| |done|done|done|by eapply on_chip_any].
  intros k q' Hk Hq'. destruct (decide (k = j)) as [->|].
  - rewrite list_lookup_insert_eq in Hq' by (by eapply lookup_lt_Some). injection Hq' as <-.
    exact (Hfirst j _ Hk Hj).
  - rewrite list_lookup_insert_ne in Hq' by done. by apply (Hfirst k).
Qed.

(** The chip's own information, as the layers above see it. *)
Lemma info_of_chip c :
  hal_flash_info_get HAL_ALL_FLASH_0 c
  = Ret (0, Some (HalPartition spi_xip (zlen (spi_cells c)) (zlen (spi_cells c) / spi_sector))).
Proof.
  unfold hal_flash_info_get. rewrite spi_info, spi_len. cbn. pose proof spi_sector_pos.
  by rewrite decide_False by lia.
Qed.

Lemma in_range_true p c off n :
  on_chip p c -> 0 <= off -> 0 < n -> off + n <= plength p ->
  part_in_range (HalPartition spi_xip (zlen (spi_cells c)) (zlen (spi_cells c) / spi_sector)) (abs_addr p off) n
  = true.
Proof.
  intros [] Ho Hn Hle. pose proof (spi_small c). pose proof spi_xip_pos.
  unfold part_in_range, abs_addr. cbn [partition_start_addr partition_length].
  rewrite oc_base0, !u32_id by (rewrite ?u32_id by lia; lia).
  rewrite !bool_decide_eq_false_2 by lia. done.
Qed.

Lemma in_range_false p c off n :
  on_chip p c -> 0 <= off < 2 ^ 31 -> zlen (spi_cells c) < n ->
  part_in_range (HalPartition spi_xip (zlen (spi_cells c)) (zlen (spi_cells c) / spi_sector)) (abs_addr p off) n
  = false.
Proof.
  intros [] Ho Hn. unfold part_in_range. cbn [partition_start_addr partition_length].
  rewrite (bool_decide_eq_true_2 (zlen (spi_cells c) < n)) by lia. by rewrite orb_true_r.
Qed.

Lemma chip_offset p c off :
  on_chip p c -> 0 <= off <= plength p -> u32 (abs_addr p off - spi_xip) = start_addr p + off.
Proof.
  intros [] Ho. pose proof (spi_small c). pose proof spi_xip_pos.
  unfold abs_addr. rewrite oc_base0, !u32_id by (rewrite ?u32_id by lia; lia). lia.
Qed.

(** ** Reading *)

Lemma partition_read_spec h p w off n :
  opened h p w -> 0 <= off < 2 ^ 31 -> 0 <= n < 2 ^ 32 ->
  partition_read h off n w
  = Ret (if decide (n = 0) then (0, [])
         else if decide (off + n <= plength p) then (0, ztake n (zdrop off (region p (spi w))))
         else (- EINVAL, [])).
Proof.
  intros (Hg & Hops & Hon) Ho Hn. pose proof (spi_small (spi w)). pose proof spi_xip_pos.
  assert (Hon' := Hon). destruct Hon' as [_ _ ? _ ? _ ?].
  unfold partition_read, partition_flash_read, part_flash_read, region.
  destruct (decide (n = 0)); [done|]. rewrite (decide_False (P := off < 0)) by lia.
  rewrite Hg, Hops, (info_get_flash_dev _ _ _ Hg). cbn [get_handle].
  rewrite info_of_chip. cbn [mbind outcome_bind partition_start_addr].
  destruct (decide (off + n <= plength p)).
  - rewrite u32_id, decide_True, in_range_true by (done || lia).
    rewrite (chip_offset p (spi w)) by (done || lia). unfold hal_flash_read.
    rewrite spi_read_ok, decide_False by (rewrite ?u32_id; lia).
    rewrite slice_slice by lia. done.
  - destruct (decide (u32 (off + n) <= plength p)) as [Hw|]; [|done].
    rewrite in_range_false; [done|done|lia|].
    unfold u32 in Hw. destruct (decide (off + n < 2 ^ 32)); [rewrite Z.mod_small in Hw; lia|lia].
Qed.

(** ** Programming and erasing: which calls of the driver they make *)

Lemma partition_write_spec h p w off d :
  opened h p w -> 0 <= off < 2 ^ 31 -> zlen d < 2 ^ 32 ->
  partition_write h off d w
  = Ret (if decide (zlen d = 0) then (0, w)
         else if decide (off + zlen d <= plength p)
         then (0, with_spi (spiflash_program (spi w) (start_addr p + off) d).2 w)
         else (- EINVAL, w)).
Proof.
  intros (Hg & Hops & Hon) Ho Hd. pose proof (zlen_nonneg d). pose proof (spi_small (spi w)). pose proof spi_xip_pos.
  assert (Hon' := Hon). destruct Hon' as [_ _ ? _ ? _ ?].
  unfold partition_write, partition_flash_write, part_flash_write.
  destruct (decide (zlen d = 0)); [done|]. rewrite (decide_False (P := off < 0)) by lia.
  rewrite Hg, Hops, (info_get_flash_dev _ _ _ Hg). cbn [get_handle].
  rewrite info_of_chip. cbn [mbind outcome_bind partition_start_addr].
  destruct (decide (off + zlen d <= plength p)).
  - rewrite u32_id, decide_True, in_range_true by (done || lia).
    rewrite (chip_offset p (spi w)) by (done || lia). done.
  - destruct (decide (u32 (off + zlen d) <= plength p)) as [Hw|]; [|done].
    rewrite in_range_false; [by destruct w|done|lia|].
    unfold u32 in Hw. destruct (decide (off + zlen d < 2 ^ 32)); [rewrite Z.mod_small in Hw; lia|lia].
Qed.

(** Whole sectors fit exactly when their number does. *)
Lemma sectors_fit o k l :
  0 <= o -> o mod spi_sector = 0 -> l mod spi_sector = 0 ->
  o / spi_sector + k <= l / spi_sector <-> o + k * spi_sector <= l.
Proof.
  intros Ho Hom Hlm. pose proof spi_sector_pos.
  assert (o = spi_sector * (o / spi_sector)) as Eo by (rewrite (Z.div_mod o spi_sector) at 1; lia).
  assert (l = spi_sector * (l / spi_sector)) as El by (rewrite (Z.div_mod l spi_sector) at 1; lia).
  rewrite Eo at 2. rewrite El at 2. nia.
Qed.

Lemma partition_erase_spec h p w off k :
  opened h p w -> 0 <= off < 2 ^ 31 -> off mod spi_sector = 0 -> 0 <= k < 2 ^ 32 ->
  partition_erase h off k w
  = Ret (if decide (k = 0) then (0, w)
         else if decide (off + k * spi_sector <= plength p)
         then let r := spiflash_erase (spi w) (start_addr p + off) (k * spi_sector) in
              (if decide (r.1 < 0) then -1 else 0, with_spi r.2 w)
         else (- EINVAL, w)).
Proof.
  intros (Hg & Hops & Hon) Ho Hom Hk. pose proof (spi_small (spi w)). pose proof spi_xip_pos. pose proof spi_sector_pos.
  assert (Hon' := Hon). destruct Hon' as [_ Hsec ? _ ? Hlm ?].
  unfold partition_erase, partition_flash_erase, part_flash_erase.
  destruct (decide (k = 0)); [done|]. rewrite (decide_False (P := off < 0)) by lia.
  rewrite Hg, Hops, (info_get_flash_dev _ _ _ Hg), Hsec, (decide_False (P := spi_sector = 0)) by lia.
  cbn [get_handle]. pose proof (sectors_fit off k (plength p) ltac:(lia) Hom Hlm) as Hfit.
  assert (0 <= off / spi_sector) by (apply Z.div_pos; lia).
  destruct (decide (off + k * spi_sector <= plength p)) as [Hin|Hout].
  - assert (0 < k * spi_sector) by nia. assert (plength p / spi_sector <= plength p) by (apply Z.div_le_upper_bound; nia).
    rewrite (u32_id (off / spi_sector + k)), decide_True by lia.
    rewrite (u32_id (k * spi_sector)), decide_False by lia.
    rewrite info_of_chip. cbn [mbind outcome_bind partition_start_addr].
    rewrite in_range_true, (chip_offset p (spi w)) by (done || lia).
    unfold hal_flash_erase. rewrite spi_info. rewrite decide_False by lia. by destruct (spiflash_erase _ _ _).
  - destruct (decide (u32 (off / spi_sector + k) <= plength p / spi_sector)) as [Hw|]; [|done].
    (* the sum wrapped, so the length is above half the address space *)
    destruct (decide (off / spi_sector + k < 2 ^ 32)) as [Hlt|Hge]; [rewrite u32_id in Hw; lia|].
    assert (off / spi_sector * spi_sector <= off) by (rewrite Z.mul_comm; apply Z.mul_div_le; lia).
    assert (u32 (k * spi_sector) = 2 ^ 32 - (2 ^ 32 - k) * spi_sector) as ->.
    { unfold u32. symmetry. apply (Z.mod_unique _ _ (spi_sector - 1)); [left; nia|lia]. }
    rewrite decide_False by nia. rewrite info_of_chip. cbn [mbind outcome_bind].
    rewrite in_range_false; [rewrite decide_False by nia; by destruct w|done|lia|nia].
Qed.

End Chip.

(** ** The partition as a NOR flash *)

Section Nor.
Context `{SN : SpiNor}.

Lemma region_program p c off d :
  on_chip p c -> 0 <= off -> off + zlen d <= plength p ->
  region p (spiflash_program c (start_addr p + off) d).2 = nor_write (region p c) off d /\
  only_region p c (spiflash_program c (start_addr p + off) d).2.
Proof.
  intros Hon Ho Hd. assert (Hon' := Hon). destruct Hon' as [_ _ Hs _ Hl _ He]. pose proof (zlen_nonneg d).
  apply region_replace; [done| |].
  - rewrite nor_write_length; rewrite ?region_len; done || lia.
  - rewrite spi_program_ok by lia. unfold region.
    destruct (split_at (spi_cells c) (start_addr p) (plength p)) as (a & q & E & Ha & Hm); [lia..|].
    set (m := ztake (plength p) (zdrop (start_addr p) (spi_cells c))) in *. rewrite E.
    rewrite <- Ha at 1. rewrite nor_write_inside by lia. rewrite ztake_app_exact by done.
    do 2 f_equal. rewrite app_assoc. symmetry. apply zdrop_app_exact. rewrite zlen_app. lia.
Qed.

Lemma region_erase p c off n :
  on_chip p c -> 0 <= off -> off mod spi_sector = 0 -> 0 < n -> n mod spi_sector = 0 -> off + n <= plength p ->
  0 <= (spiflash_erase c (start_addr p + off) n).1 /\
  region p (spiflash_erase c (start_addr p + off) n).2
  = ztake off (region p c) ++ erased n ++ zdrop (off + n) (region p c) /\
  only_region p c (spiflash_erase c (start_addr p + off) n).2.
Proof.
  intros Hon Ho Hom Hn Hnm Hd. assert (Hon' := Hon). destruct Hon' as [_ _ Hs Hsm Hl _ He].
  pose proof spi_sector_pos.
  destruct (spi_erase_ok c (start_addr p + off) n) as [Hr Hc];
    [lia|by rewrite Z.add_mod, Hsm, Hom by lia|lia|done|lia|]. split; [done|].
  apply region_replace; [done| |].
  - rewrite !zlen_app, zlen_erased, zlen_ztake, zlen_zdrop by (rewrite ?region_len; done || lia).
    rewrite region_len by done. lia.
  - rewrite Hc. unfold region.
    destruct (split_at (spi_cells c) (start_addr p) (plength p)) as (a & q & E & Ha & Hm); [lia..|].
    set (m := ztake (plength p) (zdrop (start_addr p) (spi_cells c))) in *. rewrite E.
    rewrite (ztake_app_exact (start_addr p)) by done.
    assert (zdrop (start_addr p + plength p) (a ++ m ++ q) = q) as ->
      by (rewrite app_assoc; apply zdrop_app_exact; rewrite zlen_app; lia).
    assert (ztake (start_addr p + off) (a ++ m ++ q) = a ++ ztake off m) as ->.
    { unfold ztake, zlen in *. rewrite <- Ha, Z2Nat.inj_add, Nat2Z.id, take_app_add by lia.
      rewrite take_app_le by lia. done. }
    assert (zdrop (start_addr p + off + n) (a ++ m ++ q) = zdrop (off + n) m ++ q) as ->.
    { unfold zdrop, zlen in *. rewrite <- Ha, <- Z.add_assoc, Z2Nat.inj_add, Nat2Z.id, drop_app_add by lia.
      rewrite drop_app_le by lia. done. }
    by norm_app.
Qed.

End Nor.

(** ** One operation through a handle *)

Inductive part_op :=
| PRead (off n : Z)
| PWrite (off : Z) (d : list Z)
| PErase (off k : Z).

Definition run_op `{SF : SpiFlash} (h : Z) (o : part_op) (w : pworld) : outcome (Z * list Z * pworld) :=
  match o with
  | PRead off n => '(r, d) ← partition_read h off n w; Ret (r, d, w)
  | PWrite off d => '(r, w) ← partition_write h off d w; Ret (r, [], w)
  | PErase off k => '(r, w) ← partition_erase h off k w; Ret (r, [], w)
  end.

(** Arguments the C types can hold; erasing starts at a sector. *)
Definition op_typed (s : Z) (o : part_op) : Prop :=
  match o with
  | PRead off n => 0 <= off < 2 ^ 31 /\ 0 < n < 2 ^ 32
  | PWrite off d => 0 <= off < 2 ^ 31 /\ 0 < zlen d < 2 ^ 32
  | PErase off k => 0 <= off < 2 ^ 31 /\ off mod s = 0 /\ 0 < k < 2 ^ 32
  end.

(** The same operation on a NOR flash with contents [l] and sectors of [s] bytes:
    the result, the bytes read, the contents afterwards. *)
Definition op_spec (s : Z) (o : part_op) (l : list Z) : Z * list Z * list Z :=
  match o with
  | PRead off n => if decide (off + n <= zlen l) then (0, ztake n (zdrop off l), l) else (- EINVAL, [], l)
  | PWrite off d => if decide (off + zlen d <= zlen l) then (0, [], nor_write l off d) else (- EINVAL, [], l)
  | PErase off k =>
      if decide (off + k * s <= zlen l)
      then (0, [], ztake off l ++ erased (k * s) ++ zdrop (off + k * s) l) else (- EINVAL, [], l)
  end.

Section Isolation.
Context `{SN : SpiNor}.


End Isolation.

(** ** A chip in memory, for evaluation: eight sectors of 512 bytes *)

Definition mem_cells (l : list Z) : list Z := resize 4096 255 l.

#[export] Instance mem_chip : SpiFlash := {|
  chip := list Z;
  spiflash_get_flash_info c := Some (SpiInfo 4096 0 512);
  spiflash_erase c off n := (0, ztake off (mem_cells c) ++ erased n ++ zdrop (off + n) (mem_cells c));
  spiflash_program c off d := (zlen d, nor_write (mem_cells c) off d);
  spiflash_read c off n := (n, ztake n (zdrop off (mem_cells c)))
|}.

Lemma mem_cells_len c : zlen (mem_cells c) = 4096.
Proof. unfold zlen, mem_cells. by rewrite length_resize. Qed.

Lemma mem_cells_id l : zlen l = 4096 -> mem_cells l = l.
Proof. unfold zlen, mem_cells. intros. apply resize_all_alt. lia. Qed.

#[export] Instance mem_chip_reads : SpiReads (SF := mem_chip).
Proof.
  refine (@Build_SpiReads mem_chip mem_cells 0 512 _ _ 4096 _ _ _ _); [done|done|apply mem_cells_len|done|done|done].
Defined.

#[export] Instance mem_chip_nor : SpiNor (SR := mem_chip_reads).
Proof.
  split.
  - intros c off d Ho Hd. apply mem_cells_id. cbn. rewrite nor_write_length by done. apply mem_cells_len.
  - intros c off n Ho _ Hn _ Hfit. split; [done|]. apply mem_cells_id. cbn in *.
    pose proof (mem_cells_len c). rewrite !zlen_app, zlen_erased, zlen_ztake, zlen_zdrop by lia. lia.
Defined.

(** Two partitions: ["kv"] in sectors 0 to 2, ["envab"] in sectors 3 to 7. *)
Definition d_kv : partition_info := PartitionInfo [107; 118; 0; 0; 0; 0; 0; 0] 0 0 1536 512 0 true 0 0.
Definition d_envab : partition_info := PartitionInfo [101; 110; 118; 97; 98; 0; 0; 0] 0 1536 2560 512 0 true 0 0.
Definition d_world : pworld (SF := mem_chip) :=
  PWorld [d_kv; d_envab] 2 true (Some (Some HAL_ALL_FLASH_0)) [].

