(* ===== verification/KvBlock.v ===== *)
(** * Key-value store: blocks, [components/kv/block.c]

    A block is one erasable flash sector holding a log of nodes.  The flash
    driver is the interface [Flash]; what NOR flash promises is [NorFlash] in
    [KvProofs].  Built as the product builds it: CONFIG_NON_ADDRESS_FLASH (nodes
    are parsed from a RAM copy of the block, [mem_cache], which stays as it was
    read while the block's flash changes) and without CONFIG_KV_ENABLE_CACHE.  The
    heap is taken to have room for that copy. *)

From S2P Require Import Prelude.

(** [struct flash_ops]: [erase] of the sector at a position, [write], [read];
    positions are relative to [kv->mem].  A negative result is an error; [read]
    also gives what the buffer holds afterwards. *)
Class Flash := {
  flash : Type;
  fl_erase : flash -> Z -> Z -> Z * flash;
  fl_write : flash -> Z -> list Z -> Z * flash;
  fl_read : flash -> Z -> Z -> Z * list Z
}.

Definition ERASE_FLAG : Z := 0.
Definition RW_FLAG_SIZE : Z := 5.

Definition align4 (x : Z) : Z := if decide (x mod 4 <> 0) then 4 - x mod 4 + x else x.

(** [struct kvnode]; [nblock] is the index of [node->block]. *)
Record kvnode := Node {
  rw : Z;
  version : Z;
  val_size : Z;
  erase_flag : Z;
  head_offset : Z;
  value_offset : Z;
  next_offset : Z;
  node_size : Z;
  nblock : nat
}.

Definition NODE_VAILD (n : kvnode) : bool := bool_decide (erase_flag n <> ERASE_FLAG).

(** [struct kvblock]; [bmem] is [block->mem - kv->mem]. *)
Record kvblock := Block {
  bmem : Z;
  size : Z;
  write_offset : Z;
  kv_size : Z;
  dirty_size : Z;
  count : Z;
  ro_count : Z
}.

(** The part of [struct kvset] that is used at run time. *)
Record kv `{Flash} := Kv {
  blocks : list kvblock;
  bid : Z;
  gc_bid : Z;
  fl : flash
}.

Definition is_print (c : Z) : bool := bool_decide (32 <= c <= 126).

(** ** Keys *)

(** [keycmp(s, d, n)]: [s] is a NUL-terminated string, [d] points into the block. *)
Fixpoint keycmp_loop (s : list Z) (m : list Z) (d n : Z) : outcome Z :=
  let c := match s with [] => 0 | c :: _ => c end in
  b ← (if decide (c <> 0) then mem_get m d else Ret 0);
  if decide (c <> 0 /\ c = b) then
    match s with
    | [] => Ret 0
    | _ :: s' => if decide (n - 1 < 0) then Ret (-1) else keycmp_loop s' m (d + 1) (n - 1)
    end
  else if decide (n = 0 /\ c = 0) then Ret 0
  else b ← mem_get m d; Ret (c - b).

Definition keycmp (s : list Z) (m : list Z) (d n : Z) : outcome Z :=
  if decide (n = 0) then Ret 0 else keycmp_loop s m d n.

(** [kvnode_cmp_name]; [m] is the block's [mem_cache]. *)
Definition kvnode_cmp_name (m : list Z) (node : kvnode) (key : list Z) : outcome Z :=
  keycmp key m (head_offset node) (value_offset node - head_offset node - 1).

(** ** Finding nodes *)

(** Skip the zero bytes from [c] on. *)
Fixpoint skip_zeros (fuel : nat) (m : list Z) (sz c : Z) : outcome Z :=
  match fuel with
  | O => Crash
  | S fuel =>
      if decide (c < sz) then
        b ← mem_get m c; if decide (b = 0) then skip_zeros fuel m sz (c + 1) else Ret c
      else Ret c
  end.

(** A read-write node whose key ends at [c], if the header there is one. *)
Definition rw_node (m : list Z) (sz : Z) (i : nat) (c : Z) : outcome (option kvnode) :=
  c1 ← mem_get m (c + 1);
  c2 ← mem_get m (c + 2);
  let value_size := u16 (Z.lor c1 (Z.land (Z.shiftl c2 8) 1023)) in
  let key_size := Z.shiftr c2 2 in
  c4 ← mem_get m (c + 4);
  if decide (c4 <> 61 \/ c + value_size >= sz \/ c - key_size < 0) then Ret None
  else
    cl ← mem_get m (c + value_size + RW_FLAG_SIZE);
    if decide (c2 <> cl) then Ret None
    else
      let nsize := u16 (align4 (key_size + value_size + RW_FLAG_SIZE + 1) + 4) in
      c3 ← mem_get m (c + 3);
      flag ← mem_read m (c - key_size + nsize - 4) 4;
      let head := u16 (c - key_size) in
      if decide (nsize < sz) then
        Ret (Some (Node 1 c3 value_size (le32 flag) head (u16 (c + RW_FLAG_SIZE))
                     (u16 (head + nsize)) nsize i))
      else Crash.

(** A read-only [key=value] line that ends at [c]. *)
Definition ro_node (sz : Z) (i : nat) (head delim c : Z) : outcome (option kvnode) :=
  let nsize := u16 (u16 (c + 1) - head) in
  if decide (nsize < sz) then
    Ret (Some (Node 0 0 (u16 (c - delim - 1)) 65535 head (u16 (delim + 1)) (u16 (c + 1)) nsize i))
  else Crash.

Fixpoint search_loop (fuel : nat) (m : list Z) (sz : Z) (i : nat) (head c : Z) (delim : option Z)
  : outcome (option kvnode) :=
  match fuel with
  | O => Crash
  | S fuel =>
      if decide (c < sz - 1) then
        b ← mem_get m c;
        if decide (b = 0) then
          r ← rw_node m sz i c;
          match r with
          | Some n => Ret (Some n)
          | None => search_loop fuel m sz i head (c + 1) delim
          end
        else if decide (b = 61) then search_loop fuel m sz i head (c + 1) (Some c)
        else if decide (b = 10) then
          match delim with
          | Some d => ro_node sz i head d c
          | None => search_loop fuel m sz i head (c + 1) delim
          end
        else if decide (b = 13) then search_loop fuel m sz i head (c + 1) delim
        else search_loop fuel m sz i head (c + 1) (if is_print b then delim else None)
      else Ret None
  end.

(** [kvblock_search]: [m] is the block's [mem_cache] and [c] an offset into it.
    Each loop moves [c] on by one, so [sz + 1] turns are enough. *)
Definition kvblock_search (m : list Z) (sz : Z) (i : nat) (c : Z) : outcome (option kvnode) :=
  let fuel := S (Z.to_nat sz) in
  c ← skip_zeros fuel m sz c;
  search_loop fuel m sz i (u16 c) c None.

(** [kvblock_iter]'s loop; [fn] returns the callback's result and the new state. *)
Fixpoint iter_loop {S} (fuel : nat) (m : list Z) (sz : Z) (i : nat) (next : Z) (all : bool)
  (fn : kvnode -> S -> outcome (Z * S)) (s : S) : outcome (Z * S) :=
  match fuel with
  | O => Crash
  | Datatypes.S fuel =>
      r ← kvblock_search m sz i next;
      match r with
      | None => Ret (0, s)
      | Some node =>
          '(ret, s) ← (if all || NODE_VAILD node then fn node s else Ret (0, s));
          if decide (ret <> 0) then Ret (ret, s)
          else iter_loop fuel m sz i (next_offset node) all fn s
      end
  end.

Section Block.
Context `{FL : Flash}.

Definition with_block (i : nat) (b : kvblock) (k : kv) : kv :=
  Kv _ (<[i := b]> (blocks k)) (bid k) (gc_bid k) (fl k).
Definition with_flash (f : flash) (k : kv) : kv := Kv _ (blocks k) (bid k) (gc_bid k) f.
Definition with_bid (i : Z) (k : kv) : kv := Kv _ (blocks k) i (gc_bid k) (fl k).
Definition with_gc_bid (i : Z) (k : kv) : kv := Kv _ (blocks k) (bid k) i (fl k).

(** [kv->blocks[i]]. *)
Definition get_block (i : nat) (k : kv) : outcome kvblock :=
  match blocks k !! i with Some b => Ret b | None => Crash end.

Definition block_erase (b : kvblock) (k : kv) : kv :=
  with_flash (fl_erase (fl k) (bmem b) (size b)).2 k.
Definition block_write (b : kvblock) (offset : Z) (d : list Z) (k : kv) : kv :=
  with_flash (fl_write (fl k) (bmem b + offset) d).2 k.
Definition block_read (b : kvblock) (offset n : Z) (k : kv) : list Z :=
  (fl_read (fl k) (bmem b + offset) n).2.

(** [kvblock_cache_malloc] on a block without a copy. *)
Definition kvblock_cache (i : nat) (k : kv) : outcome (list Z) :=
  b ← get_block i k; Ret (block_read b 0 (size b) k).

Definition kvblock_free_size (b : kvblock) : Z := size b - write_offset b.

(** [__kvblock_gc]: erase; [ro_count] is left as it is. *)
Definition kvblock_gc (i : nat) (k : kv) : outcome kv :=
  b ← get_block i k;
  Ret (with_block i (Block (bmem b) (size b) 0 0 0 0 (ro_count b)) (block_erase b k)).

Definition kvnode_rm (node : kvnode) (k : kv) : outcome kv :=
  if NODE_VAILD node && bool_decide (rw node <> 0) then
    b ← get_block (nblock node) k;
    if decide (count b - ro_count b > 1) then
      let k := block_write b (next_offset node - 4) (le32_bytes ERASE_FLAG) k in
      Ret (with_block (nblock node)
             (Block (bmem b) (size b) (write_offset b) (u16 (kv_size b - node_size node))
                (u16 (dirty_size b + node_size node)) (u16 (count b - 1)) (ro_count b)) k)
    else kvblock_gc (nblock node) k
  else Ret k.

(** The new offset, or [None] for -1. *)
Definition kvblock_alloc_node (b : kvblock) (sz : Z) : option (Z * kvblock) :=
  if decide (write_offset b + sz <= size b - 4)
  then Some (write_offset b,
             Block (bmem b) (size b) (u16 (write_offset b + sz)) (kv_size b) (dirty_size b)
               (count b) (ro_count b))
  else None.

(** The bytes of a node up to its erase flag: key, NUL, header, value, the high
    size byte again, zero padding. *)
Definition size_hi (len sz : Z) : Z := u8 (Z.lor (Z.land (Z.shiftr sz 8) 255) (Z.shiftl len 2)).
Definition node_buffer (key value : list Z) (sz ver : Z) : list Z :=
  let body := key ++ [0; Z.land sz 255; size_hi (zlen key) sz; Z.land ver 255; 61]
                ++ value ++ [size_hi (zlen key) sz] in
  body ++ replicate (Z.to_nat (align4 (zlen key + sz + RW_FLAG_SIZE + 1) - zlen body)) 0.

Definition kvblock_set (i : nat) (key value : list Z) (sz ver : Z) (k : kv) : outcome (Z * kv) :=
  let len := zlen key in
  if decide (len <= 0 \/ 63 < len \/ 262143 < sz) then Ret (-1, k)
  else
    let malloc_size := align4 (len + sz + RW_FLAG_SIZE + 1) in
    b ← get_block i k;
    match kvblock_alloc_node b (malloc_size + 4) with
    | None => Ret (-1, k)
    | Some (offset, b) =>
        v ← mem_read value 0 sz;
        let buffer := node_buffer key v sz ver in
        let k := block_write b offset buffer (with_block i b k) in
        if decide (block_read b offset malloc_size k = buffer) then
          Ret (offset, with_block i (Block (bmem b) (size b) (write_offset b)
                         (u16 (kv_size b + (malloc_size + 4))) (dirty_size b)
                         (u16 (count b + 1)) (ro_count b)) k)
        else Ret (-1, block_write b (offset + malloc_size) (le32_bytes ERASE_FLAG) k)
    end.

(** [kvblock_check_version]: the node to delete among two with the same key
    ([true] for the first), deleted. *)
Definition older (v1 v2 : Z) : option bool :=
  if decide (v1 = 255 /\ v2 = 1) then Some true
  else if decide (v1 = 1 /\ v2 = 255) then Some false
  else if decide (v1 < v2) then Some true
  else if decide (v2 < v1) then Some false
  else None.

(** The C string at offset [o]. *)
Fixpoint c_string (fuel : nat) (m : list Z) (o : Z) : outcome (list Z) :=
  match fuel with
  | O => Crash
  | S fuel =>
      b ← mem_get m o;
      if decide (b = 0) then Ret [] else s ← c_string fuel m (o + 1); Ret (b :: s)
  end.
Definition string_at (m : list Z) (o : Z) : outcome (list Z) := c_string (S (length m)) m o.

Definition kvblock_check_version (m1 m2 : list Z) (n1 n2 : kvnode) (k : kv) : outcome (option bool * kv) :=
  s ← string_at m1 (head_offset n1);
  r ← keycmp s m2 (head_offset n2) (value_offset n2 - head_offset n2 - 1);
  if decide (r <> 0) then Ret (None, k)
  else match older (version n1) (version n2) with
       | None => Ret (None, k)
       | Some first => k ← kvnode_rm (if first then n1 else n2) k; Ret (Some first, k)
       end.

(** [kvblock_iter] over the block's nodes, from a copy read at the start. *)
Definition kvblock_iter {S} (i : nat) (all : bool) (fn : list Z -> kvnode -> S -> outcome (Z * S))
  (k : kv) (s : S) : outcome (Z * S) :=
  b ← get_block i k;
  m ← kvblock_cache i k;
  iter_loop (Datatypes.S (Z.to_nat (size b))) m (size b) i 0 all (fn m) s.

(** [kvblock_find] with its callback [_iter_find]: the state is the number of
    valid nodes left and the node found last. *)
Definition iter_find (key : list Z) (m : list Z) (node : kvnode) (s : Z * option kvnode)
  : outcome (Z * (Z * option kvnode)) :=
  r ← kvnode_cmp_name m node key;
  let s := if decide (r = 0) then (s.1, Some node) else s in
  if decide (r = 0 /\ rw node <> 0) then Ret (-1, s)
  else
    let left := s.1 - 1 in
    Ret (if decide (0 < left) then 0 else -1, (left, s.2)).

Definition kvblock_find (i : nat) (key : list Z) (k : kv) : outcome (option kvnode) :=
  b ← get_block i k;
  '(_, s) ← kvblock_iter i false (iter_find key) k (count b, None);
  Ret s.2.

(** [kvblock_reset] removes every valid node. *)
Definition iter_rm (m : list Z) (node : kvnode) (k : kv) : outcome (Z * kv) :=
  k ← kvnode_rm node k; Ret (0, k).
Definition kvblock_reset (i : nat) (k : kv) : outcome kv :=
  '(_, k) ← kvblock_iter i false iter_rm k k; Ret k.

End Block.
