(* ===== verification/KvSet.v ===== *)
(** * Key-value store: the set of blocks, [components/kv/kvset.c], start-up
    ([kvblock_calc], [kvblock_init] of [block.c]) and the public calls of
    [kv_aos.c] *)

From stdpp Require Import gmap.
From S2P Require Import Prelude Nor KvBlock.

Section KvSet.
Context `{FL : Flash}.

(** ** Finding and iterating *)

Fixpoint find_from (n : nat) (i : nat) (key : list Z) (found : option kvnode) (k : kv)
  : outcome (option kvnode) :=
  match n with
  | O => Ret found
  | S n =>
      r ← kvblock_find i key k;
      match r with
      | Some node =>
          if decide (rw node <> 0) then Ret (Some node) else find_from n (S i) key (Some node) k
      | None => find_from n (S i) key found k
      end
  end.

Definition kv_find (key : list Z) (k : kv) : outcome (option kvnode) :=
  find_from (length (blocks k)) 0 key None k.

Fixpoint kv_iter_from {S} (n : nat) (i : nat) (fn : list Z -> kvnode -> S -> outcome (Z * S))
  (k : kv) (ret : Z) (s : S) : outcome (Z * S) :=
  match n with
  | O => Ret (ret, s)
  | Datatypes.S n =>
      '(ret, s) ← kvblock_iter i false fn k s;
      if decide (ret <> 0) then Ret (ret, s) else kv_iter_from n (Datatypes.S i) fn k ret s
  end.

Definition kv_iter {S} (fn : list Z -> kvnode -> S -> outcome (Z * S)) (k : kv) (s : S) :=
  kv_iter_from (length (blocks k)) 0 fn k (-1) s.

(** ** Garbage collection *)

Definition next_version (v : Z) : Z := if decide (v = 255) then 1 else v + 1.

(** [_kvblock_deep_gc]: copy a live node into block [g] and remove it here. *)
Definition deep_gc (g : nat) (m : list Z) (node : kvnode) (k : kv) : outcome (Z * kv) :=
  if decide (rw node = 1) then
    key ← string_at m (head_offset node);
    '(offset, k) ← kvblock_set g key (zdrop (value_offset node) m) (val_size node)
                     (next_version (version node)) k;
    if decide (0 <= offset) then k ← kvnode_rm node k; Ret (0, k) else Ret (0, k)
  else Ret (0, k).

(** The least used block that fits the space left in the collection block. *)
Fixpoint min_used (bs : list kvblock) (i : Z) (gc : Z) (min_id min_size : Z) : Z :=
  match bs with
  | [] => min_id
  | b :: bs =>
      if decide (ro_count b = 0 /\ i <> gc /\ 0 < kv_size b /\ kv_size b < min_size)
      then min_used bs (i + 1) gc i (kv_size b)
      else min_used bs (i + 1) gc min_id min_size
  end.

(** The [while (1)] loop of [kv_gc]; [fuel] bounds its turns. *)
Fixpoint gc_loop (fuel : nat) (new_gc_id : Z) (k : kv) : outcome (Z * kv) :=
  match fuel with
  | O => Crash
  | S fuel =>
      if decide (gc_bid k < 0) then Crash
      else
        g ← get_block (Z.to_nat (gc_bid k)) k;
        let min_id := min_used (blocks k) 0 (gc_bid k) (-1) (size g - write_offset g) in
        if decide (min_id <> -1) then
          '(_, k) ← kvblock_iter (Z.to_nat min_id) false (deep_gc (Z.to_nat (gc_bid k))) k k;
          b ← get_block (Z.to_nat min_id) k;
          gc_loop fuel (if decide (count b = 0) then min_id else new_gc_id) k
        else Ret (new_gc_id, k)
  end.

(** Every turn empties a block other than the collection block, so one turn per
    block and a last one are enough. *)
Definition kv_gc (k : kv) : outcome (Z * kv) :=
  '(new_gc_id, k) ← gc_loop (S (length (blocks k))) (-1) k;
  if decide (new_gc_id <> -1) then Ret (0, with_gc_bid new_gc_id k) else Ret (-1, k).

(** ** Set, get, remove *)

(** The [while (1)] loop of [kv_set]: try the blocks from [bid] on, once around. *)
Fixpoint set_loop (n : nat) (start : Z) (key value : list Z) (sz ver : Z) (k : kv)
  : outcome (bool * kv) :=
  match n with
  | O => Crash
  | S n =>
      if decide (bid k < 0) then Crash
      else
        b ← get_block (Z.to_nat (bid k)) k;
        '(offset, k) ← (if decide (ro_count b = 0 /\ bid k <> gc_bid k)
                        then kvblock_set (Z.to_nat (bid k)) key value sz ver k else Ret (-1, k));
        if decide (0 <= offset) then Ret (true, k)
        else
          let k := with_bid ((bid k + 1) mod zlen (blocks k)) k in
          if decide (bid k = start) then Ret (false, k) else set_loop n start key value sz ver k
  end.

(** From the label [start2]: place the node and remove the old one. *)
Definition set_place (old : option kvnode) (key value : list Z) (sz ver : Z) (k : kv)
  : outcome (bool * kv) :=
  '(ok, k) ← set_loop (length (blocks k)) (bid k) key value sz ver k;
  if ok : bool then
    match old with
    | Some node => k ← kvnode_rm node k; Ret (true, k)
    | None => Ret (true, k)
    end
  else Ret (false, k).

(** From the label [start1], with the value the local [version] has there: [Some]
    version when a node must be written. *)
Definition set_lookup (ver : Z) (key value : list Z) (sz : Z) (k : kv)
  : outcome (option kvnode * option Z) :=
  r ← kv_find key k;
  match r with
  | Some node =>
      m ← kvblock_cache (nblock node) k;
      same ← (if decide (val_size node = u16 sz) then
                a ← mem_read m (value_offset node) sz; b ← mem_read value 0 sz;
                Ret (bool_decide (a = b))
              else Ret false);
      if same : bool then Ret (Some node, None)
      else Ret (Some node, Some ((if decide (version node = 255) then 0 else version node) + 1))
  | None => Ret (None, Some (ver + 1))
  end.

Definition kv_set (key value : option (list Z)) (sz : Z) (k : kv) : outcome (Z * kv) :=
  match key, value with
  | Some key, Some value =>
      if decide (sz <= 0 \/ 498 <= u32 (zlen key + sz)) then Ret (-1, k)
      else
        '(old, todo) ← set_lookup 0 key value sz k;
        match todo with
        | None => Ret (sz, k)
        | Some ver =>
            '(ok, k) ← set_place old key value sz ver k;
            if ok : bool then Ret (sz, k)
            else
              '(rc, k) ← kv_gc k;
              if decide (rc <> 0) then Ret (-1, k)
              else
                '(old, todo) ← (match old with
                                | Some _ => set_lookup ver key value sz k
                                | None => Ret (None, Some ver)
                                end);
                match todo with
                | None => Ret (sz, k)
                | Some ver =>
                    '(ok, k) ← set_place old key value sz ver k;
                    Ret (if ok : bool then sz else -1, k)
                end
        end
  | _, _ => Ret (-1, k)
  end.

(** [atoi] of the string at [o]. *)
Definition is_space (c : Z) : bool := bool_decide (c = 32 \/ 9 <= c <= 13).
Fixpoint atoi_digits (fuel : nat) (m : list Z) (o acc : Z) : outcome Z :=
  match fuel with
  | O => Crash
  | S fuel =>
      b ← mem_get m o;
      if decide (48 <= b <= 57) then atoi_digits fuel m (o + 1) (i32 (acc * 10 + (b - 48))) else Ret acc
  end.
Fixpoint atoi_space (fuel : nat) (m : list Z) (o : Z) : outcome Z :=
  match fuel with
  | O => Crash
  | S fuel => b ← mem_get m o; if is_space b then atoi_space fuel m (o + 1) else Ret o
  end.
Definition atoi (m : list Z) (o : Z) : outcome Z :=
  let fuel := S (length m) in
  o ← atoi_space fuel m o;
  b ← mem_get m o;
  if decide (b = 45) then n ← atoi_digits fuel m (o + 1) 0; Ret (i32 (- n))
  else if decide (b = 43) then atoi_digits fuel m (o + 1) 0
  else atoi_digits fuel m o 0.

(** [kv_get]: the result code and the bytes stored into the caller's buffer of
    [sz] bytes. *)
Definition kv_get (key : list Z) (sz : Z) (k : kv) : outcome (Z * list Z) :=
  r ← kv_find key k;
  match r with
  | None => Ret (-1, [])
  | Some node =>
      m ← kvblock_cache (nblock node) k;
      if decide (rw node <> 0) then
        d ← mem_read m (value_offset node) (Z.min (val_size node) sz);
        Ret (val_size node, d)
      else if decide (0 < val_size node) then
        let v := value_offset node in
        let ret := val_size node in
        b ← mem_get m v;
        if decide (b = 34) then
          b ← mem_get m (v + ret - 1);
          let ret := if decide (b = 13) then ret - 1 else ret in
          b ← mem_get m (v + ret - 1);
          let ret := if decide (b = 34) then ret - 1 else ret in
          let ret := Z.min (ret - 1) sz in
          d ← mem_read m (v + 1) ret;
          Ret (ret, d)
        else
          n ← atoi m v;
          d ← mem_read (le32_bytes n) 0 (Z.min 4 sz);
          Ret (4, d)
      else Ret (-1, [])
  end.

Definition kv_rm (key : list Z) (k : kv) : outcome (Z * kv) :=
  r ← kv_find key k;
  match r with
  | Some node => k ← kvnode_rm node k; Ret (0, k)
  | None => Ret (-1, k)
  end.

Fixpoint reset_from (n i : nat) (k : kv) : outcome kv :=
  match n with
  | O => Ret k
  | S n => k ← kvblock_reset i k; reset_from n (S i) k
  end.
Definition kv_reset (k : kv) : outcome (Z * kv) :=
  k ← reset_from (length (blocks k)) 0 k; Ret (0, k).

(** ** Start-up *)

(** The keys seen so far and the conflicting nodes, in order.  [kv->map] with
    [kv->nodes] is a finite map from key strings to a block and an offset. *)
Record scan := Scan {
  seen : gmap (list Z) (nat * Z);
  conflicts : list (list Z * (nat * Z))
}.

(** [_iter_calc]: the callback that counts a block's nodes. *)
Definition iter_calc (i : nat) (m : list Z) (node : kvnode) (s : kvblock * scan)
  : outcome (Z * (kvblock * scan)) :=
  let '(b, sc) := s in
  let len := next_offset node - head_offset node in
  '(b, sc) ←
    (if NODE_VAILD node then
       key ← string_at m (head_offset node);
       let b := Block (bmem b) (size b) (write_offset b) (u16 (kv_size b + len)) (dirty_size b)
                  (u16 (count b + 1)) (u16 (ro_count b + (if decide (rw node = 0) then 1 else 0))) in
       let here := (i, head_offset node) in
       Ret (b, match seen sc !! key with
               | Some _ => Scan (seen sc) (conflicts sc ++ [(key, here)])
               | None => Scan (<[key := here]> (seen sc)) (conflicts sc)
               end)
     else Ret (Block (bmem b) (size b) (write_offset b) (kv_size b) (u16 (dirty_size b + len))
                 (count b) (ro_count b), sc));
  Ret (0, (Block (bmem b) (size b) (u16 (align4 (next_offset node))) (kv_size b) (dirty_size b)
             (count b) (ro_count b), sc)).

(** The words from [v] on in the first 512 bytes: the end of the last one that
    differs from [magic]. *)
Fixpoint last_written (fuel : nat) (m : list Z) (magic : list Z) (v wo : Z) : outcome Z :=
  match fuel with
  | O => Crash
  | S fuel =>
      if decide (v < 512 - 4) then
        x ← mem_read m v 4;
        last_written fuel m magic (v + 4) (if decide (x <> magic) then u16 (v + 4) else wo)
      else Ret wo
  end.

Definition kvblock_calc (i : nat) (sc : scan) (k : kv) : outcome (scan * kv) :=
  b ← get_block i k;
  let b := Block (bmem b) (size b) (write_offset b) 0 0 0 0 in
  let k := with_block i b k in
  '(_, (b, sc)) ← kvblock_iter i true (iter_calc i) k (b, sc);
  m ← kvblock_cache i k;
  magic ← mem_read m (size b - 4) 4;
  wo ← last_written 129 m magic (write_offset b) (write_offset b);
  Ret (sc, with_block i (Block (bmem b) (size b) wo (kv_size b) (dirty_size b) (count b) (ro_count b)) k).

(** Do all 32-bit words of the block equal the first? *)
Fixpoint uniform (fuel : nat) (m : list Z) (w : list Z) (o : Z) : outcome bool :=
  match fuel with
  | O => Ret true
  | S fuel => x ← mem_read m o 4; if decide (x = w) then uniform fuel m w (o + 4) else Ret false
  end.

Definition kvblock_init (i : nat) (mem sz : Z) (sc : scan) (k : kv) : outcome (scan * kv) :=
  b ← get_block i k;
  let k := with_block i (Block mem (u16 sz) (write_offset b) (kv_size b) (dirty_size b) (count b) (ro_count b)) k in
  '(sc, k) ← kvblock_calc i sc k;
  b ← get_block i k;
  if decide (count b = 0) then
    let m := block_read b 0 (size b) k in
    w ← mem_read m 0 4;
    u ← uniform (Z.to_nat (size b / 4 - 1)) m w 4;
    if negb u || bool_decide (w = [0; 0; 0; 0]) then k ← kvblock_gc i k; Ret (sc, k) else Ret (sc, k)
  else Ret (sc, k).

(** The [for] loop of [kv_init]: the block with most space becomes the
    collection block, the first other one the current block. *)
Fixpoint init_from (n i : nat) (sz gc_size : Z) (sc : scan) (k : kv) : outcome (scan * kv) :=
  match n with
  | O => Ret (sc, k)
  | S n =>
      '(sc, k) ← kvblock_init i (Z.of_nat i * sz) sz sc k;
      b ← get_block i k;
      let v := kvblock_free_size b in
      if decide (gc_size <= v /\ 4 < v)
      then init_from n (S i) sz v sc (with_gc_bid (Z.of_nat i) k)
      else init_from n (S i) sz gc_size sc
             (if decide (bid k = 0) then with_bid (Z.of_nat i) k else k)
  end.

(** [kv_verify] under CONFIG_KV_START_OPT: of two live nodes with one key, delete
    the older. *)
Fixpoint verify_from (cs : list (list Z * (nat * Z))) (mp : gmap (list Z) (nat * Z)) (k : kv) : outcome kv :=
  match cs with
  | [] => Ret k
  | (key, (i1, o1)) :: cs =>
      match mp !! key with
      | None => Crash
      | Some (i2, o2) =>
          b1 ← get_block i1 k; b2 ← get_block i2 k;
          m1 ← kvblock_cache i1 k; m2 ← kvblock_cache i2 k;
          r1 ← kvblock_search m1 (size b1) i1 o1;
          r2 ← kvblock_search m2 (size b2) i2 o2;
          match r1, r2 with
          | Some n1, Some n2 =>
              c1 ← kvnode_cmp_name m1 n1 key;
              c2 ← (if decide (c1 = 0) then kvnode_cmp_name m2 n2 key else Ret 1);
              if decide (c1 = 0 /\ c2 = 0) then
                '(del, k) ← kvblock_check_version m1 m2 n1 n2 k;
                verify_from cs (match del with Some false => <[key := (i1, o1)]> mp | _ => mp end) k
              else verify_from cs mp k
          | _, _ => verify_from cs mp k
          end
      end
  end.

Definition kv_init (block_num : nat) (block_size : Z) (f : flash) : outcome (Z * kv) :=
  let k := Kv _ (replicate block_num (Block 0 0 0 0 0 0 0)) 0 (-1) f in
  '(sc, k) ← init_from block_num 0 block_size 0 (Scan ∅ []) k;
  k ← verify_from (conflicts sc) (seen sc) k;
  Ret (0, k).

(** ** [kv_aos.c]: the public calls on the one store [g_kv], each under [kv_lock]

    The store is open ([g_kv.handle] is not negative) and [buffer_len] is not NULL. *)

Definition kv_setdata (key value : option (list Z)) (sz : Z) (k : kv) : outcome (Z * kv) :=
  '(r, k) ← kv_set key value sz k; Ret (if decide (0 <= r) then 0 else -1, k).

Definition kv_getdata (key : option (list Z)) (bufsize : Z) (k : kv) : outcome (Z * list Z) :=
  match key with
  | None => Ret (-1, [])
  | Some key => if decide (bufsize <= 0) then Ret (-1, []) else kv_get key bufsize k
  end.

Definition kv_del (key : list Z) (k : kv) : outcome (Z * kv) := kv_rm key k.

Definition aos_kv_setstring (key v : list Z) (k : kv) := kv_setdata (Some key) (Some v) (zlen v) k.
Definition aos_kv_setint (key : list Z) (v : Z) (k : kv) :=
  kv_setdata (Some key) (Some (le32_bytes v)) 4 k.

(** [aos_kv_get]: result and new [*buffer_len]. *)
Definition aos_kv_get (key : list Z) (buffer_len : Z) (k : kv) : outcome (Z * Z * list Z) :=
  '(ret, d) ← kv_getdata (Some key) buffer_len k;
  Ret (if decide (ret <= 0) then -1 else 0, if decide (0 < ret) then ret else buffer_len, d).

(** [aos_kv_getstring]: the result and the buffer's first bytes, NUL included. *)
Definition aos_kv_getstring (key : list Z) (len : Z) (k : kv) : outcome (Z * list Z) :=
  '(ret, d) ← kv_getdata (Some key) (len - 1) k;
  Ret (ret, if decide (0 < ret) then d ++ [0] else d).

Definition aos_kv_getint (key : list Z) (k : kv) : outcome (Z * list Z) :=
  '(ret, d) ← kv_getdata (Some key) 4 k; Ret (if decide (ret = 4) then 0 else -1, d).

End KvSet.

(** ** A NOR flash in memory, for evaluation *)

#[export] Instance nor_flash : Flash := {|
  flash := list Z;
  fl_erase f pos sz := (0, ztake pos f ++ replicate (Z.to_nat sz) 255 ++ zdrop (pos + sz) f);
  fl_write f pos d := (0, nor_write f pos d);
  fl_read f pos n := (0, ztake n (zdrop pos f))
|}.
