(* ===== verification/KvNodeProofs.v ===== *)
(** * Key-value store: the node format

    What a live or deleted entry looks like in a block, that
    [kvblock_search] finds exactly the entries written there one after the
    other, and what iterating over a block amounts to. *)

From S2P Require Import Prelude Nor KvBlock.

(** Let [lia] see through [/] and [mod] by constants. *)
Ltac Zify.zify_post_hook ::= Z.div_mod_to_equations.

(** ** Entries and their bytes *)

Record ent := Ent { e_key : list Z; e_val : list Z; e_ver : Z; e_live : bool }.

Definition key_ok (key : list Z) : Prop :=
  1 <= zlen key <= 63 /\ Forall (fun b => 0 < b < 256 /\ b <> 10) key.

#[export] Instance key_ok_dec key : Decision (key_ok key).
Proof. unfold key_ok. apply _. Defined.

Record ent_ok (e : ent) : Prop := {
  eok_key : key_ok (e_key e);
  eok_val : bytes (e_val e);
  eok_len : 1 <= zlen (e_val e) /\ zlen (e_key e) + zlen (e_val e) < 498;
  eok_ver : 1 <= e_ver e <= 255
}.

Definition flag_bytes (live : bool) : list Z := if live then [255; 255; 255; 255] else [0; 0; 0; 0].

Definition eimg (e : ent) : list Z :=
  node_buffer (e_key e) (e_val e) (zlen (e_val e)) (e_ver e) ++ flag_bytes (e_live e).
Definition img (es : list ent) : list Z := concat (eimg <$> es).

Definition kill (e : ent) : ent := Ent (e_key e) (e_val e) (e_ver e) false.

(** The node [kvblock_search] describes for entry [e] at offset [off]. *)
Definition node_of (i : nat) (off : Z) (e : ent) : kvnode :=
  Node 1 (e_ver e) (zlen (e_val e)) (if e_live e then 4294967295 else 0) off
    (off + zlen (e_key e) + 5) (off + zlen (eimg e)) (zlen (eimg e)) i.

Lemma img_app es es' : img (es ++ es') = img es ++ img es'.
Proof. unfold img. by rewrite fmap_app, concat_app. Qed.

Lemma img_cons e es : img (e :: es) = eimg e ++ img es.
Proof. done. Qed.

Lemma align4_spec x : 0 <= x -> x <= align4 x < x + 4 /\ align4 x mod 4 = 0.
Proof. intros Hx. unfold align4. pose proof (Z.mod_pos_bound x 4). case_decide; split; try lia. Qed.

Lemma node_buffer_len key v ver :
  zlen (node_buffer key v (zlen v) ver) = align4 (zlen key + zlen v + RW_FLAG_SIZE + 1).
Proof.
  unfold node_buffer. pose proof (zlen_nonneg key). pose proof (zlen_nonneg v).
  destruct (align4_spec (zlen key + zlen v + RW_FLAG_SIZE + 1)) as [? _]; [unfold RW_FLAG_SIZE; lia|].
  rewrite (zlen_app (_ ++ _)), zlen_replicate. unfold RW_FLAG_SIZE in *.
  rewrite !zlen_app in *. change (zlen [_; _; _; _; _]) with 5. change (zlen [_]) with 1. lia.
Qed.

Lemma eimg_len e :
  zlen (eimg e) = align4 (zlen (e_key e) + zlen (e_val e) + RW_FLAG_SIZE + 1) + 4.
Proof. unfold eimg. rewrite zlen_app, node_buffer_len. by destruct (e_live e). Qed.

Lemma eimg_kill_len e : zlen (eimg (kill e)) = zlen (eimg e).
Proof. by rewrite !eimg_len. Qed.

Lemma eimg_bounds e :
  zlen (e_key e) + zlen (e_val e) + 10 <= zlen (eimg e) < zlen (e_key e) + zlen (e_val e) + 14 /\
  zlen (eimg e) mod 4 = 0.
Proof.
  rewrite eimg_len. pose proof (zlen_nonneg (e_key e)). pose proof (zlen_nonneg (e_val e)).
  destruct (align4_spec (zlen (e_key e) + zlen (e_val e) + RW_FLAG_SIZE + 1)); unfold RW_FLAG_SIZE in *; lia.
Qed.

Lemma img_len_mod es : zlen (img es) mod 4 = 0.
Proof.
  induction es as [|e es IH]; [done|]. rewrite img_cons, zlen_app.
  pose proof (eimg_bounds e). lia.
Qed.

(** ** The size fields *)

Lemma size_hi_eq len sz : 0 <= len <= 63 -> 0 <= sz < 1024 -> size_hi len sz = 4 * len + sz / 256.
Proof.
  intros Hl Hs. unfold size_hi. rewrite Z.shiftr_div_pow2 by lia. change (2 ^ 8) with 256.
  assert (0 <= sz / 256 < 4) by lia.
  rewrite land_255, (Z.mod_small (sz / 256)) by lia.
  rewrite Z.lor_comm, (lor_shift_add len (sz / 256) 2) by lia. change (2 ^ 2) with 4.
  rewrite u8_id by (unfold is_byte; lia). lia.
Qed.

Lemma value_size_eq len sz :
  0 <= len <= 63 -> 0 <= sz < 1024 ->
  u16 (Z.lor (Z.land sz 255) (Z.land (Z.shiftl (size_hi len sz) 8) 1023)) = sz.
Proof.
  intros Hl Hs. rewrite size_hi_eq by done.
  rewrite land_255, land_1023, Z.shiftl_mul_pow2 by lia. change (2 ^ 8) with 256.
  replace ((4 * len + sz / 256) * 256) with (sz / 256 * 256 + len * 1024) by lia.
  rewrite Z.mod_add by lia. rewrite (Z.mod_small (sz / 256 * 256)) by lia.
  change 256 with (2 ^ 8) at 3. rewrite <- Z.shiftl_mul_pow2 by lia.
  rewrite Z.lor_comm, lor_shift_add by lia. change (2 ^ 8) with 256.
  unfold u16. rewrite Z.mod_small; lia.
Qed.

Lemma key_size_eq len sz : 0 <= len <= 63 -> 0 <= sz < 1024 -> Z.shiftr (size_hi len sz) 2 = len.
Proof.
  intros Hl Hs. rewrite size_hi_eq, Z.shiftr_div_pow2 by lia. change (2 ^ 2) with 4. lia.
Qed.

(** ** Reading at an offset *)

Lemma mem_get_off a l j : 0 <= j -> mem_get (a ++ l) (zlen a + j) = mem_get l j.
Proof.
  intros Hj. unfold mem_get, zlen. rewrite !decide_True by lia.
  rewrite lookup_app_r by lia. replace (Z.to_nat _ - length a)%nat with (Z.to_nat j) by lia. done.
Qed.

Lemma mem_get_at a x l : mem_get (a ++ x :: l) (zlen a) = Ret x.
Proof. rewrite <- (Z.add_0_r (zlen a)), mem_get_off by lia. done. Qed.

(** The bytes from the end of the key on. *)
Definition tail_img (e : ent) : list Z :=
  [0; Z.land (zlen (e_val e)) 255; size_hi (zlen (e_key e)) (zlen (e_val e)); Z.land (e_ver e) 255; 61]
  ++ e_val e ++ [size_hi (zlen (e_key e)) (zlen (e_val e))]
  ++ replicate (Z.to_nat (zlen (eimg e) - 4 - (zlen (e_key e) + zlen (e_val e) + 6))) 0
  ++ flag_bytes (e_live e).

Lemma eimg_split e : eimg e = e_key e ++ tail_img e.
Proof.
  unfold eimg, tail_img, node_buffer. rewrite eimg_len.
  rewrite <- !app_assoc. do 2 f_equal. f_equal. f_equal. f_equal. f_equal.
  rewrite !zlen_app. change (zlen [_; _; _; _; _]) with 5. change (zlen [_]) with 1. f_equal. lia.
Qed.

Lemma rw_node_found i a e post sz :
  ent_ok e -> zlen a + zlen (eimg e) + 4 <= sz < 65536 ->
  rw_node (a ++ eimg e ++ post) sz i (zlen a + zlen (e_key e)) = Ret (Some (node_of i (zlen a) e)).
Proof.
  intros [Hk Hv Hl Hver] Hsz. destruct Hk as [Hk _].
  pose proof (eimg_bounds e) as [Hb _]. pose proof (zlen_nonneg a). pose proof (zlen_nonneg (e_val e)).
  set (len := zlen (e_key e)) in *. set (vs := zlen (e_val e)) in *.
  set (hi := size_hi len vs).
  set (pad := replicate (Z.to_nat (zlen (eimg e) - 4 - (len + vs + 6))) 0).
  assert (a ++ eimg e ++ post
          = (a ++ e_key e) ++ 0 :: Z.land vs 255 :: hi :: Z.land (e_ver e) 255 :: 61
              :: (e_val e ++ hi :: pad ++ flag_bytes (e_live e) ++ post)) as ->.
  { rewrite eimg_split. unfold tail_img. fold len vs hi pad. by norm_app. }
  assert (zlen (a ++ e_key e) = zlen a + len) as Ha by apply zlen_app.
  unfold rw_node. rewrite <- Ha. rewrite !mem_get_off by lia.
  change (mem_get (0 :: Z.land vs 255 :: hi :: _) 1) with (Ret (Z.land vs 255)).
  change (mem_get (0 :: _ :: hi :: _) 2) with (Ret hi).
  change (mem_get (0 :: _ :: _ :: _ :: 61 :: _) 4) with (Ret 61).
  change (mem_get (0 :: _ :: _ :: Z.land (e_ver e) 255 :: _) 3) with (Ret (Z.land (e_ver e) 255)).
  cbn [mbind outcome_bind].
  assert (u16 (Z.lor (Z.land vs 255) (Z.land (Z.shiftl hi 8) 1023)) = vs) as -> by (apply value_size_eq; lia).
  assert (Z.shiftr hi 2 = len) as -> by (apply key_size_eq; lia). rewrite Ha.
  rewrite (decide_False (P := _ \/ _)) by lia.
  assert (mem_get ((a ++ e_key e) ++ 0 :: Z.land vs 255 :: hi :: Z.land (e_ver e) 255 :: 61
              :: (e_val e ++ hi :: pad ++ flag_bytes (e_live e) ++ post))
            (zlen a + len + vs + RW_FLAG_SIZE) = Ret hi) as ->.
  { pose proof (mem_get_at ((a ++ e_key e) ++ [0; Z.land vs 255; hi; Z.land (e_ver e) 255; 61] ++ e_val e)
                 hi (pad ++ flag_bytes (e_live e) ++ post)) as M.
    norm_app in M. norm_app. rewrite <- M. f_equal.
    unfold RW_FLAG_SIZE, len, vs. zl. }
  cbn [mbind outcome_bind]. rewrite decide_False by tauto.
  assert (u16 (align4 (len + vs + RW_FLAG_SIZE + 1) + 4) = zlen (eimg e)) as ->.
  { pose proof (eimg_len e) as El. fold len vs in El. rewrite <- El. unfold u16. apply Z.mod_small. lia. }
  cbn [mbind outcome_bind].
  assert (mem_read ((a ++ e_key e) ++ 0 :: Z.land vs 255 :: hi :: Z.land (e_ver e) 255 :: 61
              :: (e_val e ++ hi :: pad ++ flag_bytes (e_live e) ++ post))
            (zlen a + len - len + zlen (eimg e) - 4) 4 = Ret (flag_bytes (e_live e))) as ->.
  { pose proof (mem_read_exact ((a ++ e_key e) ++ [0; Z.land vs 255; hi; Z.land (e_ver e) 255; 61]
                 ++ e_val e ++ [hi] ++ pad) (flag_bytes (e_live e)) post) as M.
    norm_app in M. norm_app.
    assert (zlen (flag_bytes (e_live e)) = 4) as Hf by (by destruct (e_live e)). rewrite Hf in M.
    rewrite <- M. f_equal. unfold pad.
    autorewrite with zlen. fold len vs. lia. }
  cbn [mbind outcome_bind]. rewrite decide_True by lia.
  unfold node_of. fold len vs. do 2 f_equal.
  replace (zlen a + len - len) with (zlen a) by lia.
  assert (forall z, 0 <= z < 65536 -> u16 z = z) as Hu by (intros; unfold u16; by apply Z.mod_small).
  unfold RW_FLAG_SIZE. rewrite !Hu by (rewrite ?Hu by lia; lia).
  f_equal; [|by destruct (e_live e)]. rewrite land_255. apply Z.mod_small. lia.
Qed.

(** ** [kvblock_search] *)

(** Over the key: nothing there ends the scan before its NUL. *)
Lemma search_key i sz e (ks : list Z) : forall fuel a0 a post delim head,
  ent_ok e -> Forall (fun b => 0 < b < 256 /\ b <> 10) ks ->
  a0 ++ eimg e ++ post = a ++ ks ++ tail_img e ++ post ->
  zlen a0 + zlen (e_key e) = zlen a + zlen ks ->
  zlen a0 + zlen (eimg e) + 4 <= sz < 65536 -> (length ks < fuel)%nat ->
  search_loop fuel (a ++ ks ++ tail_img e ++ post) sz i head (zlen a) delim
  = Ret (Some (node_of i (zlen a0) e)).
Proof.
  induction ks as [|b ks IH]; intros fuel a0 a post delim head He Hks Hm Hlen Hsz Hfuel;
    (destruct fuel as [|fuel]; [cbn in Hfuel; lia|]); cbn [search_loop];
    pose proof (eimg_bounds e) as [Hb _]; pose proof (zlen_nonneg (e_val e));
    pose proof (zlen_nonneg a0); pose proof (eok_key _ He) as [Hk _];
    pose proof (zlen_nonneg (e_key e)).
  - cbn [app] in *. rewrite zlen_nil in Hlen. rewrite decide_True by lia.
    change (tail_img e ++ post) with (0 :: (zdrop 1 (tail_img e) ++ post)).
    rewrite mem_get_at. cbn [mbind outcome_bind]. rewrite decide_True by done.
    change (0 :: (zdrop 1 (tail_img e) ++ post)) with (tail_img e ++ post). rewrite <- Hm.
    replace (zlen a) with (zlen a0 + zlen (e_key e)) by lia.
    rewrite rw_node_found by done. done.
  - inversion Hks as [|? ? Hbok Hks']; subst. rewrite zlen_cons in Hlen. pose proof (zlen_nonneg ks).
    rewrite decide_True by lia.
    change ((b :: ks) ++ tail_img e ++ post) with (b :: (ks ++ tail_img e ++ post)).
    rewrite mem_get_at. cbn [mbind outcome_bind]. rewrite (decide_False (P := b = 0)) by lia.
    assert (forall d, search_loop fuel (a ++ b :: ks ++ tail_img e ++ post) sz i head (zlen a + 1) d
                      = Ret (Some (node_of i (zlen a0) e))) as Hnext.
    { intros d. specialize (IH fuel a0 (a ++ [b]) post d head).
      assert (zlen (a ++ [b]) = zlen a + 1) as Hab by zl. rewrite Hab in IH.
      norm_app in IH. apply IH; try done; [|cbn in Hfuel; lia]. lia. }
    rewrite (decide_False (P := b = 10)) by lia.
    repeat case_decide; apply Hnext.
Qed.

Lemma skip_zeros_stop fuel m sz c b :
  mem_get m c = Ret b -> b <> 0 -> (0 < fuel)%nat -> skip_zeros fuel m sz c = Ret c.
Proof.
  intros Hg Hb Hf. destruct fuel as [|fuel]; [lia|]. cbn. case_decide; [|done].
  rewrite Hg. cbn. by rewrite decide_False.
Qed.

Lemma search_found i a e post sz :
  ent_ok e -> zlen a + zlen (eimg e) + 4 <= sz < 65536 ->
  kvblock_search (a ++ eimg e ++ post) sz i (zlen a) = Ret (Some (node_of i (zlen a) e)).
Proof.
  intros He Hsz. unfold kvblock_search. pose proof (eok_key _ He) as [Hk Hks].
  pose proof (zlen_nonneg a). pose proof (zlen_nonneg (e_val e)). pose proof (eimg_bounds e) as [Hb _].
  destruct (e_key e) as [|c ks] eqn:Ek; [rewrite zlen_nil in Hk; lia|].
  assert (mem_get (a ++ eimg e ++ post) (zlen a) = Ret c) as Hg.
  { rewrite eimg_split, Ek. norm_app. apply mem_get_at. }
  rewrite (skip_zeros_stop _ _ _ _ c) by (done || (inversion Hks; lia) || lia).
  cbn [mbind outcome_bind]. rewrite eimg_split, <- app_assoc.
  apply search_key; try done.
  - by rewrite Ek.
  - by rewrite eimg_split, <- app_assoc.
  - unfold zlen in *. rewrite Ek in *. lia.
Qed.

(** Nothing is found in erased flash. *)
Lemma erased_get a n j : 0 <= j < n -> mem_get (a ++ erased n) (zlen a + j) = Ret 255.
Proof.
  intros Hj. rewrite mem_get_off by lia. unfold mem_get. rewrite decide_True by lia.
  unfold erased. rewrite lookup_replicate_2 by lia. done.
Qed.

Lemma search_erased fuel i a n j head :
  0 <= j <= n -> (Z.to_nat (n - j) < fuel)%nat ->
  search_loop fuel (a ++ erased n) (zlen a + n) i head (zlen a + j) None = Ret None.
Proof.
  revert j. induction fuel as [|fuel IH]; intros j Hj Hf; [lia|]. cbn [search_loop].
  destruct (decide (zlen a + j < zlen a + n - 1)); [|done].
  rewrite erased_get by lia. cbn [mbind outcome_bind]. rewrite !decide_False by lia.
  replace (zlen a + j + 1) with (zlen a + (j + 1)) by lia.
  cbn. apply IH; lia.
Qed.

Lemma search_end i a n :
  0 <= n -> kvblock_search (a ++ erased n) (zlen a + n) i (zlen a) = Ret None.
Proof.
  intros Hn. unfold kvblock_search. pose proof (zlen_nonneg a).
  assert (skip_zeros (S (Z.to_nat (zlen a + n))) (a ++ erased n) (zlen a + n) (zlen a) = Ret (zlen a)) as ->.
  { destruct (decide (n = 0)) as [->|].
    - cbn [skip_zeros]. rewrite decide_False by lia. done.
    - apply skip_zeros_stop with (b := 255); [|lia|lia].
      rewrite <- (Z.add_0_r (zlen a)) at 1. apply erased_get. lia. }
  cbn [mbind outcome_bind]. rewrite <- (Z.add_0_r (zlen a)) at 4. apply search_erased; lia.
Qed.

(** ** Iterating over a block *)

Fixpoint fold_ents {S} (all : bool) (fn : kvnode -> S -> outcome (Z * S)) (i : nat) (off : Z)
  (es : list ent) (s : S) : outcome (Z * S) :=
  match es with
  | [] => Ret (0, s)
  | e :: es =>
      '(ret, s) ← (if all || e_live e then fn (node_of i off e) s else Ret (0, s));
      if decide (ret <> 0) then Ret (ret, s) else fold_ents all fn i (off + zlen (eimg e)) es s
  end.

Lemma node_of_valid i off e : NODE_VAILD (node_of i off e) = e_live e.
Proof. unfold NODE_VAILD, node_of. cbn. by destruct (e_live e). Qed.

Lemma iter_ents {S} fuel i pre es n all (fn : kvnode -> S -> outcome (Z * S)) s :
  Forall ent_ok es -> 4 <= n -> zlen (img pre ++ img es) + n < 65536 -> (length es < fuel)%nat ->
  iter_loop fuel (img pre ++ img es ++ erased n) (zlen (img pre ++ img es) + n) i (zlen (img pre)) all fn s
  = fold_ents all fn i (zlen (img pre)) es s.
Proof.
  intros Hes Hn Hsz. revert pre fuel s Hsz.
  induction Hes as [|e es He Hes IH]; intros pre fuel s Hsz Hfuel;
    (destruct fuel as [|fuel]; [cbn in Hfuel; lia|]); cbn [iter_loop fold_ents].
  - cbn [img]. change (img []) with (@nil Z). rewrite app_nil_r. cbn [app].
    rewrite search_end by lia. done.
  - rewrite img_cons, !zlen_app in *. pose proof (zlen_nonneg (img es)).
    rewrite <- app_assoc. rewrite search_found by (done || lia). cbn [mbind outcome_bind].
    rewrite node_of_valid. destruct (if all || e_live e then _ else _) as [[ret s1]|]; [|done].
    cbn [mbind outcome_bind]. case_decide; [done|].
    specialize (IH (pre ++ [e]) fuel s1). rewrite img_app in IH. change (img [e]) with (eimg e ++ []) in IH.
    rewrite app_nil_r in IH. norm_app in IH. rewrite !zlen_app in IH.
    unfold node_of at 1. cbn [next_offset]. rewrite <- IH; [|lia|cbn in Hfuel; lia].
    by replace (zlen (img pre) + (zlen (eimg e) + zlen (img es)) + n)
      with (zlen (img pre) + zlen (eimg e) + zlen (img es) + n) by lia.
Qed.

(** ** Comparing and reading keys *)

Definition nonzero (s : list Z) : Prop := Forall (fun b => b <> 0) s.

Lemma key_nonzero key : key_ok key -> nonzero key.
Proof. intros [_ H]. unfold nonzero. induction H as [|b l Hb _ IH]; constructor; [lia|done]. Qed.

Lemma keycmp_loop_spec s : forall a t rest n,
  nonzero s -> nonzero t -> zlen t < n ->
  exists r, keycmp_loop s (a ++ t ++ 0 :: rest) (zlen a) n = Ret r /\ (r = 0 <-> s = t).
Proof.
  induction s as [|c s IH]; intros a t rest n Hs Ht Hn; pose proof (zlen_nonneg t).
  - cbn [keycmp_loop]. rewrite (decide_False (P := 0 <> 0)) by tauto. cbn [mbind outcome_bind].
    rewrite decide_False by tauto. rewrite (decide_False (P := n = 0 /\ 0 = 0)) by lia.
    destruct t as [|b t]; cbn [app]; rewrite mem_get_at; cbn [mbind outcome_bind];
      eexists; (split; [done|]).
    + split; [done|lia].
    + inversion Ht; subst. split; [lia|done].
  - inversion Hs as [|? ? Hc Hs']; subst. cbn [keycmp_loop]. rewrite (decide_True (P := c <> 0)) by done.
    destruct t as [|b t].
    + cbn [app]. rewrite mem_get_at. cbn [mbind outcome_bind]. rewrite !decide_False by lia.
      cbn [mbind outcome_bind]. eexists. split; [done|]. split; [lia|done].
    + inversion Ht as [|? ? Hb Ht']; subst. cbn [app]. rewrite mem_get_at. cbn [mbind outcome_bind].
      rewrite zlen_cons in Hn. pose proof (zlen_nonneg t).
      destruct (decide (c = b)) as [->|Hne].
      * rewrite decide_True by done. rewrite decide_False by lia.
        specialize (IH (a ++ [b]) t rest (n - 1) Hs' Ht').
        assert (zlen (a ++ [b]) = zlen a + 1) as Hab by zl. rewrite Hab in IH. norm_app in IH.
        destruct IH as (r & -> & Hr); [lia|]. exists r. split; [done|]. rewrite Hr.
        split; [by intros ->|by intros [= ->]].
      * rewrite !decide_False by (tauto || lia). cbn [mbind outcome_bind].
        eexists. split; [done|]. split; [lia|by intros [= -> ->]].
Qed.

Lemma cmp_name_spec a e post i key :
  ent_ok e -> nonzero key ->
  exists r, kvnode_cmp_name (a ++ eimg e ++ post) (node_of i (zlen a) e) key = Ret r /\
            (r = 0 <-> key = e_key e).
Proof.
  intros He Hk. pose proof (eok_key _ He) as Hek. unfold kvnode_cmp_name, keycmp, node_of.
  cbn [head_offset value_offset]. pose proof (zlen_nonneg (e_key e)).
  rewrite decide_False by lia. rewrite eimg_split, <- app_assoc.
  change (tail_img e ++ post) with (0 :: (zdrop 1 (tail_img e) ++ post)).
  apply keycmp_loop_spec; [done|by apply key_nonzero|lia].
Qed.

Lemma c_string_spec s : forall fuel a rest,
  nonzero s -> (length s < fuel)%nat -> c_string fuel (a ++ s ++ 0 :: rest) (zlen a) = Ret s.
Proof.
  induction s as [|c s IH]; intros fuel a rest Hs Hf; (destruct fuel as [|fuel]; [cbn in Hf; lia|]);
    cbn [c_string app]; rewrite mem_get_at; cbn [mbind outcome_bind].
  - done.
  - inversion Hs as [|? ? Hc Hs']; subst. rewrite decide_False by done.
    specialize (IH fuel (a ++ [c]) rest Hs'). assert (zlen (a ++ [c]) = zlen a + 1) as Hac by zl.
    rewrite Hac in IH. norm_app in IH. rewrite IH by (cbn in Hf; lia). done.
Qed.

Lemma string_at_key a e post :
  ent_ok e -> string_at (a ++ eimg e ++ post) (zlen a) = Ret (e_key e).
Proof.
  intros He. unfold string_at. rewrite eimg_split, <- app_assoc.
  change (tail_img e ++ post) with (0 :: (zdrop 1 (tail_img e) ++ post)).
  apply c_string_spec; [apply key_nonzero, He|]. rewrite !length_app. lia.
Qed.

Lemma value_at a e post :
  mem_read (a ++ eimg e ++ post) (zlen a + zlen (e_key e) + 5) (zlen (e_val e)) = Ret (e_val e) /\
  exists rest, zdrop (zlen a + zlen (e_key e) + 5) (a ++ eimg e ++ post) = e_val e ++ rest.
Proof.
  set (h := [0; Z.land (zlen (e_val e)) 255; size_hi (zlen (e_key e)) (zlen (e_val e));
             Z.land (e_ver e) 255; 61]).
  assert (exists rest, a ++ eimg e ++ post = (a ++ e_key e ++ h) ++ e_val e ++ rest) as (rest & ->).
  { eexists. rewrite eimg_split. unfold tail_img. fold h. norm_app. done. }
  assert (zlen a + zlen (e_key e) + 5 = zlen (a ++ e_key e ++ h)) as -> by (unfold h; zl).
  split; [apply mem_read_exact|]. exists rest. by apply zdrop_app_exact.
Qed.

(** ** Finding a key in a block *)

Definition nlive (es : list ent) : Z := zlen (filter (fun e => e_live e = true) es).

(** The first live entry with the key, and the entries before it. *)
Fixpoint find_live (key : list Z) (es : list ent) : option (list ent * ent) :=
  match es with
  | [] => None
  | e :: es =>
      if decide (e_live e = true /\ key = e_key e) then Some ([], e)
      else match find_live key es with Some (pre, x) => Some (e :: pre, x) | None => None end
  end.

Lemma nlive_cons e es : nlive (e :: es) = (if e_live e then 1 else 0) + nlive es.
Proof.
  unfold nlive. rewrite filter_cons. destruct (e_live e).
  - rewrite decide_True by done. apply zlen_cons.
  - by rewrite decide_False.
Qed.

Lemma nlive_app es es' : nlive (es ++ es') = nlive es + nlive es'.
Proof. unfold nlive. rewrite list.filter_app. zl. Qed.

Lemma nlive_nonneg es : 0 <= nlive es.
Proof. apply zlen_nonneg. Qed.

Lemma find_live_none key es : nlive es = 0 -> find_live key es = None.
Proof.
  induction es as [|e es IH]; [done|]. rewrite nlive_cons. pose proof (nlive_nonneg es).
  destruct (e_live e) eqn:El; [lia|]. intros Hn. cbn. rewrite El.
  rewrite decide_False by (by intros [? ?]). rewrite IH by lia. done.
Qed.

Lemma iter_find_step a e post i key cnt :
  ent_ok e -> nonzero key ->
  iter_find key (a ++ eimg e ++ post) (node_of i (zlen a) e) (cnt, None) =
    if decide (key = e_key e) then Ret (-1, (cnt, Some (node_of i (zlen a) e)))
    else Ret (if decide (0 < cnt - 1) then 0 else -1, (cnt - 1, None)).
Proof.
  intros He Hk. unfold iter_find.
  destruct (cmp_name_spec a e post i key He Hk) as (r & -> & Hr).
  cbn [mbind outcome_bind fst snd rw node_of].
  destruct (decide (key = e_key e)) as [E|E].
  - assert (r = 0) as -> by tauto. by rewrite !decide_True.
  - by rewrite (decide_False (P := r = 0)), (decide_False (P := r = 0 /\ _)) by tauto.
Qed.

Lemma find_ents key i post es : forall a cnt,
  Forall ent_ok es -> nonzero key -> cnt = nlive es ->
  exists ret cnt', fold_ents false (iter_find key (a ++ img es ++ post)) i (zlen a) es (cnt, None)
    = Ret (ret, (cnt', match find_live key es with
                       | Some (pre, e) => Some (node_of i (zlen a + zlen (img pre)) e)
                       | None => None
                       end)).
Proof.
  induction es as [|e es IH]; intros a cnt Hes Hk ->; [by eexists _, _|].
  inversion Hes as [|? ? He Hes']; subst. cbn [fold_ents find_live orb].
  assert (forall cnt, cnt = nlive es -> exists ret cnt',
            fold_ents false (iter_find key (a ++ img (e :: es) ++ post)) i (zlen a + zlen (eimg e)) es (cnt, None)
            = Ret (ret, (cnt', match find_live key es with
                               | Some (pre, x) => Some (node_of i (zlen a + zlen (img (e :: pre))) x)
                               | None => None
                               end))) as Hnext.
  { intros cnt Hc. specialize (IH (a ++ eimg e) cnt Hes' Hk Hc). rewrite zlen_app in IH. norm_app in IH.
    rewrite img_cons. norm_app. destruct IH as (ret & cnt' & ->). exists ret, cnt'.
    destruct (find_live key es) as [[pre x]|]; [|done]. rewrite img_cons, zlen_app. do 5 f_equal. lia. }
  rewrite nlive_cons. destruct (e_live e) eqn:El.
  - rewrite img_cons, <- app_assoc in Hnext |- *. rewrite iter_find_step by done.
    destruct (decide (key = e_key e)) as [E|E]; cbn [mbind outcome_bind].
    + rewrite decide_True by done. rewrite decide_True by done.
      eexists _, _. change (img []) with (@nil Z). rewrite zlen_nil, Z.add_0_r. done.
    + replace (1 + nlive es - 1) with (nlive es) by lia.
      rewrite (decide_False (P := true = true /\ _)) by tauto.
      destruct (decide (0 < nlive es)) as [Hpos|Hpos].
      * rewrite decide_False by lia.
        destruct (Hnext (nlive es) eq_refl) as (ret & cnt' & ->). exists ret, cnt'.
        by destruct (find_live key es) as [[pre x]|].
      * rewrite decide_True by lia. pose proof (nlive_nonneg es).
        rewrite find_live_none by lia. by eexists _, _.
  - cbn [mbind outcome_bind]. rewrite (decide_False (P := 0 <> 0)) by tauto.
    rewrite (decide_False (P := false = true /\ _)) by (by intros [? ?]).
    destruct (Hnext (0 + nlive es)) as (ret & cnt' & ->); [lia|]. exists ret, cnt'.
    by destruct (find_live key es) as [[pre x]|].
Qed.
