(* ===== verification/KvProofs.v ===== *)
(** * Key-value store: blocks on NOR flash

    What the store relies on from the flash driver ([NorFlash]), the invariant
    between a block's record in RAM, its bytes in flash and the entries they
    stand for, and what setting and removing a node do to it. *)

From S2P Require Import Prelude Nor KvBlock KvSet KvNodeProofs.

(** Documented NOR behaviour, with sectors of [B] bytes: a read gives the cells,
    programming clears bits, erasing a sector sets its cells to 0xFF. *)
Class NorFlash `{FL : Flash} (B : Z) := {
  cells : flash -> list Z;
  nor_read : forall f pos n, 0 <= pos -> 0 <= n -> pos + n <= zlen (cells f) ->
    (fl_read f pos n).2 = ztake n (zdrop pos (cells f));
  nor_program : forall f pos d, 0 <= pos -> pos + zlen d <= zlen (cells f) ->
    cells (fl_write f pos d).2 = nor_write (cells f) pos d;
  nor_erase : forall f i, 0 < B -> 0 <= i -> i * B + B <= zlen (cells f) ->
    cells (fl_erase f (i * B) B).2
    = ztake (i * B) (cells f) ++ erased B ++ zdrop (i * B + B) (cells f)
}.

#[export] Instance nor_flash_ok B : NorFlash (FL := nor_flash) B.
Proof. by refine (Build_NorFlash nor_flash B (fun f => f) _ _ _). Defined.

(** ** The space live entries take *)

Definition live_size (es : list ent) : Z :=
  zlen (img (filter (fun e => e_live e = true) es)).

Lemma live_size_cons e es :
  live_size (e :: es) = (if e_live e then zlen (eimg e) else 0) + live_size es.
Proof.
  unfold live_size. rewrite filter_cons. destruct (e_live e).
  - rewrite decide_True by done. by rewrite img_cons, zlen_app.
  - by rewrite decide_False.
Qed.

Lemma live_size_app es es' : live_size (es ++ es') = live_size es + live_size es'.
Proof. unfold live_size. rewrite list.filter_app, img_app. apply zlen_app. Qed.

Lemma live_size_le es : 0 <= live_size es <= zlen (img es).
Proof.
  induction es as [|e es IH]; [done|]. rewrite live_size_cons, img_cons, zlen_app.
  pose proof (zlen_nonneg (eimg e)). destruct (e_live e); lia.
Qed.

Lemma nlive_le es : 10 * nlive es <= live_size es.
Proof.
  induction es as [|e es IH]; [done|]. rewrite nlive_cons, live_size_cons.
  pose proof (eimg_bounds e). pose proof (zlen_nonneg (e_key e)). pose proof (zlen_nonneg (e_val e)).
  destruct (e_live e); lia.
Qed.

Lemma live_size_mod es : live_size es mod 4 = 0.
Proof. apply img_len_mod. Qed.

Section Blocks.
(** The sector size: what [uint16_t size] can hold, a whole number of words. *)
Context `{FL : Flash} (B : Z) {NF : NorFlash B} (HB : 512 <= B < 65536) (HB4 : B mod 4 = 0).

(** ** Geometry *)

Definition blk (l : list Z) (i : nat) : list Z := ztake B (zdrop (Z.of_nat i * B) l).

Lemma blk_split l i :
  Z.of_nat i * B + B <= zlen l ->
  exists p q, l = p ++ blk l i ++ q /\ zlen p = Z.of_nat i * B /\ zlen (blk l i) = B.
Proof.
  intros Hl. exists (ztake (Z.of_nat i * B) l), (zdrop B (zdrop (Z.of_nat i * B) l)).
  unfold blk. rewrite ztake_zdrop, ztake_zdrop. split; [done|].
  rewrite !zlen_ztake; [done|rewrite zlen_zdrop by lia; lia|lia].
Qed.

Lemma blk_here p c q i : zlen p = Z.of_nat i * B -> zlen c = B -> blk (p ++ c ++ q) i = c.
Proof.
  intros Hp Hc. unfold blk. rewrite <- Hp, zdrop_app_exact by done. by apply ztake_app_exact.
Qed.

Lemma blk_there p c c' q i j :
  zlen p = Z.of_nat i * B -> zlen c = B -> zlen c' = B -> i <> j ->
  blk (p ++ c' ++ q) j = blk (p ++ c ++ q) j.
Proof.
  intros Hp Hc Hc' Hij. unfold blk, ztake, zdrop, zlen in *.
  destruct (decide (j < i)%nat) as [Hlt|Hge].
  - assert (Z.to_nat (Z.of_nat j * B) + Z.to_nat B <= length p)%nat by nia.
    rewrite !drop_app_le by lia. rewrite !take_app_le by (rewrite length_drop; lia). done.
  - assert (length p + Z.to_nat B <= Z.to_nat (Z.of_nat j * B))%nat by nia.
    rewrite !drop_app_ge by (rewrite ?length_app; lia).
    do 3 f_equal. lia.
Qed.

(** What replacing the cells of block [i] does. *)
Definition patched (i : nat) (c : list Z) (l l' : list Z) : Prop :=
  zlen l' = zlen l /\ blk l' i = c /\ forall j, j <> i -> blk l' j = blk l j.

Lemma patched_intro p c c' q i :
  zlen p = Z.of_nat i * B -> zlen c = B -> zlen c' = B -> patched i c' (p ++ c ++ q) (p ++ c' ++ q).
Proof.
  intros Hp Hc Hc'. split; [rewrite !zlen_app; lia|]. split; [by apply blk_here|].
  intros j Hj. by apply (blk_there p c c' q i).
Qed.

Lemma program_patched f i o d :
  Z.of_nat i * B + B <= zlen (cells f) -> 0 <= o -> o + zlen d <= B ->
  patched i (nor_write (blk (cells f) i) o d) (cells f)
    (cells (fl_write f (Z.of_nat i * B + o) d).2).
Proof.
  intros Hl Ho Hd. rewrite nor_program by lia.
  destruct (blk_split (cells f) i Hl) as (p & q & E & Hp & Hc). set (c := blk (cells f) i) in *.
  rewrite E. rewrite <- Hp, nor_write_inside by lia.
  apply patched_intro; [done|done|]. rewrite nor_write_length by lia. done.
Qed.

Lemma erase_patched f i :
  Z.of_nat i * B + B <= zlen (cells f) ->
  patched i (erased B) (cells f) (cells (fl_erase f (Z.of_nat i * B) B).2).
Proof.
  intros Hl. rewrite nor_erase by lia.
  destruct (blk_split (cells f) i Hl) as (p & q & E & Hp & Hc). set (c := blk (cells f) i) in *.
  rewrite E. rewrite <- Hp, ztake_app_exact by done.
  assert (zdrop (zlen p + B) (p ++ c ++ q) = q) as ->
    by (rewrite app_assoc; apply zdrop_app_exact; rewrite zlen_app; lia).
  apply patched_intro; [done|done|]. apply zlen_erased. lia.
Qed.

Lemma read_blk f i o n :
  Z.of_nat i * B + B <= zlen (cells f) -> 0 <= o -> 0 <= n -> o + n <= B ->
  (fl_read f (Z.of_nat i * B + o) n).2 = ztake n (zdrop o (blk (cells f) i)).
Proof.
  intros Hl Ho Hn Hon. rewrite nor_read by lia.
  destruct (blk_split (cells f) i Hl) as (p & q & E & Hp & Hc). set (c := blk (cells f) i) in *.
  rewrite E, <- Hp. unfold ztake, zdrop, zlen in *.
  replace (Z.to_nat (Z.of_nat (length p) + o)) with (length p + Z.to_nat o)%nat by lia.
  rewrite drop_app_add, drop_app_le, take_app_le by (rewrite ?length_drop; lia). done.
Qed.

(** ** The invariant of a block *)

Record blk_ok (i : nat) (es : list ent) (b : kvblock) (m : list Z) : Prop := BlkOk {
  bo_mem : bmem b = Z.of_nat i * B;
  bo_size : size b = B;
  bo_img : m = img es ++ erased (B - zlen (img es));
  bo_room : zlen (img es) <= B - 4;
  bo_ents : Forall ent_ok es;
  bo_wo : write_offset b = zlen (img es);
  bo_count : count b = nlive es;
  bo_kvsize : kv_size b = live_size es;
  bo_ro : ro_count b = 0
}.

(** The whole store: [ess] lists the entries of each block in flash order. *)
Record st_ok (ess : list (list ent)) (k : kv) : Prop := StOk {
  so_len : length (blocks k) = length ess;
  so_cells : zlen (cells (fl k)) = zlen ess * B;
  so_blk : forall i es, ess !! i = Some es ->
    exists b, blocks k !! i = Some b /\ blk_ok i es b (blk (cells (fl k)) i)
}.

(** Replacing block [i] of a well-formed store. *)
Lemma st_ok_patch ess k i es' b' f' m' bid' gc' :
  st_ok ess k -> (i < length ess)%nat ->
  patched i m' (cells (fl k)) (cells f') -> blk_ok i es' b' m' ->
  st_ok (<[i := es']> ess) (Kv _ (<[i := b']> (blocks k)) bid' gc' f').
Proof.
  intros [Hl Hc Hb] Hi (Hlen & Hhere & Hthere) Hok. split; cbn.
  - by rewrite !length_insert.
  - rewrite Hlen, Hc. unfold zlen. by rewrite length_insert.
  - intros j es Hj. destruct (decide (j = i)) as [->|Hne].
    + rewrite list_lookup_insert_eq in Hj by done. injection Hj as <-.
      exists b'. rewrite list_lookup_insert_eq by (rewrite Hl; done). by rewrite Hhere.
    + rewrite list_lookup_insert_ne in Hj by done. destruct (Hb j es Hj) as (b & Hbj & Hbok).
      exists b. rewrite list_lookup_insert_ne by done. by rewrite Hthere.
Qed.

Lemma st_ok_block ess k i es :
  st_ok ess k -> ess !! i = Some es ->
  exists b, get_block i k = Ret b /\ blk_ok i es b (blk (cells (fl k)) i) /\
    (i < length ess)%nat /\ Z.of_nat i * B + B <= zlen (cells (fl k)).
Proof.
  intros [Hl Hc Hb] Hi. destruct (Hb i es Hi) as (b & Hbi & Hok). exists b.
  unfold get_block. rewrite Hbi. apply lookup_lt_Some in Hi. split_and!; try done.
  rewrite Hc. unfold zlen. nia.
Qed.

(** The RAM copy of a block. *)
Lemma cache_ok ess k i es :
  st_ok ess k -> ess !! i = Some es ->
  kvblock_cache i k = Ret (img es ++ erased (B - zlen (img es))).
Proof.
  intros Hst Hi. destruct (st_ok_block _ _ _ _ Hst Hi) as (b & Hb & Hok & Hlt & Hfit).
  unfold kvblock_cache. rewrite Hb. cbn [mbind outcome_bind]. unfold block_read.
  rewrite (bo_mem _ _ _ _ Hok), (bo_size _ _ _ _ Hok), read_blk by lia.
  rewrite zdrop_0, ztake_all; [by rewrite (bo_img _ _ _ _ Hok)|].
  destruct (blk_split _ _ Hfit) as (p & q & _ & _ & Hc). lia.
Qed.

Lemma iter_block {S} ess k i es all fn (s : S) :
  st_ok ess k -> ess !! i = Some es ->
  kvblock_iter i all fn k s
  = fold_ents all (fn (img es ++ erased (B - zlen (img es)))) i 0 es s.
Proof.
  intros Hst Hi. unfold kvblock_iter. destruct (st_ok_block _ _ _ _ Hst Hi) as (b & Hb & Hok & Hlt & Hfit).
  rewrite Hb. cbn [mbind outcome_bind]. rewrite (cache_ok _ _ _ _ Hst Hi). cbn [mbind outcome_bind].
  rewrite (bo_size _ _ _ _ Hok). pose proof (bo_room _ _ _ _ Hok).
  pose proof (iter_ents (Datatypes.S (Z.to_nat B)) i [] es (B - zlen (img es)) all
    (fn (img es ++ erased (B - zlen (img es)))) s (bo_ents _ _ _ _ Hok)) as Hiter.
  change (img []) with (@nil Z) in Hiter. cbn [app] in Hiter. rewrite zlen_nil in Hiter.
  replace (zlen (img es) + (B - zlen (img es))) with B in Hiter by lia.
  apply Hiter; [lia|lia|].
  assert (Z.of_nat (length es) <= zlen (img es)); [|lia].
  clear. induction es as [|e es IH]; [done|]. rewrite img_cons, zlen_app. cbn [length].
  pose proof (eimg_bounds e). pose proof (zlen_nonneg (e_key e)). pose proof (zlen_nonneg (e_val e)). lia.
Qed.

Lemma find_block ess k i es key :
  st_ok ess k -> ess !! i = Some es -> nonzero key ->
  kvblock_find i key k =
    Ret (match find_live key es with
         | Some (pre, e) => Some (node_of i (zlen (img pre)) e)
         | None => None
         end).
Proof.
  intros Hst Hi Hk. unfold kvblock_find.
  destruct (st_ok_block _ _ _ _ Hst Hi) as (b & Hb & Hok & Hlt & Hfit).
  rewrite Hb. cbn [mbind outcome_bind]. rewrite (iter_block ess k i es) by done.
  destruct (find_ents key i (erased (B - zlen (img es))) es [] (count b)) as (ret & cnt & E);
    [apply Hok|done|apply Hok|]. cbn [app] in E. rewrite zlen_nil in E. rewrite E.
  cbn [mbind outcome_bind snd]. by destruct (find_live key es) as [[pre e]|].
Qed.

(** ** Writing a node *)

Lemma node_buffer_bytes e :
  ent_ok e -> bytes (node_buffer (e_key e) (e_val e) (zlen (e_val e)) (e_ver e)).
Proof.
  intros [[Hkl Hk] Hv Hl Hver]. unfold node_buffer. apply bytes_app. split.
  - apply bytes_app. split.
    { unfold bytes. clear -Hk. induction Hk as [|b l Hb _ IH]; constructor; [unfold is_byte; lia|done]. }
    apply bytes_app. split.
    { repeat (constructor; [first [apply u8_byte | rewrite ?land_255; unfold is_byte; lia]|]). constructor. }
    apply bytes_app. split; [done|]. constructor; [apply u8_byte|constructor].
  - unfold bytes. apply Forall_replicate. by unfold is_byte.
Qed.

Definition entry_of (key value : list Z) (ver : Z) : ent := Ent key value ver true.

Lemma set_fits ess k i es key value rest ver :
  st_ok ess k -> ess !! i = Some es -> ent_ok (entry_of key value ver) ->
  zlen (img es) + zlen (eimg (entry_of key value ver)) <= B - 4 ->
  exists k', kvblock_set i key (value ++ rest) (zlen value) ver k = Ret (zlen (img es), k') /\
    st_ok (<[i := es ++ [entry_of key value ver]]> ess) k' /\
    bid k' = bid k /\ gc_bid k' = gc_bid k.
Proof.
  intros Hst Hi He Hroom. set (e := entry_of key value ver) in *.
  destruct (st_ok_block _ _ _ _ Hst Hi) as (b & Hb & Hok & Hlt & Hfit).
  pose proof He as [[Hkl _] _ [Hvl Hl] _]. cbn [e_key e_val e entry_of] in Hkl, Hvl, Hl.
  pose proof (eimg_len e) as Hel. cbn [e_key e_val e entry_of] in Hel.
  pose proof (zlen_nonneg (img es)). pose proof Hok as [Hm Hs Himg _ Hes Hwo Hcnt Hkvs Hro].
  pose proof (eimg_bounds e) as [Heb _]. cbn [e_key e_val e entry_of] in Heb.
  set (ms := align4 (zlen key + zlen value + RW_FLAG_SIZE + 1)) in *.
  unfold kvblock_set. rewrite decide_False by lia. rewrite Hb. cbn [mbind outcome_bind].
  fold ms. unfold kvblock_alloc_node. rewrite Hwo, Hs, decide_True by lia.
  assert (forall z, 0 <= z < 65536 -> u16 z = z) as Hu by (intros; unfold u16; by apply Z.mod_small).
  rewrite Hu by lia. rewrite mem_read_ok by (rewrite ?zlen_app; pose proof (zlen_nonneg rest); lia).
  rewrite zdrop_0, ztake_app_exact by done. cbn [mbind outcome_bind].
  set (buf := node_buffer key value (zlen value) ver).
  assert (zlen buf = ms) as Hbuf by apply node_buffer_len.
  unfold block_write, block_read. cbn [bmem with_block with_flash fl size]. rewrite Hm.
  pose proof (program_patched (fl k) i (zlen (img es)) buf Hfit) as (Hplen & Hphere & Hpthere); [lia|lia|].
  set (f' := (fl_write (fl k) (Z.of_nat i * B + zlen (img es)) buf).2) in *.
  assert (blk (cells f') i = img es ++ buf ++ erased (B - zlen (img es) - ms)) as Hblk.
  { rewrite Hphere, Himg. rewrite <- (app_nil_r (erased _)).
    rewrite program_erased by (try apply (node_buffer_bytes e He); lia).
    by rewrite app_nil_r, Hbuf. }
  rewrite read_blk by lia. rewrite Hblk.
  rewrite zdrop_app_exact, ztake_app_exact by done. rewrite decide_True by done.
  eexists. split; [done|]. split; [|done].
  pose proof (live_size_le es). pose proof (nlive_le es). pose proof (nlive_nonneg es).
  unfold with_block, with_flash. cbn [blocks bid gc_bid fl]. rewrite list_insert_insert_eq.
  apply (st_ok_patch ess k i _ _ _ (blk (cells f') i)); [done|done|by split_and!|].
  assert (zlen (img (es ++ [e])) = zlen (img es) + (ms + 4)) as Hnew.
  { rewrite img_app, zlen_app, img_cons, zlen_app, Hel. change (img []) with (@nil Z). rewrite zlen_nil. lia. }
  split; cbn [bmem size write_offset kv_size dirty_size count ro_count]; try done.
  - rewrite Hblk, img_app, img_cons, zlen_app. change (img []) with (@nil Z). rewrite app_nil_r, Hel.
    unfold eimg. cbn [e_key e_val e_ver e_live e entry_of flag_bytes]. fold buf. norm_app. do 2 f_equal.
    replace (B - zlen (img es) - ms) with (4 + (B - (zlen (img es) + (ms + 4)))) by lia.
    rewrite erased_app by lia. done.
  - lia.
  - apply Forall_app. by split; [|constructor].
  - rewrite Hu by lia. rewrite nlive_app, nlive_cons. change (nlive []) with 0. cbn [e_live e entry_of]. lia.
  - rewrite Hu by lia. rewrite live_size_app, live_size_cons. change (live_size []) with 0.
    cbn [e_live e entry_of]. lia.
Qed.

Lemma set_no_room ess k i es key value rest ver :
  st_ok ess k -> ess !! i = Some es ->
  ~ zlen (img es) + zlen (eimg (entry_of key value ver)) <= B - 4 ->
  kvblock_set i key (value ++ rest) (zlen value) ver k = Ret (-1, k).
Proof.
  intros Hst Hi Hroom. unfold kvblock_set. case_decide; [done|].
  destruct (st_ok_block _ _ _ _ Hst Hi) as (b & Hb & Hok & _). rewrite Hb. cbn [mbind outcome_bind].
  unfold kvblock_alloc_node. rewrite (bo_wo _ _ _ _ Hok), (bo_size _ _ _ _ Hok).
  rewrite eimg_len in Hroom. cbn [e_key e_val entry_of] in Hroom. rewrite decide_False by lia. done.
Qed.

(** ** Removing a node *)

(** The block after the entry between [es1] and [es2] is removed: marked, or the
    whole block erased when it was the last live one. *)
Definition removed (es1 : list ent) (e : ent) (es2 : list ent) : list ent :=
  if decide (1 < nlive (es1 ++ e :: es2)) then es1 ++ kill e :: es2 else [].

Lemma erase_ok ess k i es :
  st_ok ess k -> ess !! i = Some es ->
  exists k', kvblock_gc i k = Ret k' /\ st_ok (<[i := []]> ess) k' /\
    bid k' = bid k /\ gc_bid k' = gc_bid k.
Proof.
  intros Hst Hi. destruct (st_ok_block _ _ _ _ Hst Hi) as (b & Hb & Hok & Hlt & Hfit).
  unfold kvblock_gc. rewrite Hb. cbn [mbind outcome_bind]. eexists. split; [done|]. split; [|done].
  unfold block_erase, with_block, with_flash. cbn [blocks bid gc_bid fl].
  pose proof Hok as [Hm Hs _ _ _ _ _ _ Hro]. rewrite Hm, Hs.
  apply (st_ok_patch ess k i _ _ _ (erased B)); [done|done|by apply erase_patched|].
  split; cbn [bmem size write_offset kv_size dirty_size count ro_count]; try done.
  - change (img []) with (@nil Z). cbn [app]. rewrite zlen_nil. f_equal. lia.
  - change (img []) with (@nil Z). rewrite zlen_nil. lia.
Qed.

Lemma flag_split e : exists x, eimg e = x ++ flag_bytes (e_live e) /\ eimg (kill e) = x ++ [0; 0; 0; 0] /\
  zlen x = zlen (eimg e) - 4.
Proof.
  exists (node_buffer (e_key e) (e_val e) (zlen (e_val e)) (e_ver e)). split; [done|]. split; [done|].
  rewrite eimg_len, node_buffer_len. lia.
Qed.

Lemma rm_ok ess k i es1 e es2 :
  st_ok ess k -> ess !! i = Some (es1 ++ e :: es2) -> e_live e = true ->
  exists k', kvnode_rm (node_of i (zlen (img es1)) e) k = Ret k' /\
    st_ok (<[i := removed es1 e es2]> ess) k' /\ bid k' = bid k /\ gc_bid k' = gc_bid k.
Proof.
  intros Hst Hi Hlive. destruct (st_ok_block _ _ _ _ Hst Hi) as (b & Hb & Hok & Hlt & Hfit).
  pose proof Hok as [Hm Hs Himg Hroom Hes Hwo Hcnt Hkvs Hro].
  unfold kvnode_rm. rewrite node_of_valid, Hlive. cbn [andb rw node_of].
  rewrite bool_decide_eq_true_2 by done. cbn [nblock node_of]. rewrite Hb. cbn [mbind outcome_bind].
  unfold removed. rewrite Hcnt, Hro.
  destruct (decide (1 < nlive (es1 ++ e :: es2))) as [Hmore|Hlast].
  2: { rewrite decide_False by lia. by eapply erase_ok. }
  rewrite decide_True by lia. cbn [next_offset node_size node_of].
  eexists. split; [done|]. split; [|done].
  destruct (flag_split e) as (x & Ex & Ek & Hx). rewrite Hlive in Ex. cbn [flag_bytes] in Ex.
  pose proof (zlen_nonneg (img es1)). pose proof (zlen_nonneg (img es2)).
  pose proof (eimg_bounds e) as [Heb _]. pose proof (zlen_nonneg (e_key e)). pose proof (zlen_nonneg (e_val e)).
  assert (zlen (img (es1 ++ e :: es2)) = zlen (img es1) + zlen (eimg e) + zlen (img es2)) as Hlen
    by (rewrite img_app, img_cons, !zlen_app; lia).
  assert (zlen (img (es1 ++ kill e :: es2)) = zlen (img (es1 ++ e :: es2))) as Hlen'
    by (rewrite !img_app, !img_cons, !zlen_app, eimg_kill_len; lia).
  unfold block_write, with_block, with_flash. cbn [blocks bid gc_bid fl]. rewrite Hm.
  change (le32_bytes ERASE_FLAG) with [0; 0; 0; 0].
  replace (zlen (img es1) + zlen (eimg e) - 4) with (zlen (img es1) + zlen x) by lia.
  pose proof (program_patched (fl k) i (zlen (img es1) + zlen x) [0; 0; 0; 0] Hfit) as Hp.
  change (zlen [0; 0; 0; 0]) with 4 in Hp.
  eapply st_ok_patch; [done|done|apply Hp; lia|].
  assert (forall z, 0 <= z < 65536 -> u16 z = z) as Hu by (intros; unfold u16; by apply Z.mod_small).
  pose proof (live_size_le (es1 ++ e :: es2)) as Hls. pose proof (nlive_le (es1 ++ e :: es2)).
  rewrite live_size_app, live_size_cons, Hlive in *. rewrite nlive_app, nlive_cons, Hlive in *.
  pose proof (live_size_le es1). pose proof (live_size_le es2).
  pose proof (nlive_nonneg es1). pose proof (nlive_nonneg es2).
  split; cbn [bmem size write_offset kv_size dirty_size count ro_count]; try done.
  - rewrite Himg, Hlen'. set (n := B - zlen (img (es1 ++ e :: es2))).
    rewrite !img_app, !img_cons, Ex, Ek. norm_app.
    pose proof (program_zero (img es1 ++ x) [255; 255; 255; 255] (img es2 ++ erased n) eq_refl) as Hz.
    rewrite zlen_app in Hz. norm_app in Hz. exact Hz.
  - lia.
  - apply Forall_app in Hes as [Hes1 Hes2]. inversion Hes2 as [|? ? He Hes2']; subst.
    apply Forall_app. split; [done|]. constructor; [|done]. by destruct He.
  - lia.
  - rewrite Hu by lia. rewrite nlive_app, nlive_cons. cbn [e_live kill]. lia.
  - rewrite Hkvs, Hu by lia. rewrite live_size_app, live_size_cons. cbn [e_live kill]. lia.
Qed.
End Blocks.
