(* ===== verification/KvSetProofs.v ===== *)
(** * Key-value store: the store as a finite map

    The live entries of all blocks form a finite map from keys to values;
    [kv_get] reads it, [kv_set] and [kv_rm] update it, garbage collection keeps it
    and always ends. *)

From stdpp Require Import gmap.
From S2P Require Import Prelude Nor KvBlock KvSet KvNodeProofs KvProofs.

Ltac Zify.zify_post_hook ::= Z.div_mod_to_equations.

(** ** The abstract map *)

Definition contents (es : list ent) : list (list Z * list Z) :=
  (fun e => (e_key e, e_val e)) <$> filter (fun e => e_live e = true) es.
Definition abs_list (ess : list (list ent)) : list (list Z * list Z) := concat (contents <$> ess).
Definition abs (ess : list (list ent)) : gmap (list Z) (list Z) := list_to_map (abs_list ess).

Lemma contents_cons e es :
  contents (e :: es) = (if e_live e then [(e_key e, e_val e)] else []) ++ contents es.
Proof.
  unfold contents. rewrite filter_cons. destruct (e_live e).
  - by rewrite decide_True.
  - by rewrite decide_False.
Qed.

Lemma contents_app es es' : contents (es ++ es') = contents es ++ contents es'.
Proof. unfold contents. by rewrite list.filter_app, fmap_app. Qed.

Lemma contents_nlive es : zlen (contents es) = nlive es.
Proof. unfold contents, nlive, zlen. by rewrite length_fmap. Qed.

Lemma contents_removed es1 e es2 :
  e_live e = true ->
  contents (es1 ++ e :: es2) ≡ₚ (e_key e, e_val e) :: contents (removed es1 e es2).
Proof.
  intros Hl. unfold removed. destruct (decide (1 < nlive (es1 ++ e :: es2))) as [Hm|Hm].
  - rewrite !contents_app, !contents_cons, Hl. cbn [kill e_live e_key e_val app].
    by rewrite <- Permutation_middle.
  - rewrite nlive_app, nlive_cons, Hl in Hm. pose proof (nlive_nonneg es1). pose proof (nlive_nonneg es2).
    assert (forall es, nlive es = 0 -> contents es = []) as Hz.
    { intros es Hes. apply zlen_nil_inv. rewrite contents_nlive. lia. }
    rewrite contents_app, contents_cons, Hl, !Hz by (done || lia). done.
Qed.

Lemma abs_list_insert ess i es es' :
  ess !! i = Some es ->
  abs_list (<[i := es']> ess) ++ contents es ≡ₚ abs_list ess ++ contents es'.
Proof.
  intros Hi. unfold abs_list. revert i Hi. induction ess as [|x ess IH]; intros [|i] Hi; [done|done| |].
  - cbn in Hi |- *. injection Hi as ->.
    rewrite (Permutation_app_comm (contents es') (concat _)), (Permutation_app_comm (contents es) (concat _)).
    rewrite <- !app_assoc. apply Permutation_app_head, Permutation_app_comm.
  - cbn in Hi |- *. rewrite <- !app_assoc. by rewrite (IH i Hi).
Qed.

Lemma abs_perm ess ess' :
  NoDup (abs_list ess).*1 -> abs_list ess' ≡ₚ abs_list ess ->
  NoDup (abs_list ess').*1 /\ abs ess' = abs ess.
Proof.
  intros Hnd Hp. assert (NoDup (abs_list ess').*1) as Hnd' by (by rewrite Hp).
  split; [done|]. by apply list_to_map_proper.
Qed.

(** Adding an entry with a fresh key. *)
Lemma abs_add ess ess' key v :
  NoDup (abs_list ess).*1 -> abs ess !! key = None -> abs_list ess' ≡ₚ (key, v) :: abs_list ess ->
  NoDup (abs_list ess').*1 /\ abs ess' = <[key := v]> (abs ess).
Proof.
  intros Hnd Hk Hp. assert (NoDup (abs_list ess').*1) as Hnd'.
  { rewrite Hp. cbn. constructor; [|done]. intros Hin. by apply not_elem_of_list_to_map_2 in Hk. }
  split; [done|]. unfold abs. by rewrite (list_to_map_proper _ _ Hnd' Hp).
Qed.

(** Dropping the entry of a key. *)
Lemma abs_drop ess ess' key v :
  NoDup (abs_list ess).*1 -> abs_list ess ≡ₚ (key, v) :: abs_list ess' ->
  NoDup (abs_list ess').*1 /\ abs ess' = delete key (abs ess) /\ abs ess' !! key = None.
Proof.
  intros Hnd Hp. assert (NoDup ((key, v) :: abs_list ess').*1) as Hnd' by (by rewrite <- Hp).
  cbn in Hnd'. apply list.NoDup_cons in Hnd' as [Hin Hnd'].
  assert (abs ess' !! key = None) as Hnone by (by apply not_elem_of_list_to_map_1).
  split; [done|]. split; [|done]. unfold abs.
  rewrite (list_to_map_proper _ _ Hnd Hp). cbn. by rewrite delete_insert_id.
Qed.

(** Replacing the entry of a key. *)
Lemma abs_replace ess ess' key v old :
  NoDup (abs_list ess).*1 -> (key, old) ∈ abs_list ess ->
  (key, old) :: abs_list ess' ≡ₚ (key, v) :: abs_list ess ->
  NoDup (abs_list ess').*1 /\ abs ess' = <[key := v]> (abs ess).
Proof.
  intros Hnd Hin Hp. apply elem_of_Permutation in Hin as [l Hl].
  assert (abs_list ess' ≡ₚ (key, v) :: l) as Hl'.
  { rewrite Hl in Hp. apply (Permutation_cons_inv (a := (key, old))). rewrite Hp. apply perm_swap. }
  assert (NoDup (key :: l.*1)) as Hnd' by (rewrite Hl in Hnd; done).
  assert (NoDup (abs_list ess').*1) as Hn by (rewrite Hl'; done).
  split; [done|]. unfold abs.
  rewrite (list_to_map_proper _ _ Hn Hl'), (list_to_map_proper _ _ Hnd Hl). cbn. by rewrite insert_insert_eq.
Qed.

(** Fewer elements satisfy a stronger predicate. *)
Lemma filter_length_lt {A} (P Q : A -> Prop) `{!forall x, Decision (P x), !forall x, Decision (Q x)}
  (l : list A) x :
  (forall y, Q y -> P y) -> x ∈ l -> P x -> ~ Q x -> (length (filter Q l) < length (filter P l))%nat.
Proof.
  intros Hsub Hin HP HQ. assert (forall l, length (filter Q l) <= length (filter P l))%nat as Hle.
  { clear -Hsub. induction l as [|y l IH]; [done|]. rewrite !filter_cons.
    destruct (decide (Q y)) as [HQ|], (decide (P y)) as [|HP]; cbn; try lia. by destruct (HP (Hsub _ HQ)). }
  induction Hin as [x l|x y l Hin IH]; rewrite !filter_cons.
  - rewrite decide_False, decide_True by done. cbn. specialize (Hle l). lia.
  - destruct (decide (Q y)) as [HQy|], (decide (P y)) as [|HPy]; cbn; specialize (IH HP HQ); try lia.
    by destruct (HPy (Hsub _ HQy)).
Qed.

(** ** Finding *)

Fixpoint find_all (key : list Z) (ess : list (list ent)) (i : nat) : option (nat * list ent * ent) :=
  match ess with
  | [] => None
  | es :: ess =>
      match find_live key es with
      | Some (pre, e) => Some (i, pre, e)
      | None => find_all key ess (S i)
      end
  end.

Lemma find_live_some key es pre e :
  find_live key es = Some (pre, e) ->
  exists post, es = pre ++ e :: post /\ e_live e = true /\ e_key e = key.
Proof.
  revert pre. induction es as [|x es IH]; intros pre; cbn; [done|].
  case_decide as Hd; [intros [= <- <-]; exists es; by destruct Hd|].
  destruct (find_live key es) as [[pre' x']|]; [|done]. intros [= <- <-].
  destruct (IH pre' eq_refl) as (post & -> & ? & ?). by exists post.
Qed.

Lemma find_live_absent key es : find_live key es = None -> key ∉ (contents es).*1.
Proof.
  induction es as [|x es IH]; cbn [find_live]; [intros _; apply not_elem_of_nil|]. case_decide as Hd; [done|].
  destruct (find_live key es) as [[pre' x']|]; [done|]. intros _. rewrite contents_cons, fmap_app.
  rewrite elem_of_app. intros [Hin|Hin]; [|by apply IH].
  destruct (e_live x) eqn:El; cbn in Hin; [|by apply elem_of_nil in Hin].
  apply list_elem_of_singleton in Hin. by apply Hd.
Qed.

Lemma find_all_some key ess i j pre e :
  find_all key ess i = Some (j, pre, e) ->
  exists n post, j = (i + n)%nat /\ ess !! n = Some (pre ++ e :: post) /\ e_live e = true /\ e_key e = key.
Proof.
  revert i. induction ess as [|es ess IH]; intros i; cbn; [done|].
  destruct (find_live key es) as [[pre' e']|] eqn:Ef.
  - intros [= <- <- <-]. destruct (find_live_some _ _ _ _ Ef) as (post & -> & ? & ?).
    exists O, post. by rewrite Nat.add_0_r.
  - intros H. destruct (IH _ H) as (n & post & -> & ? & ? & ?). exists (S n), post.
    split; [lia|done].
Qed.

Lemma find_all_none key ess i : find_all key ess i = None -> abs ess !! key = None.
Proof.
  intros H. apply not_elem_of_list_to_map_1. revert i H. unfold abs_list.
  induction ess as [|es ess IH]; intros i; cbn; [intros _; apply not_elem_of_nil|].
  destruct (find_live key es) as [[pre' e']|] eqn:Ef; [done|]. intros H.
  rewrite fmap_app, elem_of_app. intros [Hin|Hin]; [by apply (find_live_absent _ _ Ef)|by apply (IH (S i))].
Qed.

Lemma find_all_elem key ess j pre e :
  find_all key ess 0 = Some (j, pre, e) -> (key, e_val e) ∈ abs_list ess.
Proof.
  intros H. destruct (find_all_some _ _ _ _ _ _ H) as (n & post & _ & Hn & Hl & <-).
  unfold abs_list. apply list_elem_of_In, in_concat.
  exists (contents (pre ++ e :: post)). rewrite <- !list_elem_of_In. split.
  - apply list_elem_of_fmap. eexists. split; [done|]. by eapply list_elem_of_lookup_2.
  - rewrite contents_app, contents_cons, Hl, !elem_of_app, list_elem_of_singleton. auto.
Qed.

Lemma find_all_lookup key ess j pre e :
  NoDup (abs_list ess).*1 -> find_all key ess 0 = Some (j, pre, e) -> abs ess !! key = Some (e_val e).
Proof. intros Hnd H. apply elem_of_list_to_map_1; [done|]. by eapply find_all_elem. Qed.

Section Store.
Context `{FL : Flash} (B : Z) {NF : NorFlash B} (HB : 512 <= B < 65536) (HB4 : B mod 4 = 0).

Record kv_inv (ess : list (list ent)) (k : kv) : Prop := KvInv {
  inv_st : st_ok B ess k;
  inv_nodup : NoDup (abs_list ess).*1;
  inv_bid : 0 <= bid k < zlen ess;
  inv_gc : 0 <= gc_bid k < zlen ess
}.

Definition node_at (r : nat * list ent * ent) : kvnode :=
  let '(i, pre, e) := r in node_of i (zlen (img pre)) e.

Lemma kv_find_ok ess k key :
  st_ok B ess k -> nonzero key -> kv_find key k = Ret (node_at <$> find_all key ess 0).
Proof.
  intros Hst Hk. unfold kv_find. rewrite (so_len _ _ _ Hst).
  assert (forall suf n, drop n ess = suf ->
    find_from (length suf) n key None k = Ret (node_at <$> find_all key suf n)) as Hgen.
  2: { by apply (Hgen ess O). }
  induction suf as [|es suf IH]; intros n Hn; [done|]. cbn [length find_from find_all].
  assert (ess !! n = Some es) as Hlook.
  { rewrite <- (take_drop n ess), Hn, lookup_app_r by (rewrite length_take; lia).
    rewrite length_take. replace (n - (n `min` length ess))%nat with O; [done|].
    assert (n < length ess)%nat; [|lia].
    assert (length (drop n ess) = S (length suf)) by (by rewrite Hn). rewrite length_drop in *. lia. }
  rewrite (find_block B HB HB4 ess k n es) by done. cbn [mbind outcome_bind].
  destruct (find_live key es) as [[pre e]|]; cbn [fmap option_fmap option_map].
  - rewrite decide_True by done. done.
  - apply IH. rewrite <- Nat.add_1_r, <- drop_drop, Hn. done.
Qed.

(** The bytes of an entry inside the copy of its block. *)
Lemma img_around pre e post n :
  img (pre ++ e :: post) ++ erased n = img pre ++ eimg e ++ (img post ++ erased n).
Proof. rewrite img_app, img_cons. by norm_app. Qed.

(** [kv_get]: the value's length and as much of the value as fits the buffer. *)
Lemma kv_get_ok ess k key sz :
  st_ok B ess k -> NoDup (abs_list ess).*1 -> nonzero key -> 0 <= sz ->
  kv_get key sz k = Ret (match abs ess !! key with
                         | Some v => (zlen v, ztake sz v)
                         | None => (-1, [])
                         end).
Proof.
  intros Hst Hnd Hk Hsz. unfold kv_get. rewrite (kv_find_ok ess) by done. cbn [mbind outcome_bind].
  destruct (find_all key ess 0) as [[[j pre] e]|] eqn:Ef; cbn [fmap option_fmap option_map].
  2: { by rewrite (find_all_none _ _ _ Ef). }
  rewrite (find_all_lookup _ _ _ _ _ Hnd Ef).
  destruct (find_all_some _ _ _ _ _ _ Ef) as (n & post & -> & Hn & Hl & _). cbn [node_at].
  cbn [nblock node_of Nat.add]. rewrite (cache_ok B HB HB4 ess k n _ Hst Hn). cbn [mbind outcome_bind].
  rewrite img_around. cbn [rw value_offset val_size node_of].
  rewrite decide_True by done.
  destruct (value_at (img pre) e (img post ++ erased (B - zlen (img (pre ++ e :: post))))) as [Hv [rest Hr]].
  apply mem_read_inv in Hv as (H1 & H2 & H3 & _).
  rewrite mem_read_ok by lia. cbn [mbind outcome_bind]. do 2 f_equal. rewrite Hr.
  unfold ztake. rewrite take_app_le by (unfold zlen; lia).
  unfold zlen. destruct (decide (Z.of_nat (length (e_val e)) <= sz)).
  - rewrite !take_ge by lia. done.
  - f_equal. lia.
Qed.

(** ** Garbage collection *)

(** The copy the collector makes of an entry. *)
Definition bump (e : ent) : ent := Ent (e_key e) (e_val e) (next_version (e_ver e)) true.

Lemma bump_ok e : ent_ok e -> ent_ok (bump e).
Proof.
  intros [? ? ? Hv]. split; cbn; try done. unfold next_version. case_decide; lia.
Qed.

Lemma bump_len e : zlen (eimg (bump e)) = zlen (eimg e).
Proof. by rewrite !eimg_len. Qed.

Definition live_only (es : list ent) : list ent := filter (fun e => e_live e = true) es.

Lemma live_only_cons e es : live_only (e :: es) = if e_live e then e :: live_only es else live_only es.
Proof.
  unfold live_only. rewrite filter_cons. destruct (e_live e); [by rewrite decide_True|by rewrite decide_False].
Qed.

Lemma kill_nlive e es : nlive (kill e :: es) = nlive es.
Proof. rewrite nlive_cons. cbn. lia. Qed.

(** Copying one live entry of block [i] to block [g] and removing the original. *)
Lemma deep_gc_step i g ess k pre e es gs a post :
  st_ok B ess k -> i <> g -> ess !! i = Some (pre ++ e :: es) -> ess !! g = Some gs ->
  e_live e = true -> ent_ok e -> zlen a = zlen (img pre) ->
  zlen (img gs) + zlen (eimg e) <= B - 4 ->
  exists k', deep_gc g (a ++ eimg e ++ post) (node_of i (zlen a) e) k = Ret (0, k') /\
    st_ok B (<[i := removed pre e es]> (<[g := gs ++ [bump e]]> ess)) k' /\
    bid k' = bid k /\ gc_bid k' = gc_bid k.
Proof.
  intros Hst Hne Hi Hg Hl He Ha Hroom. unfold deep_gc.
  change (rw (node_of i (zlen a) e)) with 1. change (head_offset (node_of i (zlen a) e)) with (zlen a).
  change (value_offset (node_of i (zlen a) e)) with (zlen a + zlen (e_key e) + 5).
  change (val_size (node_of i (zlen a) e)) with (zlen (e_val e)).
  change (version (node_of i (zlen a) e)) with (e_ver e). rewrite decide_True by done.
  rewrite string_at_key by done. cbn [mbind outcome_bind].
  destruct (value_at a e post) as [_ [rest ->]].
  destruct (set_fits B HB HB4 ess k g gs (e_key e) (e_val e) rest (next_version (e_ver e)))
    as (k1 & -> & Hst1 & Hb1 & Hg1); [done|done|by apply (bump_ok e)|by rewrite <- (bump_len e) in Hroom|].
  change (entry_of (e_key e) (e_val e) (next_version (e_ver e))) with (bump e) in Hst1.
  cbn [mbind outcome_bind]. rewrite decide_True by apply zlen_nonneg. rewrite Ha.
  destruct (rm_ok B HB HB4 (<[g := gs ++ [bump e]]> ess) k1 i pre e es) as (k2 & -> & Hst2 & Hb2 & Hg2);
    [done|by rewrite list_lookup_insert_ne|done|].
  cbn [mbind outcome_bind]. exists k2. split; [done|]. split; [done|]. split; congruence.
Qed.

(** Moving all live entries of block [i] to block [g]; [pre] is what was visited. *)
Lemma deep_gc_fold i g n es : forall ess k pre gs a,
  st_ok B ess k -> i <> g -> ess !! i = Some (pre ++ es) -> ess !! g = Some gs ->
  nlive pre = 0 -> zlen a = zlen (img pre) -> Forall ent_ok es ->
  zlen (img gs) + live_size es <= B - 4 ->
  exists k', fold_ents false (deep_gc g (a ++ img es ++ erased n)) i (zlen a) es k = Ret (0, k') /\
    st_ok B (<[i := if decide (0 < nlive es) then [] else pre ++ es]>
               (<[g := gs ++ (bump <$> live_only es)]> ess)) k' /\
    bid k' = bid k /\ gc_bid k' = gc_bid k.
Proof.
  induction es as [|e es IH]; intros ess k pre gs a Hst Hne Hi Hg Hpre Ha Hes Hroom.
  { exists k. split; [done|]. change (live_only []) with (@nil ent). change (nlive []) with 0.
    cbn [fmap list_fmap]. rewrite decide_False by lia. rewrite !app_nil_r in *.
    rewrite (list_insert_id ess g gs Hg), (list_insert_id ess i pre Hi). done. }
  inversion Hes as [|? ? He Hes']; subst. rewrite live_size_cons in Hroom.
  rewrite nlive_cons, live_only_cons. cbn [fold_ents orb]. pose proof (nlive_nonneg es).
  assert (a ++ img (e :: es) ++ erased n = (a ++ eimg e) ++ img es ++ erased n) as Hm
    by (rewrite img_cons; by norm_app).
  assert (zlen (a ++ eimg e) = zlen a + zlen (eimg e)) as Hae by apply zlen_app.
  destruct (e_live e) eqn:El.
  - pose proof (live_size_le es). pose proof (zlen_nonneg (eimg e)).
    assert (a ++ img (e :: es) ++ erased n = a ++ eimg e ++ (img es ++ erased n)) as Hm2
      by (rewrite img_cons; by norm_app).
    destruct (deep_gc_step i g ess k pre e es gs a (img es ++ erased n)) as (k1 & E1 & Hst1 & Hb1 & Hg1);
      [done..|lia|]. rewrite <- Hm2 in E1. rewrite E1. cbn [mbind outcome_bind].
    rewrite (decide_False (P := 0 <> 0)) by tauto. rewrite Hm, <- Hae.
    destruct (decide (0 < nlive es)) as [Hpos|Hz].
    + rewrite decide_True by lia.
      assert (removed pre e es = (pre ++ [kill e]) ++ es) as Hrem.
      { unfold removed. rewrite nlive_app, nlive_cons, El, decide_True by lia. by norm_app. }
      rewrite Hrem in Hst1.
      destruct (IH _ k1 (pre ++ [kill e]) (gs ++ [bump e]) (a ++ eimg e) Hst1) as (k2 & E2 & Hst2 & Hb2 & Hg2);
        [done| | | | |done| |].
      * rewrite list_lookup_insert_eq; [done|]. rewrite length_insert. by eapply lookup_lt_Some.
      * rewrite list_lookup_insert_ne, list_lookup_insert_eq by (done || by eapply lookup_lt_Some). done.
      * rewrite nlive_app, kill_nlive, Hpre. done.
      * rewrite Hae, img_app, zlen_app, img_cons, zlen_app, eimg_kill_len, Ha.
        change (img []) with (@nil Z). rewrite zlen_nil. lia.
      * rewrite img_app, zlen_app, img_cons, zlen_app, bump_len. change (img []) with (@nil Z).
        rewrite zlen_nil. lia.
      * exists k2. split; [done|]. split; [|split; congruence].
        norm_app in Hst2.
        rewrite (list_insert_insert_ne _ g i), list_insert_insert_eq, list_insert_insert_eq in Hst2 by done.
        done.
    + (* that was the last live entry: the block has been erased *)
      assert (nlive es = 0) as Hz0 by lia.
      assert (live_only es = []) as Hlo by (apply zlen_nil_inv; unfold live_only; fold (nlive es); lia).
      assert (removed pre e es = []) as Hrem.
      { unfold removed. rewrite nlive_app, nlive_cons, El, decide_False by lia. done. }
      rewrite Hrem in Hst1. rewrite decide_True by lia. rewrite Hlo.
      assert (forall off k m, fold_ents false (deep_gc g m) i off es k = Ret (0, k)) as Hdead.
      { clear -Hz0. induction es as [|x es IH]; intros off k m; [done|].
        rewrite nlive_cons in Hz0. pose proof (nlive_nonneg es). cbn [fold_ents orb].
        destruct (e_live x); [lia|]. cbn [mbind outcome_bind]. rewrite decide_False by tauto. apply IH. lia. }
      rewrite Hdead. exists k1. split; [done|]. split; [exact Hst1|done].
  - cbn [mbind outcome_bind]. rewrite (decide_False (P := 0 <> 0)) by tauto. rewrite Hm, <- Hae.
    rewrite (Z.add_0_l (nlive es)).
    destruct (IH ess k (pre ++ [e]) gs (a ++ eimg e) Hst Hne) as (k2 & E2 & Hst2 & Hb2 & Hg2).
    + by norm_app.
    + done.
    + rewrite nlive_app, nlive_cons, El, Hpre. done.
    + rewrite Hae, img_app, zlen_app, img_cons, zlen_app, Ha. change (img []) with (@nil Z).
      rewrite zlen_nil. lia.
    + done.
    + lia.
    + exists k2. norm_app in Hst2. done.
Qed.

Lemma live_only_contents es : contents (bump <$> live_only es) = contents es.
Proof.
  induction es as [|e es IH]; [done|]. rewrite live_only_cons, contents_cons.
  destruct (e_live e); [|done]. cbn [fmap list_fmap]. rewrite contents_cons, IH. done.
Qed.

(** One turn of the collector: block [i] ends up erased, its entries in [g]. *)
Definition moved (i g : nat) (ess : list (list ent)) : list (list ent) :=
  <[i := []]> (<[g := default [] (ess !! g) ++ (bump <$> live_only (default [] (ess !! i)))]> ess).

Lemma gc_block_ok ess k i g es gs :
  st_ok B ess k -> i <> g -> ess !! i = Some es -> ess !! g = Some gs ->
  0 < nlive es -> live_size es < B - zlen (img gs) ->
  exists k', kvblock_iter i false (deep_gc g) k k = Ret (0, k') /\
    st_ok B (moved i g ess) k' /\ bid k' = bid k /\ gc_bid k' = gc_bid k.
Proof.
  intros Hst Hne Hi Hg Hlive Hroom. rewrite (iter_block B HB HB4 ess k i es) by done.
  destruct (st_ok_block B HB HB4 _ _ _ _ Hst Hi) as (b & _ & Hok & _).
  destruct (deep_gc_fold i g (B - zlen (img es)) es ess k [] gs []) as (k' & E & Hst' & Hb & Hgc);
    try done; [apply Hok| |].
  { pose proof (live_size_mod es). pose proof (img_len_mod gs). lia. }
  exists k'. split; [exact E|]. rewrite decide_True in Hst' by done.
  unfold moved. rewrite Hi, Hg. done.
Qed.

Lemma moved_abs i g ess es gs :
  i <> g -> ess !! i = Some es -> ess !! g = Some gs -> abs_list (moved i g ess) ≡ₚ abs_list ess.
Proof.
  intros Hne Hi Hg. unfold moved. rewrite Hi, Hg. cbn [default].
  pose proof (abs_list_insert ess g gs (gs ++ (bump <$> live_only es)) Hg) as H1.
  pose proof (abs_list_insert (<[g := gs ++ (bump <$> live_only es)]> ess) i es []) as H2.
  rewrite list_lookup_insert_ne in H2 by done. specialize (H2 Hi).
  change (contents []) with (@nil (list Z * list Z)) in H2. rewrite app_nil_r in H2.
  rewrite contents_app, live_only_contents, app_assoc in H1.
  rewrite <- H2 in H1. apply (Permutation_app_inv_r (contents gs)).
  apply (Permutation_app_inv_r (contents es)). rewrite <- !app_assoc, (Permutation_app_comm (contents gs)), !app_assoc.
  rewrite H1. by rewrite <- !app_assoc, (Permutation_app_comm (contents gs)).
Qed.

Lemma moved_length i g ess : length (moved i g ess) = length ess.
Proof. unfold moved. by rewrite !length_insert. Qed.

Lemma moved_lookup i g ess j :
  j <> i -> j <> g -> moved i g ess !! j = ess !! j.
Proof. intros Hi Hg. unfold moved. by rewrite !list_lookup_insert_ne. Qed.

(** ** The search for the least used block *)

Lemma min_used_spec bs : forall i gc mid ms r,
  min_used bs i gc mid ms = r ->
  r = mid \/ exists n b, bs !! n = Some b /\ r = i + Z.of_nat n /\ r <> gc /\ 0 < kv_size b < ms.
Proof.
  induction bs as [|b bs IH]; intros i gc mid ms r; cbn; [by left|]. case_decide as Hd; intros Hr.
  - right. destruct (IH _ _ _ _ _ Hr) as [->|(n & b' & Hn & -> & Hg & Hs)].
    + exists O, b. split; [done|]. lia.
    + exists (S n), b'. split; [done|]. lia.
  - destruct (IH _ _ _ _ _ Hr) as [->|(n & b' & Hn & -> & Hg & Hs)]; [by left|].
    right. exists (S n), b'. split; [done|]. lia.
Qed.

(** The blocks the collector may still empty. *)
Definition is_busy (g : nat) (ess : list (list ent)) (i : nat) : Prop :=
  i <> g /\ 0 < nlive (default [] (ess !! i)).
#[local] Instance is_busy_dec g ess i : Decision (is_busy g ess i).
Proof. unfold is_busy. apply _. Defined.
Definition busy (g : nat) (ess : list (list ent)) : nat :=
  length (filter (is_busy g ess) (seq 0 (length ess))).

Lemma busy_moved i g ess es :
  ess !! i = Some es -> i <> g -> 0 < nlive es -> (busy g (moved i g ess) < busy g ess)%nat.
Proof.
  intros Hi Hne Hl. unfold busy. rewrite moved_length.
  apply lookup_lt_Some in Hi as Hlt.
  apply (filter_length_lt _ _ _ i).
  - intros y [Hy Hn]. split; [done|]. destruct (decide (y = i)) as [->|Hyi].
    + by rewrite Hi.
    + by rewrite moved_lookup in Hn.
  - apply list_elem_of_In, in_seq. lia.
  - split; [done|]. by rewrite Hi.
  - intros [_ Hn]. unfold moved in Hn. rewrite list_lookup_insert_eq in Hn by (by rewrite length_insert).
    by vm_compute in Hn.
Qed.

Lemma busy_bound g ess : (busy g ess <= length ess)%nat.
Proof. unfold busy. etrans; [apply length_filter|]. by rewrite length_seq. Qed.

(** ** The collector *)

(** What the collector may do: move live entries between blocks. *)
Record gc_ed (ess : list (list ent)) (k : kv) (ess' : list (list ent)) (k' : kv) : Prop := GcEd {
  gc_st : st_ok B ess' k';
  gc_abs : abs_list ess' ≡ₚ abs_list ess;
  gc_len : length ess' = length ess;
  gc_bid_same : bid k' = bid k;
  gc_gc_same : gc_bid k' = gc_bid k
}.

Lemma gc_loop_ok fuel : forall new ess k,
  st_ok B ess k -> 0 <= gc_bid k < zlen ess -> (busy (Z.to_nat (gc_bid k)) ess < fuel)%nat ->
  (new = -1 \/ 0 <= new < zlen ess /\ ess !! Z.to_nat new = Some [] /\ new <> gc_bid k) ->
  exists r k' ess', gc_loop fuel new k = Ret (r, k') /\ gc_ed ess k ess' k' /\
    (r = -1 \/ 0 <= r < zlen ess' /\ ess' !! Z.to_nat r = Some [] /\ r <> gc_bid k').
Proof.
  induction fuel as [|fuel IH]; intros new ess k Hst Hgc Hbusy Hnew; [lia|]. cbn [gc_loop].
  rewrite (decide_False (P := gc_bid k < 0)) by lia.
  set (g := Z.to_nat (gc_bid k)) in *.
  destruct (lookup_lt_is_Some_2 ess g) as [gs Hg]; [unfold zlen in Hgc; lia|].
  destruct (st_ok_block B HB HB4 _ _ _ _ Hst Hg) as (bg & Hbg & Hokg & _). rewrite Hbg. cbn [mbind outcome_bind].
  rewrite (bo_size _ _ _ _ _ Hokg), (bo_wo _ _ _ _ _ Hokg).
  destruct (decide (min_used (blocks k) 0 (gc_bid k) (-1) (B - zlen (img gs)) = -1)) as [E|E].
  { rewrite E, decide_False by tauto. exists new, k, ess. split; [done|]. split; [by constructor|done]. }
  rewrite decide_True by done.
  destruct (min_used_spec (blocks k) 0 (gc_bid k) (-1) (B - zlen (img gs)) _ eq_refl)
    as [?|(i & b & Hb & Hr & Hne & Hsz)]; [done|]. rewrite Hr, Z.add_0_l, Nat2Z.id in *.
  assert (i < length ess)%nat as Hlt by (rewrite <- (so_len _ _ _ Hst); by eapply lookup_lt_Some).
  destruct (lookup_lt_is_Some_2 ess i Hlt) as [es Hi].
  destruct (so_blk _ _ _ Hst i es Hi) as (b' & Hb' & Hok). simplify_eq.
  rewrite (bo_kvsize _ _ _ _ _ Hok) in Hsz. assert (i <> g) as Hig by (unfold g; lia).
  assert (0 < nlive es) as Hlive.
  { pose proof (nlive_nonneg es). destruct (decide (nlive es = 0)) as [Hz|]; [|lia].
    assert (live_size es = 0); [|lia]. unfold live_size.
    assert (filter (fun e => e_live e = true) es = []) as -> by (apply zlen_nil_inv; fold (nlive es); lia).
    done. }
  destruct (gc_block_ok ess k i g es gs) as (k1 & E1 & Hst1 & Hb1 & Hg1); [done..|lia|].
  rewrite E1. cbn [mbind outcome_bind].
  assert (moved i g ess !! i = Some []) as Hempty.
  { unfold moved. by rewrite list_lookup_insert_eq by (by rewrite length_insert). }
  destruct (st_ok_block B HB HB4 _ _ _ _ Hst1 Hempty) as (b1 & Hb1' & Hok1 & _).
  rewrite Hb1'. cbn [mbind outcome_bind]. rewrite (bo_count _ _ _ _ _ Hok1).
  change (nlive []) with 0. rewrite decide_True by done.
  destruct (IH (Z.of_nat i) (moved i g ess) k1 Hst1) as (r & k2 & ess2 & E2 & [Hst2 Habs2 Hlen2 Hbid2 Hgc2] & Hr2).
  - unfold zlen. rewrite moved_length, Hg1. exact Hgc.
  - rewrite Hg1. fold g. pose proof (busy_moved i g ess es Hi Hig Hlive). lia.
  - right. rewrite Nat2Z.id. split; [unfold zlen; rewrite moved_length; lia|]. split; [done|]. rewrite Hg1. lia.
  - exists r, k2, ess2. split; [done|]. split; [|done]. split; try congruence.
    + by rewrite Habs2, (moved_abs i g ess es gs).
    + rewrite Hlen2. apply moved_length.
Qed.

Lemma kv_gc_inv ess k :
  kv_inv ess k ->
  exists rc k' ess', kv_gc k = Ret (rc, k') /\ kv_inv ess' k' /\ abs ess' = abs ess /\
    length ess' = length ess /\ (rc = 0 \/ rc = -1) /\
    (rc = 0 -> gc_bid k' <> gc_bid k /\ ess' !! Z.to_nat (gc_bid k') = Some []).
Proof.
  intros [Hst Hnd Hb Hg]. unfold kv_gc. rewrite (so_len _ _ _ Hst).
  destruct (gc_loop_ok (S (length ess)) (-1) ess k Hst Hg) as (r & k' & ess' & -> & [Hst' Habs Hlen Hbid Hgc] & Hr);
    [pose proof (busy_bound (Z.to_nat (gc_bid k)) ess); lia|by left|].
  cbn [mbind outcome_bind]. destruct (abs_perm ess ess' Hnd Habs) as [Hnd' Ha].
  assert (zlen ess' = zlen ess) as Hz by (unfold zlen; by rewrite Hlen).
  destruct Hr as [->|(Hr & He & Hne)].
  - rewrite decide_False by tauto. exists (-1), k', ess'. split; [done|].
    split; [split; (done || congruence || lia)|]. split; [done|]. split; [done|]. split; [by right|done].
  - rewrite decide_True by lia. eexists 0, _, ess'. split; [done|]. cbn [gc_bid with_gc_bid].
    split; [|split; [done|split; [done|split; [by left|intros _; split; [congruence|done]]]]].
    split; cbn [gc_bid bid with_gc_bid]; [by destruct Hst'|done|lia|lia].
Qed.

(** ** Placing a node *)

Definition fits (ess : list (list ent)) (j : nat) (e : ent) : Prop :=
  exists es, ess !! j = Some es /\ zlen (img es) + zlen (eimg e) <= B - 4.

(** Trying the next [n] blocks, going round. *)
Lemma set_loop_ok n : forall start ess k key value rest ver,
  st_ok B ess k -> 0 <= bid k < zlen ess -> 0 <= start < zlen ess ->
  ent_ok (entry_of key value ver) ->
  Z.of_nat n = (if decide (bid k < start) then start - bid k else start - bid k + zlen ess) ->
  exists ok k', set_loop n start key (value ++ rest) (zlen value) ver k = Ret (ok, k') /\
    gc_bid k' = gc_bid k /\ 0 <= bid k' < zlen ess /\
    if ok : bool then
      exists i es, ess !! i = Some es /\ Z.of_nat i <> gc_bid k /\
        st_ok B (<[i := es ++ [entry_of key value ver]]> ess) k'
    else st_ok B ess k' /\
      forall d, 0 <= d < Z.of_nat n -> (bid k + d) mod zlen ess <> gc_bid k ->
        ~ fits ess (Z.to_nat ((bid k + d) mod zlen ess)) (entry_of key value ver).
Proof.
  induction n as [|n IH]; intros start ess k key value rest ver Hst Hb Hs He Hd; [case_decide; lia|].
  cbn [set_loop]. rewrite decide_False by lia. set (N := zlen ess) in *.
  destruct (lookup_lt_is_Some_2 ess (Z.to_nat (bid k))) as [es Hi]; [unfold N, zlen in Hb; lia|].
  destruct (st_ok_block B HB HB4 _ _ _ _ Hst Hi) as (b & Hbk & Hok & _). rewrite Hbk. cbn [mbind outcome_bind].
  rewrite (bo_ro _ _ _ _ _ Hok).
  assert ((exists k1, (if decide (0 = 0 /\ bid k <> gc_bid k)
             then kvblock_set (Z.to_nat (bid k)) key (value ++ rest) (zlen value) ver k else Ret (-1, k))
             = Ret (zlen (img es), k1) /\ bid k <> gc_bid k /\
             st_ok B (<[Z.to_nat (bid k) := es ++ [entry_of key value ver]]> ess) k1 /\
             bid k1 = bid k /\ gc_bid k1 = gc_bid k) \/
          ((if decide (0 = 0 /\ bid k <> gc_bid k)
             then kvblock_set (Z.to_nat (bid k)) key (value ++ rest) (zlen value) ver k else Ret (-1, k))
             = Ret (-1, k) /\
           (bid k <> gc_bid k -> ~ fits ess (Z.to_nat (bid k)) (entry_of key value ver)))) as [Htry|Htry].
  { destruct (decide (0 = 0 /\ bid k <> gc_bid k)) as [[_ Hne]|Heq]; [|right; split; [done|tauto]].
    destruct (decide (zlen (img es) + zlen (eimg (entry_of key value ver)) <= B - 4)) as [Hf|Hf].
    - left. destruct (set_fits B HB HB4 ess k (Z.to_nat (bid k)) es key value rest ver)
        as (k1 & E & Hst1 & ? & ?); [done..|]. exists k1. done.
    - right. rewrite (set_no_room B HB HB4 ess k _ es) by done. split; [done|].
      intros _ (es' & Hes' & Hf'). rewrite Hi in Hes'. by injection Hes' as <-. }
  - destruct Htry as (k1 & -> & Hne & Hst1 & Hb1 & Hg1). cbn [mbind outcome_bind].
    rewrite decide_True by apply zlen_nonneg. exists true, k1. split; [done|]. split; [done|].
    split; [lia|]. exists (Z.to_nat (bid k)), es. split; [done|]. split; [lia|done].
  - destruct Htry as (-> & Hnofit). cbn [mbind outcome_bind].
    rewrite (decide_False (P := 0 <= -1)) by lia. cbn [bid with_bid].
    assert (zlen (blocks k) = N) as -> by (unfold N, zlen; by rewrite (so_len _ _ _ Hst)).
    assert ((bid k + 1) mod N = if decide (bid k + 1 < N) then bid k + 1 else 0) as Hnext.
    { destruct (decide (bid k + 1 < N)); [apply Z.mod_small; lia|]. assert (bid k + 1 = N) as -> by lia. apply Z.mod_same. lia. }
    destruct (decide ((bid k + 1) mod N = start)) as [Hend|Hmore].
    + exists false. eexists. split; [done|]. split; [done|]. split; [cbn; rewrite Hend; lia|].
      split; [by destruct Hst|]. intros d Hd' Hne.
      assert (n = O) as -> by (rewrite Hnext in Hend; repeat case_decide; lia).
      assert (d = 0) as -> by lia. rewrite Z.add_0_r, Z.mod_small in * by lia. by apply Hnofit.
    + destruct (IH start ess (with_bid ((bid k + 1) mod N) k) key value rest ver) as (ok & k2 & E2 & Hg2 & Hb2 & Hres).
      * by destruct Hst.
      * cbn. rewrite Hnext. destruct (decide (bid k + 1 < N)); lia.
      * done.
      * done.
      * cbn. fold N. rewrite Hnext in Hmore |- *. repeat case_decide; lia.
      * exists ok, k2. split; [exact E2|]. split; [exact Hg2|]. split; [done|].
        destruct ok; [exact Hres|]. destruct Hres as [Hst2 Hall]. split; [done|].
        intros d Hd' Hne. destruct (decide (d = 0)) as [->|Hd0].
        { rewrite Z.add_0_r, Z.mod_small in * by lia. by apply Hnofit. }
        specialize (Hall (d - 1)). cbn [bid gc_bid with_bid] in Hall. fold N in Hall.
        assert (((bid k + 1) mod N + (d - 1)) mod N = (bid k + d) mod N) as Hmm.
        { rewrite Z.add_mod_idemp_l by lia. f_equal. lia. }
        rewrite Hmm in Hall. apply Hall; [lia|done].
Qed.

(** Adding an entry behind block [i]. *)
Lemma abs_list_add ess i es e :
  ess !! i = Some es -> e_live e = true ->
  abs_list (<[i := es ++ [e]]> ess) ≡ₚ (e_key e, e_val e) :: abs_list ess.
Proof.
  intros Hi Hl. pose proof (abs_list_insert ess i es (es ++ [e]) Hi) as H.
  rewrite contents_app, contents_cons, Hl in H. change (contents []) with (@nil (list Z * list Z)) in H.
  rewrite app_nil_r in H. apply (Permutation_app_inv_r (contents es)). rewrite H.
  rewrite (Permutation_app_comm (contents es)), app_assoc, (Permutation_app_comm (abs_list ess)). done.
Qed.

(** Removing an entry from block [j]. *)
Lemma abs_list_rm ess j pre e post :
  ess !! j = Some (pre ++ e :: post) -> e_live e = true ->
  abs_list ess ≡ₚ (e_key e, e_val e) :: abs_list (<[j := removed pre e post]> ess).
Proof.
  intros Hj Hl. pose proof (abs_list_insert ess j _ (removed pre e post) Hj) as H.
  rewrite (contents_removed pre e post Hl) in H.
  apply (Permutation_app_inv_r (contents (removed pre e post))). rewrite <- H.
  rewrite <- Permutation_middle. done.
Qed.

Lemma kv_inv_bid ess k k' :
  kv_inv ess k -> st_ok B ess k' -> 0 <= bid k' < zlen ess -> gc_bid k' = gc_bid k -> kv_inv ess k'.
Proof. intros [? ? ? ?] Hst Hb Hg. split; [done|done|done|by rewrite Hg]. Qed.

(** Placing the new node and removing the old one. *)
Lemma set_place_ok ess k key value rest ver :
  kv_inv ess k -> ent_ok (entry_of key value ver) ->
  exists ok k' ess', set_place (node_at <$> find_all key ess 0) key (value ++ rest) (zlen value) ver k
                     = Ret (ok, k') /\ kv_inv ess' k' /\
    if ok : bool then abs ess' = <[key := value]> (abs ess)
    else ess' = ess /\ forall j, Z.of_nat j <> gc_bid k -> ~ fits ess j (entry_of key value ver).
Proof.
  intros Hinv He. pose proof Hinv as [Hst Hnd Hb Hg]. unfold set_place. rewrite (so_len _ _ _ Hst).
  destruct (set_loop_ok (length ess) (bid k) ess k key value rest ver) as (ok & k1 & -> & Hg1 & Hb1 & Hres);
    [done..|rewrite decide_False by lia; unfold zlen; lia|]. cbn [mbind outcome_bind].
  set (new := entry_of key value ver) in *. destruct ok.
  2: { destruct Hres as [Hst1 Hall]. exists false, k1, ess. split; [done|].
       split; [by eapply kv_inv_bid|]. split; [done|]. intros j Hj Hfit.
       assert (Z.of_nat j < zlen ess) as Hlt.
       { destruct Hfit as (es & Hes & _). apply lookup_lt_Some in Hes. unfold zlen. lia. }
       apply (Hall ((Z.of_nat j - bid k) mod zlen ess)).
       - unfold zlen in *. apply Z.mod_pos_bound. lia.
       - rewrite Z.add_mod_idemp_r, (Z.add_comm (bid k)), Z.sub_add, Z.mod_small by lia. done.
       - rewrite Z.add_mod_idemp_r, (Z.add_comm (bid k)), Z.sub_add, Z.mod_small, Nat2Z.id by lia. done. }
  destruct Hres as (i & es & Hi & Hne & Hst1).
  pose proof (abs_list_add ess i es new Hi eq_refl) as Hadd.
  destruct (find_all key ess 0) as [[[j pre] e]|] eqn:Ef; cbn [fmap option_fmap option_map].
  - destruct (find_all_some _ _ _ _ _ _ Ef) as (n & post & -> & Hn & Hl & Hkey). cbn [node_at Nat.add].
    assert (exists post', <[i := es ++ [new]]> ess !! n = Some (pre ++ e :: post')) as [post' Hn'].
    { destruct (decide (i = n)) as [->|Hin].
      - exists (post ++ [new]). rewrite list_lookup_insert_eq by (by eapply lookup_lt_Some).
        rewrite Hi in Hn. injection Hn as ->. by norm_app.
      - exists post. by rewrite list_lookup_insert_ne. }
    destruct (rm_ok B HB HB4 _ k1 n pre e post' Hst1 Hn' Hl) as (k2 & -> & Hst2 & Hb2 & Hg2).
    cbn [mbind outcome_bind]. eexists true, k2, _. split; [done|].
    pose proof (abs_list_rm _ n pre e post' Hn' Hl) as Hrm. rewrite Hkey in Hrm.
    destruct (abs_replace ess (<[n := removed pre e post']> (<[i := es ++ [new]]> ess)) key value (e_val e))
      as [Hnd2 Habs2]; [done|by eapply find_all_elem|by rewrite <- Hrm|].
    split; [|done]. split; [done|done| |]; unfold zlen; rewrite !length_insert; unfold zlen in *; [lia|].
    rewrite Hg2, Hg1. lia.
  - cbn [mbind outcome_bind]. exists true, k1, (<[i := es ++ [new]]> ess). split; [done|].
    destruct (abs_add ess (<[i := es ++ [new]]> ess) key value) as [Hnd2 Habs2];
      [done|by eapply find_all_none|done|].
    split; [|done]. split; [done|done| |]; unfold zlen; rewrite !length_insert; unfold zlen in *; [lia|].
    rewrite Hg1. lia.
Qed.

(** Looking the key up: nothing to do when the value is there already, else the
    version for the new node. *)
Lemma set_lookup_ok ess k v0 key value rest :
  kv_inv ess k -> nonzero key -> 1 <= zlen value < 498 ->
  set_lookup v0 key (value ++ rest) (zlen value) k =
    Ret (node_at <$> find_all key ess 0,
         match find_all key ess 0 with
         | Some (_, _, e) => if decide (e_val e = value) then None else Some (next_version (e_ver e))
         | None => Some (v0 + 1)
         end).
Proof.
  intros [Hst Hnd Hb Hg] Hk Hv. unfold set_lookup. rewrite (kv_find_ok ess) by done. cbn [mbind outcome_bind].
  destruct (find_all key ess 0) as [[[j pre] e]|] eqn:Ef; cbn [fmap option_fmap option_map]; [|done].
  destruct (find_all_some _ _ _ _ _ _ Ef) as (n & post & -> & Hn & Hl & Hkey). cbn [node_at Nat.add].
  change (nblock (node_of n (zlen (img pre)) e)) with n.
  rewrite (cache_ok B HB HB4 ess k n _ Hst Hn). cbn [mbind outcome_bind]. rewrite img_around.
  set (nd := node_of n (zlen (img pre)) e).
  change (val_size nd) with (zlen (e_val e)). change (value_offset nd) with (zlen (img pre) + zlen (e_key e) + 5).
  change (version nd) with (e_ver e).
  assert (u16 (zlen value) = zlen value) as -> by (apply Z.mod_small; lia).
  assert (mem_read (value ++ rest) 0 (zlen value) = Ret value) as Hread.
  { pose proof (mem_read_exact [] value rest) as M. exact M. }
  destruct (value_at (img pre) e (img post ++ erased (B - zlen (img (pre ++ e :: post))))) as [Hev _].
  destruct (decide (zlen (e_val e) = zlen value)) as [Hlen|Hlen].
  - rewrite <- Hlen, Hev. cbn [mbind outcome_bind]. rewrite Hlen, Hread. cbn [mbind outcome_bind].
    destruct (decide (e_val e = value)) as [Heq|Hneq].
    + rewrite bool_decide_eq_true_2 by done. done.
    + rewrite bool_decide_eq_false_2 by done. unfold next_version. by destruct (decide (e_ver e = 255)).
  - cbn [mbind outcome_bind]. rewrite (decide_False (P := e_val e = value)) by (intros E; by rewrite E in Hlen).
    unfold next_version. by destruct (decide (e_ver e = 255)).
Qed.

(** The version [set_lookup] chooses is one. *)
Lemma set_version_ok ess k v0 key value ver :
  (find_all key ess 0 = None -> v0 = 0) -> kv_inv ess k -> key_ok key -> bytes value -> 1 <= zlen value -> zlen key + zlen value < 498 ->
  match find_all key ess 0 with
  | Some (_, _, e) => if decide (e_val e = value) then None else Some (next_version (e_ver e))
  | None => Some (v0 + 1)
  end = Some ver -> ent_ok (entry_of key value ver).
Proof.
  intros Hv0 [Hst _ _ _] Hk Hv H1 H2 Hver. split; cbn; try done.
  destruct (find_all key ess 0) as [[[j pre] e]|] eqn:Ef.
  - destruct (find_all_some _ _ _ _ _ _ Ef) as (n & post & -> & Hn & _).
    destruct (st_ok_block B HB HB4 _ _ _ _ Hst Hn) as (b & _ & Hok & _).
    pose proof (bo_ents _ _ _ _ _ Hok) as Hes. apply Forall_app in Hes as [_ Hes].
    inversion Hes as [|? ? [_ _ _ Hev] _]; subst. destruct (decide _); [done|]. injection Hver as <-.
    unfold next_version. case_decide; lia.
  - injection Hver as <-. rewrite Hv0 by done. lia.
Qed.

(** One attempt of [kv_set] from the label [start1]. *)
Lemma set_attempt_ok ess k v0 key value rest :
  (find_all key ess 0 = None -> v0 = 0) -> kv_inv ess k -> key_ok key -> bytes value -> 1 <= zlen value -> zlen key + zlen value < 498 ->
  exists old todo, set_lookup v0 key (value ++ rest) (zlen value) k = Ret (old, todo) /\
    old = node_at <$> find_all key ess 0 /\
    match todo with
    | None => abs ess !! key = Some value
    | Some ver => ent_ok (entry_of key value ver) /\ (old = None -> ver = 1)
    end.
Proof.
  intros Hv0 Hinv Hk Hv H1 H2. pose proof (zlen_nonneg key). pose proof Hk as [Hkl _].
  rewrite (set_lookup_ok ess) by (done || (by apply key_nonzero) || lia).
  eexists _, _. split; [done|]. split; [done|].
  destruct (match find_all key ess 0 with Some _ => _ | None => _ end) as [ver|] eqn:E.
  - split; [by eapply set_version_ok|]. destruct (find_all key ess 0) as [[[j pre] e]|]; [done|].
    rewrite (Hv0 eq_refl) in E. by injection E as <-.
  - destruct (find_all key ess 0) as [[[j pre] e]|] eqn:Ef; [|done].
    destruct (decide _) as [<-|]; [|done]. by apply (find_all_lookup _ _ _ _ _ (inv_nodup _ _ Hinv) Ef).
Qed.

(** What [kv_set] promises. *)
Definition set_result (ess : list (list ent)) (key value : list Z) (r : Z) (ess' : list (list ent)) : Prop :=
  (r = zlen value /\ abs ess' = <[key := value]> (abs ess)) \/ (r = -1 /\ abs ess' = abs ess).

Lemma kv_set_inv ess k key value rest :
  kv_inv ess k -> key_ok key -> bytes value -> 1 <= zlen value -> zlen key + zlen value < 498 ->
  exists r k' ess', kv_set (Some key) (Some (value ++ rest)) (zlen value) k = Ret (r, k') /\
    kv_inv ess' k' /\ set_result ess key value r ess' /\
    (r = -1 -> forall j ver, Z.of_nat j <> gc_bid k -> ent_ok (entry_of key value ver) ->
                 ~ fits ess j (entry_of key value ver)).
Proof.
  intros Hinv Hk Hv H1 H2. unfold kv_set. pose proof (zlen_nonneg key).
  rewrite u32_id, decide_False by lia.
  assert (forall m, abs m !! key = Some value -> abs m = <[key := value]> (abs m)) as Hsame
    by (intros m Hm; by rewrite insert_id).
  destruct (set_attempt_ok ess k 0 key value rest) as (old & todo & -> & Hold & Htodo); [done..|].
  cbn [mbind outcome_bind]. destruct todo as [ver|].
  2: { eexists _, _, _. split; [done|]. split; [done|]. split; [left; split; [done|by apply Hsame]|lia]. }
  destruct Htodo as [Hent Hver]. rewrite Hold.
  destruct (set_place_ok ess k key value rest ver Hinv Hent) as (ok & k1 & ess1 & -> & Hinv1 & Hres).
  cbn [mbind outcome_bind]. destruct ok.
  { eexists _, _, _. split; [done|]. split; [done|]. split; [by left|lia]. }
  destruct Hres as [-> Hnofit].
  assert (forall r : Z, r = -1 -> forall j ver, Z.of_nat j <> gc_bid k -> ent_ok (entry_of key value ver) ->
            ~ fits ess j (entry_of key value ver)) as Hno.
  { intros r _ j ver' Hj _ (es & Hes & Hfit). apply (Hnofit j Hj). exists es. split; [done|].
    rewrite eimg_len in *. exact Hfit. }
  destruct (kv_gc_inv ess k1 Hinv1) as (rc & k2 & ess2 & -> & Hinv2 & Habs2 & _ & Hrc & _).
  cbn [mbind outcome_bind]. destruct (decide (rc <> 0)) as [Hbad|Hok].
  { eexists _, _, _. split; [done|]. split; [done|]. split; [by right|]. by apply Hno. }
  rewrite <- Hold. destruct old as [nd|] eqn:Eold.
  - destruct (set_attempt_ok ess2 k2 ver key value rest) as (old2 & todo2 & -> & Hold2 & Htodo2); [|done..|].
    { intros E2. destruct (find_all key ess 0) as [[[? ?] ?]|] eqn:E0; [|done].
      apply (find_all_lookup _ _ _ _ _ (inv_nodup _ _ Hinv)) in E0. rewrite <- Habs2 in E0.
      by rewrite (find_all_none _ _ _ E2) in E0. }
    cbn [mbind outcome_bind]. destruct todo2 as [ver2|].
    2: { eexists _, _, _. split; [done|]. split; [done|]. split; [|lia]. left. split; [done|].
         rewrite <- Habs2. by apply Hsame. }
    rewrite Hold2. destruct Htodo2 as [Hent2 _].
    destruct (set_place_ok ess2 k2 key value rest ver2 Hinv2 Hent2) as (ok & k3 & ess3 & -> & Hinv3 & Hres3).
    cbn [mbind outcome_bind]. eexists _, _, ess3. split; [done|]. split; [done|]. destruct ok.
    + split; [left; by rewrite <- Habs2|lia].
    + destruct Hres3 as [-> _]. split; [by right|by apply Hno].
  - cbn [mbind outcome_bind]. specialize (Hver eq_refl). subst ver.
    assert (find_all key ess2 0 = None) as Hnone2.
    { destruct (find_all key ess2 0) as [[[j pre] e]|] eqn:E2; [|done].
      apply (find_all_lookup _ _ _ _ _ (inv_nodup _ _ Hinv2)) in E2. rewrite Habs2 in E2.
      destruct (find_all key ess 0) as [[[? ?] ?]|] eqn:E0; [done|].
      rewrite (find_all_none _ _ _ E0) in E2. done. }
    destruct (set_place_ok ess2 k2 key value rest 1 Hinv2 Hent) as (ok & k3 & ess3 & E3 & Hinv3 & Hres3).
    rewrite Hnone2 in E3. cbn [fmap option_fmap option_map] in E3. rewrite E3.
    cbn [mbind outcome_bind]. eexists _, _, ess3. split; [done|]. split; [done|]. destruct ok.
    + split; [left; by rewrite <- Habs2|lia].
    + destruct Hres3 as [-> _]. split; [by right|by apply Hno].
Qed.
End Store.
