(* ===== verification/KvInitProofs.v ===== *)
(** * Key-value store: start-up

    [kv_init] rebuilds the RAM records from the flash alone: after a restart the
    store is the map it was. *)

From stdpp Require Import gmap.
From S2P Require Import Prelude Nor KvBlock KvSet KvNodeProofs KvProofs KvSetProofs.

Ltac Zify.zify_post_hook ::= Z.div_mod_to_equations.

(** ** Counting a block's nodes *)

Definition keys (es : list ent) : list (list Z) := (contents es).*1.

Lemma keys_cons e es : keys (e :: es) = (if e_live e then [e_key e] else []) ++ keys es.
Proof. unfold keys. rewrite contents_cons, fmap_app. by destruct (e_live e). Qed.

(** One node: a live one with a new key, a deleted one. *)
Lemma iter_calc_step i a e post b sc :
  ent_ok e -> zlen a mod 4 = 0 -> zlen a + zlen (eimg e) < 65536 ->
  0 <= kv_size b -> kv_size b + zlen (eimg e) < 65536 -> 0 <= count b -> count b + 1 < 65536 ->
  ro_count b = 0 -> (e_live e = true -> seen sc !! e_key e = None) ->
  exists d, iter_calc i (a ++ eimg e ++ post) (node_of i (zlen a) e) (b, sc)
  = Ret (0, (Block (bmem b) (size b) (zlen (a ++ eimg e))
               (kv_size b + (if e_live e then zlen (eimg e) else 0)) d
               (count b + (if e_live e then 1 else 0)) 0,
             Scan (if e_live e then <[e_key e := (i, zlen a)]> (seen sc) else seen sc) (conflicts sc))).
Proof.
  intros He Ha Hlen Hk0 Hk Hc0 Hc Hro Hseen. unfold iter_calc. rewrite node_of_valid.
  pose proof (zlen_nonneg a). pose proof (eimg_bounds e) as [Heb Hem].
  pose proof (zlen_nonneg (e_key e)). pose proof (zlen_nonneg (e_val e)).
  assert (forall z, 0 <= z < 65536 -> u16 z = z) as Hu by (intros; unfold u16; by apply Z.mod_small).
  assert (u16 (align4 (zlen a + zlen (eimg e))) = zlen (a ++ eimg e)) as Hal.
  { rewrite zlen_app. unfold align4. rewrite decide_False by lia. apply Hu. lia. }
  change (next_offset (node_of i (zlen a) e)) with (zlen a + zlen (eimg e)).
  change (head_offset (node_of i (zlen a) e)) with (zlen a). change (rw (node_of i (zlen a) e)) with 1.
  rewrite Hal. replace (zlen a + zlen (eimg e) - zlen a) with (zlen (eimg e)) by lia.
  destruct (e_live e) eqn:El.
  - rewrite string_at_key by done. cbn [mbind outcome_bind]. rewrite (Hseen eq_refl).
    rewrite (decide_False (P := 1 = 0)) by lia. cbn [bmem size write_offset kv_size dirty_size count ro_count].
    rewrite Hro, !Hu by lia. eexists. done.
  - cbn [mbind outcome_bind bmem size write_offset kv_size dirty_size count ro_count].
    rewrite Hro, !Z.add_0_r. eexists. by destruct sc.
Qed.

(** Counting adds the sizes up and records the keys; no key is seen twice. *)
Lemma calc_fold i post es : forall a b sc,
  Forall ent_ok es -> zlen a mod 4 = 0 -> zlen a + zlen (img es) < 65536 ->
  write_offset b = zlen a -> 0 <= kv_size b -> kv_size b + zlen (img es) < 65536 ->
  0 <= count b -> count b + zlen (img es) < 65536 -> ro_count b = 0 ->
  NoDup (keys es) -> (forall key, key ∈ keys es -> seen sc !! key = None) ->
  exists d sn, fold_ents true (iter_calc i (a ++ img es ++ post)) i (zlen a) es (b, sc)
    = Ret (0, (Block (bmem b) (size b) (zlen a + zlen (img es)) (kv_size b + live_size es) d
                 (count b + nlive es) 0, Scan sn (conflicts sc))) /\
    forall key, key ∉ keys es -> sn !! key = seen sc !! key.
Proof.
  induction es as [|e es IH]; intros a b sc Hes Ha Hlen Hwo Hk0 Hk Hc0 Hc Hro Hnd Hseen.
  { exists (dirty_size b), (seen sc). split; [|done]. destruct b, sc. cbn in *. subst.
    do 4 f_equal; symmetry; apply Z.add_0_r. }
  inversion Hes as [|? ? He Hes']; subst. rewrite img_cons, zlen_app in *.
  rewrite live_size_cons, nlive_cons, keys_cons in *.
  pose proof (zlen_nonneg a). pose proof (zlen_nonneg (img es)). pose proof (eimg_bounds e) as [Heb Hem].
  pose proof (zlen_nonneg (e_key e)). pose proof (zlen_nonneg (e_val e)).
  assert (zlen (a ++ eimg e) = zlen a + zlen (eimg e)) as Hae by apply zlen_app.
  destruct (iter_calc_step i a e (img es ++ post) b sc) as [d E1]; try (done || lia).
  { intros El. apply Hseen. rewrite El. by left. }
  cbn [fold_ents orb]. rewrite <- app_assoc, E1. cbn [mbind outcome_bind].
  rewrite (decide_False (P := 0 <> 0)) by tauto. rewrite <- Hae.
  set (b1 := Block _ _ _ _ _ _ _). set (sc1 := Scan _ _).
  edestruct (IH (a ++ eimg e) b1 sc1) as (d' & sn & E & Hsn); try done; unfold b1; cbn [kv_size count].
  - lia.
  - lia.
  - destruct (e_live e); lia.
  - destruct (e_live e); lia.
  - destruct (e_live e); lia.
  - destruct (e_live e); lia.
  - destruct (e_live e); [by apply list.NoDup_cons in Hnd as [_ ?]|done].
  - intros key Hin. unfold sc1. cbn [seen]. destruct (e_live e); [|by apply Hseen].
    apply list.NoDup_cons in Hnd as [Hnin _]. rewrite lookup_insert_ne by (intros <-; done).
    apply Hseen. by right.
  - exists d', sn. norm_app in E. unfold b1 in E. rewrite E. split.
    + unfold sc1. cbn [bmem size kv_size count conflicts]. rewrite Hae. do 4 f_equal; lia.
    + intros key Hnot. rewrite Hsn by (intros Hin; apply Hnot; destruct (e_live e); [by right|done]).
      unfold sc1. cbn [seen]. destruct (e_live e); [|done].
      apply lookup_insert_ne. intros <-. apply Hnot. by left.
Qed.

Section Init.
Context `{FL : Flash} (B : Z) {NF : NorFlash B} (HB : 512 <= B < 65536) (HB4 : B mod 4 = 0).

(** ** What the flash holds *)

Definition image_ok (es : list ent) (m : list Z) : Prop :=
  m = img es ++ erased (B - zlen (img es)) /\ zlen (img es) <= B - 4 /\ Forall ent_ok es.

Record flash_ok (ess : list (list ent)) (f : flash) : Prop := FlashOk {
  fo_cells : zlen (cells f) = zlen ess * B;
  fo_blk : forall i es, ess !! i = Some es -> image_ok es (blk B (cells f) i)
}.

Lemma st_flash ess k : st_ok B ess k -> flash_ok ess (fl k).
Proof.
  intros [_ Hc Hb]. split; [done|]. intros i es Hi. destruct (Hb i es Hi) as (b & _ & []). by split.
Qed.

Lemma flash_block ess f i es :
  flash_ok ess f -> ess !! i = Some es ->
  (fl_read f (Z.of_nat i * B) B).2 = img es ++ erased (B - zlen (img es)) /\
  zlen (img es) <= B - 4 /\ Forall ent_ok es /\ Z.of_nat i * B + B <= zlen (cells f).
Proof.
  intros [Hc Hb] Hi. destruct (Hb i es Hi) as (Hm & Hr & He).
  assert (Z.of_nat i * B + B <= zlen (cells f)) as Hfit.
  { apply lookup_lt_Some in Hi. rewrite Hc. unfold zlen. nia. }
  split; [|done]. rewrite <- (Z.add_0_r (Z.of_nat i * B)) at 1.
  rewrite (read_blk B HB HB4) by lia. rewrite zdrop_0, ztake_all, Hm; [done|].
  destruct (blk_split B HB HB4 _ _ Hfit) as (p & q & _ & _ & Hlen). lia.
Qed.

(** ** The end of the written part *)

Lemma erased_word m n v :
  0 <= v -> v + 4 <= n -> mem_read (m ++ erased n) (zlen m + v) 4 = Ret [255; 255; 255; 255].
Proof.
  intros Hv Hn. pose proof (mem_read_exact (m ++ erased v) (erased 4) (erased (n - v - 4))) as M.
  rewrite zlen_app, !zlen_erased in M by lia.
  rewrite <- app_assoc, <- !erased_app in M by lia.
  replace (v + (4 + (n - v - 4))) with n in M by lia. exact M.
Qed.

Lemma last_written_ok fuel m v wo :
  zlen m mod 4 = 0 -> zlen m <= B - 4 -> 0 <= v -> v mod 4 = 0 -> (fuel <> O) ->
  512 - 4 - (zlen m + v) <= 4 * (Z.of_nat fuel - 1) ->
  last_written fuel (m ++ erased (B - zlen m)) [255; 255; 255; 255] (zlen m + v) wo = Ret wo.
Proof.
  revert v. induction fuel as [|fuel IH]; intros v Hm Hle Hv Hv4 Hf0 Hf; [done|]. cbn [last_written].
  destruct (decide (zlen m + v < 512 - 4)) as [Hlt|]; [|done].
  rewrite erased_word by lia. cbn [mbind outcome_bind]. rewrite (decide_False (P := _ <> _)) by tauto.
  rewrite <- Z.add_assoc. apply IH; lia.
Qed.

(** [kvblock_calc] on a fresh record finds what the flash holds. *)
Lemma calc_ok ess k i es sc d0 :
  flash_ok ess (fl k) -> ess !! i = Some es ->
  blocks k !! i = Some (Block (Z.of_nat i * B) B 0 0 d0 0 0) ->
  NoDup (keys es) -> (forall key, key ∈ keys es -> seen sc !! key = None) ->
  exists d sn, kvblock_calc i sc k
    = Ret (Scan sn (conflicts sc),
           with_block i (Block (Z.of_nat i * B) B (zlen (img es)) (live_size es) d (nlive es) 0) k) /\
    forall key, key ∉ keys es -> sn !! key = seen sc !! key.
Proof.
  intros Hf Hi Hb Hnd Hseen. destruct (flash_block _ _ _ _ Hf Hi) as (Hread & Hroom & Hes & Hfit).
  unfold kvblock_calc, get_block. rewrite Hb. cbn [mbind outcome_bind bmem size write_offset].
  set (b0 := Block _ _ _ _ _ _ _). set (m := img es ++ erased (B - zlen (img es))) in *.
  assert (i < length (blocks k))%nat as Hlt by (by eapply lookup_lt_Some).
  unfold kvblock_iter, kvblock_cache, get_block, block_read. cbn [blocks with_block fl].
  rewrite list_lookup_insert_eq by done. cbn [mbind outcome_bind bmem size b0].
  rewrite Z.add_0_r, Hread.
  pose proof (iter_ents (S (Z.to_nat B)) i [] es (B - zlen (img es)) true (iter_calc i m) (b0, sc) Hes) as Hiter.
  change (img []) with (@nil Z) in Hiter. cbn [app] in Hiter. rewrite zlen_nil in Hiter. fold m in Hiter.
  replace (zlen (img es) + (B - zlen (img es))) with B in Hiter by lia.
  rewrite Hiter; [|lia|lia|].
  2: { assert (Z.of_nat (length es) <= zlen (img es)); [|lia].
       clear. induction es as [|e es IH]; [done|]. rewrite img_cons, zlen_app. cbn [length].
       pose proof (eimg_bounds e). pose proof (zlen_nonneg (e_key e)). pose proof (zlen_nonneg (e_val e)). lia. }
  pose proof (zlen_nonneg (img es)).
  destruct (calc_fold i (erased (B - zlen (img es))) es [] b0 sc) as (d & sn & E & Hsn);
    [done|done|rewrite zlen_nil; lia|done|cbn; lia|cbn; lia|cbn; lia|cbn; lia|done|done|done|].
  cbn [app] in E. rewrite zlen_nil in E. fold m in E. rewrite E.
  cbn [mbind outcome_bind bmem size write_offset kv_size dirty_size count ro_count b0].
  rewrite !Z.add_0_l.
  assert (mem_read m (B - 4) 4 = Ret [255; 255; 255; 255]) as ->.
  { replace (B - 4) with (zlen (img es) + (B - 4 - zlen (img es))) by lia. apply erased_word; lia. }
  cbn [mbind outcome_bind].
  pose proof (last_written_ok 129 (img es) 0 (zlen (img es)) (img_len_mod es)) as Hlast.
  rewrite Z.add_0_r in Hlast. fold m in Hlast. rewrite Hlast by (done || lia).
  cbn [mbind outcome_bind]. exists d, sn. split; [|done]. unfold with_block. cbn.
  by rewrite list_insert_insert_eq.
Qed.

Lemma uniform_returns fuel m w o :
  0 <= o -> o + 4 * Z.of_nat fuel <= zlen m -> returns (uniform fuel m w o).
Proof.
  revert o. induction fuel as [|fuel IH]; intros o Ho Hm; cbn [uniform]; [by eexists|].
  rewrite mem_read_ok by lia. cbn [mbind outcome_bind]. case_decide; [|by eexists]. apply IH; lia.
Qed.

(** The block after start-up holds the same live entries, in no more space. *)
Definition same_live (es es' : list ent) : Prop :=
  contents es' = contents es /\ zlen (img es') <= zlen (img es).

Definition zero_block : kvblock := Block 0 0 0 0 0 0 0.

Lemma blk_patched_flash ess f f' i es' m' :
  flash_ok ess f -> (i < length ess)%nat -> patched B i m' (cells f) (cells f') -> image_ok es' m' ->
  flash_ok (<[i := es']> ess) f'.
Proof.
  intros [Hc Hb] Hi (Hlen & Hhere & Hthere) Hm. split.
  - unfold zlen in *. rewrite length_insert. congruence.
  - intros j es Hj. destruct (decide (j = i)) as [->|Hne].
    + rewrite list_lookup_insert_eq in Hj by done. injection Hj as <-. by rewrite Hhere.
    + rewrite list_lookup_insert_ne in Hj by done. rewrite Hthere by done. by apply Hb.
Qed.

(** Block [i] now holds [es'] and its record says so; nothing else changed. *)
Record block_inited (ess : list (list ent)) (i : nat) (es es' : list ent) (k k' : kv) : Prop := BlockInited {
  bi_same : same_live es es';
  bi_flash : flash_ok (<[i := es']> ess) (fl k');
  bi_block : exists b, blocks k' = <[i := b]> (blocks k) /\ blk_ok B i es' b (blk B (cells (fl k')) i);
  bi_others : forall j, j <> i -> blk B (cells (fl k')) j = blk B (cells (fl k)) j;
  bi_bid : bid k' = bid k;
  bi_gc : gc_bid k' = gc_bid k
}.

Lemma init_block_ok ess k i es sc :
  flash_ok ess (fl k) -> ess !! i = Some es -> blocks k !! i = Some zero_block ->
  NoDup (keys es) -> (forall key, key ∈ keys es -> seen sc !! key = None) ->
  exists k' sn es', kvblock_init i (Z.of_nat i * B) B sc k = Ret (Scan sn (conflicts sc), k') /\
    block_inited ess i es es' k k' /\ forall key, key ∉ keys es -> sn !! key = seen sc !! key.
Proof.
  intros Hf Hi Hb Hnd Hseen. destruct (flash_block _ _ _ _ Hf Hi) as (Hread & Hroom & Hes & Hfit).
  pose proof (fo_blk _ _ Hf i es Hi) as Himg.
  assert (i < length (blocks k))%nat as Hlt by (by eapply lookup_lt_Some).
  assert (i < length ess)%nat as Hlt' by (by eapply lookup_lt_Some).
  unfold kvblock_init, get_block. rewrite Hb. cbn [mbind outcome_bind zero_block write_offset kv_size dirty_size count ro_count].
  assert (u16 B = B) as -> by (apply Z.mod_small; lia).
  set (k0 := with_block i _ k).
  destruct (calc_ok ess k0 i es sc 0) as (d & sn & -> & Hsn); [done|done| |done|done|].
  { unfold k0. cbn. by rewrite list_lookup_insert_eq. }
  cbn [mbind outcome_bind]. unfold k0, with_block. cbn [blocks bid gc_bid fl]. rewrite list_insert_insert_eq.
  rewrite list_lookup_insert_eq by done. cbn [mbind outcome_bind count size].
  set (b1 := Block _ _ _ _ _ _ _). set (k1 := Kv _ (<[i := b1]> (blocks k)) (bid k) (gc_bid k) (fl k)).
  assert (blk_ok B i es b1 (blk B (cells (fl k)) i)) as Hok1 by (destruct Himg as (? & ? & ?); by constructor).
  assert (block_inited ess i es es k k1) as Hkeep.
  { split; [done| |by exists b1|done|done|done]. by rewrite list_insert_id. }
  destruct (decide (nlive es = 0)) as [Hz|]; [|by eexists _, _, _].
  set (m := block_read b1 0 B k1).
  assert (zlen m = B) as Hm.
  { unfold m, block_read, b1, k1. cbn [bmem fl]. rewrite Z.add_0_r, Hread, zlen_app, zlen_erased by lia. lia. }
  rewrite mem_read_ok by lia. cbn [mbind outcome_bind].
  destruct (uniform_returns (Z.to_nat (B / 4 - 1)) m (ztake 4 (zdrop 0 m)) 4) as [u ->]; [lia|lia|].
  cbn [mbind outcome_bind]. destruct (negb u || _); [|by eexists _, _, _].
  unfold kvblock_gc, get_block, k1. cbn [blocks]. rewrite list_lookup_insert_eq by done.
  cbn [mbind outcome_bind]. eexists _, _, []. split; [done|]. split; [|done].
  pose proof (erase_patched B HB HB4 (fl k) i Hfit) as Hp.
  assert (image_ok [] (erased B)) as Hempty.
  { split; [|split; [|done]]; change (img []) with (@nil Z); rewrite zlen_nil; [cbn [app]; f_equal; lia|lia]. }
  unfold with_block, block_erase, with_flash, b1. cbn [blocks bid gc_bid fl bmem size ro_count].
  split; cbn [blocks bid gc_bid fl].
  - split; [|apply zlen_nonneg]. symmetry. apply zlen_nil_inv. rewrite contents_nlive. lia.
  - by eapply blk_patched_flash.
  - rewrite list_insert_insert_eq. eexists. split; [done|].
    destruct Hp as (_ & -> & _). destruct Hempty as (He1 & He2 & He3). by constructor.
  - apply Hp.
  - done.
  - done.
Qed.

(** Start-up after [i] blocks: those are set up, the rest is untouched. *)
Record initing (ess : list (list ent)) (i : nat) (gc_size : Z) (sc : scan) (k : kv) : Prop := Initing {
  ii_flash : flash_ok ess (fl k);
  ii_len : length (blocks k) = length ess;
  ii_done : forall j es, (j < i)%nat -> ess !! j = Some es ->
    exists b, blocks k !! j = Some b /\ blk_ok B j es b (blk B (cells (fl k)) j);
  ii_todo : forall j, (i <= j < length ess)%nat -> blocks k !! j = Some zero_block;
  ii_nodup : NoDup (concat (keys <$> drop i ess));
  ii_seen : forall key, key ∈ concat (keys <$> drop i ess) -> seen sc !! key = None;
  ii_conf : conflicts sc = [];
  ii_bid : 0 <= bid k < zlen ess;
  ii_gc : 0 <= gc_bid k < zlen ess \/
    gc_bid k = -1 /\ gc_size = 0 /\ forall j es, (j < i)%nat -> ess !! j = Some es -> B - 4 <= zlen (img es)
}.

Lemma same_live_refl es : same_live es es.
Proof. by split. Qed.

Lemma all_same_refl ess : Forall2 same_live ess ess.
Proof. induction ess; constructor; [apply same_live_refl|done]. Qed.

Lemma all_same_trans ess1 ess2 ess3 :
  Forall2 same_live ess1 ess2 -> Forall2 same_live ess2 ess3 -> Forall2 same_live ess1 ess3.
Proof.
  intros H12. revert ess3. induction H12 as [|x y l l' [H1 H2] _ IH]; intros ess3 H23;
    inversion H23 as [|? z ? l'' [H3 H4] H5]; subst; constructor; [|by apply IH].
  split; [congruence|lia].
Qed.

Lemma init_step ess i es gc_size sc k :
  initing ess i gc_size sc k -> ess !! i = Some es ->
  exists es' sc' k' b, kvblock_init i (Z.of_nat i * B) B sc k = Ret (sc', k') /\
    get_block i k' = Ret b /\ kvblock_free_size b = B - zlen (img es') /\ same_live es es' /\
    bid k' = bid k /\ gc_bid k' = gc_bid k /\ 0 <= zlen (img es') <= B - 4 /\
    forall bid' gc' gc_size',
      0 <= bid' < zlen ess ->
      (0 <= gc' < zlen ess \/ gc' = -1 /\ gc_size' = 0 /\ gc_bid k = -1 /\ B - 4 <= zlen (img es')) ->
      initing (<[i := es']> ess) (S i) gc_size' sc' (Kv _ (blocks k') bid' gc' (fl k')).
Proof.
  intros [Hf Hlen Hdone Htodo Hnd Hseen Hconf Hbid Hgc] Hi.
  assert (i < length ess)%nat as Hlt by (by eapply lookup_lt_Some).
  rewrite (drop_S _ _ _ Hi) in Hnd, Hseen. cbn [fmap list_fmap concat] in Hnd, Hseen.
  apply list.NoDup_app in Hnd as (Hnd1 & Hdisj & Hnd2).
  destruct (init_block_ok ess k i es sc) as (k' & sn & es' & E & [Hsame Hf' (b & Hbs & Hbok) Hoth Hb' Hg'] & Hsn);
    [done|done|apply Htodo; lia|done|intros key Hin; apply Hseen; rewrite elem_of_app; by left|].
  assert (blocks k' !! i = Some b) as Hbi by (rewrite Hbs; apply list_lookup_insert_eq; lia).
  exists es', (Scan sn (conflicts sc)), k', b. split; [done|].
  split; [unfold get_block; by rewrite Hbi|].
  split; [unfold kvblock_free_size; by rewrite (bo_size _ _ _ _ _ Hbok), (bo_wo _ _ _ _ _ Hbok)|].
  split; [done|]. split; [done|]. split; [done|].
  split; [split; [apply zlen_nonneg|apply Hbok]|]. intros bid' gc' gc_size' Hbid' Hgc'.
  split; cbn [fl blocks bid gc_bid seen conflicts].
  - done.
  - rewrite Hbs, !length_insert. done.
  - intros j e Hj He. destruct (decide (j = i)) as [->|Hne].
    + rewrite list_lookup_insert_eq in He by done. injection He as <-. by exists b.
    + rewrite list_lookup_insert_ne in He by done. destruct (Hdone j e) as (bj & Hbj & Hokj); [lia|done|].
      exists bj. rewrite Hbs, list_lookup_insert_ne, Hoth by done. done.
  - intros j Hj. rewrite length_insert in Hj. rewrite Hbs, list_lookup_insert_ne by lia. apply Htodo. lia.
  - rewrite drop_insert_lt by lia. done.
  - intros key Hin. rewrite drop_insert_lt in Hin by lia. rewrite Hsn.
    + apply Hseen. rewrite elem_of_app. by right.
    + intros Hin'. by apply (Hdisj key).
  - done.
  - unfold zlen in *. by rewrite length_insert.
  - unfold zlen in *. rewrite length_insert. destruct Hgc' as [?|(-> & -> & Hk & Hfull)]; [by left|]. right.
    split; [done|]. split; [done|]. intros j e Hj He. destruct (decide (j = i)) as [->|Hne].
    + rewrite list_lookup_insert_eq in He by done. by injection He as <-.
    + rewrite list_lookup_insert_ne in He by done. destruct Hgc as [?|(_ & _ & Hall)]; [lia|].
      apply (Hall j e); [lia|done].
Qed.

Lemma init_from_ok n : forall i ess gc_size sc k,
  initing ess i gc_size sc k -> (i + n = length ess)%nat ->
  exists sc' k' ess' gc', init_from n i B gc_size sc k = Ret (sc', k') /\
    initing ess' (length ess') gc' sc' k' /\ Forall2 same_live ess ess'.
Proof.
  induction n as [|n IH]; intros i ess gc_size sc k Hii Hn; cbn [init_from].
  { exists sc, k, ess, gc_size. split; [done|]. replace (length ess) with i by lia. split; [done|].
    apply all_same_refl. }
  destruct (lookup_lt_is_Some_2 ess i) as [es Hi]; [lia|].
  destruct (init_step _ _ _ _ _ _ Hii Hi)
    as (es' & sc1 & k1 & b & -> & Hb & Hfree & Hsame & Hbid1 & Hgc1 & Hroom & Hnext).
  pose proof (ii_bid _ _ _ _ _ Hii). pose proof (ii_gc _ _ _ _ _ Hii) as Hgc.
  assert (Z.of_nat i < zlen ess) by (unfold zlen; lia).
  cbn [mbind outcome_bind]. rewrite Hb. cbn [mbind outcome_bind]. rewrite Hfree.
  assert (forall ess2, Forall2 same_live (<[i := es']> ess) ess2 -> Forall2 same_live ess ess2) as Htrans.
  { intros ess2. apply all_same_trans. rewrite <- (list_insert_id ess i es Hi) at 1.
    apply Forall2_insert; [apply all_same_refl|done]. }
  destruct (decide (gc_size <= B - zlen (img es') /\ 4 < B - zlen (img es'))) as [Hmore|Hless].
  - destruct (IH (S i) (<[i := es']> ess) (B - zlen (img es')) sc1 (with_gc_bid (Z.of_nat i) k1))
      as (sc2 & k2 & ess2 & gc2 & E2 & Hii2 & Hrel2);
      [apply Hnext; [lia|left; lia]|rewrite length_insert; lia|].
    exists sc2, k2, ess2, gc2. split; [exact E2|]. split; [done|by apply Htrans].
  - set (k2 := if decide (bid k1 = 0) then with_bid (Z.of_nat i) k1 else k1).
    destruct (IH (S i) (<[i := es']> ess) gc_size sc1 k2)
      as (sc3 & k3 & ess3 & gc3 & E3 & Hii3 & Hrel3); [|rewrite length_insert; lia|].
    + assert (k2 = Kv _ (blocks k1) (if decide (bid k1 = 0) then Z.of_nat i else bid k1) (gc_bid k1) (fl k1)) as ->.
      { unfold k2. destruct (decide (bid k1 = 0)); [done|by destruct k1]. }
      apply Hnext; [destruct (decide (bid k1 = 0)); lia|]. rewrite Hgc1.
      destruct Hgc as [?|(Hm1 & Hz & _)]; [by left|right]. split; [done|]. split; [done|]. split; [done|lia].
    + exists sc3, k3, ess3, gc3. split; [exact E3|]. split; [done|by apply Htrans].
Qed.

Lemma contents_same ess ess' : Forall2 same_live ess ess' -> abs_list ess' = abs_list ess.
Proof.
  unfold abs_list. induction 1 as [|x y l l' [Hc _] _ IH]; [done|]. cbn [fmap list_fmap concat]. by rewrite Hc, IH.
Qed.

Lemma initing_start ess f :
  flash_ok ess f -> NoDup (abs_list ess).*1 -> ess <> [] ->
  initing ess 0 0 (Scan ∅ []) (Kv _ (replicate (length ess) zero_block) 0 (-1) f).
Proof.
  intros Hf Hnd Hne. pose proof (zlen_pos ess Hne).
  split; cbn [fl blocks bid gc_bid seen conflicts]; try done.
  - apply length_replicate.
  - intros j es Hj. lia.
  - intros j Hj. apply lookup_replicate_2. lia.
  - rewrite drop_0. assert (concat (keys <$> ess) = (abs_list ess).*1) as ->; [|done].
    unfold abs_list. clear. induction ess as [|es ess IH]; [done|]. cbn [fmap list_fmap concat].
    rewrite fmap_app. by rewrite <- IH.
  - right. split; [done|]. split; [done|]. intros j es Hj. lia.
Qed.

Lemma kv_init_inv ess f :
  flash_ok ess f -> NoDup (abs_list ess).*1 ->
  (exists i es, ess !! i = Some es /\ zlen (img es) < B - 4) ->
  exists k ess', kv_init (length ess) B f = Ret (0, k) /\ kv_inv B ess' k /\ abs ess' = abs ess.
Proof.
  intros Hf Hnd (i & es & Hi & Hroom). unfold kv_init.
  destruct (init_from_ok (length ess) 0 ess 0 (Scan ∅ [])
    (Kv _ (replicate (length ess) zero_block) 0 (-1) f)) as (sc & k & ess' & gc' & E & Hii & Hrel);
    [apply initing_start; [done|done|by destruct ess]|done|].
  unfold zero_block in E. rewrite E. cbn [mbind outcome_bind].
  rewrite (ii_conf _ _ _ _ _ Hii). cbn [verify_from mbind outcome_bind].
  exists k, ess'. split; [done|]. pose proof (contents_same _ _ Hrel) as Habs.
  split; [|unfold abs; by rewrite Habs]. destruct Hii as [Hf' Hlen' Hdone _ _ _ _ Hbid Hgc].
  split.
  - split; [done|apply Hf'|]. intros j es' Hj. apply Hdone; [by eapply lookup_lt_Some|done].
  - by rewrite Habs.
  - done.
  - destruct Hgc as [?|(_ & _ & Hall)]; [done|].
    destruct (Forall2_lookup_l _ _ _ _ _ Hrel Hi) as (es' & Hi' & [_ Hle]).
    specialize (Hall i es' ltac:(by eapply lookup_lt_Some) Hi'). lia.
Qed.
End Init.
