(* ===== verification/KvTheorems.v ===== *)
(** * Key-value store: what it promises

    The store as a finite map: [kv_set], [kv_get], [kv_rm], garbage collection and
    restart, on any flash that behaves as NOR flash; the integer and string calls
    of [kv_aos.c]; and where the code goes wrong. *)

From stdpp Require Import gmap.
From S2P Require Import Prelude Nor KvBlock KvSet KvNodeProofs KvProofs KvSetProofs KvInitProofs.

Ltac Zify.zify_post_hook ::= Z.div_mod_to_equations.

Section Promises.
Context `{FL : Flash} (B : Z) {NF : NorFlash B} (HB : 512 <= B < 65536) (HB4 : B mod 4 = 0).

(** C5. Setting a key refines map insertion: on a well-formed store
    [kv_set] always returns; either the result is the value's size and the store is
    the old map with the key set to the value (all other keys as before, garbage
    collection included), or the result is -1 and the map is unchanged; and -1 is
    only returned when no block but the collection block had room. *)
Theorem kv_set_refines ess k key value rest :
  kv_inv B ess k -> key_ok key -> bytes value -> 1 <= zlen value -> zlen key + zlen value < 498 ->
  exists r k' ess', kv_set (Some key) (Some (value ++ rest)) (zlen value) k = Ret (r, k') /\
    kv_inv B ess' k' /\ set_result ess key value r ess' /\
    (r = -1 -> forall j ver, Z.of_nat j <> gc_bid k -> ent_ok (entry_of key value ver) ->
                 ~ fits B ess j (entry_of key value ver)).
Proof. by apply kv_set_inv. Qed.

(** Reading refines map lookup: [kv_get] returns the length of the key's
    value and as much of it as the buffer takes, or -1 when the map has no such key. *)
Theorem kv_get_refines ess k key sz :
  kv_inv B ess k -> nonzero key -> 0 <= sz ->
  kv_get key sz k = Ret (match abs ess !! key with
                         | Some v => (zlen v, ztake sz v)
                         | None => (-1, [])
                         end).
Proof. intros [Hst Hnd _ _]. by apply (kv_get_ok B HB HB4). Qed.

(** Set, then get: after a successful [kv_set] the value is read back
    exactly, and every other key reads as before. *)
Theorem kv_set_get ess k key value rest r k' :
  kv_inv B ess k -> key_ok key -> bytes value -> 1 <= zlen value -> zlen key + zlen value < 498 ->
  kv_set (Some key) (Some (value ++ rest)) (zlen value) k = Ret (r, k') -> 0 <= r ->
  (forall sz, zlen value <= sz -> kv_get key sz k' = Ret (zlen value, value)) /\
  (forall other sz, nonzero other -> other <> key -> 0 <= sz -> kv_get other sz k' = kv_get other sz k).
Proof.
  intros Hinv Hk Hv H1 H2 E Hr.
  destruct (kv_set_inv B HB HB4 ess k key value rest) as (r' & k2 & ess' & E2 & Hinv2 & Hres & _); [done..|].
  rewrite E in E2. injection E2 as <- <-. destruct Hres as [[-> Habs]|[-> _]]; [|lia].
  pose proof Hinv as [Hst Hnd _ _]. pose proof Hinv2 as [Hst2 Hnd2 _ _]. split.
  - intros sz Hsz. rewrite (kv_get_ok B HB HB4 ess') by (done || (by apply key_nonzero) || lia).
    rewrite Habs, lookup_insert_eq, ztake_all by lia. done.
  - intros other sz Ho Hne Hsz. rewrite (kv_get_ok B HB HB4 ess'), (kv_get_ok B HB HB4 ess) by done.
    rewrite Habs, lookup_insert_ne by done. done.
Qed.

(** Removing refines map deletion: [kv_rm] returns 0 and the map loses the
    key, or -1 and the map had no such key. *)
Theorem kv_rm_refines ess k key :
  kv_inv B ess k -> nonzero key ->
  exists r k' ess', kv_rm key k = Ret (r, k') /\ kv_inv B ess' k' /\ abs ess' = delete key (abs ess) /\
    (r = 0 <-> is_Some (abs ess !! key)) /\ (r = 0 \/ r = -1).
Proof.
  intros [Hst Hnd Hb Hg] Hk. unfold kv_rm. rewrite (kv_find_ok B HB HB4 ess) by done. cbn [mbind outcome_bind].
  destruct (find_all key ess 0) as [[[j pre] e]|] eqn:Ef; cbn [fmap option_fmap option_map].
  - pose proof (find_all_lookup _ _ _ _ _ Hnd Ef) as Hlook.
    destruct (find_all_some _ _ _ _ _ _ Ef) as (n & post & -> & Hn & Hl & Hkey). cbn [node_at Nat.add].
    destruct (rm_ok B HB HB4 ess k n pre e post Hst Hn Hl) as (k2 & -> & Hst2 & Hb2 & Hg2).
    cbn [mbind outcome_bind]. exists 0, k2, (<[n := removed pre e post]> ess). split; [done|].
    pose proof (abs_list_rm ess n pre e post Hn Hl) as Hp. rewrite Hkey in Hp.
    destruct (abs_drop ess _ key (e_val e) Hnd Hp) as (Hnd2 & Habs & _).
    split; [split; [done|done| |]; unfold zlen in *; rewrite length_insert, ?Hb2, ?Hg2; done|].
    split; [done|]. rewrite Hlook. split; [|by left]. split; [by eexists|done].
  - pose proof (find_all_none _ _ _ Ef) as Hnone. exists (-1), k, ess. split; [done|]. split; [done|].
    rewrite Hnone. split; [by rewrite delete_id|]. split; [|by right].
    split; [done|]. by intros [? ?].
Qed.

(** C28. Garbage collection always ends, moves entries without changing the map,
    and when it reports success the new collection block is erased and another one. *)
Theorem kv_gc_preserves ess k :
  kv_inv B ess k ->
  exists rc k' ess', kv_gc k = Ret (rc, k') /\ kv_inv B ess' k' /\ abs ess' = abs ess /\
    length ess' = length ess /\ (rc = 0 \/ rc = -1) /\
    (rc = 0 -> gc_bid k' <> gc_bid k /\ ess' !! Z.to_nat (gc_bid k') = Some []).
Proof. by apply kv_gc_inv. Qed.

(** C9. Restart: [kv_init], run on nothing but the flash of a well-formed store
    in which some block is not full, rebuilds a well-formed store with the same map. *)
Theorem kv_survives_restart ess k :
  kv_inv B ess k -> (exists i es, ess !! i = Some es /\ zlen (img es) < B - 4) ->
  exists k' ess', kv_init (length ess) B (fl k) = Ret (0, k') /\ kv_inv B ess' k' /\ abs ess' = abs ess.
Proof.
  intros [Hst Hnd _ _] Hroom. apply kv_init_inv; [done|done|by apply st_flash|done|done].
Qed.

(** First start: on erased flash [kv_init] gives the empty store. *)
Theorem kv_init_erased n f :
  (0 < n)%nat -> cells f = erased (Z.of_nat n * B) ->
  exists k ess, kv_init n B f = Ret (0, k) /\ kv_inv B ess k /\ abs ess = ∅.
Proof.
  intros Hn Hf.
  assert (abs_list (replicate n []) = []) as Habs.
  { unfold abs_list. clear. induction n as [|n IH]; [done|]. cbn [replicate fmap list_fmap concat]. by rewrite IH. }
  destruct (kv_init_inv B HB HB4 (replicate n []) f) as (k & ess & E & Hinv & Ha).
  - split.
    + rewrite Hf, zlen_erased, zlen_replicate by lia. done.
    + intros i es Hi. apply lookup_replicate in Hi as [-> Hi]. change (img []) with (@nil Z).
      split; [|split; [|done]]; change (img []) with (@nil Z); rewrite zlen_nil; [|lia].
      cbn [app]. rewrite Hf. unfold blk, erased, ztake, zdrop.
      rewrite drop_replicate, take_replicate. f_equal. nia.
  - rewrite Habs. constructor.
  - exists O, []. destruct n; [lia|]. split; [done|]. change (img []) with (@nil Z). rewrite zlen_nil. lia.
  - rewrite length_replicate in E. exists k, ess. split; [done|]. split; [done|].
    rewrite Ha. unfold abs. by rewrite Habs.
Qed.

(** Integers: [aos_kv_setint] followed by [aos_kv_getint] gives the four
    bytes of the integer back. *)
Theorem kv_int_roundtrip ess k key v k' :
  kv_inv B ess k -> key_ok key -> aos_kv_setint key v k = Ret (0, k') ->
  aos_kv_getint key k' = Ret (0, le32_bytes v).
Proof.
  intros Hinv Hk. unfold aos_kv_setint, kv_setdata.
  destruct (kv_set_inv B HB HB4 ess k key (le32_bytes v) []) as (r & k2 & ess' & E & Hinv2 & Hres & _);
    [done|done|apply bytes_le32|done|change (zlen (le32_bytes v)) with 4; destruct Hk; lia|].
  rewrite app_nil_r in E. change (zlen (le32_bytes v)) with 4 in E. rewrite E. cbn [mbind outcome_bind].
  destruct Hres as [[-> Habs]|[-> _]]; [|done]. intros [= <-].
  unfold aos_kv_getint, kv_getdata. rewrite decide_False by lia.
  rewrite (kv_get_ok B HB HB4 ess'); [|apply Hinv2|apply Hinv2|by apply key_nonzero|lia].
  rewrite Habs, lookup_insert_eq. done.
Qed.

(** The node format: whatever precedes and follows it in the block, a node
    that [kvblock_set] writes for a key and a value is found by [kvblock_search] at
    its offset, with its version, its liveness and the place and size of its value. *)
Theorem kv_node_roundtrip i a e post :
  ent_ok e -> zlen a + zlen (eimg e) + 4 <= B ->
  kvblock_search (a ++ eimg e ++ post) B i (zlen a) = Ret (Some (node_of i (zlen a) e)) /\
  string_at (a ++ eimg e ++ post) (head_offset (node_of i (zlen a) e)) = Ret (e_key e) /\
  mem_read (a ++ eimg e ++ post) (value_offset (node_of i (zlen a) e)) (val_size (node_of i (zlen a) e))
    = Ret (e_val e).
Proof.
  intros He Hsz. split; [apply search_found; [done|lia]|]. split; [by apply string_at_key|].
  apply value_at.
Qed.

(** Removing can destroy read-only entries: in a block that holds read-only
    [key=value] lines and one live read-write node, removing that node erases the
    whole block, read-only lines included, while [ro_count] keeps counting them. *)
Theorem kv_rm_erases_readonly k b node :
  blocks k !! nblock node = Some b -> bmem b = Z.of_nat (nblock node) * B -> size b = B ->
  Z.of_nat (nblock node) * B + B <= zlen (cells (fl k)) ->
  erase_flag node <> 0 -> rw node = 1 -> 0 < ro_count b -> count b = ro_count b + 1 ->
  exists k', kvnode_rm node k = Ret k' /\ blk B (cells (fl k')) (nblock node) = erased B /\
    blocks k' !! nblock node = Some (Block (bmem b) B 0 0 0 0 (ro_count b)).
Proof.
  intros Hb Hm Hs Hfit Hf Hrw Hro Hc. unfold kvnode_rm, NODE_VAILD, kvblock_gc, get_block.
  rewrite Hrw, bool_decide_eq_true_2 by done. cbn [andb]. rewrite bool_decide_eq_true_2 by done.
  rewrite Hb. cbn [mbind outcome_bind]. rewrite decide_False by lia. eexists. split; [done|].
  unfold with_block, block_erase, with_flash. cbn [blocks fl]. rewrite Hm, Hs. split.
  - apply (erase_patched B HB HB4 (fl k) (nblock node) Hfit).
  - rewrite list_lookup_insert_eq by (by eapply lookup_lt_Some). done.
Qed.

End Promises.

(** ** A store with one entry, on three sectors of 512 bytes *)

Definition d_key : list Z := [115; 115; 105; 100].      (* "ssid" *)
Definition d_val : list Z := [104; 111; 109; 101].      (* "home" *)
Definition d_empty : kv (H := nor_flash) :=
  Kv nor_flash [Block 0 512 0 0 0 0 0; Block 512 512 0 0 0 0 0; Block 1024 512 0 0 0 0 0] 0 2 (erased 1536).
Definition d_ents : list (list ent) := [[entry_of d_key d_val 1]; []; []].
Definition d_store : kv (H := nor_flash) :=
  Kv nor_flash [Block 0 512 20 20 0 1 0; Block 512 512 0 0 0 0 0; Block 1024 512 0 0 0 0 0] 0 2
    (img [entry_of d_key d_val 1] ++ erased 1516).

Lemma d_ent_ok ver : 1 <= ver <= 255 -> ent_ok (entry_of d_key d_val ver).
Proof. intros. split; [by_decide|by_decide|by_decide|done]. Qed.

Lemma d_512 : 512 <= 512 < 65536.
Proof. by_decide. Qed.

Lemma d_empty_ok : kv_inv (NF := nor_flash_ok 512) 512 [[]; []; []] d_empty.
Proof.
  split; [|constructor|by_decide|by_decide]. split; [done|by vm_compute|].
  intros [|[|[|?]]] es; cbn; try done; intros [= <-]; eexists; (split; [done|]);
    split; (done || by_decide || constructor).
Qed.

Lemma d_store_ok : kv_inv (NF := nor_flash_ok 512) 512 d_ents d_store.
Proof.
  split; [|apply (bool_decide_unpack _); by vm_compute|by_decide|by_decide]. split; [done|by vm_compute|].
  intros [|[|[|?]]] es; cbn; try done; intros [= <-]; eexists; (split; [done|]);
    split; (done || by_decide || (constructor; [by apply d_ent_ok|constructor]) || constructor).
Qed.

Lemma kv_set_refines_witness :
  exists r k' ess', kv_set (Some d_key) (Some (d_val ++ [])) (zlen d_val) d_empty = Ret (r, k') /\
    kv_inv 512 ess' k' /\ set_result [[]; []; []] d_key d_val r ess' /\
    (r = -1 -> forall j ver, Z.of_nat j <> gc_bid d_empty -> ent_ok (entry_of d_key d_val ver) ->
                 ~ fits 512 [[]; []; []] j (entry_of d_key d_val ver)).
Proof.
  apply (kv_set_refines 512 d_512 eq_refl [[]; []; []] d_empty d_key d_val []);
    [apply d_empty_ok|by_decide|by_decide|by_decide|by_decide].
Defined.

Lemma kv_get_refines_witness :
  kv_get d_key 16 d_store = Ret (match abs d_ents !! d_key with
                                 | Some v => (zlen v, ztake 16 v)
                                 | None => (-1, [])
                                 end) /\ abs d_ents !! d_key = Some d_val.
Proof.
  split; [|by vm_compute].
  apply (kv_get_refines 512 d_512 eq_refl d_ents d_store d_key 16); [apply d_store_ok|by_decide|by_decide].
Defined.

Definition d_psk : list Z := [112; 115; 107].           (* "psk" *)
Definition d_after : kv (H := nor_flash) :=
  match kv_set (Some d_psk) (Some (d_val ++ [])) (zlen d_val) d_store with Ret (_, k) => k | Crash => d_store end.

Lemma kv_set_get_witness :
  (forall sz, zlen d_val <= sz -> kv_get d_psk sz d_after = Ret (zlen d_val, d_val)) /\
  (forall other sz, nonzero other -> other <> d_psk -> 0 <= sz ->
     kv_get other sz d_after = kv_get other sz d_store).
Proof.
  apply (kv_set_get 512 d_512 eq_refl d_ents d_store d_psk d_val [] 4 d_after);
    [apply d_store_ok|by_decide|by_decide|by_decide|by_decide|by vm_compute|by_decide].
Defined.

Lemma kv_rm_refines_witness :
  exists r k' ess', kv_rm d_key d_store = Ret (r, k') /\ kv_inv 512 ess' k' /\
    abs ess' = delete d_key (abs d_ents) /\ (r = 0 <-> is_Some (abs d_ents !! d_key)) /\ (r = 0 \/ r = -1).
Proof.
  apply (kv_rm_refines 512 d_512 eq_refl d_ents d_store d_key); [apply d_store_ok|by_decide].
Defined.

Lemma kv_gc_preserves_witness :
  exists rc k' ess', kv_gc d_store = Ret (rc, k') /\ kv_inv 512 ess' k' /\ abs ess' = abs d_ents /\
    length ess' = length d_ents /\ (rc = 0 \/ rc = -1) /\
    (rc = 0 -> gc_bid k' <> gc_bid d_store /\ ess' !! Z.to_nat (gc_bid k') = Some []).
Proof. apply (kv_gc_preserves 512 d_512 eq_refl d_ents d_store d_store_ok). Defined.

Lemma kv_survives_restart_witness :
  exists k' ess', kv_init (length d_ents) 512 (fl d_store) = Ret (0, k') /\ kv_inv 512 ess' k' /\
    abs ess' = abs d_ents.
Proof.
  apply (kv_survives_restart 512 d_512 eq_refl d_ents d_store d_store_ok).
  exists O, [entry_of d_key d_val 1]. split; [done|by_decide].
Defined.

Definition d_flash : flash (Flash := nor_flash) := erased 1536.

Lemma kv_init_erased_witness :
  exists k ess, kv_init 3 512 d_flash = Ret (0, k) /\ kv_inv 512 ess k /\ abs ess = ∅.
Proof. apply (kv_init_erased 512 d_512 eq_refl 3 d_flash); [lia|done]. Defined.

Definition d_int : kv (H := nor_flash) :=
  match aos_kv_setint d_psk 305419896 d_store with Ret (_, k) => k | Crash => d_store end.

Lemma kv_int_roundtrip_witness : aos_kv_getint d_psk d_int = Ret (0, le32_bytes 305419896).
Proof.
  apply (kv_int_roundtrip 512 d_512 eq_refl d_ents d_store d_psk 305419896 d_int);
    [apply d_store_ok|by_decide|by vm_compute].
Defined.

Lemma kv_node_roundtrip_witness :
  kvblock_search ([1; 2; 3; 4] ++ eimg (entry_of d_key d_val 1) ++ [9]) 512 0 4
    = Ret (Some (node_of 0 4 (entry_of d_key d_val 1))) /\
  string_at ([1; 2; 3; 4] ++ eimg (entry_of d_key d_val 1) ++ [9])
    (head_offset (node_of 0 4 (entry_of d_key d_val 1))) = Ret d_key /\
  mem_read ([1; 2; 3; 4] ++ eimg (entry_of d_key d_val 1) ++ [9])
    (value_offset (node_of 0 4 (entry_of d_key d_val 1))) (val_size (node_of 0 4 (entry_of d_key d_val 1)))
    = Ret d_val.
Proof.
  apply (kv_node_roundtrip 512 d_512 0 [1; 2; 3; 4] (entry_of d_key d_val 1) [9]);
    [by apply d_ent_ok|by_decide].
Defined.

(** The factory line [a=1] and one live node in a block, as [kv_init] finds them. *)
Definition d_mixed : kv (H := nor_flash) :=
  match kv_init (FL := nor_flash) 1 512 ([97; 61; 49; 10] ++ img [entry_of d_key d_val 1] ++ erased 488) with
  | Ret (_, k) => k
  | Crash => d_store
  end.
Definition d_node : kvnode := node_of 0 4 (entry_of d_key d_val 1).

Lemma kv_rm_erases_readonly_witness :
  exists k', kvnode_rm d_node d_mixed = Ret k' /\ blk 512 (cells (B := 512) (fl k')) (nblock d_node) = erased 512 /\
    blocks k' !! nblock d_node = Some (Block 0 512 0 0 0 0 1).
Proof.
  apply (kv_rm_erases_readonly 512 d_512 eq_refl d_mixed (Block 0 512 24 24 0 2 1) d_node); by vm_compute.
Defined.
