(* ===== verification/KvPartition.v ===== *)
(** * The key-value store in its partition

    [kv2x_init] and [partition_ops] of [components/kv/kv_aos.c] join the store to the
    partition layer.  The partition meets what the store asks of its flash
    ([NorFlash]), so every theorem on the store holds for it, and whatever the store
    does stays inside its partition. *)

From S2P Require Import Prelude Nor Partition PartitionProofs KvBlock KvSet KvNodeProofs KvProofs KvSetProofs.

(** ** The flash operations of [kv_aos.c] *)

Section Ops.
Context `{SF : SpiFlash}.

(** [int pos]; [kv_partition_erase] erases one sector, whatever size it is asked for. *)
Definition kv_partition_erase (h pos sz : Z) (w : pworld) : outcome (Z * pworld) := partition_erase h (i32 pos) 1 w.
Definition kv_partition_write (h pos : Z) (d : list Z) (w : pworld) : outcome (Z * pworld) :=
  partition_write h (i32 pos) d w.
Definition kv_partition_read (h pos sz : Z) (w : pworld) : outcome (Z * list Z) := partition_read h (i32 pos) sz w.

(** [kv->ops] for an open handle; the operations return on every opened partition
    ([partition_erase_spec] and its siblings). *)
Definition partition_ops (h : Z) : Flash := {|
  flash := pworld;
  fl_erase w pos sz := match kv_partition_erase h pos sz w with Ret r => r | Crash => (- EINVAL, w) end;
  fl_write w pos d := match kv_partition_write h pos d w with Ret r => r | Crash => (- EINVAL, w) end;
  fl_read w pos n := match kv_partition_read h pos n w with Ret r => r | Crash => (- EINVAL, []) end
|}.

(** [kv2x_init]: [None] for the store when there is no such partition. *)
Definition kv2x_init (name : list Z) (w : pworld) : outcome (Z * option {h : Z & kv (H := partition_ops h)}) :=
  let '(h, w) := partition_open name w in
  if decide (0 <= h) then
    match partition_info_get h w with
    | None => Crash
    | Some lp =>
        if decide (sector_size lp = 0) then Crash
        else '(ret, k) ← kv_init (FL := partition_ops h) (Z.to_nat (plength lp / sector_size lp)) (sector_size lp) w;
             Ret (ret, Some (existT h k))
    end
  else Ret (-1, None).

End Ops.

(** ** What the store does to its flash

    Let [R] be a preorder on flash states respected by programming and by erasing at
    the positions [P] holds of.  Then every operation of a store whose blocks lie at
    such positions relates the states before and after by [R]. *)

Section Keeps.
Context `{FL : Flash} (R : relation flash) {HR : PreOrder R} (P : Z -> Prop).
Context (Rw : forall f pos d, zlen d < 2 ^ 31 -> R f (fl_write f pos d).2).
Context (Re : forall f pos sz, P pos -> R f (fl_erase f pos sz).2).

Definition placed (k : kv) : Prop := Forall (fun b => P (bmem b)) (blocks k).

Definition keeps {A} (m : outcome A) (k : kv) (get : A -> kv) : Prop :=
  placed k -> match m with Ret a => placed (get a) /\ R (fl k) (fl (get a)) | Crash => True end.

Lemma keeps_ret {A} (a : A) k get : (placed k -> placed (get a)) -> R (fl k) (fl (get a)) -> keeps (Ret a) k get.
Proof. unfold keeps. auto. Qed.

(** Nothing happened to the flash, and the blocks are where they were. *)
Lemma keeps_same {A} (a : A) k get : get a = k -> keeps (Ret a) k get.
Proof. intros E. apply keeps_ret; by rewrite E. Qed.

Lemma keeps_bind {A B} (m : outcome A) (f : A -> outcome B) k g get :
  keeps m k g -> (forall a, m = Ret a -> keeps (f a) (g a) get) -> keeps (m ≫= f) k get.
Proof.
  unfold keeps. destruct m as [a|]; cbn; [|done]. intros Hm Hf Hk. destruct (Hm Hk) as [Hg HR1].
  specialize (Hf a eq_refl Hg). destruct (f a); [|done]. destruct Hf. split; [done|by etrans].
Qed.

(** A step that only looks at the store. *)
Lemma keeps_look {A B} (m : outcome A) (f : A -> outcome B) k get :
  (forall a, m = Ret a -> keeps (f a) k get) -> keeps (m ≫= f) k get.
Proof. destruct m; cbn; [|by intros ? ?]. intros H. by apply H. Qed.

(** A store with other block indices only. *)
Lemma keeps_via {A} (m : outcome A) k k' get :
  blocks k' = blocks k -> fl k' = fl k -> keeps m k' get -> keeps m k get.
Proof. unfold keeps, placed. intros -> ->. done. Qed.

Lemma placed_block k i b b' : placed k -> get_block i k = Ret b -> bmem b' = bmem b -> placed (with_block i b' k).
Proof.
  unfold placed, get_block. intros Hk Hb E. destruct (blocks k !! i) as [b0|] eqn:Hi; simplify_eq.
  cbn. apply Forall_insert; [done|]. rewrite E. by eapply (Forall_lookup_1 _ _ _ _ Hk).
Qed.

Lemma placed_get k i b : placed k -> get_block i k = Ret b -> P (bmem b).
Proof.
  unfold placed, get_block. intros Hk Hb. destruct (blocks k !! i) as [b0|] eqn:Hi; simplify_eq.
  by eapply (Forall_lookup_1 _ _ _ _ Hk).
Qed.

Lemma keeps_crash {A} k (get : A -> kv) : keeps Crash k get.
Proof. by intros ?. Qed.
#[local] Hint Resolve keeps_same keeps_crash : core.

Lemma kvblock_gc_keeps i k : keeps (kvblock_gc i k) k id.
Proof.
  apply keeps_look. intros b Hb Hk. split; [by apply (placed_block (block_erase b k) i b)|].
  apply Re. by eapply placed_get.
Qed.

Lemma kvnode_rm_keeps node k : keeps (kvnode_rm node k) k id.
Proof.
  unfold kvnode_rm. destruct (_ && _); [|by apply keeps_same]. apply keeps_look. intros b Hb.
  destruct (decide _); [|apply kvblock_gc_keeps]. intros Hk.
  split; [by apply (placed_block (block_write b (next_offset node - 4) (le32_bytes ERASE_FLAG) k) _ b)|by apply Rw].
Qed.

Lemma kvblock_set_keeps i key v sz ver k : keeps (kvblock_set i key v sz ver k) k snd.
Proof.
  unfold kvblock_set. destruct (decide _); [by apply keeps_same|]. apply keeps_look. intros b Hb.
  unfold kvblock_alloc_node. destruct (decide (write_offset b + _ <= _)); [|by apply keeps_same].
  apply keeps_look. intros d (_ & _ & _ & _ & <-)%mem_read_inv. cbn zeta.
  assert (zlen (node_buffer key d (zlen d) ver) < 2 ^ 31).
  { rewrite node_buffer_len. unfold align4, RW_FLAG_SIZE. destruct (decide _); Z.div_mod_to_equations; lia. }
  set (b' := Block _ _ _ _ _ _ _). pose proof (fun Hk => placed_block k i b b' Hk Hb eq_refl) as Hb'.
  destruct (decide _); intros Hk; cbn.
  - split; [|by apply Rw]. unfold placed in *. cbn in *. rewrite list_insert_insert_eq.
    by apply (placed_block k i b _ Hk Hb).
  - split; [by apply Hb'|]. etrans; [by apply Rw|]. by apply Rw.
Qed.

Lemma iter_loop_keeps fuel m sz i c all fn (Hfn : forall n k, keeps (fn n k) k snd) k :
  keeps (iter_loop fuel m sz i c all fn k) k snd.
Proof.
  revert c k. induction fuel as [|fuel IH]; intros c k; [done|]. cbn [iter_loop]. apply keeps_look.
  intros [node|] _; [|by apply keeps_same].
  apply keeps_bind with (g := snd).
  - destruct (_ || _); [apply Hfn|by apply keeps_same].
  - intros [r k'] _. destruct (decide _); [by apply keeps_same|apply IH].
Qed.

Lemma kvblock_iter_keeps i all fn k0 k (Hfn : forall m n k, keeps (fn m n k) k snd) :
  keeps (kvblock_iter i all fn k0 k) k snd.
Proof. do 2 (apply keeps_look; intros ? _). by apply iter_loop_keeps. Qed.

Lemma deep_gc_keeps g m node k : keeps (deep_gc g m node k) k snd.
Proof.
  unfold deep_gc. destruct (decide _); [|by apply keeps_same]. apply keeps_look. intros key _.
  eapply keeps_bind; [apply kvblock_set_keeps|]. intros [o k'] _.
  destruct (decide _); [|by apply keeps_same].
  eapply keeps_bind; [apply kvnode_rm_keeps|]. intros ? _. by apply keeps_same.
Qed.

Lemma gc_loop_keeps fuel g k : keeps (gc_loop fuel g k) k snd.
Proof.
  revert g k. induction fuel as [|fuel IH]; intros g k; [done|]. cbn [gc_loop].
  destruct (decide _); [done|]. apply keeps_look. intros b _. destruct (decide _); [|by apply keeps_same].
  eapply keeps_bind; [apply kvblock_iter_keeps; intros; apply deep_gc_keeps|].
  intros [r k'] _. apply keeps_look. intros b' _. apply IH.
Qed.

Lemma kv_gc_keeps k : keeps (kv_gc k) k snd.
Proof.
  eapply keeps_bind; [apply gc_loop_keeps|]. intros [r k'] _. by destruct (decide _); apply keeps_ret.
Qed.

Lemma set_loop_keeps n start key v sz ver k : keeps (set_loop n start key v sz ver k) k snd.
Proof.
  revert k. induction n as [|n IH]; intros k; [done|]. cbn [set_loop]. destruct (decide _); [done|].
  apply keeps_look. intros b _. apply keeps_bind with (g := snd).
  - destruct (decide _); [apply kvblock_set_keeps|by apply keeps_same].
  - intros [o k'] _. destruct (decide _); [by apply keeps_same|]. cbn zeta.
    destruct (decide _); [by apply keeps_ret|]. by eapply keeps_via; [| |apply IH].
Qed.

Lemma set_place_keeps old key v sz ver k : keeps (set_place old key v sz ver k) k snd.
Proof.
  eapply keeps_bind; [apply set_loop_keeps|]. intros [[] k'] _; [|by apply keeps_same].
  destruct old as [node|]; [|by apply keeps_same].
  eapply keeps_bind; [apply kvnode_rm_keeps|]. intros ? _. by apply keeps_same.
Qed.

Lemma kv_set_keeps key v sz k : keeps (kv_set key v sz k) k snd.
Proof.
  unfold kv_set. destruct key as [key|]; [|by apply keeps_same]. destruct v as [v|]; [|by apply keeps_same].
  destruct (decide _); [by apply keeps_same|]. apply keeps_look. intros [old [ver|]] _; [|by apply keeps_same].
  eapply keeps_bind; [apply set_place_keeps|]. intros [[] k1] _; [by apply keeps_same|].
  eapply keeps_bind; [apply kv_gc_keeps|]. intros [rc k2] _. destruct (decide _); [by apply keeps_same|].
  apply keeps_look. intros [old2 [ver2|]] _; [|by apply keeps_same].
  eapply keeps_bind; [apply set_place_keeps|]. intros [[] k3] _; by apply keeps_same.
Qed.

Lemma kv_rm_keeps key k : keeps (kv_rm key k) k snd.
Proof.
  apply keeps_look. intros [node|] _; [|by apply keeps_same].
  eapply keeps_bind; [apply kvnode_rm_keeps|]. intros ? _. by apply keeps_same.
Qed.

Lemma reset_from_keeps n i k : keeps (reset_from n i k) k id.
Proof.
  revert i k. induction n as [|n IH]; intros i k; [by apply keeps_same|]. cbn [reset_from].
  eapply keeps_bind with (g := id); [|intros k' _; apply IH].
  eapply keeps_bind; [apply kvblock_iter_keeps; intros m node k'|intros [? ?] _; by apply keeps_same].
  eapply keeps_bind; [apply kvnode_rm_keeps|]. intros ? _. by apply keeps_same.
Qed.

Lemma kv_reset_keeps k : keeps (kv_reset k) k snd.
Proof. eapply keeps_bind; [apply reset_from_keeps|]. intros ? _. by apply keeps_same. Qed.

(** Counting a block's nodes leaves the block where it is. *)
Lemma iter_calc_bmem i m node b sc r b' sc' :
  iter_calc i m node (b, sc) = Ret (r, (b', sc')) -> bmem b' = bmem b.
Proof.
  unfold iter_calc. intros E. bind_inv E as [b1 sc1] E1. simplify_eq/=.
  destruct (NODE_VAILD node); [bind_inv E1 as key E2|]; by simplify_eq/=.
Qed.

Lemma iter_loop_bmem fuel m sz i c all j m' b sc r b' sc' :
  iter_loop fuel m sz i c all (iter_calc j m') (b, sc) = Ret (r, (b', sc')) -> bmem b' = bmem b.
Proof.
  revert c b sc. induction fuel as [|fuel IH]; intros c b sc E; [done|]. cbn [iter_loop] in E.
  bind_inv E as [node|] En; [|by simplify_eq]. bind_inv E as [r1 [b1 sc1]] E1.
  assert (bmem b1 = bmem b) as <- by (destruct (_ || _); [by eapply iter_calc_bmem|by simplify_eq]).
  destruct (decide _); [by simplify_eq|]. by eapply IH.
Qed.

Lemma kvblock_calc_keeps i sc k : keeps (kvblock_calc i sc k) k snd.
Proof.
  apply keeps_look. intros b Hb. cbn zeta. apply keeps_look. intros [r [b1 sc1]] E1.
  do 3 (apply keeps_look; intros ? _). set (b0 := Block _ _ _ 0 0 0 0) in *.
  assert (bmem b1 = bmem b) as Hb1.
  { change (bmem b) with (bmem b0). unfold kvblock_iter in E1. bind_inv E1 as bb Ebb. bind_inv E1 as mm Emm.
    by eapply iter_loop_bmem. }
  intros Hk. split; [|done]. unfold placed. cbn. rewrite list_insert_insert_eq.
  by apply (placed_block k i b _ Hk Hb).
Qed.

Lemma kvblock_init_keeps i mem sz sc k : P mem -> keeps (kvblock_init i mem sz sc k) k snd.
Proof.
  intros Hm. unfold kvblock_init. apply keeps_look. intros b _. cbn zeta. set (b0 := Block mem _ _ _ _ _ _).
  assert (forall A (m : outcome A) get, keeps m (with_block i b0 k) get -> keeps m k get) as Hvia.
  { intros A m get H Hk. apply H. by apply Forall_insert. }
  apply Hvia. eapply keeps_bind; [apply kvblock_calc_keeps|].
  intros [sc' k'] _. apply keeps_look. intros b' _. destruct (decide _); [|by apply keeps_same].
  do 2 (apply keeps_look; intros ? _). destruct (_ || _); [|by apply keeps_same].
  eapply keeps_bind; [apply kvblock_gc_keeps|]. intros ? _. by apply keeps_same.
Qed.

Lemma init_from_keeps n i sz gs sc k :
  (forall j, (i <= j < i + n)%nat -> P (Z.of_nat j * sz)) -> keeps (init_from n i sz gs sc k) k snd.
Proof.
  revert i gs sc k. induction n as [|n IH]; intros i gs sc k HP; [by apply keeps_same|]. cbn [init_from].
  eapply keeps_bind; [apply kvblock_init_keeps, HP; lia|]. intros [sc' k'] _. apply keeps_look. intros b _. cbn zeta.
  assert (forall j, (S i <= j < S i + n)%nat -> P (Z.of_nat j * sz)) as HP' by (intros; apply HP; lia).
  destruct (decide _); [by eapply keeps_via; [| |apply IH]|].
  destruct (decide _); [by eapply keeps_via; [| |apply IH]|by apply IH].
Qed.

Lemma verify_from_keeps cs mp k : keeps (verify_from cs mp k) k id.
Proof.
  revert mp k. induction cs as [|[key [i1 o1]] cs IH]; intros mp k; [by apply keeps_same|]. cbn [verify_from].
  destruct (mp !! key) as [[i2 o2]|]; [|done]. do 6 (apply keeps_look; intros ? _).
  case_match; [|apply IH]. case_match; [|apply IH]. do 2 (apply keeps_look; intros ? _).
  destruct (decide _); [|apply IH]. eapply keeps_bind with (g := snd); [|intros [? ?] _; apply IH].
  do 2 (apply keeps_look; intros ? _). destruct (decide _); [by apply keeps_same|].
  destruct (older _ _); [|by apply keeps_same].
  eapply keeps_bind; [apply kvnode_rm_keeps|]. intros ? _. by apply keeps_same.
Qed.

Lemma kv_init_keeps n sz f r k :
  P 0 -> (forall j, (j < n)%nat -> P (Z.of_nat j * sz)) -> kv_init n sz f = Ret (r, k) ->
  placed k /\ R f (fl k).
Proof.
  intros H0 HP E. set (k0 := Kv _ (replicate n (Block 0 0 0 0 0 0 0)) 0 (-1) f).
  enough (keeps (kv_init n sz f) k0 snd) as Hk.
  { unfold keeps in Hk. rewrite E in Hk. apply Hk. by apply Forall_replicate. }
  eapply keeps_bind; [apply init_from_keeps; intros; apply HP; lia|]. intros [sc k1] _.
  eapply keeps_bind; [apply verify_from_keeps|]. intros ? _. by apply keeps_same.
Qed.

End Keeps.

(** ** The partition is the flash the store asks for *)

Section Store.
Context `{SN : SpiNor} (h : Z).

(** The partition's cells; none while the handle is not open. *)
Definition kv_cells (w : pworld) : list Z :=
  match partition_info_get h w with
  | Some p => if decide (flash_ops w = Some (Some HAL_ALL_FLASH_0) /\ on_chip p (spi w))
              then region p (spi w) else []
  | None => []
  end.

Lemma kv_cells_opened p w : opened h p w -> kv_cells w = region p (spi w).
Proof. intros (Hg & Hops & Hon). unfold kv_cells. by rewrite Hg, decide_True. Qed.

(** Either the handle is open, or the store has no cell to act on. *)
Lemma kv_cells_cases w : (exists p, opened h p w) \/ kv_cells w = [].
Proof.
  unfold kv_cells. destruct (partition_info_get h w) as [p|] eqn:Hg; [|by right].
  destruct (decide _) as [[? ?]|]; [|by right]. left. by exists p.
Qed.

Lemma opened_len p w : opened h p w -> 0 < zlen (region p (spi w)) < 2 ^ 31.
Proof.
  intros (_ & _ & Hon). rewrite region_len by done. destruct Hon. pose proof (spi_small (spi w)).
  pose proof spi_xip_pos. lia.
Qed.

(** Programming and erasing keep the handle open. *)
Lemma opened_with_spi p w c : opened h p w -> only_region p (spi w) c -> opened h p (with_spi c w).
Proof.
  intros (Hg & Hops & []) (_ & _ & Hlen). split; [done|]. split; [done|]. split; try done. cbn. lia.
Qed.

Lemma kv_program w pos d :
  0 <= pos -> pos + zlen d <= zlen (kv_cells w) ->
  kv_cells (fl_write (Flash := partition_ops h) w pos d).2 = nor_write (kv_cells w) pos d.
Proof.
  intros Hp Hd. pose proof (zlen_nonneg d). cbn [fl_write partition_ops]. unfold kv_partition_write.
  destruct (kv_cells_cases w) as [[p Ho]|E].
  - rewrite (kv_cells_opened p w Ho) in *. pose proof (opened_len p w Ho). assert (Ho' := Ho). destruct Ho' as (_ & _ & Hon).
    rewrite region_len in Hd by done. rewrite region_len in * by done.
    rewrite i32_id, (partition_write_spec h p) by (done || lia).
    destruct (decide (zlen d = 0)) as [E|].
    + assert (d = []) as -> by (apply zlen_nil_inv; lia). cbn. rewrite (kv_cells_opened p) by done.
      unfold nor_write. rewrite zip_with_nil_r, Z.add_0_r. symmetry. apply ztake_zdrop.
    + rewrite decide_True by lia. destruct (region_program p (spi w) pos d) as [Hr Hout]; [done|lia|lia|].
      cbn [snd]. rewrite (kv_cells_opened p) by (by apply opened_with_spi). apply Hr.
  - rewrite E in Hd. rewrite E. change (zlen (@nil Z)) with 0 in Hd. assert (zlen d = 0) as Hz by lia.
    assert (d = []) as -> by (apply zlen_nil_inv; lia). unfold partition_write. rewrite decide_True by done. cbn [snd].
    rewrite E. assert (pos = 0) as -> by lia. done.
Qed.

Lemma kv_erase w i :
  0 <= i -> i * spi_sector + spi_sector <= zlen (kv_cells w) ->
  kv_cells (fl_erase (Flash := partition_ops h) w (i * spi_sector) spi_sector).2
  = ztake (i * spi_sector) (kv_cells w) ++ erased spi_sector ++ zdrop (i * spi_sector + spi_sector) (kv_cells w).
Proof.
  intros Hi Hfit. pose proof spi_sector_pos. destruct (kv_cells_cases w) as [[p Ho]|E].
  - rewrite (kv_cells_opened p w Ho) in *. pose proof (opened_len p w Ho). assert (Ho' := Ho). destruct Ho' as (_ & _ & Hon).
    rewrite region_len in * by done. cbn [fl_erase partition_ops]. unfold kv_partition_erase.
    assert (i * spi_sector mod spi_sector = 0) by (by apply Z.mod_mul; lia).
    rewrite i32_id, (partition_erase_spec h p) by (done || nia). rewrite Z.mul_1_l, decide_False, decide_True by lia. cbn zeta.
    destruct (region_erase p (spi w) (i * spi_sector) spi_sector) as (Hr & Hreg & Hout);
      [done|nia|done|lia|by apply Z.mod_same; lia|lia|].
    rewrite decide_False by lia. cbn [snd]. by rewrite (kv_cells_opened p) by (by apply opened_with_spi).
  - rewrite E in Hfit. change (zlen (@nil Z)) with 0 in Hfit. nia.
Qed.

Lemma kv_read w pos n :
  0 <= pos -> 0 <= n -> pos + n <= zlen (kv_cells w) ->
  (fl_read (Flash := partition_ops h) w pos n).2 = ztake n (zdrop pos (kv_cells w)).
Proof.
  intros Hp Hn Hl. cbn [fl_read partition_ops]. unfold kv_partition_read. destruct (kv_cells_cases w) as [[p Ho]|E].
  - rewrite (kv_cells_opened p w Ho) in *. pose proof (opened_len p w Ho). assert (Ho' := Ho). destruct Ho' as (_ & _ & Hon).
    rewrite region_len in * by done. rewrite i32_id, (partition_read_spec h p) by (done || lia).
    destruct (decide (n = 0)) as [->|]; [done|]. by rewrite decide_True by lia.
  - rewrite E in Hl. change (zlen (@nil Z)) with 0 in Hl. assert (n = 0) as -> by lia. rewrite E.
    unfold partition_read. by rewrite decide_True by done.
Qed.

#[export] Instance partition_nor : NorFlash (FL := partition_ops h) spi_sector :=
  Build_NorFlash (partition_ops h) spi_sector kv_cells kv_read kv_program (fun w i _ => kv_erase w i).

End Store.

(** ** The store stays inside its partition *)

(** The calls of the application. *)
Inductive kv_call :=
| CallSet (key value : option (list Z)) (len : Z)
| CallGet (key : list Z) (len : Z)
| CallDel (key : list Z)
| CallReset.

Definition kv_step `{FL : Flash} (c : kv_call) (k : kv) : outcome kv :=
  match c with
  | CallSet key value len => '(_, k) ← kv_set key value len k; Ret k
  | CallGet key len => _ ← kv_get key len k; Ret k
  | CallDel key => '(_, k) ← kv_rm key k; Ret k
  | CallReset => '(_, k) ← kv_reset k; Ret k
  end.

Fixpoint kv_run `{FL : Flash} (cs : list kv_call) (k : kv) : outcome kv :=
  match cs with
  | [] => Ret k
  | c :: cs => k ← kv_step c k; kv_run cs k
  end.

Section Confined.
Context `{SN : SpiNor} (h : Z) (p : partition_info).

(** From one state to a later one: the handle stays open, the table of partitions
    and every cell outside [p] stay as they are. *)
Definition confined (w w' : pworld) : Prop :=
  opened h p w -> opened h p w' /\ only_region p (spi w) (spi w') /\ scn_list w' = scn_list w /\ num w' = num w.

#[local] Instance confined_preorder : PreOrder confined.
Proof.
  split.
  - intros w H. by split_and!.
  - intros a b c Hab Hbc Ha. destruct (Hab Ha) as (Hb & Ho & E1 & E2).
    destruct (Hbc Hb) as (Hc & Ho' & E3 & E4). split_and!; [done|by etrans|congruence|congruence].
Qed.

Lemma confined_spi w c : (opened h p w -> only_region p (spi w) c) -> confined w (with_spi c w).
Proof. intros Hout Ho. split_and!; [by apply opened_with_spi, Hout|by apply Hout|done|done]. Qed.

Lemma confined_write w pos d : zlen d < 2 ^ 31 -> confined w (fl_write (Flash := partition_ops h) w pos d).2.
Proof.
  intros Hd Ho. pose proof (zlen_nonneg d). revert Ho. cbn [fl_write partition_ops]. unfold kv_partition_write.
  destruct (decide (i32 pos < 0)) as [Hneg|].
  { unfold partition_write. destruct (decide (zlen d = 0)); [done|]. by rewrite decide_True by done. }
  intros Ho. pose proof (i32_range pos). rewrite (partition_write_spec h p) by (done || lia). revert Ho.
  destruct (decide (zlen d = 0)); [done|]. destruct (decide (i32 pos + zlen d <= plength p)); [|done].
  apply confined_spi. intros (_ & _ & Hon). apply region_program; [done|lia|lia].
Qed.

Definition sector_aligned (pos : Z) : Prop := 0 <= pos < 2 ^ 31 /\ pos mod spi_sector = 0.

Lemma confined_erase w pos sz : sector_aligned pos -> confined w (fl_erase (Flash := partition_ops h) w pos sz).2.
Proof.
  intros [Hp Hm] Ho. cbn [fl_erase partition_ops]. unfold kv_partition_erase. pose proof spi_sector_pos.
  rewrite i32_id, (partition_erase_spec h p) by (done || lia). rewrite Z.mul_1_l, decide_False by lia. revert Ho.
  destruct (decide (pos + spi_sector <= plength p)); [|done].
  apply confined_spi. intros (_ & _ & Hon).
  apply (region_erase p (spi w) pos spi_sector); [done|lia|done|lia|by apply Z.mod_same; lia|lia].
Qed.

Lemma kv_run_confined cs k k' :
  placed (FL := partition_ops h) sector_aligned k -> kv_run (FL := partition_ops h) cs k = Ret k' ->
  confined (fl k) (fl k').
Proof.
  revert k. induction cs as [|c cs IH]; intros k Hk E; [injection E as <-; reflexivity|]. cbn [kv_run] in E.
  bind_inv E as k1 E1.
  enough (placed (FL := partition_ops h) sector_aligned k1 /\ confined (fl k) (fl k1)) as [H1 H2].
  { etrans; [done|]. by apply IH. }
  destruct c; cbn [kv_step] in E1; bind_inv E1 as r Er; try destruct r as [r k2]; injection E1 as <-; [|by split; [|reflexivity]|..].
  - pose proof (kv_set_keeps (FL := partition_ops h) confined sector_aligned confined_write confined_erase key value len k Hk) as H.
    by rewrite Er in H.
  - pose proof (kv_rm_keeps (FL := partition_ops h) confined sector_aligned confined_write confined_erase key k Hk) as H. by rewrite Er in H.
  - pose proof (kv_reset_keeps (FL := partition_ops h) confined sector_aligned confined_write confined_erase k Hk) as H. by rewrite Er in H.
Qed.

End Confined.

(** C30. Whatever the store does from its start-up on, it does inside its partition: no
    sequence of set, get, delete and reset changes a cell outside it, so every other
    partition keeps its contents. *)
Theorem kv_stays_in_partition `{SN : SpiNor} name i p w r s cs k' :
  first_named name i p w -> ready p w ->
  kv2x_init name w = Ret (r, Some s) -> kv_run (FL := partition_ops (projT1 s)) cs (projT2 s) = Ret k' ->
  only_region p (spi w) (spi (fl k')) /\
  forall q, on_chip q (spi w) -> apart p q -> region q (spi (fl k')) = region q (spi w).
Proof.
  intros Hf Hr Ei Er. assert (Hr' := Hr). destruct Hr' as (_ & _ & _ & Hon).
  enough (only_region p (spi w) (spi (fl k'))) as Hout by (split; [done|intros; by apply (region_apart p)]).
  destruct (partition_open_spec name i p w Hf Hr) as (w0 & Eo & Ho & Hspi & _). rewrite <- Hspi.
  set (p' := set_flash_dev true p) in *. unfold kv2x_init in Ei. rewrite Eo, decide_True in Ei by lia.
  assert (Ho' := Ho). destruct Ho' as (Hg & _ & Hon'). rewrite Hg in Ei. destruct Hon' as [_ Hsec ? ? ? ? ?].
  pose proof spi_sector_pos. pose proof (spi_small (spi w0)). pose proof spi_xip_pos.
  rewrite Hsec, decide_False in Ei by lia. bind_inv Ei as [r1 k] Ek. simplify_eq.
  set (FLi := partition_ops (Z.of_nat i)) in *. cbn [projT1 projT2] in *.
  assert (placed (FL := FLi) sector_aligned k /\ confined (Z.of_nat i) p' w0 (fl k)) as [Hpl Hc].
  { eapply (kv_init_keeps (FL := FLi) (confined (Z.of_nat i) p') (HR := confined_preorder (Z.of_nat i) p')
              sector_aligned (confined_write (Z.of_nat i) p') (confined_erase (Z.of_nat i) p')); [| |exact Ek].
    - split; [lia|by apply Z.mod_0_l; lia].
    - intros j Hj. split; [|by apply Z.mod_mul; lia].
      assert (plength p' / spi_sector * spi_sector <= plength p') by (rewrite Z.mul_comm; apply Z.mul_div_le; lia).
      assert (Z.of_nat j < plength p' / spi_sector) by lia. nia. }
  destruct (Hc Ho) as (Hok & Hc1 & _).
  destruct (kv_run_confined (Z.of_nat i) p' cs k k' Hpl Er Hok) as (_ & Hc2 & _).
  exact (transitivity Hc1 Hc2).
Qed.

(** The store on the chip in memory: start it, write ["a"], delete ["b"]. *)
Definition d_calls : list kv_call := [CallSet (Some [97]) (Some [49; 50]) 2; CallDel [98]].

Lemma kv_stays_in_partition_witness :
  exists r s k', kv2x_init [107; 118] d_world = Ret (r, Some s) /\
    kv_run (FL := partition_ops (projT1 s)) d_calls (projT2 s) = Ret k' /\
    only_region d_kv (spi d_world) (spi (fl k')) /\
    (forall q, on_chip q (spi d_world) -> apart d_kv q -> region q (spi (fl k')) = region q (spi d_world)).
Proof.
  assert (match kv2x_init [107; 118] d_world with
          | Ret (r, Some s) =>
              match kv_run (FL := partition_ops (projT1 s)) d_calls (projT2 s) with Ret _ => true | Crash => false end
          | _ => false end = true) as H by (vm_compute; reflexivity).
  destruct (kv2x_init [107; 118] d_world) as [[r [s|]]|] eqn:Es; [|discriminate H..].
  destruct (kv_run (FL := partition_ops (projT1 s)) d_calls (projT2 s)) as [k'|] eqn:Ek; [|discriminate H].
  exists r, s, k'. split; [reflexivity|]. split; [exact Ek|].
  apply (kv_stays_in_partition (SN := mem_chip_nor) [107; 118] 0 d_kv d_world r s d_calls k' ltac:(
    split_and!; [done|done|by vm_compute|]; intros j q Hj; lia) ltac:(
    split_and!; [by eexists|done|done|]; by split; vm_compute) Es Ek).
Defined.
