(* ===== verification/Bootab.v ===== *)
(** * A/B boot table, [components/bootab/src/bootab.c] and [ota_ab.c]

    Two slots, ["a"] and ["b"], each with a sector of the partition ["envab"] holding
    32 boot-count words and a flag record.  The functions read and write that
    partition through [Partition].  NULL strings are [None]; a buffer that a failed
    read left uninitialised is undefined when it is looked at ([Crash]).  Log output is
    left out. *)

From S2P Require Import Prelude Nor Partition.

(** ** Data *)

Definition MAX_BOOT_CNT : Z := 32.
Definition MAX_BOOT_CNT_RE : Z := 30.
Definition BC_SIZE : Z := 128.          (* sizeof(bootab_bc_t) *)
Definition B_IMGS_VERSION_LEN : Z := 64.
Definition B_MAX_VER : Z := 4294967295.
Definition B_ROLLBACK_EN_FLAG : Z := 4294901760.
Definition B_FINISH_FLAG : Z := 56.
Definition g_erase_flag : Z := 4294967295.
Definition BOOT_LIMIT : Z := 5.
Definition AB_WRITE_CHECK_BUF_SIZE : Z := 8192.
Definition OTA_AB_IMG_HEAD_SIZE : Z := 1024.
Definition EIO : Z := 5.
Definition ENOMEM : Z := 12.

(** [boot_reason_t] *)
Inductive boot_reason := BOOTREASON_WDT | BOOTREASON_SOFT | BOOTREASON_POWER | BOOTREASON_OTHER.
#[export] Instance boot_reason_eq_dec : EqDecision boot_reason.
Proof. solve_decision. Defined.

(** Strings, without their NUL. *)
Definition str_a : list Z := [97].
Definition str_b : list Z := [98].
Definition B_ENVAB_NAME : list Z := [101; 110; 118; 97; 98].
Definition BOOTAB_INIT_VER : list Z := [121; 111; 99; 46; 105; 110; 105; 116; 46; 118].

(** [bootab_flag_t], 76 bytes: active_ver, rb_flag, img_version[64], finish. *)
Definition FLAG_SIZE : Z := 76.
Definition active_ver (f : list Z) : Z := le32 (ztake 4 f).
Definition rb_flag (f : list Z) : Z := le32 (ztake 4 (zdrop 4 f)).
Definition img_version (f : list Z) : list Z := ztake 64 (zdrop 8 f).
Definition finish (f : list Z) : Z := le32 (ztake 4 (zdrop 72 f)).
Definition flag_bytes (ver rb : Z) (img : list Z) (fin : Z) : list Z :=
  le32_bytes ver ++ le32_bytes rb ++ img ++ le32_bytes fin.

Definition check_ab_valid (f : list Z) : bool :=
  bool_decide (active_ver f = B_MAX_VER) ||
  (bool_decide (active_ver f <> B_MAX_VER) && bool_decide (finish f = B_FINISH_FLAG) &&
   bool_decide (active_ver f <> 0)).

(** The string up to its NUL. *)
Fixpoint cstr (l : list Z) : list Z :=
  match l with
  | [] => []
  | c :: l => if decide (c = 0) then [] else c :: cstr l
  end.

(** [strlcpy(dst, src, size)] *)
Definition strlcpy (dst src : list Z) (size : Z) : list Z :=
  let d := ztake (size - 1) src ++ [0] in d ++ zdrop (zlen d) dst.

(** A buffer after [d] was stored at its front. *)
Definition overlay (d old : list Z) : list Z := d ++ zdrop (zlen d) old.

(** Slot names, by [strcmp(ab, "a")]. *)
Definition other_slot (ab : list Z) : list Z := if decide (ab = str_a) then str_b else str_a.

Section Bootab.
Context `{SF : SpiFlash}.

(** The static variables, and the partitions.  [envab_info]: [g_envab_info] is not
    NULL. *)
Record boot := Boot {
  flag_a : list Z;
  flag_b : list Z;
  cur_slot : list Z;
  envab_info : bool;
  flash_sector : Z;
  pw : pworld
}.

Definition with_pw (w : pworld) (b : boot) : boot :=
  Boot (flag_a b) (flag_b b) (cur_slot b) (envab_info b) (flash_sector b) w.

(** After a reset: cleared variables, the flash as it is, the partitions set up. *)
Definition boot_fresh (w : pworld) : boot :=
  Boot (replicate 76 0) (replicate 76 0) [] false 0 w.

Definition get_envab_offset (ab : list Z) (b : boot) : Z := if decide (ab = str_a) then 0 else flash_sector b.

(** ** Selecting the slot *)

Definition select_ab (fa fb : list Z) : option (list Z) :=
  match check_ab_valid fa, check_ab_valid fb with
  | true, true => Some (if decide (active_ver fa <= active_ver fb) then str_a else str_b)
  | true, false => Some str_a
  | false, true => Some str_b
  | false, false => None
  end.

Definition bootab_get_current_ab (b : boot) : outcome (option (list Z) * boot) :=
  if decide (cur_slot b <> []) then Ret (Some (cur_slot b), b) else
  if envab_info b then
    let '(p, w) := partition_open B_ENVAB_NAME (pw b) in
    '(_, da) ← partition_read p BC_SIZE FLAG_SIZE w;
    let fa := overlay da (flag_a b) in
    '(_, db) ← partition_read p (i32 (flash_sector b + BC_SIZE)) FLAG_SIZE w;
    let fb := overlay db (flag_b b) in
    let ab := select_ab fa fb in
    let w := partition_close p w in
    Ret (ab, Boot fa fb (match ab with Some s => s | None => cur_slot b end) (envab_info b) (flash_sector b) w)
  else Ret (None, b).

(** The [do .. while (retry++ < 3)] of [bootab_init], with [n] turns left: the value of
    [retry] after it. *)
Fixpoint init_retry (n : nat) (retry : Z) (b : boot) : outcome (Z * boot) :=
  '(ab, b) ← bootab_get_current_ab b;
  match ab with
  | Some _ => Ret (retry, b)
  | None => match n with O => Ret (retry + 1, b) | S n => init_retry n (retry + 1) b end
  end.

Definition bootab_init (b : boot) : outcome (Z * boot) :=
  let '(p, w) := partition_open B_ENVAB_NAME (pw b) in
  let b := with_pw w b in
  let info := partition_info_get p w in
  if decide (p < 0) then Ret (-1, b) else
  match info with
  | None => Ret (-1, with_pw (partition_close p (pw b)) b)
  | Some info =>
      if decide (plength info < u32 (u32 (sector_size info * 2) + OTA_AB_IMG_HEAD_SIZE))
      then Ret (-1, with_pw (partition_close p (pw b)) b)
      else
        let b := Boot (flag_a b) (flag_b b) (cur_slot b) true (sector_size info) (pw b) in
        '(retry, b) ← init_retry 3 0 b;
        if decide (2 < retry) then
          if decide (sector_size info = 0) then Crash
          else '(_, w) ← partition_erase p 0 (plength info / sector_size info) (pw b);
               Ret (-1, with_pw (partition_close p w) b)
        else Ret (0, with_pw (partition_close p (pw b)) b)
  end.

(** ** Boot counter *)

(** The words below index 30 that are not erased. *)
Fixpoint count_words (n : nat) (i : Z) (l : list Z) : Z :=
  match n with
  | O => 0
  | S n =>
      (if decide (le32 (ztake 4 l) <> g_erase_flag /\ i < MAX_BOOT_CNT_RE) then 1 else 0)
      + count_words n (i + 1) (zdrop 4 l)
  end.

(** A buffer of [n] bytes that the read has filled. *)
Definition filled (n : Z) (d : list Z) : outcome (list Z) := if decide (zlen d = n) then Ret d else Crash.

Definition bootab_get_bootcount (ab : option (list Z)) (b : boot) : outcome (Z * boot) :=
  match ab with
  | None => Ret (- EINVAL, b)
  | Some ab =>
      if envab_info b then
        let '(p, w) := partition_open B_ENVAB_NAME (pw b) in
        '(ret, d) ← partition_read p (get_envab_offset ab b) BC_SIZE w;
        let b := with_pw (partition_close p w) b in
        if decide (ret < 0) then Ret (ret, b)
        else d ← filled BC_SIZE d; Ret (count_words (Z.to_nat MAX_BOOT_CNT) 0 d, b)
      else Ret (- EINVAL, b)
  end.

(** [reason] is what [soc_get_boot_reason] says.  A negative count indexes in front of
    the local array. *)
Definition bootab_set_bootcount (ab : option (list Z)) (old_cnt : Z) (reason : boot_reason) (b : boot)
    : outcome (Z * boot) :=
  match ab with
  | None => Ret (- EINVAL, b)
  | Some ab =>
      if envab_info b then
        if decide (MAX_BOOT_CNT_RE - 1 < old_cnt) then Ret (- EINVAL, b)
        else if decide (reason <> BOOTREASON_SOFT /\ reason <> BOOTREASON_WDT) then Ret (-1, b)
        else if decide (old_cnt < 0) then Crash
        else
          let '(p, w) := partition_open B_ENVAB_NAME (pw b) in
          '(ret, w) ← partition_write p (get_envab_offset ab b + 4 * old_cnt) (le32_bytes 0) w;
          let b := with_pw (partition_close p w) b in
          Ret (if decide (ret < 0) then -1 else 0, b)
      else Ret (- EINVAL, b)
  end.

Definition bootab_get_bootlimit : Z := BOOT_LIMIT.

(** ** Flags *)

Definition bootab_get_fallback_is_enable (ab : option (list Z)) (b : boot) : outcome (bool * boot) :=
  match ab with
  | None => Ret (false, b)
  | Some ab =>
      if envab_info b then
        let '(p, w) := partition_open B_ENVAB_NAME (pw b) in
        '(_, d) ← partition_read p (get_envab_offset ab b + BC_SIZE) FLAG_SIZE w;
        let b := with_pw (partition_close p w) b in
        f ← filled FLAG_SIZE d;
        Ret (bool_decide (rb_flag f = B_ROLLBACK_EN_FLAG), b)
      else Ret (false, b)
  end.

Definition bootab_clear_flags (ab : option (list Z)) (b : boot) : outcome (Z * boot) :=
  match ab with
  | None => Ret (- EINVAL, b)
  | Some ab =>
      if envab_info b then
        let '(p, w) := partition_open B_ENVAB_NAME (pw b) in
        '(ret, w) ← partition_erase p (get_envab_offset ab b) 1 w;
        Ret (ret, with_pw (partition_close p w) b)
      else Ret (- EINVAL, b)
  end.

(** The record [bootab_set_valid] writes, from the other slot's record [f]. *)
Definition valid_flag (f : list Z) (ver : option (list Z)) : list Z :=
  flag_bytes (u32 (active_ver f - 1)) B_ROLLBACK_EN_FLAG
    (match ver with
     | Some v => strlcpy (img_version f) v (B_IMGS_VERSION_LEN - 1)
     | None => replicate 64 255
     end)
    B_FINISH_FLAG.

Definition bootab_set_valid (ab : option (list Z)) (ver : option (list Z)) (b : boot) : outcome (Z * boot) :=
  match ab with
  | None => Ret (- EINVAL, b)
  | Some ab =>
      if envab_info b then
        let another := other_slot ab in
        let '(p, w) := partition_open B_ENVAB_NAME (pw b) in
        '(ret, d) ← partition_read p (get_envab_offset another b + BC_SIZE) FLAG_SIZE w;
        if decide (ret < 0) then Ret (ret, with_pw (partition_close p w) b) else
        f ← filled FLAG_SIZE d;
        let boot_flag := valid_flag f ver in
        let offset := get_envab_offset ab b + BC_SIZE in
        '(ret, w) ← partition_write p offset boot_flag w;
        if decide (ret < 0) then Ret (ret, with_pw (partition_close p w) b) else
        '(ret, d) ← partition_read p offset FLAG_SIZE w;
        if decide (ret < 0) then Ret (ret, with_pw (partition_close p w) b) else
        new_flag ← filled FLAG_SIZE d;
        let b := with_pw (partition_close p w) b in
        if decide (active_ver boot_flag <> active_ver new_flag \/ finish boot_flag <> finish new_flag)
        then Ret (-1, b) else Ret (0, b)
      else Ret (- EINVAL, b)
  end.

Definition bootab_set_invalid (ab : option (list Z)) (b : boot) : outcome (Z * boot) :=
  match ab with
  | None => Ret (- EINVAL, b)
  | Some ab =>
      if envab_info b then
        let '(p, w) := partition_open B_ENVAB_NAME (pw b) in
        '(ret, w) ← partition_write p (get_envab_offset ab b + BC_SIZE) (le32_bytes 0) w;
        Ret (ret, with_pw (partition_close p w) b)
      else Ret (- EINVAL, b)
  end.

(** Both setters of the rollback flag: read the record, then write the new word when
    [todo] says so. *)
Definition set_rb_flag (todo : list Z -> bool) (rb : Z) (ab : option (list Z)) (b : boot) : outcome (Z * boot) :=
  match ab with
  | None => Ret (- EINVAL, b)
  | Some ab =>
      if envab_info b then
        let offset := get_envab_offset ab b + BC_SIZE in
        let '(p, w) := partition_open B_ENVAB_NAME (pw b) in
        '(ret, d) ← partition_read p offset FLAG_SIZE w;
        if decide (ret < 0) then Ret (ret, with_pw (partition_close p w) b) else
        f ← filled FLAG_SIZE d;
        if todo f then
          '(ret, w) ← partition_write p (offset + 4) (le32_bytes rb) w;
          Ret (if decide (ret < 0) then ret else 0, with_pw (partition_close p w) b)
        else Ret (0, with_pw (partition_close p w) b)
      else Ret (- EINVAL, b)
  end.

Definition enable_todo (f : list Z) : bool :=
  bool_decide (rb_flag f <> B_ROLLBACK_EN_FLAG) && bool_decide (active_ver f <> g_erase_flag).
Definition bootab_set_fallback_enable : option (list Z) -> boot -> outcome (Z * boot) :=
  set_rb_flag enable_todo B_ROLLBACK_EN_FLAG.

Definition disable_todo (f : list Z) : bool := bool_decide (rb_flag f = B_ROLLBACK_EN_FLAG).
Definition bootab_set_fallback_disable : option (list Z) -> boot -> outcome (Z * boot) :=
  set_rb_flag disable_todo 0.

(** ** Falling back *)

Definition bootab_fallback (ab : option (list Z)) (reason : boot_reason) (b : boot)
    : outcome (option (list Z) * boot) :=
  match ab with
  | None => Ret (None, b)
  | Some s =>
      if envab_info b then
        '(en, b) ← bootab_get_fallback_is_enable ab b;
        if en : bool then
          '(cnt, b) ← bootab_get_bootcount ab b;
          if decide (bootab_get_bootlimit <= cnt) then
            '(_, b) ← bootab_set_invalid ab b;
            Ret (Some (other_slot s), b)
          else
            '(_, b) ← bootab_set_bootcount ab cnt reason b;
            Ret (None, b)
        else Ret (None, b)
      else Ret (None, b)
  end.

Definition bootab_get_imgs_version (ab : option (list Z)) (b : boot) : outcome (list Z * boot) :=
  match ab with
  | None => Ret ([], b)
  | Some ab =>
      let '(p, w) := partition_open B_ENVAB_NAME (pw b) in
      '(ret, d) ← partition_read p (get_envab_offset ab b + BC_SIZE) FLAG_SIZE w;
      let b := with_pw (partition_close p w) b in
      if decide (ret < 0) then Ret ([], b) else
      f ← filled FLAG_SIZE d;
      if decide (ztake 1 (img_version f) = [255]) then Ret (BOOTAB_INIT_VER, b)
      else Ret (ztake 63 (cstr (img_version f)), b)
  end.

Definition bootab_get_cur_imgs_version (b : boot) : outcome (list Z * boot) :=
  '(ab, b) ← bootab_get_current_ab b; bootab_get_imgs_version ab b.

(** ** Writing an image *)

(** [check_mem_is_same] *)
Definition check_mem_is_same (m1 m2 : list Z) : bool := bool_decide (m1 = m2).

(** The loop of [_slice_data_rd_check] over [n] full check buffers from chunk [i] on. *)
Fixpoint rd_check_loop (n : nat) (i : Z) (p offset : Z) (buf : list Z) (w : pworld) : outcome Z :=
  match n with
  | O => Ret 0
  | S n =>
      '(ret, d) ← partition_read p (i32 (offset + i * AB_WRITE_CHECK_BUF_SIZE)) AB_WRITE_CHECK_BUF_SIZE w;
      if decide (ret < 0) then Ret (-1) else
      d ← filled AB_WRITE_CHECK_BUF_SIZE d;
      m ← mem_read buf (i * AB_WRITE_CHECK_BUF_SIZE) AB_WRITE_CHECK_BUF_SIZE;
      if check_mem_is_same d m then rd_check_loop n (i + 1) p offset buf w else Ret (-1)
  end.

(** [_slice_data_rd_check]: read back [size] bytes and compare them with [buf]. *)
Definition slice_data_rd_check (p offset : Z) (buf : list Z) (size : Z) (w : pworld) : outcome Z :=
  let count := size / AB_WRITE_CHECK_BUF_SIZE in
  let md := size mod AB_WRITE_CHECK_BUF_SIZE in
  r ← rd_check_loop (Z.to_nat count) 0 p offset buf w;
  if decide (r < 0) then Ret (-1) else
  if decide (md <> 0) then
    '(ret, d) ← partition_read p (i32 (offset + count * AB_WRITE_CHECK_BUF_SIZE)) md w;
    if decide (ret < 0) then Ret (-1) else
    d ← filled md d;
    m ← mem_read buf (count * AB_WRITE_CHECK_BUF_SIZE) md;
    Ret (if check_mem_is_same d m then 0 else -1)
  else Ret 0.

(** Where the slice comes from: the caller's buffer, or else a file ([None] when it
    cannot be opened; [room]: the heap has room for its contents), or neither. *)
Inductive slice_source :=
| FromBuffer (buffer : list Z)
| FromFile (contents : option (list Z)) (room : bool)
| FromNothing.

(** Erase, write and verify, once the data [pbuf] of [wsize] bytes is there. *)
Definition slice_program (p offset : Z) (pbuf : list Z) (wsize : Z) (b : boot) : outcome (Z * boot) :=
  let sector := flash_sector b in
  if decide (sector = 0) then Crash else
  let erase_offset := u32 (u32 (offset + sector - 1) / sector * sector) in
  let block_count := u32 (wsize + sector - 1) / sector in
  '(ret, w) ← partition_erase p (i32 erase_offset) block_count (pw b);
  if decide (ret < 0) then Ret (ret, with_pw (partition_close p w) b) else
  d ← mem_read pbuf 0 wsize;
  '(ret, w) ← partition_write p (i32 offset) d w;
  if decide (ret < 0) then Ret (ret, with_pw (partition_close p w) b) else
  r ← slice_data_rd_check p (i32 offset) pbuf wsize w;
  Ret (if decide (r < 0) then -1 else 0, with_pw (partition_close p w) b).

Definition bootab_upgrade_partition_slice (name : option (list Z)) (src : slice_source) (offset slice_size : Z)
    (b : boot) : outcome (Z * boot) :=
  if decide (slice_size = 0) then Ret (0, b) else
  match name with
  | None => Ret (- EINVAL, b)
  | Some name =>
      let '(p, w) := partition_open name (pw b) in
      let b := with_pw w b in
      match partition_info_get p w with
      | None => Ret (- EINVAL, b)
      | Some info =>
          if decide (plength info < u32 (offset + slice_size)) then Ret (- EINVAL, b) else
          match src with
          | FromBuffer buffer => slice_program p offset buffer slice_size b
          | FromFile None _ => Ret (- EIO, b)
          | FromFile (Some _) false => Ret (- ENOMEM, b)
          | FromFile (Some contents) true => slice_program p offset contents (zlen contents) b
          | FromNothing => Ret (- EINVAL, b)
          end
      end
  end.

(** [snprintf(part_name, 16, "%s%s", image_name, ab)] *)
Definition bootab_upgrade_slice (image_name ab : option (list Z)) (src : slice_source) (offset slice_size : Z)
    (b : boot) : outcome (Z * boot) :=
  match image_name, ab with
  | Some image_name, Some ab =>
      bootab_upgrade_partition_slice (Some (ztake 15 (image_name ++ ab))) src offset slice_size b
  | _, _ => Ret (- EINVAL, b)
  end.

(** ** [ota_ab.c] *)

Definition otaab_get_next_ab (b : boot) : outcome (list Z * boot) :=
  '(ab, b) ← bootab_get_current_ab b;
  Ret (match ab with Some s => other_slot s | None => str_a end, b).

Definition otaab_upgrade_partition_slice : option (list Z) -> slice_source -> Z -> Z -> boot -> outcome (Z * boot) :=
  bootab_upgrade_partition_slice.

Definition otaab_upgrade_slice (image_name : option (list Z)) (src : slice_source) (offset slice_size : Z) (b : boot)
    : outcome (Z * boot) :=
  '(next_slot, b) ← otaab_get_next_ab b;
  bootab_upgrade_slice image_name (Some next_slot) src offset slice_size b.

Definition otaab_upgrade_end (ver : option (list Z)) (b : boot) : outcome (Z * boot) :=
  '(ab, b) ← bootab_get_current_ab b;
  match ab with
  | None => Crash
  | Some ab =>
      let next_ab := other_slot ab in
      '(ret, b) ← bootab_clear_flags (Some next_ab) b;
      if decide (ret < 0) then Ret (-1, b) else
      '(ret, b) ← bootab_set_fallback_enable (Some next_ab) b;
      if decide (ret <> 0) then Ret (-1, b) else
      '(ret, b) ← bootab_set_valid (Some next_ab) ver b;
      if decide (ret <> 0) then Ret (-1, b) else Ret (0, b)
  end.

Definition otaab_finish (ab_fallback : Z) (b : boot) : outcome boot :=
  '(ab, b) ← bootab_get_current_ab b;
  match ab with
  | None => Crash
  | Some s =>
      '(ret, b) ← bootab_clear_flags (Some (other_slot s)) b;
      if decide (ret <> 0) then Ret b else
      '(_, b) ← (if decide (ab_fallback = 1) then bootab_set_fallback_enable ab b
                 else bootab_set_fallback_disable ab b);
      Ret b
  end.

End Bootab.
Arguments boot {SF}.
Arguments Boot {SF}.
