(* ===== verification/BootabProofs.v ===== *)
(** * A/B boot table: what each function does to the chip

    For the partition ["envab"] on a chip that is read correctly, which driver calls
    each function of [Bootab] makes and what it returns, whatever programming and
    erasing do.  The healthy chip and the chip that loses power both build on these. *)

From S2P Require Import Prelude Nor Partition PartitionProofs Bootab.

(** ** Sizes *)

Lemma count_words_bound n j l : 0 <= count_words n j l <= Z.of_nat n.
Proof.
  revert j l. induction n as [|n IH]; intros j l; [done|]. cbn [count_words].
  specialize (IH (j + 1) (zdrop 4 l)). destruct (decide _); lia.
Qed.

Lemma strlcpy_len dst v n : 1 <= n <= zlen dst -> zlen (strlcpy dst v n) = zlen dst.
Proof.
  intros Hn. unfold strlcpy.
  assert (zlen (ztake (n - 1) v) <= n - 1) by (unfold zlen, ztake; rewrite length_take; lia).
  pose proof (zlen_nonneg (ztake (n - 1) v)).
  rewrite !zlen_app, zlen_zdrop; change (zlen [0]) with 1; rewrite ?zlen_app; change (zlen [0]) with 1; lia.
Qed.

Lemma valid_flag_len f v : zlen f = FLAG_SIZE -> zlen (valid_flag f v) = FLAG_SIZE.
Proof.
  unfold FLAG_SIZE. intros Hf. unfold valid_flag, flag_bytes. rewrite !zlen_app.
  assert (zlen (img_version f) = 64) as Hi by (unfold img_version; rewrite zlen_ztake; rewrite ?zlen_zdrop; lia).
  destruct v as [v|]; [rewrite strlcpy_len; [|unfold B_IMGS_VERSION_LEN; lia]; rewrite Hi|]; done.
Qed.

Section Env.
Context `{SR : SpiReads} (i : nat) (p : partition_info).
Context (Hsector : 204 <= spi_sector) (Hlength : 2 * spi_sector <= plength p).

(** ["envab"] is entry [i] of the table, open or not. *)
Definition env_at : pworld -> Prop := part_at B_ENVAB_NAME i p.

Definition env_ok (b : boot) : Prop :=
  envab_info b = true /\ flash_sector b = spi_sector /\ env_at (pw b) /\
  zlen (flag_a b) = FLAG_SIZE /\ zlen (flag_b b) = FLAG_SIZE.

(** [b'] is as good as [b], with the chip in state [c]. *)
Definition leads (b : boot) (c : chip) (b' : boot) : Prop :=
  env_ok b' /\ spi (pw b') = c /\ cur_slot b' = cur_slot b.

Lemma env_on_chip w c : env_at w -> on_chip p c.
Proof. apply part_on_chip. Qed.

Lemma env_open w :
  env_at w ->
  exists w1, partition_open B_ENVAB_NAME w = (Z.of_nat i, w1) /\
    (opened (Z.of_nat i) (set_flash_dev true p) w1 /\ env_at w1) /\
    spi w1 = spi w /\
    forall c, env_at (partition_close (Z.of_nat i) (with_spi c w1)) /\
              spi (partition_close (Z.of_nat i) (with_spi c w1)) = c.
Proof. apply part_open. Qed.

Lemma close_closes w1 :
  partition_info_get (Z.of_nat i) (partition_close (Z.of_nat i) w1) = None.
Proof.
  unfold partition_close. destruct (partition_info_get (Z.of_nat i) w1) as [q|] eqn:E; [|done].
  unfold partition_info_get in *. cbn [num scn_list with_scn] in *. rewrite Nat2Z.id in *.
  destruct (decide _); [|done]. destruct (scn_list w1 !! i) eqn:Ei; [|done].
  by rewrite list_lookup_insert_eq by (by eapply lookup_lt_Some).
Qed.

Lemma close_same w1 : partition_close (Z.of_nat i) w1 = partition_close (Z.of_nat i) (with_spi (spi w1) w1).
Proof. by destruct w1. Qed.

(** ** Where things are *)

Definition off (s : list Z) : Z := if decide (s = str_a) then 0 else spi_sector.
Definition env (c : chip) : list Z := region p c.
Definition flag (s : list Z) (c : chip) : list Z := ztake FLAG_SIZE (zdrop (off s + BC_SIZE) (env c)).
Definition counts (s : list Z) (c : chip) : list Z := ztake BC_SIZE (zdrop (off s) (env c)).

Lemma off_cases s : off s = 0 \/ off s = spi_sector.
Proof. unfold off. destruct (decide _); auto. Qed.

Lemma offset_off s b : env_ok b -> get_envab_offset s b = off s.
Proof. intros (_ & Hs & _ & _). unfold get_envab_offset, off. by rewrite Hs. Qed.

Lemma env_len c : on_chip p c -> zlen (env c) = plength p.
Proof. apply region_len. Qed.

Lemma flag_len s c : on_chip p c -> zlen (flag s c) = FLAG_SIZE.
Proof.
  intros Hon. unfold flag, FLAG_SIZE, BC_SIZE. pose proof (env_len c Hon). destruct (off_cases s) as [-> | ->];
    rewrite zlen_ztake; rewrite ?zlen_zdrop; lia.
Qed.

Lemma counts_len s c : on_chip p c -> zlen (counts s c) = BC_SIZE.
Proof.
  intros Hon. unfold counts, BC_SIZE. pose proof (env_len c Hon). destruct (off_cases s) as [-> | ->];
    rewrite zlen_ztake; rewrite ?zlen_zdrop; lia.
Qed.

Section Opened.
Context (w1 : pworld) (Ho : opened (Z.of_nat i) (set_flash_dev true p) w1).

Let Hon : on_chip p (spi w1).
Proof. destruct Ho as (_ & _ & Hon). destruct Hon. by split. Qed.

Lemma env_small : plength p < 2 ^ 31.
Proof. pose proof (spi_small (spi w1)). pose proof spi_xip_pos. destruct Hon. lia. Qed.

Lemma read_env o n : 0 <= o -> 0 < n -> o + n <= plength p ->
  partition_read (Z.of_nat i) o n w1 = Ret (0, ztake n (zdrop o (env (spi w1)))).
Proof.
  intros Hoff Hn Hle. pose proof env_small.
  rewrite (partition_read_spec _ _ _ _ _ Ho) by lia. rewrite decide_False, decide_True by (cbn; lia). done.
Qed.

Lemma read_flag s : partition_read (Z.of_nat i) (off s + BC_SIZE) FLAG_SIZE w1 = Ret (0, flag s (spi w1)).
Proof. unfold BC_SIZE, FLAG_SIZE. destruct (off_cases s) as [E | E]; apply read_env; rewrite ?E; lia. Qed.

Lemma read_counts s : partition_read (Z.of_nat i) (off s) BC_SIZE w1 = Ret (0, counts s (spi w1)).
Proof. unfold BC_SIZE. destruct (off_cases s) as [E | E]; apply read_env; rewrite ?E; lia. Qed.

Lemma write_env o d : 0 <= o -> 0 < zlen d -> o + zlen d <= plength p ->
  partition_write (Z.of_nat i) o d w1 = Ret (0, with_spi (spiflash_program (spi w1) (start_addr p + o) d).2 w1).
Proof.
  intros Hoff Hn Hle. pose proof env_small.
  rewrite (partition_write_spec _ _ _ _ _ Ho) by lia. rewrite decide_False, decide_True by (cbn; lia). done.
Qed.

Lemma erase_env s :
  partition_erase (Z.of_nat i) (off s) 1 w1
  = let r := spiflash_erase (spi w1) (start_addr p + off s) spi_sector in
    Ret (if decide (r.1 < 0) then -1 else 0, with_spi r.2 w1).
Proof.
  pose proof env_small. pose proof spi_sector_pos.
  rewrite (partition_erase_spec _ _ _ _ _ Ho).
  - rewrite Z.mul_1_l, decide_False by lia.
    rewrite decide_True by (cbn; pose proof (off_cases s); lia). done.
  - pose proof (off_cases s); lia.
  - destruct (off_cases s) as [-> | ->]; [by apply Z.mod_0_l; lia|by apply Z.mod_same; lia].
  - lia.
Qed.

End Opened.

Lemma opened_any w1 c :
  opened (Z.of_nat i) (set_flash_dev true p) w1 -> opened (Z.of_nat i) (set_flash_dev true p) (with_spi c w1).
Proof. intros (Hg & Hops & Hon). split_and!; [done|done|by eapply on_chip_any]. Qed.

(** Back from the opened partition. *)
Lemma leads_close b w1 c :
  env_ok b ->
  (forall c, env_at (partition_close (Z.of_nat i) (with_spi c w1)) /\
             spi (partition_close (Z.of_nat i) (with_spi c w1)) = c) ->
  leads b c (with_pw (partition_close (Z.of_nat i) (with_spi c w1)) b).
Proof. intros (He & Hs & _ & Ha & Hb) Hc. destruct (Hc c) as [H1 H2]. by split_and!. Qed.

(** Open the partition behind [Hb : env_ok b]. *)
Ltac open_env Hb :=
  pose proof Hb as (Hinfo & Hsec & Henv & Hla & Hlb); rewrite Hinfo;
  destruct (env_open _ Henv) as (w1 & -> & [Ho Henv1] & Hspi & Hclose);
  pose proof (env_on_chip _ (spi w1) Henv) as Hon; cbn zeta.

Lemma overlay_full d old : zlen d = zlen old -> overlay d old = d.
Proof. intros E. unfold overlay. by rewrite zdrop_all, app_nil_r by lia. Qed.

Lemma filled_len n d : zlen d = n -> filled n d = Ret d.
Proof. intros. unfold filled. by rewrite decide_True. Qed.

(** ** The functions *)

Lemma current_known b : cur_slot b <> [] -> bootab_get_current_ab b = Ret (Some (cur_slot b), b).
Proof. intros. unfold bootab_get_current_ab. by rewrite decide_True. Qed.

Lemma current_fresh b :
  env_ok b -> cur_slot b = [] ->
  exists b', bootab_get_current_ab b = Ret (select_ab (flag str_a (spi (pw b))) (flag str_b (spi (pw b))), b') /\
    env_ok b' /\ spi (pw b') = spi (pw b) /\
    cur_slot b' = default [] (select_ab (flag str_a (spi (pw b))) (flag str_b (spi (pw b)))) /\
    partition_info_get (Z.of_nat i) (pw b') = None.
Proof.
  intros Hb Hc. unfold bootab_get_current_ab. rewrite Hc, decide_False by auto.
  open_env Hb. pose proof (env_small w1 Ho).
  rewrite Hsec, i32_id by (unfold BC_SIZE; lia).
  change (partition_read (Z.of_nat i) BC_SIZE FLAG_SIZE w1) with
    (partition_read (Z.of_nat i) (off str_a + BC_SIZE) FLAG_SIZE w1).
  change (partition_read (Z.of_nat i) (spi_sector + BC_SIZE) FLAG_SIZE w1) with
    (partition_read (Z.of_nat i) (off str_b + BC_SIZE) FLAG_SIZE w1).
  rewrite !(read_flag w1 Ho). cbn [mbind outcome_bind]. rewrite !overlay_full by (rewrite flag_len by done; done).
  rewrite Hspi. destruct (Hclose (spi w1)) as [H1 H2]. rewrite <- close_same in H1, H2.
  eexists. split; [done|]. unfold env_ok. cbn [envab_info flash_sector pw flag_a flag_b cur_slot].
  rewrite !flag_len by (by eapply on_chip_any). rewrite H2.
  pose proof (close_closes w1). by split_and!.
Qed.

Lemma clear_flags_spec s b :
  env_ok b ->
  let r := spiflash_erase (spi (pw b)) (start_addr p + off s) spi_sector in
  exists b', bootab_clear_flags (Some s) b = Ret (if decide (r.1 < 0) then -1 else 0, b') /\ leads b r.2 b'.
Proof.
  intros Hb. cbn zeta. unfold bootab_clear_flags. rewrite (offset_off s b Hb).
  open_env Hb.
  rewrite (erase_env w1 Ho), Hspi. cbn zeta. cbn [mbind outcome_bind].
  eexists. split; [done|]. by apply leads_close.
Qed.

Lemma set_rb_flag_spec todo rb s b :
  env_ok b ->
  exists b', set_rb_flag todo rb (Some s) b = Ret (0, b') /\
    leads b (if todo (flag s (spi (pw b)))
             then (spiflash_program (spi (pw b)) (start_addr p + (off s + BC_SIZE + 4)) (le32_bytes rb)).2
             else spi (pw b)) b'.
Proof.
  intros Hb. unfold set_rb_flag. rewrite (offset_off s b Hb).
  open_env Hb.
  rewrite (read_flag w1 Ho). cbn [mbind outcome_bind]. rewrite decide_False by lia.
  rewrite filled_len by (by apply flag_len). cbn [mbind outcome_bind]. rewrite Hspi.
  destruct (todo _).
  - rewrite (write_env w1 Ho) by (change (zlen (le32_bytes rb)) with 4; unfold BC_SIZE;
      pose proof (off_cases s); lia).
    cbn [mbind outcome_bind]. rewrite decide_False, Hspi by lia. eexists. split; [done|]. by apply leads_close.
  - rewrite close_same, Hspi. eexists. split; [done|]. by apply leads_close.
Qed.

Lemma set_invalid_spec s b :
  env_ok b ->
  exists b', bootab_set_invalid (Some s) b = Ret (0, b') /\
    leads b (spiflash_program (spi (pw b)) (start_addr p + (off s + BC_SIZE)) (le32_bytes 0)).2 b'.
Proof.
  intros Hb. unfold bootab_set_invalid. rewrite (offset_off s b Hb).
  open_env Hb.
  rewrite (write_env w1 Ho) by (change (zlen (le32_bytes 0)) with 4; unfold BC_SIZE;
    pose proof (off_cases s); lia).
  cbn [mbind outcome_bind]. rewrite Hspi. eexists. split; [done|]. by apply leads_close.
Qed.

(** Reading the record of one slot, programming that of the other and reading it back. *)
Lemma set_valid_spec s v b :
  env_ok b ->
  let new := valid_flag (flag (other_slot s) (spi (pw b))) v in
  zlen new = FLAG_SIZE ->
  let c' := (spiflash_program (spi (pw b)) (start_addr p + (off s + BC_SIZE)) new).2 in
  exists b', bootab_set_valid (Some s) v b
    = Ret (if decide (active_ver new <> active_ver (flag s c') \/ finish new <> finish (flag s c')) then -1 else 0, b') /\
    leads b c' b'.
Proof.
  intros Hb new Hnew c'. unfold bootab_set_valid. rewrite !(offset_off _ b Hb). open_env Hb.
  rewrite (read_flag w1 Ho). cbn [mbind outcome_bind]. rewrite decide_False by lia.
  rewrite filled_len by (by apply flag_len). cbn [mbind outcome_bind]. rewrite Hspi. fold new.
  rewrite (write_env w1 Ho) by (rewrite ?Hnew; unfold BC_SIZE, FLAG_SIZE; pose proof (off_cases s); lia).
  cbn [mbind outcome_bind]. rewrite decide_False, Hspi by lia. fold c'.
  rewrite (read_flag (with_spi c' w1)) by (by apply opened_any). cbn [mbind outcome_bind spi with_spi].
  rewrite decide_False, filled_len by (lia || (apply flag_len; by eapply on_chip_any)). cbn [mbind outcome_bind].
  exists (with_pw (partition_close (Z.of_nat i) (with_spi c' w1)) b).
  split; [by destruct (decide (active_ver new <> _ \/ _))|]. by apply leads_close.
Qed.

Lemma fallback_enabled_spec s b :
  env_ok b ->
  exists b', bootab_get_fallback_is_enable (Some s) b
    = Ret (bool_decide (rb_flag (flag s (spi (pw b))) = B_ROLLBACK_EN_FLAG), b') /\ leads b (spi (pw b)) b'.
Proof.
  intros Hb. unfold bootab_get_fallback_is_enable. rewrite (offset_off s b Hb). open_env Hb.
  rewrite (read_flag w1 Ho). cbn [mbind outcome_bind]. rewrite filled_len by (by apply flag_len).
  cbn [mbind outcome_bind]. rewrite close_same, Hspi. eexists. split; [done|]. by apply leads_close.
Qed.

Lemma get_bootcount_spec s b :
  env_ok b ->
  exists b', bootab_get_bootcount (Some s) b = Ret (count_words 32 0 (counts s (spi (pw b))), b') /\
    leads b (spi (pw b)) b'.
Proof.
  intros Hb. unfold bootab_get_bootcount. rewrite (offset_off s b Hb). open_env Hb.
  rewrite (read_counts w1 Ho). cbn [mbind outcome_bind]. rewrite decide_False by lia.
  rewrite filled_len by (by apply counts_len).
  cbn [mbind outcome_bind]. rewrite close_same, Hspi. eexists. split; [done|]. by apply leads_close.
Qed.

Definition counted (r : boot_reason) : bool := bool_decide (r = BOOTREASON_SOFT \/ r = BOOTREASON_WDT).

Lemma set_bootcount_spec s n r b :
  env_ok b -> 0 <= n < MAX_BOOT_CNT_RE ->
  exists b', bootab_set_bootcount (Some s) n r b = Ret (if counted r then 0 else -1, b') /\
    leads b (if counted r then (spiflash_program (spi (pw b)) (start_addr p + (off s + 4 * n)) (le32_bytes 0)).2
             else spi (pw b)) b'.
Proof.
  intros Hb Hn. unfold bootab_set_bootcount, MAX_BOOT_CNT_RE in *. rewrite (offset_off s b Hb).
  unfold counted. destruct (decide (r = BOOTREASON_SOFT \/ r = BOOTREASON_WDT)) as [Hr|Hr].
  - rewrite (bool_decide_eq_true_2 _ Hr). open_env Hb.
    rewrite decide_False, decide_False, decide_False by (lia || tauto).
    rewrite (write_env w1 Ho) by (change (zlen (le32_bytes 0)) with 4; pose proof (off_cases s); lia).
    cbn [mbind outcome_bind]. rewrite decide_False, Hspi by lia. eexists. split; [done|]. by apply leads_close.
  - rewrite (bool_decide_eq_false_2 _ Hr). pose proof Hb as (-> & _).
    rewrite decide_False, decide_True by (lia || tauto). exists b. by split_and!.
Qed.

(** ** Compositions *)

Definition fallback_chip (s : list Z) (r : boot_reason) (c : chip) : chip :=
  let n := count_words 32 0 (counts s c) in
  if decide (rb_flag (flag s c) = B_ROLLBACK_EN_FLAG) then
    if decide (BOOT_LIMIT <= n) then (spiflash_program c (start_addr p + (off s + BC_SIZE)) (le32_bytes 0)).2
    else if counted r then (spiflash_program c (start_addr p + (off s + 4 * n)) (le32_bytes 0)).2
    else c
  else c.

Lemma fallback_spec s r b :
  env_ok b ->
  exists b', bootab_fallback (Some s) r b
    = Ret (if decide (rb_flag (flag s (spi (pw b))) = B_ROLLBACK_EN_FLAG /\
                      BOOT_LIMIT <= count_words 32 0 (counts s (spi (pw b))))
           then Some (other_slot s) else None, b') /\
    leads b (fallback_chip s r (spi (pw b))) b'.
Proof.
  intros Hb. unfold bootab_fallback, fallback_chip, bootab_get_bootlimit. pose proof Hb as (-> & _).
  destruct (fallback_enabled_spec s b Hb) as (b1 & -> & Hb1 & Hc1 & Hs1). cbn [mbind outcome_bind].
  set (c := spi (pw b)) in *. set (n := count_words 32 0 (counts s c)).
  destruct (decide (rb_flag (flag s c) = B_ROLLBACK_EN_FLAG)) as [Hen|Hdis].
  - rewrite bool_decide_eq_true_2 by done.
    destruct (get_bootcount_spec s b1 Hb1) as (b2 & -> & Hb2 & Hc2 & Hs2). cbn [mbind outcome_bind].
    rewrite Hc1 in *. fold n. unfold BOOT_LIMIT. destruct (decide (5 <= n)).
    + destruct (set_invalid_spec s b2 Hb2) as (b3 & -> & Hb3 & Hc3 & Hs3). cbn [mbind outcome_bind].
      rewrite decide_True by done. exists b3. split; [done|]. split_and!; [done|by rewrite Hc3, Hc2|congruence].
    + destruct (set_bootcount_spec s n r b2 Hb2) as (b3 & -> & Hb3 & Hc3 & Hs3).
      { unfold n, MAX_BOOT_CNT_RE. pose proof (count_words_bound 32 0 (counts s c)). unfold n in *. lia. }
      cbn [mbind outcome_bind]. rewrite decide_False by tauto. exists b3. split; [done|].
      split_and!; [done|by rewrite Hc3, Hc2|congruence].
  - rewrite bool_decide_eq_false_2, decide_False by tauto. exists b1. split; [done|]. by split_and!.
Qed.

(** The chip after erasing, and after the two programming steps, of
    [otaab_upgrade_end] while slot [s] is running. *)
Definition upgrade_erased (s : list Z) (c : chip) : chip :=
  (spiflash_erase c (start_addr p + off (other_slot s)) spi_sector).2.

Definition upgrade_enabled (s : list Z) (c : chip) : chip :=
  if enable_todo (flag (other_slot s) c)
  then (spiflash_program c (start_addr p + (off (other_slot s) + BC_SIZE + 4)) (le32_bytes B_ROLLBACK_EN_FLAG)).2
  else c.

Definition upgrade_written (s : list Z) (v : option (list Z)) (c : chip) : chip :=
  (spiflash_program c (start_addr p + (off (other_slot s) + BC_SIZE)) (valid_flag (flag s c) v)).2.

Lemma upgrade_end_spec s v b :
  env_ok b -> cur_slot b = s -> s = str_a \/ s = str_b ->
  0 <= (spiflash_erase (spi (pw b)) (start_addr p + off (other_slot s)) spi_sector).1 ->
  let c1 := upgrade_enabled s (upgrade_erased s (spi (pw b))) in
  let c2 := upgrade_written s v c1 in
  let new := valid_flag (flag s c1) v in
  exists b', otaab_upgrade_end v b
    = Ret (if decide (active_ver new <> active_ver (flag (other_slot s) c2) \/
                      finish new <> finish (flag (other_slot s) c2)) then -1 else 0, b') /\
    leads b c2 b'.
Proof.
  intros Hb Hcur Hs Her c1 c2 new. unfold otaab_upgrade_end.
  rewrite current_known by (rewrite Hcur; by destruct Hs as [-> | ->]). cbn [mbind outcome_bind]. rewrite Hcur.
  destruct (clear_flags_spec (other_slot s) b Hb) as (b1 & -> & Hb1 & Hc1 & Hs1). cbn [mbind outcome_bind].
  rewrite (decide_False (P := (spiflash_erase _ _ _).1 < 0)) by lia. rewrite decide_False by lia.
  unfold bootab_set_fallback_enable.
  destruct (set_rb_flag_spec enable_todo B_ROLLBACK_EN_FLAG (other_slot s) b1 Hb1) as (b2 & -> & Hb2 & Hc2 & Hs2).
  cbn [mbind outcome_bind]. rewrite decide_False by lia. rewrite Hc1 in Hc2. fold (upgrade_erased s (spi (pw b))) in Hc2.
  fold (upgrade_enabled s (upgrade_erased s (spi (pw b)))) in Hc2. fold c1 in Hc2.
  assert (other_slot (other_slot s) = s) as Hoo by (by destruct Hs as [-> | ->]).
  destruct (set_valid_spec (other_slot s) v b2 Hb2) as (b3 & -> & Hb3 & Hc3 & Hs3).
  { apply valid_flag_len, flag_len. destruct Hb2 as (_ & _ & He & _). by eapply env_on_chip. }
  rewrite Hoo, Hc2 in *. fold new in Hc3 |- *. cbn [mbind outcome_bind].
  change (spiflash_program c1 (start_addr p + (off (other_slot s) + BC_SIZE)) new).2 with c2 in *.
  exists b3. split; [by destruct (decide (active_ver new <> _ \/ _))|]. split_and!; [done|done|congruence].
Qed.

Lemma imgs_version_spec s b :
  env_ok b ->
  exists b', bootab_get_imgs_version (Some s) b
    = Ret (if decide (ztake 1 (img_version (flag s (spi (pw b)))) = [255]) then BOOTAB_INIT_VER
           else ztake 63 (cstr (img_version (flag s (spi (pw b))))), b') /\ leads b (spi (pw b)) b'.
Proof.
  intros Hb. unfold bootab_get_imgs_version. rewrite (offset_off s b Hb).
  pose proof Hb as (_ & _ & Henv & _). destruct (env_open _ Henv) as (w1 & -> & [Ho Henv1] & Hspi & Hclose).
  pose proof (env_on_chip _ (spi w1) Henv) as Hon.
  rewrite (read_flag w1 Ho). cbn [mbind outcome_bind]. rewrite (decide_False (P := 0 < 0)) by lia.
  rewrite filled_len by (by apply flag_len). cbn [mbind outcome_bind]. rewrite close_same, Hspi.
  exists (with_pw (partition_close (Z.of_nat i) (with_spi (spi (pw b)) w1)) b).
  split; [by destruct (decide (ztake 1 _ = _))|]. by apply leads_close.
Qed.

(** ** Start-up *)

(** The slot the records on the chip select. *)
Definition selected (c : chip) : option (list Z) := select_ab (flag str_a c) (flag str_b c).

Lemma init_retry_found b n r s :
  env_ok b -> cur_slot b = [] -> selected (spi (pw b)) = Some s ->
  exists b', init_retry n r b = Ret (r, b') /\ env_ok b' /\ spi (pw b') = spi (pw b) /\ cur_slot b' = s /\
    partition_info_get (Z.of_nat i) (pw b') = None.
Proof.
  intros Hb Hc Hs. destruct (current_fresh b Hb Hc) as (b' & E & Hb' & Hspi & Hcur & Hcl).
  unfold selected in Hs. rewrite Hs in E, Hcur. exists b'. destruct n; cbn [init_retry]; by rewrite E.
Qed.

Lemma init_retry_none b n r :
  env_ok b -> cur_slot b = [] -> selected (spi (pw b)) = None ->
  exists b', init_retry n r b = Ret (r + Z.of_nat n + 1, b') /\ env_ok b' /\ spi (pw b') = spi (pw b) /\
    cur_slot b' = [] /\ partition_info_get (Z.of_nat i) (pw b') = None.
Proof.
  intros Hb Hc Hs. revert b r Hb Hc Hs. induction n as [|n IH]; intros b r Hb Hc Hs.
  all: destruct (current_fresh b Hb Hc) as (b' & E & Hb' & Hspi & Hcur & Hcl).
  all: pose proof Hs as Hs'; unfold selected in Hs; rewrite Hs in E, Hcur; cbn [init_retry]; rewrite E;
       cbn [mbind outcome_bind].
  - exists b'. rewrite Z.add_0_r. by split_and!.
  - destruct (IH b' (r + 1)) as (b2 & E2 & Hb2 & Hspi2 & Hcur2 & Hg); [done|done|by rewrite Hspi|].
    exists b2. rewrite E2. split_and!; try done; [do 2 f_equal; lia|congruence].
Qed.

(** [bootab_init] after a reset: the selected slot, or -1 and nothing done.  The erase
    of the recovery branch goes to a handle that [bootab_get_current_ab] has closed, so
    it never reaches the chip. *)
Lemma init_spec w :
  2 * spi_sector + OTA_AB_IMG_HEAD_SIZE <= plength p -> env_at w ->
  exists b', bootab_init (boot_fresh w) = Ret (match selected (spi w) with Some _ => 0 | None => -1 end, b') /\
    env_ok b' /\ spi (pw b') = spi w /\ cur_slot b' = default [] (selected (spi w)).
Proof.
  intros Hl Henv. unfold bootab_init. change (pw (boot_fresh w)) with w.
  destruct (env_open w Henv) as (w1 & -> & [Ho Henv1] & Hspi & Hclose).
  pose proof Ho as (Hg & _ & Hon). pose proof (spi_small (spi w1)). pose proof spi_xip_pos.
  destruct Hon as [_ Hsec ? ? ? ? ?]. cbn [plength sector_size start_addr set_flash_dev] in *.
  unfold OTA_AB_IMG_HEAD_SIZE in *. rewrite Hg, decide_False by lia. cbn [plength sector_size set_flash_dev with_pw pw].
  rewrite Hsec, (u32_id (spi_sector * 2)), (u32_id (spi_sector * 2 + _)), decide_False by lia.
  set (b1 := Boot _ _ _ true spi_sector w1). assert (env_ok b1) as Hb1 by (by split_and!).
  rewrite <- Hspi. change w1 with (pw b1). destruct (selected (spi (pw b1))) as [s|] eqn:Es.
  - destruct (init_retry_found b1 3 0 s Hb1 eq_refl Es) as (b2 & -> & Hb2 & Hc2 & Hs2 & Hcl).
    cbn [mbind outcome_bind]. rewrite decide_False by lia.
    unfold partition_close. rewrite Hcl. exists b2. split_and!; [by destruct b2|done..].
  - destruct (init_retry_none b1 3 0 Hb1 eq_refl Es) as (b2 & -> & Hb2 & Hc2 & Hs2 & Hcl).
    cbn [mbind outcome_bind]. rewrite decide_True, decide_False by lia.
    assert (forall k, partition_erase (Z.of_nat i) 0 k (pw b2) = Ret (if decide (k = 0) then 0 else - EINVAL, pw b2)) as ->.
    { intros k. unfold partition_erase. rewrite Hcl. by destruct (decide (k = 0)). }
    cbn [mbind outcome_bind]. unfold partition_close. rewrite Hcl. exists b2. split_and!; [by destruct b2|done..].
Qed.

End Env.
