(* ===== verification/BootabTheorems.v ===== *)
(** * A/B boot table: upgrading, trial boots and falling back

    On a healthy chip: [otaab_upgrade_end] switches slots at the next start, a slot on
    trial is given five counted starts before [bootab_fallback] returns to the other
    one, [otaab_finish] ends the trial. *)

From S2P Require Import Prelude Nor Partition PartitionProofs Bootab BootabProofs.

(** Both cases of a slot name. *)
Ltac by_slot Hs :=
  destruct Hs as [-> | ->];
  [change (other_slot str_a) with str_b in *|change (other_slot str_b) with str_a in *].

(** ** Records *)

Lemma active_ver_bytes ver rb img fin : active_ver (flag_bytes ver rb img fin) = u32 ver.
Proof. unfold active_ver, flag_bytes. rewrite ztake_app_exact by done. apply le32_le32_bytes. Qed.

Lemma rb_flag_bytes ver rb img fin : rb_flag (flag_bytes ver rb img fin) = u32 rb.
Proof.
  unfold rb_flag, flag_bytes. rewrite zdrop_app_exact by done. rewrite ztake_app_exact by done. apply le32_le32_bytes.
Qed.

Lemma img_version_bytes ver rb img fin : zlen img = 64 -> img_version (flag_bytes ver rb img fin) = img.
Proof.
  intros Hi. unfold img_version, flag_bytes. rewrite app_assoc, zdrop_app_exact by done. by apply ztake_app_exact.
Qed.

Lemma finish_bytes ver rb img fin : zlen img = 64 -> finish (flag_bytes ver rb img fin) = u32 fin.
Proof.
  intros Hi. unfold finish, flag_bytes. rewrite !app_assoc, zdrop_app_exact by (rewrite !zlen_app, Hi; done).
  rewrite ztake_all by done. apply le32_le32_bytes.
Qed.

Lemma bytes_ztake n l : bytes l -> bytes (ztake n l).
Proof. apply Forall_take. Qed.

Lemma bytes_zdrop n l : bytes l -> bytes (zdrop n l).
Proof. apply Forall_drop. Qed.

Lemma bytes_erased n : bytes (erased n).
Proof. apply Forall_replicate. by unfold is_byte. Qed.
#[export] Hint Resolve bytes_ztake bytes_zdrop bytes_erased : fw.

Lemma le32_nonneg l : bytes l -> 0 <= le32 l < 2 ^ 32.
Proof.
  unfold bytes, le32. intros H. destruct l as [|a [|b [|c [|d [|? ?]]]]]; try lia.
  inversion_clear H as [|? ? Ha H1]. inversion_clear H1 as [|? ? Hb H2]. inversion_clear H2 as [|? ? Hc H3].
  inversion_clear H3 as [|? ? Hd _]. unfold is_byte in *. lia.
Qed.

Lemma active_ver_range f : bytes f -> 0 <= active_ver f < 2 ^ 32.
Proof. intros. apply le32_nonneg. auto with fw. Qed.

Lemma valid_flag_valid f v : zlen f = FLAG_SIZE -> 2 <= active_ver f < 2 ^ 32 -> check_ab_valid (valid_flag f v) = true.
Proof.
  intros Hf Hv. unfold check_ab_valid, valid_flag. rewrite !active_ver_bytes, finish_bytes.
  - rewrite (u32_id (active_ver f - 1)), u32_id by lia. unfold B_MAX_VER.
    rewrite (bool_decide_eq_true_2 (active_ver f - 1 <> 0)) by lia.
    rewrite (bool_decide_eq_true_2 (active_ver f - 1 <> 4294967295)) by lia. by rewrite orb_true_r.
  - unfold FLAG_SIZE in Hf.
    assert (zlen (img_version f) = 64) as Hi by (unfold img_version; rewrite zlen_ztake; rewrite ?zlen_zdrop; lia).
    destruct v as [v|]; [|done]. rewrite strlcpy_len; unfold B_IMGS_VERSION_LEN; lia.
Qed.

(** The version string a record holds. *)
Definition good_version (v : list Z) : Prop :=
  0 < zlen v <= 62 /\ Forall (fun c => 0 < c < 255) v.

Lemma cstr_app v l : Forall (fun c => 0 < c < 255) v -> cstr (v ++ 0 :: l) = v.
Proof.
  induction 1 as [|c v Hc _ IH]; cbn; [done|]. rewrite decide_False by lia. by rewrite IH.
Qed.

Lemma bytes_strlcpy dst v n : bytes dst -> bytes v -> bytes (strlcpy dst v n).
Proof.
  intros. unfold strlcpy. rewrite !bytes_app. split_and!; auto with fw. by repeat constructor.
Qed.

Lemma bytes_valid_flag f v : bytes f -> (forall s, v = Some s -> bytes s) -> bytes (valid_flag f v).
Proof.
  intros Hf Hv. unfold valid_flag, flag_bytes, img_version. rewrite !bytes_app. split_and!; auto with fw.
  destruct v as [v|]; [apply bytes_strlcpy; auto with fw|]. apply (bytes_erased 64).
Qed.

(** Boot-count words that have been used. *)
Definition zeros (n : Z) : list Z := replicate (Z.to_nat n) 0.

Lemma count_words_used m k j :
  (k <= m)%nat -> (k <> O -> j + Z.of_nat k <= MAX_BOOT_CNT_RE) ->
  count_words m j (zeros (4 * Z.of_nat k) ++ erased (4 * Z.of_nat m - 4 * Z.of_nat k)) = Z.of_nat k.
Proof.
  revert k j. induction m as [|m IH]; intros k j Hk Hj; [by destruct k; [|lia]|]. cbn [count_words].
  destruct k as [|k].
  - replace (4 * Z.of_nat (S m) - 4 * Z.of_nat 0) with (4 + (4 * Z.of_nat m - 4 * Z.of_nat 0)) by lia.
    rewrite erased_app by lia. change (zeros (4 * Z.of_nat 0)) with (@nil Z). cbn [app].
    rewrite ztake_app_exact, zdrop_app_exact by done. rewrite decide_False by (cbn; tauto).
    apply (IH O); [lia|done].
  - replace (4 * Z.of_nat (S m) - 4 * Z.of_nat (S k)) with (4 * Z.of_nat m - 4 * Z.of_nat k) by lia.
    replace (zeros (4 * Z.of_nat (S k))) with ([0; 0; 0; 0] ++ zeros (4 * Z.of_nat k)).
    + norm_app. change (0 :: 0 :: 0 :: 0 :: ?l) with ([0; 0; 0; 0] ++ l).
      rewrite ztake_app_exact, zdrop_app_exact by done.
      rewrite decide_True by (split; [by cbn|lia]). rewrite (IH k) by lia. lia.
    + unfold zeros. replace (Z.to_nat (4 * Z.of_nat (S k))) with (4 + Z.to_nat (4 * Z.of_nat k))%nat by lia. done.
Qed.

(** ** Starting up *)

(** A start of the system: initialise, take the current slot, see whether to give it up. *)
Definition boot_once `{SF : SpiFlash} (r : boot_reason) (w : pworld) : outcome (option (list Z) * pworld) :=
  '(_, b) ← bootab_init (boot_fresh w);
  '(ab, b) ← bootab_get_current_ab b;
  '(fb, b) ← bootab_fallback ab r b;
  Ret (fb, pw b).

Fixpoint boots `{SF : SpiFlash} (rs : list boot_reason) (w : pworld) : outcome (list (option (list Z)) * pworld) :=
  match rs with
  | [] => Ret ([], w)
  | r :: rs => '(fb, w) ← boot_once r w; '(fbs, w) ← boots rs w; Ret (fb :: fbs, w)
  end.

Fixpoint ncounted (rs : list boot_reason) : nat :=
  match rs with
  | [] => O
  | r :: rs => (if counted r then 1 else 0) + ncounted rs
  end.

(** ** Sectors of the two slots *)

Section Slots.
Context `{SR : SpiReads} (i : nat) (p : partition_info).
Context (Hsector : 204 <= spi_sector) (Hlength : 2 * spi_sector <= plength p).

Definition sec (s : list Z) (c : chip) : list Z := ztake spi_sector (zdrop (off s) (env p c)).

Lemma sec_len s c : on_chip p c -> zlen (sec s c) = spi_sector.
Proof.
  intros Hon. pose proof (env_len p c Hon). pose proof (off_cases s). unfold sec.
  rewrite zlen_ztake; rewrite ?zlen_zdrop; lia.
Qed.

Lemma flag_sec s c : flag p s c = ztake FLAG_SIZE (zdrop BC_SIZE (sec s c)).
Proof.
  pose proof (off_cases s). unfold flag, sec, FLAG_SIZE, BC_SIZE. rewrite slice_slice by lia. done.
Qed.

Lemma active_ver_sec s c : active_ver (flag p s c) = le32 (ztake 4 (zdrop 128 (sec s c))).
Proof.
  unfold active_ver. rewrite flag_sec. unfold FLAG_SIZE, BC_SIZE.
  rewrite <- (zdrop_0 (ztake 76 _)), slice_slice by lia. done.
Qed.

Lemma rb_flag_sec s c : rb_flag (flag p s c) = le32 (ztake 4 (zdrop 132 (sec s c))).
Proof. unfold rb_flag. rewrite flag_sec. unfold FLAG_SIZE, BC_SIZE. by rewrite slice_slice by lia. Qed.

Lemma finish_sec s c : finish (flag p s c) = le32 (ztake 4 (zdrop 200 (sec s c))).
Proof. unfold finish. rewrite flag_sec. unfold FLAG_SIZE, BC_SIZE. by rewrite slice_slice by lia. Qed.

Lemma counts_sec s c : counts p s c = ztake BC_SIZE (sec s c).
Proof.
  pose proof (off_cases s). unfold counts, sec, BC_SIZE. rewrite <- (zdrop_0 (ztake spi_sector _)).
  rewrite slice_slice by lia. by rewrite Z.add_0_r.
Qed.

Lemma env_split c :
  on_chip p c -> env p c = sec str_a c ++ sec str_b c ++ zdrop (2 * spi_sector) (env p c).
Proof.
  intros Hon. pose proof (env_len p c Hon). unfold sec. change (off str_a) with 0. change (off str_b) with spi_sector.
  rewrite zdrop_0. replace (zdrop (2 * spi_sector) (env p c)) with (zdrop spi_sector (zdrop spi_sector (env p c))).
  - by rewrite !ztake_zdrop.
  - unfold zdrop. rewrite drop_drop. f_equal. lia.
Qed.

(** Changing one slot's sector. *)
Lemma sec_replace s c c' l :
  on_chip p c -> s = str_a \/ s = str_b -> zlen l = spi_sector ->
  env p c' = ztake (off s) (env p c) ++ l ++ zdrop (off s + spi_sector) (env p c) ->
  sec s c' = l /\ sec (other_slot s) c' = sec (other_slot s) c.
Proof.
  intros Hon Hs Hl E. pose proof (env_split c Hon) as Es. pose proof (env_len p c Hon).
  pose proof (sec_len str_a c Hon). pose proof (sec_len str_b c Hon).
  assert (spi_sector + spi_sector = 2 * spi_sector) as E2 by lia.
  destruct Hs as [-> | ->]; unfold sec in *; change (other_slot str_a) with str_b; change (other_slot str_b) with str_a;
    change (off str_a) with 0 in *; change (off str_b) with spi_sector in *; rewrite E, ?zdrop_0.
  - change (ztake 0 (env p c)) with (@nil Z). cbn [app]. split; [by rewrite ztake_app_exact|].
    by rewrite zdrop_app_exact.
  - assert (zlen (ztake spi_sector (env p c)) = spi_sector) by (rewrite zlen_ztake; lia).
    split; [by rewrite zdrop_app_exact, ztake_app_exact|]. by rewrite ztake_app_exact.
Qed.

End Slots.

(** The version shown for a record [bootab_set_valid] has written. *)
Lemma shown_version f v :
  zlen f = FLAG_SIZE -> (forall t, v = Some t -> good_version t) ->
  (if decide (ztake 1 (img_version (valid_flag f v)) = [255]) then BOOTAB_INIT_VER
   else ztake 63 (cstr (img_version (valid_flag f v)))) = default BOOTAB_INIT_VER v.
Proof.
  unfold FLAG_SIZE. intros Hf Hv.
  assert (zlen (img_version f) = 64) as Hi by (unfold img_version; rewrite zlen_ztake; rewrite ?zlen_zdrop; lia).
  unfold valid_flag. rewrite img_version_bytes.
  - destruct v as [v|]; [|by rewrite decide_True]. destruct (Hv v eq_refl) as [Hl Hc]. cbn [default id].
    unfold strlcpy, B_IMGS_VERSION_LEN. rewrite (ztake_all _ v) by lia. norm_app.
    rewrite cstr_app by done. rewrite decide_False; [apply ztake_all; lia|].
    destruct v as [|c v]; [done|]. inversion_clear Hc. intros [= ->]. lia.
  - destruct v as [v|]; [|done]. rewrite strlcpy_len; unfold B_IMGS_VERSION_LEN; lia.
Qed.

Section Healthy.
Context `{SN : SpiNor} (i : nat) (p : partition_info).
Context (Hsector : 204 <= spi_sector) (Hlength : 2 * spi_sector <= plength p).

Lemma sec_program s c o d :
  on_chip p c -> s = str_a \/ s = str_b -> 0 <= o -> o + zlen d <= spi_sector ->
  let c' := (spiflash_program c (start_addr p + (off s + o)) d).2 in
  sec p s c' = nor_write (sec p s c) o d /\ sec p (other_slot s) c' = sec p (other_slot s) c.
Proof.
  intros Hon Hs Ho Hd c'. pose proof (zlen_nonneg d). pose proof (off_cases s). pose proof (env_len p c Hon).
  destruct (region_program p c (off s + o) d) as [Hr _]; [done|lia|lia|]. fold c' in Hr.
  apply sec_replace; [done..| |]; unfold sec.
  - rewrite nor_write_length; rewrite ?zlen_ztake; rewrite ?zlen_zdrop; lia.
  - unfold env in *. rewrite Hr.
    destruct (split_at (region p c) (off s) spi_sector) as (a & q & E & Ha & Hm); [lia..|].
    set (m := ztake spi_sector (zdrop (off s) (region p c))) in *. rewrite E.
    rewrite <- Ha at 1. rewrite nor_write_inside by lia. rewrite ztake_app_exact by done. do 2 f_equal.
    rewrite app_assoc. symmetry. apply zdrop_app_exact. rewrite zlen_app. lia.
Qed.

Lemma sec_erase s c :
  on_chip p c -> s = str_a \/ s = str_b ->
  let r := spiflash_erase c (start_addr p + off s) spi_sector in
  0 <= r.1 /\ sec p s r.2 = erased spi_sector /\ sec p (other_slot s) r.2 = sec p (other_slot s) c.
Proof.
  intros Hon Hs r. pose proof (off_cases s) as Hoff. pose proof (env_len p c Hon). pose proof spi_sector_pos.
  destruct (region_erase p c (off s) spi_sector) as (Hr & Hreg & _);
    [done|lia|destruct Hoff as [-> | ->]; [by apply Z.mod_0_l; lia|by apply Z.mod_same; lia]
     |lia|by apply Z.mod_same; lia|lia|].
  split; [done|]. apply sec_replace; [done..|apply zlen_erased; lia|exact Hreg].
Qed.

(** ** Upgrading *)

(** The system runs slot [s], as the records on the chip select. *)
Record running (s : list Z) (b : boot) : Prop := Running {
  run_env : env_ok i p b;
  run_slot : s = str_a \/ s = str_b;
  run_cur : cur_slot b = s;
  run_selected : selected p (spi (pw b)) = Some s;
  run_bytes : bytes (flag p s (spi (pw b)))
}.

Lemma other_other s : s = str_a \/ s = str_b -> other_slot (other_slot s) = s.
Proof. by intros [-> | ->]. Qed.

Lemma other_is_slot s : other_slot s = str_a \/ other_slot s = str_b.
Proof. unfold other_slot. destruct (decide _); auto. Qed.

(** Slot [s] is selected and on trial: falling back is enabled and no start counted
    yet. *)
Definition on_trial (s : list Z) (c : chip) : Prop :=
  selected p c = Some s /\ rb_flag (flag p s c) = B_ROLLBACK_EN_FLAG /\ counts p s c = erased BC_SIZE.

Lemma select_valid s c : selected p c = Some s -> check_ab_valid (flag p s c) = true.
Proof.
  unfold selected, select_ab. destruct (check_ab_valid (flag p str_a c)) eqn:Ea, (check_ab_valid (flag p str_b c)) eqn:Eb;
    intros [= <-]; try done. by destruct (decide _).
Qed.

(** The slot with the lower version is selected. *)
Lemma select_lower s c :
  s = str_a \/ s = str_b -> check_ab_valid (flag p s c) = true -> check_ab_valid (flag p (other_slot s) c) = true ->
  active_ver (flag p (other_slot s) c) < active_ver (flag p s c) -> selected p c = Some (other_slot s).
Proof.
  unfold selected, select_ab. intros Hs H1 H2 Hlt. by_slot Hs; rewrite H1, H2.
  - by rewrite decide_False by lia.
  - by rewrite decide_True by lia.
Qed.

Lemma erased_ver : active_ver (ztake FLAG_SIZE (zdrop BC_SIZE (erased spi_sector))) = B_MAX_VER.
Proof.
  unfold active_ver, FLAG_SIZE, BC_SIZE, erased, ztake, zdrop.
  rewrite drop_replicate, !take_replicate. by rewrite Nat.min_l by lia.
Qed.

(** The sectors after [otaab_upgrade_end]. *)
Lemma upgrade_sectors s v c :
  on_chip p c -> s = str_a \/ s = str_b -> bytes (flag p s c) -> (forall t, v = Some t -> bytes t) ->
  let c2 := upgrade_written p s v (upgrade_enabled p s (upgrade_erased p s c)) in
  let new := valid_flag (flag p s c) v in
  flag p s (upgrade_enabled p s (upgrade_erased p s c)) = flag p s c /\
  sec p s c2 = sec p s c /\ sec p (other_slot s) c2 = erased BC_SIZE ++ new ++ erased (spi_sector - 204).
Proof.
  intros Hon Hs Hby Hv c2 new.
  destruct (sec_erase (other_slot s) c Hon (other_is_slot s)) as (_ & He & Hk). rewrite other_other in Hk by done.
  fold (upgrade_erased p s c) in *. set (c1 := upgrade_erased p s c) in *.
  assert (upgrade_enabled p s c1 = c1) as E1.
  { unfold upgrade_enabled. assert (active_ver (flag p (other_slot s) c1) = g_erase_flag) as Hver.
    { rewrite flag_sec, He by done. apply erased_ver. }
    unfold enable_todo. rewrite (bool_decide_eq_false_2 (active_ver _ <> _)) by (rewrite Hver; auto).
    by rewrite andb_false_r. }
  subst c2. rewrite E1. assert (flag p s c1 = flag p s c) as Ef by (by rewrite !flag_sec, Hk by done).
  split; [done|]. unfold upgrade_written. rewrite Ef. fold new.
  assert (zlen new = FLAG_SIZE) as Hl by (apply valid_flag_len, flag_len; done).
  assert (on_chip p c1) as Hon1 by (by eapply on_chip_any).
  destruct (sec_program (other_slot s) c1 BC_SIZE new Hon1 (other_is_slot s)) as [Hw Hk2];
    [unfold BC_SIZE; lia|unfold BC_SIZE; rewrite Hl; unfold FLAG_SIZE; lia|].
  rewrite other_other in Hk2 by done. split; [congruence|]. rewrite Hw, He.
  replace (erased spi_sector) with (erased BC_SIZE ++ erased (spi_sector - 128) ++ [])
    by (rewrite app_nil_r, <- erased_app by (unfold BC_SIZE; lia); f_equal; unfold BC_SIZE; lia).
  rewrite <- (zlen_erased BC_SIZE) at 3 by (unfold BC_SIZE; lia).
  rewrite program_erased, app_nil_r; [do 3 f_equal; rewrite Hl; unfold FLAG_SIZE; lia
    |by apply bytes_valid_flag|rewrite Hl; unfold FLAG_SIZE; lia].
Qed.

(** Only the partition of the boot table changes. *)
Lemma upgrade_only s v c :
  on_chip p c -> s = str_a \/ s = str_b ->
  only_region p c (upgrade_written p s v (upgrade_enabled p s (upgrade_erased p s c))).
Proof.
  intros Hon Hs. pose proof (off_cases (other_slot s)) as Hoff. pose proof spi_sector_pos.
  destruct (region_erase p c (off (other_slot s)) spi_sector) as (_ & _ & H1);
    [done|lia|destruct Hoff as [-> | ->]; [by apply Z.mod_0_l; lia|by apply Z.mod_same; lia]
     |lia|by apply Z.mod_same; lia|lia|].
  fold (upgrade_erased p s c) in H1. set (c1 := upgrade_erased p s c) in *.
  assert (forall c o d, on_chip p c -> 0 <= o -> o + zlen d <= spi_sector ->
    only_region p c (spiflash_program c (start_addr p + (off (other_slot s) + o)) d).2) as Hprog.
  { intros c0 o d ? ? ?. pose proof (zlen_nonneg d). by apply region_program; [|lia..]. }
  assert (only_region p c1 (upgrade_enabled p s c1)) as H2.
  { unfold upgrade_enabled. destruct (enable_todo _); [|done]. rewrite <- Z.add_assoc.
    apply Hprog; [by eapply on_chip_any|done|]. change (zlen (le32_bytes _)) with 4. unfold BC_SIZE. lia. }
  set (c2 := upgrade_enabled p s c1) in *. etrans; [exact H1|]. etrans; [exact H2|].
  assert (on_chip p c2) as Hon2 by (by eapply on_chip_any). apply Hprog; [done|done|].
  rewrite valid_flag_len by (by apply flag_len). unfold BC_SIZE, FLAG_SIZE. lia.
Qed.

(** [otaab_upgrade_end] switches slots.  While slot [s] runs, with a version number of
    at least 2, it returns 0, leaves the sector of [s] alone and gives the other slot a
    record that puts it on trial; after a reset [bootab_init] succeeds, the other slot is
    the current one and [bootab_get_cur_imgs_version] shows the version string that was
    handed over (or the initial one). *)
Lemma upgrade_switches s v b :
  running s b -> 2 * spi_sector + OTA_AB_IMG_HEAD_SIZE <= plength p ->
  2 <= active_ver (flag p s (spi (pw b))) -> (forall t, v = Some t -> good_version t) ->
  exists b', otaab_upgrade_end v b = Ret (0, b') /\ on_trial (other_slot s) (spi (pw b')) /\
    sec p s (spi (pw b')) = sec p s (spi (pw b)) /\ only_region p (spi (pw b)) (spi (pw b')) /\
    exists b2 b3, bootab_init (boot_fresh (pw b')) = Ret (0, b2) /\ running (other_slot s) b2 /\
      spi (pw b2) = spi (pw b') /\ bootab_get_cur_imgs_version b2 = Ret (default BOOTAB_INIT_VER v, b3).
Proof.
  intros [Hb Hs Hcur Hsel Hby] Hlen Hver Hv. set (c := spi (pw b)) in *.
  pose proof Hb as (_ & _ & Henv & _). pose proof (env_on_chip i p _ c Henv) as Hon.
  assert (forall t, v = Some t -> bytes t) as Hvb.
  { intros t Ht. destruct (Hv t Ht) as [_ H]. eapply list.Forall_impl; [exact H|]. unfold is_byte. lia. }
  destruct (upgrade_sectors s v c Hon Hs Hby Hvb) as (Ef & Hsec & Hoth).
  destruct (sec_erase (other_slot s) c Hon (other_is_slot s)) as (Her & _).
  destruct (upgrade_end_spec i p Hsector Hlength s v b Hb Hcur Hs Her) as (b' & E & Hb' & Hc' & Hcur').
  fold c in E, Hc'. rewrite Ef in E. set (c2 := upgrade_written _ _ _ _) in *. set (new := valid_flag (flag p s c) v) in *.
  assert (zlen new = FLAG_SIZE) as Hl by (apply valid_flag_len, flag_len; done).
  assert (flag p (other_slot s) c2 = new) as Hnew.
  { rewrite flag_sec, Hoth, zdrop_app_exact by (by rewrite ?zlen_erased). by apply ztake_app_exact. }
  rewrite Hnew, decide_False in E by tauto. exists b'. rewrite Hc'. split; [done|].
  assert (flag p s c2 = flag p s c) as Hold by (by rewrite !flag_sec, Hsec).
  pose proof (active_ver_range _ Hby) as Hrange.
  assert (active_ver new = active_ver (flag p s c) - 1) as Hav.
  { unfold new, valid_flag. rewrite active_ver_bytes, (u32_id (active_ver _ - 1)) by lia. apply u32_id. lia. }
  assert (check_ab_valid new = true) as Hck by (apply valid_flag_valid; [by apply flag_len|lia]).
  assert (selected p c2 = Some (other_slot s)) as Hsel2.
  { apply select_lower; [done|rewrite Hold; by apply select_valid|by rewrite Hnew|rewrite Hnew, Hold, Hav; lia]. }
  split.
  { split; [done|]. rewrite Hnew. split; [unfold new, valid_flag; by rewrite rb_flag_bytes|].
    rewrite counts_sec, Hoth by done. by apply ztake_app_exact. }
  split; [done|]. split; [by apply upgrade_only|].
  destruct (init_spec i p Hsector Hlength (pw b') Hlen) as (b2 & E2 & Hb2 & Hc2 & Hcur2); [by destruct Hb' as (_ & _ & ? & _)|].
  rewrite Hc' in *. rewrite Hsel2 in E2, Hcur2. cbn [default id] in Hcur2.
  destruct (imgs_version_spec i p Hsector Hlength (other_slot s) b2 Hb2) as (b3 & E3 & _). rewrite Hc2, Hnew in E3.
  exists b2, b3. split; [done|]. split.
  { split; [done|apply other_is_slot|done|by rewrite Hc2|rewrite Hc2, Hnew; by apply bytes_valid_flag]. }
  split; [done|].
  unfold bootab_get_cur_imgs_version. rewrite current_known by (rewrite Hcur2; by destruct (other_is_slot s) as [-> | ->]).
  cbn [mbind outcome_bind]. rewrite Hcur2, E3. do 2 f_equal. apply shown_version; [by apply flag_len|done].
Qed.

(** ** Trial boots *)

(** Slot [s] is selected, may be given up, and [n] starts are counted; the other slot
    could take over. *)
Definition trial (n : nat) (s : list Z) (c : chip) : Prop :=
  selected p c = Some s /\ rb_flag (flag p s c) = B_ROLLBACK_EN_FLAG /\
  counts p s c = zeros (4 * Z.of_nat n) ++ erased (BC_SIZE - 4 * Z.of_nat n) /\
  check_ab_valid (flag p (other_slot s) c) = true.

(** Counting one more start. *)
Lemma count_start n s c :
  on_chip p c -> s = str_a \/ s = str_b -> (n < 30)%nat -> trial n s c ->
  trial (S n) s (spiflash_program c (start_addr p + (off s + 4 * Z.of_nat n)) (le32_bytes 0)).2.
Proof.
  intros Hon Hs Hn (Hsel & Hrb & Hcnt & Hoth). set (c' := (spiflash_program _ _ _).2).
  destruct (sec_program s c (4 * Z.of_nat n) (le32_bytes 0) Hon Hs) as [Hw Hk];
    [lia|change (zlen (le32_bytes 0)) with 4; lia|]. fold c' in Hw, Hk.
  pose proof (ztake_zdrop BC_SIZE (sec p s c)) as Hsplit. rewrite <- counts_sec in Hsplit by done.
  set (rest := zdrop BC_SIZE (sec p s c)) in *. rewrite Hcnt in Hsplit.
  replace (BC_SIZE - 4 * Z.of_nat n) with (4 + (BC_SIZE - 4 * Z.of_nat (S n))) in Hsplit by lia.
  rewrite erased_app in Hsplit by (unfold BC_SIZE; lia).
  assert (zlen (zeros (4 * Z.of_nat n)) = 4 * Z.of_nat n) as Hz by (unfold zeros; rewrite zlen_replicate; lia).
  assert (sec p s c' = (zeros (4 * Z.of_nat (S n)) ++ erased (BC_SIZE - 4 * Z.of_nat (S n))) ++ rest) as Hsec.
  { rewrite Hw, <- Hsplit. norm_app. change (le32_bytes 0) with [0; 0; 0; 0].
    transitivity (nor_write (zeros (4 * Z.of_nat n) ++ erased 4 ++ erased (BC_SIZE - 4 * Z.of_nat (S n)) ++ rest)
                    (zlen (zeros (4 * Z.of_nat n))) [0; 0; 0; 0]); [by rewrite Hz|].
    rewrite program_zero by (by rewrite zlen_erased). unfold zeros.
    replace (Z.to_nat (4 * Z.of_nat (S n))) with (Z.to_nat (4 * Z.of_nat n) + 4)%nat by lia.
    rewrite replicate_add. by norm_app. }
  assert (zlen (zeros (4 * Z.of_nat (S n)) ++ erased (BC_SIZE - 4 * Z.of_nat (S n))) = BC_SIZE) as Hlen.
  { rewrite zlen_app, zlen_erased by (unfold BC_SIZE; lia). unfold zeros. rewrite zlen_replicate. lia. }
  assert (flag p s c' = flag p s c) as Hf.
  { rewrite !flag_sec, Hsec by done. by rewrite zdrop_app_exact. }
  assert (flag p (other_slot s) c' = flag p (other_slot s) c) as Hf' by (by rewrite !flag_sec, Hk).
  split_and!; [|by rewrite Hf|rewrite counts_sec, Hsec by done; by apply ztake_app_exact|by rewrite Hf'].
  unfold selected in *. by_slot Hs; by rewrite Hf, Hf'.
Qed.

(** Giving the slot up. *)
Lemma slot_given_up s c :
  on_chip p c -> s = str_a \/ s = str_b -> check_ab_valid (flag p (other_slot s) c) = true ->
  selected p (spiflash_program c (start_addr p + (off s + BC_SIZE)) (le32_bytes 0)).2 = Some (other_slot s).
Proof.
  intros Hon Hs Hoth. set (c' := (spiflash_program _ _ _).2).
  destruct (sec_program s c BC_SIZE (le32_bytes 0) Hon Hs) as [Hw Hk];
    [unfold BC_SIZE; lia|change (zlen (le32_bytes 0)) with 4; unfold BC_SIZE; lia|]. fold c' in Hw, Hk.
  assert (flag p (other_slot s) c' = flag p (other_slot s) c) as Hf' by (by rewrite !flag_sec, Hk).
  assert (active_ver (flag p s c') = 0) as Hver.
  { pose proof (sec_len p Hsector Hlength s c Hon).
    destruct (split_at (sec p s c) BC_SIZE 4) as (a & q & E & Ha & Hm); [unfold BC_SIZE; lia..|].
    rewrite flag_sec, Hw, E by done. change (le32_bytes 0) with [0; 0; 0; 0].
    set (m := ztake 4 (zdrop BC_SIZE (sec p s c))) in *.
    transitivity (active_ver (ztake FLAG_SIZE (zdrop BC_SIZE (nor_write (a ++ m ++ q) (zlen a) [0; 0; 0; 0]))));
      [by rewrite Ha|].
    rewrite program_zero, zdrop_app_exact by done. done. }
  assert (check_ab_valid (flag p s c') = false) as Hno.
  { unfold check_ab_valid. rewrite Hver, (bool_decide_eq_false_2 (0 <> 0)), andb_false_r by auto. done. }
  unfold selected, select_ab.
  by_slot Hs; by rewrite Hno, Hf', Hoth.
Qed.

Context (Hhead : 2 * spi_sector + OTA_AB_IMG_HEAD_SIZE <= plength p).

Lemma boot_once_trial n s r w :
  env_at i p w -> s = str_a \/ s = str_b -> (n <= 5)%nat -> trial n s (spi w) ->
  exists w', boot_once r w = Ret (if decide (n = 5)%nat then Some (other_slot s) else None, w') /\ env_at i p w' /\
    if decide (n = 5)%nat then selected p (spi w') = Some (other_slot s)
    else trial (if counted r then S n else n) s (spi w').
Proof.
  intros Henv Hs Hn Ht. pose proof Ht as (Hsel & Hrb & Hcnt & Hoth). unfold boot_once.
  pose proof (env_on_chip i p w (spi w) Henv) as Hon.
  destruct (init_spec i p Hsector Hlength w Hhead Henv) as (b1 & -> & Hb1 & Hc1 & Hcur1). rewrite Hsel in *.
  cbn [mbind outcome_bind default id] in *.
  rewrite current_known by (rewrite Hcur1; by destruct Hs as [-> | ->]). cbn [mbind outcome_bind]. rewrite Hcur1.
  destruct (fallback_spec i p Hsector Hlength s r b1 Hb1) as (b2 & -> & (_ & _ & Henv2 & _) & Hc2 & _).
  cbn [mbind outcome_bind]. rewrite Hc1 in *. unfold fallback_chip in Hc2.
  change BC_SIZE with (4 * Z.of_nat 32) in Hcnt.
  rewrite Hcnt, (count_words_used 32 n 0), Hrb in Hc2 |- * by (lia || (intros; unfold MAX_BOOT_CNT_RE; lia)).
  rewrite (decide_True (P := B_ROLLBACK_EN_FLAG = B_ROLLBACK_EN_FLAG)) in Hc2 by done. unfold BOOT_LIMIT in *.
  exists (pw b2). destruct (decide (n = 5)%nat) as [->|Hne].
  - rewrite decide_True by done. rewrite decide_True in Hc2 by done. split_and!; [done|done|].
    rewrite Hc2. by apply slot_given_up.
  - rewrite decide_False by lia. rewrite decide_False in Hc2 by lia. split_and!; [done|done|].
    rewrite Hc2. destruct (counted r); [apply count_start; [done|done|lia|done]|done].
Qed.

Lemma boots_trial s rs n w :
  s = str_a \/ s = str_b -> env_at i p w -> (n + ncounted rs < 5)%nat -> trial n s (spi w) ->
  exists w', boots rs w = Ret (replicate (length rs) None, w') /\ env_at i p w' /\ trial (n + ncounted rs) s (spi w').
Proof.
  intros Hs. revert n w. induction rs as [|r rs IH]; intros n w Henv Hn Ht; cbn [boots ncounted length replicate] in *.
  - exists w. by rewrite Nat.add_0_r.
  - destruct (boot_once_trial n s r w Henv Hs ltac:(lia) Ht) as (w1 & -> & Henv1 & H1).
    cbn [mbind outcome_bind]. destruct (decide (n = 5)%nat) as [?|_]; [lia|].
    destruct (IH (if counted r then S n else n) w1) as (w2 & -> & Henv2 & H2);
      [done|destruct (counted r); lia|done|].
    cbn [mbind outcome_bind]. exists w2. split_and!; [done|done|].
    replace (n + ((if counted r then 1 else 0) + ncounted rs))%nat
      with ((if counted r then S n else n) + ncounted rs)%nat by (destruct (counted r); lia). done.
Qed.

(** C31. A slot on trial is given five counted starts.  Over any sequence of starts with
    at most four resets by software or watchdog (power cycles are not counted) nothing
    falls back and the slot stays selected; a fifth counted start still runs the slot,
    and the start after it, whatever its reason, falls back: from then on the other slot
    is selected. *)
Theorem bootab_trial_boots s w rs :
  env_at i p w -> s = str_a \/ s = str_b -> on_trial s (spi w) ->
  check_ab_valid (flag p (other_slot s) (spi w)) = true -> (ncounted rs <= 4)%nat ->
  exists w', boots rs w = Ret (replicate (length rs) None, w') /\ selected p (spi w') = Some s /\
    forall r5 r6, ncounted rs = 4%nat -> counted r5 = true ->
      exists w5 w6, boot_once r5 w' = Ret (None, w5) /\ selected p (spi w5) = Some s /\
        boot_once r6 w5 = Ret (Some (other_slot s), w6) /\ selected p (spi w6) = Some (other_slot s).
Proof.
  intros Henv Hs (Hsel & Hrb & Hcnt) Hoth Hle. assert (trial 0 s (spi w)) as Ht0 by (by split_and!).
  destruct (boots_trial s rs 0 w Hs Henv ltac:(lia) Ht0) as (w' & E & Henv' & Ht). cbn [Nat.add] in Ht.
  exists w'. split; [done|]. split; [by apply Ht|]. intros r5 r6 H4 Hr5. rewrite H4 in Ht.
  destruct (boot_once_trial 4 s r5 w' Henv' Hs ltac:(lia) Ht) as (w5 & E5 & Henv5 & H5). rewrite Hr5 in H5.
  destruct (boot_once_trial 5 s r6 w5 Henv5 Hs ltac:(lia) H5) as (w6 & E6 & _ & H6).
  exists w5, w6. split_and!; [done|by apply H5|done|done].
Qed.

(** ** Ending the trial *)

Lemma boots_settled s rs w :
  env_at i p w -> s = str_a \/ s = str_b -> selected p (spi w) = Some s ->
  rb_flag (flag p s (spi w)) <> B_ROLLBACK_EN_FLAG ->
  exists w', boots rs w = Ret (replicate (length rs) None, w') /\ spi w' = spi w.
Proof.
  intros Henv Hs Hsel Hrb. revert w Henv Hsel Hrb. induction rs as [|r rs IH]; intros w Henv Hsel Hrb; [by exists w|].
  cbn [boots length replicate]. unfold boot_once.
  destruct (init_spec i p Hsector Hlength w Hhead Henv) as (b1 & -> & Hb1 & Hc1 & Hcur1). rewrite Hsel in *.
  cbn [mbind outcome_bind default id] in *.
  rewrite current_known by (rewrite Hcur1; by destruct Hs as [-> | ->]). cbn [mbind outcome_bind]. rewrite Hcur1.
  destruct (fallback_spec i p Hsector Hlength s r b1 Hb1) as (b2 & -> & (_ & _ & Henv2 & _) & Hc2 & _).
  cbn [mbind outcome_bind]. rewrite Hc1 in *. unfold fallback_chip in Hc2.
  rewrite decide_False in Hc2 by done. rewrite decide_False by tauto.
  destruct (IH (pw b2)) as (w' & -> & Hspi); [done|by rewrite Hc2|by rewrite Hc2|].
  exists w'. cbn [mbind outcome_bind]. split; [done|congruence].
Qed.

(** Clearing the rollback word leaves the rest of the record. *)
Lemma clear_rb s c :
  on_chip p c -> s = str_a \/ s = str_b ->
  let c' := (spiflash_program c (start_addr p + (off s + BC_SIZE + 4)) (le32_bytes 0)).2 in
  active_ver (flag p s c') = active_ver (flag p s c) /\ finish (flag p s c') = finish (flag p s c) /\
  rb_flag (flag p s c') = 0 /\ sec p (other_slot s) c' = sec p (other_slot s) c.
Proof.
  intros Hon Hs. rewrite <- Z.add_assoc. intros c'. pose proof (sec_len p Hsector Hlength s c Hon) as Hlen.
  destruct (sec_program s c (BC_SIZE + 4) (le32_bytes 0) Hon Hs) as [Hw Hk];
    [unfold BC_SIZE; lia|change (zlen (le32_bytes 0)) with 4; unfold BC_SIZE; lia|]. fold c' in Hw, Hk.
  destruct (split_at (sec p s c) (BC_SIZE + 4) 4) as (a & q & E & Ha & Hm); [unfold BC_SIZE; lia..|].
  set (m := ztake 4 (zdrop (BC_SIZE + 4) (sec p s c))) in *.
  assert (sec p s c' = a ++ [0; 0; 0; 0] ++ q) as E'.
  { rewrite Hw, E, <- Ha. change (le32_bytes 0) with [0; 0; 0; 0]. by apply program_zero. }
  rewrite !active_ver_sec, !finish_sec, rb_flag_sec, E', E by done. change (BC_SIZE + 4) with 132 in *.
  split_and!; [| | |done].
  - by rewrite !slice_front by lia.
  - rewrite !(slice_back a), Ha by lia. change (200 - 132) with 68.
    rewrite (slice_back m), (slice_back [0; 0; 0; 0]), Hm by (rewrite ?Hm; change (zlen [0; 0; 0; 0]) with 4; lia). done.
  - rewrite slice_back, Ha by lia. done.
Qed.

(** A slot with a good record wins against an erased one. *)
Lemma select_other_erased s c :
  s = str_a \/ s = str_b -> check_ab_valid (flag p s c) = true ->
  s = str_a \/ active_ver (flag p s c) < B_MAX_VER -> active_ver (flag p (other_slot s) c) = B_MAX_VER ->
  active_ver (flag p s c) <= B_MAX_VER -> selected p c = Some s.
Proof.
  intros Hs Hv Hlt Ho Hle. assert (check_ab_valid (flag p (other_slot s) c) = true) as Hvo.
  { unfold check_ab_valid. by rewrite (bool_decide_eq_true_2 _ Ho). }
  unfold selected, select_ab. by_slot Hs; rewrite Hv, Hvo.
  - by rewrite decide_True by lia.
  - rewrite decide_False by (destruct Hlt; [done|lia]). done.
Qed.

(** [otaab_finish(0)] ends the trial of the running slot [s]: the other slot's sector
    is erased, [s] keeps its record but for the rollback word, which no longer asks for
    falling back, and over any sequence of later starts, resets included, [s] stays
    selected, nothing falls back and the chip is not written again. *)
Theorem otaab_finish_commits s b rs :
  running s b -> s = str_a \/ active_ver (flag p s (spi (pw b))) < B_MAX_VER ->
  exists b', otaab_finish 0 b = Ret b' /\
    sec p (other_slot s) (spi (pw b')) = erased spi_sector /\
    active_ver (flag p s (spi (pw b'))) = active_ver (flag p s (spi (pw b))) /\
    rb_flag (flag p s (spi (pw b'))) <> B_ROLLBACK_EN_FLAG /\
    exists w', boots rs (pw b') = Ret (replicate (length rs) None, w') /\ spi w' = spi (pw b') /\
      selected p (spi w') = Some s.
Proof.
  intros [Hb Hs Hcur Hsel Hby] Hver. set (c := spi (pw b)) in *. unfold otaab_finish.
  pose proof (env_on_chip i p _ c (proj1 (proj2 (proj2 Hb)))) as Hon.
  rewrite current_known by (rewrite Hcur; by destruct Hs as [-> | ->]). cbn [mbind outcome_bind]. rewrite Hcur.
  destruct (sec_erase (other_slot s) c Hon (other_is_slot s)) as (Her & Hoth & Hk). rewrite other_other in Hk by done.
  destruct (clear_flags_spec i p Hsector Hlength (other_slot s) b Hb) as (b1 & -> & Hb1 & Hc1 & _).
  fold c in Her, Hoth, Hk, Hc1 |- *. set (c1 := (spiflash_erase c _ _).2) in *.
  cbn [mbind outcome_bind]. rewrite (decide_False (P := (spiflash_erase c _ _).1 < 0)) by lia.
  rewrite decide_False, decide_False by lia.
  destruct (set_rb_flag_spec i p Hsector Hlength disable_todo 0 s b1 Hb1) as (b2 & E2 & Hb2 & Hc2 & _).
  unfold bootab_set_fallback_disable. rewrite E2. cbn [mbind outcome_bind]. exists b2. split; [done|].
  rewrite Hc1 in Hc2. assert (flag p s c1 = flag p s c) as Hf1 by (by rewrite !flag_sec, Hk by done).
  assert (on_chip p c1) as Hon1 by (by eapply on_chip_any).
  pose proof (clear_rb s c1 Hon1 Hs) as (Hv & Hfin & Hr & Hk2). rewrite Hf1 in *.
  set (c2 := spi (pw b2)) in *.
  assert (sec p (other_slot s) c2 = erased spi_sector /\ active_ver (flag p s c2) = active_ver (flag p s c) /\
    finish (flag p s c2) = finish (flag p s c) /\ rb_flag (flag p s c2) <> B_ROLLBACK_EN_FLAG) as (Ho2 & Hv2 & Hf2 & Hr2).
  { rewrite Hc2. unfold disable_todo. case_bool_decide as Hd; [rewrite Hv, Hfin, Hr, Hk2|rewrite Hf1]; by split_and!. }
  assert (selected p c2 = Some s) as Hs2.
  { pose proof (active_ver_range _ Hby). unfold B_MAX_VER in *.
    apply select_other_erased; rewrite ?Hv2; unfold B_MAX_VER; [done| |done| |lia].
    - unfold check_ab_valid. rewrite Hv2, Hf2. exact (select_valid s c Hsel).
    - rewrite flag_sec, Ho2 by done. apply erased_ver. }
  split_and!; [done..|]. destruct (boots_settled s rs (pw b2)) as (w' & Ew & Hw); [by destruct Hb2 as (_ & _ & ? & _)|done..|].
  exists w'. split_and!; [done..|]. by rewrite Hw.
Qed.

End Healthy.

(** ** Concrete runs *)

(** The running system on the chip in memory. *)
Definition d_boot (s : list Z) (c : list Z) : boot (SF := mem_chip) :=
  Boot (replicate 76 255) (replicate 76 255) s true 512 (with_spi (SF := mem_chip) c d_world).

(** Slot b has version 2 and is on trial, slot a has version 3. *)
Definition d_trial : list Z :=
  erased 1536 ++ erased 128 ++ flag_bytes 3 0 (replicate 64 255) B_FINISH_FLAG ++ erased 308 ++
  erased 128 ++ flag_bytes 2 B_ROLLBACK_EN_FLAG (replicate 64 255) B_FINISH_FLAG ++ erased 1844.

Lemma d_env_at c : env_at (SR := mem_chip_reads) 1 d_envab (with_spi (SF := mem_chip) c d_world).
Proof.
  exists true. split.
  - split_and!; [done|done|done|]. intros j q Hj. destruct j as [|j]; [|lia]. by intros [= <-].
  - split_and!; [done|done|done|]. apply (on_chip_any (SR := mem_chip_reads) _ ([] : list Z)). by_decide.
Qed.

Lemma d_running s c :
  s = str_a \/ s = str_b -> selected (SR := mem_chip_reads) d_envab c = Some s ->
  bytes (flag (SR := mem_chip_reads) d_envab s c) -> running (SR := mem_chip_reads) 1 d_envab s (d_boot s c).
Proof. intros Hs Hsel Hby. split; [|done..]. split_and!; [done|done|apply d_env_at|done|done]. Qed.

Lemma bootab_trial_boots_witness :
  exists w', boots [BOOTREASON_SOFT; BOOTREASON_POWER; BOOTREASON_WDT; BOOTREASON_SOFT; BOOTREASON_SOFT]
      (with_spi (SF := mem_chip) d_trial d_world) = Ret ([None; None; None; None; None], w') /\
    selected (SR := mem_chip_reads) d_envab (spi w') = Some str_b /\
    forall r5 r6, 4%nat = 4%nat -> counted r5 = true ->
      exists w5 w6, boot_once r5 w' = Ret (None, w5) /\
        selected (SR := mem_chip_reads) d_envab (spi w5) = Some str_b /\
        boot_once r6 w5 = Ret (Some str_a, w6) /\ selected (SR := mem_chip_reads) d_envab (spi w6) = Some str_a.
Proof.
  apply (bootab_trial_boots (SN := mem_chip_nor) 1 d_envab ltac:(done) ltac:(done) ltac:(done) str_b
    (with_spi (SF := mem_chip) d_trial d_world)
    [BOOTREASON_SOFT; BOOTREASON_POWER; BOOTREASON_WDT; BOOTREASON_SOFT; BOOTREASON_SOFT]).
  - apply d_env_at.
  - by right.
  - split_and!; by vm_compute.
  - by vm_compute.
  - by_decide.
Defined.

Lemma otaab_finish_commits_witness :
  exists b', otaab_finish 0 (d_boot str_b d_trial) = Ret b' /\
    sec (SR := mem_chip_reads) d_envab str_a (spi (pw b')) = erased 512 /\
    active_ver (flag (SR := mem_chip_reads) d_envab str_b (spi (pw b'))) = 2 /\
    rb_flag (flag (SR := mem_chip_reads) d_envab str_b (spi (pw b'))) <> B_ROLLBACK_EN_FLAG /\
    exists w', boots [BOOTREASON_WDT; BOOTREASON_WDT] (pw b') = Ret ([None; None], w') /\ spi w' = spi (pw b') /\
      selected (SR := mem_chip_reads) d_envab (spi w') = Some str_b.
Proof.
  apply (otaab_finish_commits (SN := mem_chip_nor) 1 d_envab ltac:(done) ltac:(done) ltac:(done) str_b
    (d_boot str_b d_trial) [BOOTREASON_WDT; BOOTREASON_WDT]).
  - apply d_running; [by right|by vm_compute|by_decide].
  - right. by vm_compute.
Defined.
