(* ===== verification/BootabPower.v ===== *)
(** * A/B boot table: losing power during an upgrade

    A chip whose power may go away at any moment: an operation under way then leaves
    each bit of the cells it works on old or new, and later operations do nothing.  The
    slot to start is well defined wherever [otaab_upgrade_end] is cut off. *)

From S2P Require Import Prelude Nor Partition PartitionProofs Bootab BootabProofs BootabTheorems.

(** ** Cells after an interrupted operation *)

(** Each bit of [now] is the one of [old] or the one of [new]. *)
Definition torn1 (old new now : Z) : Prop := Z.land (Z.lxor now old) (Z.lxor now new) = 0.

(** [m] written over [l] from [o] on. *)
Definition patch (l : list Z) (o : Z) (m : list Z) : list Z := ztake o l ++ m ++ zdrop (o + zlen m) l.

(** A chip that reads correctly and may lose power. *)
Class SpiCut `{SR : SpiReads} := {
  powered : chip -> bool;
  cut_bytes : forall c, bytes (spi_cells c);
  cut_program : forall c off d, 0 <= off -> off + zlen d <= zlen (spi_cells c) ->
    let c' := (spiflash_program c off d).2 in
    let old := ztake (zlen d) (zdrop off (spi_cells c)) in
    exists m, spi_cells c' = patch (spi_cells c) off m /\ Forall3 torn1 old (zip_with Z.land old d) m /\
      (powered c = false -> spi_cells c' = spi_cells c /\ powered c' = false);
  cut_erase : forall c off n, 0 <= off -> off mod spi_sector = 0 -> 0 < n -> n mod spi_sector = 0 ->
    off + n <= zlen (spi_cells c) ->
    let c' := (spiflash_erase c off n).2 in
    exists m, spi_cells c' = patch (spi_cells c) off m /\
      Forall3 torn1 (ztake n (zdrop off (spi_cells c))) (erased n) m /\ (powered c' = true -> m = erased n)
}.

Lemma patch_outside l o m a n :
  0 <= o -> 0 <= a -> 0 <= n -> o + zlen m <= zlen l -> a + n <= o \/ o + zlen m <= a ->
  ztake n (zdrop a (patch l o m)) = ztake n (zdrop a l).
Proof.
  intros Ho Ha Hn Hl Hout. pose proof (zlen_nonneg m). unfold patch.
  assert (zlen (ztake o l) = o) as Ht by (rewrite zlen_ztake; lia). destruct Hout as [H1|H1].
  - rewrite slice_front by lia. pose proof (slice_slice l 0 o a n) as Hs. rewrite zdrop_0 in Hs. by rewrite Hs by lia.
  - rewrite slice_back, slice_back, Ht by lia. unfold ztake, zdrop. f_equal. rewrite drop_drop. f_equal. lia.
Qed.

Lemma patch_inside l o m a n :
  0 <= o -> 0 <= n -> o + zlen m <= zlen l -> o <= a -> a + n <= o + zlen m ->
  ztake n (zdrop a (patch l o m)) = ztake n (zdrop (a - o) m).
Proof.
  intros Ho Hn Hl Ha Hin. pose proof (zlen_nonneg m). unfold patch.
  assert (zlen (ztake o l) = o) as Ht by (rewrite zlen_ztake; lia).
  rewrite slice_back, slice_front, Ht by lia. done.
Qed.

(** Bits that are set in both are set after the interruption. *)
Lemma torn1_le x old new now :
  0 <= now -> Z.land x old = x -> Z.land x new = x -> torn1 old new now -> x <= now.
Proof.
  intros Hnow H1 H2 Ht. enough (Z.ldiff x now = 0) as Hd by (pose proof (Z.ldiff_le x now Hnow Hd); lia). apply Z.bits_inj'. intros k Hk. rewrite Z.bits_0, Z.ldiff_spec.
  destruct (Z.testbit x k) eqn:Ex; [|done].
  apply (f_equal (fun z => Z.testbit z k)) in H1, H2. rewrite Z.land_spec, Ex in H1, H2. cbn in H1, H2.
  apply (f_equal (fun z => Z.testbit z k)) in Ht. rewrite Z.land_spec, !Z.lxor_spec, H1, H2, Z.bits_0 in Ht.
  by destruct (Z.testbit now k).
Qed.

Lemma land_byte_255 x : is_byte x -> Z.land x 255 = x.
Proof. unfold is_byte. intros. rewrite land_255. apply Z.mod_small. lia. Qed.

(** An interrupted erase only raises the bytes; so does, compared with the data, an
    interrupted programming of erased cells. *)
Lemma torn_erase_le old n m :
  bytes old -> bytes m -> Forall3 torn1 old (replicate n 255) m -> Forall2 Z.le old m.
Proof.
  intros Ho Hm H. remember (replicate n 255) as e eqn:Ee. revert n Ee Ho Hm.
  induction H as [|x y z old e m H1 _ IH]; intros n Ee Ho Hm; [constructor|].
  destruct n as [|n]; [done|]. cbn in Ee. injection Ee as -> ->. inversion_clear Ho. inversion_clear Hm as [|? ? Hz ?].
  constructor; [|by apply (IH n)]. apply (torn1_le x x 255); [unfold is_byte in Hz; lia|apply Z.land_diag|by apply land_byte_255|done].
Qed.

Lemma torn_program_le d m :
  bytes d -> bytes m -> Forall3 torn1 (erased (zlen d)) (zip_with Z.land (erased (zlen d)) d) m -> Forall2 Z.le d m.
Proof.
  unfold erased, zlen. rewrite Nat2Z.id. intros Hd. revert m.
  induction Hd as [|x d Hx _ IH]; intros m Hm H; inversion H as [|? ? z ? ? m' H1 H2]; subst; [constructor|].
  inversion_clear Hm as [|? ? Hz ?]. constructor; [|by apply IH].
  rewrite Z.land_comm, land_byte_255 in H1 by done.
  apply (torn1_le x 255 x); [unfold is_byte in Hz; lia|by apply land_byte_255|apply Z.land_diag|done].
Qed.

Lemma le32_mono l k : Forall2 Z.le l k -> le32 l <= le32 k.
Proof.
  intros H. unfold le32.
  destruct H as [|a a' ? ? Ha [|b b' ? ? Hb [|c c' ? ? Hc [|d d' ? ? Hd [|? ? ? ? ? ?]]]]]; try done. lia.
Qed.

Lemma slice_mono a n l k : Forall2 Z.le l k -> Forall2 Z.le (ztake n (zdrop a l)) (ztake n (zdrop a k)).
Proof. intros. by apply Forall2_take, Forall2_drop. Qed.

Lemma active_ver_mono f g : Forall2 Z.le f g -> active_ver f <= active_ver g.
Proof. intros. unfold active_ver. by apply le32_mono, Forall2_take. Qed.

Lemma finish_mono f g : Forall2 Z.le f g -> finish f <= finish g.
Proof. intros. unfold finish. by apply le32_mono, slice_mono. Qed.

(** ** Which slot is started *)

(** A record that was not given up: it is erased, complete, or cut off while it was
    erased or written. *)
Definition sound (f : list Z) : Prop := active_ver f <> 0 /\ B_FINISH_FLAG <= finish f.

(** The new record ends with the finish flag. *)
Lemma valid_flag_finish f v : zlen f = FLAG_SIZE -> finish (valid_flag f v) = B_FINISH_FLAG.
Proof.
  unfold FLAG_SIZE. intros Hf. unfold valid_flag. rewrite finish_bytes; [done|].
  assert (zlen (img_version f) = 64) as Hi by (unfold img_version; rewrite zlen_ztake; rewrite ?zlen_zdrop; lia).
  destruct v as [v|]; [|done]. rewrite strlcpy_len; unfold B_IMGS_VERSION_LEN; lia.
Qed.

Section Power.
Context `{SC : SpiCut} (i : nat) (p : partition_info).
Context (Hsector : 204 <= spi_sector) (Hlength : 2 * spi_sector <= plength p).

Lemma check_valid_iff f :
  check_ab_valid f = true <-> active_ver f = B_MAX_VER \/ (finish f = B_FINISH_FLAG /\ active_ver f <> 0).
Proof.
  unfold check_ab_valid. rewrite orb_true_iff, !andb_true_iff, !bool_decide_eq_true.
  destruct (decide (active_ver f = B_MAX_VER)); tauto.
Qed.

(** Slot [s] comes before the other one, when both records are valid. *)
Definition before (s : list Z) (v vo : Z) : Prop := if decide (s = str_a) then v <= vo else v < vo.

Lemma not_before s v vo :
  s = str_a \/ s = str_b -> ~ before s v vo -> vo <= v /\ (vo = v -> s = str_b) /\ before (other_slot s) vo v.
Proof.
  unfold before. intros Hs Hn.
  by_slot Hs; rewrite ?(decide_True (P := str_a = str_a)), ?(decide_False (P := str_b = str_a)) in * by done;
    split_and!; done || lia.
Qed.

Lemma selected_iff s c :
  s = str_a \/ s = str_b ->
  selected p c = Some s <->
  check_ab_valid (flag p s c) = true /\
  (check_ab_valid (flag p (other_slot s) c) = true ->
   before s (active_ver (flag p s c)) (active_ver (flag p (other_slot s) c))).
Proof.
  unfold selected, select_ab, before. intros Hs.
  by_slot Hs; [rewrite (decide_True (P := str_a = str_a)) by done|rewrite (decide_False (P := str_b = str_a)) by done].
  all: destruct (check_ab_valid (flag p str_a c)), (check_ab_valid (flag p str_b c)); try destruct (decide (_ <= _)).
  all: split; [intros E; first [discriminate E|split; [done|intros; first [done|lia]]]|intros [? H]; first [done|specialize (H eq_refl); lia]].
Qed.

Lemma flag_is_bytes s c : bytes (flag p s c).
Proof. unfold flag, env, region. pose proof (cut_bytes c). auto with fw. Qed.

(** A record of the other slot that is not below one that does not win, does not win. *)
Lemma select_above s c c' :
  s = str_a \/ s = str_b -> selected p c = Some s -> s = str_a \/ active_ver (flag p s c) < B_MAX_VER ->
  flag p s c' = flag p s c -> sound (flag p (other_slot s) c) ->
  Forall2 Z.le (flag p (other_slot s) c) (flag p (other_slot s) c') ->
  selected p c' = Some s /\ sound (flag p (other_slot s) c').
Proof.
  intros Hs Hsel Hver Hf [Hnz Hfin] Hle.
  pose proof (active_ver_mono _ _ Hle) as Hv. pose proof (finish_mono _ _ Hle) as Hf'.
  pose proof (active_ver_range _ (flag_is_bytes s c)). pose proof (active_ver_range _ (flag_is_bytes (other_slot s) c)).
  pose proof (active_ver_range _ (flag_is_bytes (other_slot s) c')).
  apply selected_iff in Hsel as [Hval Hbef]; [|done]. split; [|split; lia].
  apply selected_iff; [done|]. rewrite Hf. split; [done|]. rewrite check_valid_iff in Hbef |- *.
  unfold before, B_MAX_VER in *. destruct (decide (s = str_a)) as [->|Hne]; intros [Hm|[Hfn _]]; try lia.
  destruct Hver; [done|lia].
Qed.

(** Slices of the partition, in the cells of the chip. *)
Lemma env_slice a n c :
  on_chip p c -> 0 <= a -> 0 <= n -> a + n <= plength p ->
  ztake n (zdrop a (env p c)) = ztake n (zdrop (start_addr p + a) (spi_cells c)).
Proof. intros [] ? ? ?. unfold env, region. by rewrite slice_slice by lia. Qed.

Lemma env_patch c c' o m a n :
  on_chip p c -> spi_cells c' = patch (spi_cells c) (start_addr p + o) m ->
  0 <= o -> o + zlen m <= plength p -> 0 <= a -> 0 <= n -> a + n <= plength p -> a + n <= o \/ o + zlen m <= a ->
  ztake n (zdrop a (env p c')) = ztake n (zdrop a (env p c)).
Proof.
  intros Hon E Ho Hm Ha Hn Hl Hout. rewrite !env_slice by (done || by eapply on_chip_any). rewrite E.
  destruct Hon. apply patch_outside; lia.
Qed.

Lemma off_other s : s = str_a \/ s = str_b ->
  (off s = 0 /\ off (other_slot s) = spi_sector) \/ (off s = spi_sector /\ off (other_slot s) = 0).
Proof. intros [-> | ->]; [by left|by right]. Qed.

(** A change inside the sector of the other slot. *)
Lemma other_patch s c c' o m :
  on_chip p c -> s = str_a \/ s = str_b -> spi_cells c' = patch (spi_cells c) (start_addr p + (off (other_slot s) + o)) m ->
  0 <= o -> o + zlen m <= spi_sector -> sec p s c' = sec p s c /\ flag p s c' = flag p s c.
Proof.
  intros Hon Hs E Ho Hm. pose proof (zlen_nonneg m).
  assert (sec p s c' = sec p s c) as Es.
  { unfold sec. eapply env_patch; [done|exact E|..]; pose proof (off_other s Hs); lia. }
  split; [done|]. by rewrite !flag_sec, Es.
Qed.

Lemma Forall3_len {A B C} (R : A -> B -> C -> Prop) l k m : Forall3 R l k m -> zlen l = zlen m.
Proof. intros H. unfold zlen. f_equal. by eapply Forall3_length_lr. Qed.

(** Erasing the other slot's sector. *)
Lemma erase_other s c :
  on_chip p c -> s = str_a \/ s = str_b ->
  let c' := upgrade_erased p s c in
  sec p s c' = sec p s c /\ flag p s c' = flag p s c /\
  Forall2 Z.le (flag p (other_slot s) c) (flag p (other_slot s) c') /\
  (powered c' = true -> flag p (other_slot s) c' = erased FLAG_SIZE).
Proof.
  intros Hon Hs c'. pose proof Hon as [_ _ Hst Hsm Hlen _ Hend]. pose proof spi_sector_pos.
  pose proof (off_other s Hs) as Hoff. pose proof (off_cases (other_slot s)) as Hcase. 
  assert (off (other_slot s) mod spi_sector = 0) as Hom by (destruct Hcase as [-> | ->]; [done|by apply Z.mod_same; lia]).
  destruct (cut_erase c (start_addr p + off (other_slot s)) spi_sector) as (m & E & Ht & Hp);
    [lia|by rewrite Z.add_mod, Hsm, Hom by lia|lia|by apply Z.mod_same; lia|lia|].
  fold (upgrade_erased p s c) in *. fold c' in E, Hp.
  assert (zlen m = spi_sector) as Hm.
  { rewrite <- (Forall3_len _ _ _ _ Ht), zlen_ztake; [done|]. rewrite zlen_zdrop by lia. lia. }
  destruct (other_patch s c c' 0 m) as [Es Ef]; [done|done|by rewrite Z.add_0_r|lia|lia|]. split; [done|]. split; [done|].
  assert (sec p (other_slot s) c' = m) as Eo.
  { unfold sec. rewrite env_slice by (lia || by eapply on_chip_any). rewrite E, patch_inside by lia.
    rewrite Z.sub_diag, zdrop_0, ztake_all by lia. done. }
  assert (bytes m) as Hbm by (rewrite <- Eo; unfold sec, env, region; pose proof (cut_bytes c'); auto with fw).
  rewrite !flag_sec, Eo by done. split.
  - apply slice_mono. unfold sec. rewrite env_slice by (lia || done). eapply torn_erase_le; [|done|exact Ht].
    pose proof (cut_bytes c). auto with fw.
  - intros Hpow. rewrite (Hp Hpow). unfold erased, ztake, zdrop. rewrite drop_replicate, take_replicate.
    f_equal. unfold FLAG_SIZE, BC_SIZE. lia.
Qed.

(** Programming a stretch of the other slot's sector: its old contents, what is there
    now, and nothing when the power is gone. *)
Lemma program_other s c o d :
  on_chip p c -> s = str_a \/ s = str_b -> 0 <= o -> o + zlen d <= spi_sector ->
  let c' := (spiflash_program c (start_addr p + (off (other_slot s) + o)) d).2 in
  let old := ztake (zlen d) (zdrop (off (other_slot s) + o) (env p c)) in
  let now := ztake (zlen d) (zdrop (off (other_slot s) + o) (env p c')) in
  sec p s c' = sec p s c /\ flag p s c' = flag p s c /\ Forall3 torn1 old (zip_with Z.land old d) now /\
  (powered c = false -> spi_cells c' = spi_cells c /\ powered c' = false).
Proof.
  intros Hon Hs Ho Hd c' old now. pose proof Hon as [_ _ Hst _ _ _ Hend]. pose proof (zlen_nonneg d).
  pose proof (off_cases (other_slot s)) as Hcase.
  destruct (cut_program c (start_addr p + (off (other_slot s) + o)) d) as (m & E & Ht & Hp); [lia|lia|].
  fold c' in E, Hp.
  assert (zlen m = zlen d) as Hm.
  { rewrite <- (Forall3_len _ _ _ _ Ht), zlen_ztake; [done|]. rewrite zlen_zdrop by lia. lia. }
  destruct (other_patch s c c' o m) as [Es Ef]; [done|done|done|lia|lia|]. split_and!; [done|done| |done].
  assert (now = m) as ->.
  { unfold now. rewrite env_slice by (lia || by eapply on_chip_any). rewrite E, patch_inside by lia.
    rewrite Z.sub_diag, zdrop_0, ztake_all by lia. done. }
  unfold old. by rewrite env_slice by (lia || done).
Qed.

(** Without power nothing changes. *)
Lemma flag_same s c c' : spi_cells c' = spi_cells c -> flag p s c' = flag p s c /\ sec p s c' = sec p s c.
Proof. intros E. unfold flag, sec, env, region. by rewrite E. Qed.

(** After a complete erase the record is programmed, more or less of it. *)
Lemma written_above s v c :
  on_chip p c -> s = str_a \/ s = str_b -> (forall t, v = Some t -> bytes t) ->
  flag p (other_slot s) c = erased FLAG_SIZE ->
  let c' := upgrade_written p s v c in
  sec p s c' = sec p s c /\ flag p s c' = flag p s c /\
  Forall2 Z.le (valid_flag (flag p s c) v) (flag p (other_slot s) c').
Proof.
  intros Hon Hs Hv He c'. set (new := valid_flag (flag p s c) v).
  assert (zlen new = FLAG_SIZE) as Hl by (apply valid_flag_len, flag_len; done).
  destruct (program_other s c BC_SIZE new Hon Hs) as (Es & Ef & Ht & _);
    [unfold BC_SIZE; lia|rewrite Hl; unfold BC_SIZE, FLAG_SIZE; lia|].
  change (spiflash_program c (start_addr p + (off (other_slot s) + BC_SIZE)) new).2 with c' in Es, Ef, Ht.
  split_and!; [done|done|].
  rewrite Hl in Ht. fold (flag p (other_slot s) c) (flag p (other_slot s) c') in Ht. rewrite He, <- Hl in Ht.
  apply torn_program_le; [apply bytes_valid_flag; [apply flag_is_bytes|done]|apply flag_is_bytes|exact Ht].
Qed.

(** A record not below the one to be written wins only when it is complete, or, against
    slot b, when its version is that of b. *)
Lemma select_written s c v :
  s = str_a \/ s = str_b -> check_ab_valid (flag p s c) = true -> s = str_a \/ active_ver (flag p s c) < B_MAX_VER ->
  2 <= active_ver (flag p s c) -> Forall2 Z.le (valid_flag (flag p s c) v) (flag p (other_slot s) c) ->
  zlen (flag p s c) = FLAG_SIZE ->
  sound (flag p (other_slot s) c) /\
  (selected p c = Some s \/
   selected p c = Some (other_slot s) /\ finish (flag p (other_slot s) c) = B_FINISH_FLAG /\
   (active_ver (flag p (other_slot s) c) = active_ver (flag p s c) - 1 \/
    s = str_b /\ active_ver (flag p (other_slot s) c) = active_ver (flag p s c))).
Proof.
  intros Hs Hval Hver H2 Hle Hlen. pose proof (active_ver_range _ (flag_is_bytes s c)) as Hr.
  pose proof (active_ver_mono _ _ Hle) as Hv. pose proof (finish_mono _ _ Hle) as Hf.
  rewrite (valid_flag_finish (flag p s c) v Hlen) in Hf. unfold valid_flag in Hv.
  rewrite active_ver_bytes, (u32_id (active_ver _ - 1)), u32_id in Hv by lia.
  split; [split; [lia|done]|].
  destruct (decide (selected p c = Some s)) as [|Hno]; [by left|right].
  rewrite selected_iff in Hno by done.
  assert (check_ab_valid (flag p (other_slot s) c) = true) as Hvo.
  { destruct (check_ab_valid (flag p (other_slot s) c)); [done|]. destruct Hno. by split. }
  assert (~ before s (active_ver (flag p s c)) (active_ver (flag p (other_slot s) c))) as Hbef by tauto.
  rewrite (selected_iff (other_slot s)) by apply other_is_slot. rewrite other_other by done.
  apply not_before in Hbef as (Hle' & Heq & Hflip); [|done]. split; [by split|].
  apply check_valid_iff in Hvo as [Hm|[Hfn _]]; [|split; [done|]].
  - unfold B_MAX_VER in *. destruct Hver as [->|]; [|lia]. by specialize (Heq ltac:(lia)).
  - destruct (decide (active_ver (flag p (other_slot s) c) = active_ver (flag p s c))); [right; tauto|left; lia].
Qed.

(** [otaab_upgrade_end] when the erase reports an error. *)
Lemma upgrade_end_failed s v b :
  env_ok i p b -> cur_slot b = s -> s = str_a \/ s = str_b ->
  (spiflash_erase (spi (pw b)) (start_addr p + off (other_slot s)) spi_sector).1 < 0 ->
  exists b', otaab_upgrade_end v b = Ret (-1, b') /\ spi (pw b') = upgrade_erased p s (spi (pw b)).
Proof.
  intros Hb Hcur Hs Her. unfold otaab_upgrade_end.
  rewrite current_known by (rewrite Hcur; by destruct Hs as [-> | ->]). cbn [mbind outcome_bind]. rewrite Hcur.
  destruct (clear_flags_spec i p Hsector Hlength (other_slot s) b Hb) as (b1 & -> & _ & Hc1 & _).
  cbn [mbind outcome_bind]. rewrite (decide_True (P := (spiflash_erase _ _ _).1 < 0)) by done.
  rewrite decide_True by lia. by exists b1.
Qed.

(** The flash after [otaab_upgrade_end], for every way the power goes away. *)
Lemma upgrade_chip s v b :
  env_ok i p b -> cur_slot b = s -> s = str_a \/ s = str_b -> (forall t, v = Some t -> bytes t) ->
  let c := spi (pw b) in
  exists r b', otaab_upgrade_end v b = Ret (r, b') /\
    sec p s (spi (pw b')) = sec p s c /\ flag p s (spi (pw b')) = flag p s c /\
    (Forall2 Z.le (flag p (other_slot s) c) (flag p (other_slot s) (spi (pw b'))) \/
     Forall2 Z.le (valid_flag (flag p s c) v) (flag p (other_slot s) (spi (pw b')))).
Proof.
  intros Hb Hcur Hs Hv c. pose proof Hb as (_ & _ & Henv & _). pose proof (env_on_chip i p _ c Henv) as Hon.
  destruct (erase_other s c Hon Hs) as (Es & Ef & Hle & Hp). set (ce := upgrade_erased p s c) in *.
  destruct (decide ((spiflash_erase c (start_addr p + off (other_slot s)) spi_sector).1 < 0)) as [Hr|Hr].
  { destruct (upgrade_end_failed s v b Hb Hcur Hs Hr) as (b' & E & Hc'). exists (-1), b'. rewrite Hc'.
    split_and!; [done..|by left]. }
  destruct (upgrade_end_spec i p Hsector Hlength s v b Hb Hcur Hs ltac:(fold c; lia)) as (b' & E & _ & Hc' & _).
  fold c in E, Hc'. fold ce in E, Hc'. eexists _, b'. split; [exact E|]. rewrite Hc'. clear E Hc'.
  assert (on_chip p ce) as Hone by (by eapply on_chip_any).
  destruct (powered ce) eqn:Hpow.
  - assert (upgrade_enabled p s ce = ce) as ->.
    { unfold upgrade_enabled, enable_todo. rewrite (Hp eq_refl).
      by rewrite (bool_decide_eq_false_2 (active_ver _ <> _)), andb_false_r by (vm_compute; tauto). }
    destruct (written_above s v ce Hone Hs Hv (Hp eq_refl)) as (Es2 & Ef2 & Hle2).
    rewrite Ef in Hle2. split_and!; [congruence..|by right].
  - assert (spi_cells (upgrade_enabled p s ce) = spi_cells ce /\ powered (upgrade_enabled p s ce) = false) as [Ec1 Hp1].
    { unfold upgrade_enabled. destruct (enable_todo _); [|done]. rewrite <- Z.add_assoc.
      destruct (program_other s ce (BC_SIZE + 4) (le32_bytes B_ROLLBACK_EN_FLAG) Hone Hs) as (_ & _ & _ & H);
        [unfold BC_SIZE; lia|change (zlen (le32_bytes _)) with 4; unfold BC_SIZE; lia|by apply H]. }
    set (c1 := upgrade_enabled p s ce) in *. assert (on_chip p c1) as Hon1 by (by eapply on_chip_any).
    assert (zlen (valid_flag (flag p s c1) v) = FLAG_SIZE) as Hl by (apply valid_flag_len, flag_len; done).
    destruct (program_other s c1 BC_SIZE (valid_flag (flag p s c1) v) Hon1 Hs) as (_ & _ & _ & H);
      [unfold BC_SIZE; lia|rewrite Hl; unfold BC_SIZE, FLAG_SIZE; lia|].
    destruct (H Hp1) as [Ec2 _]. fold (upgrade_written p s v c1) in Ec2. rewrite Ec1 in Ec2.
    destruct (flag_same s _ _ Ec2) as [-> ->]. destruct (flag_same (other_slot s) _ _ Ec2) as [-> _].
    split_and!; [done..|by left].
Qed.

(** C7. Losing power during [otaab_upgrade_end], or an erase that fails, never leaves the
    system without a slot to start.  Wherever the erase and the two programming steps
    are cut off, with every bit under way old or new, the running slot's sector is
    untouched and the records select the running slot [s] still, or the other slot with
    its finish word in place and the new version number (against slot b also b's own
    number); and the other slot's record is again fit for another attempt. *)
Theorem bootab_upgrade_power_safe s v b :
  running i p s b -> 2 <= active_ver (flag p s (spi (pw b))) ->
  s = str_a \/ active_ver (flag p s (spi (pw b))) < B_MAX_VER ->
  sound (flag p (other_slot s) (spi (pw b))) -> (forall t, v = Some t -> bytes t) ->
  exists r b', otaab_upgrade_end v b = Ret (r, b') /\
    sec p s (spi (pw b')) = sec p s (spi (pw b)) /\ sound (flag p (other_slot s) (spi (pw b'))) /\
    (selected p (spi (pw b')) = Some s \/
     selected p (spi (pw b')) = Some (other_slot s) /\
     finish (flag p (other_slot s) (spi (pw b'))) = B_FINISH_FLAG /\
     (active_ver (flag p (other_slot s) (spi (pw b'))) = active_ver (flag p s (spi (pw b))) - 1 \/
      s = str_b /\ active_ver (flag p (other_slot s) (spi (pw b'))) = active_ver (flag p s (spi (pw b))))).
Proof.
  intros [Hb Hs Hcur Hsel _] H2 Hver Hsound Hv.
  destruct (upgrade_chip s v b Hb Hcur Hs Hv) as (r & b' & E & Es & Ef & Hle). exists r, b'.
  split; [done|]. split; [done|]. destruct Hle as [Hle|Hle].
  - destruct (select_above s _ _ Hs Hsel Hver Ef Hsound Hle) as [H H']. split; [done|by left].
  - rewrite <- Ef in *. apply (select_written s _ v); [done| |done|done|done|].
    + rewrite Ef. by apply select_valid.
    + apply flag_len; [done..|]. pose proof Hb as (_ & _ & Henv & _). by eapply env_on_chip.
Qed.

End Power.

(** ** A chip in memory that works on [left] more bytes, for evaluation *)

Definition cut_cells (c : list Z * nat) : list Z := u8 <$> resize 4096 255 c.1.

(** The first [k] cells are done. *)
Definition done_first (k : nat) (old new : list Z) : list Z := take k new ++ drop k old.

Definition erase_some (c : list Z * nat) (off n : Z) : list Z * nat :=
  (patch (cut_cells c) off (done_first c.2 (ztake n (zdrop off (cut_cells c))) (erased n)), (c.2 - Z.to_nat n)%nat).

Definition program_some (c : list Z * nat) (off : Z) (d : list Z) : list Z * nat :=
  let old := ztake (zlen d) (zdrop off (cut_cells c)) in
  (patch (cut_cells c) off (done_first c.2 old (zip_with Z.land old d)), (c.2 - length d)%nat).

#[export] Instance cut_chip : SpiFlash := {|
  chip := list Z * nat;
  spiflash_get_flash_info c := Some (SpiInfo 4096 0 512);
  spiflash_erase c off n := (0, erase_some c off n);
  spiflash_program c off d := (zlen d, program_some c off d);
  spiflash_read c off n := (n, ztake n (zdrop off (cut_cells c)))
|}.

Lemma cut_cells_len c : zlen (cut_cells c) = 4096.
Proof. unfold zlen, cut_cells. by rewrite length_fmap, length_resize. Qed.

Lemma cut_cells_bytes c : bytes (cut_cells c).
Proof. unfold bytes, cut_cells. apply Forall_fmap, list.Forall_true. intros x. apply u8_byte. Qed.

Lemma cut_cells_id l n : zlen l = 4096 -> bytes l -> cut_cells (l, n) = l.
Proof.
  intros Hl Hb. unfold cut_cells. cbn [fst]. rewrite resize_all_alt by (unfold zlen in Hl; lia).
  clear Hl. induction Hb as [|x l Hx _ IH]; [done|]. cbn. f_equal; [|done]. apply Z.mod_small. unfold is_byte in Hx. lia.
Qed.

Lemma torn1_old x y : torn1 x y x.
Proof. unfold torn1. by rewrite Z.lxor_nilpotent. Qed.

Lemma torn1_new x y : torn1 x y y.
Proof. unfold torn1. by rewrite (Z.lxor_nilpotent y), Z.land_0_r. Qed.

Lemma done_first_torn k old new : length old = length new -> Forall3 torn1 old new (done_first k old new).
Proof.
  intros Hl. unfold done_first.
  revert k new Hl. induction old as [|x old IH]; intros k [|y new] Hl; try done.
  - rewrite take_nil, drop_nil. constructor.
  - destruct k as [|k]; cbn.
    + constructor; [apply torn1_old|]. specialize (IH O new). by apply IH; injection Hl.
    + constructor; [apply torn1_new|]. apply IH. by injection Hl.
Qed.

Lemma done_first_len k old new : length old = length new -> zlen (done_first k old new) = zlen old.
Proof. intros Hl. unfold zlen, done_first. rewrite length_app, length_take, length_drop. lia. Qed.

Lemma done_first_bytes k old new : bytes old -> bytes new -> bytes (done_first k old new).
Proof. intros. apply bytes_app. split; [by apply Forall_take|by apply Forall_drop]. Qed.

Lemma done_first_all k old new : length old = length new -> (length old <= k)%nat -> done_first k old new = new.
Proof. intros. unfold done_first. rewrite take_ge, drop_ge, app_nil_r by lia. done. Qed.

Lemma bytes_land l d : bytes l -> bytes (zip_with Z.land l d).
Proof.
  intros H. revert d. induction H as [|x l Hx _ IH]; intros [|y d]; try constructor; [|apply IH].
  unfold is_byte in *. assert (Z.ldiff (Z.land x y) x = 0) as E.
  { apply Z.bits_inj'. intros k _. rewrite Z.ldiff_spec, Z.land_spec, Z.bits_0. by destruct (Z.testbit x k), (Z.testbit y k). }
  apply Z.ldiff_le in E; lia.
Qed.

Lemma patch_cells c off m n :
  0 <= off -> off + zlen m <= 4096 -> bytes m ->
  cut_cells (patch (cut_cells c) off m, n) = patch (cut_cells c) off m.
Proof.
  intros Ho Hm Hb. pose proof (cut_cells_len c) as Hl. pose proof (cut_cells_bytes c). pose proof (zlen_nonneg m).
  apply cut_cells_id; unfold patch.
  - rewrite !zlen_app, zlen_ztake, zlen_zdrop by lia. lia.
  - rewrite !bytes_app. split_and!; auto with fw.
Qed.

#[export] Instance cut_chip_reads : SpiReads (SF := cut_chip).
Proof.
  refine (@Build_SpiReads cut_chip cut_cells 0 512 _ _ 4096 _ _ _ _); [done|done|apply cut_cells_len|done|done|done].
Defined.

Lemma patch_self l off n : 0 <= off -> 0 <= n -> off + n <= zlen l -> patch l off (ztake n (zdrop off l)) = l.
Proof.
  intros. unfold patch. rewrite zlen_ztake by (rewrite ?zlen_zdrop; lia).
  replace (zdrop (off + n) l) with (zdrop n (zdrop off l)) by (unfold zdrop; rewrite drop_drop; f_equal; lia).
  by rewrite !ztake_zdrop.
Qed.

Definition has_power (c : list Z * nat) : bool := bool_decide (c.2 <> O).

Lemma program_some_torn c off d :
  0 <= off -> off + zlen d <= zlen (cut_cells c) ->
  let c' := program_some c off d in
  let old := ztake (zlen d) (zdrop off (cut_cells c)) in
  exists m, cut_cells c' = patch (cut_cells c) off m /\ Forall3 torn1 old (zip_with Z.land old d) m /\
    (has_power c = false -> cut_cells c' = cut_cells c /\ has_power c' = false).
Proof.
  intros Ho Hd c' old. pose proof (zlen_nonneg d). pose proof (cut_cells_len c) as Hc. rewrite Hc in Hd.
  pose proof (cut_cells_bytes c).
  assert (zlen old = zlen d) as Hold by (unfold old; rewrite zlen_ztake; rewrite ?zlen_zdrop; lia).
  assert (length old = length (zip_with Z.land old d)) as Hl by (rewrite length_zip_with; unfold zlen in Hold; lia).
  assert (bytes old) as Hbo by (unfold old; auto with fw).
  set (m := done_first c.2 old (zip_with Z.land old d)). exists m.
  assert (cut_cells c' = patch (cut_cells c) off m) as E.
  { unfold c', program_some. fold old. apply patch_cells; [done|unfold m; rewrite done_first_len by done; lia|].
    apply done_first_bytes; [done|by apply bytes_land]. }
  split_and!; [exact E|by apply done_first_torn|]. unfold has_power. intros Hp. apply bool_decide_eq_false in Hp.
  assert (c.2 = O) as Hz by lia. split; [|cbn; by rewrite Hz].
  rewrite E. unfold m. rewrite Hz. unfold done_first, old. cbn [take app drop]. apply patch_self; lia.
Qed.

Lemma erase_some_torn c off n :
  0 <= off -> 0 < n -> off + n <= zlen (cut_cells c) ->
  let c' := erase_some c off n in
  exists m, cut_cells c' = patch (cut_cells c) off m /\
    Forall3 torn1 (ztake n (zdrop off (cut_cells c))) (erased n) m /\ (has_power c' = true -> m = erased n).
Proof.
  intros Ho Hn Hfit c'. pose proof (cut_cells_len c) as Hc. rewrite Hc in Hfit. pose proof (cut_cells_bytes c).
  set (old := ztake n (zdrop off (cut_cells c))).
  assert (zlen old = n) as Hold by (unfold old; rewrite zlen_ztake; rewrite ?zlen_zdrop; lia).
  assert (length old = length (erased n)) as Hl by (unfold erased; rewrite length_replicate; unfold zlen in Hold; lia).
  exists (done_first c.2 old (erased n)). split_and!.
  - unfold c', erase_some. fold old. apply patch_cells; [done|rewrite done_first_len by done; lia|].
    apply done_first_bytes; [unfold old|]; auto with fw.
  - by apply done_first_torn.
  - unfold has_power. intros Hp. apply bool_decide_eq_true in Hp. cbn in Hp. apply done_first_all; [done|].
    unfold zlen in Hold. lia.
Qed.

#[export] Instance cut_chip_cut : SpiCut (SR := cut_chip_reads).
Proof.
  refine (@Build_SpiCut cut_chip cut_chip_reads has_power cut_cells_bytes program_some_torn _).
  intros c off n Ho _ Hn _. exact (erase_some_torn c off n Ho Hn).
Defined.

(** The running system on this chip, with power for [left] more bytes. *)
Definition c_boot (s : list Z) (cells : list Z) (left : nat) : boot (SF := cut_chip) :=
  Boot (replicate 76 255) (replicate 76 255) s true 512
    (PWorld [d_kv; d_envab] 2 true (Some (Some HAL_ALL_FLASH_0)) (cells, left)).

Lemma c_env_ok s cells left : env_ok (SR := cut_chip_reads) 1 d_envab (c_boot s cells left).
Proof.
  split_and!; [done|done| |done|done]. exists true. split.
  - split_and!; [done|done|done|]. intros j q Hj. destruct j as [|j]; [|lia]. by intros [= <-].
  - split_and!; [done|done|done|]. apply (on_chip_any (SR := cut_chip_reads) _ (([], O) : list Z * nat)). by_decide.
Qed.

(** The power goes away after 28 bytes of the record. *)
Lemma bootab_upgrade_power_safe_witness :
  exists r b', otaab_upgrade_end None (c_boot str_a [] 540) = Ret (r, b') /\
    sec (SR := cut_chip_reads) d_envab str_a (spi (pw b'))
      = sec (SR := cut_chip_reads) d_envab str_a (spi (pw (c_boot str_a [] 540))) /\
    sound (flag (SR := cut_chip_reads) d_envab str_b (spi (pw b'))) /\
    (selected (SR := cut_chip_reads) d_envab (spi (pw b')) = Some str_a \/
     selected (SR := cut_chip_reads) d_envab (spi (pw b')) = Some str_b /\
     finish (flag (SR := cut_chip_reads) d_envab str_b (spi (pw b'))) = B_FINISH_FLAG /\
     (active_ver (flag (SR := cut_chip_reads) d_envab str_b (spi (pw b'))) = B_MAX_VER - 1 \/
      str_a = str_b /\ active_ver (flag (SR := cut_chip_reads) d_envab str_b (spi (pw b'))) = B_MAX_VER)).
Proof.
  apply (bootab_upgrade_power_safe (SC := cut_chip_cut) 1 d_envab ltac:(done) ltac:(done) str_a None
    (c_boot str_a [] 540)).
  - split; [apply c_env_ok|by left|done|by vm_compute|by_decide].
  - by_decide.
  - by left.
  - split; by_decide.
  - done.
Defined.

(** Slot b runs with the version of a first upgrade, slot a has been given up. *)
Definition d_given_up : list Z :=
  erased 1536 ++ erased 128 ++ flag_bytes 0 B_ROLLBACK_EN_FLAG (replicate 64 255) B_FINISH_FLAG ++ erased 308 ++
  erased 128 ++ flag_bytes 4294967294 0 (replicate 64 255) B_FINISH_FLAG ++ erased 1844.

Definition selected_after (cells : list Z) (left : nat) : option (option (list Z)) :=
  match otaab_upgrade_end None (c_boot str_b cells left) with
  | Ret (_, b) => Some (selected (SR := cut_chip_reads) d_envab (spi (pw b)))
  | _ => None
  end.

(** [sound] is needed: when the erase of a slot that was given up is cut off just after
    the first byte of its version number, that slot is started again, although the
    record of the upgrade has not been written. *)
Lemma power_cut_revives :
  selected (SR := cut_chip_reads) d_envab (d_given_up, O) = Some str_b /\
  selected_after d_given_up 129 = Some (Some str_a) /\ selected_after d_given_up 512 = Some (Some str_b).
Proof. by vm_compute. Qed.
