(* ===== verification/BootabSlice.v ===== *)
(** * Writing an image in slices

    [bootab_upgrade_partition_slice] erases, writes and reads back one slice.  On every
    chip that reads correctly a success means that the data is there; on a healthy chip
    consecutive slices of any sizes put the image together. *)

From S2P Require Import Prelude Nor Partition PartitionProofs Bootab BootabProofs BootabTheorems.

Lemma slice_add {A} (l : list A) a m n :
  0 <= a -> 0 <= m -> 0 <= n -> ztake (m + n) (zdrop a l) = ztake m (zdrop a l) ++ ztake n (zdrop (a + m) l).
Proof.
  intros. unfold ztake, zdrop. rewrite (Z2Nat.inj_add m), (Z2Nat.inj_add a) by lia.
  by rewrite <- drop_drop, take_take_drop.
Qed.

Lemma slice_len {A} (l : list A) a n : 0 <= a -> 0 <= n -> a + n <= zlen l -> zlen (ztake n (zdrop a l)) = n.
Proof. intros. rewrite zlen_ztake; [done|]. rewrite zlen_zdrop; lia. Qed.

(** ** Reading back *)

Section Verified.
Context `{SR : SpiReads}.

(** Two stretches are equal when their halves are. *)
Lemma same_split (a1 a2 b1 b2 : list Z) :
  zlen a1 = zlen b1 -> a1 ++ a2 = b1 ++ b2 <-> a1 = b1 /\ a2 = b2.
Proof.
  intros Hl. split; [|by intros [-> ->]]. intros E. apply app_inj_1 in E; [done|]. unfold zlen in Hl. lia.
Qed.

Lemma rd_check_loop_spec h q w off buf n i :
  opened h q w -> 0 <= off -> 0 <= i -> (i + Z.of_nat n) * AB_WRITE_CHECK_BUF_SIZE <= zlen buf ->
  off + (i + Z.of_nat n) * AB_WRITE_CHECK_BUF_SIZE <= plength q -> plength q < 2 ^ 31 ->
  rd_check_loop n i h off buf w
  = Ret (if decide (ztake (Z.of_nat n * AB_WRITE_CHECK_BUF_SIZE) (zdrop (off + i * AB_WRITE_CHECK_BUF_SIZE) (region q (spi w)))
                    = ztake (Z.of_nat n * AB_WRITE_CHECK_BUF_SIZE) (zdrop (i * AB_WRITE_CHECK_BUF_SIZE) buf))
         then 0 else -1).
Proof.
  intros Ho Hoff. pose proof Ho as (_ & _ & Hon). pose proof (region_len q (spi w) Hon) as Hlen.
  unfold AB_WRITE_CHECK_BUF_SIZE. revert i. induction n as [|n IH]; intros i Hi Hb Hq Hs; [done|].
  cbn [rd_check_loop]. unfold AB_WRITE_CHECK_BUF_SIZE. rewrite i32_id, (partition_read_spec h q) by (done || lia).
  rewrite (decide_False (P := 8192 = 0)), decide_True by lia. cbn [mbind outcome_bind].
  rewrite (decide_False (P := 0 < 0)) by lia.
  rewrite filled_len by (apply slice_len; lia). cbn [mbind outcome_bind].
  rewrite mem_read_ok by lia. cbn [mbind outcome_bind]. unfold check_mem_is_same.
  replace (Z.of_nat (S n) * 8192) with (8192 + Z.of_nat n * 8192) by lia. rewrite !slice_add by lia.
  case_bool_decide as Hsame.
  - rewrite IH by lia.
    replace (off + (i + 1) * 8192) with (off + i * 8192 + 8192) by lia.
    replace ((i + 1) * 8192) with (i * 8192 + 8192) by lia. f_equal. apply decide_ext.
    rewrite same_split by (by rewrite !slice_len by lia). tauto.
  - rewrite decide_False; [done|]. rewrite same_split by (by rewrite !slice_len by lia). tauto.
Qed.

Lemma rd_check_spec h q w off buf size :
  opened h q w -> 0 <= off -> 0 <= size <= zlen buf -> off + size <= plength q -> plength q < 2 ^ 31 ->
  slice_data_rd_check h off buf size w
  = Ret (if decide (ztake size (zdrop off (region q (spi w))) = ztake size buf) then 0 else -1).
Proof.
  intros Ho Hoff Hsz Hq Hs. pose proof Ho as (_ & _ & Hon). pose proof (region_len q (spi w) Hon) as Hlen.
  unfold slice_data_rd_check, AB_WRITE_CHECK_BUF_SIZE.
  pose proof (Z.div_mod size 8192 ltac:(lia)) as Hdm. pose proof (Z.mod_pos_bound size 8192 ltac:(lia)) as Hmod.
  assert (0 <= size / 8192) by (apply Z.div_pos; lia).
  rewrite (rd_check_loop_spec h q); unfold AB_WRITE_CHECK_BUF_SIZE; [|done || lia..]. cbn [mbind outcome_bind].
  set (k := size / 8192) in *. set (md := size mod 8192) in *. rewrite Z2Nat.id by lia.
  rewrite Z.mul_0_l, Z.add_0_r, zdrop_0.
  assert (size = k * 8192 + md) as E by lia. clearbody k md. subst size.
  assert (ztake (8192 * k + md) (zdrop off (region q (spi w))) = ztake (8192 * k + md) buf <->
    ztake (k * 8192) (zdrop off (region q (spi w))) = ztake (k * 8192) buf /\
    ztake md (zdrop (off + k * 8192) (region q (spi w))) = ztake md (zdrop (k * 8192) buf)) as Hsplit.
  { rewrite E, slice_add by lia.
    assert (ztake (k * 8192 + md) buf = ztake (k * 8192) buf ++ ztake md (zdrop (k * 8192) buf)) as ->
      by (rewrite <- (zdrop_0 buf) at 1; rewrite slice_add, zdrop_0 by lia; done).
    apply same_split. by rewrite slice_len, zlen_ztake by lia. }
  destruct (decide (ztake (k * 8192) (zdrop off _) = ztake (k * 8192) buf)) as [Hk|Hk].
  - rewrite (decide_False (P := 0 < 0)) by lia. destruct (decide (md = 0)) as [E0|Hne].
    + rewrite (decide_False (P := md <> 0)) by tauto. rewrite decide_True; [done|]. apply Hsplit. by rewrite E0.
    + rewrite (decide_True (P := md <> 0)) by done. rewrite i32_id, (partition_read_spec h q) by (done || lia).
      rewrite (decide_False (P := md = 0)), decide_True by lia. cbn [mbind outcome_bind].
      rewrite (decide_False (P := 0 < 0)), filled_len by (lia || (apply slice_len; lia)). cbn [mbind outcome_bind].
      rewrite mem_read_ok by lia. cbn [mbind outcome_bind]. unfold check_mem_is_same. f_equal.
      case_bool_decide; [rewrite decide_True by (by apply Hsplit)|rewrite decide_False by (rewrite Hsplit; tauto)]; done.
  - rewrite decide_True by lia. rewrite decide_False by (rewrite Hsplit; tauto). done.
Qed.

(** ** One slice *)

(** Whole sectors for [n] bytes. *)
Definition sectors (n : Z) : Z := (n + spi_sector - 1) / spi_sector.
Definition up (n : Z) : Z := sectors n * spi_sector.

Lemma up_bounds n : n <= up n < n + spi_sector.
Proof.
  unfold up, sectors. pose proof spi_sector_pos as Hpos. assert (spi_sector <> 0) as Hne by lia.
  pose proof (Z.div_mod (n + spi_sector - 1) spi_sector Hne).
  pose proof (Z.mod_pos_bound (n + spi_sector - 1) spi_sector Hpos). lia.
Qed.

Lemma up_mod n : up n mod spi_sector = 0.
Proof. pose proof spi_sector_pos. unfold up. apply Z.mod_mul. lia. Qed.

Lemma up_le n l : l mod spi_sector = 0 -> n <= l -> up n <= l.
Proof.
  intros Hl Hn. pose proof spi_sector_pos. pose proof (up_bounds n). assert (spi_sector <> 0) as Hne by lia.
  pose proof (Z.div_mod l spi_sector Hne) as E. rewrite Hl, Z.add_0_r in E. unfold up in *.
  assert (sectors n < l / spi_sector + 1); nia.
Qed.

Lemma sector_le q c : on_chip q c -> spi_sector <= plength q.
Proof.
  intros [_ _ _ _ Hpos Hm _]. destruct (decide (spi_sector <= plength q)); [done|]. rewrite Z.mod_small in Hm; lia.
Qed.

(** The boot table knows the sector size and [name] opens partition [q]. *)
Definition slice_at (name : list Z) (j : nat) (q : partition_info) (b : boot) : Prop :=
  flash_sector b = spi_sector /\ part_at name j q (pw b).

(** Nothing but the chip and the handle of partition [j] differs. *)
Definition kept_but (j : nat) (b b' : boot) : Prop :=
  b' = with_pw (pw b') b /\ forall name' i p, i <> j -> part_at name' i p (pw b) -> part_at name' i p (pw b').

#[export] Instance kept_but_refl j : Reflexive (kept_but j).
Proof. intros b. split; [by destruct b|done]. Qed.

#[export] Instance kept_but_trans j : Transitive (kept_but j).
Proof.
  intros b1 b2 b3 [E1 H1] [E2 H2]. split; [|by eauto]. rewrite E2, E1. done.
Qed.

(** The chip after erasing for, and after writing, the slice [d] at [o]. *)
Definition slice_erased (q : partition_info) (o n : Z) (c : chip) : Z * chip :=
  spiflash_erase c (start_addr q + up o) (sectors n * spi_sector).
Definition slice_written (q : partition_info) (o : Z) (d : list Z) (c : chip) : chip :=
  (spiflash_program (slice_erased q o (zlen d) c).2 (start_addr q + o) d).2.

Lemma slice_spec name j q b buf n o :
  slice_at name j q b -> 0 <= o -> 0 < n <= zlen buf -> o + n <= plength q ->
  let c := spi (pw b) in let d := ztake n buf in
  exists r b', bootab_upgrade_partition_slice (Some name) (FromBuffer buf) o n b = Ret (r, b') /\
    if decide (up o + sectors n * spi_sector <= plength q) then
      if decide ((slice_erased q o n c).1 < 0) then r = -1
      else r = (if decide (ztake n (zdrop o (region q (slice_written q o d c))) = d) then 0 else -1) /\
           spi (pw b') = slice_written q o d c /\ slice_at name j q b' /\ kept_but j b b'
    else r = - EINVAL /\ spi (pw b') = c /\ slice_at name j q b' /\ kept_but j b b'.
Proof.
  intros [Hsec Hat] Ho Hn Hq c d. unfold bootab_upgrade_partition_slice. rewrite decide_False by lia.
  pose proof (part_on_chip _ _ _ _ c Hat) as Hon. pose proof Hon as [_ _ ? _ _ Hlm ?].
  pose proof (spi_small c). pose proof spi_xip_pos. pose proof spi_sector_pos. pose proof (sector_le q c Hon).
  destruct (part_open name j q (pw b) Hat) as (w1 & Eo & [Hopen _] & Hspi & Hclose). rewrite Eo.
  assert (forall c', kept_but j b (with_pw (partition_close (Z.of_nat j) (with_spi c' w1)) b)) as Hkept.
  { intros c'. split; [done|]. intros name' i p. cbn [pw with_pw]. by apply (part_open_other name j q). }
  pose proof Hopen as (-> & _ & _). cbn [plength set_flash_dev]. rewrite u32_id, decide_False by lia.
  unfold slice_program. cbn [flash_sector with_pw pw]. rewrite Hsec, (decide_False (P := spi_sector = 0)) by lia.
  cbn zeta. rewrite (u32_id (o + spi_sector - 1)), (u32_id (n + spi_sector - 1)) by lia.
  fold (sectors o) (sectors n). fold (up o). pose proof (up_bounds o). pose proof (up_le o _ Hlm ltac:(lia)).
  assert (0 < sectors n <= n) as Hk.
  { pose proof (up_bounds n). unfold up in *. nia. }
  rewrite u32_id, (i32_id (up o)), (i32_id o) by lia.
  rewrite (partition_erase_spec _ _ _ (up o) (sectors n) Hopen ltac:(lia) (up_mod o) ltac:(lia)), Hspi.
  rewrite (decide_False (P := sectors n = 0)) by lia. cbn [plength set_flash_dev start_addr]. fold c.
  change (spiflash_erase c (start_addr q + up o) (sectors n * spi_sector)) with (slice_erased q o n c).
  destruct (decide (up o + sectors n * spi_sector <= plength q)) as [Hfit|Hfit]; cbn [mbind outcome_bind].
  2: { rewrite decide_True by (unfold EINVAL; lia). eexists _, _. split; [done|]. split; [done|].
       rewrite close_same, Hspi. destruct (Hclose c) as [Hat' Hc'].
       split; [done|]. split; [by split|apply Hkept]. }
  destruct (decide ((slice_erased q o n c).1 < 0)) as [Hr|Hr].
  { rewrite decide_True by lia. eexists _, _. by split. }
  rewrite decide_False, mem_read_ok, zdrop_0 by lia. cbn [mbind outcome_bind]. fold d.
  assert (zlen d = n) as Hd by (unfold d; rewrite zlen_ztake; lia).
  set (w2 := with_spi (slice_erased q o n c).2 w1).
  assert (opened (Z.of_nat j) (set_flash_dev true q) w2) as Hopen2 by (by apply opened_any).
  rewrite (partition_write_spec _ _ _ o d Hopen2 ltac:(lia) ltac:(lia)), decide_False by lia.
  cbn [plength set_flash_dev start_addr]. rewrite decide_True by lia. cbn [mbind outcome_bind].
  rewrite (decide_False (P := 0 < 0)) by lia.
  set (w3 := with_spi _ w2). assert (opened (Z.of_nat j) (set_flash_dev true q) w3) as Hopen3 by (by apply opened_any).
  rewrite (rd_check_spec _ _ _ o buf n Hopen3) by (cbn [plength set_flash_dev]; lia). cbn [mbind outcome_bind].
  assert (spi w3 = slice_written q o d c) as E3 by (unfold slice_written; rewrite Hd; done).
  eexists _, _. split; [done|]. rewrite E3. fold d.
  change (region (set_flash_dev true q)) with (region q).
  destruct (Hclose (slice_written q o d c)) as [Hat' Hc'].
  assert (w3 = with_spi (slice_written q o d c) w1) as -> by (by rewrite <- E3).
  split; [by destruct (decide (ztake n _ = d))|]. split; [done|]. split; [by split|apply Hkept].
Qed.

(** A slice that [bootab_upgrade_partition_slice] reports as written is in the
    partition, on every chip that reads correctly, however programming and erasing
    behave. *)
Theorem slice_verified name j q b buf n o b' :
  slice_at name j q b -> 0 <= o -> 0 < n <= zlen buf -> o + n <= plength q ->
  bootab_upgrade_partition_slice (Some name) (FromBuffer buf) o n b = Ret (0, b') ->
  ztake n (zdrop o (region q (spi (pw b')))) = ztake n buf.
Proof.
  intros Hat Ho Hn Hq E. destruct (slice_spec name j q b buf n o Hat Ho Hn Hq) as (r & b2 & E2 & H).
  rewrite E in E2. injection E2 as <- <-. destruct (decide _) as [_|_]; [|by destruct H].
  destruct (decide _) as [_|_]; [done|]. destruct H as (H & -> & _). by destruct (decide (ztake n _ = _)).
Qed.

End Verified.

(** ** Slice after slice *)

(** The calls that write [ds] one after the other from [o] on, until one fails. *)
Fixpoint slices `{SF : SpiFlash} (image : list Z) (o : Z) (ds : list (list Z)) (b : boot) : outcome (Z * boot) :=
  match ds with
  | [] => Ret (0, b)
  | d :: ds =>
      '(r, b) ← otaab_upgrade_slice (Some image) (FromBuffer d) o (zlen d) b;
      if decide (r < 0) then Ret (r, b) else slices image (o + zlen d) ds b
  end.

Section Healthy.
Context `{SN : SpiNor} (name : list Z) (j : nat) (q : partition_info).

(** There are sectors left to erase for each slice. *)
Fixpoint slices_fit (o : Z) (ds : list (list Z)) : Prop :=
  match ds with
  | [] => True
  | d :: ds => up o + up (zlen d) <= plength q /\ slices_fit (o + zlen d) ds
  end.

(** The partition starts with [img], and the rest of the last sector is erased. *)
Definition so_far (img : list Z) (c : chip) : Prop :=
  exists rest, region q c = img ++ erased (up (zlen img) - zlen img) ++ rest.

Lemma up_sum o n : up (o + n) <= up o + up n.
Proof.
  pose proof spi_sector_pos. pose proof (up_bounds o). pose proof (up_bounds n). apply up_le; [|lia].
  by rewrite Z.add_mod, !up_mod by lia.
Qed.

Lemma slice_step img d b :
  slice_at name j q b -> bytes d -> up (zlen img) + up (zlen d) <= plength q -> so_far img (spi (pw b)) ->
  exists b', bootab_upgrade_partition_slice (Some name) (FromBuffer d) (zlen img) (zlen d) b = Ret (0, b') /\
    slice_at name j q b' /\ so_far (img ++ d) (spi (pw b')) /\ only_region q (spi (pw b)) (spi (pw b')) /\
    kept_but j b b'.
Proof.
  intros Hat Hd Hfit [rest E]. destruct (decide (zlen d = 0)) as [Hz|Hnz].
  { exists b. unfold bootab_upgrade_partition_slice. rewrite decide_True by done.
    destruct d as [|? d]; [|rewrite zlen_cons in Hz; pose proof (zlen_nonneg d); lia]. rewrite app_nil_r. split_and!; [done|done|by exists rest|done|done]. }
  pose proof (zlen_nonneg d). pose proof (zlen_nonneg img). set (o := zlen img) in *. set (n := zlen d) in *.
  pose proof (up_bounds o). pose proof (up_bounds n). pose proof Hat as [_ Hpart]. set (c := spi (pw b)) in *.
  pose proof (part_on_chip _ _ _ _ c Hpart) as Hon.
  destruct (slice_spec name j q b d n o Hat) as (r & b' & Er & HS); [lia|lia|lia|]. exists b'.
  rewrite decide_True in HS by done. fold c in HS.
  destruct (region_erase q c (up o) (up n)) as (Hpos & Hreg & Honly);
    [done|lia|apply up_mod|lia|apply up_mod|done|].
  change (spiflash_erase c (start_addr q + up o) (up n)) with (slice_erased q o n c) in *.
  rewrite decide_False in HS by lia. destruct HS as (Hr & Hc' & Hat' & Hkept).
  assert (ztake n d = d) as Ed by (apply ztake_all; lia). rewrite Ed in Hr, Hc'.
  set (tail := zdrop (up o + up n) (region q c)) in *.
  assert (region q (slice_erased q o n c).2 = img ++ erased (up o - o + up n) ++ tail) as Hr1.
  { rewrite Hreg, E. assert (ztake (up o) (img ++ erased (up o - o) ++ rest) = img ++ erased (up o - o)) as ->.
    { rewrite app_assoc. apply ztake_app_exact. rewrite zlen_app, zlen_erased; lia. }
    rewrite (erased_app (up o - o)) by lia. by norm_app. }
  destruct (region_program q (slice_erased q o n c).2 o d) as [Hprog Honly2]; [by eapply on_chip_any|lia|fold n; lia|].
  change (spiflash_program (slice_erased q o n c).2 (start_addr q + o) d).2 with (slice_written q o d c) in *.
  pose proof (program_erased img (up o - o + up n) d tail Hd) as Hpe. fold o n in Hpe.
  rewrite Hr1, Hpe in Hprog by lia. pose proof (up_sum o n).
  split_and!; [|done| |rewrite Hc'; by etrans|done].
  - rewrite Er, Hr, Hprog, slice_here by done. by rewrite decide_True.
  - rewrite Hc'. unfold so_far. rewrite zlen_app. fold o n. exists (erased (up o + up n - up (o + n)) ++ tail).
    rewrite Hprog. norm_app. do 2 f_equal. rewrite app_assoc. f_equal.
    rewrite <- erased_app by (pose proof (up_bounds (o + n)); lia). f_equal. lia.
Qed.

Lemma slices_step image s : s = str_a \/ s = str_b -> name = ztake 15 (image ++ other_slot s) ->
  forall ds img b, cur_slot b = s ->
  slice_at name j q b -> Forall bytes ds -> slices_fit (zlen img) ds -> so_far img (spi (pw b)) ->
  exists b', slices image (zlen img) ds b = Ret (0, b') /\
    slice_at name j q b' /\ so_far (img ++ concat ds) (spi (pw b')) /\ only_region q (spi (pw b)) (spi (pw b')) /\
    kept_but j b b'.
Proof.
  intros Hslot Hname ds. induction ds as [|d ds IH]; intros img b Hcur Hat Hby Hfit Hs.
  - exists b. cbn [slices concat]. rewrite app_nil_r. by split_and!.
  - inversion_clear Hby as [|? ? Hd Hds]. destruct Hfit as [Hf Hfit]. cbn [slices].
    unfold otaab_upgrade_slice, otaab_get_next_ab, bootab_upgrade_slice.
    rewrite current_known, Hcur by (rewrite Hcur; by destruct Hslot as [-> | ->]). cbn [mbind outcome_bind].
    rewrite <- Hname.
    destruct (slice_step img d b Hat Hd Hf Hs) as (b1 & -> & Hat1 & Hs1 & Ho1 & Hk1).
    cbn [mbind outcome_bind]. rewrite decide_False by lia. rewrite <- zlen_app in *.
    destruct (IH (img ++ d) b1) as (b2 & E2 & Hat2 & Hs2 & Ho2 & Hk2); [by destruct Hk1 as [-> _]|done..|]. exists b2.
    cbn [concat]. rewrite app_assoc. split_and!; [done|done|done|by etrans|by etrans].
Qed.

Lemma so_far_start c : so_far [] c.
Proof.
  exists (region q c). rewrite zlen_nil. pose proof spi_sector_pos. unfold up, sectors.
  by rewrite Z.add_0_l, Z.div_small by lia.
Qed.

End Healthy.

(** ** Concrete runs *)

Lemma d_slice_at s c : slice_at (SR := mem_chip_reads) [107; 118] 0 d_kv (d_boot s c).
Proof.
  split; [done|]. exists true. split.
  - split_and!; [done|done|done|]. intros j q Hj. lia.
  - split_and!; [done|done|done|]. apply (on_chip_any (SR := mem_chip_reads) _ ([] : list Z)). by_decide.
Qed.

Lemma slice_verified_witness :
  exists b', bootab_upgrade_partition_slice (Some [107; 118]) (FromBuffer [7; 8; 9]) 0 3 (d_boot str_a []) = Ret (0, b') /\
    ztake 3 (zdrop 0 (region (SR := mem_chip_reads) d_kv (spi (pw b')))) = [7; 8; 9].
Proof.
  destruct (slice_step (SN := mem_chip_nor) [107; 118] 0 d_kv [] [7; 8; 9] (d_boot str_a [])) as (b' & E & _).
  - apply d_slice_at.
  - by_decide.
  - by_decide.
  - exists (region (SR := mem_chip_reads) d_kv []). done.
  - exists b'. split; [exact E|].
    apply (slice_verified (SR := mem_chip_reads) [107; 118] 0 d_kv (d_boot str_a []) [7; 8; 9] 3 0 b');
      [apply d_slice_at|done|by_decide|by_decide|exact E].
Defined.
