(* ===== verification/BootabOta.v ===== *)
(** * An upgrade over the air, from the first slice to the next start

    Image download, switch of the slots and restart put together, on a healthy chip. *)

From S2P Require Import Prelude Nor Partition PartitionProofs Bootab BootabProofs BootabTheorems BootabSlice.

Section Ota.
Context `{SN : SpiNor} (i : nat) (p : partition_info).
Context (Hsector : 204 <= spi_sector) (Hhead : 2 * spi_sector + OTA_AB_IMG_HEAD_SIZE <= plength p).

Let Hlength : 2 * spi_sector <= plength p.
Proof. unfold OTA_AB_IMG_HEAD_SIZE in Hhead. lia. Qed.

(** Changing another partition keeps slot [s] running. *)
Lemma running_kept j q s b b' :
  running i p s b -> i <> j -> on_chip q (spi (pw b)) -> apart q p ->
  kept_but j b b' -> only_region q (spi (pw b)) (spi (pw b')) ->
  running i p s b' /\ env p (spi (pw b')) = env p (spi (pw b)).
Proof.
  intros [Hb Hs Hcur Hsel Hby] Hij Hq Hap [E Hkept] Honly. pose proof Hb as (Hinfo & Hsec & Henv & Hfa & Hfb).
  pose proof (env_on_chip i p _ (spi (pw b)) Henv) as Hon.
  assert (env p (spi (pw b')) = env p (spi (pw b))) as Ee by (by apply (region_apart q p)).
  assert (forall s', flag p s' (spi (pw b')) = flag p s' (spi (pw b))) as Ef by (intros s'; unfold flag; by rewrite Ee).
  split; [|done]. split; [|done|by rewrite E|unfold selected in *; by rewrite !Ef|by rewrite Ef].
  unfold env_ok. rewrite E. cbn [envab_info flash_sector pw with_pw flag_a flag_b]. split_and!; try done. by apply Hkept.
Qed.

(** C6. An upgrade from end to end.  While slot [s] runs, the image is handed to
    [otaab_upgrade_slice] in consecutive slices of any sizes and [otaab_upgrade_end] is
    called: all calls succeed, the record of [s] is not touched, and after a reset
    [bootab_init] succeeds with the other slot, which is on trial, shows the new version
    and whose partition starts with exactly the image. *)
Theorem ota_upgrade_end_to_end s j q image ds v b :
  running i p s b -> slice_at (ztake 15 (image ++ other_slot s)) j q b -> i <> j -> apart q p ->
  Forall bytes ds -> slices_fit q 0 ds ->
  2 <= active_ver (flag p s (spi (pw b))) -> (forall t, v = Some t -> good_version t) ->
  exists b1 b2, slices image 0 ds b = Ret (0, b1) /\ otaab_upgrade_end v b1 = Ret (0, b2) /\
    sec p s (spi (pw b2)) = sec p s (spi (pw b)) /\
    exists b3 b4, bootab_init (boot_fresh (pw b2)) = Ret (0, b3) /\ running i p (other_slot s) b3 /\
      on_trial p (other_slot s) (spi (pw b3)) /\
      bootab_get_cur_imgs_version b3 = Ret (default BOOTAB_INIT_VER v, b4) /\
      ztake (zlen (concat ds)) (region q (spi (pw b3))) = concat ds.
Proof.
  intros Hrun Hat Hij Hap Hby Hfit Hver Hv. pose proof Hrun as [Hb Hs Hcur _ _].
  pose proof Hat as [_ Hpart]. pose proof (part_on_chip _ _ _ _ (spi (pw b)) Hpart) as Hq.
  destruct (slices_step _ j q image s Hs eq_refl ds [] b Hcur Hat Hby Hfit (so_far_start q _))
    as (b1 & E1 & _ & [rest Hreg] & Ho1 & Hk1).
  destruct (running_kept j q s b b1 Hrun Hij Hq Hap Hk1 Ho1) as [Hrun1 Ee].
  assert (flag p s (spi (pw b1)) = flag p s (spi (pw b))) as Ef by (unfold flag; by rewrite Ee).
  destruct (upgrade_switches i p Hsector Hlength s v b1 Hrun1 Hhead) as (b2 & E2 & Htrial & Hsec & Ho2 & b3 & b4 & E3 & Hrun3 & Hc3 & E4);
    [by rewrite Ef|done|].
  exists b1, b2. split; [done|]. split; [done|]. split; [rewrite Hsec; unfold sec; by rewrite Ee|].
  exists b3, b4. rewrite Hc3. split_and!; [done|done|done|done|].
  pose proof Hrun1 as [(_ & _ & Henv1 & _) _ _ _ _].
  rewrite (region_apart p q (spi (pw b1))), Hreg by
    (by apply (env_on_chip i p (pw b1)) || by eapply on_chip_any || (unfold apart in *; lia) || done).
  by apply ztake_app_exact.
Qed.

End Ota.

(** ** A concrete upgrade *)

(** ["pb"] holds the image ["p"] of slot b. *)
Definition d_pb : partition_info := PartitionInfo [112; 98; 0; 0; 0; 0; 0; 0] 0 0 1536 512 0 true 0 0.

Definition o_boot : boot (SF := mem_chip) :=
  Boot (replicate 76 255) (replicate 76 255) str_a true 512
    (PWorld (SF := mem_chip) [d_pb; d_envab] 2 true (Some (Some HAL_ALL_FLASH_0)) []).

(** Three slices, of which none but the first starts at a sector. *)
Definition d_slices : list (list Z) := [replicate 100 1; replicate 600 2; [3; 4; 5]].

Lemma o_running : running (SR := mem_chip_reads) 1 d_envab str_a o_boot.
Proof.
  split; [|by left|done|by vm_compute|by_decide]. split_and!; [done|done| |done|done]. exists true. split.
  - split_and!; [done|done|done|]. intros j q Hj. destruct j as [|j]; [|lia]. by intros [= <-].
  - split_and!; [done|done|done|]. apply (on_chip_any (SR := mem_chip_reads) _ ([] : list Z)). by_decide.
Qed.

Lemma o_slice_at : slice_at (SR := mem_chip_reads) [112; 98] 0 d_pb o_boot.
Proof.
  split; [done|]. exists true. split.
  - split_and!; [done|done|done|]. intros j q Hj. lia.
  - split_and!; [done|done|done|]. apply (on_chip_any (SR := mem_chip_reads) _ ([] : list Z)). by_decide.
Qed.

Lemma ota_upgrade_end_to_end_witness :
  exists b1 b2, slices [112] 0 d_slices o_boot = Ret (0, b1) /\ otaab_upgrade_end (Some [49; 46; 50]) b1 = Ret (0, b2) /\
    sec (SR := mem_chip_reads) d_envab str_a (spi (pw b2)) = sec (SR := mem_chip_reads) d_envab str_a (spi (pw o_boot)) /\
    exists b3 b4, bootab_init (boot_fresh (pw b2)) = Ret (0, b3) /\
      running (SR := mem_chip_reads) 1 d_envab str_b b3 /\
      on_trial (SR := mem_chip_reads) d_envab str_b (spi (pw b3)) /\
      bootab_get_cur_imgs_version b3 = Ret ([49; 46; 50], b4) /\
      ztake (zlen (concat d_slices)) (region (SR := mem_chip_reads) d_pb (spi (pw b3))) = concat d_slices.
Proof.
  apply (ota_upgrade_end_to_end (SN := mem_chip_nor) 1 d_envab ltac:(done) ltac:(done) str_a 0 d_pb [112] d_slices
    (Some [49; 46; 50]) o_boot).
  - apply o_running.
  - apply o_slice_at.
  - done.
  - by right.
  - by_decide.
  - split_and!; by_decide || done.
  - by_decide.
  - intros t [= <-]. split; [done|]. by_decide.
Defined.
