(* ===== verification/Button.v ===== *)
(** * Button service, [components/button]

    [button.c], [gpio_button.c], [adc_button.c] and the product's tables in
    [boards/bl606p_pinevoice_e907/src/button/button_gpio.c]: debouncing, the event
    pool, registration, interrupts.  The clock, the pins and the converter are the
    interface [ButtonHal].  Callbacks are recorded in [calls] and are taken not to
    call back into the service.  The heap is taken to have room
    ([aos_zalloc_check] stops the system otherwise). *)

From S2P Require Import Prelude.

(** ** Data *)

Definition MIN_ST_TMOUT : Z := 90.
Definition MAX_EVENT_TMOUT : Z := 500.
Definition EINVAL : Z := 22.

Definition BUTTON_PRESS_DOWN : Z := 0.
Definition BUTTON_PRESS_UP : Z := 1.
Definition BUTTON_PRESS_LONG_DOWN : Z := 2.
Definition BUTTON_PRESS_DOUBLE : Z := 3.
Definition BUTTON_PRESS_TRIPLE : Z := 4.
Definition LOW_LEVEL : Z := 0.
Definition HIGH_LEVEL : Z := 1.

Inductive button_state := NONE | START | CNT | HIGH | END.

(** [button->ops] with [button->param].  A GPIO button also has whether its pin's
    interrupt was last enabled or disabled; [adc_hdl] is an index into [adcs]. *)
Inductive button_param :=
| Gpio (pin_id active_level : Z) (pin_hdl : bool) (irq_on : bool)
| Adc (channel vref range : Z) (adc_hdl : option nat).

(** [struct button]; [press_time] is the array with its length [press_time_cnt]. *)
Record button := Button {
  param : button_param;
  state : button_state;
  old_press_type : Z;
  active : Z;
  irq_flag : Z;
  is_pressed : bool;
  button_id : Z;
  press_time : list Z;
  press_time_subscript : Z;
  press_type : Z;
  event_flag : Z;
  happened_ms : Z;
  st_ms : Z
}.

Record button_evt := Evt {
  evt_button_id : Z;
  evt_press_type : Z;
  evt_press_time : Z
}.

#[global] Instance button_evt_eq_dec : EqDecision button_evt.
Proof. solve_decision. Defined.
#[global] Instance button_state_eq_dec : EqDecision button_state.
Proof. solve_decision. Defined.

(** [struct event_node]; [evt_cb] and [priv] are opaque. *)
Record event_node := Event {
  event_id : Z;
  ebuttons : list button_evt;
  button_count : Z;
  event_depth : Z;
  evt_cb : Z;
  priv : Z
}.

(** The clock, [hal_gpio_input_get] on a port, and [hal_adc_value_multiple_get] of
    two samples on a port, with its result. *)
Class ButtonHal := {
  world : Type;
  aos_now_ms : world -> Z * world;
  hal_gpio_input_get : Z -> world -> Z * world;
  hal_adc_value_multiple_get : Z -> world -> Z * (Z * Z) * world
}.

(** [g_button_srv] and the two globals of [adc_button.c].  [tmr] is the timer:
    [None] when there is none, else whether it is running.  [adcs] are the ADC
    devices allocated so far: port, and whether still allocated.  [calls] are the
    callbacks made: function, event, private pointer. *)
Record srv `{ButtonHal} := Srv {
  tmr : option bool;
  start_tmr : Z;
  adc_flag : Z;
  inited : Z;
  button_head : list button;
  event_node_head : list event_node;
  event_pool_depth : Z;
  event_pool : list button_evt;
  event_pool_size : Z;
  srv_happened_ms : Z;
  g_adc_start_read : Z;
  g_adc_value : Z;
  adcs : list (Z * bool);
  calls : list (Z * Z * Z);
  wld : world
}.

(** ** Field updates *)

Definition set_param (x : button_param) (r : button) : button :=
  Button x (state r) (old_press_type r) (active r) (irq_flag r) (is_pressed r) (button_id r) (press_time r) (press_time_subscript r) (press_type r) (event_flag r) (happened_ms r) (st_ms r).
Definition set_state (x : button_state) (r : button) : button :=
  Button (param r) x (old_press_type r) (active r) (irq_flag r) (is_pressed r) (button_id r) (press_time r) (press_time_subscript r) (press_type r) (event_flag r) (happened_ms r) (st_ms r).
Definition set_old_press_type (x : Z) (r : button) : button :=
  Button (param r) (state r) x (active r) (irq_flag r) (is_pressed r) (button_id r) (press_time r) (press_time_subscript r) (press_type r) (event_flag r) (happened_ms r) (st_ms r).
Definition set_active (x : Z) (r : button) : button :=
  Button (param r) (state r) (old_press_type r) x (irq_flag r) (is_pressed r) (button_id r) (press_time r) (press_time_subscript r) (press_type r) (event_flag r) (happened_ms r) (st_ms r).
Definition set_irq_flag (x : Z) (r : button) : button :=
  Button (param r) (state r) (old_press_type r) (active r) x (is_pressed r) (button_id r) (press_time r) (press_time_subscript r) (press_type r) (event_flag r) (happened_ms r) (st_ms r).
Definition set_is_pressed (x : bool) (r : button) : button :=
  Button (param r) (state r) (old_press_type r) (active r) (irq_flag r) x (button_id r) (press_time r) (press_time_subscript r) (press_type r) (event_flag r) (happened_ms r) (st_ms r).
Definition set_button_id (x : Z) (r : button) : button :=
  Button (param r) (state r) (old_press_type r) (active r) (irq_flag r) (is_pressed r) x (press_time r) (press_time_subscript r) (press_type r) (event_flag r) (happened_ms r) (st_ms r).
Definition set_press_time (x : list Z) (r : button) : button :=
  Button (param r) (state r) (old_press_type r) (active r) (irq_flag r) (is_pressed r) (button_id r) x (press_time_subscript r) (press_type r) (event_flag r) (happened_ms r) (st_ms r).
Definition set_subscript (x : Z) (r : button) : button :=
  Button (param r) (state r) (old_press_type r) (active r) (irq_flag r) (is_pressed r) (button_id r) (press_time r) x (press_type r) (event_flag r) (happened_ms r) (st_ms r).
Definition set_press_type (x : Z) (r : button) : button :=
  Button (param r) (state r) (old_press_type r) (active r) (irq_flag r) (is_pressed r) (button_id r) (press_time r) (press_time_subscript r) x (event_flag r) (happened_ms r) (st_ms r).
Definition set_event_flag (x : Z) (r : button) : button :=
  Button (param r) (state r) (old_press_type r) (active r) (irq_flag r) (is_pressed r) (button_id r) (press_time r) (press_time_subscript r) (press_type r) x (happened_ms r) (st_ms r).
Definition set_happened (x : Z) (r : button) : button :=
  Button (param r) (state r) (old_press_type r) (active r) (irq_flag r) (is_pressed r) (button_id r) (press_time r) (press_time_subscript r) (press_type r) (event_flag r) x (st_ms r).
Definition set_st_ms (x : Z) (r : button) : button :=
  Button (param r) (state r) (old_press_type r) (active r) (irq_flag r) (is_pressed r) (button_id r) (press_time r) (press_time_subscript r) (press_type r) (event_flag r) (happened_ms r) x.
Definition set_event_depth (x : Z) (r : event_node) : event_node :=
  Event (event_id r) (ebuttons r) (button_count r) x (evt_cb r) (priv r).

Section Service.
Context `{BH : ButtonHal}.

Definition set_tmr (x : option bool) (r : srv) : srv :=
  Srv _ x (start_tmr r) (adc_flag r) (inited r) (button_head r) (event_node_head r) (event_pool_depth r) (event_pool r) (event_pool_size r) (srv_happened_ms r) (g_adc_start_read r) (g_adc_value r) (adcs r) (calls r) (wld r).
Definition set_start_tmr (x : Z) (r : srv) : srv :=
  Srv _ (tmr r) x (adc_flag r) (inited r) (button_head r) (event_node_head r) (event_pool_depth r) (event_pool r) (event_pool_size r) (srv_happened_ms r) (g_adc_start_read r) (g_adc_value r) (adcs r) (calls r) (wld r).
Definition set_adc_flag (x : Z) (r : srv) : srv :=
  Srv _ (tmr r) (start_tmr r) x (inited r) (button_head r) (event_node_head r) (event_pool_depth r) (event_pool r) (event_pool_size r) (srv_happened_ms r) (g_adc_start_read r) (g_adc_value r) (adcs r) (calls r) (wld r).
Definition set_inited (x : Z) (r : srv) : srv :=
  Srv _ (tmr r) (start_tmr r) (adc_flag r) x (button_head r) (event_node_head r) (event_pool_depth r) (event_pool r) (event_pool_size r) (srv_happened_ms r) (g_adc_start_read r) (g_adc_value r) (adcs r) (calls r) (wld r).
Definition set_buttons (x : list button) (r : srv) : srv :=
  Srv _ (tmr r) (start_tmr r) (adc_flag r) (inited r) x (event_node_head r) (event_pool_depth r) (event_pool r) (event_pool_size r) (srv_happened_ms r) (g_adc_start_read r) (g_adc_value r) (adcs r) (calls r) (wld r).
Definition set_nodes (x : list event_node) (r : srv) : srv :=
  Srv _ (tmr r) (start_tmr r) (adc_flag r) (inited r) (button_head r) x (event_pool_depth r) (event_pool r) (event_pool_size r) (srv_happened_ms r) (g_adc_start_read r) (g_adc_value r) (adcs r) (calls r) (wld r).
Definition set_depth (x : Z) (r : srv) : srv :=
  Srv _ (tmr r) (start_tmr r) (adc_flag r) (inited r) (button_head r) (event_node_head r) x (event_pool r) (event_pool_size r) (srv_happened_ms r) (g_adc_start_read r) (g_adc_value r) (adcs r) (calls r) (wld r).
Definition set_pool (x : list button_evt) (r : srv) : srv :=
  Srv _ (tmr r) (start_tmr r) (adc_flag r) (inited r) (button_head r) (event_node_head r) (event_pool_depth r) x (event_pool_size r) (srv_happened_ms r) (g_adc_start_read r) (g_adc_value r) (adcs r) (calls r) (wld r).
Definition set_pool_size (x : Z) (r : srv) : srv :=
  Srv _ (tmr r) (start_tmr r) (adc_flag r) (inited r) (button_head r) (event_node_head r) (event_pool_depth r) (event_pool r) x (srv_happened_ms r) (g_adc_start_read r) (g_adc_value r) (adcs r) (calls r) (wld r).
Definition set_srv_happened (x : Z) (r : srv) : srv :=
  Srv _ (tmr r) (start_tmr r) (adc_flag r) (inited r) (button_head r) (event_node_head r) (event_pool_depth r) (event_pool r) (event_pool_size r) x (g_adc_start_read r) (g_adc_value r) (adcs r) (calls r) (wld r).
Definition set_adc_start_read (x : Z) (r : srv) : srv :=
  Srv _ (tmr r) (start_tmr r) (adc_flag r) (inited r) (button_head r) (event_node_head r) (event_pool_depth r) (event_pool r) (event_pool_size r) (srv_happened_ms r) x (g_adc_value r) (adcs r) (calls r) (wld r).
Definition set_adc_value (x : Z) (r : srv) : srv :=
  Srv _ (tmr r) (start_tmr r) (adc_flag r) (inited r) (button_head r) (event_node_head r) (event_pool_depth r) (event_pool r) (event_pool_size r) (srv_happened_ms r) (g_adc_start_read r) x (adcs r) (calls r) (wld r).
Definition set_adcs (x : list (Z * bool)) (r : srv) : srv :=
  Srv _ (tmr r) (start_tmr r) (adc_flag r) (inited r) (button_head r) (event_node_head r) (event_pool_depth r) (event_pool r) (event_pool_size r) (srv_happened_ms r) (g_adc_start_read r) (g_adc_value r) x (calls r) (wld r).
Definition set_calls (x : list (Z * Z * Z)) (r : srv) : srv :=
  Srv _ (tmr r) (start_tmr r) (adc_flag r) (inited r) (button_head r) (event_node_head r) (event_pool_depth r) (event_pool r) (event_pool_size r) (srv_happened_ms r) (g_adc_start_read r) (g_adc_value r) (adcs r) x (wld r).
Definition set_wld (x : world) (r : srv) : srv :=
  Srv _ (tmr r) (start_tmr r) (adc_flag r) (inited r) (button_head r) (event_node_head r) (event_pool_depth r) (event_pool r) (event_pool_size r) (srv_happened_ms r) (g_adc_start_read r) (g_adc_value r) (adcs r) (calls r) x.

Definition get_button (i : nat) (s : srv) : outcome button :=
  match button_head s !! i with Some b => Ret b | None => Crash end.
Definition put_button (i : nat) (b : button) (s : srv) : srv :=
  set_buttons (<[i := b]> (button_head s)) s.

Definition now (s : srv) : Z * srv :=
  let '(t, w) := aos_now_ms (wld s) in (t, set_wld w s).

Definition timer_start (s : srv) : srv :=
  set_tmr (match tmr s with Some _ => Some true | None => None end) s.
Definition timer_stop (s : srv) : srv :=
  set_tmr (match tmr s with Some _ => Some false | None => None end) s.

(** ** [gpio_button.c], [adc_button.c] *)

Definition gpio_irq_disable (b : button) : button :=
  match param b with Gpio p l h _ => set_param (Gpio p l h false) b | Adc _ _ _ _ => b end.
Definition gpio_irq_enable (b : button) : button :=
  match param b with Gpio p l h _ => set_param (Gpio p l h true) b | Adc _ _ _ _ => b end.
Definition button_adc_enable (b : button) : button := set_st_ms 0 b.
Definition button_adc_disable (b : button) : button := set_st_ms (-1) b.

Definition irq_disable (b : button) : button :=
  match param b with Gpio _ _ _ _ => gpio_irq_disable b | Adc _ _ _ _ => button_adc_disable b end.
Definition irq_enable (b : button) : button :=
  match param b with Gpio _ _ _ _ => gpio_irq_enable b | Adc _ _ _ _ => button_adc_enable b end.

Definition gpio_pin_read (pin_id active_level : Z) (s : srv) : Z * srv :=
  let '(val, w) := hal_gpio_input_get pin_id (wld s) in
  (if decide (val = active_level) then 1 else 0, set_wld w s).

(** The average of two samples in 32-bit arithmetic; 0 when reading failed. *)
Definition button_adc_get_value (h : option nat) (s : srv) : outcome (Z * srv) :=
  match h with
  | None => Crash
  | Some h =>
      match adcs s !! h with
      | Some (port, true) =>
          let '(ret, (v0, v1), w) := hal_adc_value_multiple_get port (wld s) in
          Ret (if decide (ret = 0) then u32 (v0 + v1) / 2 else 0, set_wld w s)
      | _ => Crash
      end
  end.

(** [value] is unsigned, so the bounds are compared as unsigned numbers. *)
Definition button_adc_check (vref range value : Z) : Z :=
  if decide (value < u32 (vref + range) /\ u32 (vref - range) < value) then 1 else 0.

Definition button_adc_start_read (s : srv) : srv := set_adc_start_read 1 s.

Definition button_adc_read (vref range : Z) (h : option nat) (s : srv) : outcome (Z * srv) :=
  s ← (if decide (g_adc_start_read s = 1) then
         '(v, s) ← button_adc_get_value h s; Ret (set_adc_start_read 0 (set_adc_value v s))
       else Ret s);
  Ret (button_adc_check vref range (g_adc_value s), s).

Definition read_level (b : button) (s : srv) : outcome (Z * srv) :=
  match param b with
  | Gpio pin level _ _ => Ret (gpio_pin_read pin level s)
  | Adc _ vref range h => button_adc_read vref range h s
  end.

(** ** Interrupts *)

Definition button_irq (i : nat) (s : srv) : outcome srv :=
  b ← get_button i s;
  let b := set_irq_flag 1 (irq_disable b) in
  let '(t, s) := now s in
  let b := set_st_ms t b in
  match tmr s with
  | Some _ => Ret (timer_start (put_button i b s))
  | None => Ret (put_button i (irq_enable b) s)
  end.

Fixpoint gpio_find (pin : Z) (i : nat) (bs : list button) : option nat :=
  match bs with
  | [] => None
  | b :: bs =>
      match param b with
      | Gpio p _ _ _ => if decide (p = pin) then Some i else gpio_find pin (S i) bs
      | Adc _ _ _ _ => gpio_find pin (S i) bs
      end
  end.
Definition button_gpio_find (pin : Z) (s : srv) : option nat := gpio_find pin 0 (button_head s).

(** [pin_event]: the handler reads through the button before it tests it. *)
Definition pin_event (pin : Z) (s : srv) : outcome srv :=
  match button_gpio_find pin s with
  | None => Crash
  | Some i =>
      b ← get_button i s;
      match param b with
      | Gpio _ _ true _ => button_irq i s
      | _ => Ret s
      end
  end.

(** ** The state machine of one button *)

Definition reset (b : button) : button := set_subscript 0 (set_active 0 (set_state NONE b)).

Definition none_hdl (b : button) (s : srv) : button * srv :=
  if is_pressed b then (set_state START b, set_start_tmr 1 s) else (irq_enable b, s).

Definition start_hdl (b : button) (s : srv) : button * srv :=
  if is_pressed b then
    let '(t, s) := now s in
    (if decide (MIN_ST_TMOUT <= t - st_ms b) then set_state CNT b else b, set_start_tmr 1 s)
  else (irq_enable (reset b), s).

Definition cnt_hdl (b : button) (s : srv) : outcome (button * srv) :=
  if is_pressed b && bool_decide (zlen (press_time b) <> 0) then
    let '(t, s) := now s in
    limit ← mem_get (press_time b) (press_time_subscript b);
    let b :=
      if decide (limit <= t - st_ms b) then
        let b := set_subscript (press_time_subscript b + 1)
                   (set_press_type BUTTON_PRESS_LONG_DOWN (set_active 1 b)) in
        if decide (zlen (press_time b) <= press_time_subscript b) then set_state HIGH b else b
      else b in
    Ret (b, set_start_tmr 1 s)
  else
    Ret (set_old_press_type BUTTON_PRESS_DOWN
           (set_press_type BUTTON_PRESS_DOWN (set_active 1 (set_state HIGH b))), set_start_tmr 1 s).

Definition high_hdl (b : button) (s : srv) : button * srv :=
  if negb (is_pressed b) then
    let b := set_active 1 (set_state END b) in
    (set_press_type (if decide (press_type b = BUTTON_PRESS_LONG_DOWN) then -1 else BUTTON_PRESS_UP) b,
     set_start_tmr 1 s)
  else (b, set_start_tmr 1 s).

(** [1 << n].  C leaves it undefined for -1; RISC-V shifts by the low five bits. *)
Definition shl1 (n : Z) : Z := i32 (2 ^ (n mod 32)).

Definition button_hdl (b : button) (s : srv) : outcome (button * srv) :=
  '(level, s) ← read_level b s;
  let b := set_is_pressed (bool_decide (level <> 0)) b in
  '(b, s) ← (match state b with
             | NONE => Ret (none_hdl b s)
             | START => Ret (start_hdl b s)
             | CNT => cnt_hdl b s
             | HIGH => Ret (high_hdl b s)
             | END => Ret (irq_enable (reset b), s)
             end);
  let b := if decide (active b <> 0 /\ Z.land (event_flag b) (shl1 (press_type b)) = 0)
           then set_active 0 b else b in
  if decide (active b <> 0) then let '(t, s) := now s in Ret (set_happened t b, s) else Ret (b, s).

(** One button of [button_adc_sttime_check]. *)
Definition adc_sttime_check1 (b : button) (s : srv) : outcome (button * srv) :=
  match param b with
  | Adc _ vref range h =>
      if decide (irq_flag b = 0 /\ st_ms b = 0) then
        '(p, s) ← button_adc_read vref range h s;
        if decide (p <> 0) then
          let '(t, s) := now s in Ret (set_irq_flag 1 (set_st_ms t (set_is_pressed true b)), s)
        else Ret (b, s)
      else Ret (b, s)
  | Gpio _ _ _ _ => Ret (b, s)
  end.

Fixpoint sttime_from (n i : nat) (s : srv) : outcome srv :=
  match n with
  | O => Ret s
  | S n =>
      b ← get_button i s;
      '(b, s) ← adc_sttime_check1 b s;
      sttime_from n (S i) (put_button i b s)
  end.
Definition button_adc_sttime_check (s : srv) : outcome srv :=
  sttime_from (length (button_head s)) 0 (button_adc_start_read s).

(** ** The event pool *)

Definition event_pool_add (i : nat) (s : srv) : outcome (Z * srv) :=
  if decide (event_pool_size s <= event_pool_depth s) then Ret (-1, s)
  else
    b ← get_button i s;
    time ← (if decide (press_time_subscript b <> 0)
            then mem_get (press_time b) (press_time_subscript b - 1) else Ret 0);
    if decide (0 <= event_pool_depth s < zlen (event_pool s)) then
      let s := set_pool (<[Z.to_nat (event_pool_depth s) := Evt (button_id b) (press_type b) time]>
                           (event_pool s)) s in
      Ret (0, put_button i (set_active 0 b) (set_depth (event_pool_depth s + 1) s))
    else Crash.

(** [compare_str_mem]: the number of fields in which the first elements differ;
    its argument [len] is not used. *)
Definition compare_evt (p1 p2 : button_evt) : Z :=
  (if decide (evt_button_id p1 <> evt_button_id p2) then 1 else 0) +
  (if decide (evt_press_type p1 <> evt_press_type p2) then 1 else 0) +
  (if decide (evt_press_time p1 <> evt_press_time p2) then 1 else 0).
Definition compare_str_mem (p1 p2 : list button_evt) : outcome Z :=
  match p1, p2 with
  | e1 :: _, e2 :: _ => Ret (compare_evt e1 e2)
  | _, _ => Crash
  end.

(** The loop over the event nodes that [event_manage] and [event_pool_reset]
    share: nodes that satisfy [cond] and match the pool get a new [event_depth];
    the result is the last of them ([cnt] stays 0). *)
Fixpoint scan_nodes (cond : event_node -> bool) (new_depth : event_node -> Z) (pool : list button_evt)
  (i : nat) (nodes : list event_node) (e_sub : option nat) : outcome (list event_node * option nat) :=
  match nodes with
  | [] => Ret ([], e_sub)
  | node :: nodes =>
      '(node, e_sub) ←
        (if cond node then
           ret ← compare_str_mem (ebuttons node) pool;
           if decide (ret = 0) then
             Ret (set_event_depth (new_depth node) node,
                  if decide (0 < button_count node) then Some i else e_sub)
           else Ret (node, e_sub)
         else Ret (node, e_sub));
      '(nodes, e_sub) ← scan_nodes cond new_depth pool (S i) nodes e_sub;
      Ret (node :: nodes, e_sub)
  end.

Definition call (node : event_node) (s : srv) : srv :=
  set_calls (calls s ++ [(evt_cb node, event_id node, priv node)]) s.

(** [event_pool_clean] of everything, or of the first [button_count] elements. *)
Definition event_pool_clean (n : option Z) (s : srv) : outcome srv :=
  match n with
  | None => Ret (set_depth 0 s)
  | Some n =>
      let depth := event_pool_depth s - n in
      if decide (0 <= n /\ 0 <= depth /\ n + depth <= zlen (event_pool s)) then
        Ret (set_pool (ztake depth (zdrop n (event_pool s)) ++ zdrop depth (event_pool s)) (set_depth depth s))
      else Crash
  end.

(** Run the callback of the node found if it is complete. *)
Definition fire (e_sub : option nat) (s : srv) : outcome srv :=
  match e_sub with
  | None => Ret s
  | Some i =>
      match event_node_head s !! i with
      | None => Crash
      | Some node =>
          if decide (event_depth node = button_count node)
          then event_pool_clean (Some (button_count node)) (call node s) else Ret s
      end
  end.

Fixpoint find_node (cond : event_node -> bool) (p : list button_evt) (nodes : list event_node)
  : outcome (option event_node) :=
  match nodes with
  | [] => Ret None
  | node :: nodes =>
      if cond node then
        ret ← compare_str_mem (ebuttons node) p;
        if decide (ret = 0) then Ret (Some node) else find_node cond p nodes
      else find_node cond p nodes
  end.

Definition event_find (elem : button_evt) (s : srv) : outcome (option event_node) :=
  find_node (fun node => bool_decide (button_count node = 1)) [elem] (event_node_head s).

(** Call the single events of the elements left in the pool. *)
Fixpoint flush_pool (n i : nat) (s : srv) : outcome srv :=
  match n with
  | O => Ret s
  | S n =>
      match event_pool s !! i with
      | None => Crash
      | Some elem =>
          r ← event_find elem s;
          flush_pool n (S i) (match r with Some node => call node s | None => s end)
      end
  end.

Definition event_pool_reset (s : srv) : outcome srv :=
  '(nodes, e_sub) ← scan_nodes (fun node => bool_decide (button_count node = event_pool_depth s))
                      button_count (event_pool s) 0 (event_node_head s) None;
  s ← fire e_sub (set_nodes nodes s);
  s ← (match e_sub with
       | None => flush_pool (Z.to_nat (event_pool_depth s)) 0 s
       | Some _ => Ret s
       end);
  event_pool_clean None s.

Definition event_manage (s : srv) : outcome srv :=
  '(nodes, e_sub) ← scan_nodes (fun node => bool_decide (event_pool_depth s <= button_count node))
                      (fun _ => event_pool_depth s) (event_pool s) 0 (event_node_head s) None;
  s ← fire e_sub (set_nodes nodes s);
  if decide (e_sub = None /\ event_pool_depth s <> 0) then
    r ← find_node (fun node => bool_decide (button_count node = event_pool_depth s - 1)) (event_pool s)
          (event_node_head s);
    match r with
    | Some node => event_pool_clean (Some (button_count node)) (call node s)
    | None => Ret s
    end
  else Ret s.

(** ** The timer *)

(** The body of the loop for a button that has become active. *)
Definition active_button (i : nat) (s : srv) : outcome srv :=
  b ← get_button i s;
  s ← (if decide (srv_happened_ms s = 0 \/ happened_ms b - srv_happened_ms s < MAX_EVENT_TMOUT) then
         '(r, s) ← event_pool_add i (set_srv_happened (happened_ms b) s);
         s ← (if decide (r < 0) then event_pool_reset s else Ret s);
         event_manage s
       else
         s ← event_pool_reset (set_srv_happened (happened_ms b) s);
         '(_, s) ← event_pool_add i s;
         event_manage s);
  Ret (if decide (event_pool_depth s = 0) then set_srv_happened 0 s else s).

Definition handle_button (i : nat) (s : srv) : outcome srv :=
  b ← get_button i s;
  if decide (irq_flag b = 1 \/ state b <> NONE) then
    '(b, s) ← button_hdl (set_irq_flag 0 b) s;
    let s := put_button i b s in
    if decide (active b = 1) then active_button i s else Ret s
  else Ret s.

Fixpoint handle_from (n i : nat) (s : srv) : outcome srv :=
  match n with
  | O => Ret s
  | S n => s ← handle_button i s; handle_from n (S i) s
  end.

Definition button_timer_entry (s : srv) : outcome srv :=
  let s := timer_stop (set_start_tmr 0 s) in
  s ← (if decide (event_pool_depth s <> 0) then
         let '(t, s) := now s in
         if decide (MAX_EVENT_TMOUT <= t - srv_happened_ms s) then event_pool_reset s else Ret s
       else Ret s);
  s ← button_adc_sttime_check s;
  s ← handle_from (length (button_head s)) 0 s;
  Ret (if decide (adc_flag s <> 0 \/ start_tmr s <> 0 \/ event_pool_depth s <> 0)
       then timer_start s else s).

(** ** Registration *)

Fixpoint find_id (id : Z) (i : nat) (bs : list button) : option nat :=
  match bs with
  | [] => None
  | b :: bs => if decide (button_id b = id) then Some i else find_id id (S i) bs
  end.
Definition button_find (id : Z) (s : srv) : option nat := find_id id 0 (button_head s).

Definition buttton_check (id : Z) (s : srv) : Z :=
  match button_find id s with None => 0 | Some _ => -1 end.

(** [button_new], [button_add] and [button_set_ops]: a zeroed button at the tail. *)
Definition new_button (id : Z) (p : button_param) : button :=
  Button p NONE 0 0 0 false id [] 0 (-1) 0 0 0.
Definition button_add (b : button) (s : srv) : srv := set_buttons (button_head s ++ [b]) s.

(** With [gpio_pin_init]: the pin gets a handle and its interrupt is enabled. *)
Definition button_add_gpio (id pin level : Z) (s : srv) : Z * srv :=
  if decide (0 <= pin /\ (level = LOW_LEVEL \/ level = HIGH_LEVEL)) then
    if decide (buttton_check id s < 0) then (- EINVAL, s)
    else (0, button_add (gpio_irq_enable (new_button id (Gpio pin level true false))) s)
  else (- EINVAL, s).

(** [button_adc_find]: the device of a button already on this port. *)
Fixpoint button_adc_find (port : Z) (devs : list (Z * bool)) (bs : list button) : option nat :=
  match bs with
  | [] => None
  | b :: bs =>
      match param b with
      | Adc _ _ _ (Some h) =>
          match devs !! h with
          | Some (p, _) => if decide (p = port) then Some h else button_adc_find port devs bs
          | None => button_adc_find port devs bs
          end
      | _ => button_adc_find port devs bs
      end
  end.

(** With [button_adc_init]; the name is not NULL and not used further. *)
Definition button_add_adc (id channel vol_ref vol_range : Z) (s : srv) : Z * srv :=
  if decide (vol_ref <> 0) then
    if decide (buttton_check id s < 0) then (- EINVAL, s)
    else
      let port := u8 channel in
      let '(h, s) := match button_adc_find port (adcs s) (button_head s) with
                     | Some h => (h, s)
                     | None => (length (adcs s), set_adcs (adcs s ++ [(port, true)]) s)
                     end in
      (0, timer_start (set_adc_flag 1
            (button_add (new_button id (Adc channel vol_ref vol_range (Some h))) s)))
  else (- EINVAL, s).

Definition event_check (evt_id : Z) (s : srv) : Z :=
  if decide (Exists (fun n => event_id n = evt_id) (event_node_head s)) then -1 else 0.

(** Is a node with this many buttons there whose first element equals the new one's? *)
Definition event_param_check (buttons : list button_evt) (s : srv) : outcome Z :=
  if decide (Forall (fun e => button_find (evt_button_id e) s <> None) buttons) then
    r ← find_node (fun node => bool_decide (zlen buttons = button_count node)) buttons (event_node_head s);
    Ret (match r with Some _ => -1 | None => 0 end)
  else Ret (-1).

Definition is_multi (e : button_evt) : bool :=
  bool_decide (evt_press_type e = BUTTON_PRESS_DOUBLE \/ evt_press_type e = BUTTON_PRESS_TRIPLE).

Fixpoint event_buttons_count (buttons : list button_evt) : Z :=
  match buttons with
  | [] => 0
  | e :: buttons =>
      (if is_multi e then (evt_press_type e - 1) * 2 else 1) + event_buttons_count buttons
  end.

(** What one element is stored as; the array was zeroed. *)
Definition copy1 (e : button_evt) : list button_evt :=
  if is_multi e then
    concat (replicate (Z.to_nat (evt_press_type e - 1))
              [Evt (evt_button_id e) BUTTON_PRESS_DOWN 0; Evt (evt_button_id e) BUTTON_PRESS_UP 0])
  else [Evt (evt_button_id e) (evt_press_type e)
          (if decide (evt_press_type e <> BUTTON_PRESS_LONG_DOWN) then 0 else evt_press_time e)].
Definition event_copy (buttons : list button_evt) : list button_evt := concat (copy1 <$> buttons).

Definition event_pool_new (n : Z) (s : srv) : srv :=
  if decide (event_pool_size s < n)
  then set_pool (replicate (Z.to_nat n) (Evt 0 0 0)) (set_pool_size n s) else s.

(** [bubbleSort]: the inner loop from [j] with [k] turns left, the outer loop from
    [i] with [k] turns left. *)
Fixpoint bubble_inner (k j : nat) (arr : list Z) : list Z :=
  match k with
  | O => arr
  | S k =>
      let a := default 0 (arr !! j) in
      let b := default 0 (arr !! S j) in
      bubble_inner k (S j) (if decide (b < a) then <[S j := a]> (<[j := b]> arr) else arr)
  end.
Fixpoint bubble_outer (k i n : nat) (arr : list Z) : list Z :=
  match k with
  | O => arr
  | S k => bubble_outer k (S i) n (bubble_inner (n - i - 1) 0 arr)
  end.
Definition bubbleSort (arr : list Z) : list Z :=
  bubble_outer (length arr - 1) 0 (length arr) arr.

Definition button_longpress_check (b : button) (time : Z) : Z :=
  if decide (time ∈ press_time b) then -1 else 0.

(** One turn of [event_map_button]. *)
Definition map_button (e : button_evt) (b : button) : button :=
  if decide (evt_press_type e = BUTTON_PRESS_LONG_DOWN /\ button_longpress_check b (evt_press_time e) < 0)
  then b
  else
    let flag := if is_multi e
                then Z.lor (Z.lor (event_flag b) (shl1 BUTTON_PRESS_DOWN)) (shl1 BUTTON_PRESS_UP)
                else Z.lor (event_flag b) (shl1 (evt_press_type e)) in
    let b := set_event_flag flag b in
    if decide (evt_press_type e = BUTTON_PRESS_LONG_DOWN)
    then set_press_time (bubbleSort (press_time b ++ [evt_press_time e])) b else b.

Fixpoint event_map_button (es : list button_evt) (s : srv) : outcome srv :=
  match es with
  | [] => Ret s
  | e :: es =>
      match button_find (evt_button_id e) s with
      | None => Crash
      | Some i => b ← get_button i s; event_map_button es (put_button i (map_button e b) s)
      end
  end.

(** [buttons] is the array with its length [button_count]; [None] is NULL, and the
    callback 0 is NULL. *)
Definition button_add_event (evt_id : Z) (buttons : option (list button_evt)) (cb prv : Z) (s : srv)
  : outcome (Z * srv) :=
  match buttons with
  | None => Ret (- EINVAL, s)
  | Some buttons =>
      if decide (zlen buttons <> 0 /\ cb <> 0 /\ zlen buttons < 4) then
        if decide (event_check evt_id s < 0) then Ret (- EINVAL, s)
        else
          ret ← event_param_check buttons s;
          if decide (ret < 0) then Ret (-1, s)
          else
            let cnt := event_buttons_count buttons in
            let node := Event evt_id (event_copy buttons) cnt 0 cb prv in
            let s := event_pool_new cnt (set_nodes (event_node_head s ++ [node]) s) in
            s ← event_map_button (ebuttons node) s;
            Ret (0, s)
      else Ret (- EINVAL, s)
  end.

Definition button_is_pressed (id : Z) (s : srv) : Z * option bool :=
  match button_find id s with
  | None => (-1, None)
  | Some i => (0, is_pressed <$> button_head s !! i)
  end.

Definition button_init (s : srv) : Z * srv :=
  if decide (inited s <> 0) then (-1, s)
  else (0, Srv _ (Some false) 0 0 1 [] [] 0 [] 0 0 (g_adc_start_read s) (g_adc_value s) (adcs s) (calls s) (wld s)).

(** [button_adc_deinit]; freeing a device twice is a crash.  [gpio_pin_deinit] has
    its own handle. *)
Definition adc_deinit (h : option nat) (s : srv) : outcome srv :=
  match h with
  | None => Ret s
  | Some h =>
      match adcs s !! h with
      | Some (port, true) => Ret (set_adcs (<[h := (port, false)]> (adcs s)) s)
      | _ => Crash
      end
  end.

Fixpoint deinit_buttons (bs : list button) (s : srv) : outcome srv :=
  match bs with
  | [] => Ret (set_buttons [] s)
  | b :: bs =>
      s ← (match param b with Adc _ _ _ h => adc_deinit h s | Gpio _ _ _ _ => Ret s end);
      deinit_buttons bs s
  end.

Definition button_deinit (s : srv) : outcome (Z * srv) :=
  if decide (inited s = 0) then Ret (-1, s)
  else
    s ← deinit_buttons (button_head s) (set_tmr None s);
    Ret (0, set_inited 0 (set_pool_size 0 (set_pool [] (set_nodes [] s)))).

(** ** The product's buttons, [button_gpio.c] *)

Definition BUTTON_ID_NULL : Z := 0.
Definition BUTTON_ID_VOL_UP : Z := 1.
Definition BUTTON_ID_VOL_DOWN : Z := 2.
Definition BUTTON_ID_PLAY : Z := 4.
Definition BUTTON_ID_USER : Z := 5.
Definition KEY_MSG_VOL_UP : Z := 0.
Definition KEY_MSG_VOL_DOWN : Z := 1.
Definition KEY_MSG_PLAY : Z := 3.
Definition KEY_MSG_USER : Z := 4.
Definition KEY_MSG_FACTORY : Z := 9.
Definition KEY_MSG_VOL_UP_0 : Z := 13.
Definition KEY_MSG_VOL_DOWN_0 : Z := 14.

Definition button_gpio_confs : list (Z * Z * Z) :=
  [(BUTTON_ID_VOL_UP, 11, LOW_LEVEL); (BUTTON_ID_VOL_DOWN, 5, LOW_LEVEL);
   (BUTTON_ID_PLAY, 24, HIGH_LEVEL); (BUTTON_ID_USER, 19, LOW_LEVEL)].

(** Two button ids, message, kind of press, time. *)
Definition button_event_confs : list (Z * Z * Z * Z * Z) :=
  [(BUTTON_ID_VOL_UP, BUTTON_ID_NULL, KEY_MSG_VOL_UP, BUTTON_PRESS_UP, 0);
   (BUTTON_ID_VOL_UP, BUTTON_ID_NULL, KEY_MSG_VOL_UP_0, BUTTON_PRESS_DOWN, 0);
   (BUTTON_ID_VOL_DOWN, BUTTON_ID_NULL, KEY_MSG_VOL_DOWN, BUTTON_PRESS_UP, 0);
   (BUTTON_ID_VOL_DOWN, BUTTON_ID_NULL, KEY_MSG_VOL_DOWN_0, BUTTON_PRESS_DOWN, 0);
   (BUTTON_ID_PLAY, BUTTON_ID_NULL, KEY_MSG_PLAY, BUTTON_PRESS_UP, 0);
   (BUTTON_ID_USER, BUTTON_ID_NULL, KEY_MSG_FACTORY, BUTTON_PRESS_LONG_DOWN, 6000);
   (BUTTON_ID_USER, BUTTON_ID_NULL, KEY_MSG_USER, BUTTON_PRESS_UP, 0)].

Fixpoint add_gpios (confs : list (Z * Z * Z)) (s : srv) : srv :=
  match confs with
  | [] => s
  | (id, pin, level) :: confs => add_gpios confs (button_add_gpio id pin level s).2
  end.

Fixpoint add_events (confs : list (Z * Z * Z * Z * Z)) (cb prv : Z) (s : srv) : outcome srv :=
  match confs with
  | [] => Ret s
  | (id1, id2, msg, type, time) :: confs =>
      '(_, s) ← button_add_event msg
                  (Some (if decide (id2 = BUTTON_ID_NULL) then [Evt id1 type time]
                         else [Evt id1 BUTTON_PRESS_LONG_DOWN time; Evt id2 BUTTON_PRESS_LONG_DOWN time])) cb prv s;
      add_events confs cb prv s
  end.

Definition board_button_init (keymsg_cb prv : Z) (s : srv) : outcome srv :=
  add_events button_event_confs keymsg_cb prv (add_gpios button_gpio_confs (button_init s).2).

End Service.

(** ** Surroundings for evaluation: pin levels and the time *)

#[export] Instance snapshot : ButtonHal := {|
  world := (Z -> Z) * Z;
  aos_now_ms w := (w.2, w);
  hal_gpio_input_get p w := (w.1 p, w);
  hal_adc_value_multiple_get _ w := (0, (0, 0), w)
|}.
