(* ===== verification/ButtonSort.v ===== *)
(** * Button service: the sort of the long-press times

    [bubbleSort] of [button.c] sorts in place: related to a one-pass bubble on
    lists, from which order and permutation follow. *)

From stdpp Require Import sorting.
From S2P Require Import Prelude Button.

(** One pass of the inner loop, on the list it works on. *)
Fixpoint bubble (a : Z) (l : list Z) : list Z :=
  match l with
  | [] => [a]
  | b :: l => if decide (b < a) then b :: bubble a l else a :: bubble b l
  end.

Lemma length_bubble a l : length (bubble a l) = S (length l).
Proof. revert a. induction l as [|b l IH]; intros a; cbn; [done|]. case_decide; cbn; by rewrite IH. Qed.

Lemma bubble_perm a l : bubble a l ≡ₚ a :: l.
Proof.
  revert a. induction l as [|b l IH]; intros a; cbn; [done|].
  case_decide; rewrite IH; [apply Permutation_swap|done].
Qed.

(** The largest element comes last. *)
Lemma bubble_last a l : exists l' m, bubble a l = l' ++ [m] /\ Forall (fun x => x <= m) l'.
Proof.
  revert a. induction l as [|b l IH]; intros a; cbn; [by exists [], a|].
  assert (forall c l' m x, bubble c l = l' ++ [m] -> Forall (fun x => x <= m) l' -> x <= c -> x <= m) as Hc.
  { intros c l' m x E Hl Hx. assert (c ∈ bubble c l) as Hin by (rewrite bubble_perm; left).
    rewrite E in Hin. apply elem_of_app in Hin as [Hin|Hin].
    - rewrite list.Forall_forall in Hl. specialize (Hl _ Hin). cbn in Hl. lia.
    - apply list_elem_of_singleton in Hin. lia. }
  case_decide as Hd.
  - destruct (IH a) as (l' & m & E & Hl). exists (b :: l'), m. rewrite E. split; [done|].
    constructor; [|done]. apply (Hc a l' m b E Hl). lia.
  - destruct (IH b) as (l' & m & E & Hl). exists (a :: l'), m. rewrite E. split; [done|].
    constructor; [|done]. apply (Hc b l' m a E Hl). lia.
Qed.

Lemma bubble_inner_eq p a l rest :
  bubble_inner (length l) (length p) (p ++ a :: l ++ rest) = p ++ bubble a l ++ rest.
Proof.
  revert p a. induction l as [|b l IH]; intros p a; [done|]. cbn [length bubble_inner app].
  rewrite (list_lookup_middle p (b :: l ++ rest) a (length p) eq_refl).
  assert (forall x y, (p ++ x :: y :: l ++ rest) = (p ++ [x]) ++ y :: l ++ rest) as Hmid
    by (intros; by rewrite <- app_assoc).
  assert ((p ++ a :: b :: l ++ rest) !! S (length p) = Some b) as ->.
  { rewrite Hmid. apply list_lookup_middle. rewrite length_app. cbn. lia. }
  cbn [default from_option id bubble].
  assert (S (length p) = length (p ++ [a])) as Hlen by (rewrite length_app; cbn; lia).
  case_decide.
  - assert (<[S (length p) := a]> (<[length p := b]> (p ++ a :: b :: l ++ rest)) = (p ++ [b]) ++ a :: l ++ rest) as ->.
    { rewrite <- (Nat.add_0_r (length p)) at 2. rewrite insert_app_r. cbn [insert list_insert].
      rewrite Hmid, Hlen. replace (length (p ++ [a])) with (length (p ++ [b]) + 0)%nat
        by (rewrite !length_app; cbn; lia). by rewrite insert_app_r. }
    replace (S (length p)) with (length (p ++ [b])) by (rewrite length_app; cbn; lia).
    rewrite IH. by rewrite <- app_assoc.
  - rewrite Hmid, Hlen, IH. by rewrite <- app_assoc.
Qed.

Lemma bubble_outer_ok k : forall i n l rest,
  n = (i + length l)%nat -> k = (length l - 1)%nat -> length rest = i ->
  StronglySorted Z.le rest -> Forall (fun x => Forall (fun y => x <= y) rest) l ->
  StronglySorted Z.le (bubble_outer k i n (l ++ rest)) /\ bubble_outer k i n (l ++ rest) ≡ₚ l ++ rest.
Proof.
  induction k as [|k IH]; intros i n l rest Hn Hk Hr Hs Hl; cbn [bubble_outer].
  - split; [|done]. destruct l as [|a [|b l]]; cbn in *; [done| |lia].
    constructor; [done|]. by inversion Hl.
  - destruct l as [|a l]; [cbn in Hk; lia|]. cbn [length] in *.
    assert (bubble_inner (n - i - 1) 0 ((a :: l) ++ rest) = bubble a l ++ rest) as ->.
    { replace (n - i - 1)%nat with (length l) by lia. apply (bubble_inner_eq [] a l rest). }
    destruct (bubble_last a l) as (l' & m & E & Hm).
    pose proof (bubble_perm a l) as Hperm. pose proof (length_bubble a l) as Hlen.
    rewrite E in Hperm, Hlen. rewrite length_app in Hlen. cbn in Hlen.
    assert (Forall (fun x => Forall (fun y => x <= y) rest) (l' ++ [m])) as Hl2 by (by rewrite Hperm).
    apply Forall_app in Hl2 as [Hl2 Hm2]. rewrite Forall_singleton in Hm2.
    rewrite E, <- app_assoc. cbn [app].
    destruct (IH (S i) n l' (m :: rest)) as [IH1 IH2]; cbn [length]; try lia.
    + constructor; [done|exact Hm2].
    + apply list.Forall_forall. intros x Hx. constructor.
      * rewrite list.Forall_forall in Hm. by apply Hm.
      * rewrite list.Forall_forall in Hl2. by apply Hl2.
    + split; [done|]. rewrite IH2. change (m :: rest) with ([m] ++ rest). by rewrite app_assoc, Hperm.
Qed.

Lemma bubbleSort_ok arr : StronglySorted Z.le (bubbleSort arr) /\ bubbleSort arr ≡ₚ arr.
Proof.
  pose proof (bubble_outer_ok (length arr - 1) 0 (length arr) arr []) as H.
  rewrite app_nil_r in H. apply H; try done; [constructor|]. apply list.Forall_forall. intros. constructor.
Qed.
