(* ===== verification/ButtonPool.v ===== *)
(** * Button service: the event pool

    What [event_manage] and [event_pool_reset] do to the pool and which callbacks
    they make, as equations; they stay inside the pool and change nothing else. *)

From S2P Require Import Prelude Button.

(** The comparison looks at the first elements only. *)
Lemma compare_evt_0 e1 e2 : compare_evt e1 e2 = 0 <-> e1 = e2.
Proof.
  destruct e1 as [a b c], e2 as [a' b' c']. unfold compare_evt. cbn.
  split; [|intros [= -> -> ->]; repeat case_decide; (lia || congruence)].
  repeat case_decide; intros; try lia.
  repeat match goal with H : ~ _ <> _ |- _ => apply dec_stable in H end. congruence.
Qed.

(** A node that takes part in the matching and begins like the pool. *)
Definition begins (e : button_evt) (node : event_node) : bool :=
  bool_decide (head (ebuttons node) = Some e).
Definition matches (cond : event_node -> bool) (e : button_evt) (node : event_node) : bool :=
  cond node && begins e node.
Definition mark (cond : event_node -> bool) (nd : event_node -> Z) (e : button_evt) (node : event_node) :=
  if matches cond e node then set_event_depth (nd node) node else node.

(** The index of the last match. *)
Fixpoint last_match (cond : event_node -> bool) (e : button_evt) (i : nat) (nodes : list event_node)
  (found : option nat) : option nat :=
  match nodes with
  | [] => found
  | n :: nodes => last_match cond e (S i) nodes (if matches cond e n then Some i else found)
  end.

Fixpoint first_match (cond : event_node -> bool) (e : button_evt) (nodes : list event_node) : option event_node :=
  match nodes with
  | [] => None
  | n :: nodes => if matches cond e n then Some n else first_match cond e nodes
  end.

Record node_ok (size : Z) (n : event_node) : Prop := {
  no_count : button_count n = zlen (ebuttons n);
  no_pos : 0 < button_count n;
  no_size : button_count n <= size
}.

Lemma node_ok_head size n : node_ok size n -> exists e es, ebuttons n = e :: es.
Proof. intros [Hc Hp _]. destruct (ebuttons n); [rewrite zlen_nil in Hc; lia|eauto]. Qed.

Lemma node_ok_depth size d n : node_ok size n -> node_ok size (set_event_depth d n).
Proof. intros [? ? ?]. by split. Qed.

Lemma mark_ok size cond nd e n : node_ok size n -> node_ok size (mark cond nd e n).
Proof. unfold mark. destruct (matches cond e n); [apply node_ok_depth|done]. Qed.

Lemma compare_begins size n e pool :
  node_ok size n -> exists r, compare_str_mem (ebuttons n) (e :: pool) = Ret r /\
    bool_decide (r = 0) = begins e n.
Proof.
  intros Hn. destruct (node_ok_head _ _ Hn) as (e' & es & E). unfold begins. rewrite E. cbn.
  eexists. split; [done|]. apply bool_decide_ext. rewrite compare_evt_0. split; congruence.
Qed.

Section Lists.
Context (size : Z) (cond : event_node -> bool) (e : button_evt) (pool : list button_evt).

Lemma scan_nodes_eq nd i nodes found :
  Forall (node_ok size) nodes ->
  scan_nodes cond nd (e :: pool) i nodes found =
    Ret (mark cond nd e <$> nodes, last_match cond e i nodes found).
Proof.
  intros H. revert i found. induction H as [|n nodes Hn _ IH]; intros i found; [done|].
  cbn [scan_nodes last_match fmap list_fmap]. unfold mark at 1, matches. destruct (cond n).
  - destruct (compare_begins size n e pool Hn) as (r & -> & Hr). cbn [mbind outcome_bind andb].
    rewrite <- Hr. destruct (decide (r = 0)) as [Hd|Hd].
    + rewrite bool_decide_eq_true_2 by done. cbn [mbind outcome_bind].
      rewrite (decide_True (P := 0 < button_count n)) by apply Hn. by rewrite IH.
    + rewrite bool_decide_eq_false_2 by done. cbn [mbind outcome_bind]. by rewrite IH.
  - cbn [mbind outcome_bind andb]. by rewrite IH.
Qed.

Lemma find_node_eq nodes :
  Forall (node_ok size) nodes -> find_node cond (e :: pool) nodes = Ret (first_match cond e nodes).
Proof.
  intros H. induction H as [|n nodes Hn _ IH]; [done|]. cbn [find_node first_match]. unfold matches.
  destruct (cond n); cbn [andb]; [|done].
  destruct (compare_begins size n e pool Hn) as (r & -> & <-). cbn [mbind outcome_bind].
  destruct (decide (r = 0)); [by rewrite bool_decide_eq_true_2|by rewrite bool_decide_eq_false_2].
Qed.

Lemma last_match_spec i nodes found :
  match last_match cond e i nodes found with
  | None => found = None /\ Forall (fun n => matches cond e n = false) nodes
  | Some j => (Some j = found /\ Forall (fun n => matches cond e n = false) nodes) \/
              (i <= j)%nat /\ exists n, nodes !! (j - i)%nat = Some n /\ matches cond e n = true
  end.
Proof.
  revert i found. induction nodes as [|n nodes IH]; intros i found; cbn [last_match].
  { destruct found; auto. }
  specialize (IH (S i) (if matches cond e n then Some i else found)).
  destruct (last_match _ _ _ _ _) as [j|] eqn:E.
  - destruct IH as [[Hj Hf]|(Hj & n' & Hn & Hm)].
    + destruct (matches cond e n) eqn:Em; [|left; by split; [|constructor]]. injection Hj as ->. right.
      split; [lia|]. exists n. by rewrite Nat.sub_diag.
    + right. split; [lia|]. exists n'. split; [|done]. by replace (j - i)%nat with (S (j - S i)) by lia.
  - destruct IH as [Hj Hf]. destruct (matches cond e n) eqn:Em; [done|]. split; [done|by constructor].
Qed.

Lemma first_match_spec nodes :
  match first_match cond e nodes with
  | None => Forall (fun n => matches cond e n = false) nodes
  | Some n => n ∈ nodes /\ matches cond e n = true
  end.
Proof.
  induction nodes as [|n nodes IH]; cbn; [constructor|]. destruct (matches cond e n) eqn:E.
  - split; [left|done].
  - destruct (first_match cond e nodes); [destruct IH; split; [by right|done]|by constructor].
Qed.
End Lists.

Section Pool.
Context `{BH : ButtonHal}.

(** [s] with other nodes, pool, depth and calls. *)
Definition repool (ns : list event_node) (d : Z) (p : list button_evt) (c : list (Z * Z * Z)) (s : srv) : srv :=
  set_nodes ns (set_depth d (set_pool p (set_calls c s))).

Definition cb_of (n : event_node) : Z * Z * Z := (evt_cb n, event_id n, priv n).

Record pool_ok (s : srv) : Prop := {
  po_nodes : Forall (node_ok (event_pool_size s)) (event_node_head s);
  po_depth : 0 <= event_pool_depth s <= event_pool_size s;
  po_pool : zlen (event_pool s) = event_pool_size s
}.

(** What the operations on the pool do at most. *)
Definition repooled (s s' : srv) : Prop :=
  exists ns d p c, s' = repool ns d p c s /\ pool_ok s' /\ (c = calls s \/ exists c', c = calls s ++ c').

Lemma repool_eq s : s = repool (event_node_head s) (event_pool_depth s) (event_pool s) (calls s) s.
Proof. by destruct s. Qed.

Lemma repool_repool ns d p c ns' d' p' c' s :
  repool ns d p c (repool ns' d' p' c' s) = repool ns d p c s.
Proof. reflexivity. Qed.

Lemma clean_eq n s :
  pool_ok s -> 0 <= n <= event_pool_depth s -> exists p,
  event_pool_clean (Some n) s = Ret (repool (event_node_head s) (event_pool_depth s - n) p (calls s) s) /\
  p = ztake (event_pool_depth s - n) (zdrop n (event_pool s)) ++ zdrop (event_pool_depth s - n) (event_pool s) /\
  zlen p = zlen (event_pool s).
Proof.
  intros [_ Hd Hp] Hn.
  exists (ztake (event_pool_depth s - n) (zdrop n (event_pool s)) ++ zdrop (event_pool_depth s - n) (event_pool s)).
  unfold event_pool_clean. rewrite decide_True by lia.
  split; [by destruct s|]. split; [done|]. rewrite zlen_app, zlen_ztake, zlen_zdrop; [lia|lia|].
  rewrite zlen_zdrop by lia. lia.
Qed.

Lemma pool_ok_repool s ns d p c :
  Forall (node_ok (event_pool_size s)) ns -> 0 <= d <= event_pool_size s -> zlen p = event_pool_size s ->
  pool_ok (repool ns d p c s).
Proof. by split. Qed.

Lemma pool_head s n ns : pool_ok s -> event_node_head s = n :: ns -> exists e p, event_pool s = e :: p.
Proof.
  intros [Hn Hd Hp] E. rewrite E in Hn. inversion Hn as [|? ? [_ ? ?] _]; subst.
  destruct (event_pool s); [rewrite zlen_nil in Hp; lia|eauto].
Qed.

Lemma marked_ok s cond nd e :
  pool_ok s -> Forall (node_ok (event_pool_size s)) (mark cond nd e <$> event_node_head s).
Proof. intros [Hn _ _]. apply Forall_fmap. eapply list.Forall_impl; [exact Hn|]. intros n. apply mark_ok. Qed.

(** [event_manage]: the last node that begins like the pool and is long enough
    fires when the pool has its length; when there is none, the first node one
    shorter than the pool fires. *)
Lemma event_manage_eq s e p :
  pool_ok s -> event_pool s = e :: p ->
  let d := event_pool_depth s in
  let long := fun n => bool_decide (d <= button_count n) in
  let marked := mark long (fun _ => d) e <$> event_node_head s in
  exists p', zlen p' = event_pool_size s /\
  event_manage s = Ret
    match last_match long e 0 (event_node_head s) None with
    | Some j =>
        match event_node_head s !! j with
        | Some n => if decide (d = button_count n) then repool marked 0 p' (calls s ++ [cb_of n]) s
                    else repool marked d (event_pool s) (calls s) s
        | None => s
        end
    | None =>
        match first_match (fun n => bool_decide (button_count n = d - 1)) e (event_node_head s) with
        | Some n => if decide (d = 0) then s else repool (event_node_head s) 1 p' (calls s ++ [cb_of n]) s
        | None => s
        end
    end.
Proof.
  intros Hok Ep d long marked. pose proof Hok as [Hn Hd Hp]. unfold event_manage. fold d long.
  rewrite Ep, (scan_nodes_eq (event_pool_size s)) by done. cbn [mbind outcome_bind]. fold marked.
  assert (Forall (node_ok (event_pool_size s)) marked) as Hmk
    by (by apply marked_ok).
  pose proof (last_match_spec long e 0 (event_node_head s) None) as Hl.
  destruct (last_match long e 0 (event_node_head s) None) as [j|] eqn:El.
  - destruct Hl as [[? _]|(_ & n & Hj & Hm)]; [done|]. rewrite Nat.sub_0_r in Hj. rewrite Hj.
    rewrite (Forall_lookup (node_ok _)) in Hn. pose proof (Hn _ _ Hj) as Hnok.
    assert (marked !! j = Some (set_event_depth d n)) as Hmj
      by (unfold marked; rewrite list_lookup_fmap, Hj; cbn; unfold mark; by rewrite Hm).
    unfold fire. change (event_node_head (set_nodes marked s)) with marked. rewrite Hmj.
    change (event_depth (set_event_depth d n)) with d. change (button_count (set_event_depth d n)) with (button_count n).
    case_decide as Hc.
    + destruct (clean_eq (button_count n) (call (set_event_depth d n) (set_nodes marked s))) as (p' & E & _ & Hp').
      { split; [done|done|done]. } { destruct Hnok. change (event_pool_depth (call _ _)) with d. lia. }
      exists p'. split; [rewrite Hp'; done|]. rewrite E. cbn [mbind outcome_bind].
      rewrite (decide_False (P := Some j = None /\ _)) by (intros [? _]; done).
      change (event_pool_depth (call (set_event_depth d n) (set_nodes marked s))) with d.
      rewrite Hc, Z.sub_diag. by destruct s.
    + exists (event_pool s). split; [done|]. cbn [mbind outcome_bind].
      rewrite (decide_False (P := Some j = None /\ _)) by (intros [? _]; done). by rewrite <- Ep.
  - destruct Hl as [_ Hnone].
    assert (marked = event_node_head s) as Hmk2.
    { unfold marked. clear -Hnone. induction Hnone as [|n ns Hn _ IH]; [done|]. cbn. rewrite IH.
      unfold mark. by rewrite Hn. }
    rewrite Hmk2. cbn [fire mbind outcome_bind].
    change (event_pool_depth (set_nodes (event_node_head s) s)) with d.
    change (event_pool (set_nodes (event_node_head s) s)) with (event_pool s).
    assert (set_nodes (event_node_head s) s = s) as -> by (by destruct s).
    destruct (decide (d = 0)) as [Hd0|Hd0].
    { exists (event_pool s). split; [done|]. rewrite decide_False by (intros [_ ?]; done).
      by destruct (first_match _ _ _). }
    rewrite decide_True by done. rewrite Ep, (find_node_eq (event_pool_size s)) by done. cbn [mbind outcome_bind].
    pose proof (first_match_spec (fun n => bool_decide (button_count n = d - 1)) e (event_node_head s)) as Hf.
    destruct (first_match _ _ _) as [n|]; [|exists (event_pool s); split; [done|by destruct s]].
    destruct Hf as [Hin Hm]. rewrite list.Forall_forall in Hn. pose proof (Hn _ Hin) as [_ Hpos Hsz].
    unfold matches in Hm. apply andb_true_iff in Hm as [Hc _]. apply bool_decide_eq_true in Hc.
    destruct (clean_eq (button_count n) (call n s)) as (p' & E & _ & Hp').
    { split; [apply Hok|done|done]. } { change (event_pool_depth (call n s)) with d. lia. }
    exists p'. split; [by rewrite Hp'|]. rewrite E. change (event_pool_depth (call n s)) with d.
    replace (d - button_count n) with 1 by lia. by destruct s.
Qed.

Lemma repooled_refl s : pool_ok s -> repooled s s.
Proof. intros H. exists (event_node_head s), (event_pool_depth s), (event_pool s), (calls s). rewrite <- repool_eq. auto. Qed.

Lemma repooled_trans s1 s2 s3 : repooled s1 s2 -> repooled s2 s3 -> repooled s1 s3.
Proof.
  intros (ns & d & p & c & -> & _ & Hc) (ns' & d' & p' & c' & -> & Hok & Hc'). rewrite repool_repool in *.
  exists ns', d', p', c'. split; [done|]. split; [done|]. change (calls (repool ns d p c s1)) with c in Hc'. right.
  assert (exists x, c = calls s1 ++ x) as [x ->] by (destruct Hc as [->|?]; [exists []; by rewrite app_nil_r|done]).
  destruct Hc' as [->|[y ->]]; [by exists x|]. exists (x ++ y). by rewrite app_assoc.
Qed.

Lemma event_manage_ok s : pool_ok s -> exists s', event_manage s = Ret s' /\ repooled s s'.
Proof.
  intros Hok. pose proof Hok as [Hn Hd Hp]. destruct (event_node_head s) as [|n0 ns] eqn:En.
  { unfold event_manage. rewrite En. cbn [scan_nodes mbind outcome_bind fire find_node].
    assert (set_nodes [] s = s) as -> by (destruct s; cbn in *; by subst). rewrite En. cbn [find_node].
    exists s. split; [|by apply repooled_refl]. by case_decide. }
  destruct (pool_head s n0 ns Hok En) as (e & p & Ep). destruct (event_manage_eq s e p Hok Ep) as (p' & Hp' & ->).
  eexists. split; [done|]. rewrite En in *.
  pose proof (marked_ok s (fun n => bool_decide (event_pool_depth s <= button_count n)) (fun _ => event_pool_depth s) e Hok) as Hmk.
  rewrite En in Hmk. rewrite <- En in Hn.
  destruct (last_match _ _ _ _ _) as [j|].
  - destruct ((n0 :: ns) !! j) as [n|]; [|by apply repooled_refl]. case_decide.
    + eexists _, _, _, _. split; [done|]. split; [apply pool_ok_repool; (done || lia)|right; by eexists].
    + eexists _, _, _, _. split; [done|]. split; [by apply pool_ok_repool|by left].
  - destruct (first_match _ _ _) as [n|] eqn:Ef; [|by apply repooled_refl].
    case_decide as Hd0; [by apply repooled_refl|]. eexists _, _, _, _. split; [done|].
    split; [apply pool_ok_repool; [by rewrite <- En|lia|done]|right; by eexists].
Qed.

Lemma flush_ok n : forall i s,
  pool_ok s -> Z.of_nat (i + n) <= event_pool_size s ->
  exists c, flush_pool n i s = Ret (set_calls (calls s ++ c) s).
Proof.
  induction n as [|n IH]; intros i s Hok Hi; cbn [flush_pool].
  { exists []. rewrite app_nil_r. by destruct s. }
  pose proof Hok as [Hn Hd Hp]. destruct (lookup_lt_is_Some_2 (event_pool s) i) as [e He]; [unfold zlen in Hp; lia|].
  rewrite He. unfold event_find. rewrite (find_node_eq (event_pool_size s)) by done. cbn [mbind outcome_bind].
  destruct (first_match _ _ _) as [nd|].
  - destruct (IH (S i) (call nd s)) as [c ->]; [by split|cbn; lia|].
    exists (cb_of nd :: c). unfold call. cbn [calls set_calls]. rewrite <- app_assoc. by destruct s.
  - apply IH; [done|lia].
Qed.

(** [event_pool_reset] empties the pool. *)
Lemma event_pool_reset_ok s : pool_ok s ->
  exists s', event_pool_reset s = Ret s' /\ repooled s s' /\ event_pool_depth s' = 0.
Proof.
  intros Hok. pose proof Hok as [Hn Hd Hp]. unfold event_pool_reset.
  set (cond := fun node => bool_decide (button_count node = event_pool_depth s)).
  assert (exists ns e_sub, scan_nodes cond button_count (event_pool s) 0 (event_node_head s) None = Ret (ns, e_sub) /\
            Forall (node_ok (event_pool_size s)) ns /\
            (forall j, e_sub = Some j -> exists n, ns !! j = Some n /\ button_count n = event_pool_depth s)) as
    (ns & e_sub & -> & Hns & Hsub).
  { destruct (event_node_head s) as [|n0 ns0] eqn:En; [by exists [], None|]. rewrite <- En in *.
    destruct (pool_head s n0 ns0 Hok En) as (e & p & ->).
    rewrite (scan_nodes_eq (event_pool_size s)) by done. eexists _, _. split; [done|].
    split; [by apply marked_ok|]. intros j Hj. pose proof (last_match_spec cond e 0 (event_node_head s) None) as Hl.
    rewrite Hj in Hl. destruct Hl as [[? _]|(_ & n & Hn' & Hm)]; [done|]. rewrite Nat.sub_0_r in Hn'.
    exists (set_event_depth (button_count n) n). rewrite list_lookup_fmap, Hn'. cbn. unfold mark. rewrite Hm.
    split; [done|]. unfold matches, cond in Hm. apply andb_true_iff in Hm as [Hc _]. by apply bool_decide_eq_true in Hc. }
  cbn [mbind outcome_bind].
  assert (pool_ok (set_nodes ns s)) as Hok2 by (by split).
  assert (exists p c d, 0 <= d <= event_pool_depth s /\ zlen p = event_pool_size s /\
            fire e_sub (set_nodes ns s) = Ret (repool ns d p (calls s ++ c) s)) as (p & c & d & Hdd & Hzp & ->).
  { unfold fire. destruct e_sub as [j|]; [|exists (event_pool s), [], (event_pool_depth s); rewrite app_nil_r; repeat split; (lia || done)].
    destruct (Hsub j eq_refl) as (n & Hj & Hc). change (event_node_head (set_nodes ns s)) with ns. rewrite Hj.
    case_decide.
    - destruct (clean_eq (button_count n) (call n (set_nodes ns s))) as (p' & E & _ & Hp').
      { by split. } { change (event_pool_depth (call _ _)) with (event_pool_depth s). lia. }
      rewrite E. exists p', [cb_of n], 0. split; [lia|]. split; [by rewrite Hp'|].
      change (event_pool_depth (call _ _)) with (event_pool_depth s). rewrite Hc, Z.sub_diag. by destruct s.
    - exists (event_pool s), [], (event_pool_depth s). rewrite app_nil_r. repeat split; (lia || done). }
  cbn [mbind outcome_bind].
  assert (exists c', (match e_sub with
                      | Some _ => Ret (repool ns d p (calls s ++ c) s)
                      | None => flush_pool (Z.to_nat (event_pool_depth (repool ns d p (calls s ++ c) s))) 0
                                  (repool ns d p (calls s ++ c) s)
                      end) = Ret (repool ns d p (calls s ++ c') s)) as [c' ->].
  { destruct e_sub as [j|]; [by exists c|].
    destruct (flush_ok (Z.to_nat d) 0 (repool ns d p (calls s ++ c) s)) as [c' E].
    - by apply pool_ok_repool; [|lia|].
    - change (event_pool_size (repool ns d p (calls s ++ c) s)) with (event_pool_size s). lia.
    - exists (c ++ c'). change (event_pool_depth (repool ns d p (calls s ++ c) s)) with d. rewrite E.
      cbn [calls repool set_nodes set_depth set_pool set_calls]. by rewrite <- app_assoc. }
  cbn [mbind outcome_bind event_pool_clean]. eexists. split; [done|]. split; [|done].
  exists ns, 0, p, (calls s ++ c'). split; [done|]. split; [|right; by eexists].
  by apply (pool_ok_repool s ns 0 p); [|lia|].
Qed.

End Pool.
