(* ===== verification/ButtonProofs.v ===== *)
(** * Button service: its invariant

    Well-formed buttons, nodes and pool; that an interrupt that is off is waited
    for by the timer; and that every operation keeps this and returns. *)

From stdpp Require Import sorting.
From S2P Require Import Prelude Button ButtonSort ButtonPool.

(** A button the timer has to look at. *)
Definition busy (b : button) : Prop := irq_flag b = 1 \/ state b <> NONE.

(** The interrupt is on, or the timer will look at the button. *)
Definition irq_ok (b : button) : Prop :=
  match param b with
  | Gpio _ _ _ on => on = true \/ busy b
  | Adc _ _ _ _ => True
  end.

(** The button has its device. *)
Definition dev_ok (devs : list (Z * bool)) (p : button_param) : Prop :=
  match p with
  | Gpio _ _ hdl _ => hdl = true
  | Adc _ _ _ h => exists n port, h = Some n /\ devs !! n = Some (port, true)
  end.

Record btn_ok (devs : list (Z * bool)) (b : button) : Prop := {
  bo_sorted : StronglySorted Z.le (press_time b);
  bo_sub : 0 <= press_time_subscript b <= zlen (press_time b);
  bo_cnt : state b = CNT -> press_time b <> [] -> press_time_subscript b < zlen (press_time b);
  bo_idle : state b = NONE \/ state b = START -> press_time_subscript b = 0;
  bo_active : active b = 0 \/ active b = 1;
  bo_flag : irq_flag b = 0 \/ irq_flag b = 1;
  bo_dev : dev_ok devs (param b)
}.

Lemma busy_dec b : busy b \/ ~ busy b.
Proof.
  unfold busy. destruct (decide (irq_flag b = 1)); [by left; left|]. destruct (decide (state b = NONE)).
  - right. by intros [?|?].
  - left. by right.
Qed.

Section Service.
Context `{BH : ButtonHal}.

(** [s] with another timer request, ADC globals and world. *)
Definition rehal (t r v : Z) (w : world) (s : srv) : srv :=
  set_start_tmr t (set_adc_start_read r (set_adc_value v (set_wld w s))).

Definition rehaled (s s' : srv) : Prop :=
  exists t r v w, s' = rehal t r v w s /\ (t = start_tmr s \/ t = 1).

Lemma rehaled_refl s : rehaled s s.
Proof. eexists (start_tmr s), (g_adc_start_read s), (g_adc_value s), (wld s). split; [by destruct s|by left]. Qed.

Lemma rehaled_trans s1 s2 s3 : rehaled s1 s2 -> rehaled s2 s3 -> rehaled s1 s3.
Proof.
  intros (t & r & v & w & -> & Ht) (t' & r' & v' & w' & -> & Ht').
  exists t', r', v', w'. split; [done|]. cbn in Ht'. destruct Ht' as [->| ->]; auto.
Qed.

Lemma now_ok s : exists t s', now s = (t, s') /\ rehaled s s' /\ start_tmr s' = start_tmr s.
Proof.
  unfold now. destruct (aos_now_ms (wld s)) as [t w]. eexists _, _. split; [done|]. split; [|done].
  exists (start_tmr s), (g_adc_start_read s), (g_adc_value s), w. split; [by destruct s|by left].
Qed.

Lemma adc_read_ok vref range h s :
  (exists n port, h = Some n /\ adcs s !! n = Some (port, true)) ->
  exists l s', button_adc_read vref range h s = Ret (l, s') /\ rehaled s s' /\ start_tmr s' = start_tmr s.
Proof.
  intros (n & port & -> & Hn). unfold button_adc_read, button_adc_get_value. rewrite Hn.
  destruct (hal_adc_value_multiple_get port (wld s)) as [[ret [v0 v1]] w]. case_decide.
  - set (v := if decide (ret = 0) then _ else _). cbn [mbind outcome_bind]. eexists _, _. split; [done|].
    split; [|done]. exists (start_tmr s), 0, v, w. split; [reflexivity|by left].
  - cbn [mbind outcome_bind]. eexists _, _. split; [done|]. split; [apply rehaled_refl|done].
Qed.

Lemma read_level_ok b s : dev_ok (adcs s) (param b) ->
  exists l s', read_level b s = Ret (l, s') /\ rehaled s s' /\ start_tmr s' = start_tmr s.
Proof.
  unfold read_level. destruct (param b) as [pin level hdl on|ch vref range h]; cbn; intros Hd.
  - unfold gpio_pin_read. destruct (hal_gpio_input_get pin (wld s)) as [val w]. eexists _, _. split; [done|].
    split; [|done]. exists (start_tmr s), (g_adc_start_read s), (g_adc_value s), w. split; [by destruct s|by left].
  - by apply adc_read_ok.
Qed.

(** What a handler does to its button: it stays well-formed, its registration is
    unchanged, and afterwards the timer is requested or the interrupt is on. *)
Record handled (devs : list (Z * bool)) (b b' : button) (s s' : srv) : Prop := {
  hd_ok : btn_ok devs b';
  hd_irq : irq_ok b';
  hd_busy : busy b' -> start_tmr s' = 1;
  hd_srv : rehaled s s';
  hd_id : button_id b' = button_id b;
  hd_times : press_time b' = press_time b;
  hd_flags : event_flag b' = event_flag b
}.

Lemma irq_enable_props b : exists p st, irq_enable b = set_st_ms st (set_param p b) /\
  (forall devs, dev_ok devs (param b) -> dev_ok devs p) /\
  (forall c, irq_ok (set_param p c)).
Proof.
  unfold irq_enable, gpio_irq_enable, button_adc_enable. destruct (param b) as [pin level hdl on|ch vref range h] eqn:E.
  - exists (Gpio pin level hdl true), (st_ms b). split; [by destruct b|]. split; [done|]. intros c. by left.
  - exists (Adc ch vref range h), 0. split; [destruct b; cbn in *; by subst|]. done.
Qed.

Lemma reset_ok devs b : btn_ok devs b -> btn_ok devs (reset b) /\ state (reset b) = NONE.
Proof. intros [Hs Hsub _ _ Ha Hf Hd]. split; [|done]. split; cbn; (done || lia || auto || discriminate). Qed.

(** Turning the interrupt on in an idle button that was not flagged. *)
Lemma enable_handled devs b b0 s s' :
  btn_ok devs b -> state b = NONE -> irq_flag b = 0 -> rehaled s s' ->
  button_id b = button_id b0 -> press_time b = press_time b0 -> event_flag b = event_flag b0 ->
  handled devs b0 (irq_enable b) s s'.
Proof.
  intros [Hs Hsub Hc Hi Ha Hf Hd] Hst Hfl Hre H1 H2 H3. destruct (irq_enable_props b) as (p & st & -> & Hp & Hirq).
  split; cbn; try done.
  - split; cbn; auto.
  - apply Hirq.
  - unfold busy. cbn. intros [?|?]; [lia|done].
Qed.

Lemma rehaled_start s s' : rehaled s s' -> rehaled s (set_start_tmr 1 s').
Proof. intros (t & r & v & w & -> & _). exists 1, r, v, w. split; [done|by right]. Qed.

(** A button that stays in a state other than [NONE], with the timer requested. *)
Lemma wait_handled devs b b0 s s' :
  btn_ok devs b -> state b <> NONE -> start_tmr s' = 1 -> rehaled s s' ->
  button_id b = button_id b0 -> press_time b = press_time b0 -> event_flag b = event_flag b0 ->
  handled devs b0 b s s'.
Proof.
  intros Hok Hst Ht Hre H1 H2 H3. split; try done. unfold irq_ok. destruct (param b); [|done]. right. by right.
Qed.

Lemma cnt_ok devs b s : btn_ok devs b -> state b = CNT ->
  exists b' s', cnt_hdl b s = Ret (b', s') /\ handled devs b b' s s'.
Proof.
  intros [Hs Hsub Hc Hi Ha Hf Hd] Hst. specialize (Hc Hst). unfold cnt_hdl.
  destruct (is_pressed b && bool_decide (zlen (press_time b) <> 0)) eqn:E.
  - apply andb_true_iff in E as [_ E]. apply bool_decide_eq_true in E.
    assert (press_time b <> []) as Hne by (intros E2; rewrite E2 in E; done). specialize (Hc Hne).
    destruct (now_ok s) as (t & s1 & -> & Hre & Ht).
    destruct (mem_get_ok (press_time b) (press_time_subscript b)) as [limit ->]; [lia|].
    cbn [mbind outcome_bind]. eexists _, _. split; [done|].
    case_decide; [|apply wait_handled; try done; [by rewrite Hst|by apply rehaled_start]].
    cbn [press_time set_subscript set_press_type set_active press_time_subscript]. case_decide as Hhi.
    + apply wait_handled; try done; [|by apply rehaled_start]. split; cbn; (done || lia || auto || discriminate || intuition discriminate).
    + apply wait_handled; try done; [|cbn; by rewrite Hst|by apply rehaled_start].
      split; cbn; rewrite ?Hst; (done || lia || auto || intuition discriminate).
  - eexists _, _. split; [done|]. apply wait_handled; try done; [|apply rehaled_start, rehaled_refl].
    split; cbn; (done || lia || auto || intuition discriminate).
Qed.

Lemma high_ok devs b s : btn_ok devs b -> state b = HIGH ->
  handled devs b (high_hdl b s).1 s (high_hdl b s).2.
Proof.
  intros Hok Hst. pose proof Hok as [Hs Hsub Hc Hi Ha Hf Hd]. unfold high_hdl. destruct (is_pressed b); cbn [negb fst snd].
  - apply wait_handled; try done; [by rewrite Hst|apply rehaled_start, rehaled_refl].
  - apply wait_handled; try done; [|apply rehaled_start, rehaled_refl].
    split; cbn; (done || lia || auto || intuition discriminate).
Qed.

Lemma start_ok devs b s : btn_ok devs b -> state b = START -> irq_flag b = 0 ->
  handled devs b (start_hdl b s).1 s (start_hdl b s).2.
Proof.
  intros Hok Hst Hfl. pose proof Hok as [Hs Hsub Hc Hi Ha Hf Hd]. unfold start_hdl. destruct (is_pressed b).
  - destruct (now_ok s) as (t & s1 & -> & Hre & Ht). cbn [fst snd]. case_decide.
    + apply wait_handled; try done; [|by apply rehaled_start].
      split; cbn; try done; [|intuition discriminate]. intros _ Hne. rewrite Hi by auto.
      destruct (press_time b) as [|? l]; [done|]. rewrite zlen_cons. pose proof (zlen_nonneg l). lia.
    + apply wait_handled; try done; [by rewrite Hst|by apply rehaled_start].
  - destruct (reset_ok devs b Hok) as [Hr Hn]. cbn [fst snd]. apply enable_handled; try done. apply rehaled_refl.
Qed.

Lemma none_ok devs b s : btn_ok devs b -> state b = NONE -> irq_flag b = 0 ->
  handled devs b (none_hdl b s).1 s (none_hdl b s).2.
Proof.
  intros Hok Hst Hfl. pose proof Hok as [Hs Hsub Hc Hi Ha Hf Hd]. unfold none_hdl. destruct (is_pressed b); cbn [fst snd].
  - apply wait_handled; try done; [|apply rehaled_start, rehaled_refl].
    split; cbn; (done || lia || auto || intuition discriminate).
  - apply enable_handled; try done. apply rehaled_refl.
Qed.

Lemma handled_active devs b b' s s' a :
  a = 0 \/ a = 1 -> handled devs b b' s s' -> handled devs b (set_active a b') s s'.
Proof. intros Ha [[? ? ? ? ? ? ?] ? ? ? ? ? ?]. split; done. Qed.

Lemma handled_happened devs b b' s s' t :
  handled devs b b' s s' -> handled devs b (set_happened t b') s s'.
Proof. intros [[? ? ? ? ? ? ?] ? ? ? ? ? ?]. split; done. Qed.

Lemma handled_pressed devs b b' s s' p :
  handled devs (set_is_pressed p b) b' s s' -> handled devs b b' s s'.
Proof. intros [? ? ? ? ? ? ?]. by split. Qed.

Lemma handled_after devs b b' s s1 s' :
  rehaled s s1 -> handled devs b b' s1 s' -> handled devs b b' s s'.
Proof. intros H [? ? ? ? ? ? ?]. split; try done. by eapply rehaled_trans. Qed.

Lemma handled_srv devs b b' s s1 s' :
  handled devs b b' s s1 -> rehaled s1 s' -> start_tmr s' = start_tmr s1 -> handled devs b b' s s'.
Proof. intros [? ? ? ? ? ? ?] H E. split; try done; [rewrite E; done|by eapply rehaled_trans]. Qed.

Lemma button_hdl_ok b s : btn_ok (adcs s) b -> irq_flag b = 0 ->
  exists b' s', button_hdl b s = Ret (b', s') /\ handled (adcs s) b b' s s'.
Proof.
  intros Hok Hfl. unfold button_hdl.
  destruct (read_level_ok b s) as (l & s1 & -> & Hre1 & _); [apply Hok|]. cbn [mbind outcome_bind].
  set (b1 := set_is_pressed _ b).
  assert (btn_ok (adcs s) b1) as Hok1 by (destruct Hok; by split).
  assert (exists b2 s2, match state b1 with
      | NONE => Ret (none_hdl b1 s1) | START => Ret (start_hdl b1 s1) | CNT => cnt_hdl b1 s1
      | HIGH => Ret (high_hdl b1 s1) | END => Ret (irq_enable (reset b1), s1) end = Ret (b2, s2) /\
      handled (adcs s) b1 b2 s1 s2) as (b2 & s2 & -> & H2).
  { destruct (state b1) eqn:Es.
    - eexists _, _. split; [by rewrite (surjective_pairing (none_hdl b1 s1))|by apply none_ok].
    - eexists _, _. split; [by rewrite (surjective_pairing (start_hdl b1 s1))|by apply start_ok].
    - by apply cnt_ok.
    - eexists _, _. split; [by rewrite (surjective_pairing (high_hdl b1 s1))|by apply high_ok].
    - eexists _, _. split; [done|]. destruct (reset_ok _ b1 Hok1). apply enable_handled; try done. apply rehaled_refl. }
  cbn [mbind outcome_bind]. apply handled_pressed in H2. apply (handled_after _ _ _ s) in H2; [|done].
  set (b3 := if decide (_ /\ _) then _ else _).
  assert (handled (adcs s) b b3 s s2) as H3.
  { unfold b3. destruct (decide _); [apply handled_active; [by left|done]|done]. }
  destruct (decide (active b3 <> 0)); [|by eexists _, _].
  destruct (now_ok s2) as (t & s3 & -> & Hre3 & Ht3). eexists _, _. split; [done|].
  apply handled_happened. by eapply handled_srv.
Qed.

(** ** The service *)

(** Everything but the timer. *)
Record core_ok (s : srv) : Prop := {
  co_buttons : Forall (btn_ok (adcs s)) (button_head s);
  co_pool : pool_ok s
}.

Record srv_ok (s : srv) : Prop := {
  so_core : core_ok s;
  so_irq : Forall irq_ok (button_head s);
  so_busy : Exists busy (button_head s) -> tmr s = Some true;
  so_adc : adc_flag s <> 0 -> tmr s = Some true;
  so_pool : event_pool_depth s <> 0 -> tmr s = Some true;
  so_tmr : tmr s <> None
}.

Lemma pool_ok_rehaled s s' : rehaled s s' -> pool_ok s -> pool_ok s'.
Proof. intros (t & r & v & w & -> & _) [? ? ?]. by split. Qed.

(** Between its start and its end the timer function has done the buttons before
    [i]: the loop invariant.  [s0] is the state it started from. *)
Record loop_ok (i : nat) (s0 s : srv) : Prop := {
  lo_core : core_ok s;
  lo_done : forall j b, (j < i)%nat -> button_head s !! j = Some b -> irq_ok b /\ (busy b -> start_tmr s = 1);
  lo_rest : forall j b, (i <= j)%nat -> button_head s !! j = Some b -> irq_ok b;
  lo_len : length (button_head s) = length (button_head s0);
  lo_tmr : tmr s = tmr s0;
  lo_adc : adc_flag s = adc_flag s0
}.

Lemma event_pool_add_ok i s b :
  core_ok s -> button_head s !! i = Some b -> exists r s', event_pool_add i s = Ret (r, s') /\
    core_ok s' /\ (button_head s' = button_head s \/ button_head s' = <[i := set_active 0 b]> (button_head s)) /\
    tmr s' = tmr s /\ adc_flag s' = adc_flag s /\ start_tmr s' = start_tmr s.
Proof.
  intros [Hb [Hn Hd Hp]] Hi. unfold event_pool_add, get_button. case_decide.
  { eexists _, _. split; [done|]. split; [by split; [|split]|]. auto. }
  rewrite Hi. cbn [mbind outcome_bind]. pose proof (proj1 (Forall_lookup _ _) Hb _ _ Hi) as Hbi.
  assert (exists time, (if decide (press_time_subscript b <> 0)
            then mem_get (press_time b) (press_time_subscript b - 1) else Ret 0) = Ret time) as [time ->].
  { destruct (decide _); [|by eexists]. apply mem_get_ok. destruct (bo_sub _ _ Hbi). lia. }
  cbn [mbind outcome_bind]. rewrite decide_True by lia. eexists _, _. split; [done|].
  split; [|split; [by right|done]]. split; cbn.
  - apply Forall_insert; [done|]. destruct Hbi. split; cbn; try done. by left.
  - split; cbn; [done|lia|]. unfold zlen in *. by rewrite length_insert.
Qed.

Lemma core_repooled s s' : core_ok s -> repooled s s' ->
  core_ok s' /\ button_head s' = button_head s /\ tmr s' = tmr s /\ adc_flag s' = adc_flag s /\ start_tmr s' = start_tmr s.
Proof. intros [Hb _] (ns & d & p & c & -> & Hp & _). split; [by split|done]. Qed.

(** Nothing in [active_button] touches a button but [active]. *)
Lemma active_button_ok i s b :
  core_ok s -> button_head s !! i = Some b -> exists s', active_button i s = Ret s' /\
    core_ok s' /\ (button_head s' = button_head s \/ button_head s' = <[i := set_active 0 b]> (button_head s)) /\
    tmr s' = tmr s /\ adc_flag s' = adc_flag s /\ start_tmr s' = start_tmr s.
Proof.
  intros Hc Hi. unfold active_button, get_button. rewrite Hi. cbn [mbind outcome_bind].
  set (s1 := set_srv_happened (happened_ms b) s).
  assert (core_ok s1) as Hc1 by (destruct Hc as [? [? ? ?]]; by split).
  assert (exists s', (if decide (srv_happened_ms s = 0 \/ happened_ms b - srv_happened_ms s < MAX_EVENT_TMOUT) then
         '(r, s) ← event_pool_add i s1; s ← (if decide (r < 0) then event_pool_reset s else Ret s); event_manage s
       else s ← event_pool_reset s1; '(_, s) ← event_pool_add i s; event_manage s) = Ret s' /\ core_ok s' /\
      (button_head s' = button_head s \/ button_head s' = <[i := set_active 0 b]> (button_head s)) /\
    tmr s' = tmr s /\ adc_flag s' = adc_flag s /\ start_tmr s' = start_tmr s) as (s' & -> & Hc' & H).
  { destruct (decide _).
    - destruct (event_pool_add_ok i s1 b Hc1 Hi) as (r & s2 & -> & Hc2 & Hb2 & Ht2 & Ha2 & Hs2).
      cbn [mbind outcome_bind].
      assert (exists s3, (if decide (r < 0) then event_pool_reset s2 else Ret s2) = Ret s3 /\ repooled s2 s3) as (s3 & -> & Hr3).
      { destruct (decide _); [|eexists; split; [done|apply repooled_refl, Hc2]].
        destruct (event_pool_reset_ok s2) as (s3 & -> & Hr3 & _); [apply Hc2|by eexists]. }
      destruct (core_repooled _ _ Hc2 Hr3) as (Hc3 & Hb3 & Ht3 & Ha3 & Hs3). cbn [mbind outcome_bind].
      destruct (event_manage_ok s3) as (s4 & -> & Hr4); [apply Hc3|].
      destruct (core_repooled _ _ Hc3 Hr4) as (Hc4 & Hb4 & Ht4 & Ha4 & Hs4).
      exists s4. split; [done|]. split; [done|]. rewrite Hb4, Hb3, Ht4, Ht3, Ha4, Ha3, Hs4, Hs3. auto.
    - destruct (event_pool_reset_ok s1) as (s2 & -> & Hr2 & _); [apply Hc1|].
      destruct (core_repooled _ _ Hc1 Hr2) as (Hc2 & Hb2 & Ht2 & Ha2 & Hs2). cbn [mbind outcome_bind].
      destruct (event_pool_add_ok i s2 b Hc2) as (r & s3 & -> & Hc3 & Hb3 & Ht3 & Ha3 & Hs3); [by rewrite Hb2|].
      cbn [mbind outcome_bind]. destruct (event_manage_ok s3) as (s4 & -> & Hr4); [apply Hc3|].
      destruct (core_repooled _ _ Hc3 Hr4) as (Hc4 & Hb4 & Ht4 & Ha4 & Hs4).
      exists s4. split; [done|]. split; [done|]. rewrite Hb4, Ht4, Ha4, Hs4, Ht3, Ha3, Hs3, Ht2, Ha2, Hs2.
      rewrite Hb2 in Hb3. auto. }
  cbn [mbind outcome_bind]. eexists. split; [done|]. case_decide; [|done]. split; [|done].
  destruct Hc' as [? [? ? ?]]. by split.
Qed.

Lemma irq_ok_active b a : irq_ok b -> irq_ok (set_active a b).
Proof. done. Qed.

Lemma handle_button_ok i s0 s :
  loop_ok i s0 s -> (i < length (button_head s))%nat ->
  exists s', handle_button i s = Ret s' /\ loop_ok (S i) s0 s' /\ length (button_head s') = length (button_head s).
Proof.
  intros [Hc Hdone Hrest Hlen Ht Ha] Hi. destruct (lookup_lt_is_Some_2 _ _ Hi) as [b Hb].
  unfold handle_button, get_button. rewrite Hb. cbn [mbind outcome_bind].
  pose proof (proj1 (Forall_lookup _ _) (co_buttons _ Hc) _ _ Hb) as Hbok.
  destruct (decide (irq_flag b = 1 \/ state b <> NONE)) as [Hbusy|Hidle].
  2: { exists s. split; [done|]. split; [|done]. split; try done.
       - intros j b' Hj Hb'. destruct (decide (j = i)) as [->|]; [|apply (Hdone j); [lia|done]].
         rewrite Hb in Hb'. injection Hb' as <-. split; [by apply (Hrest i)|done].
       - intros j b' Hj. apply Hrest. lia. }
  destruct (button_hdl_ok (set_irq_flag 0 b) s) as (b1 & s1 & -> & H1); [destruct Hbok; split; cbn; auto|done|].
  cbn [mbind outcome_bind]. destruct H1 as [Hok1 Hirq1 Hbz1 Hre1 _ _ _].
  destruct Hre1 as (t & r & v & w & -> & Htm).
  set (s2 := put_button i b1 (rehal t r v w s)).
  assert (core_ok s2) as Hc2.
  { destruct Hc as [Hbs [? ? ?]]. split; [|by split]. unfold s2. cbn. by apply Forall_insert. }
  assert (button_head s2 !! i = Some b1) as Hb2 by (by apply list_lookup_insert_eq).
  assert (exists s', (if decide (active b1 = 1) then active_button i s2 else Ret s2) = Ret s' /\ core_ok s' /\
            (exists a, button_head s' = <[i := set_active a b1]> (button_head s)) /\
            tmr s' = tmr s /\ adc_flag s' = adc_flag s /\ start_tmr s' = t) as (s' & -> & Hc' & [a Hbh] & Ht' & Ha' & Hs').
  { destruct (decide _).
    - destruct (active_button_ok i s2 b1 Hc2 Hb2) as (s' & -> & Hc' & Hbh & H'). exists s'. split; [done|].
      split; [done|]. split; [|done]. destruct Hbh as [->| ->].
      + exists (active b1). by destruct b1.
      + exists 0. unfold s2. cbn. by rewrite list_insert_insert_eq.
    - exists s2. split; [done|]. split; [done|]. split; [|done]. exists (active b1). by destruct b1. }
  exists s'. split; [done|]. rewrite Hbh, length_insert. split; [|done]. split.
  - done.
  - intros j b' Hj Hb'. rewrite Hbh in Hb'. rewrite Hs'. destruct (decide (j = i)) as [->|Hne].
    + rewrite list_lookup_insert_eq in Hb' by done. injection Hb' as <-. split; [done|]. exact Hbz1.
    + rewrite list_lookup_insert_ne in Hb' by done. destruct (Hdone j b' ltac:(lia) Hb') as [Hq Hz].
      split; [done|]. intros Hbz. destruct Htm as [->| ->]; auto.
  - intros j b' Hj Hb'. rewrite Hbh, list_lookup_insert_ne in Hb' by lia. apply (Hrest j); [lia|done].
  - by rewrite Hbh, length_insert.
  - by rewrite Ht'.
  - by rewrite Ha'.
Qed.

Lemma handle_from_ok n : forall i s0 s,
  loop_ok i s0 s -> length (button_head s) = (i + n)%nat ->
  exists s', handle_from n i s = Ret s' /\ loop_ok (i + n) s0 s'.
Proof.
  induction n as [|n IH]; intros i s0 s Hl Hn; cbn [handle_from].
  { exists s. rewrite Nat.add_0_r. done. }
  destruct (handle_button_ok i s0 s Hl) as (s1 & -> & Hl1 & Hlen1); [lia|]. cbn [mbind outcome_bind].
  replace (i + S n)%nat with (S i + n)%nat by lia. apply IH; [done|lia].
Qed.

Lemma adc_check1_ok b s : btn_ok (adcs s) b -> irq_ok b ->
  exists b' s', adc_sttime_check1 b s = Ret (b', s') /\ btn_ok (adcs s) b' /\ irq_ok b' /\ rehaled s s' /\
    start_tmr s' = start_tmr s.
Proof.
  intros Hok Hirq. pose proof Hok as [? ? ? ? ? ? Hd]. unfold adc_sttime_check1.
  destruct (param b) as [pin level hdl on|ch vref range h] eqn:Ep; [|cbn in Hd].
  { eexists _, _. split; [done|]. split; [done|]. split; [done|]. split; [apply rehaled_refl|done]. }
  destruct (decide _).
  - destruct (adc_read_ok vref range h s Hd) as (l & s1 & -> & Hre & Ht). cbn [mbind outcome_bind].
    destruct (decide _).
    + destruct (now_ok s1) as (t & s2 & -> & Hre2 & Ht2). eexists _, _. split; [done|].
      split; [split; cbn; rewrite ?Ep; auto|]. split; [unfold irq_ok; cbn; by rewrite Ep|].
      split; [by eapply rehaled_trans|congruence].
    + eexists _, _. done.
  - eexists _, _. split; [done|]. split; [done|]. split; [done|]. split; [apply rehaled_refl|done].
Qed.

Lemma sttime_ok n : forall i s,
  core_ok s -> Forall irq_ok (button_head s) -> (i + n <= length (button_head s))%nat ->
  exists s', sttime_from n i s = Ret s' /\ core_ok s' /\ Forall irq_ok (button_head s') /\
    length (button_head s') = length (button_head s) /\ tmr s' = tmr s /\ adc_flag s' = adc_flag s /\
    event_pool_depth s' = event_pool_depth s.
Proof.
  induction n as [|n IH]; intros i s Hc Hirq Hi; cbn [sttime_from]; [by exists s|].
  destruct (lookup_lt_is_Some_2 (button_head s) i) as [b Hb]; [lia|].
  unfold get_button. rewrite Hb. cbn [mbind outcome_bind].
  pose proof (proj1 (Forall_lookup _ _) (co_buttons _ Hc) _ _ Hb) as Hbok.
  pose proof (proj1 (Forall_lookup _ _) Hirq _ _ Hb) as Hbirq.
  destruct (adc_check1_ok b s Hbok Hbirq) as (b' & s1 & -> & Hok' & Hirq' & (t & r & v & w & -> & _) & _).
  cbn [mbind outcome_bind].
  destruct (IH (S i) (put_button i b' (rehal t r v w s))) as (s' & -> & Hc' & Hirq2 & Hlen & Ht & Ha & Hd).
  - destruct Hc as [? [? ? ?]]. split; [by apply Forall_insert|by split].
  - by apply Forall_insert.
  - cbn. rewrite length_insert. lia.
  - exists s'. split; [done|]. split; [done|]. split; [done|]. rewrite Hlen. cbn. by rewrite length_insert.
Qed.

Lemma timer_entry_ok s : srv_ok s -> exists s', button_timer_entry s = Ret s' /\ srv_ok s'.
Proof.
  intros [Hc Hirq Hbusy Hadc Hpool Htmr]. unfold button_timer_entry.
  set (s1 := timer_stop (set_start_tmr 0 s)).
  assert (core_ok s1 /\ Forall irq_ok (button_head s1)) as [Hc1 Hirq1] by (destruct Hc as [? [? ? ?]]; by split; [split|]).
  assert (exists s2, (if decide (event_pool_depth s1 <> 0)
      then let '(t, s0) := now s1 in
        if decide (MAX_EVENT_TMOUT <= t - srv_happened_ms s0) then event_pool_reset s0 else Ret s0
      else Ret s1) = Ret s2 /\ core_ok s2 /\ Forall irq_ok (button_head s2) /\ tmr s2 = tmr s1 /\ adc_flag s2 = adc_flag s1)
    as (s2 & -> & Hc2 & Hirq2 & Ht2 & Ha2).
  { destruct (decide _); [|by exists s1].
    destruct (now_ok s1) as (t & sn & -> & (t' & r & v & w & -> & _) & _).
    assert (core_ok (rehal t' r v w s1)) as Hcn by (destruct Hc1 as [? [? ? ?]]; by split).
    destruct (decide _); [|by eexists].
    destruct (event_pool_reset_ok (rehal t' r v w s1)) as (s2 & -> & Hr & _); [apply Hcn|].
    destruct (core_repooled _ _ Hcn Hr) as (Hc2 & Hb2 & Ht2 & Ha2 & _). exists s2.
    split; [done|]. split; [done|]. rewrite Hb2, Ht2, Ha2. done. }
  cbn [mbind outcome_bind]. unfold button_adc_sttime_check.
  destruct (sttime_ok (length (button_head s2)) 0 (button_adc_start_read s2)) as
    (s3 & -> & Hc3 & Hirq3 & _ & Ht3 & Ha3 & _); [destruct Hc2 as [? [? ? ?]]; by split|done|done|].
  cbn [mbind outcome_bind].
  destruct (handle_from_ok (length (button_head s3)) 0 s3 s3) as (s4 & -> & [Hc4 Hdone _ Hlen4 Ht4 Ha4]).
  { split; try done; [by intros; lia|]. intros j b _ Hj. by apply (proj1 (Forall_lookup _ _) Hirq3 j). } { done. }
  cbn [mbind outcome_bind Nat.add] in *. eexists. split; [done|].
  assert (Forall irq_ok (button_head s4)) as Hirq4.
  { apply Forall_lookup. intros j b Hj. apply (Hdone j b); [|done]. rewrite <- Hlen4. by eapply lookup_lt_Some. }
  assert (Exists busy (button_head s4) -> start_tmr s4 = 1) as Hbz.
  { rewrite list.Exists_exists. intros (b & Hin & Hb). apply list_elem_of_lookup in Hin as [j Hj].
    apply (Hdone j b); [|done..]. rewrite <- Hlen4. by eapply lookup_lt_Some. }
  assert (tmr s4 <> None) as Hnone by (rewrite Ht4, Ht3; cbn; rewrite Ht2; cbn; by destruct (tmr s)).
  case_decide as Hd.
  - assert (tmr (timer_start s4) = Some true) as Hon by (cbn; by destruct (tmr s4)).
    split; try done; [|by rewrite Hon]. destruct Hc4 as [? [? ? ?]]. by split.
  - split; try done; intros H; exfalso; apply Hd; auto. right. left. rewrite (Hbz H). done.
Qed.

End Service.
