(* ===== verification/ButtonReg.v ===== *)
(** * Button service: registration, interrupts, and all interleavings

    Adding buttons and events and taking interrupts keep the invariant; the step
    relation puts them together with the timer. *)

From stdpp Require Import sorting relations.
From S2P Require Import Prelude Button ButtonSort ButtonPool ButtonProofs.

(** ** Registered elements *)

Lemma copy1_ids e : Forall (fun x => evt_button_id x = evt_button_id e) (copy1 e).
Proof.
  unfold copy1. destruct (is_multi e); [|by constructor].
  induction (Z.to_nat _) as [|n IH]; cbn; [constructor|]. by repeat constructor.
Qed.

Lemma copy1_len e : zlen (copy1 e) = (if is_multi e then (evt_press_type e - 1) * 2 else 1) /\ 0 < zlen (copy1 e).
Proof.
  unfold copy1, is_multi. destruct (bool_decide _) eqn:E; [|done]. apply bool_decide_eq_true in E.
  unfold BUTTON_PRESS_DOUBLE, BUTTON_PRESS_TRIPLE in E. destruct E as [E|E]; rewrite E; done.
Qed.

Lemma event_copy_len es : zlen (event_copy es) = event_buttons_count es.
Proof.
  unfold event_copy. induction es as [|e es IH]; [done|]. cbn [fmap list_fmap concat event_buttons_count].
  destruct (copy1_len e) as [E _]. rewrite zlen_app, IH, E. done.
Qed.

Lemma event_copy_pos e es : 0 < event_buttons_count (e :: es).
Proof.
  rewrite <- event_copy_len. unfold event_copy. cbn [fmap list_fmap concat]. destruct (copy1_len e) as [_ E].
  rewrite zlen_app. pose proof (zlen_nonneg (concat (copy1 <$> es))). lia.
Qed.

Lemma event_copy_ids es x : x ∈ event_copy es -> exists e, e ∈ es /\ evt_button_id x = evt_button_id e.
Proof.
  unfold event_copy. induction es as [|e es IH]; cbn; [intros H; by apply not_elem_of_nil in H|].
  rewrite elem_of_app. intros [H|H].
  - exists e. split; [left|]. pose proof (copy1_ids e) as Hi. rewrite list.Forall_forall in Hi. by apply Hi.
  - destruct (IH H) as (e' & ? & ?). exists e'. split; [by right|done].
Qed.

Section Service.
Context `{BH : ButtonHal}.

Lemma find_id_some id : forall bs i j, find_id id i bs = Some j ->
  (i <= j)%nat /\ exists b, bs !! (j - i)%nat = Some b /\ button_id b = id.
Proof.
  induction bs as [|b bs IH]; intros i j; cbn; [done|]. case_decide.
  - intros [= <-]. split; [lia|]. exists b. by rewrite Nat.sub_diag.
  - intros E. destruct (IH _ _ E) as (Hj & b' & Hb & Hid). split; [lia|]. exists b'.
    split; [|done]. by replace (j - i)%nat with (S (j - S i)) by lia.
Qed.

Lemma button_find_some id s j : button_find id s = Some j -> exists b, button_head s !! j = Some b /\ button_id b = id.
Proof. intros H. destruct (find_id_some _ _ _ _ H) as (_ & b & Hb & Hid). rewrite Nat.sub_0_r in Hb. eauto. Qed.

Lemma gpio_find_some pin : forall bs i j, gpio_find pin i bs = Some j ->
  (i <= j)%nat /\ exists b level hdl on, bs !! (j - i)%nat = Some b /\ param b = Gpio pin level hdl on.
Proof.
  induction bs as [|b bs IH]; intros i j; cbn; [done|].
  assert (gpio_find pin (S i) bs = Some j ->
    (i <= j)%nat /\ exists b' level hdl on, (b :: bs) !! (j - i)%nat = Some b' /\ param b' = Gpio pin level hdl on) as Hrec.
  { intros E. destruct (IH _ _ E) as (Hj & b' & l & h & o & Hb & Hp). split; [lia|]. exists b', l, h, o.
    split; [|done]. by replace (j - i)%nat with (S (j - S i)) by lia. }
  destruct (param b) as [p level hdl on|] eqn:Ep; [|done]. case_decide; [|done].
  intros [= <-]. split; [lia|]. exists b, level, hdl, on. rewrite Nat.sub_diag. split; [done|congruence].
Qed.

(** Replacing a button by a well-formed one. *)
Lemma core_put i b s : core_ok s -> btn_ok (adcs s) b -> core_ok (put_button i b s).
Proof. intros [Hb [? ? ?]] Hok. split; [by apply Forall_insert|by split]. Qed.

Lemma pin_event_ok pin i s :
  srv_ok s -> button_gpio_find pin s = Some i -> exists s', pin_event pin s = Ret s' /\ srv_ok s'.
Proof.
  intros [Hc Hirq Hbusy Hadc Hpool Htmr] Hf. unfold pin_event. rewrite Hf.
  destruct (gpio_find_some _ _ _ _ Hf) as (_ & b & level & hdl & on & Hb & Hp). rewrite Nat.sub_0_r in Hb.
  unfold get_button at 1. rewrite Hb. cbn [mbind outcome_bind]. rewrite Hp.
  pose proof (proj1 (Forall_lookup _ _) (co_buttons _ Hc) _ _ Hb) as Hbok.
  pose proof (bo_dev _ _ Hbok) as Hd. rewrite Hp in Hd. cbn in Hd. subst hdl.
  unfold button_irq, get_button. rewrite Hb. cbn [mbind outcome_bind].
  assert (irq_disable b = set_param (Gpio pin level true false) b) as ->
    by (unfold irq_disable, gpio_irq_disable; by rewrite Hp).
  destruct (now_ok s) as (t & s1 & -> & (t' & r & v & w & -> & _) & _).
  change (tmr (rehal t' r v w s)) with (tmr s). destruct (tmr s) as [on'|] eqn:Et; [|done].
  eexists. split; [done|]. set (b1 := set_st_ms t _). set (s1 := rehal t' r v w s).
  assert (core_ok s1) as Hc1 by (destruct Hc as [? [? ? ?]]; by split).
  assert (btn_ok (adcs s) b1) as Hok1 by (destruct Hbok; split; cbn; auto).
  assert (tmr (timer_start (put_button i b1 s1)) = Some true) as Hon by (cbn; by rewrite Et).
  split; [|by apply Forall_insert; [|right; left]|..]; try (done || by rewrite Hon).
  destruct (core_put i b1 s1 Hc1 Hok1) as [? [? ? ?]]. by split.
Qed.

Lemma srv_ok_add b s :
  srv_ok s -> btn_ok (adcs s) b -> irq_ok b -> ~ busy b -> srv_ok (button_add b s).
Proof.
  intros [[Hb [? ? ?]] Hirq Hbusy Hadc Hpool Htmr] Hok Hi Hnb.
  split; try done; [split; [|by split]| |]; cbn; rewrite ?Forall_app, ?Exists_app; try by split; [|constructor].
  intros [?|He]; [auto|]. inversion He as [? ? H1|? ? H1]; subst; [done|inversion H1].
Qed.

Lemma new_button_ok devs id p : dev_ok devs p -> btn_ok devs (new_button id p) /\ ~ busy (new_button id p).
Proof.
  intros Hp. split; [|by intros [?|?]]. split; cbn; try done; auto; constructor.
Qed.

Lemma add_gpio_ok id pin level s : srv_ok s -> srv_ok (button_add_gpio id pin level s).2.
Proof.
  intros Hok. unfold button_add_gpio. repeat (destruct (decide _); [|done]). destruct (decide _); [done|]. cbn.
  destruct (new_button_ok (adcs s) id (Gpio pin level true true) eq_refl) as [Hb Hn]. apply srv_ok_add; try done. by left.
Qed.

Lemma dev_ok_app devs devs' p : dev_ok devs p -> dev_ok (devs ++ devs') p.
Proof.
  destruct p; cbn; [done|]. intros (n & port & -> & Hn). exists n, port. split; [done|]. by apply lookup_app_l_Some.
Qed.

Lemma adc_find_some port devs bs h :
  Forall (btn_ok devs) bs -> button_adc_find port devs bs = Some h -> devs !! h = Some (port, true).
Proof.
  intros Hb. induction Hb as [|b bs Hok _ IH]; cbn; [done|]. pose proof (bo_dev _ _ Hok) as Hd.
  destruct (param b) as [|ch vref range [n|]]; cbn in Hd; [done| |done].
  destruct Hd as (n' & p & [= <-] & Hn). rewrite Hn. case_decide; [|done]. intros [= <-]. congruence.
Qed.

Lemma srv_ok_devs s devs : srv_ok s -> srv_ok (set_adcs (adcs s ++ devs) s).
Proof.
  intros [[Hb [? ? ?]] Hirq Hbusy Hadc Hpool Htmr]. split; try done. split; [|by split]. cbn.
  eapply list.Forall_impl; [exact Hb|]. intros b [? ? ? ? ? ? ?]. split; try done. by apply dev_ok_app.
Qed.

Lemma add_adc_ok id ch vref range s : srv_ok s -> srv_ok (button_add_adc id ch vref range s).2.
Proof.
  intros Hok. unfold button_add_adc. destruct (decide _); [|done]. destruct (decide _); [done|].
  assert (exists h s1, match button_adc_find (u8 ch) (adcs s) (button_head s) with
            | Some h => (h, s)
            | None => (length (adcs s), set_adcs (adcs s ++ [(u8 ch, true)]) s)
            end = (h, s1) /\ srv_ok s1 /\ adcs s1 !! h = Some (u8 ch, true)) as (h & s1 & -> & Hok1 & Hh).
  { destruct (button_adc_find _ _ _) as [h|] eqn:E.
    - eexists _, _. split; [done|]. split; [done|]. eapply adc_find_some; [apply Hok|done].
    - eexists _, _. split; [done|]. split; [by apply srv_ok_devs|]. cbn. by apply list_lookup_middle. }
  cbn [snd]. destruct (new_button_ok (adcs s1) id (Adc ch vref range (Some h))) as [Hb Hn]; [by eexists _, _|].
  pose proof (srv_ok_add _ s1 Hok1 Hb I Hn) as [[? [? ? ?]] Hirq Hbusy Hadc Hpool Htmr].
  set (s2 := button_add _ s1) in *.
  assert (tmr (timer_start (set_adc_flag 1 s2)) = Some true) as Hon by (cbn in *; by destruct (tmr s1)).
  split; try (done || by rewrite Hon).
Qed.

(** ** Events *)

Lemma map_button_ok devs e b : btn_ok devs b ->
  btn_ok devs (map_button e b) /\ (irq_ok b -> irq_ok (map_button e b)) /\ (busy (map_button e b) -> busy b) /\
  button_id (map_button e b) = button_id b.
Proof.
  intros Hok. unfold map_button. destruct (decide _); [done|]. destruct (decide _); [|by destruct Hok; split; [split|]].
  destruct (bubbleSort_ok (press_time b ++ [evt_press_time e])) as [Hs Hp]. split; [|done].
  assert (zlen (bubbleSort (press_time b ++ [evt_press_time e])) = zlen (press_time b) + 1) as Hlen.
  { unfold zlen. rewrite Hp, length_app. cbn. lia. }
  cbn [press_time set_event_flag]. set (pt := bubbleSort _) in *.
  destruct Hok as [? Hsub Hcnt ? ? ? ?]. split; cbn; try done; [lia|]. intros. lia.
Qed.

Lemma event_map_ok es : forall s,
  srv_ok s -> Forall (fun e => button_find (evt_button_id e) s <> None) es ->
  exists s', event_map_button es s = Ret s' /\ srv_ok s'.
Proof.
  induction es as [|e es IH]; intros s Hok Hes; cbn [event_map_button]; [by exists s|].
  inversion Hes as [|? ? He Hes']; subst. destruct (button_find (evt_button_id e) s) as [i|] eqn:Ef; [|done].
  destruct (button_find_some _ _ _ Ef) as (b & Hb & Hid). unfold get_button. rewrite Hb. cbn [mbind outcome_bind].
  pose proof Hok as [Hc Hirq Hbusy Hadc Hpool Htmr].
  destruct (map_button_ok (adcs s) e b) as (Hbok & Hbi & Hbb & Hbid);
    [by apply (proj1 (Forall_lookup _ _) (co_buttons _ Hc) i)|].
  apply IH.
  - split; try done; cbn.
    + by apply core_put.
    + apply Forall_insert; [done|]. apply Hbi. by apply (proj1 (Forall_lookup _ _) Hirq i).
    + intros He2. apply Hbusy. rewrite list.Exists_exists in *. destruct He2 as (x & Hin & Hx).
      apply list_elem_of_lookup in Hin as [j Hj]. destruct (decide (j = i)) as [->|Hne].
      * rewrite list_lookup_insert_eq in Hj by (by eapply lookup_lt_Some). injection Hj as <-.
        exists b. split; [by eapply list_elem_of_lookup_2|by apply Hbb].
      * rewrite list_lookup_insert_ne in Hj by done. exists x. split; [by eapply list_elem_of_lookup_2|done].
  - eapply list.Forall_impl; [exact Hes'|]. intros x. unfold button_find. cbn [button_head put_button set_buttons].
    assert (forall k bs i, bs !! i = Some b -> forall id, find_id id k (<[i := map_button e b]> bs) = find_id id k bs) as Hfind.
    { clear -Hbid. intros k bs. revert k. induction bs as [|b0 bs IHb]; intros k i Hi id; [done|].
      destruct i as [|i]; cbn in *; [injection Hi as ->; by rewrite Hbid|]. case_decide; [done|by apply IHb]. }
    by rewrite Hfind.
Qed.

Lemma srv_ok_node node s :
  srv_ok s -> button_count node = zlen (ebuttons node) -> 0 < button_count node ->
  srv_ok (event_pool_new (button_count node) (set_nodes (event_node_head s ++ [node]) s)).
Proof.
  intros [[Hb [Hn Hd Hp]] Hirq Hbusy Hadc Hpool Htmr] Hc Hpos. unfold event_pool_new. cbn [event_pool_size set_nodes].
  case_decide as Hsz.
  - split; try done. split; [done|]. split; cbn.
    + apply Forall_app. split; [|by repeat constructor]. eapply list.Forall_impl; [exact Hn|].
      intros x [? ? ?]. split; (done || lia).
    + lia.
    + rewrite zlen_replicate. lia.
  - split; try done. split; [done|]. split; cbn; [|done|done].
    apply Forall_app. split; [done|]. repeat constructor; (done || lia).
Qed.

Lemma add_event_ok id es cb prv s :
  srv_ok s -> exists r s', button_add_event id es cb prv s = Ret (r, s') /\ srv_ok s'.
Proof.
  intros Hok. unfold button_add_event. destruct es as [es|]; [|by eexists _, _].
  destruct (decide _) as [Hes|]; [|by eexists _, _]. destruct (decide _); [by eexists _, _|].
  unfold event_param_check. destruct (decide (Forall _ es)) as [Hids|]; [|by eexists _, _].
  destruct es as [|e es]; [by destruct Hes|].
  rewrite (find_node_eq (event_pool_size s)) by apply Hok. cbn [mbind outcome_bind].
  destruct (first_match _ _ _); [by eexists _, _|]. cbn [decide].
  set (node := Event id (event_copy (e :: es)) (event_buttons_count (e :: es)) 0 cb prv).
  destruct (event_map_ok (ebuttons node) (event_pool_new (event_buttons_count (e :: es)) (set_nodes (event_node_head s ++ [node]) s)))
    as (s' & E & Hok').
  - apply (srv_ok_node node); [done|symmetry; apply event_copy_len|apply event_copy_pos].
  - apply list.Forall_forall. intros x Hx. destruct (event_copy_ids _ _ Hx) as (e' & Hin & ->).
    rewrite list.Forall_forall in Hids. specialize (Hids _ Hin). unfold event_pool_new. by case_decide.
  - destruct (decide _) as [Hlt|_]; [done|]. cbn [mbind outcome_bind]. rewrite E. cbn [mbind outcome_bind]. by eexists _, _.
Qed.

(** ** Interleavings *)

(** The surroundings change; an interrupt of a button's pin; the timer expires; the
    application registers something. *)
Inductive step : srv -> srv -> Prop :=
| step_world w s : step s (set_wld w s)
| step_irq pin i s s' : button_gpio_find pin s = Some i -> pin_event pin s = Ret s' -> step s s'
| step_timer s s' : tmr s = Some true -> button_timer_entry s = Ret s' -> step s s'
| step_gpio id pin level s : step s (button_add_gpio id pin level s).2
| step_adc id ch vref range s : step s (button_add_adc id ch vref range s).2
| step_event id es cb prv s r s' : button_add_event id es cb prv s = Ret (r, s') -> step s s'.

Lemma step_ok s s' : step s s' -> srv_ok s -> srv_ok s'.
Proof.
  destruct 1 as [w s|pin i s s' Hf E|s s' Ht E|id pin level s|id ch vref range s|id es cb prv s r s' E]; intros Hok.
  - destruct Hok as [[? [? ? ?]] ? ? ? ? ?]. split; try done.
  - destruct (pin_event_ok pin i s Hok Hf) as (x & E' & Hx). congruence.
  - destruct (timer_entry_ok s Hok) as (x & E' & Hx). congruence.
  - by apply add_gpio_ok.
  - by apply add_adc_ok.
  - destruct (add_event_ok id es cb prv s Hok) as (r' & x & E' & Hx). congruence.
Qed.

Lemma init_ok s : inited s = 0 -> srv_ok (button_init s).2.
Proof.
  intros Hi. unfold button_init. rewrite decide_False by (by intros ?). split; cbn; try done.
  intros H. inversion H.
Qed.

Lemma reach_ok s s' : rtc step (button_init s).2 s' -> inited s = 0 -> srv_ok s'.
Proof.
  intros H Hi. apply init_ok in Hi. revert Hi. induction H as [|x y z Hxy _ IH]; [done|]. intros Hx. apply IH. by eapply step_ok.
Qed.

End Service.
