(* ===== verification/ButtonGesture.v ===== *)
(** * Button service: gestures

    The promise to an application that registers single presses, as the product
    does: with the pool, its timeouts and its matching out of the way, each button
    is a small automaton over samples ([gesture]) and each press it recognises
    makes exactly the callbacks registered for it, at once. *)

From S2P Require Import Prelude Button ButtonPool ButtonProofs.

(** A clock and pins that do not change while the timer function runs. *)
Class SteadyHal `{BH : ButtonHal} := {
  clock : world -> Z;
  pin : world -> Z -> Z;
  now_steady w : exists w', aos_now_ms w = (clock w, w') /\ clock w' = clock w /\ forall q, pin w' q = pin w q;
  gpio_steady p w : exists w', hal_gpio_input_get p w = (pin w p, w') /\ clock w' = clock w /\
                      forall q, pin w' q = pin w q
}.

(** ** The abstract button *)

(** [st] is when the press began. *)
Inductive phase :=
| Idle
| Flagged (st : Z)        (** the interrupt came, no sample yet *)
| Bouncing (st : Z)       (** pressed, not yet for 90 ms *)
| Confirmed (st : Z)      (** pressed for 90 ms, kind of press open *)
| Held (long : bool)      (** reported *)
| Released.

(** One sample: the next phase and the press reported.  [limit] is the button's
    long-press time. *)
Definition gesture (limit : option Z) (pressed : bool) (t : Z) (ph : phase) : phase * option Z :=
  match ph with
  | Idle => (Idle, None)
  | Flagged st => (if pressed then Bouncing st else Idle, None)
  | Bouncing st =>
      (if pressed then if decide (90 <= t - st) then Confirmed st else Bouncing st else Idle, None)
  | Confirmed st =>
      match pressed, limit with
      | true, Some l =>
          if decide (l <= t - st) then (Held true, Some BUTTON_PRESS_LONG_DOWN) else (Confirmed st, None)
      | _, _ => (Held false, Some BUTTON_PRESS_DOWN)
      end
  | Held long =>
      if pressed then (Held long, None) else (Released, if long then None else Some BUTTON_PRESS_UP)
  | Released => (Idle, None)
  end.

Definition phase_of (b : button) : phase :=
  match state b with
  | NONE => if decide (irq_flag b = 1) then Flagged (st_ms b) else Idle
  | START => Bouncing (st_ms b)
  | CNT => Confirmed (st_ms b)
  | HIGH => Held (bool_decide (press_type b = BUTTON_PRESS_LONG_DOWN))
  | END => Released
  end.

(** The time an element of the pool carries. *)
Definition time_of (b : button) (t : Z) : Z :=
  if decide (t = BUTTON_PRESS_LONG_DOWN) then default 0 (head (press_time b)) else 0.

Definition press_of (b : button) (t : Z) : button_evt := Evt (button_id b) t (time_of b t).

(** Event tables: what is registered, and the callbacks for a press. *)
Abbreviation table := (list (list button_evt * (Z * Z * Z))) (only parsing).
Definition fired (e : button_evt) (tbl : table) : list (Z * Z * Z) :=
  snd <$> filter (fun x => x.1 = [e]) tbl.

(** The event flags of a button agree with the table. *)
Definition flags_ok (tbl : table) (b : button) : Prop :=
  0 <= event_flag b < 8 /\
  Forall (fun t => Z.testbit (event_flag b) t = true <-> [press_of b t] ∈ tbl.*1) [0; 1; 2].

(** A button of the kind the theorem is about, between two runs of the timer. *)
Record plain (tbl : table) (b : button) : Prop := {
  pl_gpio : match param b with Gpio _ _ _ _ => True | Adc _ _ _ _ => False end;
  pl_time : zlen (press_time b) <= 1;
  pl_flags : flags_ok tbl b;
  pl_cnt : state b = CNT -> press_time_subscript b = 0;
  pl_high : state b = HIGH ->
    press_type b = BUTTON_PRESS_LONG_DOWN \/ press_type b = BUTTON_PRESS_DOWN /\ press_time_subscript b = 0
}.

Lemma land_flag f t : 0 <= f < 8 -> t = 0 \/ t = 1 \/ t = 2 -> Z.land f (shl1 t) = 0 <-> Z.testbit f t = false.
Proof.
  intros Hf Ht.
  assert (f = 0 \/ f = 1 \/ f = 2 \/ f = 3 \/ f = 4 \/ f = 5 \/ f = 6 \/ f = 7) as Hf' by lia.
  destruct Ht as [->|[->| ->]]; repeat (destruct Hf' as [->|Hf']; [by vm_compute|]); subst f; by vm_compute.
Qed.

Lemma land_none f : 0 <= f < 8 -> Z.land f (shl1 (-1)) = 0.
Proof.
  intros Hf. assert (f = 0 \/ f = 1 \/ f = 2 \/ f = 3 \/ f = 4 \/ f = 5 \/ f = 6 \/ f = 7) as Hf' by lia.
  repeat (destruct Hf' as [->|Hf']; [by vm_compute|]). subst f. by vm_compute.
Qed.

Section Gesture.
Context `{SH : SteadyHal}.

Definition pressed (b : button) (w : world) : bool :=
  match param b with
  | Gpio p level _ _ => bool_decide (pin w p = level)
  | Adc _ _ _ _ => false
  end.

Definition sampled (b : button) (w : world) : phase * option Z :=
  gesture (head (press_time b)) (pressed b w) (clock w) (phase_of b).

(** The callbacks of one sample. *)
Definition emits (tbl : table) (w : world) (b : button) : list (Z * Z * Z) :=
  match (sampled b w).2 with Some t => fired (press_of b t) tbl | None => [] end.

Definition same_view (w w' : world) : Prop := clock w' = clock w /\ forall q, pin w' q = pin w q.
Definition steady (s s' : srv) : Prop :=
  exists st w, s' = set_start_tmr st (set_wld w s) /\ same_view (wld s) w.

Lemma steady_refl s : steady s s.
Proof. exists (start_tmr s), (wld s). split; [by destruct s|done]. Qed.

Lemma steady_trans s1 s2 s3 : steady s1 s2 -> steady s2 s3 -> steady s1 s3.
Proof.
  intros (t & w & -> & H1 & H2) (t' & w' & -> & H1' & H2'). exists t', w'. split; [done|]. cbn in *.
  split; [congruence|]. intros q. by rewrite H2', H2.
Qed.

Lemma steady_start s s' : steady s s' -> steady s (set_start_tmr 1 s').
Proof. intros (t & w & -> & H). by exists 1, w. Qed.

Lemma now_view s : exists s', now s = (clock (wld s), s') /\ steady s s'.
Proof.
  unfold now. destruct (now_steady (wld s)) as (w' & -> & H). eexists. split; [done|].
  exists (start_tmr s), w'. split; [by destruct s|done].
Qed.

Lemma read_view b s : match param b with Gpio _ _ _ _ => True | Adc _ _ _ _ => False end ->
  exists l s', read_level b s = Ret (l, s') /\ bool_decide (l <> 0) = pressed b (wld s) /\ steady s s'.
Proof.
  unfold read_level, pressed. destruct (param b) as [p level hdl on|]; [|done]. intros _. unfold gpio_pin_read.
  destruct (gpio_steady p (wld s)) as (w' & -> & H). eexists _, _. split; [done|]. split.
  - destruct (decide (pin (wld s) p = level)); [by rewrite (bool_decide_eq_true_2 (pin _ p = level))|].
    by rewrite (bool_decide_eq_false_2 (pin _ p = level)).
  - exists (start_tmr s), w'. split; [by destruct s|done].
Qed.

(** What a button keeps. *)
Definition same_reg (b b' : button) : Prop :=
  button_id b' = button_id b /\ press_time b' = press_time b /\ event_flag b' = event_flag b /\
  (forall w, pressed b' w = pressed b w).

Lemma same_reg_press b b' t : same_reg b b' -> press_of b' t = press_of b t.
Proof. intros (H1 & H2 & _). unfold press_of, time_of. by rewrite H1, H2. Qed.

Lemma same_reg_flags tbl b b' : same_reg b b' -> flags_ok tbl b -> flags_ok tbl b'.
Proof.
  intros Hr [H1 H2]. pose proof Hr as (_ & _ & Hf & _). unfold flags_ok. rewrite Hf. split; [done|].
  eapply list.Forall_impl; [exact H2|]. intros t. by rewrite (same_reg_press b b' t Hr).
Qed.

Lemma irq_enable_reg b : match param b with Gpio _ _ _ _ => True | Adc _ _ _ _ => False end ->
  exists p l h on, param b = Gpio p l h on /\ irq_enable b = set_param (Gpio p l h true) b.
Proof.
  unfold irq_enable, gpio_irq_enable. destruct (param b) as [p l h on|] eqn:E; [|done]. intros _. by exists p, l, h, on.
Qed.

(** The time [event_pool_add] takes. *)
Definition pool_time (b : button) : outcome Z :=
  if decide (press_time_subscript b <> 0) then mem_get (press_time b) (press_time_subscript b - 1) else Ret 0.

(** What a handler promises before the event mask is applied: [o] is the press it
    reports.  [active] was 0. *)
Record reported (tbl : table) (b b' : button) (ph : phase) (o : option Z) : Prop := {
  rp_reg : same_reg b b';
  rp_phase : phase_of b' = ph;
  rp_plain : plain tbl b';
  rp_active : match o with
              | Some t => active b' = 1 /\ press_type b' = t /\ pool_time b' = Ret (time_of b t) /\
                          (t = 0 \/ t = 1 \/ t = 2)
              | None => active b' = 0 \/ press_type b' = -1
              end
}.

(** The state switch of [button_hdl]. *)
Definition switch (b : button) (s : srv) : outcome (button * srv) :=
  match state b with
  | NONE => Ret (none_hdl b s)
  | START => Ret (start_hdl b s)
  | CNT => cnt_hdl b s
  | HIGH => Ret (high_hdl b s)
  | END => Ret (irq_enable (reset b), s)
  end.

Lemma reported_enable tbl b b1 s ph :
  plain tbl b -> same_reg b b1 -> param b1 = param b -> state b1 = NONE -> irq_flag b1 = 0 -> active b1 = 0 ->
  ph = Idle -> exists b' s', Ret (irq_enable b1, s) = Ret (b', s') /\ steady s s' /\ reported tbl b b' ph None.
Proof.
  intros [Hg Ht Hf _ _] Hr Hp Hst Hfl Ha ->. eexists _, _. split; [done|]. split; [apply steady_refl|].
  rewrite <- Hp in Hg. destruct (irq_enable_reg b1 Hg) as (p & l & h & on & Ep & ->).
  assert (same_reg b (set_param (Gpio p l h true) b1)) as Hr'.
  { destruct Hr as (? & ? & ? & Hpr). split; [done|]. split; [done|]. split; [done|]. intros w. rewrite <- Hpr.
    unfold pressed. cbn. by rewrite Ep. }
  split; [done| | |by left].
  - unfold phase_of. cbn. rewrite Hst. rewrite decide_False by lia. done.
  - destruct Hr as (? & Htm & ? & _). split; cbn; [done|by rewrite Htm|by eapply same_reg_flags|..]; by rewrite Hst.
Qed.

Lemma switch_none tbl b s devs :
  plain tbl b -> btn_ok devs b -> state b = NONE -> irq_flag b = 0 -> active b = 0 ->
  exists b' s', switch b s = Ret (b', s') /\ steady s s' /\
    reported tbl b b' (if is_pressed b then Bouncing (st_ms b) else Idle) None.
Proof.
  intros Hpl Hok Hst Hfl Ha. unfold switch. rewrite Hst. unfold none_hdl. destruct (is_pressed b).
  - eexists _, _. split; [done|]. split; [apply steady_start, steady_refl|]. destruct Hpl as [? ? ? ? ?].
    split; [done|done|by split|by left].
  - by apply reported_enable.
Qed.

Lemma switch_start tbl b s devs :
  plain tbl b -> btn_ok devs b -> state b = START -> irq_flag b = 0 -> active b = 0 ->
  exists b' s', switch b s = Ret (b', s') /\ steady s s' /\
    reported tbl b b' (if is_pressed b then if decide (90 <= clock (wld s) - st_ms b) then Confirmed (st_ms b)
                                            else Bouncing (st_ms b) else Idle) None.
Proof.
  intros Hpl Hok Hst Hfl Ha. unfold switch. rewrite Hst. unfold start_hdl. destruct (is_pressed b).
  - destruct (now_view s) as (s1 & -> & Hs1). eexists _, _. split; [done|]. split; [by apply steady_start|].
    unfold MIN_ST_TMOUT. pose proof (bo_idle _ _ Hok (or_intror Hst)) as Hsub. pose proof Hpl as [? ? ? ? ?].
    destruct (decide _).
    + split; [done|done|by split|by left].
    + split; [done|unfold phase_of; by rewrite Hst|by split|by left].
  - by apply reported_enable.
Qed.

Lemma switch_cnt tbl b s devs :
  plain tbl b -> btn_ok devs b -> state b = CNT -> active b = 0 ->
  exists b' s' ph o, switch b s = Ret (b', s') /\ steady s s' /\
    (ph, o) = gesture (head (press_time b)) (is_pressed b) (clock (wld s)) (Confirmed (st_ms b)) /\
    reported tbl b b' ph o.
Proof.
  intros Hpl Hok Hst Ha. unfold switch. rewrite Hst. unfold cnt_hdl. pose proof Hpl as [Hg Htm Hf Hc Hh].
  specialize (Hc Hst). cbn [gesture].
  assert (forall o, o = head (press_time b) -> is_pressed b = false \/ o = None ->
    exists b' s' ph o', Ret (set_old_press_type BUTTON_PRESS_DOWN
           (set_press_type BUTTON_PRESS_DOWN (set_active 1 (set_state HIGH b))), set_start_tmr 1 s) = Ret (b', s') /\
      steady s s' /\ (ph, o') = (Held false, Some BUTTON_PRESS_DOWN) /\ reported tbl b b' ph o') as Hdown.
  { intros _ _ _. eexists _, _, _, _. split; [done|]. split; [apply steady_start, steady_refl|]. split; [done|].
    split; [done|done| |].
    - split; cbn; try done. intros _. right. done.
    - unfold pool_time. cbn. rewrite Hc. rewrite decide_False by lia. auto. }
  destruct (is_pressed b); [|by eapply Hdown; [|left]].
  destruct (press_time b) as [|l [|l2 ls]] eqn:Ept; [by eapply Hdown; [|right]| |rewrite !zlen_cons in Htm; pose proof (zlen_nonneg ls); lia].
  cbn [andb head]. rewrite bool_decide_eq_true_2 by done.
  destruct (now_view s) as (s1 & -> & Hs1). rewrite Hc. change (mem_get [l] 0) with (Ret l). cbn [mbind outcome_bind].
  destruct (decide (l <= clock (wld s) - st_ms b)) as [Hl|Hl].
  - eexists _, _, _, _. split; [done|]. split; [by apply steady_start|]. split; [done|].
    cbn [press_time press_time_subscript set_subscript set_press_type set_active]. rewrite Ept.
    rewrite decide_True by done. split; [done|by unfold phase_of| |].
    + split; cbn; rewrite ?Ept; try done. by left.
    + unfold pool_time. cbn. rewrite Ept, decide_True by lia. split; [done|]. split; [done|]. split; [|auto].
      unfold time_of. by rewrite Ept, decide_True.
  - eexists _, _, _, _. split; [done|]. split; [by apply steady_start|]. split; [done|].
    split; [done|unfold phase_of; by rewrite Hst|split; rewrite ?Ept; done|by left].
Qed.

Lemma switch_high tbl b s devs :
  plain tbl b -> btn_ok devs b -> state b = HIGH -> active b = 0 ->
  exists b' s' ph o, switch b s = Ret (b', s') /\ steady s s' /\
    (ph, o) = gesture (head (press_time b)) (is_pressed b) (clock (wld s)) (phase_of b) /\ reported tbl b b' ph o.
Proof.
  intros Hpl Hok Hst Ha. unfold switch, phase_of. rewrite Hst. unfold high_hdl. pose proof Hpl as [Hg Htm Hf Hc Hh].
  specialize (Hh Hst). cbn [gesture]. destruct (is_pressed b) eqn:Epr; cbn [negb].
  - eexists _, _, _, _. split; [done|]. split; [apply steady_start, steady_refl|]. split; [done|].
    split; [done|unfold phase_of; by rewrite Hst|done|by left].
  - eexists _, _, _, _. split; [done|]. split; [apply steady_start, steady_refl|]. split; [done|].
    cbn [press_type set_active set_state].
    assert (forall x, plain tbl (set_press_type x (set_active 1 (set_state END b)))) as Hp' by (intros x; by split).
    destruct Hh as [Hh|[Hh Hsub]].
    + rewrite decide_True, (bool_decide_eq_true_2 (press_type b = _)) by done. split; [done|done|done|by right].
    + rewrite decide_False, (bool_decide_eq_false_2 (press_type b = _)) by (rewrite Hh; done). split; [done|done|done|].
      unfold pool_time. cbn. rewrite Hsub, decide_False by lia. split; [done|]. split; [done|]. split; [done|auto].
Qed.

(** One sample of a button that the timer looks at. *)
Lemma button_hdl_gesture tbl b s :
  plain tbl b -> btn_ok (adcs s) b -> busy b -> active b = 0 ->
  exists b' s', button_hdl (set_irq_flag 0 b) s = Ret (b', s') /\ steady s s' /\
    same_reg b b' /\ phase_of b' = (sampled b (wld s)).1 /\ plain tbl b' /\
    match (sampled b (wld s)).2 with
    | Some t => if Z.testbit (event_flag b) t
                then active b' = 1 /\ press_type b' = t /\ pool_time b' = Ret (time_of b t)
                else active b' = 0
    | None => active b' = 0
    end.
Proof.
  intros Hpl Hok Hbz Ha. unfold button_hdl.
  destruct (read_view (set_irq_flag 0 b) s) as (l & s1 & -> & Hl & Hs1); [apply Hpl|]. cbn [mbind outcome_bind].
  change (pressed (set_irq_flag 0 b) (wld s)) with (pressed b (wld s)) in Hl. rewrite Hl.
  set (b1 := set_is_pressed (pressed b (wld s)) (set_irq_flag 0 b)).
  assert (plain tbl b1) as Hpl1 by (destruct Hpl; by split).
  assert (btn_ok (adcs s) b1) as Hok1 by (destruct Hok; split; cbn; auto).
  assert (clock (wld s1) = clock (wld s)) as Hck by (by destruct Hs1 as (? & ? & -> & ? & ?)).
  fold (switch b1 s1).
  assert (exists b2 s2 ph o, switch b1 s1 = Ret (b2, s2) /\ steady s1 s2 /\ (ph, o) = sampled b (wld s) /\
            reported tbl b1 b2 ph o) as (b2 & s2 & ph & o & -> & Hs2 & Hg & [Hr Hph Hpl2 Hrep]).
  { unfold sampled, phase_of. destruct (state b) eqn:Est.
    - destruct (switch_none tbl b1 s1 (adcs s)) as (b2 & s2 & E & Hs2 & Hr); try done.
      eexists b2, s2, _, _. split; [done|]. split; [done|]. split; [|done].
      destruct Hbz as [Hfl|Hbz]; [|by rewrite Est in Hbz]. rewrite decide_True by done. done.
    - destruct (switch_start tbl b1 s1 (adcs s)) as (b2 & s2 & E & Hs2 & Hr); try done. rewrite Hck in Hr.
      eexists b2, s2, _, _. split; [done|]. split; [done|]. by split; [|done].
    - destruct (switch_cnt tbl b1 s1 (adcs s)) as (b2 & s2 & ph & o & E & Hs2 & Hg & Hr); try done.
      rewrite Hck in Hg. by eexists b2, s2, ph, o.
    - destruct (switch_high tbl b1 s1 (adcs s)) as (b2 & s2 & ph & o & E & Hs2 & Hg & Hr); try done.
      rewrite Hck in Hg. unfold phase_of in Hg. change (state b1) with (state b) in Hg. rewrite Est in Hg.
      by eexists b2, s2, ph, o.
    - destruct (reported_enable tbl b1 (reset b1) s1 Idle) as (b2 & s2 & E & Hs2 & Hr); try done.
      eexists b2, s2, _, _. split; [unfold switch; change (state b1) with (state b); by rewrite Est|]. by split; [|split]. }
  cbn [mbind outcome_bind]. rewrite <- Hg. cbn [fst snd].
  assert (0 <= event_flag b < 8) as Hf by apply Hpl.
  assert (event_flag b2 = event_flag b) as Ef2 by apply Hr.
  assert (same_reg b b2) as Hr' by (destruct Hr as (? & ? & ? & ?); done).
  assert (forall t, plain tbl (set_happened t b2) /\ same_reg b (set_happened t b2) /\ phase_of (set_happened t b2) = ph)
    as Hset by (intros t; destruct Hpl2; by split).
  assert (plain tbl (set_active 0 b2) /\ same_reg b (set_active 0 b2) /\ phase_of (set_active 0 b2) = ph)
    as (Ho1 & Ho2 & Ho3) by (destruct Hpl2; by split).
  pose proof (steady_trans _ _ _ Hs1 Hs2) as Hs12. rewrite Ef2. destruct o as [t|].
  - destruct Hrep as (Hact & Hty & Htime & Htt). rewrite Hty. pose proof (land_flag _ _ Hf Htt) as Hland.
    destruct (Z.testbit (event_flag b) t) eqn:Ebit.
    + rewrite (decide_False (P := _ /\ _)) by (intros [_ H]; apply Hland in H; done).
      rewrite (decide_True (P := active b2 <> 0)) by (rewrite Hact; done). destruct (now_view s2) as (s3 & -> & Hs3).
      destruct (Hset (clock (wld s2))) as (Hset1 & Hset2 & Hset3).
      eexists _, _. split; [done|]. split; [by eapply steady_trans|]. done.
    + rewrite (decide_True (P := _ /\ _)) by (split; [rewrite Hact; done|by apply Hland]).
      rewrite (decide_False (P := active (set_active 0 b2) <> 0)) by (intros H; by apply H). by eexists _, _.
  - destruct (decide (active b2 = 0)) as [Hact|Hact].
    + rewrite (decide_False (P := _ /\ _)) by (intros [? _]; done).
      rewrite (decide_False (P := active b2 <> 0)) by (intros H; by apply H). by eexists _, _.
    + destruct Hrep as [?|Hrep]; [done|]. rewrite Hrep.
      rewrite (decide_True (P := _ /\ _)) by (split; [done|by apply land_none]).
      rewrite (decide_False (P := active (set_active 0 b2) <> 0)) by (intros H; by apply H). by eexists _, _.
Qed.

End Gesture.
