(* ===== verification/ButtonTick.v ===== *)
(** * Button service: the timer as a sampler of gestures

    [button_timer_entry] for applications that register single presses: one sample
    of every button, and the callbacks of the presses reported. *)

From S2P Require Import Prelude Button ButtonPool ButtonProofs ButtonGesture.

Lemma filter_none {A} (P : A -> Prop) `{!forall x, Decision (P x)} (l : list A) :
  (forall x, P x -> x ∉ l) -> filter P l = [].
Proof.
  induction l as [|a l IH]; intros Hno; [done|]. rewrite filter_cons_False by (intros Ha; apply (Hno a Ha); left).
  apply IH. intros x Hx Hin. apply (Hno x Hx). by right.
Qed.

Lemma filter_key {K V} `{EqDecision K} (l : list (K * V)) j k v :
  NoDup l.*1 -> l !! j = Some (k, v) -> filter (fun x => x.1 = k) l = [(k, v)].
Proof.
  revert j. induction l as [|[k0 v0] l IH]; intros j Hnd Hj; [done|].
  cbn in Hnd. apply list.NoDup_cons in Hnd as [Hn Hnd]. destruct j as [|j]; cbn in Hj.
  - injection Hj as -> ->. rewrite filter_cons_True by done. f_equal.
    apply filter_none. intros [k' v'] Hk Hin. cbn in Hk. subst k'. apply Hn.
    by apply (list_elem_of_fmap_2 fst) in Hin.
  - rewrite filter_cons_False; [by apply (IH j)|]. cbn. intros ->. apply Hn.
    apply list_elem_of_lookup_2 in Hj. by apply (list_elem_of_fmap_2 fst) in Hj.
Qed.

Section Tick.
Context `{SH : SteadyHal}.

Definition table_of (s : srv) : table := (fun n => (ebuttons n, cb_of n)) <$> event_node_head s.

(** Only single presses are registered, each once; the pool is empty. *)
Record single (s : srv) : Prop := {
  sg_core : core_ok s;
  sg_depth : event_pool_depth s = 0;
  sg_time : srv_happened_ms s = 0;
  sg_count : Forall (fun n => button_count n = 1) (event_node_head s);
  sg_nodup : NoDup (table_of s).*1;
  sg_buttons : Forall (fun b => plain (table_of s) b /\ active b = 0) (button_head s)
}.

Lemma last_fired s e :
  Forall (node_ok (event_pool_size s)) (event_node_head s) -> Forall (fun n => button_count n = 1) (event_node_head s) ->
  NoDup (table_of s).*1 -> [e] ∈ (table_of s).*1 ->
  exists j n, last_match (fun n => bool_decide (1 <= button_count n)) e 0 (event_node_head s) None = Some j /\
    event_node_head s !! j = Some n /\ button_count n = 1 /\ fired e (table_of s) = [cb_of n].
Proof.
  intros Hok Hc Hnd He. pose proof (last_match_spec (fun n => bool_decide (1 <= button_count n)) e 0 (event_node_head s) None) as Hl.
  rewrite list.Forall_forall in Hc.
  destruct (last_match _ _ _ _ _) as [j|].
  - destruct Hl as [[? _]|(_ & n & Hj & Hm)]; [done|]. rewrite Nat.sub_0_r in Hj. exists j, n.
    assert (n ∈ event_node_head s) as Hin by (by eapply list_elem_of_lookup_2). split; [done|]. split; [done|].
    split; [by apply Hc|]. apply andb_true_iff in Hm as [_ Hb]. apply bool_decide_eq_true in Hb.
    assert (ebuttons n = [e]) as Ee.
    { rewrite list.Forall_forall in Hok. destruct (Hok n Hin) as [Hz _ _]. rewrite (Hc n Hin) in Hz.
      destruct (ebuttons n) as [|x [|y l]]; cbn in *; [done|congruence|]. unfold zlen in Hz. cbn in Hz. lia. }
    unfold fired. rewrite (filter_key _ j [e] (cb_of n)); [done|done|]. unfold table_of. rewrite list_lookup_fmap, Hj. cbn. by rewrite Ee.
  - destruct Hl as [_ Hn]. unfold table_of in He. rewrite <- list_fmap_compose in He.
    apply list_elem_of_fmap in He as (n & Hn1 & Hin). cbn in Hn1. rewrite list.Forall_forall in Hn.
    specialize (Hn n Hin). unfold matches, begins in Hn. rewrite <- Hn1, (Hc n Hin) in Hn. cbn [head] in Hn.
    rewrite !bool_decide_eq_true_2 in Hn by (done || lia). done.
Qed.

(** A button that reports a registered press makes its callback, and the pool is
    empty again. *)
Lemma active_fires s i b e t :
  core_ok s -> event_pool_depth s = 0 -> srv_happened_ms s = 0 ->
  Forall (fun n => button_count n = 1) (event_node_head s) -> NoDup (table_of s).*1 ->
  button_head s !! i = Some b -> pool_time b = Ret t -> e = Evt (button_id b) (press_type b) t ->
  [e] ∈ (table_of s).*1 ->
  exists ns p h, active_button i s =
      Ret (set_srv_happened h (put_button i (set_active 0 b) (repool ns 0 p (calls s ++ fired e (table_of s)) s))) /\
    h = 0 /\ zlen p = event_pool_size s /\ Forall (node_ok (event_pool_size s)) ns /\
    Forall (fun n => button_count n = 1) ns /\ (fun n => (ebuttons n, cb_of n)) <$> ns = table_of s.
Proof.
  intros Hcore Hd Hh Hc Hnd Hi Ht He Hin. pose proof Hcore as [Hb [Hn _ Hp]].
  destruct (last_fired s e Hn Hc Hnd Hin) as (j & n & Hlm & Hj & Hcn & Hfired).
  assert (1 <= event_pool_size s) as Hsz.
  { apply (Forall_lookup_1 _ _ _ _ Hn) in Hj. destruct Hj. lia. }
  unfold active_button, get_button. rewrite Hi. cbn [mbind outcome_bind].
  rewrite (decide_True (P := srv_happened_ms s = 0 \/ _)) by (by left).
  unfold event_pool_add, get_button. cbn [event_pool_size event_pool_depth set_srv_happened button_head event_pool].
  rewrite decide_False by lia. rewrite Hi. cbn [mbind outcome_bind]. fold (pool_time b). rewrite Ht. cbn [mbind outcome_bind].
  rewrite decide_True by lia. rewrite Hd. cbn [mbind outcome_bind]. rewrite (decide_False (P := 0 < 0)) by lia.
  cbn [mbind outcome_bind]. rewrite <- He.
  destruct (event_pool s) as [|e0 p0] eqn:Ep; [unfold zlen in Hp; cbn in Hp; lia|]. cbn [Z.to_nat insert list_insert].
  set (s2 := put_button i (set_active 0 b) _).
  assert (pool_ok s2) as Hok2.
  { split; [done|cbn; lia|]. change (zlen (e :: p0) = event_pool_size s). by rewrite <- Hp, !zlen_cons. }
  destruct (event_manage_eq s2 e p0 Hok2 eq_refl) as (p' & Hp' & ->). cbn [mbind outcome_bind].
  change (event_node_head s2) with (event_node_head s). assert (event_pool_depth s2 = 1) as -> by (cbn; lia). rewrite Hlm, Hj.
  rewrite (decide_True (P := 1 = button_count n)) by done. cbn [mbind outcome_bind]. 
  exists (mark (fun n => bool_decide (1 <= button_count n)) (fun _ => 1) e <$> event_node_head s), p', 0.
  split; [rewrite Hfired; reflexivity|]. split; [done|]. split; [done|].
  split; [by apply (marked_ok s2)|]. split.
  - apply Forall_fmap. eapply list.Forall_impl; [exact Hc|]. intros m Hm. unfold compose, mark. by destruct (matches _ _ _).
  - unfold table_of. rewrite <- list_fmap_compose. apply list_fmap_ext. intros k m _. unfold compose, mark.
    by destruct (matches _ _ _).
Qed.

Lemma sampled_idle b w : ~ busy b -> sampled b w = (Idle, None) /\ phase_of b = Idle.
Proof.
  unfold busy, sampled, phase_of. intros H. destruct (state b); try (exfalso; apply H; by right).
  rewrite decide_False by (intros ?; apply H; by left). done.
Qed.

Lemma plain_press tbl b t : plain tbl b -> t = 0 \/ t = 1 \/ t = 2 ->
  Z.testbit (event_flag b) t = true <-> [press_of b t] ∈ tbl.*1.
Proof.
  intros [_ _ [_ Hf] _ _] Ht. rewrite list.Forall_forall in Hf. apply Hf.
  rewrite !elem_of_cons. intuition.
Qed.

Lemma sampled_type b w t : (sampled b w).2 = Some t -> t = 0 \/ t = 1 \/ t = 2.
Proof.
  unfold sampled, gesture. destruct (phase_of b); cbn; try done.
  - destruct (pressed b w), (head (press_time b)); try (intros [= <-]; auto). case_decide; [intros [= <-]; auto|done].
  - destruct (pressed b w); [done|]. destruct long; [done|intros [= <-]; auto].
Qed.

(** The callbacks that are not there are not made. *)
Lemma fired_none e tbl : [e] ∉ tbl.*1 -> fired e tbl = [].
Proof.
  intros H. unfold fired. rewrite filter_none; [done|]. intros [k v] Hk Hin. cbn in Hk. subst k. apply H. by apply (list_elem_of_fmap_2 fst) in Hin.
Qed.

Lemma handle_single i s b :
  single s -> button_head s !! i = Some b ->
  exists s' b', handle_button i s = Ret s' /\ single s' /\ same_view (wld s) (wld s') /\ table_of s' = table_of s /\
    calls s' = calls s ++ emits (table_of s) (wld s) b /\ button_head s' = <[i := b']> (button_head s) /\
    same_reg b b' /\ phase_of b' = (sampled b (wld s)).1.
Proof.
  intros Hs Hi. pose proof Hs as [Hcore Hd Hh Hc Hnd Hbs]. destruct (Forall_lookup_1 _ _ _ _ Hbs Hi) as [Hpl Ha].
  pose proof (Forall_lookup_1 _ _ _ _ (co_buttons _ Hcore) Hi) as Hok.
  unfold handle_button, get_button. rewrite Hi. cbn [mbind outcome_bind]. unfold emits.
  destruct (decide (irq_flag b = 1 \/ state b <> NONE)) as [Hbz|Hnb].
  2: { exists s, b. destruct (sampled_idle b (wld s) Hnb) as [-> ->]. cbn [snd fst]. rewrite app_nil_r, list_insert_id by done.
       done. }
  destruct (button_hdl_gesture _ b s Hpl Hok Hbz Ha) as (b1 & s1 & E1 & Hst & Hr & Hph & Hpl1 & Hact).
  destruct (button_hdl_ok (set_irq_flag 0 b) s) as (b1' & s1' & E1' & Hhd); [destruct Hok; split; cbn; auto|done|].
  rewrite E1 in E1'. injection E1' as <- <-. pose proof (hd_ok _ _ _ _ _ Hhd) as Hok1. clear Hhd.
  rewrite E1. cbn [mbind outcome_bind]. destruct Hst as (st & w & -> & Hw).
  set (s2 := put_button i b1 _).
  assert (core_ok s2) as Hcore2.
  { destruct Hcore as [? [? ? ?]]. split; [by apply Forall_insert|by split]. }
  assert (button_head s2 !! i = Some b1) as Hi2 by (apply list_lookup_insert_eq; by eapply lookup_lt_Some).
  assert (forall a, <[i := set_active a b1]> (button_head s2) = <[i := set_active a b1]> (button_head s)) as Hins
    by (intros a; apply list_insert_insert_eq).
  assert (forall s', core_ok s' -> event_pool_depth s' = 0 -> srv_happened_ms s' = 0 ->
            Forall (fun n => button_count n = 1) (event_node_head s') -> table_of s' = table_of s ->
            (forall b', active b' = 0 -> plain (table_of s) b' -> button_head s' = <[i := b']> (button_head s) -> single s')) as Hmk.
  { intros s' H1 H2 H3 H4 H5 b' Ha' Hp' Hb'. split; try done; rewrite ?H5; [done|]. rewrite Hb'. by apply Forall_insert. }
  assert (active b1 = 0 -> emits (table_of s) (wld s) b = [] ->
    exists s' b', (if decide (active b1 = 1) then active_button i s2 else Ret s2) = Ret s' /\ single s' /\
      same_view (wld s) (wld s') /\ table_of s' = table_of s /\ calls s' = calls s ++ emits (table_of s) (wld s) b /\
      button_head s' = <[i := b']> (button_head s) /\ same_reg b b' /\ phase_of b' = (sampled b (wld s)).1) as Hquiet.
  { intros Ha1 Hem. rewrite decide_False by lia. exists s2, b1. split; [done|].
    split; [by eapply Hmk|]. rewrite Hem, app_nil_r. done. }
  unfold emits in Hquiet. destruct (sampled b (wld s)).2 as [t|] eqn:Et; [|by apply Hquiet].
  pose proof (plain_press _ b t Hpl (sampled_type _ _ _ Et)) as Hbit.
  destruct (Z.testbit (event_flag b) t) eqn:Eb.
  2: { apply Hquiet; [done|]. apply fired_none. intros Hin. apply Hbit in Hin. done. }
  destruct Hact as (Ha1 & Hty & Htm). rewrite decide_True by done.
  destruct (active_fires s2 i b1 (press_of b t) (time_of b t)) as (ns & p & h & -> & -> & Hzp & Hns & Hcn & Htb); try done.
  { unfold press_of. destruct Hr as [-> _]. by rewrite Hty. } { by apply Hbit. }
  set (s3 := set_srv_happened 0 _). exists s3, (set_active 0 b1). split; [done|].
  assert (plain (table_of s) (set_active 0 b1)) as Hpl2 by (destruct Hpl1; by split).
  assert (core_ok s3) as Hcore3.
  { split.
    - cbn. apply Forall_insert; [apply Hcore2|]. destruct Hok1. split; cbn; try done. by left.
    - split; cbn; [done|destruct Hcore as [_ [? ? ?]]; lia|done]. }
  assert (button_head s3 = <[i := set_active 0 b1]> (button_head s)) as Hb3 by apply Hins.
  split; [by apply (Hmk s3 Hcore3 eq_refl eq_refl Hcn Htb (set_active 0 b1) eq_refl Hpl2)|].
  split; [done|]. split; [done|]. split; [done|]. split; [done|]. done.
Qed.

Lemma sampled_view b w w' : same_view w w' -> sampled b w' = sampled b w.
Proof. intros [Hc Hp]. unfold sampled, pressed. rewrite Hc. destruct (param b); [by rewrite Hp|done]. Qed.
Lemma emits_view tbl b w w' : same_view w w' -> emits tbl w' b = emits tbl w b.
Proof. intros H. unfold emits. by rewrite (sampled_view b w w' H). Qed.

Definition sampled_to (w : world) (b b' : button) : Prop := same_reg b b' /\ phase_of b' = (sampled b w).1.

Lemma handle_from_single n : forall i s,
  single s -> length (button_head s) = (i + n)%nat ->
  exists s' bs', handle_from n i s = Ret s' /\ single s' /\ same_view (wld s) (wld s') /\ table_of s' = table_of s /\
    calls s' = calls s ++ concat (emits (table_of s) (wld s) <$> drop i (button_head s)) /\
    button_head s' = take i (button_head s) ++ bs' /\ Forall2 (sampled_to (wld s)) (drop i (button_head s)) bs'.
Proof.
  induction n as [|n IH]; intros i s Hs Hn; cbn [handle_from].
  { exists s, []. rewrite take_ge, drop_ge by lia. cbn. rewrite !app_nil_r. repeat (split; [done|]). constructor. }
  destruct (lookup_lt_is_Some_2 (button_head s) i) as [b Hi]; [lia|].
  destruct (handle_single i s b Hs Hi) as (s1 & b1 & -> & Hs1 & Hv1 & Ht1 & Hc1 & Hb1 & Hr1 & Hp1).
  cbn [mbind outcome_bind]. destruct (IH (S i) s1 Hs1) as (s' & bs' & -> & Hs' & Hv' & Ht' & Hc' & Hb' & Hf').
  { rewrite Hb1, length_insert. lia. }
  rewrite Hb1, drop_insert_lt in Hc', Hf' by lia. rewrite Hb1 in Hb'.
  exists s', (b1 :: bs'). split; [done|]. split; [done|]. split.
  { destruct Hv1 as [H1 H2], Hv' as [H3 H4]. split; [congruence|]. intros q. by rewrite H4, H2. }
  split; [congruence|]. rewrite (drop_S (button_head s) b i Hi). split; [|split].
  - rewrite Hc', Hc1, Ht1. cbn. rewrite <- app_assoc. do 2 f_equal. f_equal. apply list_fmap_ext. intros k x _. by apply emits_view.
  - rewrite Hb'. rewrite (take_S_r _ _ b1) by (apply list_lookup_insert_eq; lia). rewrite take_insert_ge by lia.
    by rewrite <- app_assoc.
  - constructor; [done|]. eapply list.Forall2_impl; [exact Hf'|]. intros x y [Hx Hy]. split; [done|].
    by rewrite (sampled_view x _ _ Hv1) in Hy.
Qed.

Lemma sttime_gpio n : forall i s,
  Forall (fun b => plain (table_of s) b /\ active b = 0) (button_head s) -> (i + n <= length (button_head s))%nat ->
  sttime_from n i s = Ret s.
Proof.
  induction n as [|n IH]; intros i s Hb Hi; cbn [sttime_from]; [done|].
  destruct (lookup_lt_is_Some_2 (button_head s) i) as [b Hbi]; [lia|]. unfold get_button. rewrite Hbi.
  cbn [mbind outcome_bind]. destruct (Forall_lookup_1 _ _ _ _ Hb Hbi) as [[Hg _ _ _ _] _].
  unfold adc_sttime_check1. destruct (param b); [|done]. cbn [mbind outcome_bind].
  assert (put_button i b s = s) as ->; [|apply IH; [done|lia]].
  unfold put_button. rewrite list_insert_id by done. by destruct s.
Qed.

(** One run of the timer function. *)
Lemma tick_ok s : single s ->
  exists s', button_timer_entry s = Ret s' /\ single s' /\ same_view (wld s) (wld s') /\ table_of s' = table_of s /\
    calls s' = calls s ++ concat (emits (table_of s) (wld s) <$> button_head s) /\
    Forall2 (sampled_to (wld s)) (button_head s) (button_head s').
Proof.
  intros Hs. unfold button_timer_entry.
  set (s1 := timer_stop (set_start_tmr 0 s)).
  assert (forall s, single s -> forall t a r, single (set_tmr t (set_start_tmr a (set_adc_start_read r s)))) as Hset.
  { intros x [[? [? ? ?]] ? ? ? ? ?] t a r. by split. }
  rewrite (decide_False (P := event_pool_depth s1 <> 0)) by (intros H; apply H; apply Hs). cbn [mbind outcome_bind].
  unfold button_adc_sttime_check. rewrite sttime_gpio; [|apply Hs|done]. cbn [mbind outcome_bind].
  destruct (handle_from_single (length (button_head s)) 0 (button_adc_start_read s1)) as
    (s' & bs' & E & Hs' & Hv' & Ht' & Hc' & Hb' & Hf'); [|done|].
  { destruct Hs as [[? [? ? ?]] ? ? ? ? ?]. by split. }
  change (button_head (button_adc_start_read s1)) with (button_head s) in *. rewrite E. cbn [mbind outcome_bind].
  cbn [take app] in Hb'. rewrite drop_0 in *. eexists. split; [done|].
  assert (forall x, x = s' \/ x = timer_start s' -> single x /\ same_view (wld s) (wld x) /\ table_of x = table_of s /\
    calls x = calls s ++ concat (emits (table_of s) (wld s) <$> button_head s) /\
    Forall2 (sampled_to (wld s)) (button_head s) (button_head x)) as H; [|apply H; destruct (decide _); auto].
  intros x [->| ->]; [by rewrite Hb'|]. split; [|cbn; by rewrite Hb'].
  destruct Hs' as [[? [? ? ?]] ? ? ? ? ?]. by split.
Qed.

(** ** Runs *)

(** The timer function run in a sequence of surroundings. *)
Fixpoint ticks (ws : list world) (s : srv) : outcome srv :=
  match ws with
  | [] => Ret s
  | w :: ws => s ← button_timer_entry (set_wld w s); ticks ws s
  end.

(** A run of one button's automaton: last phase and presses reported. *)
Fixpoint gestures (limit : option Z) (samples : list (bool * Z)) (ph : phase) : phase * list Z :=
  match samples with
  | [] => (ph, [])
  | (p, t) :: samples =>
      let '(ph, o) := gesture limit p t ph in
      let '(ph, os) := gestures limit samples ph in
      (ph, match o with Some x => x :: os | None => os end)
  end.

Definition samples (b : button) (ws : list world) : list (bool * Z) :=
  (fun w => (pressed b w, clock w)) <$> ws.

Definition others_idle (i : nat) (s : srv) : Prop :=
  forall j b, j <> i -> button_head s !! j = Some b -> phase_of b = Idle.

Lemma single_world w s : single s -> single (set_wld w s).
Proof. intros [[? [? ? ?]] ? ? ? ? ?]. by split. Qed.

Lemma emits_idle tbl w b : phase_of b = Idle -> emits tbl w b = [].
Proof. intros H. unfold emits, sampled. by rewrite H. Qed.

Lemma concat_one {A B} (f : A -> list B) (l : list A) i a :
  l !! i = Some a -> (forall j x, j <> i -> l !! j = Some x -> f x = []) -> concat (f <$> l) = f a.
Proof.
  revert i. induction l as [|x l IH]; intros i Hi Ho; [done|]. destruct i as [|i]; cbn in *.
  - injection Hi as ->. assert (concat (f <$> l) = []) as ->; [|apply app_nil_r].
    assert (forall j x, l !! j = Some x -> f x = []) as Ho' by (intros j x Hj; by apply (Ho (S j))).
    clear -Ho'. induction l as [|y l IH]; [done|]. cbn. rewrite (Ho' O y eq_refl). apply IH. intros j x. apply (Ho' (S j)).
  - rewrite (Ho O x) by done. apply (IH i); [done|]. intros j y Hj Hy. apply (Ho (S j)); [lia|done].
Qed.

(** While the other buttons are idle, a run makes the callbacks of one button's
    presses, in order. *)
Lemma ticks_alone ws : forall s i b,
  single s -> button_head s !! i = Some b -> others_idle i s ->
  exists s' b', ticks ws s = Ret s' /\ single s' /\ table_of s' = table_of s /\ others_idle i s' /\
    button_head s' !! i = Some b' /\ same_reg b b' /\
    phase_of b' = (gestures (head (press_time b)) (samples b ws) (phase_of b)).1 /\
    calls s' = calls s ++ concat ((fun t => fired (press_of b t) (table_of s)) <$>
                 (gestures (head (press_time b)) (samples b ws) (phase_of b)).2).
Proof.
  induction ws as [|w ws IH]; intros s i b Hs Hi Hoth; cbn [ticks].
  { exists s, b. cbn. rewrite app_nil_r. done. }
  destruct (tick_ok (set_wld w s) (single_world w s Hs)) as (s1 & -> & Hs1 & _ & Ht1 & Hc1 & Hf1).
  cbn [mbind outcome_bind]. change (button_head (set_wld w s)) with (button_head s) in *.
  change (wld (set_wld w s)) with w in *. change (table_of (set_wld w s)) with (table_of s) in *.
  change (calls (set_wld w s)) with (calls s) in *.
  destruct (Forall2_lookup_l _ _ _ _ _ Hf1 Hi) as (b1 & Hi1 & Hr1 & Hp1).
  assert (others_idle i s1) as Hoth1.
  { intros j x Hj Hx. destruct (Forall2_lookup_r _ _ _ _ _ Hf1 Hx) as (y & Hy & _ & ->).
    unfold sampled. by rewrite (Hoth j y Hj Hy). }
  destruct (IH s1 i b1 Hs1 Hi1 Hoth1) as (s' & b' & -> & Hs' & Ht' & Hoth' & Hi' & Hr' & Hp' & Hc').
  assert (samples b1 ws = samples b ws) as Hsm.
  { apply list_fmap_ext. intros k x _. destruct Hr1 as (_ & _ & _ & Hpr). by rewrite Hpr. }
  pose proof Hr1 as (Hid & Htm & Hfl & Hpr).
  rewrite Htm, Hsm, Hp1 in Hp', Hc'. exists s', b'. split; [done|]. split; [done|]. split; [congruence|].
  split; [done|]. split; [done|]. split.
  { destruct Hr' as (? & ? & ? & Hpr'). split; [congruence|]. split; [congruence|]. split; [congruence|].
    intros x. by rewrite Hpr', Hpr. }
  cbn [samples fmap list_fmap gestures]. fold (samples b ws).
  change (gesture (head (press_time b)) (pressed b w) (clock w) (phase_of b)) with (sampled b w).
  destruct (sampled b w) as [ph o] eqn:Esm. cbn [fst] in Hp', Hc'.
  destruct (gestures (head (press_time b)) (samples b ws) ph) as [ph' os] eqn:Eg. cbn [fst snd] in *.
  split; [done|]. rewrite Hc', Hc1, Ht1.
  rewrite (concat_one _ _ i b Hi) by (intros j x Hj Hx; apply emits_idle; by apply (Hoth j)).
  unfold emits. rewrite Esm. cbn [snd]. rewrite <- app_assoc. f_equal.
  assert (forall t, press_of b1 t = press_of b t) as Hpo by (intros t; by apply same_reg_press).
  assert (concat ((fun t => fired (press_of b1 t) (table_of s)) <$> os) =
          concat ((fun t => fired (press_of b t) (table_of s)) <$> os)) as ->
    by (f_equal; apply list_fmap_ext; intros k x _; by rewrite Hpo).
  by destruct o.
Qed.

End Tick.
