(* ===== verification/ButtonTheorems.v ===== *)
(** * Button service: what it promises

    Safety of every interleaving, the product's configuration, debouncing and the
    callbacks of clicks and long presses, and where the code goes wrong. *)

From stdpp Require Import sorting relations.
From S2P Require Import Prelude Button ButtonSort ButtonPool ButtonProofs ButtonReg ButtonGesture ButtonTick.

(** A GPIO button whose interrupt is off is being watched. *)
Definition watched `{ButtonHal} (s : srv) (b : button) : Prop :=
  match param b with
  | Gpio _ _ _ on => on = true \/ tmr s = Some true
  | Adc _ _ _ _ => tmr s = Some true \/ adc_flag s = 0
  end.

Section Service.
Context `{BH : ButtonHal}.


(** A combination is recognised by its first element only: which
    callbacks [event_manage] makes does not depend on the presses collected after the
    first, so an event for pressing A then B also fires for A then C. *)
Theorem button_combo_first_only s e p p2 :
  pool_ok s -> event_pool s = e :: p -> zlen p2 = zlen p ->
  exists s1 s2, event_manage s = Ret s1 /\ event_manage (set_pool (e :: p2) s) = Ret s2 /\
    calls s1 = calls s2 /\ event_pool_depth s1 = event_pool_depth s2.
Proof.
  intros Hok Ep Hlen.
  assert (pool_ok (set_pool (e :: p2) s)) as Hok2.
  { destruct Hok as [? ? Hp]. split; [done|done|]. change (zlen (e :: p2) = event_pool_size s).
    rewrite <- Hp, Ep, !zlen_cons. lia. }
  destruct (event_manage_eq s e p Hok Ep) as (q & _ & ->).
  destruct (event_manage_eq (set_pool (e :: p2) s) e p2 Hok2 eq_refl) as (q2 & _ & ->).
  eexists _, _. split; [done|]. split; [done|].
  change (event_node_head (set_pool (e :: p2) s)) with (event_node_head s).
  change (event_pool_depth (set_pool (e :: p2) s)) with (event_pool_depth s).
  destruct (last_match _ _ _ _ _) as [j|].
  - destruct (event_node_head s !! j) as [n|]; [|done]. by destruct (decide _).
  - destruct (first_match _ _ _) as [n|]; [|done]. by destruct (decide _).
Qed.

(** ** Deinitialisation *)

Lemma adc_deinit_eq h s : adc_deinit h s = Crash \/
  exists s', adc_deinit h s = Ret s' /\ (forall n, (exists p, adcs s' !! n = Some (p, true)) -> exists p, adcs s !! n = Some (p, true)) /\
    (forall n, h = Some n -> ~ exists p, adcs s' !! n = Some (p, true)).
Proof.
  unfold adc_deinit. destruct h as [h|]; [|right; by exists s]. destruct (adcs s !! h) as [[port []]|] eqn:E; [|by left|by left].
  right. eexists. split; [done|]. cbn. split.
  - intros n [p Hn]. destruct (decide (n = h)) as [->|]; [by exists port|]. rewrite list_lookup_insert_ne in Hn by done. eauto.
  - intros n [= <-] [p Hp]. rewrite list_lookup_insert_eq in Hp by (by eapply lookup_lt_Some). done.
Qed.

(** A device that is not allocated any more cannot be released. *)
Lemma deinit_freed bs : forall s b ch v r n,
  b ∈ bs -> param b = Adc ch v r (Some n) -> ~ (exists p, adcs s !! n = Some (p, true)) -> deinit_buttons bs s = Crash.
Proof.
  induction bs as [|b0 bs IH]; intros s b ch v r n Hin Hp Hn; [by apply not_elem_of_nil in Hin|].
  cbn [deinit_buttons]. apply elem_of_cons in Hin as [->|Hin].
  - rewrite Hp. unfold adc_deinit. destruct (adcs s !! n) as [[port []]|] eqn:E; try done. exfalso. apply Hn. eauto.
  - destruct (param b0) as [|? ? ? h]; [by eapply IH|].
    destruct (adc_deinit_eq h s) as [->|(s' & -> & Hm & _)]; [done|]. cbn [mbind outcome_bind].
    eapply IH; [done|done|]. intros H. apply Hn. by apply Hm.
Qed.

Lemma deinit_twice bs b1 b2 ch1 v1 r1 ch2 v2 r2 n : forall pre s,
  param b1 = Adc ch1 v1 r1 (Some n) -> param b2 = Adc ch2 v2 r2 (Some n) -> b2 ∈ bs ->
  deinit_buttons (pre ++ b1 :: bs) s = Crash.
Proof.
  intros pre. induction pre as [|b pre IH]; intros s H1 H2 Hin; cbn [app deinit_buttons].
  - rewrite H1. destruct (adc_deinit_eq (Some n) s) as [->|(s' & -> & _ & Hn)]; [done|]. cbn [mbind outcome_bind].
    eapply deinit_freed; [done|done|by apply Hn].
  - destruct (param b) as [|? ? ? h]; [by apply IH|].
    destruct (adc_deinit_eq h s) as [->|(s' & -> & _ & _)]; [done|]. cbn [mbind outcome_bind]. by apply IH.
Qed.

Lemma adc_find_app port devs bs b ch v r n live :
  param b = Adc ch v r (Some n) -> devs !! n = Some (port, live) ->
  button_adc_find port devs (bs ++ [b]) = Some (default n (button_adc_find port devs bs)).
Proof.
  intros Hp Hn. induction bs as [|b0 bs IH]; cbn [app button_adc_find].
  - rewrite Hp, Hn. by rewrite decide_True.
  - destruct (param b0) as [|? ? ? [h|]]; [done| |done]. destruct (devs !! h) as [[p l]|]; [|done]. by case_decide.
Qed.

Lemma adc_find_devs port devs x bs :
  Forall (btn_ok devs) bs -> button_adc_find port (devs ++ x) bs = button_adc_find port devs bs.
Proof.
  intros H. induction H as [|b bs Hb _ IH]; [done|]. cbn. pose proof (bo_dev _ _ Hb) as Hd.
  destruct (param b) as [|? ? ? [h|]]; cbn in Hd; [done| |done]. destruct Hd as (n & p & [= <-] & Hn).
  rewrite (lookup_app_l_Some _ _ _ _ Hn), Hn. by case_decide.
Qed.

Lemma find_id_app id b bs : forall k, find_id id k bs = None -> button_id b <> id -> find_id id k (bs ++ [b]) = None.
Proof.
  induction bs as [|b0 bs IH]; intros k Hk Hb; cbn in *; [by rewrite decide_False|]. case_decide; [done|]. by apply IH.
Qed.

(** Two ADC buttons on one channel share a device, and
    [button_deinit] releases it once per button: the second release is a double free. *)
Theorem button_deinit_double_free s id1 id2 ch v1 r1 v2 r2 :
  srv_ok s -> inited s <> 0 -> v1 <> 0 -> v2 <> 0 -> id1 <> id2 ->
  button_find id1 s = None -> button_find id2 s = None ->
  let s1 := (button_add_adc id1 ch v1 r1 s).2 in
  let s2 := (button_add_adc id2 ch v2 r2 s1).2 in
  (button_add_adc id1 ch v1 r1 s).1 = 0 /\ (button_add_adc id2 ch v2 r2 s1).1 = 0 /\ button_deinit s2 = Crash.
Proof.
  intros Hok Hin Hv1 Hv2 Hne Hf1 Hf2 s1 s2. pose proof Hok as [[Hb _] _ _ _ _ _].
  set (h := default (length (adcs s)) (button_adc_find (u8 ch) (adcs s) (button_head s))).
  set (b1 := new_button id1 (Adc ch v1 r1 (Some h))).
  set (b2 := new_button id2 (Adc ch v2 r2 (Some h))).
  assert (button_add_adc id1 ch v1 r1 s = (0, s1) /\ button_head s1 = button_head s ++ [b1] /\ inited s1 = inited s /\
          button_adc_find (u8 ch) (adcs s1) (button_head s1) = Some h) as (E1 & Hb1 & Hi1 & Hfind).
  { unfold s1, button_add_adc. rewrite (decide_True (P := v1 <> 0)) by done. unfold buttton_check. rewrite Hf1.
    rewrite decide_False by lia. destruct (button_adc_find (u8 ch) (adcs s) (button_head s)) as [h0|] eqn:Ef.
    - split; [done|]. split; [done|]. split; [done|]. cbn.
      pose proof (adc_find_some _ _ _ _ Hb Ef) as Hh0. erewrite adc_find_app by done. by rewrite Ef.
    - split; [done|]. split; [done|]. split; [done|]. cbn.
      erewrite adc_find_app; [|done|by apply list_lookup_middle]. by rewrite adc_find_devs, Ef. }
  assert (button_find id2 s1 = None) as Hf2'.
  { unfold button_find. rewrite Hb1. by apply find_id_app. }
  assert (button_add_adc id2 ch v2 r2 s1 = (0, s2) /\ button_head s2 = button_head s1 ++ [b2] /\ inited s2 = inited s1)
    as (E2 & Hb2 & Hi2).
  { unfold s2, button_add_adc. rewrite (decide_True (P := v2 <> 0)) by done. unfold buttton_check. rewrite Hf2'.
    rewrite decide_False by lia. rewrite Hfind. done. }
  rewrite E1, E2. split; [done|]. split; [done|]. unfold button_deinit. rewrite decide_False by congruence.
  rewrite Hb2, Hb1, <- app_assoc. cbn [app].
  erewrite (deinit_twice [b2] b1 b2); [done|done|done|]. apply list_elem_of_singleton. done.
Qed.

(** The bounds of an ADC button are compared as unsigned numbers: with a range
    above the reference no reading counts as pressed. *)
Lemma button_adc_low_reference vref range value :
  0 <= vref < range -> range < 2 ^ 30 -> 0 <= value < 2 ^ 31 -> button_adc_check vref range value = 0.
Proof.
  intros Hv Hr Hval. unfold button_adc_check. rewrite decide_False; [done|]. intros [_ H].
  assert (u32 (vref - range) = vref - range + 2 ^ 32) as E.
  { unfold u32. symmetry. apply Z.mod_unique with (q := -1); lia. }
  lia.
Qed.

End Service.

Section Gestures.
Context `{SH : SteadyHal}.

(** For an application that registers single presses, one run of the
    timer is one sample of every button: each button's phase advances as [gesture]
    says, and the callbacks made are exactly those registered for the presses the
    buttons report, in the order of the buttons; nothing is left in the pool. *)
Theorem button_timer_samples s :
  single s ->
  exists s', button_timer_entry s = Ret s' /\ single s' /\ table_of s' = table_of s /\
    calls s' = calls s ++ concat (emits (table_of s) (wld s) <$> button_head s) /\
    Forall2 (sampled_to (wld s)) (button_head s) (button_head s').
Proof.
  intros Hs. destruct (tick_ok s Hs) as (s' & E & Hs' & _ & H). by exists s'.
Qed.

(** Phases while a button is held down. *)
Lemma gestures_app l xs : forall ys ph,
  gestures l (xs ++ ys) ph =
    ((gestures l ys (gestures l xs ph).1).1, (gestures l xs ph).2 ++ (gestures l ys (gestures l xs ph).1).2).
Proof.
  induction xs as [|[p t] xs IH]; intros ys ph; cbn; [by destruct (gestures l ys ph)|].
  destruct (gesture l p t ph) as [ph1 o]. rewrite IH. destruct (gestures l xs ph1) as [ph2 os]. cbn. by destruct o.
Qed.

Lemma gestures_stay l xs ph :
  Forall (fun x => gesture l x.1 x.2 ph = (ph, None)) xs -> gestures l xs ph = (ph, []).
Proof. intros H. induction H as [|[p t] xs Hx _ IH]; [done|]. cbn in *. by rewrite Hx, IH. Qed.

Lemma stay_bouncing l st xs : Forall (fun x => x.1 = true /\ x.2 - st < 90) xs -> gestures l xs (Bouncing st) = (Bouncing st, []).
Proof.
  intros H. apply gestures_stay. eapply list.Forall_impl; [exact H|]. intros [p t] [-> Ht]. cbn in *. by rewrite decide_False by lia.
Qed.

Lemma stay_held l long xs : Forall (fun x => x.1 = true) xs -> gestures l xs (Held long) = (Held long, []).
Proof. intros H. apply gestures_stay. eapply list.Forall_impl; [exact H|]. by intros [p t] ->. Qed.

Lemma stay_confirmed l st xs :
  Forall (fun x => x.1 = true /\ x.2 - st < l) xs -> gestures (Some l) xs (Confirmed st) = (Confirmed st, []).
Proof.
  intros H. apply gestures_stay. eapply list.Forall_impl; [exact H|]. intros [p t] [-> Ht]. cbn in *. by rewrite decide_False by lia.
Qed.

(** C34. Debouncing, clicks and long presses, end to end: after the interrupt
    at time [st] of one button, while the others are idle, (1) a contact that is
    released before it is seen pressed for 90 ms makes no callback; (2) on a button
    without long-press time, a press seen for 90 ms and released makes the callbacks for
    pressing down and then for releasing, each once, however long it is held; (3) on a
    button with long-press time [l], a press seen for [l] makes the long-press callback
    once, and none for releasing.  In each case the button ends idle. *)
Theorem button_gestures s i b st ws :
  single s -> button_head s !! i = Some b -> phase_of b = Flagged st -> others_idle i s ->
  exists s' b', ticks ws s = Ret s' /\ single s' /\ button_head s' !! i = Some b' /\ others_idle i s' /\
  (forall t0 bounce t1,
     samples b ws = (true, t0) :: bounce ++ [(false, t1)] -> Forall (fun x => x.1 = true /\ x.2 - st < 90) bounce ->
     phase_of b' = Idle /\ calls s' = calls s) /\
  (forall t0 bounce t1 p t2 held t3 q t4,
     samples b ws = (true, t0) :: bounce ++ (true, t1) :: (p, t2) :: held ++ [(false, t3); (q, t4)] ->
     Forall (fun x => x.1 = true /\ x.2 - st < 90) bounce -> 90 <= t1 - st -> Forall (fun x => x.1 = true) held ->
     press_time b = [] ->
     phase_of b' = Idle /\
     calls s' = calls s ++ fired (press_of b BUTTON_PRESS_DOWN) (table_of s) ++ fired (press_of b BUTTON_PRESS_UP) (table_of s)) /\
  (forall l t0 bounce t1 wait t2 held t3 q t4,
     samples b ws = (true, t0) :: bounce ++ (true, t1) :: wait ++ (true, t2) :: held ++ [(false, t3); (q, t4)] ->
     Forall (fun x => x.1 = true /\ x.2 - st < 90) bounce -> 90 <= t1 - st ->
     Forall (fun x => x.1 = true /\ x.2 - st < l) wait -> l <= t2 - st -> Forall (fun x => x.1 = true) held ->
     press_time b = [l] ->
     phase_of b' = Idle /\ calls s' = calls s ++ fired (press_of b BUTTON_PRESS_LONG_DOWN) (table_of s)).
Proof.
  intros Hs Hi Hph Ho. destruct (ticks_alone ws s i b Hs Hi Ho) as (s' & b' & E & Hs' & _ & Ho' & Hi' & _ & Hp' & Hc').
  exists s', b'. split; [done|]. split; [done|]. split; [done|]. split; [done|]. rewrite Hph in Hp', Hc'.
  split; [|split].
  - intros t0 bounce t1 Hsm Hbo. rewrite Hsm in Hp', Hc'. cbn in Hp', Hc'.
    rewrite gestures_app, (stay_bouncing _ _ _ Hbo) in Hp', Hc'. cbn in Hp', Hc'. by rewrite app_nil_r in Hc'.
  - intros t0 bounce t1 p t2 held t3 q t4 Hsm Hbo Ht1 Hh Hpt. rewrite Hsm, Hpt in Hp', Hc'. cbn in Hp', Hc'.
    rewrite gestures_app, (stay_bouncing _ _ _ Hbo) in Hp', Hc'. cbn in Hp', Hc'. rewrite decide_True in Hp', Hc' by lia.
    assert (forall x, gesture None p x (Confirmed st) = (Held false, Some BUTTON_PRESS_DOWN)) as Hd by (intros x; by destruct p).
    cbn in Hd. destruct p; cbn in Hp', Hc'.
    all: rewrite gestures_app, (stay_held _ _ _ Hh) in Hp', Hc'; cbn in Hp', Hc'; by rewrite app_nil_r in Hc'.
  - intros l t0 bounce t1 wait t2 held t3 q t4 Hsm Hbo Ht1 Hw Ht2 Hh Hpt. rewrite Hsm, Hpt in Hp', Hc'. cbn in Hp', Hc'.
    rewrite gestures_app, (stay_bouncing _ _ _ Hbo) in Hp', Hc'. cbn in Hp', Hc'. rewrite decide_True in Hp', Hc' by lia.
    rewrite gestures_app, (stay_confirmed _ _ _ Hw) in Hp', Hc'. cbn in Hp', Hc'. rewrite decide_True in Hp', Hc' by lia.
    rewrite gestures_app, (stay_held _ _ _ Hh) in Hp', Hc'. cbn in Hp', Hc'. by rewrite app_nil_r in Hc'.
Qed.

End Gestures.

(** ** The product *)

#[export] Instance snapshot_steady : SteadyHal (BH := snapshot) := {|
  clock := fun w : world (ButtonHal := snapshot) => w.2;
  pin := fun w : world (ButtonHal := snapshot) => w.1;
  now_steady := fun w => ex_intro _ w (conj eq_refl (conj eq_refl (fun _ => eq_refl)));
  gpio_steady := fun _ w => ex_intro _ w (conj eq_refl (conj eq_refl (fun _ => eq_refl)))
|}.

(** The service's variables before [button_init]. *)
Definition srv0 `{ButtonHal} (w : world) : srv := Srv _ None 0 0 0 [] [] 0 [] 0 0 0 0 [] [] w.

Lemma add_gpios_ok `{BH : ButtonHal} confs : forall s, srv_ok s -> srv_ok (add_gpios confs s).
Proof.
  induction confs as [|[[id pin] level] confs IH]; intros s Hs; [done|]. cbn [add_gpios]. apply IH. by apply add_gpio_ok.
Qed.

Lemma add_events_ok `{BH : ButtonHal} confs cb prv : forall s, srv_ok s ->
  exists s', add_events confs cb prv s = Ret s' /\ srv_ok s'.
Proof.
  induction confs as [|[[[[id1 id2] msg] type] time] confs IH]; intros s Hs; cbn [add_events]; [by exists s|].
  destruct (add_event_ok msg (Some (if decide (id2 = BUTTON_ID_NULL) then [Evt id1 type time]
     else [Evt id1 BUTTON_PRESS_LONG_DOWN time; Evt id2 BUTTON_PRESS_LONG_DOWN time])) cb prv s Hs) as (r & s1 & -> & Hs1).
  cbn [mbind outcome_bind]. by apply IH.
Qed.

(** What the product registers: element and message. *)
Definition board_table : list (list button_evt * Z) :=
  [([Evt BUTTON_ID_VOL_UP BUTTON_PRESS_UP 0], KEY_MSG_VOL_UP);
   ([Evt BUTTON_ID_VOL_UP BUTTON_PRESS_DOWN 0], KEY_MSG_VOL_UP_0);
   ([Evt BUTTON_ID_VOL_DOWN BUTTON_PRESS_UP 0], KEY_MSG_VOL_DOWN);
   ([Evt BUTTON_ID_VOL_DOWN BUTTON_PRESS_DOWN 0], KEY_MSG_VOL_DOWN_0);
   ([Evt BUTTON_ID_PLAY BUTTON_PRESS_UP 0], KEY_MSG_PLAY);
   ([Evt BUTTON_ID_USER BUTTON_PRESS_LONG_DOWN 6000], KEY_MSG_FACTORY);
   ([Evt BUTTON_ID_USER BUTTON_PRESS_UP 0], KEY_MSG_USER)].

Section Product.
Context `{SH : SteadyHal}.

Lemma list4_inj {A} (x1 x2 x3 x4 y1 y2 y3 y4 : A) :
  [x1; x2; x3; x4] = [y1; y2; y3; y4] -> x1 = y1 /\ x2 = y2 /\ x3 = y3 /\ x4 = y4.
Proof. by intros [= -> -> -> ->]. Qed.

Lemma idle_phase b : state b = NONE -> irq_flag b = 0 -> phase_of b = Idle.
Proof. intros H1 H2. unfold phase_of. by rewrite H1, H2. Qed.

Lemma plain_idle (tbl : table) b par id times flag :
  (param b, button_id b, press_time b, event_flag b) = (par, id, times, flag) -> state b = NONE ->
  match par with Gpio _ _ _ _ => True | Adc _ _ _ _ => False end ->
  zlen times <= 1 /\ 0 <= flag < 8 /\
    Forall (fun t => Z.testbit flag t = true <->
      [Evt id t (if decide (t = BUTTON_PRESS_LONG_DOWN) then default 0 (head times) else 0)] ∈ tbl.*1) [0; 1; 2] ->
  plain tbl b.
Proof.
  intros [= Hp Hi Ht Hf] Hst Hpar (H1 & H2 & H3). split; [by rewrite Hp|by rewrite Ht| |by rewrite Hst|by rewrite Hst].
  unfold flags_ok, press_of, time_of. by rewrite Hi, Ht, Hf.
Qed.

Lemma board_eval p prv w : exists s,
  board_button_init (Z.pos p) prv (srv0 w) = Ret s /\
  table_of s = (fun x => (x.1, (Z.pos p, x.2, prv))) <$> board_table /\
  event_pool_depth s = 0 /\ srv_happened_ms s = 0 /\ adc_flag s = 0 /\ calls s = [] /\ tmr s = Some false /\
  button_count <$> event_node_head s = replicate 7 1 /\
  (fun b => (param b, button_id b, press_time b, event_flag b)) <$> button_head s =
    [(Gpio 11 0 true true, 1, [], 3); (Gpio 5 0 true true, 2, [], 3);
     (Gpio 24 1 true true, 4, [], 2); (Gpio 19 0 true true, 5, [6000], 6)] /\
  (fun b => (state b, active b, irq_flag b, press_time_subscript b)) <$> button_head s = replicate 4 (NONE, 0, 0, 0).
Proof. eexists. split; [vm_compute; reflexivity|]. repeat split. Qed.

Lemma board_ok cb prv w s : board_button_init cb prv (srv0 w) = Ret s -> srv_ok s.
Proof.
  unfold board_button_init. pose proof (add_gpios_ok button_gpio_confs _ (init_ok (srv0 w) eq_refl)) as H.
  destruct (add_events_ok button_event_confs cb prv _ H) as (s' & -> & Hs'). by intros [= <-].
Qed.

Lemma board_plain p prv s :
  table_of s = (fun x => (x.1, (Z.pos p, x.2, prv))) <$> board_table ->
  (fun b => (param b, button_id b, press_time b, event_flag b)) <$> button_head s =
    [(Gpio 11 0 true true, 1, [], 3); (Gpio 5 0 true true, 2, [], 3);
     (Gpio 24 1 true true, 4, [], 2); (Gpio 19 0 true true, 5, [6000], 6)] ->
  (fun b => (state b, active b, irq_flag b, press_time_subscript b)) <$> button_head s = replicate 4 (NONE, 0, 0, 0) ->
  NoDup (table_of s).*1 /\ Forall (fun b => plain (table_of s) b /\ active b = 0) (button_head s) /\
  length (button_head s) = 4%nat /\ Forall (fun b => phase_of b = Idle) (button_head s).
Proof.
  intros -> Hreg Hst. split; [by_decide|].
  destruct (button_head s) as [|b1 [|b2 [|b3 [|b4 [|b5 l]]]]]; try done. cbn [fmap list_fmap replicate] in Hreg, Hst.
  apply list4_inj in Hreg as (R1 & R2 & R3 & R4). apply list4_inj in Hst as (S1 & S2 & S3 & S4).
  injection S1 as ????. injection S2 as ????. injection S3 as ????. injection S4 as ????. split; [|split; [done|]].
  - repeat (constructor; [split; [|done]|]); [..|constructor].
    all: eapply plain_idle; [eassumption|done|done|by_decide].
  - repeat (constructor; [by apply idle_phase|]). constructor.
Qed.

Lemma board_single_ok p prv w :
  exists s, board_button_init (Z.pos p) prv (srv0 w) = Ret s /\ srv_ok s /\ single s /\
    table_of s = (fun x => (x.1, (Z.pos p, x.2, prv))) <$> board_table /\
    length (button_head s) = 4%nat /\ Forall (fun b => phase_of b = Idle) (button_head s).
Proof.
  destruct (board_eval p prv w) as (s & E & Ht & Hd & Hh & _ & _ & _ & Hc & Hreg & Hst).
  destruct (board_plain p prv s Ht Hreg Hst) as (Hnd & Hpl & Hlen & Hidle). pose proof (board_ok _ _ _ _ E) as Hok.
  exists s. split; [exact E|]. split; [exact Hok|]. split; [|exact (conj Ht (conj Hlen Hidle))].
  split; [apply Hok|exact Hd|exact Hh| |exact Hnd|exact Hpl].
  assert (Forall (fun c => c = 1) (button_count <$> event_node_head s)) as Hall by (rewrite Hc; by_decide).
  by apply Forall_fmap in Hall.
Qed.

(** The product's [board_button_init] registers all four buttons and all
    seven events of its tables, and they are single presses, so that the sampling and
    gesture theorems hold of the firmware; every button starts idle. *)
Theorem board_buttons_single p prv w :
  exists s, board_button_init (Z.pos p) prv (srv0 w) = Ret s /\ srv_ok s /\ single s /\
    table_of s = (fun x => (x.1, (Z.pos p, x.2, prv))) <$> board_table /\
    length (button_head s) = 4%nat /\ Forall (fun b => phase_of b = Idle) (button_head s).
Proof. apply board_single_ok. Qed.

End Product.

(** ** The theorems at work on the product's buttons *)

Definition d_world (level11 t : Z) : world (ButtonHal := snapshot) :=
  (fun p => if decide (p = 11) then level11 else if decide (p = 24) then 0 else 1, t).

Definition d_srv : srv (H := snapshot) :=
  match board_button_init 1 0 (srv0 (d_world 1 0)) with Ret s => s | Crash => srv0 (d_world 1 0) end.

(** After the interrupt of the volume-up button at time 1000. *)
Definition d_pressed : srv (H := snapshot) :=
  match pin_event 11 (set_wld (d_world 0 1000) d_srv) with Ret s => s | Crash => d_srv end.

Lemma d_srv_single : single d_srv.
Proof.
  destruct (board_single_ok 1 0 (d_world 1 0)) as (s & E & _ & Hs & _).
  unfold d_srv. by rewrite E.
Qed.

Lemma d_pressed_single : single d_pressed.
Proof.
  pose proof d_srv_single as [Hc Hd Hh Hn Ht _].
  assert (srv_ok d_srv) as Hok.
  { destruct (board_single_ok 1 0 (d_world 1 0)) as (s & E & Hs & _). unfold d_srv. by rewrite E. }
  assert (srv_ok d_pressed) as Hokp.
  { destruct (pin_event_ok 11 0 (set_wld (d_world 0 1000) d_srv)) as (s & E & Hs).
    - apply (step_ok d_srv); [constructor|done].
    - by vm_compute.
    - unfold d_pressed. by rewrite E. }
  split; [apply Hokp|by vm_compute|by vm_compute|by_decide|by_decide|].
  repeat (constructor; [split; [|by vm_compute]; split; [by vm_compute|by_decide|split; [by_decide|by_decide]|by vm_compute|by vm_compute]|]).
  constructor.
Qed.

(** Registering a button and an event for it, then its interrupt. *)
Definition d_init : srv (H := snapshot) := (button_init (srv0 (d_world 0 1000))).2.
Definition d_gpio : srv (H := snapshot) := (button_add_gpio 1 11 0 d_init).2.
Definition d_event : srv (H := snapshot) :=
  match button_add_event 0 (Some [Evt 1 0 0]) 1 0 d_gpio with Ret (_, s) => s | Crash => d_gpio end.
Definition d_irq : srv (H := snapshot) := match pin_event 11 d_event with Ret s => s | Crash => d_event end.


Lemma button_timer_samples_witness :
  exists s', button_timer_entry d_pressed = Ret s' /\ single s' /\ table_of s' = table_of d_pressed /\
    calls s' = calls d_pressed ++ concat (emits (table_of d_pressed) (wld d_pressed) <$> button_head d_pressed) /\
    Forall2 (sampled_to (wld d_pressed)) (button_head d_pressed) (button_head s').
Proof. apply (button_timer_samples d_pressed d_pressed_single). Defined.

(** A click of the volume-up button: pressed at 1000, sampled every 30 ms, released
    before the sample at 1180. *)
Definition d_click : list (world (ButtonHal := snapshot)) :=
  [d_world 0 1030; d_world 0 1060; d_world 0 1090; d_world 0 1120; d_world 0 1150; d_world 1 1180; d_world 1 1210].
Definition d_button : button := default (new_button 0 (Adc 0 0 0 None)) (head (button_head d_pressed)).

Lemma button_gestures_witness :
  exists s', ticks d_click d_pressed = Ret s' /\
    calls s' = [(1, KEY_MSG_VOL_UP_0, 0); (1, KEY_MSG_VOL_UP, 0)].
Proof.
  destruct (button_gestures d_pressed 0 d_button 1000 d_click) as (s' & b' & E & _ & _ & _ & _ & Hclick & _).
  - apply d_pressed_single.
  - by vm_compute.
  - by vm_compute.
  - intros [|[|[|[|j]]]] b Hj; [congruence|..]; vm_compute; [intros [= <-]; reflexivity..|discriminate].
  - exists s'. split; [done|].
    destruct (Hclick 1030 [(true, 1060)] 1090 true 1120 [(true, 1150)] 1180 false 1210) as [_ ->];
      [by vm_compute|by_decide|lia|by_decide|by vm_compute|by vm_compute].
Defined.

(** Two-button events on the product's pins, with the pool holding 1 then 2. *)
Definition d_combo : srv (H := snapshot) :=
  match button_add_event 20 (Some [Evt 1 0 0; Evt 2 0 0]) 1 0 d_srv with
  | Ret (_, s) => set_depth 2 (set_pool [Evt 1 0 0; Evt 2 0 0] s)
  | Crash => d_srv
  end.

Lemma button_combo_first_only_witness :
  exists s1 s2, event_manage d_combo = Ret s1 /\ event_manage (set_pool [Evt 1 0 0; Evt 5 1 0] d_combo) = Ret s2 /\
    calls s1 = calls s2 /\ event_pool_depth s1 = event_pool_depth s2.
Proof.
  apply (button_combo_first_only d_combo (Evt 1 0 0) [Evt 2 0 0] [Evt 5 1 0]); [|by vm_compute|done].
  split; [|by_decide|by vm_compute]. repeat (constructor; [split; by_decide|]). constructor.
Defined.

(** The event for 1 then 2 fires although 5 was released instead. *)
Lemma button_combo_fires_wrongly :
  match event_manage (set_pool [Evt 1 0 0; Evt 5 1 0] d_combo) with
  | Ret s => calls s = [(1, 20, 0)]
  | Crash => False
  end.
Proof. by vm_compute. Qed.

Lemma button_deinit_double_free_witness :
  let s1 := (button_add_adc 7 3 1000 50 d_gpio).2 in
  let s2 := (button_add_adc 8 3 2000 50 s1).2 in
  (button_add_adc 7 3 1000 50 d_gpio).1 = 0 /\ (button_add_adc 8 3 2000 50 s1).1 = 0 /\ button_deinit s2 = Crash.
Proof.
  apply (button_deinit_double_free d_gpio 7 8 3 1000 50 2000 50); try by vm_compute.
  apply add_gpio_ok, init_ok. done.
Defined.
