(* ===== verification/Ringbuffer.v ===== *)
(** * Ring buffer, [components/aos/src/ringbuffer.c]

    The byte queue of the log, HTTP and microphone paths, and that it is a bounded
    FIFO queue. *)

From S2P Require Import Prelude.

(** ** Model *)

Record dev_ringbuf := Ring {
  rb_buffer : list Z;
  rb_length : Z;
  ridx : Z;
  widx : Z
}.

(** [buffer] is the block the caller passes. *)
Definition ringbuffer_create (buffer : list Z) (length : Z) : outcome (Z * dev_ringbuf) :=
  b ← mem_write buffer 0 (replicate (Z.to_nat length) 0);
  Ret (0, Ring b (u32 (length - 1)) 0 0).

Definition ringbuffer_available_read_space (r : dev_ringbuf) : Z :=
  if decide (ridx r = widx r) then 0
  else if decide (ridx r < widx r) then i32 (u32 (widx r - ridx r))
  else i32 (u32 (rb_length r - u32 (u32 (ridx r - widx r) - 1))).

(** The macros of [ringbuffer.h]. *)
Definition ringbuffer_available_write_space (r : dev_ringbuf) : Z :=
  u32 (rb_length r - ringbuffer_available_read_space r).
Definition ringbuffer_full (r : dev_ringbuf) : bool := bool_decide (ringbuffer_available_write_space r = 0).
Definition ringbuffer_empty (r : dev_ringbuf) : bool := bool_decide (ringbuffer_available_read_space r = 0).
Definition ringbuffer_clear (r : dev_ringbuf) : dev_ringbuf := Ring (rb_buffer r) (rb_length r) 0 0.

(** Advance an index. *)
Definition advance (r : dev_ringbuf) (i : Z) : Z :=
  let i := u32 (i + 1) in if decide (u32 (rb_length r + 1) <= i) then 0 else i.

Fixpoint write_loop (data : list Z) (r : dev_ringbuf) : outcome dev_ringbuf :=
  match data with
  | [] => Ret r
  | x :: data =>
      b ← mem_write (rb_buffer r) (widx r) [x];
      write_loop data (Ring b (rb_length r) (ridx r) (advance r (widx r)))
  end.

(** The result and the buffer afterwards. *)
Definition ringbuffer_write (data : list Z) (length : Z) (r : dev_ringbuf) : outcome (Z * dev_ringbuf) :=
  let length := if decide (ringbuffer_available_write_space r < length)
                then ringbuffer_available_write_space r else length in
  d ← mem_read data 0 length;
  r ← write_loop d r;
  Ret (length, r).

Fixpoint read_loop (n : nat) (r : dev_ringbuf) : outcome (list Z * dev_ringbuf) :=
  match n with
  | O => Ret ([], r)
  | S n =>
      x ← mem_get (rb_buffer r) (ridx r);
      '(d, r) ← read_loop n (Ring (rb_buffer r) (rb_length r) (advance r (ridx r)) (widx r));
      Ret (x :: d, r)
  end.

(** The result, the bytes stored to [target], and the buffer afterwards. *)
Definition ringbuffer_read (amount : Z) (r : dev_ringbuf) : outcome (Z * list Z * dev_ringbuf) :=
  if decide (amount = 0) then Ret (-1, [], r)
  else if ringbuffer_empty r then Ret (0, [], r)
  else
    let buffer_size := ringbuffer_available_read_space r in
    let copy_sz := if decide (amount < buffer_size) then amount else buffer_size in
    '(d, r) ← read_loop (Z.to_nat copy_sz) r;
    Ret (copy_sz, d, r).

(** ** The queue *)

Definition ring_size (r : dev_ringbuf) : Z := rb_length r + 1.

(** The byte at position [k] of the queue. *)
Definition nth_byte (r : dev_ringbuf) (k : nat) : Z :=
  default 0 (rb_buffer r !! Z.to_nat ((ridx r + Z.of_nat k) mod ring_size r)).
Definition queue (r : dev_ringbuf) : list Z :=
  nth_byte r <$> seq 0 (Z.to_nat ((widx r - ridx r) mod ring_size r)).

Record ring_ok (r : dev_ringbuf) : Prop := {
  ro_len : zlen (rb_buffer r) = ring_size r;
  ro_size : 0 <= rb_length r < 2 ^ 31 - 1;
  ro_ridx : 0 <= ridx r < ring_size r;
  ro_widx : 0 <= widx r < ring_size r
}.

Lemma read_space_eq r : ring_ok r -> ringbuffer_available_read_space r = (widx r - ridx r) mod ring_size r.
Proof.
  intros [_ Hs Hr Hw]. unfold ringbuffer_available_read_space, ring_size in *.
  assert (forall x, 0 <= x < 2 ^ 31 -> i32 x = x) as Hi by (intros x Hx; unfold i32; rewrite Z.mod_small; lia).
  case_decide as E; [rewrite E, Z.sub_diag; symmetry; apply Z.mod_0_l; lia|]. case_decide.
  - rewrite u32_id by lia. rewrite Hi by lia. symmetry. apply Z.mod_small. lia.
  - rewrite (u32_id (ridx r - widx r)), (u32_id (ridx r - widx r - 1)), u32_id, Hi by lia.
    apply Z.mod_unique with (q := -1); lia.
Qed.

Lemma queue_len r : ring_ok r -> zlen (queue r) = ringbuffer_available_read_space r.
Proof.
  intros Hok. rewrite read_space_eq by done. unfold queue, zlen. rewrite length_fmap, length_seq.
  pose proof (Z.mod_pos_bound (widx r - ridx r) (ring_size r)) as H. destruct Hok. unfold ring_size in *. lia.
Qed.

Lemma write_space_eq r : ring_ok r -> ringbuffer_available_write_space r = rb_length r - zlen (queue r) /\
  0 <= rb_length r - zlen (queue r).
Proof.
  intros Hok. unfold ringbuffer_available_write_space. rewrite <- queue_len by done.
  assert (zlen (queue r) <= rb_length r) as H.
  { rewrite queue_len, read_space_eq by done. destruct Hok as [_ Hs _ _].
    pose proof (Z.mod_pos_bound (widx r - ridx r) (ring_size r)) as H. unfold ring_size in *. lia. }
  pose proof (zlen_nonneg (queue r)). rewrite u32_id by (destruct Hok; lia). lia.
Qed.

Lemma advance_eq r i : ring_ok r -> 0 <= i < ring_size r -> advance r i = (i + 1) mod ring_size r.
Proof.
  intros [_ Hs _ _] Hi. unfold advance, ring_size in *. rewrite !u32_id by lia. case_decide.
  - replace (i + 1) with (rb_length r + 1) by lia. symmetry. apply Z.mod_same. lia.
  - symmetry. apply Z.mod_small. lia.
Qed.

Lemma mod_add_inj a x y m : 0 <= x < m -> 0 <= y < m -> (a + x) mod m = (a + y) mod m -> x = y.
Proof.
  intros Hx Hy H. rewrite <- (Z.mod_small x m), <- (Z.mod_small y m) by lia.
  rewrite <- (Z.add_simpl_l a x), <- (Z.add_simpl_l a y). rewrite (Zminus_mod (a + x)), (Zminus_mod (a + y)). by rewrite H.
Qed.

(** Storing a byte when there is room. *)
Lemma put_ok r x b :
  ring_ok r -> zlen (queue r) < rb_length r -> mem_write (rb_buffer r) (widx r) [x] = Ret b ->
  let r' := Ring b (rb_length r) (ridx r) (advance r (widx r)) in
  ring_ok r' /\ queue r' = queue r ++ [x].
Proof.
  intros Hok Hroom Hb r'. pose proof Hok as [Hl Hs Hr Hw].
  assert (b = <[Z.to_nat (widx r) := x]> (rb_buffer r)) as Eb.
  { unfold mem_write in Hb. case_decide; [|done]. injection Hb as <-.
    rewrite (insert_take_drop (rb_buffer r)) by (unfold zlen in *; lia). unfold ztake, zdrop. change (zlen [x]) with 1.
    cbn [app]. do 3 f_equal. lia. }
  assert (0 < ring_size r) as Hpos by (unfold ring_size; lia).
  set (n := (widx r - ridx r) mod ring_size r).
  assert (n < rb_length r) as Hn by (unfold n; rewrite <- read_space_eq, <- queue_len by done; lia).
  assert (0 <= n) as Hn0 by (apply Z.mod_pos_bound; lia).
  assert ((ridx r + n) mod ring_size r = widx r) as Hwn.
  { unfold n. rewrite Z.add_mod_idemp_r by lia. replace (ridx r + (widx r - ridx r)) with (widx r) by lia.
    apply Z.mod_small. lia. }
  split.
  - split; cbn; try done; [by rewrite Eb; unfold zlen in *; rewrite length_insert|].
    rewrite advance_eq by done. by apply Z.mod_pos_bound.
  - unfold queue. change (ring_size r') with (ring_size r). change (ridx r') with (ridx r). fold n.
    assert ((widx r' - ridx r) mod ring_size r = n + 1) as ->.
    { change (widx r') with (advance r (widx r)). rewrite advance_eq by done.
      rewrite Zminus_mod_idemp_l. replace (widx r + 1 - ridx r) with (widx r - ridx r + 1) by lia.
      rewrite <- Z.add_mod_idemp_l by lia. fold n. apply Z.mod_small. unfold ring_size. lia. }
    replace (Z.to_nat (n + 1)) with (S (Z.to_nat n)) by lia. rewrite seq_S, fmap_app. cbn [fmap list_fmap Nat.add].
    f_equal.
    + apply list_fmap_ext. intros i k Hk. apply lookup_seq in Hk as [-> Hk]. unfold nth_byte.
      change (ring_size r') with (ring_size r). cbn [rb_buffer ridx r']. rewrite Eb. f_equal.
      apply list_lookup_insert_ne. intros E.
      assert ((ridx r + Z.of_nat (0 + i)) mod ring_size r = widx r) as E2.
      { pose proof (Z.mod_pos_bound (ridx r + Z.of_nat (0 + i)) (ring_size r) Hpos). lia. }
      rewrite <- Hwn in E2. apply mod_add_inj in E2; unfold ring_size; lia.
    + unfold nth_byte. change (ring_size r') with (ring_size r). cbn [rb_buffer ridx r'].
      rewrite Z2Nat.id by lia. rewrite Hwn, Eb, list_lookup_insert_eq by (unfold zlen in *; lia). done.
Qed.

(** Taking the first byte. *)
Lemma get_ok r q x :
  ring_ok r -> queue r = x :: q ->
  let r' := Ring (rb_buffer r) (rb_length r) (advance r (ridx r)) (widx r) in
  mem_get (rb_buffer r) (ridx r) = Ret x /\ ring_ok r' /\ queue r' = q.
Proof.
  intros Hok Hq r'. pose proof Hok as [Hl Hs Hr Hw]. assert (0 < ring_size r) as Hpos by (unfold ring_size; lia).
  pose proof (queue_len r Hok) as Hlen. rewrite read_space_eq, Hq, zlen_cons in Hlen by done. pose proof (zlen_nonneg q).
  unfold queue in Hq. set (n := (widx r - ridx r) mod ring_size r) in *.
  replace (Z.to_nat n) with (S (Z.to_nat (n - 1))) in Hq by lia. cbn [seq fmap list_fmap] in Hq.
  injection Hq as Hx Hq.
  assert (n < ring_size r) as Hn by (apply Z.mod_pos_bound; lia).
  split; [|split].
  - unfold nth_byte in Hx. rewrite Z.add_0_r, Z.mod_small in Hx by done. unfold mem_get.
    rewrite decide_True by lia. destruct (lookup_lt_is_Some_2 (rb_buffer r) (Z.to_nat (ridx r))) as [y Hy]; [unfold zlen in *; lia|].
    rewrite Hy in *. cbn in Hx. by subst y.
  - split; cbn; try done. rewrite advance_eq by done. by apply Z.mod_pos_bound.
  - rewrite <- Hq. unfold queue. change (ring_size r') with (ring_size r). change (widx r') with (widx r).
    change (ridx r') with (advance r (ridx r)). rewrite advance_eq by done.
    assert ((widx r - (ridx r + 1) mod ring_size r) mod ring_size r = n - 1) as ->.
    { rewrite Zminus_mod_idemp_r. replace (widx r - (ridx r + 1)) with (widx r - ridx r - 1) by lia.
      rewrite <- Zminus_mod_idemp_l. fold n. apply Z.mod_small. lia. }
    rewrite <- (fmap_S_seq 0), <- list_fmap_compose. apply list_fmap_ext. intros i k Hk. unfold compose, nth_byte.
    change (ring_size r') with (ring_size r). cbn [rb_buffer ridx r']. rewrite advance_eq by done.
    rewrite Z.add_mod_idemp_l by lia. do 4 f_equal. lia.
Qed.

Lemma write_loop_ok data : forall r,
  ring_ok r -> zlen data <= rb_length r - zlen (queue r) ->
  exists r', write_loop data r = Ret r' /\ ring_ok r' /\ queue r' = queue r ++ data /\ rb_length r' = rb_length r.
Proof.
  induction data as [|x data IH]; intros r Hok Hroom; cbn [write_loop].
  { exists r. rewrite app_nil_r. done. }
  rewrite zlen_cons in Hroom. pose proof (zlen_nonneg data). pose proof Hok as [Hl Hs Hr Hw].
  destruct (mem_write (rb_buffer r) (widx r) [x]) as [b|] eqn:Eb.
  2: { unfold mem_write in Eb. rewrite decide_True in Eb; [done|]. change (zlen [x]) with 1. lia. }
  cbn [mbind outcome_bind]. destruct (put_ok r x b Hok) as [Hok' Hq']; [lia|done|].
  destruct (IH _ Hok') as (r' & -> & Hr' & Hq & Hlen); [rewrite Hq', zlen_app; change (zlen [x]) with 1; cbn [rb_length]; lia|].
  exists r'. split; [done|]. split; [done|]. split; [|done]. by rewrite Hq, Hq', <- app_assoc.
Qed.

Lemma read_loop_ok n : forall r,
  ring_ok r -> (n <= length (queue r))%nat ->
  exists r', read_loop n r = Ret (take n (queue r), r') /\ ring_ok r' /\ queue r' = drop n (queue r) /\ rb_length r' = rb_length r.
Proof.
  induction n as [|n IH]; intros r Hok Hn; cbn [read_loop]; [by exists r|].
  destruct (queue r) as [|x q] eqn:Eq; [cbn in Hn; lia|].
  destruct (get_ok r q x Hok Eq) as (-> & Hok' & Hq'). cbn [mbind outcome_bind].
  destruct (IH _ Hok') as (r' & -> & Hr' & Hq & Hlen); [rewrite Hq'; cbn in Hn; lia|].
  cbn [mbind outcome_bind]. rewrite Hq' in *. exists r'. done.
Qed.

(** C39. The ring buffer is a FIFO queue of at most [length] bytes: a write
    appends as much of the data as fits and returns how much, a read takes up to
    [amount] bytes off the front in order, neither ever touches memory outside the
    buffer, and a read of nothing is refused. *)
Theorem ringbuffer_fifo r :
  ring_ok r ->
  (forall data rest, let n := Z.min (zlen data) (rb_length r - zlen (queue r)) in
     zlen data < 2 ^ 31 ->
     exists r', ringbuffer_write (data ++ rest) (zlen data) r = Ret (n, r') /\ ring_ok r' /\
       queue r' = queue r ++ ztake n data /\ rb_length r' = rb_length r) /\
  (forall amount, 0 < amount < 2 ^ 32 -> let n := Z.min amount (zlen (queue r)) in
     exists r', ringbuffer_read amount r = Ret (n, ztake n (queue r), r') /\ ring_ok r' /\
       queue r' = zdrop n (queue r) /\ rb_length r' = rb_length r) /\
  ringbuffer_read 0 r = Ret (-1, [], r).
Proof.
  intros Hok. split; [|split; [|done]].
  - intros data rest n Hd. destruct (write_space_eq r Hok) as [Hw Hw0]. pose proof (zlen_nonneg data).
    unfold ringbuffer_write. rewrite Hw.
    assert ((if decide (rb_length r - zlen (queue r) < zlen data) then rb_length r - zlen (queue r) else zlen data) = n) as ->
      by (unfold n; case_decide; lia).
    assert (mem_read (data ++ rest) 0 n = Ret (ztake n data)) as ->.
    { pose proof (zlen_nonneg rest). unfold n. rewrite mem_read_ok by (rewrite ?zlen_app; lia). rewrite zdrop_0. unfold ztake.
      rewrite take_app_le by (unfold zlen in *; lia). done. }
    cbn [mbind outcome_bind].
    destruct (write_loop_ok (ztake n data) r Hok) as (r' & -> & Hr' & Hq & Hl); [rewrite zlen_ztake; lia|].
    by exists r'.
  - intros amount Ha n. unfold ringbuffer_read, ringbuffer_empty. rewrite decide_False by lia.
    rewrite <- (queue_len r Hok). pose proof (zlen_nonneg (queue r)).
    destruct (bool_decide (zlen (queue r) = 0)) eqn:E.
    + apply bool_decide_eq_true in E. exists r. unfold n. rewrite E, Z.min_r by lia. done.
    + replace (if decide (amount < zlen (queue r)) then amount else zlen (queue r)) with n
        by (unfold n; destruct (decide (amount < zlen (queue r))); lia).
      destruct (read_loop_ok (Z.to_nat n) r Hok) as (r' & -> & Hr' & Hq & Hl); [unfold n, zlen in *; lia|].
      cbn [mbind outcome_bind]. by exists r'.
Qed.

Lemma create_ok buffer length : 1 <= length <= zlen buffer -> length < 2 ^ 31 -> length = zlen buffer ->
  exists r, ringbuffer_create buffer length = Ret (0, r) /\ ring_ok r /\ queue r = [] /\ rb_length r = length - 1.
Proof.
  intros Hl Hlt He. unfold ringbuffer_create.
  rewrite mem_write_front by (rewrite zlen_replicate; lia). cbn [mbind outcome_bind]. eexists. split; [done|].
  rewrite u32_id by lia. split; [|split; [|done]].
  - split; cbn; unfold ring_size; cbn; try lia. rewrite zlen_app, zlen_replicate, zlen_zdrop; rewrite ?zlen_replicate; lia.
  - unfold queue. cbn. by rewrite Z.mod_0_l by (unfold ring_size; cbn; lia).
Qed.

Definition d_ring : dev_ringbuf := Ring [5; 0; 3; 4] 3 2 1.

Lemma ringbuffer_fifo_witness :
  exists r', ringbuffer_read 2 d_ring = Ret (2, [3; 4], r') /\ ring_ok r' /\ queue r' = [5] /\ rb_length r' = 3.
Proof.
  destruct (ringbuffer_fifo d_ring) as (_ & Hr & _); [split; by_decide|].
  destruct (Hr 2) as (r' & E & H); [lia|]. by exists r'.
Defined.
