(* ===== verification/Hash.v ===== *)
(** * Hash table, [components/aos/src/hash.c]

    The table the key-value store uses at start-up to find keys stored twice.  It
    implements a finite map from strings, which is what [KvSet.kv_init] takes it for. *)

From stdpp Require Import gmap.
From S2P Require Import Prelude.

(** ** Model *)

(** A bucket is a chain of entries, the newest first. *)
Definition bucket := list (list Z * Z).

Record hash_t := Hash {
  hsize : Z;
  keys_nb : Z;
  entries : list bucket
}.

(** [alloc] is whether the heap has room. *)
Definition hash_init (size : Z) (alloc : bool) : Z * option hash_t :=
  if decide (size = 0) then (-1, None)
  else if alloc then (0, Some (Hash size 0 (replicate (Z.to_nat size) []))) else (-1, None).

(** [char] is unsigned on RISC-V; the shifted character is truncated to 32 bits. *)
Fixpoint hash_chars (key : list Z) (shift hash : Z) : Z :=
  match key with
  | [] => hash
  | c :: key =>
      let hash := Z.lxor hash (u32 (Z.shiftl c shift)) in
      let shift := shift + 4 in
      hash_chars key (if decide (24 < shift) then 0 else shift) hash
  end.
Definition hash_key (h : hash_t) (key : list Z) : Z :=
  if decide (hsize h = 1) then 0 else hash_chars key 0 0 mod hsize h.

(** [table->entries[idx]]. *)
Definition get_bucket (h : hash_t) (idx : Z) : outcome bucket :=
  if decide (0 <= idx)
  then match entries h !! Z.to_nat idx with Some b => Ret b | None => Crash end
  else Crash.

(** The value of the first entry with this key. *)
Fixpoint chain_get (key : list Z) (b : bucket) : option Z :=
  match b with
  | [] => None
  | (k, v) :: b => if decide (k = key) then Some v else chain_get key b
  end.

(** The chain with the value of that entry replaced. *)
Fixpoint chain_put (key : list Z) (data : Z) (b : bucket) : option bucket :=
  match b with
  | [] => None
  | (k, v) :: b =>
      if decide (k = key) then Some ((k, data) :: b)
      else match chain_put key data b with Some b' => Some ((k, v) :: b') | None => None end
  end.

(** The chain without that entry. *)
Fixpoint chain_del (key : list Z) (b : bucket) : option bucket :=
  match b with
  | [] => None
  | (k, v) :: b =>
      if decide (k = key) then Some b
      else match chain_del key b with Some b' => Some ((k, v) :: b') | None => None end
  end.

Definition put_bucket (h : hash_t) (idx : Z) (b : bucket) (n : Z) : hash_t :=
  Hash (hsize h) n (<[Z.to_nat idx := b]> (entries h)).

(** [alloc] and [dup] are whether the entry and the copy of the key get memory. *)
Definition hash_set (h : hash_t) (key : list Z) (data : Z) (alloc dup : bool) : outcome (Z * hash_t) :=
  let idx := hash_key h key in
  b ← get_bucket h idx;
  match chain_put key data b with
  | Some b => Ret (0, put_bucket h idx b (keys_nb h))
  | None =>
      if alloc && dup then Ret (0, put_bucket h idx ((key, data) :: b) (u32 (keys_nb h + 1)))
      else Ret (-1, h)
  end.

(** The value (0 for NULL) and [*valid]. *)
Definition hash_get2 (h : hash_t) (key : list Z) : outcome (Z * Z) :=
  b ← get_bucket h (hash_key h key);
  Ret (match chain_get key b with Some v => (v, 1) | None => (0, 0) end).
Definition hash_get (h : hash_t) (key : list Z) : outcome Z := '(v, _) ← hash_get2 h key; Ret v.
Definition hash_key_is_valid (h : hash_t) (key : list Z) : outcome Z :=
  b ← get_bucket h (hash_key h key);
  Ret (match chain_get key b with Some _ => 1 | None => 0 end).

Definition hash_del (h : hash_t) (key : list Z) : outcome (Z * hash_t) :=
  let idx := hash_key h key in
  b ← get_bucket h idx;
  Ret (match chain_del key b with
       | Some b => (0, put_bucket h idx b (u32 (keys_nb h - 1)))
       | None => (-1, h)
       end).

Definition hash_count (h : hash_t) : Z := keys_nb h.

(** The iterator: whether [table] is set, the chain from [entry] on, [idx]. *)
Record hash_iter_t := Iter {
  it_table : bool;
  it_entry : bucket;
  it_idx : Z
}.

(** [hash_iter_init] sets [table] in an iterator it has just allocated, not in the
    caller's, which it leaves zeroed. *)
Definition hash_iter_init : Z * hash_iter_t := (0, Iter false [] 0).

Fixpoint next_bucket (fuel : nat) (h : hash_t) (idx : Z) : outcome (bucket * Z) :=
  match fuel with
  | O => Ret ([], idx)
  | S fuel =>
      if decide (idx < hsize h) then
        b ← get_bucket h idx;
        match b with [] => next_bucket fuel h (idx + 1) | _ => Ret (b, idx + 1) end
      else Ret ([], idx)
  end.

(** The key, or [None] for NULL. *)
Definition hash_iter_foreach (h : hash_t) (it : hash_iter_t) : outcome (option (list Z) * hash_iter_t) :=
  if it_table it then
    '(entry, idx) ← (match it_entry it with
                     | _ :: next => Ret (next, it_idx it)
                     | [] => next_bucket (S (Z.to_nat (hsize h))) h (it_idx it)
                     end);
    match entry with
    | [] => Ret (None, Iter true (it_entry it) idx)
    | (k, _) :: _ => if decide (hsize h < idx) then Ret (None, Iter true (it_entry it) idx)
                     else Ret (Some k, Iter true entry idx)
    end
  else Ret (None, it).

(** ** The finite map *)

Definition habs (h : hash_t) : gmap (list Z) Z := list_to_map (concat (entries h)).

Record hash_ok (h : hash_t) : Prop := {
  ho_size : 0 < hsize h < 2 ^ 32;
  ho_len : zlen (entries h) = hsize h;
  ho_keys : forall i b, entries h !! i = Some b -> Forall (fun e => hash_key h e.1 = Z.of_nat i) b;
  ho_nodup : Forall (fun b : bucket => NoDup b.*1) (entries h);
  ho_count : keys_nb h = zlen (concat (entries h)) /\ keys_nb h < 2 ^ 32 - 1
}.

Lemma chain_get_map key b : chain_get key b = (list_to_map b : gmap (list Z) Z) !! key.
Proof.
  induction b as [|[k v] b IH]; [done|]. cbn. case_decide as E; [subst; by rewrite lookup_insert_eq|].
  by rewrite lookup_insert_ne, IH.
Qed.

Lemma chain_get_key key b v : chain_get key b = Some v -> (key, v) ∈ b.
Proof.
  induction b as [|[k w] b IH]; cbn; [done|]. case_decide; [intros [= <-]; subst; left|]. intros E. right. by apply IH.
Qed.

Lemma key_range h key : 0 < hsize h -> 0 <= hash_key h key < hsize h.
Proof. intros H. unfold hash_key. case_decide; [lia|]. apply Z.mod_pos_bound. lia. Qed.

Lemma concat_lookup key (bs : list bucket) j b :
  bs !! j = Some b -> (forall n b', bs !! n = Some b' -> n <> j -> chain_get key b' = None) ->
  (list_to_map (concat bs) : gmap (list Z) Z) !! key = chain_get key b.
Proof.
  revert j. induction bs as [|b0 bs IH]; intros j Hj Ho; [done|]. cbn [concat]. rewrite list_to_map_app.
  destruct j as [|j]; cbn in Hj.
  - injection Hj as ->. rewrite chain_get_map. apply lookup_union_l.
    assert (forall n b', bs !! n = Some b' -> chain_get key b' = None) as Ho' by (intros n b' Hn; by apply (Ho (S n) b' Hn)).
    clear -Ho'. induction bs as [|b1 bs IH]; [done|]. cbn [concat]. rewrite list_to_map_app, lookup_union_None, <- chain_get_map.
    split; [by apply (Ho' O)|]. apply IH. intros n b' Hn. by apply (Ho' (S n)).
  - rewrite lookup_union_r by (rewrite <- chain_get_map; by apply (Ho O)). apply (IH j Hj). intros n b' Hn Hne.
    apply (Ho (S n) b' Hn). lia.
Qed.

(** The bucket of a key decides the map's value. *)
Lemma habs_lookup h key : hash_ok h ->
  exists b, get_bucket h (hash_key h key) = Ret b /\ entries h !! Z.to_nat (hash_key h key) = Some b /\
    habs h !! key = chain_get key b.
Proof.
  intros [Hs Hl Hk _ _]. destruct (key_range h key) as [H0 H1]; [lia|]. unfold get_bucket. rewrite decide_True by done.
  destruct (lookup_lt_is_Some_2 (entries h) (Z.to_nat (hash_key h key))) as [b Hb]; [unfold zlen in *; lia|].
  rewrite Hb. exists b. split; [done|]. split; [done|]. apply (concat_lookup key _ _ _ Hb). intros n b' Hn Hne.
  destruct (chain_get key b') as [v|] eqn:E; [|done]. apply chain_get_key in E.
  pose proof (Hk _ _ Hn) as Hf. rewrite list.Forall_forall in Hf. specialize (Hf _ E). cbn in Hf. lia.
Qed.

Lemma chain_put_spec key data b :
  match chain_put key data b with
  | Some b' => chain_get key b <> None /\ b'.*1 = b.*1 /\
               forall k, chain_get k b' = if decide (k = key) then Some data else chain_get k b
  | None => chain_get key b = None
  end.
Proof.
  induction b as [|[k0 v0] b IH]; cbn; [done|]. destruct (decide (k0 = key)) as [->|Hne].
  - split; [done|]. split; [done|]. intros k. cbn. destruct (decide (key = k)) as [->|]; [by rewrite decide_True|].
    by rewrite decide_False.
  - destruct (chain_put key data b) as [b'|]; [|done]. destruct IH as (H1 & H2 & H3). split; [done|].
    split; [cbn; by rewrite H2|]. intros k. cbn. destruct (decide (k0 = k)) as [->|]; [by rewrite decide_False|apply H3].
Qed.

Lemma chain_none key b : chain_get key b = None -> key ∉ b.*1.
Proof.
  induction b as [|[k v] b IH]; cbn; [intros _; apply not_elem_of_nil|]. case_decide; [done|]. intros Hno.
  rewrite not_elem_of_cons. split; [done|by apply IH].
Qed.

Lemma chain_del_spec key b : NoDup b.*1 ->
  match chain_del key b with
  | Some b' => chain_get key b <> None /\ b' ⊆ b /\ NoDup b'.*1 /\ length b = S (length b') /\
               forall k, chain_get k b' = if decide (k = key) then None else chain_get k b
  | None => chain_get key b = None
  end.
Proof.
  induction b as [|[k0 v0] b IH]; cbn; [done|]. intros Hnd. apply list.NoDup_cons in Hnd as [Hn Hnd].
  destruct (decide (k0 = key)) as [->|Hne].
  - split; [done|]. split; [intros x Hx; by right|]. split; [done|]. split; [done|]. intros k.
    destruct (decide (k = key)) as [->|]; [|by rewrite decide_False].
    destruct (chain_get key b) as [v|] eqn:E; [|done]. apply chain_get_key, (list_elem_of_fmap_2 fst) in E. done.
  - specialize (IH Hnd). destruct (chain_del key b) as [b'|]; [|done]. destruct IH as (H1 & H2 & H3 & H4 & H5).
    split; [done|]. split; [intros x Hx; apply elem_of_cons in Hx as [->|Hx]; [left|right; by apply H2]|]. split.
    { cbn. apply list.NoDup_cons. split; [|done]. intros Hin. apply Hn. apply list_elem_of_fmap in Hin as (x & -> & Hx).
      apply list_elem_of_fmap. exists x. split; [done|by apply H2]. }
    split; [cbn; lia|]. intros k. cbn. destruct (decide (k0 = k)) as [->|]; [by rewrite decide_False|apply H5].
Qed.

Lemma concat_insert_len (bs : list bucket) i b b' :
  bs !! i = Some b -> zlen (concat (<[i := b']> bs)) = zlen (concat bs) - zlen b + zlen b'.
Proof.
  revert i. induction bs as [|b0 bs IH]; intros i Hi; [done|]. destruct i as [|i]; cbn in Hi.
  - injection Hi as ->. cbn [insert list_insert concat]. rewrite !zlen_app. lia.
  - change (concat (<[S i := b']> (b0 :: bs))) with (b0 ++ concat (<[i := b']> bs)). cbn [concat].
    rewrite !zlen_app, (IH i Hi). lia.
Qed.

(** Replacing the bucket of a key by one that differs at that key only. *)
Lemma put_bucket_ok h key b b' n (o : option Z) :
  hash_ok h -> entries h !! Z.to_nat (hash_key h key) = Some b ->
  Forall (fun e => hash_key h e.1 = hash_key h key) b' -> NoDup b'.*1 ->
  (forall k, chain_get k b' = if decide (k = key) then o else chain_get k b) ->
  n = keys_nb h - zlen b + zlen b' -> n < 2 ^ 32 - 1 ->
  hash_ok (put_bucket h (hash_key h key) b' n) /\
  habs (put_bucket h (hash_key h key) b' n) = match o with Some v => <[key := v]> (habs h) | None => delete key (habs h) end.
Proof.
  intros Hok Hb Hk' Hnd' Hget Hn Hlt. pose proof Hok as [Hs Hl Hk Hnd [Hc Hc2]].
  assert (0 <= hash_key h key) as H0 by (apply key_range; lia).
  assert (hash_ok (put_bucket h (hash_key h key) b' n)) as Hok'.
  { split; cbn; [done| | | |].
    - unfold zlen in *. by rewrite length_insert.
    - intros i x Hi. change (Forall (fun e => hash_key h e.1 = Z.of_nat i) x).
      destruct (decide (i = Z.to_nat (hash_key h key))) as [->|Hne].
      + rewrite list_lookup_insert_eq in Hi by (by eapply lookup_lt_Some). injection Hi as <-.
        eapply list.Forall_impl; [exact Hk'|]. intros e ->. lia.
      + rewrite list_lookup_insert_ne in Hi by done. by apply Hk.
    - by apply Forall_insert.
    - rewrite (concat_insert_len _ _ _ _ Hb). lia. }
  split; [done|]. apply map_eq. intros k.
  destruct (habs_lookup _ k Hok') as (x & _ & Hx & ->). destruct (habs_lookup h k Hok) as (y & _ & Hy & Hhy).
  change (hash_key (put_bucket h (hash_key h key) b' n) k) with (hash_key h k) in Hx. cbn in Hx.
  assert (chain_get k x = if decide (k = key) then o else chain_get k y) as ->.
  { destruct (decide (Z.to_nat (hash_key h k) = Z.to_nat (hash_key h key))) as [E|E].
    - rewrite E, list_lookup_insert_eq in Hx by (by eapply lookup_lt_Some). injection Hx as <-.
      rewrite E, Hb in Hy. injection Hy as <-. apply Hget.
    - rewrite list_lookup_insert_ne in Hx by done. rewrite Hy in Hx. injection Hx as <-.
      rewrite decide_False; [done|]. by intros ->. }
  rewrite <- Hhy. destruct (decide (k = key)) as [->|Hne].
  - destruct o; [by rewrite lookup_insert_eq|by rewrite lookup_delete_eq].
  - destruct o; [by rewrite lookup_insert_ne|by rewrite lookup_delete_ne].
Qed.

Lemma zlen_fmap_eq (b b' : bucket) : b'.*1 = b.*1 -> zlen b' = zlen b.
Proof. intros H. unfold zlen. by rewrite <- (length_fmap fst b'), <- (length_fmap fst b), H. Qed.

Lemma keys_forall (P : list Z -> Prop) (b b' : bucket) : b'.*1 = b.*1 -> Forall (fun e => P e.1) b -> Forall (fun e => P e.1) b'.
Proof.
  intros E H. assert (Forall P b.*1) as H1 by (apply Forall_fmap; exact H).
  rewrite <- E in H1. rewrite Forall_fmap in H1. exact H1.
Qed.

Lemma hash_init_ok size : 0 < size < 2 ^ 32 ->
  exists h, hash_init size true = (0, Some h) /\ hash_ok h /\ habs h = ∅.
Proof.
  intros Hs. unfold hash_init. rewrite decide_False by lia. eexists. split; [done|].
  assert (concat (replicate (Z.to_nat size) []) = ([] : bucket)) as Hc by (induction (Z.to_nat size); done).
  split; [|unfold habs; cbn; by rewrite Hc]. split; cbn; try done.
  - rewrite zlen_replicate. lia.
  - intros i b Hi. apply lookup_replicate in Hi as [-> _]. constructor.
  - apply Forall_replicate. constructor.
  - by rewrite Hc.
Qed.

(** C37. The hash table implements a finite map: looking up, setting and
    deleting a key are the map's operations whatever keys collide, [valid] tells
    whether the key is there, setting fails without change only when memory runs out,
    and the count follows. *)
Theorem hash_refines_map h key data alloc dup :
  hash_ok h -> keys_nb h < 2 ^ 32 - 2 ->
  hash_get2 h key = Ret (match habs h !! key with Some v => (v, 1) | None => (0, 0) end) /\
  (exists r h', hash_set h key data alloc dup = Ret (r, h') /\ hash_ok h' /\
     (r = 0 /\ habs h' = <[key := data]> (habs h) /\
        hash_count h' = hash_count h + match habs h !! key with Some _ => 0 | None => 1 end \/
      r = -1 /\ h' = h /\ habs h !! key = None /\ (alloc && dup) = false)) /\
  (exists r h', hash_del h key = Ret (r, h') /\ hash_ok h' /\ habs h' = delete key (habs h) /\
     (r = 0 <-> is_Some (habs h !! key)) /\ (r = 0 \/ r = -1) /\
     hash_count h' = hash_count h - match habs h !! key with Some _ => 1 | None => 0 end).
Proof.
  intros Hok Hcnt. destruct (habs_lookup h key Hok) as (b & Eb & Hb & Habs). pose proof Hok as [Hs Hl Hk Hnd [Hc _]].
  pose proof (Hk _ _ Hb) as Hkb. pose proof (Forall_lookup_1 _ _ _ _ Hnd Hb) as Hndb. cbn in Hndb.
  rewrite Z2Nat.id in Hkb by (apply key_range; lia).
  assert (zlen b <= keys_nb h) as Hbl.
  { pose proof (concat_insert_len _ _ _ [] Hb) as E. rewrite zlen_nil in E.
    pose proof (zlen_nonneg (concat (<[Z.to_nat (hash_key h key) := []]> (entries h)))). lia. }
  pose proof (zlen_nonneg b). split; [|split].
  - unfold hash_get2. rewrite Eb. cbn [mbind outcome_bind]. by rewrite Habs.
  - unfold hash_set. rewrite Eb. cbn [mbind outcome_bind]. pose proof (chain_put_spec key data b) as Hp.
    destruct (chain_put key data b) as [b'|].
    + destruct Hp as (Hin & Hkeys & Hget). eexists _, _. split; [done|].
      destruct (put_bucket_ok h key b b' (keys_nb h) (Some data)) as [Hok' Habs']; try done.
      * by apply (keys_forall (fun k => hash_key h k = hash_key h key) b b').
      * by rewrite Hkeys.
      * rewrite (zlen_fmap_eq b b') by done. lia.
      * lia.
      * split; [done|]. left. split; [done|]. split; [done|]. rewrite Habs. destruct (chain_get key b); [|done].
        unfold hash_count, put_bucket. cbn. lia.
    + destruct (alloc && dup) eqn:Ea; [|eexists _, _; split; [done|]; split; [done|]; right; by rewrite Habs].
      eexists _, _. split; [done|]. rewrite u32_id by lia.
      destruct (put_bucket_ok h key b ((key, data) :: b) (keys_nb h + 1) (Some data)) as [Hok' Habs']; try done.
      * by constructor.
      * cbn. apply list.NoDup_cons. split; [by apply chain_none|done].
      * intros k. cbn. destruct (decide (key = k)) as [->|]; [by rewrite decide_True|by rewrite decide_False].
      * rewrite zlen_cons. lia.
      * lia.
      * split; [done|]. left. split; [done|]. split; [done|]. by rewrite Habs, Hp.
  - unfold hash_del. rewrite Eb. cbn [mbind outcome_bind]. pose proof (chain_del_spec key b Hndb) as Hp.
    destruct (chain_del key b) as [b'|].
    + destruct Hp as (Hin & Hsub & Hnd' & Hlen & Hget). eexists _, _. split; [done|].
      assert (zlen b = zlen b' + 1) as Hlen' by (unfold zlen; lia). pose proof (zlen_nonneg b').
      rewrite u32_id by lia.
      destruct (put_bucket_ok h key b b' (keys_nb h - 1) None) as [Hok' Habs']; try done; [|lia|lia|].
      * rewrite list.Forall_forall in *. intros e He. apply Hkb. by apply Hsub.
      * split; [done|]. split; [done|]. rewrite Habs. destruct (chain_get key b) as [v|] eqn:E; [|done].
        split; [by split|]. split; [by left|done].
    + eexists _, _. split; [done|]. split; [done|]. rewrite Habs, Hp. split; [rewrite delete_id; [done|by rewrite Habs]|].
      split; [split; [done|by intros [? ?]]|]. split; [by right|]. lia.
Qed.

(** Iterating over a table visits nothing. *)
Lemma hash_iter_nothing h : hash_iter_foreach h hash_iter_init.2 = Ret (None, hash_iter_init.2).
Proof. done. Qed.

(** Two keys in one bucket. *)
Definition d_hash : hash_t := Hash 1 2 [[([98], 7); ([97], 5)]].

Lemma d_hash_ok : hash_ok d_hash.
Proof.
  split; [by_decide|done| |by_decide|by_decide]. intros [|i] b; cbn; [|done]. intros [= <-]. repeat constructor.
Qed.

Lemma hash_refines_map_witness :
  hash_get2 d_hash [97] = Ret (5, 1) /\
  exists h', hash_set d_hash [99] 9 true true = Ret (0, h') /\ habs h' = <[[99] := 9]> (habs d_hash).
Proof.
  destruct (hash_refines_map d_hash [97] 0 true true d_hash_ok) as (Hg & _); [done|].
  destruct (hash_refines_map d_hash [99] 9 true true d_hash_ok) as (_ & (r & h' & E & _ & H) & _); [done|].
  split; [rewrite Hg; by vm_compute|]. destruct H as [(-> & Hm & _)|(_ & _ & _ & Hf)]; [by exists h'|done].
Defined.
