(* ===== verification/Alarm.v ===== *)
(** * Alarms, [components/clock_alarm/src/clock_alarm.c]

    The table of five alarms, its copy in the key-value store, and what is armed: the alarm
    of the real-time clock, or an event after a delay for an alarm less than 90 seconds away.
    [CONFIG_CLOCK_ALARM_SCHEDULE] is off, as in the product.  The clocks [time] and
    [rtc_get_time] are arguments ([sys], [now]); writing a setting does not fail; the time zone is UTC.
    The date of a [struct tm] is its number of days since 1970. *)

From stdpp Require Import gmap sorting.
From S2P Require Import Prelude.

(** ** The calendar of the C library *)

Record tm := Tm { tm_sec : Z; tm_min : Z; tm_hour : Z; tm_date : Z; tm_wday : Z }.

Definition gmtime (t : Z) : tm := Tm (t mod 60) (t / 60 mod 60) (t / 3600 mod 24) (t / 86400) ((t / 86400 + 4) mod 7).
Definition mktime (x : tm) : Z := tm_date x * 86400 + tm_hour x * 3600 + tm_min x * 60 + tm_sec x.

(** ** Data *)

Definition CLOCK_ALARM_ONCE : Z := 0.
Definition CLOCK_ALARM_PERIOD_DAY : Z := 1.
Definition CLOCK_ALARM_PERIOD_WEEK : Z := 2.
Definition CLOCK_ALARM_PERIOD_WORKDAY : Z := 3.
Definition CLOCK_ALARM_PERIOD_DISABLE : Z := 4.
Definition ONE_DAY_TIME : Z := 24 * 3600.
Definition ONE_WEEK_TIME : Z := 7 * 24 * 3600.
Definition CLOCK_ALARM_NUM : Z := 5.

Record clock_alarm_ctx_t := Ctx { id : Z; time : Z; enable : bool; period : Z }.
Record clock_alarm_config_t := Config { cf_period : Z; cf_week : Z; cf_hour : Z; cf_min : Z; cf_sec : Z }.

(** The keys [clock_alarm_NN_time], [..._period] and [..._enable]. *)
Inductive field := F_time | F_period | F_enable.
#[export] Instance field_eq : EqDecision field.
Proof. solve_decision. Defined.
#[export] Instance field_countable : Countable field.
Proof.
  refine {| encode f := match f with F_time => 1 | F_period => 2 | F_enable => 3 end%positive; decode p := Some (match p with 1 => F_time | 2 => F_period | _ => F_enable end%positive) |}. by intros [].
Defined.

Inductive effect := Callback (i : Z) | EventAlarm | EventTimeout (i delay : Z) | RtcAlarm (x : tm).

Record clock := Clock {
  arr : list clock_alarm_ctx_t;
  status : Z;
  inited : bool;
  alarm_cb : bool;
  kv : gmap (Z * field) Z;
  out : list effect
}.

Definition set_arr (v : list clock_alarm_ctx_t) (c : clock) : clock := Clock v (status c) (inited c) (alarm_cb c) (kv c) (out c).
Definition set_status (v : Z) (c : clock) : clock := Clock (arr c) v (inited c) (alarm_cb c) (kv c) (out c).
Definition set_kv (v : gmap (Z * field) Z) (c : clock) : clock := Clock (arr c) (status c) (inited c) (alarm_cb c) v (out c).
Definition emit (e : effect) (c : clock) : clock := Clock (arr c) (status c) (inited c) (alarm_cb c) (kv c) (out c ++ [e]).

Definition ctx_at (i : Z) (c : clock) : outcome clock_alarm_ctx_t :=
  if decide (0 <= i) then match arr c !! Z.to_nat i with Some a => Ret a | None => Crash end else Crash.
Definition put_ctx (i : Z) (a : clock_alarm_ctx_t) (c : clock) : outcome clock := _ ← ctx_at i c; Ret (set_arr (<[Z.to_nat i := a]> (arr c)) c).
Definition no_alarm : clock_alarm_ctx_t := Ctx 0 0 false CLOCK_ALARM_PERIOD_DISABLE.

(** ** Settings *)

Definition set_kv_config_time (i t p : Z) (c : clock) : clock := set_kv (<[(i, F_period) := i32 p]> (<[(i, F_time) := i32 t]> (kv c))) c.
Definition set_kv_config_enable (i e : Z) (c : clock) : clock := set_kv (<[(i, F_enable) := e]> (kv c)) c.
(** [aos_kv_getint] into a variable with the value [d]. *)
Definition kv_getint (d i : Z) (f : field) (c : clock) : Z := default d (kv c !! (i, f)).

Definition get_kv_config_time (i : Z) (c : clock) : outcome clock :=
  let t := kv_getint 0 i F_time c in
  if decide (t = 0) then put_ctx (i - 1) no_alarm c
  else put_ctx (i - 1) (Ctx i t (negb (bool_decide (kv_getint 0 i F_enable c = 0))) (kv_getint CLOCK_ALARM_PERIOD_DISABLE i F_period c)) c.
Definition get_kv_config_enable (i : Z) (c : clock) : outcome clock :=
  a ← ctx_at (i - 1) c; put_ctx (i - 1) (Ctx (id a) (time a) (negb (bool_decide (kv_getint 0 i F_enable c = 0))) (period a)) c.

(** ** Times *)

Definition update_period (p t : Z) : Z :=
  if decide (p = CLOCK_ALARM_ONCE) then 0
  else if decide (p = CLOCK_ALARM_PERIOD_DAY) then t + ONE_DAY_TIME
  else if decide (p = CLOCK_ALARM_PERIOD_WEEK) then t + ONE_WEEK_TIME
  else
    let x := gmtime t in
    if decide (tm_wday x = 5) then t + ONE_DAY_TIME * 3 else if decide (tm_wday x = 6) then t + ONE_DAY_TIME * 2 else t + ONE_DAY_TIME.

Definition skip_weekend (p t : Z) : Z :=
  if decide (p = CLOCK_ALARM_PERIOD_WORKDAY) then
    let x := gmtime t in
    if decide (tm_wday x = 6) then t + ONE_DAY_TIME * 2 else if decide (tm_wday x = 0) then t + ONE_DAY_TIME else t
  else t.

Definition convert_to_absolute_time (sys now : Z) (cfg : option clock_alarm_config_t) : Z :=
  match cfg with
  | None => 0
  | Some g =>
      if decide (24 <= cf_hour g \/ cf_hour g < 0) then 0
      else if decide (60 <= cf_min g \/ cf_min g < 0) then 0
      else if decide (60 <= cf_sec g \/ cf_sec g < 0) then 0
      else
        let t := skip_weekend (cf_period g) sys in
        let x := gmtime t in
        let t := mktime (Tm (cf_sec g) (cf_min g) (cf_hour g) (tm_date x) (tm_wday x)) in
        if decide (t <= now) then
          if decide (cf_period g = CLOCK_ALARM_ONCE) then t + ONE_DAY_TIME else update_period (cf_period g) t
        else t
  end.

(** ** The table *)

Fixpoint mini_loop (l : list clock_alarm_ctx_t) (clock_time min_id : Z) : Z :=
  match l with
  | [] => min_id
  | a :: l =>
      if enable a then
        if decide (clock_time = 0 \/ time a < clock_time) then mini_loop l (time a) (id a) else mini_loop l clock_time min_id
      else mini_loop l clock_time min_id
  end.
Definition get_mini_clock_id (c : clock) : Z := mini_loop (arr c) 0 0.

Definition update_clock_alarm (i : Z) (c : clock) : outcome clock :=
  a ← ctx_at i c;
  if decide (period a = CLOCK_ALARM_PERIOD_DISABLE) then
    let c := set_kv_config_enable (i + 1) 0 (set_kv_config_time (i + 1) 0 CLOCK_ALARM_PERIOD_DISABLE c) in put_ctx i no_alarm c
  else if decide (period a = CLOCK_ALARM_ONCE) then
    let c := set_kv_config_enable (id a) 0 (set_kv_config_time (id a) 0 CLOCK_ALARM_PERIOD_DISABLE c) in put_ctx i no_alarm c
  else
    let t := update_period (period a) (time a) in
    c ← put_ctx i (Ctx (id a) t (enable a) (period a)) c;
    let c := set_status 1 c in
    Ret (set_kv_config_time (id a) t (period a) c).

(** [for (idx = 0; idx < CLOCK_ALARM_NUM; idx++) if (due(time)) update_clock_alarm(idx)]. *)
Fixpoint update_due (due : Z -> bool) (l : list Z) (c : clock) : outcome clock :=
  match l with
  | [] => Ret c
  | i :: l => a ← ctx_at i c; c ← (if due (time a) then update_clock_alarm i c else Ret c); update_due due l c
  end.
Definition all_idx : list Z := [0; 1; 2; 3; 4].

Definition config_rtc_alarm (t p : Z) (c : clock) : clock :=
  let x := gmtime (t - 30) in
  let x := if decide (p <> CLOCK_ALARM_PERIOD_WEEK) then Tm (tm_sec x) (tm_min x) (tm_hour x) (tm_date x) (-1) else x in
  emit (RtcAlarm x) c.

(** The delay in milliseconds overflows for an alarm more than 24 days in the past. *)
Definition update_clock_timer_info (now : Z) (c : clock) : outcome clock :=
  if decide (status c = 2) then Ret c
  else
    let min_id := get_mini_clock_id c in
    if decide (min_id = 0) then Ret c
    else
      a ← ctx_at (min_id - 1) c;
      let delta := i32 (time a - now) in
      if decide (delta < 90) then
        let c := set_status 2 c in
        if decide (delta = 0) then Ret (emit (EventTimeout min_id 0) c)
        else if decide (delta * 1000 < - 2 ^ 31) then Crash
        else Ret (emit (EventTimeout min_id (delta * 1000)) c)
      else Ret (config_rtc_alarm (time a) (period a) c).

(** [set_clock_alarm_status(0)] and the loop after it. *)
Definition restore_status (c : clock) : clock := set_status (if existsb (fun a => negb (bool_decide (time a = 0))) (arr c) then 1 else 0) c.

Definition clock_timer_callback (now arg : Z) (c : clock) : outcome clock :=
  let clock_id := u8 arg in
  a ← ctx_at (clock_id - 1) c;
  let d := i32 (now - time a) in
  c ← (if decide (d = - 2 ^ 31) then Crash
       else if decide (Z.abs d < 3) then
         let c := if alarm_cb c then emit (Callback clock_id) c else c in update_clock_alarm (clock_id - 1) c
       else Ret c);
  c ← update_due (fun t => bool_decide (t < now)) all_idx c;
  update_clock_timer_info now (restore_status c).

Definition due_before (now t : Z) : bool := bool_decide (t <> 0 /\ t < now).

Definition clock_alarm_handle (now : Z) (c : clock) : outcome clock :=
  let min_id := get_mini_clock_id c in
  if decide (min_id = 0) then Ret c
  else
    a ← ctx_at (min_id - 1) c;
    if decide (i32 (time a - now) < 90) then c ← update_due (due_before now) all_idx c; update_clock_timer_info now c
    else Ret (config_rtc_alarm (time a) (period a) c).

(** ** Calls *)

Fixpoint load_all (l : list Z) (c : clock) : outcome clock :=
  match l with
  | [] => Ret c
  | i :: l =>
      c ← get_kv_config_time (i + 1) c;
      a ← ctx_at i c;
      c ← (if decide (time a = 0) then Ret c else get_kv_config_enable (i + 1) c);
      load_all l c
  end.

Definition clock_alarm_init (cb : bool) (c : clock) : outcome (Z * clock) :=
  if inited c then Ret (0, c)
  else
    let c := Clock (replicate 5 (Ctx 0 0 false 0)) (status c) (inited c) cb (kv c) (out c) in
    c ← load_all all_idx c;
    let c := emit EventAlarm c in
    Ret (0, Clock (arr c) (status c) true (alarm_cb c) (kv c) (out c)).

Definition same_alarm (t p : Z) (a : clock_alarm_ctx_t) : bool := bool_decide (t = time a /\ p = period a).

(** The first free place, or [CLOCK_ALARM_NUM]. *)
Fixpoint find_empty (l : list clock_alarm_ctx_t) (i : Z) : Z :=
  match l with [] => i | a :: l => if decide (time a = 0) then i else find_empty l (i + 1) end.

Definition disable_at (i : Z) (c : clock) : outcome clock := a ← ctx_at i c; put_ctx i (Ctx (id a) (time a) false (period a)) c.

(** The common end of the two calls that set an alarm. *)
Definition set_value (i t p : Z) (c : clock) : outcome (Z * clock) :=
  a ← ctx_at i c;
  c ← put_ctx i (Ctx (i + 1) t (enable a) p) c;
  let c := if decide (status c = 0) then set_status 1 c else c in
  Ret (i + 1, set_kv_config_time (i + 1) t p c).

Definition clock_alarm_del (now i : Z) (c : clock) : outcome (Z * clock) :=
  let mini_id := get_mini_clock_id c in
  let c := set_kv_config_enable i 0 (set_kv_config_time i 0 CLOCK_ALARM_PERIOD_DISABLE c) in
  c ← put_ctx (i - 1) no_alarm c;
  if decide (mini_id = i) then c ← update_clock_timer_info now (restore_status c); Ret (0, c) else Ret (0, c).

Definition clock_alarm_set (sys now i : Z) (cfg : option clock_alarm_config_t) (c : clock) : outcome (Z * clock) :=
  let t := convert_to_absolute_time sys now cfg in
  let p := match cfg with Some g => cf_period g | None => 0 end in
  if decide (i = 0) then
    if decide (t = 0) then Ret (-4, c)
    else if existsb (same_alarm t p) (arr c) then Ret (-2, c)
    else
      let j := find_empty (arr c) 0 in
      if decide (CLOCK_ALARM_NUM <= j) then Ret (-1, c) else c ← disable_at j c; set_value j t p c
  else if bool_decide (t <> 0) && existsb (same_alarm t p) (arr c) then Ret (-2, c)
  else if decide (CLOCK_ALARM_NUM <= u8 (i - 1)) then Ret (-3, c)
  else
    match cfg with
    | None => clock_alarm_del now i c
    | Some _ => if decide (t = 0) then Ret (-4, c) else set_value (u8 (i - 1)) t p c
    end.

Definition clock_alarm_abstime_set (i t p : Z) (c : clock) : outcome (Z * clock) :=
  if decide (t = 0) then Ret (-4, c)
  else if decide (i = 0) then
    if existsb (fun a => bool_decide (t = time a)) (arr c) then Ret (-2, c)
    else
      let j := find_empty (arr c) 0 in
      if decide (CLOCK_ALARM_NUM <= j) then Ret (-1, c) else c ← disable_at j c; set_value j t p c
  else if decide (CLOCK_ALARM_NUM <= u8 (i - 1)) then Ret (-3, c)
  else set_value (u8 (i - 1)) t p c.

Definition clock_alarm_get (i : Z) (c : clock) : option clock_alarm_ctx_t := snd <$> list_find (fun a => i = id a) (arr c).
Definition clock_alarm_get_status (c : clock) : Z := status c.

Definition clock_alarm_enable (now i e : Z) (c : clock) : outcome clock :=
  match list_find (fun a => id a = i) (arr c) with
  | None => Ret c
  | Some (n, a) =>
      c ← put_ctx (Z.of_nat n) (Ctx (id a) (time a) (negb (bool_decide (e = 0))) (period a)) c;
      let c := set_kv_config_enable i e c in
      c ← update_due (fun t => bool_decide (t <> 0 /\ t <= now)) all_idx c;
      update_clock_timer_info now c
  end.

(** ** The next time *)

Definition weekday (t : Z) : Z := (t / 86400 + 4) mod 7.
Definition time_of_day (t : Z) : Z := t mod 86400.

(** [t] is a time an alarm set at the time [n] may ring. *)
Definition rings (g : clock_alarm_config_t) (n t : Z) : Prop :=
  n < t /\ time_of_day t = cf_hour g * 3600 + cf_min g * 60 + cf_sec g /\
  (cf_period g = CLOCK_ALARM_PERIOD_WORKDAY -> 1 <= weekday t <= 5) /\
  (cf_period g = CLOCK_ALARM_PERIOD_WEEK -> weekday t = weekday n).

Definition valid (g : clock_alarm_config_t) : Prop :=
  0 <= cf_hour g < 24 /\ 0 <= cf_min g < 60 /\ 0 <= cf_sec g < 60 /\ 0 <= cf_period g < CLOCK_ALARM_PERIOD_DISABLE.

Ltac days := unfold ONE_DAY_TIME, ONE_WEEK_TIME, weekday, time_of_day in *; Z.to_euclidean_division_equations; lia.

Lemma day_split t : exists d r, t = d * 86400 + r /\ 0 <= r < 86400 /\ t / 86400 = d /\ t mod 86400 = r.
Proof. exists (t / 86400), (t mod 86400). pose proof (Z.div_mod t 86400 ltac:(lia)). pose proof (Z.mod_pos_bound t 86400 ltac:(lia)). split_and!; lia. Qed.

Lemma day_of d r : 0 <= r < 86400 -> (d * 86400 + r) / 86400 = d /\ (d * 86400 + r) mod 86400 = r.
Proof. intros H. split; [rewrite Z.div_add_l by lia; rewrite Z.div_small by lia; lia|rewrite Z.add_comm, Z.mod_add by lia; by apply Z.mod_small]. Qed.

Definition day_time (g : clock_alarm_config_t) : Z := cf_hour g * 3600 + cf_min g * 60 + cf_sec g.

Lemma convert_eq sys now g : valid g ->
  convert_to_absolute_time sys now (Some g) =
    let t := skip_weekend (cf_period g) sys / 86400 * 86400 + day_time g in
    if decide (t <= now) then if decide (cf_period g = CLOCK_ALARM_ONCE) then t + ONE_DAY_TIME else update_period (cf_period g) t else t.
Proof.
  intros (Hh & Hm & Hs & _). unfold convert_to_absolute_time. rewrite !decide_False by lia. cbn zeta. unfold mktime. cbn [tm_date gmtime tm_hour tm_min tm_sec]. unfold day_time.
  by rewrite !Z.add_assoc.
Qed.

(** Days are counted from [d], a day of the week [w]. *)
Lemma skip_days p d r : 0 <= r < 86400 ->
  let w := (d + 4) mod 7 in
  skip_weekend p (d * 86400 + r) / 86400 = if decide (p = CLOCK_ALARM_PERIOD_WORKDAY) then (if decide (w = 6) then d + 2 else if decide (w = 0) then d + 1 else d) else d.
Proof.
  intros Hr w. unfold skip_weekend, gmtime. cbn [tm_wday]. rewrite (proj1 (day_of d r Hr)). fold w. unfold ONE_DAY_TIME. repeat case_decide; try done; [| |by apply day_of..].
  - replace (d * 86400 + r + 24 * 3600 * 2) with ((d + 2) * 86400 + r) by lia. by apply day_of.
  - replace (d * 86400 + r + 24 * 3600) with ((d + 1) * 86400 + r) by lia. by apply day_of.
Qed.

Lemma update_days p d r : 0 <= r < 86400 -> 0 < p ->
  let w := (d + 4) mod 7 in
  update_period p (d * 86400 + r) = (if decide (p = CLOCK_ALARM_PERIOD_DAY) then d + 1 else if decide (p = CLOCK_ALARM_PERIOD_WEEK) then d + 7 else if decide (w = 5) then d + 3 else if decide (w = 6) then d + 2 else d + 1) * 86400 + r.
Proof.
  intros Hr Hp w. unfold update_period, gmtime, CLOCK_ALARM_ONCE, ONE_DAY_TIME, ONE_WEEK_TIME. cbn [tm_wday]. rewrite (proj1 (day_of d r Hr)). fold w. repeat case_decide; lia.
Qed.

Lemma weekday_of d r : 0 <= r < 86400 -> weekday (d * 86400 + r) = (d + 4) mod 7.
Proof. intros H. unfold weekday. by rewrite (proj1 (day_of d r H)). Qed.

(** What [rings] says of the day [e] of a time, for an alarm set on the day [d]. *)
Definition day_rings (p q d r e : Z) : Prop :=
  (d < e \/ d = e /\ r < q) /\ (p = CLOCK_ALARM_PERIOD_WORKDAY -> 1 <= (e + 4) mod 7 <= 5) /\ (p = CLOCK_ALARM_PERIOD_WEEK -> (e + 4) mod 7 = (d + 4) mod 7).

Lemma rings_day g d r e : valid g -> 0 <= r < 86400 -> rings g (d * 86400 + r) (e * 86400 + day_time g) <-> day_rings (cf_period g) (day_time g) d r e.
Proof.
  intros V Hr. assert (0 <= day_time g < 86400) as Hq by (unfold day_time; destruct V; lia). unfold rings, day_rings. rewrite !weekday_of by done. unfold time_of_day. rewrite (proj2 (day_of e _ Hq)).
  split; [intros (H1 & _ & H2 & H3); split_and!; try done; lia|intros (H1 & H2 & H3); split_and!; try done; lia].
Qed.

Lemma rings_split g n u : rings g n u -> exists e, u = e * 86400 + day_time g.
Proof. intros (_ & H & _). exists (u / 86400). unfold time_of_day, day_time in *. pose proof (Z.div_mod u 86400 ltac:(lia)). lia. Qed.

(** The day [convert_to_absolute_time] finds is the first one. *)
Definition next_day (p q d r : Z) : Z :=
  let w := (d + 4) mod 7 in
  let d1 := if decide (p = CLOCK_ALARM_PERIOD_WORKDAY) then (if decide (w = 6) then d + 2 else if decide (w = 0) then d + 1 else d) else d in
  if decide (d1 * 86400 + q <= d * 86400 + r) then
    if decide (p = CLOCK_ALARM_PERIOD_WORKDAY) then (if decide (w = 5) then d + 3 else d + 1) else if decide (p = CLOCK_ALARM_PERIOD_WEEK) then d + 7 else d + 1
  else d1.

Lemma next_day_first p q d r : 0 <= p < 4 -> 0 <= q < 86400 -> 0 <= r < 86400 -> day_rings p q d r (next_day p q d r) /\ forall e, day_rings p q d r e -> next_day p q d r <= e.
Proof.
  intros Hp Hq Hr. unfold day_rings, next_day, CLOCK_ALARM_PERIOD_WORKDAY, CLOCK_ALARM_PERIOD_WEEK. pose proof (Z.mod_pos_bound (d + 4) 7 ltac:(lia)). split; [|intros e (H1 & H2 & H3)]; repeat case_decide; Z.to_euclidean_division_equations; lia.
Qed.

Lemma convert_next g d r : valid g -> 0 <= r < 86400 ->
  convert_to_absolute_time (d * 86400 + r) (d * 86400 + r) (Some g) = next_day (cf_period g) (day_time g) d r * 86400 + day_time g.
Proof.
  intros V Hr. assert (0 <= day_time g < 86400) as Hq by (unfold day_time; destruct V; lia). pose proof V as (_ & _ & _ & Hp). rewrite convert_eq, skip_days by done. set (q := day_time g) in *. cbn zeta.
  unfold next_day. set (d1 := if decide (cf_period g = CLOCK_ALARM_PERIOD_WORKDAY) then _ else d). case_decide as H1; [|done].
  assert (d1 = d) as E1 by (unfold d1 in *; repeat case_decide; lia). rewrite E1 in *. unfold CLOCK_ALARM_PERIOD_DISABLE, CLOCK_ALARM_ONCE in *. destruct (decide (cf_period g = 0)) as [E0|E0].
  - rewrite E0. rewrite !decide_False by done. unfold ONE_DAY_TIME. lia.
  - rewrite update_days by lia. unfold d1, CLOCK_ALARM_PERIOD_DAY, CLOCK_ALARM_PERIOD_WEEK, CLOCK_ALARM_PERIOD_WORKDAY in *. repeat case_decide; lia.
Qed.

(** C33. An alarm is set to the first time it may ring: [convert_to_absolute_time] gives the least time after now with the wanted time of day,
    on a day from Monday to Friday for a working-day alarm and on today's day of the week for a weekly one. *)
Theorem alarm_next g n : valid g -> let t := convert_to_absolute_time n n (Some g) in rings g n t /\ forall u, rings g n u -> t <= u.
Proof.
  intros V t. destruct (day_split n) as (d & r & -> & Hr & _). assert (0 <= day_time g < 86400) as Hq by (unfold day_time; destruct V; lia). pose proof V as (_ & _ & _ & Hp).
  unfold t. rewrite convert_next by done. destruct (next_day_first (cf_period g) (day_time g) d r Hp Hq Hr) as [H1 H2]. split; [by apply rings_day|].
  intros u Hu. destruct (rings_split g _ u Hu) as [e ->]. apply rings_day in Hu; [|done|done]. specialize (H2 e Hu). lia.
Qed.

(** A Friday at ten o'clock and an alarm at nine on working days. *)
Lemma alarm_next_witness :
  let n := 19723 * 86400 + 4 * 86400 + 36000 in let g := Config CLOCK_ALARM_PERIOD_WORKDAY 0 9 0 0 in
  weekday n = 5 /\ convert_to_absolute_time n n (Some g) = n + 3 * 86400 - 3600 /\ rings g n (convert_to_absolute_time n n (Some g)) /\ forall u, rings g n u -> convert_to_absolute_time n n (Some g) <= u.
Proof.
  cbn zeta. split; [vm_compute; reflexivity|]. split; [vm_compute; reflexivity|]. apply alarm_next. unfold valid, CLOCK_ALARM_PERIOD_DISABLE, CLOCK_ALARM_PERIOD_WORKDAY. cbn. lia.
Defined.

(** A repeated alarm moves on to the next time it may ring. *)
Lemma period_next g t :
  valid g -> cf_period g <> CLOCK_ALARM_ONCE -> time_of_day t = day_time g -> rings g t (update_period (cf_period g) t) /\ forall u, rings g t u -> update_period (cf_period g) t <= u.
Proof.
  intros V Hp Et. destruct (day_split t) as (d & r & -> & Hr & _ & Er). unfold time_of_day in Et. rewrite Er in Et. subst r. pose proof V as (_ & _ & _ & Hp4). unfold CLOCK_ALARM_ONCE, CLOCK_ALARM_PERIOD_DISABLE in *.
  assert (update_period (cf_period g) (d * 86400 + day_time g) = convert_to_absolute_time (d * 86400 + day_time g) (d * 86400 + day_time g) (Some g)) as ->; [|by apply alarm_next].
  rewrite convert_next, update_days by (done || lia). unfold next_day, CLOCK_ALARM_PERIOD_DAY, CLOCK_ALARM_PERIOD_WEEK, CLOCK_ALARM_PERIOD_WORKDAY. repeat case_decide; lia.
Qed.

(** ** The table and its copy *)

(** The place [i] of the table agrees with the settings of the alarm [i + 1]. *)
Definition kept (c : clock) (i : Z) (a : clock_alarm_ctx_t) : Prop :=
  (a = no_alarm /\ kv_getint 0 (i + 1) F_time c = 0 /\ kv_getint 0 (i + 1) F_enable c = 0) \/
  (id a = i + 1 /\ 0 < time a /\ kv c !! (i + 1, F_time) = Some (i32 (time a)) /\ kv c !! (i + 1, F_period) = Some (i32 (period a)) /\
   enable a = negb (bool_decide (kv_getint 0 (i + 1) F_enable c = 0))).

Record table_ok (c : clock) : Prop := TableOk {
  tb_len : length (arr c) = 5%nat;
  tb_kept : forall i a, arr c !! i = Some a -> kept c (Z.of_nat i) a
}.

(** Only the settings of the alarm [i] change. *)
Definition only_keys (i : Z) (k k' : gmap (Z * field) Z) : Prop := forall j f, j <> i -> k' !! (j, f) = k !! (j, f).

Lemma kept_other c c' i j a : only_keys i (kv c) (kv c') -> j + 1 <> i -> kept c j a -> kept c' j a.
Proof. intros H Hj. unfold kept, kv_getint. by rewrite !(H (j + 1)) by done. Qed.

Lemma time_keys i t p c : only_keys i (kv c) (kv (set_kv_config_time i t p c)).
Proof. intros j f Hj. cbn. by rewrite !lookup_insert_ne by congruence. Qed.
Lemma enable_keys i e c : only_keys i (kv c) (kv (set_kv_config_enable i e c)).
Proof. intros j f Hj. cbn. by rewrite !lookup_insert_ne by congruence. Qed.
Lemma keys_trans i k1 k2 k3 : only_keys i k1 k2 -> only_keys i k2 k3 -> only_keys i k1 k3.
Proof. intros H1 H2 j f Hj. by rewrite H2, H1. Qed.

Lemma ctx_at_ok c i : table_ok c -> 0 <= i < 5 -> exists a, ctx_at i c = Ret a /\ arr c !! Z.to_nat i = Some a.
Proof.
  intros [L _] Hi. unfold ctx_at. rewrite decide_True by lia. destruct (lookup_lt_is_Some_2 (arr c) (Z.to_nat i)) as [a Ha]; [lia|]. rewrite Ha. by exists a.
Qed.

(** One place and its settings are written. *)
Lemma table_write c c' i a : table_ok c -> 0 <= i < 5 -> arr c' = <[Z.to_nat i := a]> (arr c) -> only_keys (i + 1) (kv c) (kv c') -> kept c' i a -> table_ok c'.
Proof.
  intros [L K] Hi E Hk Ha. split; [by rewrite E, length_insert|]. intros j b. rewrite E. intros [(<- & <- & _)|[Hj Hb]]%list_lookup_insert_Some; [by rewrite Z2Nat.id by lia|].
  apply (kept_other c c' (i + 1)); [done|lia|by apply K].
Qed.

Lemma put_ctx_ok c i a : table_ok c -> 0 <= i < 5 -> put_ctx i a c = Ret (set_arr (<[Z.to_nat i := a]> (arr c)) c).
Proof. intros T Hi. unfold put_ctx. by destruct (ctx_at_ok c i T Hi) as (b & -> & _). Qed.

Lemma kept_same_kv c c' i a : kv c' = kv c -> kept c i a -> kept c' i a.
Proof. intros E. unfold kept, kv_getint. by rewrite E. Qed.

Lemma table_same c c' : arr c' = arr c -> kv c' = kv c -> table_ok c -> table_ok c'.
Proof. intros Ea Ek [L K]. split; [by rewrite Ea|]. intros i a. rewrite Ea. intros H. apply (kept_same_kv c); [done|by apply K]. Qed.

(** The alarm is deleted. *)
Definition cleared (i : Z) (c : clock) : clock :=
  set_arr (<[Z.to_nat i := no_alarm]> (arr c)) (set_kv_config_enable (i + 1) 0 (set_kv_config_time (i + 1) 0 CLOCK_ALARM_PERIOD_DISABLE c)).
Lemma table_clear c i : table_ok c -> 0 <= i < 5 -> table_ok (cleared i c).
Proof.
  intros T Hi. apply (table_write c _ i no_alarm T Hi); [done|eapply keys_trans; [apply time_keys|apply (enable_keys (i + 1) 0 (set_kv_config_time _ _ _ c))]|]. left. split; [done|].
  unfold kv_getint. cbn. rewrite lookup_insert_ne by done. rewrite lookup_insert_ne by done. by rewrite !lookup_insert_eq.
Qed.

(** The alarm is set. *)
Lemma table_set c i a t p s : table_ok c -> 0 <= i < 5 -> arr c !! Z.to_nat i = Some a -> 0 < t ->
  table_ok (set_kv_config_time (i + 1) t p (set_status s (set_arr (<[Z.to_nat i := Ctx (i + 1) t (enable a) p]> (arr c)) c))).
Proof.
  intros T Hi Ha Ht. apply (table_write c _ i (Ctx (i + 1) t (enable a) p) T Hi); [done|apply (time_keys (i + 1) t p (set_status s (set_arr _ c)))|]. right. cbn. unfold kv_getint. cbn. split_and!; try done.
  - rewrite lookup_insert_ne by done. by rewrite lookup_insert_eq.
  - by rewrite lookup_insert_eq.
  - rewrite !lookup_insert_ne by done. pose proof (tb_kept c T _ a Ha) as K. rewrite Z2Nat.id in K by lia. destruct K as [(-> & _ & E)|(_ & _ & _ & _ & E)]; unfold kv_getint in E; [by rewrite E|by rewrite E].
Qed.

(** ** What moving on does to the table *)

(** Alarms that are on are not before [lo], and none is after [hi]. *)
Definition between (lo hi : Z) (c : clock) : Prop := forall a, a ∈ arr c -> (enable a = true -> lo <= time a) /\ time a <= hi.

Lemma between_put lo hi c i a : between lo hi c -> (enable a = true -> lo <= time a) -> time a <= hi -> between lo hi (set_arr (<[i := a]> (arr c)) c).
Proof.
  intros H H1 H2 b [j Hb]%list_elem_of_lookup. cbn in Hb. apply list_lookup_insert_Some in Hb as [(_ & <- & _)|[_ Hb]]; [done|]. apply H. by eapply list_elem_of_lookup_2.
Qed.
Lemma between_more lo hi hi' c : hi <= hi' -> between lo hi c -> between lo hi' c.
Proof. intros Hh H a Ha. destruct (H a Ha). split; [done|lia]. Qed.
Lemma between_same lo hi c c' : arr c' = arr c -> between lo hi c -> between lo hi c'.
Proof. intros E H a. rewrite E. apply H. Qed.

Lemma period_step p t : 0 < t -> p <> CLOCK_ALARM_ONCE -> t < update_period p t <= t + ONE_WEEK_TIME.
Proof. intros Ht Hp. unfold update_period, ONE_WEEK_TIME, ONE_DAY_TIME. repeat case_decide; (done || lia). Qed.

Lemma update_ok c lo hi i : table_ok c -> between lo hi c -> 0 <= hi -> 0 <= i < 5 ->
  exists c', update_clock_alarm i c = Ret c' /\ table_ok c' /\ between lo (hi + ONE_WEEK_TIME) c' /\ inited c' = inited c.
Proof.
  intros T B Hhi Hi. unfold update_clock_alarm. destruct (ctx_at_ok c i T Hi) as (a & -> & Ha). cbn [mbind outcome_bind]. pose proof (tb_kept c T _ a Ha) as K. rewrite Z2Nat.id in K by lia.
  assert (forall j, put_ctx i no_alarm (set_kv_config_enable j 0 (set_kv_config_time j 0 CLOCK_ALARM_PERIOD_DISABLE c)) = Ret (set_arr (<[Z.to_nat i := no_alarm]> (arr c)) (set_kv_config_enable j 0 (set_kv_config_time j 0 CLOCK_ALARM_PERIOD_DISABLE c)))) as Ep.
  { intros j. unfold put_ctx, ctx_at. cbn. by rewrite decide_True, Ha by lia. }
  assert (between lo (hi + ONE_WEEK_TIME) (cleared i c)) as Bc by (apply (between_more lo hi); [unfold ONE_WEEK_TIME; lia|]; by apply (between_put lo hi c (Z.to_nat i) no_alarm)).
  case_decide as Hd; [cbn zeta; rewrite Ep; exists (cleared i c); split; [done|]; split; [by apply table_clear|done]|].
  destruct K as [(-> & _)|(Eid & Ht & _)]; [done|]. case_decide as Ho; [cbn zeta; rewrite Eid, Ep; exists (cleared i c); split; [done|]; split; [by apply table_clear|done]|].
  rewrite (put_ctx_ok c i _ T Hi). cbn [mbind outcome_bind]. rewrite Eid. pose proof (period_step (period a) (time a) Ht Ho) as Hs. eexists. split; [done|]. split; [apply (table_set c i a); (done || lia)|]. split; [|done].
  destruct (B a ltac:(by eapply list_elem_of_lookup_2)) as [B1 B2]. apply (between_put lo (hi + ONE_WEEK_TIME) c); cbn; [apply (between_more lo hi); [unfold ONE_WEEK_TIME; lia|done]|intros He; specialize (B1 He); lia|lia].
Qed.

Lemma update_due_ok due : forall l c lo hi, table_ok c -> between lo hi c -> 0 <= hi -> (forall i, i ∈ l -> 0 <= i < 5) ->
  exists c', update_due due l c = Ret c' /\ table_ok c' /\ between lo (hi + ONE_WEEK_TIME * Z.of_nat (length l)) c' /\ inited c' = inited c.
Proof.
  induction l as [|i l IH]; intros c lo hi T B Hhi Hl; cbn [update_due]; [exists c; split_and!; try done; eapply between_more; [|done]; cbn; lia|].
  assert (0 <= i < 5) as Hi by (apply Hl; by left). destruct (ctx_at_ok c i T Hi) as (a & -> & Ha). cbn [mbind outcome_bind].
  assert (exists c', (if due (time a) then update_clock_alarm i c else Ret c) = Ret c' /\ table_ok c' /\ between lo (hi + ONE_WEEK_TIME) c' /\ inited c' = inited c) as (c1 & -> & T1 & B1 & E1).
  { destruct (due (time a)); [by apply update_ok|]. exists c. split_and!; try done. eapply between_more; [|done]. unfold ONE_WEEK_TIME. lia. }
  cbn [mbind outcome_bind]. destruct (IH c1 lo (hi + ONE_WEEK_TIME) T1 B1) as (c' & -> & T' & B' & E'); [unfold ONE_WEEK_TIME; lia|intros j Hj; apply Hl; by right|].
  exists c'. split_and!; [done|done| |congruence]. eapply between_more; [|done]. cbn [length]. unfold ONE_WEEK_TIME. lia.
Qed.

Lemma all_idx_ok i : i ∈ all_idx -> 0 <= i < 5.
Proof. unfold all_idx. rewrite !elem_of_cons, elem_of_nil. lia. Qed.

(** ** The next alarm *)

Ltac each := intros ? [->|?]%elem_of_cons ?.

Lemma mini_ok : forall l ct m, (forall a, a ∈ l -> enable a = true -> 0 < time a) ->
  (mini_loop l ct m = m /\ forall a, a ∈ l -> enable a = true -> ct <> 0 /\ ct <= time a) \/
  (exists a, a ∈ l /\ enable a = true /\ mini_loop l ct m = id a /\ (forall b, b ∈ l -> enable b = true -> time a <= time b) /\ (ct = 0 \/ time a < ct)).
Proof.
  induction l as [|a l IH]; intros ct m Hp; cbn [mini_loop]; [left; split; [done|]; by intros a ?%elem_of_nil|]. pose proof (fun b Hb => Hp b (list_elem_of_further b a l Hb)) as Hl. pose proof (Hp a (list_elem_of_here a l)) as Ha.
  destruct (enable a) eqn:Ea.
  - specialize (Ha eq_refl). case_decide as Hd.
    + right. destruct (IH (time a) (id a) Hl) as [[E H]|(b & Hb & Eb & E & H & H2)].
      * exists a. split_and!; try done; [by left|each; [done|by apply H]].
      * exists b. split_and!; try done; [by right|each; [lia|by apply H]|]. destruct Hd as [?|?]; [by left|right; lia].
    + destruct (IH ct m Hl) as [[E H]|(b & Hb & Eb & E & H & H2)].
      * left. split; [done|]. each; [lia|by apply H].
      * right. exists b. split_and!; try done; [by right|each; [lia|by apply H]].
  - destruct (IH ct m Hl) as [[E H]|(b & Hb & Eb & E & H & H2)].
    + left. split; [done|]. each; [congruence|by apply H].
    + right. exists b. split_and!; try done; [by right|each; [congruence|by apply H]].
Qed.

(** The first alarm that is on. *)
Lemma get_mini_ok c : table_ok c ->
  (get_mini_clock_id c = 0 /\ forall a, a ∈ arr c -> enable a = false) \/
  (exists a, ctx_at (get_mini_clock_id c - 1) c = Ret a /\ a ∈ arr c /\ get_mini_clock_id c <> 0 /\ enable a = true /\ get_mini_clock_id c = id a /\ forall b, b ∈ arr c -> enable b = true -> time a <= time b).
Proof.
  intros T. unfold get_mini_clock_id. destruct (mini_ok (arr c) 0 0) as [[E H]|(a & Ha & Ea & E & H & _)].
  - intros a [i Hi]%list_elem_of_lookup Ee. by destruct (tb_kept c T i a Hi) as [(-> & _)|(_ & ? & _)].
  - left. split; [done|]. intros a Ha. destruct (enable a) eqn:Ea; [|done]. by destruct (H a Ha Ea).
  - right. apply list_elem_of_lookup in Ha as [i Hi]. destruct (tb_kept c T i a Hi) as [(-> & _)|(Eid & _)]; [done|]. exists a. rewrite E, Eid. split_and!; try done; [|by eapply list_elem_of_lookup_2|lia].
    unfold ctx_at. rewrite decide_True by lia. replace (Z.to_nat (Z.of_nat i + 1 - 1)) with i by lia. by rewrite Hi.
Qed.

(** What is armed for the first alarm that is on: the delayed event in the last 90 seconds, else the
    clock's alarm 30 seconds ahead. *)
Definition armed (now : Z) (c c' : clock) : Prop :=
  (status c = 2 /\ c' = c) \/ ((forall a, a ∈ arr c -> enable a = false) /\ c' = c) \/
  exists a, a ∈ arr c /\ enable a = true /\ (forall b, b ∈ arr c -> enable b = true -> time a <= time b) /\
    c' = if decide (time a - now < 90) then emit (EventTimeout (id a) ((time a - now) * 1000)) (set_status 2 c) else config_rtc_alarm (time a) (period a) c.

(** No alarm that is on is more than 24 days in the past, and none is decades ahead. *)
Definition recent (now : Z) (c : clock) : Prop := 0 <= now /\ between (now - 2147483) (now + 2 ^ 30) c.

Lemma timer_info_ok now hi c : table_ok c -> 0 <= now -> between (now - 2147483) hi c -> hi < now + 2 ^ 31 ->
  exists c', update_clock_timer_info now c = Ret c' /\ armed now c c' /\ arr c' = arr c /\ kv c' = kv c /\ inited c' = inited c.
Proof.
  intros T Hn B Hhi. unfold update_clock_timer_info, armed. case_decide as Hs; [exists c; split_and!; try done; by left|]. destruct (get_mini_ok c T) as [[-> H]|(a & Ea & Ha & Hne & He & Eid & H)].
  - rewrite decide_True by done. exists c. split_and!; try done. right. by left.
  - rewrite (decide_False (P := get_mini_clock_id c = 0)) by done. rewrite Ea. cbn [mbind outcome_bind]. destruct (B a Ha) as [B1 B2]. specialize (B1 He). cbn zeta. rewrite i32_id by lia. case_decide as Hd.
    + case_decide as H0; [|rewrite decide_False by lia]; eexists; (split; [done|]); (split; [|done]); right; right; exists a; rewrite decide_True by done; split_and!; try done; [by rewrite H0, Eid|by rewrite Eid].
    + eexists. split; [done|]. split; [|done]. right. right. exists a. by rewrite decide_False.
Qed.

(** ** Calls and events *)

Inductive alarm_op := OpSet (sys i : Z) (cfg : option clock_alarm_config_t) | OpAbsSet (i t p : Z) | OpEnable (i e : Z) | OpHandle | OpCallback (arg : Z).

Definition run_op (now : Z) (op : alarm_op) (c : clock) : outcome clock :=
  match op with
  | OpSet sys i cfg => '(_, c) ← clock_alarm_set sys now i cfg c; Ret c
  | OpAbsSet i t p => '(_, c) ← clock_alarm_abstime_set i t p c; Ret c
  | OpEnable i e => clock_alarm_enable now i e c
  | OpHandle => clock_alarm_handle now c
  | OpCallback arg => clock_timer_callback now arg c
  end.

(** Identifiers are of the table, times not before 1970; an alarm that is switched on was due at most 24 days ago. *)
Definition op_ok (now : Z) (op : alarm_op) (c : clock) : Prop :=
  match op with
  | OpSet sys i cfg => 0 <= sys /\ 0 <= i < 256 /\ forall g, cfg = Some g -> 0 <= cf_period g
  | OpAbsSet i t p => 0 <= i < 256 /\ 0 <= t
  | OpEnable i e => 0 < i /\ (e <> 0 -> forall a, a ∈ arr c -> id a = i -> now - 2147483 <= time a)
  | OpHandle => True
  | OpCallback arg => 1 <= u8 arg <= 5
  end.

Definition op_returns (m : outcome clock) (c : clock) : Prop := exists c', m = Ret c' /\ table_ok c' /\ inited c' = inited c.

Lemma info_returns now hi c c0 : table_ok c -> 0 <= now -> between (now - 2147483) hi c -> hi < now + 2 ^ 31 -> inited c = inited c0 -> op_returns (update_clock_timer_info now c) c0.
Proof. intros T Hn B Hh Hi. destruct (timer_info_ok now hi c T Hn B Hh) as (c' & -> & _ & E1 & E2 & E3). exists c'. split; [done|]. split; [by apply (table_same c)|congruence]. Qed.

(** Moving on the alarms that are due, and arming the next. *)
Lemma due_returns now due hi c c0 : table_ok c -> 0 <= now -> between (now - 2147483) hi c -> 0 <= hi -> hi < now + 2 ^ 30 + 10 * ONE_WEEK_TIME -> inited c = inited c0 ->
  op_returns (c ← update_due due all_idx c; update_clock_timer_info now c) c0 /\ op_returns (c ← update_due due all_idx c; update_clock_timer_info now (restore_status c)) c0.
Proof.
  intros T Hn B Hh0 Hh Hi. destruct (update_due_ok due all_idx c _ _ T B Hh0 all_idx_ok) as (c1 & -> & T1 & B1 & E1). cbn [mbind outcome_bind]. change (Z.of_nat (length all_idx)) with 5 in B1. unfold ONE_WEEK_TIME in *. split.
  - apply (info_returns now (hi + 7 * 24 * 3600 * 5) c1 c0 T1 Hn B1); [lia|congruence].
  - apply (info_returns now (hi + 7 * 24 * 3600 * 5) (restore_status c1) c0); [by apply (table_same c1)|done|by apply (between_same _ _ c1)|lia|cbn; congruence].
Qed.

Lemma convert_nonneg sys now cfg : 0 <= sys -> (forall g, cfg = Some g -> 0 <= cf_period g) -> 0 <= convert_to_absolute_time sys now cfg.
Proof.
  intros Hs Hp. destruct cfg as [g|]; [|done]. specialize (Hp g eq_refl). unfold convert_to_absolute_time. case_decide; [done|]. case_decide; [done|]. case_decide; [done|]. cbn zeta.
  assert (0 <= skip_weekend (cf_period g) sys) as Hk by (unfold skip_weekend, ONE_DAY_TIME; repeat case_decide; lia). assert (0 <= mktime (Tm (cf_sec g) (cf_min g) (cf_hour g) (tm_date (gmtime (skip_weekend (cf_period g) sys))) (tm_wday (gmtime (skip_weekend (cf_period g) sys))))) as Hm.
  { unfold mktime. cbn. pose proof (Z.div_pos _ 86400 Hk ltac:(lia)). lia. }
  case_decide; [|done]. case_decide; [unfold ONE_DAY_TIME; lia|]. unfold update_period, ONE_DAY_TIME, ONE_WEEK_TIME. repeat case_decide; (done || lia).
Qed.

Lemma set_value_ok c c0 i t p : table_ok c -> 0 <= i < 5 -> 0 < t -> inited c = inited c0 -> exists r c', set_value i t p c = Ret (r, c') /\ table_ok c' /\ inited c' = inited c0.
Proof.
  intros T Hi Ht E. unfold set_value. destruct (ctx_at_ok c i T Hi) as (a & -> & Ha). cbn [mbind outcome_bind]. rewrite (put_ctx_ok c i _ T Hi). cbn [mbind outcome_bind]. eexists _, _. split; [done|]. pose proof (table_set c i a t p) as H. cbn zeta. case_decide.
  - split; [by apply H|by cbn].
  - split; [|by cbn]. apply (table_same (set_kv_config_time (i + 1) t p (set_status 0 (set_arr (<[Z.to_nat i := Ctx (i + 1) t (enable a) p]> (arr c)) c)))); [done|done|by apply H].
Qed.

Lemma find_empty_ok : forall l i, let j := find_empty l i in i <= j <= i + Z.of_nat (length l) /\ (j < i + Z.of_nat (length l) -> exists a, l !! Z.to_nat (j - i) = Some a /\ time a = 0).
Proof.
  induction l as [|a l IH]; intros i; cbn [find_empty length]; [split; lia|]. case_decide as Ht; [split; [lia|]; intros _; exists a; by rewrite Z.sub_diag|]. destruct (IH (i + 1)) as [H1 H2]. split; [lia|].
  intros Hj. destruct H2 as (b & Hb & Hz); [lia|]. exists b. split; [|done]. by replace (Z.to_nat (find_empty l (i + 1) - i)) with (S (Z.to_nat (find_empty l (i + 1) - (i + 1)))) by lia.
Qed.

(** A new alarm takes the first free place, which is off already. *)
Lemma new_alarm_ok c t p : table_ok c -> 0 < t -> let j := find_empty (arr c) 0 in ~ CLOCK_ALARM_NUM <= j -> exists r c', (c ← disable_at j c; set_value j t p c) = Ret (r, c') /\ table_ok c' /\ inited c' = inited c.
Proof.
  intros T Ht j Hj. destruct (find_empty_ok (arr c) 0) as [H1 H2]. fold j in H1, H2. rewrite (tb_len c T) in H1, H2. unfold CLOCK_ALARM_NUM in Hj. destruct H2 as (a & Ha & Hz); [lia|]. rewrite Z.sub_0_r in Ha.
  unfold disable_at, ctx_at. rewrite decide_True by lia. rewrite Ha. cbn [mbind outcome_bind]. rewrite (put_ctx_ok c j _ T) by lia. cbn [mbind outcome_bind]. destruct (tb_kept c T _ a Ha) as [(-> & _)|(_ & ? & _)]; [|lia].
  apply set_value_ok; [|lia|done|done]. change (Ctx (id no_alarm) (time no_alarm) false (period no_alarm)) with no_alarm. apply (table_same c); [cbn; by apply list_insert_id|done|done].
Qed.

Lemma abs_set_ok c i t p : table_ok c -> 0 <= i < 256 -> 0 <= t -> exists r c', clock_alarm_abstime_set i t p c = Ret (r, c') /\ table_ok c' /\ inited c' = inited c.
Proof.
  intros T Hi Ht. unfold clock_alarm_abstime_set. case_decide; [by eexists _, _|]. case_decide as H0.
  - destruct (existsb _ _); [by eexists _, _|]. cbn zeta. case_decide; [by eexists _, _|]. apply new_alarm_ok; (done || lia).
  - case_decide as H1; [by eexists _, _|]. rewrite u8_small in H1 |- * by lia. unfold CLOCK_ALARM_NUM in H1. apply set_value_ok; (done || lia).
Qed.

Lemma del_ok now c i : table_ok c -> recent now c -> 1 <= i <= 5 -> exists r c', clock_alarm_del now i c = Ret (r, c') /\ table_ok c' /\ inited c' = inited c.
Proof.
  intros T [Hn B] Hi. unfold clock_alarm_del, put_ctx, ctx_at. rewrite decide_True by lia. destruct (ctx_at_ok c (i - 1) T ltac:(lia)) as (a & _ & Ha). cbn [arr set_kv_config_enable set_kv_config_time set_kv]. rewrite Ha. cbn [mbind outcome_bind].
  set (c1 := set_arr _ _). assert (c1 = cleared (i - 1) c) as E1 by (unfold c1, cleared; by rewrite Z.sub_add). assert (table_ok c1) as T1 by (rewrite E1; apply table_clear; [done|lia]).
  case_decide; [|by eexists _, _]. assert (between (now - 2147483) (now + 2 ^ 30) (restore_status c1)) as B1 by (rewrite E1; by apply (between_put _ _ c (Z.to_nat (i - 1)) no_alarm); [|done|cbn; lia]).
  destruct (timer_info_ok now (now + 2 ^ 30) (restore_status c1)) as (c2 & -> & _ & F1 & F2 & F3); [by apply (table_same c1)|done|done|lia|]. cbn [mbind outcome_bind]. eexists _, _. split; [done|]. split; [by apply (table_same c1)|by rewrite F3, E1].
Qed.

Lemma set_ok sys now i cfg c : table_ok c -> recent now c -> op_ok now (OpSet sys i cfg) c -> exists r c', clock_alarm_set sys now i cfg c = Ret (r, c') /\ table_ok c' /\ inited c' = inited c.
Proof.
  intros T R (Hs & Hi & Hp). pose proof (convert_nonneg sys now cfg Hs Hp) as Ht. unfold clock_alarm_set. set (t := convert_to_absolute_time sys now cfg) in *. cbn zeta. case_decide as H0.
  - case_decide; [by eexists _, _|]. destruct (existsb _ _); [by eexists _, _|]. case_decide; [by eexists _, _|]. apply new_alarm_ok; (done || lia).
  - destruct (bool_decide (t <> 0) && _); [by eexists _, _|]. case_decide as H1; [by eexists _, _|]. rewrite u8_small in H1 |- * by lia. unfold CLOCK_ALARM_NUM in H1. destruct cfg as [g|]; [|apply del_ok; (done || lia)].
    case_decide; [by eexists _, _|]. apply set_value_ok; (done || lia).
Qed.

Lemma enable_ok now i e c : table_ok c -> recent now c -> op_ok now (OpEnable i e) c -> op_returns (clock_alarm_enable now i e c) c.
Proof.
  intros T [Hn B] [Hi Ho]. unfold clock_alarm_enable. destruct (list_find _ (arr c)) as [[n a]|] eqn:Ef; [|by exists c]. apply list_find_Some in Ef as (Ha & Eid & _). pose proof (lookup_lt_Some _ _ _ Ha) as Hl. rewrite (tb_len c T) in Hl.
  assert (a ∈ arr c) as Hin by (by eapply list_elem_of_lookup_2). specialize (fun He => Ho He a Hin Eid). destruct (B a Hin) as [_ B2].
  rewrite (put_ctx_ok c (Z.of_nat n) _ T) by lia. cbn [mbind outcome_bind]. rewrite Nat2Z.id. destruct (tb_kept c T n a Ha) as [(-> & _)|(Ei & Ht & K1 & K2 & _)]; [cbn in Eid; lia|].
  set (a1 := Ctx _ _ _ _). set (c1 := set_kv_config_enable i e _). assert (between (now - 2147483) (now + 2 ^ 30) c1) as B1.
  { apply (between_put _ _ c n a1); [done| |done]. cbn. rewrite negb_true_iff, bool_decide_eq_false. apply Ho. }
  assert (table_ok c1) as T1.
  { apply (table_write c c1 (Z.of_nat n) a1 T); [lia|by rewrite Nat2Z.id|rewrite <- Ei, Eid; apply (enable_keys i e (set_arr _ c))|]. right. rewrite <- Ei, Eid. cbn. split_and!; try done.
    - rewrite lookup_insert_ne by done. by rewrite <- Eid, Ei.
    - rewrite lookup_insert_ne by done. by rewrite <- Eid, Ei.
    - unfold kv_getint. cbn. by rewrite lookup_insert_eq. }
  by apply (due_returns now _ (now + 2 ^ 30) c1 c T1 Hn B1); [lia|unfold ONE_WEEK_TIME; lia|].
Qed.

Lemma handle_ok now c : table_ok c -> recent now c -> op_returns (clock_alarm_handle now c) c.
Proof.
  intros T [Hn B]. unfold clock_alarm_handle. cbn zeta. destruct (get_mini_ok c T) as [[-> _]|(a & Ea & _ & Hne & _)]; [rewrite decide_True by done; by exists c|]. rewrite decide_False by done. rewrite Ea. cbn [mbind outcome_bind].
  case_decide; [|eexists; split; [done|]; split; [by apply (table_same c)|done]]. apply (due_returns now _ (now + 2 ^ 30) c c T Hn B); (done || (unfold ONE_WEEK_TIME; lia)).
Qed.

Lemma callback_ok now arg c : table_ok c -> recent now c -> 1 <= u8 arg <= 5 -> now < 2 ^ 31 -> op_returns (clock_timer_callback now arg c) c.
Proof.
  intros T [Hn B] Ha Hn2. unfold clock_timer_callback. cbn zeta. destruct (ctx_at_ok c (u8 arg - 1) T ltac:(lia)) as (a & -> & Hl). cbn [mbind outcome_bind]. destruct (B a ltac:(by eapply list_elem_of_lookup_2)) as [_ B2].
  assert (0 <= time a) as Ht by (destruct (tb_kept c T _ a Hl) as [(-> & _)|(_ & ? & _)]; [done|lia]). rewrite i32_id by lia. rewrite decide_False by lia.
  assert (exists c1, (if decide (Z.abs (now - time a) < 3) then (let c := if alarm_cb c then emit (Callback (u8 arg)) c else c in update_clock_alarm (u8 arg - 1) c) else Ret c) = Ret c1 /\ table_ok c1 /\ between (now - 2147483) (now + 2 ^ 30 + ONE_WEEK_TIME) c1 /\ inited c1 = inited c) as (c1 & E & T1 & B1 & I1).
  { case_decide; [|exists c; split_and!; try done; eapply between_more; [|exact B]; unfold ONE_WEEK_TIME; lia]. cbn zeta. set (c0 := if alarm_cb c then _ else c). assert (arr c0 = arr c /\ kv c0 = kv c /\ inited c0 = inited c) as (E1 & E2 & E3) by (unfold c0; by destruct (alarm_cb c)).
    rewrite <- E3. apply update_ok; [by apply (table_same c)|by apply (between_same _ _ c)|lia|lia]. }
  cbn zeta in E. rewrite E. cbn [mbind outcome_bind]. apply (due_returns now _ (now + 2 ^ 30 + ONE_WEEK_TIME) c1 c T1 Hn B1); (done || (unfold ONE_WEEK_TIME; lia)).
Qed.

Lemma op_step now op c : table_ok c -> recent now c -> now < 2 ^ 31 -> op_ok now op c -> op_returns (run_op now op c) c.
Proof.
  intros T R Hn Ho. destruct op as [sys i cfg|i t p|i e| |arg]; cbn [run_op].
  - destruct (set_ok sys now i cfg c T R Ho) as (r & c' & -> & T' & E). cbn [mbind outcome_bind]. by exists c'.
  - destruct Ho as [Hi Ht]. destruct (abs_set_ok c i t p T Hi Ht) as (r & c' & -> & T' & E). cbn [mbind outcome_bind]. by exists c'.
  - by apply enable_ok.
  - by apply handle_ok.
  - by apply callback_ok.
Qed.

(** ** Restarts *)

(** Memory at a restart: the settings are left. *)
Definition rebooted (k : gmap (Z * field) Z) : clock := Clock (replicate 5 (Ctx 0 0 false 0)) 0 false false k [].

(** Times and periods that fit the [int] they are stored as. *)
Definition fits (c : clock) : Prop := forall a, a ∈ arr c -> time a < 2 ^ 31 /\ - 2 ^ 31 <= period a < 2 ^ 31.

Lemma load_one c c1 i a : fits c -> table_ok c -> kv c1 = kv c -> length (arr c1) = 5%nat -> 0 <= i < 5 -> arr c !! Z.to_nat i = Some a ->
  (c ← get_kv_config_time (i + 1) c1; a ← ctx_at i c; (if decide (time a = 0) then Ret c else get_kv_config_enable (i + 1) c)) = Ret (set_arr (<[Z.to_nat i := a]> (arr c1)) c1).
Proof.
  intros F T Ek L Hi Ha. pose proof (tb_kept c T _ a Ha) as K. rewrite Z2Nat.id in K by lia. destruct (F a ltac:(by eapply list_elem_of_lookup_2)) as [F1 F2].
  destruct (lookup_lt_is_Some_2 (arr c1) (Z.to_nat i)) as [b Hb]; [lia|]. assert (forall x, put_ctx i x c1 = Ret (set_arr (<[Z.to_nat i := x]> (arr c1)) c1)) as Ep by (intros x; unfold put_ctx, ctx_at; rewrite decide_True by lia; by rewrite Hb).
  assert (forall x, ctx_at i (set_arr (<[Z.to_nat i := x]> (arr c1)) c1) = Ret x) as Ec by (intros x; unfold ctx_at; rewrite decide_True by lia; cbn; by rewrite list_lookup_insert_eq by lia).
  unfold get_kv_config_time. cbn zeta. unfold kept, kv_getint in *. rewrite Ek, Z.add_simpl_r. destruct K as [(-> & E1 & _)|(Eid & Ht & E1 & E2 & E3)].
  - rewrite E1. rewrite decide_True by done. rewrite Ep. cbn [mbind outcome_bind]. rewrite Ec. cbn [mbind outcome_bind]. by rewrite decide_True.
  - rewrite E1, E2. cbn [default from_option]. unfold Datatypes.id. rewrite (i32_id (time a)), (i32_id (period a)) by lia. rewrite decide_False by lia. rewrite Ep. cbn [mbind outcome_bind]. rewrite Ec. cbn [mbind outcome_bind]. rewrite decide_False by (cbn; lia).
    unfold get_kv_config_enable, kv_getint. rewrite Z.add_simpl_r, Ec. cbn [mbind outcome_bind id time period kv set_arr]. unfold put_ctx. rewrite Ec. cbn [mbind outcome_bind arr set_arr]. rewrite list_insert_insert_eq, Ek, <- E3, <- Eid. by destruct a, c1.
Qed.

Lemma load_ok : forall l c c1, fits c -> table_ok c -> kv c1 = kv c -> length (arr c1) = 5%nat -> (forall i, i ∈ l -> 0 <= i < 5) ->
  exists c', load_all l c1 = Ret c' /\ kv c' = kv c /\ length (arr c') = 5%nat /\ forall i, (i < 5)%nat -> arr c' !! i = if decide (Z.of_nat i ∈ l) then arr c !! i else arr c1 !! i.
Proof.
  induction l as [|i l IH]; intros c c1 F T Ek L Hl; cbn [load_all]; [by exists c1|].
  assert (0 <= i < 5) as Hi by (apply Hl; by left). destruct (ctx_at_ok c i T Hi) as (a & _ & Ha). pose proof (load_one c c1 i a F T Ek L Hi Ha) as E.
  destruct (get_kv_config_time (i + 1) c1) as [c2|]; [|done]. cbn [mbind outcome_bind] in *. destruct (ctx_at i c2) as [a2|]; [|done]. cbn [mbind outcome_bind] in *. rewrite E. cbn [mbind outcome_bind].
  destruct (IH c (set_arr (<[Z.to_nat i := a]> (arr c1)) c1) F T Ek) as (c' & -> & E1 & E2 & E3); [cbn; by rewrite length_insert|intros j Hj; apply Hl; by right|]. exists c'. split_and!; try done. intros j Hj. rewrite E3 by done. cbn [arr set_arr].
  destruct (decide (Z.of_nat j ∈ l)) as [H1|H1]; [by rewrite decide_True by by right|]. destruct (decide (Z.of_nat j = i)) as [<-|Hne].
  - rewrite decide_True by by left. rewrite Nat2Z.id in *. by rewrite list_lookup_insert_eq by lia.
  - rewrite decide_False by (intros [?|?]%elem_of_cons; done). rewrite list_lookup_insert_ne by lia. done.
Qed.

Lemma init_loads cb c : fits c -> table_ok c -> exists c', clock_alarm_init cb (rebooted (kv c)) = Ret (0, c') /\ arr c' = arr c /\ kv c' = kv c.
Proof.
  intros F T. unfold clock_alarm_init. cbn [inited rebooted status kv out]. destruct (load_ok all_idx c (Clock (replicate 5 (Ctx 0 0 false 0)) 0 false cb (kv c) []) F T eq_refl eq_refl all_idx_ok) as (c' & -> & E1 & E2 & E3). cbn [mbind outcome_bind].
  eexists. split; [done|]. cbn. split; [|done]. apply list_eq. intros i. destruct (decide (i < 5)%nat) as [Hi|Hi].
  - rewrite E3 by done. rewrite decide_True; [done|]. unfold all_idx. rewrite !elem_of_cons. lia.
  - rewrite !lookup_ge_None_2; [done|rewrite (tb_len c T); lia|lia].
Qed.

Definition no_clock : clock := Clock (replicate 5 no_alarm) 0 false false ∅ [].
Lemma no_clock_ok : table_ok no_clock /\ fits no_clock.
Proof.
  split; [split; [done|]; intros i a [-> _]%lookup_replicate; by left|]. intros a [i [-> _]%lookup_replicate]%list_elem_of_lookup. cbn. unfold CLOCK_ALARM_PERIOD_DISABLE. lia.
Qed.

(** The states of the table: the first start, calls and events, restarts. *)
Inductive alarms : clock -> Prop :=
  | al_first cb c : clock_alarm_init cb (rebooted ∅) = Ret (0, c) -> alarms c
  | al_op now op c c' : alarms c -> recent now c -> now < 2 ^ 31 -> op_ok now op c -> run_op now op c = Ret c' -> alarms c'
  | al_restart cb c c' : alarms c -> fits c -> clock_alarm_init cb (rebooted (kv c)) = Ret (0, c') -> alarms c'.

Lemma alarms_table c : alarms c -> table_ok c.
Proof.
  induction 1 as [cb c H|now op c c' _ T R Hn Ho H|cb c c' _ T F H].
  - destruct no_clock_ok as [T F]. destruct (init_loads cb no_clock F T) as (c1 & E & E1 & E2). change (kv no_clock) with (∅ : gmap (Z * field) Z) in E. rewrite E in H. injection H as <-. by apply (table_same no_clock).
  - destruct (op_step now op c T R Hn Ho) as (c1 & E & T1 & _). rewrite E in H. by injection H as <-.
  - destruct (init_loads cb c F T) as (c1 & E & E1 & E2). rewrite E in H. injection H as <-. by apply (table_same c).
Qed.

(** C32. Alarms survive a restart: after any sequence of calls, alarms that ring and restarts, [clock_alarm_init] reads back from the
    key-value store exactly the table there was, times, periods and switches, as long as the times fit the [int] they are stored as. *)
Theorem alarm_restart cb c : alarms c -> fits c -> exists c', clock_alarm_init cb (rebooted (kv c)) = Ret (0, c') /\ arr c' = arr c.
Proof. intros A F. destruct (init_loads cb c F (alarms_table c A)) as (c' & E & E1 & _). by exists c'. Qed.

(** Every call and event returns, and leads to such a state again. *)
Theorem alarm_ops_return now op c : alarms c -> recent now c -> now < 2 ^ 31 -> op_ok now op c -> exists c', run_op now op c = Ret c' /\ alarms c'.
Proof. intros A R Hn Ho. destruct (op_step now op c (alarms_table c A) R Hn Ho) as (c' & E & _). exists c'. split; [done|]. by eapply al_op. Qed.

(** What is armed after the table has changed. *)
Theorem alarm_armed now c : alarms c -> recent now c -> exists c', update_clock_timer_info now c = Ret c' /\ armed now c c'.
Proof. intros A [Hn B]. destruct (timer_info_ok now (now + 2 ^ 30) c (alarms_table c A) Hn B ltac:(lia)) as (c' & E & H & _). by exists c'. Qed.

(** ** Runs *)

Definition after_init : clock := match clock_alarm_init true (rebooted ∅) with Ret (_, c) => c | Crash => no_clock end.
Definition after_ops (now : Z) (ops : list alarm_op) : clock := foldl (fun c op => match run_op now op c with Ret c' => c' | Crash => c end) after_init ops.
(** An alarm at noon every day, switched on an hour before. *)
Definition daily : clock := after_ops (19723 * 86400 + 39600) [OpAbsSet 0 (19723 * 86400 + 43200) CLOCK_ALARM_PERIOD_DAY; OpEnable 1 1].

Lemma recent_all now c : 0 <= now -> Forall (fun a => (enable a = true -> now - 2147483 <= time a) /\ time a <= now + 2 ^ 30) (arr c) -> recent now c.
Proof. intros Hn H. split; [done|]. intros a Ha. rewrite list.Forall_forall in H. by apply H. Qed.

Lemma daily_ok : alarms daily.
Proof.
  unfold daily, after_ops. cbn [foldl]. set (now := 19723 * 86400 + 39600). set (c1 := match run_op now (OpAbsSet _ _ _) after_init with Ret c => c | Crash => after_init end).
  assert (alarms after_init) as A0 by (eapply (al_first true); vm_compute; reflexivity). assert (alarms c1) as A1.
  { eapply (al_op now (OpAbsSet 0 (19723 * 86400 + 43200) CLOCK_ALARM_PERIOD_DAY) after_init); [done|apply recent_all; [done|]|done|cbn; lia|vm_compute; reflexivity]. refine (bool_decide_unpack _ _). vm_compute. exact I. }
  eapply (al_op now (OpEnable 1 1) c1); [done|apply recent_all; [done|]|done| |vm_compute; reflexivity]; [refine (bool_decide_unpack _ _); vm_compute; exact I|].
  split; [done|]. intros _. apply (proj1 (list.Forall_forall (fun a => id a = 1 -> now - 2147483 <= time a) (arr c1))). refine (bool_decide_unpack _ _). vm_compute. exact I.
Qed.

Lemma alarm_restart_witness :
  time <$> clock_alarm_get 1 daily = Some (19723 * 86400 + 43200) /\ exists c', clock_alarm_init true (rebooted (kv daily)) = Ret (0, c') /\ arr c' = arr daily.
Proof.
  split; [vm_compute; reflexivity|]. apply alarm_restart; [exact daily_ok|]. refine (proj1 (list.Forall_forall (fun a => time a < 2 ^ 31 /\ - 2 ^ 31 <= period a < 2 ^ 31) (arr daily)) _). refine (bool_decide_unpack _ _). vm_compute. exact I.
Defined.

(** A missed alarm moves on by one period only: three days later the next time is still in the past, and the event is to come in [-86400] seconds. *)
Lemma missed_alarm_lags :
  exists c', clock_alarm_handle (19723 * 86400 + 43200 + 2 * 86400) daily = Ret c' /\ time <$> clock_alarm_get 1 c' = Some (19724 * 86400 + 43200) /\ out c' = out daily ++ [EventTimeout 1 (-86400000)].
Proof. eexists. split; [vm_compute; reflexivity|]. split; vm_compute; reflexivity. Qed.

(** After 30 days the delay overflows. *)
Lemma missed_alarm_overflows : clock_alarm_handle (19723 * 86400 + 43200 + 30 * 86400) daily = Crash.
Proof. vm_compute. reflexivity. Qed.

(** An alarm that rings rewrites the settings of all free places. *)
Lemma ringing_writes_free_places :
  kv daily !! (5, F_period) = None /\ exists c', clock_timer_callback (19723 * 86400 + 43200) 1 daily = Ret c' /\ kv c' !! (5, F_period) = Some CLOCK_ALARM_PERIOD_DISABLE /\ kv c' !! (5, F_time) = Some 0 /\ kv c' !! (5, F_enable) = Some 0.
Proof. split; [vm_compute; reflexivity|]. eexists. split; [vm_compute; reflexivity|]. split_and!; vm_compute; reflexivity. Qed.

(** The day of the week of a weekly alarm is not looked at. *)
Lemma week_ignored sys now p w w' h m s : convert_to_absolute_time sys now (Some (Config p w h m s)) = convert_to_absolute_time sys now (Some (Config p w' h m s)).
Proof. done. Qed.
