(* ===== verification/Ipc.v ===== *)
(** * Messages between the cores, [components/ipc/ipc.c]

    One direction of the link: the core that sends and the core that receives, with the
    mailbox between them ([channel_mailbox.c] over
    [chip_bl606p/drivers/blyoc_mbox/blyoc_mbox.c]).  The threads and interrupt handlers
    of both cores are agents that take turns; a turn runs to the next point where the
    code waits, or where another agent could see the difference.  Caches are taken to
    be coherent where the code cleans and invalidates them; log output is left out. *)

From S2P Require Import Prelude.

(** ** Data *)

Definition BLOCK_SIZE : Z := 4.
Definition MESSAGE_SYNC : Z := 1.
Definition MESSAGE_ACK : Z := 2.
Definition SHM_CACHE : Z := 4.

(** [sizeof(dispatch_t)]. *)
Definition DISPATCH_SIZE : Z := 16.

(** [message_t]; [req_len] is the length of [req_data].  What the receiver gets has
    [resp_data] NULL. *)
Record message := Message {
  flag : Z;
  service_id : Z;
  command : Z;
  req_data : list Z;
  queue : Z;
  resp_len : Z
}.
#[export] Instance message_eq_dec : EqDecision message.
Proof. solve_decision. Defined.

(** [phy_data_t]; [ph_data] is the address of one of the shared blocks. *)
Record phy := Phy {
  ph_flag : Z;
  ph_service_id : Z;
  ph_command : Z;
  ph_seq : Z;
  ph_data : nat;
  ph_len : Z;
  ph_sem : Z
}.

(** A [phy_data_t] on the receiving side, with the block it points to on the heap. *)
Record parcel := Parcel { p_phy : phy; p_buf : list Z }.

(** [shm_t]: [mem] is the memory at [addr], of [size] bytes. *)
Record shm := Shm { mem : list Z; widx : Z }.

(** ** The sending core *)

(** A [transfer_send] under way: its local variables and where it is; [ret] is what
    the last [shm_write] returned. *)
Inductive tx_pc := TxLoop | TxWait (ret : Z) | TxPut (ret : Z).
Record sending := Sending {
  s_phy : phy;
  s_data : list Z;
  s_total : Z;
  s_shm : nat;
  s_pc : tx_pc
}.

(** [ipc_t] of the sending core; the application's calls still to be made.
    [ack_irq]: the acknowledge interrupt is pending. *)
Record sender := Sender {
  tx_seq : Z;
  tx_shm : list shm;
  evt_write : bool;
  ack_irq : bool;
  job : option sending;
  todo : list message
}.

(** ** The receiving core *)

(** Where [ipc_task_process_entry] is. *)
Inductive rx_pc := RxWait | RxGet | RxCopy (m : phy) | RxQueue (p : parcel).

(** A [transfer_recv] that waits for more: what it has taken from the first parcel,
    what is in the buffer, and what is still to come. *)
Record receiving := Receiving {
  r_queue : Z;
  r_resp_len : Z;
  r_buf : list Z;
  r_left : Z
}.

(** Where a service's thread is: at [phy_wait], behind it with a parcel at the
    [rx_mutex], or, with the mutex, at the [phy_wait] for more. *)
Inductive srv_pc := SrvWait | SrvLock (p : parcel) | SrvMore (r : receiving).

(** [service_t]; [inbox]: the messages its [transfer_recv] has returned. *)
Record service := Service {
  id : Z;
  que : list parcel;
  srv : srv_pc;
  inbox : list message
}.

(** [data_irq]: the data interrupt is pending. *)
Record receiver := Receiver {
  evt_read : bool;
  data_irq : bool;
  rx : rx_pc;
  seq_bake : Z;
  services : list service
}.

(** [mailbox]: the shared RAM between the two cores, [None] before the first message. *)
Record world := World {
  txc : sender;
  mailbox : option phy;
  rxc : receiver
}.

(** ** Shared blocks *)

Definition shm_reset (s : shm) : shm := Shm (mem s) 0.

(** [MIN] picks the shorter one; [memcpy] stays in its two objects or is undefined. *)
Definition shm_write (s : shm) (data : list Z) (len : Z) : outcome (Z * shm) :=
  let room := zlen (mem s) - widx s in
  let copy := if decide (u32 len < room) then u32 len else room in
  d ← mem_read data 0 copy;
  m ← mem_write (mem s) (widx s) d;
  Ret (copy, Shm m (widx s + copy)).

Definition shm_available_read_space (s : shm) : Z := widx s.

Definition get_shm (i : nat) (s : sender) : outcome shm :=
  match tx_shm s !! i with Some b => Ret b | None => Crash end.
Definition put_shm (i : nat) (b : shm) (s : sender) : sender :=
  Sender (tx_seq s) (<[i := b]> (tx_shm s)) (evt_write s) (ack_irq s) (job s) (todo s).

(** The block [ipc->shm[ipc->seq % BLOCK_SIZE]]. *)
Definition cur_shm (s : sender) : nat := Z.to_nat (tx_seq s mod BLOCK_SIZE).

(** ** Sending *)

Definition le64_bytes (z : Z) : list Z := le32_bytes z ++ le32_bytes (z / 2 ^ 32).

(** [dispatch_t] as it lies in memory. *)
Definition dispatch_bytes (total_len resp_len queue : Z) : list Z :=
  le32_bytes total_len ++ le32_bytes resp_len ++ le64_bytes queue.

Definition with_job (j : option sending) (s : sender) : sender :=
  Sender (tx_seq s) (tx_shm s) (evt_write s) (ack_irq s) j (todo s).

(** [transfer_send] up to its loop. *)
Definition send_begin (m : message) (s : sender) : outcome sender :=
  let i := cur_shm s in
  b ← get_shm i s;
  let total := zlen (req_data m) in
  let phy_msg := Phy (Z.lor (flag m) SHM_CACHE) (service_id m) (command m) 0 i total (queue m) in
  '(_, b) ← shm_write (shm_reset b) (dispatch_bytes total (resp_len m) (queue m)) DISPATCH_SIZE;
  Ret (with_job (Some (Sending phy_msg (req_data m) total i TxLoop)) (put_shm i b s)).

(** The head of the loop: leave it, or fill the block. *)
Definition send_fill (j : sending) (s : sender) : outcome sender :=
  b ← get_shm (s_shm j) s;
  if decide (0 < s_total j \/ 0 < shm_available_read_space b) then
    '(ret, b) ← shm_write b (s_data j) (s_total j);
    let p := s_phy j in
    let p := Phy (ph_flag p) (ph_service_id p) (ph_command p) (ph_seq p) (s_shm j)
                 (shm_available_read_space b) (ph_sem p) in
    Ret (with_job (Some (Sending p (s_data j) (s_total j) (s_shm j) (TxWait ret))) (put_shm (s_shm j) b s))
  else Ret (with_job None s).

(** [ipc_channel_send]: [aos_event_get] on the write event, which clears it; [None] is
    waiting. *)
Definition send_wait (j : sending) (ret : Z) (s : sender) : option sender :=
  if evt_write s then
    Some (Sender (tx_seq s) (tx_shm s) false (ack_irq s)
            (Some (Sending (s_phy j) (s_data j) (s_total j) (s_shm j) (TxPut ret))) (todo s))
  else None.

(** The rest of it, [channel_put_message] down to [blyoc_ipc_send]: the message goes to
    the mailbox and the receiver is interrupted; then the end of the loop's body. *)
Definition send_put (j : sending) (ret : Z) (w : world) : outcome world :=
  let s := txc w in
  let p := s_phy j in
  let msg := Phy (ph_flag p) (ph_service_id p) (ph_command p) (tx_seq s) (ph_data p) (ph_len p) (ph_sem p) in
  let s := Sender (u32 (tx_seq s + 1)) (tx_shm s) (evt_write s) (ack_irq s) (job s) (todo s) in
  let i := cur_shm s in
  b ← get_shm i s;
  let s := put_shm i (shm_reset b) s in
  let j := Sending msg (zdrop ret (s_data j)) (i32 (s_total j - ret)) i TxLoop in
  let r := rxc w in
  Ret (World (with_job (Some j) s) (Some msg)
         (Receiver (evt_read r) true (rx r) (seq_bake r) (services r))).

(** The application thread, inside [transfer_send] or before the next one. *)
Definition run_tx (w : world) : outcome (option world) :=
  let s := txc w in
  match job s with
  | None =>
      match todo s with
      | [] => Ret None
      | m :: l => s ← send_begin m (Sender (tx_seq s) (tx_shm s) (evt_write s) (ack_irq s) None l);
                  Ret (Some (World s (mailbox w) (rxc w)))
      end
  | Some j =>
      match s_pc j with
      | TxLoop => s ← send_fill j s; Ret (Some (World s (mailbox w) (rxc w)))
      | TxWait ret => Ret ((fun s => World s (mailbox w) (rxc w)) <$> send_wait j ret s)
      | TxPut ret => w ← send_put j ret w; Ret (Some w)
      end
  end.

(** ** Interrupts

    [blyoc_ipc_irqhander] clears what it has read and calls [mailbox_event_cb], which
    sets the event the other side is waiting for. *)
Definition run_ack_isr (w : world) : option world :=
  let s := txc w in
  if ack_irq s
  then Some (World (Sender (tx_seq s) (tx_shm s) true false (job s) (todo s)) (mailbox w) (rxc w))
  else None.

Definition run_data_isr (w : world) : option world :=
  let r := rxc w in
  if data_irq r
  then Some (World (txc w) (mailbox w) (Receiver true false (rx r) (seq_bake r) (services r)))
  else None.

(** ** Receiving *)

Definition with_rx (pc : rx_pc) (r : receiver) : receiver :=
  Receiver (evt_read r) (data_irq r) pc (seq_bake r) (services r).

(** [ipc_channel_recv], the wait for the read event, which clears it. *)
Definition recv_wait (r : receiver) : option receiver :=
  if evt_read r then Some (Receiver false (data_irq r) RxGet (seq_bake r) (services r)) else None.

(** [channel_get_message] down to [blyoc_ipc_recv]: copy the mailbox and acknowledge.
    Before the first message the shared RAM says nothing and the local variable is
    undefined. *)
Definition recv_get (w : world) : outcome world :=
  match mailbox w with
  | None => Crash
  | Some m =>
      let s := txc w in
      let r := rxc w in
      let bake := if decide (u32 (seq_bake r + 1) <> ph_seq m) then ph_seq m else u32 (seq_bake r + 1) in
      Ret (World (Sender (tx_seq s) (tx_shm s) (evt_write s) true (job s) (todo s)) (mailbox w)
             (Receiver (evt_read r) (data_irq r) (RxCopy m) bake (services r)))
  end.

(** The rest of [phy_recv]: copy the block to the heap. *)
Definition recv_copy (m : phy) (s : sender) : outcome parcel :=
  b ← get_shm (ph_data m) s;
  d ← mem_read (mem b) 0 (ph_len m);
  Ret (Parcel m d).

(** [find_service]: the first one with this number. *)
Fixpoint find_service (i : nat) (sid : Z) (l : list service) : option nat :=
  match l with
  | [] => None
  | s :: l => if decide (id s = sid) then Some i else find_service (S i) sid l
  end.

(** ** A service's thread *)

Definition le64 (l : list Z) : Z := le32 (ztake 4 l) + 2 ^ 32 * le32 (zdrop 4 l).

(** What [transfer_recv] has when it starts waiting for more, or returns. *)
Inductive progress := More (r : receiving) | Done (m : message).

(** The message, with the fields taken from the last parcel. *)
Definition recv_done (p : parcel) (q rl : Z) (data : list Z) : message :=
  Message (ph_flag (p_phy p)) (ph_service_id (p_phy p)) (ph_command (p_phy p)) data q rl.

Definition recv_step (p : parcel) (r : receiving) : progress :=
  if decide (0 < r_left r) then More r else Done (recv_done p (r_queue r) (r_resp_len r) (r_buf r)).

(** [memcpy(recv, src, n)] into the buffer of [aos_malloc_check(total_len)]. *)
Definition recv_append (src : list Z) (n : Z) (r : receiving) : outcome receiving :=
  d ← mem_read src 0 n;
  if decide (n <= r_left r) then Ret (Receiving (r_queue r) (r_resp_len r) (r_buf r ++ d) (r_left r - n))
  else Crash.

(** The first parcel: [total_len], [resp_len] and [queue], then data. *)
Definition recv_first (p : parcel) : outcome progress :=
  h ← mem_read (p_buf p) 0 DISPATCH_SIZE;
  let total := i32 (le32 (ztake 4 h)) in
  let r := Receiving (le64 (zdrop 8 h)) (i32 (le32 (ztake 4 (zdrop 4 h)))) [] total in
  if decide (0 < total) then
    r ← recv_append (zdrop DISPATCH_SIZE (p_buf p)) (ph_len (p_phy p) - DISPATCH_SIZE) r;
    Ret (recv_step p r)
  else Ret (Done (recv_done p (r_queue r) (r_resp_len r) [])).

Definition recv_more (p : parcel) (r : receiving) : outcome progress :=
  r ← recv_append (p_buf p) (ph_len (p_phy p)) r; Ret (recv_step p r).

(** It waits for more with the [rx_mutex], or unlocks it and returns. *)
Definition recv_go (s : service) (q : list parcel) (g : progress) : service :=
  match g with
  | More r => Service (id s) q (SrvMore r) (inbox s)
  | Done m => Service (id s) q SrvWait (inbox s ++ [m])
  end.

(** The [rx_mutex], which the services share, is held while one waits for more. *)
Definition has_mutex (s : service) : bool := match srv s with SrvMore _ => true | _ => false end.
Definition rx_mutex (l : list service) : bool := existsb has_mutex l.

(** A turn of [transfer_recv]; [None] is waiting, on an empty queue or for the mutex. *)
Definition run_service (locked : bool) (s : service) : outcome (option service) :=
  match srv s with
  | SrvWait =>
      Ret (match que s with p :: q => Some (Service (id s) q (SrvLock p) (inbox s)) | [] => None end)
  | SrvLock p =>
      if locked then Ret None else g ← recv_first p; Ret (Some (recv_go s (que s) g))
  | SrvMore r =>
      match que s with p :: q => g ← recv_more p r; Ret (Some (recv_go s q g)) | [] => Ret None end
  end.

Section Receiver.

(** How many parcels a service's queue holds. *)
Context (capacity : nat).

(** [aos_queue_send], repeated while the queue is full; without a service the parcel is
    dropped. *)
Definition recv_queue (p : parcel) (r : receiver) : option receiver :=
  match find_service 0 (ph_service_id (p_phy p)) (services r) with
  | None => Some (with_rx RxWait r)
  | Some i =>
      match services r !! i with
      | Some s =>
          if decide (length (que s) < capacity)%nat then
            Some (Receiver (evt_read r) (data_irq r) RxWait (seq_bake r)
                    (<[i := Service (id s) (que s ++ [p]) (srv s) (inbox s)]> (services r)))
          else None
      | None => None
      end
  end.

(** [ipc_task_process_entry]. *)
Definition run_rx (w : world) : outcome (option world) :=
  let r := rxc w in
  let put := fun r => World (txc w) (mailbox w) r in
  match rx r with
  | RxWait => Ret (put <$> recv_wait r)
  | RxGet => w ← recv_get w; Ret (Some w)
  | RxCopy m => p ← recv_copy m (txc w); Ret (Some (put (with_rx (RxQueue p) r)))
  | RxQueue p => Ret (put <$> recv_queue p r)
  end.

(** ** Turns *)

Inductive agent := Tx | AckIsr | DataIsr | Rx | Srv (i : nat).

(** A turn of an agent; [Ret None] when it has to wait. *)
Definition turn (a : agent) (w : world) : outcome (option world) :=
  match a with
  | Tx => run_tx w
  | AckIsr => Ret (run_ack_isr w)
  | DataIsr => Ret (run_data_isr w)
  | Rx => run_rx w
  | Srv i =>
      let r := rxc w in
      match services r !! i with
      | None => Ret None
      | Some s =>
          o ← run_service (rx_mutex (services r)) s;
          Ret (match o with
               | Some s => Some (World (txc w) (mailbox w)
                   (Receiver (evt_read r) (data_irq r) (rx r) (seq_bake r) (<[i := s]> (services r))))
               | None => None
               end)
      end
  end.

(** Any order of turns. *)
Inductive steps : nat -> world -> world -> Prop :=
| steps_refl w : steps 0 w w
| steps_turn n a w1 w2 w3 : steps n w1 w2 -> turn a w2 = Ret (Some w3) -> steps (S n) w1 w3.

(** A given order, for evaluation; turns of waiting agents are skipped. *)
Fixpoint play (l : list agent) (w : world) : outcome world :=
  match l with
  | [] => Ret w
  | a :: l => o ← turn a w; play l (match o with Some w => w | None => w end)
  end.

End Receiver.

(** ** Setting up *)

(** [ipc_get]: the shared memory in [BLOCK_SIZE] blocks. *)
Definition ipc_shm (shm_size : Z) : list shm :=
  replicate (Z.to_nat BLOCK_SIZE) (Shm (replicate (Z.to_nat (shm_size / BLOCK_SIZE)) 0) 0).

Definition ipc_get (shm_size : Z) (todo : list message) : sender :=
  Sender 1 (ipc_shm shm_size) true false None todo.

(** [ipc_add_service]; an id that is there already fails the assertion.  The read event
    is set. *)
Definition ipc_add_service (sid : Z) (r : receiver) : outcome receiver :=
  match find_service 0 sid (services r) with
  | Some _ => Crash
  | None => Ret (Receiver true (data_irq r) (rx r) (seq_bake r) (services r ++ [Service sid [] SrvWait []]))
  end.

(** Both cores set up, with the services' read events gone, and nothing sent yet. *)
Definition ipc_start (shm_size : Z) (todo : list message) (sids : list Z) : world :=
  World (ipc_get shm_size todo) None
    (Receiver false false RxWait 0 ((fun sid => Service sid [] SrvWait []) <$> sids)).
