(* ===== verification/IpcProofs.v ===== *)
(** * Messages between the cores: cutting and putting together

    A message is sent as the pieces of its header and data that fit a block; the
    service's thread puts the pieces together again. *)

From S2P Require Import Prelude Ipc.

(** ** Pieces *)

Section Pieces.
Context (blk : Z) (Hblk : DISPATCH_SIZE < blk).

Let Hblk0 : 16 < blk.
Proof. exact Hblk. Qed.

Fixpoint pieces_of (n : nat) (l : list Z) : list (list Z) :=
  match n with
  | O => []
  | S n => if decide (l = []) then [] else ztake blk l :: pieces_of n (zdrop blk l)
  end.
Definition pieces (l : list Z) : list (list Z) := pieces_of (length l) l.

Lemma drop_shorter (l : list Z) : l <> [] -> (length (zdrop blk l) < length l)%nat.
Proof. intros Hl. destruct l as [|x l]; [done|]. unfold zdrop. rewrite length_drop. cbn [length]. lia. Qed.

Lemma pieces_enough l : forall n, (length l <= n)%nat -> pieces_of n l = pieces l.
Proof.
  unfold pieces. induction l as [l IH] using (induction_ltof1 _ (@length Z)). unfold ltof in IH. intros n Hn.
  destruct (decide (l = [])) as [->|Hl]; [by destruct n; cbn [pieces_of]; rewrite ?decide_True|].
  assert (0 < length l)%nat by (destruct l; [done|cbn; lia]).
  destruct n as [|n]; [lia|]. destruct (length l) as [|k] eqn:E; [lia|].
  cbn [pieces_of]. rewrite !decide_False by done. pose proof (drop_shorter l Hl) as Hs. rewrite E in Hs. f_equal.
  by rewrite (IH _ Hs n), (IH _ Hs k) by lia.
Qed.

Lemma pieces_cons l : l <> [] -> pieces l = ztake blk l :: pieces (zdrop blk l).
Proof.
  intros Hl. unfold pieces at 1. destruct (length l) as [|n] eqn:E; [by destruct l|]. cbn [pieces_of].
  rewrite decide_False by done. pose proof (drop_shorter l Hl). by rewrite pieces_enough by lia.
Qed.

(** ** Chunks: what a parcel tells the service *)

Record chunk := Chunk { c_flag : Z; c_sid : Z; c_cmd : Z; c_bytes : list Z }.

Definition chunk_of (m : phy) (buf : list Z) : chunk := Chunk (ph_flag m) (ph_service_id m) (ph_command m) buf.

Definition parcel_of (c : chunk) : parcel :=
  Parcel (Phy (c_flag c) (c_sid c) (c_cmd c) 0 0 (zlen (c_bytes c)) 0) (c_bytes c).

(** The chunks of a message, and what arrives. *)
Definition header (m : message) : list Z := dispatch_bytes (zlen (req_data m)) (resp_len m) (queue m).
Definition sent_flag (m : message) : Z := Z.lor (flag m) SHM_CACHE.
Definition msg_chunks (m : message) : list chunk :=
  Chunk (sent_flag m) (service_id m) (command m) <$> pieces (header m ++ req_data m).
Definition arrived (m : message) : message :=
  Message (sent_flag m) (service_id m) (command m) (req_data m) (queue m) (resp_len m).

(** A length of type [int], a queue that is an address. *)
Definition message_ok (m : message) : Prop :=
  zlen (req_data m) < 2 ^ 31 /\ - 2 ^ 31 <= resp_len m < 2 ^ 31 /\ 0 <= queue m < 2 ^ 64.

#[export] Instance message_ok_dec m : Decision (message_ok m).
Proof. unfold message_ok. apply _. Defined.

(** A service takes chunks. *)
Definition taken : Type := option receiving * list message.
Definition absorb (t : taken) (c : chunk) : outcome taken :=
  g ← match t.1 with None => recv_first (parcel_of c) | Some r => recv_more (parcel_of c) r end;
  Ret (match g with More r => (Some r, t.2) | Done m => (None, t.2 ++ [m]) end).

Fixpoint absorb_all (t : taken) (cs : list chunk) : outcome taken :=
  match cs with
  | [] => Ret t
  | c :: cs => t ← absorb t c; absorb_all t cs
  end.

Lemma absorb_app t cs ds : absorb_all t (cs ++ ds) = (t' ← absorb_all t cs; absorb_all t' ds).
Proof.
  revert t. induction cs as [|c cs IH]; intros t; [done|]. cbn [app absorb_all].
  destruct (absorb t c); cbn [mbind outcome_bind]; [apply IH|done].
Qed.

Lemma absorb_grows t c t' : absorb t c = Ret t' -> t.2 `prefix_of` t'.2.
Proof.
  unfold absorb. intros (g & _ & E)%bind_Ret. destruct g; injection E as <-; [done|]. by exists [m].
Qed.

Lemma absorb_all_grows cs : forall t t', absorb_all t cs = Ret t' -> t.2 `prefix_of` t'.2.
Proof.
  induction cs as [|c cs IH]; intros t t'; cbn [absorb_all]; [by intros [= ->]|].
  intros (t1 & E1 & E2)%bind_Ret. etrans; [by eapply absorb_grows|by apply IH].
Qed.

(** ** Putting a message together *)

Lemma le64_le64_bytes q : 0 <= q < 2 ^ 64 -> le64 (le64_bytes q) = q.
Proof.
  intros Hq. unfold le64, le64_bytes. rewrite ztake_app_exact, zdrop_app_exact by done. rewrite !le32_le32_bytes.
  unfold u32. assert (q / 2 ^ 32 < 2 ^ 32) by (apply Z.div_lt_upper_bound; lia).
  assert (0 <= q / 2 ^ 32) by (apply Z.div_pos; lia).
  rewrite (Z.mod_small (q / 2 ^ 32)) by lia. pose proof (Z.div_mod q (2 ^ 32) ltac:(lia)). lia.
Qed.

Lemma i32_u32 z : - 2 ^ 31 <= z < 2 ^ 31 -> i32 (u32 z) = z.
Proof.
  intros Hz. rewrite <- (i32_id z) at 2 by done. unfold i32, u32. by rewrite Z.add_mod_idemp_l by lia.
Qed.

Lemma header_len m : zlen (header m) = 16.
Proof. done. Qed.

(** Appending the next [n] bytes. *)
Lemma append_ok src n r :
  0 <= n <= zlen src -> n <= r_left r ->
  recv_append src n r = Ret (Receiving (r_queue r) (r_resp_len r) (r_buf r ++ ztake n src) (r_left r - n)).
Proof. intros. unfold recv_append. rewrite mem_read_ok, zdrop_0 by lia. cbn [mbind outcome_bind]. by rewrite decide_True by lia. Qed.

(** The pieces behind the first. *)
Lemma absorb_rest f sid cmd rest : forall r out,
  rest <> [] -> r_left r = zlen rest ->
  absorb_all (Some r, out) (Chunk f sid cmd <$> pieces rest)
  = Ret (None, out ++ [Message f sid cmd (r_buf r ++ rest) (r_queue r) (r_resp_len r)]).
Proof.
  induction rest as [rest IH] using (induction_ltof1 _ (@length Z)). unfold ltof in IH. intros r out Hne Hleft.
  rewrite pieces_cons by done. cbn [fmap list_fmap absorb_all]. unfold absorb. cbn [fst].
  pose proof (zlen_nonneg (zdrop blk rest)). assert (0 < zlen rest) by (apply zlen_pos; done).
  assert (zlen (ztake blk rest) <= zlen rest /\ 0 <= zlen (ztake blk rest)) as Hlen.
  { unfold zlen, ztake. rewrite length_take. lia. }
  unfold recv_more, parcel_of. cbn [p_buf p_phy ph_len c_bytes c_flag c_sid c_cmd].
  rewrite append_ok, (ztake_all _ (ztake blk rest)) by lia. cbn [mbind outcome_bind]. unfold recv_step. cbn [r_left].
  assert (zlen (ztake blk rest) + zlen (zdrop blk rest) = zlen rest) as Hsum
    by (rewrite <- zlen_app; by rewrite ztake_zdrop).
  rewrite Hleft. destruct (decide (zdrop blk rest = [])) as [E|Hd].
  - assert (ztake blk rest = rest) as Et by (rewrite <- (ztake_zdrop blk rest) at 2; by rewrite E, app_nil_r).
    rewrite E, Et in *. by rewrite decide_False by lia.
  - assert (0 < zlen (zdrop blk rest)) by (apply zlen_pos; done). rewrite decide_True by lia.
    rewrite IH; [|by apply drop_shorter|done|cbn [r_left]; lia]. cbn [r_buf r_queue r_resp_len snd].
    rewrite <- app_assoc, ztake_zdrop. done.
Qed.

(** The pieces of a message give the message. *)
Lemma absorb_msg m out :
  message_ok m -> absorb_all (None, out) (msg_chunks m) = Ret (None, out ++ [arrived m]).
Proof.
  intros (Hd & Hr & Hq). unfold msg_chunks. rewrite pieces_cons by done. cbn [fmap list_fmap absorb_all].
  unfold absorb. cbn [fst]. unfold recv_first, parcel_of. cbn [p_buf p_phy ph_len c_bytes c_flag c_sid c_cmd].
  set (l := header m ++ req_data m). assert (zlen l = 16 + zlen (req_data m)) as Hl by (unfold l; by rewrite zlen_app).
  pose proof (zlen_nonneg (req_data m)).
  assert (ztake blk l = header m ++ ztake (blk - 16) (req_data m)) as E1.
  { unfold l, ztake. rewrite take_app_ge by (change (length (header m)) with 16%nat; lia). do 2 f_equal.
    change (length (header m)) with 16%nat. lia. }
  assert (zdrop blk l = zdrop (blk - 16) (req_data m)) as E2.
  { unfold l, zdrop. rewrite drop_app_ge by (change (length (header m)) with 16%nat; lia). f_equal.
    change (length (header m)) with 16%nat. lia. }
  rewrite E1, E2. set (d1 := ztake (blk - 16) (req_data m)). set (d2 := zdrop (blk - 16) (req_data m)).
  rewrite mem_read_ok, zdrop_0, ztake_app_exact by (rewrite ?zlen_app, ?header_len; unfold DISPATCH_SIZE; pose proof (zlen_nonneg d1); lia || done).
  cbn [mbind outcome_bind].
  assert (i32 (le32 (ztake 4 (header m))) = zlen (req_data m)) as ->
    by (change (ztake 4 (header m)) with (le32_bytes (zlen (req_data m))); rewrite le32_le32_bytes; apply i32_u32; lia).
  assert (i32 (le32 (ztake 4 (zdrop 4 (header m)))) = resp_len m) as ->
    by (change (ztake 4 (zdrop 4 (header m))) with (le32_bytes (resp_len m)); rewrite le32_le32_bytes; by apply i32_u32).
  assert (le64 (zdrop 8 (header m)) = queue m) as ->
    by (change (zdrop 8 (header m)) with (le64_bytes (queue m)); by apply le64_le64_bytes).
  assert (zlen d1 + zlen d2 = zlen (req_data m)) as Hsum by (rewrite <- zlen_app; unfold d1, d2; by rewrite ztake_zdrop).
  pose proof (zlen_nonneg d1). pose proof (zlen_nonneg d2).
  destruct (decide (0 < zlen (req_data m))) as [Hpos|Hzero]; cbn [r_queue r_resp_len].
  2: { assert (req_data m = []) as E by (apply zlen_nil_inv; lia). unfold arrived, d2, zdrop. by rewrite E, drop_nil. }
  rewrite (zdrop_app_exact DISPATCH_SIZE (header m) d1), zlen_app, header_len by done.
  rewrite append_ok, (ztake_all _ d1) by (cbn [r_left]; unfold DISPATCH_SIZE; lia).
  cbn [mbind outcome_bind r_queue r_resp_len r_buf r_left app]. unfold recv_step, DISPATCH_SIZE. cbn [r_left].
  destruct (decide (d2 = [])) as [E|Hne].
  - rewrite E in *. rewrite zlen_nil in Hsum. rewrite decide_False by lia.
    assert (d1 = req_data m) as Ed by (unfold d1; rewrite <- (ztake_zdrop (blk - 16) (req_data m)) at 2; fold d2; by rewrite E, app_nil_r).
    rewrite Ed. done.
  - assert (0 < zlen d2) by (apply zlen_pos; done). rewrite decide_True by lia. cbn [snd].
    rewrite absorb_rest by (done || (cbn [r_left]; lia)). cbn [r_buf r_queue r_resp_len]. unfold arrived, d1, d2. by rewrite ztake_zdrop.
Qed.

(** A sequence of messages. *)
Lemma absorb_msgs ms : forall out,
  Forall message_ok ms -> absorb_all (None, out) (ms ≫= msg_chunks) = Ret (None, out ++ (arrived <$> ms)).
Proof.
  induction ms as [|m ms IH]; intros out H; [by cbn; rewrite app_nil_r|]. inversion_clear H.
  rewrite bind_cons, absorb_app, absorb_msg by done. cbn [mbind outcome_bind]. rewrite IH by done.
  rewrite fmap_cons. by norm_app.
Qed.

End Pieces.
