(* ===== verification/IpcLink.v ===== *)
(** * Messages between the cores: the link

    The write event, the data interrupt, the read event and the acknowledge interrupt
    pass one token round the two cores, so at most one message is in the mailbox; a
    block is not filled again before it has been copied.  Under every order of turns the
    chunks of the messages stay in order between the sender and the services. *)

From S2P Require Import Prelude Ipc IpcProofs.

(** ** What is on its way *)

Definition one (b : bool) : nat := if b then 1 else 0.

Definition at_put (s : sender) : bool :=
  match job s with Some j => match s_pc j with TxPut _ => true | _ => false end | None => false end.
Definition at_get (r : receiver) : bool := match rx r with RxGet => true | _ => false end.

(** How many agents may go on with the mailbox. *)
Definition tokens (w : world) : nat :=
  one (evt_write (txc w)) + one (at_put (txc w)) + one (data_irq (rxc w)) + one (evt_read (rxc w)) +
  one (at_get (rxc w)) + one (ack_irq (txc w)).

(** The mailbox holds a message that the receiver has not taken. *)
Definition mail_full (w : world) : bool := data_irq (rxc w) || evt_read (rxc w) || at_get (rxc w).

(** The block that was used [n] messages ago. *)
Definition back (n : Z) (s : sender) : nat := Z.to_nat ((tx_seq s - n) mod BLOCK_SIZE).

Definition block_bytes (m : phy) (s : sender) : list Z :=
  match tx_shm s !! ph_data m with Some b => ztake (ph_len m) (mem b) | None => [] end.

Definition parcel_chunk (p : parcel) : chunk := chunk_of (p_phy p) (p_buf p).
Definition good_parcel (p : parcel) : Prop := ph_len (p_phy p) = zlen (p_buf p).

(** The parcels a service has, in order. *)
Definition pending (s : service) : list parcel :=
  match srv s with SrvLock p => p :: que s | _ => que s end.

Section Link.
Context (blk : Z) (Hblk : DISPATCH_SIZE < blk).

Definition in_rx (w : world) : list chunk :=
  match rx (rxc w) with
  | RxCopy m => [chunk_of m (block_bytes m (txc w))]
  | RxQueue p => [parcel_chunk p]
  | _ => []
  end.

Definition in_mail (w : world) : list chunk :=
  if mail_full w then
    match mailbox w with Some m => [chunk_of m (block_bytes m (txc w))] | None => [] end
  else [].

Definition job_chunks (s : sender) : list chunk :=
  match job s with
  | None => []
  | Some j =>
      let mk := Chunk (ph_flag (s_phy j)) (ph_service_id (s_phy j)) (ph_command (s_phy j)) in
      match tx_shm s !! s_shm j with
      | None => []
      | Some b =>
          match s_pc j with
          | TxLoop => mk <$> pieces blk (ztake (widx b) (mem b) ++ s_data j)
          | TxWait ret | TxPut ret => mk (ztake (widx b) (mem b)) :: (mk <$> pieces blk (zdrop ret (s_data j)))
          end
      end
  end.

Definition unsent (s : sender) : list chunk := job_chunks s ++ (todo s ≫= msg_chunks blk).
Definition flight (w : world) : list chunk := in_rx w ++ in_mail w ++ unsent (txc w).

(** ** The invariant of the link *)

Definition fits (m : phy) : Prop := 0 <= ph_len m <= blk.

Definition job_ok (s : sender) (j : sending) : Prop :=
  s_shm j = cur_shm s /\ s_total j = zlen (s_data j) /\ zlen (s_data j) < 2 ^ 31 /\
  exists b, tx_shm s !! s_shm j = Some b /\
    match s_pc j with
    | TxLoop => 0 <= widx b <= DISPATCH_SIZE
    | TxWait ret | TxPut ret =>
        ph_data (s_phy j) = s_shm j /\ ph_len (s_phy j) = widx b /\ 0 <= widx b <= blk /\ 0 <= ret <= zlen (s_data j)
    end.

Record link_ok (w : world) : Prop := LinkOk {
  lk_len : length (tx_shm (txc w)) = 4%nat;
  lk_shm : Forall (fun b => zlen (mem b) = blk) (tx_shm (txc w));
  lk_seq : 0 <= tx_seq (txc w) < 2 ^ 32;
  lk_tokens : tokens w = 1%nat;
  lk_mail : mail_full w = true -> exists m, mailbox w = Some m /\ ph_data m = back 1 (txc w) /\ fits m;
  lk_rx : match rx (rxc w) with
          | RxCopy m => ph_data m = back (if mail_full w then 2 else 1) (txc w) /\ fits m
          | RxQueue p => good_parcel p
          | _ => True
          end;
  lk_que : Forall (fun s => Forall good_parcel (pending s)) (services (rxc w));
  lk_job : match job (txc w) with Some j => job_ok (txc w) j | None => True end;
  lk_todo : Forall message_ok (todo (txc w))
}.

Lemma cur_lt s : 0 <= tx_seq s -> (cur_shm s < 4)%nat.
Proof. intros. unfold cur_shm, BLOCK_SIZE. pose proof (Z.mod_pos_bound (tx_seq s) 4 ltac:(lia)). lia. Qed.

Lemma back_lt n s : (back n s < 4)%nat.
Proof. unfold back, BLOCK_SIZE. pose proof (Z.mod_pos_bound (tx_seq s - n) 4 ltac:(lia)). lia. Qed.

Lemma back_other n s : n = 1 \/ n = 2 -> back n s <> cur_shm s.
Proof.
  unfold back, cur_shm, BLOCK_SIZE. intros Hn. pose proof (Z.mod_pos_bound (tx_seq s) 4 ltac:(lia)).
  pose proof (Z.mod_pos_bound (tx_seq s - n) 4 ltac:(lia)).
  pose proof (Z.div_mod (tx_seq s) 4 ltac:(lia)). pose proof (Z.div_mod (tx_seq s - n) 4 ltac:(lia)). lia.
Qed.

(** Counting on to the next message. *)
Lemma u32_mod4 z : u32 z mod 4 = z mod 4.
Proof. unfold u32. apply Z.mod_mod_divide. by exists (2 ^ 30). Qed.

Lemma back_next n s s' : tx_seq s' = u32 (tx_seq s + 1) -> back (n + 1) s' = back n s.
Proof.
  intros E. unfold back, BLOCK_SIZE. rewrite E, <- Zminus_mod_idemp_l, u32_mod4, Zminus_mod_idemp_l. do 2 f_equal. lia.
Qed.

Lemma back_0 s : back 0 s = cur_shm s.
Proof. unfold back, cur_shm. by rewrite Z.sub_0_r. Qed.

Lemma shm_at s i : length (tx_shm s) = 4%nat -> Forall (fun b => zlen (mem b) = blk) (tx_shm s) -> (i < 4)%nat ->
  exists b, tx_shm s !! i = Some b /\ zlen (mem b) = blk /\ get_shm i s = Ret b.
Proof.
  intros Hl Hf Hi. destruct (lookup_lt_is_Some_2 (tx_shm s) i ltac:(lia)) as [b Hb]. exists b.
  split; [done|]. split; [by apply (Forall_lookup_1 _ _ _ _ Hf Hb)|]. unfold get_shm. by rewrite Hb.
Qed.

(** Writing one block leaves the bytes of the others. *)
Lemma block_bytes_put m i b s : ph_data m <> i -> block_bytes m (put_shm i b s) = block_bytes m s.
Proof. intros Hi. unfold block_bytes, put_shm. cbn [tx_shm]. by rewrite list_lookup_insert_ne. Qed.

Lemma shm_write_ok b data len :
  0 <= widx b <= zlen (mem b) -> 0 <= len <= zlen data -> len < 2 ^ 32 ->
  let copy := Z.min len (zlen (mem b) - widx b) in
  exists m', shm_write b data len = Ret (copy, Shm m' (widx b + copy)) /\ zlen m' = zlen (mem b) /\
    ztake (widx b + copy) m' = ztake (widx b) (mem b) ++ ztake copy data.
Proof.
  intros Hw Hl H32 copy. unfold shm_write. rewrite u32_id by lia.
  assert ((if decide (len < zlen (mem b) - widx b) then len else zlen (mem b) - widx b) = copy) as ->
    by (unfold copy; destruct (decide _); lia).
  rewrite mem_read_ok, zdrop_0 by lia. cbn [mbind outcome_bind]. unfold mem_write.
  assert (zlen (ztake copy data) = copy) as Hc by (rewrite zlen_ztake; lia).
  rewrite Hc, decide_True by lia. cbn [mbind outcome_bind]. eexists. split; [done|].
  assert (zlen (ztake (widx b) (mem b)) = widx b) as Ht by (rewrite zlen_ztake; lia). split.
  - rewrite !zlen_app, Hc, Ht, zlen_zdrop by lia. lia.
  - rewrite app_assoc. apply ztake_app_exact. rewrite zlen_app. lia.
Qed.

(** Bytes that are on their way are in other blocks than the one being filled. *)
Lemma moving_blocks w m :
  link_ok w -> (rx (rxc w) = RxCopy m \/ (mail_full w = true /\ mailbox w = Some m)) -> ph_data m <> cur_shm (txc w).
Proof.
  intros Hok [E|[Hf E]].
  - pose proof (lk_rx w Hok) as H. rewrite E in H. destruct H as [-> _]. apply back_other. destruct (mail_full w); auto.
  - destruct (lk_mail w Hok Hf) as (m' & E' & Hd & _). rewrite E' in E. injection E as ->. rewrite Hd. apply back_other. auto.
Qed.

(** Changing only the block being filled. *)
Lemma transit_kept w s' b :
  link_ok w -> tx_shm s' = <[cur_shm (txc w) := b]> (tx_shm (txc w)) ->
  let w' := World s' (mailbox w) (rxc w) in in_rx w' = in_rx w /\ in_mail w' = in_mail w.
Proof.
  intros Hok E w'. assert (forall m, ph_data m <> cur_shm (txc w) -> block_bytes m s' = block_bytes m (txc w)) as Hb.
  { intros m Hm. unfold block_bytes. by rewrite E, list_lookup_insert_ne. }
  unfold in_rx, in_mail. change (mail_full w') with (mail_full w). cbn [w' txc rxc mailbox]. split.
  - destruct (rx (rxc w)) eqn:Er; try done. rewrite Hb; [done|]. apply moving_blocks; auto.
  - destruct (mail_full w) eqn:Em; [|done]. destruct (mailbox w) eqn:Eb; [|done]. rewrite Hb; [done|].
    apply moving_blocks; auto.
Qed.

(** A turn that keeps the link, what is on its way, and the services. *)
Definition quiet (w w' : world) : Prop :=
  services (rxc w') = services (rxc w) /\ link_ok w' /\ flight w' = flight w.

(** ** The sender's turns *)

Lemma forall_insert i b l : Forall (fun b => zlen (mem b) = blk) l -> zlen (mem b) = blk ->
  Forall (fun b => zlen (mem b) = blk) (<[i := b]> l).
Proof. intros. by apply Forall_insert. Qed.

(** What fills a block that holds [h] already. *)
Lemma split_block (h d : list Z) c :
  c = Z.min (zlen d) (blk - zlen h) -> zlen h <= blk ->
  ztake blk (h ++ d) = h ++ ztake c d /\ zdrop blk (h ++ d) = zdrop c d.
Proof.
  intros -> Hh. unfold ztake, zdrop. rewrite take_app_ge, drop_app_ge by (unfold zlen in Hh; lia).
  destruct (Z.min_spec (zlen d) (blk - zlen h)) as [[Hlt ->]|[Hle ->]]; unfold zlen in *.
  - rewrite !(take_ge d), !(drop_ge d) by lia. done.
  - replace (Z.to_nat (blk - Z.of_nat (length h))) with (Z.to_nat blk - length h)%nat by lia. done.
Qed.

(** A turn of the sender that changes at most the block being filled. *)
Lemma sender_ok w s' b :
  link_ok w -> tx_shm s' = <[cur_shm (txc w) := b]> (tx_shm (txc w)) -> zlen (mem b) = blk ->
  tx_seq s' = tx_seq (txc w) -> ack_irq s' = ack_irq (txc w) ->
  (one (evt_write s') + one (at_put s') = one (evt_write (txc w)) + one (at_put (txc w)))%nat ->
  match job s' with Some j => job_ok s' j | None => True end -> Forall message_ok (todo s') ->
  unsent s' = unsent (txc w) ->
  let w' := World s' (mailbox w) (rxc w) in link_ok w' /\ flight w' = flight w.
Proof.
  intros Hok E Hb Eseq Eack Etok Hj Ht Eu w'. pose proof Hok as [Hlen Hshm Hseq Htok Hmail Hrx Hque _ _].
  assert (forall n, back n s' = back n (txc w)) as Eb by (intros n; unfold back; by rewrite Eseq).
  split; [split; cbn [w' txc rxc mailbox]; try done|].
  - by rewrite E, length_insert.
  - rewrite E. by apply forall_insert.
  - lia.
  - unfold tokens in *. cbn [w' txc rxc]. rewrite Eack. lia.
  - change (mail_full w') with (mail_full w). by rewrite Eb.
  - change (mail_full w') with (mail_full w). destruct (rx (rxc w)); by rewrite ?Eb.
  - unfold flight. destruct (transit_kept w s' b Hok E) as [Er Em]. unfold w'. rewrite Er, Em. cbn [txc]. by rewrite Eu.
Qed.

Lemma insert_same {A} (l : list A) i x : l !! i = Some x -> l = <[i := x]> l.
Proof. intros. by rewrite list_insert_id. Qed.

Lemma begin_ok w m l :
  link_ok w -> job (txc w) = None -> todo (txc w) = m :: l ->
  exists w', run_tx w = Ret (Some w') /\ quiet w w'.
Proof.
  intros Hok Hj Ht. pose proof Hok as [Hlen Hshm Hseq Htok _ _ _ _ Htodo].
  rewrite Ht in Htodo. inversion_clear Htodo as [|? ? (Hd & Hr & Hq) Hl].
  unfold run_tx. rewrite Hj, Ht. unfold send_begin. set (s0 := Sender _ _ _ _ _ _).
  change (cur_shm s0) with (cur_shm (txc w)). pose proof (cur_lt (txc w) ltac:(lia)) as Hcur.
  destruct (shm_at (txc w) (cur_shm (txc w)) Hlen Hshm Hcur) as (b & Hb & Hbl & _).
  unfold get_shm. cbn [s0 tx_shm]. rewrite Hb. cbn [mbind outcome_bind]. pose proof Hblk as Hblk'. unfold DISPATCH_SIZE in Hblk'.
  destruct (shm_write_ok (shm_reset b) (header m) DISPATCH_SIZE) as (m' & Ew & Hm' & Htk);
    [cbn [shm_reset widx mem]; lia|rewrite header_len; unfold DISPATCH_SIZE; lia|unfold DISPATCH_SIZE; lia|].
  change (dispatch_bytes _ _ _) with (header m). rewrite Ew. cbn [mbind outcome_bind shm_reset widx mem] in *.
  rewrite Z.sub_0_r, Z.min_l, Z.add_0_l in * by (unfold DISPATCH_SIZE; lia).
  change (ztake 0 (mem b)) with (@nil Z) in Htk. rewrite (ztake_all _ (header m)) in Htk by done. cbn [app] in Htk.
  eexists. split; [done|]. split; [done|].
  eapply (sender_ok w _ (Shm m' DISPATCH_SIZE) Hok); try done; cbn [mem job with_job todo put_shm]; try lia.
  - unfold at_put. by rewrite Hj.
  - unfold job_ok. cbn [s_shm s_total s_data s_pc put_shm with_job tx_shm]. split_and!; [done|done|lia|].
    exists (Shm m' DISPATCH_SIZE). split; [apply list_lookup_insert_eq; cbn; lia|]. cbn [widx]. unfold DISPATCH_SIZE. lia.
  - unfold unsent, job_chunks. cbn [job with_job put_shm tx_shm s_shm s_pc s_phy s_data todo ph_flag ph_service_id ph_command].
    rewrite Hj, Ht, list_lookup_insert_eq by (cbn; lia). cbn [widx mem]. by rewrite Htk.
Qed.

(** At the head of the loop with data or a header in the block: fill it. *)
Lemma fill_ok w j :
  link_ok w -> job (txc w) = Some j -> s_pc j = TxLoop ->
  exists w', run_tx w = Ret (Some w') /\ quiet w w'.
Proof.
  intros Hok Hj Hpc. pose proof Hok as [Hlen Hshm Hseq Htok _ _ _ Hjob Htodo].
  rewrite Hj in Hjob. destruct Hjob as (Ei & Et & Hd & b & Hb & Hw). rewrite Hpc in Hw.
  unfold run_tx. rewrite Hj, Hpc. unfold send_fill, get_shm. rewrite Hb. cbn [mbind outcome_bind].
  pose proof (Forall_lookup_1 _ _ _ _ Hshm Hb) as Hbl. cbn in Hbl. pose proof (lookup_lt_Some _ _ _ Hb) as Hi.
  pose proof Hblk as Hblk'. unfold DISPATCH_SIZE in Hblk', Hw. pose proof (zlen_nonneg (s_data j)).
  unfold shm_available_read_space. set (l := ztake (widx b) (mem b) ++ s_data j).
  assert (zlen (ztake (widx b) (mem b)) = widx b) as Htw by (rewrite zlen_ztake; lia).
  assert (unsent (txc w) = (Chunk (ph_flag (s_phy j)) (ph_service_id (s_phy j)) (ph_command (s_phy j)) <$> pieces blk l)
            ++ (todo (txc w) ≫= msg_chunks blk)) as Eu by (unfold unsent, job_chunks; by rewrite Hj, Hb, Hpc).
  destruct (decide _) as [Hgo|Hstop].
  - destruct (shm_write_ok b (s_data j) (s_total j)) as (m' & Ew & Hm' & Htk); [lia|lia|lia|].
    set (copy := Z.min _ _) in *. rewrite Ew. cbn [mbind outcome_bind widx mem].
    assert (0 <= copy <= zlen (s_data j)) as Hcopy by (unfold copy; lia).
    eexists. split; [done|]. split; [done|].
    rewrite Ei in *. eapply (sender_ok w _ (Shm m' (widx b + copy)) Hok); try done; cbn [mem job with_job todo put_shm]; try lia.
    + unfold at_put. by rewrite Hj, Hpc.
    + unfold job_ok. cbn [s_shm s_total s_data s_pc s_phy put_shm with_job tx_shm ph_data ph_len]. split_and!; [done|done|lia|].
      exists (Shm m' (widx b + copy)). split; [by apply list_lookup_insert_eq|]. cbn [widx]. split_and!; try done; unfold copy; lia.
    + rewrite Eu. unfold unsent, job_chunks. cbn [job with_job put_shm tx_shm s_shm s_pc s_phy s_data todo ph_flag ph_service_id ph_command].
      rewrite list_lookup_insert_eq by done. cbn [widx mem]. rewrite (pieces_cons blk Hblk l).
      2: { intros E. apply (f_equal zlen) in E. unfold l in E. rewrite zlen_app, zlen_nil in E. lia. }
      assert (ztake blk l = ztake (widx b + copy) m' /\ zdrop blk l = zdrop copy (s_data j)) as [-> ->]; [|done].
      rewrite Htk. unfold l. apply split_block; [unfold copy; by rewrite Htw, Et, Hbl|lia].
  - assert (s_data j = []) as Ed by (apply zlen_nil_inv; lia). assert (widx b = 0) as Ew by lia.
    eexists. split; [done|]. split; [done|].
    eapply (sender_ok w _ b Hok); try done; cbn [mem job with_job todo put_shm]; try lia.
    + rewrite Ei in Hb. by apply insert_same.
    + unfold at_put. by rewrite Hj, Hpc.
    + rewrite Eu. unfold l. rewrite Ed, Ew. done.
Qed.

(** With the write event: take it. *)
Lemma wait_ok w j ret s' :
  link_ok w -> job (txc w) = Some j -> s_pc j = TxWait ret -> send_wait j ret (txc w) = Some s' ->
  quiet w (World s' (mailbox w) (rxc w)).
Proof.
  intros Hok Hj Hpc E. pose proof Hok as [Hlen Hshm Hseq Htok _ _ _ Hjob Htodo].
  unfold send_wait in E. destruct (evt_write (txc w)) eqn:Ew; [|done]. injection E as <-.
  rewrite Hj in Hjob. destruct Hjob as (Ei & Et & Hd & b & Hb & Hw). rewrite Hpc in Hw.
  split; [done|]. eapply (sender_ok w _ b Hok); try done; cbn [tx_shm job todo evt_write ack_irq].
  - rewrite Ei in Hb. by apply insert_same.
  - apply (Forall_lookup_1 _ _ _ _ Hshm Hb).
  - unfold at_put. by rewrite Hj, Hpc, Ew.
  - unfold job_ok. cbn [s_shm s_total s_data s_pc s_phy tx_shm]. split_and!; [done|done|lia|]. by exists b.
  - unfold unsent, job_chunks. cbn [job tx_shm s_shm s_pc s_phy s_data todo]. by rewrite Hj, Hb, Hpc.
Qed.

(** Resetting a block keeps its bytes. *)
Lemma block_bytes_reset m i b s s' :
  tx_shm s !! i = Some b -> tx_shm s' = <[i := shm_reset b]> (tx_shm s) -> block_bytes m s' = block_bytes m s.
Proof.
  intros Hb E. unfold block_bytes. rewrite E. destruct (decide (ph_data m = i)) as [->|Hi].
  - by rewrite list_lookup_insert_eq, Hb by (by eapply lookup_lt_Some).
  - by rewrite list_lookup_insert_ne.
Qed.

(** Behind the wait the mailbox is empty: put the message there and go on with the
    next block. *)
Lemma mail_put_ok w j ret :
  link_ok w -> job (txc w) = Some j -> s_pc j = TxPut ret ->
  exists w', run_tx w = Ret (Some w') /\ quiet w w'.
Proof.
  intros Hok Hj Hpc. pose proof Hok as [Hlen Hshm Hseq Htok Hmail Hrx Hque Hjob Htodo].
  rewrite Hj in Hjob. destruct Hjob as (Ei & Et & Hd & b & Hb & Hw). rewrite Hpc in Hw.
  destruct Hw as (Hdata & Hplen & Hwidx & Hret). pose proof Hblk as Hblk'. unfold DISPATCH_SIZE in Hblk'.
  assert (mail_full w = false) as Hmf.
  { unfold tokens, at_put, mail_full in *. rewrite Hj, Hpc in Htok.
    destruct (data_irq (rxc w)), (evt_read (rxc w)), (at_get (rxc w)); cbn [one] in Htok; first [done|lia]. }
  unfold run_tx. rewrite Hj, Hpc. unfold send_put. set (s1 := Sender _ _ _ _ _ _).
  pose proof (Z.mod_pos_bound (tx_seq (txc w) + 1) (2 ^ 32) ltac:(lia)) as Hseq'. fold (u32 (tx_seq (txc w) + 1)) in Hseq'.
  pose proof (cur_lt s1 ltac:(cbn; lia)) as Hcur.
  destruct (shm_at s1 (cur_shm s1) Hlen Hshm Hcur) as (c & Hc & Hcl & Hget). rewrite Hget. cbn [mbind outcome_bind].
  set (w' := World _ _ _). exists w'. split; [done|].
  assert (forall n, back (n + 1) (txc w') = back n (txc w)) as Hback by (intros n; by apply back_next).
  assert (forall m, block_bytes m (txc w') = block_bytes m (txc w)) as Hbytes
    by (intros m; by apply (block_bytes_reset m (cur_shm s1) c)).
  assert (mail_full w' = true) as Hmf' by done. assert (0 <= ret < 2 ^ 31) by lia.
  assert (zlen (zdrop ret (s_data j)) = zlen (s_data j) - ret) as Hzd by (apply zlen_zdrop; lia).
  split; [done|]. split.
  - split; cbn [w' txc rxc tx_shm tx_seq put_shm with_job todo job mailbox services]; try done.
    + by rewrite length_insert.
    + by apply forall_insert.
    + revert Htok. unfold tokens, at_put, mail_full in *. rewrite Hj, Hpc. cbn.
      destruct (evt_write (txc w)), (data_irq (rxc w)), (evt_read (rxc w)), (ack_irq (txc w)); cbn; try lia.
      all: fold (at_get (rxc w)); try done; unfold at_get; destruct (rx (rxc w)); cbn; lia.
    + intros _. eexists. split; [done|]. cbn [ph_data]. split; [|by unfold fits; cbn [ph_len]; lia].
      by rewrite Hdata, Ei, <- back_0, <- (Hback 0).
    + rewrite Hmf'. rewrite Hmf in Hrx. cbn [rx]. destruct (rx (rxc w)); try done.
      by rewrite <- (Hback 1) in Hrx.
    + unfold job_ok. cbn [s_shm s_total s_data s_pc put_shm with_job tx_shm]. split_and!; [done| |lia|].
      * rewrite Hzd, Et. apply i32_id. lia.
      * exists (shm_reset c). split; [apply list_lookup_insert_eq; cbn; lia|]. cbn [shm_reset widx]. unfold DISPATCH_SIZE. lia.
  - unfold flight, in_mail. rewrite Hmf, Hmf'. unfold in_rx. cbn [w' rxc rx mailbox]. fold w'. cbn [app].
    assert (unsent (txc w) = [chunk_of (s_phy j) (ztake (widx b) (mem b))] ++ unsent (txc w')) as ->.
    { unfold unsent, job_chunks. cbn [w' txc job with_job put_shm tx_shm s_shm s_pc s_phy s_data todo].
      rewrite Hj, Hb, Hpc, list_lookup_insert_eq by (cbn; lia). done. }
    f_equal; [by destruct (rx (rxc w)); rewrite ?Hbytes|]. rewrite Hbytes. cbn [app]. f_equal.
    unfold chunk_of, block_bytes. cbn. by rewrite Hdata, Hb, Hplen.
Qed.

(** ** Interrupts and the receiver's turns *)

(** Turns that leave the blocks, the mailbox and the services. *)
Lemma other_ok w w' :
  link_ok w -> tx_seq (txc w') = tx_seq (txc w) -> tx_shm (txc w') = tx_shm (txc w) -> job (txc w') = job (txc w) ->
  todo (txc w') = todo (txc w) -> mailbox w' = mailbox w -> services (rxc w') = services (rxc w) -> tokens w' = 1%nat ->
  (mail_full w' = true -> mail_full w = true) ->
  match rx (rxc w') with
  | RxCopy m => ph_data m = back (if mail_full w' then 2 else 1) (txc w) /\ fits m
  | RxQueue p => good_parcel p
  | _ => True
  end ->
  in_rx w' ++ in_mail w' = in_rx w ++ in_mail w -> quiet w w'.
Proof.
  intros Hok Es Eh Ej Et Em Ev Htok Hmf Hrx Eflight. pose proof Hok as [Hlen Hshm Hseq _ Hmail _ Hque Hjob Htodo].
  assert (forall n, back n (txc w') = back n (txc w)) as Eb by (intros n; unfold back; by rewrite Es).
  assert (unsent (txc w') = unsent (txc w)) as Eu by (unfold unsent, job_chunks; by rewrite Ej, Et, Eh).
  split; [done|]. split.
  - split; rewrite ?Es, ?Eh, ?Ev, ?Em, ?Et, ?Ej; try done.
    + intros H. destruct (Hmail (Hmf H)) as (m & ? & ? & ?). exists m. by rewrite Eb.
    + destruct (rx (rxc w')); by rewrite ?Eb.
    + destruct (job (txc w)) as [j|]; [|done]. unfold job_ok in *. unfold cur_shm in *. by rewrite Es, Eh.
  - unfold flight. by rewrite !app_assoc, Eflight, Eu.
Qed.

Lemma ack_ok w w' : link_ok w -> run_ack_isr w = Some w' -> quiet w w'.
Proof.
  intros Hok E. unfold run_ack_isr in E. destruct (ack_irq (txc w)) eqn:Ea; [|done]. injection E as <-.
  apply other_ok; try done; try apply (lk_rx w Hok). pose proof (lk_tokens w Hok) as Htok.
  unfold tokens, at_put in *. cbn. rewrite Ea in Htok. destruct (evt_write (txc w)); cbn in Htok |- *; lia.
Qed.

Lemma data_ok w w' : link_ok w -> run_data_isr w = Some w' -> quiet w w'.
Proof.
  intros Hok E. unfold run_data_isr in E. destruct (data_irq (rxc w)) eqn:Ed; [|done]. injection E as <-.
  assert (mail_full w = true) as Hm by (unfold mail_full; by rewrite Ed).
  apply other_ok; try done.
  - pose proof (lk_tokens w Hok) as Htok. unfold tokens, at_get in *. cbn. rewrite Ed in Htok.
    destruct (evt_read (rxc w)); cbn in Htok |- *; lia.
  - pose proof (lk_rx w Hok) as Hrx. by rewrite Hm in Hrx.
  - unfold in_mail. by rewrite Hm.
Qed.

Lemma recv_wait_ok w r' :
  link_ok w -> rx (rxc w) = RxWait -> recv_wait (rxc w) = Some r' -> quiet w (World (txc w) (mailbox w) r').
Proof.
  intros Hok Hrx E. unfold recv_wait in E. destruct (evt_read (rxc w)) eqn:Ee; [|done]. injection E as <-.
  assert (mail_full w = true) as Hm by (unfold mail_full; rewrite Ee; by destruct (data_irq (rxc w))).
  apply other_ok; try done.
  - pose proof (lk_tokens w Hok) as Htok. unfold tokens, at_get in *. cbn. rewrite Ee, Hrx in Htok. cbn in Htok. lia.
  - unfold in_mail, in_rx. rewrite Hm, Hrx. cbn. unfold mail_full. cbn. by rewrite orb_true_r.
Qed.

Lemma recv_get_ok w :
  link_ok w -> rx (rxc w) = RxGet -> exists w', recv_get w = Ret w' /\ quiet w w'.
Proof.
  intros Hok Hrx. assert (mail_full w = true) as Hm by (unfold mail_full, at_get; rewrite Hrx; by rewrite orb_true_r).
  destruct (lk_mail w Hok Hm) as (m & Em & Hd & Hf). pose proof (lk_tokens w Hok) as Htok.
  unfold tokens, at_get in Htok. rewrite Hrx in Htok. unfold recv_get. rewrite Em. eexists. split; [done|].
  destruct (evt_write (txc w)) eqn:E1, (at_put (txc w)) eqn:E2, (data_irq (rxc w)) eqn:E3, (evt_read (rxc w)) eqn:E4,
    (ack_irq (txc w)) eqn:E5; cbn in Htok; try lia.
  apply other_ok; try done.
  - unfold tokens, at_get, at_put in *. cbn. by rewrite E2.
  - unfold in_rx, in_mail. rewrite Hrx, Hm, Em. done.
Qed.

Lemma recv_copy_ok w m :
  link_ok w -> rx (rxc w) = RxCopy m ->
  exists p, recv_copy m (txc w) = Ret p /\ quiet w (World (txc w) (mailbox w) (with_rx (RxQueue p) (rxc w))).
Proof.
  intros Hok Hrx. pose proof (lk_rx w Hok) as H. rewrite Hrx in H. destruct H as [Hd Hf]. unfold fits in Hf.
  assert (ph_data m < 4)%nat as Hlt by (rewrite Hd; apply back_lt).
  destruct (shm_at (txc w) (ph_data m) (lk_len w Hok) (lk_shm w Hok) Hlt) as (b & Hb & Hbl & Hget).
  unfold recv_copy. rewrite Hget. cbn [mbind outcome_bind]. rewrite mem_read_ok, zdrop_0 by lia. cbn [mbind outcome_bind].
  eexists. split; [done|]. apply other_ok; try done.
  - pose proof (lk_tokens w Hok) as Htok. unfold tokens, at_get in *. by rewrite Hrx in Htok.
  - unfold mail_full, at_get. by rewrite Hrx.
  - cbn [rxc with_rx rx]. unfold good_parcel. cbn. rewrite zlen_ztake; lia.
  - unfold in_rx, in_mail, mail_full, at_get, block_bytes, parcel_chunk. cbn [rxc with_rx rx p_phy p_buf]. by rewrite Hrx, Hb.
Qed.

End Link.
