(* ===== verification/IpcDeliver.v ===== *)
(** * Messages between the cores: delivery

    The services take the chunks out of the link in order.  The [rx_mutex] is held while
    a service waits for the rest of a message; since a message is sent as a whole, the
    next chunk on its way is then one of that message. *)

From S2P Require Import Prelude Ipc IpcProofs IpcLink.

(** ** Services *)

(** What a service has put together, as the state of [absorb]. *)
Definition partial (s : service) : option receiving := match srv s with SrvMore r => Some r | _ => None end.

Definition mine (i : Z) (cs : list chunk) : list chunk := filter (fun c => c_sid c = i) cs.

(** The service has taken, or has in its queue, its share of [gone]. *)
Definition served (gone : list chunk) (s : service) : Prop :=
  exists done, absorb_all (None, []) done = Ret (partial s, inbox s) /\
    mine (id s) gone = done ++ (parcel_chunk <$> pending s).

Lemma mine_app i a b : mine i (a ++ b) = mine i a ++ mine i b.
Proof. apply list.filter_app. Qed.

(** A parcel is taken as its chunk. *)
Lemma recv_append_len src n r r' : recv_append src n r = Ret r' -> n <= r_left r.
Proof. unfold recv_append. intros (d & _ & E)%bind_Ret. by destruct (decide _). Qed.

Lemma recv_first_chunk p : good_parcel p -> recv_first p = recv_first (parcel_of (parcel_chunk p)).
Proof.
  intros Hp. destruct p as [m b]. unfold good_parcel in Hp. cbn in Hp. unfold recv_first, recv_step, recv_done. cbn. by rewrite Hp.
Qed.

Lemma recv_more_chunk p r : good_parcel p -> recv_more p r = recv_more (parcel_of (parcel_chunk p)) r.
Proof.
  intros Hp. destruct p as [m b]. unfold good_parcel in Hp. cbn in Hp. unfold recv_more, recv_step, recv_done. cbn. by rewrite Hp.
Qed.

(** What comes later does not change what has been taken. *)
Lemma absorb_prefix t a b t' : absorb_all t (a ++ b) = Ret t' -> exists t1, absorb_all t a = Ret t1 /\ absorb_all t1 b = Ret t'.
Proof. rewrite absorb_app. intros H%bind_Ret. exact H. Qed.

Section Deliver.
Context (blk : Z) (Hblk : DISPATCH_SIZE < blk) (capacity : nat).
Context (msgs : list message) (Hmsgs : Forall message_ok msgs).

Abbreviation sent := (msgs ≫= msg_chunks blk).

(** ** The chunks of one service *)

Lemma chunk_sids m : Forall (fun c => c_sid c = service_id m) (msg_chunks blk m).
Proof. unfold msg_chunks. apply Forall_fmap, list.Forall_true. done. Qed.

Lemma mine_all i l : Forall (fun c => c_sid c = i) l -> mine i l = l.
Proof.
  induction 1 as [|c l Hc _ IH]; [done|]. unfold mine in *. rewrite filter_cons_True by done. by rewrite IH.
Qed.

Lemma mine_none i k l : Forall (fun c => c_sid c = k) l -> k <> i -> mine i l = [].
Proof.
  intros H Hk. induction H as [|c l Hc _ IH]; [done|]. unfold mine in *. rewrite filter_cons_False by congruence. done.
Qed.

Definition to_service (i : Z) (ms : list message) : list message := filter (fun m => service_id m = i) ms.

Lemma mine_sent i ms : mine i (ms ≫= msg_chunks blk) = to_service i ms ≫= msg_chunks blk.
Proof.
  unfold to_service. induction ms as [|m ms IH]; [done|]. rewrite bind_cons, mine_app, IH.
  destruct (decide (service_id m = i)) as [E|E].
  - rewrite filter_cons_True, bind_cons by done. f_equal. apply mine_all. rewrite <- E. apply chunk_sids.
  - rewrite filter_cons_False by done. by rewrite (mine_none i (service_id m)) by (done || apply chunk_sids).
Qed.

Lemma absorb_sent i : absorb_all (None, []) (mine i sent) = Ret (None, arrived <$> to_service i msgs).
Proof. rewrite mine_sent, absorb_msgs; [done|done|].
  apply list.Forall_forall. intros m [_ Hm]%list_elem_of_filter. by apply (proj1 (list.Forall_forall _ _) Hmsgs).
Qed.

(** A service in the middle of a message: the next chunk is for it. *)
Lemma next_is_mine i r out ms : forall o gone fl,
  Forall message_ok ms -> ms ≫= msg_chunks blk = gone ++ fl -> absorb_all (None, o) (mine i gone) = Ret (Some r, out) ->
  exists c fl', fl = c :: fl' /\ c_sid c = i.
Proof.
  induction ms as [|m ms IH]; intros o gone fl Hok E Ha.
  - symmetry in E. apply app_nil in E as [-> ->]. done.
  - inversion_clear Hok as [|? ? Hm Hms]. rewrite bind_cons in E.
    assert (forall o, exists o', absorb_all (None, o) (mine i (msg_chunks blk m)) = Ret (None, o')) as Hwhole.
    { intros o1. destruct (decide (service_id m = i)) as [<-|Hi].
      - rewrite mine_all by apply chunk_sids. rewrite absorb_msg by done. by eexists.
      - rewrite (mine_none i (service_id m)) by (done || apply chunk_sids). by eexists. }
    apply app_eq_app in E as (l & [[El ->]|[-> E]]).
    + destruct l as [|c l].
      { destruct (Hwhole o) as (o' & Ew). rewrite El, app_nil_r in Ew. congruence. }
      exists c, (l ++ (ms ≫= msg_chunks blk)). split; [done|].
      pose proof (chunk_sids m) as Hs. rewrite El in Hs. apply Forall_app in Hs as [Hg Hs]. inversion_clear Hs as [|? ? Hc _].
      rewrite Hc. destruct (decide (service_id m = i)) as [->|Hi]; [done|]. by rewrite (mine_none i (service_id m)) in Ha.
    + rewrite mine_app, absorb_app in Ha. destruct (Hwhole o) as (o' & Ew). rewrite Ew in Ha. by apply (IH o' l fl).
Qed.

(** ** The invariant *)

Record ipc_inv (w : world) : Prop := IpcInv {
  iv_link : link_ok blk w;
  iv_ids : NoDup (id <$> services (rxc w));
  iv_served : exists gone, sent = gone ++ flight blk w /\ Forall (served gone) (services (rxc w))
}.

Lemma quiet_inv w w' : quiet blk w w' -> ipc_inv w -> ipc_inv w'.
Proof.
  intros (Es & Hl & Ef) [_ Hids (gone & E & Hs)]. split; [done|by rewrite Es|].
  exists gone. by rewrite Es, Ef.
Qed.

(** [find_service] among different numbers. *)
Lemma find_service_at sid l : forall k, match find_service k sid l with
  | Some i => exists n s, i = (k + n)%nat /\ l !! n = Some s /\ id s = sid
  | None => Forall (fun s => id s <> sid) l
  end.
Proof.
  induction l as [|s l IH]; intros k; cbn [find_service]; [constructor|].
  destruct (decide (id s = sid)) as [E|E].
  - exists 0%nat, s. split; [lia|done].
  - specialize (IH (S k)). destruct (find_service (S k) sid l) as [i|].
    + destruct IH as (n & s' & -> & ? & ?). exists (S n), s'. split; [lia|done].
    + by constructor.
Qed.

Lemma same_id (l : list service) i j s t :
  NoDup (id <$> l) -> l !! i = Some s -> l !! j = Some t -> id s = id t -> i = j.
Proof.
  intros Hn Hs Ht E. eapply (NoDup_lookup _ _ _ (id s) Hn); rewrite list_lookup_fmap; [by rewrite Hs|by rewrite Ht, E].
Qed.

(** A service is replaced by one of the same number. *)
Lemma ids_kept (l : list service) i s s' : l !! i = Some s -> id s' = id s -> id <$> <[i := s']> l = id <$> l.
Proof.
  intros Hs E. rewrite list_fmap_insert, E. apply list_insert_id. by rewrite list_lookup_fmap, Hs.
Qed.

(** Turns of the receiving core that leave the signals. *)
Lemma link_recv w r' :
  link_ok blk w -> evt_read r' = evt_read (rxc w) -> data_irq r' = data_irq (rxc w) -> at_get r' = at_get (rxc w) ->
  rx r' = rx (rxc w) \/ rx r' = RxWait -> Forall (fun s => Forall good_parcel (pending s)) (services r') ->
  link_ok blk (World (txc w) (mailbox w) r').
Proof.
  intros Hok E1 E2 E3 Erx Hq. pose proof Hok as [Hlen Hshm Hseq Htok Hmail Hrx _ Hjob Htodo].
  assert (mail_full (World (txc w) (mailbox w) r') = mail_full w) as Em by (unfold mail_full; cbn [rxc]; by rewrite E1, E2, E3).
  split; cbn [txc rxc mailbox]; rewrite ?Em; try done.
  - unfold tokens in *. cbn [txc rxc]. by rewrite E1, E2, E3.
  - by destruct Erx as [-> | ->].
Qed.

Lemma served_other gone c s : id s <> c_sid c -> served gone s -> served (gone ++ [c]) s.
Proof.
  intros Hi (d & Ha & E). exists d. split; [done|]. rewrite mine_app, E. unfold mine.
  rewrite filter_cons_False by done. by rewrite filter_nil, app_nil_r.
Qed.

Lemma queue_inv w p r' :
  ipc_inv w -> rx (rxc w) = RxQueue p -> recv_queue capacity p (rxc w) = Some r' ->
  ipc_inv (World (txc w) (mailbox w) r').
Proof.
  intros [Hl Hids (gone & E & Hs)] Hrx Hq. pose proof (lk_rx blk w Hl) as Hp. rewrite Hrx in Hp.
  pose proof (lk_que blk w Hl) as Hgood.
  assert (at_get (rxc w) = false) as Hag by (unfold at_get; by rewrite Hrx).
  assert (forall r, rx r = RxWait -> evt_read r = evt_read (rxc w) -> data_irq r = data_irq (rxc w) ->
    sent = (gone ++ [parcel_chunk p]) ++ flight blk (World (txc w) (mailbox w) r)) as Hf.
  { intros r Er E1 E2. rewrite E, <- app_assoc. f_equal. unfold flight, in_rx, in_mail, mail_full, at_get. cbn [txc rxc mailbox]. by rewrite Er, E1, E2, Hrx. }
  unfold recv_queue in Hq. set (sid := ph_service_id (p_phy p)) in *.
  pose proof (find_service_at sid (services (rxc w)) 0) as Hfind. destruct (find_service 0 sid (services (rxc w))) as [i|].
  - destruct Hfind as (n & s & -> & Hn & Hid). cbn [Nat.add] in Hq. rewrite Hn in Hq.
    destruct (decide _) as [Hroom|]; [|done]. injection Hq as <-. set (s' := Service _ _ _ _) in *.
    assert (pending s' = pending s ++ [p]) as Ep by (unfold pending; cbn; by destruct (srv s)).
    split; cbn [rxc services].
    + apply link_recv; try done; [by right|]. apply Forall_insert; [done|]. rewrite Ep. apply Forall_app. split; [|by constructor].
      apply (Forall_lookup_1 _ _ _ _ Hgood Hn).
    + by rewrite (ids_kept _ _ s).
    + exists (gone ++ [parcel_chunk p]). split; [by apply Hf|].
      apply Forall_lookup. intros k t Hk. destruct (decide (k = n)) as [->|Hne].
      * rewrite list_lookup_insert_eq in Hk by (by eapply lookup_lt_Some). injection Hk as <-.
        destruct (Forall_lookup_1 _ _ _ _ Hs Hn) as (d & Ha & Em). exists d. split; [done|].
        rewrite mine_app. change (id s') with (id s). rewrite Em, Ep, fmap_app, app_assoc. f_equal. unfold mine.
        by rewrite filter_cons_True by done.
      * rewrite list_lookup_insert_ne in Hk by done. apply served_other; [|apply (Forall_lookup_1 _ _ _ _ Hs Hk)].
        intros Et. apply Hne. eapply (same_id _ _ _ t s Hids Hk Hn). by rewrite Hid.
  - injection Hq as <-. split; cbn [rxc services with_rx].
    + apply link_recv; try done. by right.
    + done.
    + exists (gone ++ [parcel_chunk p]). split; [by apply Hf|].
      apply Forall_lookup. intros k t Hk. apply served_other; [|apply (Forall_lookup_1 _ _ _ _ Hs Hk)].
      apply (Forall_lookup_1 _ _ _ _ Hfind Hk).
Qed.

(** ** A service's turn *)

(** The next chunk of a service is taken without an error. *)
Lemma next_absorbed gone s p ps fl :
  sent = gone ++ fl -> served gone s -> pending s = p :: ps -> exists t, absorb (partial s, inbox s) (parcel_chunk p) = Ret t.
Proof.
  intros E (d & Ha & Em) Ep. pose proof (absorb_sent (id s)) as H. rewrite E, mine_app, Em, Ep, <- app_assoc in H.
  apply absorb_prefix in H as (t1 & H1 & H2). rewrite Ha in H1. injection H1 as <-. rewrite fmap_cons in H2. cbn [app absorb_all] in H2.
  apply bind_Ret in H2 as (t & H2 & _). by exists t.
Qed.

(** Taking a parcel off the queue. *)
Lemma take_parcel gone fl s p q :
  sent = gone ++ fl -> served gone s -> Forall good_parcel (pending s) -> pending s = p :: q ->
  exists g, match partial s with None => recv_first p | Some r => recv_more p r end = Ret g /\
    served gone (recv_go s q g) /\ Forall good_parcel (pending (recv_go s q g)).
Proof.
  intros E Hs Hg Ep. destruct (next_absorbed gone s p q fl E Hs Ep) as (t & Ht).
  rewrite Ep in Hg. inversion_clear Hg as [|? ? Hp Hq]. destruct Hs as (d & Ha & Em).
  assert (match partial s with None => recv_first p | Some r => recv_more p r end =
    match partial s with None => recv_first (parcel_of (parcel_chunk p)) | Some r => recv_more (parcel_of (parcel_chunk p)) r end) as ->
    by (destruct (partial s); [by apply recv_more_chunk|by apply recv_first_chunk]).
  unfold absorb in Ht. cbn [fst snd] in Ht. apply bind_Ret in Ht as (g & Eg & Et). exists g. split; [done|].
  assert (pending (recv_go s q g) = q) as Epg by (by destruct g). rewrite Epg. split; [|done].
  exists (d ++ [parcel_chunk p]). split.
  - rewrite absorb_app, Ha. cbn [mbind outcome_bind absorb_all]. unfold absorb. cbn [fst snd]. rewrite Eg. cbn [mbind outcome_bind].
    by destruct g.
  - assert (id (recv_go s q g) = id s) as -> by (by destruct g). by rewrite Em, Ep, Epg, fmap_cons, <- app_assoc.
Qed.

Lemma service_turn gone fl s locked :
  sent = gone ++ fl -> served gone s -> Forall good_parcel (pending s) ->
  exists o, run_service locked s = Ret o /\
    forall s', o = Some s' -> id s' = id s /\ served gone s' /\ Forall good_parcel (pending s').
Proof.
  intros E Hs Hg. assert (forall q g, id (recv_go s q g) = id s) as Hid by (by intros q []).
  pose proof (fun p q => take_parcel gone fl s p q E Hs Hg) as Htake. unfold partial, pending in Htake.
  unfold run_service. destruct (srv s) as [|p|r] eqn:Esrv; [destruct (que s) as [|p q] eqn:Eq|destruct locked|destruct (que s) as [|p q] eqn:Eq];
    try (by exists None).
  - eexists. split; [done|]. intros ? [= <-]. destruct Hs as (d & Ha & Em). unfold partial, pending in *. rewrite Esrv, Eq in *.
    split_and!; [done|by exists d|done].
  - destruct (Htake p (que s) eq_refl) as (g & -> & Hs' & Hg'). eexists. split; [done|]. intros ? [= <-]. by rewrite Hid.
  - destruct (Htake p q eq_refl) as (g & -> & Hs' & Hg'). eexists. split; [done|]. intros ? [= <-]. by rewrite Hid.
Qed.

Lemma srv_inv w i s :
  ipc_inv w -> services (rxc w) !! i = Some s ->
  exists o, turn capacity (Srv i) w = Ret o /\ forall w', o = Some w' -> ipc_inv w'.
Proof.
  intros [Hl Hids (gone & E & Hs)] Hi. pose proof (lk_que blk w Hl) as Hgood. cbn [turn]. rewrite Hi.
  destruct (service_turn gone (flight blk w) s (rx_mutex (services (rxc w))) E) as (o & -> & Ho);
    [apply (Forall_lookup_1 _ _ _ _ Hs Hi)|apply (Forall_lookup_1 _ _ _ _ Hgood Hi)|].
  cbn [mbind outcome_bind]. eexists. split; [done|]. destruct o as [s'|]; [|done]. intros ? [= <-].
  destruct (Ho s' eq_refl) as (Hid & Hs' & Hg'). split; cbn [rxc services].
  - apply link_recv; try done; [by left|]. by apply Forall_insert.
  - by rewrite (ids_kept _ _ s).
  - exists gone. split; [|by apply Forall_insert]. done.
Qed.

(** ** Every turn *)

Lemma turn_inv w a :
  ipc_inv w -> exists o, turn capacity a w = Ret o /\ forall w', o = Some w' -> ipc_inv w'.
Proof.
  intros Hi. pose proof (iv_link w Hi) as Hl.
  assert (forall w', quiet blk w w' -> forall w0, Some w' = Some w0 -> ipc_inv w0) as Hquiet
    by (intros w' Hq w0 [= <-]; by apply (quiet_inv w)).
  assert ((exists w', turn capacity a w = Ret (Some w') /\ quiet blk w w') ->
    exists o, turn capacity a w = Ret o /\ forall w', o = Some w' -> ipc_inv w') as Hdone
    by (intros (w' & -> & Hq); eexists; split; [done|by apply Hquiet]).
  destruct a as [| | | |i]; cbn [turn] in *.
  - destruct (job (txc w)) as [j|] eqn:Ej.
    + destruct (s_pc j) as [|ret|ret] eqn:Epc.
      * apply Hdone. by apply (fill_ok blk Hblk w j).
      * unfold run_tx. rewrite Ej, Epc. eexists. split; [done|].
        destruct (send_wait j ret (txc w)) as [s'|] eqn:Es; [|done]. apply Hquiet. by apply (wait_ok blk w j ret).
      * apply Hdone. by apply (mail_put_ok blk Hblk w j ret).
    + destruct (todo (txc w)) as [|m l] eqn:Et.
      * unfold run_tx. rewrite Ej, Et. by exists None.
      * apply Hdone. by apply (begin_ok blk Hblk w m l).
  - eexists. split; [done|]. destruct (run_ack_isr w) eqn:E; [|done]. apply Hquiet. by apply ack_ok.
  - eexists. split; [done|]. destruct (run_data_isr w) eqn:E; [|done]. apply Hquiet. by apply data_ok.
  - unfold run_rx in *. destruct (rx (rxc w)) as [| |m|p] eqn:Erx.
    + eexists. split; [done|]. destruct (recv_wait (rxc w)) eqn:E; [|done]. apply Hquiet. by apply recv_wait_ok.
    + destruct (recv_get_ok blk w Hl Erx) as (w' & Eg & Hq). rewrite Eg. eexists. split; [done|]. by apply Hquiet.
    + destruct (recv_copy_ok blk w m Hl Erx) as (p & Eg & Hq). rewrite Eg. eexists. split; [done|]. by apply Hquiet.
    + eexists. split; [done|]. destruct (recv_queue capacity p (rxc w)) eqn:E; [|done]. intros ? [= <-]. by apply (queue_inv w p).
  - destruct (services (rxc w) !! i) eqn:Es; [|by exists None]. destruct (srv_inv w i s Hi Es) as (o & E & Ho).
    cbn [turn] in E. rewrite Es in E. by exists o.
Qed.

Lemma steps_inv n w0 w : steps capacity n w0 w -> ipc_inv w0 -> ipc_inv w.
Proof.
  induction 1 as [|n a w1 w2 w3 _ IH E]; [done|]. intros H. destruct (turn_inv w2 a (IH H)) as (o & E' & Ho).
  rewrite E' in E. injection E as ->. by apply Ho.
Qed.

End Deliver.
