(* ===== verification/IpcTheorems.v ===== *)
(** * Messages between the cores: theorems

    Delivery under every order of turns, an end to every run, no deadlock, and what
    registering a service on a used link does. *)

From S2P Require Import Prelude Ipc IpcProofs IpcLink IpcDeliver.

(** ** Work left *)

Definition srv_work (s : service) : nat :=
  2 * length (que s) + match srv s with SrvLock _ => 1 | _ => 0 end.
Definition rx_work (r : receiver) : nat :=
  (if data_irq r then 8 else 0) + (if evt_read r then 7 else 0) +
  match rx r with RxWait => 0 | RxGet => 6 | RxCopy _ => 4 | RxQueue _ => 3 end +
  sum_list_with srv_work (services r).
Definition tx_work (blk : Z) (s : sender) : nat :=
  11 * length (unsent blk s) + 3 * length (todo s) + one (ack_irq s) +
  match job s with
  | None => 0
  | Some j => match s_pc j with TxLoop => 2 | TxWait _ => 1 | TxPut _ => 0 end
  end.
Definition work (blk : Z) (w : world) : nat := tx_work blk (txc w) + rx_work (rxc w).

Section Progress.
Context (blk : Z) (Hblk : DISPATCH_SIZE < blk).

Lemma in_mail_len w : link_ok blk w -> length (in_mail w) = one (mail_full w).
Proof.
  intros Hl. unfold in_mail. destruct (mail_full w) eqn:E; [|done]. by destruct (lk_mail blk w Hl E) as (m & -> & _).
Qed.

Lemma in_rx_len w : length (in_rx w) = match rx (rxc w) with RxCopy _ | RxQueue _ => 1%nat | _ => 0%nat end.
Proof. unfold in_rx. by destruct (rx (rxc w)). Qed.

(** What is unsent, from what is on its way. *)
Lemma unsent_len w w' :
  link_ok blk w -> quiet blk w w' ->
  (length (unsent blk (txc w')) + length (in_rx w') + one (mail_full w') =
   length (unsent blk (txc w)) + length (in_rx w) + one (mail_full w))%nat.
Proof.
  intros Hl (_ & Hl' & Ef). apply (f_equal length) in Ef. unfold flight in Ef. rewrite !length_app, !in_mail_len in Ef by done. lia.
Qed.

Lemma sum_insert (l : list service) i s s' : l !! i = Some s ->
  (sum_list_with srv_work (<[i := s']> l) + srv_work s = sum_list_with srv_work l + srv_work s')%nat.
Proof.
  revert i. induction l as [|t l IH]; intros [|i] E; try done.
  - injection E as ->. change (<[0%nat := s']> (s :: l)) with (s' :: l). cbn [sum_list_with]. lia.
  - specialize (IH i E). change (<[S i := s']> (t :: l)) with (t :: <[i := s']> l). cbn [sum_list_with]. lia.
Qed.

(** A turn that leaves the receiving core. *)
Lemma same_rx_unsent w w' : link_ok blk w -> quiet blk w w' -> rxc w' = rxc w ->
  length (unsent blk (txc w')) = length (unsent blk (txc w)).
Proof.
  intros Hl Hq E. pose proof (unsent_len w w' Hl Hq) as H. rewrite !in_rx_len in H. unfold mail_full in H. rewrite E in H. lia.
Qed.

(** Turns of the sending thread. *)
Lemma begin_works w w' m l :
  link_ok blk w -> job (txc w) = None -> todo (txc w) = m :: l -> run_tx w = Ret (Some w') -> (work blk w' < work blk w)%nat.
Proof.
  intros Hl Hj Ht E. destruct (begin_ok blk Hblk w m l Hl Hj Ht) as (? & E' & Hq). rewrite E in E'. injection E' as <-.
  unfold run_tx in E. rewrite Hj, Ht in E. apply bind_Ret in E as (s' & Es & [= <-]). unfold send_begin in Es.
  apply bind_Ret in Es as (b & _ & Es). apply bind_Ret in Es as ([? b'] & _ & [= <-]).
  pose proof (same_rx_unsent w _ Hl Hq eq_refl) as Hu. unfold work, tx_work. rewrite Hu, Hj, Ht. cbn. lia.
Qed.

Lemma fill_works w w' j :
  link_ok blk w -> job (txc w) = Some j -> s_pc j = TxLoop -> run_tx w = Ret (Some w') -> (work blk w' < work blk w)%nat.
Proof.
  intros Hl Hj Hpc E. destruct (fill_ok blk Hblk w j Hl Hj Hpc) as (? & E' & Hq). rewrite E in E'. injection E' as <-.
  unfold run_tx in E. rewrite Hj, Hpc in E. apply bind_Ret in E as (s' & Es & [= <-]). unfold send_fill in Es.
  apply bind_Ret in Es as (b & _ & Es). pose proof (same_rx_unsent w _ Hl Hq eq_refl) as Hu. unfold work, tx_work. rewrite Hu, Hj, Hpc.
  destruct (decide _); [apply bind_Ret in Es as ([? b'] & _ & Es)|]; injection Es as <-; cbn; lia.
Qed.

Lemma wait_works w w' j ret :
  link_ok blk w -> job (txc w) = Some j -> s_pc j = TxWait ret -> run_tx w = Ret (Some w') -> (work blk w' < work blk w)%nat.
Proof.
  intros Hl Hj Hpc E. unfold run_tx in E. rewrite Hj, Hpc in E. injection E as E.
  destruct (send_wait j ret (txc w)) as [s'|] eqn:Es; [|done]. injection E as <-. pose proof (wait_ok blk w j ret s' Hl Hj Hpc Es) as Hq.
  pose proof (same_rx_unsent w _ Hl Hq eq_refl) as Hu. unfold send_wait in Es. destruct (evt_write (txc w)); [|done]. injection Es as <-.
  unfold work, tx_work. rewrite Hu, Hj, Hpc. cbn. lia.
Qed.

Lemma put_works w w' j ret :
  link_ok blk w -> job (txc w) = Some j -> s_pc j = TxPut ret -> run_tx w = Ret (Some w') -> (work blk w' < work blk w)%nat.
Proof.
  intros Hl Hj Hpc E. destruct (mail_put_ok blk Hblk w j ret Hl Hj Hpc) as (? & E' & Hq). rewrite E in E'. injection E' as <-.
  unfold run_tx in E. rewrite Hj, Hpc in E. apply bind_Ret in E as (? & Es & [= <-]). unfold send_put in Es.
  apply bind_Ret in Es as (b & _ & [= <-]). set (s' := with_job _ _) in *.
  pose proof (unsent_len w _ Hl Hq) as Hu. rewrite !in_rx_len in Hu.
  pose proof (lk_tokens blk w Hl) as Htok. unfold tokens, at_put, mail_full in *. cbn [rxc data_irq evt_read rx orb one] in Hu.
  rewrite Hj, Hpc in Htok. unfold work, tx_work, rx_work. cbn [txc rxc data_irq evt_read rx services].
  change (todo s') with (todo (txc w)). change (ack_irq s') with (ack_irq (txc w)). cbn [txc] in Hu.
  change (match job s' with Some _ => _ | None => _ end) with 2%nat.
  destruct (data_irq (rxc w)), (evt_read (rxc w)), (at_get (rxc w)); cbn [one orb] in *; try lia.
Qed.

Lemma tx_works w w' : link_ok blk w -> run_tx w = Ret (Some w') -> (work blk w' < work blk w)%nat.
Proof.
  intros Hl E. destruct (job (txc w)) as [j|] eqn:Ej; [destruct (s_pc j) eqn:Epc|destruct (todo (txc w)) as [|m l] eqn:Et].
  - by apply (fill_works w w' j).
  - by apply (wait_works w w' j ret).
  - by apply (put_works w w' j ret).
  - unfold run_tx in E. by rewrite Ej, Et in E.
  - by apply (begin_works w w' m l).
Qed.

(** Turns of the receiving thread and the services. *)
Lemma rx_works capacity w w' : link_ok blk w -> run_rx capacity w = Ret (Some w') -> (work blk w' < work blk w)%nat.
Proof.
  intros Hl E. unfold run_rx in E. destruct (rx (rxc w)) as [| |m|p] eqn:Erx.
  - injection E as E. unfold recv_wait in E. destruct (evt_read (rxc w)) eqn:Ee; [|done]. injection E as <-.
    unfold work, rx_work. rewrite Ee, Erx. cbn. lia.
  - apply bind_Ret in E as (? & E & [= <-]). unfold recv_get in E. destruct (mailbox w); [|done]. injection E as <-.
    unfold work, tx_work, rx_work. rewrite Erx. cbn. change (unsent blk (Sender _ _ _ true _ _)) with (unsent blk (txc w)). unfold one. destruct (ack_irq (txc w)); lia.
  - apply bind_Ret in E as (q & _ & [= <-]). unfold work, rx_work. rewrite Erx. cbn. lia.
  - injection E as E. unfold recv_queue in E. destruct (find_service _ _ _) as [i|].
    + destruct (services (rxc w) !! i) as [s|] eqn:Es; [|done]. destruct (decide _); [|done]. injection E as <-.
      unfold work, rx_work. rewrite Erx. cbn [txc rxc data_irq evt_read rx services].
      pose proof (sum_insert _ i s (Service (id s) (que s ++ [p]) (srv s) (inbox s)) Es) as Hsum. unfold srv_work at 2 4 in Hsum.
      cbn [que srv] in Hsum. rewrite length_app in Hsum. cbn [length] in Hsum. lia.
    + injection E as <-. unfold work, rx_work. rewrite Erx. cbn. lia.
Qed.

Lemma srv_works locked s s' : run_service locked s = Ret (Some s') -> (srv_work s' < srv_work s)%nat.
Proof.
  unfold run_service, srv_work. destruct (srv s) eqn:Es.
  - destruct (que s); [done|]. intros [= <-]. cbn. lia.
  - destruct locked; [done|]. intros (g & _ & [= <-])%bind_Ret. destruct g; cbn; lia.
  - destruct (que s); [done|]. intros (g & _ & [= <-])%bind_Ret. destruct g; cbn; lia.
Qed.

Lemma turn_works capacity a w w' : link_ok blk w -> turn capacity a w = Ret (Some w') -> (work blk w' < work blk w)%nat.
Proof.
  intros Hl E. destruct a as [| | | |i]; cbn [turn] in E.
  - by apply tx_works.
  - injection E as E. unfold run_ack_isr in E. destruct (ack_irq (txc w)) eqn:Ea; [|done]. injection E as <-.
    unfold work, tx_work. rewrite Ea. cbn. change (unsent blk (Sender _ _ true false _ _)) with (unsent blk (txc w)). lia.
  - injection E as E. unfold run_data_isr in E. destruct (data_irq (rxc w)) eqn:Ed; [|done]. injection E as <-.
    unfold work, rx_work. rewrite Ed. cbn. destruct (evt_read (rxc w)); lia.
  - by apply (rx_works capacity).
  - destruct (services (rxc w) !! i) as [s|] eqn:Es; [|done]. apply bind_Ret in E as (o & Er & E). destruct o as [s'|]; [|done].
    injection E as <-. pose proof (srv_works _ _ _ Er) as Hw. pose proof (sum_insert _ i s s' Es). unfold work, rx_work. cbn. lia.
Qed.

End Progress.

(** ** No deadlock *)

Section Liveness.
Context (blk : Z) (Hblk : DISPATCH_SIZE < blk) (capacity : nat) (Hcap : (0 < capacity)%nat).
Context (msgs : list message) (Hmsgs : Forall message_ok msgs).

Definition moves (w : world) : Prop := exists a w', turn capacity a w = Ret (Some w').

(** Nothing is left to send, and the link is empty. *)
Definition link_idle (w : world) : Prop :=
  flight blk w = [] /\ job (txc w) = None /\ todo (txc w) = [] /\ rx (rxc w) = RxWait.

Definition srv_idle (s : service) : Prop := srv s = SrvWait /\ que s = [].

Lemma tx_moves w :
  link_ok blk w -> ack_irq (txc w) = false -> mail_full w = false ->
  moves w \/ (job (txc w) = None /\ todo (txc w) = []).
Proof.
  intros Hl Ea Em. destruct (job (txc w)) as [j|] eqn:Ej; [destruct (s_pc j) as [|ret|ret] eqn:Epc|destruct (todo (txc w)) as [|m l] eqn:Et].
  - left. destruct (fill_ok blk Hblk w j Hl Ej Epc) as (w' & E & _). by exists Tx, w'.
  - left. exists Tx. cbn [turn]. unfold run_tx. rewrite Ej, Epc. unfold send_wait.
    pose proof (lk_tokens blk w Hl) as Htok. unfold tokens, mail_full, at_put in *. rewrite Ej, Epc, Ea in Htok.
    destruct (evt_write (txc w)); [by eexists|].
    destruct (data_irq (rxc w)), (evt_read (rxc w)), (at_get (rxc w)); cbn in Htok, Em; done.
  - left. destruct (mail_put_ok blk Hblk w j ret Hl Ej Epc) as (w' & E & _). by exists Tx, w'.
  - by right.
  - left. destruct (begin_ok blk Hblk w m l Hl Ej Et) as (w' & E & _). by exists Tx, w'.
Qed.

Lemma link_moves w :
  link_ok blk w -> moves w \/ link_idle w \/ exists p, rx (rxc w) = RxQueue p /\ recv_queue capacity p (rxc w) = None.
Proof.
  intros Hl. destruct (ack_irq (txc w)) eqn:Ea.
  { left. exists AckIsr. cbn [turn]. unfold run_ack_isr. rewrite Ea. by eexists. }
  destruct (data_irq (rxc w)) eqn:Ed.
  { left. exists DataIsr. cbn [turn]. unfold run_data_isr. rewrite Ed. by eexists. }
  destruct (rx (rxc w)) as [| |m|p] eqn:Erx.
  - destruct (evt_read (rxc w)) eqn:Ee.
    { left. exists Rx. cbn [turn]. unfold run_rx, recv_wait. rewrite Erx, Ee. by eexists. }
    assert (mail_full w = false) as Em by (unfold mail_full, at_get; by rewrite Ed, Ee, Erx).
    destruct (tx_moves w Hl Ea Em) as [H|[Ej Et]]; [by left|]. right. left. unfold link_idle.
    split; [|done]. unfold flight, in_rx, in_mail, unsent, job_chunks. by rewrite Erx, Em, Ej, Et.
  - left. destruct (recv_get_ok blk w Hl Erx) as (w' & E & _). exists Rx, w'. cbn [turn]. unfold run_rx. by rewrite Erx, E.
  - left. destruct (recv_copy_ok blk w m Hl Erx) as (p & E & _). exists Rx. cbn [turn]. unfold run_rx. rewrite Erx, E. by eexists.
  - destruct (recv_queue capacity p (rxc w)) as [r|] eqn:E; [left|right; right; by exists p].
    exists Rx. cbn [turn]. unfold run_rx. rewrite Erx, E. by eexists.
Qed.

(** A service with a parcel, and with the mutex or free to take it, moves. *)
Lemma srv_moves w i s :
  ipc_inv blk msgs w -> services (rxc w) !! i = Some s ->
  match srv s with SrvLock _ => rx_mutex (services (rxc w)) = false | _ => que s <> [] end -> moves w.
Proof.
  intros Hi Hs Hr. destruct (srv_inv blk Hblk capacity msgs Hmsgs w i s Hi Hs) as (o & E & _). exists (Srv i).
  destruct o as [w'|]; [by exists w'|]. exfalso. revert E. cbn [turn]. rewrite Hs. unfold run_service.
  destruct (srv s); [destruct (que s); [done|]| rewrite Hr|destruct (que s); [done|]]; cbn [mbind outcome_bind].
  - done.
  - by destruct (recv_first p).
  - by destruct (recv_more p r).
Qed.

(** The holder of the mutex has a parcel, or the next chunk is for it. *)
Lemma holder_next w i s r :
  ipc_inv blk msgs w -> services (rxc w) !! i = Some s -> srv s = SrvMore r ->
  moves w \/ exists c fl, flight blk w = c :: fl /\ c_sid c = id s.
Proof.
  intros Hi Hs Er. destruct (que s) as [|p q] eqn:Eq.
  2: { left. apply (srv_moves w i s Hi Hs). by rewrite Er, Eq. }
  right. destruct (iv_served blk msgs w Hi) as (gone & E & Hserved). destruct (Forall_lookup_1 _ _ _ _ Hserved Hs) as (d & Ha & Em).
  unfold partial, pending in *. rewrite Er, Eq in *. cbn [fmap list_fmap] in Em. rewrite app_nil_r in Em. subst d.
  by apply (next_is_mine blk Hblk (id s) r (inbox s) msgs [] gone).
Qed.

Lemma holder l : rx_mutex l = true -> exists i s r, l !! i = Some s /\ srv s = SrvMore r.
Proof.
  unfold rx_mutex. intros (s & Hin & Hs)%existsb_exists. apply list_elem_of_In, list_elem_of_lookup in Hin as (i & Hi).
  unfold has_mutex in Hs. destruct (srv s) as [| |r] eqn:E; try done. by exists i, s, r.
Qed.

Lemma no_holder l i s r : rx_mutex l = false -> l !! i = Some s -> srv s <> SrvMore r.
Proof.
  intros Hm Hi E. enough (rx_mutex l = true) by congruence. apply existsb_exists. exists s.
  split; [by apply list_elem_of_In, (list_elem_of_lookup_2 _ i)|]. unfold has_mutex. by rewrite E.
Qed.

(** A full queue is that of the service the parcel is for. *)
Lemma full_queue p r :
  recv_queue capacity p r = None ->
  exists i s, services r !! i = Some s /\ id s = ph_service_id (p_phy p) /\ que s <> [].
Proof.
  unfold recv_queue. pose proof (find_service_at (ph_service_id (p_phy p)) (services r) 0) as Hf.
  destruct (find_service _ _ _) as [i|]; [|done]. destruct Hf as (n & s & -> & Hn & Hid). cbn [Nat.add]. rewrite Hn.
  destruct (decide _) as [|Hfull]; [done|]. intros _. exists n, s. split_and!; [done|done|]. intros E. rewrite E in Hfull. cbn in Hfull. lia.
Qed.

(** The receiving thread waits for room: that service can go on. *)
Lemma full_moves w p :
  ipc_inv blk msgs w -> rx (rxc w) = RxQueue p -> recv_queue capacity p (rxc w) = None -> moves w.
Proof.
  intros Hi Erx Hq. destruct (full_queue p (rxc w) Hq) as (i & s & Hs & Hid & Hne).
  destruct (rx_mutex (services (rxc w))) eqn:Em.
  2: { apply (srv_moves w i s Hi Hs). by destruct (srv s). }
  destruct (holder _ Em) as (k & t & r & Hk & Er). destruct (holder_next w k t r Hi Hk Er) as [H|(c & fl & Ef & Hc)]; [done|].
  assert (c = parcel_chunk p) as -> by (unfold flight, in_rx in Ef; rewrite Erx in Ef; by injection Ef as ->).
  assert (k = i) as -> by (apply (same_id _ k i t s (iv_ids blk msgs w Hi) Hk Hs); by rewrite Hid, <- Hc).
  rewrite Hs in Hk. injection Hk as ->. apply (srv_moves w i t Hi Hs). by rewrite Er.
Qed.

Definition finished (w : world) : Prop := link_idle w /\ Forall srv_idle (services (rxc w)).

Lemma progress w : ipc_inv blk msgs w -> moves w \/ finished w.
Proof.
  intros Hi. destruct (link_moves w (iv_link blk msgs w Hi)) as [H|[Hidle|(p & Erx & Hq)]]; [by left| |left; by apply (full_moves w p)].
  destruct (rx_mutex (services (rxc w))) eqn:Em.
  - destruct (holder _ Em) as (k & t & r & Hk & Er). destruct (holder_next w k t r Hi Hk Er) as [H|(c & fl & Ef & _)]; [by left|].
    destruct Hidle as (E & _). by rewrite E in Ef.
  - destruct (decide (Forall (fun s => has_mutex s = true \/ (bool_decide (que s = []) && match srv s with SrvWait => true | _ => false end) = true)
      (services (rxc w)))) as [Hall|Hsome].
    + right. split; [done|]. apply Forall_lookup. intros i s Hs. pose proof (Forall_lookup_1 _ _ _ _ Hall Hs) as H. cbn beta in H.
      unfold has_mutex in H. unfold srv_idle. destruct (srv s) as [| |r] eqn:Es.
      * destruct H as [H|H]; [done|]. rewrite andb_true_r in H. by apply bool_decide_eq_true in H.
      * destruct H as [H|H]; [done|]. by rewrite andb_false_r in H.
      * by destruct (no_holder _ i s r Em Hs).
    + left. apply not_Forall_Exists, list.Exists_exists in Hsome; [|apply _]. destruct Hsome as (s & Hin & Hs).
      apply list_elem_of_lookup in Hin as (i & Hin). apply (srv_moves w i s Hi Hin). unfold compose, has_mutex in Hs.
      destruct (srv s); [|done|by destruct Hs; left]. intros E. apply Hs. right. by rewrite E.
Qed.

(** ** Runs *)

Lemma steps_trans n m w1 w2 w3 : steps capacity n w1 w2 -> steps capacity m w2 w3 -> steps capacity (n + m) w1 w3.
Proof.
  intros H1 H2. induction H2 as [|m a w2 w3 w4 _ IH E]; [by rewrite Nat.add_0_r|].
  rewrite Nat.add_succ_r. econstructor; [by apply IH|done].
Qed.

Lemma steps_work n w0 w : ipc_inv blk msgs w0 -> steps capacity n w0 w -> (n + work blk w <= work blk w0)%nat.
Proof.
  intros Hi Hs. induction Hs as [|n a w1 w2 w3 H12 IH E]; [lia|]. specialize (IH Hi).
  pose proof (steps_inv blk Hblk capacity msgs Hmsgs _ _ _ H12 Hi) as Hi2.
  pose proof (turn_works blk Hblk capacity a w2 w3 (iv_link blk msgs w2 Hi2) E). lia.
Qed.

Lemma runs_on w : ipc_inv blk msgs w -> exists k w', steps capacity k w w' /\ finished w'.
Proof.
  remember (work blk w) as n eqn:En. revert w En. induction n as [n IH] using lt_wf_ind. intros w -> Hi.
  destruct (progress w Hi) as [(a & w1 & E)|Hf]; [|by exists 0%nat, w; split; [constructor|]].
  assert (steps capacity 1 w w1) as H1 by (econstructor; [constructor|done]).
  pose proof (turn_works blk Hblk capacity a w w1 (iv_link blk msgs w Hi) E) as Hlt.
  destruct (IH _ Hlt w1 eq_refl (steps_inv blk Hblk capacity msgs Hmsgs _ _ _ H1 Hi)) as (k & w' & Hk & Hf).
  exists (1 + k)%nat, w'. split; [by eapply steps_trans|done].
Qed.

(** At the end each service has its messages. *)
Lemma finished_inbox w : ipc_inv blk msgs w -> finished w ->
  Forall (fun s => inbox s = arrived <$> to_service (id s) msgs) (services (rxc w)).
Proof.
  intros Hi ((Ef & _) & Hidle). destruct (iv_served blk msgs w Hi) as (gone & E & Hs). rewrite Ef, app_nil_r in E.
  apply Forall_lookup. intros i s Hk. destruct (Forall_lookup_1 _ _ _ _ Hidle Hk) as [E1 E2].
  destruct (Forall_lookup_1 _ _ _ _ Hs Hk) as (d & Ha & Em). unfold partial, pending in *. rewrite E1, E2 in *.
  cbn [fmap list_fmap] in Em. rewrite app_nil_r in Em. pose proof (absorb_sent blk Hblk msgs Hmsgs (id s)) as H.
  rewrite E, Em, Ha in H. by injection H.
Qed.

(** Before that, a prefix of them. *)
Lemma inbox_prefix w : ipc_inv blk msgs w ->
  Forall (fun s => inbox s `prefix_of` (arrived <$> to_service (id s) msgs)) (services (rxc w)).
Proof.
  intros Hi. destruct (iv_served blk msgs w Hi) as (gone & E & Hs). apply Forall_lookup. intros i s Hk.
  destruct (Forall_lookup_1 _ _ _ _ Hs Hk) as (d & Ha & Em). pose proof (absorb_sent blk Hblk msgs Hmsgs (id s)) as H.
  rewrite E, mine_app, Em, <- app_assoc in H. apply absorb_prefix in H as (t & Ht & H). rewrite Ha in Ht. injection Ht as <-.
  by apply absorb_all_grows in H.
Qed.

End Liveness.

(** ** From the start *)

Lemma start_inv shm_size msgs sids :
  DISPATCH_SIZE < shm_size / BLOCK_SIZE -> Forall message_ok msgs -> NoDup sids ->
  ipc_inv (shm_size / BLOCK_SIZE) msgs (ipc_start shm_size msgs sids).
Proof.
  intros Hb Hm Hn. unfold DISPATCH_SIZE in Hb. split.
  - split; cbn; try done; try lia.
    + repeat constructor; cbn [mem]; unfold zlen; rewrite length_replicate; lia.
    + apply Forall_fmap, list.Forall_true. constructor.
  - cbn. rewrite <- list_fmap_compose. cbn. by rewrite list_fmap_id.
  - exists []. split; [done|]. cbn. apply Forall_fmap, list.Forall_true. intros sid. by exists [].
Qed.

(** Everything has been sent and each service has the messages for it, in order. *)
Definition delivered (msgs : list message) (w : world) : Prop :=
  job (txc w) = None /\ todo (txc w) = [] /\
  Forall (fun s => inbox s = arrived <$> to_service (id s) msgs) (services (rxc w)).

Lemma finished_delivered blk msgs w :
  DISPATCH_SIZE < blk -> Forall message_ok msgs -> ipc_inv blk msgs w -> finished blk w -> delivered msgs w.
Proof. intros Hb Hm Hi Hf. split_and!; try apply Hf. by apply (finished_inbox blk). Qed.

Lemma play_steps capacity l : forall w w', play capacity l w = Ret w' -> exists n, steps capacity n w w'.
Proof.
  induction l as [|a l IH]; intros w w' E; cbn [play] in E.
  - injection E as <-. exists 0%nat. constructor.
  - apply bind_Ret in E as (o & Eo & E). destruct (IH _ _ E) as (n & Hn). destruct o as [w1|]; [|by exists n].
    exists (1 + n)%nat. eapply steps_trans; [|done]. econstructor; [constructor|done].
Qed.



(** Two messages for two services, in blocks of 20 bytes. *)
Definition two_messages : list message :=
  [Message 0 7 1 (replicate 30 5) 0 0; Message 0 9 2 [] 0 0].
Definition demo : world := ipc_start 80 two_messages [7; 9].
Definition rounds (n : nat) : list agent := concat (replicate n [Tx; DataIsr; Rx; AckIsr; Srv 0; Srv 1]).



(** ** Registering a service *)

Lemma find_service_app sid l x : forall k i, find_service k sid l = Some i -> find_service k sid (l ++ [x]) = Some i.
Proof.
  induction l as [|s l IH]; intros k i E; [done|]. cbn [find_service app] in *. destruct (decide _); [done|]. by apply IH.
Qed.

(** [ipc_add_service] on a link that has carried a message: it sets the read event,
    so the receiving thread takes the message that is still in the mailbox once more,
    queues it for its service a second time, and acknowledges a message that is not
    there. *)
Theorem ipc_add_service_redelivers capacity w sid m p i s :
  rx (rxc w) = RxWait -> mailbox w = Some m -> recv_copy m (txc w) = Ret p ->
  find_service 0 sid (services (rxc w)) = None ->
  find_service 0 (ph_service_id m) (services (rxc w)) = Some i -> services (rxc w) !! i = Some s ->
  (length (que s) < capacity)%nat ->
  exists r' w', ipc_add_service sid (rxc w) = Ret r' /\
    play capacity [Rx; Rx; Rx; Rx] (World (txc w) (mailbox w) r') = Ret w' /\
    services (rxc w') !! i = Some (Service (id s) (que s ++ [p]) (srv s) (inbox s)) /\ ack_irq (txc w') = true.
Proof.
  intros Erx Em Ec Enew Ei Es Hroom. unfold ipc_add_service. rewrite Enew.
  assert (p_phy p = m) as Ep by (unfold recv_copy in Ec; apply bind_Ret in Ec as (b & _ & Ec); by apply bind_Ret in Ec as (d & _ & [= <-])).
  pose proof (lookup_lt_Some _ _ _ Es) as Hlt. destruct w as [x mb [er di pc bake l]]. cbn [txc rxc mailbox rx services data_irq seq_bake] in *.
  subst pc mb. set (l' := l ++ _). exists (Receiver true di RxWait bake l').
  cbn [play turn run_rx rxc rx recv_wait evt_read data_irq seq_bake services fmap option_fmap option_map mbind outcome_bind recv_get mailbox txc].
  set (x' := Sender _ _ _ true _ _). change (recv_copy m x') with (recv_copy m x). rewrite Ec.
  unfold run_rx, recv_queue, with_rx. cbn [mbind outcome_bind rx rxc services]. unfold l'. rewrite Ep, (find_service_app _ _ _ _ _ Ei).
  rewrite lookup_app_l, Es, (decide_True (P := (length (que s) < capacity)%nat)) by done.
  cbn [fmap option_fmap option_map mbind outcome_bind]. eexists. split; [done|]. split; [done|].
  split; [|done]. cbn [rxc services]. apply list_lookup_insert_eq. rewrite length_app. lia.
Qed.

(** The last of [two_messages] is received twice. *)
Lemma ipc_add_service_redelivers_witness :
  exists w r' w', play 10 (rounds 30) demo = Ret w /\ ipc_add_service 8 (rxc w) = Ret r' /\
    play 10 [Rx; Rx; Rx; Rx] (World (txc w) (mailbox w) r') = Ret w' /\
    inbox <$> services (rxc w) !! 1%nat = Some [arrived (Message 0 9 2 [] 0 0)] /\ length <$> (que <$> services (rxc w') !! 1%nat) = Some 1%nat.
Proof.
  destruct (play 10 (rounds 30) demo) as [w|] eqn:E; [|by vm_compute in E]. vm_compute in E. injection E as <-.
  match goal with |- exists w r' w', Ret ?w0 = _ /\ _ =>
    destruct (ipc_add_service_redelivers 10 w0 8 _ _ 1 _ eq_refl eq_refl eq_refl eq_refl eq_refl eq_refl ltac:(cbn; lia))
      as (r' & w' & E1 & E2 & E3 & _); exists w0, r', w' end.
  split_and!; try done. by rewrite E3.
Defined.

(** Before the first message the receiving thread reads what nobody has written. *)
Lemma ipc_add_service_reads_nothing capacity sid w :
  rx (rxc w) = RxWait -> mailbox w = None -> find_service 0 sid (services (rxc w)) = None ->
  exists r', ipc_add_service sid (rxc w) = Ret r' /\ play capacity [Rx; Rx] (World (txc w) (mailbox w) r') = Crash.
Proof.
  intros Erx Em Enew. unfold ipc_add_service. rewrite Enew. destruct w as [x mb [er di pc bake l]]. cbn in *. subst.
  eexists. split; [done|]. done.
Qed.
