(* ===== verification/IpcSync.v ===== *)
(** * Calls between the cores, the rest of [components/ipc/ipc.c]

    [ipc_message_send] with [MESSAGE_SYNC] waits for the answer of the other core on a
    queue it makes for the call; [ipc_service_entry] runs the service's callback, which
    answers with [ipc_message_ack], and passes answers on to the queue they name.  Both
    cores call and serve.  The links below are channels that keep the messages of a
    service in order and lose none, which is what [IpcTheorems] shows of them. *)

From stdpp Require Import gmap.
From S2P Require Import Prelude Ipc IpcProofs.

(** ** Data *)

Definition is_sync (m : message) : bool := bool_decide (Z.land (flag m) MESSAGE_SYNC <> 0).
Definition is_ack (m : message) : bool := bool_decide (Z.land (flag m) MESSAGE_ACK <> 0).

(** A thread that calls: the calls to come, the one it waits for with its queue, and
    the calls made with what they returned and left in [resp_data]. *)
Record caller := Caller {
  calls : list message;
  waits : option (Z * message);
  returns : list (message * Z * list Z)
}.

(** A core: [queues] are the queues of its calls, by handle; [registered] its services;
    [seen] the messages its callbacks have got. *)
Record core := Core {
  callers : list caller;
  queues : gmap Z (list message);
  registered : list Z;
  seen : list message
}.

(** [out] is on its way from [here] to [there], [inc] the other way. *)
Record system := System { here : core; there : core; out : list message; inc : list message }.

Definition swap (s : system) : system := System (there s) (here s) (inc s) (out s).

(** ** Calling *)

Definition with_queue (q : Z) (m : message) : message :=
  Message (flag m) (service_id m) (command m) (req_data m) q (resp_len m).

Definition put_caller (k : nat) (c : caller) (x : core) : core :=
  Core (<[k := c]> (callers x)) (queues x) (registered x) (seen x).
Definition put_queues (qs : gmap Z (list message)) (x : core) : core :=
  Core (callers x) qs (registered x) (seen x).

Definition return_ (m : message) (ret : Z) (data : list Z) (l : list message) (c : caller) : caller :=
  Caller l None (returns c ++ [(m, ret, data)]).

(** [ipc_message_send] of thread [k] up to the wait.  [aos_queue_new] fails, or gives a
    handle that is not in use.  Without the service the queue stays. *)
Definition message_send (k : nat) (queue_new : option Z) (s : system) : option system :=
  let x := here s in
  match callers x !! k with
  | Some (Caller (m :: l) None rs) =>
      let c := Caller (m :: l) None rs in
      let send x m c := System (put_caller k c x) (there s) (out s ++ [arrived m]) (inc s) in
      let done x c := System (put_caller k c x) (there s) (out s) (inc s) in
      let found := bool_decide (service_id m ∈ registered x) in
      if is_sync m then
        match queue_new with
        | None => Some (done x (return_ m (-1) [] l c))
        | Some q =>
            match queues x !! q with
            | Some _ => None
            | None =>
                let x := put_queues (<[q := []]> (queues x)) x in
                if found then Some (send x (with_queue q m) (Caller l (Some (q, m)) rs))
                else Some (done x (return_ m (-1) [] l c))
            end
        end
      else if found then Some (send x m (return_ m 0 [] l c))
      else Some (done x (return_ m (-1) [] l c))
  | _ => None
  end.

(** The wait on the queue and what follows. *)
Definition message_wait (k : nat) (s : system) : outcome (option system) :=
  let x := here s in
  match callers x !! k with
  | Some (Caller l (Some (q, m)) rs) =>
      match queues x !! q with
      | None => Crash
      | Some [] => Ret None
      | Some (r :: _) =>
          if decide (zlen (req_data r) = resp_len m) then
            Ret (Some (System
              (put_caller k (Caller l None (rs ++ [(m, 0, req_data r)])) (put_queues (delete q (queues x)) x))
              (there s) (out s) (inc s)))
          else Crash
      end
  | _ => Ret None
  end.

(** ** Serving *)

(** The first message for a service, and the rest. *)
Fixpoint take_first (sid : Z) (l : list message) : option (message * list message) :=
  match l with
  | [] => None
  | m :: l =>
      if decide (service_id m = sid) then Some (m, l)
      else match take_first sid l with Some (x, l) => Some (x, m :: l) | None => None end
  end.

Section Serving.
(** How many answers a call's queue holds; what the callbacks answer, by service,
    command, data and length asked for. *)
Context (qcap : nat) (respond : Z -> Z -> list Z -> Z -> list Z).

(** [ipc_message_ack] with the answer in [resp_data]. *)
Definition ipc_message_ack (m : message) (resp_data : list Z) : message :=
  Message (Z.lor (flag m) MESSAGE_ACK) (service_id m) (command m) resp_data (queue m) (resp_len m).

Definition answer (m : message) : list Z := respond (service_id m) (command m) (req_data m) (resp_len m).

(** A turn of [ipc_service_entry] for service [sid] of the other core; the receiving
    thread drops what is for no service. *)
Definition service_entry (sid : Z) (s : system) : outcome (option system) :=
  match take_first sid (out s) with
  | None => Ret None
  | Some (m, l) =>
      let y := there s in
      if decide (sid ∈ registered y) then
        if is_ack m then
          match queues y !! queue m with
          | None => Crash
          | Some q =>
              let q := if decide (length q < qcap)%nat then q ++ [m] else q in
              Ret (Some (System (here s) (put_queues (<[queue m := q]> (queues y)) y) l (inc s)))
          end
        else
          let y := Core (callers y) (queues y) (registered y) (seen y ++ [m]) in
          Ret (Some (System (here s) y l
                 (if is_sync m then inc s ++ [arrived (ipc_message_ack m (answer m))] else inc s)))
      else Ret (Some (System (here s) y l (inc s)))
  end.

(** ** Turns of both cores *)

Inductive act := Send (k : nat) (queue_new : option Z) | Wait (k : nat) | Serve (sid : Z).

Definition act_here (a : act) (s : system) : outcome (option system) :=
  match a with
  | Send k q => Ret (message_send k q s)
  | Wait k => message_wait k s
  | Serve sid => service_entry sid s
  end.

(** [mirror]: the other core acts. *)
Definition act_on (mirror : bool) (a : act) (s : system) : outcome (option system) :=
  if mirror then
    match act_here a (swap s) with Ret o => Ret (swap <$> o) | Crash => Crash end
  else act_here a s.

Inductive runs : nat -> system -> system -> Prop :=
| runs_refl s : runs 0 s s
| runs_step n b a s1 s2 s3 : runs n s1 s2 -> act_on b a s2 = Ret (Some s3) -> runs (S n) s1 s3.

End Serving.
