(* ===== verification/IpcSyncProofs.v ===== *)
(** * Calls between the cores: each call gets its own answer

    For every call that waits there is, at any time, one of: its request on the way, its
    answer on the way back, its answer in the queue.  As a permutation: the answers to
    come are those of the waiting calls. *)

From stdpp Require Import gmap.
From S2P Require Import Prelude Ipc IpcProofs IpcSync.

Section Proofs.
Context (qcap : nat) (Hqcap : (0 < qcap)%nat) (respond : Z -> Z -> list Z -> Z -> list Z).
Context (Hrespond : forall sid cmd d n, 0 <= n -> zlen (respond sid cmd d n) = n).

(** ** Answers to come *)

Definition answers : Type := list (Z * list Z).

Definition req_key (m : message) : answers :=
  if is_sync m && negb (is_ack m) then [(queue m, answer respond m)] else [].
Definition ack_key (m : message) : answers := if is_ack m then [(queue m, req_data m)] else [].
Definition queue_key (e : Z * list message) : answers := (fun r => (e.1, req_data r)) <$> e.2.
Definition wait_key (c : caller) : answers :=
  match waits c with Some (q, m) => [(q, answer respond m)] | None => [] end.

Definition coming (s : system) : answers :=
  (out s ≫= req_key) ++ (inc s ≫= ack_key) ++ (map_to_list (queues (here s)) ≫= queue_key).
Definition waiting (x : core) : answers := callers x ≫= wait_key.

(** ** The invariant *)

Definition call_ok (m : message) : Prop := is_ack m = false /\ 0 <= resp_len m.

(** What a call may return. *)
Definition good_return (sids : list Z) (e : message * Z * list Z) : Prop :=
  let '(m, ret, data) := e in
  if bool_decide (service_id m ∈ sids) then
    if is_sync m then (ret = 0 /\ data = answer respond m) \/ (ret = -1 /\ data = [])
    else ret = 0 /\ data = []
  else ret = -1 /\ data = [].

Definition caller_ok (sids : list Z) (c : caller) : Prop :=
  Forall call_ok (calls c) /\ Forall (good_return sids) (returns c) /\
  match waits c with
  | Some (q, m) => call_ok m /\ is_sync m = true /\ service_id m ∈ sids
  | None => True
  end.

Record side_ok (sids : list Z) (s : system) : Prop := SideOk {
  sd_answers : coming s ≡ₚ waiting (here s);
  sd_nodup : NoDup (waiting (here s)).*1;
  sd_queues : forall q, q ∈ (waiting (here s)).*1 -> is_Some (queues (here s) !! q);
  sd_callers : Forall (caller_ok sids) (callers (here s));
  sd_out : Forall (fun m => service_id m ∈ sids) (out s);
  sd_reg : registered (here s) = sids
}.

Definition sys_ok (sids : list Z) (s : system) : Prop := side_ok sids s /\ side_ok sids (swap s).

(** ** Lists and maps *)

Lemma perm_ends {A} (a b c : list A) : a ++ b ++ c ≡ₚ c ++ b ++ a.
Proof. by rewrite (Permutation_app_comm a), <- app_assoc, (Permutation_app_comm b), <- app_assoc, (Permutation_app_comm a). Qed.

Lemma bind_insert {A B} (f : A -> list B) (l : list A) i c c' :
  l !! i = Some c -> (<[i := c']> l ≫= f) ++ f c ≡ₚ (l ≫= f) ++ f c'.
Proof.
  intros Hi. rewrite <- (take_drop_middle l i c Hi) at 2. rewrite insert_take_drop by (by eapply lookup_lt_Some).
  rewrite !bind_app, !bind_cons, <- !app_assoc. apply Permutation_app_head, perm_ends.
Qed.

Abbreviation queued qs := (map_to_list qs ≫= queue_key).

Lemma queued_new (qs : gmap Z (list message)) q : qs !! q = None -> queued (<[q := []]> qs) ≡ₚ queued qs.
Proof. intros Hq. by rewrite map_to_list_insert. Qed.

Lemma queued_delete (qs : gmap Z (list message)) q l :
  qs !! q = Some l -> queued qs ≡ₚ queue_key (q, l) ++ queued (delete q qs).
Proof. intros Hq. by rewrite <- (map_to_list_delete qs q l Hq). Qed.

Lemma queued_put (qs : gmap Z (list message)) q m :
  qs !! q = Some [] -> queued (<[q := [m]]> qs) ≡ₚ (q, req_data m) :: queued qs.
Proof.
  intros Hq. rewrite (queued_delete qs q [] Hq), (queued_delete _ q [m]) by apply lookup_insert_eq. cbn.
  by rewrite delete_insert_eq.
Qed.

(** A flag set on the way leaves the two that are tested. *)
Lemma arrived_sync m : is_sync (arrived m) = is_sync m.
Proof. unfold is_sync, arrived, sent_flag, SHM_CACHE, MESSAGE_SYNC. cbn [flag]. by rewrite Z.land_lor_distr_l, Z.lor_0_r. Qed.

Lemma arrived_is_ack m : is_ack (arrived m) = is_ack m.
Proof. unfold is_ack, arrived, sent_flag, SHM_CACHE, MESSAGE_ACK. cbn [flag]. by rewrite Z.land_lor_distr_l, Z.lor_0_r. Qed.

Lemma ack_is_ack m d : is_ack (ipc_message_ack m d) = true.
Proof.
  unfold is_ack, ipc_message_ack, MESSAGE_ACK. cbn [flag]. apply bool_decide_eq_true. rewrite Z.land_lor_distr_l.
  intros H%Z.lor_eq_0_iff. by destruct H.
Qed.

Lemma req_key_sent m : req_key (arrived m) = req_key m.
Proof. unfold req_key. by rewrite arrived_sync, arrived_is_ack. Qed.
Lemma ack_key_sent m : ack_key (arrived m) = ack_key m.
Proof. unfold ack_key. by rewrite arrived_is_ack. Qed.

(** ** What the permutation says *)

Lemma coming_nodup sids s : side_ok sids s -> NoDup (coming s).*1.
Proof. intros H. rewrite (sd_answers sids s H). apply (sd_nodup sids s H). Qed.

(** An answer of a handle that waits. *)
Lemma coming_waits sids s q d : side_ok sids s -> (q, d) ∈ coming s -> is_Some (queues (here s) !! q).
Proof.
  intros H Hin. apply (sd_queues sids s H). apply list_elem_of_fmap. exists (q, d). split; [done|]. by rewrite <- (sd_answers sids s H).
Qed.

(** One answer per queue. *)
Lemma queue_single sids s q r l : side_ok sids s -> queues (here s) !! q = Some (r :: l) -> l = [].
Proof.
  intros H Hq. pose proof (coming_nodup sids s H) as Hn. unfold coming in Hn.
  rewrite (queued_delete _ q _ Hq) in Hn. destruct l as [|r2 l]; [done|]. exfalso.
  rewrite !fmap_app in Hn. apply list.NoDup_app in Hn as (_ & _ & Hn). apply list.NoDup_app in Hn as (_ & _ & Hn).
  apply list.NoDup_app in Hn as (Hn & _). cbn in Hn. apply list.NoDup_cons in Hn as [Hn _]. apply Hn. by left.
Qed.

(** No answer in the queue while it is on its way. *)
Lemma queue_empty sids s q d l :
  side_ok sids s -> (q, d) ∈ inc s ≫= ack_key -> queues (here s) !! q = Some l -> l = [].
Proof.
  intros H Hin Hq. pose proof (coming_nodup sids s H) as Hn. unfold coming in Hn.
  rewrite (queued_delete _ q _ Hq) in Hn. destruct l as [|r l]; [done|]. exfalso.
  rewrite !fmap_app in Hn. apply list.NoDup_app in Hn as (_ & _ & Hn). apply list.NoDup_app in Hn as (_ & Hd & _).
  apply (Hd q); [apply list_elem_of_fmap; by exists (q, d)|]. apply elem_of_app. left. by left.
Qed.

Lemma take_first_spec sid l m l' : take_first sid l = Some (m, l') -> l ≡ₚ m :: l' /\ service_id m = sid.
Proof.
  revert l'. induction l as [|x l IH]; intros l' E; cbn [take_first] in E; [done|].
  destruct (decide (service_id x = sid)); [by injection E as <- <-|].
  destruct (take_first sid l) as [[y l1]|]; [|done]. injection E as -> <-. destruct (IH l1 eq_refl) as [Hp Hs].
  split; [|done]. rewrite Hp. apply Permutation_swap.
Qed.

(** ** Turns *)

(** What the other core sees of a turn. *)
Lemma side_there sids s x' out' :
  side_ok sids (swap s) -> out' ≫= ack_key ≡ₚ out s ≫= ack_key ->
  side_ok sids (swap (System x' (there s) out' (inc s))).
Proof.
  intros [Ha Hn Hq Hc Ho Hr] Ek. split; try done. etrans; [|exact Ha]. unfold coming. cbn [swap out inc here there]. by rewrite Ek.
Qed.

(** A turn of a calling thread. *)
Lemma side_caller sids s k c c' (qs' : gmap Z (list message)) out' :
  side_ok sids s -> callers (here s) !! k = Some c -> caller_ok sids c' ->
  (out' ≫= req_key) ++ queued qs' ++ wait_key c ≡ₚ (out s ≫= req_key) ++ queued (queues (here s)) ++ wait_key c' ->
  (forall W, waiting (here s) ++ wait_key c' ≡ₚ W ++ wait_key c -> NoDup W.*1 /\ forall q, q ∈ W.*1 -> is_Some (qs' !! q)) ->
  Forall (fun m => service_id m ∈ sids) out' ->
  side_ok sids (System (put_caller k c' (put_queues qs' (here s))) (there s) out' (inc s)).
Proof.
  intros [Ha Hn Hq Hc Ho Hr] Hk Hc' Hp HW Hout.
  pose proof (bind_insert wait_key _ k c c' Hk) as Hw. destruct (HW (<[k := c']> (callers (here s)) ≫= wait_key)) as [Hn' Hq']; [by rewrite Hw|].
  split; try done; cbn [here put_caller put_queues callers]; [|by apply Forall_insert].
  apply (Permutation_app_inv_r (wait_key c)). unfold waiting. cbn [callers put_caller]. rewrite Hw. fold (waiting (here s)). rewrite <- Ha.
  unfold coming. cbn [here out inc put_caller put_queues queues].
  rewrite <- !app_assoc. etrans; [apply Permutation_app_swap_app|]. etrans; [|apply Permutation_app_swap_app].
  by apply Permutation_app_head.
Qed.

(** ... that leaves what is waited for. *)
Lemma waiting_same sids s (qs' : gmap Z (list message)) c c' :
  side_ok sids s -> wait_key c = [] -> wait_key c' = [] -> (forall q, is_Some (queues (here s) !! q) -> is_Some (qs' !! q)) ->
  forall W, waiting (here s) ++ wait_key c' ≡ₚ W ++ wait_key c -> NoDup W.*1 /\ forall q, q ∈ W.*1 -> is_Some (qs' !! q).
Proof.
  intros H -> -> Hqs W. rewrite !app_nil_r. intros EW. rewrite <- EW. split; [apply (sd_nodup sids s H)|].
  intros q. rewrite <- EW. intros Hin. by apply Hqs, (sd_queues sids s H).
Qed.

(** A call that returns at once. *)
Lemma return_ok sids s k m l rs ret d (qs' : gmap Z (list message)) out' :
  side_ok sids s -> side_ok sids (swap s) -> callers (here s) !! k = Some (Caller (m :: l) None rs) ->
  good_return sids (m, ret, d) -> queued qs' ≡ₚ queued (queues (here s)) ->
  (forall q, is_Some (queues (here s) !! q) -> is_Some (qs' !! q)) ->
  out' ≫= req_key = out s ≫= req_key -> out' ≫= ack_key = out s ≫= ack_key -> Forall (fun m => service_id m ∈ sids) out' ->
  sys_ok sids (System (put_caller k (return_ m ret d l (Caller (m :: l) None rs)) (put_queues qs' (here s))) (there s) out' (inc s)).
Proof.
  intros H H' Hk Hg Hqs Hdom E1 E2 Hout. pose proof (Forall_lookup_1 _ _ _ _ (sd_callers sids s H) Hk) as (Hc & Hr & _).
  cbn in Hc, Hr. inversion_clear Hc. split; [|apply side_there; [done|by rewrite E2]].
  eapply side_caller; try done.
  - split; [done|]. split; [|done]. cbn. apply Forall_app. split; [done|]. by constructor.
  - by rewrite E1, Hqs.
  - by apply (waiting_same sids s).
Qed.

Lemma put_queues_same x : put_queues (queues x) x = x.
Proof. by destruct x. Qed.

Lemma send_ok sids s k qn s' : sys_ok sids s -> message_send k qn s = Some s' -> sys_ok sids s'.
Proof.
  intros [H H'] E. unfold message_send in E. destruct (callers (here s) !! k) as [[[|m l] [?|] rs]|] eqn:Hk; try done.
  pose proof (Forall_lookup_1 _ _ _ _ (sd_callers sids s H) Hk) as (Hc & Hr & _). cbn in Hc, Hr. inversion Hc as [|? ? [Hna Hrl] Hl]. subst.
  rewrite (sd_reg sids s H) in E. pose proof (sd_out sids s H) as Hout.
  pose proof (fun ret d qs' out' => return_ok sids s k m l rs ret d qs' out' H H' Hk) as Hret. unfold good_return in Hret.
  assert (forall m', is_ack m' = false -> ack_key (arrived m') = []) as Hack
    by (intros m' Hm'; rewrite ack_key_sent; unfold ack_key; by rewrite Hm').
  destruct (is_sync m) eqn:Esync; [destruct qn as [q|]; [destruct (queues (here s) !! q) eqn:Hq; [done|]|]|];
    destruct (bool_decide (service_id m ∈ sids)) eqn:Ereg; injection E as <-.
  - apply bool_decide_eq_true in Ereg.
    assert (req_key (arrived (with_queue q m)) = [(q, answer respond m)]) as Ek
      by (rewrite req_key_sent; unfold req_key, is_sync, is_ack; cbn; fold (is_sync m) (is_ack m); by rewrite Esync, Hna).
    split; [|apply side_there; [done|]; rewrite bind_app; cbn; by rewrite Hack, !app_nil_r].
    eapply side_caller; try done.
    + rewrite bind_app, queued_new by done. cbn. rewrite Ek, !app_nil_r, <- app_assoc. apply Permutation_app_head, Permutation_app_comm.
    + cbn. intros W EW. rewrite app_nil_r in EW. rewrite <- EW, fmap_app. split.
      * apply list.NoDup_app. split_and!; [apply (sd_nodup sids s H)| |apply NoDup_singleton]. intros q' Hin Eq'%list_elem_of_singleton. cbn in Eq'. subst q'.
        apply (sd_queues sids s H) in Hin. rewrite Hq in Hin. by destruct Hin.
      * intros q'. rewrite <- EW, fmap_app. intros [Hin|Hin]%elem_of_app.
        -- apply lookup_insert_is_Some'. right. by apply (sd_queues sids s H).
        -- apply list_elem_of_singleton in Hin as ->. cbn. by rewrite lookup_insert_eq.
    + apply Forall_app. split; [done|]. by constructor.
  - apply Hret; try done; [by apply queued_new|]. intros q' Hq'. apply lookup_insert_is_Some'. by right.
  - rewrite <- (put_queues_same (here s)). apply Hret; try done. by right.
  - rewrite <- (put_queues_same (here s)). by apply Hret.
  - apply bool_decide_eq_true in Ereg. rewrite <- (put_queues_same (here s)). apply Hret; try done; rewrite ?bind_app.
    + cbn. rewrite req_key_sent. unfold req_key. by rewrite Esync, !app_nil_r.
    + cbn. by rewrite Hack, !app_nil_r.
    + apply Forall_app. split; [done|]. by constructor.
  - rewrite <- (put_queues_same (here s)). by apply Hret.
Qed.

(** The answer in the queue of a call is its own. *)
Lemma own_answer sids s k l q m rs r rest :
  side_ok sids s -> callers (here s) !! k = Some (Caller l (Some (q, m)) rs) -> queues (here s) !! q = Some (r :: rest) ->
  rest = [] /\ req_data r = answer respond m.
Proof.
  intros H Hk Hq. pose proof (queue_single sids s q r rest H Hq) as ->. split; [done|].
  assert ((q, req_data r) ∈ waiting (here s)) as H1.
  { rewrite <- (sd_answers sids s H). unfold coming. rewrite (queued_delete _ q _ Hq). set_solver. }
  assert ((q, answer respond m) ∈ waiting (here s)) as H2.
  { unfold waiting. apply list_elem_of_bind. exists (Caller l (Some (q, m)) rs). split; [by left|]. by eapply list_elem_of_lookup_2. }
  pose proof (sd_nodup sids s H) as Hn. apply elem_of_Permutation in H1 as (W & EW). rewrite EW in H2, Hn.
  apply list.NoDup_cons in Hn as [Hn _]. apply elem_of_cons in H2 as [[= ->]|H2]; [done|]. exfalso. apply Hn.
  apply list_elem_of_fmap. by exists (q, answer respond m).
Qed.

Lemma wait_turn sids s k : sys_ok sids s -> exists o, message_wait k s = Ret o /\ forall s', o = Some s' -> sys_ok sids s'.
Proof.
  intros [H H']. unfold message_wait. destruct (callers (here s) !! k) as [[l [[q m]|] rs]|] eqn:Hk; try (by exists None).
  pose proof (Forall_lookup_1 _ _ _ _ (sd_callers sids s H) Hk) as (Hc & Hr & Hm & Hsync & Hsid). cbn in Hc, Hr.
  destruct (queues (here s) !! q) as [[|r rest]|] eqn:Hq.
  - by exists None.
  - destruct (own_answer sids s k l q m rs r rest H Hk Hq) as [-> Er]. rewrite decide_True by (rewrite Er; apply Hrespond, Hm).
    eexists. split; [done|]. intros ? [= <-]. split; [|apply side_there; done]. eapply side_caller; try done; [| | |apply (sd_out sids s H)].
    + split; [done|]. split; [|done]. cbn. apply Forall_app. split; [done|]. constructor; [|done]. unfold good_return.
      rewrite bool_decide_true by done. rewrite Hsync, Er. by left.
    + rewrite (queued_delete _ q _ Hq). cbn. rewrite Er, app_nil_r. apply Permutation_app_head. by rewrite Permutation_app_comm.
    + cbn. intros W EW. rewrite app_nil_r in EW. pose proof (sd_nodup sids s H) as Hn. rewrite EW, fmap_app in Hn.
      apply list.NoDup_app in Hn as (Hn & Hd & _). split; [done|]. intros q' Hin. rewrite lookup_delete_ne.
      * apply (sd_queues sids s H). rewrite EW, fmap_app. apply elem_of_app. by left.
      * intros <-. apply (Hd q Hin). by left.
  - exfalso. destruct (sd_queues sids s H q) as [? E]; [|by rewrite Hq in E]. apply list_elem_of_fmap. exists (q, answer respond m).
    split; [done|]. unfold waiting. apply list_elem_of_bind. exists (Caller l (Some (q, m)) rs). split; [by left|]. by eapply list_elem_of_lookup_2.
Qed.

(** Requests: the answer takes the request's place. *)
Lemma serve_request sids s m l y' :
  sys_ok sids s -> out s ≡ₚ m :: l -> is_ack m = false ->
  callers y' = callers (there s) -> queues y' = queues (there s) -> registered y' = registered (there s) ->
  sys_ok sids (System (here s) y' l (if is_sync m then inc s ++ [arrived (ipc_message_ack m (answer respond m))] else inc s)).
Proof.
  intros [[Ha Hn Hq Hc Ho Hr] [Ha' Hn' Hq' Hc' Ho' Hr']] Hl Hm E1 E2 E3. unfold coming in Ha, Ha'.
  rewrite Hl in Ho. inversion_clear Ho as [|? ? Hsid Hol]. cbn [swap here there out inc] in *.
  assert (ack_key m = []) as Eack by (unfold ack_key; by rewrite Hm).
  set (a := arrived _). assert (ack_key a = [(queue m, answer respond m)] /\ req_key a = []) as [Ea1 Ea2].
  { unfold a. rewrite ack_key_sent, req_key_sent. unfold ack_key, req_key. by rewrite ack_is_ack, andb_false_r. }
  rewrite Hl, bind_cons in Ha, Ha'. rewrite Eack in Ha'. unfold req_key at 1 in Ha. rewrite Hm, andb_true_r in Ha.
  destruct (is_sync m); (split; split; unfold coming; cbn [swap here there out inc]; rewrite ?E2; try done);
    try (unfold waiting; by rewrite E1); try (by rewrite E1); try (by rewrite E3).
  - rewrite <- Ha, bind_app. cbn. rewrite Ea1, app_nil_r, <- !app_assoc. cbn [app]. by rewrite <- !Permutation_middle.
  - rewrite bind_app. cbn. rewrite Ea2, !app_nil_r. unfold waiting. by rewrite E1.
  - apply Forall_app. split; [done|]. by constructor.
Qed.

(** Answers: into the queue. *)
Lemma serve_answer sids s m l :
  sys_ok sids s -> out s ≡ₚ m :: l -> is_ack m = true ->
  queues (there s) !! queue m = Some [] /\
  sys_ok sids (System (here s) (put_queues (<[queue m := [m]]> (queues (there s))) (there s)) l (inc s)).
Proof.
  intros [H H'] Hl Hm. assert (ack_key m = [(queue m, req_data m)]) as Eack by (unfold ack_key; by rewrite Hm).
  assert (req_key m = []) as Ereq by (unfold req_key; by rewrite Hm, andb_false_r).
  assert ((queue m, req_data m) ∈ inc (swap s) ≫= ack_key) as Hin
    by (cbn [swap inc]; rewrite Hl, bind_cons, Eack; by left).
  destruct (coming_waits sids (swap s) (queue m) (req_data m) H') as [q0 Hq0]; [unfold coming; rewrite !elem_of_app; by right; left|].
  pose proof (queue_empty sids (swap s) _ _ q0 H' Hin Hq0) as ->. split; [done|].
  destruct H as [Ha Hn Hq Hc Ho Hr], H' as [Ha' Hn' Hq' Hc' Ho' Hr']. unfold coming in Ha, Ha'.
  rewrite Hl in Ho. inversion_clear Ho as [|? ? Hsid Hol]. cbn [swap here there out inc] in *.
  rewrite Hl, bind_cons in Ha, Ha'. rewrite Ereq in Ha. rewrite Eack in Ha'.
  split; split; unfold coming; cbn [swap here there out inc put_queues queues callers]; try done.
  - rewrite queued_put by done. rewrite <- Ha'. apply Permutation_app_head. by rewrite <- Permutation_middle.
  - intros q Hqw. apply lookup_insert_is_Some'. right. by apply Hq'.
Qed.

Lemma serve_turn sids s sid :
  sys_ok sids s -> exists o, service_entry qcap respond sid s = Ret o /\ forall s', o = Some s' -> sys_ok sids s'.
Proof.
  intros Hs. unfold service_entry. destruct (take_first sid (out s)) as [[m l]|] eqn:E; [|by exists None].
  apply take_first_spec in E as [Hl Hsid]. pose proof (sd_out sids s (proj1 Hs)) as Ho. rewrite Hl in Ho. inversion_clear Ho as [|? ? Hm _].
  assert (registered (there s) = sids) as Er by (apply (sd_reg sids (swap s) (proj2 Hs))).
  rewrite decide_True by (rewrite Er; congruence). destruct (is_ack m) eqn:Ea.
  - destruct (serve_answer sids s m l Hs Hl Ea) as [Hq Hs']. rewrite Hq, decide_True by (cbn; lia). eexists. split; [done|].
    by intros ? [= <-].
  - eexists. split; [done|]. intros ? [= <-]. by apply serve_request.
Qed.

Lemma act_ok sids s a : sys_ok sids s -> exists o, act_here qcap respond a s = Ret o /\ forall s', o = Some s' -> sys_ok sids s'.
Proof.
  intros H. destruct a as [k qn|k|sid]; cbn [act_here].
  - eexists. split; [done|]. intros s' E. by eapply send_ok.
  - by apply wait_turn.
  - by apply serve_turn.
Qed.

Lemma swap_ok sids s : sys_ok sids s -> sys_ok sids (swap s).
Proof. intros [H H']. split; [done|]. by destruct s. Qed.

Lemma act_on_ok sids s b a : sys_ok sids s -> exists o, act_on qcap respond b a s = Ret o /\ forall s', o = Some s' -> sys_ok sids s'.
Proof.
  intros H. unfold act_on. destruct b; [|by apply act_ok]. destruct (act_ok sids (swap s) a (swap_ok sids s H)) as (o & -> & Ho).
  eexists. split; [done|]. destruct o as [s'|]; [|done]. intros ? [= <-]. by apply swap_ok, Ho.
Qed.

Lemma runs_ok sids n s0 s : sys_ok sids s0 -> runs qcap respond n s0 s -> sys_ok sids s.
Proof.
  intros H Hr. induction Hr as [|n b a s1 s2 s3 _ IH E]; [done|]. destruct (act_on_ok sids s2 b a (IH H)) as (o & E' & Ho).
  rewrite E' in E. injection E as ->. by apply Ho.
Qed.

(** ** The calls of a thread *)

Definition history (c : caller) : list message :=
  ((fun e => e.1.1) <$> returns c) ++ match waits c with Some (_, m) => [m] | None => [] end ++ calls c.

Definition histories (s : system) : list (list message) * list (list message) :=
  (history <$> callers (here s), history <$> callers (there s)).

Lemma history_insert (l : list caller) k c c' : l !! k = Some c -> history c' = history c -> history <$> <[k := c']> l = history <$> l.
Proof. intros Hk E. rewrite list_fmap_insert, E. apply list_insert_id. by rewrite list_lookup_fmap, Hk. Qed.

Lemma act_history a s s' : act_here qcap respond a s = Ret (Some s') -> histories s' = histories s.
Proof.
  unfold histories. destruct a as [k qn|k|sid]; cbn [act_here].
  - intros [= E]. unfold message_send in E. destruct (callers (here s) !! k) as [[[|m l] [?|] rs]|] eqn:Hk; try done.
    assert (forall ret d, history (Caller l None (rs ++ [(m, ret, d)])) = history (Caller (m :: l) None rs)) as Hret
      by (intros ret d; unfold history; cbn; rewrite fmap_app; by norm_app).
    destruct (is_sync m); [destruct qn as [q|]; [destruct (queues (here s) !! q); [done|]|]|]; try destruct (bool_decide _); injection E as <-;
      cbn [here there put_caller put_queues callers return_ returns]; (rewrite (history_insert _ _ _ _ Hk); [done|]); try apply Hret; done.
  - unfold message_wait. destruct (callers (here s) !! k) as [[l [[q m]|] rs]|] eqn:Hk; try done.
    destruct (queues (here s) !! q) as [[|r rest]|]; try done. destruct (decide _); [|done]. intros [= <-].
    cbn [here there put_caller put_queues callers]. rewrite (history_insert _ _ _ _ Hk); [done|]. unfold history. cbn. rewrite fmap_app. by norm_app.
  - unfold service_entry. destruct (take_first sid (out s)) as [[m l]|]; [|done]. destruct (decide _); [|by intros [= <-]].
    destruct (is_ack m); [|by intros [= <-]]. destruct (queues (there s) !! queue m); [|done]. by intros [= <-].
Qed.

Lemma act_on_history b a s s' : act_on qcap respond b a s = Ret (Some s') -> histories s' = histories s.
Proof.
  unfold act_on. destruct b; [|apply act_history]. destruct (act_here qcap respond a (swap s)) as [[s1|]|] eqn:E; try done.
  intros [= <-]. apply act_history in E. unfold histories in *. cbn [swap here there] in *. congruence.
Qed.

(** ** Turns left *)

Definition core_left (x : core) : nat := sum_list_with (fun c => 4 * length (calls c))%nat (callers x) + length (queued (queues x)).
Definition link_left (l : list message) : nat := sum_list_with (fun m => if is_ack m then 2 else 3)%nat l.
Definition turns_left (s : system) : nat := core_left (here s) + core_left (there s) + link_left (out s) + link_left (inc s).

Lemma link_left_app l k : link_left (l ++ k) = (link_left l + link_left k)%nat.
Proof. unfold link_left. apply sum_list_with_app. Qed.

Lemma calls_insert (l : list caller) k c c' : l !! k = Some c ->
  (sum_list_with (fun c => 4 * length (calls c)) (<[k := c']> l) + 4 * length (calls c) =
   sum_list_with (fun c => 4 * length (calls c)) l + 4 * length (calls c'))%nat.
Proof.
  revert k. induction l as [|x l IH]; intros [|k] E; try done.
  - injection E as ->. change (<[0%nat := c']> (c :: l)) with (c' :: l). cbn [sum_list_with]. lia.
  - specialize (IH k E). change (<[S k := c']> (x :: l)) with (x :: <[k := c']> l). cbn [sum_list_with]. lia.
Qed.

Lemma link_left_first m l l' : l ≡ₚ m :: l' -> link_left l = ((if is_ack m then 2 else 3) + link_left l')%nat.
Proof. intros H. unfold link_left. by rewrite H. Qed.

(** A queue with one message more. *)
Lemma queued_len_put (qs : gmap Z (list message)) q l l' : qs !! q = Some l -> (length l' <= length l + 1)%nat ->
  (length (queued (<[q := l']> qs)) <= length (queued qs) + 1)%nat.
Proof.
  intros Hq Hl. pose proof (Permutation_length (queued_delete qs q l Hq)) as E.
  pose proof (Permutation_length (queued_delete (<[q := l']> qs) q l' (lookup_insert_eq _ _ _))) as E'.
  rewrite delete_insert_eq in E'. rewrite length_app in E, E'. unfold queue_key at 2 in E. unfold queue_key at 2 in E'.
  rewrite length_fmap in E, E'. cbn [snd] in E, E'. lia.
Qed.

Lemma act_less a s s' : act_here qcap respond a s = Ret (Some s') -> (turns_left s' < turns_left s)%nat.
Proof.
  unfold turns_left, core_left. destruct a as [k qn|k|sid]; cbn [act_here].
  - intros [= E]. unfold message_send in E. destruct (callers (here s) !! k) as [[[|m l] [?|] rs]|] eqn:Hk; try done.
    assert (forall m', link_left [m'] <= 3)%nat as Hone by (intros m'; unfold link_left; cbn; destruct (is_ack m'); lia).
    pose proof (fun c' => calls_insert _ k _ c' Hk) as Hc. cbn [calls length] in Hc.
    destruct (is_sync m); [destruct qn as [q|]; [destruct (queues (here s) !! q) eqn:Hq; [done|]|]|]; try destruct (bool_decide _); injection E as <-;
      cbn [here there out inc put_caller put_queues callers queues];
      try (pose proof (Permutation_length (queued_new _ _ Hq)) as ->); rewrite ?link_left_app;
      match goal with |- context[<[k := ?c']> _] => specialize (Hc c'); cbn [calls return_] in Hc end;
      try (match goal with |- context[link_left [?m']] => specialize (Hone m') end); lia.
  - unfold message_wait. destruct (callers (here s) !! k) as [[l [[q m]|] rs]|] eqn:Hk; try done.
    destruct (queues (here s) !! q) as [[|r rest]|] eqn:Hq; try done. destruct (decide _); [|done]. intros [= <-].
    cbn [here there out inc put_caller put_queues callers queues]. pose proof (Permutation_length (queued_delete _ _ _ Hq)) as Hl.
    rewrite length_app in Hl. cbn [queue_key snd fmap list_fmap length] in Hl.
    pose proof (calls_insert _ k _ (Caller l None (rs ++ [(m, 0, req_data r)])) Hk) as Hc. cbn [calls] in Hc. lia.
  - unfold service_entry. destruct (take_first sid (out s)) as [[m l]|] eqn:E; [|done]. apply take_first_spec in E as [Hl _].
    apply link_left_first in Hl. rewrite Hl. destruct (decide _); [|by intros [= <-]; cbn [here there out inc]; destruct (is_ack m); lia].
    destruct (is_ack m) eqn:Ea.
    + destruct (queues (there s) !! queue m) as [q0|] eqn:Hq; [|done]. intros [= <-]. cbn [here there out inc put_queues callers queues].
      pose proof (queued_len_put _ _ _ (if decide (length q0 < qcap)%nat then q0 ++ [m] else q0) Hq) as H.
      assert (length (if decide (length q0 < qcap)%nat then q0 ++ [m] else q0) <= length q0 + 1)%nat as Hlen
        by (destruct (decide _); rewrite ?length_app; cbn; lia). specialize (H Hlen). lia.
    + intros [= <-]. cbn [here there out inc callers queues].
      assert (link_left [arrived (ipc_message_ack m (answer respond m))] = 2%nat) as H2
        by (unfold link_left; cbn [sum_list_with]; by rewrite arrived_is_ack, ack_is_ack).
      destruct (is_sync m); rewrite ?link_left_app; lia.
Qed.

Lemma act_on_less b a s s' : act_on qcap respond b a s = Ret (Some s') -> (turns_left s' < turns_left s)%nat.
Proof.
  unfold act_on. destruct b; [|apply act_less]. destruct (act_here qcap respond a (swap s)) as [[s1|]|] eqn:E; try done.
  intros [= <-]. apply act_less in E. unfold turns_left in *. cbn [swap here there out inc] in *. lia.
Qed.

(** ** No call waits for ever *)

Definition goes_on (s : system) : Prop := exists b a s', act_on qcap respond b a s = Ret (Some s').
Definition idle (c : caller) : Prop := calls c = [] /\ waits c = None.
#[local] Instance idle_dec c : Decision (idle c).
Proof.
  unfold idle. apply and_dec; [apply _|]. destruct (waits c); [by right|by left].
Defined.

Lemma take_first_some m l : m ∈ l -> exists x l', take_first (service_id m) l = Some (x, l').
Proof.
  induction l as [|y l IH]; [by intros ?%elem_of_nil|]. intros [<-|H]%elem_of_cons; cbn [take_first].
  - rewrite decide_True by done. by eexists _, _.
  - destruct (decide _); [by eexists _, _|]. destruct (IH H) as (x & l' & ->). by eexists _, _.
Qed.

(** A message on its way can be served. *)
Lemma serve_goes sids s m : sys_ok sids s -> m ∈ out s -> exists a s', act_here qcap respond a s = Ret (Some s').
Proof.
  intros H Hm. exists (Serve (service_id m)). destruct (act_ok sids s (Serve (service_id m)) H) as (o & E & _).
  destruct o as [s'|]; [by exists s'|]. exfalso. revert E. cbn [act_here]. unfold service_entry.
  destruct (take_first_some m (out s) Hm) as (x & l & ->). destruct (decide _); [|done]. destruct (is_ack x); [|done].
  by destruct (queues (there s) !! queue x).
Qed.

(** A thread of this core that is not idle: it can call, or its answer is somewhere. *)
Lemma side_goes sids s k c : sys_ok sids s -> callers (here s) !! k = Some c -> ~ idle c -> goes_on s.
Proof.
  intros Hs Hk Hi. assert (forall a s', act_here qcap respond a s = Ret (Some s') -> goes_on s) as Hhere
    by (intros a s' E; by exists false, a, s').
  destruct c as [l [[q m]|] rs].
  - assert ((q, answer respond m) ∈ coming s) as Hin.
    { rewrite (sd_answers sids s (proj1 Hs)). apply list_elem_of_bind. exists (Caller l (Some (q, m)) rs).
      split; [by left|]. by eapply list_elem_of_lookup_2. }
    unfold coming in Hin. rewrite !elem_of_app in Hin. destruct Hin as [Hin|[Hin|Hin]]; apply list_elem_of_bind in Hin as (x & Hx & Hin).
    + destruct (serve_goes sids s x Hs Hin) as (a & s' & E). by apply (Hhere a s').
    + destruct (serve_goes sids (swap s) x (swap_ok sids s Hs) Hin) as (a & s' & E). exists true, a. unfold act_on. rewrite E. by eexists.
    + destruct x as [q' ms]. apply elem_of_map_to_list in Hin. apply list_elem_of_fmap in Hx as (r & [= -> _] & Hr). cbn in Hr.
      destruct (wait_turn sids s k Hs) as (o & E & _). destruct o as [s'|]; [by apply (Hhere (Wait k) s')|]. exfalso. revert E.
      unfold message_wait. rewrite Hk. cbn in Hin. rewrite Hin. destruct ms; [by apply elem_of_nil in Hr|]. by destruct (decide _).
  - destruct l as [|m l]; [by destruct Hi|]. set (q := fresh (dom (queues (here s)))).
    assert (queues (here s) !! q = None) as Hq by (apply not_elem_of_dom, is_fresh).
    destruct (message_send k (Some q) s) as [s'|] eqn:E; [apply (Hhere (Send k (Some q)) s'); cbn [act_here]; by rewrite E|].
    exfalso. revert E. unfold message_send. rewrite Hk, Hq. destruct (is_sync m), (bool_decide _); done.
Qed.

Lemma goes_or_idle sids s : sys_ok sids s -> goes_on s \/ (Forall idle (callers (here s)) /\ Forall idle (callers (there s))).
Proof.
  intros Hs. assert (forall s, sys_ok sids s -> goes_on s \/ Forall idle (callers (here s))) as Hside.
  { intros t Ht. destruct (decide (Forall idle (callers (here t)))) as [|Hn]; [by right|]. left.
    apply not_Forall_Exists, list.Exists_exists in Hn; [|apply _]. destruct Hn as (c & (k & Hk)%list_elem_of_lookup & Hi).
    by apply (side_goes sids t k c). }
  destruct (Hside s Hs) as [H|H]; [by left|]. destruct (Hside (swap s) (swap_ok sids s Hs)) as [(b & a & s' & E)|H']; [|by right].
  left. exists (negb b), a. revert E. unfold act_on. destruct b; cbn [negb]; intros E.
  - destruct s as [x y o i]. unfold swap in E. cbn in E. destruct (act_here qcap respond a (System x y o i)) as [[s1|]|]; try done. by exists s1.
  - rewrite E. by eexists.
Qed.

End Proofs.

(** ** From the start *)

Definition start_core (sids : list Z) (ls : list (list message)) : core := Core ((fun l => Caller l None []) <$> ls) ∅ sids [].
Definition sync_start (sids : list Z) (ca cb : list (list message)) : system :=
  System (start_core sids ca) (start_core sids cb) [] [].

Lemma start_side respond sids ca cb : Forall (Forall call_ok) ca -> side_ok respond sids (sync_start sids ca cb).
Proof.
  intros Ha. assert (waiting respond (start_core sids ca) = []) as E
    by (unfold waiting, start_core; cbn; clear Ha; induction ca as [|l ca IH]; [done|]; by rewrite fmap_cons, bind_cons, IH).
  unfold sync_start. split; cbn [here out]; try done; rewrite ?E; try done.
  - by rewrite NoDup_nil || constructor.
  - by intros q ?%elem_of_nil.
  - cbn. apply Forall_fmap. eapply list.Forall_impl; [exact Ha|]. intros l Hl. by split_and!.
Qed.

Lemma runs_left qcap respond n s0 s : (0 < qcap)%nat ->
  runs qcap respond n s0 s -> (n + turns_left s <= turns_left s0)%nat /\ histories s = histories s0.
Proof.
  intros Hq. induction 1 as [|n b a s1 s2 s3 _ [IH IHh] E]; [split; [lia|done]|]. pose proof (act_on_less qcap Hq respond b a s2 s3 E).
  pose proof (act_on_history qcap respond b a s2 s3 E). split; [lia|congruence].
Qed.

(** The calls of a core's threads so far: each is one of those to be made, in order,
    and has returned what it may. *)
Definition returned (respond : Z -> Z -> list Z -> Z -> list Z) (sids : list Z) (ls : list (list message)) (x : core) : Prop :=
  Forall2 (fun l c => ((fun e => e.1.1) <$> returns c) `prefix_of` l /\ Forall (good_return respond sids) (returns c)) ls (callers x).

(** All calls have returned. *)
Definition all_returned (ls : list (list message)) (x : core) : Prop :=
  Forall2 (fun l c => ((fun e => e.1.1) <$> returns c) = l) ls (callers x).

Lemma history_start (ls : list (list message)) sids : history <$> callers (start_core sids ls) = ls.
Proof. cbn. rewrite <- list_fmap_compose. apply list_fmap_id. Qed.

Lemma returned_ok respond sids ls x :
  history <$> callers x = ls -> Forall (caller_ok respond sids) (callers x) -> returned respond sids ls x.
Proof.
  intros <- H. unfold returned. induction H as [|c l (_ & Hr & _) _ IH]; [constructor|]. rewrite fmap_cons. constructor; [|done].
  split; [|done]. unfold history. by eexists.
Qed.

Lemma all_returned_ok ls x : history <$> callers x = ls -> Forall idle (callers x) -> all_returned ls x.
Proof.
  intros <- H. unfold all_returned. induction H as [|c l [H1 H2] _ IH]; [constructor|]. rewrite fmap_cons. constructor; [|done].
  unfold history. by rewrite H1, H2, app_nil_r.
Qed.


(** Two threads of one core and one of the other call service 7, which answers with
    as many bytes as asked for. *)
Definition echo (sid cmd : Z) (d : list Z) (n : Z) : list Z := replicate (Z.to_nat n) cmd.
Definition ca_demo : list (list message) := [[Message 1 7 1 [5; 6] 0 2]; [Message 1 7 2 [] 0 1; Message 0 7 3 [9] 0 0]].
Definition cb_demo : list (list message) := [[Message 1 7 4 [] 0 3]].

Fixpoint acts (l : list (bool * act)) (s : system) : outcome system :=
  match l with
  | [] => Ret s
  | (b, a) :: l => match act_on 2 echo b a s with Ret (Some s) => acts l s | Ret None => acts l s | Crash => Crash end
  end.

Lemma runs_cons qcap respond n b a s1 s2 s3 :
  act_on qcap respond b a s1 = Ret (Some s2) -> runs qcap respond n s2 s3 -> runs qcap respond (S n) s1 s3.
Proof.
  intros E H. induction H as [s|n b' a' s2 s3 s4 H IH E']; [econstructor; [constructor|done]|]. econstructor; [by apply IH|done].
Qed.

Lemma acts_runs l : forall s s', acts l s = Ret s' -> exists n, runs 2 echo n s s'.
Proof.
  induction l as [|[b a] l IH]; intros s s' E; cbn [acts] in E.
  - injection E as <-. exists 0%nat. constructor.
  - destruct (act_on 2 echo b a s) as [[s1|]|] eqn:Ea; [|by apply IH|done]. destruct (IH _ _ E) as (n & Hn).
    exists (S n). by eapply runs_cons.
Qed.

Definition demo_acts : list (bool * act) :=
  [(false, Send 0 (Some 100)); (false, Send 1 (Some 200)); (true, Send 0 (Some 100)); (false, Serve 7); (false, Serve 7);
   (true, Serve 7); (true, Serve 7); (true, Serve 7); (false, Serve 7); (false, Wait 1); (false, Wait 0); (true, Wait 0);
   (false, Send 1 None); (false, Serve 7)].

