(* ===== verification/KBits.v ===== *)
(** * Status codes and bit operations of the kernel

    The codes of [components/rhino/include/k_err.h]; counting zeros and the bitmap of ready
    priorities of [k_bitmap.h]. *)

From S2P Require Import Prelude.

Definition RHINO_SUCCESS : Z := 0.
Definition RHINO_SYS_FATAL_ERR : Z := 1.
Definition RHINO_RUNNING : Z := 3.
Definition RHINO_STOPPED : Z := 4.
Definition RHINO_INV_PARAM : Z := 5.
Definition RHINO_NULL_PTR : Z := 6.
Definition RHINO_INV_ALIGN : Z := 7.
Definition RHINO_KOBJ_TYPE_ERR : Z := 8.
Definition RHINO_KOBJ_DEL_ERR : Z := 9.
Definition RHINO_MM_POOL_SIZE_ERR : Z := 100.
Definition RHINO_MM_FREE_ADDR_ERR : Z := 102.
Definition RHINO_NO_MEM : Z := 105.
Definition RHINO_SCHED_DISABLE : Z := 200.
Definition RHINO_SCHED_ALREADY_ENABLED : Z := 201.
Definition RHINO_SCHED_LOCK_COUNT_OVF : Z := 202.
Definition RHINO_TASK_INV_STACK_SIZE : Z := 300.
Definition RHINO_TASK_NOT_SUSPENDED : Z := 301.
Definition RHINO_TASK_DEL_NOT_ALLOWED : Z := 302.
Definition RHINO_TASK_SUSPEND_NOT_ALLOWED : Z := 303.
Definition RHINO_TASK_CANCELED : Z := 304.
Definition RHINO_SUSPENDED_COUNT_OVF : Z := 305.
Definition RHINO_BEYOND_MAX_PRI : Z := 306.
Definition RHINO_PRI_CHG_NOT_ALLOWED : Z := 307.
Definition RHINO_INV_TASK_STATE : Z := 308.
Definition RHINO_IDLE_TASK_EXIST : Z := 309.
Definition RHINO_NO_PEND_WAIT : Z := 400.
Definition RHINO_BLK_ABORT : Z := 401.
Definition RHINO_BLK_TIMEOUT : Z := 402.
Definition RHINO_BLK_DEL : Z := 403.
Definition RHINO_BLK_INV_STATE : Z := 404.
Definition RHINO_SEM_OVF : Z := 800.
Definition RHINO_SEM_TASK_WAITING : Z := 801.
Definition RHINO_MUTEX_NOT_RELEASED_BY_OWNER : Z := 900.
Definition RHINO_MUTEX_OWNER_NESTED : Z := 901.
Definition RHINO_MUTEX_NESTED_OVF : Z := 902.
Definition RHINO_NOT_CALLED_BY_INTRPT : Z := 1000.

(** ** Bits of the kernel, [components/rhino/include/k_bitmap.h]

    Counting zeros by halving, and the bitmap of ready priorities, in which bit [nr]
    counts from the most significant bit of the first word. *)

(** ** Counting zeros *)

(** One test of [krhino_clz32]: the mask covers the upper [k] bits. *)
Definition clz_step (k : Z) (s : Z * Z) : Z * Z :=
  let '(x, n) := s in
  if decide (Z.land x (2 ^ 32 - 2 ^ (32 - k)) = 0) then (u32 (Z.shiftl x k), n + k) else (x, n).

Definition krhino_clz32 (x : Z) : Z :=
  if decide (x = 0) then 32
  else
    let '(x, n) := clz_step 2 (clz_step 4 (clz_step 8 (clz_step 16 (x, 0)))) in
    if decide (Z.land x (2 ^ 31) = 0) then n + 1 else n.

(** One test of [krhino_ctz32]: the mask covers the lower [k] bits. *)
Definition ctz_step (k : Z) (s : Z * Z) : Z * Z :=
  let '(x, n) := s in
  if decide (Z.land x (2 ^ k - 1) = 0) then (Z.shiftr x k, n + k) else (x, n).

Definition krhino_ctz32 (x : Z) : Z :=
  if decide (x = 0) then 32
  else
    let '(x, n) := ctz_step 2 (ctz_step 4 (ctz_step 8 (ctz_step 16 (x, 0)))) in
    if decide (Z.land x 1 = 0) then n + 1 else n.

(** ** The bitmap *)

Definition BITMAP_MASK (nr : Z) : Z := 2 ^ (31 - nr mod 32).

Definition krhino_bitmap_set (bitmap : list Z) (nr : Z) : outcome (list Z) :=
  w ← mem_get bitmap (nr / 32);
  Ret (<[Z.to_nat (nr / 32) := Z.lor w (BITMAP_MASK nr)]> bitmap).

Definition krhino_bitmap_clear (bitmap : list Z) (nr : Z) : outcome (list Z) :=
  w ← mem_get bitmap (nr / 32);
  Ret (<[Z.to_nat (nr / 32) := Z.land w (Z.lxor (2 ^ 32 - 1) (BITMAP_MASK nr))]> bitmap).

(** The loop over the words; it runs off the end of an empty bitmap. *)
Fixpoint krhino_bitmap_first (bitmap : list Z) : outcome Z :=
  match bitmap with
  | [] => Crash
  | w :: l => if decide (w = 0) then nr ← krhino_bitmap_first l; Ret (32 + nr) else Ret (krhino_clz32 w)
  end.

(** ** Counting zeros against the binary logarithm *)

Lemma land_high x k : 0 <= k <= 32 -> 0 <= x < 2 ^ 32 -> Z.land x (2 ^ 32 - 2 ^ k) = 0 <-> x < 2 ^ k.
Proof.
  intros Hk Hx. assert (Z.land x (2 ^ 32 - 2 ^ k) = 2 ^ k * (x / 2 ^ k)) as ->.
  { replace (2 ^ 32 - 2 ^ k) with (Z.shiftl (Z.ones (32 - k)) k).
    2: { rewrite Z.shiftl_mul_pow2, Z.ones_equiv by lia. rewrite <- Z.sub_1_r, Z.mul_sub_distr_r, <- Z.pow_add_r by lia.
         rewrite Z.mul_1_l. do 2 f_equal. lia. }
    rewrite <- (Z.mul_comm (x / 2 ^ k)), <- Z.shiftr_div_pow2, <- Z.shiftl_mul_pow2 by lia.
    apply Z.bits_inj'. intros i Hi. rewrite Z.land_spec. destruct (decide (i < k)) as [Hlt|Hge].
    - rewrite !Z.shiftl_spec_low by lia. by rewrite andb_false_r.
    - rewrite !Z.shiftl_spec, Z.shiftr_spec by lia. replace (i - k + k) with i by lia.
      destruct (decide (i < 32)) as [H32|H32].
      + rewrite Z.ones_spec_low by lia. apply andb_true_r.
      + rewrite Z.ones_spec_high, andb_false_r by lia. symmetry. destruct (decide (x = 0)) as [->|]; [apply Z.bits_0|].
        apply Z.bits_above_log2; [lia|]. apply Z.log2_lt_pow2; [lia|]. pose proof (Z.pow_le_mono_r 2 32 i). lia. }
  pose proof (Z.pow_pos_nonneg 2 k). pose proof (Z.div_mod x (2 ^ k)). pose proof (Z.mod_pos_bound x (2 ^ k)).
  split; [nia|]. intros. rewrite Z.div_small by lia. lia.
Qed.

(** A test shifts the highest bit to the top [k] and counts the shift. *)
Lemma clz_step_ok k x n :
  0 < k <= 16 -> 2 ^ (32 - 2 * k) <= x < 2 ^ 32 ->
  exists x' n', clz_step k (x, n) = (x', n') /\ 2 ^ (32 - k) <= x' < 2 ^ 32 /\ Z.log2 x' - n' = Z.log2 x - n.
Proof.
  intros Hk Hx. pose proof (Z.pow_pos_nonneg 2 (32 - 2 * k) ltac:(lia) ltac:(lia)). unfold clz_step.
  pose proof (land_high x (32 - k) ltac:(lia) ltac:(lia)) as Hl. destruct (decide _) as [E|E].
  - apply Hl in E. rewrite Z.shiftl_mul_pow2 by lia. assert (x * 2 ^ k < 2 ^ 32) as Hlt.
    { replace 32 with ((32 - k) + k) by lia. rewrite Z.pow_add_r by lia. apply Z.mul_lt_mono_pos_r; lia. }
    rewrite u32_id by (split; [apply Z.mul_nonneg_nonneg|]; lia). eexists _, _. split; [done|]. split.
    + split; [|done]. replace (32 - k) with ((32 - 2 * k) + k) by lia. rewrite Z.pow_add_r by lia. apply Z.mul_le_mono_nonneg_r; lia.
    + rewrite Z.log2_mul_pow2 by lia. lia.
  - exists x, n. split; [done|]. split; [|done]. split; [|lia]. destruct (decide (2 ^ (32 - k) <= x)); [done|]. destruct E. apply Hl. lia.
Qed.

Lemma clz32_log2 x : 0 < x < 2 ^ 32 -> krhino_clz32 x = 31 - Z.log2 x.
Proof.
  intros Hx. unfold krhino_clz32. rewrite decide_False by lia.
  destruct (clz_step_ok 16 x 0) as (x1 & n1 & -> & H1 & E1); [lia|cbn; lia|].
  destruct (clz_step_ok 8 x1 n1) as (x2 & n2 & -> & H2 & E2); [lia|done|].
  destruct (clz_step_ok 4 x2 n2) as (x3 & n3 & -> & H3 & E3); [lia|done|].
  destruct (clz_step_ok 2 x3 n3) as (x4 & n4 & -> & H4 & E4); [lia|done|].
  change (2 ^ 31) with (2 ^ 32 - 2 ^ 31). pose proof (land_high x4 31 ltac:(lia) ltac:(lia)) as Hl.
  assert (30 <= Z.log2 x4 <= 31) as Hlog by (split; [apply Z.log2_le_pow2; lia|pose proof (Z.log2_lt_pow2 x4 32); lia]).
  destruct (decide _) as [E|E].
  - apply Hl in E. apply Z.log2_lt_pow2 in E; lia.
  - assert (31 <= Z.log2 x4) by (apply Z.log2_le_pow2; lia). lia.
Qed.

(** ** Trailing zeros *)

Lemma ctz_step_ok k x n :
  0 < k -> 0 <= n -> x mod 2 ^ (2 * k) <> 0 ->
  exists x' n', ctz_step k (x, n) = (x', n') /\ 0 <= n' /\ x' mod 2 ^ k <> 0 /\ x' * 2 ^ n' = x * 2 ^ n.
Proof.
  intros Hk Hn Hx. unfold ctz_step. pose proof (Z.pow_pos_nonneg 2 k ltac:(lia) ltac:(lia)).
  replace (2 ^ k - 1) with (Z.ones k) by (rewrite Z.ones_equiv; lia). rewrite Z.land_ones by lia.
  destruct (decide _) as [E|E]; [|by exists x, n].
  rewrite Z.shiftr_div_pow2 by lia. eexists _, _. split; [done|]. split; [lia|].
  pose proof (Z.div_mod x (2 ^ k) ltac:(lia)) as Hd. rewrite E, Z.add_0_r in Hd. split.
  - intros E2. apply Hx. rewrite Hd. replace (2 * k) with (k + k) by lia. rewrite Z.pow_add_r, Z.mul_mod_distr_l by lia. by rewrite E2, Z.mul_0_r.
  - rewrite Z.pow_add_r by lia. rewrite Hd at 2. lia.
Qed.

(** The result is the number of the lowest bit that is set. *)
Lemma ctz32_lowest x :
  0 < x < 2 ^ 32 -> 0 <= krhino_ctz32 x /\ Z.testbit x (krhino_ctz32 x) = true /\ forall i, 0 <= i < krhino_ctz32 x -> Z.testbit x i = false.
Proof.
  intros Hx. assert (exists k, 0 <= krhino_ctz32 x /\ x = (2 * k + 1) * 2 ^ krhino_ctz32 x) as (k & Hn & E).
  { unfold krhino_ctz32. rewrite decide_False by lia.
    destruct (ctz_step_ok 16 x 0) as (x1 & n1 & -> & H1 & N1 & E1); [lia|lia|change (2 * 16) with 32; rewrite Z.mod_small; lia|].
    destruct (ctz_step_ok 8 x1 n1) as (x2 & n2 & -> & H2 & N2 & E2); [lia|lia|done|].
    destruct (ctz_step_ok 4 x2 n2) as (x3 & n3 & -> & H3 & N3 & E3); [lia|lia|done|].
    destruct (ctz_step_ok 2 x3 n3) as (x4 & n4 & -> & H4 & N4 & E4); [lia|lia|done|].
    rewrite Z.mul_1_r in E1. assert (Z.land x4 1 = x4 mod 2) as -> by (apply (Z.land_ones x4 1); lia). change (2 ^ 2) with 4 in N4.
    destruct (decide _) as [E|E].
    - exists (x4 / 4). split; [lia|]. rewrite Z.pow_add_r by lia. change (2 ^ 1) with 2.
      assert (x4 = 2 * (2 * (x4 / 4) + 1)) as Ex by (Z.div_mod_to_equations; lia). rewrite Ex in E4 at 1. lia.
    - exists (x4 / 2). split; [lia|]. assert (x4 = 2 * (x4 / 2) + 1) as Ex by (Z.div_mod_to_equations; lia). rewrite Ex in E4 at 1. lia. }
  split; [done|]. rewrite E at 1. rewrite <- Z.shiftl_mul_pow2 by lia. split.
  - rewrite Z.shiftl_spec, Z.sub_diag by lia. apply Z.testbit_odd_0.
  - intros i Hi. rewrite E, <- Z.shiftl_mul_pow2 by lia. apply Z.shiftl_spec_low. lia.
Qed.

(** ** The bitmap as a set of numbers *)

Definition words_ok (bm : list Z) : Prop := Forall (fun w => 0 <= w < 2 ^ 32) bm.

Definition bit_at (bm : list Z) (nr : Z) : bool :=
  match bm !! Z.to_nat (nr / 32) with Some w => Z.testbit w (31 - nr mod 32) | None => false end.

Lemma mem_get_lookup l i w : 0 <= i -> l !! Z.to_nat i = Some w -> mem_get l i = Ret w.
Proof. intros Hi H. unfold mem_get. by rewrite decide_True, H by done. Qed.

Lemma mask_bit nr i : 0 <= nr -> 0 <= i -> Z.testbit (BITMAP_MASK nr) i = bool_decide (i = 31 - nr mod 32).
Proof.
  intros Hn Hi. unfold BITMAP_MASK. pose proof (Z.mod_pos_bound nr 32 ltac:(lia)). rewrite Z.pow2_bits_eqb by lia.
  destruct (Z.eqb_spec (31 - nr mod 32) i) as [E|E]; [by rewrite bool_decide_true|by rewrite bool_decide_false].
Qed.

Lemma word_bits w : 0 <= w -> (forall i, 32 <= i -> Z.testbit w i = false) -> w < 2 ^ 32.
Proof.
  intros Hw H. destruct (decide (w = 0)) as [->|Hnz]; [lia|]. apply Z.log2_lt_pow2; [lia|]. destruct (decide (Z.log2 w < 32)); [done|].
  pose proof (Z.bit_log2 w ltac:(lia)). rewrite H in * by lia. done.
Qed.

Lemma bits_high w i : 0 <= w < 2 ^ 32 -> 32 <= i -> Z.testbit w i = false.
Proof.
  intros Hw Hi. destruct (decide (w = 0)) as [->|Hnz]; [apply Z.bits_0|]. apply Z.bits_above_log2; [lia|]. pose proof (proj1 (Z.log2_lt_pow2 w 32 ltac:(lia)) ltac:(lia)). lia.
Qed.

Lemma same_bit n m : 0 <= n -> 0 <= m -> n / 32 = m / 32 -> 31 - n mod 32 = 31 - m mod 32 -> n = m.
Proof. intros. Z.div_mod_to_equations. lia. Qed.

(** A word replaced, the number [nr] changed to [v]. *)
Lemma bit_update bm nr w w' v :
  words_ok bm -> 0 <= nr -> bm !! Z.to_nat (nr / 32) = Some w -> 0 <= w' ->
  (forall i, 0 <= i -> Z.testbit w' i = if bool_decide (i = 31 - nr mod 32) then v else Z.testbit w i) ->
  words_ok (<[Z.to_nat (nr / 32) := w']> bm) /\
  forall n, 0 <= n -> bit_at (<[Z.to_nat (nr / 32) := w']> bm) n = if decide (n = nr) then v else bit_at bm n.
Proof.
  intros Hok Hn Hw Hw' Hb. pose proof (Z.mod_pos_bound nr 32 ltac:(lia)). pose proof (Z.div_pos nr 32 Hn ltac:(lia)). split.
  - apply Forall_insert; [done|]. split; [done|]. apply word_bits; [done|]. intros i Hi. rewrite Hb by lia. rewrite bool_decide_false by lia.
    apply bits_high; [|done]. by apply (Forall_lookup_1 _ _ _ _ Hok Hw).
  - intros n Hn'. pose proof (Z.mod_pos_bound n 32 ltac:(lia)). pose proof (Z.div_pos n 32 Hn' ltac:(lia)). unfold bit_at.
    destruct (decide (n / 32 = nr / 32)) as [E|E].
    + rewrite E, list_lookup_insert_eq by (by apply lookup_lt_Some in Hw). rewrite Hb by lia. rewrite Hw. case_decide as En; [subst; by rewrite bool_decide_true|].
      rewrite bool_decide_false; [done|]. intros ?. apply En. by apply same_bit.
    + rewrite list_lookup_insert_ne by lia. rewrite decide_False by (by intros ->). done.
Qed.

Lemma bitmap_set_ok bm nr :
  words_ok bm -> 0 <= nr < 32 * zlen bm ->
  exists bm', krhino_bitmap_set bm nr = Ret bm' /\ length bm' = length bm /\ words_ok bm' /\
    forall n, 0 <= n -> bit_at bm' n = if decide (n = nr) then true else bit_at bm n.
Proof.
  intros Hok Hn. unfold krhino_bitmap_set. pose proof (Z.div_pos nr 32 ltac:(lia) ltac:(lia)). unfold zlen in Hn.
  destruct (lookup_lt_is_Some_2 bm (Z.to_nat (nr / 32))) as [w Hw]; [Z.div_mod_to_equations; lia|].
  rewrite (mem_get_lookup bm (nr / 32) w) by done. cbn [mbind outcome_bind]. eexists. split; [done|]. rewrite length_insert. split; [done|].
  assert (0 <= w < 2 ^ 32) as Hwr by (by apply (Forall_lookup_1 _ _ _ _ Hok Hw)). pose proof (Z.mod_pos_bound nr 32 ltac:(lia)).
  apply (bit_update bm nr w); [done|lia|done| |].
  - apply Z.lor_nonneg. split; [lia|]. apply Z.pow_nonneg. lia.
  - intros i Hi. rewrite Z.lor_spec, mask_bit by lia. destruct (bool_decide (i = 31 - nr mod 32)); [apply orb_true_r|apply orb_false_r].
Qed.

Lemma bitmap_clear_ok bm nr :
  words_ok bm -> 0 <= nr < 32 * zlen bm ->
  exists bm', krhino_bitmap_clear bm nr = Ret bm' /\ length bm' = length bm /\ words_ok bm' /\
    forall n, 0 <= n -> bit_at bm' n = if decide (n = nr) then false else bit_at bm n.
Proof.
  intros Hok Hn. unfold krhino_bitmap_clear. pose proof (Z.div_pos nr 32 ltac:(lia) ltac:(lia)). unfold zlen in Hn.
  destruct (lookup_lt_is_Some_2 bm (Z.to_nat (nr / 32))) as [w Hw]; [Z.div_mod_to_equations; lia|].
  rewrite (mem_get_lookup bm (nr / 32) w) by done. cbn [mbind outcome_bind]. eexists. split; [done|]. rewrite length_insert. split; [done|].
  assert (0 <= w < 2 ^ 32) as Hwr by (by apply (Forall_lookup_1 _ _ _ _ Hok Hw)). pose proof (Z.mod_pos_bound nr 32 ltac:(lia)).
  apply (bit_update bm nr w); [done|lia|done| |].
  - apply Z.land_nonneg. left. lia.
  - intros i Hi. rewrite Z.land_spec, Z.lxor_spec, mask_bit by lia. change (2 ^ 32 - 1) with (Z.ones 32). destruct (decide (i < 32)) as [Hlt|Hge].
    + rewrite Z.ones_spec_low by lia. destruct (bool_decide (i = 31 - nr mod 32)); [apply andb_false_r|apply andb_true_r].
    + rewrite bool_decide_false by lia. by rewrite (bits_high w i) by lia.
Qed.

(** The first number in the bitmap, when it has one. *)
Lemma bitmap_first_ok bm n0 :
  words_ok bm -> 0 <= n0 -> bit_at bm n0 = true ->
  exists r, krhino_bitmap_first bm = Ret r /\ 0 <= r <= n0 /\ bit_at bm r = true /\ forall n, 0 <= n < r -> bit_at bm n = false.
Proof.
  revert n0. induction bm as [|w bm IH]; intros n0 Hok Hn H0; [done|]. apply list.Forall_cons in Hok as [Hw Hok]. cbn [krhino_bitmap_first].
  assert (forall n, 0 <= n < 32 -> bit_at (w :: bm) n = Z.testbit w (31 - n)) as Hlow.
  { intros n Hr. unfold bit_at. rewrite Z.div_small, Z.mod_small by lia. done. }
  assert (forall n, 0 <= n -> bit_at (w :: bm) (32 + n) = bit_at bm n) as Hhigh.
  { intros n Hr. unfold bit_at. pose proof (Z.div_pos n 32 Hr ltac:(lia)). replace (Z.to_nat ((32 + n) / 32)) with (S (Z.to_nat (n / 32))) by (Z.div_mod_to_equations; lia).
    replace ((32 + n) mod 32) with (n mod 32) by (Z.div_mod_to_equations; lia). done. }
  case_decide as E.
  - assert (forall n, 0 <= n < 32 -> bit_at (w :: bm) n = false) as Hz by (intros n Hr; rewrite Hlow by done; rewrite E; apply Z.bits_0).
    destruct (decide (n0 < 32)) as [Hlt|Hge]; [by rewrite Hz in H0 by lia|]. destruct (IH (n0 - 32) Hok ltac:(lia)) as (r & -> & Hr & Hb & Hmin).
    { rewrite <- H0, <- Hhigh by lia. f_equal. lia. }
    cbn [mbind outcome_bind]. eexists. split; [done|]. split; [lia|]. split; [by rewrite Hhigh by lia|]. intros n Hlt.
    destruct (decide (n < 32)); [by apply Hz; lia|]. replace n with (32 + (n - 32)) by lia. rewrite Hhigh by lia. apply Hmin. lia.
  - rewrite clz32_log2 by lia. eexists. split; [done|]. assert (0 <= Z.log2 w < 32) as Hl by (split; [apply Z.log2_nonneg|apply Z.log2_lt_pow2; lia]).
    assert (forall n, 0 <= n < 31 - Z.log2 w -> bit_at (w :: bm) n = false) as Hmin by (intros n Hr; rewrite Hlow by lia; apply Z.bits_above_log2; lia).
    assert (bit_at (w :: bm) (31 - Z.log2 w) = true) as Hb by (rewrite Hlow by lia; replace (31 - (31 - Z.log2 w)) with (Z.log2 w) by lia; apply Z.bit_log2; lia).
    split; [|done]. split; [lia|]. destruct (decide (31 - Z.log2 w <= n0)); [done|]. rewrite Hmin in H0 by lia. done.
Qed.

(** C38. Counting zeros by halving gives what the definitions say: the leading zeros are
    31 less the binary logarithm, the trailing zeros the number of the lowest bit that is
    set; and the search in a bitmap gives the least number in it. *)
Theorem bits_reference x bm n0 :
  0 < x < 2 ^ 32 -> words_ok bm -> 0 <= n0 -> bit_at bm n0 = true ->
  krhino_clz32 x = 31 - Z.log2 x /\
  (Z.testbit x (krhino_ctz32 x) = true /\ forall i, 0 <= i < krhino_ctz32 x -> Z.testbit x i = false) /\
  exists r, krhino_bitmap_first bm = Ret r /\ bit_at bm r = true /\ forall n, 0 <= n < r -> bit_at bm n = false.
Proof.
  intros Hx Hok Hn Hb. split; [by apply clz32_log2|]. split; [by apply ctz32_lowest|].
  destruct (bitmap_first_ok bm n0 Hok Hn Hb) as (r & E & _ & H). by exists r.
Qed.

Lemma bits_reference_witness : krhino_clz32 40 = 26 /\ krhino_ctz32 40 = 3 /\ krhino_bitmap_first [0; 40] = Ret 58.
Proof.
  destruct (bits_reference 40 [0; 40] 58) as (E & _); [lia|repeat constructor; lia|lia|done|].
  split; [rewrite E; reflexivity|]. split; reflexivity.
Defined.
