(* ===== verification/KHeap.v ===== *)
(** * The heap of the kernel, [components/rhino/k_mm.c]

    Blocks with headers at both sides, free lists by size level and a bitmap of the
    levels that have one.  Memory is a map from word addresses to words; reading or
    writing an address that is not there is a [Crash].  The build is the product's
    ([RHINO_CONFIG_MM_QUICK] is 0); the owner and dye fields of the debug build only
    make the header longer, so its size is a parameter.  The pool of small blocks is in
    [KPool]. *)

From stdpp Require Import gmap.
From S2P Require Import Prelude KBits.

(** ** Constants *)

Definition MM_MIN_BIT : Z := 6.
Definition MM_MAX_BIT : Z := 28.
Definition MM_MIN_SIZE : Z := 32.
Definition MM_BIT_LEVEL : Z := 24.

Definition MM_BUFF_FREE : Z := 1.
Definition MM_BUFF_PREV_FREE : Z := 2.

Definition MM_ALIGN_UP (a : Z) : Z := Z.land (u32 (a + 7)) (Z.lnot 7).
Definition MM_ALIGN_DOWN (a : Z) : Z := Z.land a (Z.lnot 7).
Definition MM_BUF_SIZE (buf_size : Z) : Z := Z.land buf_size (Z.lnot 7).

(** ** State *)

Record k_mm_head := MmHead {
  regioninfo : Z;
  used_size : Z;
  maxused_size : Z;
  free_size : Z;
  alloc_times : list Z;
  free_bitmap : Z;
  freelist : list Z
}.

Record heap := Heap { words : gmap Z Z; mmhead : k_mm_head }.

Definition ld (a : Z) (h : heap) : outcome Z :=
  match words h !! a with Some v => Ret v | None => Crash end.
Definition st (a v : Z) (h : heap) : outcome heap :=
  match words h !! a with Some _ => Ret (Heap (<[a := v]> (words h)) (mmhead h)) | None => Crash end.

Definition get_list (level : Z) (h : heap) : outcome Z := mem_get (freelist (mmhead h)) level.
Definition set_list (level b bitmap : Z) (h : heap) : heap :=
  let m := mmhead h in
  Heap (words h) (MmHead (regioninfo m) (used_size m) (maxused_size m) (free_size m) (alloc_times m) bitmap
                    (<[Z.to_nat level := b]> (freelist m))).

(** [size_to_level]. *)
Definition size_to_level (size : Z) : Z :=
  if decide (2 ^ 31 <= size) then -1
  else
    let cnt := 32 - krhino_clz32 size in
    if decide (cnt < MM_MIN_BIT) then 0 else if decide (MM_MAX_BIT < cnt) then -1 else cnt - MM_MIN_BIT.

Definition no_level (level : Z) : Prop := level < 0 \/ MM_BIT_LEVEL <= level.
#[export] Instance no_level_dec level : Decision (no_level level).
Proof. unfold no_level. apply _. Defined.

(** ** Statistics *)

Definition addsize (size req_size : Z) (h : heap) : heap :=
  let m := mmhead h in
  let used := used_size m + size in
  let level := size_to_level req_size in
  Heap (words h) (MmHead (regioninfo m) used (Z.max (maxused_size m) used)
    (if decide (size < free_size m) then free_size m - size else 0)
    (if decide (0 < req_size /\ level <> -1) then alter (Z.add 1) (Z.to_nat level) (alloc_times m) else alloc_times m)
    (free_bitmap m) (freelist m)).

Definition removesize (size : Z) (h : heap) : heap :=
  let m := mmhead h in
  Heap (words h) (MmHead (regioninfo m) (if decide (size < used_size m) then used_size m - size else 0)
    (maxused_size m) (free_size m + size) (alloc_times m) (free_bitmap m) (freelist m)).

Section Heap.
(** [MMLIST_HEAD_SIZE]: 8 bytes, more in a debug build. *)
Context (HEAD : Z).

(** Fields of a [k_mm_list_t]; [free_ptr] overlays the start of [buffer]. *)
Definition f_prev (b : Z) : Z := b + HEAD - 8.
Definition f_size (b : Z) : Z := b + HEAD - 4.
Definition f_fprev (b : Z) : Z := b + HEAD.
Definition f_fnext (b : Z) : Z := b + HEAD + 4.
Definition next_blk (b buf_size : Z) : Z := b + HEAD + MM_BUF_SIZE buf_size.

(** ** Free lists *)

Definition k_mm_freelist_insert (b : Z) (h : heap) : outcome heap :=
  size ← ld (f_size b) h;
  let level := size_to_level (MM_BUF_SIZE size) in
  if decide (no_level level) then Ret h
  else
    h ← st (f_fprev b) 0 h;
    f ← get_list level h;
    h ← st (f_fnext b) f h;
    h ← (if decide (f <> 0) then st (f_fprev f) b h else Ret h);
    Ret (set_list level b (Z.lor (free_bitmap (mmhead h)) (Z.shiftl 1 level)) h).

Definition k_mm_freelist_delete (b : Z) (h : heap) : outcome heap :=
  size ← ld (f_size b) h;
  let level := size_to_level (MM_BUF_SIZE size) in
  if decide (no_level level) then Ret h
  else
    n ← ld (f_fnext b) h;
    p ← ld (f_fprev b) h;
    h ← (if decide (n <> 0) then st (f_fprev n) p h else Ret h);
    h ← (if decide (p <> 0) then st (f_fnext p) n h else Ret h);
    f ← get_list level h;
    let bm := free_bitmap (mmhead h) in
    let h := if decide (f = b)
             then set_list level n (if decide (n = 0) then Z.land bm (Z.lnot (Z.shiftl 1 level)) else bm) h
             else h in
    h ← st (f_fprev b) 0 h;
    st (f_fnext b) 0 h.

Definition find_up_level (level : Z) (h : heap) : outcome Z :=
  let bitmap := Z.land (free_bitmap (mmhead h)) (u32 (Z.shiftl (2 ^ 32 - 1) (level + 1))) in
  let level := krhino_ctz32 bitmap in
  if decide (level < MM_BIT_LEVEL) then get_list level h else Ret 0.

(** The walk over one list for a buffer of [size] bytes; 0 is NULL. *)
Fixpoint find_fit (fuel : nat) (b size : Z) (h : heap) : outcome Z :=
  if decide (b = 0) then Ret 0
  else
    match fuel with
    | O => Crash
    | S fuel =>
        s ← ld (f_size b) h;
        if decide (size <= MM_BUF_SIZE s) then Ret b else b ← ld (f_fnext b) h; find_fit fuel b size h
    end.

(** ** Allocating *)

Definition request (size : Z) : Z :=
  let size := MM_ALIGN_UP size in if decide (size < MM_MIN_SIZE) then MM_MIN_SIZE else size.

(** Splitting block [b], which keeps [size] bytes, in front of [next_b]. *)
Definition split_blk (b size bs next_b : Z) (h : heap) : outcome heap :=
  let left_size := MM_BUF_SIZE bs - size - HEAD in
  h ← st (f_size b) (Z.lor size (Z.land bs 2)) h;
  let new_b := b + HEAD + size in
  h ← st (f_prev new_b) b h;
  h ← st (f_size new_b) (Z.lor left_size MM_BUFF_FREE) h;
  st (f_prev next_b) new_b h.

(** The choice of a free block for [size] bytes. *)
Definition find_block (level size : Z) (h : heap) : outcome Z :=
  f ← get_list level h;
  get_b ← find_fit (base.size (words h)) f size h;
  if decide (get_b = 0) then find_up_level level h else Ret get_b.

(** [k_mm_alloc] without the pool: the address of the buffer, or 0. *)
Definition heap_alloc (size : Z) (h : heap) : outcome (Z * heap) :=
  if decide (size = 0) then Ret (0, h)
  else
    let req_size := size in
    let size := request size in
    let level := size_to_level size in
    if decide (level = -1) then Ret (0, h)
    else
      get_b ← find_block level size h;
      if decide (get_b = 0) then Ret (0, h)
      else
        h ← k_mm_freelist_delete get_b h;
        bs ← ld (f_size get_b) h;
        let next_b := next_blk get_b bs in
        h ← (if decide (size + HEAD + MM_MIN_SIZE <= MM_BUF_SIZE bs) then
               h ← split_blk get_b size bs next_b h;
               k_mm_freelist_insert (get_b + HEAD + size) h
             else
               ns ← ld (f_size next_b) h;
               st (f_size next_b) (Z.land ns (Z.lnot MM_BUFF_PREV_FREE)) h);
        bs ← ld (f_size get_b) h;
        let bs := Z.land bs (Z.lnot MM_BUFF_FREE) in
        h ← st (f_size get_b) bs h;
        Ret (get_b + HEAD, addsize (MM_BUF_SIZE bs + HEAD) req_size h).

(** ** Freeing *)

(** [k_mm_free] without the pool. *)
Definition heap_free (ptr : Z) (h : heap) : outcome heap :=
  if decide (ptr = 0) then Ret h
  else
    let free_b := ptr - HEAD in
    bs ← ld (f_size free_b) h;
    let bs := Z.lor bs MM_BUFF_FREE in
    h ← st (f_size free_b) bs h;
    let h := removesize (MM_BUF_SIZE bs + HEAD) h in
    let next_b := next_blk free_b bs in
    ns ← ld (f_size next_b) h;
    h ← (if decide (Z.land ns MM_BUFF_FREE <> 0) then
           h ← k_mm_freelist_delete next_b h;
           st (f_size free_b) (bs + (MM_BUF_SIZE ns + HEAD)) h
         else Ret h);
    bs ← ld (f_size free_b) h;
    '(free_b, h) ← (if decide (Z.land bs MM_BUFF_PREV_FREE <> 0) then
                      prev_b ← ld (f_prev free_b) h;
                      h ← k_mm_freelist_delete prev_b h;
                      ps ← ld (f_size prev_b) h;
                      h ← st (f_size prev_b) (ps + (MM_BUF_SIZE bs + HEAD)) h;
                      Ret (prev_b, h)
                    else Ret (free_b, h));
    h ← k_mm_freelist_insert free_b h;
    bs ← ld (f_size free_b) h;
    let next_b := next_blk free_b bs in
    h ← st (f_prev next_b) free_b h;
    ns ← ld (f_size next_b) h;
    st (f_size next_b) (Z.lor ns MM_BUFF_PREV_FREE) h.

(** ** Resizing *)

(** [memcpy] of whole words. *)
Fixpoint copy_words (n : nat) (dst src : Z) (h : heap) : outcome heap :=
  match n with
  | O => Ret h
  | S n => v ← ld src h; h ← st dst v h; copy_words n (dst + 4) (src + 4) h
  end.

(** The block keeps [size] bytes of the [old] it has up to [next_b]; the rest becomes a
    free block if it is large enough. *)
Definition resplit (b size old next_b : Z) (h : heap) : outcome heap :=
  if decide (size + HEAD + MM_MIN_SIZE <= old) then
    bs ← ld (f_size b) h;
    h ← st (f_size b) (Z.lor size (Z.land bs 2)) h;
    let split_b := b + HEAD + size in
    h ← st (f_prev split_b) b h;
    h ← st (f_size split_b) (Z.lor (old - size - HEAD) MM_BUFF_FREE) h;
    h ← st (f_prev next_b) split_b h;
    ns ← ld (f_size next_b) h;
    h ← st (f_size next_b) (Z.lor ns MM_BUFF_PREV_FREE) h;
    k_mm_freelist_insert split_b h
  else Ret h.

(** The block can shrink. *)
Definition realloc_shrink (this_b next_b new_size req_size : Z) (h : heap) : outcome (Z * heap) :=
  bs ← ld (f_size this_b) h;
  let h := removesize (MM_BUF_SIZE bs + HEAD) h in
  ns ← ld (f_size next_b) h;
  '(old_size, next_b, h) ← (if decide (Z.land ns MM_BUFF_FREE <> 0) then
      h ← k_mm_freelist_delete next_b h;
      Ret (MM_BUF_SIZE bs + (MM_BUF_SIZE ns + HEAD), next_blk next_b ns, h)
    else Ret (MM_BUF_SIZE bs, next_b, h));
  h ← resplit this_b new_size old_size next_b h;
  bs ← ld (f_size this_b) h;
  Ret (this_b + HEAD, addsize (MM_BUF_SIZE bs + HEAD) req_size h).

(** The free block behind it is taken in. *)
Definition realloc_enlarge (this_b next_b new_size req_size : Z) (h : heap) : outcome (Z * heap) :=
  bs ← ld (f_size this_b) h;
  ns ← ld (f_size next_b) h;
  let h := removesize (MM_BUF_SIZE bs + HEAD) h in
  h ← k_mm_freelist_delete next_b h;
  let bs := bs + (MM_BUF_SIZE ns + HEAD) in
  h ← st (f_size this_b) bs h;
  let next_b := next_blk this_b bs in
  h ← st (f_prev next_b) this_b h;
  ns ← ld (f_size next_b) h;
  h ← st (f_size next_b) (Z.land ns (Z.lnot MM_BUFF_PREV_FREE)) h;
  h ← resplit this_b new_size (MM_BUF_SIZE bs) next_b h;
  bs ← ld (f_size this_b) h;
  Ret (this_b + HEAD, addsize (MM_BUF_SIZE bs + HEAD) req_size h).

(** The part of [k_mm_realloc] that keeps the block where it is; 0 when that fails. *)
Definition realloc_in_place (oldmem new_size : Z) (h : heap) : outcome (Z * heap) :=
  let req_size := new_size in
  let this_b := oldmem - HEAD in
  bs ← ld (f_size this_b) h;
  let old_size := MM_BUF_SIZE bs in
  let next_b := next_blk this_b bs in
  let new_size := request new_size in
  ns ← ld (f_size next_b) h;
  if decide (new_size <= old_size) then realloc_shrink this_b next_b new_size req_size h
  else if decide (Z.land ns MM_BUFF_FREE <> 0 /\ new_size <= old_size + (MM_BUF_SIZE ns + HEAD))
  then realloc_enlarge this_b next_b new_size req_size h
  else Ret (0, h).

(** The number of bytes that move. *)
Definition copy_size (oldmem new_size : Z) (h : heap) : outcome Z :=
  bs ← ld (f_size (oldmem - HEAD)) h;
  Ret (if decide (new_size < MM_BUF_SIZE bs) then new_size else MM_BUF_SIZE bs).

(** [k_mm_realloc] without the pool. *)
Definition heap_realloc (oldmem new_size : Z) (h : heap) : outcome (Z * heap) :=
  if decide (oldmem = 0) then
    if decide (0 < new_size) then heap_alloc new_size h else Ret (0, h)
  else if decide (new_size = 0) then h ← heap_free oldmem h; Ret (0, h)
  else
    '(ptr_aux, h) ← realloc_in_place oldmem new_size h;
    if decide (ptr_aux <> 0) then Ret (ptr_aux, h)
    else
      let new_size := request new_size in
      '(ptr_aux, h) ← heap_alloc new_size h;
      if decide (ptr_aux = 0) then Ret (0, h)
      else
        cpsize ← copy_size oldmem new_size h;
        h ← copy_words (Z.to_nat (cpsize / 4)) ptr_aux oldmem h;
        h ← heap_free oldmem h;
        Ret (ptr_aux, h).

(** ** The largest free block *)

Fixpoint max_walk (fuel : nat) (b best : Z) (h : heap) : outcome Z :=
  if decide (b = 0) then Ret best
  else
    match fuel with
    | O => Crash
    | S fuel =>
        s ← ld (f_size b) h;
        b ← ld (f_fnext b) h;
        max_walk fuel b (if decide (best < MM_BUF_SIZE s) then MM_BUF_SIZE s else best) h
    end.

Definition krhino_mm_max_free_size_get (h : heap) : outcome Z :=
  let index := krhino_clz32 (free_bitmap (mmhead h)) in
  if decide (31 < index) then Ret 0
  else b ← get_list (31 - index) h; max_walk (base.size (words h)) b 0 h.

(** ** Regions *)

(** [memset(addr, 0, 4 * n)]. *)
Fixpoint clear_words (n : nat) (a : Z) (h : heap) : outcome heap :=
  match n with O => Ret h | S n => h ← st a 0 h; clear_words n (a + 4) h end.

(** [init_mm_region]: the block of the region info, the block for use, and the last
    one, which stops merging.  The address of the first. *)
Definition init_mm_region (addr len : Z) (h : heap) : outcome heap :=
  h ← st (f_prev addr) 0 h;
  h ← st (f_size addr) 8 h;
  let lastblk := addr + len - HEAD in
  let midblk := next_blk addr 8 in
  h ← st (f_size midblk) (lastblk - (midblk + HEAD)) h;
  h ← st (f_fprev midblk) 0 h;
  h ← st (f_fnext midblk) 0 h;
  h ← st (f_prev lastblk) midblk h;
  h ← st (f_size lastblk) MM_BUFF_PREV_FREE h;
  h ← st (addr + HEAD + 4) 0 h;
  st (addr + HEAD) lastblk h.

Definition with_head (m : k_mm_head) (h : heap) : heap := Heap (words h) m.

(** [krhino_add_mm_region]. *)
Definition krhino_add_mm_region (addr len : Z) (h : heap) : outcome (Z * heap) :=
  let orig_addr := addr in
  let addr := MM_ALIGN_UP addr in
  let len := MM_ALIGN_DOWN (u32 (len - (addr - orig_addr))) in
  if decide (len = 0 \/ len < 8 + HEAD * 3 + MM_MIN_SIZE) then Ret (RHINO_MM_POOL_SIZE_ERR, h)
  else
    h ← clear_words (Z.to_nat (len / 4)) addr h;
    h ← init_mm_region addr len h;
    let nextblk := next_blk addr 8 in
    h ← st (addr + HEAD + 4) (regioninfo (mmhead h)) h;
    bs ← ld (f_size nextblk) h;
    let m := mmhead h in
    let h := with_head (MmHead (addr + HEAD) (used_size m + (MM_BUF_SIZE bs + HEAD)) (maxused_size m) (free_size m)
                          (alloc_times m) (free_bitmap m) (freelist m)) h in
    h ← heap_free (nextblk + HEAD) h;
    Ret (RHINO_SUCCESS, h).

(** [krhino_init_mm_head] up to the pool; [head_len] is the size of a [k_mm_head]. *)
Definition krhino_init_mm_head (head_len pool_len addr len : Z) (h : heap) : outcome (Z * heap) :=
  let orig_addr := addr in
  let addr := MM_ALIGN_UP addr in
  let orig_len := len - (addr - orig_addr) in
  let len := MM_ALIGN_DOWN (u32 (len - (addr - orig_addr))) in
  h ← clear_words (Z.to_nat (orig_len / 4)) addr h;
  if decide (len = 0 \/ len < 1024 + pool_len \/ 2 ^ MM_MAX_BIT < len) then Ret (RHINO_MM_POOL_SIZE_ERR, h)
  else
    let h := with_head (MmHead 0 0 0 0 (replicate (Z.to_nat MM_BIT_LEVEL) 0) 0 (replicate (Z.to_nat MM_BIT_LEVEL) 0)) h in
    let first := addr + MM_ALIGN_UP head_len in
    h ← init_mm_region first (MM_ALIGN_DOWN (len - head_len)) h;
    let nextblk := next_blk first 8 in
    h ← heap_free (nextblk + HEAD) h;
    bs ← ld (f_size nextblk) h;
    let m := mmhead h in
    let used := len - MM_BUF_SIZE bs in
    Ret (RHINO_SUCCESS, with_head (MmHead (first + HEAD) used used (MM_BUF_SIZE bs) (alloc_times m) (free_bitmap m) (freelist m)) h).

End Heap.
