(* ===== verification/KHeapLists.v ===== *)
(** * The heap's free lists

    The free blocks of a size level form a doubly linked list through the start of
    their buffers; the bitmap says which levels have one.  Inserting and deleting change
    the links of free blocks and nothing else. *)

From stdpp Require Import gmap.
From S2P Require Import Prelude KBits KHeap.

(** ** Levels *)

Lemma buf_size_div z : 0 <= z -> MM_BUF_SIZE z = 8 * (z / 8).
Proof.
  intros. unfold MM_BUF_SIZE. change 7 with (Z.ones 3). rewrite <- Z.ldiff_land, Z.ldiff_ones_r by lia.
  rewrite Z.shiftr_div_pow2, Z.shiftl_mul_pow2 by lia. change (2 ^ 3) with 8. lia.
Qed.

Lemma buf_size_flags s fl : 0 <= s -> s mod 8 = 0 -> 0 <= fl < 8 -> MM_BUF_SIZE (s + fl) = s.
Proof. intros. rewrite buf_size_div by lia. Z.div_mod_to_equations. lia. Qed.

(** The level of a size that a block can have. *)
Definition level (s : Z) : Z := Z.log2 s - 5.

Lemma size_level s : 32 <= s < 2 ^ 28 -> size_to_level s = level s /\ 0 <= level s < 23.
Proof.
  intros Hs. assert (5 <= Z.log2 s < 28) by (split; [apply Z.log2_le_pow2; lia|apply Z.log2_lt_pow2; lia]).
  unfold size_to_level, level, MM_MIN_BIT, MM_MAX_BIT. rewrite decide_False by lia. rewrite clz32_log2 by lia.
  rewrite !decide_False by lia. lia.
Qed.

Lemma level_mono s t : s <= t -> level s <= level t.
Proof. intros. unfold level. pose proof (Z.log2_le_mono s t). lia. Qed.

(** ** Chains *)

Definition hdo (L : list Z) (n : Z) : Z := match L with [] => n | a :: _ => a end.
Fixpoint lasto (p : Z) (L : list Z) : Z := match L with [] => p | a :: L => lasto a L end.

Section Lists.
Context (HEAD : Z) (Hhead : 8 <= HEAD) (Hhead8 : HEAD mod 8 = 0).

Abbreviation f_size := (f_size HEAD).
Abbreviation f_prev := (f_prev HEAD).
Abbreviation f_fprev := (f_fprev HEAD).
Abbreviation f_fnext := (f_fnext HEAD).

(** The blocks [L] are linked, with [p] before the first and [n] behind the last. *)
Fixpoint dls (m : gmap Z Z) (p : Z) (L : list Z) (n : Z) : Prop :=
  match L with
  | [] => True
  | a :: L => m !! f_fprev a = Some p /\ m !! f_fnext a = Some (hdo L n) /\ dls m a L n
  end.

Lemma dls_app m L1 L2 n : forall p,
  dls m p (L1 ++ L2) n <-> dls m p L1 (hdo L2 n) /\ dls m (lasto p L1) L2 n.
Proof.
  induction L1 as [|a L1 IH]; intros p; cbn [app dls lasto]; [tauto|]. rewrite IH.
  assert (hdo (L1 ++ L2) n = hdo L1 (hdo L2 n)) as -> by (by destruct L1). tauto.
Qed.

Lemma dls_ext m m' L n : forall p,
  (forall a, a ∈ L -> m' !! f_fprev a = m !! f_fprev a /\ m' !! f_fnext a = m !! f_fnext a) -> dls m p L n -> dls m' p L n.
Proof.
  induction L as [|a L IH]; intros p H; [done|]. cbn [dls]. intros (H1 & H2 & H3).
  destruct (H a) as [E1 E2]; [by left|]. rewrite E1, E2. split_and!; try done. apply IH; [|done]. intros b Hb. apply H. by right.
Qed.

(** Blocks lie at multiples of eight, so their link fields differ. *)
Definition at8 (a : Z) : Prop := a mod 8 = 0.

Lemma at8_in L a : Forall at8 L -> a ∈ L -> at8 a.
Proof. intros H Ha. exact (proj1 (list.Forall_forall _ _) H a Ha). Qed.

Lemma link_ne a b : at8 a -> at8 b -> f_fprev a <> f_fnext b.
Proof. unfold at8, KHeap.f_fprev, KHeap.f_fnext. intros ? ? E. assert (a = b + 4) as -> by lia. Z.div_mod_to_equations. lia. Qed.

(** A new block before the first. *)
Lemma dls_head m p q L n :
  NoDup L -> Forall at8 L -> dls m p L n ->
  dls (match L with [] => m | a :: _ => <[f_fprev a := q]> m end) q L n.
Proof.
  destruct L as [|a L]; [done|]. cbn [dls]. intros [Hni _]%list.NoDup_cons [Ha HL]%list.Forall_cons (H1 & H2 & H3).
  split_and!.
  - apply lookup_insert_eq.
  - rewrite lookup_insert_ne; [done|]. by apply link_ne.
  - eapply dls_ext; [|done]. intros b Hb. rewrite !lookup_insert_ne; [done| |].
    + apply link_ne; [done|]. by apply (at8_in L).
    + unfold KHeap.f_fprev. intros E. assert (a = b) as -> by lia. done.
Qed.

(** A new block behind the last. *)
Lemma dls_last m L n n' : forall p,
  NoDup L -> Forall at8 L -> dls m p L n ->
  dls (match L with [] => m | _ => <[f_fnext (lasto 0 L) := n']> m end) p L n'.
Proof.
  induction L as [|a L IH]; intros p; [done|]. intros [Hni Hn]%list.NoDup_cons [Ha HL]%list.Forall_cons. cbn [dls]. intros (H1 & H2 & H3).
  destruct L as [|b L].
  - cbn [lasto hdo] in *. split_and!; [|apply lookup_insert_eq|done]. rewrite lookup_insert_ne; [done|]. intros E. by apply (link_ne a a).
  - assert (lasto 0 (a :: b :: L) ∈ b :: L) as Hin.
    { cbn [lasto]. clear. revert b. induction L as [|c L IH]; intros b; [by left|]. cbn [lasto]. right. apply IH. }
    specialize (IH a Hn HL H3). cbn [hdo] in *. assert (at8 (lasto 0 (a :: b :: L))) as H8 by (by apply (at8_in (b :: L))).
    split_and!; [| |exact IH].
    + rewrite lookup_insert_ne; [done|]. intros E. symmetry in E. by apply (link_ne a (lasto 0 (a :: b :: L))) in E.
    + rewrite lookup_insert_ne; [done|]. unfold KHeap.f_fnext. intros E. apply Hni. by assert (a = lasto 0 (a :: b :: L)) as -> by lia.
Qed.

Lemma lasto_in p L : L <> [] -> lasto p L ∈ L.
Proof.
  destruct L as [|a L]; [done|]. intros _. cbn [lasto]. revert a. induction L as [|b L IH]; intros a; [by left|]. cbn [lasto]. right. apply IH.
Qed.

Lemma lasto_any p q L : L <> [] -> lasto p L = lasto q L.
Proof. by destruct L. Qed.

Lemma fprev_inj a b : f_fprev a = f_fprev b -> a = b.
Proof. unfold KHeap.f_fprev. lia. Qed.
Lemma fnext_inj a b : f_fnext a = f_fnext b -> a = b.
Proof. unfold KHeap.f_fnext. lia. Qed.

(** Taking a block out. *)
Definition unlink (m : gmap Z Z) (p b n : Z) : gmap Z Z :=
  let m := if decide (n <> 0) then <[f_fprev n := p]> m else m in
  let m := if decide (p <> 0) then <[f_fnext p := n]> m else m in
  <[f_fnext b := 0]> (<[f_fprev b := 0]> m).

Lemma unlink_other m p b n x :
  x <> f_fprev b -> x <> f_fnext b -> (n <> 0 -> x <> f_fprev n) -> (p <> 0 -> x <> f_fnext p) -> unlink m p b n !! x = m !! x.
Proof.
  intros H1 H2 H3 H4. unfold unlink. rewrite !lookup_insert_ne by done.
  destruct (decide (p <> 0)) as [Hp|_]; [rewrite lookup_insert_ne by (by apply not_eq_sym, H4)|];
    (destruct (decide (n <> 0)) as [Hn|_]; [rewrite lookup_insert_ne by (by apply not_eq_sym, H3)|]); done.
Qed.

Lemma dls_unlink m L1 b L2 :
  NoDup (L1 ++ b :: L2) -> Forall (fun a => at8 a /\ 0 < a) (L1 ++ b :: L2) -> dls m 0 (L1 ++ b :: L2) 0 ->
  m !! f_fnext b = Some (hdo L2 0) /\ m !! f_fprev b = Some (lasto 0 L1) /\
  dls (unlink m (lasto 0 L1) b (hdo L2 0)) 0 (L1 ++ L2) 0.
Proof.
  intros Hn Hf Hd. apply dls_app in Hd as [Hd1 Hd2]. cbn [dls hdo] in Hd1, Hd2. destruct Hd2 as (Hp & Hnx & Hd2).
  split; [done|]. split; [done|].
  apply list.NoDup_app in Hn as (Hn1 & Hn12 & [Hb2 Hn2]%list.NoDup_cons).
  apply Forall_app in Hf as [Hf1 [[Hb8 Hb0] Hf2]%list.Forall_cons].
  assert (forall a, a ∈ L1 -> a <> b /\ a ∉ L2) as Hne1 by (intros a Ha; specialize (Hn12 a Ha); rewrite not_elem_of_cons in Hn12; done).
  assert (forall L, Forall (fun a => at8 a /\ 0 < a) L -> Forall at8 L /\ forall a, a ∈ L -> at8 a /\ 0 < a) as Hsplit.
  { intros L HL. split; [eapply list.Forall_impl; [exact HL|by intros ? []]|]. intros a Ha. exact (proj1 (list.Forall_forall _ _) HL a Ha). }
  destruct (Hsplit _ Hf1) as [H81 HL1], (Hsplit _ Hf2) as [H82 HL2].
  apply dls_app. split.
  - pose proof (dls_last m L1 b (hdo L2 0) 0 Hn1 H81 Hd1) as H. eapply dls_ext; [|exact H]. intros a Ha. destruct (HL1 a Ha) as [Ha8 Ha0].
    destruct (Hne1 a Ha) as [Hab Ha2]. destruct L1 as [|c L1]; [by apply elem_of_nil in Ha|]. pose proof (lasto_in 0 (c :: L1) ltac:(done)) as Hl.
    set (p := lasto 0 (c :: L1)) in *. destruct (HL1 p Hl) as [Hp8 Hp0].
    assert (hdo L2 0 <> 0 -> at8 (hdo L2 0) /\ a <> hdo L2 0) as Hh.
    { destruct L2 as [|d L2]; [done|]. intros _. cbn. split; [apply HL2; by left|]. intros ->. apply Ha2. by left. }
    split.
    + rewrite unlink_other; [|by intros E%fprev_inj|by apply link_ne|intros Hz E%fprev_inj; by apply Hh in Hz as [_ ?]|by intros _; apply link_ne].
      rewrite lookup_insert_ne; [done|]. by apply not_eq_sym, link_ne.
    + destruct (decide (a = p)) as [->|Hap].
      * unfold unlink. rewrite lookup_insert_ne by (by intros E%fnext_inj). rewrite lookup_insert_ne by (by apply link_ne). rewrite (decide_True (P := p <> 0)) by lia. by rewrite !lookup_insert_eq.
      * rewrite unlink_other; [|by apply not_eq_sym, link_ne|by intros E%fnext_inj|intros Hz; apply not_eq_sym, link_ne; [by apply Hh|done]|by intros _ E%fnext_inj].
        by rewrite lookup_insert_ne by (by intros E%fnext_inj).
  - pose proof (dls_head m b (lasto 0 L1) L2 0 Hn2 H82 Hd2) as H. eapply dls_ext; [|exact H]. intros a Ha. destruct (HL2 a Ha) as [Ha8 Ha0].
    assert (a <> b) as Hab by (intros ->; done).
    assert (lasto 0 L1 <> 0 -> at8 (lasto 0 L1) /\ a <> lasto 0 L1) as Hl.
    { intros Hz. assert (L1 <> []) as HL1ne by (intros ->; done). pose proof (lasto_in 0 L1 HL1ne) as Hin. split; [by apply HL1|].
      intros ->. by apply Hne1 in Hin as [_ ?]. }
    destruct L2 as [|d L2]; [by apply elem_of_nil in Ha|]. cbn [hdo]. assert (at8 d /\ 0 < d) as [Hd8 Hd0] by (apply HL2; by left). split.
    + destruct (decide (a = d)) as [->|Had].
      * unfold unlink. rewrite lookup_insert_ne by (by apply not_eq_sym, link_ne). rewrite lookup_insert_ne by (by intros E%fprev_inj). rewrite (decide_True (P := d <> 0)) by lia.
        destruct (decide (lasto 0 L1 <> 0)) as [Hz|_]; [rewrite lookup_insert_ne by (apply not_eq_sym, link_ne; [done|by apply Hl])|]; by rewrite !lookup_insert_eq.
      * rewrite unlink_other; [|by intros E%fprev_inj|by apply link_ne|by intros _ E%fprev_inj|intros Hz; apply link_ne; [done|by apply Hl]].
        by rewrite lookup_insert_ne by (by intros E%fprev_inj).
    + rewrite unlink_other; [|by apply not_eq_sym, link_ne|by intros E%fnext_inj|by intros _; apply not_eq_sym, link_ne|intros Hz E%fnext_inj; by apply Hl in Hz as [_ ?]].
      by rewrite lookup_insert_ne by (by apply link_ne).
Qed.

(** ** The bitmap *)

Lemma shift_bit l i : 0 <= l -> Z.testbit (Z.shiftl 1 l) i = bool_decide (i = l).
Proof.
  intros Hl. rewrite Z.shiftl_1_l. case_bool_decide as E; [subst; by apply Z.pow2_bits_true|]. by apply Z.pow2_bits_false, not_eq_sym.
Qed.

Lemma bitmap_range bm : (forall i, 24 <= i -> Z.testbit bm i = false) -> 0 <= bm -> bm < 2 ^ 24.
Proof.
  intros H H0. destruct (decide (bm = 0)) as [->|Hn]; [lia|]. apply Z.log2_lt_pow2; [lia|].
  destruct (decide (Z.log2 bm < 24)); [done|]. pose proof (Z.bit_log2 bm ltac:(lia)) as E. rewrite H in E by lia. done.
Qed.

(** ** The lists of a heap *)

(** [fs] are the free blocks with their sizes, [F] the lists. *)
Record lists_ok (fs : gmap Z Z) (F : list (list Z)) (h : heap) : Prop := ListsOk {
  lo_size : forall a s, fs !! a = Some s -> 0 < a /\ at8 a /\ 32 <= s < 2 ^ 28 /\ s mod 8 = 0;
  lo_word : forall a s, fs !! a = Some s -> exists fl, 0 <= fl < 8 /\ words h !! f_size a = Some (s + fl);
  lo_sep : forall a s b t, fs !! a = Some s -> fs !! b = Some t -> a < b -> a + HEAD + 32 <= b;
  lo_len : length F = 24%nat;
  lo_heads : freelist (mmhead h) = (fun L => hdo L 0) <$> F;
  lo_bm : 0 <= free_bitmap (mmhead h) < 2 ^ 24;
  lo_bits : forall l L, F !! l = Some L -> Z.testbit (free_bitmap (mmhead h)) (Z.of_nat l) = bool_decide (L <> []);
  lo_dls : forall l L, F !! l = Some L -> NoDup L /\ dls (words h) 0 L 0;
  lo_in : forall l L a, F !! l = Some L -> a ∈ L <-> exists s, fs !! a = Some s /\ level s = Z.of_nat l
}.

(** The link fields of the block [b] and of the free blocks. *)
Definition links (fs : gmap Z Z) (b x : Z) : Prop :=
  exists a, (a = b \/ is_Some (fs !! a)) /\ (x = f_fprev a \/ x = f_fnext a).

(** Nothing else changes, and no memory goes. *)
Record only (D : Z -> Prop) (h h' : heap) : Prop := Only {
  on_words : forall x, ~ D x -> words h' !! x = words h !! x;
  on_mem : forall x, is_Some (words h !! x) -> is_Some (words h' !! x);
  on_stats : regioninfo (mmhead h') = regioninfo (mmhead h) /\ used_size (mmhead h') = used_size (mmhead h) /\
    maxused_size (mmhead h') = maxused_size (mmhead h) /\ free_size (mmhead h') = free_size (mmhead h) /\
    alloc_times (mmhead h') = alloc_times (mmhead h)
}.

Lemma st_ok a v h : is_Some (words h !! a) -> st a v h = Ret (Heap (<[a := v]> (words h)) (mmhead h)).
Proof. intros [w E]. unfold st. by rewrite E. Qed.

Lemma ld_ok a v h : words h !! a = Some v -> ld a h = Ret v.
Proof. intros E. unfold ld. by rewrite E. Qed.

Lemma lists_at8 fs F h l L : lists_ok fs F h -> F !! l = Some L -> Forall (fun a => at8 a /\ 0 < a) L.
Proof.
  intros H E. apply list.Forall_forall. intros a Ha. apply (lo_in fs F h H l L a E) in Ha as (s & Hs & _).
  by destruct (lo_size fs F h H a s Hs) as (? & ? & _).
Qed.

(** A list in which a free block is. *)
Lemma list_of fs F h a s : lists_ok fs F h -> fs !! a = Some s -> exists L, F !! Z.to_nat (level s) = Some L /\ a ∈ L.
Proof.
  intros H Hs. destruct (lo_size fs F h H a s Hs) as (_ & _ & Hr & _). destruct (size_level s Hr) as [_ Hl].
  destruct (lookup_lt_is_Some_2 F (Z.to_nat (level s))) as [L HL]; [rewrite (lo_len fs F h H); lia|]. exists L. split; [done|].
  apply (lo_in fs F h H _ L a HL). exists s. split; [done|]. lia.
Qed.

(** The first block of a list. *)
Lemma get_list_ok fs F h l L : lists_ok fs F h -> F !! l = Some L -> get_list (Z.of_nat l) h = Ret (hdo L 0).
Proof.
  intros H HL. unfold get_list, mem_get. rewrite (lo_heads fs F h H), Nat2Z.id, list_lookup_fmap, HL. cbn.
  rewrite ?decide_True by (unfold zlen; rewrite ?length_fmap; apply lookup_lt_Some in HL; lia). done.
Qed.

(** ** Putting a block before a list *)

(** Memory after [b] was put before the list [L]. *)
Definition link_front (m : gmap Z Z) (b : Z) (L : list Z) : gmap Z Z :=
  let m := <[f_fnext b := hdo L 0]> (<[f_fprev b := 0]> m) in
  match L with [] => m | a :: _ => <[f_fprev a := b]> m end.

Lemma link_front_other m b L x :
  x <> f_fprev b -> x <> f_fnext b -> (forall a, a ∈ L -> x <> f_fprev a) -> link_front m b L !! x = m !! x.
Proof.
  intros H1 H2 H3. unfold link_front. destruct L as [|a L]; [by rewrite !lookup_insert_ne|].
  rewrite lookup_insert_ne by (apply not_eq_sym, H3; by left). by rewrite !lookup_insert_ne.
Qed.

Lemma dls_front m b L :
  b ∉ L -> NoDup L -> at8 b -> Forall (fun a => at8 a /\ 0 < a) L -> dls m 0 L 0 -> dls (link_front m b L) 0 (b :: L) 0.
Proof.
  intros Hb Hn Hb8 HL Hd. assert (Forall at8 L) as HL8 by (eapply list.Forall_impl; [exact HL|by intros ? []]).
  assert (dls (<[f_fnext b := hdo L 0]> (<[f_fprev b := 0]> m)) 0 L 0) as Hd1.
  { eapply dls_ext; [|exact Hd]. intros a Ha. assert (a <> b) as Hab by (by intros ->). pose proof (at8_in L a HL8 Ha) as Ha8. split.
    - rewrite lookup_insert_ne by (by apply not_eq_sym, link_ne). by rewrite lookup_insert_ne by (by intros E%fprev_inj).
    - rewrite lookup_insert_ne by (by intros E%fnext_inj). by rewrite lookup_insert_ne by (by apply link_ne). }
  apply (dls_head _ 0 b) in Hd1; [|done|done]. unfold link_front. split; [|split; [|by destruct L]].
  - destruct L as [|a L].
    + rewrite lookup_insert_ne by (by apply not_eq_sym, link_ne). apply lookup_insert_eq.
    + rewrite lookup_insert_ne by (intros E%fprev_inj; subst; apply Hb; by left).
      rewrite lookup_insert_ne by (by apply not_eq_sym, link_ne). apply lookup_insert_eq.
  - destruct L as [|a L]; [apply lookup_insert_eq|]. apply list.Forall_cons in HL8 as [Ha8 _].
    rewrite lookup_insert_ne by (by apply link_ne). apply lookup_insert_eq.
Qed.

Lemma link_front_some m b L x : is_Some (m !! x) -> is_Some (link_front m b L !! x).
Proof. intros H. unfold link_front. destruct L; repeat (apply lookup_insert_is_Some'; right); done. Qed.

(** ** Replacing one list *)

(** Free blocks, as far as their sizes and places go. *)
Definition blocks_of (fs : gmap Z Z) : Prop :=
  (forall a s, fs !! a = Some s -> 0 < a /\ at8 a /\ 32 <= s < 2 ^ 28 /\ s mod 8 = 0) /\
  (forall a s b t, fs !! a = Some s -> fs !! b = Some t -> a < b -> a + HEAD + 32 <= b).

(** A header word is not a link field. *)
Lemma header_kept fs a x : blocks_of fs -> is_Some (fs !! a) -> is_Some (fs !! x) -> f_size a <> f_fprev x /\ f_size a <> f_fnext x.
Proof.
  intros [Hs Hsep] [s Ha] [t Hx]. destruct (Hs a s Ha) as (_ & H8 & _), (Hs x t Hx) as (_ & H8' & _). unfold at8 in *.
  unfold KHeap.f_size, KHeap.f_fprev, KHeap.f_fnext. split; intros E; [Z.div_mod_to_equations; lia|].
  assert (x < a) by lia. pose proof (Hsep x t a s Hx Ha). lia.
Qed.

Lemma lists_blocks fs F h : lists_ok fs F h -> blocks_of fs.
Proof. intros H. split; [apply (lo_size fs F h H)|apply (lo_sep fs F h H)]. Qed.

(** Bit [l] of the bitmap, for the new list. *)
Definition bit_set (l : Z) (K : list Z) (bm bm' : Z) : Prop :=
  0 <= bm' /\ Z.testbit bm' l = bool_decide (K <> []) /\ forall i, i <> l -> Z.testbit bm' i = Z.testbit bm i.

Lemma relist fs fs' F h h' l L K :
  lists_ok fs F h -> blocks_of fs' -> F !! l = Some L ->
  (forall a s, fs' !! a = Some s -> exists fl, 0 <= fl < 8 /\ words h' !! f_size a = Some (s + fl)) ->
  freelist (mmhead h') = <[l := hdo K 0]> (freelist (mmhead h)) ->
  bit_set (Z.of_nat l) K (free_bitmap (mmhead h)) (free_bitmap (mmhead h')) ->
  NoDup K -> dls (words h') 0 K 0 ->
  (forall a s, fs !! a = Some s -> level s <> Z.of_nat l ->
     words h' !! f_fprev a = words h !! f_fprev a /\ words h' !! f_fnext a = words h !! f_fnext a) ->
  (forall a, a ∈ K <-> exists s, fs' !! a = Some s /\ level s = Z.of_nat l) ->
  (forall a s, level s <> Z.of_nat l -> fs' !! a = Some s <-> fs !! a = Some s) ->
  lists_ok fs' (<[l := K]> F) h'.
Proof.
  intros H [Hs Hsep] HL Hw Hf (Hb0 & Hbl & Hbo) Hn Hd Hoth HinK Hsame. pose proof (lookup_lt_Some _ _ _ HL) as Hlt.
  pose proof (lo_len fs F h H) as Hlen. split; try done.
  - by rewrite length_insert.
  - by rewrite Hf, (lo_heads fs F h H), list_fmap_insert.
  - split; [done|]. apply bitmap_range; [|done]. intros i Hi. rewrite Hbo by lia. pose proof (lo_bm fs F h H).
    destruct (decide (free_bitmap (mmhead h) = 0)) as [->|]; [apply Z.bits_0|]. apply Z.bits_above_log2; [lia|].
    enough (Z.log2 (free_bitmap (mmhead h)) < 24) by lia. apply Z.log2_lt_pow2; lia.
  - intros k M HM. destruct (decide (k = l)) as [->|Hk].
    + rewrite list_lookup_insert_eq in HM by done. by injection HM as <-.
    + rewrite list_lookup_insert_ne in HM by done. rewrite Hbo by lia. by apply (lo_bits fs F h H).
  - intros k M HM. destruct (decide (k = l)) as [->|Hk].
    + rewrite list_lookup_insert_eq in HM by done. by injection HM as <-.
    + rewrite list_lookup_insert_ne in HM by done. destruct (lo_dls fs F h H k M HM) as [HnM HdM]. split; [done|].
      eapply dls_ext; [|exact HdM]. intros a (s & Ha & El)%(lo_in fs F h H k M a HM). apply (Hoth a s Ha). lia.
  - intros k M a HM. destruct (decide (k = l)) as [->|Hk].
    + rewrite list_lookup_insert_eq in HM by done. by injection HM as <-.
    + rewrite list_lookup_insert_ne in HM by done. rewrite (lo_in fs F h H k M a HM).
      split; intros (s & Ha & El); exists s; (split; [apply Hsame; [lia|done]|done]).
Qed.

(** ** Inserting *)

Lemma blocks_insert fs b s :
  blocks_of fs -> 0 < b -> at8 b -> 32 <= s < 2 ^ 28 -> s mod 8 = 0 ->
  (forall a t, fs !! a = Some t -> a + HEAD + 32 <= b \/ b + HEAD + 32 <= a) -> blocks_of (<[b := s]> fs).
Proof.
  intros [Hs Hsep] Hb0 Hb8 Hr Hr8 Hb. split.
  - intros a t [[<- <-]|[_ Ha]]%lookup_insert_Some; [done|by apply Hs].
  - intros a t c u [[<- <-]|[Hab Ha]]%lookup_insert_Some [[<- <-]|[Hcb Hc]]%lookup_insert_Some Hlt; [lia| | |].
    + pose proof (Hb c u Hc). lia.
    + pose proof (Hb a t Ha). lia.
    + by apply (Hsep a t c u).
Qed.

Lemma bit_set_on l b K bm : 0 <= l -> 0 <= bm -> bit_set l (b :: K) bm (Z.lor bm (Z.shiftl 1 l)).
Proof.
  intros Hl Hb. split; [|split].
  - apply Z.lor_nonneg. split; [done|]. rewrite Z.shiftl_1_l. apply Z.pow_nonneg. lia.
  - rewrite Z.lor_spec, shift_bit, (bool_decide_true (l = l)) by lia. by rewrite orb_true_r.
  - intros i Hi. rewrite Z.lor_spec, shift_bit, bool_decide_false by lia. apply orb_false_r.
Qed.

Lemma insert_ok fs F h b s fl :
  lists_ok fs F h -> fs !! b = None -> 0 < b -> at8 b -> 32 <= s < 2 ^ 28 -> s mod 8 = 0 -> 0 <= fl < 8 ->
  words h !! f_size b = Some (s + fl) -> is_Some (words h !! f_fprev b) -> is_Some (words h !! f_fnext b) ->
  (forall a t, fs !! a = Some t -> a + HEAD + 32 <= b \/ b + HEAD + 32 <= a) ->
  exists F' h', k_mm_freelist_insert HEAD b h = Ret h' /\ lists_ok (<[b := s]> fs) F' h' /\ only (links fs b) h h'.
Proof.
  intros H Hnew Hb0 Hb8 Hs Hs8 Hfl Hw Hp Hn Hsep. destruct (size_level s Hs) as [Elv Hlv].
  destruct (lookup_lt_is_Some_2 F (Z.to_nat (level s))) as [L HL]; [rewrite (lo_len fs F h H); lia|].
  destruct (lo_dls fs F h H _ L HL) as [HnL Hd]. pose proof (lists_at8 fs F h _ L H HL) as HL8. pose proof (lo_in fs F h H (Z.to_nat (level s)) L) as HinL.
  assert (b ∉ L) as HbL by (intros (t & Ht & _)%(HinL b HL); congruence).
  pose proof (get_list_ok fs F h _ L H HL) as Hget. rewrite Z2Nat.id in Hget by lia.
  assert (blocks_of (<[b := s]> fs)) as Hbl by (by apply blocks_insert; [apply (lists_blocks fs F h H)|..]).
  unfold k_mm_freelist_insert. rewrite (ld_ok _ _ _ Hw). cbn [mbind outcome_bind]. rewrite buf_size_flags, Elv by lia.
  rewrite decide_False by (unfold no_level, MM_BIT_LEVEL; lia). rewrite st_ok by done. cbn [mbind outcome_bind].
  change (get_list (level s) (Heap _ (mmhead h))) with (get_list (level s) h). rewrite Hget. cbn [mbind outcome_bind].
  rewrite st_ok by (apply lookup_insert_is_Some'; by right). cbn [mbind outcome_bind words mmhead].
  set (h2 := Heap _ _). assert ((if decide (hdo L 0 <> 0) then st (f_fprev (hdo L 0)) b h2 else Ret h2) = Ret (Heap (link_front (words h) b L) (mmhead h))) as ->.
  { destruct L as [|a L]; [done|]. cbn [hdo]. apply list.Forall_cons in HL8 as [[_ Ha] _]. rewrite decide_True by lia.
    rewrite st_ok; [done|]. cbn [h2 words]. destruct Hd as (Hd & _). do 2 (apply lookup_insert_is_Some'; right). by rewrite Hd. }
  cbn [mbind outcome_bind]. exists (<[Z.to_nat (level s) := b :: L]> F). eexists. split; [done|].
  assert (forall x, (forall a, is_Some (<[b := s]> fs !! a) -> x <> f_fprev a /\ x <> f_fnext a) -> link_front (words h) b L !! x = words h !! x) as Hoff.
  { intros x Hx. apply link_front_other; [apply Hx; by rewrite lookup_insert_eq|apply Hx; by rewrite lookup_insert_eq|]. intros a (t & Ha & _)%(HinL a HL).
    apply Hx, lookup_insert_is_Some'. right. by rewrite Ha. }
  split; [eapply relist; try done; cbn [set_list words mmhead free_bitmap freelist]|split; cbn [set_list words mmhead]; [| |done]].
  - intros a t Ha. rewrite Hoff; [|intros x Hx; apply (header_kept (<[b := s]> fs)); [done|by rewrite Ha|done]].
    apply lookup_insert_Some in Ha as [[<- <-]|[_ Ha]]; [by exists fl|by apply (lo_word fs F h H)].
  - rewrite Z2Nat.id by lia. pose proof (lo_bm fs F h H). apply bit_set_on; lia.
  - by constructor.
  - by apply dls_front.
  - intros a t Ha El. destruct (lo_size fs F h H a t Ha) as (_ & Ha8 & _). assert (a <> b) as Hab by congruence.
    assert (forall c, c ∈ L -> at8 c /\ c <> a) as HaL.
    { intros c Hc. split; [by destruct (proj1 (list.Forall_forall _ _) HL8 c Hc)|]. intros ->. apply (HinL a HL) in Hc as (u & Hu & Eu). congruence. }
    split; apply link_front_other; try (by apply link_ne); try (by apply not_eq_sym, link_ne); try (by intros E%fprev_inj); try (by intros E%fnext_inj).
    + intros c Hc E%fprev_inj. by destruct (HaL c Hc).
    + intros c Hc. apply not_eq_sym, link_ne; [by apply HaL|done].
  - intros a. rewrite elem_of_cons, (HinL a HL). setoid_rewrite lookup_insert_Some. split.
    + intros [-> |(t & Ht & El)]; [exists s; split; [by left|lia]|]. exists t. split; [right; split; [congruence|done]|done].
    + intros (t & [[<- <-]|[_ Ht]] & El); [by left|right; by exists t].
  - intros a t El. rewrite lookup_insert_Some. split; [|intros Ha; right; split; [congruence|done]].
    intros [[<- <-]|[_ Ha]]; [|done]. rewrite Z2Nat.id in El by lia. done.
  - intros x Hx. apply Hoff. intros a Ha. assert (a = b \/ is_Some (fs !! a)) as Ha'.
    { apply lookup_insert_is_Some' in Ha as [->|Ha]; [by left|by right]. } split; intros ->; apply Hx; exists a; auto.
  - intros x Hx. by apply link_front_some.
Qed.

(** ** Deleting *)

Lemma unlink_some m p b n x : is_Some (m !! x) -> is_Some (unlink m p b n !! x).
Proof.
  intros H. unfold unlink. do 2 (apply lookup_insert_is_Some'; right).
  destruct (decide (p <> 0)); [apply lookup_insert_is_Some'; right|]; (destruct (decide (n <> 0)); [apply lookup_insert_is_Some'; right|]); done.
Qed.

Lemma bit_set_off l K bm : 0 <= l -> 0 <= bm -> Z.testbit bm l = true ->
  bit_set l K bm (if decide (hdo K 0 = 0) then Z.land bm (Z.lnot (Z.shiftl 1 l)) else bm) \/ (K <> [] /\ hdo K 0 = 0).
Proof.
  intros Hl Hb Hbit. destruct K as [|a K].
  - left. cbn [hdo]. rewrite decide_True by done. split; [apply Z.land_nonneg; by left|]. split.
    + rewrite Z.land_spec, Z.lnot_spec, shift_bit, (bool_decide_true (l = l)) by lia. by rewrite andb_false_r.
    + intros i Hi. rewrite Z.land_spec. destruct (decide (0 <= i)).
      * rewrite Z.lnot_spec, shift_bit, (bool_decide_false (i = l)) by lia. apply andb_true_r.
      * by rewrite Z.testbit_neg_r by lia.
  - cbn [hdo]. destruct (decide (a = 0)); [by right|]. left. by split_and!.
Qed.

Lemma st_if (c : Prop) `{!Decision c} a v h :
  (c -> is_Some (words h !! a)) ->
  (if decide c then st a v h else Ret h) = Ret (Heap (if decide c then <[a := v]> (words h) else words h) (mmhead h)).
Proof. intros H. destruct (decide c) as [Hc|]; [by rewrite st_ok by (by apply H)|by destruct h]. Qed.

Lemma nodup_remove (L1 L2 : list Z) b :
  NoDup (L1 ++ b :: L2) -> NoDup (L1 ++ L2) /\ forall a, a ∈ L1 ++ L2 <-> a ∈ L1 ++ b :: L2 /\ a <> b.
Proof.
  rewrite <- Permutation_middle. intros [Hb Hn]%list.NoDup_cons. split; [done|]. intros a. rewrite <- Permutation_middle, elem_of_cons.
  split; [|by intros [[->|] ?]]. intros Ha. split; [by right|]. by intros ->.
Qed.

Lemma blocks_delete fs b : blocks_of fs -> blocks_of (delete b fs).
Proof.
  intros [Hs Hsep]. split.
  - intros a s [_ Ha]%lookup_delete_Some. by apply Hs.
  - intros a s c t [_ Ha]%lookup_delete_Some [_ Hc]%lookup_delete_Some. by apply (Hsep a s c t).
Qed.

(** The neighbours of a block in a list. *)
Lemma list_mem fs F h l L a :
  lists_ok fs F h -> F !! l = Some L -> a ∈ L ->
  is_Some (fs !! a) /\ 0 < a /\ at8 a /\ is_Some (words h !! f_fprev a) /\ is_Some (words h !! f_fnext a).
Proof.
  intros H HL Ha. destruct (proj1 (list.Forall_forall _ _) (lists_at8 fs F h l L H HL) a Ha) as [Ha8 Ha0]. split_and!; try done.
  - by apply (lo_in fs F h H l L a HL) in Ha as (t & -> & _).
  - destruct (lo_dls fs F h H l L HL) as [_ Hd]. clear -Hd Ha. revert Ha Hd. generalize 0 at 1.
    induction L as [|c L IH]; intros q Ha; [by apply elem_of_nil in Ha|].
    cbn [dls]. intros (Hc1 & Hc2 & Hc3). apply elem_of_cons in Ha as [->|Ha]; [by rewrite Hc1|by apply (IH c)].
  - destruct (lo_dls fs F h H l L HL) as [_ Hd]. clear -Hd Ha. revert Ha Hd. generalize 0 at 1.
    induction L as [|c L IH]; intros q Ha; [by apply elem_of_nil in Ha|].
    cbn [dls]. intros (Hc1 & Hc2 & Hc3). apply elem_of_cons in Ha as [->|Ha]; [by rewrite Hc2|by apply (IH c)].
Qed.

Lemma next_in L1 b L2 : hdo L2 0 <> 0 -> hdo L2 0 ∈ L1 ++ b :: L2.
Proof. destruct L2; [done|]. intros _. rewrite elem_of_app, !elem_of_cons. cbn. auto. Qed.
Lemma prev_in L1 b L2 : lasto 0 L1 <> 0 -> lasto 0 L1 ∈ L1 ++ b :: L2.
Proof. intros Hz. apply elem_of_app. left. apply lasto_in. by intros ->. Qed.

(** What is left when [b] is taken out of its list, and the list's head and bit. *)
Lemma delete_run fs F h b s L1 L2 :
  lists_ok fs F h -> fs !! b = Some s -> F !! Z.to_nat (level s) = Some (L1 ++ b :: L2) ->
  exists mh, k_mm_freelist_delete HEAD b h = Ret (Heap (unlink (words h) (lasto 0 L1) b (hdo L2 0)) mh) /\
    only (fun _ => True) h (Heap (unlink (words h) (lasto 0 L1) b (hdo L2 0)) mh) /\
    freelist mh = <[Z.to_nat (level s) := hdo (L1 ++ L2) 0]> (freelist (mmhead h)) /\
    bit_set (level s) (L1 ++ L2) (free_bitmap (mmhead h)) (free_bitmap mh).
Proof.
  intros H Hb HL. destruct (lo_size fs F h H b s Hb) as (Hb0 & Hb8 & Hs & Hs8). destruct (size_level s Hs) as [Elv Hlv].
  destruct (lo_word fs F h H b s Hb) as (fl & Hfl & Hw). destruct (lo_dls fs F h H _ _ HL) as [HnL Hd].
  pose proof (lists_at8 fs F h _ _ H HL) as HL8. pose proof (fun a => list_mem fs F h _ _ a H HL) as Hmem.
  pose proof (get_list_ok fs F h _ _ H HL) as Hget. rewrite Z2Nat.id in Hget by lia.
  destruct (dls_unlink (words h) L1 b L2 HnL HL8 Hd) as (En & Ep & _).
  pose proof (next_in L1 b L2) as Hnin. pose proof (prev_in L1 b L2) as Hpin. set (n := hdo L2 0) in *. set (p := lasto 0 L1) in *.
  destruct (Hmem b) as (_ & _ & _ & Hm1 & Hm2); [apply elem_of_app; right; by left|].
  unfold k_mm_freelist_delete. rewrite (ld_ok _ _ _ Hw). cbn [mbind outcome_bind]. rewrite buf_size_flags, Elv by lia.
  rewrite decide_False by (unfold no_level, MM_BIT_LEVEL; lia). rewrite (ld_ok _ _ _ En), (ld_ok _ _ _ Ep). cbn [mbind outcome_bind].
  rewrite st_if by (intros Hz; by apply Hmem, Hnin). cbn [mbind outcome_bind].
  rewrite st_if by (intros Hz; cbn [words]; destruct (decide (n <> 0)); [apply lookup_insert_is_Some'; right|]; by apply Hmem, Hpin).
  cbn [mbind outcome_bind words mmhead]. set (m2 := if decide (p <> 0) then _ else _).
  change (get_list (level s) (Heap m2 (mmhead h))) with (get_list (level s) h). rewrite Hget. cbn [mbind outcome_bind].
  assert (forall x, is_Some (words h !! x) -> is_Some (m2 !! x)) as H2.
  { intros x Hx. unfold m2. destruct (decide (p <> 0)); [apply lookup_insert_is_Some'; right|]; (destruct (decide (n <> 0)); [apply lookup_insert_is_Some'; right|]); done. }
  set (bm := if decide (n = 0) then _ else _). set (h3 := if decide (_ = b) then _ else _).
  assert (words h3 = m2) as E3 by (unfold h3; by destruct (decide (_ = b))).
  rewrite st_ok by (rewrite E3; by apply H2). cbn [mbind outcome_bind]. rewrite st_ok by (cbn [words]; rewrite E3; apply lookup_insert_is_Some'; right; by apply H2).
  cbn [words mmhead]. rewrite E3. change (<[f_fnext b := 0]> (<[f_fprev b := 0]> m2)) with (unlink (words h) p b n).
  eexists. split; [done|]. split; [split; [done|intros x Hx; by apply unlink_some|unfold h3; by destruct (decide (_ = b))]|].
  pose proof (lo_bm fs F h H) as Hbm. pose proof (lo_bits fs F h H _ _ HL) as Hbit. rewrite Z2Nat.id in Hbit by lia.
  rewrite bool_decide_true in Hbit by (by destruct L1). unfold h3. destruct L1 as [|c L1].
  - cbn [app hdo]. rewrite !decide_True by done. split; [done|]. cbn [set_list mmhead free_bitmap].
    destruct (bit_set_off (level s) L2 (free_bitmap (mmhead h)) ltac:(lia) ltac:(lia) Hbit) as [Hset|[Hne Hz]]; [done|].
    destruct L2 as [|d L2]; [done|]. cbn in Hz. subst d. destruct (Hmem 0) as (_ & Hpos & _); [right; by left|by apply Z.lt_irrefl in Hpos].
  - cbn [app hdo]. rewrite !(decide_False (P := c = b)) by (intros ->; apply list.NoDup_cons in HnL as [Hc _]; apply Hc, elem_of_app; right; by left).
    cbn [mmhead]. split; [|by split_and!; [lia|..]]. symmetry. apply list_insert_id. by rewrite (lo_heads fs F h H), list_lookup_fmap, HL.
Qed.

Lemma delete_ok fs F h b s :
  lists_ok fs F h -> fs !! b = Some s ->
  exists F' h', k_mm_freelist_delete HEAD b h = Ret h' /\ lists_ok (delete b fs) F' h' /\ only (links fs b) h h'.
Proof.
  intros H Hb. destruct (lo_size fs F h H b s Hb) as (Hb0 & Hb8 & Hs & Hs8). destruct (size_level s Hs) as [Elv Hlv].
  destruct (list_of fs F h b s H Hb) as (L & HL & (L1 & L2 & ->)%list_elem_of_split).
  destruct (delete_run fs F h b s L1 L2 H Hb HL) as (mh & -> & [_ Hmem Hst] & Efl & Hbit). eexists (<[Z.to_nat (level s) := L1 ++ L2]> F), _. split; [done|].
  destruct (lo_dls fs F h H _ _ HL) as [HnL Hd]. pose proof (fun a => list_mem fs F h _ _ a H HL) as Hin. pose proof (lists_blocks fs F h H) as Hbl.
  pose proof (fun a => lo_in fs F h H _ _ a HL) as HinL. destruct (nodup_remove L1 L2 b HnL) as [Hn' Hin'].
  assert (forall x, (forall a, is_Some (fs !! a) -> x <> f_fprev a /\ x <> f_fnext a) -> unlink (words h) (lasto 0 L1) b (hdo L2 0) !! x = words h !! x) as Hoff.
  { intros x Hx. apply unlink_other; [apply Hx; by rewrite Hb|apply Hx; by rewrite Hb|intros Hz; by apply Hx, Hin, next_in|intros Hz; by apply Hx, Hin, prev_in]. }
  split; [eapply relist; try done; cbn [words mmhead]|split; [|done|done]].
  - by apply blocks_delete.
  - intros a t Ha. apply lookup_delete_Some in Ha as [_ Ha].
    rewrite Hoff; [by apply (lo_word fs F h H)|]. intros x Hx. apply (header_kept fs); [done|by rewrite Ha|done].
  - by rewrite Z2Nat.id by lia.
  - apply dls_unlink; [done|by apply (lists_at8 fs F h _ _ H HL)|done].
  - intros a t Ha El. destruct (lo_size fs F h H a t Ha) as (_ & Ha8 & _).
    assert (forall c, c ∈ L1 ++ b :: L2 -> at8 c /\ c <> a) as HaL.
    { intros c Hc. split; [by apply Hin|]. intros ->. apply HinL in Hc as (u & Hu & Eu). congruence. }
    destruct (HaL b) as [_ Hba]; [apply elem_of_app; right; by left|].
    split; apply unlink_other; try (by apply link_ne); try (by apply not_eq_sym, link_ne); try (by intros E%fprev_inj); try (by intros E%fnext_inj); intros Hz.
    + intros E%fprev_inj. by destruct (HaL _ (next_in L1 b L2 Hz)).
    + apply link_ne; [done|]. by apply HaL, prev_in.
    + apply not_eq_sym, link_ne; [|done]. by apply HaL, next_in.
    + intros E%fnext_inj. by destruct (HaL _ (prev_in L1 b L2 Hz)).
  - intros a. rewrite Hin', HinL. setoid_rewrite lookup_delete_Some. split.
    + intros [(u & Hu & Eu) Hne]. exists u. by split_and!.
    + intros (u & [Hne Hu] & Eu). split; [by exists u|by apply not_eq_sym].
  - intros a t El. rewrite lookup_delete_Some. split; [by intros []|]. intros Ha. split; [|done]. intros <-. rewrite Hb in Ha. injection Ha as <-. lia.
  - intros x Hx. apply Hoff. intros a Ha. split; intros ->; apply Hx; exists a; auto.
Qed.

End Lists.
