(* ===== verification/KHeapShape.v ===== *)
(** * The blocks of the heap

    The blocks of all regions as a map from addresses: they do not overlap, the end of
    one is the start of the next up to the last of its region, a block knows whether the
    one before it is free, and no two free blocks are neighbours.  Allocating, freeing
    and resizing are made of four changes of this map. *)

From stdpp Require Import gmap.
From S2P Require Import Prelude KBits KHeap KHeapLists.

(** [lim] is the last block of the region; [pv] the block before, if it is free.  The
    last block has size 0. *)
Record blk := Blk { sz : Z; fr : bool; pv : option Z; lim : Z }.

Definition set_fr (v : bool) (b : blk) : blk := Blk (sz b) v (pv b) (lim b).
Definition set_pv (v : option Z) (b : blk) : blk := Blk (sz b) (fr b) v (lim b).
Definition set_sz (v : Z) (b : blk) : blk := Blk v (fr b) (pv b) (lim b).

Section Shape.
Context (HEAD : Z) (Hhead : 8 <= HEAD) (Hhead8 : HEAD mod 8 = 0).

Definition nx (a : Z) (b : blk) : Z := a + HEAD + sz b.

Record blk_ok (a : Z) (b : blk) : Prop := BlkOk {
  bo_pos : 0 < a;
  bo_at : a mod 8 = 0;
  bo_size : 0 <= sz b /\ sz b mod 8 = 0;
  bo_end : sz b = 0 -> fr b = false;
  bo_min : sz b <> 0 -> 32 <= sz b /\ nx a b <= lim b;
  bo_lim : lim b < a + 2 ^ 28;
  bo_alt : fr b = true -> pv b = None
}.

Record shape_ok (B : gmap Z blk) : Prop := ShapeOk {
  sh_blk : forall a b, B !! a = Some b -> blk_ok a b;
  sh_next : forall a b, B !! a = Some b -> sz b <> 0 ->
    exists c, B !! nx a b = Some c /\ pv c = (if fr b then Some a else None) /\ lim c = lim b;
  sh_prev : forall a b p, B !! a = Some b -> pv b = Some p -> exists c, B !! p = Some c /\ fr c = true /\ nx p c = a;
  sh_sep : forall a b c d, B !! a = Some b -> B !! c = Some d -> a < c -> nx a b <= c
}.

(** The next block is behind this one. *)
Lemma nx_gt B a b : shape_ok B -> B !! a = Some b -> a < nx a b /\ a + HEAD <= nx a b.
Proof. intros H Ha. destruct (sh_blk B H a b Ha) as [? ? [? _] _ _ _ _]. unfold nx. lia. Qed.

(** Two blocks with the same end are the same. *)
Lemma nx_inj B a b c d : shape_ok B -> B !! a = Some b -> B !! c = Some d -> nx a b = nx c d -> a = c.
Proof.
  intros H Ha Hc E. destruct (nx_gt B a b H Ha) as [G1 _], (nx_gt B c d H Hc) as [G2 _].
  destruct (Z.lt_trichotomy a c) as [Hlt|[->|Hlt]]; [|done|].
  - pose proof (sh_sep B H a b c d Ha Hc Hlt). lia.
  - pose proof (sh_sep B H c d a b Hc Ha Hlt). lia.
Qed.

(** A block takes the whole space of [a], so nothing else starts there. *)
Lemma inside_none B a b x : shape_ok B -> B !! a = Some b -> a < x < nx a b -> B !! x = None.
Proof.
  intros H Ha Hx. destruct (B !! x) as [d|] eqn:E; [|done]. pose proof (sh_sep B H a b x d Ha E). lia.
Qed.

(** ** Changing the state of a block *)

Definition mark (v : bool) (a : Z) (b c : blk) (B : gmap Z blk) : gmap Z blk :=
  <[a := set_fr v b]> (<[nx a b := set_pv (if v then Some a else None) c]> B).

Lemma mark_lookup v a b c B x d :
  shape_ok B -> B !! a = Some b -> mark v a b c B !! x = Some d ->
  (x = a /\ d = set_fr v b) \/ (x = nx a b /\ x <> a /\ d = set_pv (if v then Some a else None) c) \/ (x <> a /\ x <> nx a b /\ B !! x = Some d).
Proof.
  intros H Ha. destruct (nx_gt B a b H Ha) as [G _]. unfold mark.
  intros [[<- <-]|[H1 [[<- <-]|[H2 Hx]]%lookup_insert_Some]]%lookup_insert_Some; [by left|right; left|right; right]; (split_and!; try done; lia).
Qed.

Lemma flag_ok v a b c B :
  shape_ok B -> B !! a = Some b -> sz b <> 0 -> B !! nx a b = Some c ->
  (v = true -> pv b = None /\ fr c = false) -> shape_ok (mark v a b c B).
Proof.
  intros H Ha Hz Hc Hv. destruct (nx_gt B a b H Ha) as [Hgt _]. pose proof (sh_blk B H a b Ha) as Ba. pose proof (sh_blk B H _ c Hc) as Bc.
  destruct (sh_next B H a b Ha Hz) as (c' & Hc' & Epc & Elc). rewrite Hc in Hc'. injection Hc' as <-.
  assert (mark v a b c B !! a = Some (set_fr v b)) as Ma by apply lookup_insert_eq.
  assert (mark v a b c B !! nx a b = Some (set_pv (if v then Some a else None) c)) as Mn
    by (unfold mark; rewrite lookup_insert_ne by lia; apply lookup_insert_eq).
  assert (forall x, x <> a -> x <> nx a b -> mark v a b c B !! x = B !! x) as Mo by (intros x H1 H2; unfold mark; by rewrite !lookup_insert_ne).
  split.
  - intros x d [(-> & ->)|[(-> & _ & ->)|(_ & _ & Hx)]]%mark_lookup; [| |by apply (sh_blk B H)|done|done].
    + destruct Ba. split; try done; cbn in *. by intros ->; apply Hv.
    + destruct Bc. split; try done; cbn in *. intros E. destruct v; [destruct Hv; congruence|done].
  - intros x d [(-> & ->)|[(-> & Hxa & ->)|(Hxa & Hxn & Hx)]]%mark_lookup Hzd; [| | |done|done].
    + exists (set_pv (if v then Some a else None) c). split; [exact Mn|]. by split.
    + cbn in Hzd. destruct (sh_next B H _ c Hc Hzd) as (e & He & Epe & Ele). destruct (nx_gt B _ c H Hc) as [Hgc _].
      exists e. change (nx (nx a b) (set_pv _ c)) with (nx (nx a b) c). rewrite Mo by lia. done.
    + destruct (sh_next B H x d Hx Hzd) as (e & He & Epe & Ele). destruct (decide (nx x d = a)) as [Ea|Hna].
      * rewrite Ea in *. rewrite Ha in He. injection He as <-. by exists (set_fr v b).
      * destruct (decide (nx x d = nx a b)) as [En|Hnn]; [by apply (nx_inj B x d a b H Hx Ha) in En|].
        exists e. by rewrite Mo.
  - intros x d p [(-> & ->)|[(-> & Hxa & ->)|(Hxa & Hxn & Hx)]]%mark_lookup Ep; [| | |done|done].
    + cbn in Ep. destruct (sh_prev B H a b p Ha Ep) as (e & He & Efe & Ene). destruct (nx_gt B p e H He) as [Hgp _].
      exists e. by rewrite Mo by lia.
    + cbn in Ep. destruct v; [|done]. injection Ep as <-. by exists (set_fr true b).
    + destruct (sh_prev B H x d p Hx Ep) as (e & He & Efe & Ene). destruct (decide (p = a)) as [->|Hpa].
      * rewrite Ha in He. injection He as <-. by subst x.
      * destruct (decide (p = nx a b)) as [->|Hpn]; [|exists e; by rewrite Mo]. rewrite Hc in He. injection He as <-.
        exists (set_pv (if v then Some a else None) c). by rewrite Mn.
  - intros x d y e [(-> & ->)|[(-> & Hxa & ->)|(Hxa & Hxn & Hx)]]%mark_lookup [(-> & ->)|[(-> & Hya & ->)|(Hya & Hyn & Hy)]]%mark_lookup Hlt; try done; try lia.
    + change (nx a (set_fr v b)) with (nx a b). by apply (sh_sep B H a b y e).
    + change (nx (nx a b) (set_pv _ c)) with (nx (nx a b) c). by apply (sh_sep B H _ c y e).
    + by apply (sh_sep B H x d a b).
    + by apply (sh_sep B H x d (nx a b) c).
    + by apply (sh_sep B H x d y e).
Qed.

(** ** Splitting and joining *)

Definition split_at (a s1 s2 : Z) (b : blk) (B : gmap Z blk) : gmap Z blk :=
  <[a := set_sz s1 b]> (<[a + HEAD + s1 := Blk s2 false None (lim b)]> B).

Lemma split_ok a s1 s2 b B :
  shape_ok B -> B !! a = Some b -> fr b = false -> sz b = s1 + HEAD + s2 ->
  32 <= s1 -> s1 mod 8 = 0 -> 32 <= s2 -> s2 mod 8 = 0 -> shape_ok (split_at a s1 s2 b B).
Proof.
  intros H Ha Hf Es H1 M1 H2 M2. pose proof (sh_blk B H a b Ha) as [P0 P1 P2 P3 P4 P5 P6]. destruct P4 as [_ P4]; [lia|].
  set (n := a + HEAD + s1). set (e := Blk s2 false None (lim b)).
  assert (nx n e = nx a b) as Ene by (unfold nx, n, e; cbn; lia). assert (nx a (set_sz s1 b) = n) as Ena by done.
  assert (B !! n = None) as Hn by (apply (inside_none B a b); [done..|unfold n, nx; lia]).
  assert (split_at a s1 s2 b B !! a = Some (set_sz s1 b)) as Sa by apply lookup_insert_eq.
  assert (split_at a s1 s2 b B !! n = Some e) as Sn by (unfold split_at; rewrite lookup_insert_ne by (unfold n; lia); apply lookup_insert_eq).
  assert (forall x, x <> a -> x <> n -> split_at a s1 s2 b B !! x = B !! x) as So by (intros x N1 N2; unfold split_at; by rewrite !lookup_insert_ne by done).
  assert (forall x d, split_at a s1 s2 b B !! x = Some d -> (x = a /\ d = set_sz s1 b) \/ (x = n /\ d = e) \/ (x <> a /\ x <> n /\ B !! x = Some d)) as Sinv.
  { intros x d. destruct (decide (x = a)) as [->|Na]; [rewrite Sa; left; by simplify_eq|].
    destruct (decide (x = n)) as [->|Nn]; [rewrite Sn; right; left; by simplify_eq|]. rewrite So by done. auto. }
  split.
  - intros x d [(-> & ->)|[(-> & ->)|(_ & _ & Hx)]]%Sinv; [| |by apply (sh_blk B H)].
    + split; try done; cbn; try lia. intros _. unfold nx in *. cbn. lia.
    + split; cbn; try done; unfold n, nx in *; cbn; try lia. Z.div_mod_to_equations. lia.
  - intros x d [(-> & ->)|[(-> & ->)|(Nxa & Nxn & Hx)]]%Sinv Hz.
    + exists e. rewrite Ena. cbn [fr set_sz]. by rewrite Hf.
    + destruct (sh_next B H a b Ha ltac:(lia)) as (c & Hc & Ec & El). exists c. rewrite Ene. rewrite So; [|unfold nx; lia|unfold nx, n; lia].
      by rewrite Hf in Ec.
    + destruct (sh_next B H x d Hx Hz) as (c & Hc & Ec & El). destruct (decide (nx x d = a)) as [Ea|Na].
      * rewrite Ea in *. exists (set_sz s1 b). by simplify_eq.
      * exists c. rewrite So; [done|done|]. intros E. congruence.
  - intros x d p [(-> & ->)|[(-> & ->)|(Nxa & Nxn & Hx)]]%Sinv Ep; [|done|].
    + destruct (sh_prev B H a b p Ha Ep) as (c & Hc & Ef & En). exists c. rewrite So; [done|intros ->; congruence..].
    + destruct (sh_prev B H x d p Hx Ep) as (c & Hc & Ef & En). exists c. rewrite So; [done|intros ->; congruence..].
  - intros x d y g [(-> & ->)|[(-> & ->)|(Nxa & Nxn & Hx)]]%Sinv [(-> & ->)|[(-> & ->)|(Nya & Nyn & Hy)]]%Sinv Hlt; try lia.
    + pose proof (sh_sep B H a b y g Ha Hy Hlt). unfold nx in *. cbn. lia.
    + destruct (decide (y < a)) as [Hy'|]; [unfold n in Hlt; lia|]. pose proof (sh_sep B H a b y g Ha Hy ltac:(lia)). by rewrite Ene.
    + by apply (sh_sep B H x d a b).
    + destruct (decide (x < a)) as [Hx'|]; [pose proof (sh_sep B H x d a b Hx Ha Hx'); unfold n; lia|].
      pose proof (sh_sep B H a b x d Ha Hx ltac:(lia)). unfold n, nx in *. lia.
    + by apply (sh_sep B H x d y g).
Qed.

Definition join_at (a : Z) (b c : blk) (B : gmap Z blk) : gmap Z blk :=
  <[a := set_sz (sz b + HEAD + sz c) b]> (delete (nx a b) B).

Lemma join_ok a b c B :
  shape_ok B -> B !! a = Some b -> fr b = false -> sz b <> 0 -> B !! nx a b = Some c -> fr c = false -> sz c <> 0 ->
  shape_ok (join_at a b c B).
Proof.
  intros H Ha Hf Hz Hc Hfc Hzc. pose proof (sh_blk B H a b Ha) as [P0 P1 P2 P3 P4 P5 P6]. specialize (P4 Hz) as [P4 P4'].
  pose proof (sh_blk B H _ c Hc) as [Q0 Q1 Q2 Q3 Q4 Q5 Q6]. specialize (Q4 Hzc) as [Q4 Q4'].
  destruct (sh_next B H a b Ha Hz) as (c' & Hc' & Epc & Elc). rewrite Hc in Hc'. injection Hc' as <-.
  set (n := nx a b) in *. set (e := set_sz (sz b + HEAD + sz c) b). assert (nx a e = nx n c) as Ene by (unfold n, nx, e; cbn; lia).
  destruct (nx_gt B a b H Ha) as [G1 _]. destruct (nx_gt B n c H Hc) as [G2 _]. fold n in G1.
  assert (join_at a b c B !! a = Some e) as Sa by apply lookup_insert_eq.
  assert (forall x, x <> a -> x <> n -> join_at a b c B !! x = B !! x) as So
    by (intros x N1 N2; unfold join_at; by rewrite lookup_insert_ne, lookup_delete_ne by done).
  assert (forall x d, join_at a b c B !! x = Some d -> (x = a /\ d = e) \/ (x <> a /\ x <> n /\ B !! x = Some d)) as Sinv.
  { intros x d. unfold join_at.
    intros [[<- <-]|[Na [Nn Hx]%lookup_delete_Some]]%lookup_insert_Some; [by left|right; by split_and!; [apply not_eq_sym..|]]. }
  split.
  - intros x d [(-> & ->)|(_ & _ & Hx)]%Sinv; [|by apply (sh_blk B H)].
    split; try done; cbn; try lia. Z.div_mod_to_equations. lia.
  - intros x d [(-> & ->)|(Nxa & Nxn & Hx)]%Sinv Hzd.
    + destruct (sh_next B H n c Hc Hzc) as (g & Hg & Eg & El). exists g. rewrite Ene, So by lia. cbn. rewrite Hf. rewrite Hfc in Eg. by rewrite El.
    + destruct (sh_next B H x d Hx Hzd) as (g & Hg & Eg & El). destruct (decide (nx x d = a)) as [Ea|Na].
      * rewrite Ea in *. exists e. by simplify_eq.
      * exists g. rewrite So; [done|done|]. intros E. by apply (nx_inj B x d a b) in E.
  - intros x d p [(-> & ->)|(Nxa & Nxn & Hx)]%Sinv Ep.
    + destruct (sh_prev B H a b p Ha Ep) as (g & Hg & Ef & En). exists g. rewrite So; [done|intros ->; congruence..].
    + destruct (sh_prev B H x d p Hx Ep) as (g & Hg & Ef & En). exists g. rewrite So; [done|intros ->; congruence..].
  - intros x d y g [(-> & ->)|(Nxa & Nxn & Hx)]%Sinv [(-> & ->)|(Nya & Nyn & Hy)]%Sinv Hlt; try lia.
    + rewrite Ene. apply (sh_sep B H n c y g Hc Hy). pose proof (sh_sep B H a b y g Ha Hy Hlt). fold n in H0. lia.
    + by apply (sh_sep B H x d a b).
    + by apply (sh_sep B H x d y g).
Qed.

(** ** Space *)

(** The bytes of the blocks, headers included, and the last blocks of the regions. *)
Definition covers (B : gmap Z blk) (x : Z) : Prop := exists a b, B !! a = Some b /\ a <= x < nx a b.
Definition ends (B : gmap Z blk) (a : Z) : Prop := exists b, B !! a = Some b /\ sz b = 0.
Definition same_space (B B' : gmap Z blk) : Prop := forall x, (covers B x <-> covers B' x) /\ (ends B x <-> ends B' x).

#[export] Instance same_space_equiv : Equivalence same_space.
Proof.
  split.
  - by intros B x.
  - intros B B' H x. destruct (H x). by split; symmetry.
  - intros B1 B2 B3 H1 H2 x. destruct (H1 x) as [-> ->]. apply H2.
Qed.

Lemma mark_space v a b c B : B !! a = Some b -> B !! nx a b = Some c -> same_space B (mark v a b c B).
Proof.
  intros Ha Hc x. unfold mark. assert (forall y d, B !! y = Some d -> exists d', <[a := set_fr v b]> (<[nx a b := set_pv (if v then Some a else None) c]> B) !! y = Some d' /\ sz d' = sz d) as H1.
  { intros y d Hd. destruct (decide (y = a)) as [->|Ha']; [rewrite lookup_insert_eq; eexists; split; [done|]; cbn; congruence|]. rewrite lookup_insert_ne by done.
    destruct (decide (y = nx a b)) as [->|Hn']; [rewrite lookup_insert_eq; eexists; split; [done|]; cbn; congruence|]. rewrite lookup_insert_ne by done. by exists d. }
  assert (forall y d, <[a := set_fr v b]> (<[nx a b := set_pv (if v then Some a else None) c]> B) !! y = Some d -> exists d', B !! y = Some d' /\ sz d' = sz d) as H2.
  { intros y d [[<- <-]|[_ [[<- <-]|[_ Hd]]%lookup_insert_Some]]%lookup_insert_Some; [by exists b|by exists c|by exists d]. }
  split; split.
  - intros (y & d & (d' & Hd' & E)%H1 & Hx). exists y, d'. unfold nx in *. by rewrite E.
  - intros (y & d & (d' & Hd' & E)%H2 & Hx). exists y, d'. unfold nx in *. by rewrite E.
  - intros (d & (d' & Hd' & E)%H1 & Hz). exists d'. by rewrite E.
  - intros (d & (d' & Hd' & E)%H2 & Hz). exists d'. by rewrite E.
Qed.

Lemma split_space a s1 s2 b B :
  B !! a = Some b -> B !! (a + HEAD + s1) = None -> sz b = s1 + HEAD + s2 -> 0 < s1 -> 0 < s2 -> same_space B (split_at a s1 s2 b B).
Proof.
  intros Ha Hn Es H1 H2 x. unfold split_at. split; split.
  - intros (y & d & Hd & Hx). destruct (decide (y = a)) as [->|Hy].
    + rewrite Ha in Hd. injection Hd as <-. destruct (decide (x < a + HEAD + s1)); [exists a, (set_sz s1 b); rewrite lookup_insert_eq; split; [done|]; unfold nx in *; cbn; lia|].
      exists (a + HEAD + s1), (Blk s2 false None (lim b)). rewrite lookup_insert_ne, lookup_insert_eq by lia. split; [done|]. unfold nx in *. cbn. lia.
    + exists y, d. rewrite !lookup_insert_ne by congruence. done.
  - intros (y & d & [[<- <-]|[_ [[<- <-]|[_ Hd]]%lookup_insert_Some]]%lookup_insert_Some & Hx); [exists a, b|exists a, b|by exists y, d];
      (split; [done|]); unfold nx in *; cbn in *; lia.
  - intros (d & Hd & Hz). exists d. rewrite !lookup_insert_ne; [done|congruence|]. intros <-. rewrite Ha in Hd. injection Hd as <-. lia.
  - intros (d & [[<- <-]|[_ [[<- <-]|[_ Hd]]%lookup_insert_Some]]%lookup_insert_Some & Hz); [cbn in Hz; lia|cbn in Hz; lia|by exists d].
Qed.

Lemma join_space a b c B :
  B !! a = Some b -> B !! nx a b = Some c -> 0 < sz b -> 0 < sz c -> same_space B (join_at a b c B).
Proof.
  intros Ha Hc H1 H2 x. unfold join_at. split; split.
  - intros (y & d & Hd & Hx). destruct (decide (y = a)) as [->|Hya]; [|destruct (decide (y = nx a b)) as [->|Hyn]].
    + exists a, (set_sz (sz b + HEAD + sz c) b). rewrite lookup_insert_eq. split; [done|]. rewrite Ha in Hd. injection Hd as <-. unfold nx in *. cbn. lia.
    + exists a, (set_sz (sz b + HEAD + sz c) b). rewrite lookup_insert_eq. split; [done|]. rewrite Hc in Hd. injection Hd as <-. unfold nx in *. cbn. lia.
    + exists y, d. by rewrite lookup_insert_ne, lookup_delete_ne by done.
  - intros (y & d & [[<- <-]|[_ [_ Hd]%lookup_delete_Some]]%lookup_insert_Some & Hx); [|by exists y, d].
    destruct (decide (x < nx a b)); [exists a, b|exists (nx a b), c]; (split; [done|]); unfold nx in *; cbn in *; lia.
  - intros (d & Hd & Hz). exists d. rewrite lookup_insert_ne, lookup_delete_ne; [done| |]; intros <-; simplify_eq; lia.
  - intros (d & [[<- <-]|[_ [_ Hd]%lookup_delete_Some]]%lookup_insert_Some & Hz); [cbn in Hz; lia|by exists d].
Qed.

End Shape.
