(* ===== verification/KHeapMem.v ===== *)
(** * The heap's blocks in memory

    The header word of a block is its size with two flags in the lower bits; a block
    behind a free one also has its address.  [mid] relates blocks, free lists and memory
    at every point of an operation, also where the blocks do not have their final shape
    yet; every store of an operation is a step of it. *)

From stdpp Require Import gmap.
From S2P Require Import Prelude KBits KHeap KHeapLists KHeapShape.

(** ** Header words *)

Definition hdr (b : blk) : Z := sz b + (if fr b then 1 else 0) + (match pv b with Some _ => 2 | None => 0 end).

(** The three bits below a multiple of eight. *)
Lemma low_land q f c : 0 <= f < 8 -> 0 <= c < 8 -> Z.land (8 * q + f) c = Z.land f c.
Proof.
  intros Hf Hc. rewrite Z.mul_comm. change 8 with (2 ^ 3) at 1. rewrite <- (lor_shift_add q f 3) by lia.
  rewrite Z.land_lor_distr_l. enough (Z.land (Z.shiftl q 3) c = 0) as -> by done.
  apply Z.bits_inj'. intros i Hi. rewrite Z.land_spec, Z.bits_0. destruct (decide (i < 3)) as [Hlt|Hge].
  - by rewrite Z.shiftl_spec_low by lia.
  - rewrite andb_comm, (Z.bits_above_log2 c i); [done|lia|]. destruct (decide (c = 0)) as [->|]; [cbn; lia|].
    apply Z.lt_le_trans with 3; [|lia]. apply Z.log2_lt_pow2; lia.
Qed.

Lemma low_clear q f c : 0 <= f < 8 -> 0 <= c < 8 -> Z.land (8 * q + f) (Z.lnot c) = 8 * q + Z.land f (Z.lnot c).
Proof.
  intros Hf Hc. pose proof (low_land q f c Hf Hc) as E. rewrite <- !Z.ldiff_land.
  assert (forall x, Z.ldiff x c = x - Z.land x c) as Hd.
  { intros x. pose proof (Z.add_lor_land (Z.ldiff x c) (Z.land x c)) as Hs.
    assert (Z.lor (Z.ldiff x c) (Z.land x c) = x) as E1.
    { apply Z.bits_inj'. intros i _. rewrite Z.lor_spec, Z.ldiff_spec, Z.land_spec. by destruct (Z.testbit x i), (Z.testbit c i). }
    assert (Z.land (Z.ldiff x c) (Z.land x c) = 0) as E2.
    { apply Z.bits_inj'. intros i _. rewrite !Z.land_spec, Z.ldiff_spec, Z.bits_0. by destruct (Z.testbit x i), (Z.testbit c i). }
    lia. }
  rewrite !Hd, E. lia.
Qed.

Lemma low_set q f c : 0 <= f < 8 -> 0 <= c < 8 -> Z.lor (8 * q + f) c = 8 * q + Z.lor f c.
Proof.
  intros Hf Hc. pose proof (low_land q f c Hf Hc). pose proof (Z.add_lor_land (8 * q + f) c). pose proof (Z.add_lor_land f c). lia.
Qed.

Section Header.
Context (b : blk) (Hs : 0 <= sz b) (Hm : sz b mod 8 = 0).

Lemma hdr_flags : exists q, sz b = 8 * q /\ hdr b = 8 * q + ((if fr b then 1 else 0) + (match pv b with Some _ => 2 | None => 0 end)).
Proof. exists (sz b / 8). unfold hdr. destruct (fr b), (pv b); Z.div_mod_to_equations; lia. Qed.

Lemma hdr_buf : MM_BUF_SIZE (hdr b) = sz b.
Proof. unfold hdr. rewrite <- Z.add_assoc. apply buf_size_flags; [done..|]. destruct (fr b), (pv b); lia. Qed.

Lemma hdr_free : Z.land (hdr b) MM_BUFF_FREE <> 0 <-> fr b = true.
Proof. destruct hdr_flags as (q & _ & ->). unfold MM_BUFF_FREE. destruct (fr b), (pv b); rewrite low_land by lia; by cbn. Qed.

Lemma hdr_prev : Z.land (hdr b) MM_BUFF_PREV_FREE <> 0 <-> is_Some (pv b).
Proof.
  destruct hdr_flags as (q & _ & ->). unfold MM_BUFF_PREV_FREE.
  destruct (fr b), (pv b); rewrite low_land by lia; (split; [by cbn|intros H; by (destruct H || done)]).
Qed.

Lemma hdr_set_fr v :
  hdr (set_fr v b) = if v then Z.lor (hdr b) MM_BUFF_FREE else Z.land (hdr b) (Z.lnot MM_BUFF_FREE).
Proof.
  destruct hdr_flags as (q & Eq & E). rewrite E. unfold MM_BUFF_FREE, hdr. cbn [sz fr pv set_fr]. rewrite Eq.
  destruct v, (fr b), (pv b); rewrite ?low_set, ?low_clear by lia; by rewrite <- Z.add_assoc.
Qed.

Lemma hdr_set_pv v :
  hdr (set_pv v b) =
  match v with Some _ => Z.lor (hdr b) MM_BUFF_PREV_FREE | None => Z.land (hdr b) (Z.lnot MM_BUFF_PREV_FREE) end.
Proof.
  destruct hdr_flags as (q & Eq & E). rewrite E. unfold MM_BUFF_PREV_FREE, hdr. cbn [sz fr pv set_pv]. rewrite Eq.
  destruct v, (fr b), (pv b); rewrite ?low_set, ?low_clear by lia; by rewrite <- Z.add_assoc.
Qed.

(** The word of a block that is cut to [s] bytes and used. *)
Lemma hdr_cut s : 0 <= s -> s mod 8 = 0 -> Z.lor s (Z.land (hdr b) 2) = hdr (set_fr false (set_sz s b)).
Proof.
  intros H0 H8. destruct hdr_flags as (q & Eq & ->). assert (exists r, s = 8 * r) as [r ->] by (exists (s / 8); Z.div_mod_to_equations; lia).
  unfold hdr. cbn [sz fr pv set_sz set_fr]. rewrite <- (Z.add_0_r (8 * r)) at 1.
  destruct (fr b), (pv b); rewrite low_land, low_set by (by split; vm_compute); by rewrite <- Z.add_assoc.
Qed.

End Header.

Lemma hdr_new s l : 0 <= s -> s mod 8 = 0 -> Z.lor s MM_BUFF_FREE = hdr (Blk s true None l).
Proof.
  intros H0 H8. assert (exists r, s = 8 * r) as [r ->] by (exists (s / 8); Z.div_mod_to_equations; lia).
  unfold hdr, MM_BUFF_FREE. cbn [sz fr pv]. rewrite <- (Z.add_0_r (8 * r)) at 1. rewrite low_set by lia. by rewrite <- Z.add_assoc.
Qed.

(** ** Blocks in memory *)

Section Mem.
Context (HEAD : Z) (Hhead : 8 <= HEAD) (Hhead8 : HEAD mod 8 = 0).

Abbreviation f_size := (f_size HEAD).
Abbreviation f_prev := (f_prev HEAD).
Abbreviation f_fprev := (f_fprev HEAD).
Abbreviation f_fnext := (f_fnext HEAD).
Abbreviation nx := (nx HEAD).

Record cell (a : Z) (b : blk) (m : gmap Z Z) : Prop := Cell {
  ce_size : m !! f_size a = Some (hdr b);
  ce_prev : forall p, pv b = Some p -> m !! f_prev a = Some p;
  ce_mem : forall x, a <= x < nx a b -> x mod 4 = 0 -> is_Some (m !! x)
}.

(** Blocks that do not overlap. *)
Record placed (B : gmap Z blk) : Prop := Placed {
  pl_at : forall a b, B !! a = Some b -> 0 < a /\ at8 a /\ 0 <= sz b /\ sz b mod 8 = 0;
  pl_sep : forall a b c d, B !! a = Some b -> B !! c = Some d -> a < c -> nx a b <= c
}.

Lemma shape_placed B : shape_ok HEAD B -> placed B.
Proof.
  intros H. split; [|apply (sh_sep HEAD B H)]. intros a b Ha. by destruct (sh_blk HEAD B H a b Ha) as [? ? [? ?] _ _ _ _].
Qed.

Record mid (B : gmap Z blk) (fs : gmap Z Z) (h : heap) : Prop := Mid {
  mi_placed : placed B;
  mi_mem : forall a b, B !! a = Some b -> cell a b (words h);
  mi_lists : exists F, lists_ok HEAD fs F h;
  mi_free : forall a s, fs !! a = Some s -> exists b, B !! a = Some b /\ sz b = s
}.

Definition header (a x : Z) : Prop := x = f_size a \/ x = f_prev a.

(** No header word is in a buffer. *)
Lemma header_out B a b c d x :
  placed B -> B !! a = Some b -> B !! c = Some d -> header a x -> ~ (c + HEAD <= x < nx c d).
Proof.
  intros H Ha Hc Hx. pose proof (pl_sep B H a b c d Ha Hc). pose proof (pl_sep B H c d a b Hc Ha).
  destruct (pl_at B H a b Ha) as (_ & _ & Hs & _). unfold nx in *.
  assert (a + HEAD - 8 <= x < a + HEAD) by (destruct Hx as [-> | ->]; unfold KHeap.f_size, KHeap.f_prev; lia).
  destruct (Z.lt_trichotomy a c) as [Hlt|[<-|Hlt]]; lia.
Qed.

Lemma header_inj a b x : at8 a -> at8 b -> header a x -> header b x -> a = b.
Proof.
  unfold at8, header, KHeap.f_size, KHeap.f_prev. intros Ha Hb [-> | ->] [E|E]; Z.div_mod_to_equations; lia.
Qed.

Lemma size_ne_prev a b : at8 a -> at8 b -> f_size a <> f_prev b.
Proof. unfold at8, KHeap.f_size, KHeap.f_prev. intros Ha Hb E. Z.div_mod_to_equations. lia. Qed.

(** A buffer keeps its first [n] bytes. *)
Definition keeps (c n : Z) (h h' : heap) : Prop :=
  forall x, c + HEAD <= x < c + HEAD + n -> words h' !! x = words h !! x.

Lemma keeps_trans c n h1 h2 h3 : keeps c n h1 h2 -> keeps c n h2 h3 -> keeps c n h1 h3.
Proof. intros H1 H2 x Hx. by rewrite (H2 x Hx), (H1 x Hx). Qed.

Lemma keeps_le c n n' h h' : n' <= n -> keeps c n h h' -> keeps c n' h h'.
Proof. intros Hn H x Hx. apply H. lia. Qed.

Lemma cell_ext a b m m' :
  m' !! f_size a = m !! f_size a -> m' !! f_prev a = m !! f_prev a ->
  (forall x, is_Some (m !! x) -> is_Some (m' !! x)) -> cell a b m -> cell a b m'.
Proof.
  intros E1 E2 Hm [H1 H2 H3]. split; [by rewrite E1|intros p Hp; rewrite E2; by apply H2|]. intros x Hx H4. by apply Hm, H3.
Qed.

(** ** Stores *)

Definition poke (x v : Z) (h : heap) : heap := Heap (<[x := v]> (words h)) (mmhead h).

Lemma poke_some x v h y : is_Some (words h !! y) -> is_Some (words (poke x v h) !! y).
Proof. intros H. apply lookup_insert_is_Some'. by right. Qed.

Lemma lists_write fs F h x v :
  lists_ok HEAD fs F h -> (forall a s, fs !! a = Some s -> x <> f_fprev a /\ x <> f_fnext a) ->
  (forall a s, fs !! a = Some s -> x = f_size a -> exists fl, 0 <= fl < 8 /\ v = s + fl) -> lists_ok HEAD fs F (poke x v h).
Proof.
  intros [L1 L2 L3 L4 L5 L6 L7 L8 L9] Hl Hs. split; try done; cbn [poke words].
  - intros a s Ha. destruct (decide (x = f_size a)) as [->|Hx].
    + destruct (Hs a s Ha eq_refl) as (fl & Hfl & ->). exists fl. split; [done|apply lookup_insert_eq].
    + rewrite lookup_insert_ne by done. by apply L2.
  - intros l L HL. destruct (L8 l L HL) as [Hn Hd]. split; [done|]. eapply dls_ext; [|exact Hd].
    intros a (s & Ha & _)%(L9 l L a HL). destruct (Hl a s Ha). by rewrite !lookup_insert_ne by done.
Qed.

(** The link fields of a free block are in its buffer. *)
Lemma link_in fs F h a s : lists_ok HEAD fs F h -> fs !! a = Some s ->
  32 <= s /\ a + HEAD <= f_fprev a < a + HEAD + s /\ a + HEAD <= f_fnext a < a + HEAD + s.
Proof. intros H Ha. destruct (lo_size HEAD fs F h H a s Ha) as (_ & _ & Hs & _). unfold KHeap.f_fprev, KHeap.f_fnext. lia. Qed.

(** Storing a header word of [a], which makes it the block [b']. *)
Lemma cell_put_ok B fs h a b' x v :
  mid B fs h -> header a x -> placed (<[a := b']> B) -> fs !! a = None \/ fs !! a = Some (sz b') ->
  cell a b' (words (poke x v h)) ->
  mid (<[a := b']> B) fs (poke x v h) /\ forall c d, <[a := b']> B !! c = Some d -> keeps c (sz d) h (poke x v h).
Proof.
  intros [Hp Hm [F HF] Hfs] Hx Hp' Ha Hc. set (B' := <[a := b']> B) in *. assert (B' !! a = Some b') as Ea by apply lookup_insert_eq.
  assert (forall c s, fs !! c = Some s -> exists d, B' !! c = Some d /\ sz d = s) as Hfs'.
  { intros c s Hs. destruct (decide (c = a)) as [->|Hne]; [exists b'; split; [done|]; destruct Ha; congruence|].
    destruct (Hfs c s Hs) as (d & Hd & Ed). exists d. unfold B'. by rewrite lookup_insert_ne. }
  assert (forall c d, B' !! c = Some d -> ~ (c + HEAD <= x < nx c d)) as Hout by (intros c d Hd; by apply (header_out B' a b' c d x)).
  split; [split; [done| | |done]|].
  - intros c d Hd. destruct (decide (c = a)) as [->|Hne]; [rewrite Ea in Hd; by injection Hd as <-|].
    assert (~ header c x) as Hcx by (intros Hh; apply Hne; apply (header_inj c a x); [by apply (pl_at B' Hp' c d)|by apply (pl_at B' Hp' a b')|done..]).
    unfold B' in Hd. rewrite lookup_insert_ne in Hd by done. eapply cell_ext; [| | |by apply Hm]; cbn [poke words].
    + rewrite lookup_insert_ne; [done|]. intros ->. apply Hcx. by left.
    + rewrite lookup_insert_ne; [done|]. intros ->. apply Hcx. by right.
    + intros y Hy. by apply poke_some.
  - exists F. apply lists_write; [done| |].
    + intros c s Hs. destruct (Hfs' c s Hs) as (d & Hd & Ed). specialize (Hout c d Hd). pose proof (link_in fs F h c s HF Hs). unfold nx in Hout.
      split; intros ->; lia.
    + intros c s Hs ->. destruct (Hfs' c s Hs) as (d & Hd & Ed). assert (c = a) as ->.
      { apply (header_inj c a (f_size c)); [by apply (pl_at B' Hp' c d)|by apply (pl_at B' Hp' a b')|by left|done]. }
      rewrite Ea in Hd. injection Hd as <-. destruct Hc as [Hw _ _]. cbn [poke words] in Hw. rewrite lookup_insert_eq in Hw. injection Hw as ->.
      exists (hdr b' - sz b'). rewrite Ed. split; [|lia]. rewrite <- Ed. unfold hdr. destruct (fr b'), (pv b'); lia.
  - intros c d Hd y Hy. cbn [poke words]. rewrite lookup_insert_ne; [done|]. intros ->. by apply (Hout c d Hd).
Qed.

Lemma placed_same B a b b' : placed B -> B !! a = Some b -> sz b' = sz b -> placed (<[a := b']> B).
Proof.
  intros [H1 H2] Ha Es. split.
  - intros c d [[<- <-]|[_ Hc]]%lookup_insert_Some; [rewrite Es; by apply H1|by apply H1].
  - intros c d e g [[<- <-]|[_ Hc]]%lookup_insert_Some [[<- <-]|[_ He]]%lookup_insert_Some Hlt; [lia| | |by apply (H2 c d e g)].
    + unfold KHeapShape.nx. rewrite Es. by apply (H2 a b e g).
    + by apply (H2 c d a b).
Qed.

Lemma placed_delete B a : placed B -> placed (delete a B).
Proof.
  intros [H1 H2]. split; [intros c d [_ Hc]%lookup_delete_Some; by apply H1|].
  intros c d e g [_ Hc]%lookup_delete_Some [_ He]%lookup_delete_Some. by apply (H2 c d e g).
Qed.

Lemma put_size B fs h a b' :
  mid B fs h -> placed (<[a := b']> B) -> fs !! a = None \/ fs !! a = Some (sz b') ->
  (forall x, a <= x < nx a b' -> x mod 4 = 0 -> is_Some (words h !! x)) ->
  (forall p, pv b' = Some p -> words h !! f_prev a = Some p) ->
  let h' := poke (f_size a) (hdr b') h in
  st (f_size a) (hdr b') h = Ret h' /\ mid (<[a := b']> B) fs h' /\ (forall c d, <[a := b']> B !! c = Some d -> keeps c (sz d) h h').
Proof.
  intros H Hp Hfs Hmem Hpv h'. destruct (pl_at _ Hp a b' (lookup_insert_eq _ _ _)) as (_ & H8 & Hs & _). split.
  - rewrite st_ok; [done|]. apply Hmem; unfold KHeap.f_size, KHeapShape.nx, at8 in *; [lia|Z.div_mod_to_equations; lia].
  - apply cell_put_ok; [done|by left|done|done|]. split; cbn [poke words].
    + apply lookup_insert_eq.
    + intros p E. rewrite lookup_insert_ne by (by apply size_ne_prev). by apply Hpv.
    + intros x Hx H4. apply poke_some. by apply Hmem.
Qed.

(** The size and the flags of a block that keeps its place. *)
Lemma put_flags B fs h a b b' :
  mid B fs h -> B !! a = Some b -> sz b' = sz b -> (forall p, pv b' = Some p -> words h !! f_prev a = Some p) ->
  let h' := poke (f_size a) (hdr b') h in
  st (f_size a) (hdr b') h = Ret h' /\ mid (<[a := b']> B) fs h' /\ (forall c d, B !! c = Some d -> keeps c (sz d) h h').
Proof.
  intros H Ha Es Hp h'. destruct H as [H1 H2 H3 H4]. destruct (put_size B fs h a b') as (E & Hm & Hk); try done.
  - by apply (placed_same B a b).
  - destruct (fs !! a) as [s|] eqn:E; [right|by left]. destruct (H4 a s E) as (d & Hd & <-). congruence.
  - intros x Hx. apply (ce_mem _ _ _ (H2 a b Ha)). unfold KHeapShape.nx in *. by rewrite <- Es.
  - split_and!; [done..|]. intros c d Hc. destruct (decide (c = a)) as [->|Hne].
    + assert (d = b) as -> by congruence. rewrite <- Es. apply Hk, lookup_insert_eq.
    + apply Hk. by rewrite lookup_insert_ne.
Qed.

(** The address of the block before. *)
Lemma put_prev B fs h a b b' p :
  mid B fs h -> B !! a = Some b -> sz b' = sz b -> hdr b' = hdr b -> pv b' = None \/ pv b' = Some p ->
  let h' := poke (f_prev a) p h in
  st (f_prev a) p h = Ret h' /\ mid (<[a := b']> B) fs h' /\ words h' !! f_prev a = Some p /\ (forall c d, B !! c = Some d -> keeps c (sz d) h h').
Proof.
  intros [H1 H2 H3 H4] Ha Es Eh Hp h'. destruct (pl_at B H1 a b Ha) as (_ & H8 & Hs & _). destruct (H2 a b Ha) as [C1 C2 C3]. split.
  - rewrite st_ok; [done|]. apply C3; unfold KHeap.f_prev, KHeapShape.nx, at8 in *; [lia|Z.div_mod_to_equations; lia].
  - destruct (cell_put_ok B fs h a b' (f_prev a) p) as [Hm Hk]; [done|by right|by apply (placed_same B a b)| | |].
    + destruct (fs !! a) as [s|] eqn:E; [right|by left]. destruct (H4 a s E) as (d & Hd & <-). congruence.
    + split; cbn [poke words].
      * rewrite lookup_insert_ne by (by apply not_eq_sym, size_ne_prev). by rewrite Eh.
      * intros q Eq. rewrite lookup_insert_eq. destruct Hp; congruence.
      * intros x Hx H5. apply poke_some. apply C3; [|done]. unfold KHeapShape.nx in *. by rewrite <- Es.
    + split_and!; [done|apply lookup_insert_eq|]. intros c d Hc. destruct (decide (c = a)) as [->|Hne].
      * assert (d = b) as -> by congruence. rewrite <- Es. apply Hk, lookup_insert_eq.
      * apply Hk. by rewrite lookup_insert_ne.
Qed.

(** A store outside of all blocks. *)
Lemma put_gap B fs h x v :
  mid B fs h -> (forall c d, B !! c = Some d -> x < c + HEAD - 8 \/ nx c d <= x) ->
  mid B fs (poke x v h) /\ forall c d, B !! c = Some d -> keeps c (sz d) h (poke x v h).
Proof.
  intros [H1 H2 [F HF] H4] Hx. split; [split; [done| | |done]|].
  - intros c d Hc. specialize (Hx c d Hc). destruct (pl_at B H1 c d Hc) as (_ & _ & Hs & _).
    eapply cell_ext; [| | |by apply H2]; cbn [poke words]; [rewrite lookup_insert_ne; [done|]..|intros y Hy; by apply poke_some];
      unfold KHeap.f_size, KHeap.f_prev, KHeapShape.nx in *; lia.
  - exists F. apply lists_write; [done| |]; intros c s Hs.
    + destruct (H4 c s Hs) as (d & Hd & <-). specialize (Hx c d Hd). pose proof (link_in fs F h c _ HF Hs). unfold KHeapShape.nx in *. split; intros ->; lia.
    + intros ->. destruct (H4 c s Hs) as (d & Hd & <-). specialize (Hx c d Hd). destruct (pl_at B H1 c d Hd) as (_ & _ & Hz & _).
      unfold KHeap.f_size, KHeapShape.nx in *. lia.
  - intros c d Hc y Hy. specialize (Hx c d Hc). cbn [poke words]. rewrite lookup_insert_ne; [done|]. unfold KHeapShape.nx in *. lia.
Qed.

Lemma mid_delete B fs h a : mid B fs h -> fs !! a = None -> mid (delete a B) fs h.
Proof.
  intros [H1 H2 H3 H4] Ha. split; [by apply placed_delete| |done|].
  - intros c d [_ Hc]%lookup_delete_Some. by apply H2.
  - intros c s Hs. destruct (H4 c s Hs) as (d & Hd & Ed). exists d. split; [|done]. rewrite lookup_delete_ne; [done|]. intros ->. congruence.
Qed.

Lemma mid_stats B fs h h' :
  mid B fs h -> words h' = words h -> freelist (mmhead h') = freelist (mmhead h) -> free_bitmap (mmhead h') = free_bitmap (mmhead h) -> mid B fs h'.
Proof.
  intros [H1 H2 [F [L1 L2 L3 L4 L5 L6 L7 L8 L9]] H4] E1 E2 E3. split; [done| | |done]; [by rewrite E1|].
  exists F. split; rewrite ?E1, ?E2, ?E3; done.
Qed.

(** ** List operations *)

Definition same_stats (h h' : heap) : Prop :=
  regioninfo (mmhead h') = regioninfo (mmhead h) /\ used_size (mmhead h') = used_size (mmhead h) /\
  maxused_size (mmhead h') = maxused_size (mmhead h) /\ free_size (mmhead h') = free_size (mmhead h) /\
  alloc_times (mmhead h') = alloc_times (mmhead h).

(** What changes only link fields. *)
Lemma links_out B fs h F b h' :
  mid B fs h -> lists_ok HEAD fs F h -> (exists d, B !! b = Some d /\ 32 <= sz d) -> only (links HEAD fs b) h h' ->
  (forall c d, B !! c = Some d -> cell c d (words h')) /\
  (forall c d, B !! c = Some d -> fs !! c = None -> c <> b -> keeps c (sz d) h h').
Proof.
  intros [H1 H2 _ H4] HF (db & Hb & Hs) [O1 O2 _].
  assert (forall y, y = b \/ is_Some (fs !! y) -> exists d, B !! y = Some d /\ 32 <= sz d) as Hy.
  { intros y [->|[s E]]; [by exists db|]. destruct (H4 y s E) as (d & Hd & <-). exists d. split; [done|]. by apply (link_in fs F h y). }
  assert (forall x, links HEAD fs b x -> exists y d, (y = b \/ is_Some (fs !! y)) /\ B !! y = Some d /\ y + HEAD <= x < nx y d) as Hl.
  { intros x (y & Hyb & Hx). destruct (Hy y Hyb) as (d & Hd & Hsd). exists y, d. split_and!; [done..| |];
      destruct Hx as [-> | ->]; unfold KHeap.f_fprev, KHeap.f_fnext, KHeapShape.nx; lia. }
  split.
  - intros c d Hc. eapply cell_ext; [apply O1..| |by apply H2]; [| |done]; intros (y & e & _ & He & Hr)%Hl;
      apply (header_out B c d y e) in Hr; try done; [by left|by right].
  - intros c d Hc Hf Hne x Hx. apply O1. intros (y & e & Hyb & He & Hr)%Hl.
    assert (y <> c) as Hyc by (intros ->; destruct Hyb as [->|[s E]]; congruence).
    destruct (Z.lt_trichotomy y c) as [Hlt|[->|Hlt]]; [|done|].
    + pose proof (pl_sep B H1 y e c d He Hc Hlt). lia.
    + pose proof (pl_sep B H1 c d y e Hc He Hlt). unfold KHeapShape.nx in *. lia.
Qed.

Lemma delete_step B fs h b s :
  mid B fs h -> fs !! b = Some s ->
  exists h', k_mm_freelist_delete HEAD b h = Ret h' /\ mid B (delete b fs) h' /\ same_stats h h' /\
    (forall c d, B !! c = Some d -> fs !! c = None -> keeps c (sz d) h h').
Proof.
  intros H Hb. pose proof H as [H1 H2 [F HF] H4]. destruct (delete_ok HEAD Hhead fs F h b s HF Hb) as (F' & h' & E & HF' & Ho).
  destruct (H4 b s Hb) as (db & Hdb & Edb). pose proof (link_in fs F h b s HF Hb) as [Hs _].
  destruct (links_out B fs h F b h' H HF) as [Hc Hk]; [exists db; split; [done|lia]|done|].
  exists h'. split_and!; [done| |by destruct Ho|].
  - split; [done|done|by exists F'|]. intros a t [_ Ha]%lookup_delete_Some. by apply H4.
  - intros c d Hd Hf. apply Hk; [done..|]. intros ->. congruence.
Qed.

Lemma insert_step B fs h b d :
  mid B fs h -> B !! b = Some d -> fs !! b = None -> 32 <= sz d < 2 ^ 28 ->
  exists h', k_mm_freelist_insert HEAD b h = Ret h' /\ mid B (<[b := sz d]> fs) h' /\ same_stats h h' /\
    (forall c e, B !! c = Some e -> fs !! c = None -> c <> b -> keeps c (sz e) h h').
Proof.
  intros H Hb Hf Hs. pose proof H as [H1 H2 [F HF] H4]. destruct (pl_at B H1 b d Hb) as (Hb0 & Hb8 & _ & Hs8). pose proof (H2 b d Hb) as [C1 C2 C3].
  assert (forall a t, fs !! a = Some t -> a + HEAD + 32 <= b \/ b + HEAD + 32 <= a) as Hsep.
  { intros a t Ha. destruct (H4 a t Ha) as (e & He & <-). pose proof (link_in fs F h a _ HF Ha) as [Ht _]. destruct (Z.lt_trichotomy a b) as [Hlt|[->|Hlt]].
    - pose proof (pl_sep B H1 a e b d He Hb Hlt). unfold KHeapShape.nx in *. lia.
    - congruence.
    - pose proof (pl_sep B H1 b d a e Hb He Hlt). unfold KHeapShape.nx in *. lia. }
  destruct (insert_ok HEAD Hhead fs F h b (sz d) (hdr d - sz d) HF Hf Hb0 Hb8 Hs Hs8) as (F' & h' & E & HF' & Ho); try done.
  - unfold hdr. destruct (fr d), (pv d); lia.
  - by replace (sz d + (hdr d - sz d)) with (hdr d) by lia.
  - apply C3; unfold KHeap.f_fprev, KHeapShape.nx, at8 in *; [lia|Z.div_mod_to_equations; lia].
  - apply C3; unfold KHeap.f_fnext, KHeapShape.nx, at8 in *; [lia|Z.div_mod_to_equations; lia].
  - destruct (links_out B fs h F b h' H HF) as [Hc Hk]; [exists d; split; [done|lia]|done|].
    exists h'. split_and!; [done| |by destruct Ho|done]. split; [done|done|by exists F'|].
    intros a t [[<- <-]|[_ Ha]]%lookup_insert_Some; [by exists d|by apply H4].
Qed.

End Mem.
