(* ===== verification/KHeapSearch.v ===== *)
(** * Finding a free block

    The search looks through the list of the requested size's level and then takes the
    first block of the lowest level above it that has one.  It fails only when no free
    block is large enough. *)

From stdpp Require Import gmap.
From S2P Require Import Prelude KBits KHeap KHeapLists.

Lemma level_size s t : 32 <= s -> 32 <= t -> level s < level t -> s < t.
Proof.
  unfold level. intros Hs Ht H. destruct (Z_lt_le_dec s t); [done|]. pose proof (Z.log2_le_mono t s). lia.
Qed.

(** The levels above [l], as [find_up_level] masks them. *)
Lemma up_mask_bit l i : 0 <= l < 24 -> 0 <= i < 32 -> Z.testbit (u32 (Z.shiftl (2 ^ 32 - 1) (l + 1))) i = bool_decide (l < i).
Proof.
  intros Hl Hi. unfold u32. rewrite Z.mod_pow2_bits_low by lia. rewrite Z.shiftl_spec by lia.
  replace (2 ^ 32 - 1) with (Z.ones 32) by done. case_bool_decide.
  - apply Z.ones_spec_low. lia.
  - apply Z.testbit_neg_r. lia.
Qed.

Section Search.
Context (HEAD : Z) (Hhead : 8 <= HEAD).
Context (fs : gmap Z Z) (F : list (list Z)) (h : heap) (H : lists_ok HEAD fs F h).

(** A list is not longer than memory. *)
Lemma list_short l L : F !! l = Some L -> (length L <= base.size (words h))%nat.
Proof.
  intros HL. destruct (lo_dls HEAD fs F h H l L HL) as [Hn _]. set (K := f_size HEAD <$> L).
  assert (NoDup K) as HK by (apply NoDup_fmap_2; [intros x y; unfold f_size; lia|done]).
  assert (length L = base.size (list_to_set K : gset Z)) as -> by (rewrite size_list_to_set by done; unfold K; by rewrite length_fmap).
  rewrite <- (size_dom (D := gset Z)). apply subseteq_size. intros x Hx%elem_of_list_to_set.
  apply list_elem_of_fmap in Hx as (a & -> & Ha). apply (lo_in HEAD fs F h H l L a HL) in Ha as (s & Hs & _).
  destruct (lo_word HEAD fs F h H a s Hs) as (fl & _ & Hw). apply elem_of_dom. by rewrite Hw.
Qed.

Lemma fit_ok size L : forall fuel p,
  (length L <= fuel)%nat -> dls HEAD (words h) p L 0 -> (forall a, a ∈ L -> is_Some (fs !! a)) ->
  exists r, find_fit HEAD fuel (hdo L 0) size h = Ret r /\
    ((r = 0 /\ forall a s, a ∈ L -> fs !! a = Some s -> s < size) \/ exists s, fs !! r = Some s /\ size <= s).
Proof.
  induction L as [|a L IH]; intros fuel p Hlen Hd Hin.
  - exists 0. split; [by destruct fuel|]. left. split; [done|]. by intros a s ?%elem_of_nil.
  - destruct fuel as [|fuel]; [cbn in Hlen; lia|]. destruct (Hin a) as [s Hs]; [by left|]. destruct Hd as (_ & Hnx & Hd).
    destruct (lo_size HEAD fs F h H a s Hs) as (Ha0 & _ & Hr & Hs8). destruct (lo_word HEAD fs F h H a s Hs) as (fl & Hfl & Hw).
    cbn [find_fit hdo]. rewrite decide_False by lia. rewrite (ld_ok _ _ _ Hw). cbn [mbind outcome_bind]. rewrite buf_size_flags by lia.
    case_decide as Hsz; [exists a; split; [done|]; right; by exists s|]. rewrite (ld_ok _ _ _ Hnx). cbn [mbind outcome_bind].
    destruct (IH fuel a) as (r & Er & Hres); [cbn in Hlen; lia|done|intros b Hb; apply Hin; by right|]. exists r. split; [done|].
    destruct Hres as [[-> Hall]|?]; [|by right]. left. split; [done|]. intros b t [->|Hb]%elem_of_cons Ht; [simplify_eq; lia|by apply (Hall b t)].
Qed.

Lemma up_ok l :
  0 <= l < 24 -> exists r, find_up_level l h = Ret r /\
    ((r = 0 /\ forall a s, fs !! a = Some s -> level s <= l) \/ exists s, fs !! r = Some s /\ l < level s).
Proof.
  intros Hl. unfold find_up_level. set (bm := Z.land _ _). pose proof (lo_bm HEAD fs F h H) as Hbm.
  assert (forall i, 0 <= i < 32 -> Z.testbit bm i = Z.testbit (free_bitmap (mmhead h)) i && bool_decide (l < i)) as Hbit.
  { intros i Hi. unfold bm. by rewrite Z.land_spec, up_mask_bit by lia. }
  assert (0 <= bm < 2 ^ 24) as Hr.
  { unfold bm. split; [apply Z.land_nonneg; lia|]. apply bitmap_range; [|apply Z.land_nonneg; lia]. intros i Hi.
    rewrite Z.land_spec. apply andb_false_iff. left. destruct (decide (free_bitmap (mmhead h) = 0)) as [->|]; [apply Z.bits_0|].
    apply Z.bits_above_log2; [lia|]. enough (Z.log2 (free_bitmap (mmhead h)) < 24) by lia. apply Z.log2_lt_pow2; lia. }
  assert (forall a s, fs !! a = Some s -> l < level s -> Z.testbit bm (level s) = true) as Hset.
  { intros a s Hs Hlt. destruct (lo_size HEAD fs F h H a s Hs) as (_ & _ & Hsz & _). destruct (size_level s Hsz) as [_ Hlv].
    destruct (list_of HEAD fs F h a s H Hs) as (L & HL & Ha). pose proof (lo_bits HEAD fs F h H _ L HL) as Eb. rewrite Z2Nat.id in Eb by lia.
    rewrite Hbit, Eb, !bool_decide_true by first [lia|by intros ->; apply elem_of_nil in Ha]. done. }
  destruct (decide (bm = 0)) as [E0|Hnz].
  - exists 0. rewrite E0. cbn -[MM_BIT_LEVEL]. split; [done|]. left. split; [done|]. intros a s Hs.
    destruct (Z_lt_le_dec l (level s)) as [Hlt|]; [|done]. specialize (Hset a s Hs Hlt). rewrite E0 in Hset. by rewrite Z.bits_0 in Hset.
  - destruct (ctz32_lowest bm) as (Hc0 & Hct & _); [lia|]. set (k := krhino_ctz32 bm) in *.
    assert (k < 24) as Hk.
    { destruct (Z_lt_le_dec k 24); [done|]. rewrite Z.bits_above_log2 in Hct; [done|lia|]. enough (Z.log2 bm < 24) by lia. apply Z.log2_lt_pow2; lia. }
    rewrite decide_True by done. rewrite Hbit in Hct by lia. apply andb_true_iff in Hct as [Hb Hlk%bool_decide_eq_true].
    destruct (lookup_lt_is_Some_2 F (Z.to_nat k)) as [L HL]; [rewrite (lo_len HEAD fs F h H); lia|].
    pose proof (get_list_ok HEAD fs F h _ L H HL) as Hget. rewrite Z2Nat.id in Hget by lia.
    pose proof (lo_bits HEAD fs F h H _ L HL) as Eb. rewrite Z2Nat.id, Hb in Eb by lia. symmetry in Eb. apply bool_decide_eq_true in Eb.
    exists (hdo L 0). split; [done|]. right. destruct L as [|a L]; [done|]. destruct (proj1 (lo_in HEAD fs F h H _ _ a HL)) as (s & Hs & El); [by left|].
    exists s. split; [done|lia].
Qed.

(** The search. *)
Lemma find_block_ok size :
  32 <= size < 2 ^ 28 -> exists r, find_block HEAD (level size) size h = Ret r /\
    ((r = 0 /\ forall a s, fs !! a = Some s -> s < size) \/ exists s, fs !! r = Some s /\ size <= s).
Proof.
  intros Hsz. destruct (size_level size Hsz) as [_ Hlv]. unfold find_block.
  destruct (lookup_lt_is_Some_2 F (Z.to_nat (level size))) as [L HL]; [rewrite (lo_len HEAD fs F h H); lia|].
  pose proof (get_list_ok HEAD fs F h _ L H HL) as Hget. rewrite Z2Nat.id in Hget by lia. rewrite Hget. cbn [mbind outcome_bind].
  destruct (lo_dls HEAD fs F h H _ L HL) as [_ Hd].
  destruct (fit_ok size L (base.size (words h)) 0) as (r & -> & Hres); [by apply (list_short (Z.to_nat (level size)))|done| |].
  { intros a (s & -> & _)%(lo_in HEAD fs F h H _ L a HL). done. }
  cbn [mbind outcome_bind]. destruct Hres as [[-> Hall]|(s & Hs & Hle)].
  - rewrite decide_True by done. destruct (up_ok (level size)) as (r & -> & Hup); [lia|]. exists r. split; [done|].
    destruct Hup as [[-> Hno]|(s & Hs & Hlt)].
    + left. split; [done|]. intros a s Hs. destruct (lo_size HEAD fs F h H a s Hs) as (_ & _ & Hr & _).
      destruct (list_of HEAD fs F h a s H Hs) as (L' & HL' & Ha). destruct (decide (level s = level size)) as [E|Hne].
      * rewrite E, HL in HL'. injection HL' as <-. by apply (Hall a).
      * apply level_size; [lia..|]. specialize (Hno a s Hs). lia.
    + right. exists s. split; [done|]. destruct (lo_size HEAD fs F h H r s Hs) as (_ & _ & Hr & _). apply Z.lt_le_incl, level_size; lia.
  - destruct (lo_size HEAD fs F h H r s Hs) as (Hr0 & _). rewrite decide_False by lia. exists r. split; [done|]. right. by exists s.
Qed.

(** ** The largest free block *)

Lemma max_walk_ok L : forall fuel p best,
  (length L <= fuel)%nat -> dls HEAD (words h) p L 0 -> (forall a, a ∈ L -> is_Some (fs !! a)) ->
  exists r, max_walk HEAD fuel (hdo L 0) best h = Ret r /\ best <= r /\ (forall a s, a ∈ L -> fs !! a = Some s -> s <= r) /\
    (r = best \/ exists a, fs !! a = Some r).
Proof.
  induction L as [|a L IH]; intros fuel p best Hlen Hd Hin.
  - exists best. split_and!; [by destruct fuel|lia|by intros a s ?%elem_of_nil|by left].
  - destruct fuel as [|fuel]; [cbn in Hlen; lia|]. destruct (Hin a) as [s Hs]; [by left|]. destruct Hd as (_ & Hnx & Hd).
    destruct (lo_size HEAD fs F h H a s Hs) as (Ha0 & _ & Hr & Hs8). destruct (lo_word HEAD fs F h H a s Hs) as (fl & Hfl & Hw).
    cbn [max_walk hdo]. rewrite decide_False by lia. rewrite (ld_ok _ _ _ Hw). cbn [mbind outcome_bind]. rewrite buf_size_flags by lia.
    rewrite (ld_ok _ _ _ Hnx). cbn [mbind outcome_bind]. set (b2 := if decide (best < s) then s else best).
    assert (best <= b2 /\ s <= b2 /\ (b2 = best \/ b2 = s)) as (H1 & H2 & H3) by (unfold b2; case_decide; auto with lia).
    destruct (IH fuel a b2) as (r & -> & Hb & Hall & Hex); [cbn in Hlen; lia|done|intros b Hb; apply Hin; by right|]. exists r. split_and!; [done|lia| |].
    + intros b t [->|Hb']%elem_of_cons Ht; [simplify_eq; lia|by apply (Hall b t)].
    + destruct Hex as [->|?]; [|by right]. destruct H3 as [->|E]; [by left|]. right. exists a. by rewrite E.
Qed.

(** [krhino_mm_max_free_size_get] looks at the highest level only. *)
Lemma max_free_ok :
  exists r, krhino_mm_max_free_size_get HEAD h = Ret r /\ (forall a s, fs !! a = Some s -> s <= r) /\ (r = 0 \/ exists a, fs !! a = Some r).
Proof.
  pose proof (lo_bm HEAD fs F h H) as Hbm. unfold krhino_mm_max_free_size_get. set (bm := free_bitmap (mmhead h)) in *.
  assert (forall a s, fs !! a = Some s -> 0 <= level s < 23 /\ Z.testbit bm (level s) = true) as Hset.
  { intros a s Hs. destruct (lo_size HEAD fs F h H a s Hs) as (_ & _ & Hsz & _). destruct (size_level s Hsz) as [_ Hlv]. split; [done|].
    destruct (list_of HEAD fs F h a s H Hs) as (L & HL & Ha). pose proof (lo_bits HEAD fs F h H _ L HL) as Eb. rewrite Z2Nat.id in Eb by lia.
    unfold bm. rewrite Eb. apply bool_decide_true. by intros ->; apply elem_of_nil in Ha. }
  destruct (decide (bm = 0)) as [E0|Hnz].
  - exists 0. rewrite E0. split_and!; [done| |by left]. intros a s (_ & Hb)%Hset. rewrite E0, Z.bits_0 in Hb. done.
  - rewrite clz32_log2 by lia. assert (0 <= Z.log2 bm < 24) as Hl by (split; [apply Z.log2_nonneg|apply Z.log2_lt_pow2; lia]).
    rewrite decide_False by lia. replace (31 - (31 - Z.log2 bm)) with (Z.log2 bm) by lia. set (k := Z.log2 bm) in *.
    destruct (lookup_lt_is_Some_2 F (Z.to_nat k)) as [L HL]; [rewrite (lo_len HEAD fs F h H); lia|].
    pose proof (get_list_ok HEAD fs F h _ L H HL) as Hget. rewrite Z2Nat.id in Hget by lia. rewrite Hget. cbn [mbind outcome_bind].
    destruct (lo_dls HEAD fs F h H _ L HL) as [_ Hd].
    destruct (max_walk_ok L (base.size (words h)) 0 0) as (r & E & H0 & Hall & Hex); [by apply (list_short (Z.to_nat k))|done| |].
    { intros a (s & -> & _)%(lo_in HEAD fs F h H _ L a HL). done. }
    exists r. split_and!; [done| |done]. intros a s Hs. destruct (Hset a s Hs) as [Hlv Hb]. destruct (lo_size HEAD fs F h H a s Hs) as (_ & _ & Hr & _).
    assert (level s <= k) as Hle.
    { destruct (Z_le_gt_dec (level s) k); [done|]. rewrite Z.bits_above_log2 in Hb by lia. done. }
    destruct (decide (level s = k)) as [Ek|Hne].
    + apply (Hall a s); [|done]. apply (lo_in HEAD fs F h H _ L a HL). exists s. split; [done|lia].
    + pose proof (lo_bits HEAD fs F h H _ L HL) as Eb. rewrite Z2Nat.id in Eb by lia. unfold k in Eb. rewrite Z.bit_log2 in Eb by lia.
      symmetry in Eb. apply bool_decide_eq_true in Eb. destruct L as [|c L]; [done|]. destruct (proj1 (lo_in HEAD fs F h H _ _ c HL)) as (t & Ht & El); [by left|].
      destruct (lo_size HEAD fs F h H c t Ht) as (_ & _ & Hrt & _). pose proof (level_size s t ltac:(lia) ltac:(lia) ltac:(lia)). pose proof (Hall c t ltac:(by left) Ht). lia.
Qed.

End Search.
