(* ===== verification/KHeapCut.v ===== *)
(** * Blocks in use, and cutting one

    What of the blocks is free and what is in use, and the stores with which a used block
    gives up the space behind its first bytes; allocating and resizing share them. *)

From stdpp Require Import gmap.
From S2P Require Import Prelude KBits KHeap KHeapLists KHeapShape KHeapMem.

(** ** Free and used blocks *)

Definition as_free (b : blk) : option Z := if fr b then Some (sz b) else None.
Definition as_used (b : blk) : option Z := if fr b then None else if decide (sz b = 0) then None else Some (sz b).
Definition free_of (B : gmap Z blk) : gmap Z Z := omap as_free B.
Definition used_of (B : gmap Z blk) : gmap Z Z := omap as_used B.

Lemma free_of_some B a s : free_of B !! a = Some s <-> exists b, B !! a = Some b /\ fr b = true /\ sz b = s.
Proof.
  unfold free_of. rewrite lookup_omap_Some. unfold as_free. split.
  - intros (b & E & Hb). destruct (fr b) eqn:Ef; [|done]. injection E as <-. by exists b.
  - intros (b & Hb & Ef & <-). exists b. by rewrite Ef.
Qed.

Lemma used_of_some B a s : used_of B !! a = Some s <-> exists b, B !! a = Some b /\ fr b = false /\ sz b = s /\ s <> 0.
Proof.
  unfold used_of. rewrite lookup_omap_Some. unfold as_used. split.
  - intros (b & E & Hb). destruct (fr b) eqn:Ef; [done|]. case_decide; [done|]. injection E as <-. by exists b.
  - intros (b & Hb & Ef & <- & Hs). exists b. by rewrite Ef, decide_False.
Qed.

Lemma free_of_none B a : (forall b, B !! a = Some b -> fr b = false) -> free_of B !! a = None.
Proof. intros H. destruct (free_of B !! a) eqn:E; [|done]. apply free_of_some in E as (b & Hb & Ef & _). rewrite (H b Hb) in Ef. done. Qed.

Lemma free_of_at B a : free_of B !! a = B !! a ≫= as_free.
Proof. apply lookup_omap. Qed.
Lemma used_of_at B a : used_of B !! a = B !! a ≫= as_used.
Proof. apply lookup_omap. Qed.

(** Lookups in an updated map. *)
Ltac look :=
  repeat first [rewrite lookup_insert_eq | rewrite lookup_delete_eq
    | rewrite lookup_insert_ne by (congruence || lia) | rewrite lookup_delete_ne by (congruence || lia)].

Section Cut.
Context (HEAD : Z) (Hhead : 8 <= HEAD) (Hhead8 : HEAD mod 8 = 0).

Abbreviation nx := (nx HEAD).
Abbreviation f_size := (f_size HEAD).
Abbreviation f_prev := (f_prev HEAD).
Abbreviation mid := (mid HEAD).
Abbreviation keeps := (keeps HEAD).

(** The heap's memory and lists stand for the blocks [B]. *)
Record heap_ok (B : gmap Z blk) (h : heap) : Prop := HeapOk {
  ho_shape : shape_ok HEAD B;
  ho_mid : mid B (free_of B) h
}.

Lemma placed_sub B S :
  (forall a d, B !! a = Some d -> exists e, S !! a = Some e /\ sz e = sz d) -> placed HEAD S -> placed HEAD B.
Proof.
  intros Hs [H1 H2]. split.
  - intros a d Hd. destruct (Hs a d Hd) as (e & He & <-). by apply (H1 a e).
  - intros a b c d Hb Hd Hlt. destruct (Hs a b Hb) as (e & He & E), (Hs c d Hd) as (g & Hg & _).
    unfold KHeapShape.nx. rewrite <- E. by apply (H2 a e c g).
Qed.

(** Reading the header of a block. *)
Lemma ld_size B fs h a b : mid B fs h -> B !! a = Some b -> ld (f_size a) h = Ret (hdr b).
Proof. intros H Ha. apply ld_ok. by apply (ce_size HEAD a b _ (mi_mem HEAD B fs h H a b Ha)). Qed.

Lemma mid_buf B fs h a b : mid B fs h -> B !! a = Some b -> MM_BUF_SIZE (hdr b) = sz b.
Proof. intros H Ha. destruct (pl_at HEAD B (mi_placed HEAD B fs h H) a b Ha) as (_ & _ & ? & ?). by apply hdr_buf. Qed.

Lemma mid_next B fs h a b : mid B fs h -> B !! a = Some b -> next_blk HEAD a (hdr b) = nx a b.
Proof. intros H Ha. unfold next_blk. by rewrite (mid_buf B fs h a b H Ha). Qed.

(** The address and the flag of the block behind, as the code sets them. *)
Lemma set_behind B fs n e q g h :
  mid B fs h -> B !! n = Some (set_pv q e) ->
  exists h1 ns h', st (f_prev n) g h = Ret h1 /\ ld (f_size n) h1 = Ret ns /\ st (f_size n) (Z.lor ns MM_BUFF_PREV_FREE) h1 = Ret h' /\
    mid (<[n := set_pv (Some g) e]> B) fs h' /\ forall c d, B !! c = Some d -> keeps c (sz d) h h'.
Proof.
  intros Hm Hn. set (e1 := match q with Some _ => set_pv (Some g) e | None => set_pv q e end).
  destruct (put_prev HEAD Hhead Hhead8 B fs h n (set_pv q e) e1 g Hm Hn) as (E1 & M1 & W1 & K1); [by destruct q|by destruct q|destruct q; [by right|by left]|].
  set (h1 := poke _ _ h) in *. exists h1, (hdr e1). rewrite (ld_size _ _ h1 _ e1 M1 (lookup_insert_eq _ _ _)).
  assert (Z.lor (hdr e1) MM_BUFF_PREV_FREE = hdr (set_pv (Some g) e)) as ->.
  { destruct (pl_at HEAD _ (mi_placed _ _ _ _ M1) _ e1 (lookup_insert_eq _ _ _)) as (_ & _ & _ & H8). rewrite <- (hdr_set_pv e1 H8 (Some g)). by destruct q. }
  destruct (put_flags HEAD Hhead Hhead8 _ fs h1 n e1 (set_pv (Some g) e) M1 (lookup_insert_eq _ _ _)) as (E2 & M2 & K2); [by destruct q|by intros r [= <-]|].
  rewrite insert_insert_eq in M2. eexists. split_and!; try done. intros c d Hd. apply (keeps_trans HEAD) with h1; [by apply K1|].
  destruct (decide (c = n)) as [->|Hne]; [|apply K2; by look]. rewrite Hn in Hd. injection Hd as <-.
  assert (sz (set_pv q e) = sz e1) as -> by (by destruct q). apply K2, lookup_insert_eq.
Qed.

(** The block behind a free one. *)
Lemma behind_free B a b :
  shape_ok HEAD B -> B !! a = Some b -> fr b = true ->
  32 <= sz b < 2 ^ 28 /\ pv b = None /\ exists c, B !! nx a b = Some c /\ pv c = Some a /\ fr c = false /\ lim c = lim b /\ a < nx a b.
Proof.
  intros H Ha Hf. destruct (sh_blk HEAD B H a b Ha) as [P0 P1 P2 P3 P4 P5 P6].
  assert (sz b <> 0) as Hz by (intros E; rewrite (P3 E) in Hf; done). destruct (P4 Hz) as [P4a P4b]. unfold KHeapShape.nx in *.
  split; [lia|]. split; [by apply P6|]. destruct (sh_next HEAD B H a b Ha Hz) as (c & Hc & Ec & El). exists c. rewrite Hf in Ec. split_and!; try done; [|lia].
  destruct (fr c) eqn:Efc; [|done]. pose proof (bo_alt HEAD _ _ (sh_blk HEAD B H _ c Hc) Efc). congruence.
Qed.

Lemma block_at8 B h a s : heap_ok B h -> used_of B !! a = Some s -> 0 < a /\ a mod 8 = 0.
Proof. intros [S _] (b & Hb & _)%used_of_some. by destruct (sh_blk HEAD B S a b Hb) as [? ? _ _ _ _ _]. Qed.

(** Used blocks do not overlap, headers included. *)
Lemma used_apart B h a s c t : heap_ok B h -> used_of B !! a = Some s -> used_of B !! c = Some t -> a < c -> a + HEAD + s <= c.
Proof. intros [S _] (b & Hb & _ & <- & _)%used_of_some (d & Hd & _)%used_of_some. by apply (sh_sep HEAD B S a b c d). Qed.

(** ** Cutting a used block *)

(** The space of [b] is given up behind its first [size] bytes.  The header words may
    still be older than [B]: [b0] is what they say of [b], and [q] is in the block [e]
    behind. *)
Section Resplit.
Context (B : gmap Z blk) (a size : Z) (b e b0 : blk) (q : option Z).
Context (S : shape_ok HEAD B) (Ha : B !! a = Some b) (Hu : fr b = false) (He : B !! nx a b = Some e) (Hfe : fr e = false).
Context (Hs : 32 <= size) (Hs8 : size mod 8 = 0) (Hfit : size + HEAD + 32 <= sz b) (Hb0 : pv b0 = pv b).

Definition rs_new : Z := a + HEAD + size.
Definition rs_rest : blk := Blk (sz b - size - HEAD) true None (lim b).
Definition rs_used : blk := set_sz size b.
Definition rs_old : gmap Z blk := <[nx a b := set_pv q e]> (<[a := b0]> B).
Definition rs_map : gmap Z blk := <[nx a b := set_pv (Some rs_new) e]> (<[rs_new := rs_rest]> (<[a := rs_used]> B)).

Lemma rs_facts : 0 < a < rs_new /\ rs_new < nx a b /\ at8 a /\ B !! rs_new = None /\ sz b mod 8 = 0 /\ sz b < 2 ^ 28 /\ pv e = None.
Proof.
  destruct (sh_blk HEAD B S a b Ha) as [P0 P1 [P2 P2'] P3 P4 P5 P6]. destruct P4 as [P4a P4b]; [lia|].
  destruct (sh_next HEAD B S a b Ha ltac:(lia)) as (e' & He' & Ep & _). rewrite He in He'. injection He' as <-. rewrite Hu in Ep.
  assert (a < rs_new < nx a b) as Hn by (unfold rs_new, KHeapShape.nx; lia). split_and!; try done; try lia.
  - by apply (inside_none HEAD B a b).
  - unfold KHeapShape.nx in *. lia.
Qed.

Lemma rs_at x : rs_map !! x =
  if decide (x = nx a b) then Some (set_pv (Some rs_new) e) else if decide (x = rs_new) then Some rs_rest
  else if decide (x = a) then Some rs_used else B !! x.
Proof. unfold rs_map. repeat case_decide; subst; look; done. Qed.

Lemma rs_old_at x : rs_old !! x = if decide (x = nx a b) then Some (set_pv q e) else if decide (x = a) then Some (b0) else B !! x.
Proof. unfold rs_old. repeat case_decide; subst; look; done. Qed.

(** The cut as a split and a mark; it keeps the shape and the space. *)
Lemma rs_shape_space : shape_ok HEAD rs_map /\ same_space HEAD B rs_map.
Proof.
  destruct rs_facts as (Hn & Hn' & H8 & Hnone & Hb8 & _ & Epe).
  set (T := split_at HEAD a size (sz b - size - HEAD) b B).
  assert (shape_ok HEAD T) as S2 by (apply split_ok; try done; [lia|lia|Z.div_mod_to_equations; lia]).
  set (r := Blk (sz b - size - HEAD) false None (lim b)). assert (nx rs_new r = nx a b) as Ene by (unfold KHeapShape.nx, rs_new, r; cbn; lia).
  assert (T !! rs_new = Some r) as T1 by (unfold T, split_at; rewrite lookup_insert_ne by lia; apply lookup_insert_eq).
  assert (T !! nx rs_new r = Some e) as T2 by (rewrite Ene; unfold T, split_at; fold rs_new; by rewrite !lookup_insert_ne by lia).
  assert (shape_ok HEAD (mark HEAD true rs_new r e T)) as S3 by (apply flag_ok; try done; cbn; lia).
  assert (same_space HEAD B (mark HEAD true rs_new r e T)) as P3.
  { transitivity T; [apply split_space; try done; lia|by apply mark_space]. }
  replace rs_map with (mark HEAD true rs_new r e T); [done|]. apply map_eq. intros x. rewrite rs_at.
  unfold mark. rewrite Ene. unfold T, split_at. fold rs_new. repeat case_decide; subst; look; done || lia.
Qed.

Lemma rs_shape : shape_ok HEAD rs_map.
Proof. apply rs_shape_space. Qed.

Lemma rs_sets : free_of rs_map = <[rs_new := sz rs_rest]> (free_of B) /\ used_of rs_map = <[a := size]> (used_of B).
Proof.
  destruct rs_facts as (Hn & Hn' & H8 & Hnone & Hb8 & _ & Epe).
  split; apply map_eq; intros x; rewrite ?free_of_at, ?used_of_at, rs_at;
    (destruct (decide (x = nx a b)) as [->|Hxn]; [|destruct (decide (x = rs_new)) as [->|Hxc]; [|destruct (decide (x = a)) as [->|Hxa]]]).
  all: look. all: rewrite ?free_of_at, ?used_of_at, ?He, ?Hnone, ?Ha; cbn; unfold as_free, as_used; cbn; rewrite ?Hfe, ?Hu; try done.
  by rewrite decide_False by lia.
Qed.

(** The blocks on the way. *)
Definition rs_mid1 : gmap Z blk := <[a := rs_used]> rs_old.
Definition rs_mid2 : gmap Z blk := <[rs_new := rs_rest]> rs_mid1.

Lemma rs_none : rs_mid1 !! rs_new = None.
Proof. destruct rs_facts as (Hn & Hn' & _ & Hnone & _). unfold rs_mid1. look. by rewrite rs_old_at, !decide_False by lia. Qed.

Lemma rs_12 x d : rs_mid1 !! x = Some d -> x <> rs_new /\ rs_mid2 !! x = Some d.
Proof.
  intros Hd. assert (x <> rs_new) as Hx by (intros ->; by rewrite rs_none in Hd). split; [done|]. unfold rs_mid2. by look.
Qed.

Lemma rs_placed2 : placed HEAD rs_mid2.
Proof.
  destruct rs_facts as (Hn & Hn' & _). apply (placed_sub _ rs_map); [|apply shape_placed, rs_shape]. intros x d Hd. rewrite rs_at. revert Hd. unfold rs_mid2, rs_mid1.
  destruct (decide (x = nx a b)) as [->|H1]; [look; rewrite rs_old_at, decide_True by done; intros [= <-]; by eexists|].
  destruct (decide (x = rs_new)) as [->|H2]; [look; intros [= <-]; by eexists|]. destruct (decide (x = a)) as [->|H3]; [look; intros [= <-]; by eexists|].
  look. rewrite rs_old_at, !decide_False by done. by eexists.
Qed.

Lemma rs_placed1 : placed HEAD rs_mid1.
Proof. apply (placed_sub _ rs_mid2), rs_placed2. intros x d Hd. exists d. split; [by apply rs_12|done]. Qed.

(** The header of the new block is in nobody's space yet. *)
Lemma rs_gap x d : rs_mid1 !! x = Some d -> f_prev rs_new < x + HEAD - 8 \/ nx x d <= f_prev rs_new.
Proof.
  intros Hd. destruct (rs_12 x d Hd) as [Hxn Hd2]. assert (rs_mid2 !! rs_new = Some rs_rest) as Hnew by apply lookup_insert_eq.
  unfold KHeap.f_prev. destruct (Z.lt_trichotomy x rs_new) as [Hlt|[->|Hlt]]; [|done|].
  - pose proof (pl_sep HEAD _ rs_placed2 x d _ _ Hd2 Hnew Hlt). lia.
  - pose proof (pl_sep HEAD _ rs_placed2 _ _ x d Hnew Hd2 Hlt). unfold KHeapShape.nx, rs_rest in *. cbn in *. lia.
Qed.

(** The size words, up to the block behind. *)
Lemma rs_words h :
  mid rs_old (free_of B) h -> (forall x, a <= x < nx a b -> x mod 4 = 0 -> is_Some (words h !! x)) ->
  exists h1 h2 h3, st (f_size a) (Z.lor size (Z.land (hdr b0) 2)) h = Ret h1 /\ st (f_prev rs_new) a h1 = Ret h2 /\
    st (f_size rs_new) (Z.lor (sz b - size - HEAD) MM_BUFF_FREE) h2 = Ret h3 /\ mid rs_mid2 (free_of B) h3 /\
    (forall x d, rs_old !! x = Some d -> x <> a -> keeps x (sz d) h h3) /\ keeps a size h h3.
Proof.
  intros Hm Hmem. destruct rs_facts as (Hn & Hn' & H8 & Hnone & Hb8 & Hbs & Epe).
  assert (rs_old !! a = Some b0) as Oa by (rewrite rs_old_at, decide_False by lia; by rewrite decide_True).
  assert (free_of B !! a = None) as Hfa by (apply free_of_none; congruence).
  destruct (pl_at HEAD _ (mi_placed _ _ _ _ Hm) a _ Oa) as (_ & _ & _ & Hs8'). rewrite hdr_cut by (done || lia).
  assert (hdr (set_fr false (set_sz size b0)) = hdr rs_used) as -> by (unfold hdr, rs_used; cbn; by rewrite Hu, Hb0).
  destruct (put_size HEAD Hhead Hhead8 rs_old _ h a rs_used Hm rs_placed1) as (E1 & M1 & K1); [by left| | |].
  { intros x Hx. apply Hmem. unfold rs_new, KHeapShape.nx, rs_used in *. cbn in Hx. lia. }
  { intros p Ep. apply (ce_prev HEAD a _ _ (mi_mem _ _ _ _ Hm a _ Oa)). by rewrite Hb0. }
  set (h1 := poke _ _ h) in *. fold rs_mid1 in M1, K1. exists h1.
  assert (st (f_prev rs_new) a h1 = Ret (poke (f_prev rs_new) a h1)) as E2.
  { rewrite st_ok; [done|]. apply poke_some, Hmem; unfold KHeap.f_prev, KHeapShape.nx, rs_new, at8 in *; [lia|Z.div_mod_to_equations; lia]. }
  destruct (put_gap HEAD rs_mid1 _ h1 (f_prev rs_new) a M1 rs_gap) as [M2 K2]. set (h2 := poke _ _ h1) in *. exists h2.
  rewrite (hdr_new _ (lim b)) by (try lia; Z.div_mod_to_equations; lia). fold rs_rest.
  destruct (put_size HEAD Hhead Hhead8 rs_mid1 _ h2 rs_new rs_rest M2 rs_placed2) as (E3 & M3 & K3); [left; by rewrite free_of_at, Hnone| |done|].
  { intros x Hx H4. do 2 apply poke_some. apply Hmem; [|done]. unfold KHeapShape.nx, rs_new in *. cbn in Hx. lia. }
  set (h3 := poke _ _ h2) in *. exists h3. assert (forall x d, rs_mid1 !! x = Some d -> keeps x (sz d) h h3) as K.
  { intros x d Hd. apply (keeps_trans HEAD) with h2; [apply (keeps_trans HEAD) with h1; [by apply K1|by apply K2]|]. apply K3. by apply rs_12. }
  split_and!; try done; [intros x d Hd Hxa; apply K; unfold rs_mid1; by look|]. apply (K a rs_used). apply lookup_insert_eq.
Qed.

(** The rest goes to its list, once the block behind has its address. *)
Lemma rs_end h :
  mid rs_map (free_of B) h -> exists h', k_mm_freelist_insert HEAD rs_new h = Ret h' /\ heap_ok rs_map h' /\
    (forall x d, rs_map !! x = Some d -> free_of B !! x = None -> x <> rs_new -> keeps x (sz d) h h').
Proof.
  intros Hm. destruct rs_facts as (Hn & Hn' & H8 & Hnone & Hb8 & Hbs & Epe). destruct rs_sets as [Ef _].
  destruct (insert_step HEAD Hhead Hhead8 rs_map _ h rs_new rs_rest Hm) as (h' & E & M & _ & K); [| |cbn; lia|].
  - rewrite rs_at, decide_False by lia. by rewrite decide_True.
  - by rewrite free_of_at, Hnone.
  - exists h'. split_and!; try done. split; [apply rs_shape|]. by rewrite Ef.
Qed.
End Resplit.
End Cut.
