(* ===== verification/KHeapAlloc.v ===== *)
(** * Allocating

    What [heap_alloc] does to the blocks of the heap: it hands out a block that was
    free, large enough, and keeps every other block that is in use. *)

From stdpp Require Import gmap.
From S2P Require Import Prelude KBits KHeap KHeapLists KHeapShape KHeapMem KHeapSearch KHeapCut.

Section Alloc.
Context (HEAD : Z) (Hhead : 8 <= HEAD) (Hhead8 : HEAD mod 8 = 0).

Abbreviation nx := (nx HEAD).
Abbreviation f_size := (f_size HEAD).
Abbreviation f_prev := (f_prev HEAD).
Abbreviation mid := (mid HEAD).
Abbreviation keeps := (keeps HEAD).
Abbreviation heap_ok := (heap_ok HEAD).

(** ** Taking a whole block *)

(** Clearing the flag of a block and of the one behind it. *)
Lemma take_whole B h a b :
  shape_ok HEAD B -> B !! a = Some b -> fr b = true -> mid B (delete a (free_of B)) h ->
  exists c h', B !! nx a b = Some c /\
    (ns ← ld (f_size (nx a b)) h; st (f_size (nx a b)) (Z.land ns (Z.lnot MM_BUFF_PREV_FREE)) h) = Ret h' /\
    mid (<[nx a b := set_pv None c]> B) (delete a (free_of B)) h' /\ same_stats h h' /\ (forall c d, B !! c = Some d -> keeps c (sz d) h h').
Proof.
  intros H Ha Hf Hm. destruct (behind_free HEAD Hhead B a b H Ha Hf) as (_ & _ & c & Hc & Epc & Efc & _). exists c.
  rewrite (ld_size HEAD B _ h _ c Hm Hc). cbn [mbind outcome_bind]. destruct (pl_at HEAD B (mi_placed _ _ _ _ Hm) _ c Hc) as (_ & _ & Hs & Hs8).
  pose proof (hdr_set_pv c Hs8 None) as E. cbn in E. rewrite <- E.
  destruct (put_flags HEAD Hhead Hhead8 B _ h _ c (set_pv None c) Hm Hc) as (Est & Hm' & Hk); [done|done|]. eexists. split; [done|]. rewrite Est. split_and!; done.
Qed.

(** ** The operation *)

(** A buffer of [s] bytes for block [a] is handed out: it was in use by nobody, and the
    buffers in use keep their contents. *)
Record handed (B B' : gmap Z blk) (h h' : heap) (a s : Z) : Prop := Handed {
  ha_ok : heap_ok B' h';
  ha_fresh : used_of B !! a = None;
  ha_used : used_of B' = <[a := s]> (used_of B);
  ha_space : same_space HEAD B B';
  ha_keeps : forall c n, used_of B !! c = Some n -> keeps c n h h'
}.

Lemma request_ok size : 0 <= size <= 2 ^ 32 - 8 -> 32 <= request size < 2 ^ 32 /\ request size mod 8 = 0 /\ size <= request size < size + 32 + 8.
Proof.
  intros Hs. unfold request, MM_ALIGN_UP, MM_MIN_SIZE. rewrite u32_id by lia. change (Z.land (size + 7) (Z.lnot 7)) with (MM_BUF_SIZE (size + 7)).
  rewrite buf_size_div by lia. case_decide; Z.div_mod_to_equations; lia.
Qed.

(** The sizes that rounding up wraps around are requests for the least size. *)
Lemma request_wraps size : 2 ^ 32 - 7 <= size < 2 ^ 32 -> request size = 32.
Proof.
  intros Hs. unfold request, MM_ALIGN_UP, MM_MIN_SIZE, u32. rewrite <- (Z.mod_unique (size + 7) (2 ^ 32) 1 (size + 7 - 2 ^ 32)) by lia.
  change (Z.land (size + 7 - 2 ^ 32) (Z.lnot 7)) with (MM_BUF_SIZE (size + 7 - 2 ^ 32)). rewrite buf_size_div by lia. case_decide; Z.div_mod_to_equations; lia.
Qed.

Lemma request_any size : 0 <= size < 2 ^ 32 -> 32 <= request size < 2 ^ 32 /\ request size mod 8 = 0.
Proof.
  intros Hs. destruct (decide (size <= 2 ^ 32 - 8)); [destruct (request_ok size) as (? & ? & _); [lia|done]|].
  rewrite request_wraps by lia. by split.
Qed.

Lemma size_no_level s : 2 ^ 28 <= s < 2 ^ 32 -> size_to_level s = -1.
Proof.
  intros Hs. unfold size_to_level, MM_MIN_BIT, MM_MAX_BIT. case_decide; [done|]. rewrite clz32_log2 by lia.
  assert (28 <= Z.log2 s) by (apply Z.log2_le_pow2; lia). rewrite decide_False by lia. by rewrite decide_True by lia.
Qed.

(** The block has become a used one. *)
Lemma handed_by B B' h h1 h' a b s fs :
  heap_ok B h -> B !! a = Some b -> fr b = true -> shape_ok HEAD B' -> mid B' fs h' -> free_of B' = fs ->
  used_of B' = <[a := s]> (used_of B) -> same_space HEAD B B' ->
  (forall c d, B !! c = Some d -> free_of B !! c = None -> keeps c (sz d) h h1) ->
  (forall c d, B !! c = Some d -> free_of B !! c = None -> c <> a -> keeps c (sz d) h1 h') -> handed B B' h h' a s.
Proof.
  intros [H1 H2] Ha Hf S Hm <- Hu Hsp K1 K2. split; [done| |done|done|].
  - rewrite used_of_at, Ha. cbn. unfold as_used. by rewrite Hf.
  - intros c n (d & Hd & Efd & <- & Hz)%used_of_some. assert (free_of B !! c = None) as Hn by (apply free_of_none; congruence).
    apply (keeps_trans HEAD) with h1; [by apply K1|]. apply K2; [done..|]. congruence.
Qed.

Lemma whole_sets B a b c :
  shape_ok HEAD B -> B !! a = Some b -> fr b = true -> B !! nx a b = Some c ->
  free_of (mark HEAD false a b c B) = delete a (free_of B) /\ used_of (mark HEAD false a b c B) = <[a := sz b]> (used_of B).
Proof.
  intros H Ha Hf Hc. destruct (behind_free HEAD Hhead B a b H Ha Hf) as (Hsb & _ & c' & Hc' & _ & Efc & _ & Hlt). rewrite Hc in Hc'. injection Hc' as <-.
  split; apply map_eq; intros x; rewrite ?free_of_at, ?used_of_at; unfold mark;
    (destruct (decide (x = a)) as [->|Hxa]; [|destruct (decide (x = nx a b)) as [->|Hxn]]).
  all: look. all: rewrite ?free_of_at, ?used_of_at, ?Hc; cbn; unfold as_free, as_used; cbn; rewrite ?Efc, ?decide_False by lia; done.
Qed.

(** ** Cutting a free block *)

Lemma mid2_map B a size b e b0 q : rs_new HEAD a size <> nx a b -> a <> nx a b ->
  <[nx a b := set_pv (Some (rs_new HEAD a size)) e]> (rs_mid2 HEAD B a size b e b0 q) = rs_map HEAD B a size b e.
Proof.
  intros H1 H2. apply map_eq. intros x. rewrite rs_at. unfold rs_mid2, rs_mid1. repeat case_decide; subst; look; try done.
  rewrite rs_old_at. by rewrite !decide_False.
Qed.

Lemma alloc_cut B a b c size h :
  shape_ok HEAD B -> B !! a = Some b -> fr b = true -> B !! nx a b = Some c -> mid B (delete a (free_of B)) h ->
  32 <= size -> size mod 8 = 0 -> size + HEAD + 32 <= sz b ->
  exists B' b' h', (h ← split_blk HEAD a size (hdr b) (nx a b) h; k_mm_freelist_insert HEAD (a + HEAD + size) h) = Ret h' /\
    heap_ok B' h' /\ same_space HEAD B B' /\ B' !! a = Some b' /\ fr b' = false /\ used_of B' = <[a := size]> (used_of B) /\
    (forall x d, B !! x = Some d -> free_of B !! x = None -> exists d', B' !! x = Some d' /\ sz d' = sz d /\ keeps x (sz d) h h').
Proof.
  intros S Ha Hf Hc Hm Hs Hs8 Hfit. destruct (behind_free HEAD Hhead B a b S Ha Hf) as (Hsb & _ & c' & Hc' & Epc & Efc & _ & Hlt). rewrite Hc in Hc'. injection Hc' as <-.
  destruct (whole_sets B a b c S Ha Hf Hc) as [Ef0 Eu0]. set (B1 := mark HEAD false a b c B) in *. set (b1 := set_fr false b). set (e := set_pv None c).
  assert (shape_ok HEAD B1) as S1 by (apply flag_ok; try done; lia). assert (B1 !! a = Some b1) as Ha1 by apply lookup_insert_eq.
  assert (B1 !! nx a b1 = Some e) as He1 by (unfold B1, mark; change (nx a b1) with (nx a b); by look).
  assert (rs_old HEAD B1 a b1 e b (Some a) = B) as Eold.
  { apply map_eq. intros x. rewrite rs_old_at. change (nx a b1) with (nx a b). case_decide; [subst; unfold e; rewrite Hc; f_equal; by destruct c; cbn in *; subst|].
    case_decide; [by subst|]. unfold B1, mark. by look. }
  destruct (rs_facts HEAD Hhead B1 a size b1 e S1 Ha1 eq_refl He1 Hs Hfit) as (Hn & Hn' & _ & Hnone & _). change (nx a b1) with (nx a b) in Hn'. set (new := rs_new HEAD a size) in *.
  destruct (rs_words HEAD Hhead Hhead8 B1 a size b1 e b (Some a) S1 Ha1 eq_refl He1 Efc Hs Hs8 Hfit eq_refl h) as (h1 & h2 & h3 & E1 & E2 & E3 & M3 & K3 & _).
  { by rewrite Eold, Ef0. }
  { apply (ce_mem HEAD a b _ (mi_mem HEAD B _ h Hm a b Ha)). }
  set (B2 := rs_mid2 HEAD B1 a size b1 e b (Some a)) in *. fold new in E2, E3.
  assert (B2 !! nx a b = Some (set_pv (Some a) e)) as Hn2 by (unfold B2, rs_mid2, rs_mid1; fold new; rewrite 2!lookup_insert_ne by lia; rewrite rs_old_at; by rewrite decide_True).
  destruct (put_prev HEAD Hhead Hhead8 B2 _ h3 (nx a b) _ (set_pv (Some new) e) new M3 Hn2) as (E4 & M4 & _ & K4); [done|done|by right|].
  set (h4 := poke _ _ h3) in *. assert (<[nx a b := set_pv (Some new) e]> B2 = rs_map HEAD B1 a size b1 e) as Emap by (apply (mid2_map B1 a size b1 e b (Some a)); fold new; change (nx a b1) with (nx a b); lia).
  rewrite Emap in M4. destruct (rs_end HEAD Hhead Hhead8 B1 a size b1 e S1 Ha1 eq_refl He1 Efc Hs Hs8 Hfit h4 M4) as (h5 & E5 & HO & K5).
  unfold split_blk. rewrite (mid_buf HEAD B _ h a b Hm Ha), E1. cbn [mbind outcome_bind].
  change (a + HEAD + size) with new. rewrite E2. cbn [mbind outcome_bind]. change (sz b1) with (sz b) in E3. rewrite E3. cbn [mbind outcome_bind]. rewrite E4. cbn [mbind outcome_bind].
  destruct (rs_sets HEAD Hhead B1 a size b1 e S1 Ha1 eq_refl He1 Efc Hs Hfit) as [_ Eu].
  exists (rs_map HEAD B1 a size b1 e), (rs_used size b1), h5. split_and!; try done.
  - transitivity B1; [by apply mark_space|]. by apply rs_shape_space.
  - rewrite rs_at. fold new. change (nx a b1) with (nx a b). rewrite !decide_False by lia. by rewrite decide_True.
  - rewrite Eu, Eu0. apply insert_insert_eq.
  - intros x d Hd Hfx. assert (x <> a) as Hxa by (intros ->; rewrite free_of_at, Ha in Hfx; cbn in Hfx; unfold as_free in Hfx; by rewrite Hf in Hfx).
    assert (x <> new) as Hxn by (intros ->; unfold B1, mark in Hnone; rewrite 2!lookup_insert_ne in Hnone by lia; congruence).
    assert (B2 !! x = Some d) as Hd2 by (unfold B2, rs_mid2, rs_mid1; fold new; rewrite 2!lookup_insert_ne by done; by rewrite Eold).
    assert (exists d', rs_map HEAD B1 a size b1 e !! x = Some d' /\ sz d' = sz d) as (d' & Hd' & Ed).
    { rewrite <- Emap. destruct (decide (x = nx a b)) as [->|Hne]; [rewrite lookup_insert_eq; eexists; split; [done|]; cbn; congruence|].
      rewrite lookup_insert_ne by done. by exists d. }
    exists d'. split_and!; try done. apply (keeps_trans HEAD) with h3; [apply K3; [by rewrite Eold|done]|].
    apply (keeps_trans HEAD) with h4; [by apply K4|]. rewrite <- Ed. apply K5; [done| |done]. rewrite Ef0, lookup_delete_ne by done. done.
Qed.

(** The last step: the block is marked as used. *)
Lemma hand_out B fs h a b req :
  mid B fs h -> B !! a = Some b -> exists h',
    (bs ← ld (f_size a) h; h ← st (f_size a) (Z.land bs (Z.lnot MM_BUFF_FREE)) h;
     Ret (a + HEAD, addsize (MM_BUF_SIZE (Z.land bs (Z.lnot MM_BUFF_FREE)) + HEAD) req h))
      = Ret (a + HEAD, h') /\
    mid (<[a := set_fr false b]> B) fs h' /\ (forall c d, B !! c = Some d -> keeps c (sz d) h h').
Proof.
  intros Hm Ha. rewrite (ld_size HEAD B fs h a b Hm Ha). cbn [mbind outcome_bind].
  pose proof (hdr_set_fr b ltac:(apply (pl_at HEAD B (mi_placed _ _ _ _ Hm) a b Ha)) false) as Eh. cbn in Eh. rewrite <- Eh.
  destruct (put_flags HEAD Hhead Hhead8 B fs h a b (set_fr false b) Hm Ha) as (-> & M & K); [done|intros p Ep; by apply (ce_prev HEAD a b _ (mi_mem _ _ _ _ Hm a b Ha))|].
  cbn [mbind outcome_bind]. eexists. split_and!; [done|by eapply mid_stats; [exact M|..]|done].
Qed.

(** [heap_alloc]: the block has the requested size as the code rounds it. *)
Lemma alloc_ok B h size :
  heap_ok B h -> 0 < size < 2 ^ 32 -> exists r h', heap_alloc HEAD size h = Ret (r, h') /\
    ((r = 0 /\ h' = h /\ forall a s, free_of B !! a = Some s -> s < request size) \/
     exists B' a s, r = a + HEAD /\ 0 < a /\ request size <= s < 2 ^ 28 /\
       (exists t, free_of B !! a = Some t /\ request size <= t) /\ handed B B' h h' a s).
Proof.
  intros [HS HM] Hsize. destruct (request_any size) as (Hr & Hr8); [lia|]. unfold heap_alloc. rewrite decide_False by lia. set (rq := request size) in *.
  destruct (decide (rq < 2 ^ 28)) as [Hlt|Hge].
  2: { rewrite size_no_level, decide_True by lia. exists 0, h. split; [done|]. left. split_and!; try done.
       intros a s (b & Hb & Ef & <-)%free_of_some. pose proof (behind_free HEAD Hhead B a b HS Hb Ef). lia. }
  destruct (size_level rq ltac:(lia)) as [-> Hlv]. rewrite decide_False by lia. pose proof HM as [P M [F HF] _].
  destruct (find_block_ok HEAD (free_of B) F h HF rq ltac:(lia)) as (r & -> & Hres). cbn [mbind outcome_bind].
  destruct Hres as [[-> Hno]|(s & Hfs & Hle)]; [exists 0, h; rewrite decide_True by done; split; [done|]; by left|].
  pose proof Hfs as (b & Hb & Ef & Es)%free_of_some. destruct (pl_at HEAD B P r b Hb) as (Hr0 & _). rewrite decide_False by lia.
  destruct (behind_free HEAD Hhead B r b HS Hb Ef) as (Hsb & _ & c & Hc & _). rewrite <- Es in Hfs, Hle.
  destruct (delete_step HEAD Hhead B _ h r (sz b) HM Hfs) as (h1 & -> & M1 & S1 & K1). cbn [mbind outcome_bind].
  rewrite (ld_size HEAD B _ h1 r b M1 Hb). cbn [mbind outcome_bind]. rewrite (mid_next HEAD B _ h1 r b M1 Hb), (mid_buf HEAD B _ h1 r b M1 Hb).
  case_decide as Hfit; unfold MM_MIN_SIZE in Hfit.
  - destruct (alloc_cut B r b c rq h1 HS Hb Ef Hc M1 ltac:(lia) Hr8 Hfit) as (B1 & b1 & h2 & E2 & [S2 M2] & P2 & Hb1 & Ef1 & U2 & K2).
    rewrite E2. cbn [mbind outcome_bind]. destruct (hand_out B1 _ h2 r b1 size M2 Hb1) as (h3 & -> & M3 & K3). exists (r + HEAD), h3. split; [done|]. right.
    exists B1, r, rq. split_and!; [done..|lia|lia|by exists (sz b)|]. assert (set_fr false b1 = b1) as E by (destruct b1; cbn in *; by subst). rewrite E, insert_id in M3 by done.
    eapply (handed_by B B1 h h1 h3 r b); try done. intros x d Hd Hfx _. destruct (K2 x d Hd Hfx) as (d' & Hd' & Ed & Kx).
    apply (keeps_trans HEAD) with h2; [done|]. rewrite <- Ed. by apply K3.
  - destruct (take_whole B h1 r b HS Hb Ef M1) as (c' & h2 & Hc' & E2 & M2 & S2 & K2). rewrite Hc in Hc'. injection Hc' as <-. rewrite E2. cbn [mbind outcome_bind].
    destruct (whole_sets B r b c HS Hb Ef Hc) as [Ef' Eu'].
    set (B1 := <[nx r b := set_pv None c]> B) in *. assert (B1 !! r = Some b) as Hb1 by (unfold B1; rewrite lookup_insert_ne; [done|unfold KHeapShape.nx; lia]).
    destruct (hand_out B1 _ h2 r b size M2 Hb1) as (h3 & -> & M3 & K3). exists (r + HEAD), h3. split; [done|]. right.
    exists (mark HEAD false r b c B), r, (sz b). split_and!; [done..|lia|lia|by exists (sz b)|]. eapply (handed_by B _ h h1 h3 r b); try done.
    + apply flag_ok; try done. lia.
    + by apply mark_space.
    + intros x d Hd Hfx Hxr. apply (keeps_trans HEAD) with h2; [by apply K2|].
      destruct (decide (x = nx r b)) as [->|Hxn]; [|apply K3; unfold B1; by rewrite lookup_insert_ne].
      assert (d = c) as -> by congruence. apply (K3 _ (set_pv None c)), lookup_insert_eq.
Qed.

End Alloc.
