(* ===== verification/KHeapFree.v ===== *)
(** * Freeing

    A freed block is merged with the free blocks on both sides, so that no two free
    blocks are neighbours; every other block in use keeps its contents. *)

From stdpp Require Import gmap.
From S2P Require Import Prelude KBits KHeap KHeapLists KHeapShape KHeapMem KHeapCut KHeapSearch KHeapAlloc.

Lemma set_pv_id q b : pv b = q -> set_pv q b = b.
Proof. destruct b. by cbn; intros <-. Qed.

Section Free.
Context (HEAD : Z) (Hhead : 8 <= HEAD) (Hhead8 : HEAD mod 8 = 0).

Abbreviation nx := (nx HEAD).
Abbreviation f_size := (f_size HEAD).
Abbreviation f_prev := (f_prev HEAD).
Abbreviation mid := (mid HEAD).
Abbreviation keeps := (keeps HEAD).
Abbreviation heap_ok := (heap_ok HEAD).

(** While block [g] is being freed: its word says that it is free, the lists do not have
    it yet, and the block [e] behind it has [q] for the block before. *)
Record pending (B : gmap Z blk) (g : Z) (b e : blk) (q : option Z) (h : heap) : Prop := Pending {
  pe_shape : shape_ok HEAD B;
  pe_at : B !! g = Some b;
  pe_used : fr b = false;
  pe_size : sz b <> 0;
  pe_next : B !! nx g b = Some e;
  pe_mid : mid (<[nx g b := set_pv q e]> (<[g := set_fr true b]> B)) (free_of B) h
}.

(** The buffers in use other than that of [g] keep their contents. *)
Definition others (B : gmap Z blk) (g : Z) (h h' : heap) : Prop :=
  forall c n, used_of B !! c = Some n -> c <> g -> keeps c n h h'.

Lemma others_trans B g h1 h2 h3 : others B g h1 h2 -> others B g h2 h3 -> others B g h1 h3.
Proof. intros H1 H2 c n Hc Hg. apply (keeps_trans HEAD) with h2; [by apply H1|by apply H2]. Qed.

Section Facts.
Context (B : gmap Z blk) (g : Z) (b e : blk) (q : option Z) (h : heap) (P : pending B g b e q h).

Definition pmap : gmap Z blk := <[nx g b := set_pv q e]> (<[g := set_fr true b]> B).

Lemma pe_facts : 0 < g < nx g b /\ 32 <= sz b < 2 ^ 28 /\ sz b mod 8 = 0 /\ pv e = None /\ nx g b <= lim b /\ lim b < g + 2 ^ 28 /\ lim e = lim b.
Proof.
  destruct P as [S Hg Hf Hz He _]. destruct (sh_blk HEAD B S g b Hg) as [P0 P1 [P2 P2'] P3 P4 P5 P6]. destruct (P4 Hz) as [P4a P4b].
  destruct (sh_next HEAD B S g b Hg Hz) as (e' & He' & Ep & El). rewrite He in He'. injection He' as <-. rewrite Hf in Ep.
  unfold KHeapShape.nx in *. split_and!; try done; lia.
Qed.

Lemma pmap_at x : pmap !! x = if decide (x = nx g b) then Some (set_pv q e) else if decide (x = g) then Some (set_fr true b) else B !! x.
Proof. unfold pmap. repeat case_decide; subst; look; done. Qed.

(** What keeps the blocks of the map keeps the others. *)
Lemma others_of h1 h2 :
  (forall c d, pmap !! c = Some d -> free_of B !! c = None -> c <> g -> keeps c (sz d) h1 h2) -> others B g h1 h2.
Proof.
  intros K c n (d & Hd & Ef & <- & Hz)%used_of_some Hcg. assert (free_of B !! c = None) as Hn by (apply free_of_none; congruence).
  destruct (decide (c = nx g b)) as [->|Hcn].
  - rewrite (pe_next B g b e q h P) in Hd. injection Hd as <-. apply (K _ (set_pv q e)); [|done..]. rewrite pmap_at. by rewrite decide_True.
  - apply (K c d); [|done..]. rewrite pmap_at. by rewrite !decide_False.
Qed.
End Facts.

(** ** The word is marked *)

Lemma free_begin B h a b c q :
  shape_ok HEAD B -> mid (<[nx a b := set_pv q c]> B) (free_of B) h ->
  B !! a = Some b -> fr b = false -> sz b <> 0 -> B !! nx a b = Some c ->
  let h' := poke (f_size a) (hdr (set_fr true b)) h in
  ld (f_size a) h = Ret (hdr b) /\ st (f_size a) (Z.lor (hdr b) MM_BUFF_FREE) h = Ret h' /\ pending B a b c q h' /\ others B a h h'.
Proof.
  intros S M Ha Hf Hz Hc. destruct (nx_gt HEAD Hhead B a b S Ha) as [Hlt _]. set (Q := <[nx a b := set_pv q c]> B) in *.
  assert (Q !! a = Some b) as Qa by (unfold Q; by rewrite lookup_insert_ne by lia). cbv zeta.
  pose proof (hdr_set_fr b ltac:(apply (pl_at HEAD Q (mi_placed _ _ _ _ M) a b Qa)) true) as Eh. cbn in Eh. rewrite <- Eh.
  destruct (put_flags HEAD Hhead Hhead8 Q _ h a b (set_fr true b) M Qa) as (Est & M' & K); [done|intros p E; by apply (ce_prev HEAD a b _ (mi_mem _ _ _ _ M a b Qa))|].
  split; [by apply (ld_size HEAD Q _ h a b M)|]. split; [done|]. split.
  - split; try done. by rewrite insert_insert_ne by lia.
  - intros x n (d & Hd & _ & <- & _)%used_of_some _. destruct (decide (x = nx a b)) as [->|Hne]; [|apply K; unfold Q; by look].
    rewrite Hc in Hd. injection Hd as <-. apply (K _ (set_pv q c)). apply lookup_insert_eq.
Qed.

(** ** Merging with the block behind *)

Section Next.
Context (B : gmap Z blk) (a : Z) (b c e : blk) (h : heap) (P : pending B a b c None h).
Context (Hf : fr c = true) (He : B !! nx (nx a b) c = Some e).

Definition next_big : blk := set_sz (sz b + HEAD + sz c) b.
Definition next_map : gmap Z blk := join_at HEAD a b (set_fr false c) (mark HEAD false (nx a b) c e B).

Lemma next_facts : a < nx a b < nx (nx a b) c /\ nx a next_big = nx (nx a b) c /\ pv e = Some (nx a b) /\ fr e = false /\ pv c = None /\ 32 <= sz c.
Proof.
  destruct (pe_facts B a b c None h P) as (H1 & _). destruct (behind_free HEAD Hhead B (nx a b) c (pe_shape _ _ _ _ _ _ P) (pe_next _ _ _ _ _ _ P) Hf) as (H2 & H3 & e' & He' & H4 & H5 & _ & H6).
  rewrite He in He'. injection He' as <-. split_and!; try done; try lia. unfold next_big, KHeapShape.nx. cbn. lia.
Qed.

Lemma next_at x : next_map !! x =
  if decide (x = a) then Some next_big else if decide (x = nx a b) then None
  else if decide (x = nx (nx a b) c) then Some (set_pv None e) else B !! x.
Proof.
  pose proof next_facts. unfold next_map, join_at, mark. repeat case_decide; subst; look; done || lia.
Qed.

Lemma next_shape : shape_ok HEAD next_map.
Proof.
  pose proof next_facts as (H1 & H2 & H3 & H4 & H5 & H6). pose proof P as [S Ha Hu Hz Hc _].
  assert (shape_ok HEAD (mark HEAD false (nx a b) c e B)) as S1 by (apply flag_ok; [done..|lia|done|done]).
  apply join_ok; try done; [|unfold mark; by rewrite lookup_insert_eq|cbn; lia]. unfold mark. by rewrite !lookup_insert_ne by lia.
Qed.

Lemma next_space : same_space HEAD B next_map.
Proof.
  pose proof next_facts as (H1 & H2 & H3 & H4 & H5 & H6). pose proof P as [S Ha Hu Hz Hc _]. destruct (pe_facts B a b c None h P) as (_ & Hsz & _).
  transitivity (mark HEAD false (nx a b) c e B); [by apply mark_space|]. apply join_space; cbn; try lia; unfold mark; by look.
Qed.

Lemma next_sets : free_of next_map = delete (nx a b) (free_of B) /\ used_of next_map = <[a := sz next_big]> (used_of B).
Proof.
  pose proof next_facts as (H1 & H2 & H3 & H4 & H5 & H6). pose proof P as [S Ha Hu Hz Hc _]. destruct (pe_facts B a b c None h P) as (_ & Hsz & _).
  split; apply map_eq; intros x; rewrite ?free_of_at, ?used_of_at, next_at;
    (destruct (decide (x = a)) as [->|Hxa]; [|destruct (decide (x = nx a b)) as [->|Hxn]; [|destruct (decide (x = nx (nx a b) c)) as [->|Hxe]]]).
  all: look. all: rewrite ?free_of_at, ?used_of_at, ?Hc, ?He, ?Ha; cbn; unfold as_free, as_used; cbn; rewrite ?H4, ?Hf, ?Hu; try done.
  by rewrite decide_False by lia.
Qed.

Lemma next_run :
  exists h', (h ← k_mm_freelist_delete HEAD (nx a b) h; st (f_size a) (hdr (set_fr true b) + (sz c + HEAD)) h) = Ret h' /\
    pending next_map a next_big (set_pv None e) (Some (nx a b)) h' /\ others B a h h'.
Proof.
  pose proof next_facts as (H1 & H2 & H3 & H4 & H5 & H6). pose proof P as [S Ha Hu Hz Hc M]. destruct next_sets as [Ef _]. fold (pmap B a b c None) in M.
  assert (free_of B !! nx a b = Some (sz c)) as Hfc by (apply free_of_some; by exists c).
  destruct (delete_step HEAD Hhead _ _ h _ _ M Hfc) as (h1 & -> & M1 & _ & K1). cbn [mbind outcome_bind].
  pose proof (mi_mem HEAD _ _ h1 M1) as Hcell. apply (mid_delete HEAD _ _ h1 (nx a b)) in M1; [|apply lookup_delete_eq].
  set (D := delete (nx a b) (pmap B a b c None)) in *. set (big := set_fr true next_big).
  assert (<[nx (nx a b) c := set_pv (Some (nx a b)) (set_pv None e)]> (<[a := big]> next_map) = <[a := big]> D) as Emap.
  { rewrite (set_pv_id _ e H3 : set_pv (Some (nx a b)) (set_pv None e) = e). apply map_eq. intros x. unfold D.
    destruct (decide (x = a)) as [->|Hxa]; [by look|]. destruct (decide (x = nx (nx a b) c)) as [->|Hxe].
    - look. rewrite pmap_at. by rewrite !decide_False by lia.
    - look. rewrite next_at, decide_False by done. case_decide as E; [subst; by look|]. rewrite decide_False by done. look.
      rewrite pmap_at. by rewrite !decide_False by done. }
  assert (hdr (set_fr true b) + (sz c + HEAD) = hdr big) as -> by (unfold hdr, big; cbn; lia).
  assert (D !! a = Some (set_fr true b)) as Da by (unfold D; look; rewrite pmap_at; rewrite decide_False by lia; by rewrite decide_True).
  destruct (put_size HEAD Hhead Hhead8 D _ h1 a big M1) as (Est & M2 & K2).
  - rewrite <- Emap. apply (placed_sub HEAD _ next_map); [|apply shape_placed, next_shape]. intros x d Hd.
    destruct (decide (x = nx (nx a b) c)) as [->|Hxe].
    + rewrite lookup_insert_eq in Hd. injection Hd as <-. exists (set_pv None e). split; [|done]. rewrite next_at, !decide_False by lia. by rewrite decide_True.
    + rewrite lookup_insert_ne in Hd by done. apply lookup_insert_Some in Hd as [[<- <-]|[_ Hd]]; [|by exists d]. exists next_big. split; [|done]. rewrite next_at. by rewrite decide_True.
  - left. look. apply free_of_none. congruence.
  - intros x Hx. assert (nx a big = nx (nx a b) c) as E by done. destruct (decide (x < nx a b)).
    + apply (ce_mem HEAD a (set_fr true b)); [|change (nx a (set_fr true b)) with (nx a b); lia]. apply Hcell. rewrite pmap_at. rewrite decide_False by lia. by rewrite decide_True.
    + apply (ce_mem HEAD (nx a b) (set_pv None c)); [|change (nx (nx a b) (set_pv None c)) with (nx (nx a b) c); lia]. apply Hcell. rewrite pmap_at. by rewrite decide_True.
  - intros p Ep. by apply (ce_prev HEAD a _ _ (mi_mem _ _ _ _ M1 a _ Da)).
  - eexists. split; [exact Est|]. split.
    + destruct (pe_facts B a b c None h P) as (_ & Hsz & _). split; try done; [apply next_shape|rewrite next_at; by rewrite decide_True|cbn; unfold next_big; cbn; lia| |].
      * rewrite next_at, H2, !decide_False by lia. by rewrite decide_True.
      * rewrite H2, Ef. fold big. by rewrite Emap.
    + apply (others_of B a b c None h P). intros x d Hd Hfx Hxa. apply (keeps_trans HEAD) with h1; [by apply K1|]. apply K2. look. unfold D. look. done.
Qed.
End Next.

(** ** Merging with the block before *)

Section Prev.
Context (B : gmap Z blk) (p a : Z) (d b e : blk) (q : option Z) (h : heap) (P : pending B a b e q h).
Context (Hp : B !! p = Some d) (Hf : fr d = true) (Hpa : nx p d = a).

Definition prev_big : blk := set_sz (sz d + HEAD + sz b) (set_fr false d).
Definition prev_map : gmap Z blk := join_at HEAD p (set_fr false d) (set_pv None b) (mark HEAD false p d b B).

Lemma prev_facts : p < a < nx a b /\ nx p prev_big = nx a b /\ pv d = None /\ 32 <= sz d /\ 32 <= sz b.
Proof.
  destruct (pe_facts B a b e q h P) as (H1 & H1' & _). destruct (behind_free HEAD Hhead B p d (pe_shape _ _ _ _ _ _ P) Hp Hf) as (H2 & H3 & _ & _ & _ & _ & _ & H6).
  split_and!; try done; try lia. unfold prev_big, KHeapShape.nx in *. cbn. lia.
Qed.

Lemma prev_at x : prev_map !! x = if decide (x = p) then Some prev_big else if decide (x = a) then None else B !! x.
Proof.
  pose proof prev_facts. unfold prev_map, join_at, mark. change (nx p (set_fr false d)) with (nx p d). rewrite Hpa.
  repeat case_decide; subst; look; done || lia.
Qed.

Lemma prev_shape : shape_ok HEAD prev_map.
Proof.
  pose proof prev_facts as (H1 & H2 & H3 & H4 & H5). pose proof P as [S Ha Hu Hz He _].
  assert (shape_ok HEAD (mark HEAD false p d b B)) as S1 by (apply flag_ok; try done; [lia|by rewrite Hpa]).
  apply join_ok; try done; cbn; try lia; unfold mark; change (nx p (set_fr false d)) with (nx p d); rewrite ?Hpa; by look.
Qed.

Lemma prev_space : same_space HEAD B prev_map.
Proof.
  pose proof prev_facts as (H1 & H2 & H3 & H4 & H5). pose proof P as [S Ha Hu Hz He _].
  transitivity (mark HEAD false p d b B); [apply mark_space; [done|by rewrite Hpa]|].
  apply join_space; cbn; try lia; unfold mark; change (nx p (set_fr false d)) with (nx p d); rewrite ?Hpa; by look.
Qed.

Lemma prev_sets : free_of prev_map = delete p (free_of B) /\ used_of prev_map = <[p := sz prev_big]> (delete a (used_of B)).
Proof.
  pose proof prev_facts as (H1 & H2 & H3 & H4 & H5). pose proof P as [S Ha Hu Hz He _].
  split; apply map_eq; intros x; rewrite ?free_of_at, ?used_of_at, prev_at;
    (destruct (decide (x = p)) as [->|Hxa]; [|destruct (decide (x = a)) as [->|Hxn]]).
  all: look. all: rewrite ?free_of_at, ?used_of_at, ?Ha, ?Hp; cbn; unfold as_free, as_used; cbn; rewrite ?Hf, ?Hu; try done.
  by rewrite decide_False by lia.
Qed.

Lemma prev_run :
  exists h', (h ← k_mm_freelist_delete HEAD p h; ps ← ld (f_size p) h; h ← st (f_size p) (ps + (sz b + HEAD)) h; Ret (p, h)) = Ret (p, h') /\
    pending prev_map p prev_big e q h' /\ others B a h h'.
Proof.
  pose proof prev_facts as (H1 & H2 & H3 & H4 & H5). pose proof P as [S Ha Hu Hz He M]. destruct prev_sets as [Ef _]. fold (pmap B a b e q) in M.
  assert (pmap B a b e q !! p = Some d) as Mp by (rewrite pmap_at, !decide_False by lia; done).
  assert (pmap B a b e q !! a = Some (set_fr true b)) as Ma by (rewrite pmap_at, decide_False by lia; by rewrite decide_True).
  assert (free_of B !! p = Some (sz d)) as Hfd by (apply free_of_some; by exists d).
  destruct (delete_step HEAD Hhead _ _ h _ _ M Hfd) as (h1 & -> & M1 & _ & K1). cbn [mbind outcome_bind].
  rewrite (ld_size HEAD _ _ h1 p d M1 Mp). cbn [mbind outcome_bind].
  pose proof (mi_mem HEAD _ _ h1 M1) as Hcell. apply (mid_delete HEAD _ _ h1 a) in M1; [|look; apply free_of_none; congruence].
  set (D := delete a (pmap B a b e q)) in *. set (big := set_fr true prev_big).
  assert (<[nx a b := set_pv q e]> (<[p := big]> prev_map) = <[p := big]> D) as Emap.
  { apply map_eq. intros x. unfold D. destruct (decide (x = p)) as [->|Hxa]; [by look|]. destruct (decide (x = nx a b)) as [->|Hxe].
    - look. rewrite pmap_at. by rewrite decide_True.
    - look. rewrite prev_at, decide_False by done. case_decide as E; [subst; by look|]. look. rewrite pmap_at. by rewrite !decide_False. }
  assert (hdr d + (sz b + HEAD) = hdr big) as -> by (unfold hdr, big; cbn; rewrite Hf; lia).
  destruct (put_size HEAD Hhead Hhead8 D _ h1 p big M1) as (Est & M2 & K2).
  - rewrite <- Emap. apply (placed_sub HEAD _ prev_map); [|apply shape_placed, prev_shape]. intros x g Hd.
    destruct (decide (x = nx a b)) as [->|Hxe].
    + rewrite lookup_insert_eq in Hd. injection Hd as <-. exists e. split; [|done]. rewrite prev_at, !decide_False by lia. done.
    + rewrite lookup_insert_ne in Hd by done. apply lookup_insert_Some in Hd as [[<- <-]|[_ Hd]]; [|by exists g]. exists prev_big. split; [|done]. rewrite prev_at. by rewrite decide_True.
  - left. apply lookup_delete_eq.
  - intros x Hx. assert (nx p big = nx a b) as E by done. destruct (decide (x < a)).
    + apply (ce_mem HEAD p d); [by apply Hcell|lia].
    + apply (ce_mem HEAD a (set_fr true b)); [by apply Hcell|change (nx a (set_fr true b)) with (nx a b); lia].
  - intros r Er. cbn in Er. congruence.
  - rewrite Est. cbn [mbind outcome_bind]. eexists. split; [done|]. split.
    + split; try done; [apply prev_shape|rewrite prev_at; by rewrite decide_True|unfold prev_big; cbn; lia|rewrite H2, prev_at, !decide_False by lia; done|].
      rewrite H2, Ef. fold big. by rewrite Emap.
    + apply (others_of B a b e q h P). intros x g Hd Hfx Hxa. assert (x <> p) by congruence.
      apply (keeps_trans HEAD) with h1; [by apply K1|]. apply K2. look. unfold D. by look.
Qed.
End Prev.

(** ** The block goes to its list *)

Lemma free_end B g b e q h :
  pending B g b e q h -> pv b = None -> fr e = false ->
  exists h', (h ← k_mm_freelist_insert HEAD g h; bs ← ld (f_size g) h;
    let next_b := next_blk HEAD g bs in
    h ← st (f_prev next_b) g h; ns ← ld (f_size next_b) h; st (f_size next_b) (Z.lor ns MM_BUFF_PREV_FREE) h) = Ret h' /\
    heap_ok (mark HEAD true g b e B) h' /\ used_of (mark HEAD true g b e B) = delete g (used_of B) /\ others B g h h'.
Proof.
  intros P Epb Efe. pose proof P as [S Hg Hu Hz He M]. destruct (pe_facts B g b e q h P) as (H1 & H2 & H2' & H3 & _). fold (pmap B g b e q) in M.
  assert (pmap B g b e q !! g = Some (set_fr true b)) as Mg by (rewrite pmap_at, decide_False by lia; by rewrite decide_True).
  assert (pmap B g b e q !! nx g b = Some (set_pv q e)) as Mn by (rewrite pmap_at; by rewrite decide_True).
  assert (free_of B !! g = None) as Hfg by (apply free_of_none; congruence).
  destruct (insert_step HEAD Hhead Hhead8 _ _ h g (set_fr true b) M Mg Hfg) as (h1 & -> & M1 & _ & K1); [cbn; lia|]. cbn [mbind outcome_bind].
  rewrite (ld_size HEAD _ _ h1 g _ M1 Mg). cbn [mbind outcome_bind]. rewrite (mid_next HEAD _ _ h1 g _ M1 Mg). change (nx g (set_fr true b)) with (nx g b).
  destruct (set_behind HEAD Hhead Hhead8 _ _ (nx g b) e q g h1 M1 Mn) as (h2 & ns & h3 & -> & E2 & E3 & M3 & K3).
  cbn [mbind outcome_bind]. rewrite E2. cbn [mbind outcome_bind]. exists h3. split; [exact E3|]. set (B' := mark HEAD true g b e B).
  assert (<[nx g b := set_pv (Some g) e]> (pmap B g b e q) = B') as Emap.
  { unfold B', mark. apply map_eq. intros x. destruct (decide (x = g)) as [->|Hxg]; [look; by rewrite Mg|]. destruct (decide (x = nx g b)) as [->|Hxn]; [by look|].
    look. rewrite pmap_at. by rewrite !decide_False. }
  assert (free_of B' = <[g := sz b]> (free_of B) /\ used_of B' = delete g (used_of B)) as [Ef Eus].
  { unfold B', mark. split; apply map_eq; intros x; rewrite ?free_of_at, ?used_of_at; (destruct (decide (x = g)) as [->|Hxg]; [|destruct (decide (x = nx g b)) as [->|Hxn]]).
    all: look. all: rewrite ?free_of_at, ?used_of_at, ?He; cbn; unfold as_free, as_used; cbn; rewrite ?Efe; done. }
  split_and!; [|done|].
  - split; [apply flag_ok; try done|]. rewrite Ef, <- Emap. exact M3.
  - apply (others_of B g b e q h P). intros x d Hd Hfx Hxg. apply (keeps_trans HEAD) with h1; [by apply K1|].
    by apply K3.
Qed.

(** ** The operation *)

Lemma pending_stats B g b e q h n : pending B g b e q h -> pending B g b e q (removesize n h).
Proof. intros [P1 P2 P3 P4 P5 P6]. split; try done. by eapply mid_stats; [exact P6|..]. Qed.

(** The block behind is merged if it is free. *)
Lemma free_next B a b c q0 h :
  pending B a b c q0 h -> q0 = None \/ fr c = false -> exists ns B' b' e q h', ld (f_size (nx a b)) h = Ret ns /\
    (if decide (Z.land ns MM_BUFF_FREE <> 0)
     then h ← k_mm_freelist_delete HEAD (nx a b) h; st (f_size a) (hdr (set_fr true b) + (MM_BUF_SIZE ns + HEAD)) h else Ret h) = Ret h' /\
    pending B' a b' e q h' /\ fr e = false /\ pv b' = pv b /\ others B a h h' /\ used_of B' = <[a := sz b']> (used_of B) /\ same_space HEAD B B'.
Proof.
  intros P Hq. pose proof P as [S Ha Hu Hz Hc M]. fold (pmap B a b c q0) in M.
  assert (pmap B a b c q0 !! nx a b = Some (set_pv q0 c)) as Mc by (rewrite pmap_at; by rewrite decide_True).
  exists (hdr (set_pv q0 c)). rewrite (ld_size HEAD _ _ h _ _ M Mc). rewrite (mid_buf HEAD _ _ h _ _ M Mc).
  pose proof (hdr_free (set_pv q0 c) ltac:(apply (pl_at HEAD _ (mi_placed _ _ _ _ M) _ _ Mc))) as Hfc. cbn [fr set_pv sz] in *. case_decide as Hd.
  - apply Hfc in Hd. destruct Hq as [->|]; [|congruence]. destruct (behind_free HEAD Hhead B _ c S Hc Hd) as (_ & _ & e & He & _ & Efe & _).
    destruct (next_run B a b c e h P Hd He) as (h2 & E2 & P2 & O2). destruct (next_sets B a b c e h P Hd He) as [_ U2].
    eexists _, _, _, _, h2. split_and!; [done|exact E2|exact P2|done|done|done|done|by apply (next_space B a b c e h)].
  - exists B, b, c, q0, h. split_and!; try done; [destruct (fr c) eqn:Ec; [by destruct (proj2 Hfc eq_refl)|done]|].
    symmetry. apply insert_id, used_of_some. by exists b.
Qed.

(** The block before is merged if it is free. *)
Lemma free_prev B a b e q h :
  pending B a b e q h -> exists bs g B' b' h', ld (f_size a) h = Ret bs /\
    (if decide (Z.land bs MM_BUFF_PREV_FREE <> 0)
     then prev_b ← ld (f_prev a) h; h ← k_mm_freelist_delete HEAD prev_b h; ps ← ld (f_size prev_b) h;
          h ← st (f_size prev_b) (ps + (MM_BUF_SIZE bs + HEAD)) h; Ret (prev_b, h)
     else Ret (a, h)) = Ret (g, h') /\
    pending B' g b' e q h' /\ pv b' = None /\ others B a h h' /\ delete g (used_of B') = delete a (used_of B) /\ same_space HEAD B B'.
Proof.
  intros P. pose proof P as [S Ha Hu Hz He M]. fold (pmap B a b e q) in M. destruct (pe_facts B a b e q h P) as (H1 & _ & H8 & _).
  assert (pmap B a b e q !! a = Some (set_fr true b)) as Ma by (rewrite pmap_at, decide_False by lia; by rewrite decide_True).
  exists (hdr (set_fr true b)). rewrite (ld_size HEAD _ _ h _ _ M Ma). rewrite (mid_buf HEAD _ _ h _ _ M Ma). cbn [sz set_fr].
  pose proof (hdr_prev (set_fr true b) H8) as Hp. cbn [pv set_fr] in Hp. case_decide as Hd.
  - apply Hp in Hd as [p Ep]. rewrite (ld_ok _ _ _ (ce_prev HEAD a _ _ (mi_mem _ _ _ _ M a _ Ma) p Ep)). cbn [mbind outcome_bind].
    destruct (sh_prev HEAD B S a b p Ha Ep) as (d & Hpd & Hfd & Hpa). destruct (prev_run B p a d b e q h P Hpd Hfd Hpa) as (h' & E & P' & O).
    destruct (prev_facts B p a d b e q h P Hpd Hfd Hpa) as (_ & _ & Epd & _).
    destruct (prev_sets B p a d b e q h P Hpd Hfd Hpa) as [_ U]. exists p, (prev_map B p d b), (prev_big d b), h'. split_and!; try done; [|by apply (prev_space B p a d b e q h)].
    rewrite U, delete_insert_id; [done|]. rewrite lookup_delete_None. right. rewrite used_of_at, Hpd. cbn. unfold as_used. by rewrite Hfd.
  - exists a, B, b, h. split_and!; try done. destruct (pv b) eqn:Ep; [|done]. by destruct (proj2 Hp (mk_is_Some _ _ eq_refl)).
Qed.

(** The others of a larger set of used blocks. *)
Lemma others_used B B' a g h h' :
  delete g (used_of B') = delete a (used_of B) -> others B' g h h' -> others B a h h'.
Proof.
  intros E O c n Hc Hca. assert (delete g (used_of B') !! c = Some n) as [Hcg Hc']%lookup_delete_Some by (rewrite E; by rewrite lookup_delete_ne).
  by apply (O c n).
Qed.

(** [heap_free], also where the block behind has another block before it. *)
Lemma free_gen B h a b c q :
  shape_ok HEAD B -> mid (<[nx a b := set_pv q c]> B) (free_of B) h ->
  B !! a = Some b -> fr b = false -> sz b <> 0 -> B !! nx a b = Some c -> q = None \/ fr c = false ->
  exists B' h', heap_free HEAD (a + HEAD) h = Ret h' /\ heap_ok B' h' /\ used_of B' = delete a (used_of B) /\ same_space HEAD B B' /\ others B a h h'.
Proof.
  intros S M Ha Hu Hz Hc Hq. destruct (free_begin B h a b c q S M Ha Hu Hz Hc) as (E0 & E1 & P1 & O1). destruct (pe_facts B a b c q _ P1) as (H1 & _ & H8 & _).
  unfold heap_free. rewrite decide_False by lia. replace (a + HEAD - HEAD) with a by lia. rewrite E0. cbn [mbind outcome_bind]. rewrite E1. cbn [mbind outcome_bind]. clear E0 E1.
  assert (Z.lor (hdr b) MM_BUFF_FREE = hdr (set_fr true b)) as -> by (symmetry; apply (hdr_set_fr b H8 true)).
  set (h1 := poke _ _ h) in *. set (n1 := MM_BUF_SIZE _ + HEAD). pose proof (pending_stats B a b c q h1 n1 P1) as P1'. set (h1' := removesize n1 h1) in *.
  pose proof P1' as [_ _ _ _ _ M1]. fold (pmap B a b c q) in M1.
  assert (pmap B a b c q !! a = Some (set_fr true b)) as Ma by (rewrite pmap_at, decide_False by lia; by rewrite decide_True).
  rewrite (mid_next HEAD _ _ h1' a _ M1 Ma). change (nx a (set_fr true b)) with (nx a b).
  destruct (free_next B a b c q h1' P1' Hq) as (ns & B2 & b2 & e & q2 & h2 & -> & E2 & P2 & Efe & _ & O2 & U2 & Y2). cbn [mbind outcome_bind]. rewrite E2. cbn [mbind outcome_bind].
  destruct (free_prev B2 a b2 e q2 h2 P2) as (bs & g & B3 & b3 & h3 & -> & E3 & P3 & Epv & O3 & U3 & Y3). cbn [mbind outcome_bind]. rewrite E3. cbn [mbind outcome_bind].
  destruct (free_end B3 g b3 e q2 h3 P3 Epv Efe) as (h4 & E4 & HO4 & U4 & O4). exists (mark HEAD true g b3 e B3), h4.
  assert (delete a (used_of B2) = delete a (used_of B)) as U2' by (rewrite U2; apply delete_insert_eq).
  split_and!; [exact E4|done|by rewrite U4, U3|transitivity B2; [done|]; transitivity B3; [done|]; apply mark_space; by destruct P3|]. apply others_trans with h1; [done|]. apply others_trans with h2; [exact O2|].
  apply (others_used B B2 a a); [done|]. apply others_trans with h3; [done|]. by apply (others_used B2 B3 a g).
Qed.

(** The block behind a used one. *)
Lemma behind_used B a b :
  shape_ok HEAD B -> B !! a = Some b -> fr b = false -> sz b <> 0 ->
  exists c, B !! nx a b = Some c /\ <[nx a b := set_pv None c]> B = B.
Proof.
  intros S Ha Hf Hz. destruct (sh_next HEAD B S a b Ha Hz) as (c & Hc & Ep & _). rewrite Hf in Ep. exists c. split; [done|].
  rewrite (set_pv_id None c Ep). by apply insert_id.
Qed.

(** [heap_free] takes one block out of use. *)
Lemma free_ok B h a s :
  heap_ok B h -> used_of B !! a = Some s ->
  exists B' h', heap_free HEAD (a + HEAD) h = Ret h' /\ heap_ok B' h' /\ used_of B' = delete a (used_of B) /\ same_space HEAD B B' /\ others B a h h'.
Proof.
  intros [S M] (b & Ha & Hu & Es & Hz)%used_of_some. rewrite <- Es in Hz. destruct (behind_used B a b S Ha Hu Hz) as (c & Hc & Eq).
  apply (free_gen B h a b c None); try done; [by rewrite Eq|by left].
Qed.

End Free.
