(* ===== verification/KHeapRealloc.v ===== *)
(** * Resizing

    A block that is to shrink, or that the free block behind it makes large enough, stays
    where it is; otherwise its contents move to a new block. *)

From stdpp Require Import gmap.
From S2P Require Import Prelude KBits KHeap KHeapLists KHeapShape KHeapMem KHeapCut KHeapSearch KHeapAlloc KHeapFree.

Section Realloc.
Context (HEAD : Z) (Hhead : 8 <= HEAD) (Hhead8 : HEAD mod 8 = 0).

Abbreviation nx := (nx HEAD).
Abbreviation f_size := (f_size HEAD).
Abbreviation f_prev := (f_prev HEAD).
Abbreviation mid := (mid HEAD).
Abbreviation keeps := (keeps HEAD).
Abbreviation heap_ok := (heap_ok HEAD).
Abbreviation others := (others HEAD).

(** ** Giving up space *)

Lemma resplit_cut B a size b e b0 q h :
  shape_ok HEAD B -> B !! a = Some b -> fr b = false -> B !! nx a b = Some e -> fr e = false ->
  32 <= size -> size mod 8 = 0 -> size + HEAD + 32 <= sz b -> pv b0 = pv b ->
  mid (rs_old HEAD B a b e b0 q) (free_of B) h -> (forall x, a <= x < nx a b -> x mod 4 = 0 -> is_Some (words h !! x)) ->
  exists h', resplit HEAD a size (sz b) (nx a b) h = Ret h' /\ heap_ok (rs_map HEAD B a size b e) h' /\ keeps a size h h' /\ others B a h h'.
Proof.
  intros S Ha Hu He Hfe Hs Hs8 Hfit Hb0 Hm Hmem. destruct (rs_facts HEAD Hhead B a size b e S Ha Hu He Hs Hfit) as (Hn & Hn' & _ & Hnone & _).
  destruct (rs_words HEAD Hhead Hhead8 B a size b e b0 q S Ha Hu He Hfe Hs Hs8 Hfit Hb0 h Hm Hmem) as (h1 & h2 & h3 & E1 & E2 & E3 & M3 & K3 & Ka).
  set (B2 := rs_mid2 HEAD B a size b e b0 q) in *. set (new := rs_new HEAD a size) in *.
  assert (forall x, x <> a -> x <> new -> B2 !! x = rs_old HEAD B a b e b0 q !! x) as H2 by (intros x N1 N2; unfold B2, rs_mid2, rs_mid1; fold new; by rewrite 2!lookup_insert_ne by done).
  assert (B2 !! nx a b = Some (set_pv q e)) as Hn2 by (rewrite H2, rs_old_at by lia; by rewrite decide_True).
  destruct (set_behind HEAD Hhead Hhead8 B2 _ (nx a b) e q new h3 M3 Hn2) as (h4 & ns & h5 & E4 & E5 & E6 & M5 & K5).
  assert (<[nx a b := set_pv (Some new) e]> B2 = rs_map HEAD B a size b e) as Emap by (apply mid2_map; fold new; lia). rewrite Emap in M5.
  destruct (rs_end HEAD Hhead Hhead8 B a size b e S Ha Hu He Hfe Hs Hs8 Hfit h5 M5) as (h6 & E7 & HO & K7).
  assert (rs_old HEAD B a b e b0 q !! a = Some b0) as Oa by (rewrite rs_old_at, decide_False by lia; by rewrite decide_True).
  unfold resplit, MM_MIN_SIZE. rewrite decide_True by done. rewrite (ld_size HEAD _ _ h a _ Hm Oa). cbn [mbind outcome_bind].
  change (a + HEAD + size) with new. rewrite E1. cbn [mbind outcome_bind]. rewrite E2. cbn [mbind outcome_bind]. rewrite E3. cbn [mbind outcome_bind].
  rewrite E4. cbn [mbind outcome_bind]. rewrite E5. cbn [mbind outcome_bind]. rewrite E6. cbn [mbind outcome_bind]. exists h6. split_and!; try done.
  - apply (keeps_trans HEAD) with h3; [done|]. assert (B2 !! a = Some (rs_used size b)) as B2a by (unfold B2, rs_mid2, rs_mid1; fold new; by look).
    apply (keeps_trans HEAD) with h5; [by apply (K5 a (rs_used size b))|]. apply (K7 a (rs_used size b)); [|by apply free_of_none; congruence|lia].
    rewrite <- Emap, lookup_insert_ne by lia. done.
  - intros x n (d & Hd & Efd & <- & Hz)%used_of_some Hxa. assert (x <> new) as Hxn by congruence.
    assert (free_of B !! x = None) as Hfx by (apply free_of_none; congruence).
    assert (exists d1, B2 !! x = Some d1 /\ sz d1 = sz d) as (d1 & Hd1 & Ed1).
    { rewrite H2, rs_old_at by done. case_decide; [subst; eexists; split; [done|]; cbn; congruence|]. rewrite decide_False by done. by exists d. }
    assert (exists d', rs_map HEAD B a size b e !! x = Some d' /\ sz d' = sz d) as (d' & Hd' & Ed).
    { rewrite <- Emap. destruct (decide (x = nx a b)) as [->|Hne]; [rewrite lookup_insert_eq; eexists; split; [done|]; cbn; congruence|].
      rewrite lookup_insert_ne by done. by exists d1. }
    apply (keeps_trans HEAD) with h3; [rewrite <- Ed1; apply K3; [by rewrite <- H2|done]|].
    apply (keeps_trans HEAD) with h5; [rewrite <- Ed1; by apply K5|]. rewrite <- Ed. by apply K7.
Qed.

(** ** The operation in place *)

(** The block [a] has [n] bytes now, of which the first [k] are as before. *)
Record resized (B B' : gmap Z blk) (h h' : heap) (a n k : Z) : Prop := Resized {
  re_ok : heap_ok B' h';
  re_used : used_of B' = <[a := n]> (used_of B);
  re_space : same_space HEAD B B';
  re_keeps : keeps a k h h';
  re_others : others B a h h'
}.

Lemma resized_stats B B' h h1 h2 a n k :
  resized B B' h h1 a n k -> words h2 = words h1 -> freelist (mmhead h2) = freelist (mmhead h1) -> free_bitmap (mmhead h2) = free_bitmap (mmhead h1) ->
  resized B B' h h2 a n k.
Proof.
  intros [[S M] U Y K O] E1 E2 E3. split; [split; [done|by eapply mid_stats; [exact M|..]]|done|done| |].
  - intros x Hx. rewrite E1. by apply K.
  - intros c m Hc Hne x Hx. rewrite E1. by apply (O c m Hc Hne).
Qed.

(** A block in use, with the block behind it. *)
Section Block.
Context (B : gmap Z blk) (h : heap) (a : Z) (b c : blk).
Context (HO : heap_ok B h) (Ha : B !! a = Some b) (Hu : fr b = false) (Hz : sz b <> 0) (Hc : B !! nx a b = Some c).

Lemma bl_facts : 0 < a < nx a b /\ 32 <= sz b < 2 ^ 28 /\ sz b mod 8 = 0 /\ pv c = None /\ exists h0, pending HEAD B a b c None h0.
Proof.
  pose proof HO as [S M]. destruct (behind_used HEAD B a b S Ha Hu Hz) as (c' & Hc' & Eq). rewrite Hc in Hc'. injection Hc' as <-.
  destruct (free_begin HEAD Hhead Hhead8 B h a b c None S ltac:(by rewrite Eq) Ha Hu Hz Hc) as (_ & _ & P & _).
  destruct (pe_facts HEAD Hhead B a b c None _ P) as (H1 & H2 & H3 & H4 & _). split_and!; try done; try lia. by eexists.
Qed.

(** The rest of a block with a used one behind it. *)
Lemma resplit_used size :
  fr c = false -> 32 <= size <= sz b -> size mod 8 = 0 ->
  exists B' n h', resplit HEAD a size (sz b) (nx a b) h = Ret h' /\ size <= n /\ resized B B' h h' a n size.
Proof.
  intros Hf Hs Hs8. destruct bl_facts as (H1 & H2 & H3 & H4 & _). pose proof HO as [S M].
  destruct (decide (size + HEAD + MM_MIN_SIZE <= sz b)) as [Hfit|Hno]; unfold MM_MIN_SIZE in *.
  - assert (rs_old HEAD B a b c b None = B) as Eo by (unfold rs_old; rewrite (set_pv_id None c H4), !insert_id; [done..|by rewrite insert_id]).
    destruct (resplit_cut B a size b c b None h S Ha Hu Hc Hf ltac:(lia) Hs8 Hfit eq_refl) as (h' & E & HO' & K & O).
    + by rewrite Eo.
    + apply (ce_mem HEAD a b _ (mi_mem HEAD B _ h M a b Ha)).
    + eexists _, size, h'. split; [done|]. split; [lia|]. split; try done; [by apply (rs_sets HEAD Hhead B a size b c S Ha Hu Hc Hf ltac:(lia) Hfit)|].
      by apply (rs_shape_space HEAD Hhead Hhead8 B a size b c S Ha Hu Hc Hf ltac:(lia) Hs8 Hfit).
  - exists B, (sz b), h. unfold resplit, MM_MIN_SIZE. rewrite decide_False by done. split_and!; [done|lia|]. split; try done.
    symmetry. apply insert_id, used_of_some. by exists b.
Qed.

(** The free block behind is taken in. *)
Section Behind.
Context (e : blk) (Hf : fr c = true) (He : B !! nx (nx a b) c = Some e).

Lemma bh_facts :
  let J := next_map HEAD B a b c e in let j := next_big HEAD b c in
  shape_ok HEAD J /\ J !! a = Some j /\ nx a j = nx (nx a b) c /\ J !! nx a j = Some (set_pv None e) /\ fr e = false /\ pv e = Some (nx a b) /\
  sz j = sz b + (sz c + HEAD) /\ 32 <= sz c /\ free_of J = delete (nx a b) (free_of B) /\ used_of J = <[a := sz j]> (used_of B) /\ nx a b < nx a j /\ same_space HEAD B J.
Proof.
  cbv zeta. destruct bl_facts as (H1 & H2 & H3 & H4 & h0 & P). destruct (next_facts HEAD Hhead B a b c e h0 P Hf He) as (F1 & F2 & F3 & F4 & _ & F6).
  destruct (next_sets HEAD Hhead B a b c e h0 P Hf He) as [Ef Eu]. split_and!; try done; try lia.
  - by apply (next_shape HEAD Hhead Hhead8 B a b c e h0).
  - rewrite (next_at HEAD Hhead B a b c e h0 P Hf He). by rewrite decide_True.
  - rewrite (next_at HEAD Hhead B a b c e h0 P Hf He), F2, !decide_False by lia. by rewrite decide_True.
  - unfold next_big. cbn. lia.
  - by apply (next_space HEAD Hhead B a b c e h0).
Qed.

(** Taken from its list, it is in no block. *)
Lemma bh_taken h0 :
  mid B (free_of B) h0 -> exists h1, k_mm_freelist_delete HEAD (nx a b) h0 = Ret h1 /\
    mid (delete (nx a b) B) (delete (nx a b) (free_of B)) h1 /\
    (forall x, a <= x < nx (nx a b) c -> x mod 4 = 0 -> is_Some (words h1 !! x)) /\
    keeps a (sz b) h0 h1 /\ others B a h0 h1.
Proof.
  intros M. assert (free_of B !! nx a b = Some (sz c)) as Hfc by (apply free_of_some; by exists c).
  destruct (delete_step HEAD Hhead _ _ h0 _ _ M Hfc) as (h1 & E & M1 & _ & K1). exists h1. pose proof (mi_mem HEAD _ _ h1 M1) as Hcell.
  split_and!; [done|apply mid_delete; [done|apply lookup_delete_eq]| | |].
  - intros x Hx. destruct (decide (x < nx a b)).
    + apply (ce_mem HEAD a b); [by apply Hcell|lia].
    + apply (ce_mem HEAD (nx a b) c); [by apply Hcell|lia].
  - apply K1; [done|]. apply free_of_none. congruence.
  - intros x n (d & Hd & Efd & <- & _)%used_of_some _. apply K1; [done|]. apply free_of_none. congruence.
Qed.

Lemma shrink_free h0 size :
  mid B (free_of B) h0 -> 32 <= size <= sz b -> size mod 8 = 0 ->
  exists B' h1 h', k_mm_freelist_delete HEAD (nx a b) h0 = Ret h1 /\
    resplit HEAD a size (sz b + (sz c + HEAD)) (nx (nx a b) c) h1 = Ret h' /\ resized B B' h0 h' a size size.
Proof.
  intros M Hs Hs8. pose proof bh_facts as (S & Ja & En & Jn & Efe & Epe & Ej & Hsc & Ef & Eu & Hlt & Yj). destruct (bh_taken h0 M) as (h1 & E1 & M1 & Hmem & K1 & O1).
  destruct bl_facts as (H1 & _). set (J := next_map HEAD B a b c e) in *. set (j := next_big HEAD b c) in *.
  assert (rs_old HEAD J a j (set_pv None e) b (Some (nx a b)) = delete (nx a b) B) as Eo.
  { destruct bl_facts as (_ & _ & _ & _ & hp & P). apply map_eq. intros x. rewrite rs_old_at, En.
    case_decide; [subst; look; rewrite He; f_equal; by apply (set_pv_id (Some (nx a b)) e)|]. case_decide; [subst; by look|].
    unfold J. rewrite (next_at HEAD Hhead B a b c e hp P Hf He), decide_False by done. case_decide; [subst; by look|]. rewrite decide_False by done. by look. }
  destruct (resplit_cut J a size j (set_pv None e) b (Some (nx a b)) h1 S Ja Hu Jn Efe ltac:(lia) Hs8 ltac:(lia) eq_refl) as (h' & E & HO' & K & O).
  { by rewrite Eo, Ef. }
  { by rewrite En. }
  rewrite Ej, En in E. exists (rs_map HEAD J a size j (set_pv None e)), h1, h'. split_and!; try done. split; [done| | | |].
  - destruct (rs_sets HEAD Hhead J a size j (set_pv None e) S Ja Hu Jn Efe ltac:(lia) ltac:(lia)) as [_ ->]. rewrite Eu. apply insert_insert_eq.
  - transitivity J; [done|]. by apply (rs_shape_space HEAD Hhead Hhead8 J a size j (set_pv None e) S Ja Hu Jn Efe ltac:(lia) Hs8 ltac:(lia)).
  - apply (keeps_trans HEAD) with h1; [|done]. apply (keeps_le HEAD) with (sz b); [lia|done].
  - apply (others_trans HEAD) with h1; [done|]. apply (others_used HEAD B J a a); [|done]. rewrite Eu. apply delete_insert_eq.
Qed.

Lemma enlarge_free h0 :
  mid B (free_of B) h0 -> exists h1 h2 h3 ns h4, k_mm_freelist_delete HEAD (nx a b) h0 = Ret h1 /\
    st (f_size a) (hdr b + (sz c + HEAD)) h1 = Ret h2 /\ st (f_prev (nx (nx a b) c)) a h2 = Ret h3 /\
    ld (f_size (nx (nx a b) c)) h3 = Ret ns /\ st (f_size (nx (nx a b) c)) (Z.land ns (Z.lnot MM_BUFF_PREV_FREE)) h3 = Ret h4 /\
    resized B (next_map HEAD B a b c e) h0 h4 a (sz (next_big HEAD b c)) (sz b).
Proof.
  intros M. pose proof bh_facts as (S & Ja & En & Jn & Efe & Epe & Ej & Hsc & Ef & Eu & Hlt & Yj). destruct (bh_taken h0 M) as (h1 & E1 & M1 & Hmem & K1 & O1).
  destruct bl_facts as (H1 & _ & _ & _ & hp & P). set (J := next_map HEAD B a b c e) in *. set (j := next_big HEAD b c) in *. set (m := nx (nx a b) c) in *. rewrite En in Jn, Hlt.
  set (D := delete (nx a b) B) in *. assert (forall x, x <> a -> x <> m -> D !! x = J !! x) as HD.
  { intros x N1 N2. unfold J. rewrite (next_at HEAD Hhead B a b c e hp P Hf He), decide_False by done. unfold D. case_decide; [subst; by look|].
    rewrite decide_False by done. by look. }
  assert (D !! m = Some e) as Dm by (unfold D; by look). assert (D !! a = Some b) as Da by (unfold D; by look).
  assert (hdr b + (sz c + HEAD) = hdr j) as -> by (unfold hdr; rewrite Ej; cbn; lia).
  destruct (put_size HEAD Hhead Hhead8 D _ h1 a j M1) as (E2 & M2 & K2).
  { apply (placed_sub HEAD _ J); [|by apply shape_placed]. intros x d Hd. destruct (decide (x = a)) as [->|Hxa]; [revert Hd; look; intros [= <-]; by exists j|].
    rewrite lookup_insert_ne in Hd by done. destruct (decide (x = m)) as [->|Hxm]; [exists (set_pv None e); split; [done|cbn; congruence]|]. exists d. by rewrite <- HD. }
  { left. look. apply free_of_none. congruence. }
  { by rewrite En. }
  { intros p Ep. by apply (ce_prev HEAD a b _ (mi_mem _ _ _ _ M1 a b Da)). }
  set (h2 := poke _ _ h1) in *. assert (<[a := j]> D !! m = Some e) as Dm2 by (by look).
  destruct (put_prev HEAD Hhead Hhead8 _ _ h2 m e (set_pv (Some a) e) a M2 Dm2) as (E3 & M3 & _ & K3); [done|by unfold hdr; cbn; rewrite Epe|by right|].
  set (h3 := poke _ _ h2) in *. pose proof (lookup_insert_eq (<[a := j]> D) m (set_pv (Some a) e)) as Dm3.
  destruct (pl_at HEAD _ (mi_placed _ _ _ _ M3) _ _ Dm3) as (_ & _ & _ & Hm8). pose proof (hdr_set_pv (set_pv (Some a) e) Hm8 None) as Eh. cbn in Eh.
  destruct (put_flags HEAD Hhead Hhead8 _ _ h3 m _ (set_pv None e) M3 Dm3) as (E4 & M4 & K4); [done|done|].
  rewrite insert_insert_eq in M4. assert (<[m := set_pv None e]> (<[a := j]> D) = J) as EJ.
  { apply map_eq. intros x. destruct (decide (x = m)) as [->|Hxm]; [by look|]. destruct (decide (x = a)) as [->|Hxa]; [by look|]. look. by apply HD. }
  rewrite EJ in M4. exists h1, h2, h3, (hdr (set_pv (Some a) e)), (poke (f_size m) (hdr (set_pv None e)) h3).
  split_and!; try done; [by apply (ld_size HEAD _ _ h3 m _ M3)|rewrite <- E4; f_equal; by rewrite <- Eh|]. assert (forall x d, x <> m -> <[a := j]> D !! x = Some d -> keeps x (sz d) h1 (poke (f_size m) (hdr (set_pv None e)) h3)) as K.
  { intros x d Hx Hd. apply (keeps_trans HEAD) with h2; [by apply K2|]. apply (keeps_trans HEAD) with h3; [by apply K3|]. apply K4. by look. }
  split; [split; [done|by rewrite Ef]|done|done| |].
  - apply (keeps_trans HEAD) with h1; [done|]. apply (keeps_le HEAD) with (sz j); [lia|]. apply K; [lia|apply lookup_insert_eq].
  - apply (others_trans HEAD) with h1; [done|]. intros x n (d & Hd & Efd & <- & _)%used_of_some Hxa. assert (x <> nx a b) as Hxn by congruence.
    assert (<[a := j]> D !! x = Some d) as Dx by (unfold D; by look). destruct (decide (x = m)) as [->|Hxm]; [|by apply K].
    rewrite Dm2 in Dx. injection Dx as <-. apply (keeps_trans HEAD) with h2; [by apply K2|]. apply (keeps_trans HEAD) with h3; [by apply K3|]. by apply (K4 m (set_pv (Some a) e)).
Qed.

End Behind.

End Block.

(** The statistics at the end. *)
Lemma resize_stats B B' h h1 a n k req :
  resized B B' h h1 a n k -> n <> 0 ->
  exists h', (bs ← ld (f_size a) h1; Ret (a + HEAD, addsize (MM_BUF_SIZE bs + HEAD) req h1)) = Ret (a + HEAD, h') /\ resized B B' h h' a n k.
Proof.
  intros R Hn. pose proof R as [[S M] U _ _ _]. assert (used_of B' !! a = Some n) as (b & Hb & _)%used_of_some by (rewrite U; apply lookup_insert_eq).
  rewrite (ld_size HEAD B' _ h1 a b M Hb). cbn [mbind outcome_bind]. eexists. split; [done|]. by eapply resized_stats.
Qed.

Section Ops.
Context (B : gmap Z blk) (h : heap) (a : Z) (b c : blk).
Context (HO : heap_ok B h) (Ha : B !! a = Some b) (Hu : fr b = false) (Hz : sz b <> 0) (Hc : B !! nx a b = Some c).

(** [realloc_shrink]. *)
Lemma shrink_ok size req :
  32 <= size <= sz b -> size mod 8 = 0 ->
  exists B' n h', realloc_shrink HEAD a (nx a b) size req h = Ret (a + HEAD, h') /\ size <= n /\ resized B B' h h' a n size.
Proof.
  intros Hs Hs8. pose proof HO as [S M]. unfold realloc_shrink.
  rewrite (ld_size HEAD B _ h a b M Ha). cbn [mbind outcome_bind]. rewrite (mid_buf HEAD B _ h a b M Ha). set (h0 := removesize _ h).
  assert (mid B (free_of B) h0) as M0 by (by eapply mid_stats; [exact M|..]). rewrite (ld_size HEAD B _ h0 _ c M0 Hc). cbn [mbind outcome_bind].
  rewrite (mid_buf HEAD B _ h0 _ c M0 Hc), (mid_next HEAD B _ h0 _ c M0 Hc). destruct (pl_at HEAD B (mi_placed _ _ _ _ M) _ c Hc) as (_ & _ & _ & Hc8).
  pose proof (hdr_free c Hc8) as Hfc. assert (heap_ok B h0) as HO0 by done.
  assert (exists B' n h1 nb old h', (if decide (Z.land (hdr c) MM_BUFF_FREE <> 0)
       then h ← k_mm_freelist_delete HEAD (nx a b) h0; Ret (sz b + (sz c + HEAD), nx (nx a b) c, h) else Ret (sz b, nx a b, h0)) = Ret (old, nb, h1) /\
      resplit HEAD a size old nb h1 = Ret h' /\ size <= n /\ resized B B' h0 h' a n size) as (B' & n & h1 & nb & old & h' & E1 & E2 & Hn & R).
  { case_decide as Hd.
    - apply Hfc in Hd. destruct (behind_free HEAD Hhead B _ c S Hc Hd) as (_ & _ & e & He & _).
      destruct (shrink_free B h0 a b c HO0 Ha Hu Hz Hc e Hd He h0 size M0 Hs Hs8) as (B' & h1 & h' & E1 & E2 & R). eexists B', size, h1, _, _, h'. rewrite E1. split_and!; [done|exact E2|lia|done].
    - assert (fr c = false) as Hf by (destruct (fr c); [by destruct (proj2 Hfc eq_refl)|done]).
      destruct (resplit_used B h0 a b c HO0 Ha Hu Hz Hc size Hf Hs Hs8) as (B' & n & h' & E & Hn & R). by exists B', n, h0, (nx a b), (sz b), h'. }
  rewrite E1. cbn [mbind outcome_bind]. rewrite E2. cbn [mbind outcome_bind]. destruct (resize_stats B B' h0 h' a n size req R ltac:(lia)) as (h2 & E & R').
  exists B', n, h2. split_and!; [done..|]. destruct R'. by split.
Qed.

(** [realloc_enlarge]. *)
Lemma enlarge_ok size req :
  fr c = true -> sz b < size <= sz b + (sz c + HEAD) -> size mod 8 = 0 ->
  exists B' n h', realloc_enlarge HEAD a (nx a b) size req h = Ret (a + HEAD, h') /\ size <= n /\ resized B B' h h' a n (sz b).
Proof.
  intros Hf Hs Hs8. pose proof HO as [S M]. destruct (behind_free HEAD Hhead B _ c S Hc Hf) as (_ & _ & e & He & _). unfold realloc_enlarge.
  rewrite (ld_size HEAD B _ h a b M Ha). cbn [mbind outcome_bind]. rewrite (ld_size HEAD B _ h _ c M Hc). cbn [mbind outcome_bind].
  rewrite (mid_buf HEAD B _ h a b M Ha), (mid_buf HEAD B _ h _ c M Hc). set (h0 := removesize _ h).
  assert (heap_ok B h0) as HO0 by (split; [done|by eapply mid_stats; [exact M|..]]).
  destruct (bh_facts B h0 a b c HO0 Ha Hu Hz Hc e Hf He) as (SJ & Ja & En & Jn & Efe & Epe & Ej & Hsc & Ef & Eu & Hlt & Yj).
  destruct (bl_facts B h0 a b c HO0 Ha Hu Hz Hc) as (_ & Hsb & Hb8 & _).
  destruct (enlarge_free B h0 a b c HO0 Ha Hu Hz Hc e Hf He h0 (ho_mid HEAD B h0 HO0)) as (h1 & h2 & h3 & ns & h4 & E1 & E2 & E3 & E4 & E5 & R).
  set (J := next_map HEAD B a b c e) in *. set (j := next_big HEAD b c) in *. pose proof R as [HOJ UJ _ KJ OJ].
  assert (MM_BUF_SIZE (hdr b + (sz c + HEAD)) = sz j) as Eb.
  { replace (hdr b + (sz c + HEAD)) with (hdr j) by (unfold hdr; rewrite Ej; cbn; lia). apply (mid_buf HEAD J _ h4 a j (ho_mid HEAD J h4 HOJ) Ja). }
  rewrite E1. cbn [mbind outcome_bind]. rewrite E2. cbn [mbind outcome_bind]. unfold next_blk. rewrite Eb. change (a + HEAD + sz j) with (nx a j). rewrite En.
  rewrite E3. cbn [mbind outcome_bind]. rewrite E4. cbn [mbind outcome_bind]. rewrite E5. cbn [mbind outcome_bind].
  destruct (resplit_used J h4 a j (set_pv None e) HOJ Ja Hu ltac:(lia) Jn size Efe ltac:(lia) Hs8) as (B' & n & h' & E & Hn & R').
  rewrite <- En, E. cbn [mbind outcome_bind]. assert (resized B B' h0 h' a n (sz b)) as R2.
  { destruct R' as [HO' U' Y' K' O']. split; [done| |by transitivity J| |].
    - rewrite U', UJ. apply insert_insert_eq.
    - apply (keeps_trans HEAD) with h4; [done|]. apply (keeps_le HEAD) with size; [lia|done].
    - apply (others_trans HEAD) with h4; [done|]. apply (others_used HEAD B J a a); [|done]. rewrite UJ. apply delete_insert_eq. }
  destruct (resize_stats B B' h0 h' a n (sz b) req R2 ltac:(lia)) as (h5 & -> & R3). exists B', n, h5. split_and!; [done..|]. destruct R3. by split.
Qed.
End Ops.
End Realloc.
