(* ===== verification/KHeapMove.v ===== *)
(** * Resizing by moving, and the whole of [heap_realloc] *)

From stdpp Require Import gmap.
From S2P Require Import Prelude KBits KHeap KHeapLists KHeapShape KHeapMem KHeapCut KHeapSearch KHeapAlloc KHeapFree KHeapRealloc.

Section Move.
Context (HEAD : Z) (Hhead : 8 <= HEAD) (Hhead8 : HEAD mod 8 = 0).

Abbreviation nx := (nx HEAD).
Abbreviation heap_ok := (heap_ok HEAD).
Abbreviation keeps := (keeps HEAD).
Abbreviation others := (others HEAD).

(** ** Writing to a buffer in use *)

Lemma buffer_poke B h c d x v :
  heap_ok B h -> B !! c = Some d -> fr d = false -> c + HEAD <= x < nx c d -> heap_ok B (poke x v h).
Proof.
  intros [S [P M [F HF] Hfs]] Hc Hf Hx. split; [done|]. split; [done| | |done].
  - intros a b Ha. eapply cell_ext; [| | |by apply M]; cbn [poke words]; [rewrite lookup_insert_ne; [done|]..|intros y Hy; by apply poke_some].
    + intros ->. apply (header_out HEAD Hhead B a b c d (f_size HEAD a)); try done. by left.
    + intros ->. apply (header_out HEAD Hhead B a b c d (f_prev HEAD a)); try done. by right.
  - exists F. apply lists_write; [done| |]; intros a s Hs.
    + destruct (proj1 (free_of_some B a s) Hs) as (b & Hb & Efb & <-). pose proof (link_in HEAD (free_of B) F h a _ HF Hs) as (_ & L1 & L2).
      assert (a <> c) as Hne by congruence. pose proof (pl_sep HEAD B P a b c d Hb Hc). pose proof (pl_sep HEAD B P c d a b Hc Hb). unfold KHeapShape.nx in *.
      split; intros ->; destruct (Z.lt_trichotomy a c) as [?|[?|?]]; lia.
    + intros ->. destruct (Hfs a s Hs) as (b & Hb & _). destruct (header_out HEAD Hhead B a b c d (f_size HEAD a) P Hb Hc); [by left|done].
Qed.

(** Copying words to a place whose contents do not matter to [I]. *)
Lemma copy_gen (I : heap -> Prop) lo hi n :
  (forall h x v, I h -> lo <= x < hi -> I (poke x v h)) -> forall dst src h,
  I h -> lo <= dst -> dst + 4 * Z.of_nat n <= hi ->
  (forall i, 0 <= i < Z.of_nat n -> is_Some (words h !! (src + 4 * i)) /\ is_Some (words h !! (dst + 4 * i))) ->
  src + 4 * Z.of_nat n <= dst \/ dst + 4 * Z.of_nat n <= src ->
  exists h', copy_words n dst src h = Ret h' /\ I h' /\
    (forall i, 0 <= i < Z.of_nat n -> words h' !! (dst + 4 * i) = words h !! (src + 4 * i)) /\
    (forall y, y < dst \/ dst + 4 * Z.of_nat n <= y -> words h' !! y = words h !! y).
Proof.
  intros HI. induction n as [|n IH]; intros dst src h H0 H1 H2 Hsrc Hdis; [exists h; split_and!; try done; lia|]. cbn [copy_words].
  destruct (Hsrc 0 ltac:(lia)) as [[v Hv] Hd0]. rewrite Z.mul_0_r, Z.add_0_r in Hv, Hd0. rewrite (ld_ok _ _ _ Hv). cbn [mbind outcome_bind].
  rewrite st_ok by done. cbn [mbind outcome_bind]. change (Heap _ _) with (poke dst v h).
  destruct (IH (dst + 4) (src + 4) (poke dst v h)) as (h' & -> & H' & Hd & Ho); try lia.
  - apply HI; [done|lia].
  - intros i Hi. destruct (Hsrc (i + 1) ltac:(lia)). replace (src + 4 + 4 * i) with (src + 4 * (i + 1)) by lia. replace (dst + 4 + 4 * i) with (dst + 4 * (i + 1)) by lia.
    split; by apply poke_some.
  - exists h'. split_and!; [done|done| |].
    + intros i Hi. destruct (decide (i = 0)) as [->|Hi0].
      * rewrite !Z.mul_0_r, !Z.add_0_r, Ho by lia. cbn [poke words]. by rewrite lookup_insert_eq.
      * replace (dst + 4 * i) with (dst + 4 + 4 * (i - 1)) by lia. rewrite Hd by lia. cbn [poke words]. rewrite lookup_insert_ne by lia. f_equal. lia.
    + intros y Hy. rewrite Ho by lia. cbn [poke words]. by rewrite lookup_insert_ne by lia.
Qed.

(** Copying words into a buffer. *)
Lemma copy_ok B c d n dst src h :
  heap_ok B h -> B !! c = Some d -> fr d = false -> c + HEAD <= dst -> dst + 4 * Z.of_nat n <= nx c d -> dst mod 4 = 0 ->
  (forall i, 0 <= i < Z.of_nat n -> is_Some (words h !! (src + 4 * i))) -> src + 4 * Z.of_nat n <= dst \/ dst + 4 * Z.of_nat n <= src ->
  exists h', copy_words n dst src h = Ret h' /\ heap_ok B h' /\
    (forall i, 0 <= i < Z.of_nat n -> words h' !! (dst + 4 * i) = words h !! (src + 4 * i)) /\
    (forall y, y < dst \/ dst + 4 * Z.of_nat n <= y -> words h' !! y = words h !! y).
Proof.
  intros HO Hc Hf H1 H2 H4 Hsrc Hdis. apply (copy_gen (heap_ok B) (c + HEAD) (nx c d)); try done.
  - intros h' x v HO' Hx. by apply (buffer_poke B h' c d).
  - intros i Hi. split; [by apply Hsrc|]. pose proof HO as [_ M]. apply (ce_mem HEAD c d _ (mi_mem HEAD _ _ _ M c d Hc)); [lia|Z.div_mod_to_equations; lia].
Qed.

(** ** The operation *)

(** Block [a] is replaced by block [a'] of [n] bytes, whose first [k] bytes are those of [a]. *)
Record moved (B B' : gmap Z blk) (h h' : heap) (a a' n k : Z) : Prop := Moved {
  mo_ok : heap_ok B' h';
  mo_fresh : a' = a \/ used_of B !! a' = None;
  mo_used : used_of B' = <[a' := n]> (delete a (used_of B));
  mo_space : same_space HEAD B B';
  mo_data : forall i, 0 <= i < k -> i mod 4 = 0 -> words h' !! (a' + HEAD + i) = words h !! (a + HEAD + i);
  mo_others : others B a h h'
}.

Lemma resized_moved B B' h h' a n k k' : resized HEAD B B' h h' a n k -> k' <= k -> moved B B' h h' a a n k'.
Proof.
  intros [HO U Y K O] Hk. split; try done; [by left|by rewrite insert_delete_eq|]. intros i Hi _. apply K. lia.
Qed.

(** The copy of a block to a new one and the end of the old one. *)
Lemma move_ok B B1 h h1 a b a' n :
  heap_ok B h -> B !! a = Some b -> fr b = false -> sz b <> 0 -> handed HEAD B B1 h h1 a' n -> sz b < n ->
  exists B' h2 h', copy_words (Z.to_nat (sz b / 4)) (a' + HEAD) (a + HEAD) h1 = Ret h2 /\ heap_free HEAD (a + HEAD) h2 = Ret h' /\
    moved B B' h h' a a' n (sz b).
Proof.
  intros HO Ha Hu Hz [HO1 Hfr U1 Y1 K1] Hn. assert (used_of B !! a = Some (sz b)) as Ua by (apply used_of_some; by exists b).
  assert (a' <> a) as Hne by congruence. assert (used_of B1 !! a = Some (sz b)) as Ua1 by (rewrite U1; by look).
  assert (used_of B1 !! a' = Some n) as Ua' by (rewrite U1; by look). pose proof Ua1 as (b1 & Hb1 & Ef1 & Es1 & _)%used_of_some.
  pose proof Ua' as (d & Hd & Efd & Esd & _)%used_of_some. pose proof HO1 as [S1 M1]. pose proof (mi_placed HEAD _ _ _ M1) as P1.
  destruct (pl_at HEAD B1 P1 a b1 Hb1) as (A1 & A2 & A3 & A4), (pl_at HEAD B1 P1 a' d Hd) as (D1 & D2 & D3 & D4).
  pose proof (pl_sep HEAD B1 P1 a b1 a' d Hb1 Hd) as Q1. pose proof (pl_sep HEAD B1 P1 a' d a b1 Hd Hb1) as Q2. rewrite Es1 in A3, A4.
  assert (4 * (sz b / 4) = sz b) as E4 by (Z.div_mod_to_equations; lia).
  assert (forall c s, used_of B !! c = Some s -> c <> a -> used_of B1 !! c = Some s /\ c <> a') as Hin.
  { intros c s Hc Hca. assert (c <> a') by congruence. split; [|done]. rewrite U1. by look. }
  destruct (copy_ok B1 a' d (Z.to_nat (sz b / 4)) (a' + HEAD) (a + HEAD) h1) as (h2 & E2 & HO2 & D & O2); try done; rewrite ?Z2Nat.id by (Z.div_mod_to_equations; lia);
    unfold KHeapShape.nx, at8 in *; rewrite ?E4, ?Esd; try lia.
  - Z.div_mod_to_equations. lia.
  - intros i Hi. apply (ce_mem HEAD a b1 _ (mi_mem HEAD _ _ _ M1 a b1 Hb1)); unfold KHeapShape.nx; Z.div_mod_to_equations; lia.
  - destruct (free_ok HEAD Hhead Hhead8 B1 h2 a (sz b) HO2 Ua1) as (B' & h' & E3 & HO' & U' & Y' & O'). exists B', h2, h'. split_and!; try done.
    rewrite Z2Nat.id in O2, D by (Z.div_mod_to_equations; lia). rewrite E4 in O2. split; [done|by right| |by transitivity B1| |].
    + rewrite U', U1. by rewrite delete_insert_ne.
    + intros i Hi Hi4. assert (i = 4 * (i / 4)) as Ei by (Z.div_mod_to_equations; lia).
      rewrite (O' a' n Ua' Hne) by lia. rewrite Ei, D by (Z.div_mod_to_equations; lia). rewrite <- Ei. apply (K1 a (sz b) Ua). lia.
    + intros c s Hc Hca. destruct (Hin c s Hc Hca) as [Hc1 Hca']. apply (keeps_trans HEAD) with h1; [by apply K1|].
      apply (keeps_trans HEAD) with h2; [|by apply O']. intros y Hy. apply O2. pose proof Hc1 as (dc & Hdc & _ & Esc & _)%used_of_some.
      pose proof (pl_sep HEAD B1 P1 c dc a' d Hdc Hd). pose proof (pl_sep HEAD B1 P1 a' d c dc Hd Hdc). unfold KHeapShape.nx in *.
      destruct (Z.lt_trichotomy c a') as [?|[?|?]]; lia.
Qed.

Lemma request_same n : 32 <= n < 2 ^ 32 -> n mod 8 = 0 -> request n = n /\ n <= 2 ^ 32 - 8.
Proof.
  intros Hn H8. assert (n <= 2 ^ 32 - 8) as Hle by (Z.div_mod_to_equations; lia). split; [|done].
  unfold request, MM_ALIGN_UP, MM_MIN_SIZE. rewrite u32_id by lia. change (Z.land (n + 7) (Z.lnot 7)) with (MM_BUF_SIZE (n + 7)).
  rewrite buf_size_div by lia. case_decide; Z.div_mod_to_equations; lia.
Qed.

(** [realloc_in_place] keeps the block, or does nothing. *)
Lemma in_place_ok B h a s new :
  heap_ok B h -> used_of B !! a = Some s -> 0 < new <= 2 ^ 32 - 8 ->
  exists r h', realloc_in_place HEAD (a + HEAD) new h = Ret (r, h') /\
    ((r = 0 /\ h' = h /\ s < request new) \/
     exists B' n, r = a + HEAD /\ 0 < a /\ new <= n /\ moved B B' h h' a a n (Z.min s new)).
Proof.
  intros HO Us Hnew. pose proof Us as (b & Ha & Hu & Es & Hz)%used_of_some. subst s. pose proof HO as [S M].
  destruct (sh_next HEAD B S a b Ha Hz) as (c & Hc & _). destruct (bl_facts HEAD Hhead Hhead8 B h a b c HO Ha Hu Hz Hc) as (H1 & H2 & H3 & _).
  destruct (pl_at HEAD B (mi_placed _ _ _ _ M) _ c Hc) as (_ & _ & _ & Hc8). pose proof (hdr_free c Hc8) as Hfc.
  destruct (request_ok HEAD new ltac:(lia)) as (Hr & Hr8 & Hrn). unfold realloc_in_place.
  replace (a + HEAD - HEAD) with a by lia. rewrite (ld_size HEAD B _ h a b M Ha). cbn [mbind outcome_bind].
  rewrite (mid_next HEAD B _ h a b M Ha), (mid_buf HEAD B _ h a b M Ha), (ld_size HEAD B _ h _ c M Hc). cbn [mbind outcome_bind]. rewrite (mid_buf HEAD B _ h _ c M Hc).
  set (rq := request new) in *. case_decide as Hle.
  - destruct (shrink_ok HEAD Hhead Hhead8 B h a b c HO Ha Hu Hz Hc rq new) as (B' & n & h' & E & Hn & R); [lia|done|]. exists (a + HEAD), h'. split; [done|].
    right. exists B', n. split_and!; [done|lia..|]. apply (resized_moved B B' h h' a n rq); [done|lia].
  - case_decide as Hd.
    + destruct Hd as [Hd Hfit]. apply Hfc in Hd. destruct (enlarge_ok HEAD Hhead Hhead8 B h a b c HO Ha Hu Hz Hc rq new Hd) as (B' & n & h' & E & Hn & R); [lia|done|].
      exists (a + HEAD), h'. split; [done|]. right. exists B', n. split_and!; [done|lia..|]. apply (resized_moved B B' h h' a n (sz b)); [done|lia].
    + exists 0, h. split; [done|]. left. split_and!; [done..|lia].
Qed.

(** The number of bytes of a block that is too small. *)
Lemma copy_size_ok B h a s n : heap_ok B h -> used_of B !! a = Some s -> s < n -> copy_size HEAD (a + HEAD) n h = Ret s.
Proof.
  intros [_ M] (b & Hb & _ & <- & _)%used_of_some Hn. unfold copy_size. replace (a + HEAD - HEAD) with a by lia.
  rewrite (ld_size HEAD B _ h a b M Hb). cbn [mbind outcome_bind]. rewrite (mid_buf HEAD B _ h a b M Hb). by rewrite decide_False by lia.
Qed.

(** [heap_realloc] of a block in use. *)
Lemma realloc_ok B h a s new :
  heap_ok B h -> used_of B !! a = Some s -> 0 < new <= 2 ^ 32 - 8 ->
  exists r h', heap_realloc HEAD (a + HEAD) new h = Ret (r, h') /\
    ((r = 0 /\ h' = h /\ forall c n, free_of B !! c = Some n -> n < request new) \/
     exists B' a' n, r = a' + HEAD /\ 0 < a' /\ new <= n /\ moved B B' h h' a a' n (Z.min s new)).
Proof.
  intros HO Us Hnew. destruct (request_ok HEAD new ltac:(lia)) as (Hr & Hr8 & Hrn). destruct (request_same _ Hr Hr8) as [Erq Hrq].
  destruct (in_place_ok B h a s new HO Us Hnew) as (r & h1 & E1 & Hres). unfold heap_realloc. pose proof Us as (b & Hb & Hu & Es & Hz)%used_of_some.
  pose proof HO as [_ M]. destruct (pl_at HEAD B (mi_placed _ _ _ _ M) a b Hb) as (Ha0 & _). rewrite decide_False by lia. rewrite decide_False by lia.
  rewrite E1. cbn [mbind outcome_bind]. destruct Hres as [(-> & -> & Hlt)|(B' & n & -> & Ha & Hn & R)].
  2: { rewrite decide_True by lia. exists (a + HEAD), h1. split; [done|]. right. by exists B', a, n. }
  rewrite decide_False by lia. destruct (alloc_ok HEAD Hhead Hhead8 B h (request new) HO ltac:(lia)) as (r & h2 & E2 & Hres).
  rewrite E2. cbn [mbind outcome_bind]. rewrite Erq in Hres. destruct Hres as [(-> & -> & Hno)|(B1 & a' & n & -> & Ha' & [Hn _] & _ & HH)].
  - rewrite decide_True by done. exists 0, h. split; [done|]. by left.
  - rewrite decide_False by lia. pose proof HH as [HO1 Hfr U1 _ _]. assert (used_of B1 !! a = Some s) as Us1 by (rewrite U1; assert (a' <> a) by congruence; by look).
    rewrite (copy_size_ok B1 h2 a s (request new) HO1 Us1 Hlt). cbn [mbind outcome_bind]. subst s.
    destruct (move_ok B B1 h h2 a b a' n HO Hb Hu Hz HH ltac:(lia)) as (B' & h3 & h' & E3 & E4 & R).
    rewrite E3. cbn [mbind outcome_bind]. rewrite E4. cbn [mbind outcome_bind]. exists (a' + HEAD), h'. split; [done|]. right. exists B', a', n.
    split_and!; [done|lia..|]. destruct R as [R1 R2 R3 R4 R5 R6]. split; try done. intros i Hi Hi4. apply R5; [lia|done].
Qed.

End Move.
