(* ===== verification/KHeapInit.v ===== *)
(** * Regions

    A region becomes the block of its own description, one block for use and a last block
    of no size.  Adding a region adds its space to the heap and leaves the blocks in use
    alone; the first region makes the heap. *)

From stdpp Require Import gmap.
From S2P Require Import Prelude KBits KHeap KHeapLists KHeapShape KHeapMem KHeapCut KHeapSearch KHeapAlloc KHeapFree.

(** Memory [lo .. hi) is there. *)
Definition present (h : heap) (lo hi : Z) : Prop := forall x, lo <= x < hi -> x mod 4 = 0 -> is_Some (words h !! x).

(** Only [lo .. hi) changes, and it stays. *)
Record inside (lo hi : Z) (h h' : heap) : Prop := Inside {
  in_words : forall y, y < lo \/ hi <= y -> words h' !! y = words h !! y;
  in_mem : forall y, is_Some (words h !! y) -> is_Some (words h' !! y);
  in_head : mmhead h' = mmhead h
}.

Lemma inside_refl lo hi h : inside lo hi h h.
Proof. by split. Qed.

Lemma inside_trans lo hi h1 h2 h3 : inside lo hi h1 h2 -> inside lo hi h2 h3 -> inside lo hi h1 h3.
Proof.
  intros [A1 A2 A3] [B1 B2 B3]. split; [intros y Hy; by rewrite B1, A1|intros y Hy; by apply B2, A2|by rewrite B3].
Qed.

Lemma st_inside lo hi h x v :
  present h lo hi -> lo <= x < hi -> x mod 4 = 0 -> st x v h = Ret (poke x v h) /\ inside lo hi h (poke x v h) /\ present (poke x v h) lo hi.
Proof.
  intros Hp Hx H4. split_and!.
  - by rewrite st_ok by (by apply Hp).
  - split; [|by intros y; apply poke_some|done]. intros y Hy. cbn [poke words]. by rewrite lookup_insert_ne by lia.
  - intros y Hy Hy4. by apply poke_some, Hp.
Qed.

Lemma clear_ok n : forall a h, a mod 4 = 0 -> present h a (a + 4 * Z.of_nat n) ->
  exists h', clear_words n a h = Ret h' /\ inside a (a + 4 * Z.of_nat n) h h'.
Proof.
  induction n as [|n IH]; intros a h Ha Hp; [exists h; split; [done|apply inside_refl]|]. cbn [clear_words].
  destruct (st_inside a (a + 4 * Z.of_nat (S n)) h a 0 Hp) as (-> & I1 & Hp1); [lia|done|]. cbn [mbind outcome_bind].
  destruct (IH (a + 4) (poke a 0 h)) as (h' & -> & [I2 I3 I4]); [Z.div_mod_to_equations; lia|intros x Hx; apply Hp1; lia|].
  exists h'. split; [done|]. apply (inside_trans _ _ _ (poke a 0 h)); [done|]. split; [|done|done]. intros y Hy. apply I2. lia.
Qed.

Section Init.
Context (HEAD : Z) (Hhead : 8 <= HEAD) (Hhead8 : HEAD mod 8 = 0).

Abbreviation nx := (nx HEAD).
Abbreviation f_size := (f_size HEAD).
Abbreviation f_prev := (f_prev HEAD).
Abbreviation mid := (mid HEAD).
Abbreviation heap_ok := (heap_ok HEAD).
Abbreviation others := (others HEAD).

(** [lo .. hi) has nothing of the blocks. *)
Definition apart (B : gmap Z blk) (lo hi : Z) : Prop := forall a b, B !! a = Some b -> nx a b <= lo \/ hi <= a.

Lemma mid_frame B fs h h' lo hi : mid B fs h -> apart B lo hi -> inside lo hi h h' -> mid B fs h'.
Proof.
  intros [P M [F HF] Hfs] Hap [I1 I2 I3].
  assert (forall a b x, B !! a = Some b -> a <= x < nx a b -> words h' !! x = words h !! x) as Hin.
  { intros a b x Hb Hx. apply I1. destruct (Hap a b Hb); lia. }
  split; [done| | |done].
  - intros a b Hb. destruct (pl_at HEAD B P a b Hb) as (_ & _ & Hs & _). destruct (M a b Hb) as [C1 C2 C3]. split.
    + rewrite (Hin a b _ Hb) by (unfold KHeap.f_size, KHeapShape.nx; lia). done.
    + intros p Ep. rewrite (Hin a b _ Hb) by (unfold KHeap.f_prev, KHeapShape.nx; lia). by apply C2.
    + intros x Hx H4. by apply I2, C3.
  - exists F. pose proof HF as [L1 L2 L3 L4 L5 L6 L7 L8 L9]. split; rewrite ?I3; try done.
    + intros a s Ha. destruct (L2 a s Ha) as (fl & Hfl & Hw). exists fl. split; [done|]. destruct (Hfs a s Ha) as (b & Hb & Es). destruct (L1 a s Ha) as (_ & _ & Hr & _).
      rewrite (Hin a b _ Hb) by (unfold KHeap.f_size, KHeapShape.nx; lia). done.
    + intros l L HL. destruct (L8 l L HL) as [Hn Hd]. split; [done|]. eapply dls_ext; [|exact Hd]. intros a (s & Ha & _)%(L9 l L a HL).
      destruct (Hfs a s Ha) as (b & Hb & Es). destruct (L1 a s Ha) as (_ & _ & Hr & _). unfold KHeap.f_fprev, KHeap.f_fnext.
      split; apply (Hin a b _ Hb); unfold KHeapShape.nx; lia.
Qed.

(** A block more. *)
Lemma mid_add B fs h a b : mid B fs h -> B !! a = None -> placed HEAD (<[a := b]> B) -> cell HEAD a b (words h) -> mid (<[a := b]> B) fs h.
Proof.
  intros [P M L Hfs] Ha HP Hc. split; [done| |done|].
  - intros x d [[<- <-]|[_ Hd]]%lookup_insert_Some; [done|by apply M].
  - intros x s Hs. destruct (Hfs x s Hs) as (d & Hd & Ed). exists d. split; [|done]. by rewrite lookup_insert_ne by congruence.
Qed.

(** ** The blocks of a region *)

Section Region.
Context (B : gmap Z blk) (lo n : Z).
Context (S : shape_ok HEAD B) (Hap : apart B lo (lo + n)).
Context (Hlo : 0 < lo) (Hlo8 : lo mod 8 = 0) (Hn : 8 + HEAD * 3 + 32 <= n) (Hn28 : n <= 2 ^ 28) (Hn8 : n mod 8 = 0).

Definition rg_mid : Z := lo + HEAD + 8.
Definition rg_last : Z := lo + n - HEAD.
Definition rg_blk : blk := Blk (n - 3 * HEAD - 8) false None rg_last.
Definition rg_end : blk := Blk 0 false None rg_last.
Definition rg_map : gmap Z blk := <[rg_mid := rg_blk]> (<[rg_last := rg_end]> B).

Lemma rg_facts : (lo < rg_mid /\ rg_mid < rg_last < lo + n) /\ nx rg_mid rg_blk = rg_last /\ nx rg_last rg_end = lo + n /\ B !! rg_mid = None /\ B !! rg_last = None /\ rg_mid mod 8 = 0 /\ rg_last mod 8 = 0.
Proof.
  assert (forall x, lo <= x < lo + n -> B !! x = None) as Hno.
  { intros x Hx. destruct (B !! x) as [d|] eqn:E; [|done]. pose proof (Hap x d E). pose proof (nx_gt HEAD Hhead B x d S E). lia. }
  split_and!; try (apply Hno); unfold rg_mid, rg_last, KHeapShape.nx; cbn; try lia; Z.div_mod_to_equations; lia.
Qed.

Lemma rg_inv x d : rg_map !! x = Some d ->
  (x = rg_mid /\ d = rg_blk) \/ (x = rg_last /\ d = rg_end) \/ (B !! x = Some d /\ x <> rg_mid /\ x <> rg_last /\ (nx x d <= lo \/ lo + n <= x)).
Proof.
  unfold rg_map. intros [[<- <-]|[Hm [[<- <-]|[Hl Hd]]%lookup_insert_Some]]%lookup_insert_Some; [by left|by right; left|right; right].
  split_and!; try done. by apply Hap.
Qed.

Lemma rg_other x d : B !! x = Some d -> rg_map !! x = Some d.
Proof. destruct rg_facts as (_ & _ & _ & F1 & F2 & _). intros Hd. unfold rg_map. rewrite !lookup_insert_ne by congruence. done. Qed.

Lemma rg_shape : shape_ok HEAD rg_map.
Proof.
  destruct rg_facts as (F1 & F2 & F3 & F4 & F5 & F6 & F7).
  assert (rg_map !! rg_last = Some rg_end) as Rl by (unfold rg_map; by look).
  split.
  - intros x d [[-> ->]|[[-> ->]|(Hd & _)]]%rg_inv; [| |by apply (sh_blk HEAD B S)].
    + split; cbn; try done; unfold rg_mid, rg_last in *; try lia; Z.div_mod_to_equations; lia.
    + split; cbn; try done; unfold rg_mid, rg_last in *; lia.
  - intros x d [[-> ->]|[[-> ->]|(Hd & _)]]%rg_inv Hz; [|done|].
    + exists rg_end. by rewrite F2.
    + destruct (sh_next HEAD B S x d Hd Hz) as (c & Hc & ?). exists c. split; [by apply rg_other|done].
  - intros x d p [[-> ->]|[[-> ->]|(Hd & _)]]%rg_inv Ep; [done..|].
    destruct (sh_prev HEAD B S x d p Hd Ep) as (c & Hc & ?). exists c. split; [by apply rg_other|done].
  - intros x d y g [[-> ->]|[[-> ->]|(Hd & _ & _ & Hx)]]%rg_inv [[-> ->]|[[-> ->]|(Hg & _ & _ & Hy)]]%rg_inv Hlt; try lia.
    + pose proof (nx_gt HEAD Hhead B y g S Hg). lia.
    + pose proof (nx_gt HEAD Hhead B y g S Hg). lia.
    + by apply (sh_sep HEAD B S x d y g).
Qed.

Lemma rg_sets : free_of rg_map = free_of B /\ used_of rg_map = <[rg_mid := sz rg_blk]> (used_of B).
Proof.
  destruct rg_facts as (F1 & F2 & F3 & F4 & F5 & _).
  split; apply map_eq; intros x; rewrite ?free_of_at, ?used_of_at; unfold rg_map;
    (destruct (decide (x = rg_mid)) as [->|H1]; [|destruct (decide (x = rg_last)) as [->|H2]]); look; rewrite ?free_of_at, ?used_of_at, ?F4, ?F5; try done.
  cbn. unfold as_used. cbn. by rewrite decide_False by lia.
Qed.

(** The space is that of the old blocks and the region behind its description. *)
Definition more_space (B B' : gmap Z blk) (m l hi : Z) : Prop :=
  forall x, (covers HEAD B' x <-> covers HEAD B x \/ m <= x < hi) /\ (ends B' x <-> ends B x \/ x = l).

Lemma rg_space : more_space B rg_map rg_mid rg_last (lo + n).
Proof.
  destruct rg_facts as (F1 & F2 & F3 & F4 & F5 & _). intros x. split; split.
  - intros (y & d & [[-> ->]|[[-> ->]|(Hd & _)]]%rg_inv & Hx); [right; lia|right; lia|left; by exists y, d].
  - intros [(y & d & Hd & Hx)|Hx]; [exists y, d; split; [by apply rg_other|done]|].
    destruct (decide (x < rg_last)); [exists rg_mid, rg_blk|exists rg_last, rg_end]; (split; [unfold rg_map; by look|lia]).
  - intros (d & [[-> ->]|[[-> ->]|(Hd & _)]]%rg_inv & Hz); [cbn in Hz; lia|by right|left; by exists d].
  - intros [(d & Hd & Hz)| ->]; [exists d; split; [by apply rg_other|done]|]. exists rg_end. split; [unfold rg_map; by look|done].
Qed.

(** One store of a run of them. *)
Ltac store Hp h' I P :=
  match type of Hp with present ?h ?l ?r => match goal with |- context [st ?x ?v h] =>
    destruct (st_inside l r h x v Hp) as (-> & I & P);
      [unfold KHeap.f_size, KHeap.f_prev, KHeap.f_fprev, KHeap.f_fnext, rg_mid, rg_last in *; lia
      |unfold KHeap.f_size, KHeap.f_prev, KHeap.f_fprev, KHeap.f_fnext; Z.div_mod_to_equations; lia
      |cbn [mbind outcome_bind]; set (h' := poke x v h) in *] end end.

(** [init_mm_region] writes them; the last block says already that the one before is free. *)
Lemma rg_init h :
  mid B (free_of B) h -> present h lo (lo + n) ->
  exists h', init_mm_region HEAD lo n h = Ret h' /\ inside lo (lo + n) h h' /\
    cell HEAD rg_mid rg_blk (words h') /\ cell HEAD rg_last (set_pv (Some rg_mid) rg_end) (words h').
Proof.
  intros M Hp. destruct rg_facts as (F1 & F2 & F3 & F4 & F5 & F6 & F7). unfold init_mm_region.
  assert (next_blk HEAD lo 8 = rg_mid) as -> by done. fold rg_last.
  assert (rg_last - (rg_mid + HEAD) = hdr rg_blk) as -> by (unfold hdr, rg_last, rg_mid; cbn; lia).
  assert (MM_BUFF_PREV_FREE = hdr (set_pv (Some rg_mid) rg_end)) as -> by done.
  store Hp h1 I1 P1. store P1 h2 I2 P2. store P2 h3 I3 P3. store P3 h4 I4 P4. store P4 h5 I5 P5. store P5 h6 I6 P6. store P6 h7 I7 P7.
  store P7 h8 I8 P8. store P8 h9 I9 P9.
  exists h9. split; [done|]. split; [do 8 (eapply inside_trans; [eassumption|]); done|].
  assert (forall a b, lo <= a -> nx a b <= lo + n -> forall x, a <= x < nx a b -> x mod 4 = 0 -> is_Some (words h9 !! x)) as Hm by (intros a b ? ? x Hx; apply P9; lia).
  unfold KHeap.f_size, KHeap.f_prev, KHeap.f_fprev, KHeap.f_fnext, rg_mid, rg_last in *. split; split; try (apply Hm; lia); try done; unfold h9, h8, h7, h6, h5, h4, h3, h2, h1; cbn [poke words].
  - unfold KHeap.f_size. rewrite 6!lookup_insert_ne by lia. apply lookup_insert_eq.
  - unfold KHeap.f_size. rewrite 2!lookup_insert_ne by lia. apply lookup_insert_eq.
  - intros p [= <-]. unfold KHeap.f_prev. rewrite 3!lookup_insert_ne by lia. apply lookup_insert_eq.
  - apply (Hm (lo + n - HEAD) rg_end); lia.
Qed.

(** The region's memory with its blocks, up to the call of [heap_free]. *)
Lemma rg_mid_ok h :
  mid B (free_of B) h -> cell HEAD rg_mid rg_blk (words h) -> cell HEAD rg_last (set_pv (Some rg_mid) rg_end) (words h) ->
  mid (<[nx rg_mid rg_blk := set_pv (Some rg_mid) rg_end]> rg_map) (free_of rg_map) h.
Proof.
  intros M C1 C2. destruct rg_facts as (F1 & F2 & F3 & F4 & F5 & _). destruct rg_sets as [-> _]. pose proof (shape_placed HEAD _ rg_shape) as P.
  set (e := set_pv (Some rg_mid) rg_end) in *. assert (<[nx rg_mid rg_blk := e]> rg_map = <[rg_mid := rg_blk]> (<[rg_last := e]> B)) as E.
  { rewrite F2. unfold rg_map. rewrite insert_insert_ne, insert_insert_eq by lia. done. }
  assert (placed HEAD (<[rg_mid := rg_blk]> (<[rg_last := e]> B))) as P2.
  { rewrite <- E. apply (placed_same HEAD rg_map _ rg_end); [done|rewrite F2; unfold rg_map; by look|done]. }
  rewrite E. apply mid_add; [|by look|done|done]. apply mid_add; try done.
  apply (placed_sub HEAD _ (<[rg_mid := rg_blk]> (<[rg_last := e]> B))); [|done]. intros x d Hd. exists d. split; [|done].
  rewrite lookup_insert_ne; [done|]. intros <-. rewrite lookup_insert_ne in Hd by lia. congruence.
Qed.

(** A region is given to the heap. *)
Lemma rg_free h :
  mid B (free_of B) h -> cell HEAD rg_mid rg_blk (words h) -> cell HEAD rg_last (set_pv (Some rg_mid) rg_end) (words h) ->
  exists B' h', heap_free HEAD (rg_mid + HEAD) h = Ret h' /\ heap_ok B' h' /\ used_of B' = used_of B /\
    more_space B B' rg_mid rg_last (lo + n) /\ (forall c s, used_of B !! c = Some s -> keeps HEAD c s h h').
Proof.
  intros M C1 C2. destruct rg_facts as (F1 & F2 & F3 & F4 & F5 & _). destruct rg_sets as [_ Eu].
  assert (used_of B !! rg_mid = None) as Hnu by (rewrite used_of_at; by rewrite F4).
  destruct (free_gen HEAD Hhead Hhead8 rg_map h rg_mid rg_blk rg_end (Some rg_mid)) as (B' & h' & E & HO & U & Y & O); try done.
  - apply rg_shape.
  - by apply rg_mid_ok.
  - unfold rg_map. by look.
  - cbn. lia.
  - rewrite F2. unfold rg_map. by look.
  - by right.
  - exists B', h'. split_and!; [done|done| | |].
    + rewrite U, Eu. by rewrite delete_insert_id.
    + intros x. destruct (Y x) as [<- <-]. apply rg_space.
    + intros c s Hc. assert (c <> rg_mid) as Hne by congruence. apply (O c s); [|done]. rewrite Eu. by look.
Qed.
End Region.

(** ** Adding a region *)

Definition align_lo (addr : Z) : Z := MM_ALIGN_UP addr.
Definition align_len (addr len : Z) : Z := MM_ALIGN_DOWN (u32 (len - (align_lo addr - addr))).

Lemma align_ok addr len :
  0 < addr <= 2 ^ 32 - 8 -> 7 <= len < 2 ^ 32 ->
  0 < align_lo addr /\ align_lo addr mod 8 = 0 /\ addr <= align_lo addr < addr + 8 /\
  0 <= align_len addr len /\ align_len addr len mod 8 = 0 /\ align_lo addr + align_len addr len <= addr + len /\
  len - (align_lo addr - addr) < align_len addr len + 8.
Proof.
  intros Ha Hl. unfold align_len, align_lo, MM_ALIGN_UP, MM_ALIGN_DOWN. rewrite (u32_id (addr + 7)) by lia.
  change (Z.land (addr + 7) (Z.lnot 7)) with (MM_BUF_SIZE (addr + 7)). rewrite (buf_size_div (addr + 7)) by lia.
  set (lo := 8 * ((addr + 7) / 8)). assert (addr <= lo < addr + 8 /\ lo mod 8 = 0) as [H1 H2] by (unfold lo; Z.div_mod_to_equations; lia).
  rewrite u32_id by lia. change (Z.land (len - (lo - addr)) (Z.lnot 7)) with (MM_BUF_SIZE (len - (lo - addr))). rewrite buf_size_div by lia.
  Z.div_mod_to_equations. lia.
Qed.

Lemma present_inside h h' lo hi lo' hi' : present h lo hi -> inside lo' hi' h h' -> present h' lo hi.
Proof. intros Hp [_ I _] x Hx H4. by apply I, Hp. Qed.

(** Clearing a region and laying out its blocks. *)
Lemma region_run B h lo n :
  heap_ok B h -> apart B lo (lo + n) -> present h lo (lo + n) ->
  0 < lo -> lo mod 8 = 0 -> 8 + HEAD * 3 + 32 <= n -> n <= 2 ^ 28 -> n mod 8 = 0 ->
  exists h1 h2, clear_words (Z.to_nat (n / 4)) lo h = Ret h1 /\ init_mm_region HEAD lo n h1 = Ret h2 /\
    inside lo (lo + n) h h2 /\ mid B (free_of B) h2 /\
    cell HEAD (rg_mid lo) (rg_blk lo n) (words h2) /\ cell HEAD (rg_last lo n) (set_pv (Some (rg_mid lo)) (rg_end lo n)) (words h2).
Proof.
  intros [S M] Hap Hp Hlo Hlo8 Hn Hn28 Hn8. assert (4 * Z.of_nat (Z.to_nat (n / 4)) = n) as E4 by (Z.div_mod_to_equations; lia).
  destruct (clear_ok (Z.to_nat (n / 4)) lo h) as (h1 & E1 & I1); [Z.div_mod_to_equations; lia|by rewrite E4|]. rewrite E4 in I1.
  pose proof (mid_frame B _ h h1 lo (lo + n) M Hap I1) as M1. pose proof (present_inside h h1 _ _ _ _ Hp I1) as Hp1.
  destruct (rg_init B lo n S Hap Hlo8 Hn Hn8 h1 M1 Hp1) as (h2 & E2 & I2 & C1 & C2). exists h1, h2. split_and!; try done.
  - by eapply inside_trans.
  - by eapply mid_frame.
Qed.

Lemma add_region_ok B h addr len :
  let lo := align_lo addr in let n := align_len addr len in
  heap_ok B h -> 0 < addr <= 2 ^ 32 - 8 -> 7 <= len < 2 ^ 32 -> n <= 2 ^ 28 -> apart B lo (lo + n) -> present h lo (lo + n) ->
  8 + HEAD * 3 + 32 <= n ->
  exists B' h', krhino_add_mm_region HEAD addr len h = Ret (RHINO_SUCCESS, h') /\ heap_ok B' h' /\ used_of B' = used_of B /\
    more_space B B' (rg_mid lo) (rg_last lo n) (lo + n) /\ (forall c s, used_of B !! c = Some s -> keeps HEAD c s h h').
Proof.
  cbv zeta. intros HO Ha Hl Hn28 Hap Hp Hn. destruct (align_ok addr len Ha Hl) as (A1 & A2 & A3 & A4 & A5 & A6 & _).
  unfold krhino_add_mm_region. fold (align_lo addr). fold (align_len addr len). set (lo := align_lo addr) in *. set (n := align_len addr len) in *.
  unfold MM_MIN_SIZE. rewrite decide_False by lia. pose proof HO as [S _].
  destruct (region_run B h lo n HO Hap Hp A1 A2 Hn Hn28 A5) as (h1 & h2 & E1 & E2 & I2 & M2 & C1 & C2).
  rewrite E1. cbn [mbind outcome_bind]. rewrite E2. cbn [mbind outcome_bind]. change (next_blk HEAD lo 8) with (rg_mid lo).
  destruct (st_inside lo (lo + n) h2 (lo + HEAD + 4) (regioninfo (mmhead h2)) (present_inside h h2 _ _ _ _ Hp I2)) as (-> & I3 & _); [lia|Z.div_mod_to_equations; lia|].
  cbn [mbind outcome_bind]. set (h3 := poke _ _ h2) in *. pose proof (mid_frame B _ h2 h3 lo (lo + n) M2 Hap I3) as M3.
  assert (forall a b, lo + HEAD + 8 <= a -> cell HEAD a b (words h2) -> cell HEAD a b (words h3)) as Hc.
  { intros a b Hlt. apply cell_ext; [| |by destruct I3]; cbn [h3 poke words]; rewrite lookup_insert_ne; try done; unfold KHeap.f_size, KHeap.f_prev; lia. }
  apply Hc in C1; [|unfold rg_mid; lia]. apply Hc in C2; [|unfold rg_last; lia].
  rewrite (ld_ok _ _ _ (ce_size HEAD _ _ _ C1)). cbn [mbind outcome_bind]. set (h4 := with_head _ h3).
  destruct (rg_free B lo n S Hap A1 A2 Hn Hn28 A5 h4) as (B' & h5 & E5 & HO' & U' & Y' & K'); [by eapply mid_stats; [exact M3|..]|done|done|].
  rewrite E5. cbn [mbind outcome_bind]. exists B', h5. split_and!; try done. intros c s Hs. apply (keeps_trans HEAD) with h4; [|by apply K'].
  intros x Hx. pose proof Hs as (b & Hb & _ & Es & Hz)%used_of_some. destruct I2 as [I2 _ _], I3 as [I3 _ _]. change (words h4) with (words h3).
  rewrite I3, I2; [done|..]; destruct (Hap c b Hb); unfold KHeapShape.nx in *; lia.
Qed.
(** ** The first region *)

Lemma empty_ok h :
  freelist (mmhead h) = replicate 24 0 -> free_bitmap (mmhead h) = 0 -> heap_ok ∅ h.
Proof.
  intros Ef Eb. split; [split; intros; by simplify_map_eq|]. split; [split; intros; by simplify_map_eq|intros; by simplify_map_eq| |].
  - exists (replicate 24 []). assert (free_of ∅ = ∅) as -> by apply omap_empty.
    assert (forall l L, replicate 24 ([] : list Z) !! l = Some L -> L = []) as HF by (intros l L HL; by apply lookup_replicate in HL as [-> _]).
    split; try (intros; by simplify_map_eq).
    + by rewrite Eb.
    + intros l L ->%HF. rewrite Eb, Z.bits_0. by case_bool_decide.
    + intros l L ->%HF. split; [constructor|done].
    + intros l L a ->%HF. split; [by intros ?%elem_of_nil|intros (s & Hs & _); by simplify_map_eq].
  - intros a s. assert (free_of ∅ = ∅) as -> by apply omap_empty. by intros ?; simplify_map_eq.
Qed.

Lemma mm_head_ok h head_len pool_len addr len :
  let lo := align_lo addr in let n := align_len addr len in let first := lo + MM_ALIGN_UP head_len in
  0 < addr <= 2 ^ 32 - 8 -> 7 <= len < 2 ^ 32 -> present h lo (addr + len) ->
  0 <= head_len -> head_len + HEAD * 3 + 55 <= 1024 + pool_len <= n -> n <= 2 ^ 28 ->
  exists B h', krhino_init_mm_head HEAD head_len pool_len addr len h = Ret (RHINO_SUCCESS, h') /\ heap_ok B h' /\ used_of B = ∅ /\
    more_space ∅ B (rg_mid first) (rg_last lo n) (lo + n).
Proof.
  cbv zeta. intros Ha Hl Hp Hh Hn Hn28. destruct (align_ok addr len Ha Hl) as (A1 & A2 & A3 & A4 & A5 & A6 & A7).
  unfold krhino_init_mm_head. fold (align_lo addr). fold (align_len addr len). set (lo := align_lo addr) in *. set (n := align_len addr len) in *.
  destruct (clear_ok (Z.to_nat ((len - (lo - addr)) / 4)) lo h) as (h1 & -> & I1);
    [Z.div_mod_to_equations; lia|intros x Hx; apply Hp; Z.div_mod_to_equations; lia|]. cbn [mbind outcome_bind].
  rewrite decide_False by (change (2 ^ MM_MAX_BIT) with (2 ^ 28); lia). set (h2 := with_head _ h1).
  assert (MM_ALIGN_UP head_len = 8 * ((head_len + 7) / 8)) as Eup by (unfold MM_ALIGN_UP; rewrite u32_id by lia; by apply buf_size_div; lia).
  assert (MM_ALIGN_DOWN (n - head_len) = n - MM_ALIGN_UP head_len) as ->.
  { rewrite Eup. change (MM_ALIGN_DOWN (n - head_len)) with (MM_BUF_SIZE (n - head_len)). rewrite buf_size_div by lia. Z.div_mod_to_equations. lia. }
  set (hl := MM_ALIGN_UP head_len) in *. assert (head_len <= hl < head_len + 8 /\ hl mod 8 = 0) as [Hhl Hhl8] by (rewrite Eup; Z.div_mod_to_equations; lia).
  assert (heap_ok ∅ h2) as HO by (by apply empty_ok). pose proof HO as [S M].
  assert (apart ∅ (lo + hl) (lo + hl + (n - hl))) as Hap by (intros a b Hb; by simplify_map_eq).
  assert (present h2 (lo + hl) (lo + hl + (n - hl))) as Hp2.
  { intros x Hx H4. destruct I1 as [_ I1 _]. apply I1, Hp; [lia|done]. }
  assert (lo + hl > 0 /\ (lo + hl) mod 8 = 0 /\ (n - hl) mod 8 = 0) as (B1 & B2 & B3) by (Z.div_mod_to_equations; lia).
  destruct (rg_init ∅ (lo + hl) (n - hl) S Hap B2 ltac:(lia) B3 h2 M Hp2) as (h3 & -> & I3 & C1 & C2). cbn [mbind outcome_bind].
  pose proof (mid_frame ∅ _ h2 h3 _ _ M Hap I3) as M3. change (next_blk HEAD (lo + hl) 8) with (rg_mid (lo + hl)).
  destruct (rg_free ∅ (lo + hl) (n - hl) S Hap ltac:(lia) B2 ltac:(lia) ltac:(lia) B3 h3 M3 C1 C2) as (B & h4 & -> & HO4 & U4 & Y4 & _). cbn [mbind outcome_bind].
  assert (forall x, covers HEAD B x <-> rg_mid (lo + hl) <= x < lo + n) as Y.
  { intros x. rewrite (proj1 (Y4 x)). replace (lo + hl + (n - hl)) with (lo + n) by lia. split; [intros [(a & b & Hb & _)|?]; [by simplify_map_eq|done]|by right]. }
  assert (exists b, B !! rg_mid (lo + hl) = Some b) as [b Hb].
  { destruct (proj2 (Y (rg_mid (lo + hl)))) as (a & b & Hb & Hx); [unfold rg_mid; lia|]. pose proof HO4 as [S4 _]. destruct (nx_gt HEAD Hhead B a b S4 Hb).
    assert (covers HEAD B a) as ?%Y by (exists a, b; split; [done|lia]). exists b. by assert (a = rg_mid (lo + hl)) as <- by lia. }
  pose proof HO4 as [S4 M4]. rewrite (ld_size HEAD B _ h4 _ b M4 Hb). cbn [mbind outcome_bind]. eexists B, _. split; [done|].
  split_and!; [split; [done|by eapply mid_stats; [exact M4|..]]|by rewrite U4; apply omap_empty|].
  replace (rg_last lo n) with (rg_last (lo + hl) (n - hl)) by (unfold rg_last; lia). by replace (lo + n) with (lo + hl + (n - hl)) by lia.
Qed.

End Init.
