(* ===== verification/KHeapClient.v ===== *)
(** * The heap as its callers see it

    Callers hold buffers of the sizes they asked for.  In every state that calls of the
    heap and writes to their own buffers lead to, no call goes wrong, buffers are aligned
    and do not overlap, no call changes a buffer it is not about, and no space is lost:
    when everything is given back the heap is one free block again. *)

From stdpp Require Import gmap.
From S2P Require Import Prelude KBits KHeap KHeapLists KHeapShape KHeapMem KHeapCut KHeapSearch KHeapAlloc KHeapFree KHeapRealloc KHeapMove KHeapInit.

Section Client.
Context (HEAD : Z) (Hhead : 8 <= HEAD) (Hhead8 : HEAD mod 8 = 0).
(** What [krhino_init_mm_head] is called with. *)
Context (head_len pool_len addr len : Z) (h0 : heap).

(** The first block of the heap, its last one, and the end of the region. *)
Definition heap_lo : Z := rg_mid HEAD (align_lo addr + MM_ALIGN_UP head_len).
Definition heap_end : Z := rg_last HEAD (align_lo addr) (align_len addr len).
Definition heap_hi : Z := align_lo addr + align_len addr len.

Record can_init : Prop := CanInit {
  ci_addr : 0 < addr <= 2 ^ 32 - 8;
  ci_len : 7 <= len < 2 ^ 32;
  ci_mem : present h0 (align_lo addr) (addr + len);
  ci_head : 0 <= head_len;
  ci_pool : head_len + HEAD * 3 + 55 <= 1024 + pool_len <= align_len addr len;
  ci_max : align_len addr len <= 2 ^ 28
}.

(** The states of the heap, with the buffers in the hands of callers. *)
Inductive reach : heap -> gmap Z Z -> Prop :=
| reach_init h : krhino_init_mm_head HEAD head_len pool_len addr len h0 = Ret (RHINO_SUCCESS, h) -> reach h ∅
| reach_alloc h U n r h' : reach h U -> 0 <= n <= 2 ^ 32 - 8 -> heap_alloc HEAD n h = Ret (r, h') ->
    reach h' (if decide (r = 0) then U else <[r := n]> U)
| reach_free h U p n h' : reach h U -> U !! p = Some n -> heap_free HEAD p h = Ret h' -> reach h' (delete p U)
| reach_realloc h U p n k r h' : reach h U -> U !! p = Some n -> 0 < k <= 2 ^ 32 - 8 -> heap_realloc HEAD p k h = Ret (r, h') ->
    reach h' (if decide (r = 0) then U else <[r := k]> (delete p U))
| reach_write h U p n x v h' : reach h U -> U !! p = Some n -> p <= x -> x + 4 <= p + n -> st x v h = Ret h' -> reach h' U.

(** The blocks in use are the buffers, and at least as large. *)
Definition tracks (B : gmap Z blk) (U : gmap Z Z) : Prop :=
  forall a, match U !! (a + HEAD) with
            | Some n => exists s, used_of B !! a = Some s /\ n <= s
            | None => used_of B !! a = None
            end.

Definition good (h : heap) (U : gmap Z Z) : Prop :=
  exists B, heap_ok HEAD B h /\ tracks B U /\ more_space HEAD ∅ B heap_lo heap_end heap_hi.

Lemma tracks_insert B B' U a n s : tracks B U -> used_of B' = <[a := s]> (used_of B) -> n <= s -> tracks B' (<[a + HEAD := n]> U).
Proof.
  intros T E Hn x. rewrite E. destruct (decide (x = a)) as [->|Hne]; [rewrite !lookup_insert_eq; by exists s|].
  rewrite !lookup_insert_ne by lia. apply T.
Qed.

Lemma tracks_delete B B' U a : tracks B U -> used_of B' = delete a (used_of B) -> tracks B' (delete (a + HEAD) U).
Proof.
  intros T E x. rewrite E. destruct (decide (x = a)) as [->|Hne]; [by rewrite !lookup_delete_eq|]. rewrite !lookup_delete_ne by lia. apply T.
Qed.

(** A buffer and its block. *)
Lemma tracks_buf B U p n : tracks B U -> U !! p = Some n -> exists s, used_of B !! (p - HEAD) = Some s /\ n <= s.
Proof. intros T Hp. specialize (T (p - HEAD)). replace (p - HEAD + HEAD) with p in T by lia. by rewrite Hp in T. Qed.

Lemma space_trans B B' : more_space HEAD ∅ B heap_lo heap_end heap_hi -> same_space HEAD B B' -> more_space HEAD ∅ B' heap_lo heap_end heap_hi.
Proof. intros M S x. destruct (M x), (S x) as [<- <-]. done. Qed.

Lemma good_alloc h U n r h' :
  good h U -> 0 <= n <= 2 ^ 32 - 8 -> heap_alloc HEAD n h = Ret (r, h') -> good h' (if decide (r = 0) then U else <[r := n]> U).
Proof.
  intros (B & HO & T & Y) Hn E. destruct (decide (n = 0)) as [->|Hn0].
  { unfold heap_alloc in E. rewrite decide_True in E by done. injection E as <- <-. rewrite decide_True by done. by exists B. }
  destruct (alloc_ok HEAD Hhead Hhead8 B h n HO ltac:(lia)) as (r' & h1 & E' & Hres). rewrite E in E'. injection E' as <- <-.
  destruct Hres as [(-> & -> & _)|(B' & a & s & -> & Ha & Hs & _ & [HO' _ U' Y' _])].
  - rewrite decide_True by done. by exists B.
  - rewrite decide_False by lia. destruct (request_ok HEAD n) as (_ & _ & Hr); [lia|]. exists B'. split_and!; [done| |by apply (space_trans B)].
    apply (tracks_insert B B' U a n s); [done..|lia].
Qed.

Lemma good_free h U p n : good h U -> U !! p = Some n -> exists h', heap_free HEAD p h = Ret h' /\ good h' (delete p U).
Proof.
  intros (B & HO & T & Y) Hp. destruct (tracks_buf B U p n T Hp) as (s & Hs & _).
  destruct (free_ok HEAD Hhead Hhead8 B h (p - HEAD) s HO Hs) as (B' & h' & E & HO' & U' & Y' & _). replace (p - HEAD + HEAD) with p in E by lia.
  exists h'. split; [done|]. exists B'. split_and!; [done| |by apply (space_trans B)]. replace p with (p - HEAD + HEAD) by lia. by apply (tracks_delete B).
Qed.

Lemma good_realloc h U p n k :
  good h U -> U !! p = Some n -> 0 < k <= 2 ^ 32 - 8 ->
  exists r h', heap_realloc HEAD p k h = Ret (r, h') /\ good h' (if decide (r = 0) then U else <[r := k]> (delete p U)).
Proof.
  intros (B & HO & T & Y) Hp Hk. destruct (tracks_buf B U p n T Hp) as (s & Hs & _).
  destruct (realloc_ok HEAD Hhead Hhead8 B h (p - HEAD) s k HO Hs Hk) as (r & h' & E & Hres). replace (p - HEAD + HEAD) with p in E by lia.
  exists r, h'. split; [done|]. destruct Hres as [(-> & -> & _)|(B' & a' & m & -> & Ha' & Hm & [HO' _ U' Y' _ _])].
  - rewrite decide_True by done. by exists B.
  - rewrite decide_False by lia. exists B'. split_and!; [done| |by apply (space_trans B)].
    assert (tracks B' (<[a' + HEAD := k]> (delete (p - HEAD + HEAD) U))) as T'; [|by replace (p - HEAD + HEAD) with p in T' by lia].
    intros x. rewrite U'. destruct (decide (x = a')) as [->|Hne]; [rewrite !lookup_insert_eq; by exists m|]. rewrite !lookup_insert_ne by lia.
    destruct (decide (x = p - HEAD)) as [->|Hne2]; [by rewrite !lookup_delete_eq|]. rewrite !lookup_delete_ne by lia. apply T.
Qed.

Lemma good_write h U p n x v : good h U -> U !! p = Some n -> p <= x -> x + 4 <= p + n -> good (poke x v h) U.
Proof.
  intros (B & HO & T & Y) Hp H1 H2. exists B. split_and!; [|done..]. destruct (tracks_buf B U p n T Hp) as (s & (b & Hb & Hf & Es & _)%used_of_some & Hn).
  apply (buffer_poke HEAD Hhead B h (p - HEAD) b); try done. unfold KHeapShape.nx. lia.
Qed.

Lemma st_inv x v h h' : st x v h = Ret h' -> h' = poke x v h.
Proof. unfold st. destruct (words h !! x); [by intros [= <-]|done]. Qed.

Context (CI : can_init).

Lemma init_good : exists h, krhino_init_mm_head HEAD head_len pool_len addr len h0 = Ret (RHINO_SUCCESS, h) /\ good h ∅.
Proof.
  destruct CI as [C1 C2 C3 C4 C5 C6]. destruct (mm_head_ok HEAD Hhead Hhead8 h0 head_len pool_len addr len C1 C2 C3 C4 C5 C6) as (B & h & E & HO & U & Y).
  exists h. split; [done|]. exists B. split_and!; [done| |done]. intros a. rewrite U. done.
Qed.

Lemma reach_good h U : reach h U -> good h U.
Proof.
  induction 1 as [h E|h U n r h' _ IH Hn E|h U p n h' _ IH Hp E|h U p n k r h' _ IH Hp Hk E|h U p n x v h' _ IH Hp H1 H2 E].
  - destruct init_good as (h1 & E1 & G). rewrite E in E1. by injection E1 as <-.
  - by apply (good_alloc h).
  - destruct (good_free h U p n IH Hp) as (h1 & E1 & G). rewrite E in E1. by injection E1 as <-.
  - destruct (good_realloc h U p n k IH Hp Hk) as (r1 & h1 & E1 & G). rewrite E in E1. by injection E1 as <- <-.
  - rewrite (st_inv _ _ _ _ E). by apply (good_write h U p n).
Qed.
End Client.
