(* ===== verification/KHeapTheorems.v ===== *)
(** * The heap's theorems

    The operations on well-formed heaps, and what callers rely on. *)

From stdpp Require Import gmap.
From S2P Require Import Prelude KBits KHeap KHeapLists KHeapShape KHeapMem KHeapCut KHeapSearch KHeapAlloc KHeapFree KHeapRealloc KHeapMove KHeapInit KHeapClient.

(** ** Memory for the witnesses *)

Definition ram (a n : Z) : gmap Z Z := gset_to_gmap 0 (list_to_set ((fun i => a + 4 * i) <$> seqZ 0 n)).

Lemma ram_present a n m lo hi : a mod 4 = 0 -> a <= lo -> hi <= a + 4 * n -> present (Heap (ram a n) m) lo hi.
Proof.
  intros Ha Hlo Hhi x Hx H4. unfold ram. cbn [words]. exists 0. apply lookup_gset_to_gmap_Some. split; [|done].
  apply elem_of_list_to_set, list_elem_of_fmap. exists ((x - a) / 4). split; [Z.div_mod_to_equations; lia|]. apply elem_of_seqZ. Z.div_mod_to_equations. lia.
Qed.

(** The product's header, a heap of 16 KiB. *)
Definition raw : heap := Heap (ram 4096 4096) (MmHead 0 0 0 0 [] 0 []).

Lemma raw_can_init : can_init 8 240 8192 4096 16384 raw.
Proof.
  assert (align_lo 4096 = 4096) as E1 by done. assert (align_len 4096 16384 = 16384) as E2 by done.
  split; rewrite ?E1, ?E2; try done; try lia. by apply ram_present.
Qed.

(** A heap just made, and one with a buffer of 100 bytes. *)
Lemma fresh_heap : exists h, reach 8 240 8192 4096 16384 raw h ∅ /\ good 8 240 4096 16384 h ∅.
Proof.
  destruct (init_good 8 ltac:(done) ltac:(done) 240 8192 4096 16384 raw raw_can_init) as (h & E & G). exists h. split; [by apply reach_init|done].
Qed.

(** ** Whole *)

(** When nothing is in use, the first block is free and reaches to the last one. *)
Lemma whole_free HEAD B lo l hi h :
  8 <= HEAD -> heap_ok HEAD B h -> used_of B = ∅ -> more_space HEAD ∅ B lo l hi -> lo < l -> l < hi ->
  free_of B !! lo = Some (l - lo - HEAD).
Proof.
  intros Hh [S _] HU Y H1 H2. destruct (proj2 (proj1 (Y lo))) as (a & b & Hb & Hx); [right; lia|]. destruct (nx_gt HEAD Hh B a b S Hb).
  assert (covers HEAD B a) as [(? & ? & ? & _)|Ha]%Y by (exists a, b; split; [done|lia]); [by simplify_map_eq|]. assert (a = lo) as -> by lia.
  assert (forall x d, B !! x = Some d -> fr d = false -> x = l) as Hend.
  { intros x d Hd Hf. destruct (decide (sz d = 0)) as [Hz|Hz].
    - assert (ends B x) as [(? & ? & _)| ->]%Y by (by exists d); [by simplify_map_eq|done].
    - assert (used_of B !! x = Some (sz d)) as E by (apply used_of_some; by exists d). by rewrite HU in E. }
  destruct (fr b) eqn:Ef; [|by apply (Hend lo b) in Hb; [lia|]].
  destruct (behind_free HEAD Hh B lo b S Hb Ef) as (_ & _ & c & Hc & _ & Efc & _). apply (Hend _ c) in Hc; [|done].
  apply free_of_some. exists b. split_and!; try done. unfold nx in Hc. lia.
Qed.

Section Theorems.
Context (HEAD : Z) (Hhead : 8 <= HEAD) (Hhead8 : HEAD mod 8 = 0).

(** C14. Allocating returns on every well-formed heap.  NULL is returned exactly when no
    free block has the requested size, rounded up to 8 bytes and to at least 32, and then
    nothing changes; otherwise a buffer of at least the size that nobody holds, at a
    multiple of 8 and apart from every buffer in use, becomes the caller's; the buffers in
    use keep their contents, and no space is lost or made. *)
Theorem heap_alloc_refines B h size :
  heap_ok HEAD B h -> 0 < size <= 2 ^ 32 - 8 ->
  exists r h', heap_alloc HEAD size h = Ret (r, h') /\
    (r = 0 <-> forall a s, free_of B !! a = Some s -> s < request size) /\
    (r = 0 -> h' = h) /\
    (r <> 0 -> exists B' s, r mod 8 = 0 /\ size <= s /\ heap_ok HEAD B' h' /\ used_of B !! (r - HEAD) = None /\
       used_of B' = <[r - HEAD := s]> (used_of B) /\ same_space HEAD B B' /\
       forall c n, used_of B !! c = Some n -> keeps HEAD c n h h' /\ (c + HEAD + n <= r - HEAD \/ r + s <= c)).
Proof.
  intros HO Hs. destruct (alloc_ok HEAD Hhead Hhead8 B h size HO ltac:(lia)) as (r & h' & E & Hres). exists r, h'. split; [done|].
  destruct (request_ok HEAD size ltac:(lia)) as (_ & _ & Hrq). destruct Hres as [(-> & -> & Hno)|(B' & a & s & -> & Ha & Hn & (t & Ht & Hrt) & [HO' Hfr U Y K])]; [by split_and!|].
  assert (used_of B' !! a = Some s) as Ua by (rewrite U; apply lookup_insert_eq). destruct (block_at8 HEAD B' h' a s HO' Ua) as [_ Ha8].
  split_and!; [|lia|].
  - split; [lia|]. intros Hno. specialize (Hno a t Ht). lia.
  - intros _. replace (a + HEAD - HEAD) with a by lia. exists B', s. split_and!; try done; [Z.div_mod_to_equations; lia|lia|].
    intros c n Hc. split; [by apply K|]. assert (c <> a) as Hne by congruence. assert (used_of B' !! c = Some n) as Uc by (rewrite U; by look).
    destruct (Z.lt_trichotomy c a) as [Hlt|[->|Hlt]]; [|done|].
    + left. by apply (used_apart HEAD B' h' c n a s).
    + right. pose proof (used_apart HEAD B' h' a s c n HO' Ua Uc Hlt). lia.
Qed.

(** C15. Giving a buffer back returns on every well-formed heap, merges its block with the
    free blocks on both sides, takes it and nothing else out of use, loses no space, and
    every other buffer keeps its contents. *)
Theorem heap_free_refines B h a s :
  heap_ok HEAD B h -> used_of B !! a = Some s ->
  exists B' h', heap_free HEAD (a + HEAD) h = Ret h' /\ heap_ok HEAD B' h' /\ used_of B' = delete a (used_of B) /\ same_space HEAD B B' /\
    forall c n, used_of B !! c = Some n -> c <> a -> keeps HEAD c n h h'.
Proof. apply free_ok; done. Qed.

(** Resizing a buffer returns on every well-formed heap.  On NULL nothing has
    changed and no free block has the size.  Otherwise the buffer, in its place or in
    one that nobody held, has at least the new size and begins with the words it had, up
    to the smaller of the sizes; every other buffer keeps its contents and no space is
    lost. *)
Theorem heap_realloc_refines B h a s new :
  heap_ok HEAD B h -> used_of B !! a = Some s -> 0 < new <= 2 ^ 32 - 8 ->
  exists r h', heap_realloc HEAD (a + HEAD) new h = Ret (r, h') /\
    ((r = 0 /\ h' = h /\ forall c n, free_of B !! c = Some n -> n < request new) \/
     exists B' a' n, r = a' + HEAD /\ 0 < a' /\ new <= n /\ heap_ok HEAD B' h' /\ (a' = a \/ used_of B !! a' = None) /\
       used_of B' = <[a' := n]> (delete a (used_of B)) /\ same_space HEAD B B' /\
       (forall i, 0 <= i < Z.min s new -> i mod 4 = 0 -> words h' !! (a' + HEAD + i) = words h !! (a + HEAD + i)) /\
       (forall c k, used_of B !! c = Some k -> c <> a -> keeps HEAD c k h h')).
Proof.
  intros HO Ha Hn. destruct (realloc_ok HEAD Hhead Hhead8 B h a s new HO Ha Hn) as (r & h' & E & Hres). exists r, h'. split; [done|].
  destruct Hres as [?|(B' & a' & n & -> & H1 & H2 & [M1 M2 M3 M4 M5 M6])]; [by left|]. right. exists B', a', n. by split_and!.
Qed.

(** A request within 7 bytes of 2^32 is rounded up to 0 and then to 32: a buffer of
    less than 2^28 bytes is handed out for it whenever any block is free, instead of
    NULL. *)
Theorem heap_alloc_wraps B h size a t :
  heap_ok HEAD B h -> 2 ^ 32 - 7 <= size < 2 ^ 32 -> free_of B !! a = Some t ->
  exists r h' B' s, heap_alloc HEAD size h = Ret (r, h') /\ r <> 0 /\ heap_ok HEAD B' h' /\ used_of B' !! (r - HEAD) = Some s /\ s < 2 ^ 28 <= size.
Proof.
  intros HO Hs Hf. destruct (alloc_ok HEAD Hhead Hhead8 B h size HO ltac:(lia)) as (r & h' & E & Hres). exists r, h'.
  destruct Hres as [(_ & _ & Hno)|(B' & c & s & -> & Hc & Hn & _ & [HO' _ U _ _])].
  - specialize (Hno a t Hf). rewrite request_wraps in Hno by done. pose proof Hf as (b & Hb & Ef & <-)%free_of_some. destruct HO as [S _].
    pose proof (behind_free HEAD Hhead B a b S Hb Ef). lia.
  - exists B', s. replace (c + HEAD - HEAD) with c by lia. split_and!; try done; try lia. rewrite U. apply lookup_insert_eq.
Qed.

(** Adding a region keeps the heap well formed: the region's space behind its
    description is the heap's, the blocks in use and their contents are untouched. *)
Theorem heap_add_region B h addr len :
  let lo := align_lo addr in let n := align_len addr len in
  heap_ok HEAD B h -> 0 < addr <= 2 ^ 32 - 8 -> 7 <= len < 2 ^ 32 -> n <= 2 ^ 28 -> apart HEAD B lo (lo + n) -> present h lo (lo + n) ->
  8 + HEAD * 3 + 32 <= n ->
  exists B' h', krhino_add_mm_region HEAD addr len h = Ret (RHINO_SUCCESS, h') /\ heap_ok HEAD B' h' /\ used_of B' = used_of B /\
    more_space HEAD B B' (rg_mid HEAD lo) (rg_last HEAD lo n) (lo + n) /\ (forall c s, used_of B !! c = Some s -> keeps HEAD c s h h').
Proof. apply add_region_ok; done. Qed.

(** The largest free size that is reported is what an allocation can get: exactly the
    requests that do not fit it, rounded up, are answered with NULL. *)
Theorem heap_max_free B h size :
  heap_ok HEAD B h -> 0 < size <= 2 ^ 32 - 8 ->
  exists m r h', krhino_mm_max_free_size_get HEAD h = Ret m /\ heap_alloc HEAD size h = Ret (r, h') /\ (r = 0 <-> m < request size).
Proof.
  intros HO Hs. destruct HO as [S [P M [F HF] Hfs]] eqn:EO. destruct (max_free_ok HEAD (free_of B) F h HF) as (m & Em & Hle & Hm).
  destruct (alloc_ok HEAD Hhead Hhead8 B h size HO ltac:(lia)) as (r & h' & E & Hres). exists m, r, h'. split_and!; try done.
  destruct (request_ok HEAD size ltac:(lia)) as (Hr & _ & Hrq). destruct Hres as [(-> & _ & Hno)|(B' & a & s & -> & Ha & Hn & (t & Ht & Hrt) & _)].
  - split; [|done]. intros _. destruct Hm as [->|[a Ha]]; [lia|by apply (Hno a)].
  - specialize (Hle a t Ht). lia.
Qed.

(** ** From the callers' side *)

Section Callers.
Context (head_len pool_len addr len : Z) (h0 : heap).
Abbreviation reach := (reach HEAD head_len pool_len addr len h0).
Abbreviation can_init := (can_init HEAD head_len pool_len addr len h0).

(** Whatever sequence of calls and of writes to own buffers came before, the heap can
    be made and no call that a caller may make goes wrong: allocating any size, giving
    back or resizing a buffer it holds, writing a word of it. *)
Theorem heap_safe :
  can_init -> (exists h, reach h ∅) /\
  forall h U, reach h U ->
    (forall n, 0 <= n <= 2 ^ 32 - 8 -> exists r h', heap_alloc HEAD n h = Ret (r, h')) /\
    (forall p n, U !! p = Some n -> exists h', heap_free HEAD p h = Ret h') /\
    (forall p n k, U !! p = Some n -> 0 < k <= 2 ^ 32 - 8 -> exists r h', heap_realloc HEAD p k h = Ret (r, h')) /\
    (forall p n x v, U !! p = Some n -> p <= x -> x + 4 <= p + n -> x mod 4 = 0 -> exists h', st x v h = Ret h').
Proof.
  intros CI. split; [destruct (init_good HEAD Hhead Hhead8 _ _ _ _ _ CI) as (h & E & _); exists h; by apply reach_init|].
  intros h U HR. pose proof (reach_good HEAD Hhead Hhead8 _ _ _ _ _ CI h U HR) as G. split_and!.
  - intros n Hn. destruct (decide (n = 0)) as [->|Hn0]; [exists 0, h; unfold heap_alloc; by rewrite decide_True|]. destruct G as (B & HO & _).
    destruct (alloc_ok HEAD Hhead Hhead8 B h n HO ltac:(lia)) as (r & h' & E & _). by exists r, h'.
  - intros p n Hp. destruct (good_free HEAD Hhead Hhead8 _ _ _ h U p n G Hp) as (h' & E & _). by exists h'.
  - intros p n k Hp Hk. destruct (good_realloc HEAD Hhead Hhead8 _ _ _ h U p n k G Hp Hk) as (r & h' & E & _). by exists r, h'.
  - intros p n x v Hp H1 H2 H4. destruct G as (B & [S M] & T & _). destruct (tracks_buf HEAD B U p n T Hp) as (s & (b & Hb & _ & Es & _)%used_of_some & Hn).
    eexists. rewrite st_ok; [done|]. apply (ce_mem HEAD _ b _ (mi_mem HEAD _ _ _ M _ b Hb)); [unfold nx; lia|done].
Qed.

(** The buffers callers hold lie in the heap's region at multiples of 8, and no two
    of them overlap: there is room for a header between them. *)
Theorem heap_buffers h U p n :
  can_init -> reach h U -> U !! p = Some n ->
  p mod 8 = 0 /\ heap_lo HEAD head_len addr + HEAD <= p /\ p + n <= heap_end HEAD addr len /\
  forall q k, U !! q = Some k -> p < q -> p + n + HEAD <= q.
Proof.
  intros CI HR Hp. destruct (reach_good HEAD Hhead Hhead8 _ _ _ _ _ CI h U HR) as (B & HO & T & Y). destruct (tracks_buf HEAD B U p n T Hp) as (s & Hs & Hn).
  destruct (block_at8 HEAD B h _ s HO Hs) as [_ H8]. pose proof Hs as (b & Hb & Hf & Es & Hz)%used_of_some. pose proof HO as [S _]. rewrite <- Es in Hz.
  assert (forall x, covers HEAD B x -> heap_lo HEAD head_len addr <= x < heap_hi addr len) as Hc.
  { intros x [(? & ? & ? & _)|?]%Y; [by simplify_map_eq|done]. }
  destruct (nx_gt HEAD Hhead B _ b S Hb) as [Hgt _]. destruct (sh_next HEAD B S _ b Hb Hz) as (c & Hcn & _). destruct (nx_gt HEAD Hhead B _ c S Hcn) as [_ Hgc].
  pose proof (Hc (p - HEAD) ltac:(exists (p - HEAD), b; split; [done|lia])). pose proof (Hc (nx HEAD (p - HEAD) b + HEAD - 1) ltac:(exists (nx HEAD (p - HEAD) b), c; split; [done|lia])).
  unfold heap_end, rg_last, heap_hi, nx in *. split_and!; [Z.div_mod_to_equations; lia|lia|lia|].
  intros q k Hq Hlt. destruct (tracks_buf HEAD B U q k T Hq) as (t & Ht & _). pose proof (used_apart HEAD B h _ s _ t HO Hs Ht ltac:(lia)). lia.
Qed.

(** C18. When callers have given everything back, the heap is whole again: a request for
    all of its space but the headers is granted, whatever happened before. *)
Theorem heap_no_leak h n :
  can_init -> reach h ∅ -> 0 < n <= 2 ^ 32 - 8 -> request n <= heap_end HEAD addr len - heap_lo HEAD head_len addr - HEAD ->
  exists r h', heap_alloc HEAD n h = Ret (r, h') /\ r <> 0.
Proof.
  intros CI HR Hn Hfit. destruct (reach_good HEAD Hhead Hhead8 _ _ _ _ _ CI h ∅ HR) as (B & HO & T & Y).
  assert (used_of B = ∅) as HU by (apply map_eq; intros a; specialize (T a); by rewrite lookup_empty in T |- *).
  destruct (request_ok HEAD n ltac:(lia)) as (Hr & _). destruct (alloc_ok HEAD Hhead Hhead8 B h n HO ltac:(lia)) as (r & h' & E & Hres). exists r, h'. split; [done|].
  destruct Hres as [(_ & _ & Hno)|(B' & a & s & -> & Ha & _)]; [|lia].
  pose proof (whole_free HEAD B _ _ _ h Hhead HO HU Y) as Hw. pose proof (Hno _ _ (Hw ltac:(lia) ltac:(unfold heap_hi, heap_end, rg_last; lia))). lia.
Qed.
End Callers.
End Theorems.


(** ** Witnesses *)

(** A heap with one buffer in use. *)
Lemma used_heap : exists B h a s, heap_ok 8 B h /\ used_of B !! a = Some s.
Proof.
  destruct fresh_heap as (h & HR & (B & HO & T & Y)).
  assert (used_of B = ∅) as HU by (apply map_eq; intros a; specialize (T a); by rewrite lookup_empty in T |- *).
  destruct (alloc_ok 8 ltac:(done) ltac:(done) B h 100 HO ltac:(done)) as (r & h' & E & [(_ & _ & Hno)|(B' & a & s & _ & _ & _ & _ & [HO' _ U _ _])]).
  - pose proof (whole_free 8 B _ _ _ h ltac:(done) HO HU Y ltac:(done) ltac:(done)) as Hw. by apply Hno in Hw.
  - exists B', h', a, s. split; [done|]. rewrite U. apply lookup_insert_eq.
Qed.

(** A heap with a free block. *)
Lemma free_heap : exists B h a s, heap_ok 8 B h /\ free_of B !! a = Some s /\ used_of B = ∅.
Proof.
  destruct fresh_heap as (h & HR & (B & HO & T & Y)).
  assert (used_of B = ∅) as HU by (apply map_eq; intros a; specialize (T a); by rewrite lookup_empty in T |- *).
  eexists B, h, _, _. split; [done|]. split; [by apply (whole_free 8 B _ _ _ h ltac:(done) HO HU Y)|done].
Qed.

Lemma heap_alloc_refines_witness : exists B h, heap_ok 8 B h /\ exists r h', heap_alloc 8 100 h = Ret (r, h').
Proof.
  destruct free_heap as (B & h & a & s & HO & _). exists B, h. split; [exact HO|].
  destruct (heap_alloc_refines 8 ltac:(done) ltac:(done) B h 100 HO ltac:(done)) as (r & h' & E & _). by exists r, h'.
Defined.

Lemma heap_free_refines_witness : exists B h a s, heap_ok 8 B h /\ used_of B !! a = Some s /\ exists h', heap_free 8 (a + 8) h = Ret h'.
Proof.
  destruct used_heap as (B & h & a & s & HO & Ha). exists B, h, a, s. split; [exact HO|]. split; [exact Ha|].
  destruct (heap_free_refines 8 ltac:(done) ltac:(done) B h a s HO Ha) as (B' & h' & E & _). by exists h'.
Defined.

Lemma heap_realloc_refines_witness : exists B h a s, heap_ok 8 B h /\ used_of B !! a = Some s /\ exists r h', heap_realloc 8 (a + 8) 300 h = Ret (r, h').
Proof.
  destruct used_heap as (B & h & a & s & HO & Ha). exists B, h, a, s. split; [exact HO|]. split; [exact Ha|].
  destruct (heap_realloc_refines 8 ltac:(done) ltac:(done) B h a s 300 HO Ha ltac:(done)) as (r & h' & E & _). by exists r, h'.
Defined.

Lemma heap_alloc_wraps_witness : exists B h r h', heap_ok 8 B h /\ heap_alloc 8 4294967295 h = Ret (r, h') /\ r <> 0.
Proof.
  destruct free_heap as (B & h & a & s & HO & Ha & _). exists B, h.
  destruct (heap_alloc_wraps 8 ltac:(done) ltac:(done) B h 4294967295 a s HO ltac:(done) Ha) as (r & h' & B' & t & E & Hr & _). by exists r, h'.
Defined.

Lemma heap_max_free_witness : exists B h m, heap_ok 8 B h /\ krhino_mm_max_free_size_get 8 h = Ret m.
Proof.
  destruct free_heap as (B & h & a & s & HO & _). exists B, h.
  destruct (heap_max_free 8 ltac:(done) ltac:(done) B h 100 HO ltac:(done)) as (m & r & h' & E & _). exists m. split; [exact HO|exact E].
Defined.

Lemma heap_add_region_witness : exists B h, heap_ok 8 B h /\ exists h', krhino_add_mm_region 8 4096 1024 h = Ret (RHINO_SUCCESS, h').
Proof.
  set (h := Heap (ram 4096 1024) (MmHead 0 0 0 0 (replicate 24 0) 0 (replicate 24 0))). assert (heap_ok 8 ∅ h) as HO by (by apply empty_ok).
  exists ∅, h. split; [exact HO|].
  destruct (heap_add_region 8 ltac:(done) ltac:(done) ∅ h 4096 1024 HO ltac:(done) ltac:(done) ltac:(done)) as (B' & h' & E & _);
    [intros a b Hb; by simplify_map_eq|by apply ram_present|done|]. by exists h'.
Defined.

Lemma heap_safe_witness : can_init 8 240 8192 4096 16384 raw /\ exists h, reach 8 240 8192 4096 16384 raw h ∅.
Proof.
  split; [apply raw_can_init|]. destruct (heap_safe 8 ltac:(done) ltac:(done) 240 8192 4096 16384 raw raw_can_init) as [HR _]. exact HR.
Defined.

Lemma heap_buffers_witness : exists h U p n, reach 8 240 8192 4096 16384 raw h U /\ U !! p = Some n /\ p mod 8 = 0.
Proof.
  destruct fresh_heap as (h & HR & (B & HO & T & Y)).
  assert (used_of B = ∅) as HU by (apply map_eq; intros a; specialize (T a); by rewrite lookup_empty in T |- *).
  destruct (alloc_ok 8 ltac:(done) ltac:(done) B h 100 HO ltac:(done)) as (r & h' & E & [(_ & _ & Hno)|(B' & a & s & Er & Ha & _)]).
  - pose proof (whole_free 8 B _ _ _ h ltac:(done) HO HU Y ltac:(done) ltac:(done)) as Hw. by apply Hno in Hw.
  - pose proof (reach_alloc 8 240 8192 4096 16384 raw h ∅ 100 r h' HR ltac:(done) E) as HR'. rewrite decide_False in HR' by lia.
    exists h', (<[r := 100]> ∅), r, 100. split; [exact HR'|]. split; [apply lookup_insert_eq|].
    apply (heap_buffers 8 ltac:(done) ltac:(done) 240 8192 4096 16384 raw h' _ r 100 raw_can_init HR'). apply lookup_insert_eq.
Defined.

Lemma heap_no_leak_witness : exists h r h', reach 8 240 8192 4096 16384 raw h ∅ /\ heap_alloc 8 16000 h = Ret (r, h') /\ r <> 0.
Proof.
  destruct fresh_heap as (h & HR & _). exists h.
  destruct (heap_no_leak 8 ltac:(done) ltac:(done) 240 8192 4096 16384 raw h 16000 raw_can_init HR ltac:(done) ltac:(done)) as (r & h' & E & Hr). by exists r, h'.
Defined.
