(* ===== verification/KPool.v ===== *)
(** * The pool of small blocks, [components/rhino/k_mm_blk.c], and the heap with it

    A buffer of the heap is cut into slices of 1 KiB, each for blocks of one power of
    two; freed blocks form a list per size.  [k_mm_alloc], [k_mm_free] and [k_mm_realloc]
    try the pool first.  The addresses in the lists are in the heap's memory. *)

From stdpp Require Import gmap.
From S2P Require Import Prelude KBits KHeap.

Definition MM_BLK_SLICE_BIT : Z := 10.
Definition MM_BLK_SLICE_SIZE : Z := 1024.
Definition MM_BLK_SIZE2TYPE (size : Z) : Z := 32 - krhino_clz32 (u32 (size - 1)).
Definition MM_BLK_TYPE2SIZE (type : Z) : Z := Z.shiftl 1 type.

(** [RHINO_CONFIG_MM_BLK_SIZE]. *)
Definition MM_BLK_SIZE : Z := 256.

Record mblk_list_t := MblkList {
  blk_size : Z;
  fail_cnt : Z;
  freelist_cnt : Z;
  nofree_cnt : Z;
  l_slice_cnt : Z;
  slice_addr : Z;
  slice_offset : Z;
  free_head : Z
}.

Record mblk_pool_t := MblkPool {
  pool_start : Z;
  pool_end : Z;
  slice_cnt : Z;
  slice_type : list Z;
  blk_list : list mblk_list_t
}.

Definition get_blk_list (t : Z) (p : mblk_pool_t) : outcome mblk_list_t :=
  match blk_list p !! Z.to_nat t with Some l => if decide (0 <= t) then Ret l else Crash | None => Crash end.
Definition set_blk_list (t : Z) (l : mblk_list_t) (p : mblk_pool_t) : mblk_pool_t :=
  MblkPool (pool_start p) (pool_end p) (slice_cnt p) (slice_type p) (<[Z.to_nat t := l]> (blk_list p)).

(** [krhino_mblk_pool_init]. *)
Definition krhino_mblk_pool_init (start size : Z) (h : heap) : outcome (Z * option mblk_pool_t * heap) :=
  h ← clear_words (Z.to_nat (size / 4)) start h;
  if decide (Z.land start 3 <> 0 \/ Z.land size 3 <> 0) then Ret (RHINO_INV_ALIGN, None, h)
  else if decide (size mod MM_BLK_SLICE_SIZE <> 0) then Ret (RHINO_MM_POOL_SIZE_ERR, None, h)
  else
    Ret (RHINO_SUCCESS,
         Some (MblkPool start (start + size) 0 (replicate (Z.to_nat (size / MM_BLK_SLICE_SIZE)) 0)
                 ((fun t => MblkList (MM_BLK_TYPE2SIZE t) 0 0 0 0 0 0 0) <$> seqZ 0 MM_BLK_SLICE_BIT)), h).

Section Pool.
(** [RHINO_CONFIG_MM_TLF_BLK_SIZE]. *)
Context (tlf_size : Z).

Definition slice_num : Z := tlf_size / MM_BLK_SLICE_SIZE.

(** A block cut from the slice of a list. *)
Definition cut_blk (t : Z) (l : mblk_list_t) (p : mblk_pool_t) : Z * mblk_pool_t :=
  (slice_addr l + slice_offset l,
   set_blk_list t (MblkList (blk_size l) (fail_cnt l) (freelist_cnt l) (nofree_cnt l) (l_slice_cnt l) (slice_addr l)
                     (slice_offset l + blk_size l) (free_head l)) p).

(** A new slice for a list. *)
Definition new_slice (t : Z) (l : mblk_list_t) (p : mblk_pool_t) : mblk_list_t * mblk_pool_t :=
  (MblkList (blk_size l) (fail_cnt l) (freelist_cnt l) (nofree_cnt l) (l_slice_cnt l + 1)
     (pool_start p + slice_cnt p * MM_BLK_SLICE_SIZE) 0 (free_head l),
   MblkPool (pool_start p) (pool_end p) (slice_cnt p + 1) (<[Z.to_nat (slice_cnt p) := t]> (slice_type p)) (blk_list p)).

(** The loop over the sizes, from [t]; [n] sizes are above it.  The block, and the list
    looked at last. *)
Fixpoint mblk_search (n : nat) (t : Z) (p : mblk_pool_t) (h : heap) : outcome (Z * Z * mblk_pool_t) :=
  l ← get_blk_list t p;
  if decide (free_head l <> 0) then
    next ← ld (free_head l) h;
    Ret (free_head l, t,
         set_blk_list t (MblkList (blk_size l) (fail_cnt l) (u32 (freelist_cnt l - 1)) (nofree_cnt l) (l_slice_cnt l) (slice_addr l)
                           (slice_offset l) next) p)
  else if decide (slice_addr l = 0 \/ slice_offset l = MM_BLK_SLICE_SIZE) then
    if decide (slice_cnt p = slice_num) then
      match n with O => Ret (0, t, p) | S n => mblk_search n (t + 1) p h end
    else
      let '(l, p) := new_slice t l p in
      let '(b, p) := cut_blk t l p in Ret (b, t, p)
  else let '(b, p) := cut_blk t l p in Ret (b, t, p).

Definition krhino_mblk_alloc_nolock (size : Z) (p : mblk_pool_t) (h : heap) : outcome (Z * mblk_pool_t) :=
  let size := if decide (size < 4) then 4 else size in
  let t := MM_BLK_SIZE2TYPE size in
  if decide (t < MM_BLK_SLICE_BIT) then
    '(b, t, p) ← mblk_search (Z.to_nat (MM_BLK_SLICE_BIT - 1 - t)) t p h;
    l ← get_blk_list t p;
    Ret (b, set_blk_list t (MblkList (blk_size l) (if decide (b = 0) then u32 (fail_cnt l + 1) else fail_cnt l) (freelist_cnt l)
                              (if decide (b = 0) then nofree_cnt l else u32 (nofree_cnt l + 1)) (l_slice_cnt l) (slice_addr l)
                              (slice_offset l) (free_head l)) p)
  else Ret (0, p).

(** The slice of an address. *)
Definition slice_idx (p : mblk_pool_t) (blk : Z) : Z := Z.shiftr (u32 (blk - pool_start p)) MM_BLK_SLICE_BIT.

Definition krhino_mblk_free_nolock (blk : Z) (p : mblk_pool_t) (h : heap) : outcome (Z * mblk_pool_t * heap) :=
  if decide (slice_num <= slice_idx p blk) then Ret (RHINO_MM_FREE_ADDR_ERR, p, h)
  else
    t ← mem_get (slice_type p) (slice_idx p blk);
    if decide (MM_BLK_SLICE_BIT <= t) then Ret (RHINO_MM_FREE_ADDR_ERR, p, h)
    else
      l ← get_blk_list t p;
      h ← st blk (free_head l) h;
      Ret (RHINO_SUCCESS,
           set_blk_list t (MblkList (blk_size l) (fail_cnt l) (u32 (freelist_cnt l + 1)) (u32 (nofree_cnt l - 1)) (l_slice_cnt l)
                             (slice_addr l) (slice_offset l) blk) p, h).

Definition krhino_mblk_check (p : mblk_pool_t) (blk : Z) : bool :=
  bool_decide (pool_start p <= blk /\ blk < pool_end p).

Definition krhino_mblk_get_size (p : mblk_pool_t) (blk : Z) : outcome Z :=
  t ← mem_get (slice_type p) (slice_idx p blk); l ← get_blk_list t p; Ret (blk_size l).

(** ** The heap with its pool *)

Record mm := Mm { mm_heap : heap; fix_pool : option mblk_pool_t }.

Definition in_pool (m : mm) (ptr : Z) : option mblk_pool_t :=
  match fix_pool m with Some p => if krhino_mblk_check p ptr then Some p else None | None => None end.

Section Heap.
Context (HEAD : Z).

Definition k_mm_alloc (size : Z) (m : mm) : outcome (Z * mm) :=
  if decide (size = 0) then Ret (0, m)
  else
    '(retptr, m) ← (match fix_pool m with
                    | Some p => if decide (size <= MM_BLK_SIZE)
                                then '(b, p) ← krhino_mblk_alloc_nolock size p (mm_heap m); Ret (b, Mm (mm_heap m) (Some p))
                                else Ret (0, m)
                    | None => Ret (0, m)
                    end);
    if decide (retptr <> 0) then Ret (retptr, m)
    else '(r, h) ← heap_alloc HEAD size (mm_heap m); Ret (r, Mm h (fix_pool m)).

Definition k_mm_free (ptr : Z) (m : mm) : outcome mm :=
  if decide (ptr = 0) then Ret m
  else
    match in_pool m ptr with
    | Some p => '(_, p, h) ← krhino_mblk_free_nolock ptr p (mm_heap m); Ret (Mm h (Some p))
    | None => h ← heap_free HEAD ptr (mm_heap m); Ret (Mm h (fix_pool m))
    end.

(** [memcpy]: whole words, and the lower bytes of the word behind them. *)
Definition copy_bytes (n dst src : Z) (h : heap) : outcome heap :=
  h ← copy_words (Z.to_nat (n / 4)) dst src h;
  if decide (n mod 4 = 0) then Ret h
  else
    v ← ld (src + n / 4 * 4) h;
    old ← ld (dst + n / 4 * 4) h;
    let mask := 2 ^ (8 * (n mod 4)) - 1 in
    st (dst + n / 4 * 4) (Z.lor (Z.land old (Z.lxor (2 ^ 32 - 1) mask)) (Z.land v mask)) h.

Definition k_mm_realloc (oldmem new_size : Z) (m : mm) : outcome (Z * mm) :=
  if decide (oldmem = 0) then
    if decide (0 < new_size) then k_mm_alloc new_size m else Ret (0, m)
  else if decide (new_size = 0) then m ← k_mm_free oldmem m; Ret (0, m)
  else
    match in_pool m oldmem with
    | Some _ =>
        '(ptr_aux, m) ← k_mm_alloc new_size m;
        if decide (ptr_aux = 0) then Ret (0, m)
        else
          match fix_pool m with
          | None => Crash
          | Some p =>
              cp_len ← krhino_mblk_get_size p oldmem;
              let cp_len := if decide (new_size < cp_len) then new_size else cp_len in
              h ← copy_bytes cp_len ptr_aux oldmem (mm_heap m);
              '(_, p, h) ← krhino_mblk_free_nolock oldmem p h;
              Ret (ptr_aux, Mm h (Some p))
          end
    | None =>
        '(ptr_aux, h) ← realloc_in_place HEAD oldmem new_size (mm_heap m);
        let m := Mm h (fix_pool m) in
        if decide (ptr_aux <> 0) then Ret (ptr_aux, m)
        else
          let new_size := request new_size in
          '(ptr_aux, m) ← k_mm_alloc new_size m;
          if decide (ptr_aux = 0) then Ret (0, m)
          else
            cpsize ← copy_size HEAD oldmem new_size (mm_heap m);
            h ← copy_bytes cpsize ptr_aux oldmem (mm_heap m);
            m ← k_mm_free oldmem (Mm h (fix_pool m));
            Ret (ptr_aux, m)
    end.

(** The end of [krhino_init_mm_head]: the pool is a buffer of the new heap, behind its own
    description of [pool_head] bytes. *)
Definition init_fix_pool (pool_head : Z) (h : heap) : outcome mm :=
  '(b, h) ← heap_alloc HEAD (tlf_size + MM_ALIGN_UP pool_head) h;
  if decide (b = 0) then Ret (Mm h None)
  else
    '(stat, p, h) ← krhino_mblk_pool_init (b + MM_ALIGN_UP pool_head) (tlf_size) h;
    if decide (stat = RHINO_SUCCESS) then Ret (Mm h p)
    else h ← heap_free HEAD b h; Ret (Mm h None).

End Heap.
End Pool.
