(* ===== verification/KPoolProofs.v ===== *)
(** * The pool hands out blocks that do not overlap

    [pool_ok] says which blocks have been cut: each of them is on its free list or in the
    hands of a caller.  Memory is read and written at the first word of free blocks only. *)

From stdpp Require Import gmap.
From S2P Require Import Prelude KBits KHeap KHeapLists KHeapMem KHeapInit KPool.

(** A list through the first words of its blocks. *)
Fixpoint chain (m : gmap Z Z) (head : Z) (L : list Z) : Prop :=
  match L with
  | [] => head = 0
  | a :: L => head = a /\ a <> 0 /\ exists n, m !! a = Some n /\ chain m n L
  end.

Lemma chain_ext m m' L : forall head, (forall a, a ∈ L -> m' !! a = m !! a) -> chain m head L -> chain m' head L.
Proof.
  induction L as [|a L IH]; intros head H; [done|]. intros (E & Ha & n & Hn & Hc). split_and!; [done..|]. exists n. rewrite H by (by left).
  split; [done|]. apply IH; [|done]. intros b Hb. apply H. by right.
Qed.

Lemma chain_head m L head : chain m head L -> (head = 0 <-> L = []).
Proof. destruct L as [|a L]; [by cbn; split|]. cbn. intros (-> & Ha & _). split; [done|]. by intros ?. Qed.

Section Pool.
Context (tlf_size num : Z) (Hnum : 0 <= num) (Htlf : tlf_size = 1024 * num) (Hmax : tlf_size < 2 ^ 32).

Lemma slice_num_is : slice_num tlf_size = num.
Proof. unfold slice_num, MM_BLK_SLICE_SIZE. rewrite Htlf. Z.div_mod_to_equations. lia. Qed.

(** How far slice [i] has been cut, for a list. *)
Definition cut_to (p : mblk_pool_t) (l : mblk_list_t) (i : Z) : Z :=
  if decide (slice_addr l = pool_start p + 1024 * i) then slice_offset l else 1024.

(** Block [x] of type [t] has been cut. *)
Definition is_cut (p : mblk_pool_t) (t x : Z) : Prop :=
  exists l i k, blk_list p !! Z.to_nat t = Some l /\ 0 <= i < slice_cnt p /\ slice_type p !! Z.to_nat i = Some t /\
    0 <= k /\ x = pool_start p + 1024 * i + k * 2 ^ t /\ k * 2 ^ t < cut_to p l i.

(** The slice of a list. *)
Definition list_slice (p : mblk_pool_t) (t : Z) (l : mblk_list_t) : Prop :=
  (slice_addr l = 0 /\ forall i, 0 <= i < slice_cnt p -> slice_type p !! Z.to_nat i <> Some t) \/
  exists i, 0 <= i < slice_cnt p /\ slice_addr l = pool_start p + 1024 * i /\ slice_type p !! Z.to_nat i = Some t /\
    0 <= slice_offset l <= 1024 /\ slice_offset l mod 2 ^ t = 0.

Record pool_ok (p : mblk_pool_t) (F : list (list Z)) (L : gmap Z Z) (m : gmap Z Z) : Prop := PoolOk {
  po_start : 0 < pool_start p /\ pool_start p mod 8 = 0;
  po_end : pool_end p = pool_start p + tlf_size /\ pool_end p <= 2 ^ 32;
  po_cnt : 0 <= slice_cnt p <= num;
  po_types : length (slice_type p) = Z.to_nat num;
  po_type : forall i t, 0 <= i < slice_cnt p -> slice_type p !! Z.to_nat i = Some t -> 2 <= t < 10;
  po_lists : length (blk_list p) = 10%nat;
  po_list : forall t l, 0 <= t < 10 -> blk_list p !! Z.to_nat t = Some l -> blk_size l = 2 ^ t /\ list_slice p t l;
  po_len : length F = 10%nat;
  po_chain : forall t l Ft, 0 <= t < 10 -> blk_list p !! Z.to_nat t = Some l -> F !! Z.to_nat t = Some Ft -> NoDup Ft /\ chain m (free_head l) Ft;
  po_part : forall t Ft x, 0 <= t < 10 -> F !! Z.to_nat t = Some Ft -> is_cut p t x <-> x ∈ Ft \/ L !! x = Some t;
  po_live : forall x t, L !! x = Some t -> is_cut p t x;
  po_free : forall t Ft x, 0 <= t < 10 -> F !! Z.to_nat t = Some Ft -> x ∈ Ft -> L !! x = None
}.

(** ** Blocks *)

Lemma cut_type p t x : (forall i t, 0 <= i < slice_cnt p -> slice_type p !! Z.to_nat i = Some t -> 2 <= t < 10) -> is_cut p t x -> 2 <= t < 10.
Proof. intros H (l & i & k & _ & Hi & Ht & _). by apply (H i). Qed.

Section Facts.
Context (p : mblk_pool_t) (F : list (list Z)) (L m : gmap Z Z) (P : pool_ok p F L m).

Lemma pow_type t : 2 <= t < 10 -> exists j, 1024 = j * 2 ^ t /\ 2 ^ t = 4 * 2 ^ (t - 2) /\ 0 < 2 ^ (t - 2) /\ 0 < j.
Proof.
  intros Ht. exists (2 ^ (10 - t)). split; [rewrite <- Z.pow_add_r by lia; by replace (10 - t + t) with 10 by lia|].
  split; [change 4 with (2 ^ 2); rewrite <- Z.pow_add_r by lia; f_equal; lia|]. split; apply Z.pow_pos_nonneg; lia.
Qed.

(** A cut block lies in its slice. *)
Lemma cut_where t x : is_cut p t x -> 2 <= t < 10 /\ exists i k, 0 <= i < slice_cnt p /\ slice_type p !! Z.to_nat i = Some t /\
  0 <= k /\ x = pool_start p + 1024 * i + k * 2 ^ t /\ (k + 1) * 2 ^ t <= 1024.
Proof.
  intros H. pose proof (cut_type p t x (po_type p F L m P) H) as Ht. split; [done|]. destruct H as (l & i & k & Hl & Hi & Hit & Hk & -> & Hlt).
  exists i, k. split_and!; try done; try lia. destruct (pow_type t Ht) as (j & Ej & E4 & H4 & Hj).
  assert (k * 2 ^ t < 1024) as Hlt2.
  { unfold cut_to in Hlt. destruct (po_list p F L m P t l ltac:(lia) Hl) as [_ [[E0 _]|(i' & _ & _ & _ & Ho & _)]]; case_decide; try lia.
    pose proof (po_start p F L m P). lia. }
  nia.
Qed.

Lemma cut_range t x : is_cut p t x -> pool_start p <= x /\ x + 2 ^ t <= pool_end p /\ x mod 4 = 0 /\ x <> 0.
Proof.
  intros (Ht & i & k & Hi & _ & Hk & -> & Hlt)%cut_where. destruct (pow_type t Ht) as (j & _ & E4 & H4 & _).
  pose proof (po_start p F L m P) as [S0 S8]. pose proof (po_end p F L m P) as [-> _]. pose proof (po_cnt p F L m P).
  assert (0 <= k * 2 ^ t) by nia. split_and!; try lia. rewrite E4. replace (k * (4 * 2 ^ (t - 2))) with (4 * (k * 2 ^ (t - 2))) by lia. Z.div_mod_to_equations. lia.
Qed.

(** Two of them do not overlap. *)
Lemma cut_apart t u x y : is_cut p t x -> is_cut p u y -> (x = y /\ t = u) \/ x + 2 ^ t <= y \/ y + 2 ^ u <= x.
Proof.
  intros (Ht & i & k & Hi & Hit & Hk & -> & Hlt)%cut_where (Hu & i' & k' & Hi' & Hit' & Hk' & -> & Hlt')%cut_where.
  destruct (pow_type t Ht) as (j & _ & E4 & H4 & _), (pow_type u Hu) as (j' & _ & E4' & H4' & _).
  assert (0 <= k * 2 ^ t) by nia. assert (0 <= k' * 2 ^ u) by nia. destruct (Z.lt_trichotomy i i') as [Hlt1|[<-|Hlt1]]; [right; lia| |right; lia].
  rewrite Hit in Hit'. injection Hit' as <-. destruct (Z.lt_trichotomy k k') as [Hk1|[<-|Hk1]]; [right; left; nia|by left|right; right; nia].
Qed.

(** The slice number an address gives. *)
Lemma cut_slice t x : is_cut p t x -> slice_idx p x < num /\ mem_get (slice_type p) (slice_idx p x) = Ret t.
Proof.
  intros H. pose proof (cut_range t x H) as (R1 & R2 & _). destruct (cut_where t x H) as (Ht & i & k & Hi & Hit & Hk & -> & Hlt).
  destruct (pow_type t Ht) as (j & _ & E4 & H4 & _). assert (0 <= k * 2 ^ t < 1024) as Hr by nia. pose proof (po_end p F L m P) as [E1 E2]. pose proof (po_cnt p F L m P).
  unfold slice_idx, MM_BLK_SLICE_BIT. rewrite u32_id by (pose proof (po_start p F L m P); lia). rewrite Z.shiftr_div_pow2 by lia. change (2 ^ 10) with 1024.
  replace (pool_start p + 1024 * i + k * 2 ^ t - pool_start p) with (1024 * i + k * 2 ^ t) by lia. assert ((1024 * i + k * 2 ^ t) / 1024 = i) as -> by (Z.div_mod_to_equations; lia).
  split; [lia|]. unfold mem_get. rewrite decide_True by (unfold zlen; rewrite ?(po_types p F L m P); lia). by rewrite Hit.
Qed.

(** ** Changing one list *)

(** A list with the same slice. *)
Definition same_slice (l l' : mblk_list_t) : Prop :=
  blk_size l' = blk_size l /\ slice_addr l' = slice_addr l /\ slice_offset l' = slice_offset l.

Lemma set_at t u l' : 0 <= t < 10 -> 0 <= u < 10 ->
  blk_list (set_blk_list t l' p) !! Z.to_nat u = if decide (u = t) then Some l' else blk_list p !! Z.to_nat u.
Proof.
  intros Ht Hu. cbn. pose proof (po_lists p F L m P) as Hlen. case_decide as E; [subst u; apply list_lookup_insert_eq; lia|]. apply list_lookup_insert_ne. lia.
Qed.

Lemma is_cut_same t l l' u x :
  0 <= t < 10 -> 0 <= u < 10 -> blk_list p !! Z.to_nat t = Some l -> same_slice l l' -> is_cut (set_blk_list t l' p) u x <-> is_cut p u x.
Proof.
  intros Ht Hu Hl (_ & E1 & E2). unfold is_cut. rewrite set_at by done. cbn [set_blk_list slice_cnt slice_type pool_start].
  case_decide as E; [|done]. subst u. split; intros (l0 & i & k & Hl0 & Hi & Hit & Hk & Hx & Hlt).
  - injection Hl0 as <-. exists l, i, k. split_and!; try done; [lia..|]. unfold cut_to in *. cbn [pool_start] in *. by rewrite E1, E2 in Hlt.
  - rewrite Hl in Hl0. injection Hl0 as <-. exists l', i, k. split_and!; try done; [lia..|]. unfold cut_to in *. cbn [pool_start] in *. by rewrite E1, E2.
Qed.

Lemma list_slice_same t l l' : same_slice l l' -> list_slice p t l -> list_slice p t l'.
Proof. intros (_ & E1 & E2). unfold list_slice. by rewrite E1, E2. Qed.

Lemma get_list_at t : 0 <= t < 10 -> exists l, blk_list p !! Z.to_nat t = Some l /\ get_blk_list t p = Ret l.
Proof.
  intros Ht. destruct (lookup_lt_is_Some_2 (blk_list p) (Z.to_nat t)) as [l Hl]; [rewrite (po_lists p F L m P); lia|]. exists l. split; [done|].
  unfold get_blk_list. rewrite Hl. by rewrite decide_True by lia.
Qed.

Lemma free_list_at t : 0 <= t < 10 -> exists Ft, F !! Z.to_nat t = Some Ft.
Proof. intros Ht. apply lookup_lt_is_Some_2. rewrite (po_len p F L m P). lia. Qed.

(** The lists of free blocks and the callers' blocks change, the slices do not. *)
Lemma pool_move t l l' F' L' m' :
  0 <= t < 10 -> blk_list p !! Z.to_nat t = Some l -> same_slice l l' -> length F' = 10%nat ->
  (forall u, u <> t -> 0 <= u < 10 -> F' !! Z.to_nat u = F !! Z.to_nat u) ->
  (forall Ft, F' !! Z.to_nat t = Some Ft -> NoDup Ft /\ chain m' (free_head l') Ft) ->
  (forall u Fu x, 0 <= u < 10 -> F !! Z.to_nat u = Some Fu -> x ∈ Fu -> u <> t -> m' !! x = m !! x) ->
  (forall u Fu x, 0 <= u < 10 -> F' !! Z.to_nat u = Some Fu -> is_cut p u x <-> x ∈ Fu \/ L' !! x = Some u) ->
  (forall x u, L' !! x = Some u -> is_cut p u x) -> (forall u Fu x, 0 <= u < 10 -> F' !! Z.to_nat u = Some Fu -> x ∈ Fu -> L' !! x = None) ->
  pool_ok (set_blk_list t l' p) F' L' m'.
Proof.
  intros Ht Hl Hsame HF' Hoth Hch Hmem Hpart Hlive Hfree. pose proof P as [P1 P2 P3 P4 P5 P6 P7 P8 P9 P10 P11 P12]. split; try done.
  - cbn. by rewrite length_insert.
  - intros u lu Hu. rewrite set_at by done. case_decide as E; [|by apply P7]. subst u. intros [= <-]. destruct (P7 t l Ht Hl) as [E1 E2].
    split; [by destruct Hsame as [-> _]|]. change (list_slice p t l'). by apply (list_slice_same t l).
  - intros u lu Fu Hu. rewrite set_at by done. case_decide as E; [subst u; intros [= <-]; by apply Hch|]. intros Hlu HFu. rewrite Hoth in HFu by done.
    destruct (P9 u lu Fu Hu Hlu HFu) as [Hn Hc]. split; [done|]. eapply chain_ext; [|exact Hc]. intros x Hx. by apply (Hmem u Fu).
  - intros u Fu x Hu HFu. rewrite (is_cut_same t l l' u x) by done. by apply Hpart.
  - intros x u Hx. pose proof (Hlive x u Hx) as Hc. pose proof (cut_type p u x P5 Hc). apply (is_cut_same t l l' u x); try done; lia.
Qed.

(** The counters. *)
Lemma pool_counts t l l' :
  0 <= t < 10 -> blk_list p !! Z.to_nat t = Some l -> same_slice l l' -> free_head l' = free_head l -> pool_ok (set_blk_list t l' p) F L m.
Proof.
  intros Ht Hl Hsame Eh. pose proof P as [P1 P2 P3 P4 P5 P6 P7 P8 P9 P10 P11 P12]. apply (pool_move t l l'); try done. intros Ft HFt. rewrite Eh. by apply (P9 t l).
Qed.

(** A block from the list. *)
Lemma pool_pop t l l' n Ft a :
  0 <= t < 10 -> blk_list p !! Z.to_nat t = Some l -> F !! Z.to_nat t = Some (a :: Ft) -> m !! a = Some n ->
  same_slice l l' -> free_head l' = n -> L !! a = None /\ pool_ok (set_blk_list t l' p) (<[Z.to_nat t := Ft]> F) (<[a := t]> L) m.
Proof.
  intros Ht Hl HF Ha Hsame Eh. pose proof P as [P1 P2 P3 P4 P5 P6 P7 P8 P9 P10 P11 P12]. pose proof (lookup_lt_Some _ _ _ HF) as Hlt.
  destruct (P9 t l _ Ht Hl HF) as [[Hni Hn]%list.NoDup_cons (_ & _ & n' & Hn' & Hc)]. rewrite Ha in Hn'. injection Hn' as <-.
  assert (is_cut p t a) as Hcut by (apply (P10 t (a :: Ft)); [done..|left; by left]). assert (L !! a = None) as HLa by (by apply (P12 t (a :: Ft)); [..|left]).
  split; [done|]. apply (pool_move t l l'); try done.
  - by rewrite length_insert.
  - intros u Hu Hu10. rewrite list_lookup_insert_ne by lia. done.
  - intros Ft'. rewrite list_lookup_insert_eq by done. intros [= <-]. split; [done|]. by rewrite Eh.
  - intros u Fu x Hu. destruct (decide (u = t)) as [->|Hne].
    + rewrite list_lookup_insert_eq by done. intros [= <-]. rewrite (P10 t _ x Ht HF), elem_of_cons, lookup_insert_Some.
      split; [intros [[->|?]|?]; auto; right; right; split; [congruence|done]|]. intros [?|[[-> _]|[_ ?]]]; auto.
    + rewrite list_lookup_insert_ne by lia. intros HFu. rewrite (P10 u Fu x Hu HFu). rewrite lookup_insert_Some. split.
      * intros [?|Hx]; [by left|]. right. right. split; [|done]. congruence.
      * intros [?|[[-> ->]|[_ ?]]]; [by left|done|by right].
  - intros x u [[<- <-]|[_ Hx]]%lookup_insert_Some; [done|by apply P11].
  - intros u Fu x Hu HFu Hx. assert (x ∈ Fu -> x <> a) as Hxa.
    { destruct (decide (u = t)) as [->|Hne].
      - rewrite list_lookup_insert_eq in HFu by done. injection HFu as <-. by intros ? ->.
      - rewrite list_lookup_insert_ne in HFu by lia. intros Hx' ->.
        assert (is_cut p u a) as Hcu by (apply (P10 u Fu); auto). destruct (cut_apart t u a a Hcut Hcu) as [[_ ?]|Hlap]; [done|].
        pose proof (Z.pow_pos_nonneg 2 t ltac:(lia) ltac:(lia)). pose proof (Z.pow_pos_nonneg 2 u ltac:(lia) ltac:(lia)). lia. }
    rewrite lookup_insert_ne by (symmetry; by apply Hxa). destruct (decide (u = t)) as [->|Hne].
    + rewrite list_lookup_insert_eq in HFu by done. injection HFu as <-. apply (P12 t (a :: Ft)); [done..|by right].
    + rewrite list_lookup_insert_ne in HFu by lia. by apply (P12 u Fu).
Qed.

(** A block back to its list. *)
Lemma pool_push t l l' Ft a :
  0 <= t < 10 -> blk_list p !! Z.to_nat t = Some l -> F !! Z.to_nat t = Some Ft -> L !! a = Some t ->
  same_slice l l' -> free_head l' = a -> pool_ok (set_blk_list t l' p) (<[Z.to_nat t := a :: Ft]> F) (delete a L) (<[a := free_head l]> m).
Proof.
  intros Ht Hl HF Ha Hsame Eh. pose proof P as [P1 P2 P3 P4 P5 P6 P7 P8 P9 P10 P11 P12]. pose proof (lookup_lt_Some _ _ _ HF) as Hlt.
  destruct (P9 t l _ Ht Hl HF) as [Hn Hc]. pose proof (P11 a t Ha) as Hcut. destruct (cut_range t a Hcut) as (_ & _ & _ & Ha0).
  assert (forall u Fu x, 0 <= u < 10 -> F !! Z.to_nat u = Some Fu -> x ∈ Fu -> x <> a) as Hne by (intros u Fu x Hu HFu Hx ->; rewrite (P12 u Fu a Hu HFu Hx) in Ha; done).
  assert (forall Ft', <[Z.to_nat t := a :: Ft]> F !! Z.to_nat t = Some Ft' -> Ft' = a :: Ft) as Hins by (intros Ft'; rewrite list_lookup_insert_eq by done; congruence).
  apply (pool_move t l l'); try done.
  - by rewrite length_insert.
  - intros u Hu Hu10. by rewrite list_lookup_insert_ne by lia.
  - intros Ft' ->%Hins. split; [apply list.NoDup_cons; split; [intros Hx; by apply (Hne t Ft a) in Hx|done]|]. rewrite Eh. cbn. split_and!; try done.
    exists (free_head l). rewrite lookup_insert_eq. split; [done|]. eapply chain_ext; [|exact Hc]. intros x Hx. rewrite lookup_insert_ne; [done|]. symmetry. by apply (Hne t Ft).
  - intros u Fu x Hu HFu Hx _. rewrite lookup_insert_ne; [done|]. symmetry. by apply (Hne u Fu).
  - intros u Fu x Hu HFu. rewrite lookup_delete_Some. destruct (decide (u = t)) as [->|Hut].
    + apply Hins in HFu as ->. rewrite (P10 t Ft x Ht HF), elem_of_cons. split; [|by intros [[->|?]|[_ ?]]; auto].
      intros [?|Hx]; [by left; right|]. destruct (decide (x = a)) as [->|Hxa]; [by left; left|]. right. split; [congruence|done].
    + rewrite list_lookup_insert_ne in HFu by lia. rewrite (P10 u Fu x Hu HFu). split; [|by intros [?|[_ ?]]; auto]. intros [?|Hx]; [by left|]. right. split; [|done]. congruence.
  - intros x u [_ Hx]%lookup_delete_Some. by apply P11.
  - intros u Fu x Hu HFu Hx. apply lookup_delete_None. destruct (decide (u = t)) as [->|Hut].
    + apply Hins in HFu as ->. apply elem_of_cons in Hx as [->|Hx]; [by left|]. right. by apply (P12 t Ft).
    + rewrite list_lookup_insert_ne in HFu by lia. right. by apply (P12 u Fu).
Qed.

(** The next block of a slice. *)
Lemma pool_cut t l i :
  2 <= t < 10 -> blk_list p !! Z.to_nat t = Some l -> 0 <= i < slice_cnt p -> slice_addr l = pool_start p + 1024 * i ->
  slice_type p !! Z.to_nat i = Some t -> 0 <= slice_offset l < 1024 -> slice_offset l mod 2 ^ t = 0 ->
  let '(b, p') := cut_blk t l p in b <> 0 /\ L !! b = None /\ is_cut p' t b /\ pool_ok p' F (<[b := t]> L) m.
Proof.
  intros Ht Hl Hi Ea Hit Ho Hom. unfold cut_blk. pose proof P as [P1 P2 P3 P4 P5 P6 P7 P8 P9 P10 P11 P12].
  destruct (P7 t l ltac:(lia) Hl) as [Ebs _]. destruct (pow_type t Ht) as (j & Ej & E4 & H4 & Hj). set (b := slice_addr l + slice_offset l). rewrite Ebs.
  set (l' := MblkList _ _ _ _ _ _ _ _). set (p' := set_blk_list t l' p).
  assert (exists k, slice_offset l = k * 2 ^ t /\ 0 <= k) as (k & Ek & Hk).
  { exists (slice_offset l / 2 ^ t). split; [|apply Z.div_pos; nia]. rewrite (Z.div_mod (slice_offset l) (2 ^ t)) at 1 by nia. lia. }
  assert (slice_offset l + 2 ^ t <= 1024) as Hoff by nia.
  assert (forall i0, cut_to (set_blk_list t l' p) l' i0 = if decide (slice_addr l = pool_start p + 1024 * i0) then slice_offset l + 2 ^ t else 1024) as Ecut by done.
  assert (forall u x, 0 <= u < 10 -> is_cut p' u x <-> is_cut p u x \/ (u = t /\ x = b)) as Hcut.
  { intros u x Hu. unfold is_cut, p'. rewrite set_at by lia. cbn [set_blk_list slice_cnt slice_type pool_start]. case_decide as Eu.
    2: { split; [by left|]. by intros [?|[-> _]]. }
    subst u. split.
    - intros (l0 & i0 & k0 & [= <-] & Hi0 & Hit0 & Hk0 & -> & Hlt). rewrite Ecut in Hlt.
      case_decide as Es; [|left; exists l, i0, k0; split_and!; try done; try lia; unfold cut_to; by rewrite decide_False].
      assert (i0 = i) as -> by lia. destruct (decide (k0 = k)) as [->|Hkk]; [right; split; [done|]; unfold b; lia|].
      left. exists l, i, k0. split_and!; try done; try lia. unfold cut_to. rewrite decide_True by done. nia.
    - intros [(l0 & i0 & k0 & Hl0 & Hi0 & Hit0 & Hk0 & -> & Hlt)|[_ ->]].
      + rewrite Hl in Hl0. injection Hl0 as <-. exists l', i0, k0. split_and!; try done; try lia. rewrite Ecut. unfold cut_to in Hlt. case_decide; lia.
      + exists l', i, k. split_and!; try done; try (unfold b; lia). rewrite Ecut, decide_True by done. nia. }
  assert (~ is_cut p t b) as Hnew.
  { intros (l0 & i0 & k0 & Hl0 & Hi0 & Hit0 & Hk0 & Eb & Hlt). rewrite Hl in Hl0. injection Hl0 as <-. unfold b in Eb. unfold cut_to in Hlt.
    case_decide as Es; [nia|]. assert (0 <= k0 * 2 ^ t < 1024) by nia. lia. }
  assert (forall u, 0 <= u < 10 -> is_cut p u b -> False) as Hnone.
  { intros u Hu Hc. destruct (cut_where u b Hc) as (Hu2 & i0 & k0 & Hi0 & Hit0 & Hk0 & Eb & Hlt). destruct (pow_type u Hu2) as (_ & _ & E4' & H4' & _).
    assert (0 <= k0 * 2 ^ u < 1024) by nia. assert (i0 = i) as -> by (unfold b in Eb; lia). rewrite Hit in Hit0. injection Hit0 as ->. done. }
  assert (L !! b = None) as HLb by (destruct (L !! b) as [u|] eqn:E; [|done]; pose proof (P11 b u E) as Hc; pose proof (cut_type p u b P5 Hc); by destruct (Hnone u ltac:(lia))).
  split_and!; [unfold b; lia|done|apply Hcut; [lia|by right]|]. split; try done.
  - cbn. by rewrite length_insert.
  - intros u lu Hu. unfold p'. rewrite set_at by lia. case_decide as Eu; [|by apply P7]. subst u. intros [= <-]. split; [done|]. right. exists i. cbn.
    split_and!; try done; try lia. rewrite Ek. replace (k * 2 ^ t + 2 ^ t) with ((k + 1) * 2 ^ t) by lia. apply Z.mod_mul. nia.
  - intros u lu Fu Hu. unfold p'. rewrite set_at by lia. case_decide as Eu; [subst u; intros [= <-]; cbn [free_head l']; by apply (P9 t l)|by apply P9].
  - intros u Fu x Hu HFu. rewrite (Hcut u x Hu), (P10 u Fu x Hu HFu), lookup_insert_Some. split.
    + intros [[?|Hx]|[-> ->]]; [by left|right; right; split; [congruence|done]|right; by left].
    + intros [?|[[<- <-]|[_ ?]]]; auto.
  - intros x u [[<- <-]|[_ Hx]]%lookup_insert_Some; [apply Hcut; [lia|by right]|]. pose proof (P11 x u Hx) as Hc. pose proof (cut_type p u x P5 Hc). apply Hcut; [lia|by left].
  - intros u Fu x Hu HFu Hx. rewrite lookup_insert_ne; [by apply (P12 u Fu)|]. intros <-. apply (Hnone u Hu). apply (P10 u Fu); auto.
Qed.

(** A slice more. *)
Lemma pool_slice t l :
  2 <= t < 10 -> blk_list p !! Z.to_nat t = Some l -> slice_addr l = 0 \/ slice_offset l = 1024 -> slice_cnt p < num ->
  let '(l', p1) := new_slice t l p in
  let p' := set_blk_list t l' p1 in
  pool_ok p' F L m /\ blk_list p' !! Z.to_nat t = Some l' /\ slice_cnt p' = slice_cnt p + 1 /\ pool_start p' = pool_start p /\
  slice_addr l' = pool_start p + 1024 * slice_cnt p /\ slice_offset l' = 0 /\ slice_type p' !! Z.to_nat (slice_cnt p) = Some t.
Proof.
  intros Ht Hl Hneed Hcnt. unfold new_slice. cbv zeta. pose proof P as [P1 P2 P3 P4 P5 P6 P7 P8 P9 P10 P11 P12]. destruct (P7 t l ltac:(lia) Hl) as [Ebs Hsl].
  set (l' := MblkList _ _ _ _ _ _ _ _). set (p1 := MblkPool _ _ _ _ _). set (c := slice_cnt p) in *.
  assert (slice_addr l' = pool_start p + 1024 * c) as Ea by (cbn; unfold MM_BLK_SLICE_SIZE; lia).
  assert (forall u, 0 <= u < 10 -> blk_list (set_blk_list t l' p1) !! Z.to_nat u = if decide (u = t) then Some l' else blk_list p !! Z.to_nat u) as Hat.
  { intros u Hu. cbn. case_decide; [subst; apply list_lookup_insert_eq; lia|apply list_lookup_insert_ne; lia]. }
  assert (forall i, 0 <= i < c + 1 -> slice_type (set_blk_list t l' p1) !! Z.to_nat i = if decide (i = c) then Some t else slice_type p !! Z.to_nat i) as Hty.
  { intros i Hi. cbn. case_decide; [subst; apply list_lookup_insert_eq; lia|apply list_lookup_insert_ne; lia]. }
  assert (forall u x, 0 <= u < 10 -> is_cut (set_blk_list t l' p1) u x <-> is_cut p u x) as Hcut.
  { intros u x Hu. unfold is_cut. rewrite Hat by done. change (slice_cnt (set_blk_list t l' p1)) with (c + 1). change (pool_start (set_blk_list t l' p1)) with (pool_start p).
    split; intros (l0 & i & k & Hl0 & Hi & Hit & Hk & -> & Hlt).
    - rewrite Hty in Hit by done. case_decide as Ei.
      + injection Hit as <-. rewrite decide_True in Hl0 by done. injection Hl0 as <-. unfold cut_to in Hlt. change (pool_start (set_blk_list t l' p1)) with (pool_start p) in Hlt.
        rewrite decide_True in Hlt by (rewrite Ea; lia). cbn in Hlt. destruct (pow_type t Ht) as (_ & _ & E4 & H4 & _). nia.
      + destruct (decide (u = t)) as [->|Hut].
        * injection Hl0 as <-. exists l, i, k. split_and!; try done; try lia. unfold cut_to in *. change (pool_start (set_blk_list t l' p1)) with (pool_start p) in Hlt.
          rewrite decide_False in Hlt by (rewrite Ea; lia). case_decide; [|done]. destruct Hneed; lia.
        * exists l0, i, k. split_and!; try done; lia.
    - assert (i <> c) as Hic by lia. destruct (decide (u = t)) as [->|Hut].
      + rewrite Hl in Hl0. injection Hl0 as <-. exists l', i, k. rewrite Hty, decide_False by lia. split_and!; try done; try lia. unfold cut_to in *.
        change (pool_start (set_blk_list t l' p1)) with (pool_start p). rewrite decide_False by (rewrite Ea; lia). case_decide; [|done].
        destruct Hsl as [[E0 Hno]|(i' & Hi' & E' & _ & Ho & _)]; [by destruct (Hno i Hi)|]. destruct Hneed; lia.
      + exists l0, i, k. rewrite Hty, decide_False by lia. split_and!; try done; lia. }
  split; [|rewrite Hat, decide_True by lia; split_and!; try done; rewrite Hty by lia; by rewrite decide_True].
  split; try done.
  - cbn. lia.
  - cbn. by rewrite length_insert.
  - intros i u Hi. rewrite Hty by done. case_decide; [intros [= <-]; lia|]. apply P5. cbn in Hi. lia.
  - cbn. by rewrite length_insert.
  - intros u lu Hu. rewrite Hat by done. case_decide as Eu.
    + intros [= <-]. subst u. split; [done|]. right. exists c. rewrite Hty, decide_True by lia. cbn. unfold MM_BLK_SLICE_SIZE. split_and!; try done; lia.
    + intros Hlu. destruct (P7 u lu Hu Hlu) as [E1 Hs1]. split; [done|]. destruct Hs1 as [[E0 Hno]|(i & Hi & E' & Hit & Ho)].
      * left. split; [done|]. intros i Hi. rewrite Hty by done. case_decide; [congruence|]. apply Hno. cbn in Hi. lia.
      * right. exists i. rewrite Hty, decide_False by lia. cbn. split_and!; try done; lia.
  - intros u lu Fu Hu. rewrite Hat by done. case_decide as Eu; [subst u; intros [= <-]; cbn [free_head l']; by apply (P9 t l)|by apply P9].
  - intros u Fu x Hu HFu. rewrite (Hcut u x Hu). by apply P10.
  - intros x u Hx. pose proof (P11 x u Hx) as Hc. pose proof (cut_type p u x P5 Hc). apply Hcut; [lia|done].
Qed.
End Facts.

(** ** The operations *)

Lemma set_set t l l' p : set_blk_list t l' (set_blk_list t l p) = set_blk_list t l' p.
Proof. unfold set_blk_list. cbn. by rewrite list_insert_insert_eq. Qed.

(** A block was handed out, of a type at least [t]. *)
Definition pool_hands (t b t' : Z) (p' : mblk_pool_t) (L : gmap Z Z) (m : gmap Z Z) : Prop :=
  t <= t' < 10 /\ b <> 0 /\ L !! b = None /\ exists F', pool_ok p' F' (<[b := t']> L) m.

Lemma hands_le t t0 b t' p' L m : t0 <= t -> pool_hands t b t' p' L m -> pool_hands t0 b t' p' L m.
Proof. intros Hle (H1 & H2). split; [lia|done]. Qed.

(** A block of the list, or of a slice it has or gets. *)
Lemma take_ok p F L h t l :
  pool_ok p F L (words h) -> 2 <= t < 10 -> blk_list p !! Z.to_nat t = Some l ->
  (free_head l <> 0 -> exists n, ld (free_head l) h = Ret n /\ forall l', same_slice l l' -> free_head l' = n ->
     pool_hands t (free_head l) t (set_blk_list t l' p) L (words h)) /\
  (slice_addr l <> 0 -> slice_offset l <> 1024 -> let '(b, p') := cut_blk t l p in pool_hands t b t p' L (words h)) /\
  (slice_addr l = 0 \/ slice_offset l = 1024 -> slice_cnt p <> num ->
     let '(l, p) := new_slice t l p in let '(b, p') := cut_blk t l p in pool_hands t b t p' L (words h)).
Proof.
  intros P Ht Hl. destruct (free_list_at p F L _ P t ltac:(lia)) as [Ft HF]. destruct (po_chain p F L _ P t l Ft ltac:(lia) Hl HF) as [_ Hc].
  destruct (po_list p F L _ P t l ltac:(lia) Hl) as [Ebs Hsl]. split_and!.
  - intros Hh. destruct Ft as [|a Ft]; [done|]. destruct Hc as (Ea & Ha & n & Hn & _). rewrite Ea. exists n. split; [by apply ld_ok|]. intros l' Hs Eh.
    destruct (pool_pop p F L _ P t l l' n Ft a ltac:(lia) Hl HF Hn Hs Eh) as [HLa P']. split_and!; try done; try lia. by eexists.
  - intros H0 H1024. destruct Hsl as [[? _]|(i & Hi & Ea & Hit & Ho & Hom)]; [done|].
    pose proof (pool_cut p F L _ P t l i Ht Hl Hi Ea Hit ltac:(lia) Hom) as Hcut. destruct (cut_blk t l p) as [b p'] eqn:E. destruct Hcut as (Hb & HLb & _ & P').
    split_and!; try done; try lia. by exists F.
  - intros Hneed Hcnt. pose proof (po_cnt p F L _ P) as Hc'. pose proof (pool_slice p F L _ P t l Ht Hl Hneed ltac:(lia)) as Hs. destruct (new_slice t l p) as [l' p1] eqn:E.
    destruct Hs as (P' & Hl' & Ec & Es & Ea & Eo & Hit). destruct (pow_type t Ht) as (_ & _ & E4 & H4 & _).
    pose proof (pool_cut (set_blk_list t l' p1) F L _ P' t l' (slice_cnt p) Ht Hl' ltac:(lia) ltac:(by rewrite Es) Hit ltac:(lia) ltac:(rewrite Eo; apply Z.mod_0_l; nia)) as Hcut.
    unfold cut_blk in *. rewrite set_set in Hcut. destruct Hcut as (Hb & HLb & _ & P''). split_and!; try done; try lia. by exists F.
Qed.

Lemma search_ok p F L h n : forall t,
  pool_ok p F L (words h) -> 2 <= t -> t + Z.of_nat n = 9 ->
  exists b t' p', mblk_search tlf_size n t p h = Ret (b, t', p') /\ t <= t' < 10 /\ ((b = 0 /\ p' = p) \/ pool_hands t b t' p' L (words h)).
Proof.
  induction n as [n IH] using lt_wf_ind. intros t P Ht Hn. destruct (get_list_at p F L _ P t ltac:(lia)) as (l & Hl & E).
  destruct (take_ok p F L h t l P ltac:(lia) Hl) as (T1 & T2 & T3). destruct n as [|n]; cbn [mblk_search]; rewrite E; cbn [mbind outcome_bind]; rewrite slice_num_is; unfold MM_BLK_SLICE_SIZE.
  all: case_decide as Hh; [destruct (T1 Hh) as (nx & -> & Hp); cbn [mbind outcome_bind]; eexists _, t, _; split; [done|]; split; [lia|]; right; by apply Hp|].
  all: case_decide as Hneed; [|destruct (cut_blk t l p) as [b p'] eqn:Ec; exists b, t, p'; split; [done|]; split; [lia|]; right; apply T2; tauto].
  all: case_decide as Hcnt.
  2, 4: destruct (new_slice t l p) as [l' p1]; destruct (cut_blk t l' p1) as [b p'] eqn:Ec; exists b, t, p'; split; [done|]; split; [lia|]; right; by apply T3.
  - exists 0, t, p. split; [done|]. split; [lia|]. by left.
  - destruct (IH n ltac:(lia) (t + 1) P ltac:(lia) ltac:(lia)) as (b & t' & p' & E' & Ht' & Hres). exists b, t', p'. split; [done|]. split; [lia|].
    destruct Hres as [?|Hh']; [by left|]. right. apply (hands_le (t + 1)); [lia|done].
Qed.

(** [krhino_mblk_alloc_nolock]. *)
Lemma size_type size : 4 <= size <= 512 -> 2 <= MM_BLK_SIZE2TYPE size < 10 /\ size <= 2 ^ MM_BLK_SIZE2TYPE size.
Proof.
  intros Hs. unfold MM_BLK_SIZE2TYPE. rewrite u32_id by lia. rewrite clz32_log2 by lia. replace (32 - (31 - Z.log2 (size - 1))) with (Z.succ (Z.log2 (size - 1))) by lia.
  pose proof (Z.log2_spec (size - 1) ltac:(lia)). assert (1 <= Z.log2 (size - 1) < 9) by (split; [apply Z.log2_le_pow2; lia|apply Z.log2_lt_pow2; lia]). lia.
Qed.

Lemma mblk_alloc_ok p F L h size :
  pool_ok p F L (words h) -> 0 < size <= 256 ->
  exists b p', krhino_mblk_alloc_nolock tlf_size size p h = Ret (b, p') /\
    ((b = 0 /\ exists F', pool_ok p' F' L (words h)) \/
     exists t F', b <> 0 /\ size <= 2 ^ t /\ L !! b = None /\ pool_ok p' F' (<[b := t]> L) (words h)).
Proof.
  intros P Hs. unfold krhino_mblk_alloc_nolock. set (sz := if decide (size < 4) then 4 else size). assert (4 <= sz <= 512 /\ size <= sz) as [Hsz Hle] by (unfold sz; case_decide; lia).
  destruct (size_type sz Hsz) as [Ht Hpow]. unfold MM_BLK_SLICE_BIT. rewrite decide_True by lia.
  destruct (search_ok p F L h (Z.to_nat (10 - 1 - MM_BLK_SIZE2TYPE sz)) (MM_BLK_SIZE2TYPE sz) P ltac:(lia) ltac:(lia)) as (b & t' & p' & -> & Ht' & Hres). cbn [mbind outcome_bind].
  assert (exists F' L', pool_ok p' F' L' (words h) /\ (b = 0 /\ L' = L \/ b <> 0 /\ L !! b = None /\ L' = <[b := t']> L)) as (F' & L' & P' & HL').
  { destruct Hres as [[-> ->]|(_ & Hb & HLb & F' & P')]; [exists F, L; split; [done|by left]|]. exists F', (<[b := t']> L). split; [done|by right]. }
  destruct (get_list_at p' F' L' _ P' t' ltac:(lia)) as (l & Hl & ->). cbn [mbind outcome_bind]. set (l' := MblkList _ _ _ _ _ _ _ _).
  pose proof (pool_counts p' F' L' _ P' t' l l' ltac:(lia) Hl ltac:(done) eq_refl) as P''. exists b, (set_blk_list t' l' p'). split; [done|].
  destruct HL' as [[-> ->]|(Hb & HLb & ->)]; [left; split; [done|by exists F']|]. right. exists t', F'. split_and!; try done.
  pose proof (Z.pow_le_mono_r 2 (MM_BLK_SIZE2TYPE sz) t'). lia.
Qed.

(** The pool stays where it is. *)
Definition same_place (p p' : mblk_pool_t) : Prop := pool_start p' = pool_start p /\ pool_end p' = pool_end p.

Lemma search_place n : forall t p h b t' p', mblk_search tlf_size n t p h = Ret (b, t', p') -> same_place p p'.
Proof.
  induction n as [|n IH]; intros t p h b t' p'; cbn [mblk_search]; (destruct (get_blk_list t p) as [l|]; [|done]); cbn [mbind outcome_bind];
    (case_decide; [destruct (ld (free_head l) h); [|done]; cbn [mbind outcome_bind]; by intros [= <- <- <-]|]);
    (case_decide; [|by intros [= <- <- <-]]); (case_decide; [|by intros [= <- <- <-]]); [by intros [= <- <- <-]|apply IH].
Qed.

Lemma alloc_place size p h b p' : krhino_mblk_alloc_nolock tlf_size size p h = Ret (b, p') -> same_place p p'.
Proof.
  unfold krhino_mblk_alloc_nolock. case_decide; [|by intros [= <- <-]]. destruct (mblk_search _ _ _ _ _) as [[[b1 t1] p1]|] eqn:E; [|done]. cbn [mbind outcome_bind].
  destruct (get_blk_list t1 p1) as [l|]; [|done]. cbn [mbind outcome_bind]. intros [= <- <-]. apply search_place in E. done.
Qed.

Lemma free_place blk p h r p' h' : krhino_mblk_free_nolock tlf_size blk p h = Ret (r, p', h') -> same_place p p'.
Proof.
  unfold krhino_mblk_free_nolock. case_decide; [by intros [= <- <- <-]|]. destruct (mem_get _ _) as [t|]; [|done]. cbn [mbind outcome_bind].
  case_decide; [by intros [= <- <- <-]|]. destruct (get_blk_list t p) as [l|]; [|done]. cbn [mbind outcome_bind]. destruct (st _ _ _); [|done]. cbn [mbind outcome_bind].
  by intros [= <- <- <-].
Qed.

(** [krhino_mblk_free_nolock] of a block in use. *)
Lemma mblk_free_ok p F L h x t :
  pool_ok p F L (words h) -> L !! x = Some t -> is_Some (words h !! x) ->
  exists v p' F', krhino_mblk_free_nolock tlf_size x p h = Ret (RHINO_SUCCESS, p', poke x v h) /\ pool_ok p' F' (delete x L) (words (poke x v h)).
Proof.
  intros P Hx Hmem. pose proof (po_live p F L _ P x t Hx) as Hc. pose proof (cut_type p t x (po_type p F L _ P) Hc) as Ht.
  destruct (cut_slice p F L _ P t x Hc) as [Hsi Hst]. unfold krhino_mblk_free_nolock. rewrite slice_num_is, decide_False by lia. rewrite Hst. cbn [mbind outcome_bind].
  unfold MM_BLK_SLICE_BIT. rewrite decide_False by lia. destruct (get_list_at p F L _ P t ltac:(lia)) as (l & Hl & ->). cbn [mbind outcome_bind].
  rewrite st_ok by done. cbn [mbind outcome_bind]. destruct (free_list_at p F L _ P t ltac:(lia)) as [Ft HF].
  eexists (free_head l), _, _. split; [done|]. cbn [poke words]. apply (pool_push p F L _ P t l _ Ft x); try done; lia.
Qed.

(** [krhino_mblk_get_size] of a block in use. *)
Lemma mblk_size_ok p F L m x t : pool_ok p F L m -> L !! x = Some t -> krhino_mblk_get_size p x = Ret (2 ^ t).
Proof.
  intros P Hx. pose proof (po_live p F L _ P x t Hx) as Hc. pose proof (cut_type p t x (po_type p F L _ P) Hc) as Ht. destruct (cut_slice p F L _ P t x Hc) as [_ Hst].
  unfold krhino_mblk_get_size. rewrite Hst. cbn [mbind outcome_bind]. destruct (get_list_at p F L _ P t ltac:(lia)) as (l & Hl & ->). cbn [mbind outcome_bind].
  by destruct (po_list p F L _ P t l ltac:(lia) Hl) as [-> _].
Qed.

(** Only the first words of free blocks matter. *)
Lemma pool_frame p F L m m' :
  pool_ok p F L m -> (forall t x, is_cut p t x -> L !! x = None -> m' !! x = m !! x) -> pool_ok p F L m'.
Proof.
  intros [P1 P2 P3 P4 P5 P6 P7 P8 P9 P10 P11 P12] Hm. split; try done. intros t l Ft Ht Hl HF. destruct (P9 t l Ft Ht Hl HF) as [Hn Hc]. split; [done|].
  eapply chain_ext; [|exact Hc]. intros x Hx. apply (Hm t x); [apply (P10 t Ft); auto|by apply (P12 t Ft)].
Qed.

(** A pool just made. *)
Lemma mblk_init_ok start h :
  0 < start -> start mod 8 = 0 -> start + tlf_size <= 2 ^ 32 -> present h start (start + tlf_size) ->
  exists p h1, krhino_mblk_pool_init start tlf_size h = Ret (RHINO_SUCCESS, Some p, h1) /\ inside start (start + tlf_size) h h1 /\
    pool_start p = start /\ (forall m, pool_ok p (replicate 10 []) ∅ m).
Proof.
  intros H0 H8 Hend Hp. assert (4 * Z.of_nat (Z.to_nat (tlf_size / 4)) = tlf_size) as E4 by (Z.div_mod_to_equations; lia).
  destruct (clear_ok (Z.to_nat (tlf_size / 4)) start h) as (h1 & E1 & I1); [Z.div_mod_to_equations; lia|by rewrite E4|]. rewrite E4 in I1.
  unfold krhino_mblk_pool_init. rewrite E1. cbn [mbind outcome_bind]. change 3 with (Z.ones 2). rewrite !Z.land_ones by lia.
  rewrite decide_False by (change (2 ^ 2) with 4; Z.div_mod_to_equations; lia). rewrite decide_False by (unfold MM_BLK_SLICE_SIZE; Z.div_mod_to_equations; lia).
  assert (tlf_size / MM_BLK_SLICE_SIZE = num) as -> by apply slice_num_is. set (p := MblkPool _ _ _ _ _). exists p, h1. split_and!; try done. intros m.
  assert (forall t l, 0 <= t < 10 -> blk_list p !! Z.to_nat t = Some l -> l = MblkList (2 ^ t) 0 0 0 0 0 0 0) as Hl.
  { intros t l Ht. cbn [blk_list p]. rewrite list_lookup_fmap_Some. intros (u & -> & [-> _]%lookup_seqZ). unfold MM_BLK_TYPE2SIZE. rewrite Z.shiftl_1_l. f_equal. f_equal. lia. }
  assert (forall t (Ft : list Z), replicate 10 [] !! t = Some Ft -> Ft = []) as HF by (intros t Ft HFt; by apply lookup_replicate in HFt as [-> _]).
  assert (forall t x, ~ is_cut p t x) as Hc by (intros t x (l & i & k & _ & Hi & _); cbn in Hi; lia).
  split; try done.
  - cbn. by rewrite length_replicate.
  - intros i t Hi. cbn in Hi. lia.
  - intros t l Ht Hlt. rewrite (Hl t l Ht Hlt). split; [done|]. left. split; [done|]. intros i Hi. cbn in Hi. lia.
  - intros t l Ft Ht Hlt ->%HF. rewrite (Hl t l Ht Hlt). split; [constructor|done].
  - intros t Ft x Ht ->%HF. split; [by intros ?%Hc|]. intros [?%elem_of_nil|?]; [done|by simplify_map_eq].
Qed.
End Pool.
