(* ===== verification/KMm.v ===== *)
(** * The heap with its pool

    [k_mm_alloc], [k_mm_free] and [k_mm_realloc]: a caller's buffer is a block of the
    heap or a block of the pool, which is a buffer of the heap itself.  Both sides keep
    what the other relies on. *)

From stdpp Require Import gmap.
From S2P Require Import Prelude KBits KHeap KHeapLists KHeapShape KHeapMem KHeapCut KHeapSearch KHeapAlloc KHeapFree KHeapRealloc KHeapMove KHeapInit KPool KPoolProofs.

Section Mm.
Context (HEAD : Z) (Hhead : 8 <= HEAD) (Hhead8 : HEAD mod 8 = 0).
Context (tlf_size num : Z) (Hnum : 0 <= num) (Htlf : tlf_size = 1024 * num) (Hmax : tlf_size < 2 ^ 32).

Abbreviation heap_ok := (heap_ok HEAD).
Abbreviation pool_ok := (pool_ok tlf_size num).

(** The pool is the block [pb] of the heap, and [L] are its blocks in use. *)
Record pool_at (B : gmap Z blk) (h : heap) (p : mblk_pool_t) (L : gmap Z Z) (pb : Z) : Prop := PoolAt {
  pa_block : exists s, used_of B !! pb = Some s /\ pb + HEAD <= pool_start p /\ pool_end p <= pb + HEAD + s;
  pa_ok : exists F, pool_ok p F L (words h)
}.

Definition mm_ok (B : gmap Z blk) (L : gmap Z Z) (pb : Z) (m : mm) : Prop :=
  heap_ok B (mm_heap m) /\
  match fix_pool m with Some p => pool_at B (mm_heap m) p L pb | None => L = ∅ /\ pb = 0 end.

(** A buffer at [q] for [s] bytes. *)
Definition holds (B : gmap Z blk) (L : gmap Z Z) (pb q s : Z) : Prop :=
  (exists t, L !! q = Some t /\ s = 2 ^ t) \/ (used_of B !! (q - HEAD) = Some s /\ q - HEAD <> pb).

Definition same (q s : Z) (h h' : heap) : Prop := forall x, q <= x < q + s -> words h' !! x = words h !! x.

Lemma same_keeps a s h h' : keeps HEAD a s h h' <-> same (a + HEAD) s h h'.
Proof. done. Qed.

Lemma same_trans q s h1 h2 h3 : same q s h1 h2 -> same q s h2 h3 -> same q s h1 h3.
Proof. intros H1 H2 x Hx. by rewrite (H2 x Hx), (H1 x Hx). Qed.

Section Facts.
Context (B : gmap Z blk) (L : gmap Z Z) (pb : Z) (m : mm) (HM : mm_ok B L pb m).

(** A block of the pool is in use in a pool that is there. *)
Lemma pool_block q t : L !! q = Some t -> exists p F s, fix_pool m = Some p /\ pool_ok p F L (words (mm_heap m)) /\ is_cut p t q /\
  used_of B !! pb = Some s /\ pb + HEAD <= pool_start p /\ pool_end p <= pb + HEAD + s /\
  2 <= t < 10 /\ pool_start p <= q /\ q + 2 ^ t <= pool_end p /\ q mod 4 = 0 /\ 2 ^ t mod 4 = 0 /\ 0 < 2 ^ t.
Proof.
  intros Hq. destruct HM as [HO HP]. destruct (fix_pool m) as [p|]; [|destruct HP as [-> _]; by simplify_map_eq].
  destruct HP as [(s & Hs & H1 & H2) [F P]]. pose proof (po_live _ _ p F L _ P q t Hq) as Hc. pose proof (cut_type p t q (po_type _ _ p F L _ P) Hc) as Ht.
  destruct (cut_range tlf_size num Htlf Hmax p F L _ P t q Hc) as (R1 & R2 & R3 & _). destruct (pow_type t Ht) as (j & _ & E4 & H4 & _).
  exists p, F, s. split_and!; try done; try lia. rewrite E4, Z.mul_comm. by apply Z.mod_mul.
Qed.

(** The memory of a used block. *)
Lemma used_mem a s x : used_of B !! a = Some s -> a + HEAD <= x < a + HEAD + s -> x mod 4 = 0 -> is_Some (words (mm_heap m) !! x).
Proof.
  intros (b & Hb & _ & <- & _)%used_of_some Hx H4. destruct HM as [[_ M] _]. apply (ce_mem HEAD a b _ (mi_mem HEAD _ _ _ M a b Hb)); [|done].
  unfold nx. lia.
Qed.

(** Buffers are aligned memory. *)
Lemma holds_mem q s : holds B L pb q s -> 0 < q /\ q mod 4 = 0 /\ 0 < s /\ s mod 4 = 0 /\ forall x, q <= x < q + s -> x mod 4 = 0 -> is_Some (words (mm_heap m) !! x).
Proof.
  pose proof HM as [HO _]. intros [(t & Hq & ->)|[Hq _]].
  - destruct (pool_block q t Hq) as (p & F & s & _ & P & _ & Hs & R1 & R2 & Ht & R3 & R4 & R5 & R6 & R7). destruct (po_start _ _ p F L _ P). split_and!; try done; try lia.
    intros x Hx. apply (used_mem pb s); [done|lia].
  - destruct (block_at8 HEAD B _ _ s HO Hq) as [A0 A8]. pose proof Hq as (b & Hb & _ & Es & Hz)%used_of_some. destruct HO as [S _].
    destruct (sh_blk HEAD B S _ b Hb) as [_ _ [S1 S2] _ _ _ _]. split_and!; try lia; try (Z.div_mod_to_equations; lia).
    intros x Hx. apply (used_mem (q - HEAD) s); [done|lia].
Qed.

(** Two of them do not overlap. *)
Lemma holds_apart q s q' s' : holds B L pb q s -> holds B L pb q' s' -> (q = q' /\ s = s') \/ q + s <= q' \/ q' + s' <= q.
Proof.
  pose proof HM as [HO _].
  assert (forall a s a' s', used_of B !! a = Some s -> used_of B !! a' = Some s' -> a <> a' -> a + HEAD + s <= a' \/ a' + HEAD + s' <= a) as Hu.
  { intros a u a' u' Ha Ha' Hne. destruct (Z.lt_trichotomy a a') as [Hlt|[?|Hlt]]; [left; by apply (used_apart HEAD B _ a u a' u' HO)|done|right; by apply (used_apart HEAD B _ a' u' a u HO)]. }
  intros [(t & Hq & ->)|[Hq Hqp]] [(t' & Hq' & ->)|[Hq' Hqp']].
  - destruct (pool_block q t Hq) as (p & F & s & Ep & P & Hc & _), (pool_block q' t' Hq') as (p' & F' & s' & Ep' & _ & Hc' & _). rewrite Ep in Ep'. injection Ep' as <-.
    destruct (cut_apart tlf_size num Hnum Htlf Hmax p F L _ P t t' q q' Hc Hc') as [[-> ->]|?]; [by left|by right].
  - destruct (pool_block q t Hq) as (p & F & s & _ & _ & _ & Hs & R1 & R2 & _ & R3 & R4 & _). right. destruct (Hu _ _ _ _ Hs Hq' ltac:(done)); lia.
  - destruct (pool_block q' t' Hq') as (p & F & s0 & _ & _ & _ & Hs & R1 & R2 & _ & R3 & R4 & _). right. destruct (Hu _ _ _ _ Hs Hq ltac:(done)); lia.
  - destruct (decide (q = q')) as [->|Hne]; [left; split; [done|congruence]|]. right. destruct (Hu _ _ _ _ Hq Hq' ltac:(lia)); lia.
Qed.

(** A block of the heap is none of the pool. *)
Lemma heap_not_pool q s : used_of B !! (q - HEAD) = Some s -> q - HEAD <> pb -> L !! q = None.
Proof.
  intros Hq Hqp. destruct (L !! q) as [t|] eqn:E; [|done]. exfalso. pose proof HM as [HO _].
  destruct (pool_block q t E) as (p & F & s' & _ & _ & _ & Hs & R1 & R2 & _ & R3 & R4 & _ & _ & R5). pose proof Hq as (b & Hb & _ & Es & Hz)%used_of_some.
  destruct HO as [S M]. destruct (sh_blk HEAD B S _ b Hb) as [_ _ [S1 _] _ _ _ _].
  destruct (Z.lt_trichotomy (q - HEAD) pb) as [Hlt|[?|Hlt]]; [pose proof (used_apart HEAD B _ _ s _ s' (HeapOk HEAD B _ S M) Hq Hs Hlt); lia|done|pose proof (used_apart HEAD B _ _ s' _ s (HeapOk HEAD B _ S M) Hs Hq Hlt); lia].
Qed.

(** Which side a buffer is on, as the code finds out. *)
Lemma holds_check q s : holds B L pb q s ->
  (exists t p, L !! q = Some t /\ s = 2 ^ t /\ in_pool m q = Some p /\ fix_pool m = Some p) \/
  (L !! q = None /\ used_of B !! (q - HEAD) = Some s /\ q - HEAD <> pb /\ in_pool m q = None).
Proof.
  intros [(t & Hq & ->)|[Hq Hqp]]; [left|right]; unfold in_pool.
  - destruct (pool_block q t Hq) as (p & F & s & Ep & _ & _ & _ & _ & _ & _ & R1 & R2 & _ & _ & R3). exists t, p. rewrite Ep. unfold krhino_mblk_check.
    rewrite bool_decide_true by lia. done.
  - pose proof (heap_not_pool q s Hq Hqp) as HLq.
    split_and!; try done. destruct HM as [HO HP]. destruct (fix_pool m) as [p|]; [|done]. unfold krhino_mblk_check. rewrite bool_decide_false; [done|].
    destruct HP as [(s' & Hs & H1 & H2) _]. pose proof Hq as (b & _ & _ & _ & Hz)%used_of_some. intros [C1 C2].
    destruct (Z.lt_trichotomy (q - HEAD) pb) as [Hlt|[?|Hlt]]; [pose proof (used_apart HEAD B _ _ s _ s' HO Hq Hs Hlt); lia|done|pose proof (used_apart HEAD B _ _ s' _ s HO Hs Hq Hlt); lia].
Qed.

(** Writing to a buffer. *)
Lemma mm_poke q s x v : holds B L pb q s -> q <= x < q + s -> mm_ok B L pb (Mm (poke x v (mm_heap m)) (fix_pool m)).
Proof.
  intros Hq Hx. pose proof HM as [HO HP]. split; cbn [mm_heap fix_pool].
  - destruct Hq as [(t & Hq & ->)|[Hq _]].
    + destruct (pool_block q t Hq) as (p & F & s & _ & _ & _ & (b & Hb & Hf & Es & _)%used_of_some & R1 & R2 & _ & R3 & R4 & _).
      apply (buffer_poke HEAD Hhead B _ pb b); try done. unfold nx. lia.
    + pose proof Hq as (b & Hb & Hf & Es & _)%used_of_some. apply (buffer_poke HEAD Hhead B _ (q - HEAD) b); try done. unfold nx. lia.
  - destruct (fix_pool m) as [p|] eqn:Ep; [|done]. destruct HP as [HB [F P]]. split; [done|]. exists F. eapply pool_frame; [exact P|]. intros t y Hc Hy.
    cbn [poke words]. rewrite lookup_insert_ne; [done|]. intros ->.
    destruct (cut_range tlf_size num Htlf Hmax p F L _ P t y Hc) as (C1 & C2 & _). pose proof (cut_type p t y (po_type _ _ p F L _ P) Hc) as Ht.
    destruct (pow_type t Ht) as (_ & _ & E4 & H4 & _). destruct Hq as [(u & Hq & ->)|[Hq Hqp]].
    + pose proof (po_live _ _ p F L _ P q u Hq) as Hcq. destruct (cut_apart tlf_size num Hnum Htlf Hmax p F L _ P t u y q Hc Hcq) as [[-> ->]|?]; [congruence|lia].
    + destruct HB as (s' & Hs & H1 & H2).
      destruct (Z.lt_trichotomy (q - HEAD) pb) as [Hlt|[?|Hlt]]; [pose proof (used_apart HEAD B _ _ s _ s' HO Hq Hs Hlt); lia|done|pose proof (used_apart HEAD B _ _ s' _ s HO Hs Hq Hlt); lia].
Qed.

(** The heap changes around the pool. *)
Lemma mm_heap_step B' h' :
  heap_ok B' h' -> (forall s, used_of B !! pb = Some s -> used_of B' !! pb = Some s /\ keeps HEAD pb s (mm_heap m) h') -> mm_ok B' L pb (Mm h' (fix_pool m)).
Proof.
  intros HO' Hk. pose proof HM as [HO HP]. split; [done|]. cbn [mm_heap fix_pool]. destruct (fix_pool m) as [p|]; [|done]. destruct HP as [(s & Hs & H1 & H2) [F P]].
  destruct (Hk s Hs) as [Hs' K]. split; [by exists s|]. exists F. eapply pool_frame; [exact P|]. intros t x Hc _.
  destruct (cut_range tlf_size num Htlf Hmax p F L _ P t x Hc) as (C1 & C2 & _). pose proof (cut_type p t x (po_type _ _ p F L _ P) Hc) as Ht.
  destruct (pow_type t Ht) as (_ & _ & E4 & H4 & _). apply K. lia.
Qed.

(** Buffers of the heap that stay. *)
Lemma holds_keeps h' (Q : Z -> Prop) :
  (forall c n, used_of B !! c = Some n -> Q c -> keeps HEAD c n (mm_heap m) h') -> (forall s, used_of B !! pb = Some s -> Q pb) ->
  forall q s, holds B L pb q s -> (L !! q = None -> Q (q - HEAD)) -> same q s (mm_heap m) h'.
Proof.
  intros K Hpb q s Hq HQ. destruct (holds_check q s Hq) as [(t & p & Ht & -> & _)|(Hn & Hs & _)].
  - destruct (pool_block q t Ht) as (p' & F & s & _ & _ & _ & Hs & R1 & R2 & _ & R3 & R4 & _). intros x Hx. apply (K pb s Hs (Hpb s Hs)). lia.
  - intros x Hx. apply (K _ _ Hs (HQ Hn)). lia.
Qed.
End Facts.

(** ** Steps *)

(** What a call does to the buffers: one may go, one may come. *)
Record mm_step (B : gmap Z blk) (L : gmap Z Z) (pb : Z) (m : mm) (B' : gmap Z blk) (L' : gmap Z Z) (m' : mm) (del : option Z) (add : option (Z * Z)) : Prop := MmStep {
  ms_ok : mm_ok B' L' pb m';
  ms_holds : forall q s, holds B' L' pb q s <-> (holds B L pb q s /\ Some q <> del) \/ add = Some (q, s);
  ms_data : forall q s, holds B L pb q s -> Some q <> del -> same q s (mm_heap m) (mm_heap m')
}.

(** A block handed out by the heap. *)
Lemma step_handed B L pb m B' h' a s :
  mm_ok B L pb m -> handed HEAD B B' (mm_heap m) h' a s -> 0 < a ->
  (forall s', ~ holds B L pb (a + HEAD) s') /\ mm_step B L pb m B' L (Mm h' (fix_pool m)) None (Some (a + HEAD, s)).
Proof.
  intros HM [HO' Hfr U _ K] Ha. assert (forall s, used_of B !! pb = Some s -> a <> pb) as Hne by congruence. assert (a <> pb) as Hap.
  { destruct HM as [HO HP]. destruct (fix_pool m) as [p|]; [destruct HP as [(s0 & Hs & _) _]; by apply (Hne s0)|destruct HP as [_ ->]; lia]. }
  assert (mm_ok B' L pb (Mm h' (fix_pool m))) as HM'.
  { apply (mm_heap_step B L pb m HM); [done|]. intros s0 Hs. split; [|by apply K]. rewrite U. by rewrite lookup_insert_ne. }
  assert (L !! (a + HEAD) = None) as HLn.
  { apply (heap_not_pool B' L pb _ HM' (a + HEAD) s); replace (a + HEAD - HEAD) with a by lia; [rewrite U; apply lookup_insert_eq|done]. }
  split.
  - intros s' [(t & Ht & _)|[Hs _]]; [congruence|]. replace (a + HEAD - HEAD) with a in Hs by lia. congruence.
  - split; [done| |].
    + intros q s'. unfold holds. rewrite U. destruct (decide (q - HEAD = a)) as [E|Hqa].
      * assert (q = a + HEAD) as -> by lia. replace (a + HEAD - HEAD) with a by lia. rewrite lookup_insert_eq. split.
        -- intros [(t & Ht & _)|[[= <-] _]]; [congruence|by right].
        -- intros [[[(t & Ht & _)|[Hs _]] _]|[= <-]]; [congruence|congruence|]. right. done.
      * rewrite lookup_insert_ne by done. split; [by left|]. intros [[? _]|[= <- <-]]; [done|lia].
    + intros q s' Hq _. apply (holds_keeps B L pb m HM h' (fun _ => True)); try done. intros c n Hc _. by apply K.
Qed.
Lemma step_none B L pb m m' : mm_ok B L pb m' -> mm_heap m' = mm_heap m -> mm_step B L pb m B L m' None None.
Proof. intros HM E. split; [done| |by rewrite E]. intros q s. split; [by left|]. by intros [[? _]|?]. Qed.

(** ** Allocating *)

Lemma pool_try B L pb m n :
  mm_ok B L pb m -> 0 < n ->
  exists r m', (match fix_pool m with
                | Some p => if decide (n <= MM_BLK_SIZE) then '(b, p) ← krhino_mblk_alloc_nolock tlf_size n p (mm_heap m); Ret (b, Mm (mm_heap m) (Some p)) else Ret (0, m)
                | None => Ret (0, m)
                end) = Ret (r, m') /\
    ((r = 0 /\ mm_step B L pb m B L m' None None) \/
     exists L' t, r <> 0 /\ n <= 2 ^ t /\ (forall x, x <> r -> L' !! x = L !! x) /\ (forall s', ~ holds B L pb r s') /\ mm_step B L pb m B L' m' None (Some (r, 2 ^ t))).
Proof.
  intros HM Hn. destruct (fix_pool m) as [p|] eqn:Ep; [|exists 0, m; split; [done|]; left; split; [done|by apply step_none]].
  unfold MM_BLK_SIZE. case_decide as Hle; [|exists 0, m; split; [done|]; left; split; [done|by apply step_none]].
  pose proof HM as [HO HP]. rewrite Ep in HP. destruct HP as [HB [F P]].
  destruct (mblk_alloc_ok tlf_size num Hnum Htlf Hmax p F L (mm_heap m) n P ltac:(lia)) as (b & p' & Ea & Hres). rewrite Ea. cbn [mbind outcome_bind]. eexists b, _. split; [done|].
  destruct (alloc_place tlf_size _ _ _ _ _ Ea) as [Es Ee].
  destruct Hres as [[-> (F' & P')]|(t & F' & Hb & Hpow & HLb & P')].
  - left. split; [done|]. apply step_none; [|done]. split; [done|]. cbn [mm_heap fix_pool]. split; [by rewrite Es, Ee|by exists F'].
  - right. exists (<[b := t]> L), t. assert (mm_ok B (<[b := t]> L) pb (Mm (mm_heap m) (Some p'))) as HM' by (split; [done|]; cbn [mm_heap fix_pool]; split; [by rewrite Es, Ee|by exists F']).
    assert (forall s', ~ holds B L pb b s') as Hnew.
    { intros s' [(u & Hu & _)|[Hs Hbp]]; [congruence|]. pose proof (heap_not_pool B _ pb _ HM' b s' Hs Hbp) as E. by rewrite lookup_insert_eq in E. }
    split_and!; try done; [intros x Hx; by rewrite lookup_insert_ne|]. split; [done| |done]. intros q s. unfold holds. split.
    + intros [(u & [[<- <-]|[_ Hu]]%lookup_insert_Some & ->)|?]; [by right|left; split; [left; by exists u|done]|left; split; [by right|done]].
    + intros [[[(u & Hu & ->)|?] _]|[= <- <-]]; [left; exists u; split; [|done]; rewrite lookup_insert_ne by congruence; done|by right|left; exists t; by rewrite lookup_insert_eq].
Qed.

Lemma step_trans B L pb m B1 L1 m1 B2 L2 m2 add : mm_step B L pb m B1 L1 m1 None None -> mm_step B1 L1 pb m1 B2 L2 m2 None add -> mm_step B L pb m B2 L2 m2 None add.
Proof.
  intros [O1 H1 D1] [O2 H2 D2]. assert (forall q s, holds B1 L1 pb q s <-> holds B L pb q s) as E.
  { intros q s. rewrite H1. split; [by intros [[? _]|?]|by left]. }
  split; [done| |].
  - intros q s. rewrite H2, E. done.
  - intros q s Hq _. apply (same_trans q s _ (mm_heap m1)); [by apply D1|]. apply D2; [by apply E|done].
Qed.

(** [k_mm_alloc]. *)
Lemma mm_alloc_ok B L pb m n :
  mm_ok B L pb m -> 0 < n < 2 ^ 32 ->
  exists r m', k_mm_alloc tlf_size HEAD n m = Ret (r, m') /\
    ((r = 0 /\ mm_step B L pb m B L m' None None /\ forall a s, free_of B !! a = Some s -> s < request n) \/
     exists B' L' s, r <> 0 /\ Z.min n (request n) <= s /\ (forall x, x <> r -> L' !! x = L !! x) /\ (forall s', ~ holds B L pb r s') /\ mm_step B L pb m B' L' m' None (Some (r, s))).
Proof.
  intros HM Hn. unfold k_mm_alloc. rewrite decide_False by lia. destruct (pool_try B L pb m n HM ltac:(lia)) as (r & m1 & E & Hres).
  rewrite E. cbn [mbind outcome_bind]. destruct Hres as [[-> S1]|(L' & t & Hr & Hpow & HL & Hnew & S1)].
  - rewrite decide_False by lia. pose proof (ms_ok _ _ _ _ _ _ _ _ _ S1) as HM1. pose proof HM1 as [HO1 _].
    destruct (alloc_ok HEAD Hhead Hhead8 B (mm_heap m1) n HO1 ltac:(lia)) as (r & h' & -> & Hres). cbn [mbind outcome_bind]. eexists r, _. split; [done|].
    destruct Hres as [(-> & -> & Hno)|(B' & a & s & -> & Ha & Hs & _ & HH)].
    + left. split_and!; try done. assert (Mm (mm_heap m1) (fix_pool m1) = m1) as -> by (by destruct m1). done.
    + right. destruct (step_handed B L pb m1 B' h' a s HM1 HH Ha) as [Hnew S2]. exists B', L, s. split_and!; [lia|lia|done| |by apply (step_trans _ _ _ _ _ _ _ _ _ _ _ S1)].
      intros s' Hs'. apply (Hnew s'). apply (ms_holds _ _ _ _ _ _ _ _ _ S1). by left.
  - rewrite decide_True by done. exists r, m1. split; [done|]. right. exists B, L', (2 ^ t). split_and!; try done. lia.
Qed.

(** ** Giving back *)

Lemma mm_free_ok B L pb m q s :
  mm_ok B L pb m -> holds B L pb q s -> exists B' L' m', k_mm_free tlf_size HEAD q m = Ret m' /\ mm_step B L pb m B' L' m' (Some q) None.
Proof.
  intros HM Hq. destruct (holds_mem B L pb m HM q s Hq) as (Hq0 & Hq4 & Hs0 & _ & Hmem). unfold k_mm_free. rewrite decide_False by lia. pose proof HM as [HO HP].
  destruct (holds_check B L pb m HM q s Hq) as [(t & p & Ht & -> & -> & Ep)|(HLq & Hs & Hqp & ->)].
  - rewrite Ep in HP. destruct HP as [HB [F P]]. destruct (mblk_free_ok tlf_size num Htlf Hmax p F L (mm_heap m) q t P Ht) as (v & p' & F' & E & P'); [apply Hmem; [lia|done]|].
    rewrite E. cbn [mbind outcome_bind]. destruct (free_place tlf_size _ _ _ _ _ _ E) as [Es Ee]. exists B, (delete q L), (Mm (poke q v (mm_heap m)) (Some p')). split; [done|].
    pose proof (mm_poke B L pb m HM q (2 ^ t) q v Hq ltac:(lia)) as [HO' _]. split.
    + split; [done|]. cbn [mm_heap fix_pool]. split; [by rewrite Es, Ee|by exists F'].
    + intros q' s'. unfold holds. split.
      * intros [(u & [Hne Hu]%lookup_delete_Some & ->)|[Hs' Hp']]; [left; split; [left; by exists u|congruence]|]. left. split; [by right|]. intros [= ->].
        by rewrite (heap_not_pool B L pb m HM q s' Hs' Hp') in Ht.
      * intros [[[(u & Hu & ->)|?] Hne]|?]; [left; exists u; split; [|done]; rewrite lookup_delete_ne by congruence; done|by right|done].
    + intros q' s' Hq' Hne x Hx. cbn [mm_heap poke words]. rewrite lookup_insert_ne; [done|]. intros <-.
      destruct (holds_apart B L pb m HM q (2 ^ t) q' s' Hq Hq') as [[-> _]|?]; [done|lia].
  - destruct (free_ok HEAD Hhead Hhead8 B (mm_heap m) (q - HEAD) s HO Hs) as (B' & h' & E & HO' & U' & _ & K'). replace (q - HEAD + HEAD) with q in E by lia.
    rewrite E. cbn [mbind outcome_bind]. exists B', L, (Mm h' (fix_pool m)). split; [done|]. split.
    + apply (mm_heap_step B L pb m HM); [done|]. intros s0 Hs0'. split; [rewrite U'; by rewrite lookup_delete_ne|]. apply K'; [done|congruence].
    + intros q' s'. unfold holds. rewrite U'. split.
      * intros [(u & Hu & ->)|[[Hne Hs']%lookup_delete_Some Hp']]; [left; split; [left; by exists u|congruence]|]. left. split; [by right|]. intros [= ->]. lia.
      * intros [[[?|[Hs' Hp']] Hne]|?]; [by left|right; split; [|done]; rewrite lookup_delete_ne; [done|]; intros E'; apply Hne; f_equal; lia|done].
    + intros q' s' Hq' Hne. apply (holds_keeps B L pb m HM h' (fun c => c <> q - HEAD)); [intros c n Hc; by apply K'|congruence|done|]. intros _ E'. apply Hne. f_equal. lia.
Qed.
End Mm.
