(* ===== verification/KMmRealloc.v ===== *)
(** * [k_mm_realloc]

    A buffer of the heap may stay in place; otherwise, and always for a block of the
    pool, its bytes move to a new buffer from either side. *)

From stdpp Require Import gmap.
From S2P Require Import Prelude KBits KHeap KHeapLists KHeapShape KHeapMem KHeapCut KHeapSearch KHeapAlloc KHeapFree KHeapRealloc KHeapMove KHeapInit KPool KPoolProofs KMm.

(** ** Bytes *)

Definition byte_at (h : heap) (x : Z) : option Z :=
  (fun w => Z.land (Z.shiftr w (8 * (x mod 4))) 255) <$> words h !! (x - x mod 4).

Lemma byte_word h h' x y : x mod 4 = y mod 4 -> words h' !! (x - x mod 4) = words h !! (y - y mod 4) -> byte_at h' x = byte_at h y.
Proof. intros E Hw. unfold byte_at. by rewrite E in *; rewrite Hw. Qed.

(** The lower [k] bytes of a word are another's. *)
Lemma merge_byte v old k j : 0 <= j < k -> k <= 4 ->
  let mask := 2 ^ (8 * k) - 1 in
  Z.land (Z.shiftr (Z.lor (Z.land old (Z.lxor (2 ^ 32 - 1) mask)) (Z.land v mask)) (8 * j)) 255 = Z.land (Z.shiftr v (8 * j)) 255.
Proof.
  intros Hj Hk mask. replace mask with (Z.ones (8 * k)) by (unfold mask; rewrite Z.ones_equiv; lia). replace (2 ^ 32 - 1) with (Z.ones 32) by done.
  apply Z.bits_inj'. intros i Hi. rewrite !Z.land_spec. change 255 with (Z.ones 8). destruct (decide (i < 8)) as [Hi8|Hi8].
  - f_equal. rewrite !Z.shiftr_spec by lia. rewrite Z.lor_spec, !Z.land_spec, Z.lxor_spec. rewrite (Z.ones_spec_low (8 * k)), (Z.ones_spec_low 32) by lia.
    cbn. by rewrite andb_false_r, andb_true_r.
  - rewrite (Z.ones_spec_high 8) by lia. by rewrite !andb_false_r.
Qed.

(** Copying bytes to a place whose contents do not matter to [I]. *)
Lemma copy_bytes_ok (I : heap -> Prop) lo hi n dst src h :
  (forall h x v, I h -> lo <= x < hi -> I (poke x v h)) ->
  I h -> 0 <= n -> lo <= dst -> dst + n <= hi -> dst mod 4 = 0 -> src mod 4 = 0 -> hi mod 4 = 0 ->
  (forall x, dst <= x < hi -> x mod 4 = 0 -> is_Some (words h !! x)) -> (forall x, src <= x < src + n -> x mod 4 = 0 -> is_Some (words h !! x)) ->
  src + n <= dst \/ hi <= src ->
  exists h', copy_bytes n dst src h = Ret h' /\ I h' /\ (forall i, 0 <= i < n -> byte_at h' (dst + i) = byte_at h (src + i)) /\
    (forall y, y < dst \/ hi <= y -> words h' !! y = words h !! y).
Proof.
  intros HI H0 Hn H1 H2 D4 S4 E4 Hd Hs Hdis. unfold copy_bytes. set (k := Z.to_nat (n / 4)). assert (Z.of_nat k = n / 4) as Ek by (unfold k; rewrite Z2Nat.id; [done|]; by apply Z.div_pos).
  destruct (copy_gen (I) lo hi k HI dst src h H0 H1) as (h1 & E1 & I1 & C1 & O1).
  - rewrite Ek. Z.div_mod_to_equations. lia.
  - rewrite Ek. intros i Hi. split; [apply Hs|apply Hd]; Z.div_mod_to_equations; lia.
  - rewrite Ek. Z.div_mod_to_equations. lia.
  - rewrite E1. cbn [mbind outcome_bind]. rewrite Ek in C1, O1.
    assert (forall h', (forall y, y <> dst + n / 4 * 4 -> words h' !! y = words h1 !! y) -> forall i, 0 <= i < n / 4 * 4 -> byte_at h' (dst + i) = byte_at h (src + i)) as Hlow.
    { intros h' Ho i Hi. assert ((dst + i) mod 4 = i mod 4 /\ (src + i) mod 4 = i mod 4) as [M1 M2] by (Z.div_mod_to_equations; lia). apply byte_word; [congruence|].
      rewrite M1, M2. rewrite Ho by (Z.div_mod_to_equations; lia). replace (dst + i - i mod 4) with (dst + 4 * (i / 4)) by (Z.div_mod_to_equations; lia).
      replace (src + i - i mod 4) with (src + 4 * (i / 4)) by (Z.div_mod_to_equations; lia). apply C1. Z.div_mod_to_equations. lia. }
    case_decide as Hrest.
    + exists h1. split_and!; try done; [|intros y Hy; apply O1; Z.div_mod_to_equations; lia]. intros i Hi. apply Hlow; [done|]. Z.div_mod_to_equations. lia.
    + set (sx := src + n / 4 * 4). set (dx := dst + n / 4 * 4).
      assert (0 <= n / 4 * 4 < n) as Hq by (Z.div_mod_to_equations; lia).
      destruct (Hs sx) as [v Hv]; [unfold sx; lia|unfold sx; Z.div_mod_to_equations; lia|]. rewrite <- (O1 sx) in Hv by (unfold sx; Z.div_mod_to_equations; lia).
      destruct (Hd dx) as [old Hold]; [unfold dx; lia|unfold dx; Z.div_mod_to_equations; lia|]. rewrite <- (O1 dx) in Hold by (unfold dx; Z.div_mod_to_equations; lia).
      rewrite (ld_ok _ _ _ Hv). cbn [mbind outcome_bind]. rewrite (ld_ok _ _ _ Hold). cbn [mbind outcome_bind]. rewrite st_ok by (by rewrite Hold).
      change (Heap _ _) with (poke dx (Z.lor (Z.land old (Z.lxor (2 ^ 32 - 1) (2 ^ (8 * (n mod 4)) - 1))) (Z.land v (2 ^ (8 * (n mod 4)) - 1))) h1).
      set (w := Z.lor _ _). exists (poke dx w h1). split_and!; [done|apply HI; [done|unfold dx; lia]| |].
      * intros i Hi. destruct (decide (i < n / 4 * 4)) as [Hlt|Hge]; [apply Hlow; [|lia]; intros y Hy; cbn [poke words]; by rewrite lookup_insert_ne|].
        assert ((dst + i) mod 4 = i - n / 4 * 4 /\ (src + i) mod 4 = i - n / 4 * 4) as [M1 M2] by (Z.div_mod_to_equations; lia). unfold byte_at. rewrite M1, M2.
        replace (dst + i - (i - n / 4 * 4)) with dx by (unfold dx; lia). replace (src + i - (i - n / 4 * 4)) with sx by (unfold sx; lia).
        cbn [poke words]. rewrite lookup_insert_eq. rewrite <- (O1 sx) by (unfold sx; Z.div_mod_to_equations; lia). rewrite Hv. cbn. f_equal.
        apply merge_byte; Z.div_mod_to_equations; lia.
      * intros y Hy. cbn [poke words]. rewrite lookup_insert_ne by (unfold dx; lia). apply O1. Z.div_mod_to_equations. lia.
Qed.

Section Realloc.
Context (HEAD : Z) (Hhead : 8 <= HEAD) (Hhead8 : HEAD mod 8 = 0).
Context (tlf_size num : Z) (Hnum : 0 <= num) (Htlf : tlf_size = 1024 * num) (Hmax : tlf_size < 2 ^ 32).

Abbreviation mm_ok := (mm_ok HEAD tlf_size num).
Abbreviation holds := (holds HEAD).
Abbreviation mm_step := (mm_step HEAD tlf_size num).

(** The first [n] bytes of the buffer at [q] are at [r] afterwards. *)
Definition moves (q r n : Z) (h h' : heap) : Prop := forall i, 0 <= i < n -> byte_at h' (r + i) = byte_at h (q + i).

Lemma same_bytes q s h h' : q mod 4 = 0 -> s mod 4 = 0 -> same q s h h' -> moves q q s h h'.
Proof. intros H4 Hs4 H i Hi. apply byte_word; [done|]. apply H. Z.div_mod_to_equations. lia. Qed.

Lemma moves_trans q r n h1 h2 h3 : moves q r n h1 h2 -> moves r r n h2 h3 -> moves q r n h1 h3.
Proof. intros H1 H2 i Hi. by rewrite (H2 i Hi), (H1 i Hi). Qed.

Lemma moves_le q r n n' h h' : n' <= n -> moves q r n h h' -> moves q r n' h h'.
Proof. intros Hn H i Hi. apply H. lia. Qed.

(** A new buffer is filled from the old one, which is given back. *)
Lemma fill_free B L pb m B1 L1 m1 q s r s' n :
  mm_ok B L pb m -> holds B L pb q s -> (forall x, ~ holds B L pb r x) -> mm_step B L pb m B1 L1 m1 None (Some (r, s')) ->
  0 <= n <= s -> n <= s' ->
  exists h2 B' L' m', copy_bytes n r q (mm_heap m1) = Ret h2 /\ holds B1 L1 pb q s /\ mm_ok B1 L1 pb (Mm h2 (fix_pool m1)) /\
    k_mm_free tlf_size HEAD q (Mm h2 (fix_pool m1)) = Ret m' /\ mm_step B L pb m B' L' m' (Some q) (Some (r, s')) /\ moves q r n (mm_heap m) (mm_heap m').
Proof.
  intros HM Hq Hnew [HM1 Hh1 D1] Hn Hn'. assert (holds B1 L1 pb q s) as Hq1 by (apply Hh1; by left). assert (holds B1 L1 pb r s') as Hr1 by (apply Hh1; by right).
  assert (q <> r) as Hqr by (intros ->; by apply (Hnew s)).
  destruct (holds_mem HEAD Hhead Hhead8 tlf_size num Htlf Hmax B1 L1 pb m1 HM1 q s Hq1) as (Q0 & Q4 & S0 & S4 & Mq).
  destruct (holds_mem HEAD Hhead Hhead8 tlf_size num Htlf Hmax B1 L1 pb m1 HM1 r s' Hr1) as (R0 & R4 & S0' & S4' & Mr).
  destruct (holds_apart HEAD Hhead tlf_size num Hnum Htlf Hmax B1 L1 pb m1 HM1 q s r s' Hq1 Hr1) as [[? _]|Hap]; [done|].
  destruct (copy_bytes_ok (fun h => mm_ok B1 L1 pb (Mm h (fix_pool m1))) r (r + s') n r q (mm_heap m1)) as (h2 & E2 & HM2 & C2 & O2); try done; try lia.
  - intros h x v HMh Hx. apply (mm_poke HEAD Hhead tlf_size num Hnum Htlf Hmax B1 L1 pb (Mm h (fix_pool m1)) HMh r s' x v Hr1 Hx).
  - Z.div_mod_to_equations. lia.
  - intros x Hx. apply Mq. lia.
  - destruct (mm_free_ok HEAD Hhead Hhead8 tlf_size num Hnum Htlf Hmax B1 L1 pb (Mm h2 (fix_pool m1)) q s HM2 Hq1) as (B' & L' & m' & E3 & [HM3 Hh3 D3]).
    exists h2, B', L', m'. split_and!; try done.
    + split; [done| |].
      * intros y sy. rewrite Hh3, Hh1. split.
        -- intros [[[[Hy _]|[= -> ->]] Hne]|?]; [left; done|by right|done].
        -- intros [[Hy Hne]|[= -> ->]]; [left; split; [by left|done]|]. left. split; [by right|]. congruence.
      * intros y sy Hy Hne. assert (holds B1 L1 pb y sy) as Hy1 by (apply Hh1; by left). apply (same_trans y sy _ (mm_heap m1)); [by apply D1|].
        apply (same_trans y sy _ h2); [|by apply (D3 y sy)]. intros x Hx. apply O2.
        destruct (holds_apart HEAD Hhead tlf_size num Hnum Htlf Hmax B1 L1 pb m1 HM1 y sy r s' Hy1 Hr1) as [[-> _]|?]; [by destruct (Hnew sy)|lia].
    + apply (moves_trans q r n _ h2).
      * intros i Hi. rewrite (C2 i Hi). apply (same_bytes q s); [done..|by apply D1|lia].
      * apply (moves_le r r s' n); [lia|]. apply same_bytes; [done..|]. apply (D3 r s' Hr1). congruence.
Qed.
(** A buffer of the heap resized in its place. *)
Lemma in_place_step B L pb m q s new :
  mm_ok B L pb m -> holds B L pb q s -> L !! q = None -> used_of B !! (q - HEAD) = Some s -> q - HEAD <> pb -> 0 < new <= 2 ^ 32 - 8 ->
  exists r h', realloc_in_place HEAD q new (mm_heap m) = Ret (r, h') /\
    ((r = 0 /\ h' = mm_heap m /\ s < request new) \/
     exists B' n, r = q /\ q <> 0 /\ new <= n /\ mm_step B L pb m B' L (Mm h' (fix_pool m)) (Some q) (Some (q, n)) /\ moves q q (Z.min s new) (mm_heap m) h').
Proof.
  intros HM Hq HLq Hs Hqp Hnew. pose proof HM as [HO _]. destruct (holds_mem HEAD Hhead Hhead8 tlf_size num Htlf Hmax B L pb m HM q s Hq) as (Q0 & Q4 & _).
  destruct (in_place_ok HEAD Hhead Hhead8 B (mm_heap m) (q - HEAD) s new HO Hs Hnew) as (r & h' & E & Hres). replace (q - HEAD + HEAD) with q in E by lia.
  exists r, h'. split; [done|]. destruct Hres as [?|(B' & n & -> & Ha & Hn & [R1 _ R3 _ R5 R6])]; [by left|]. right. exists B', n. split_and!; try done; try lia.
  - split.
    + apply (mm_heap_step HEAD tlf_size num Htlf Hmax B L pb m HM); [done|]. intros s0 Hs0. split; [rewrite R3; by look|]. apply R6; [done|congruence].
    + intros y sy. unfold KMm.holds. rewrite R3. destruct (decide (y = q)) as [->|Hne].
      * rewrite lookup_insert_eq. split; [intros [(t & Ht & _)|[[= <-] _]]; [congruence|by right]|]. intros [[_ ?]|[= <-]]; [done|by right].
      * rewrite lookup_insert_ne, lookup_delete_ne by lia. split; [intros ?; left; split; [done|congruence]|]. intros [[? _]|[= <- _]]; done.
    + intros y sy Hy Hne. apply (holds_keeps HEAD Hhead tlf_size num Htlf Hmax B L pb m HM h' (fun c => c <> q - HEAD)); [intros c k Hc; by apply R6|congruence|done|].
      intros _ E'. apply Hne. f_equal. lia.
  - intros i Hi. apply byte_word; [done|]. replace (q + i - (q + i) mod 4) with (q - HEAD + HEAD + (i - i mod 4)) by (Z.div_mod_to_equations; lia).
    apply R5; Z.div_mod_to_equations; lia.
Qed.

(** [k_mm_realloc] of a buffer. *)
Lemma mm_realloc_ok B L pb m q s new :
  mm_ok B L pb m -> holds B L pb q s -> 0 < new <= 2 ^ 32 - 8 ->
  exists r m', k_mm_realloc tlf_size HEAD q new m = Ret (r, m') /\
    ((r = 0 /\ mm_step B L pb m B L m' None None) \/
     exists B' L' n, r <> 0 /\ new <= n /\ (r = q \/ forall x, ~ holds B L pb r x) /\ mm_step B L pb m B' L' m' (Some q) (Some (r, n)) /\
       moves q r (Z.min s new) (mm_heap m) (mm_heap m')).
Proof.
  intros HM Hq Hnew. destruct (holds_mem HEAD Hhead Hhead8 tlf_size num Htlf Hmax B L pb m HM q s Hq) as (Q0 & Q4 & S0 & S4 & _).
  unfold k_mm_realloc. rewrite decide_False by lia. rewrite decide_False by lia.
  destruct (request_ok HEAD new ltac:(lia)) as (Hr & Hr8 & Hrn). destruct (request_same HEAD _ Hr Hr8) as [Erq Hrq].
  destruct (holds_check HEAD Hhead tlf_size num Htlf Hmax B L pb m HM q s Hq) as [(t & p & Ht & Es & -> & Ep)|(HLq & Hs & Hqp & ->)].
  - destruct (mm_alloc_ok HEAD Hhead Hhead8 tlf_size num Hnum Htlf Hmax B L pb m new HM ltac:(lia)) as (r & m1 & -> & Hres). cbn [mbind outcome_bind].
    destruct Hres as [(-> & S1 & _)|(B1 & L1 & n & Hr0 & Hn & HL1 & Hfresh & S1)]; [exists 0, m1; rewrite decide_True by done; split; [done|]; by left|].
    rewrite decide_False by done. set (cp := if decide (new < 2 ^ t) then new else 2 ^ t). assert (cp = Z.min s new) as Ecp by (unfold cp; rewrite Es; case_decide; lia).
    destruct (fill_free B L pb m B1 L1 m1 q s r n cp HM Hq Hfresh S1 ltac:(lia) ltac:(lia)) as (h2 & B' & L' & m' & E2 & Hq1 & HM2 & E3 & S3 & Mv).
    assert (L1 !! q = Some t) as Ht1 by (rewrite HL1; [done|]; intros ->; by apply (Hfresh s)). pose proof (ms_ok _ _ _ _ _ _ _ _ _ _ _ _ S1) as HM1.
    destruct (pool_block HEAD tlf_size num Htlf Hmax B1 L1 pb m1 HM1 q t Ht1) as (p1 & F1 & _ & Ep1 & P1 & _ & _ & _ & _ & _ & R1 & R2 & _ & _ & R3).
    rewrite Ep1, (mblk_size_ok tlf_size num Htlf Hmax p1 F1 L1 _ q t P1 Ht1). cbn [mbind outcome_bind]. fold cp. rewrite E2. cbn [mbind outcome_bind].
    unfold k_mm_free, in_pool in E3. rewrite decide_False in E3 by lia. cbn [fix_pool mm_heap] in E3. rewrite Ep1 in E3. unfold krhino_mblk_check in E3. rewrite bool_decide_true in E3 by lia.
    destruct (krhino_mblk_free_nolock tlf_size q p1 h2) as [[[st p2] h3]|]; [|done]. cbn [mbind outcome_bind] in *. injection E3 as <-.
    eexists r, _. split; [done|]. right. exists B', L', n. rewrite <- Ecp. split_and!; try done; [lia|by right].
  - destruct (in_place_step B L pb m q s new HM Hq HLq Hs Hqp Hnew) as (r & h1 & -> & Hres). cbn [mbind outcome_bind].
    destruct Hres as [(-> & -> & Hlt)|(B' & n & -> & Hq0 & Hn & S1 & Mv)].
    2: { rewrite decide_True by done. eexists q, _. split; [done|]. right. exists B', L, n. split_and!; try done. by left. }
    rewrite decide_False by lia. assert (Mm (mm_heap m) (fix_pool m) = m) as -> by (by destruct m).
    destruct (mm_alloc_ok HEAD Hhead Hhead8 tlf_size num Hnum Htlf Hmax B L pb m (request new) HM ltac:(lia)) as (r & m1 & -> & Hres). cbn [mbind outcome_bind].
    destruct Hres as [(-> & S1 & _)|(B1 & L1 & n & Hr0 & Hn & HL1 & Hfresh & S1)]; [exists 0, m1; rewrite decide_True by done; split; [done|]; by left|].
    rewrite decide_False by done. rewrite Erq in Hn.
    destruct (fill_free B L pb m B1 L1 m1 q s r n s HM Hq Hfresh S1 ltac:(lia) ltac:(lia)) as (h2 & B' & L' & m' & E2 & Hq1 & HM2 & E3 & S3 & Mv).
    pose proof (ms_ok _ _ _ _ _ _ _ _ _ _ _ _ S1) as HM1. pose proof HM1 as [HO1 _]. assert (used_of B1 !! (q - HEAD) = Some s) as Hs1.
    { destruct Hq1 as [(t & Ht & _)|[? _]]; [|done]. rewrite HL1 in Ht by (intros ->; by apply (Hfresh s)). congruence. }
    pose proof (copy_size_ok HEAD B1 (mm_heap m1) (q - HEAD) s (request new) HO1 Hs1 Hlt) as Ecs. replace (q - HEAD + HEAD) with q in Ecs by lia.
    rewrite Ecs. cbn [mbind outcome_bind]. rewrite E2. cbn [mbind outcome_bind]. rewrite E3. cbn [mbind outcome_bind]. exists r, m'. split; [done|].
    right. exists B', L', n. split_and!; try done; [lia|by right|]. apply (moves_le q r s); [lia|done].
Qed.
End Realloc.
