(* ===== verification/KMmClient.v ===== *)
(** * The heap with its pool as callers see it

    The states that [krhino_init_mm_head] and any sequence of calls and of writes to own
    buffers lead to.  A caller's buffer has the size it asked for; whether it is a block
    of the heap or of the pool makes no difference. *)

From stdpp Require Import gmap.
From S2P Require Import Prelude KBits KHeap KHeapLists KHeapShape KHeapMem KHeapCut KHeapSearch KHeapAlloc KHeapFree KHeapRealloc KHeapMove KHeapInit KHeapClient KHeapTheorems KPool KPoolProofs KMm KMmRealloc.

(** Memory inside a buffer in use may change. *)
Lemma buffer_frame HEAD B h h' c d lo hi :
  8 <= HEAD -> heap_ok HEAD B h -> B !! c = Some d -> fr d = false -> c + HEAD <= lo -> hi <= nx HEAD c d -> inside lo hi h h' -> heap_ok HEAD B h'.
Proof.
  intros Hh [S [P M [F HF] Hfs]] Hc Hf Hlo Hhi [I1 I2 I3]. split; [done|]. split; [done| | |done].
  - intros a b Ha. assert (forall x, header HEAD a x -> words h' !! x = words h !! x) as Hw.
    { intros x Hx. apply I1. pose proof (header_out HEAD Hh B a b c d x P Ha Hc Hx). lia. }
    eapply cell_ext; [apply Hw; by left|apply Hw; by right|done|by apply M].
  - exists F. pose proof HF as [L1 L2 L3 L4 L5 L6 L7 L8 L9]. split; rewrite ?I3; try done.
    + intros a s Ha. destruct (L2 a s Ha) as (fl & Hfl & Hw). exists fl. split; [done|]. destruct (Hfs a s Ha) as (b & Hb & _).
      rewrite I1; [done|]. pose proof (header_out HEAD Hh B a b c d (f_size HEAD a) P Hb Hc ltac:(by left)). lia.
    + intros l L HL. destruct (L8 l L HL) as [Hn Hd]. split; [done|]. eapply dls_ext; [|exact Hd]. intros a (s & Ha & _)%(L9 l L a HL).
      pose proof (link_in HEAD _ F h a s HF Ha) as (_ & K1 & K2). destruct (proj1 (free_of_some B a s) Ha) as (b & Hb & Efb & Es). assert (a <> c) as Hne by congruence.
      pose proof (pl_sep HEAD B P a b c d Hb Hc). pose proof (pl_sep HEAD B P c d a b Hc Hb). unfold nx in *.
      split; apply I1; destruct (Z.lt_trichotomy a c) as [?|[?|?]]; lia.
Qed.

Section Client.
Context (HEAD : Z) (Hhead : 8 <= HEAD) (Hhead8 : HEAD mod 8 = 0).
Context (tlf_size num : Z) (Hnum : 0 <= num) (Htlf : tlf_size = 1024 * num).
(** The sizes of the descriptions of the heap and of the pool, and the memory given. *)
Context (head_len pool_head addr len : Z) (h0 : heap).

Abbreviation mm_ok := (mm_ok HEAD tlf_size num).
Abbreviation holds := (holds HEAD).

Record can_start : Prop := CanStart {
  cs_init : can_init HEAD head_len tlf_size addr len h0;
  cs_top : addr + len <= 2 ^ 32;
  cs_pool : 0 <= pool_head /\ tlf_size + pool_head + 8 <= 2 ^ 32 - 8
}.

(** ** Reachable states *)

Inductive mm_reach : mm -> gmap Z Z -> Prop :=
| mmr_init h m : krhino_init_mm_head HEAD head_len tlf_size addr len h0 = Ret (RHINO_SUCCESS, h) -> init_fix_pool tlf_size HEAD pool_head h = Ret m -> mm_reach m ∅
| mmr_alloc m U n r m' : mm_reach m U -> 0 <= n <= 2 ^ 32 - 8 -> k_mm_alloc tlf_size HEAD n m = Ret (r, m') ->
    mm_reach m' (if decide (r = 0) then U else <[r := n]> U)
| mmr_free m U q n m' : mm_reach m U -> U !! q = Some n -> k_mm_free tlf_size HEAD q m = Ret m' -> mm_reach m' (delete q U)
| mmr_realloc m U q n k r m' : mm_reach m U -> U !! q = Some n -> 0 < k <= 2 ^ 32 - 8 -> k_mm_realloc tlf_size HEAD q k m = Ret (r, m') ->
    mm_reach m' (if decide (r = 0) then U else <[r := k]> (delete q U))
| mmr_write m U q n x v h' : mm_reach m U -> U !! q = Some n -> q <= x -> x + 4 <= q + n -> st x v (mm_heap m) = Ret h' -> mm_reach (Mm h' (fix_pool m)) U.

(** The callers' buffers are the ones handed out. *)
Definition owns (B : gmap Z blk) (L : gmap Z Z) (pb : Z) (U : gmap Z Z) : Prop :=
  forall q, match U !! q with Some n => exists s, holds B L pb q s /\ n <= s | None => forall s, ~ holds B L pb q s end.

Definition sound (m : mm) (U : gmap Z Z) : Prop := exists B L pb, mm_ok B L pb m /\ owns B L pb U.

Context (CS : can_start).

Lemma tlf_max : tlf_size < 2 ^ 32.
Proof. destruct CS as [_ _ ?]. lia. Qed.

(** The pool is made in a buffer of the new heap, or there is none. *)
Lemma init_sound : exists h m, krhino_init_mm_head HEAD head_len tlf_size addr len h0 = Ret (RHINO_SUCCESS, h) /\
  init_fix_pool tlf_size HEAD pool_head h = Ret m /\ sound m ∅.
Proof.
  destruct CS as [CI Htop [Hph Hpool]]. destruct (init_good HEAD Hhead Hhead8 head_len tlf_size addr len h0 CI) as (h & E & (B & HO & T & Y)). exists h.
  assert (used_of B = ∅) as HU by (apply map_eq; intros a; specialize (T a); by rewrite lookup_empty in T |- *).
  assert (0 <= tlf_size) as Htlf0 by lia. unfold init_fix_pool. set (up := MM_ALIGN_UP pool_head).
  assert (up mod 8 = 0 /\ 0 <= up <= pool_head + 7) as [Hup8 Hup].
  { unfold up, MM_ALIGN_UP. rewrite u32_id by lia. change (Z.land (pool_head + 7) (Z.lnot 7)) with (MM_BUF_SIZE (pool_head + 7)). rewrite buf_size_div by lia. Z.div_mod_to_equations. lia. }
  destruct (decide (tlf_size + up = 0)) as [E0|Hpos].
  { rewrite E0. unfold heap_alloc at 1. rewrite decide_True by done. cbn [mbind outcome_bind]. rewrite decide_True by done. eexists. split_and!; [done..|].
    exists B, ∅, 0. split; [by split|]. intros q. rewrite lookup_empty. intros s [(t & ? & _)|[Hs _]]; [by simplify_map_eq|]. by rewrite HU in Hs. }
  destruct (alloc_ok HEAD Hhead Hhead8 B h (tlf_size + up) HO ltac:(lia)) as (r & h1 & -> & Hres). cbn [mbind outcome_bind].
  destruct Hres as [(-> & -> & _)|(B' & a & s & -> & Ha & Hs & _ & [HO' _ U' Y' _])].
  { rewrite decide_True by done. eexists. split_and!; [done..|].
    exists B, ∅, 0. split; [by split|]. intros q. rewrite lookup_empty. intros s [(t & ? & _)|[Hs _]]; [by simplify_map_eq|]. by rewrite HU in Hs. }
  rewrite decide_False by lia. destruct (request_ok HEAD (tlf_size + up) ltac:(lia)) as (_ & _ & Hrq). rewrite HU in U'.
  assert (used_of B' !! a = Some s) as Ua by (rewrite U'; apply lookup_insert_eq). pose proof Ua as (b & Hb & Hf & Es & Hz)%used_of_some.
  pose proof HO' as [S' M']. destruct (block_at8 HEAD B' h1 a s HO' Ua) as [_ Ha8].
  assert (a + HEAD + s <= 2 ^ 32) as Htop'.
  { destruct (nx_gt HEAD Hhead B' a b S' Hb) as [Hgt _]. assert (covers HEAD B' (nx HEAD a b - 1)) as Hc by (exists a, b; split; [done|lia]).
    apply (proj1 (Y' _)) in Hc. apply (proj1 (Y _)) in Hc as [(? & ? & ? & _)|Hc]; [by simplify_map_eq|].
    destruct CI as [C1 C2 _ _ _ _]. destruct (align_ok HEAD addr len C1 C2) as (_ & _ & _ & _ & _ & A6 & _). unfold heap_hi, nx in *. lia. }
  destruct (mblk_init_ok tlf_size num Hnum Htlf ltac:(lia) (a + HEAD + up) h1) as (p & h2 & -> & I2 & Ep & P); [lia|Z.div_mod_to_equations; lia|lia| |].
  { intros x Hx H4. apply (ce_mem HEAD a b _ (mi_mem HEAD _ _ _ M' a b Hb)); [unfold nx; lia|done]. }
  cbn [mbind outcome_bind]. rewrite decide_True by done. eexists. split_and!; [done..|]. exists B', ∅, a. split.
  - split; cbn [mm_heap fix_pool]; [apply (buffer_frame HEAD B' h1 h2 a b (a + HEAD + up) (a + HEAD + up + tlf_size)); try done; [lia|unfold nx; lia]|]. split; [|by eexists].
    destruct (po_end _ _ p _ _ _ (P ∅)) as [Ee _]. exists s. rewrite Ep in *. split_and!; try done; lia.
  - intros q. rewrite lookup_empty. intros s' [(t & ? & _)|[Hs' Hne]]; [by simplify_map_eq|]. rewrite U', lookup_insert_ne in Hs' by done. by simplify_map_eq.
Qed.

(** Calls keep track of the buffers: [del] goes, [add] comes for a request of [n]. *)
Definition track (del : option Z) (add : option (Z * Z)) (n : Z) (U : gmap Z Z) : gmap Z Z :=
  let U := match del with Some q => delete q U | None => U end in
  match add with Some (r, _) => <[r := n]> U | None => U end.

Lemma owns_step B L pb m B' L' m' U del add n :
  owns B L pb U -> mm_step HEAD tlf_size num B L pb m B' L' m' del add -> (forall r s, add = Some (r, s) -> n <= s) -> owns B' L' pb (track del add n U).
Proof.
  intros HU [_ Hh _] Hle q.
  assert (match (match del with Some q => delete q U | None => U end) !! q with
          | Some k => exists s, holds B' L' pb q s /\ k <= s
          | None => forall s, holds B' L' pb q s -> add = Some (q, s) end) as Hd.
  { specialize (HU q). assert (Some q = del \/ Some q <> del) as [<-|Hne] by (destruct (decide (Some q = del)); [by left|by right]).
    - rewrite lookup_delete_eq. intros s [[_ ?]|?]%Hh; done.
    - assert ((match del with Some q => delete q U | None => U end) !! q = U !! q) as -> by (destruct del as [d|]; [apply lookup_delete_ne; congruence|done]).
      destruct (U !! q) as [k|]; [destruct HU as (s & Hs & Hk); exists s; split; [apply Hh; by left|done]|]. intros s [[Hs _]|?]%Hh; [by apply HU in Hs|done]. }
  unfold track. destruct add as [[r s]|]; [|destruct (_ !! q); [done|]; intros s Hs; by apply Hd in Hs].
  destruct (decide (q = r)) as [->|Hne]; [rewrite lookup_insert_eq; exists s; split; [apply Hh; by right|by apply (Hle r)]|].
  rewrite lookup_insert_ne by done. destruct (_ !! q); [done|]. intros s' Hs'. apply Hd in Hs'. congruence.
Qed.

Lemma owned B L pb U q n : owns B L pb U -> U !! q = Some n -> exists s, holds B L pb q s /\ n <= s.
Proof. intros HU Hq. specialize (HU q). by rewrite Hq in HU. Qed.

(** ** Every call from a sound state returns and leads to a sound state *)

Lemma sound_alloc m U n :
  sound m U -> 0 <= n <= 2 ^ 32 - 8 -> exists r m', k_mm_alloc tlf_size HEAD n m = Ret (r, m') /\ sound m' (if decide (r = 0) then U else <[r := n]> U).
Proof.
  pose proof tlf_max as Hmax. intros (B & L & pb & HM & HU) Hn. destruct (decide (n = 0)) as [->|Hn0].
  { exists 0, m. unfold k_mm_alloc. rewrite !decide_True by done. split; [done|]. by exists B, L, pb. }
  destruct (mm_alloc_ok HEAD Hhead Hhead8 tlf_size num Hnum Htlf Hmax B L pb m n HM ltac:(lia)) as (r & m' & E & Hres). exists r, m'. split; [done|].
  destruct (request_ok HEAD n ltac:(lia)) as (_ & _ & Hrq). destruct Hres as [(-> & S1 & _)|(B' & L' & s & Hr & Hs & _ & _ & S1)].
  - rewrite decide_True by done. exists B, L, pb. split; [apply S1|]. by apply (owns_step B L pb m B L m' U None None 0).
  - rewrite decide_False by done. exists B', L', pb. split; [apply S1|]. apply (owns_step B L pb m B' L' m' U None (Some (r, s)) n); [done..|]. intros ? ? [= <- <-]. lia.
Qed.

Lemma sound_free m U q n : sound m U -> U !! q = Some n -> exists m', k_mm_free tlf_size HEAD q m = Ret m' /\ sound m' (delete q U).
Proof.
  pose proof tlf_max as Hmax. intros (B & L & pb & HM & HU) Hq. destruct (owned B L pb U q n HU Hq) as (s & Hs & _).
  destruct (mm_free_ok HEAD Hhead Hhead8 tlf_size num Hnum Htlf Hmax B L pb m q s HM Hs) as (B' & L' & m' & E & S1). exists m'. split; [done|].
  exists B', L', pb. split; [apply S1|]. by apply (owns_step B L pb m B' L' m' U (Some q) None 0).
Qed.

Lemma sound_realloc m U q n k :
  sound m U -> U !! q = Some n -> 0 < k <= 2 ^ 32 - 8 ->
  exists r m', k_mm_realloc tlf_size HEAD q k m = Ret (r, m') /\ sound m' (if decide (r = 0) then U else <[r := k]> (delete q U)) /\
    (r = 0 -> moves q q n (mm_heap m) (mm_heap m')) /\ (r <> 0 -> moves q r (Z.min n k) (mm_heap m) (mm_heap m')) /\
    forall p j, U !! p = Some j -> p <> q -> p <> r /\ moves p p j (mm_heap m) (mm_heap m').
Proof.
  pose proof tlf_max as Hmax. intros (B & L & pb & HM & HU) Hq Hk. destruct (owned B L pb U q n HU Hq) as (s & Hs & Hns).
  assert (forall p j h', U !! p = Some j -> (forall s, holds B L pb p s -> same p s (mm_heap m) h') -> 0 < p /\ moves p p j (mm_heap m) h') as Hkeep.
  { intros p j h' Hp Hsame. destruct (owned B L pb U p j HU Hp) as (sp & Hsp & Hj).
    destruct (holds_mem HEAD Hhead Hhead8 tlf_size num Htlf Hmax B L pb m HM p sp Hsp) as (? & P4 & _ & S4 & _). split; [done|]. apply (moves_le p p sp); [done|]. by apply same_bytes, Hsame. }
  destruct (mm_realloc_ok HEAD Hhead Hhead8 tlf_size num Hnum Htlf Hmax B L pb m q s k HM Hs Hk) as (r & m' & E & Hres). exists r, m'. split; [done|].
  destruct Hres as [(-> & S1)|(B' & L' & j & Hr & Hj & Hfresh & S1 & Mv)].
  - rewrite decide_True by done. assert (forall p j, U !! p = Some j -> 0 < p /\ moves p p j (mm_heap m) (mm_heap m')) as Hall.
    { intros p j Hp. apply (Hkeep p j _ Hp). intros sp Hsp. by apply S1. }
    split_and!; [|intros _; by apply Hall|done|intros p j Hp _; destruct (Hall p j Hp); split; [lia|done]].
    exists B, L, pb. split; [apply S1|]. by apply (owns_step B L pb m B L m' U None None 0).
  - rewrite decide_False by done. split_and!.
    + exists B', L', pb. split; [apply S1|]. apply (owns_step B L pb m B' L' m' U (Some q) (Some (r, j)) k); [done..|]. by intros ? ? [= <- <-].
    + done.
    + intros _. apply (moves_le q r (Z.min s k)); [lia|done].
    + intros p i Hp Hpq. split; [|apply (Hkeep p i _ Hp); intros sp Hsp; apply S1; [done|congruence]].
      intros ->. destruct (owned B L pb U r i HU Hp) as (sp & Hsp & _). destruct Hfresh as [->|Hf]; [done|by apply (Hf sp)].
Qed.

Lemma sound_write m U q n x v :
  sound m U -> U !! q = Some n -> q <= x -> x + 4 <= q + n -> sound (Mm (poke x v (mm_heap m)) (fix_pool m)) U.
Proof.
  pose proof tlf_max as Hmax. intros (B & L & pb & HM & HU) Hq H1 H2. destruct (owned B L pb U q n HU Hq) as (s & Hs & Hns).
  exists B, L, pb. split; [|done]. apply (mm_poke HEAD Hhead tlf_size num Hnum Htlf Hmax B L pb m HM q s); [done|lia].
Qed.

Lemma reach_sound m U : mm_reach m U -> sound m U.
Proof.
  induction 1 as [h m E1 E2|m U n r m' _ IH Hn E|m U q n m' _ IH Hq E|m U q n k r m' _ IH Hq Hk E|m U q n x v h' _ IH Hq H1 H2 E].
  - destruct init_sound as (h1 & m1 & F1 & F2 & G). rewrite E1 in F1. injection F1 as <-. rewrite E2 in F2. by injection F2 as <-.
  - destruct (sound_alloc m U n IH Hn) as (r1 & m1 & E1 & G). rewrite E in E1. by injection E1 as <- <-.
  - destruct (sound_free m U q n IH Hq) as (m1 & E1 & G). rewrite E in E1. by injection E1 as <-.
  - destruct (sound_realloc m U q n k IH Hq Hk) as (r1 & m1 & E1 & G & _). rewrite E in E1. by injection E1 as <- <-.
  - rewrite (st_inv _ _ _ _ E). by apply (sound_write m U q n).
Qed.

(** ** Theorems *)

(** C10. Whatever sequence of calls and of writes to own buffers came before, the heap and
    its pool can be made and no call that a caller may make goes wrong: allocating any
    size, giving back or resizing a buffer it holds, writing a word of it. *)
Theorem mm_safe :
  (exists m, mm_reach m ∅) /\
  forall m U, mm_reach m U ->
    (forall n, 0 <= n <= 2 ^ 32 - 8 -> exists r m', k_mm_alloc tlf_size HEAD n m = Ret (r, m')) /\
    (forall q n, U !! q = Some n -> exists m', k_mm_free tlf_size HEAD q m = Ret m') /\
    (forall q n k, U !! q = Some n -> 0 < k <= 2 ^ 32 - 8 -> exists r m', k_mm_realloc tlf_size HEAD q k m = Ret (r, m')) /\
    (forall q n x v, U !! q = Some n -> q <= x -> x + 4 <= q + n -> x mod 4 = 0 -> exists h', st x v (mm_heap m) = Ret h').
Proof.
  split; [destruct init_sound as (h & m & E1 & E2 & _); exists m; by apply (mmr_init h)|].
  intros m U HR%reach_sound. split_and!.
  - intros n Hn. destruct (sound_alloc m U n HR Hn) as (r & m' & E & _). by exists r, m'.
  - intros q n Hq. destruct (sound_free m U q n HR Hq) as (m' & E & _). by exists m'.
  - intros q n k Hq Hk. destruct (sound_realloc m U q n k HR Hq Hk) as (r & m' & E & _). by exists r, m'.
  - intros q n x v Hq H1 H2 H4. destruct HR as (B & L & pb & HM & HU). destruct (owned B L pb U q n HU Hq) as (s & Hs & Hns).
    destruct (holds_mem HEAD Hhead Hhead8 tlf_size num Htlf tlf_max B L pb m HM q s Hs) as (_ & _ & _ & _ & Hmem).
    eexists. rewrite st_ok; [done|]. apply Hmem; [lia|done].
Qed.

(** C17. The buffers callers hold, of the heap or of its pool, are not NULL, lie at
    multiples of 4, and no two of them overlap. *)
Theorem mm_buffers m U p n q k :
  mm_reach m U -> U !! p = Some n -> U !! q = Some k -> 0 < p /\ p mod 4 = 0 /\ (p = q \/ p + n <= q \/ q + k <= p).
Proof.
  pose proof tlf_max as Hmax. intros (B & L & pb & HM & HU)%reach_sound Hp Hq.
  destruct (owned B L pb U p n HU Hp) as (s & Hs & Hn), (owned B L pb U q k HU Hq) as (t & Ht & Hk).
  destruct (holds_mem HEAD Hhead Hhead8 tlf_size num Htlf Hmax B L pb m HM p s Hs) as (? & ? & _). split_and!; [done..|].
  destruct (holds_apart HEAD Hhead tlf_size num Hnum Htlf Hmax B L pb m HM p s q t Hs Ht) as [[-> _]|?]; [by left|right; lia].
Qed.

(** C16. Resizing a buffer returns.  On NULL the buffer stays as it is; otherwise the one
    returned begins with the bytes it had, up to the smaller of the sizes, be it in its
    place, moved within the heap or between the heap and the pool.  Every other buffer
    of any caller keeps its bytes either way. *)
Theorem mm_realloc_keeps m U q n k :
  mm_reach m U -> U !! q = Some n -> 0 < k <= 2 ^ 32 - 8 ->
  exists r m', k_mm_realloc tlf_size HEAD q k m = Ret (r, m') /\
    (r = 0 -> moves q q n (mm_heap m) (mm_heap m')) /\ (r <> 0 -> moves q r (Z.min n k) (mm_heap m) (mm_heap m')) /\
    forall p j, U !! p = Some j -> p <> q -> p <> r /\ moves p p j (mm_heap m) (mm_heap m').
Proof.
  intros HR%reach_sound Hq Hk. destruct (sound_realloc m U q n k HR Hq Hk) as (r & m' & E & _ & H). by exists r, m'.
Qed.
End Client.

(** ** Witnesses *)

(** Room for a description of the pool, or not. *)
Lemma raw_can_start pool_head : 0 <= pool_head <= 2 ^ 31 -> can_start 8 8192 240 pool_head 4096 16384 raw.
Proof. intros H. split; [apply raw_can_init|done|lia]. Qed.

Abbreviation raw_reach := (mm_reach 8 8192 240 8192 4096 16384 raw).

(** A free block lies within the heap. *)
Lemma free_fits HEAD B h lo l hi a s :
  8 <= HEAD -> heap_ok HEAD B h -> more_space HEAD ∅ B lo l hi -> free_of B !! a = Some s -> s <= hi - lo.
Proof.
  intros Hh [S _] Y (b & Hb & _ & Es)%free_of_some. destruct (nx_gt HEAD Hh B a b S Hb) as [Hgt _].
  assert (forall x, covers HEAD B x -> lo <= x < hi) as Hc by (intros x [(? & ? & ? & _)|?]%Y; [by simplify_map_eq|done]).
  pose proof (Hc a ltac:(exists a, b; split; [done|lia])). pose proof (Hc (nx HEAD a b - 1) ltac:(exists a, b; split; [done|lia])). unfold nx in *. lia.
Qed.

(** A heap in which the pool does not fit, and a request for 100 bytes. *)
Lemma good_no_pool h : good 8 240 4096 16384 h ∅ ->
  init_fix_pool 8192 8 8192 h = Ret (Mm h None) /\ exists r m, k_mm_alloc 8192 8 100 (Mm h None) = Ret (r, m) /\ r <> 0.
Proof.
  intros (B & HO & T & Y). assert (used_of B = ∅) as HU by (apply map_eq; intros a; specialize (T a); by rewrite lookup_empty in T |- *). split.
  - unfold init_fix_pool. change (8192 + MM_ALIGN_UP 8192) with 16384. destruct (alloc_ok 8 ltac:(done) ltac:(done) B h 16384 HO ltac:(done)) as (r & h' & -> & Hres).
    destruct Hres as [(-> & -> & _)|(B' & a & s & _ & _ & _ & (t & Ht & Hrt) & _)]; [done|]. exfalso.
    pose proof (free_fits 8 B h _ _ _ a t ltac:(done) HO Y Ht) as Hf. change (heap_hi 4096 16384 - heap_lo 8 240 4096) with 16128 in Hf. change (request 16384) with 16384 in Hrt. lia.
  - unfold k_mm_alloc. rewrite decide_False by done. cbn [mbind outcome_bind fix_pool mm_heap]. rewrite decide_False by (intros H; by apply H).
    destruct (alloc_ok 8 ltac:(done) ltac:(done) B h 100 HO ltac:(done)) as (r & h' & -> & [(_ & _ & Hno)|(B' & a & s & -> & Ha & _)]); [exfalso|eexists _, _; split; [done|lia]].
    pose proof (whole_free 8 B _ _ _ h ltac:(done) HO HU Y ltac:(done) ltac:(done)) as Hw. by apply Hno in Hw.
Qed.

Lemma mm_with_buffer : exists m q, raw_reach m (<[q := 100]> ∅).
Proof.
  destruct (init_good 8 ltac:(done) ltac:(done) 240 8192 4096 16384 raw raw_can_init) as (h & E1 & HG). destruct (good_no_pool h HG) as (E2 & r & m & E3 & Hr).
  exists m, r. pose proof (mmr_alloc _ _ _ _ _ _ _ _ ∅ 100 r m (mmr_init _ _ _ _ _ _ _ h _ E1 E2) ltac:(lia) E3) as HR. by rewrite decide_False in HR by exact Hr.
Qed.

Lemma mm_safe_witness : exists m, mm_reach 8 8192 240 400 4096 16384 raw m ∅.
Proof.
  destruct (mm_safe 8 ltac:(done) ltac:(done) 8192 8 ltac:(done) ltac:(done) 240 400 4096 16384 raw (raw_can_start 400 ltac:(done))) as [H _]. exact H.
Defined.

Lemma mm_buffers_witness : exists m q, raw_reach m (<[q := 100]> ∅) /\ 0 < q /\ q mod 4 = 0.
Proof.
  destruct mm_with_buffer as (m & q & HR). exists m, q. split; [exact HR|].
  destruct (mm_buffers 8 ltac:(done) ltac:(done) 8192 8 ltac:(done) ltac:(done) 240 8192 4096 16384 raw (raw_can_start 8192 ltac:(done)) m _ q 100 q 100 HR) as (H1 & H2 & _);
    [apply lookup_insert_eq..|]. split; [exact H1|exact H2].
Defined.

Lemma mm_realloc_keeps_witness : exists m q r m', raw_reach m (<[q := 100]> ∅) /\ k_mm_realloc 8192 8 q 5000 m = Ret (r, m').
Proof.
  destruct mm_with_buffer as (m & q & HR). exists m, q.
  destruct (mm_realloc_keeps 8 ltac:(done) ltac:(done) 8192 8 ltac:(done) ltac:(done) 240 8192 4096 16384 raw (raw_can_start 8192 ltac:(done)) m _ q 100 5000 HR) as (r & m' & E & _);
    [apply lookup_insert_eq|done|]. exists r, m'. split; [exact HR|exact E].
Defined.
