(* ===== verification/KList.v ===== *)
(** * Doubly linked rings, [components/rhino/include/k_list.h]

    List nodes are members of larger structures; a node is named by the structure it is
    in.  A pointer may be NULL, as it is after [memset]; following it is a [Crash]. *)

From stdpp Require Import gmap.
From S2P Require Import Prelude.

(** [task->task_list], [task->tick_list], [obj->blk_list] and [g_tick_head]. *)
Inductive node := NTask (t : Z) | NTick (t : Z) | NBlk (o : Z) | NTickHead.

#[export] Instance node_eq : EqDecision node.
Proof. solve_decision. Defined.

#[export] Instance node_countable : Countable node.
Proof.
  refine (inj_countable' (fun n => match n with NTask t => inl (inl t) | NTick t => inl (inr t) | NBlk o => inr (inl o) | NTickHead => inr (inr tt) end)
    (fun x => match x with inl (inl t) => NTask t | inl (inr t) => NTick t | inr (inl o) => NBlk o | inr (inr tt) => NTickHead end) _).
  by intros [].
Defined.

Record klist_t := Klist { next : option node; prev : option node }.

Abbreviation links := (gmap node klist_t).

(** ** Fields *)

Definition node_at (n : option node) (m : links) : outcome klist_t :=
  match n with Some n => match m !! n with Some k => Ret k | None => Crash end | None => Crash end.

Definition get_next (n : node) (m : links) : outcome (option node) := k ← node_at (Some n) m; Ret (next k).
Definition get_prev (n : node) (m : links) : outcome (option node) := k ← node_at (Some n) m; Ret (prev k).

Definition set_next (n : option node) (v : option node) (m : links) : outcome links :=
  k ← node_at n m; Ret (match n with Some n => <[n := Klist v (prev k)]> m | None => m end).
Definition set_prev (n : option node) (v : option node) (m : links) : outcome links :=
  k ← node_at n m; Ret (match n with Some n => <[n := Klist (next k) v]> m | None => m end).

(** ** Operations *)

Definition klist_init (list_head : node) (m : links) : outcome links :=
  m ← set_next (Some list_head) (Some list_head) m;
  set_prev (Some list_head) (Some list_head) m.

Definition is_klist_empty (list : node) (m : links) : outcome bool :=
  n ← get_next list m; Ret (bool_decide (n = Some list)).

Definition klist_insert (head element : node) (m : links) : outcome links :=
  p ← get_prev head m;
  m ← set_prev (Some element) p m;
  m ← set_next (Some element) (Some head) m;
  p ← get_prev head m;
  m ← set_next p (Some element) m;
  set_prev (Some head) (Some element) m.

Definition klist_rm (element : node) (m : links) : outcome links :=
  p ← get_prev element m;
  n ← get_next element m;
  m ← set_next p n m;
  n ← get_next element m;
  p ← get_prev element m;
  set_prev n p m.

Definition klist_rm_init (element : node) (m : links) : outcome links :=
  m ← klist_rm element m;
  m ← set_prev (Some element) (Some element) m;
  set_next (Some element) (Some element) m.

(** ** Rings *)

Definition nxt (m : links) (n : node) : option node := m !! n ≫= next.
Definition prv (m : links) (n : node) : option node := m !! n ≫= prev.

Definition edge (m : links) (a b : node) : Prop := nxt m a = Some b /\ prv m b = Some a.

Fixpoint chain (m : links) (a : node) (l : list node) : Prop :=
  match l with [] => True | b :: l => edge m a b /\ chain m b l end.

(** The last one of [a :: l]. *)
Fixpoint end_of (a : node) (l : list node) : node := match l with [] => a | b :: l => end_of b l end.

Definition ring (m : links) (l : list node) : Prop :=
  match l with [] => True | a :: l => chain m a l /\ edge m (end_of a l) a end.

Lemma end_of_app a l b k : end_of a (l ++ b :: k) = end_of b k.
Proof. revert a. induction l as [|x l IH]; intros a; [done|]. apply IH. Qed.

Lemma end_of_in a l : end_of a l ∈ a :: l.
Proof. revert a. induction l as [|b l IH]; intros a; [by left|]. right. apply IH. Qed.

Lemma chain_app m a l b k : chain m a (l ++ b :: k) <-> chain m a l /\ edge m (end_of a l) b /\ chain m b k.
Proof. revert a. induction l as [|x l IH]; intros a; cbn; [tauto|]. rewrite IH. tauto. Qed.

(** A ring may be looked at from any of its nodes. *)
Lemma ring_rotate m l k : ring m (l ++ k) -> ring m (k ++ l).
Proof.
  destruct l as [|a l], k as [|b k]; cbn; rewrite ?app_nil_r; try done.
  rewrite !chain_app, !end_of_app. tauto.
Qed.

Lemma kchain_ext m m' a l :
  (forall n, n ∈ a :: l -> n <> end_of a l -> nxt m' n = nxt m n) -> (forall n, n ∈ l -> prv m' n = prv m n) -> NoDup (a :: l) -> chain m a l -> chain m' a l.
Proof.
  revert a. induction l as [|b l IH]; intros a Hn Hp Hd; [done|]. intros [[E1 E2] H]. apply list.NoDup_cons in Hd as [Ha Hd]. split.
  - split; [rewrite Hn; [done|by left|]|rewrite Hp; [done|by left]]. cbn. intros ->. apply Ha. apply end_of_in.
  - apply IH; [|intros n Hnl; apply Hp; by right|done|done]. intros n Hnl Hne. apply Hn; [by right|done].
Qed.

Lemma ring_ext m m' l : (forall n, n ∈ l -> nxt m' n = nxt m n /\ prv m' n = prv m n) -> NoDup l -> ring m l -> ring m' l.
Proof.
  destruct l as [|a l]; [done|]. intros H Hd [HC [E1 E2]]. split.
  - apply (kchain_ext m); [intros n Hn _; by apply H|intros n Hn; apply H; by right|done|done].
  - split; [by rewrite (proj1 (H _ (end_of_in a l)))|by rewrite (proj2 (H a ltac:(by left)))].
Qed.

Lemma ring_in m l n : ring m l -> n ∈ l -> is_Some (nxt m n) /\ is_Some (prv m n) /\ is_Some (m !! n).
Proof.
  intros HR Hn. assert (is_Some (nxt m n) /\ is_Some (prv m n)) as [H1 H2].
  { apply list_elem_of_split in Hn as (l1 & l2 & ->). apply ring_rotate in HR. cbn in HR. destruct HR as [HC [E1 E2]]. split; [|by eexists].
    destruct (l2 ++ l1) as [|b k]; cbn in *; [by eexists|]. destruct HC as [[E _] _]. by eexists. }
  split_and!; [done..|]. unfold nxt in H1. destruct (m !! n); [by eexists|]. by destruct H1.
Qed.

(** ** Fields in rings *)

Lemma get_next_nxt m n v : nxt m n = Some v -> get_next n m = Ret (Some v).
Proof. unfold nxt, get_next. cbn. destruct (m !! n) as [k|]; [|done]. cbn. by intros ->. Qed.
Lemma get_prev_prv m n v : prv m n = Some v -> get_prev n m = Ret (Some v).
Proof. unfold prv, get_prev. cbn. destruct (m !! n) as [k|]; [|done]. cbn. by intros ->. Qed.

Lemma set_next_ok n v m : is_Some (m !! n) -> exists m', set_next (Some n) v m = Ret m' /\
  (forall x, nxt m' x = if decide (x = n) then v else nxt m x) /\ (forall x, prv m' x = prv m x) /\ (forall x, is_Some (m' !! x) <-> is_Some (m !! x)).
Proof.
  intros [k Hk]. unfold set_next. cbn. rewrite Hk. cbn. eexists. split; [done|]. unfold nxt, prv. split_and!; intros x.
  - destruct (decide (x = n)) as [->|Hne]; [by rewrite lookup_insert_eq|by rewrite lookup_insert_ne].
  - destruct (decide (x = n)) as [->|Hne]; [by rewrite lookup_insert_eq, Hk|by rewrite lookup_insert_ne].
  - destruct (decide (x = n)) as [->|Hne]; [rewrite lookup_insert_eq, Hk; split; by eexists|by rewrite lookup_insert_ne].
Qed.
Lemma set_prev_ok n v m : is_Some (m !! n) -> exists m', set_prev (Some n) v m = Ret m' /\
  (forall x, prv m' x = if decide (x = n) then v else prv m x) /\ (forall x, nxt m' x = nxt m x) /\ (forall x, is_Some (m' !! x) <-> is_Some (m !! x)).
Proof.
  intros [k Hk]. unfold set_prev. cbn. rewrite Hk. cbn. eexists. split; [done|]. unfold nxt, prv. split_and!; intros x.
  - destruct (decide (x = n)) as [->|Hne]; [by rewrite lookup_insert_eq|by rewrite lookup_insert_ne].
  - destruct (decide (x = n)) as [->|Hne]; [by rewrite lookup_insert_eq, Hk|by rewrite lookup_insert_ne].
  - destruct (decide (x = n)) as [->|Hne]; [rewrite lookup_insert_eq, Hk; split; by eexists|by rewrite lookup_insert_ne].
Qed.

(** ** Operations on rings *)

(** Only the nodes in [l] changed. *)
Record only (l : list node) (m m' : links) : Prop := Only {
  on_same : forall x, x ∉ l -> nxt m' x = nxt m x /\ prv m' x = prv m x;
  on_dom : forall x, is_Some (m' !! x) <-> is_Some (m !! x)
}.

Lemma only_trans l k m1 m2 m3 : only l m1 m2 -> only k m2 m3 -> only (l ++ k) m1 m3.
Proof.
  intros [S1 D1] [S2 D2]. split; [|intros x; by rewrite D2, D1]. intros x Hx. rewrite elem_of_app in Hx.
  destruct (S1 x), (S2 x); [tauto..|]. split; congruence.
Qed.

Lemma only_sub l k m m' : (forall x, x ∈ l -> x ∈ k) -> only l m m' -> only k m m'.
Proof. intros H [S D]. split; [|done]. intros x Hx. apply S. intros Hl. by apply Hx, H. Qed.

Lemma ring_only m m' k l : only k m m' -> (forall x, x ∈ l -> x ∉ k) -> NoDup l -> ring m l -> ring m' l.
Proof. intros [S _] H Hd. apply ring_ext; [|done]. intros x Hx. by apply S, H. Qed.

Lemma klist_init_ok n m : is_Some (m !! n) -> exists m', klist_init n m = Ret m' /\ ring m' [n] /\ only [n] m m'.
Proof.
  intros Hn. unfold klist_init. destruct (set_next_ok n (Some n) m Hn) as (m1 & -> & N1 & P1 & D1). cbn [mbind outcome_bind].
  destruct (set_prev_ok n (Some n) m1) as (m2 & -> & P2 & N2 & D2); [by apply D1|]. exists m2. split; [done|]. split.
  - split; [done|]. cbn. split; [by rewrite N2, N1, decide_True|by rewrite P2, decide_True].
  - split; [|intros x; by rewrite D2, D1]. intros x Hx. apply not_elem_of_cons in Hx as [Hx _]. by rewrite N2, P2, N1, P1, !decide_False by done.
Qed.

Lemma klist_empty_ok h l m : ring m (h :: l) -> is_klist_empty h m = Ret (bool_decide (l = [])) \/ h ∈ l.
Proof.
  intros [HC [E1 E2]]. destruct (decide (h ∈ l)) as [?|Hn]; [by right|left]. unfold is_klist_empty.
  destruct l as [|a l]; cbn in HC, E1, E2.
  - rewrite (get_next_nxt m h h E1). cbn [mbind outcome_bind]. by rewrite !bool_decide_true by done.
  - destruct HC as [[E3 _] _]. rewrite (get_next_nxt m h a E3). cbn [mbind outcome_bind]. rewrite !bool_decide_false; [done|done|]. intros [= ->]. apply Hn. by left.
Qed.

Lemma klist_insert_ok h l e m :
  ring m (h :: l) -> NoDup (h :: l) -> e ∉ h :: l -> is_Some (m !! e) ->
  exists m', klist_insert h e m = Ret m' /\ ring m' (h :: l ++ [e]) /\ only (e :: h :: l) m m'.
Proof.
  intros HR Hd He Hm. pose proof HR as [HC [E1 E2]]. set (z := end_of h l) in *. assert (z ∈ h :: l) as Hz by apply end_of_in.
  destruct (ring_in m _ z HR Hz) as (_ & _ & Hzm). destruct (ring_in m _ h HR ltac:(by left)) as (_ & _ & Hhm).
  assert (e <> h /\ e <> z) as [Heh Hez] by (split; [intros ->; apply He; by left|by intros ->]).
  unfold klist_insert. rewrite (get_prev_prv m h z E2). cbn [mbind outcome_bind].
  destruct (set_prev_ok e (Some z) m Hm) as (m1 & -> & P1 & N1 & D1). cbn [mbind outcome_bind].
  destruct (set_next_ok e (Some h) m1) as (m2 & -> & N2 & P2 & D2); [by apply D1|]. cbn [mbind outcome_bind].
  rewrite (get_prev_prv m2 h z) by (rewrite P2, P1, decide_False by done; done). cbn [mbind outcome_bind].
  destruct (set_next_ok z (Some e) m2) as (m3 & -> & N3 & P3 & D3); [by rewrite D2, D1|]. cbn [mbind outcome_bind].
  destruct (set_prev_ok h (Some e) m3) as (m4 & -> & P4 & N4 & D4); [by rewrite D3, D2, D1|]. exists m4. split; [done|].
  assert (forall x, nxt m4 x = if decide (x = z) then Some e else if decide (x = e) then Some h else nxt m x) as HN by (intros x; by rewrite N4, N3, N2, N1).
  assert (forall x, prv m4 x = if decide (x = h) then Some e else if decide (x = e) then Some z else prv m x) as HP by (intros x; by rewrite P4, P3, P2, P1).
  split.
  - cbn [ring]. rewrite chain_app, end_of_app. cbn [chain end_of]. fold z.
    assert (edge m4 z e) as Hze by (split; [by rewrite HN, decide_True|by rewrite HP, decide_False, decide_True by done]).
    assert (edge m4 e h) as Hee by (split; [by rewrite HN, decide_False, decide_True by done|by rewrite HP, decide_True]). split_and!; [|done..].
    apply (kchain_ext m); [| |done|done].
    + intros x Hx Hne. rewrite HN, !decide_False; [done|by intros ->|done].
    + intros x Hx. rewrite HP, !decide_False; [done|intros ->; apply He; by right|]. intros ->. apply list.NoDup_cons in Hd as [Hh _]. done.
  - split; [|intros x; by rewrite D4, D3, D2, D1]. intros x Hx. rewrite not_elem_of_cons in Hx. destruct Hx as [Hxe Hx].
    rewrite HN, HP, !decide_False; [done|done|intros ->; apply Hx; by left|done|by intros ->].
Qed.

(** Inserting in front of a node in the middle. *)
Lemma klist_insert_mid l1 h l2 e m :
  ring m (l1 ++ h :: l2) -> NoDup (l1 ++ h :: l2) -> e ∉ l1 ++ h :: l2 -> is_Some (m !! e) ->
  exists m', klist_insert h e m = Ret m' /\ ring m' (l1 ++ e :: h :: l2) /\ only (e :: l1 ++ h :: l2) m m'.
Proof.
  intros HR Hd He Hm. destruct (klist_insert_ok h (l2 ++ l1) e m) as (m' & E & HR' & O).
  - by apply (ring_rotate m l1 (h :: l2)).
  - rewrite app_comm_cons. eapply NoDup_Permutation_proper; [apply Permutation_app_comm|done].
  - intros Hi. apply He. rewrite app_comm_cons, elem_of_app in Hi. rewrite elem_of_app. tauto.
  - done.
  - exists m'. split; [done|]. split.
    + assert (h :: (l2 ++ l1) ++ [e] = (h :: l2) ++ (l1 ++ [e])) as Eq by (cbn; by rewrite <- app_assoc). rewrite Eq in HR'.
      apply ring_rotate in HR'. by rewrite <- app_assoc in HR'.
    + eapply only_sub; [|exact O]. intros x. rewrite app_comm_cons, !elem_of_cons, !elem_of_app, !elem_of_cons. tauto.
Qed.

Lemma klist_rm_ok e l m :
  ring m (e :: l) -> NoDup (e :: l) ->
  exists m', klist_rm e m = Ret m' /\ ring m' l /\ only l m m' /\ (l = [] -> ring m' [e]).
Proof.
  intros HR Hd. pose proof HR as [HC [E1 E2]]. set (z := end_of e l) in *. destruct (ring_in m _ e HR ltac:(by left)) as (_ & _ & Hem).
  unfold klist_rm. destruct l as [|a l].
  - cbn in z. subst z. rewrite (get_prev_prv m e e E2), (get_next_nxt m e e E1). cbn [mbind outcome_bind].
    destruct (set_next_ok e (Some e) m Hem) as (m1 & -> & N1 & P1 & D1). cbn [mbind outcome_bind].
    rewrite (get_next_nxt m1 e e) by (by rewrite N1, decide_True). rewrite (get_prev_prv m1 e e) by (by rewrite P1). cbn [mbind outcome_bind].
    destruct (set_prev_ok e (Some e) m1) as (m2 & -> & P2 & N2 & D2); [by apply D1|].
    assert (forall x, nxt m2 x = nxt m x /\ prv m2 x = prv m x) as Hs.
    { intros x. rewrite N2, N1, P2, P1. destruct (decide (x = e)) as [->|]; by rewrite ?E1, ?E2. }
    exists m2. split_and!; try done; [split; [intros x _; apply Hs|intros x; by rewrite D2, D1]|]. intros _.
    split; [done|]. cbn. split; [by rewrite (proj1 (Hs e))|by rewrite (proj2 (Hs e))].
  - apply list.NoDup_cons in Hd as [He Hd]. destruct HC as [[F1 F2] HC]. cbn in z.
    assert (z ∈ a :: l) as Hz by apply end_of_in. assert (a <> e /\ z <> e) as [Hae Hze] by (split; [intros ->; apply He; by left|by intros ->]).
    destruct (ring_in m _ z HR ltac:(by right)) as (_ & _ & Hzm). destruct (ring_in m _ a HR ltac:(by right; left)) as (_ & _ & Ham).
    rewrite (get_prev_prv m e z E2), (get_next_nxt m e a F1). cbn [mbind outcome_bind].
    destruct (set_next_ok z (Some a) m Hzm) as (m1 & -> & N1 & P1 & D1). cbn [mbind outcome_bind].
    rewrite (get_next_nxt m1 e a) by (by rewrite N1, decide_False). rewrite (get_prev_prv m1 e z) by (by rewrite P1). cbn [mbind outcome_bind].
    destruct (set_prev_ok a (Some z) m1) as (m2 & -> & P2 & N2 & D2); [by apply D1|].
    assert (forall x, nxt m2 x = if decide (x = z) then Some a else nxt m x) as HN by (intros x; by rewrite N2, N1).
    assert (forall x, prv m2 x = if decide (x = a) then Some z else prv m x) as HP by (intros x; by rewrite P2, P1).
    exists m2. split_and!; try done.
    + split; [|split; [by rewrite HN, decide_True|by rewrite HP, decide_True]]. apply (kchain_ext m); [| |done|done].
      * intros x Hx Hne. by rewrite HN, decide_False.
      * intros x Hx. rewrite HP, decide_False; [done|]. intros ->. by apply list.NoDup_cons in Hd as [? _].
    + split; [|intros x; by rewrite D2, D1]. intros x Hx. rewrite HN, HP, !decide_False; [done|intros ->; apply Hx; by left|by intros ->].
Qed.

Lemma klist_rm_init_ok e l m :
  ring m (e :: l) -> NoDup (e :: l) -> exists m', klist_rm_init e m = Ret m' /\ ring m' l /\ ring m' [e] /\ only (e :: l) m m'.
Proof.
  intros HR Hd. destruct (klist_rm_ok e l m HR Hd) as (m1 & E1 & R1 & O1 & _). unfold klist_rm_init. rewrite E1. cbn [mbind outcome_bind].
  destruct (ring_in m _ e HR ltac:(by left)) as (_ & _ & Hem). apply list.NoDup_cons in Hd as [He Hd].
  destruct (set_prev_ok e (Some e) m1) as (m2 & -> & P2 & N2 & D2); [by apply O1|]. cbn [mbind outcome_bind].
  destruct (set_next_ok e (Some e) m2) as (m3 & -> & N3 & P3 & D3); [by rewrite D2; apply O1|].
  assert (only [e] m1 m3) as O2.
  { split; [|intros x; by rewrite D3, D2]. intros x Hx. apply not_elem_of_cons in Hx as [Hx _]. by rewrite N3, N2, P3, P2, !decide_False. }
  exists m3. split_and!; [done| | |].
  - apply (ring_only m1 m3 [e]); [done| |done|done]. intros x Hx ->%list_elem_of_singleton. done.
  - split; [done|]. cbn. split; [by rewrite N3, decide_True|by rewrite P3, P2, decide_True].
  - eapply only_sub; [|by apply (only_trans l [e] m m1 m3)]. intros x. rewrite elem_of_app, list_elem_of_singleton, elem_of_cons. tauto.
Qed.

(** What follows a node; the first one follows the last. *)
Lemma ring_next m h l l1 x l2 : ring m (h :: l) -> h :: l = l1 ++ x :: l2 -> nxt m x = Some (hd h l2).
Proof.
  intros HR E. destruct l1 as [|a l1]; injection E as -> ->; destruct HR as [HC [E1 E2]].
  - destruct l2 as [|b l2]; [done|]. cbn in HC. by destruct HC as [[? _] _].
  - apply chain_app in HC as (HC & He & HC2). rewrite end_of_app in E1. destruct l2 as [|b l2]; [done|]. cbn in HC2. by destruct HC2 as [[? _] _].
Qed.

Lemma ring_size m l : ring m l -> NoDup l -> (length l <= size m)%nat.
Proof.
  intros HR Nd. rewrite <- size_dom, <- (size_list_to_set (C := gset node) l) by done. apply subseteq_size. intros n Hn%elem_of_list_to_set.
  apply elem_of_dom. by apply (ring_in m l n HR).
Qed.
