(* ===== verification/KKern.v ===== *)
(** * Tasks of the kernel, [components/rhino/]

    The state of the scheduler and of the objects tasks wait for, and the functions
    under the calls: ready queue ([k_sched.c]), list of timeouts ([k_tick.c]), blocking
    ([k_pend.c]), priorities with mutexes ([k_mutex.c], [k_task.c]).  The build has one
    CPU and no fair scheduling, as the product; priority inheritance
    ([RHINO_CONFIG_MUTEX_INHERIT]) is a parameter.  Statistics, traces, hooks and the lists of all objects
    are left out.  A fatal error ([k_err_proc]) is a [Crash]. *)

From stdpp Require Import gmap.
From S2P Require Import Prelude KBits KList.

Definition u64 (z : Z) : Z := z mod 2 ^ 64.
Definition i64 (z : Z) : Z := (z + 2 ^ 63) mod 2 ^ 64 - 2 ^ 63.

(** ** Data *)

Definition RHINO_CONFIG_PRI_MAX : Z := 62.
Definition RHINO_IDLE_PRI : Z := RHINO_CONFIG_PRI_MAX - 1.
Definition NUM_WORDS : Z := (RHINO_CONFIG_PRI_MAX + 31) / 32.
Definition RHINO_NO_WAIT : Z := 0.
Definition RHINO_WAIT_FOREVER : Z := 2 ^ 64 - 1.
Definition SCHED_MAX_LOCK_COUNT : Z := 200.
Definition KSCHED_FIFO : Z := 0.
Definition KSCHED_RR : Z := 1.
Definition RHINO_CONFIG_TIME_SLICE_DEFAULT : Z := 50.
Definition K_OBJ_STATIC_ALLOC : Z := 1.

Inductive task_stat_t := K_SEED | K_RDY | K_PEND | K_SUSPENDED | K_PEND_SUSPENDED | K_SLEEP | K_SLEEP_SUSPENDED | K_DELETED.
Inductive blk_state_t := BLK_FINISH | BLK_ABORT | BLK_TIMEOUT | BLK_DEL | BLK_INVALID.
Inductive blk_policy_t := BLK_POLICY_PRI | BLK_POLICY_FIFO.
Inductive kobj_type_t := RHINO_OBJ_TYPE_NONE | RHINO_SEM_OBJ_TYPE | RHINO_MUTEX_OBJ_TYPE.

#[export] Instance task_stat_eq : EqDecision task_stat_t.
Proof. solve_decision. Defined.
#[export] Instance blk_state_eq : EqDecision blk_state_t.
Proof. solve_decision. Defined.
#[export] Instance blk_policy_eq : EqDecision blk_policy_t.
Proof. solve_decision. Defined.
#[export] Instance kobj_type_eq : EqDecision kobj_type_t.
Proof. solve_decision. Defined.

(** Tasks, semaphores and mutexes are named by their addresses; a [blk_obj_t] has the
    address of the semaphore or mutex it begins. *)
Record ktask_t := Ktask {
  prio : Z;
  b_prio : Z;
  task_state : task_stat_t;
  blk_state : blk_state_t;
  blk_obj : option Z;
  suspend_count : Z;
  mutex_list : option Z;
  tick_match : Z;
  tick_remain : Z;
  time_slice : Z;
  time_total : Z;
  sched_policy : Z;
  cancel : Z;
  t_alloc_flag : Z
}.

Record blk_obj_t := BlkObj {
  blk_policy : blk_policy_t;
  obj_type : kobj_type_t;
  o_cancel : Z
}.

Record ksem_t := Ksem {
  sem_count : Z;
  peak_count : Z;
  s_alloc_flag : Z
}.

Record kmutex_t := Kmutex {
  mutex_task : option Z;
  m_list : option Z;
  owner_nested : Z;
  m_alloc_flag : Z
}.

Record runqueue_t := Runqueue {
  cur_list_item : list (option node);
  task_bit_map : list Z;
  highest_pri : Z
}.

Record kern := Kern {
  lks : gmap node klist_t;
  tasks : gmap Z ktask_t;
  objs : gmap Z blk_obj_t;
  sems : gmap Z ksem_t;
  mutexes : gmap Z kmutex_t;
  rq : runqueue_t;
  g_tick_count : Z;
  g_active_task : Z;
  g_preferred_ready_task : Z;
  g_sched_lock : Z;
  g_intrpt_nested_level : Z;
  g_sys_stat : Z;
  g_idle_task_spawned : Z
}.

Definition set_prio (v : Z) (k : ktask_t) : ktask_t :=
  Ktask v (b_prio k) (task_state k) (blk_state k) (blk_obj k) (suspend_count k) (mutex_list k) (tick_match k) (tick_remain k) (time_slice k) (time_total k) (sched_policy k) (cancel k) (t_alloc_flag k).
Definition set_b_prio (v : Z) (k : ktask_t) : ktask_t :=
  Ktask (prio k) v (task_state k) (blk_state k) (blk_obj k) (suspend_count k) (mutex_list k) (tick_match k) (tick_remain k) (time_slice k) (time_total k) (sched_policy k) (cancel k) (t_alloc_flag k).
Definition set_task_state (v : task_stat_t) (k : ktask_t) : ktask_t :=
  Ktask (prio k) (b_prio k) v (blk_state k) (blk_obj k) (suspend_count k) (mutex_list k) (tick_match k) (tick_remain k) (time_slice k) (time_total k) (sched_policy k) (cancel k) (t_alloc_flag k).
Definition set_blk_state (v : blk_state_t) (k : ktask_t) : ktask_t :=
  Ktask (prio k) (b_prio k) (task_state k) v (blk_obj k) (suspend_count k) (mutex_list k) (tick_match k) (tick_remain k) (time_slice k) (time_total k) (sched_policy k) (cancel k) (t_alloc_flag k).
Definition set_blk_obj (v : option Z) (k : ktask_t) : ktask_t :=
  Ktask (prio k) (b_prio k) (task_state k) (blk_state k) v (suspend_count k) (mutex_list k) (tick_match k) (tick_remain k) (time_slice k) (time_total k) (sched_policy k) (cancel k) (t_alloc_flag k).
Definition set_suspend_count (v : Z) (k : ktask_t) : ktask_t :=
  Ktask (prio k) (b_prio k) (task_state k) (blk_state k) (blk_obj k) v (mutex_list k) (tick_match k) (tick_remain k) (time_slice k) (time_total k) (sched_policy k) (cancel k) (t_alloc_flag k).
Definition set_mutex_list (v : option Z) (k : ktask_t) : ktask_t :=
  Ktask (prio k) (b_prio k) (task_state k) (blk_state k) (blk_obj k) (suspend_count k) v (tick_match k) (tick_remain k) (time_slice k) (time_total k) (sched_policy k) (cancel k) (t_alloc_flag k).
Definition set_time_slice (v : Z) (k : ktask_t) : ktask_t :=
  Ktask (prio k) (b_prio k) (task_state k) (blk_state k) (blk_obj k) (suspend_count k) (mutex_list k) (tick_match k) (tick_remain k) v (time_total k) (sched_policy k) (cancel k) (t_alloc_flag k).
Definition set_time_total (v : Z) (k : ktask_t) : ktask_t :=
  Ktask (prio k) (b_prio k) (task_state k) (blk_state k) (blk_obj k) (suspend_count k) (mutex_list k) (tick_match k) (tick_remain k) (time_slice k) v (sched_policy k) (cancel k) (t_alloc_flag k).
Definition set_cancel (v : Z) (k : ktask_t) : ktask_t :=
  Ktask (prio k) (b_prio k) (task_state k) (blk_state k) (blk_obj k) (suspend_count k) (mutex_list k) (tick_match k) (tick_remain k) (time_slice k) (time_total k) (sched_policy k) v (t_alloc_flag k).
Definition set_tick (tm tr : Z) (k : ktask_t) : ktask_t :=
  Ktask (prio k) (b_prio k) (task_state k) (blk_state k) (blk_obj k) (suspend_count k) (mutex_list k) tm tr (time_slice k) (time_total k) (sched_policy k) (cancel k) (t_alloc_flag k).

Definition set_obj_type (v : kobj_type_t) (k : blk_obj_t) : blk_obj_t :=
  BlkObj (blk_policy k) v (o_cancel k).

Definition set_sem_count (v : Z) (k : ksem_t) : ksem_t :=
  Ksem v (peak_count k) (s_alloc_flag k).
Definition set_peak_count (v : Z) (k : ksem_t) : ksem_t :=
  Ksem (sem_count k) v (s_alloc_flag k).

Definition set_mutex_task (v : option Z) (k : kmutex_t) : kmutex_t :=
  Kmutex v (m_list k) (owner_nested k) (m_alloc_flag k).
Definition set_m_list (v : option Z) (k : kmutex_t) : kmutex_t :=
  Kmutex (mutex_task k) v (owner_nested k) (m_alloc_flag k).
Definition set_owner_nested (v : Z) (k : kmutex_t) : kmutex_t :=
  Kmutex (mutex_task k) (m_list k) v (m_alloc_flag k).

Definition set_lks (v : gmap node klist_t) (s : kern) : kern :=
  Kern v (tasks s) (objs s) (sems s) (mutexes s) (rq s) (g_tick_count s) (g_active_task s) (g_preferred_ready_task s) (g_sched_lock s) (g_intrpt_nested_level s) (g_sys_stat s) (g_idle_task_spawned s).
Definition set_tasks (v : gmap Z ktask_t) (s : kern) : kern :=
  Kern (lks s) v (objs s) (sems s) (mutexes s) (rq s) (g_tick_count s) (g_active_task s) (g_preferred_ready_task s) (g_sched_lock s) (g_intrpt_nested_level s) (g_sys_stat s) (g_idle_task_spawned s).
Definition set_objs (v : gmap Z blk_obj_t) (s : kern) : kern :=
  Kern (lks s) (tasks s) v (sems s) (mutexes s) (rq s) (g_tick_count s) (g_active_task s) (g_preferred_ready_task s) (g_sched_lock s) (g_intrpt_nested_level s) (g_sys_stat s) (g_idle_task_spawned s).
Definition set_sems (v : gmap Z ksem_t) (s : kern) : kern :=
  Kern (lks s) (tasks s) (objs s) v (mutexes s) (rq s) (g_tick_count s) (g_active_task s) (g_preferred_ready_task s) (g_sched_lock s) (g_intrpt_nested_level s) (g_sys_stat s) (g_idle_task_spawned s).
Definition set_mutexes (v : gmap Z kmutex_t) (s : kern) : kern :=
  Kern (lks s) (tasks s) (objs s) (sems s) v (rq s) (g_tick_count s) (g_active_task s) (g_preferred_ready_task s) (g_sched_lock s) (g_intrpt_nested_level s) (g_sys_stat s) (g_idle_task_spawned s).
Definition set_rq (v : runqueue_t) (s : kern) : kern :=
  Kern (lks s) (tasks s) (objs s) (sems s) (mutexes s) v (g_tick_count s) (g_active_task s) (g_preferred_ready_task s) (g_sched_lock s) (g_intrpt_nested_level s) (g_sys_stat s) (g_idle_task_spawned s).
Definition set_g_tick_count (v : Z) (s : kern) : kern :=
  Kern (lks s) (tasks s) (objs s) (sems s) (mutexes s) (rq s) v (g_active_task s) (g_preferred_ready_task s) (g_sched_lock s) (g_intrpt_nested_level s) (g_sys_stat s) (g_idle_task_spawned s).
Definition set_g_active_task (v : Z) (s : kern) : kern :=
  Kern (lks s) (tasks s) (objs s) (sems s) (mutexes s) (rq s) (g_tick_count s) v (g_preferred_ready_task s) (g_sched_lock s) (g_intrpt_nested_level s) (g_sys_stat s) (g_idle_task_spawned s).
Definition set_g_preferred_ready_task (v : Z) (s : kern) : kern :=
  Kern (lks s) (tasks s) (objs s) (sems s) (mutexes s) (rq s) (g_tick_count s) (g_active_task s) v (g_sched_lock s) (g_intrpt_nested_level s) (g_sys_stat s) (g_idle_task_spawned s).
Definition set_g_sched_lock (v : Z) (s : kern) : kern :=
  Kern (lks s) (tasks s) (objs s) (sems s) (mutexes s) (rq s) (g_tick_count s) (g_active_task s) (g_preferred_ready_task s) v (g_intrpt_nested_level s) (g_sys_stat s) (g_idle_task_spawned s).
Definition set_g_intrpt_nested_level (v : Z) (s : kern) : kern :=
  Kern (lks s) (tasks s) (objs s) (sems s) (mutexes s) (rq s) (g_tick_count s) (g_active_task s) (g_preferred_ready_task s) (g_sched_lock s) v (g_sys_stat s) (g_idle_task_spawned s).
Definition set_g_idle_task_spawned (v : Z) (s : kern) : kern :=
  Kern (lks s) (tasks s) (objs s) (sems s) (mutexes s) (rq s) (g_tick_count s) (g_active_task s) (g_preferred_ready_task s) (g_sched_lock s) (g_intrpt_nested_level s) (g_sys_stat s) v.

(** ** Access *)

Definition get_task (t : Z) (s : kern) : outcome ktask_t := match tasks s !! t with Some k => Ret k | None => Crash end.
Definition get_obj (o : Z) (s : kern) : outcome blk_obj_t := match objs s !! o with Some k => Ret k | None => Crash end.
Definition get_sem (o : Z) (s : kern) : outcome ksem_t := match sems s !! o with Some k => Ret k | None => Crash end.
Definition get_mutex (o : Z) (s : kern) : outcome kmutex_t := match mutexes s !! o with Some k => Ret k | None => Crash end.

Definition upd_task (t : Z) (f : ktask_t -> ktask_t) (s : kern) : outcome kern := k ← get_task t s; Ret (set_tasks (<[t := f k]> (tasks s)) s).
Definition upd_obj (o : Z) (f : blk_obj_t -> blk_obj_t) (s : kern) : outcome kern := k ← get_obj o s; Ret (set_objs (<[o := f k]> (objs s)) s).
Definition upd_sem (o : Z) (f : ksem_t -> ksem_t) (s : kern) : outcome kern := k ← get_sem o s; Ret (set_sems (<[o := f k]> (sems s)) s).
Definition upd_mutex (o : Z) (f : kmutex_t -> kmutex_t) (s : kern) : outcome kern := k ← get_mutex o s; Ret (set_mutexes (<[o := f k]> (mutexes s)) s).

Definition with_links (f : gmap node klist_t -> outcome (gmap node klist_t)) (s : kern) : outcome kern := m ← f (lks s); Ret (set_lks m s).

Definition non_null {A} (x : option A) : outcome A := match x with Some a => Ret a | None => Crash end.
Definition next_of (n : node) (s : kern) : outcome node := x ← get_next n (lks s); non_null x.

(** [krhino_list_entry(n, ktask_t, task_list)] and [..., tick_list)]. *)
Definition task_entry (n : node) : outcome Z := match n with NTask t => Ret t | _ => Crash end.
Definition tick_entry (n : node) : outcome Z := match n with NTick t => Ret t | _ => Crash end.

(** ** The ready queue, [k_sched.c] *)

Definition list_item (p : Z) (s : kern) : outcome (option node) :=
  if decide (0 <= p) then match cur_list_item (rq s) !! Z.to_nat p with Some n => Ret n | None => Crash end else Crash.
Definition put_item (p : Z) (n : option node) (s : kern) : kern :=
  set_rq (Runqueue (<[Z.to_nat p := n]> (cur_list_item (rq s))) (task_bit_map (rq s)) (highest_pri (rq s))) s.
Definition put_bits (bm : list Z) (s : kern) : kern := set_rq (Runqueue (cur_list_item (rq s)) bm (highest_pri (rq s))) s.
Definition put_highest (p : Z) (s : kern) : kern := set_rq (Runqueue (cur_list_item (rq s)) (task_bit_map (rq s)) p) s.

Definition ready_list_init (t : Z) (s : kern) : outcome kern :=
  k ← get_task t s;
  _ ← list_item (prio k) s;
  let s := put_item (prio k) (Some (NTask t)) s in
  s ← with_links (klist_init (NTask t)) s;
  bm ← krhino_bitmap_set (task_bit_map (rq s)) (prio k);
  let s := put_bits bm s in
  Ret (if decide (prio k < highest_pri (rq s)) then put_highest (prio k) s else s).

Definition ready_list_add_tail (t : Z) (s : kern) : outcome kern :=
  k ← get_task t s;
  i ← list_item (prio k) s;
  match i with
  | None => ready_list_init t s
  | Some n => with_links (klist_insert n (NTask t)) s
  end.

Definition ready_list_add_head (t : Z) (s : kern) : outcome kern :=
  k ← get_task t s;
  i ← list_item (prio k) s;
  match i with
  | None => ready_list_init t s
  | Some n =>
      s ← with_links (klist_insert n (NTask t)) s;
      Ret (put_item (prio k) (Some (NTask t)) s)
  end.

Definition ready_list_add (t : Z) (s : kern) : outcome kern := ready_list_add_tail t s.

Definition ready_list_rm (t : Z) (s : kern) : outcome kern :=
  k ← get_task t s;
  let pri := prio k in
  i ← list_item pri s;
  cur ← non_null i;
  n ← get_next cur (lks s);
  if decide (Some cur <> n) then
    let s := if decide (cur = NTask t) then put_item pri n s else s in
    with_links (klist_rm (NTask t)) s
  else
    let s := put_item pri None s in
    bm ← krhino_bitmap_clear (task_bit_map (rq s)) pri;
    let s := put_bits bm s in
    if decide (pri <> highest_pri (rq s)) then Ret s
    else i ← krhino_bitmap_first (task_bit_map (rq s)); Ret (put_highest i s).

Definition ready_list_head_to_tail (t : Z) (s : kern) : outcome kern :=
  k ← get_task t s;
  i ← list_item (prio k) s;
  cur ← non_null i;
  n ← get_next cur (lks s);
  Ret (put_item (prio k) n s).

Definition preferred_cpu_ready_task_get (s : kern) : outcome Z :=
  i ← list_item (highest_pri (rq s)) s; n ← non_null i; task_entry n.

(** [cpu_task_switch] and [cpu_intrpt_switch]: the preferred task goes on. *)
Definition cpu_task_switch (s : kern) : kern := set_g_active_task (g_preferred_ready_task s) s.

Definition core_sched (s : kern) : outcome kern :=
  if decide (0 < g_intrpt_nested_level s) then Ret s
  else if decide (0 < g_sched_lock s) then Ret s
  else
    p ← preferred_cpu_ready_task_get s;
    if decide (p = g_active_task s) then Ret s else Ret (cpu_task_switch (set_g_preferred_ready_task p s)).

Definition time_slice_update (s : kern) : outcome kern :=
  let t := g_active_task s in
  k ← get_task t s;
  i ← list_item (prio k) s;
  match i with
  | None => Ret s
  | Some head =>
      if decide (sched_policy k = KSCHED_FIFO) then Ret s
      else
        n ← get_next head (lks s);
        if decide (n = Some head) then Ret s
        else
          let ts := if decide (0 < time_slice k) then time_slice k - 1 else time_slice k in
          s ← upd_task t (set_time_slice ts) s;
          if decide (0 < ts) then Ret s
          else
            s ← ready_list_head_to_tail t s;
            upd_task t (set_time_slice (time_total k)) s
  end.

Definition runqueue_init : runqueue_t :=
  Runqueue (replicate (Z.to_nat RHINO_CONFIG_PRI_MAX) None) (replicate (Z.to_nat NUM_WORDS) 0) RHINO_CONFIG_PRI_MAX.

Definition is_task_exec (t : Z) (s : kern) : bool := bool_decide (g_active_task s = t).

(** ** Timeouts, [k_tick.c] *)

Fixpoint tick_pos (fuel : nat) (q : node) (val : Z) (s : kern) : outcome node :=
  if decide (q = NTickHead) then Ret q
  else
    match fuel with
    | O => Crash
    | S fuel =>
        p ← tick_entry q;
        k ← get_task p s;
        if decide (val < u64 (tick_match k - g_tick_count s)) then Ret q else n ← next_of q s; tick_pos fuel n val s
    end.

Definition tick_list_pri_insert (t : Z) (s : kern) : outcome kern :=
  k ← get_task t s;
  n ← next_of NTickHead s;
  q ← tick_pos (base.size (lks s)) n (tick_remain k) s;
  with_links (klist_insert q (NTick t)) s.

Definition tick_list_insert (t time : Z) (s : kern) : outcome kern :=
  s ← upd_task t (set_tick (u64 (g_tick_count s + time)) time) s;
  tick_list_pri_insert t s.

Definition tick_list_rm (t : Z) (s : kern) : outcome kern := with_links (klist_rm_init (NTick t)) s.

(** ** Blocking, [k_pend.c] *)

Fixpoint pend_pos (fuel : nat) (tmp list_end : node) (pri : Z) (s : kern) : outcome node :=
  if decide (tmp = list_end) then Ret tmp
  else
    match fuel with
    | O => Crash
    | S fuel =>
        p ← task_entry tmp;
        k ← get_task p s;
        if decide (pri < prio k) then Ret tmp else n ← next_of tmp s; pend_pos fuel n list_end pri s
    end.

Definition pend_list_add (head : node) (t : Z) (s : kern) : outcome kern :=
  k ← get_task t s;
  n ← next_of head s;
  tmp ← pend_pos (base.size (lks s)) n head (prio k) s;
  with_links (klist_insert tmp (NTask t)) s.

(** The common part of [pend_task_wakeup] and [pend_task_rm]. *)
Definition pend_leave (why : blk_state_t) (t : Z) (s : kern) : outcome kern :=
  k ← get_task t s;
  s ← (match task_state k with
       | K_PEND =>
           s ← with_links (klist_rm (NTask t)) s;
           s ← ready_list_add t s;
           upd_task t (set_task_state K_RDY) s
       | K_PEND_SUSPENDED =>
           s ← with_links (klist_rm (NTask t)) s;
           upd_task t (set_task_state K_SUSPENDED) s
       | _ => Crash
       end);
  s ← tick_list_rm t s;
  upd_task t (fun k => set_blk_obj None (set_blk_state why k)) s.

Definition pend_task_wakeup (t : Z) (s : kern) : outcome kern := pend_leave BLK_FINISH t s.
Definition pend_task_rm (t : Z) (s : kern) : outcome kern := pend_leave BLK_DEL t s.

Definition pend_to_blk_obj (o t timeout : Z) (s : kern) : outcome kern :=
  s ← upd_task t (set_blk_obj (Some o)) s;
  s ← (if decide (timeout <> RHINO_WAIT_FOREVER) then tick_list_insert t timeout s else Ret s);
  s ← upd_task t (set_task_state K_PEND) s;
  s ← ready_list_rm t s;
  b ← get_obj o s;
  match blk_policy b with
  | BLK_POLICY_FIFO => with_links (klist_insert (NBlk o) (NTask t)) s
  | BLK_POLICY_PRI => pend_list_add (NBlk o) t s
  end.

Definition pend_list_reorder (t : Z) (s : kern) : outcome kern :=
  k ← get_task t s;
  o ← non_null (blk_obj k);
  b ← get_obj o s;
  match blk_policy b with
  | BLK_POLICY_PRI => s ← with_links (klist_rm (NTask t)) s; pend_list_add (NBlk o) t s
  | BLK_POLICY_FIFO => Ret s
  end.

Definition pend_state_end_proc (t : Z) (o : option Z) (s : kern) : outcome Z :=
  k ← get_task t s;
  status ← (match blk_state k with
            | BLK_FINISH => Ret RHINO_SUCCESS
            | BLK_ABORT => Ret RHINO_BLK_ABORT
            | BLK_TIMEOUT => Ret RHINO_BLK_TIMEOUT
            | BLK_DEL => Ret RHINO_BLK_DEL
            | BLK_INVALID => Crash
            end);
  match o with
  | None => Ret (if decide (cancel k = 1) then RHINO_TASK_CANCELED else status)
  | Some o =>
      if decide (cancel k = 1) then
        b ← get_obj o s; Ret (if decide (o_cancel b = 1) then RHINO_TASK_CANCELED else status)
      else Ret status
  end.

(** The first task waiting for an object. *)
Definition first_waiter (o : Z) (s : kern) : outcome (option Z) :=
  e ← is_klist_empty (NBlk o) (lks s);
  if e : bool then Ret None else n ← next_of (NBlk o) s; t ← task_entry n; Ret (Some t).

(** [while (!is_klist_empty(blk_list_head)) f(first)]. *)
Fixpoint drain (f : Z -> kern -> outcome kern) (fuel : nat) (o : Z) (s : kern) : outcome kern :=
  w ← first_waiter o s;
  match w with
  | None => Ret s
  | Some t => match fuel with O => Crash | S fuel => s ← f t s; drain f fuel o s end
  end.

(** ** Priorities with mutexes, [k_mutex.c] and [task_pri_change] *)

(** A place that holds a [kmutex_t *]: [task->mutex_list] or [mutex->mutex_list]. *)
Inductive mref := RTask (t : Z) | RMutex (o : Z).

Definition read_ref (r : mref) (s : kern) : outcome (option Z) :=
  match r with RTask t => k ← get_task t s; Ret (mutex_list k) | RMutex o => x ← get_mutex o s; Ret (m_list x) end.
Definition write_ref (r : mref) (v : option Z) (s : kern) : outcome kern :=
  match r with RTask t => upd_task t (set_mutex_list v) s | RMutex o => upd_mutex o (set_m_list v) s end.

(** The priority of the first waiter, or [pri] when nobody waits. *)
Definition waiter_pri (o pri : Z) (s : kern) : outcome Z :=
  w ← first_waiter o s; match w with Some t => k ← get_task t s; Ret (prio k) | None => Ret pri end.

Fixpoint limit_loop (fuel : nat) (o : option Z) (high_pri pri : Z) (s : kern) : outcome Z :=
  match o with
  | None => Ret high_pri
  | Some o =>
      match fuel with
      | O => Crash
      | S fuel =>
          pri ← waiter_pri o pri s;
          x ← get_mutex o s;
          limit_loop fuel (m_list x) (if decide (pri < high_pri) then pri else high_pri) pri s
      end
  end.

Fixpoint look_loop (fuel : nat) (prev : mref) (mutex_rel : option Z) (new_pri pri : Z) (s : kern) : outcome (Z * kern) :=
  o ← read_ref prev s;
  match o with
  | None => Ret (new_pri, s)
  | Some o =>
      match fuel with
      | O => Crash
      | S fuel =>
          if decide (Some o = mutex_rel) then
            x ← get_mutex o s;
            s ← write_ref prev (m_list x) s;
            look_loop fuel prev mutex_rel new_pri pri s
          else
            pri ← waiter_pri o pri s;
            look_loop fuel (RMutex o) mutex_rel (if decide (pri < new_pri) then pri else new_pri) pri s
      end
  end.

Section Inherit.
(** [RHINO_CONFIG_MUTEX_INHERIT > 0]. *)
Context (INHERIT : bool).

Definition mutex_pri_limit (t pri : Z) (s : kern) : outcome Z :=
  if INHERIT then k ← get_task t s; limit_loop (base.size (mutexes s)) (mutex_list k) pri pri s else Ret pri.

Definition mutex_pri_look (t : Z) (mutex_rel : option Z) (s : kern) : outcome (Z * kern) :=
  k ← get_task t s;
  if INHERIT then look_loop (base.size (mutexes s)) (RTask t) mutex_rel (b_prio k) (b_prio k) s else Ret (b_prio k, s).

(** [task_pri_change]: the change moves on to the owner of the mutex a task waits for. *)
Definition pri_change_ready (t new_pri : Z) (s : kern) : outcome kern :=
  s ← ready_list_rm t s;
  s ← upd_task t (set_prio new_pri) s;
  if is_task_exec t s then ready_list_add_head t s else ready_list_add_tail t s.

Definition pri_change_pend (t new_pri : Z) (s : kern) : outcome (option (Z * Z) * kern) :=
  k ← get_task t s;
  let old_pri := prio k in
  s ← upd_task t (set_prio new_pri) s;
  s ← pend_list_reorder t s;
  o ← non_null (blk_obj k);
  b ← get_obj o s;
  if decide (obj_type b = RHINO_MUTEX_OBJ_TYPE) then
    x ← get_mutex o s;
    mutex_task ← non_null (mutex_task x);
    mk ← get_task mutex_task s;
    if decide (new_pri < prio mk) then Ret (Some (mutex_task, new_pri), s)
    else if decide (prio mk = old_pri) then
      '(new_pri, s) ← mutex_pri_look mutex_task None s;
      Ret (if decide (new_pri <> prio mk) then Some (mutex_task, new_pri) else None, s)
    else Ret (None, s)
  else Ret (None, s).

Fixpoint pri_change_loop (fuel : nat) (t new_pri : Z) (s : kern) : outcome kern :=
  match fuel with
  | O => Crash
  | S fuel =>
      k ← get_task t s;
      if decide (prio k = new_pri) then Ret s
      else
        match task_state k with
        | K_RDY => pri_change_ready t new_pri s
        | K_SLEEP | K_SUSPENDED | K_SLEEP_SUSPENDED => upd_task t (set_prio new_pri) s
        | K_PEND | K_PEND_SUSPENDED =>
            '(more, s) ← pri_change_pend t new_pri s;
            match more with Some (t, new_pri) => pri_change_loop fuel t new_pri s | None => Ret s end
        | K_SEED | K_DELETED => Crash
        end
  end.

Definition task_pri_change (t new_pri : Z) (s : kern) : outcome kern :=
  pri_change_loop (2 * base.size (tasks s) + 2) t new_pri s.

Definition mutex_release (t : Z) (mutex_rel : option Z) (s : kern) : outcome kern :=
  '(new_pri, s) ← mutex_pri_look t mutex_rel s;
  k ← get_task t s;
  if decide (new_pri <> prio k) then task_pri_change t new_pri s else Ret s.

Definition mutex_task_pri_reset (t : Z) (s : kern) : outcome kern :=
  if INHERIT then
    k ← get_task t s;
    o ← non_null (blk_obj k);
    b ← get_obj o s;
    if decide (obj_type b = RHINO_MUTEX_OBJ_TYPE) then
      x ← get_mutex o s;
      mutex_task ← non_null (mutex_task x);
      mk ← get_task mutex_task s;
      if decide (prio mk = prio k) then mutex_release mutex_task None s else Ret s
    else Ret s
  else Ret s.

End Inherit.
