(* ===== verification/KCalls.v ===== *)
(** * Calls of the kernel, [components/rhino/]

    Tasks ([k_task.c]), semaphores ([k_sem.c]), mutexes ([k_mutex.c]), the tick
    ([k_tick.c], [k_time.c]) and interrupts ([k_sys.c]).  A call is a critical section.
    Its result is [Some] status, or [None] when the caller was blocked: then it ends with
    [call_end] once the task runs again. *)

From stdpp Require Import gmap.
From S2P Require Import Prelude KBits KList KKern.

Definition done_with (stat : Z) (s : kern) : outcome (option Z * kern) := Ret (Some stat, s).

(** [RHINO_CRITICAL_EXIT_SCHED]. *)
Definition exit_sched (s : kern) : outcome (option Z * kern) := s ← core_sched s; done_with RHINO_SUCCESS s.
Definition exit_blocked (s : kern) : outcome (option Z * kern) := s ← core_sched s; Ret (None, s).

(** The part of a blocking call behind the switch; [o] is the object, [None] for a sleep. *)
Definition call_end (t : Z) (o : option Z) (s : kern) : outcome Z := pend_state_end_proc t o s.

(** ** The scheduler *)

Definition krhino_sched_disable (s : kern) : outcome (option Z * kern) :=
  if decide (0 < g_intrpt_nested_level s) then done_with RHINO_NOT_CALLED_BY_INTRPT s
  else if decide (SCHED_MAX_LOCK_COUNT <= g_sched_lock s) then done_with RHINO_SCHED_LOCK_COUNT_OVF s
  else done_with RHINO_SUCCESS (set_g_sched_lock (g_sched_lock s + 1) s).

Definition krhino_sched_enable (s : kern) : outcome (option Z * kern) :=
  if decide (0 < g_intrpt_nested_level s) then done_with RHINO_NOT_CALLED_BY_INTRPT s
  else if decide (g_sched_lock s = 0) then done_with RHINO_SCHED_ALREADY_ENABLED s
  else
    let s := set_g_sched_lock (g_sched_lock s - 1) s in
    if decide (0 < g_sched_lock s) then done_with RHINO_SCHED_DISABLE s else exit_sched s.

Definition krhino_intrpt_enter (s : kern) : kern := set_g_intrpt_nested_level (u8 (g_intrpt_nested_level s + 1)) s.

Definition krhino_intrpt_exit (s : kern) : outcome kern :=
  let s := set_g_intrpt_nested_level (u8 (g_intrpt_nested_level s - 1)) s in
  core_sched s.

(** ** Tasks *)

(** [task_create] of a task that runs at once or is suspended, without its stack. *)
Definition krhino_task_create (t pri ticks autorun : Z) (s : kern) : outcome (option Z * kern) :=
  if decide (RHINO_CONFIG_PRI_MAX <= pri) then done_with RHINO_BEYOND_MAX_PRI s
  else if decide (0 < g_intrpt_nested_level s) then done_with RHINO_NOT_CALLED_BY_INTRPT s
  else if decide (pri = RHINO_IDLE_PRI /\ 0 < g_idle_task_spawned s) then done_with RHINO_IDLE_TASK_EXIST s
  else
    let s := if decide (pri = RHINO_IDLE_PRI) then set_g_idle_task_spawned 1 s else s in
    let total := if decide (0 < ticks) then ticks else RHINO_CONFIG_TIME_SLICE_DEFAULT in
    let k := Ktask pri pri (if decide (0 < autorun) then K_RDY else K_SUSPENDED) BLK_FINISH None
               (if decide (0 < autorun) then 0 else 1) None 0 0 total total KSCHED_RR 0 K_OBJ_STATIC_ALLOC in
    let s := set_tasks (<[t := k]> (tasks s)) s in
    let s := set_lks (<[NTask t := Klist None None]> (<[NTick t := Klist None None]> (lks s))) s in
    s ← with_links (klist_init (NTick t)) s;
    if decide (0 < autorun) then
      s ← ready_list_add_tail t s;
      if decide (g_sys_stat s = RHINO_RUNNING) then exit_sched s else done_with RHINO_SUCCESS s
    else done_with RHINO_SUCCESS s.

Definition krhino_task_sleep (ticks : Z) (s : kern) : outcome (option Z * kern) :=
  if decide (ticks = 0) then done_with RHINO_INV_PARAM s
  else if decide (0 < g_intrpt_nested_level s) then done_with RHINO_NOT_CALLED_BY_INTRPT s
  else if decide (0 < g_sched_lock s) then done_with RHINO_SCHED_DISABLE s
  else
    let t := g_active_task s in
    s ← upd_task t (set_task_state K_SLEEP) s;
    s ← tick_list_insert t ticks s;
    s ← ready_list_rm t s;
    exit_blocked s.

Definition krhino_task_yield (s : kern) : outcome (option Z * kern) :=
  s ← ready_list_head_to_tail (g_active_task s) s; exit_sched s.

Definition task_suspend (t : Z) (s : kern) : outcome (option Z * kern) :=
  if decide (t = g_active_task s /\ 0 < g_sched_lock s) then done_with RHINO_SCHED_DISABLE s
  else
    k ← get_task t s;
    match task_state k with
    | K_RDY =>
        s ← upd_task t (fun k => set_task_state K_SUSPENDED (set_suspend_count 1 k)) s;
        s ← ready_list_rm t s;
        exit_sched s
    | K_SLEEP => s ← upd_task t (fun k => set_task_state K_SLEEP_SUSPENDED (set_suspend_count 1 k)) s; exit_sched s
    | K_PEND => s ← upd_task t (fun k => set_task_state K_PEND_SUSPENDED (set_suspend_count 1 k)) s; exit_sched s
    | K_SUSPENDED | K_SLEEP_SUSPENDED | K_PEND_SUSPENDED =>
        if decide (suspend_count k = 255) then done_with RHINO_SUSPENDED_COUNT_OVF s
        else s ← upd_task t (set_suspend_count (suspend_count k + 1)) s; exit_sched s
    | K_SEED | K_DELETED => done_with RHINO_INV_TASK_STATE s
    end.

Definition krhino_task_suspend (t : Z) (s : kern) : outcome (option Z * kern) :=
  k ← get_task t s;
  if decide (prio k = RHINO_IDLE_PRI) then done_with RHINO_TASK_SUSPEND_NOT_ALLOWED s else task_suspend t s.

Definition krhino_task_resume (t : Z) (s : kern) : outcome (option Z * kern) :=
  k ← get_task t s;
  let n := u8 (suspend_count k - 1) in
  match task_state k with
  | K_RDY | K_SLEEP | K_PEND => done_with RHINO_TASK_NOT_SUSPENDED s
  | K_SUSPENDED =>
      s ← upd_task t (set_suspend_count n) s;
      s ← (if decide (n = 0) then s ← upd_task t (set_task_state K_RDY) s; ready_list_add t s else Ret s);
      exit_sched s
  | K_SLEEP_SUSPENDED =>
      s ← upd_task t (set_suspend_count n) s;
      s ← (if decide (n = 0) then upd_task t (set_task_state K_SLEEP) s else Ret s);
      exit_sched s
  | K_PEND_SUSPENDED =>
      s ← upd_task t (set_suspend_count n) s;
      s ← (if decide (n = 0) then upd_task t (set_task_state K_PEND) s else Ret s);
      exit_sched s
  | K_SEED | K_DELETED => done_with RHINO_INV_TASK_STATE s
  end.

Definition krhino_task_time_slice_set (t slice : Z) (s : kern) : outcome (option Z * kern) :=
  if decide (0 < g_intrpt_nested_level s) then done_with RHINO_NOT_CALLED_BY_INTRPT s
  else
    let total := if decide (0 < slice) then slice else RHINO_CONFIG_TIME_SLICE_DEFAULT in
    s ← upd_task t (fun k => set_time_slice total (set_time_total total k)) s;
    done_with RHINO_SUCCESS s.

(** ** Semaphores *)

Definition krhino_sem_create (o count : Z) (s : kern) : outcome (option Z * kern) :=
  let s := set_lks (<[NBlk o := Klist None None]> (lks s)) s in
  s ← with_links (klist_init (NBlk o)) s;
  let s := set_sems (<[o := Ksem count count K_OBJ_STATIC_ALLOC]> (sems s)) s in
  let s := set_objs (<[o := BlkObj BLK_POLICY_PRI RHINO_SEM_OBJ_TYPE 1]> (objs s)) s in
  done_with RHINO_SUCCESS s.

Definition krhino_sem_del (o : Z) (s : kern) : outcome (option Z * kern) :=
  if decide (0 < g_intrpt_nested_level s) then done_with RHINO_NOT_CALLED_BY_INTRPT s
  else
    b ← get_obj o s;
    if decide (obj_type b <> RHINO_SEM_OBJ_TYPE) then done_with RHINO_KOBJ_TYPE_ERR s
    else
      x ← get_sem o s;
      if decide (s_alloc_flag x <> K_OBJ_STATIC_ALLOC) then done_with RHINO_KOBJ_DEL_ERR s
      else
        s ← upd_obj o (set_obj_type RHINO_OBJ_TYPE_NONE) s;
        s ← drain pend_task_rm (base.size (lks s)) o s;
        exit_sched s.

Definition sem_give (o : Z) (wake_all : bool) (s : kern) : outcome (option Z * kern) :=
  b ← get_obj o s;
  if decide (obj_type b <> RHINO_SEM_OBJ_TYPE) then done_with RHINO_KOBJ_TYPE_ERR s
  else
    x ← get_sem o s;
    w ← first_waiter o s;
    match w with
    | None =>
        if decide (sem_count x = 2 ^ 32 - 1) then done_with RHINO_SEM_OVF s
        else
          let n := sem_count x + 1 in
          s ← upd_sem o (fun x => set_peak_count (if decide (peak_count x < n) then n else peak_count x) (set_sem_count n x)) s;
          done_with RHINO_SUCCESS s
    | Some t =>
        s ← (if wake_all then drain pend_task_wakeup (base.size (lks s)) o s else pend_task_wakeup t s);
        exit_sched s
    end.

Definition krhino_sem_give (o : Z) (s : kern) : outcome (option Z * kern) := sem_give o false s.
Definition krhino_sem_give_all (o : Z) (s : kern) : outcome (option Z * kern) := sem_give o true s.

(** [TASK_CANCEL_CHK]. *)
Definition cancelled (o : Z) (s : kern) : outcome bool :=
  k ← get_task (g_active_task s) s;
  if decide (cancel k = 1) then b ← get_obj o s; Ret (bool_decide (o_cancel b = 1)) else Ret false.

Definition krhino_sem_take (o ticks : Z) (s : kern) : outcome (option Z * kern) :=
  c ← cancelled o s;
  if c : bool then done_with RHINO_TASK_CANCELED s
  else if decide (0 < g_intrpt_nested_level s) then done_with RHINO_NOT_CALLED_BY_INTRPT s
  else
    b ← get_obj o s;
    if decide (obj_type b <> RHINO_SEM_OBJ_TYPE) then done_with RHINO_KOBJ_TYPE_ERR s
    else
      x ← get_sem o s;
      if decide (0 < sem_count x) then
        s ← upd_sem o (set_sem_count (sem_count x - 1)) s; done_with RHINO_SUCCESS s
      else if decide (ticks = RHINO_NO_WAIT) then done_with RHINO_NO_PEND_WAIT s
      else if decide (0 < g_sched_lock s) then done_with RHINO_SCHED_DISABLE s
      else
        s ← pend_to_blk_obj o (g_active_task s) ticks s;
        exit_blocked s.

Definition krhino_sem_count_set (o sem_count' : Z) (s : kern) : outcome (option Z * kern) :=
  if decide (0 < g_intrpt_nested_level s) then done_with RHINO_NOT_CALLED_BY_INTRPT s
  else
    b ← get_obj o s;
    if decide (obj_type b <> RHINO_SEM_OBJ_TYPE) then done_with RHINO_KOBJ_TYPE_ERR s
    else
      x ← get_sem o s;
      w ← first_waiter o s;
      if decide (0 < sem_count x \/ w = None) then
        s ← upd_sem o (fun x => set_peak_count (if decide (peak_count x < sem_count') then sem_count' else peak_count x) (set_sem_count sem_count' x)) s;
        done_with RHINO_SUCCESS s
      else done_with RHINO_SEM_TASK_WAITING s.

Definition krhino_sem_count_get (o : Z) (s : kern) : outcome Z := x ← get_sem o s; Ret (sem_count x).

Section Inherit.
Context (INHERIT : bool).
Abbreviation task_pri_change := (task_pri_change INHERIT).
Abbreviation mutex_release := (mutex_release INHERIT).
Abbreviation mutex_task_pri_reset := (mutex_task_pri_reset INHERIT).

(** ** Mutexes *)

Definition krhino_mutex_create (o : Z) (s : kern) : outcome (option Z * kern) :=
  let s := set_lks (<[NBlk o := Klist None None]> (lks s)) s in
  s ← with_links (klist_init (NBlk o)) s;
  let s := set_mutexes (<[o := Kmutex None None 0 K_OBJ_STATIC_ALLOC]> (mutexes s)) s in
  let s := set_objs (<[o := BlkObj BLK_POLICY_PRI RHINO_MUTEX_OBJ_TYPE 0]> (objs s)) s in
  done_with RHINO_SUCCESS s.

Definition krhino_mutex_del (o : Z) (s : kern) : outcome (option Z * kern) :=
  if decide (0 < g_intrpt_nested_level s) then done_with RHINO_NOT_CALLED_BY_INTRPT s
  else
    b ← get_obj o s;
    if decide (obj_type b <> RHINO_MUTEX_OBJ_TYPE) then done_with RHINO_KOBJ_TYPE_ERR s
    else
      x ← get_mutex o s;
      if decide (m_alloc_flag x <> K_OBJ_STATIC_ALLOC) then done_with RHINO_KOBJ_DEL_ERR s
      else
        s ← upd_obj o (set_obj_type RHINO_OBJ_TYPE_NONE) s;
        s ← (match mutex_task x with Some t => mutex_release t (Some o) s | None => Ret s end);
        s ← drain pend_task_rm (base.size (lks s)) o s;
        exit_sched s.

(** The caller becomes the owner. *)
Definition mutex_get (o t : Z) (s : kern) : outcome kern :=
  s ← upd_mutex o (set_mutex_task (Some t)) s;
  s ← (if INHERIT then
         k ← get_task t s;
         s ← upd_mutex o (set_m_list (mutex_list k)) s;
         upd_task t (set_mutex_list (Some o)) s
       else Ret s);
  upd_mutex o (set_owner_nested 1) s.

Definition krhino_mutex_lock (o ticks : Z) (s : kern) : outcome (option Z * kern) :=
  if decide (g_sys_stat s = RHINO_STOPPED) then done_with RHINO_SUCCESS s
  else
    c ← cancelled o s;
    if c : bool then done_with RHINO_TASK_CANCELED s
    else if decide (0 < g_intrpt_nested_level s) then done_with RHINO_NOT_CALLED_BY_INTRPT s
    else
      b ← get_obj o s;
      if decide (obj_type b <> RHINO_MUTEX_OBJ_TYPE) then done_with RHINO_KOBJ_TYPE_ERR s
      else
        x ← get_mutex o s;
        let t := g_active_task s in
        if decide (mutex_task x = Some t) then
          if decide (owner_nested x = 2 ^ 32 - 1) then Crash
          else s ← upd_mutex o (set_owner_nested (owner_nested x + 1)) s; done_with RHINO_MUTEX_OWNER_NESTED s
        else
          match mutex_task x with
          | None => s ← mutex_get o t s; done_with RHINO_SUCCESS s
          | Some owner =>
              if decide (ticks = RHINO_NO_WAIT) then done_with RHINO_NO_PEND_WAIT s
              else if decide (0 < g_sched_lock s) then done_with RHINO_SCHED_DISABLE s
              else
                s ← (if INHERIT then
                       k ← get_task t s;
                       ok ← get_task owner s;
                       if decide (prio k < prio ok) then task_pri_change owner (prio k) s else Ret s
                     else Ret s);
                s ← pend_to_blk_obj o t ticks s;
                exit_blocked s
          end.

Definition krhino_mutex_unlock (o : Z) (s : kern) : outcome (option Z * kern) :=
  if decide (g_sys_stat s = RHINO_STOPPED) then done_with RHINO_SUCCESS s
  else if decide (0 < g_intrpt_nested_level s) then done_with RHINO_NOT_CALLED_BY_INTRPT s
  else
    b ← get_obj o s;
    if decide (obj_type b <> RHINO_MUTEX_OBJ_TYPE) then done_with RHINO_KOBJ_TYPE_ERR s
    else
      x ← get_mutex o s;
      if decide (mutex_task x <> Some (g_active_task s)) then done_with RHINO_MUTEX_NOT_RELEASED_BY_OWNER s
      else
        let n := u32 (owner_nested x - 1) in
        s ← upd_mutex o (set_owner_nested n) s;
        if decide (0 < n) then done_with RHINO_MUTEX_OWNER_NESTED s
        else
          s ← mutex_release (g_active_task s) (Some o) s;
          w ← first_waiter o s;
          match w with
          | None => s ← upd_mutex o (set_mutex_task None) s; done_with RHINO_SUCCESS s
          | Some t => s ← pend_task_wakeup t s; s ← mutex_get o t s; exit_sched s
          end.

(** ** The tick *)

(** One expired task of [tick_list_update]. *)
Definition tick_expire (t : Z) (s : kern) : outcome kern :=
  k ← get_task t s;
  match task_state k with
  | K_SLEEP =>
      s ← upd_task t (fun k => set_task_state K_RDY (set_blk_state BLK_FINISH k)) s;
      s ← tick_list_rm t s;
      ready_list_add t s
  | K_PEND =>
      s ← tick_list_rm t s;
      s ← with_links (klist_rm (NTask t)) s;
      s ← ready_list_add t s;
      s ← upd_task t (fun k => set_task_state K_RDY (set_blk_state BLK_TIMEOUT k)) s;
      s ← mutex_task_pri_reset t s;
      upd_task t (set_blk_obj None) s
  | K_PEND_SUSPENDED =>
      s ← tick_list_rm t s;
      s ← with_links (klist_rm (NTask t)) s;
      s ← upd_task t (fun k => set_task_state K_SUSPENDED (set_blk_state BLK_TIMEOUT k)) s;
      s ← mutex_task_pri_reset t s;
      upd_task t (set_blk_obj None) s
  | K_SLEEP_SUSPENDED =>
      s ← upd_task t (fun k => set_blk_state BLK_FINISH (set_task_state K_SUSPENDED k)) s;
      tick_list_rm t s
  | _ => Crash
  end.

Fixpoint tick_loop (fuel : nat) (iter : node) (s : kern) : outcome kern :=
  if decide (iter = NTickHead) then Ret s
  else
    match fuel with
    | O => Crash
    | S fuel =>
        iter_temp ← next_of iter s;
        t ← tick_entry iter;
        k ← get_task t s;
        let delta := i64 (tick_match k - g_tick_count s) in
        if decide (0 < delta) then Ret s else s ← tick_expire t s; tick_loop fuel iter_temp s
    end.

Definition tick_list_update (ticks : Z) (s : kern) : outcome kern :=
  let s := set_g_tick_count (u64 (g_tick_count s + ticks)) s in
  iter ← next_of NTickHead s;
  tick_loop (base.size (lks s)) iter s.

Definition krhino_tick_proc (s : kern) : outcome kern := s ← tick_list_update 1 s; time_slice_update s.

Definition krhino_next_sleep_ticks_get (s : kern) : outcome Z :=
  n ← next_of NTickHead s;
  if decide (n = NTickHead) then Ret RHINO_WAIT_FOREVER
  else t ← tick_entry n; k ← get_task t s; Ret (u64 (tick_match k - g_tick_count s)).

(** ** Changing, aborting and deleting tasks *)

(** The status and, when the change is made, the old priority. *)
Definition krhino_task_pri_change (t pri : Z) (s : kern) : outcome (option Z * kern) :=
  k ← get_task t s;
  if decide (RHINO_IDLE_PRI <= prio k) then done_with RHINO_PRI_CHG_NOT_ALLOWED s
  else if decide (RHINO_IDLE_PRI <= pri) then done_with RHINO_PRI_CHG_NOT_ALLOWED s
  else if decide (task_state k = K_DELETED) then done_with RHINO_INV_TASK_STATE s
  else if decide (0 < g_intrpt_nested_level s) then done_with RHINO_NOT_CALLED_BY_INTRPT s
  else
    pri_limit ← mutex_pri_limit INHERIT t pri s;
    s ← upd_task t (set_b_prio pri) s;
    s ← task_pri_change t pri_limit s;
    exit_sched s.

Definition krhino_task_wait_abort (t : Z) (s : kern) : outcome (option Z * kern) :=
  if decide (0 < g_intrpt_nested_level s) then done_with RHINO_NOT_CALLED_BY_INTRPT s
  else
    k ← get_task t s;
    match task_state k with
    | K_RDY => exit_sched s
    | K_SUSPENDED =>
        s ← upd_task t (set_task_state K_RDY) s;
        s ← ready_list_add t s;
        exit_sched s
    | K_SLEEP | K_SLEEP_SUSPENDED =>
        s ← tick_list_rm t s;
        s ← ready_list_add t s;
        s ← upd_task t (fun k => set_blk_state BLK_ABORT (set_task_state K_RDY k)) s;
        exit_sched s
    | K_PEND | K_PEND_SUSPENDED =>
        s ← tick_list_rm t s;
        s ← with_links (klist_rm (NTask t)) s;
        s ← ready_list_add t s;
        s ← upd_task t (fun k => set_blk_state BLK_ABORT (set_task_state K_RDY k)) s;
        s ← mutex_task_pri_reset t s;
        s ← upd_task t (set_blk_obj None) s;
        exit_sched s
    | K_SEED | K_DELETED => done_with RHINO_INV_TASK_STATE s
    end.

Definition krhino_task_cancel (t : Z) (s : kern) : outcome (option Z * kern) :=
  s ← upd_task t (set_cancel 1) s; krhino_task_wait_abort t s.

(** [task_mutex_free]: the mutexes of the task go to their first waiters. *)
Fixpoint task_mutex_free (fuel : nat) (o : option Z) (s : kern) : outcome kern :=
  match o with
  | None => Ret s
  | Some o =>
      match fuel with
      | O => Crash
      | S fuel =>
          x ← get_mutex o s;
          w ← first_waiter o s;
          s ← (match w with
               | Some t =>
                   s ← pend_task_wakeup t s;
                   s ← upd_mutex o (set_mutex_task (Some t)) s;
                   k ← get_task t s;
                   s ← upd_mutex o (set_m_list (mutex_list k)) s;
                   upd_task t (set_mutex_list (Some o)) s
               | None => upd_mutex o (set_mutex_task None) s
               end);
          task_mutex_free fuel (m_list x) s
      end
  end.

Definition krhino_task_del (t : Z) (s : kern) : outcome (option Z * kern) :=
  if decide (0 < g_intrpt_nested_level s) then done_with RHINO_NOT_CALLED_BY_INTRPT s
  else
    k ← get_task t s;
    if decide (prio k = RHINO_IDLE_PRI) then done_with RHINO_TASK_DEL_NOT_ALLOWED s
    else if decide (t_alloc_flag k <> K_OBJ_STATIC_ALLOC) then done_with RHINO_KOBJ_DEL_ERR s
    else if decide (t = g_active_task s /\ 0 < g_sched_lock s) then done_with RHINO_SCHED_DISABLE s
    else
      s ← task_mutex_free (base.size (mutexes s)) (mutex_list k) s;
      k ← get_task t s;
      match task_state k with
      | K_RDY => s ← ready_list_rm t s; s ← upd_task t (set_task_state K_DELETED) s; exit_sched s
      | K_SUSPENDED => s ← upd_task t (set_task_state K_DELETED) s; exit_sched s
      | K_SLEEP | K_SLEEP_SUSPENDED => s ← tick_list_rm t s; s ← upd_task t (set_task_state K_DELETED) s; exit_sched s
      | K_PEND | K_PEND_SUSPENDED =>
          s ← tick_list_rm t s;
          s ← with_links (klist_rm (NTask t)) s;
          s ← upd_task t (set_task_state K_DELETED) s;
          s ← mutex_task_pri_reset t s;
          exit_sched s
      | K_SEED | K_DELETED => done_with RHINO_INV_TASK_STATE s
      end.

End Inherit.
