(* ===== verification/KQueue.v ===== *)
(** * The lists of the kernel

    Every task is in at most one of the ready lists and lists of waiting tasks, and in the
    list of timeouts or in a ring of its own; the ready queue agrees with the ready lists.
    A [place] is a list for the task list nodes.  What the functions of [k_sched.c], [k_tick.c]
    and [k_pend.c] do to them. *)

From stdpp Require Import gmap.
From S2P Require Import Prelude KBits KList KKern.

Inductive place := Nowhere | AtReady (p : Z) | AtObj (o : Z).

#[export] Instance place_eq : EqDecision place.
Proof. solve_decision. Defined.

(** Where each task is, the tasks at each place in order, and the timeouts in order. *)
Record ghost := Ghost { wh : Z -> place; lst : place -> list Z; tmo : list Z }.
Abbreviation rdy g p := (lst g (AtReady p)).
Abbreviation wait g o := (lst g (AtObj o)).

Definition upd {A B} `{EqDecision A} (f : A -> B) (k : A) (v : B) : A -> B := fun x => if decide (x = k) then v else f x.

Lemma upd_eq {A B} `{EqDecision A} (f : A -> B) k v : upd f k v k = v.
Proof. unfold upd. by rewrite decide_True. Qed.
Lemma upd_ne {A B} `{EqDecision A} (f : A -> B) k v x : x <> k -> upd f k v x = f x.
Proof. intros H. unfold upd. by rewrite decide_False. Qed.

(** ** Where tasks are *)

Record placed (T O : gset Z) (g : ghost) : Prop := Placed {
  pl_lst : forall w, NoDup (lst g w) /\ forall t, t ∈ lst g w <-> w <> Nowhere /\ wh g t = w;
  pl_tmo : NoDup (tmo g);
  pl_task : forall t, wh g t <> Nowhere -> t ∈ T;
  pl_tick : forall t, t ∈ tmo g -> t ∈ T;
  pl_obj : forall t o, wh g t = AtObj o -> o ∈ O
}.

(** The place [w] has the tasks [l] now, and [t] is at [v]. *)
Definition put (w : place) (l : list Z) (t : Z) (v : place) (g : ghost) : ghost := Ghost (upd (wh g) t v) (upd (lst g) w l) (tmo g).
Definition put_tmo (l : list Z) (g : ghost) : ghost := Ghost (wh g) (lst g) l.

Section Placed.
Context (T O : gset Z) (g : ghost) (P : placed T O g).

Lemma wh_in t w : w <> Nowhere -> wh g t = w -> t ∈ lst g w.
Proof. intros Hw E. by apply (pl_lst _ _ _ P w). Qed.

Lemma in_wh t w : t ∈ lst g w -> wh g t = w.
Proof. intros H. by apply (pl_lst _ _ _ P w). Qed.

Lemma lst_in t w : w <> Nowhere -> wh g t = w -> exists l1 l2, lst g w = l1 ++ t :: l2.
Proof. intros Hw E. apply list_elem_of_split. by apply wh_in. Qed.

Lemma place_enter w l1 l2 t :
  w <> Nowhere -> lst g w = l1 ++ l2 -> wh g t = Nowhere -> t ∈ T -> (forall o, w = AtObj o -> o ∈ O) -> placed T O (put w (l1 ++ t :: l2) t w g).
Proof.
  intros Hw E Hn Ht Hob. destruct (pl_lst _ _ _ P w) as [Nd Hin]. assert (t ∉ lst g w) as Hnw by (intros [_ H]%Hin; congruence).
  split; cbn [put wh lst tmo].
  - intros v. destruct (decide (v = w)) as [->|Hv].
    + rewrite upd_eq. split; [rewrite <- Permutation_middle; apply list.NoDup_cons; by rewrite <- E|]. intros x.
      rewrite elem_of_app, elem_of_cons. destruct (decide (x = t)) as [->|Hx]; [rewrite upd_eq; tauto|]. rewrite upd_ne by done. rewrite <- Hin, E, elem_of_app. tauto.
    + rewrite upd_ne by done. destruct (pl_lst _ _ _ P v) as [Nv Hin']. split; [done|]. intros x. rewrite Hin'.
      destruct (decide (x = t)) as [->|Hx]; [rewrite upd_eq, Hn; split; [|by intros [_ <-]]; intros [? <-]; done|by rewrite upd_ne].
  - apply P.
  - intros x. destruct (decide (x = t)) as [->|Hx]; [done|rewrite upd_ne by done; apply P].
  - apply P.
  - intros x o. destruct (decide (x = t)) as [->|Hx]; [rewrite upd_eq; apply Hob|rewrite upd_ne by done; apply P].
Qed.

Lemma place_leave w l1 l2 t : lst g w = l1 ++ t :: l2 -> placed T O (put w (l1 ++ l2) t Nowhere g).
Proof.
  intros E. destruct (pl_lst _ _ _ P w) as [Nd Hin]. assert (w <> Nowhere /\ wh g t = w) as [Hw Ht] by (apply Hin; rewrite E, elem_of_app, elem_of_cons; tauto).
  rewrite E, <- Permutation_middle in Nd. apply list.NoDup_cons in Nd as [Hn Nd].
  split; cbn [put wh lst tmo].
  - intros v. destruct (decide (v = w)) as [->|Hv].
    + rewrite upd_eq. split; [done|]. intros x. destruct (decide (x = t)) as [->|Hx]; [rewrite upd_eq; split; [done|by intros [_ <-]]|].
      rewrite upd_ne by done. rewrite <- Hin, E, !elem_of_app, elem_of_cons. tauto.
    + rewrite upd_ne by done. destruct (pl_lst _ _ _ P v) as [Nv Hin']. split; [done|]. intros x. rewrite Hin'.
      destruct (decide (x = t)) as [->|Hx]; [rewrite upd_eq, Ht; split; [by intros [_ <-]|by intros [? <-]]|by rewrite upd_ne].
  - apply P.
  - intros x. destruct (decide (x = t)) as [->|Hx]; [by rewrite upd_eq|rewrite upd_ne by done; apply P].
  - apply P.
  - intros x o. destruct (decide (x = t)) as [->|Hx]; [by rewrite upd_eq|rewrite upd_ne by done; apply P].
Qed.

(** The order at a place changes. *)
Lemma place_permute w l t : t ∈ lst g w -> l ≡ₚ lst g w -> placed T O (put w l t w g).
Proof.
  intros Ht Hl. assert (forall x, upd (wh g) t w x = wh g x) as Hwh.
  { intros x. destruct (decide (x = t)) as [->|Hx]; [rewrite upd_eq; symmetry; by apply in_wh|by rewrite upd_ne]. }
  split; cbn [put wh lst tmo].
  - intros v. destruct (pl_lst _ _ _ P v) as [Nv Hin']. destruct (decide (v = w)) as [->|Hv].
    + rewrite upd_eq. split; [by rewrite Hl|]. intros x. by rewrite Hwh, Hl, Hin'.
    + rewrite upd_ne by done. split; [done|]. intros x. by rewrite Hwh.
  - apply P.
  - intros x. rewrite Hwh. apply P.
  - apply P.
  - intros x o. rewrite Hwh. apply P.
Qed.

Lemma placed_tmo l : NoDup l -> (forall t, t ∈ l -> t ∈ T) -> placed T O (put_tmo l g).
Proof. intros Nd H. destruct P as [P1 P2 P3 P4 P5]. by split. Qed.
End Placed.

(** ** In memory *)

(** The rings: one per place, the timeouts, and one for each task without timeout. *)
Inductive rid := IAt (w : place) | ITick | ISelf (t : Z).

#[export] Instance rid_eq : EqDecision rid.
Proof. solve_decision. Defined.

Definition rings (T O : gset Z) (g : ghost) (i : rid) : list node :=
  match i with
  | IAt Nowhere => []
  | IAt (AtReady p) => NTask <$> rdy g p
  | IAt (AtObj o) => if decide (o ∈ O) then NBlk o :: (NTask <$> wait g o) else []
  | ITick => NTickHead :: (NTick <$> tmo g)
  | ISelf t => if decide (t ∈ T /\ t ∉ tmo g) then [NTick t] else []
  end.

Record linked (T O : gset Z) (g : ghost) (m : links) : Prop := Linked {
  ln_ring : forall i, ring m (rings T O g i);
  ln_mem : forall t, t ∈ T -> is_Some (m !! NTask t)
}.

(** The ring a node is in. *)
Definition ring_of (g : ghost) (n : node) : rid :=
  match n with
  | NTask t => IAt (wh g t)
  | NBlk o => IAt (AtObj o)
  | NTickHead => ITick
  | NTick t => if decide (t ∈ tmo g) then ITick else ISelf t
  end.

Section Rings.
Context (T O : gset Z) (g : ghost) (P : placed T O g).

Lemma in_ring_of i n : n ∈ rings T O g i -> ring_of g n = i.
Proof.
  destruct i as [[|p|o]| |t]; cbn [rings].
  - by intros ?%elem_of_nil.
  - intros (x & -> & Hx)%list_elem_of_fmap. cbn. by rewrite (in_wh T O g P x _ Hx).
  - case_decide; [|by intros ?%elem_of_nil]. intros [->|(x & -> & Hx)%list_elem_of_fmap]%elem_of_cons; [done|]. cbn. by rewrite (in_wh T O g P x _ Hx).
  - intros [->|(x & -> & Hx)%list_elem_of_fmap]%elem_of_cons; [done|]. cbn. by rewrite decide_True.
  - case_decide as H; [|by intros ?%elem_of_nil]. intros ->%list_elem_of_singleton. cbn. rewrite decide_False; [done|]. by apply H.
Qed.

Lemma rings_nodup i : NoDup (rings T O g i).
Proof.
  assert (forall w, NoDup (NTask <$> lst g w)) as Ht by (intros w; apply NoDup_fmap_2; [by intros ? ? [=]|apply P]).
  destruct i as [[|p|o]| |t]; cbn [rings]; [constructor|apply Ht| | |].
  - case_decide; [|constructor]. apply list.NoDup_cons. split; [|apply Ht]. by intros (x & ? & _)%list_elem_of_fmap.
  - apply list.NoDup_cons. split; [by intros (x & ? & _)%list_elem_of_fmap|]. apply NoDup_fmap_2; [by intros ? ? [=]|apply P].
  - case_decide; [|constructor]. apply NoDup_singleton.
Qed.
End Rings.

(** Rings that are not touched stay. *)
Lemma relink T O g T' O' g' m m' k :
  placed T O g -> placed T' O' g' -> linked T O g m -> only k m m' ->
  (forall i, ring m' (rings T' O' g' i) \/ rings T' O' g' i = rings T O g i /\ forall n, n ∈ rings T O g i -> n ∉ k) ->
  (forall t, t ∈ T' -> is_Some (m !! NTask t)) -> linked T' O' g' m'.
Proof.
  intros P P' [LR LM] Hon Hi Hm. split; [|intros t Ht; by apply Hon, Hm]. intros i. destruct (Hi i) as [?|[-> Hk]]; [done|].
  apply (ring_only m m' k); [done|done|by apply rings_nodup|apply LR].
Qed.

(** The ring of one place changes. *)
Lemma relink_at T O g w l t v m m' :
  placed T O g -> placed T O (put w l t v g) -> linked T O g m -> only (NTask t :: rings T O g (IAt w)) m m' ->
  ring m' (rings T O (put w l t v g) (IAt w)) -> wh g t = w \/ wh g t = Nowhere -> linked T O (put w l t v g) m'.
Proof.
  intros P P' L Hon HR Hw. apply (relink T O g T O _ m m' _ P P' L Hon); [|apply L]. intros i.
  destruct (decide (i = IAt w)) as [->|Hi]; [by left|]. right. split.
  - destruct i as [[|p|o]| |x]; cbn [rings put lst]; try done; rewrite upd_ne; [done|congruence|done|congruence].
  - intros n Hn [->|Hk]%elem_of_cons; pose proof (in_ring_of T O g P i _ Hn) as E.
    + cbn in E. destruct Hw as [Hw|Hw]; rewrite Hw in E; subst i; [done|]. by apply elem_of_nil in Hn.
    + rewrite (in_ring_of T O g P _ _ Hk) in E. congruence.
Qed.

(** ** The ready queue *)

Record queued (q : runqueue_t) (g : ghost) : Prop := Queued {
  qu_len : length (cur_list_item q) = 62%nat;
  qu_item : forall p, 0 <= p < 62 -> cur_list_item q !! Z.to_nat p = Some (NTask <$> head (rdy g p));
  qu_out : forall p, ~ (0 <= p < 62) -> rdy g p = [];
  qu_words : length (task_bit_map q) = 2%nat /\ words_ok (task_bit_map q);
  qu_bit : forall p, 0 <= p -> bit_at (task_bit_map q) p = bool_decide (rdy g p <> []);
  qu_high : 0 <= highest_pri q <= 62 /\ (forall p, 0 <= p < highest_pri q -> rdy g p = []) /\ (highest_pri q < 62 -> rdy g (highest_pri q) <> [])
}.

Record kok (g : ghost) (s : kern) : Prop := Kok {
  ko_placed : placed (dom (tasks s)) (dom (objs s)) g;
  ko_linked : linked (dom (tasks s)) (dom (objs s)) g (lks s);
  ko_queued : queued (rq s) g
}.

(** A kernel with other lists. *)
Definition with_q (m : links) (q : runqueue_t) (s : kern) : kern := set_rq q (set_lks m s).

(** The ready lists a place other than a ready list leaves alone. *)
Lemma queued_ext q g g' : (forall p, rdy g' p = rdy g p) -> queued q g -> queued q g'.
Proof.
  intros E [Q1 Q2 Q3 Q4 Q5 Q6]. split; try done.
  - intros p Hp. rewrite E. by apply Q2.
  - intros p Hp. rewrite E. by apply Q3.
  - intros p Hp. rewrite E. by apply Q5.
  - destruct Q6 as (H1 & H2 & H3). split_and!; try lia; [intros p Hp; rewrite E; by apply H2|]. rewrite E. done.
Qed.

(** One item of the queue, with the bitmap or not. *)
Lemma queued_item q g p l t v x :
  queued q g -> 0 <= p < 62 -> x = NTask <$> head l -> (l = [] <-> rdy g p = []) ->
  queued (Runqueue (<[Z.to_nat p := x]> (cur_list_item q)) (task_bit_map q) (highest_pri q)) (put (AtReady p) l t v g).
Proof.
  intros [Q1 Q2 Q3 Q4 Q5 Q6] Hp -> Hl.
  assert (forall y, y <> p -> rdy (put (AtReady p) l t v g) y = rdy g y) as Hne by (intros y Hy; cbn; rewrite upd_ne; [done|congruence]).
  assert (rdy (put (AtReady p) l t v g) p = l) as He by (cbn; apply upd_eq).
  assert (forall y, rdy (put (AtReady p) l t v g) y = [] <-> rdy g y = []) as Hnil.
  { intros y. destruct (decide (y = p)) as [->|Hy]; [by rewrite He|by rewrite Hne]. }
  split; cbn [cur_list_item task_bit_map highest_pri].
  - by rewrite length_insert.
  - intros y Hy. destruct (decide (y = p)) as [->|Hyp]; [rewrite list_lookup_insert_eq by lia; by rewrite He|]. rewrite list_lookup_insert_ne by lia. rewrite Hne by done. by apply Q2.
  - intros y Hy. rewrite Hne by lia. by apply Q3.
  - done.
  - intros y Hy. rewrite Q5 by done. apply bool_decide_ext. by rewrite Hnil.
  - destruct Q6 as (H1 & H2 & H3). split_and!; [lia..| |]; [intros y Hy; apply Hnil; by apply H2|]. intros Hlt. rewrite Hnil. by apply H3.
Qed.

Section Ready.
Context (g : ghost) (s : kern) (KO : kok g s) (t : Z) (k : ktask_t) (Ht : tasks s !! t = Some k) (Hpri : 0 <= prio k < 62).

Abbreviation p := (prio k).
Abbreviation T := (dom (tasks s)).
Abbreviation O := (dom (objs s)).

Lemma get_task_ok : get_task t s = Ret k.
Proof. unfold get_task. by rewrite Ht. Qed.

Lemma task_dom : t ∈ T.
Proof. by apply elem_of_dom. Qed.

Lemma list_item_ok y : 0 <= y < 62 -> list_item y s = Ret (NTask <$> head (rdy g y)).
Proof. intros Hy. unfold list_item. rewrite decide_True by lia. by rewrite (qu_item _ _ (ko_queued _ _ KO) y Hy). Qed.

(** The first one at its priority. *)
Lemma ready_init_ok :
  rdy g p = [] -> wh g t = Nowhere ->
  exists m q, ready_list_init t s = Ret (with_q m q s) /\ kok (put (AtReady p) [t] t (AtReady p) g) (with_q m q s).
Proof.
  intros Hnil Hw. unfold ready_list_init. rewrite get_task_ok. cbn [mbind outcome_bind]. rewrite list_item_ok by done. cbn [mbind outcome_bind].
  destruct KO as [P L Q]. destruct (klist_init_ok (NTask t) (lks s)) as (m & E & HR & Hon); [apply L, task_dom|].
  unfold with_links. cbn [lks put_item set_rq]. rewrite E. cbn [mbind outcome_bind].
  pose proof (qu_words _ _ Q) as [Hlen Hok]. destruct (bitmap_set_ok (task_bit_map (rq s)) p Hok) as (bm & Eb & Hbl & Hbw & Hbit); [unfold zlen; lia|].
  cbn [rq set_lks set_rq task_bit_map put_item]. rewrite Eb. cbn [mbind outcome_bind].
  set (h := if decide (p < highest_pri (rq s)) then p else highest_pri (rq s)).
  exists m, (Runqueue (<[Z.to_nat p := Some (NTask t)]> (cur_list_item (rq s))) bm h). split.
  { unfold h. destruct (decide (p < highest_pri (rq s))) as [Hlt|Hge]; [rewrite decide_True by exact Hlt|rewrite decide_False by exact Hge]; reflexivity. }
  assert (placed T O (put (AtReady p) [t] t (AtReady p) g)) as P' by (apply (place_enter T O g P (AtReady p) [] []); [done|done|done|apply task_dom|done]).
  split; cbn [with_q tasks objs lks rq set_rq set_lks].
  - done.
  - eapply (relink_at T O g (AtReady p) [t] t (AtReady p) (lks s)); [done|done|done| | |by right].
    + eapply only_sub; [|exact Hon]. intros x ->%list_elem_of_singleton. by left.
    + cbn [rings put lst]. by rewrite upd_eq.
  - assert (forall y, y <> p -> rdy (put (AtReady p) [t] t (AtReady p) g) y = rdy g y) as Hne by (intros y Hy; cbn; rewrite upd_ne; [done|congruence]).
    assert (rdy (put (AtReady p) [t] t (AtReady p) g) p = [t]) as He by (cbn; apply upd_eq).
    destruct Q as [Q1 Q2 Q3 Q4 Q5 Q6]. split; cbn [cur_list_item task_bit_map highest_pri].
    + by rewrite length_insert.
    + intros y Hy. destruct (decide (y = p)) as [->|Hyp]; [rewrite list_lookup_insert_eq by lia; by rewrite He|]. rewrite list_lookup_insert_ne by lia. rewrite Hne by done. by apply Q2.
    + intros y Hy. rewrite Hne by lia. by apply Q3.
    + split; [congruence|done].
    + intros y Hy. rewrite Hbit by done. case_decide as Hyp; [subst y; by rewrite He|]. rewrite Hne by done. by apply Q5.
    + destruct Q6 as (H1 & H2 & H3). unfold h. case_decide as Hlt.
      * split_and!; [lia|lia| |]; [intros y Hy; rewrite Hne by lia; apply H2; lia|by rewrite He].
      * split_and!; [lia|lia| |].
        -- intros y Hy. destruct (decide (y = p)) as [->|Hyp]; [lia|]. rewrite Hne by done. by apply H2.
        -- intros Hh. destruct (decide (highest_pri (rq s) = p)) as [->|Hhp]; [by rewrite He|]. rewrite Hne by done. by apply H3.
Qed.

(** The first ready task and the ones behind it, in memory. *)
Lemma ready_ring : ring (lks s) (NTask <$> rdy g p) /\ NoDup (NTask <$> rdy g p).
Proof.
  split; [apply (ln_ring _ _ _ _ (ko_linked _ _ KO) (IAt (AtReady p)))|apply (rings_nodup T O g (ko_placed _ _ KO) (IAt (AtReady p)))].
Qed.

Lemma nowhere_out w : wh g t = Nowhere -> NTask t ∉ NTask <$> lst g w.
Proof.
  intros Hw (x & [= <-] & Hx)%list_elem_of_fmap. pose proof (in_wh T O g (ko_placed _ _ KO) t w Hx) as E.
  apply (pl_lst _ _ _ (ko_placed _ _ KO) w) in Hx as [? _]. congruence.
Qed.

Lemma ready_add_tail_ok :
  wh g t = Nowhere -> exists m q, ready_list_add_tail t s = Ret (with_q m q s) /\ kok (put (AtReady p) (rdy g p ++ [t]) t (AtReady p) g) (with_q m q s).
Proof.
  intros Hw. unfold ready_list_add_tail. rewrite get_task_ok. cbn [mbind outcome_bind]. rewrite list_item_ok by done. cbn [mbind outcome_bind].
  destruct (rdy g p) as [|a l] eqn:El; cbn [head hd_error fmap option_fmap option_map]; [by apply ready_init_ok|].
  pose proof KO as [P L Q]. destruct ready_ring as [HR Nd]. rewrite El in HR, Nd. cbn in HR, Nd.
  destruct (klist_insert_ok (NTask a) (NTask <$> l) (NTask t) (lks s) HR Nd) as (m & E & HR' & Hon).
  { pose proof (nowhere_out (AtReady p) Hw) as Ho. by rewrite El in Ho. }
  { apply L, task_dom. }
  unfold with_links. rewrite E. cbn [mbind outcome_bind]. exists m, (rq s). split; [by destruct s|].
  assert (placed T O (put (AtReady p) ((a :: l) ++ [t]) t (AtReady p) g)) as P' by (apply (place_enter T O g P (AtReady p) (a :: l) []); [done|by rewrite app_nil_r|done|apply task_dom|done]).
  split; cbn [with_q tasks objs lks rq set_rq set_lks].
  - done.
  - apply (relink_at T O g (AtReady p) _ t (AtReady p) (lks s)); [done|done|done| | |by right].
    + cbn [rings]. rewrite El. exact Hon.
    + cbn [rings put lst]. rewrite upd_eq, fmap_app. exact HR'.
  - pose proof (queued_item (rq s) g p ((a :: l) ++ [t]) t (AtReady p) (Some (NTask a)) Q Hpri eq_refl) as Q'. rewrite list_insert_id in Q'.
    + destruct (rq s). apply Q'. by rewrite El.
    + rewrite (qu_item _ _ Q p Hpri). by rewrite El.
Qed.

Lemma ready_add_head_ok :
  wh g t = Nowhere -> exists m q, ready_list_add_head t s = Ret (with_q m q s) /\ kok (put (AtReady p) (t :: rdy g p) t (AtReady p) g) (with_q m q s).
Proof.
  intros Hw. unfold ready_list_add_head. rewrite get_task_ok. cbn [mbind outcome_bind]. rewrite list_item_ok by done. cbn [mbind outcome_bind].
  destruct (rdy g p) as [|a l] eqn:El; cbn [head hd_error fmap option_fmap option_map]; [by apply ready_init_ok|].
  pose proof KO as [P L Q]. destruct ready_ring as [HR Nd]. rewrite El in HR, Nd. cbn in HR, Nd.
  destruct (klist_insert_ok (NTask a) (NTask <$> l) (NTask t) (lks s) HR Nd) as (m & E & HR' & Hon).
  { pose proof (nowhere_out (AtReady p) Hw) as Ho. by rewrite El in Ho. }
  { apply L, task_dom. }
  unfold with_links. rewrite E. cbn [mbind outcome_bind]. eexists m, _. split; [cbn [put_item rq set_lks set_rq]; reflexivity|].
  assert (placed T O (put (AtReady p) (t :: a :: l) t (AtReady p) g)) as P' by (apply (place_enter T O g P (AtReady p) [] (a :: l)); [done|done|done|apply task_dom|done]).
  split; cbn [with_q tasks objs lks rq set_rq set_lks].
  - done.
  - apply (relink_at T O g (AtReady p) _ t (AtReady p) (lks s)); [done|done|done| | |by right].
    + cbn [rings]. rewrite El. exact Hon.
    + cbn [rings put lst]. rewrite upd_eq. rewrite app_comm_cons in HR'. by apply (ring_rotate m (NTask a :: (NTask <$> l)) [NTask t]) in HR'.
  - apply (queued_item (rq s) g p (t :: a :: l) t (AtReady p)); [done|done|done|by rewrite El].
Qed.

(** The next one at the same priority comes first. *)
Lemma head_to_tail_ok a l :
  rdy g p = a :: l -> exists q, ready_list_head_to_tail t s = Ret (with_q (lks s) q s) /\ kok (put (AtReady p) (l ++ [a]) a (AtReady p) g) (with_q (lks s) q s).
Proof.
  intros El. unfold ready_list_head_to_tail. rewrite get_task_ok. cbn [mbind outcome_bind]. rewrite list_item_ok by done. rewrite El. cbn [mbind outcome_bind head fmap option_fmap option_map non_null].
  pose proof KO as [P L Q]. destruct ready_ring as [HR _]. rewrite El in HR. cbn in HR. destruct HR as [HC [E1 E2]].
  assert (nxt (lks s) (NTask a) = Some (NTask (hd a (l ++ [a])))) as En.
  { destruct l as [|b l]; cbn in *; [done|]. by destruct HC as [[? _] _]. }
  rewrite (get_next_nxt _ _ _ En). cbn [mbind outcome_bind]. eexists. split; [reflexivity|].
  assert (placed T O (put (AtReady p) (l ++ [a]) a (AtReady p) g)) as P'.
  { apply place_permute; [done|rewrite El; by left|]. rewrite El. symmetry. apply Permutation_cons_append. }
  split; cbn [with_q tasks objs lks rq set_rq set_lks].
  - done.
  - apply (relink_at T O g (AtReady p) _ a (AtReady p) (lks s)); [done|done|done|by split| |].
    + cbn [rings put lst]. rewrite upd_eq, fmap_app. apply (ring_rotate _ [NTask a] (NTask <$> l)). exact (conj HC (conj E1 E2)).
    + left. apply (in_wh T O g P). rewrite El. by left.
  - apply (queued_item (rq s) g p (l ++ [a]) a (AtReady p)); [done|done|by destruct l|]. rewrite El. by destruct l.
Qed.
End Ready.

(** ** Leaving the ready queue, waiting and timeouts

    The operations of [KQueue] that take tasks out of lists or into sorted ones. *)

(** Some task is ready other than [t]. *)
Definition others_ready (g : ghost) (t : Z) : Prop := exists x p, x <> t /\ wh g x = AtReady p.

Section Rm.
Context (g : ghost) (s : kern) (KO : kok g s) (t : Z) (k : ktask_t) (Ht : tasks s !! t = Some k).

Abbreviation p := (prio k).
Abbreviation T := (dom (tasks s)).
Abbreviation O := (dom (objs s)).

(** Taking a node out of the ring of a place. *)
Lemma unlink_at w l1 l2 :
  w <> Nowhere -> (forall o, w = AtObj o -> o ∈ O) -> lst g w = l1 ++ t :: l2 -> (forall q, w = AtReady q -> l1 ++ l2 <> []) ->
  exists m, klist_rm (NTask t) (lks s) = Ret m /\ linked T O (put w (l1 ++ l2) t Nowhere g) m /\ placed T O (put w (l1 ++ l2) t Nowhere g).
Proof.
  intros Hw Ho El Hne. pose proof KO as [P L Q]. pose proof (place_leave T O g P w l1 l2 t El) as P'.
  assert (wh g t = w) as Hwt by (apply (in_wh T O g P); rewrite El, elem_of_app, elem_of_cons; tauto).
  assert (exists c1 c2, rings T O g (IAt w) = c1 ++ NTask t :: c2 /\ rings T O (put w (l1 ++ l2) t Nowhere g) (IAt w) = c1 ++ c2) as (c1 & c2 & Er & Er').
  { destruct w as [|q|o]; [done| |]; cbn [rings put lst]; rewrite El, upd_eq, !fmap_app.
    - exists (NTask <$> l1), (NTask <$> l2). by rewrite fmap_cons.
    - destruct (decide (o ∈ O)) as [_|Hno]; [|by destruct (Hno (Ho o eq_refl))]. exists (NBlk o :: (NTask <$> l1)), (NTask <$> l2). by rewrite fmap_cons. }
  pose proof (ln_ring _ _ _ _ L (IAt w)) as HR. pose proof (rings_nodup T O g P (IAt w)) as Nd. rewrite Er in HR, Nd. apply ring_rotate in HR.
  rewrite <- app_comm_cons in HR. rewrite Permutation_app_comm, <- app_comm_cons in Nd.
  destruct (klist_rm_ok (NTask t) (c2 ++ c1) (lks s) HR Nd) as (m & E & HR' & Hon & _). exists m. split; [done|]. split; [|done].
  apply (relink_at T O g w (l1 ++ l2) t Nowhere (lks s)); [done..| | |by left].
  - eapply only_sub; [|exact Hon]. intros x. rewrite Er. rewrite elem_of_cons, !elem_of_app, elem_of_cons. tauto.
  - rewrite Er'. by apply ring_rotate.
Qed.

Lemma ready_rm_ok l1 l2 :
  0 <= p < 62 -> rdy g p = l1 ++ t :: l2 -> others_ready g t ->
  exists m q, ready_list_rm t s = Ret (with_q m q s) /\ kok (put (AtReady p) (l1 ++ l2) t Nowhere g) (with_q m q s).
Proof.
  intros Hp El (x & px & Hx & Hpx). pose proof KO as [P L Q]. unfold ready_list_rm. rewrite (get_task_ok s t k Ht). cbn [mbind outcome_bind].
  rewrite (list_item_ok g s KO p Hp). cbn [mbind outcome_bind]. rewrite El.
  assert (exists a l, l1 ++ t :: l2 = a :: l /\ (l1 = [] /\ a = t /\ l = l2 \/ a <> t /\ exists l1', l1 = a :: l1' /\ l = l1' ++ t :: l2)) as (a & l & Ea & Hal).
  { destruct l1 as [|a l1]; [by exists t, l2; split; [done|left]|]. exists a, (l1 ++ t :: l2). split; [done|]. right. split; [|by exists l1].
    intros ->. destruct (pl_lst _ _ _ P (AtReady p)) as [Nd _]. rewrite El in Nd. apply list.NoDup_cons in Nd as [Hn _]. apply Hn. rewrite elem_of_app, elem_of_cons. tauto. }
  rewrite Ea. cbn [head fmap option_fmap option_map non_null mbind outcome_bind].
  destruct (ready_ring g s KO k) as [HR Nd]. rewrite El, Ea in HR, Nd. cbn in HR, Nd. destruct HR as [HC [E1 E2]].
  destruct l as [|b l].
  - cbn in E1. rewrite (get_next_nxt _ _ _ E1). cbn [mbind outcome_bind]. rewrite decide_False by (intros H; by apply H).
    assert (l1 = [] /\ l2 = [] /\ a = t) as (-> & -> & ->).
    { destruct Hal as [(-> & -> & <-)|(_ & l1' & _ & E)]; [done|]. by destruct l1'. }
    pose proof (qu_words _ _ Q) as [Hlen Hok]. destruct (bitmap_clear_ok (task_bit_map (rq s)) p Hok) as (bm & Eb & Hbl & Hbw & Hbit); [unfold zlen; lia|].
    cbn [rq put_item set_rq task_bit_map]. rewrite Eb. cbn [mbind outcome_bind].
    assert (placed T O (put (AtReady p) [] t Nowhere g)) as P' by (by apply (place_leave T O g P _ [] [] t)).
    assert (linked T O (put (AtReady p) [] t Nowhere g) (lks s)) as L'.
    { apply (relink_at T O g (AtReady p) _ t Nowhere (lks s)); [done..|by split| |left; apply (in_wh T O g P); rewrite El; by left]. cbn [rings put lst]. by rewrite upd_eq. }
    assert (forall y, y <> p -> rdy (put (AtReady p) [] t Nowhere g) y = rdy g y) as Hne by (intros y Hy; cbn; rewrite upd_ne; [done|congruence]).
    assert (rdy (put (AtReady p) [] t Nowhere g) p = []) as He by (cbn; apply upd_eq).
    assert (px <> p /\ rdy g px <> []) as [Hpxp Hrx].
    { split; [intros ->|intros E].
      - assert (x ∈ rdy g p) as H by (by apply (wh_in T O g P)). rewrite El in H. apply list_elem_of_singleton in H. done.
      - assert (x ∈ rdy g px) as H by (by apply (wh_in T O g P)). rewrite E in H. by apply elem_of_nil in H. }
    destruct Q as [Q1 Q2 Q3 Q4 Q5 Q6]. assert (0 <= px < 62) as Hpxr by (destruct (decide (0 <= px < 62)); [done|]; by rewrite Q3 in Hrx).
    assert (forall y, 0 <= y -> bit_at bm y = bool_decide (rdy (put (AtReady p) [] t Nowhere g) y <> [])) as Hb.
    { intros y Hy. rewrite Hbit by done. case_decide as Hyp; [subst y; by rewrite He|]. rewrite Hne by done. by apply Q5. }
    destruct Q6 as (H1 & H2 & H3). assert (highest_pri (rq s) <= p) as Hhp by (destruct (decide (highest_pri (rq s) <= p)); [done|]; rewrite H2 in El by lia; done).
    assert (forall h, 0 <= h < 62 -> (forall y, 0 <= y < h -> rdy (put (AtReady p) [] t Nowhere g) y = []) -> rdy (put (AtReady p) [] t Nowhere g) h <> [] ->
      kok (put (AtReady p) [] t Nowhere g) (with_q (lks s) (Runqueue (<[Z.to_nat p := None]> (cur_list_item (rq s))) bm h) s)) as Hkok.
    { intros h Hh Hlow Hhi. split; cbn [with_q tasks objs lks rq set_rq set_lks]; [done|done|]. split; cbn [cur_list_item task_bit_map highest_pri]; try done.
      - by rewrite length_insert.
      - intros y Hy. destruct (decide (y = p)) as [->|Hyp]; [rewrite list_lookup_insert_eq by lia; by rewrite He|]. rewrite list_lookup_insert_ne by lia. rewrite Hne by done. by apply Q2.
      - intros y Hy. rewrite Hne by lia. by apply Q3.
      - split; [congruence|done].
      - split_and!; [lia|lia|done|done]. }
    cbn [put_bits rq set_rq highest_pri]. case_decide as Hh.
    + exists (lks s), (Runqueue (<[Z.to_nat p := None]> (cur_list_item (rq s))) bm (highest_pri (rq s))). split; [by destruct s|]. apply Hkok.
      * split; [apply H1|]. destruct (decide (highest_pri (rq s) <= px)); [lia|]. by rewrite H2 in Hrx by lia.
      * intros y Hy. rewrite Hne by lia. by apply H2.
      * rewrite Hne by done. apply H3. destruct (decide (highest_pri (rq s) <= px)); [lia|]. by rewrite H2 in Hrx by lia.
    + cbn [task_bit_map]. destruct (bitmap_first_ok bm px Hbw ltac:(lia)) as (r & Er & Hr & Hbr & Hmin).
      { rewrite Hb by lia. apply bool_decide_true. by rewrite Hne. }
      rewrite Er. cbn [mbind outcome_bind]. exists (lks s), (Runqueue (<[Z.to_nat p := None]> (cur_list_item (rq s))) bm r). split; [by destruct s|]. apply Hkok.
      * lia.
      * intros y Hy. pose proof (Hmin y Hy) as Hby. rewrite Hb in Hby by lia. apply bool_decide_eq_false in Hby. by apply dec_stable in Hby.
      * rewrite Hb in Hbr by lia. by apply bool_decide_eq_true in Hbr.
  - destruct HC as [[F1 F2] HC]. rewrite (get_next_nxt _ _ _ F1). cbn [mbind outcome_bind]. rewrite decide_True.
    2: { intros [= <-]. apply list.NoDup_cons in Nd as [Hn _]. apply Hn. by left. }
    destruct (unlink_at (AtReady p) l1 l2) as (m & E & L' & P'); [done|done|done| |].
    { intros _ _ En. apply app_eq_nil in En as [-> ->]. destruct Hal as [(_ & _ & E)|(_ & ? & E & _)]; done. }
    set (x' := if decide (NTask a = NTask t) then Some (NTask b) else Some (NTask a)).
    exists m, (Runqueue (<[Z.to_nat p := x']> (cur_list_item (rq s))) (task_bit_map (rq s)) (highest_pri (rq s))).
    assert (NTask <$> head (l1 ++ l2) = x') as Ehd.
    { unfold x'. destruct Hal as [(-> & -> & <-)|(Hat & l1' & -> & E')]; [by rewrite decide_True|]. rewrite decide_False by congruence. done. }
    split; [|split; cbn [with_q tasks objs lks rq set_rq set_lks]; [done|done|]].
    + unfold with_links, x'. case_decide; cbn [lks put_item set_rq]; rewrite E; cbn [mbind outcome_bind]; [reflexivity|]. rewrite list_insert_id; [by destruct s as [? ? ? ? ? []]|].
      rewrite (qu_item _ _ Q p Hp), El, Ea. done.
    + apply queued_item; [done|done|by symmetry|]. rewrite El. split; [|by intros [_ ?]%app_eq_nil]. intros En. rewrite En in Ehd. unfold x' in Ehd. by case_decide.
Qed.
End Rm.

(** ** Waiting for an object *)

Section Wait.
Context (g : ghost) (s : kern) (KO : kok g s).

Abbreviation T := (dom (tasks s)).
Abbreviation O := (dom (objs s)).

Lemma next_of_ok n x : nxt (lks s) n = Some x -> next_of n s = Ret x.
Proof. intros E. unfold next_of. by rewrite (get_next_nxt _ _ _ E). Qed.

Lemma wait_ring o : o ∈ O -> ring (lks s) (NBlk o :: (NTask <$> wait g o)) /\ NoDup (NBlk o :: (NTask <$> wait g o)).
Proof.
  intros Ho. pose proof (ln_ring _ _ _ _ (ko_linked _ _ KO) (IAt (AtObj o))) as HR. pose proof (rings_nodup T O g (ko_placed _ _ KO) (IAt (AtObj o))) as Nd.
  cbn [rings] in HR, Nd. by rewrite decide_True in HR, Nd by done.
Qed.

(** The first task that waits. *)
Lemma first_waiter_ok o : o ∈ O -> first_waiter o s = Ret (head (wait g o)).
Proof.
  intros Ho. destruct (wait_ring o Ho) as [HR Nd]. unfold first_waiter. apply list.NoDup_cons in Nd as [Hn _].
  destruct (klist_empty_ok _ _ _ HR) as [->|?]; [|done]. cbn [mbind outcome_bind]. destruct (wait g o) as [|a l] eqn:El; [done|].
  rewrite bool_decide_false by done. rewrite (next_of_ok _ _ (ring_next _ _ _ [] _ _ HR eq_refl)). done.
Qed.

(** The task behind which a new one is put: the ones in front are at least as urgent. *)
Lemma pend_pos_ok o pri l2 : forall fuel l1,
  o ∈ O -> wait g o = l1 ++ l2 -> (length l2 <= fuel)%nat ->
  exists a b, l2 = a ++ b /\ pend_pos fuel (hd (NBlk o) (NTask <$> l2)) (NBlk o) pri s = Ret (hd (NBlk o) (NTask <$> b)) /\
    (forall x kx, x ∈ a -> tasks s !! x = Some kx -> prio kx <= pri) /\ (forall x kx, head b = Some x -> tasks s !! x = Some kx -> pri < prio kx).
Proof.
  induction l2 as [|x l2 IH]; intros fuel l1 Ho E Hf.
  - exists [], []. split_and!; try done; [by destruct fuel; cbn; rewrite decide_True|by intros ? ? ?%elem_of_nil].
  - destruct fuel as [|fuel]; [cbn in Hf; lia|]. cbn [pend_pos hd fmap list_fmap]. rewrite decide_False by done. cbn [task_entry mbind outcome_bind].
    destruct (wait_ring o Ho) as [HR Nd].
    assert (x ∈ T) as Hx by (apply (pl_task _ _ _ (ko_placed _ _ KO)); rewrite (in_wh _ _ _ (ko_placed _ _ KO) x (AtObj o)); [done|]; rewrite E, elem_of_app, elem_of_cons; tauto).
    apply elem_of_dom in Hx as [kx Hkx]. rewrite (get_task_ok s x kx Hkx). cbn [mbind outcome_bind]. case_decide as Hlt.
    + exists [], (x :: l2). split_and!; try done; [by intros ? ? ?%elem_of_nil|]. intros y ky [= <-] Hy. congruence.
    + rewrite (next_of_ok (NTask x) (hd (NBlk o) (NTask <$> l2))).
      2: { apply (ring_next _ (NBlk o) (NTask <$> wait g o) (NBlk o :: (NTask <$> l1))); [done|]. rewrite E, fmap_app, fmap_cons. done. }
      cbn [mbind outcome_bind]. destruct (IH fuel (l1 ++ [x]) Ho) as (a & b & -> & -> & Ha & Hb); [by rewrite <- app_assoc|cbn in Hf; lia|].
      exists (x :: a), b. split_and!; try done. intros y ky [->|Hy]%elem_of_cons Hky; [|by apply (Ha y)]. rewrite Hkx in Hky. injection Hky as <-. lia.
Qed.

Lemma pend_add_ok o t k :
  tasks s !! t = Some k -> wh g t = Nowhere -> o ∈ O ->
  exists m l1 l2, pend_list_add (NBlk o) t s = Ret (with_q m (rq s) s) /\ wait g o = l1 ++ l2 /\ kok (put (AtObj o) (l1 ++ t :: l2) t (AtObj o) g) (with_q m (rq s) s) /\
    (forall x kx, x ∈ l1 -> tasks s !! x = Some kx -> prio kx <= prio k) /\ (forall x kx, head l2 = Some x -> tasks s !! x = Some kx -> prio k < prio kx).
Proof.
  intros Ht Hw Ho. pose proof KO as [P L Q]. destruct (wait_ring o Ho) as [HR Nd]. unfold pend_list_add. rewrite (get_task_ok s t k Ht). cbn [mbind outcome_bind].
  rewrite (next_of_ok (NBlk o) (hd (NBlk o) (NTask <$> wait g o))) by (by apply (ring_next _ _ _ [] _ _ HR)). cbn [mbind outcome_bind].
  destruct (pend_pos_ok o (prio k) (wait g o) (size (lks s)) []) as (l1 & l2 & El & -> & H1 & H2); [done|done| |].
  { pose proof (ring_size _ _ HR Nd) as Hs. cbn in Hs. rewrite length_fmap in Hs. lia. }
  cbn [mbind outcome_bind]. assert (t ∈ T) as HtT by (by apply elem_of_dom).
  assert (placed T O (put (AtObj o) (l1 ++ t :: l2) t (AtObj o) g)) as P' by (apply (place_enter T O g P (AtObj o)); [done|done|done|done|by intros ? [= <-]]).
  assert (NTask t ∉ NBlk o :: (NTask <$> wait g o)) as Hout.
  { intros [?|Hin]%elem_of_cons; [done|]. by apply (nowhere_out g s KO t (AtObj o) Hw). }
  assert (exists m, klist_insert (hd (NBlk o) (NTask <$> l2)) (NTask t) (lks s) = Ret m /\ ring m (NBlk o :: (NTask <$> l1 ++ t :: l2)) /\ only (NTask t :: NBlk o :: (NTask <$> wait g o)) (lks s) m) as (m & E & HR' & Hon).
  { rewrite El in HR, Nd, Hout |- *. destruct l2 as [|b l2].
    - rewrite app_nil_r in HR, Nd, Hout |- *. destruct (klist_insert_ok (NBlk o) (NTask <$> l1) (NTask t) (lks s) HR Nd Hout) as (m & E & HR' & Hon); [by apply L|].
      exists m. split_and!; try done. by rewrite fmap_app.
    - rewrite fmap_app, fmap_cons in HR, Nd, Hout |- *. destruct (klist_insert_mid (NBlk o :: (NTask <$> l1)) (NTask b) (NTask <$> l2) (NTask t) (lks s)) as (m & E & HR' & Hon); [done|done|done|by apply L|].
      exists m. split; [exact E|]. rewrite ?fmap_app. split; [exact HR'|exact Hon]. }
  unfold with_links. rewrite E. cbn [mbind outcome_bind]. exists m, l1, l2. split; [by destruct s|]. split; [done|]. split; [|by split].
  split; cbn [with_q tasks objs lks rq set_rq set_lks].
  - done.
  - apply (relink_at T O g (AtObj o) _ t (AtObj o) (lks s)); [done|done|done| | |by right].
    + cbn [rings]. by rewrite decide_True.
    + cbn [rings put lst]. by rewrite decide_True, upd_eq.
  - apply (queued_ext _ g); [|done]. intros y. cbn. by rewrite upd_ne.
Qed.

(** A task leaves the list of waiting tasks. *)
Lemma wait_rm_ok o t l1 l2 :
  wait g o = l1 ++ t :: l2 -> exists m, with_links (klist_rm (NTask t)) s = Ret (with_q m (rq s) s) /\ kok (put (AtObj o) (l1 ++ l2) t Nowhere g) (with_q m (rq s) s).
Proof.
  intros El. pose proof KO as [P L Q].
  assert (wh g t = AtObj o) as Hw by (apply (in_wh T O g P); rewrite El, elem_of_app, elem_of_cons; tauto). pose proof (pl_obj _ _ _ P t o Hw) as Ho.
  destruct (unlink_at g s KO t (AtObj o) l1 l2) as (m & E & L' & P'); [done|by intros ? [= <-]|done|done|].
  unfold with_links. rewrite E. cbn [mbind outcome_bind]. exists m. split; [by destruct s|]. split; cbn [with_q tasks objs lks rq set_rq set_lks]; [done|done|].
  apply (queued_ext _ g); [|done]. intros y. cbn. by rewrite upd_ne.
Qed.
End Wait.

(** ** Timeouts *)

Lemma filter_others (t : Z) (l : list Z) : t ∉ l -> filter (fun x => x <> t) l = l.
Proof.
  induction l as [|a l IH]; intros Hn; [done|]. apply not_elem_of_cons in Hn as [Ha Hn]. rewrite list.filter_cons, decide_True by done. by rewrite IH.
Qed.

Section Tick.
Context (g : ghost) (s : kern) (KO : kok g s).

Abbreviation T := (dom (tasks s)).
Abbreviation O := (dom (objs s)).

Lemma tick_ring : ring (lks s) (NTickHead :: (NTick <$> tmo g)) /\ NoDup (NTickHead :: (NTick <$> tmo g)).
Proof. split; [apply (ln_ring _ _ _ _ (ko_linked _ _ KO) ITick)|apply (rings_nodup T O g (ko_placed _ _ KO) ITick)]. Qed.

(** A task in no list of timeouts is a ring of its own, so taking it out is harmless. *)
Lemma tick_rm_ok t :
  t ∈ T -> exists m, tick_list_rm t s = Ret (with_q m (rq s) s) /\ kok (put_tmo (filter (fun x => x <> t) (tmo g)) g) (with_q m (rq s) s).
Proof.
  intros Ht. pose proof KO as [P L Q]. destruct tick_ring as [HR Nd]. set (l' := filter (fun x => x <> t) (tmo g)).
  assert (placed T O (put_tmo l' g)) as P'.
  { apply placed_tmo; [done|apply list.NoDup_filter, P|]. intros x [_ Hx]%list_elem_of_filter. by apply (pl_tick _ _ _ P). }
  assert (t ∉ l') as Hout by (by intros [? _]%list_elem_of_filter).
  assert (forall x, x <> t -> x ∈ l' <-> x ∈ tmo g) as Hin by (intros x Hx; unfold l'; rewrite list_elem_of_filter; tauto).
  assert (exists m k, klist_rm_init (NTick t) (lks s) = Ret m /\ ring m (NTickHead :: (NTick <$> l')) /\ ring m [NTick t] /\ only k (lks s) m /\
    forall n, n ∈ k -> n = NTick t \/ n ∈ NTickHead :: (NTick <$> tmo g)) as (m & k & E & HR1 & HR2 & Hon & Hk).
  { destruct (decide (t ∈ tmo g)) as [Hi|Hi].
    - apply list_elem_of_split in Hi as (l1 & l2 & El). assert (l' = l1 ++ l2) as El'.
      { pose proof (pl_tmo _ _ _ P) as Nt. unfold l'. rewrite El in Nt |- *. apply list.NoDup_app in Nt as (N1 & Nd1 & N2). apply list.NoDup_cons in N2 as [Hn N2].
        rewrite list.filter_app, list.filter_cons, decide_False by (intros H; by apply H). rewrite !filter_others; [done|done|]. intros Hx. apply (Nd1 t Hx). by left. }
      rewrite El, fmap_app, fmap_cons, app_comm_cons in HR, Nd. apply ring_rotate in HR. rewrite <- app_comm_cons in HR. rewrite Permutation_app_comm, <- app_comm_cons in Nd.
      destruct (klist_rm_init_ok _ _ _ HR Nd) as (m & E & HR1 & HR2 & Hon). exists m, (NTick t :: (NTick <$> l2) ++ NTickHead :: (NTick <$> l1)). split_and!; try done.
      + rewrite El', fmap_app, app_comm_cons. by apply ring_rotate.
      + intros n. rewrite El, fmap_app, fmap_cons. rewrite !elem_of_cons, !elem_of_app, !elem_of_cons. tauto.
    - pose proof (ln_ring _ _ _ _ L (ISelf t)) as HS. cbn [rings] in HS. rewrite decide_True in HS by done.
      destruct (klist_rm_init_ok _ _ _ HS (NoDup_singleton _)) as (m & E & _ & HR2 & Hon). exists m, [NTick t]. split_and!; try done.
      + assert (l' = tmo g) as -> by (by apply filter_others). apply (ring_only (lks s) m [NTick t]); try done.
        intros x Hx ->%list_elem_of_singleton. apply elem_of_cons in Hx as [?|(y & [= <-] & Hy)%list_elem_of_fmap]; done.
      + intros n ->%list_elem_of_singleton. by left. }
  unfold tick_list_rm, with_links. rewrite E. cbn [mbind outcome_bind]. exists m. split; [by destruct s|]. split; cbn [with_q tasks objs lks rq set_rq set_lks]; [done| |by apply (queued_ext _ g)].
  apply (relink T O g T O _ (lks s) m k P P' L Hon); [|apply L]. intros i.
  assert (forall n j, n ∈ rings T O g j -> n ∈ k -> j = ITick \/ j = ISelf t) as Hkj.
  { intros n j Hn Hnk. pose proof (in_ring_of T O g P j n Hn) as <-. destruct (Hk n Hnk) as [->|Ht']; [cbn; case_decide; [by left|by right]|].
    left. by apply (in_ring_of T O g P ITick). }
  destruct i as [w| |x].
  - right. split; [by destruct w|]. intros n Hn Hnk. by destruct (Hkj n _ Hn Hnk).
  - left. done.
  - destruct (decide (x = t)) as [->|Hx].
    + left. cbn [rings put_tmo tmo]. by rewrite decide_True.
    + right. split; [cbn [rings put_tmo tmo]; specialize (Hin x Hx); by case_decide; case_decide; tauto|]. intros n Hn Hnk. destruct (Hkj n _ Hn Hnk) as [?|[=]]; done.
Qed.

(** The ticks that are left to a task. *)
Definition left (k : ktask_t) : Z := u64 (tick_match k - g_tick_count s).

Lemma tick_pos_ok val l2 : forall fuel l1,
  tmo g = l1 ++ l2 -> (length l2 <= fuel)%nat ->
  exists a b, l2 = a ++ b /\ tick_pos fuel (hd NTickHead (NTick <$> l2)) val s = Ret (hd NTickHead (NTick <$> b)) /\
    (forall x kx, x ∈ a -> tasks s !! x = Some kx -> left kx <= val) /\ (forall x kx, head b = Some x -> tasks s !! x = Some kx -> val < left kx).
Proof.
  induction l2 as [|x l2 IH]; intros fuel l1 E Hf.
  - exists [], []. split_and!; try done; [by destruct fuel; cbn; rewrite decide_True|by intros ? ? ?%elem_of_nil].
  - destruct fuel as [|fuel]; [cbn in Hf; lia|]. cbn [tick_pos hd fmap list_fmap]. rewrite decide_False by done. cbn [tick_entry mbind outcome_bind].
    destruct tick_ring as [HR Nd].
    assert (x ∈ T) as Hx by (apply (pl_tick _ _ _ (ko_placed _ _ KO)); rewrite E, elem_of_app, elem_of_cons; tauto).
    apply elem_of_dom in Hx as [kx Hkx]. rewrite (get_task_ok s x kx Hkx). cbn [mbind outcome_bind]. case_decide as Hlt.
    + exists [], (x :: l2). split_and!; try done; [by intros ? ? ?%elem_of_nil|]. intros y ky [= <-] Hy. rewrite Hkx in Hy. by injection Hy as <-.
    + rewrite (next_of_ok s (NTick x) (hd NTickHead (NTick <$> l2))).
      2: { apply (ring_next _ NTickHead (NTick <$> tmo g) (NTickHead :: (NTick <$> l1))); [done|]. rewrite E, fmap_app, fmap_cons. done. }
      cbn [mbind outcome_bind]. destruct (IH fuel (l1 ++ [x])) as (a & b & -> & -> & Ha & Hb); [by rewrite <- app_assoc|cbn in Hf; lia|].
      exists (x :: a), b. split_and!; try done. intros y ky [->|Hy]%elem_of_cons Hky; [|by apply (Ha y)]. rewrite Hkx in Hky. injection Hky as <-. unfold left. lia.
Qed.

Lemma tick_insert_ok t k :
  tasks s !! t = Some k -> t ∉ tmo g ->
  exists m l1 l2, tick_list_pri_insert t s = Ret (with_q m (rq s) s) /\ tmo g = l1 ++ l2 /\ kok (put_tmo (l1 ++ t :: l2) g) (with_q m (rq s) s) /\
    (forall x kx, x ∈ l1 -> tasks s !! x = Some kx -> left kx <= tick_remain k) /\ (forall x kx, head l2 = Some x -> tasks s !! x = Some kx -> tick_remain k < left kx).
Proof.
  intros Ht Hn. pose proof KO as [P L Q]. destruct tick_ring as [HR Nd]. unfold tick_list_pri_insert. rewrite (get_task_ok s t k Ht). cbn [mbind outcome_bind].
  rewrite (next_of_ok s NTickHead (hd NTickHead (NTick <$> tmo g))) by (by apply (ring_next _ _ _ [] _ _ HR)). cbn [mbind outcome_bind].
  destruct (tick_pos_ok (tick_remain k) (tmo g) (size (lks s)) []) as (l1 & l2 & El & -> & H1 & H2); [done| |].
  { pose proof (ring_size _ _ HR Nd) as Hs. cbn in Hs. rewrite length_fmap in Hs. lia. }
  cbn [mbind outcome_bind]. assert (t ∈ T) as HtT by (by apply elem_of_dom).
  assert (placed T O (put_tmo (l1 ++ t :: l2) g)) as P'.
  { apply placed_tmo; [done|rewrite <- Permutation_middle; apply list.NoDup_cons; rewrite <- El; split; [done|apply P]|].
    intros x. rewrite elem_of_app, elem_of_cons. intros [Hx|[->|Hx]]; [|done|]; apply (pl_tick _ _ _ P); rewrite El, elem_of_app; tauto. }
  assert (NTick t ∉ NTickHead :: (NTick <$> tmo g)) as Hout by (intros [?|(y & [= <-] & Hy)%list_elem_of_fmap]%elem_of_cons; done).
  pose proof (ln_ring _ _ _ _ L (ISelf t)) as HS. cbn [rings] in HS. rewrite decide_True in HS by done. destruct (ring_in _ _ (NTick t) HS ltac:(by left)) as (_ & _ & Hmem).
  assert (exists m, klist_insert (hd NTickHead (NTick <$> l2)) (NTick t) (lks s) = Ret m /\ ring m (NTickHead :: (NTick <$> l1 ++ t :: l2)) /\ only (NTick t :: NTickHead :: (NTick <$> tmo g)) (lks s) m) as (m & E & HR' & Hon).
  { rewrite El in HR, Nd, Hout |- *. destruct l2 as [|b l2].
    - rewrite app_nil_r in HR, Nd, Hout |- *. destruct (klist_insert_ok NTickHead (NTick <$> l1) (NTick t) (lks s) HR Nd Hout Hmem) as (m & E & HR' & Hon).
      exists m. split_and!; try done. by rewrite fmap_app.
    - rewrite fmap_app, fmap_cons in HR, Nd, Hout |- *. destruct (klist_insert_mid (NTickHead :: (NTick <$> l1)) (NTick b) (NTick <$> l2) (NTick t) (lks s)) as (m & E & HR' & Hon); [done..|].
      exists m. split; [exact E|]. rewrite ?fmap_app. split; [exact HR'|exact Hon]. }
  unfold with_links. rewrite E. cbn [mbind outcome_bind]. exists m, l1, l2. split; [by destruct s|]. split; [done|]. split; [|by split].
  split; cbn [with_q tasks objs lks rq set_rq set_lks]; [done| |by apply (queued_ext _ g)].
  apply (relink T O g T O _ (lks s) m _ P P' L Hon); [|apply L]. intros i. destruct i as [w| |x].
  - right. split; [by destruct w|]. intros n Hn' [->|Hk]%elem_of_cons; pose proof (in_ring_of T O g P _ _ Hn') as Ei; [cbn in Ei; by case_decide|].
    by rewrite (in_ring_of T O g P ITick _ Hk) in Ei.
  - left. done.
  - destruct (decide (x = t)) as [->|Hx].
    + left. cbn [rings put_tmo tmo]. rewrite decide_False; [done|]. intros [_ Hnt]. apply Hnt. rewrite elem_of_app, elem_of_cons. tauto.
    + right. assert (x ∈ l1 ++ t :: l2 <-> x ∈ tmo g) as Hin by (rewrite El, !elem_of_app, elem_of_cons; tauto).
      split; [cbn [rings put_tmo tmo]; by case_decide; case_decide; tauto|]. intros n Hn' [->|Hk]%elem_of_cons; pose proof (in_ring_of T O g P _ _ Hn') as Ei.
      * cbn in Ei. rewrite decide_False in Ei by done. congruence.
      * by rewrite (in_ring_of T O g P ITick _ Hk) in Ei.
Qed.
End Tick.

(** ** The task that runs *)

Lemma preferred_ok g s :
  kok g s -> (exists x p, wh g x = AtReady p) ->
  exists t l p, preferred_cpu_ready_task_get s = Ret t /\ 0 <= p < 62 /\ p = highest_pri (rq s) /\ rdy g p = t :: l /\ forall y q, wh g y = AtReady q -> p <= q.
Proof.
  intros KO (x & px & Hx). pose proof KO as [P L Q]. destruct (qu_high _ _ Q) as (H1 & H2 & H3). unfold preferred_cpu_ready_task_get.
  assert (forall y q, wh g y = AtReady q -> highest_pri (rq s) <= q /\ q < 62) as Hmin.
  { intros y q Hy. assert (y ∈ rdy g q) as Hin by (by apply (wh_in _ _ _ P)).
    destruct (decide (0 <= q < 62)) as [Hq|Hq]; [|rewrite (qu_out _ _ Q q Hq) in Hin; by apply elem_of_nil in Hin].
    split; [|lia]. destruct (decide (highest_pri (rq s) <= q)); [done|]. rewrite H2 in Hin by lia. by apply elem_of_nil in Hin. }
  destruct (Hmin x px Hx) as [Ha Hb]. specialize (H3 ltac:(lia)). rewrite (list_item_ok g s KO) by lia. destruct (rdy g (highest_pri (rq s))) as [|t l] eqn:El; [done|].
  exists t, l, (highest_pri (rq s)). split_and!; try done; try lia. intros y q Hy. by apply (Hmin y).
Qed.

(** [core_sched] ends with the most urgent ready task, when it may switch. *)
Lemma core_sched_ok g s :
  kok g s -> (exists x p, wh g x = AtReady p) ->
  exists a, core_sched s = Ret (set_g_active_task a (set_g_preferred_ready_task (if decide (a = g_active_task s) then g_preferred_ready_task s else a) s)) /\
    (0 < g_intrpt_nested_level s \/ 0 < g_sched_lock s -> a = g_active_task s) /\
    (~ (0 < g_intrpt_nested_level s \/ 0 < g_sched_lock s) -> head (rdy g (highest_pri (rq s))) = Some a /\ exists p, wh g a = AtReady p /\ forall y q, wh g y = AtReady q -> p <= q).
Proof.
  intros KO Hex. unfold core_sched. case_decide as Hn; [exists (g_active_task s); rewrite decide_True by done; split_and!; [by destruct s|done|tauto]|].
  case_decide as Hl; [exists (g_active_task s); rewrite decide_True by done; split_and!; [by destruct s|done|tauto]|].
  destruct (preferred_ok g s KO Hex) as (t & l & p & -> & Hp & Ep & El & Hmin). cbn [mbind outcome_bind]. exists t. split_and!.
  - case_decide as Ea; [subst t; by destruct s|done].
  - tauto.
  - intros _. rewrite <- Ep, El. split; [done|]. exists p. split; [|done]. apply (in_wh _ _ _ (ko_placed _ _ KO)). rewrite El. by left.
Qed.
