(* ===== verification/KTasks.v ===== *)
(** * Tasks and the lists they are in

    A task's state says which lists it is in; waiting tasks are sorted by priority,
    timeouts by time.  Moving one task keeps this for all others. *)

From stdpp Require Import gmap sorting.
From S2P Require Import Prelude KBits KList KKern KQueue.

(** ** Sorted lists *)

Definition sorted_on (f : Z -> Z) (l : list Z) : Prop := StronglySorted (fun x y => f x <= f y) l.

Lemma sorted_sub f l1 l2 t : sorted_on f (l1 ++ t :: l2) -> sorted_on f (l1 ++ l2).
Proof.
  unfold sorted_on. rewrite !StronglySorted_app, StronglySorted_cons. intros (H & H1 & _ & H2). split_and!; try done.
  intros x y Hx Hy. apply H; [done|by right].
Qed.

Lemma sorted_insert f l1 l2 t :
  sorted_on f (l1 ++ l2) -> (forall x, x ∈ l1 -> f x <= f t) -> (forall x, head l2 = Some x -> f t <= f x) -> sorted_on f (l1 ++ t :: l2).
Proof.
  unfold sorted_on. rewrite !StronglySorted_app, StronglySorted_cons. intros (H & H1 & H2) Ha Hb.
  assert (forall y, y ∈ l2 -> f t <= f y) as Hall.
  { destruct l2 as [|b l2]; [by intros y ?%elem_of_nil|]. apply StronglySorted_cons in H2 as [Hf _]. rewrite list.Forall_forall in Hf.
    intros y [->|Hy]%elem_of_cons; [by apply Hb|]. specialize (Hf y Hy). specialize (Hb b eq_refl). lia. }
  split_and!; try done; [|by apply list.Forall_forall].
  intros x y Hx [->|Hy]%elem_of_cons; [by apply Ha|by apply H].
Qed.

Lemma sorted_ext f f' l : (forall x, x ∈ l -> f' x = f x) -> sorted_on f l -> sorted_on f' l.
Proof.
  unfold sorted_on. induction l as [|a l IH]; intros H; [constructor|]. rewrite !StronglySorted_cons, !list.Forall_forall. intros [Ha Hl]. split.
  - intros y Hy. rewrite (H a) by (by left). rewrite (H y) by (by right). by apply Ha.
  - apply IH; [|done]. intros x Hx. apply H. by right.
Qed.

Definition rest (t : Z) (l : list Z) : list Z := filter (fun x => x <> t) l.

Lemma rest_app t l1 l2 : rest t (l1 ++ l2) = rest t l1 ++ rest t l2.
Proof. apply list.filter_app. Qed.
Lemma rest_cons_eq t l : rest t (t :: l) = rest t l.
Proof. unfold rest. rewrite list.filter_cons, decide_False; [done|]. intros H. by apply H. Qed.
Lemma rest_mid t l1 l2 : rest t (l1 ++ t :: l2) = rest t (l1 ++ l2).
Proof. by rewrite !rest_app, rest_cons_eq. Qed.
Lemma rest_out t l : t ∉ l -> rest t l = l.
Proof. apply filter_others. Qed.
Lemma rest_in t l x : x <> t -> x ∈ rest t l <-> x ∈ l.
Proof. intros H. unfold rest. rewrite list_elem_of_filter. tauto. Qed.
Lemma rest_not t l : t ∉ rest t l.
Proof. by intros [H _]%list_elem_of_filter. Qed.
Lemma rest_rest t l : rest t (rest t l) = rest t l.
Proof. apply rest_out, rest_not. Qed.

Lemma sorted_rest f t l : sorted_on f l -> sorted_on f (rest t l).
Proof.
  unfold sorted_on. induction l as [|a l IH]; [done|]. rewrite StronglySorted_cons. intros [Ha Hl]. unfold rest. rewrite list.filter_cons. case_decide; [|by apply IH].
  rewrite StronglySorted_cons. split; [|by apply IH]. rewrite list.Forall_forall in Ha |- *. intros y [_ Hy]%list_elem_of_filter. by apply Ha.
Qed.

(** ** One task moves *)

Record moved (t : Z) (g g' : ghost) : Prop := Moved {
  mv_lst : forall w, rest t (lst g' w) = rest t (lst g w);
  mv_tmo : rest t (tmo g') = rest t (tmo g)
}.

Lemma moved_refl t g : moved t g g.
Proof. done. Qed.
Lemma moved_trans t g1 g2 g3 : moved t g1 g2 -> moved t g2 g3 -> moved t g1 g3.
Proof. intros [A B] [C D]. split; [intros w; by rewrite C, A|by rewrite D, B]. Qed.

Lemma moved_enter t w l1 l2 v g : lst g w = l1 ++ l2 -> moved t g (put w (l1 ++ t :: l2) t v g).
Proof. intros E. split; [|done]. intros x. cbn [put lst]. destruct (decide (x = w)) as [->|Hx]; [by rewrite upd_eq, rest_mid, E|by rewrite upd_ne]. Qed.
Lemma moved_leave t w l1 l2 v g : lst g w = l1 ++ t :: l2 -> moved t g (put w (l1 ++ l2) t v g).
Proof. intros E. split; [|done]. intros x. cbn [put lst]. destruct (decide (x = w)) as [->|Hx]; [by rewrite upd_eq, E, rest_mid|by rewrite upd_ne]. Qed.
Lemma moved_tmo t l g : rest t l = rest t (tmo g) -> moved t g (put_tmo l g).
Proof. intros E. by split. Qed.

Lemma moved_wh T O T' O' t g g' x : placed T O g -> placed T' O' g' -> moved t g g' -> x <> t -> wh g' x = wh g x.
Proof.
  intros P P' [M _] Hx. assert (forall w, w <> Nowhere -> wh g' x = w <-> wh g x = w) as H.
  { intros w Hw. pose proof (pl_lst _ _ _ P w) as [_ H1]. pose proof (pl_lst _ _ _ P' w) as [_ H2]. specialize (H1 x). specialize (H2 x).
    rewrite <- (rest_in t) in H1, H2 by done. rewrite M in H2. tauto. }
  destruct (decide (wh g x = Nowhere)) as [E|E]; [|by apply H]. destruct (decide (wh g' x = Nowhere)) as [E'|E']; [congruence|].
  symmetry. by apply H.
Qed.

Lemma moved_tmo_in t g g' x : moved t g g' -> x <> t -> x ∈ tmo g' <-> x ∈ tmo g.
Proof. intros [_ M] Hx. by rewrite <- (rest_in t (tmo g')), M, rest_in. Qed.

(** ** Tasks *)

Definition waiting (k : ktask_t) : bool := match task_state k with K_PEND | K_PEND_SUSPENDED => true | _ => false end.
Definition sleeping (k : ktask_t) : bool := match task_state k with K_SLEEP | K_SLEEP_SUSPENDED => true | _ => false end.
Definition suspended (k : ktask_t) : bool := match task_state k with K_SUSPENDED | K_PEND_SUSPENDED | K_SLEEP_SUSPENDED => true | _ => false end.

Definition place_of (k : ktask_t) : place :=
  match task_state k with
  | K_RDY => AtReady (prio k)
  | K_PEND | K_PEND_SUSPENDED => match blk_obj k with Some o => AtObj o | None => Nowhere end
  | _ => Nowhere
  end.

(** A task whose fields agree with the lists it is in; [timed] says it has a timeout. *)
Record task_ok (w : place) (timed : Prop) (k : ktask_t) : Prop := TaskOk {
  tk_place : w = place_of k;
  tk_blk : waiting k = true -> is_Some (blk_obj k);
  tk_prio : 0 <= prio k < 62;
  tk_base : 0 <= b_prio k < 62;
  tk_tmo : timed -> (waiting k = true \/ sleeping k = true) /\ 0 <= tick_match k < 2 ^ 63;
  tk_sleep : sleeping k = true -> timed;
  tk_seed : task_state k <> K_SEED;
  tk_susp : suspended k = true -> 1 <= suspend_count k <= 255;
  tk_why : blk_state k <> BLK_INVALID
}.

Definition prio_of (s : kern) (t : Z) : Z := match tasks s !! t with Some k => prio k | None => 0 end.
Definition match_of (s : kern) (t : Z) : Z := match tasks s !! t with Some k => tick_match k | None => 0 end.

Record tok (g : ghost) (s : kern) : Prop := Tok {
  to_task : forall t k, tasks s !! t = Some k -> task_ok (wh g t) (t ∈ tmo g) k;
  to_wait : forall o, sorted_on (prio_of s) (wait g o);
  to_tmo : sorted_on (match_of s) (tmo g);
  to_now : 0 <= g_tick_count s < 2 ^ 62;
  to_pri : forall o b, objs s !! o = Some b -> blk_policy b = BLK_POLICY_PRI
}.

(** No timeout has passed. *)
Definition fresh (g : ghost) (s : kern) : Prop := forall t, t ∈ tmo g -> g_tick_count s < match_of s t.

(** A kernel in which one task is changed. *)
Definition with_task (t : Z) (k : ktask_t) (s : kern) : kern := set_tasks (<[t := k]> (tasks s)) s.

Lemma upd_task_ok t f s k : tasks s !! t = Some k -> upd_task t f s = Ret (with_task t (f k) s).
Proof. intros H. unfold upd_task, get_task. by rewrite H. Qed.

Lemma kok_with_task g s t k k' : kok g s -> tasks s !! t = Some k -> kok g (with_task t k' s).
Proof.
  intros [P L Q] Ht. assert (dom (<[t := k']> (tasks s)) = dom (tasks s)) as E by (apply dom_insert_lookup_L; by eexists).
  split; cbn [with_task tasks objs lks rq set_tasks]; rewrite ?E; done.
Qed.

Lemma sorted_moved t (f f' : Z -> Z) l l' :
  (forall x, x <> t -> f' x = f x) -> rest t l' = rest t l -> t ∉ l' -> sorted_on f l -> sorted_on f' l'.
Proof.
  intros Hf E Hn Hs. rewrite <- (rest_out t l' Hn), E. apply (sorted_ext f); [|by apply sorted_rest]. intros x Hx. apply Hf. intros ->. by apply rest_not in Hx.
Qed.

(** ** States after several writes *)

Lemma with_q_q m1 q1 m2 q2 s : with_q m2 q2 (with_q m1 q1 s) = with_q m2 q2 s.
Proof. done. Qed.
Lemma task_q t k m q s : with_task t k (with_q m q s) = with_q m q (with_task t k s).
Proof. done. Qed.
Lemma task_task t k1 k2 s : with_task t k2 (with_task t k1 s) = with_task t k2 s.
Proof. unfold with_task. cbn [tasks set_tasks]. by rewrite insert_insert_eq. Qed.
Lemma tasks_q m q s : tasks (with_q m q s) = tasks s.
Proof. done. Qed.
Lemma rq_q m q s : rq (with_q m q s) = q.
Proof. done. Qed.
Lemma rq_task t k s : rq (with_task t k s) = rq s.
Proof. done. Qed.
Lemma tasks_task t k s : tasks (with_task t k s) = <[t := k]> (tasks s).
Proof. done. Qed.
Create Rewrite HintDb kern.
#[export] Hint Rewrite with_q_q task_q task_task tasks_q rq_q rq_task tasks_task : kern.

Ltac kern := autorewrite with kern.
Ltac look_task := kern; first [apply lookup_insert_eq | rewrite lookup_insert_ne by done; done].

Lemma with_task_id t k s : tasks s !! t = Some k -> with_task t k s = s.
Proof. intros H. unfold with_task. rewrite insert_id by done. by destruct s. Qed.
Lemma with_q_id s : with_q (lks s) (rq s) s = s.
Proof. by destruct s. Qed.

(** ** What the task [t] has become

    [stp] follows one task through the writes of a call; [step1] says the invariant of
    the tasks holds again. *)

Record stp (t : Z) (k' : ktask_t) (g : ghost) (s : kern) (g' : ghost) (s' : kern) : Prop := Stp {
  sp_eq : exists m q, s' = with_q m q (with_task t k' s);
  sp_kok : kok g' s';
  sp_mv : moved t g g'
}.

Record step1 (t : Z) (k' : ktask_t) (g : ghost) (s : kern) (g' : ghost) (s' : kern) : Prop := Step1 {
  s1_stp : stp t k' g s g' s';
  s1_tok : tok g' s'
}.

Lemma sp_tasks t k' g s g' s' : stp t k' g s g' s' -> tasks s' = <[t := k']> (tasks s).
Proof. intros [(m & q & ->) _ _]. done. Qed.
Lemma sp_look t k' g s g' s' : stp t k' g s g' s' -> tasks s' !! t = Some k'.
Proof. intros H. rewrite (sp_tasks _ _ _ _ _ _ H). apply lookup_insert_eq. Qed.
Lemma sp_other t k' g s g' s' x : stp t k' g s g' s' -> x <> t -> tasks s' !! x = tasks s !! x.
Proof. intros H Hx. rewrite (sp_tasks _ _ _ _ _ _ H). by rewrite lookup_insert_ne. Qed.
Lemma sp_objs t k' g s g' s' : stp t k' g s g' s' -> objs s' = objs s.
Proof. intros [(m & q & ->) _ _]. done. Qed.
Lemma sp_mutexes t k' g s g' s' : stp t k' g s g' s' -> mutexes s' = mutexes s.
Proof. intros [(m & q & ->) _ _]. done. Qed.
Lemma sp_now t k' g s g' s' : stp t k' g s g' s' -> g_tick_count s' = g_tick_count s.
Proof. intros [(m & q & ->) _ _]. done. Qed.

Lemma stp_refl t k g s : kok g s -> tasks s !! t = Some k -> stp t k g s g s.
Proof. intros KO Ht. split; [|done|apply moved_refl]. exists (lks s), (rq s). by rewrite with_task_id, with_q_id. Qed.

Lemma stp_trans t k1 k2 g s g1 s1 g2 s2 : stp t k1 g s g1 s1 -> stp t k2 g1 s1 g2 s2 -> stp t k2 g s g2 s2.
Proof.
  intros [(m & q & ->) _ M1] [(m2 & q2 & ->) K2 M2]. split; [|done|by eapply moved_trans]. exists m2, q2. by kern.
Qed.

Lemma get_task_eq s t k : tasks s !! t = Some k -> get_task t s = Ret k.
Proof. intros H. unfold get_task. by rewrite H. Qed.

Lemma u64_id z : 0 <= z < 2 ^ 64 -> u64 z = z.
Proof. apply Z.mod_small. Qed.

Section Writes.
Context (t : Z) (k : ktask_t) (g0 : ghost) (s0 : kern) (g : ghost) (s : kern) (H : stp t k g0 s0 g s).

Lemma sp_get : get_task t s = Ret k.
Proof. apply get_task_eq. by eapply sp_look. Qed.

Lemma stp_upd f : exists s', upd_task t f s = Ret s' /\ stp t (f k) g0 s0 g s'.
Proof.
  rewrite (upd_task_ok t f s k) by (by eapply sp_look). eexists. split; [done|]. pose proof (sp_look _ _ _ _ _ _ H) as Hl.
  destruct H as [(m & q & ->) K M]. split; [exists m, q; by kern| |done]. by eapply kok_with_task.
Qed.

Lemma stp_more m q g' : kok g' (with_q m q s) -> moved t g g' -> stp t k g0 s0 g' (with_q m q s).
Proof. destruct H as [(m1 & q1 & ->) K M]. intros K' M'. split; [by exists m, q|done|by eapply moved_trans]. Qed.

Lemma stp_tick_rm : exists s', tick_list_rm t s = Ret s' /\ stp t k g0 s0 (put_tmo (rest t (tmo g)) g) s'.
Proof.
  destruct (tick_rm_ok g s (sp_kok _ _ _ _ _ _ H) t) as (m & E & K); [apply elem_of_dom; eexists; by eapply sp_look|].
  eexists. split; [exact E|]. apply stp_more; [done|]. apply moved_tmo. apply rest_rest.
Qed.

Lemma stp_wait_rm o : wh g t = AtObj o -> exists l s', with_links (klist_rm (NTask t)) s = Ret s' /\ stp t k g0 s0 (put (AtObj o) l t Nowhere g) s'.
Proof.
  intros Hw. destruct (lst_in _ _ _ (ko_placed _ _ (sp_kok _ _ _ _ _ _ H)) t (AtObj o) ltac:(done) Hw) as (l1 & l2 & El).
  destruct (wait_rm_ok g s (sp_kok _ _ _ _ _ _ H) o t l1 l2 El) as (m & E & K). exists (l1 ++ l2). eexists. split; [exact E|].
  apply stp_more; [done|]. by apply moved_leave.
Qed.

Lemma stp_ready_add :
  wh g t = Nowhere -> 0 <= prio k < 62 -> exists s', ready_list_add t s = Ret s' /\ stp t k g0 s0 (put (AtReady (prio k)) (rdy g (prio k) ++ [t]) t (AtReady (prio k)) g) s'.
Proof.
  intros Hw Hp. destruct (ready_add_tail_ok g s (sp_kok _ _ _ _ _ _ H) t k (sp_look _ _ _ _ _ _ H) Hp Hw) as (m & q & E & K).
  eexists. split; [exact E|]. apply stp_more; [done|]. apply moved_enter. by rewrite app_nil_r.
Qed.

Lemma stp_ready_head :
  wh g t = Nowhere -> 0 <= prio k < 62 -> exists s', ready_list_add_head t s = Ret s' /\ stp t k g0 s0 (put (AtReady (prio k)) (t :: rdy g (prio k)) t (AtReady (prio k)) g) s'.
Proof.
  intros Hw Hp. destruct (ready_add_head_ok g s (sp_kok _ _ _ _ _ _ H) t k (sp_look _ _ _ _ _ _ H) Hp Hw) as (m & q & E & K).
  eexists. split; [exact E|]. apply stp_more; [done|]. by apply (moved_enter t _ []).
Qed.

Lemma stp_ready_rm :
  wh g t = AtReady (prio k) -> 0 <= prio k < 62 -> others_ready g t ->
  exists l s', ready_list_rm t s = Ret s' /\ stp t k g0 s0 (put (AtReady (prio k)) l t Nowhere g) s'.
Proof.
  intros Hw Hp Ho. destruct (lst_in _ _ _ (ko_placed _ _ (sp_kok _ _ _ _ _ _ H)) t (AtReady (prio k)) ltac:(done) Hw) as (l1 & l2 & El).
  destruct (ready_rm_ok g s (sp_kok _ _ _ _ _ _ H) t k (sp_look _ _ _ _ _ _ H) l1 l2 Hp El Ho) as (m & q & E & K).
  exists (l1 ++ l2). eexists. split; [exact E|]. apply stp_more; [done|]. by apply moved_leave.
Qed.

(** A waiting task goes behind the ones that are as urgent. *)
Lemma stp_pend_add o :
  wh g t = Nowhere -> o ∈ dom (objs s) -> (forall x, x ∈ wait g o -> x ∈ dom (tasks s)) -> sorted_on (prio_of s) (wait g o) ->
  exists l1 l2 s', pend_list_add (NBlk o) t s = Ret s' /\ stp t k g0 s0 (put (AtObj o) (l1 ++ t :: l2) t (AtObj o) g) s' /\ wait g o = l1 ++ l2 /\
    sorted_on (prio_of s') (l1 ++ t :: l2) /\ (forall x, x ∈ l1 -> prio_of s x <= prio k) /\ (forall x, x ∈ l2 -> prio k < prio_of s x).
Proof.
  intros Hw Ho Hd Hs. destruct (pend_add_ok g s (sp_kok _ _ _ _ _ _ H) o t k (sp_look _ _ _ _ _ _ H) Hw Ho) as (m & l1 & l2 & E & El & K & H1 & H2).
  assert (prio_of s t = prio k) as Et by (unfold prio_of; by rewrite (sp_look _ _ _ _ _ _ H)).
  assert (forall x, x ∈ wait g o -> exists kx, tasks s !! x = Some kx /\ prio_of s x = prio kx) as Hx.
  { intros x [kx Hkx]%Hd%elem_of_dom. exists kx. split; [done|]. unfold prio_of. by rewrite Hkx. }
  assert (forall x, x ∈ l1 -> prio_of s x <= prio k) as Ha.
  { intros x Hin. destruct (Hx x) as (kx & Hkx & ->); [rewrite El, elem_of_app; tauto|]. by eapply H1. }
  assert (forall x, head l2 = Some x -> prio k < prio_of s x) as Hb.
  { intros x Hhd. destruct (Hx x) as (kx & Hkx & ->); [rewrite El, elem_of_app; right; by apply head_Some_elem_of|]. by eapply H2. }
  assert (sorted_on (prio_of s) (l1 ++ t :: l2)) as Hsrt.
  { apply sorted_insert; [by rewrite <- El|by rewrite Et|]. intros x Hhd. rewrite Et. specialize (Hb x Hhd). lia. }
  exists l1, l2. eexists. split; [exact E|]. split; [apply stp_more; [done|by apply moved_enter]|]. split_and!; [done|done|done|].
  intros x Hin. destruct l2 as [|b l2]; [by apply elem_of_nil in Hin|]. specialize (Hb b eq_refl). apply elem_of_cons in Hin as [->|Hin]; [done|].
  unfold sorted_on in Hs. rewrite El, StronglySorted_app, StronglySorted_cons, list.Forall_forall in Hs. destruct Hs as (_ & _ & Hs & _). specialize (Hs x Hin). cbn in Hs. lia.
Qed.

(** A timeout goes behind the ones that are not later. *)
Lemma stp_tick_insert time :
  tok g0 s0 -> fresh g0 s0 -> tmo g = tmo g0 -> t ∉ tmo g -> 0 < time <= 2 ^ 62 ->
  exists l s', tick_list_insert t time s = Ret s' /\ stp t (set_tick (g_tick_count s + time) time k) g0 s0 (put_tmo l g) s' /\
    t ∈ l /\ sorted_on (match_of s') l.
Proof.
  intros TO Hf Etm Hn Htime. pose proof (to_now _ _ TO) as Hnow. pose proof (sp_now _ _ _ _ _ _ H) as Enow. unfold tick_list_insert. rewrite u64_id by lia.
  destruct (stp_upd (set_tick (g_tick_count s + time) time)) as (s1 & -> & H1). cbn [mbind outcome_bind]. pose proof (sp_look _ _ _ _ _ _ H1) as Hl1.
  pose proof (sp_now _ _ _ _ _ _ H1) as Enow1.
  destruct (tick_insert_ok g s1 (sp_kok _ _ _ _ _ _ H1) t _ Hl1 Hn) as (m & l1 & l2 & E & El & K & Ha & Hb). cbn [tick_remain set_tick] in Ha, Hb.
  exists (l1 ++ t :: l2). eexists. split; [exact E|].
  assert (forall x, x ∈ tmo g -> exists kx, tasks s1 !! x = Some kx /\ match_of s1 x = tick_match kx /\ left s1 kx = tick_match kx - g_tick_count s /\ match_of s1 x = match_of s0 x) as Hx.
  { intros x Hin. assert (x <> t) as Hne by (by intros ->). rewrite Etm in Hin. pose proof (Hf x Hin) as Hlt. unfold match_of in Hlt |- *. rewrite (sp_other _ _ _ _ _ _ x H1 Hne).
    destruct (tasks s0 !! x) as [kx|] eqn:Hkx; [|lia]. exists kx. split_and!; try done. unfold left. rewrite u64_id; [lia|].
    destruct (tk_tmo _ _ _ (to_task _ _ TO x kx Hkx) Hin). lia. }
  assert (match_of s1 t = g_tick_count s + time) as Hmt by (unfold match_of; by rewrite Hl1).
  split_and!; [|rewrite elem_of_app, elem_of_cons; tauto|].
  - destruct H1 as [(m1 & q1 & ->) K1 M1]. split; [by eexists _, _|done|]. eapply moved_trans; [exact M1|]. apply moved_tmo. by rewrite rest_mid, El.
  - change (sorted_on (match_of s1) (l1 ++ t :: l2)). apply sorted_insert.
    + rewrite <- El. apply (sorted_ext (match_of s0)); [|rewrite Etm; apply TO]. intros x Hin. by destruct (Hx x Hin) as (kx & _ & _ & _ & ->).
    + intros x Hin. destruct (Hx x) as (kx & Hkx & -> & Hl & _); [rewrite El, elem_of_app; tauto|]. rewrite Hmt. specialize (Ha x kx Hin Hkx). lia.
    + intros x Hhd. destruct (Hx x) as (kx & Hkx & -> & Hl & _); [rewrite El, elem_of_app; right; by apply head_Some_elem_of|]. rewrite Hmt. specialize (Hb x kx Hhd Hkx). lia.
Qed.
End Writes.

(** ** The invariant holds again *)

Section Settle.
Context (t : Z) (k k' : ktask_t) (g : ghost) (s : kern) (g' : ghost) (s' : kern).
Context (KO : kok g s) (TO : tok g s) (Ht : tasks s !! t = Some k) (H : stp t k' g s g' s').

Lemma stp_wh x : x <> t -> wh g' x = wh g x.
Proof. intros Hx. apply (moved_wh _ _ _ _ t g g' x (ko_placed _ _ KO) (ko_placed _ _ (sp_kok _ _ _ _ _ _ H)) (sp_mv _ _ _ _ _ _ H) Hx). Qed.

Lemma stp_tmo x : x <> t -> x ∈ tmo g' <-> x ∈ tmo g.
Proof. intros Hx. apply (moved_tmo_in t g g' x (sp_mv _ _ _ _ _ _ H) Hx). Qed.

Lemma stp_wait o : (wh g' t <> AtObj o) -> wait g' o = rest t (wait g o).
Proof.
  intros Hw. rewrite <- (mv_lst _ _ _ (sp_mv _ _ _ _ _ _ H)). symmetry. apply rest_out. intros Hin.
  by apply (in_wh _ _ _ (ko_placed _ _ (sp_kok _ _ _ _ _ _ H))) in Hin.
Qed.

Lemma stp_prio x : x <> t -> prio_of s' x = prio_of s x.
Proof. intros Hx. unfold prio_of. by rewrite (sp_other _ _ _ _ _ _ x H Hx). Qed.
Lemma stp_match x : x <> t -> match_of s' x = match_of s x.
Proof. intros Hx. unfold match_of. by rewrite (sp_other _ _ _ _ _ _ x H Hx). Qed.

Lemma settle :
  task_ok (wh g' t) (t ∈ tmo g') k' ->
  (forall o, wh g' t = AtObj o -> sorted_on (prio_of s') (wait g' o)) -> (t ∈ tmo g' -> sorted_on (match_of s') (tmo g')) -> step1 t k' g s g' s'.
Proof.
  intros Hok Hw Hm. split; [done|]. pose proof (sp_kok _ _ _ _ _ _ H) as KO'. destruct TO as [T1 T2 T3 T4 T5]. split.
  - intros x kx Hx. destruct (decide (x = t)) as [->|Hne]; [rewrite (sp_look _ _ _ _ _ _ H) in Hx; by injection Hx as <-|].
    rewrite (sp_other _ _ _ _ _ _ x H Hne) in Hx. destruct (T1 x kx Hx) as [K1 K2 K3 K4 K5 K6 K7 K8 K9]. split; try done; rewrite ?stp_wh, ?stp_tmo by done; done.
  - intros o. destruct (decide (wh g' t = AtObj o)) as [Hi|Hi]; [by apply Hw|].
    apply (sorted_moved t (prio_of s) _ (wait g o)); [apply stp_prio|apply (sp_mv _ _ _ _ _ _ H)| |apply T2].
    intros Hin. by apply (in_wh _ _ _ (ko_placed _ _ KO')) in Hin.
  - destruct (decide (t ∈ tmo g')) as [Hi|Hi]; [by apply Hm|]. apply (sorted_moved t (match_of s) _ (tmo g)); [apply stp_match|apply (sp_mv _ _ _ _ _ _ H)|done|apply T3].
  - by rewrite (sp_now _ _ _ _ _ _ H).
  - rewrite (sp_objs _ _ _ _ _ _ H). apply T5.
Qed.

(** The order by time, when the task keeps its timeout. *)
Lemma tmo_kept : tmo g' = tmo g -> tick_match k' = tick_match k -> sorted_on (match_of s') (tmo g').
Proof.
  intros E Em. rewrite E. apply (sorted_ext (match_of s)); [|apply TO]. intros x _. destruct (decide (x = t)) as [->|Hx]; [|by apply stp_match].
  unfold match_of. by rewrite (sp_look _ _ _ _ _ _ H), Ht.
Qed.
Lemma wait_kept o : wait g' o = wait g o -> prio k' = prio k -> sorted_on (prio_of s') (wait g' o).
Proof.
  intros E Em. rewrite E. apply (sorted_ext (prio_of s)); [|apply TO]. intros x _. destruct (decide (x = t)) as [->|Hx]; [|by apply stp_prio].
  unfold prio_of. by rewrite (sp_look _ _ _ _ _ _ H), Ht.
Qed.

Lemma fresh_kept : fresh g s -> (t ∈ tmo g' -> g_tick_count s < tick_match k') -> fresh g' s'.
Proof.
  intros Hf Hk x Hx. rewrite (sp_now _ _ _ _ _ _ H). destruct (decide (x = t)) as [->|Hne].
  - unfold match_of. rewrite (sp_look _ _ _ _ _ _ H). by apply Hk.
  - rewrite stp_match by done. apply Hf. by apply stp_tmo.
Qed.
End Settle.
