(* ===== verification/KSteps.v ===== *)
(** * One task of the kernel changes its state

    The parts of the calls that move a single task from a list to another, and those of
    [task_pri_change] that change its priority. *)

From stdpp Require Import gmap sorting.
From S2P Require Import Prelude KBits KList KKern KCalls KQueue KTasks.

Lemma wh_put w l t v g : wh (put w l t v g) t = v.
Proof. apply upd_eq. Qed.
Lemma not_rest t l : t ∈ rest t l -> False.
Proof. apply rest_not. Qed.

(** [run L as s H] runs the next call by the lemma [L]. *)
Tactic Notation "run" constr(L) "as" simple_intropattern(p) := destruct L as p; cbn [mbind outcome_bind].

Lemma upd_id t s s' : upd_task t id s = Ret s' -> s' = s.
Proof. unfold upd_task, get_task. destruct (tasks s !! t) as [k|] eqn:E; [|done]. cbn. intros [= <-]. rewrite insert_id by done. by destruct s. Qed.

(** [follow E] runs the goal along the successful sequence [E]; writes of [id] in [E] are none. *)
Ltac follow_one H x := first [apply upd_id in H; subst x | rewrite H; cbn [mbind outcome_bind]; clear H].
Ltac follow E :=
  repeat (match type of E with mbind _ _ = Ret _ => let x := fresh "x" in let H := fresh "H" in bind_inv E as x H; cbv beta in E; follow_one H x end);
  match type of E with upd_task _ id _ = _ => apply upd_id in E; rewrite <- E | _ => rewrite E; cbn [mbind outcome_bind] end.

Section Settled.
Context (t : Z) (k k' : ktask_t) (g : ghost) (s : kern) (g' : ghost) (s' : kern).
Context (KO : kok g s) (TO : tok g s) (Ht : tasks s !! t = Some k) (H : stp t k' g s g' s').

(** A task that neither waits nor sleeps. *)
Lemma settle_free :
  wh g' t = place_of k' -> t ∉ tmo g' -> waiting k' = false -> sleeping k' = false -> task_state k' <> K_SEED ->
  (suspended k' = true -> 1 <= suspend_count k' <= 255) -> blk_state k' <> BLK_INVALID -> 0 <= prio k' < 62 -> 0 <= b_prio k' < 62 -> step1 t k' g s g' s'.
Proof.
  intros Hw Hn Hwa Hsl Hse Hsu Hwhy Hp Hb. apply (settle t k' g s g' s' KO TO H).
  - by split; rewrite ?Hwa, ?Hsl.
  - intros o E. rewrite Hw in E. unfold place_of in E. unfold waiting in Hwa. by destruct (task_state k').
  - by intros ?%Hn.
Qed.

(** A task that stays where it is. *)
Lemma settle_kept : g' = g -> prio k' = prio k -> tick_match k' = tick_match k -> task_ok (wh g t) (t ∈ tmo g) k' -> step1 t k' g s g' s'.
Proof.
  intros -> Ep Em Hok. apply (settle t k' g s g s' KO TO H); [done|intros o _; by apply (wait_kept t k k' g s g s' TO Ht H)|intros _; by apply (tmo_kept t k k' g s g s' TO Ht H)].
Qed.
End Settled.

(** A task whose record changes but not where it is. *)
Lemma task_ok_ext w T k k' :
  task_ok w T k -> place_of k' = place_of k -> waiting k' = waiting k -> sleeping k' = sleeping k -> blk_obj k' = blk_obj k -> prio k' = prio k -> b_prio k' = b_prio k ->
  tick_match k' = tick_match k -> blk_state k' <> BLK_INVALID -> task_state k' <> K_SEED -> (suspended k' = true -> 1 <= suspend_count k' <= 255) -> task_ok w T k'.
Proof. intros [K1 K2 K3 K4 K5 K6 K7 K8 K9] E1 E2 E3 E4 E5 E6 E7 H1 H2 H3. split; rewrite ?E1, ?E2, ?E3, ?E4, ?E5, ?E6, ?E7; done. Qed.

Ltac rec_ok Est :=
  eapply task_ok_ext; [eassumption|..]; unfold place_of, waiting, sleeping, suspended;
  cbn [task_state blk_obj prio b_prio tick_match blk_state suspend_count set_task_state set_suspend_count set_blk_state set_time_slice set_time_total set_cancel]; rewrite ?Est; try done; try lia.

Section One.
Context (g : ghost) (s : kern) (KO : kok g s) (TO : tok g s) (t : Z) (k : ktask_t) (Ht : tasks s !! t = Some k).

Lemma self_ok : task_ok (wh g t) (t ∈ tmo g) k.
Proof. by apply TO. Qed.

Lemma ready_at : task_state k = K_RDY -> wh g t = AtReady (prio k) /\ t ∉ tmo g.
Proof.
  intros E. pose proof self_ok as [K1 K2 K3 K4 K5 K6 K7 K8 K9]. split; [rewrite K1; unfold place_of; by rewrite E|].
  intros [[H|H] _]%K5; unfold waiting, sleeping in H; by rewrite E in H.
Qed.

Lemma waiting_at : waiting k = true -> exists o, blk_obj k = Some o /\ wh g t = AtObj o /\ o ∈ dom (objs s).
Proof.
  intros E. pose proof self_ok as [K1 K2 K3 K4 K5 K6 K7 K8 K9]. destruct (K2 E) as [o Ho]. assert (wh g t = AtObj o) as Hw.
  { rewrite K1. unfold place_of, waiting in *. rewrite Ho. by destruct (task_state k). }
  exists o. split_and!; [done|done|]. by apply (pl_obj _ _ _ (ko_placed _ _ KO) t).
Qed.

Lemma nowhere_at : waiting k = false -> task_state k <> K_RDY -> wh g t = Nowhere.
Proof. intros E Hn. rewrite (tk_place _ _ _ self_ok). unfold place_of, waiting in *. by destruct (task_state k). Qed.

Lemma timeless : waiting k = false -> sleeping k = false -> t ∉ tmo g.
Proof. intros E1 E2 [[H|H] _]%(tk_tmo _ _ _ self_ok); congruence. Qed.

(** Only the record changes. *)
Lemma record_step f :
  prio (f k) = prio k -> tick_match (f k) = tick_match k -> task_ok (wh g t) (t ∈ tmo g) (f k) -> exists s', upd_task t f s = Ret s' /\ step1 t (f k) g s g s'.
Proof.
  intros Ep Em Hok. destruct (stp_upd t k g s g s (stp_refl t k g s KO Ht) f) as (s' & E & H). exists s'. split; [done|]. by apply (settle_kept t k (f k) g s g s').
Qed.

(** [krhino_task_sleep]. *)
Lemma sleep_step time :
  task_state k = K_RDY -> others_ready g t -> fresh g s -> 0 < time <= 2 ^ 62 ->
  exists g' s', (s ← upd_task t (set_task_state K_SLEEP) s; s ← tick_list_insert t time s; ready_list_rm t s) = Ret s' /\
    step1 t (set_tick (g_tick_count s + time) time (set_task_state K_SLEEP k)) g s g' s'.
Proof.
  intros Hst Ho Hf Htime. destruct (ready_at Hst) as [Hw Hn]. pose proof self_ok as [K1 K2 K3 K4 K5 K6 K7 K8 K9]. pose proof (stp_refl t k g s KO Ht) as H0.
  run (stp_upd _ _ _ _ _ _ H0 (set_task_state K_SLEEP)) as (s1 & -> & H1).
  run (stp_tick_insert _ _ _ _ _ _ H1 time TO Hf eq_refl Hn Htime) as (l & s2 & -> & H2 & Hin & Hsrt). rewrite (sp_now _ _ _ _ _ _ H1) in H2.
  run (stp_ready_rm _ _ _ _ _ _ H2 Hw K3 Ho) as (l' & s3 & E & H3). eexists _, s3. split; [done|].
  apply (settle _ _ _ _ _ _ KO TO H3); [| |intros _].
  - rewrite wh_put. split; try done. intros _. split; [by right|]. cbn. pose proof (to_now _ _ TO). lia.
  - rewrite wh_put. done.
  - apply (sorted_ext (match_of s2)); [|exact Hsrt]. intros x _. unfold match_of. by rewrite (sp_tasks _ _ _ _ _ _ H3), (sp_tasks _ _ _ _ _ _ H2).
Qed.

(** [pend_to_blk_obj]. *)
Definition pended (o timeout : Z) (k : ktask_t) : ktask_t :=
  let k := set_task_state K_PEND (set_blk_obj (Some o) k) in
  if decide (timeout <> RHINO_WAIT_FOREVER) then set_tick (g_tick_count s + timeout) timeout k else k.

Lemma pend_step o timeout :
  task_state k = K_RDY -> others_ready g t -> fresh g s -> timeout = RHINO_WAIT_FOREVER \/ 0 < timeout <= 2 ^ 62 -> o ∈ dom (objs s) ->
  exists g' s' l1 l2, pend_to_blk_obj o t timeout s = Ret s' /\ step1 t (pended o timeout k) g s g' s' /\
    wait g o = l1 ++ l2 /\ wait g' o = l1 ++ t :: l2 /\ (forall x, x ∈ l1 -> prio_of s x <= prio k) /\ (forall x, x ∈ l2 -> prio k < prio_of s x) /\
    (t ∈ tmo g' -> timeout <> RHINO_WAIT_FOREVER).
Proof.
  intros Hst Ho Hf Htime Hob. destruct (ready_at Hst) as [Hw Hn]. pose proof self_ok as [K1 K2 K3 K4 K5 K6 K7 K8 K9]. pose proof (stp_refl t k g s KO Ht) as H0. unfold pend_to_blk_obj.
  run (stp_upd _ _ _ _ _ _ H0 (set_blk_obj (Some o))) as (s1 & -> & H1).
  assert (exists l s2, (if decide (timeout <> RHINO_WAIT_FOREVER) then tick_list_insert t timeout s1 else Ret s1) = Ret s2 /\
    stp t (if decide (timeout <> RHINO_WAIT_FOREVER) then set_tick (g_tick_count s + timeout) timeout (set_blk_obj (Some o) k) else set_blk_obj (Some o) k) g s (put_tmo l g) s2 /\
    (t ∈ l -> timeout <> RHINO_WAIT_FOREVER /\ sorted_on (match_of s2) l)) as (l & s2 & -> & H2 & Hl).
  { case_decide as Hto.
    - run (stp_tick_insert _ _ _ _ _ _ H1 timeout TO Hf eq_refl Hn ltac:(destruct Htime; [done|lia])) as (l & s2 & -> & H2 & Hin & Hsrt). rewrite (sp_now _ _ _ _ _ _ H1) in H2. by exists l, s2.
    - exists (tmo g), s1. split_and!; [done| |by intros ?%Hn]. by destruct g. }
  cbn [mbind outcome_bind].
  run (stp_upd _ _ _ _ _ _ H2 (set_task_state K_PEND)) as (s3 & -> & H3). set (k3 := set_task_state _ _) in H3.
  assert (k3 = pended o timeout k /\ prio k3 = prio k) as [E3 Ep] by (unfold k3, pended; by case_decide). rewrite E3 in *.
  run (stp_ready_rm _ _ _ _ _ _ H3 ltac:(by rewrite Ep) ltac:(by rewrite Ep) Ho) as (l' & s4 & -> & H4).
  apply elem_of_dom in Hob as [b Hb]. unfold get_obj. rewrite (sp_objs _ _ _ _ _ _ H4), Hb. cbn [mbind outcome_bind]. rewrite (to_pri _ _ TO o b Hb).
  run (stp_pend_add _ _ _ _ _ _ H4 o) as (l1 & l2 & s5 & -> & H5 & El & Hsrt & Ha & Hbd).
  - apply wh_put.
  - rewrite (sp_objs _ _ _ _ _ _ H4). by apply elem_of_dom.
  - intros x Hx. apply (pl_task _ _ _ (ko_placed _ _ (sp_kok _ _ _ _ _ _ H4))). by rewrite (in_wh _ _ _ (ko_placed _ _ (sp_kok _ _ _ _ _ _ H4)) x (AtObj o) Hx).
  - apply (sorted_moved t (prio_of s) _ (wait g o)); [intros x Hx; by apply (stp_prio _ _ _ _ _ _ H4)|by apply (sp_mv _ _ _ _ _ _ H4)| |apply TO].
    intros Hin. apply (in_wh _ _ _ (ko_placed _ _ (sp_kok _ _ _ _ _ _ H4))) in Hin. by rewrite wh_put in Hin.
  - assert (wait g o = l1 ++ l2) as El' by (by rewrite <- El; cbn; rewrite upd_ne).
    assert (forall x, x ∈ wait g o -> prio_of s4 x = prio_of s x) as Hpx.
    { intros x Hx. apply (stp_prio _ _ _ _ _ _ H4). intros ->. apply (in_wh _ _ _ (ko_placed _ _ KO)) in Hx. congruence. }
    rewrite El' in Hpx. setoid_rewrite elem_of_app in Hpx. rewrite Ep in Ha, Hbd.
    exists (put (AtObj o) (l1 ++ t :: l2) t (AtObj o) (put (AtReady (prio (pended o timeout k))) l' t Nowhere (put_tmo l g))), s5, l1, l2. split_and!; [done| |done|cbn; by rewrite upd_eq|intros x Hx; rewrite <- Hpx by tauto; by apply Ha|intros x Hx; rewrite <- Hpx by tauto; by apply Hbd|by intros [? _]%Hl].
    apply (settle _ _ _ _ _ _ KO TO H5); [| |].
    + rewrite wh_put. assert (task_state (pended o timeout k) = K_PEND /\ blk_obj (pended o timeout k) = Some o /\ b_prio (pended o timeout k) = b_prio k /\ blk_state (pended o timeout k) = blk_state k) as (E1 & E2 & E4 & E5) by (unfold pended; by case_decide).
      split; unfold place_of, waiting, sleeping, suspended; rewrite ?E1, ?E2, ?E4, ?E5, ?Ep; try done. intros [Hto _]%Hl. split; [by left|]. unfold pended. rewrite decide_True by done. cbn. pose proof (to_now _ _ TO). destruct Htime; [done|lia].
    + intros o' [= <-]%(eq_trans (eq_sym (wh_put _ _ _ _ _))). cbn. rewrite upd_eq. exact Hsrt.
    + intros [_ Hs]%Hl. apply (sorted_ext (match_of s2)); [|exact Hs]. intros x _. unfold match_of. rewrite (sp_tasks _ _ _ _ _ _ H5), (sp_tasks _ _ _ _ _ _ H2).
      destruct (decide (x = t)) as [->|Hx]; [|by rewrite !lookup_insert_ne]. rewrite !lookup_insert_eq. unfold pended. by case_decide.
Qed.

(** ** Tasks that stop to wait or to sleep, start or stop to be ready *)

(** What such a task has become: [k'] neither waits nor sleeps. *)
Definition freed (k' : ktask_t) : Prop :=
  waiting k' = false /\ sleeping k' = false /\ task_state k' <> K_SEED /\ (suspended k' = true -> 1 <= suspend_count k' <= 255) /\
  blk_state k' <> BLK_INVALID /\ prio k' = prio k /\ b_prio k' = b_prio k.

Lemma freed_step k' g' s' : stp t k' g s g' s' -> freed k' -> wh g' t = place_of k' -> t ∉ tmo g' -> step1 t k' g s g' s' /\ t ∉ tmo g'.
Proof.
  intros H (F1 & F2 & F3 & F4 & F5 & F6 & F7) Hw Hn. pose proof self_ok as [K1 K2 K3 K4 K5 K6 K7 K8 K9]. split; [|done].
  apply (settle_free t k' g s g' s' KO TO H); try done; rewrite ?F6, ?F7; done.
Qed.

Lemma place_ready k' : task_state k' = K_RDY -> place_of k' = AtReady (prio k').
Proof. intros E. unfold place_of. by rewrite E. Qed.
Lemma place_out k' : waiting k' = false -> task_state k' <> K_RDY -> place_of k' = Nowhere.
Proof. unfold place_of, waiting. by destruct (task_state k'). Qed.

(** Out of the lists of waiting tasks and of timeouts, and ready. *)
Lemma unwait_ready f :
  waiting k = true -> freed (f k) -> task_state (f k) = K_RDY ->
  exists g' s', (s ← tick_list_rm t s; s ← with_links (klist_rm (NTask t)) s; s ← ready_list_add t s; upd_task t f s) = Ret s' /\ step1 t (f k) g s g' s' /\ t ∉ tmo g'.
Proof.
  intros Hwa Hfr Hst. destruct (waiting_at Hwa) as (o & Ho & Hw & _). pose proof self_ok as [K1 K2 K3 K4 K5 K6 K7 K8 K9].
  run (stp_tick_rm _ _ _ _ _ _ (stp_refl t k g s KO Ht)) as (s1 & -> & H1).
  run (stp_wait_rm _ _ _ _ _ _ H1 o Hw) as (l & s2 & -> & H2).
  run (stp_ready_add _ _ _ _ _ _ H2 (wh_put _ _ _ _ _) K3) as (s3 & -> & H3).
  run (stp_upd _ _ _ _ _ _ H3 f) as (s4 & -> & H4). eexists _, s4. split; [done|].
  eapply freed_step; [exact H4|done| |apply rest_not]. rewrite wh_put, place_ready by done. by destruct Hfr as (_ & _ & _ & _ & _ & -> & _).
Qed.

(** Out of the lists of waiting tasks and of timeouts. *)
Lemma unwait_out f :
  waiting k = true -> freed (f k) -> task_state (f k) <> K_RDY ->
  exists g' s', (s ← tick_list_rm t s; s ← with_links (klist_rm (NTask t)) s; upd_task t f s) = Ret s' /\ step1 t (f k) g s g' s' /\ t ∉ tmo g'.
Proof.
  intros Hwa Hfr Hst. destruct (waiting_at Hwa) as (o & Ho & Hw & _).
  run (stp_tick_rm _ _ _ _ _ _ (stp_refl t k g s KO Ht)) as (s1 & -> & H1).
  run (stp_wait_rm _ _ _ _ _ _ H1 o Hw) as (l & s2 & -> & H2).
  run (stp_upd _ _ _ _ _ _ H2 f) as (s4 & -> & H4). eexists _, s4. split; [done|].
  eapply freed_step; [exact H4|done| |apply rest_not]. rewrite wh_put, place_out; [done|apply Hfr|done].
Qed.

(** [pend_task_wakeup] and [pend_task_rm]. *)
Definition left_wait (why : blk_state_t) : ktask_t :=
  set_blk_obj None (set_blk_state why (set_task_state (if suspended k then K_SUSPENDED else K_RDY) k)).

Lemma leave_step why :
  waiting k = true -> why <> BLK_INVALID -> exists g' s', pend_leave why t s = Ret s' /\ step1 t (left_wait why) g s g' s' /\ t ∉ tmo g'.
Proof.
  intros Hwa Hwhy. destruct (waiting_at Hwa) as (o & Ho & Hw & _). pose proof self_ok as [K1 K2 K3 K4 K5 K6 K7 K8 K9]. pose proof (stp_refl t k g s KO Ht) as H0.
  unfold pend_leave, left_wait. rewrite (sp_get _ _ _ _ _ _ H0). cbn [mbind outcome_bind]. unfold waiting, suspended in *. destruct (task_state k) eqn:Est; try done.
  - run (stp_wait_rm _ _ _ _ _ _ H0 o Hw) as (l & s1 & -> & H1).
    run (stp_ready_add _ _ _ _ _ _ H1 (wh_put _ _ _ _ _) K3) as (s2 & -> & H2).
    run (stp_upd _ _ _ _ _ _ H2 (set_task_state K_RDY)) as (s3 & -> & H3).
    run (stp_tick_rm _ _ _ _ _ _ H3) as (s4 & -> & H4).
    run (stp_upd _ _ _ _ _ _ H4 (fun k => set_blk_obj None (set_blk_state why k))) as (s5 & -> & H5). eexists _, s5. split; [done|].
    eapply freed_step; [exact H5|by repeat split| |apply rest_not]. apply wh_put.
  - run (stp_wait_rm _ _ _ _ _ _ H0 o Hw) as (l & s1 & -> & H1).
    run (stp_upd _ _ _ _ _ _ H1 (set_task_state K_SUSPENDED)) as (s3 & -> & H3).
    run (stp_tick_rm _ _ _ _ _ _ H3) as (s4 & -> & H4).
    run (stp_upd _ _ _ _ _ _ H4 (fun k => set_blk_obj None (set_blk_state why k))) as (s5 & -> & H5). eexists _, s5. split; [done|].
    eapply freed_step; [exact H5|repeat split; try done; cbn; by apply K8| |apply rest_not]. apply wh_put.
Qed.

(** A sleeping or suspended task becomes ready. *)
Lemma wake_ready f f' :
  waiting k = false -> task_state k <> K_RDY -> freed (f' (f k)) -> prio (f k) = prio k -> task_state (f' (f k)) = K_RDY ->
  exists g' s', (s ← upd_task t f s; s ← tick_list_rm t s; s ← ready_list_add t s; upd_task t f' s) = Ret s' /\ step1 t (f' (f k)) g s g' s' /\ t ∉ tmo g'.
Proof.
  intros Hwa Hn Hfr Ep Hst. pose proof (nowhere_at Hwa Hn) as Hw. pose proof self_ok as [K1 K2 K3 K4 K5 K6 K7 K8 K9].
  run (stp_upd _ _ _ _ _ _ (stp_refl t k g s KO Ht) f) as (s1 & -> & H1).
  run (stp_tick_rm _ _ _ _ _ _ H1) as (s2 & -> & H2).
  run (stp_ready_add _ _ _ _ _ _ H2 Hw ltac:(by rewrite Ep)) as (s3 & -> & H3).
  run (stp_upd _ _ _ _ _ _ H3 f') as (s4 & -> & H4). eexists _, s4. split; [done|].
  eapply freed_step; [exact H4|done| |apply rest_not]. rewrite wh_put, place_ready by done. destruct Hfr as (_ & _ & _ & _ & _ & -> & _). by rewrite Ep.
Qed.

Lemma resume_ready f :
  waiting k = false -> sleeping k = false -> task_state k <> K_RDY -> freed (f k) -> task_state (f k) = K_RDY ->
  exists g' s', (s ← upd_task t f s; ready_list_add t s) = Ret s' /\ step1 t (f k) g s g' s' /\ t ∉ tmo g'.
Proof.
  intros Hwa Hsl Hn Hfr Hst. pose proof (nowhere_at Hwa Hn) as Hw. pose proof self_ok as [K1 K2 K3 K4 K5 K6 K7 K8 K9]. pose proof Hfr as (_ & _ & _ & _ & _ & F6 & _).
  run (stp_upd _ _ _ _ _ _ (stp_refl t k g s KO Ht) f) as (s1 & -> & H1).
  run (stp_ready_add _ _ _ _ _ _ H1 Hw ltac:(by rewrite F6)) as (s3 & -> & H3). eexists _, s3. split; [done|].
  eapply freed_step; [exact H3|exact Hfr| |by apply timeless]. by rewrite wh_put, place_ready.
Qed.

(** A sleeping or suspended task stops to sleep. *)
Lemma sleep_out f f' :
  waiting k = false -> task_state k <> K_RDY -> freed (f' (f k)) -> task_state (f' (f k)) <> K_RDY ->
  exists g' s', (s ← upd_task t f s; s ← tick_list_rm t s; upd_task t f' s) = Ret s' /\ step1 t (f' (f k)) g s g' s' /\ t ∉ tmo g'.
Proof.
  intros Hwa Hn Hfr Hst. pose proof (nowhere_at Hwa Hn) as Hw.
  run (stp_upd _ _ _ _ _ _ (stp_refl t k g s KO Ht) f) as (s1 & -> & H1).
  run (stp_tick_rm _ _ _ _ _ _ H1) as (s2 & -> & H2).
  run (stp_upd _ _ _ _ _ _ H2 f') as (s4 & -> & H4). eexists _, s4. split; [done|].
  eapply freed_step; [exact H4|done| |apply rest_not]. rewrite place_out; [exact Hw|apply Hfr|done].
Qed.

(** A ready task is suspended or deleted. *)
Lemma ready_out f f' :
  task_state k = K_RDY -> others_ready g t -> freed (f' (f k)) -> prio (f k) = prio k -> task_state (f' (f k)) <> K_RDY ->
  exists g' s', (s ← upd_task t f s; s ← ready_list_rm t s; upd_task t f' s) = Ret s' /\ step1 t (f' (f k)) g s g' s' /\ t ∉ tmo g'.
Proof.
  intros Hst Ho Hfr Ep Hn. destruct (ready_at Hst) as [Hw Hnt]. pose proof self_ok as [K1 K2 K3 K4 K5 K6 K7 K8 K9].
  run (stp_upd _ _ _ _ _ _ (stp_refl t k g s KO Ht) f) as (s1 & -> & H1).
  run (stp_ready_rm _ _ _ _ _ _ H1 ltac:(by rewrite Ep) ltac:(by rewrite Ep) Ho) as (l & s2 & -> & H2).
  run (stp_upd _ _ _ _ _ _ H2 f') as (s4 & -> & H4). eexists _, s4. split; [done|].
  eapply freed_step; [exact H4|done| |done]. rewrite wh_put, place_out; [done|apply Hfr|done].
Qed.
End One.

(** ** Changing the priority of a task, [task_pri_change]

    One round moves a task to its place by the new priority.  The change goes on to the
    owner of the mutex the task waits for; it ends, also when tasks wait for each other in
    a circle: rounds that lower the priority of a task ([old]) leave fewer tasks at the
    priority they started from, and once a round raises one, all later rounds do. *)

Section One.
Context (g : ghost) (s : kern) (KO : kok g s) (TO : tok g s) (t : Z) (k : ktask_t) (Ht : tasks s !! t = Some k).
Context (new : Z) (Hnew : 0 <= new < 62).

(** Only the order of the waiting tasks changes. *)
Definition reordered (g' : ghost) : Prop := (forall o, wait g' o ≡ₚ wait g o) /\ tmo g' = tmo g.

Lemma unwaiting o g' : placed (dom (tasks s)) (dom (objs s)) g' -> wh g' t <> AtObj o -> t ∉ wait g' o.
Proof. intros P Hn Hin. by apply (in_wh _ _ _ P) in Hin. Qed.

Lemma reordered_out k' g' s' : stp t k' g s g' s' -> (forall o, wh g t <> AtObj o) -> (forall o, wh g' t <> AtObj o) -> tmo g' = tmo g -> reordered g'.
Proof.
  intros H H1 H2 Htm. split; [|done]. intros o. rewrite (stp_wait t k' g s g' s' H o (H2 o)). rewrite rest_out; [done|]. by apply unwaiting; [apply KO|].
Qed.

Lemma pri_ready :
  task_state k = K_RDY -> others_ready g t -> exists g' s', pri_change_ready t new s = Ret s' /\ step1 t (set_prio new k) g s g' s' /\ reordered g'.
Proof.
  intros Hst Ho. destruct (ready_at g s TO t k Ht Hst) as [Hw Hn]. destruct (self_ok g s TO t k Ht) as [K1 K2 K3 K4 K5 K6 K7 K8 K9]. unfold pri_change_ready.
  run (stp_ready_rm _ _ _ _ _ _ (stp_refl t k g s KO Ht) Hw K3 Ho) as (l & s1 & -> & H1).
  run (stp_upd _ _ _ _ _ _ H1 (set_prio new)) as (s2 & -> & H2).
  assert (exists l' s3, (if is_task_exec t s2 then ready_list_add_head t s2 else ready_list_add_tail t s2) = Ret s3 /\
    stp t (set_prio new k) g s (put (AtReady new) l' t (AtReady new) (put (AtReady (prio k)) l t Nowhere g)) s3) as (l' & s3 & E & H3).
  { destruct (is_task_exec t s2); [destruct (stp_ready_head _ _ _ _ _ _ H2 (wh_put _ _ _ _ _) Hnew) as (s3 & E & H3)|destruct (stp_ready_add _ _ _ _ _ _ H2 (wh_put _ _ _ _ _) Hnew) as (s3 & E & H3)]; by eexists _, s3. }
  eexists _, s3. split; [exact E|]. split.
  - apply (settle_free _ _ _ _ _ _ KO TO H3); try done; rewrite ?wh_put; unfold place_of, waiting, sleeping, suspended; cbn [task_state set_prio]; by rewrite Hst.
  - apply (reordered_out _ _ _ H3); [by rewrite Hw|by rewrite wh_put|done].
Qed.

Lemma pri_still :
  waiting k = false -> task_state k <> K_RDY -> exists s', upd_task t (set_prio new) s = Ret s' /\ step1 t (set_prio new k) g s g s' /\ reordered g.
Proof.
  intros Hwa Hn. pose proof (nowhere_at g s TO t k Ht Hwa Hn) as Hw. destruct (self_ok g s TO t k Ht) as [K1 K2 K3 K4 K5 K6 K7 K8 K9].
  destruct (stp_upd _ _ _ _ _ _ (stp_refl t k g s KO Ht) (set_prio new)) as (s1 & E & H1). exists s1. split; [done|]. split; [|done].
  apply (settle _ _ _ _ _ _ KO TO H1).
  - split; try done. rewrite Hw. unfold place_of, waiting in *. cbn [task_state set_prio blk_obj]. by destruct (task_state k).
  - by rewrite Hw.
  - intros _. by apply (tmo_kept t k _ g s g s1 TO Ht H1).
Qed.

Lemma pri_pend o :
  waiting k = true -> blk_obj k = Some o ->
  exists g' s', (s ← upd_task t (set_prio new) s; pend_list_reorder t s) = Ret s' /\ step1 t (set_prio new k) g s g' s' /\ reordered g'.
Proof.
  intros Hwa Hbo. destruct (waiting_at g s KO TO t k Ht Hwa) as (o' & Ho & Hw & Hob). rewrite Hbo in Ho. injection Ho as <-.
  destruct (self_ok g s TO t k Ht) as [K1 K2 K3 K4 K5 K6 K7 K8 K9].
  run (stp_upd _ _ _ _ _ _ (stp_refl t k g s KO Ht) (set_prio new)) as (s1 & -> & H1).
  unfold pend_list_reorder. rewrite (sp_get _ _ _ _ _ _ H1). cbn [mbind outcome_bind blk_obj set_prio]. rewrite Hbo. cbn [mbind outcome_bind non_null].
  apply elem_of_dom in Hob as [b Hb]. unfold get_obj. rewrite (sp_objs _ _ _ _ _ _ H1), Hb. cbn [mbind outcome_bind]. rewrite (to_pri _ _ TO o b Hb).
  run (stp_wait_rm _ _ _ _ _ _ H1 o Hw) as (l & s2 & -> & H2). assert (t ∉ l) as Hl.
  { pose proof (ko_placed _ _ (sp_kok _ _ _ _ _ _ H2)) as P. intros Hin. assert (t ∈ wait (put (AtObj o) l t Nowhere g) o) as Hin' by (cbn; by rewrite upd_eq). apply (in_wh _ _ _ P) in Hin'. by rewrite wh_put in Hin'. }
  assert (l = rest t (wait g o)) as El.
  { pose proof (stp_wait t _ g s _ _ H2 o ltac:(by rewrite wh_put)) as E. cbn in E. by rewrite upd_eq in E. }
  run (stp_pend_add _ _ _ _ _ _ H2 o) as (l1 & l2 & s3 & E & H3 & El' & Hsrt & Ha & Hbd).
  - apply wh_put.
  - rewrite (sp_objs _ _ _ _ _ _ H2). by apply elem_of_dom.
  - intros x Hx. apply (pl_task _ _ _ (ko_placed _ _ (sp_kok _ _ _ _ _ _ H2))). by rewrite (in_wh _ _ _ (ko_placed _ _ (sp_kok _ _ _ _ _ _ H2)) x (AtObj o) Hx).
  - cbn. rewrite upd_eq. apply (sorted_moved t (prio_of s) _ (wait g o)); [intros x Hx; by apply (stp_prio _ _ _ _ _ _ H2)|by rewrite El, rest_rest|done|apply TO].
  - eexists (put (AtObj o) (l1 ++ t :: l2) t (AtObj o) _), s3. split; [exact E|]. cbn in El'. rewrite upd_eq in El'. split.
    + apply (settle _ _ _ _ _ _ KO TO H3).
      * rewrite wh_put. split; try done. unfold place_of, waiting in *. cbn [task_state blk_obj set_prio]. rewrite Hbo. by destruct (task_state k).
      * rewrite wh_put. intros o' [= <-]. cbn. rewrite upd_eq. exact Hsrt.
      * intros _. by apply (tmo_kept t k _ g s _ s3 TO Ht H3).
    + split; [|done]. intros x. cbn. destruct (decide (x = o)) as [->|Hx]; [|by rewrite !upd_ne by congruence]. rewrite !upd_eq, <- Permutation_middle, <- El', El.
      destruct (lst_in _ _ _ (ko_placed _ _ KO) t (AtObj o) ltac:(done) Hw) as (a & c & Eac). rewrite Eac. rewrite rest_mid, rest_out by
        (pose proof (pl_lst _ _ _ (ko_placed _ _ KO) (AtObj o)) as [Nd _]; rewrite Eac, <- Permutation_middle in Nd; by apply list.NoDup_cons in Nd as [? _]). apply Permutation_middle.
Qed.
End One.
