(* ===== verification/KOwn.v ===== *)
(** * Mutexes and their owners

    Each task has the list of the mutexes it owns ([own]), linked from the task through the
    mutexes.  [mutex_pri_look] and [mutex_pri_limit] compute the most urgent of a priority
    and the priorities of the first waiters of these mutexes. *)

From stdpp Require Import gmap sorting.
From S2P Require Import Prelude KBits KList KKern KCalls KQueue KTasks KSteps.

(** ** The most urgent priority *)

Definition least (b : Z) (l : list Z) : Z := foldr Z.min b l.

Lemma le_least x b l : x <= least b l <-> x <= b /\ forall y, y ∈ l -> x <= y.
Proof.
  induction l as [|a l IH]; cbn [least foldr]; [split; [intros H; split; [done|by intros ? ?%elem_of_nil]|by intros [? _]]|].
  fold (least b l). rewrite Z.min_glb_iff, IH. split.
  - intros (H1 & H2 & H3). split; [done|]. intros y [->|Hy]%elem_of_cons; [done|by apply H3].
  - intros (H1 & H2). split_and!; [apply H2; by left|done|]. intros y Hy. apply H2. by right.
Qed.

Lemma least_min a b l : least (Z.min a b) l = Z.min a (least b l).
Proof. induction l as [|c l IH]; [done|]. cbn [least foldr] in *. fold (least (Z.min a b) l) (least b l) in *. rewrite IH. lia. Qed.

Lemma least_in b l : least b l = b \/ least b l ∈ l.
Proof.
  induction l as [|a l IH]; [by left|]. cbn [least foldr]. fold (least b l). destruct (Z.min_spec a (least b l)) as [[_ ->]|[_ ->]]; [right; by left|].
  destruct IH as [->|IH]; [by left|right; by right].
Qed.

Lemma least_range b l n : 0 <= b < n -> (forall y, y ∈ l -> 0 <= y) -> 0 <= least b l < n.
Proof.
  intros Hb Hl. split; [apply le_least; split; [lia|done]|]. pose proof (le_least (least b l) b l) as [H _]. specialize (H (Z.le_refl _)). lia.
Qed.

Lemma min_decide a b : (if decide (a < b) then a else b) = Z.min a b.
Proof. case_decide; lia. Qed.

(** The priorities of the first waiters. *)
Definition firsts (g : ghost) (s : kern) (l : list Z) : list Z := omap (fun o => prio_of s <$> head (wait g o)) l.

Lemma firsts_cons g s o l : firsts g s (o :: l) = match head (wait g o) with Some w => prio_of s w :: firsts g s l | None => firsts g s l end.
Proof. unfold firsts. cbn. by destruct (head (wait g o)). Qed.

Lemma elem_firsts g s l y : y ∈ firsts g s l <-> exists o w, o ∈ l /\ head (wait g o) = Some w /\ y = prio_of s w.
Proof.
  unfold firsts. rewrite list_elem_of_omap. split.
  - intros (o & Ho & E). destruct (head (wait g o)) as [w|] eqn:Ew; [|done]. injection E as <-. by exists o, w.
  - intros (o & w & Ho & E & ->). exists o. by rewrite E.
Qed.

(** The first waiter is the most urgent one. *)
Lemma le_firsts g s l x :
  (forall o, sorted_on (prio_of s) (wait g o)) -> (forall y, y ∈ firsts g s l -> x <= y) <-> forall o w, o ∈ l -> w ∈ wait g o -> x <= prio_of s w.
Proof.
  intros Hs. split.
  - intros H o w Ho Hw. specialize (Hs o). destruct (wait g o) as [|a r] eqn:E; [by apply elem_of_nil in Hw|].
    assert (x <= prio_of s a) as Ha by (apply H; apply elem_firsts; exists o, a; by rewrite E). apply elem_of_cons in Hw as [->|Hw]; [done|].
    unfold sorted_on in Hs. rewrite StronglySorted_cons, list.Forall_forall in Hs. destruct Hs as [Hs _]. specialize (Hs w Hw). cbn in Hs. lia.
  - intros H y (o & w & Ho & Hw & ->)%elem_firsts. apply (H o); [done|]. by apply head_Some_elem_of.
Qed.

(** ** Owners *)

(** The mutexes linked from [o]. *)
Fixpoint held (M : gmap Z kmutex_t) (o : option Z) (l : list Z) : Prop :=
  match l with [] => o = None | a :: l => o = Some a /\ exists x, M !! a = Some x /\ held M (m_list x) l end.

Definition mutex_type (s : kern) (o : Z) : Prop := obj_type <$> objs s !! o = Some RHINO_MUTEX_OBJ_TYPE.
#[export] Instance mutex_type_dec s o : Decision (mutex_type s o).
Proof. unfold mutex_type. apply _. Defined.
Definition owner (s : kern) (o : Z) : option Z := x ← mutexes s !! o; mutex_task x.
Definition live (s : kern) (t : Z) : Prop := exists k, tasks s !! t = Some k /\ task_state k <> K_DELETED.

(** ** States that differ in the links between mutexes *)

Record chains_only (s s' : kern) : Prop := ChainsOnly {
  co_tasks : forall t, set_mutex_list None <$> tasks s' !! t = set_mutex_list None <$> tasks s !! t;
  co_mutexes : forall o, set_m_list None <$> mutexes s' !! o = set_m_list None <$> mutexes s !! o;
  co_rest : set_tasks ∅ (set_mutexes ∅ s') = set_tasks ∅ (set_mutexes ∅ s)
}.

Lemma chains_refl s : chains_only s s.
Proof. done. Qed.

(** Two records that agree but in one field. *)
Lemma fmap_rel {A B} (f : A -> B) (x y : option A) a : f <$> x = f <$> y -> x = Some a -> exists b, y = Some b /\ f b = f a.
Proof. intros E ->. destruct y as [b|]; [|done]. injection E as E. by exists b. Qed.

Section Chains.
Context (s s' : kern) (C : chains_only s s').

Lemma co_fields : lks s' = lks s /\ objs s' = objs s /\ sems s' = sems s /\ rq s' = rq s /\ g_tick_count s' = g_tick_count s /\ g_active_task s' = g_active_task s /\
  g_preferred_ready_task s' = g_preferred_ready_task s /\ g_sched_lock s' = g_sched_lock s /\ g_intrpt_nested_level s' = g_intrpt_nested_level s /\ g_sys_stat s' = g_sys_stat s /\ g_idle_task_spawned s' = g_idle_task_spawned s.
Proof. destruct C as [_ _ E]. destruct s, s'. cbn in E. by injection E. Qed.

Lemma co_task t k : tasks s !! t = Some k -> exists v, tasks s' !! t = Some (set_mutex_list v k).
Proof.
  intros H. destruct (fmap_rel _ _ _ _ (eq_sym (co_tasks _ _ C t)) H) as (k' & E & F). rewrite E. exists (mutex_list k'). f_equal. destruct k, k'. cbn in F. injection F as <-. by subst.
Qed.
Lemma co_task_inv t k' : tasks s' !! t = Some k' -> exists k, tasks s !! t = Some k /\ k' = set_mutex_list (mutex_list k') k.
Proof.
  intros H. destruct (fmap_rel _ _ _ _ (co_tasks _ _ C t) H) as (k & E & F). exists k. split; [done|]. destruct k, k'. cbn in F. injection F as <-. by subst.
Qed.

Lemma co_dom : dom (tasks s') = dom (tasks s).
Proof. apply set_eq. intros t. rewrite !elem_of_dom. pose proof (co_tasks _ _ C t) as E. destruct (tasks s' !! t), (tasks s !! t); try done; by split; intros []. Qed.

Lemma co_prio t : prio_of s' t = prio_of s t.
Proof. unfold prio_of. destruct (tasks s' !! t) as [k'|] eqn:E; [destruct (co_task_inv t k' E) as (k & -> & ->); done|]. destruct (tasks s !! t) as [k|] eqn:E2; [|done]. destruct (co_task t k E2). congruence. Qed.
Lemma co_match t : match_of s' t = match_of s t.
Proof. unfold match_of. destruct (tasks s' !! t) as [k'|] eqn:E; [destruct (co_task_inv t k' E) as (k & -> & ->); done|]. destruct (tasks s !! t) as [k|] eqn:E2; [|done]. destruct (co_task t k E2). congruence. Qed.
Lemma co_owner o : owner s' o = owner s o.
Proof.
  unfold owner. pose proof (co_mutexes _ _ C o) as E. destruct (mutexes s' !! o) as [x|], (mutexes s !! o) as [y|]; try done. cbn in E. injection E as ? ?. by cbn.
Qed.
Lemma co_live t : live s t -> live s' t.
Proof. intros (k & H & Hk). destruct (co_task t k H) as [v Hv]. by exists (set_mutex_list v k). Qed.
Lemma co_live_inv t : live s' t -> live s t.
Proof. intros (k' & H & Hk). destruct (co_task_inv t k' H) as (k & E & Ek). rewrite Ek in Hk. by exists k. Qed.
Lemma co_type o : mutex_type s' o <-> mutex_type s o.
Proof. unfold mutex_type. by destruct co_fields as (_ & -> & _). Qed.
Lemma co_firsts g l : firsts g s' l = firsts g s l.
Proof. induction l as [|o l IH]; [done|]. rewrite !firsts_cons, IH. destruct (head (wait g o)); by rewrite ?co_prio. Qed.

Lemma co_kok g : kok g s -> kok g s'.
Proof. intros [P L Q]. destruct co_fields as (E1 & E2 & _ & E4 & _). by split; rewrite ?co_dom, ?E1, ?E2, ?E4. Qed.

Lemma co_tok g : tok g s -> tok g s'.
Proof.
  intros [T1 T2 T3 T4 T5]. destruct co_fields as (E1 & E2 & _ & E4 & E5 & _). split.
  - intros t k' H. destruct (co_task_inv t k' H) as (k & E & Ek). rewrite Ek. by destruct (T1 t k E).
  - intros o. eapply sorted_ext; [|apply T2]. intros x _. apply co_prio.
  - eapply sorted_ext; [|apply T3]. intros x _. apply co_match.
  - by rewrite E5.
  - by rewrite E2.
Qed.

Lemma co_fresh g : fresh g s -> fresh g s'.
Proof. intros F t Ht. destruct co_fields as (_ & _ & _ & _ & -> & _). rewrite co_match. by apply F. Qed.
End Chains.

(** A written reference. *)
Definition with_ref (r : mref) (v : option Z) (s : kern) : kern :=
  match r with RTask t => set_tasks (alter (set_mutex_list v) t (tasks s)) s | RMutex o => set_mutexes (alter (set_m_list v) o (mutexes s)) s end.

Lemma alter_some {A} (f : A -> A) (m : gmap Z A) i a : m !! i = Some a -> alter f i m = <[i := f a]> m.
Proof. intros H. apply map_eq. intros j. destruct (decide (j = i)) as [->|Hj]; [by rewrite lookup_alter_eq, lookup_insert_eq, H|by rewrite lookup_alter_ne, lookup_insert_ne]. Qed.

Lemma write_ref_ok r v u s : read_ref r s = Ret u -> write_ref r v s = Ret (with_ref r v s) /\ read_ref r (with_ref r v s) = Ret v.
Proof.
  destruct r as [t|o]; cbn; unfold get_task, get_mutex, upd_task, upd_mutex, get_task, get_mutex; cbn [tasks mutexes set_tasks set_mutexes].
  - destruct (tasks s !! t) as [k|] eqn:E; [|done]. intros _. rewrite lookup_alter_eq, E. cbn. by rewrite (alter_some _ _ _ _ E).
  - destruct (mutexes s !! o) as [k|] eqn:E; [|done]. intros _. rewrite lookup_alter_eq, E. cbn. by rewrite (alter_some _ _ _ _ E).
Qed.

Lemma with_ref_chains r v s : chains_only s (with_ref r v s).
Proof.
  destruct r as [t|o]; split; cbn; try done.
  - intros x. destruct (decide (x = t)) as [->|Hx]; [rewrite lookup_alter_eq; by destruct (tasks s !! t)|by rewrite lookup_alter_ne].
  - intros x. destruct (decide (x = o)) as [->|Hx]; [rewrite lookup_alter_eq; by destruct (mutexes s !! o)|by rewrite lookup_alter_ne].
Qed.

Lemma held_other M o l a f : a ∉ l -> held M o l -> held (alter f a M) o l.
Proof.
  revert o. induction l as [|b l IH]; intros o Ha H; [done|]. apply not_elem_of_cons in Ha as [Hab Ha]. destruct H as (-> & x & Hx & H). split; [done|].
  exists x. rewrite lookup_alter_ne by done. split; [done|]. by apply IH.
Qed.

(** Taking [r] out of the list: the link to it becomes the link behind it. *)
Fixpoint end_ref (prev : mref) (l : list Z) : mref := match l with [] => prev | a :: l => end_ref (RMutex a) l end.

Lemma end_ref_last prev l : end_ref prev l = prev /\ l = [] \/ exists l' a, end_ref prev l = RMutex a /\ l = l' ++ [a].
Proof.
  revert prev. induction l as [|b l IH]; intros prev; [by left|right]. cbn [end_ref]. destruct (IH (RMutex b)) as [[-> ->]|(l' & a & -> & ->)]; [by exists [], b|by exists (b :: l'), a].
Qed.

Lemma held_app M o l1 l2 : held M o (l1 ++ l2) -> exists o2, held M o2 l2 /\ (l1 = [] -> o2 = o) /\ (forall l a, l1 = l ++ [a] -> m_list <$> M !! a = Some o2).
Proof.
  revert o. induction l1 as [|b l1 IH]; intros o H; [exists o; split_and!; [done|done|by intros [] ? ?]|]. destruct H as (-> & x & Hx & H). destruct (IH _ H) as (o2 & H2 & E1 & E2).
  exists o2. split_and!; [done|done|]. intros [|c l] a [= -> ->]; [|by apply (E2 l)]. rewrite Hx. cbn. by rewrite E1.
Qed.

Lemma held_unlink M o l1 a r l2 x :
  held M o ((l1 ++ [a]) ++ r :: l2) -> NoDup ((l1 ++ [a]) ++ r :: l2) -> M !! r = Some x -> held (alter (set_m_list (m_list x)) a M) o ((l1 ++ [a]) ++ l2).
Proof.
  revert o. induction l1 as [|b l1 IH]; intros o H Nd Hr.
  - destruct H as (-> & y & Hy & _ & z & Hz & H). rewrite Hr in Hz. injection Hz as <-. cbn in Nd. apply list.NoDup_cons in Nd as [Ha _]. split; [done|].
    exists (set_m_list (m_list x) y). rewrite lookup_alter_eq, Hy. split; [done|]. apply held_other; [|done]. intros Hin. apply Ha. by right.
  - cbn in Nd. apply list.NoDup_cons in Nd as [Hb Nd]. destruct H as (-> & y & Hy & H). split; [done|]. exists y. rewrite lookup_alter_ne; [split; [done|by apply IH]|].
    intros ->. apply Hb. rewrite !elem_of_app, list_elem_of_singleton. tauto.
Qed.

Section Own.
Context (INHERIT : bool) (idle : Z).

(** [skip] is a task whose list is being taken apart. *)
Record mok (skip : option Z) (own : Z -> list Z) (g : ghost) (s : kern) : Prop := Mok {
  mk_sem : forall o b, objs s !! o = Some b -> obj_type b = RHINO_SEM_OBJ_TYPE -> is_Some (sems s !! o);
  mk_mutex : forall o, mutex_type s o -> is_Some (mutexes s !! o);
  mk_held : forall t k, tasks s !! t = Some k -> task_state k <> K_DELETED -> Some t <> skip -> held (mutexes s) (mutex_list k) (own t);
  mk_nodup : forall t, NoDup (own t);
  mk_own : forall t o, o ∈ own t -> o ∈ dom (objs s) /\ owner s o = Some t /\ live s t /\ INHERIT = true /\ t <> idle;
  mk_live : forall o t, mutex_type s o -> owner s o = Some t -> live s t /\ t <> idle;
  mk_wait : forall t o, mutex_type s o -> wh g t = AtObj o -> is_Some (owner s o) /\ owner s o <> Some t;
  mk_self : forall t o, o ∈ own t -> wh g t <> AtObj o
}.

Lemma held_size M o l : held M o l -> NoDup l -> (length l <= base.size M)%nat.
Proof.
  intros H Nd. assert (forall y, y ∈ l -> y ∈ dom M) as Hd.
  { clear Nd. revert o H. induction l as [|a l IH]; intros o H y Hy; [by apply elem_of_nil in Hy|]. destruct H as (_ & x & Hx & H).
    apply elem_of_cons in Hy as [->|Hy]; [by apply elem_of_dom|]. by apply (IH _ H). }
  rewrite <- size_dom. rewrite <- (size_list_to_set (C := gset Z) l Nd). apply subseteq_size. intros y Hy. apply Hd. by apply elem_of_list_to_set in Hy.
Qed.

(** ** Reading the list *)

Lemma waiter_pri_ok g s o pri :
  kok g s -> tok g s -> o ∈ dom (objs s) -> waiter_pri o pri s = Ret (match head (wait g o) with Some w => prio_of s w | None => pri end).
Proof.
  intros KO TO Ho. unfold waiter_pri. rewrite (first_waiter_ok g s KO o Ho). cbn [mbind outcome_bind]. destruct (head (wait g o)) as [w|] eqn:E; [|done].
  assert (w ∈ dom (tasks s)) as [k Hk]%elem_of_dom.
  { apply (pl_task _ _ _ (ko_placed _ _ KO)). rewrite (in_wh _ _ _ (ko_placed _ _ KO) w (AtObj o)); [done|]. by apply head_Some_elem_of. }
  rewrite (get_task_eq _ _ _ Hk). unfold prio_of. by rewrite Hk.
Qed.

Lemma limit_loop_ok g s l : forall fuel o high pri,
  kok g s -> tok g s -> held (mutexes s) o l -> (forall y, y ∈ l -> y ∈ dom (objs s)) -> (length l <= fuel)%nat -> high <= pri ->
  limit_loop fuel o high pri s = Ret (least high (firsts g s l)).
Proof.
  induction l as [|a l IH]; intros fuel o high pri KO TO H Hd Hf Hp.
  - cbn in H. subst o. by destruct fuel.
  - destruct H as (-> & x & Hx & H). destruct fuel as [|fuel]; [cbn in Hf; lia|]. cbn [limit_loop]. rewrite (waiter_pri_ok g s a pri KO TO) by (apply Hd; by left).
    cbn [mbind outcome_bind]. unfold get_mutex. rewrite Hx. cbn [mbind outcome_bind]. rewrite (IH fuel (m_list x)); [|done|done|done|intros y Hy; apply Hd; by right|cbn in Hf; lia|].
    + f_equal. rewrite firsts_cons. destruct (head (wait g a)) as [w|].
      * cbn [least foldr]. fold (least high (firsts g s l)). by rewrite <- least_min, min_decide.
      * by rewrite decide_False by lia.
    + case_decide; lia.
Qed.

Lemma limit_ok skip own g s t k pri :
  kok g s -> tok g s -> mok skip own g s -> tasks s !! t = Some k -> task_state k <> K_DELETED -> Some t <> skip ->
  mutex_pri_limit INHERIT t pri s = Ret (least pri (firsts g s (own t))).
Proof.
  intros KO TO MO Ht Hl Hs. unfold mutex_pri_limit. destruct INHERIT eqn:EI.
  - rewrite (get_task_eq _ _ _ Ht). cbn [mbind outcome_bind]. pose proof (mk_held _ _ _ _ MO t k Ht Hl Hs) as Hh.
    apply limit_loop_ok; try done; [intros y Hy; by apply (mk_own _ _ _ _ MO t)|apply (held_size _ _ _ Hh), MO].
  - destruct (own t) as [|o r] eqn:E; [done|]. destruct (mk_own _ _ _ _ MO t o) as (_ & _ & _ & ? & _); [rewrite E; by left|congruence].
Qed.

(** ** Reading the list and taking one mutex out of it *)

Lemma look_skip g rel l1 : forall fuel prev new pri o l2 s,
  kok g s -> tok g s -> read_ref prev s = Ret o -> held (mutexes s) o (l1 ++ l2) -> (forall y, y ∈ l1 -> y ∈ dom (objs s) /\ Some y <> rel) -> new <= pri ->
  exists pri' o2, look_loop (length l1 + fuel) prev rel new pri s = look_loop fuel (end_ref prev l1) rel (least new (firsts g s l1)) pri' s /\
    least new (firsts g s l1) <= pri' /\ read_ref (end_ref prev l1) s = Ret o2 /\ held (mutexes s) o2 l2.
Proof.
  induction l1 as [|a l1 IH]; intros fuel prev new pri o l2 s KO TO Hr H Hd Hp; [by exists pri, o|]. destruct H as (-> & x & Hx & H). destruct (Hd a) as [Ha1 Ha2]; [by left|].
  cbn [length Nat.add look_loop end_ref]. rewrite Hr. cbn [mbind outcome_bind]. rewrite decide_False by done. rewrite (waiter_pri_ok g s a pri KO TO Ha1). cbn [mbind outcome_bind].
  set (p := match head (wait g a) with Some w => prio_of s w | None => pri end).
  destruct (IH fuel (RMutex a) (if decide (p < new) then p else new) p (m_list x) l2 s KO TO) as (pri' & o2 & -> & Hle & Hr2 & H2).
  - cbn. unfold get_mutex. by rewrite Hx.
  - done.
  - intros y Hy. apply Hd. by right.
  - case_decide; lia.
  - assert (least (if decide (p < new) then p else new) (firsts g s l1) = least new (firsts g s (a :: l1))) as E.
    { rewrite firsts_cons. unfold p. destruct (head (wait g a)) as [w|]; [|by rewrite decide_False by lia]. cbn [least foldr]. fold (least new (firsts g s l1)). by rewrite <- least_min, min_decide. }
    rewrite E in *. by exists pri', o2.
Qed.

Lemma look_end fuel prev rel new pri s : read_ref prev s = Ret None -> look_loop fuel prev rel new pri s = Ret (new, s).
Proof. intros H. by destruct fuel; cbn [look_loop]; rewrite H. Qed.

Definition without (rel : option Z) (l : list Z) : list Z := match rel with Some r => rest r l | None => l end.

(** What [mutex_pri_look] returns and leaves behind. *)
Lemma look_ok own g s t k rel :
  kok g s -> tok g s -> mok None own g s -> tasks s !! t = Some k -> task_state k <> K_DELETED ->
  exists s', mutex_pri_look INHERIT t rel s = Ret (least (b_prio k) (firsts g s (without rel (own t))), s') /\
    chains_only s s' /\ mok None (upd own t (without rel (own t))) g s' /\ (rel = None -> s' = s).
Proof.
  intros KO TO MO Ht Hl. unfold mutex_pri_look. rewrite (get_task_eq _ _ _ Ht). cbn [mbind outcome_bind].
  assert (Hsame : without rel (own t) = own t -> mok None (upd own t (without rel (own t))) g s).
  { intros ->. destruct MO as [M1 M2 M3 M4 M5 M6 M7 M8]. assert (forall x, upd own t (own t) x = own x) as E by (intros x; unfold upd; case_decide; by subst). split; try done; intros x; rewrite E; auto. }
  destruct INHERIT eqn:EI.
  2: { assert (own t = []) as E. { destruct (own t) as [|o r] eqn:E; [done|]. destruct (mk_own _ _ _ _ MO t o) as (_ & _ & _ & ? & _); [rewrite E; by left|congruence]. }
       exists s. assert (without rel (own t) = own t) as Ew by (rewrite E; by destruct rel). split_and!; [by rewrite Ew, E|apply chains_refl|by apply Hsame|done]. }
  pose proof (mk_held _ _ _ _ MO t k Ht Hl ltac:(done)) as Hh. pose proof (mk_nodup _ _ _ _ MO t) as Nd.
  pose proof (held_size _ _ _ Hh Nd) as Hsz. assert (read_ref (RTask t) s = Ret (mutex_list k)) as Hr by (cbn; by rewrite (get_task_eq _ _ _ Ht)).
  assert (forall y, y ∈ own t -> y ∈ dom (objs s)) as Hd by (intros y Hy; by apply (mk_own _ _ _ _ MO t)).
  assert ((exists r, rel = Some r /\ r ∈ own t) \/ ~ (exists r, rel = Some r /\ r ∈ own t)) as [(r & -> & Hin)|Hno].
  { destruct rel as [r|]; [|right; by intros (r & ? & _)]. destruct (decide (r ∈ own t)) as [Hin|Hin]; [left; by exists r|right; by intros (? & [= <-] & ?)]. }
  - apply list_elem_of_split in Hin as (l1 & l2 & El). assert (r ∉ l1 ++ l2) as Hout by (rewrite El, <- Permutation_middle in Nd; by apply list.NoDup_cons in Nd as [? _]).
    assert (without (Some r) (own t) = l1 ++ l2) as Ew by (cbn; rewrite El, rest_mid; by apply rest_out). rewrite Ew. rewrite El in Hh.
    assert (base.size (mutexes s) = length l1 + S (length l2 + (base.size (mutexes s) - length (own t))))%nat as -> by (rewrite El, length_app in *; cbn in *; lia).
    destruct (look_skip g (Some r) l1 (S (length l2 + (base.size (mutexes s) - length (own t)))) (RTask t) (b_prio k) (b_prio k) (mutex_list k) (r :: l2) s KO TO Hr Hh) as (pri' & o2 & -> & Hle & Hr2 & H2);
      [intros y Hy; split; [apply Hd; rewrite El, elem_of_app; tauto|intros [= ->]; apply Hout; rewrite elem_of_app; tauto]|lia|].
    destruct H2 as (-> & x & Hx & H2). cbn [look_loop]. rewrite Hr2. cbn [mbind outcome_bind]. rewrite decide_True by done. unfold get_mutex. rewrite Hx. cbn [mbind outcome_bind].
    destruct (write_ref_ok (end_ref (RTask t) l1) (m_list x) _ s Hr2) as [-> Hr3]. cbn [mbind outcome_bind]. set (s2 := with_ref _ _ s) in *.
    pose proof (with_ref_chains (end_ref (RTask t) l1) (m_list x) s : chains_only s s2) as C.
    assert (forall x0 l, x0 <> t -> (forall y, y ∈ l -> y ∈ own x0) -> forall o, held (mutexes s) o l -> held (mutexes s2) o l) as Hoth.
    { intros x0 l Hx0 Hsub o Ho. unfold s2. destruct (end_ref_last (RTask t) l1) as [[-> ->]|(l' & a & -> & ->)]; [done|]. cbn. apply held_other; [|done]. intros Ha%Hsub.
      destruct (mk_own _ _ _ _ MO x0 a Ha) as (_ & E1 & _). destruct (mk_own _ _ _ _ MO t a) as (_ & E2 & _); [rewrite El, !elem_of_app, list_elem_of_singleton; tauto|congruence]. }
    assert (held (mutexes s2) (m_list x) l2) as H3.
    { unfold s2. destruct (end_ref_last (RTask t) l1) as [[-> ->]|(l' & a & -> & ->)]; [done|]. cbn. apply held_other; [|done].
      rewrite El in Nd. apply list.NoDup_app in Nd as (_ & Nd & _). intros Ha. apply (Nd a); [rewrite elem_of_app, list_elem_of_singleton; tauto|by right]. }
    assert (exists k2, tasks s2 !! t = Some k2 /\ held (mutexes s2) (mutex_list k2) (l1 ++ l2) /\ task_state k2 = task_state k) as (k2 & Hk2 & Hh2 & Hst).
    { unfold s2. rewrite El in Nd. destruct (end_ref_last (RTask t) l1) as [[-> ->]|(l' & a & -> & ->)].
      - exists (set_mutex_list (m_list x) k). cbn. rewrite lookup_alter_eq, Ht. by split_and!.
      - exists k. cbn. split_and!; [done| |done]. by apply held_unlink with (r := r). }
    destruct (look_skip g (Some r) l2 (base.size (mutexes s) - length (own t)) (end_ref (RTask t) l1) (least (b_prio k) (firsts g s l1)) pri' (m_list x) [] s2 (co_kok s s2 C g KO) (co_tok s s2 C g TO) Hr3) as (pri2 & o3 & -> & _ & Hr4 & H4);
      [by rewrite app_nil_r| |done|].
    { intros y Hy. destruct (co_fields s s2 C) as (_ & -> & _). split; [apply Hd; rewrite El, elem_of_app, elem_of_cons; tauto|intros [= ->]; apply Hout; rewrite elem_of_app; tauto]. }
    cbn in H4. subst o3. rewrite look_end by done. exists s2. split_and!; [|done| |done].
    + f_equal. f_equal. rewrite (co_firsts s s2 C). unfold firsts at 3. rewrite omap_app. fold (firsts g s l1) (firsts g s l2). unfold least. rewrite foldr_app.
      clear. induction (firsts g s l2) as [|c l IH]; [done|]. cbn [foldr]. rewrite IH. symmetry. apply (least_min c).
    + destruct (co_fields s s2 C) as (_ & Eo & Es & _). destruct MO as [M1 M2 M3 M4 M5 M6 M7 M8]. split.
      * rewrite Eo, Es. done.
      * intros o Ho. apply (co_type s s2 C) in Ho. destruct (M2 o Ho) as [y Hy]. pose proof (co_mutexes _ _ C o) as E. rewrite Hy in E. destruct (mutexes s2 !! o); [done|discriminate].
      * intros x0 k0 Hx0 Hl0 _. destruct (decide (x0 = t)) as [->|Hne]; [rewrite upd_eq; by simplify_eq|]. rewrite upd_ne by done.
        destruct (co_task_inv s s2 C x0 k0 Hx0) as (k1 & Hk1 & E). apply (Hoth x0); [done|done|]. assert (mutex_list k0 = mutex_list k1) as ->; [|apply M3; [done| |done]; by rewrite E in Hl0].
        unfold s2 in Hx0. destruct (end_ref_last (RTask t) l1) as [[E1 _]|(l' & a & E1 & _)]; rewrite E1 in Hx0; cbn in Hx0; [rewrite lookup_alter_ne in Hx0 by done|]; congruence.
      * intros x0. destruct (decide (x0 = t)) as [->|Hne]; [rewrite upd_eq|by rewrite upd_ne]. rewrite El, <- Permutation_middle in Nd. by apply list.NoDup_cons in Nd as [_ ?].
      * intros x0 o Ho. assert (o ∈ own x0) as Ho'. { destruct (decide (x0 = t)) as [->|Hne]; [rewrite upd_eq in Ho; rewrite El; rewrite !elem_of_app, elem_of_cons in *; tauto|by rewrite upd_ne in Ho]. }
        destruct (M5 x0 o Ho') as (D1 & D2 & D3 & D4). rewrite Eo, (co_owner s s2 C). split_and!; try done; [by apply (co_live s s2 C)|apply D4..].
      * intros o x0. rewrite (co_type s s2 C), (co_owner s s2 C). intros Ha Hb. destruct (M6 o x0 Ha Hb) as [? ?]. split; [by apply (co_live s s2 C)|done].
      * intros x0 o. rewrite (co_type s s2 C), (co_owner s s2 C). apply M7.
      * intros x0 o Ho. apply M8. destruct (decide (x0 = t)) as [->|Hne]; [rewrite upd_eq in Ho; rewrite El; rewrite !elem_of_app, elem_of_cons in *; tauto|by rewrite upd_ne in Ho].
  - assert (without rel (own t) = own t) as Ew. { destruct rel as [r|]; [|done]. cbn. apply rest_out. intros Hin. apply Hno. by exists r. }
    exists s. split_and!; [|apply chains_refl|by apply Hsame|done]. rewrite Ew.
    assert (base.size (mutexes s) = length (own t) + (base.size (mutexes s) - length (own t)))%nat as -> by lia.
    destruct (look_skip g rel (own t) (base.size (mutexes s) - length (own t)) (RTask t) (b_prio k) (b_prio k) (mutex_list k) [] s KO TO Hr) as (pri' & o2 & -> & _ & Hr2 & H2); [by rewrite app_nil_r| |lia|].
    { intros y Hy. split; [by apply Hd|]. intros E. apply Hno. by exists y. }
    cbn in H2. subst o2. by apply look_end.
Qed.
End Own.
