(* ===== verification/KInherit.v ===== *)
(** * Priority inheritance

    The invariant of tasks and mutexes ([sok]), and [task_pri_change] on it: the change
    ends and, with [RHINO_CONFIG_MUTEX_INHERIT], gives every task the most urgent of its
    own priority and the ones of the tasks that wait for its mutexes. *)

From stdpp Require Import gmap sorting.
From S2P Require Import Prelude KBits KList KKern KCalls KQueue KTasks KSteps KOwn.

(** ** The idle task *)

Record iok (idle : Z) (s : kern) : Prop := Iok {
  io_idle : exists k, tasks s !! idle = Some k /\ task_state k = K_RDY /\ prio k = 61 /\ b_prio k = 61;
  io_other : forall t k, tasks s !! t = Some k -> t <> idle -> prio k < 61 /\ b_prio k < 61;
  io_spawned : 0 < g_idle_task_spawned s
}.

Lemma idle_ready idle g s t : tok g s -> iok idle s -> t <> idle -> others_ready g t.
Proof. intros TO [(k & H & Hst & _) _ _] Ht. exists idle, (prio k). split; [done|]. by destruct (ready_at g s TO idle k H Hst). Qed.

(** ** Counting tasks *)

Definition level (P : Z -> Prop) `{forall z, Decision (P z)} (s : kern) : nat := base.size (filter (fun x : Z * ktask_t => P (prio x.2)) (tasks s)).

Lemma level_drop P `{forall z, Decision (P z)} s s' t k k' :
  tasks s !! t = Some k -> tasks s' = <[t := k']> (tasks s) -> P (prio k) -> ~ P (prio k') -> level P s = S (level P s').
Proof.
  intros Ht E Hp Hn. unfold level. rewrite E, map_filter_insert_False by done. rewrite map_filter_delete, map_size_delete, map_lookup_filter_Some_2 with (x := k) by done.
  destruct (base.size _) eqn:Es; [|done]. apply map_size_empty_inv in Es. pose proof (map_lookup_filter_Some_2 (fun x : Z * ktask_t => P (prio x.2)) (tasks s) t k Ht Hp) as Hl. rewrite Es in Hl. done.
Qed.

Lemma level_le P `{forall z, Decision (P z)} s : (level P s <= base.size (tasks s))%nat.
Proof. apply map_subseteq_size, map_filter_subseteq. Qed.

Lemma level_pos P `{forall z, Decision (P z)} s t k : tasks s !! t = Some k -> P (prio k) -> (1 <= level P s)%nat.
Proof.
  intros Ht Hp. unfold level. destruct (base.size _) eqn:Es; [|lia]. apply map_size_empty_inv in Es.
  pose proof (map_lookup_filter_Some_2 (fun x : Z * ktask_t => P (prio x.2)) (tasks s) t k Ht Hp) as Hl. by rewrite Es in Hl.
Qed.

(** ** States that differ in priorities and in the lists *)

Record prios_only (s s' : kern) : Prop := PriosOnly {
  po_tasks : forall t, set_prio 0 <$> tasks s' !! t = set_prio 0 <$> tasks s !! t;
  po_rest : set_lks ∅ (set_rq runqueue_init (set_tasks ∅ s')) = set_lks ∅ (set_rq runqueue_init (set_tasks ∅ s))
}.

Lemma prios_refl s : prios_only s s.
Proof. done. Qed.
Lemma prios_trans s1 s2 s3 : prios_only s1 s2 -> prios_only s2 s3 -> prios_only s1 s3.
Proof. intros [A B] [C D]. split; [intros t; by rewrite C, A|by rewrite D, B]. Qed.

Lemma prios_step t k n g s g' s' : tasks s !! t = Some k -> stp t (set_prio n k) g s g' s' -> prios_only s s'.
Proof.
  intros Ht [(m & q & ->) _ _]. split; [|by destruct s]. intros x. cbn. destruct (decide (x = t)) as [->|Hx]; [by rewrite lookup_insert_eq, Ht|by rewrite lookup_insert_ne].
Qed.

Section Prios.
Context (s s' : kern) (C : prios_only s s').

Lemma po_fields : objs s' = objs s /\ sems s' = sems s /\ mutexes s' = mutexes s /\ g_tick_count s' = g_tick_count s /\ g_active_task s' = g_active_task s /\
  g_preferred_ready_task s' = g_preferred_ready_task s /\ g_sched_lock s' = g_sched_lock s /\ g_intrpt_nested_level s' = g_intrpt_nested_level s /\ g_sys_stat s' = g_sys_stat s /\ g_idle_task_spawned s' = g_idle_task_spawned s.
Proof. destruct C as [_ E]. destruct s, s'. cbn in E. by injection E. Qed.

Lemma po_task t k : tasks s !! t = Some k -> exists p, tasks s' !! t = Some (set_prio p k).
Proof.
  intros H. destruct (fmap_rel _ _ _ _ (eq_sym (po_tasks _ _ C t)) H) as (k' & E & F). rewrite E. exists (prio k'). f_equal. destruct k, k'. cbn in F. injection F as <-. by subst.
Qed.
Lemma po_task_inv t k' : tasks s' !! t = Some k' -> exists k, tasks s !! t = Some k /\ k' = set_prio (prio k') k.
Proof.
  intros H. destruct (fmap_rel _ _ _ _ (po_tasks _ _ C t) H) as (k & E & F). exists k. split; [done|]. destruct k, k'. cbn in F. injection F as <-. by subst.
Qed.
Lemma po_live t : live s' t <-> live s t.
Proof.
  split; intros (k & H & Hk); [destruct (po_task_inv t k H) as (k0 & E & E2); rewrite E2 in Hk; by exists k0|destruct (po_task t k H) as [p Hp]; by exists (set_prio p k)].
Qed.
Lemma po_type o : mutex_type s' o <-> mutex_type s o.
Proof. unfold mutex_type. by destruct po_fields as (-> & _). Qed.
Lemma po_owner o : owner s' o = owner s o.
Proof. unfold owner. by destruct po_fields as (_ & _ & -> & _). Qed.
End Prios.

Lemma reordered_refl g : reordered g g.
Proof. done. Qed.
Lemma reordered_trans g1 g2 g3 : reordered g1 g2 -> reordered g2 g3 -> reordered g1 g3.
Proof. intros [A B] [C D]. split; [intros o; by rewrite C, A|by rewrite D, B]. Qed.

Section Sok.
Context (INHERIT : bool) (idle : Z).
Abbreviation mok := (mok INHERIT idle).

Record sok (skip : option Z) (own : Z -> list Z) (g : ghost) (s : kern) : Prop := Sok {
  so_k : kok g s;
  so_t : tok g s;
  so_m : mok skip own g s;
  so_i : iok idle s
}.

(** One task changes, its mutexes do not. *)
Lemma sok_step skip own g s t k k' g' s' :
  sok skip own g s -> tasks s !! t = Some k -> step1 t k' g s g' s' -> t <> idle -> prio k' < 61 -> b_prio k' < 61 -> mutex_list k' = mutex_list k ->
  (task_state k = K_DELETED -> task_state k' = K_DELETED) ->
  (task_state k' <> K_DELETED \/ (own t = [] /\ (forall o, mutex_type s o -> owner s o <> Some t))) ->
  (forall o, wh g' t = AtObj o -> (o ∉ own t) /\ (mutex_type s o -> is_Some (owner s o) /\ owner s o <> Some t)) -> sok skip own g' s'.
Proof.
  intros [KO TO MO IO] Ht [Sp TO'] Hti Hp Hb Em Hdel Hlv Hw. pose proof (sp_tasks _ _ _ _ _ _ Sp) as Et. pose proof (sp_objs _ _ _ _ _ _ Sp) as Eo. pose proof (sp_mutexes _ _ _ _ _ _ Sp) as Emu.
  assert (sems s' = sems s) as Es by (destruct Sp as [(m & q & ->) _ _]; done).
  assert (forall x, x <> t -> live s x -> live s' x) as Hlx by (intros x Hx (kx & H1 & H2); exists kx; by rewrite Et, lookup_insert_ne).
  assert (forall o, mutex_type s' o <-> mutex_type s o) as Hty by (intros o; unfold mutex_type; by rewrite Eo).
  assert (forall o, owner s' o = owner s o) as How by (intros o; unfold owner; by rewrite Emu).
  assert (task_state k' <> K_DELETED -> live s' t) as Hlt by (intros H; exists k'; by rewrite Et, lookup_insert_eq).
  split; [by apply Sp|done| |].
  - destruct MO as [M1 M2 M3 M4 M5 M6 M7 M8]. split.
    + intros o b. rewrite Eo, Es. apply M1.
    + intros o. rewrite Hty, Emu. apply M2.
    + intros x kx Hx Hd Hs. rewrite Emu. destruct (decide (x = t)) as [->|Hne].
      * rewrite Et, lookup_insert_eq in Hx. injection Hx as <-. rewrite Em. apply M3; auto.
      * rewrite Et, lookup_insert_ne in Hx by done. by apply M3.
    + done.
    + intros x o Ho. destruct (M5 x o Ho) as (D1 & D2 & D3 & D4 & D5). rewrite Eo, How. split_and!; try done. destruct (decide (x = t)) as [->|Hne]; [|by apply Hlx].
      destruct Hlv as [Hl|[Hl _]]; [by apply Hlt|]. rewrite Hl in Ho. by apply elem_of_nil in Ho.
    + intros o x. rewrite Hty, How. intros Ho Hx. destruct (M6 o x Ho Hx) as [D1 D2]. split; [|done]. destruct (decide (x = t)) as [->|Hne]; [|by apply Hlx].
      destruct Hlv as [Hl|[_ Hl]]; [by apply Hlt|]. by destruct (Hl o Ho).
    + intros x o. rewrite Hty, How. intros Ho Hx. destruct (decide (x = t)) as [->|Hne]; [by apply (Hw o Hx)|]. rewrite (stp_wh _ _ _ _ _ _ KO Sp x Hne) in Hx. by apply M7.
    + intros x o Ho Hx. destruct (decide (x = t)) as [->|Hne]; [by destruct (Hw o Hx)|]. rewrite (stp_wh _ _ _ _ _ _ KO Sp x Hne) in Hx. by apply (M8 x o).
  - destruct IO as [(ki & H1 & H2) H3 H4]. split; [exists ki; by rewrite Et, lookup_insert_ne by done| |by destruct Sp as [(m & q & ->) _ _]]. intros x kx Hx Hxi. destruct (decide (x = t)) as [->|Hne].
    + rewrite Et, lookup_insert_eq in Hx. by injection Hx as <-.
    + rewrite Et, lookup_insert_ne in Hx by done. by apply (H3 x).
Qed.

(** Only the priority changes. *)
Lemma sok_prio skip own g s t k n g' s' :
  sok skip own g s -> tasks s !! t = Some k -> step1 t (set_prio n k) g s g' s' -> t <> idle -> n < 61 -> task_state k <> K_DELETED -> reordered g g' -> sok skip own g' s'.
Proof.
  intros SO Ht S1 Hti Hn Hl [Hr _]. pose proof SO as [KO TO MO IO]. apply (sok_step skip own g s t k (set_prio n k) g' s' SO Ht S1); try done.
  - by apply (io_other _ _ IO t k).
  - by left.
  - intros o Hw. assert (wh g t = AtObj o) as Hw'.
    { apply (in_wh _ _ _ (ko_placed _ _ KO)). rewrite <- Hr. by apply (wh_in _ _ _ (ko_placed _ _ (sp_kok _ _ _ _ _ _ (s1_stp _ _ _ _ _ _ S1)))). }
    split; [intros Ho; by apply (mk_self _ _ _ _ _ _ MO t o Ho)|]. intros Hty. by apply (mk_wait _ _ _ _ _ _ MO t o Hty).
Qed.

(** ** One round *)

(** The owner [w] of the mutex the task waits for, and what the round decides about it. *)
Definition go_on (own : Z -> list Z) (t old new : Z) (g1 : ghost) (s1 : kern) (w n : Z) : Prop :=
  exists kw, tasks s1 !! w = Some kw /\
    (n = new /\ new < prio kw \/ ~ new < prio kw /\ prio kw = old /\ n = least (b_prio kw) (firsts g1 s1 (own w)) /\ n <> prio kw).
Definition stop_at (own : Z -> list Z) (old new : Z) (g1 : ghost) (s1 : kern) (w : Z) : Prop :=
  exists kw, tasks s1 !! w = Some kw /\ ~ new < prio kw /\ (prio kw = old -> least (b_prio kw) (firsts g1 s1 (own w)) = prio kw).

Lemma pend_round own g s t k new :
  sok None own g s -> tasks s !! t = Some k -> waiting k = true -> t <> idle -> 0 <= new < 61 ->
  exists o g1 s1 more, pri_change_pend INHERIT t new s = Ret (more, s1) /\ step1 t (set_prio new k) g s g1 s1 /\ reordered g g1 /\ wh g t = AtObj o /\
    match more with
    | Some (w, n) => mutex_type s o /\ owner s o = Some w /\ go_on own t (prio k) new g1 s1 w n
    | None => mutex_type s o -> exists w, owner s o = Some w /\ stop_at own (prio k) new g1 s1 w
    end.
Proof.
  intros SO Ht Hwa Hti Hn. pose proof SO as [KO TO MO IO]. destruct (waiting_at g s KO TO t k Ht Hwa) as (o & Ho & Hw & Hob).
  destruct (pri_pend g s KO TO t k Ht new ltac:(lia) o Hwa Ho) as (g1 & s1 & E & S1 & Hr). exists o, g1, s1.
  assert (task_state k <> K_DELETED) as Hl by (intros E2; unfold waiting in Hwa; by rewrite E2 in Hwa).
  pose proof (sok_prio None own g s t k new g1 s1 SO Ht S1 Hti ltac:(lia) Hl Hr) as SO1.
  unfold pri_change_pend. rewrite (get_task_eq _ _ _ Ht). cbn [mbind outcome_bind].
  destruct (upd_task t (set_prio new) s) as [sx|] eqn:Eu; cbn [mbind outcome_bind] in E |- *; try discriminate E. rewrite E, Ho. cbn [mbind outcome_bind non_null].
  apply elem_of_dom in Hob as [b Hb]. pose proof (sp_objs _ _ _ _ _ _ (s1_stp _ _ _ _ _ _ S1)) as Eo. unfold get_obj. rewrite Eo, Hb. cbn [mbind outcome_bind].
  case_decide as Hty; [|exists None; split_and!; try done; unfold mutex_type; rewrite Hb; cbn; intros [= ?]; done].
  assert (mutex_type s o) as Hmt by (unfold mutex_type; rewrite Hb; cbn; by f_equal).
  destruct (mk_mutex _ _ _ _ _ _ MO o Hmt) as [x Hx]. destruct (mk_wait _ _ _ _ _ _ MO t o Hmt Hw) as [[w Hwo] Hne].
  destruct (mk_live _ _ _ _ _ _ (so_m _ _ _ _ SO1) o w) as [(kw & Hkw & Hlw) Hwi].
  { unfold mutex_type. by rewrite Eo. }
  { unfold owner. by rewrite (sp_mutexes _ _ _ _ _ _ (s1_stp _ _ _ _ _ _ S1)). }
  assert (mutex_task x = Some w) as Hxw by (unfold owner in Hwo; rewrite Hx in Hwo; exact Hwo).
  unfold get_mutex. rewrite (sp_mutexes _ _ _ _ _ _ (s1_stp _ _ _ _ _ _ S1)), Hx. cbn [mbind outcome_bind]. rewrite Hxw. cbn [non_null mbind outcome_bind]. rewrite (get_task_eq _ _ _ Hkw). cbn [mbind outcome_bind].
  case_decide as Hlt; [exists (Some (w, new)); split_and!; try done; exists kw; split; [done|by left]|].
  case_decide as Heq.
  - destruct (look_ok INHERIT idle own g1 s1 w kw None (so_k _ _ _ _ SO1) (so_t _ _ _ _ SO1) (so_m _ _ _ _ SO1) Hkw Hlw) as (s2 & -> & _ & _ & E2). rewrite (E2 eq_refl). cbn [mbind outcome_bind without].
    case_decide as Hch; [eexists (Some (w, _)); split_and!; try done; exists kw; split; [done|right]; done|].
    exists None. split_and!; try done. intros _. exists w. split; [done|]. exists kw. by split_and!.
  - exists None. split_and!; try done. intros _. exists w. split; [done|]. exists kw. by split_and!.
Qed.

(** ** Inherited priorities *)

Definition inh (base : Z -> Z) (own : Z -> list Z) (g : ghost) (s : kern) (x : Z) : Prop := prio_of s x = least (base x) (firsts g s (own x)).

Lemma z_ext (a b : Z) : (forall x, x <= a <-> x <= b) -> a = b.
Proof. intros H. pose proof (H a). pose proof (H b). lia. Qed.

(** Waiting tasks and their priorities decide. *)
Lemma le_eff b l g s x : tok g s -> x <= least b (firsts g s l) <-> x <= b /\ forall o w, o ∈ l -> w ∈ wait g o -> x <= prio_of s w.
Proof. intros TO. rewrite le_least, le_firsts; [done|apply TO]. Qed.

Lemma eff_same b l g s g1 s1 :
  tok g s -> tok g1 s1 -> reordered g g1 -> (forall o w, o ∈ l -> w ∈ wait g o -> prio_of s1 w = prio_of s w) -> least b (firsts g1 s1 l) = least b (firsts g s l).
Proof.
  intros TO TO1 [Hr _] Hp. apply z_ext. intros x. rewrite !le_eff by done. setoid_rewrite Hr. split; intros [H1 H2]; (split; [done|]); intros o w Ho Hw; [rewrite <- (Hp o) by done|rewrite (Hp o) by done]; by apply (H2 o).
Qed.

(** What the owner of the mutex inherits after a round. *)
Section Round.
Context (base : Z -> Z) (own : Z -> list Z) (g : ghost) (s : kern) (t : Z) (k : ktask_t) (new : Z) (g1 : ghost) (s1 : kern).
Context (TO : tok g s) (TO1 : tok g1 s1) (Ht : tasks s !! t = Some k) (S1 : stp t (set_prio new k) g s g1 s1) (Hr : reordered g g1) (P : placed (dom (tasks s)) (dom (objs s)) g).

Lemma round_prio x : prio_of s1 x = if decide (x = t) then new else prio_of s x.
Proof. unfold prio_of. rewrite (sp_tasks _ _ _ _ _ _ S1). case_decide as E; [subst x; by rewrite lookup_insert_eq|by rewrite lookup_insert_ne]. Qed.

Lemma round_other x : (forall o, o ∈ own x -> wh g t <> AtObj o) -> least (base x) (firsts g1 s1 (own x)) = least (base x) (firsts g s (own x)).
Proof.
  intros Hn. apply (eff_same _ _ _ _ _ _ TO TO1 Hr). intros o w Ho Hw. rewrite round_prio, decide_False; [done|]. intros ->. apply (Hn o Ho). by apply (in_wh _ _ _ P).
Qed.

Context (w o : Z) (Ho : o ∈ own w) (Hwo : wh g t = AtObj o) (Hinh : inh base own g s w).

Lemma waits : t ∈ wait g o.
Proof. by apply (wh_in _ _ _ P). Qed.

Lemma owner_le : prio_of s w <= prio k.
Proof.
  pose proof (proj1 (le_eff (base w) (own w) g s (prio_of s w) TO)) as H. unfold inh in Hinh. rewrite <- Hinh in H. destruct (H (Z.le_refl _)) as [_ H2].
  specialize (H2 o t Ho waits). unfold prio_of in H2 at 2. by rewrite Ht in H2.
Qed.

Lemma round_raise : new < prio_of s w -> least (base w) (firsts g1 s1 (own w)) = new.
Proof.
  intros Hlt. unfold inh in Hinh. apply z_ext. intros x. rewrite le_eff by done. split.
  - intros [_ H]. specialize (H o t Ho). rewrite round_prio, decide_True in H by done. apply H. rewrite (proj1 Hr o). apply waits.
  - intros Hx. assert (x <= prio_of s w) as Hle by lia. rewrite Hinh, le_eff in Hle by done. destruct Hle as [H1 H2]. split; [done|]. intros o' v Ho' Hv.
    rewrite round_prio. case_decide; [done|]. rewrite (proj1 Hr o') in Hv. by apply (H2 o').
Qed.

Lemma round_keep : ~ new < prio_of s w -> prio_of s w <> prio k -> least (base w) (firsts g1 s1 (own w)) = prio_of s w.
Proof.
  intros Hge Hne. pose proof owner_le as Hle. unfold inh in Hinh. apply z_ext. intros x. rewrite le_eff by done. split.
  - intros [H1 H2]. rewrite Hinh. destruct (least_in (base w) (firsts g s (own w))) as [->|Hin]; [done|]. apply elem_firsts in Hin as (o' & v & Ho' & Hv & E). rewrite E.
    specialize (H2 o' v Ho'). rewrite (proj1 Hr o') in H2. specialize (H2 (head_Some_elem_of _ _ Hv)). rewrite round_prio in H2. case_decide as Ev; [|done]. subst v.
    rewrite Hinh, E in Hne. unfold prio_of in Hne. rewrite Ht in Hne. done.
  - intros Hx. pose proof Hx as Hx2. rewrite Hinh, le_eff in Hx2 by done. destruct Hx2 as [H1 H2]. split; [done|]. intros o' v Ho' Hv. rewrite round_prio. case_decide; [lia|].
    rewrite (proj1 Hr o') in Hv. by apply (H2 o').
Qed.
End Round.

(** ** The loop *)

(** The lists of mutexes say who owns which. *)
Definition full (own : Z -> list Z) (s : kern) : Prop :=
  (forall o x, mutex_type s o -> owner s o = Some x -> o ∈ own x) /\ (forall o x, o ∈ own x -> mutex_type s o).
Definition base_is (base : Z -> Z) (s : kern) : Prop := forall x k, tasks s !! x = Some k -> base x = b_prio k.

(** Rounds left. *)
Definition rounds (fuel : nat) (old new : Z) (s : kern) : Prop :=
  (new < old /\ (level (fun p => (new < p)%Z) s < fuel)%nat) \/ (level (fun p => p = old) s + base.size (tasks s) < fuel)%nat.

Lemma rounds_next fuel t k new g s g1 s1 kw w n own :
  tasks s !! t = Some k -> stp t (set_prio new k) g s g1 s1 -> new <> prio k -> rounds (S fuel) (prio k) new s -> tasks s1 !! w = Some kw ->
  (n = new /\ new < prio kw \/ ~ new < prio kw /\ prio kw = prio k /\ n = least (b_prio kw) (firsts g1 s1 (own w)) /\ n <> prio kw) -> rounds fuel (prio kw) n s1.
Proof.
  intros Ht S1 Hne Hf Hkw Hn. pose proof (sp_tasks _ _ _ _ _ _ S1) as Et.
  assert (base.size (tasks s1) = base.size (tasks s)) as Esz by (rewrite Et; by apply map_size_insert_Some).
  destruct Hn as [[-> Hlt]|(Hge & Heq & _ & Hne2)].
  - left. split; [done|]. destruct Hf as [[Hlo Hf]|Hf].
    + pose proof (level_drop (fun p => new < p) s s1 t k _ Ht Et Hlo ltac:(cbn; lia)). lia.
    + pose proof (level_le (fun p => new < p) s1). pose proof (level_pos (fun p => p = prio k) s t k Ht eq_refl). lia.
  - right. destruct Hf as [[Hlo _]|Hf]; [lia|]. rewrite Heq. pose proof (level_drop (fun p => p = prio k) s s1 t k _ Ht Et eq_refl ltac:(done)). lia.
Qed.

Definition changed (own : Z -> list Z) (g : ghost) (s : kern) (g' : ghost) (s' : kern) : Prop := sok None own g' s' /\ reordered g g' /\ prios_only s s'.

Lemma changed_trans own g s g1 s1 g2 s2 : changed own g s g1 s1 -> changed own g1 s1 g2 s2 -> changed own g s g2 s2.
Proof. intros (_ & A & B) (C & D & E). split_and!; [done|by eapply reordered_trans|by eapply prios_trans]. Qed.

Lemma changed_round own g s t k new g1 s1 :
  sok None own g s -> tasks s !! t = Some k -> task_state k <> K_DELETED -> t <> idle -> 0 <= new < 61 ->
  step1 t (set_prio new k) g s g1 s1 -> reordered g g1 -> changed own g s g1 s1.
Proof.
  intros SO Ht Hl Hti Hn S1 Hr. split_and!; [|done|by eapply prios_step; [|apply S1]]. apply (sok_prio None own g s t k new g1 s1 SO Ht S1); try done. lia.
Qed.

(** All tasks but [t] have the priority they inherit, and [new] is the one of [t]: then all have it in the end. *)
Definition restores (base : Z -> Z) (own : Z -> list Z) (t : Z) (k : ktask_t) (new : Z) (g : ghost) (s : kern) (g' : ghost) (s' : kern) : Prop :=
  (task_state k <> K_RDY -> full own s) -> (forall x, x <> t -> live s x -> inh base own g s x) -> new = least (base t) (firsts g s (own t)) ->
  base_is base s \/ new < prio k -> forall x, live s' x -> inh base own g' s' x.

(** A raised priority leaves the tasks alone that are as urgent. *)
Definition raises (k : ktask_t) (new : Z) (s s' : kern) : Prop := new < prio k -> forall x, prio_of s x <= new -> prio_of s' x = prio_of s x.

Section Restore.
Context (base : Z -> Z) (own : Z -> list Z) (g : ghost) (s : kern) (SO : sok None own g s) (t : Z) (k : ktask_t) (Ht : tasks s !! t = Some k).
Context (new : Z) (g1 : ghost) (s1 : kern) (S1 : step1 t (set_prio new k) g s g1 s1) (Hr : reordered g g1).

Abbreviation Sp := (s1_stp _ _ _ _ _ _ S1).
Abbreviation TO1 := (s1_tok _ _ _ _ _ _ S1).
Abbreviation TO := (so_t _ _ _ _ SO).
Abbreviation PL := (ko_placed _ _ (so_k _ _ _ _ SO)).

Lemma round_live x : live s1 x <-> live s x.
Proof. apply po_live. by apply (prios_step t k new g s g1 s1 Ht Sp). Qed.

(** A task none of whose mutexes [t] waits for. *)
Lemma inh_aside x : x <> t -> (forall o, o ∈ own x -> wh g t <> AtObj o) -> inh base own g s x -> inh base own g1 s1 x.
Proof. intros Hx Hn E. unfold inh. rewrite (round_other base own g s t k new g1 s1 TO TO1 Sp Hr PL x Hn). by rewrite (round_prio g s t k new g1 s1 Sp), decide_False. Qed.

Lemma inh_self : new = least (base t) (firsts g s (own t)) -> inh base own g1 s1 t.
Proof.
  intros E. unfold inh. rewrite (round_other base own g s t k new g1 s1 TO TO1 Sp Hr PL t) by (intros o Ho; by apply (mk_self _ _ _ _ _ _ (so_m _ _ _ _ SO) t o)).
  by rewrite (round_prio g s t k new g1 s1 Sp), decide_True.
Qed.

Lemma last_round : (forall o, wh g t <> AtObj o) -> restores base own t k new g s g1 s1.
Proof.
  intros Hw _ Hx Hnew _ x Hlx. apply round_live in Hlx. destruct (decide (x = t)) as [->|Hne]; [by apply inh_self|]. apply inh_aside; auto.
Qed.

Context (o : Z) (Hw : wh g t = AtObj o) (Hnr : task_state k <> K_RDY).

(** Everybody but the owner of the mutex. *)
Lemma inh_rest : full own s -> (forall x, x <> t -> live s x -> inh base own g s x) -> new = least (base t) (firsts g s (own t)) ->
  forall x, live s1 x -> ~ (mutex_type s o /\ owner s o = Some x) -> inh base own g1 s1 x.
Proof.
  intros [_ Hty] Hx Hnew x Hlx Hno. apply round_live in Hlx. destruct (decide (x = t)) as [->|Hne]; [by apply inh_self|]. apply inh_aside; [done| |auto].
  intros o' Ho' E. rewrite Hw in E. injection E as <-. apply Hno. split; [by apply (Hty o x)|]. by apply (mk_own _ _ _ _ _ _ (so_m _ _ _ _ SO)).
Qed.

Lemma same_prio w kw : w <> t -> tasks s1 !! w = Some kw -> prio_of s w = prio kw /\ prio_of s1 w = prio kw /\ tasks s !! w = Some kw.
Proof. intros Hne Hkw. pose proof (sp_other _ _ _ _ _ _ w Sp Hne) as E. unfold prio_of. rewrite <- E, Hkw. done. Qed.

Lemma stop_round :
  (mutex_type s o -> exists w, owner s o = Some w /\ stop_at own (prio k) new g1 s1 w) -> restores base own t k new g s g1 s1.
Proof.
  intros Hst Hfull Hx Hnew Hbase x Hlx. specialize (Hfull Hnr). destruct (decide (mutex_type s o)) as [Hty|Hty]; [|by apply inh_rest; [..|intros [? _]]].
  destruct (Hst Hty) as (w & How & kw & Hkw & Hge & Heq). destruct (decide (x = w)) as [->|Hne]; [|apply inh_rest; try done; intros [_ ?]; congruence].
  destruct (mk_wait _ _ _ _ _ _ (so_m _ _ _ _ SO) t o Hty Hw) as [_ Hown]. assert (w <> t) as Hwt by congruence. destruct (same_prio w kw Hwt Hkw) as (Ep & Ep1 & Hkw0).
  apply round_live in Hlx. pose proof (Hx w Hwt Hlx) as Hinh. pose proof (proj1 Hfull o w Hty How) as Hin. unfold inh. rewrite Ep1. rewrite <- Ep in Hge, Heq |- *.
  destruct (decide (prio_of s w = prio k)) as [E|E].
  - pose proof (owner_le base own g s t k TO Ht PL w o Hin Hw Hinh) as Hle. destruct Hbase as [Hb|Hlt]; [|lia]. rewrite (Hb w kw Hkw0). symmetry. by apply Heq.
  - symmetry. by apply (round_keep base own g s t k new g1 s1 TO TO1 Ht Sp Hr PL w o Hin Hw Hinh).
Qed.

Lemma next_round w n kw g2 s2 :
  mutex_type s o -> owner s o = Some w -> tasks s1 !! w = Some kw ->
  (n = new /\ new < prio kw \/ ~ new < prio kw /\ prio kw = prio k /\ n = least (b_prio kw) (firsts g1 s1 (own w)) /\ n <> prio kw) ->
  restores base own w kw n g1 s1 g2 s2 -> restores base own t k new g s g2 s2.
Proof.
  intros Hty How Hkw Hn Hres Hfull Hx Hnew Hbase. specialize (Hfull Hnr). pose proof (prios_step t k new g s g1 s1 Ht Sp) as Hpo.
  destruct (mk_wait _ _ _ _ _ _ (so_m _ _ _ _ SO) t o Hty Hw) as [_ Hown]. assert (w <> t) as Hwt by congruence. destruct (same_prio w kw Hwt Hkw) as (Ep & Ep1 & Hkw0).
  destruct (mk_live _ _ _ _ _ _ (so_m _ _ _ _ SO) o w Hty How) as [Hlw _]. pose proof (Hx w Hwt Hlw) as Hinh. pose proof (proj1 Hfull o w Hty How) as Hin.
  pose proof (owner_le base own g s t k TO Ht PL w o Hin Hw Hinh) as Hle. rewrite Ep in Hle. apply Hres.
  - intros _. split; [intros o' x; rewrite (po_type s s1 Hpo), (po_owner s s1 Hpo); apply Hfull|intros o' x Ho'; apply (po_type s s1 Hpo); by apply (proj2 Hfull o' x)].
  - intros x Hxw Hlx. apply inh_rest; try done. intros [_ ?]. congruence.
  - destruct Hn as [[-> Hlt]|(Hge & Heq & -> & Hne)].
    + symmetry. apply (round_raise base own g s t k new g1 s1 TO TO1 Sp Hr PL w o Hin Hw Hinh). by rewrite Ep.
    + destruct Hbase as [Hb|Hlt]; [by rewrite (Hb w kw Hkw0)|lia].
  - destruct Hn as [[-> Hlt]|(Hge & Heq & -> & Hne)]; [by right|]. left. destruct Hbase as [Hb|Hlt]; [|lia]. intros x kx Hkx. destruct (po_task_inv s s1 Hpo x kx Hkx) as (k0 & Hk0 & ->). by apply (Hb x k0).
Qed.
End Restore.

Lemma pri_loop base own : forall fuel g s t k new,
  sok None own g s -> tasks s !! t = Some k -> task_state k <> K_DELETED -> t <> idle -> 0 <= new < 61 -> prio k = new \/ rounds fuel (prio k) new s -> (1 <= fuel)%nat ->
  exists g' s', pri_change_loop INHERIT fuel t new s = Ret s' /\ changed own g s g' s' /\ restores base own t k new g s g' s' /\ raises k new s s'.
Proof.
  induction fuel as [|fuel IH]; intros g s t k new SO Ht Hl Hti Hn Hf H1; [lia|]. pose proof SO as [KO TO MO IO].
  cbn [pri_change_loop]. rewrite (get_task_eq _ _ _ Ht). cbn [mbind outcome_bind]. case_decide as Heq.
  { exists g, s. split_and!; [done|by split_and!| |done]. intros _ Hx Ht2 _ x Hlx. destruct (decide (x = t)) as [->|Hxt]; [|by apply Hx]. unfold inh, prio_of. by rewrite Ht, Heq. }
  destruct Hf as [?|Hf]; [done|].
  assert (forall g1 s1, step1 t (set_prio new k) g s g1 s1 -> raises k new s s1) as Hra.
  { intros g1 s1 S1 Hlt x Hx. rewrite (round_prio g s t k new g1 s1 (s1_stp _ _ _ _ _ _ S1)). case_decide as E; [|done]. subst x. unfold prio_of in Hx |- *. rewrite Ht in Hx |- *. lia. }
  assert (waiting k = false -> task_state k <> K_RDY -> exists g' s', upd_task t (set_prio new) s = Ret s' /\ changed own g s g' s' /\ restores base own t k new g s g' s' /\ raises k new s s') as Hstill.
  { intros Hwa Hnr. destruct (pri_still g s KO TO t k Ht new ltac:(lia) Hwa Hnr) as (s1 & E & S1 & Hr). exists g, s1. split_and!; [done|by eapply changed_round| |by apply (Hra g)].
    apply (last_round base own g s SO t k Ht new g s1 S1 Hr). by rewrite (nowhere_at g s TO t k Ht Hwa Hnr). }
  assert (waiting k = true -> exists g' s', ('(more, s) ← pri_change_pend INHERIT t new s; match more with Some (t, new_pri) => pri_change_loop INHERIT fuel t new_pri s | None => Ret s end) = Ret s' /\
    changed own g s g' s' /\ restores base own t k new g s g' s' /\ raises k new s s') as Hpend.
  { intros Hwa. destruct (pend_round own g s t k new SO Ht Hwa Hti Hn) as (o & g1 & s1 & more & -> & S1 & Hr & Hw & Hmore). cbn [mbind outcome_bind].
    pose proof (changed_round own g s t k new g1 s1 SO Ht Hl Hti Hn S1 Hr) as Hch. pose proof Hch as (SO1 & _ & Hpo). assert (task_state k <> K_RDY) as Hnr by (intros E; unfold waiting in Hwa; by rewrite E in Hwa).
    destruct more as [[w n]|]; [|exists g1, s1; split_and!; [done|done|by apply (stop_round base own g s SO t k Ht new g1 s1 S1 Hr o)|by apply (Hra g1)]].
    destruct Hmore as (Hty & How & kw & Hkw & Hgo). destruct (mk_live _ _ _ _ _ _ (so_m _ _ _ _ SO1) o w) as [(kw' & E & Hlw) Hwi]; [by rewrite (po_type s s1 Hpo)|by rewrite (po_owner s s1 Hpo)|].
    rewrite Hkw in E. injection E as <-. pose proof (rounds_next fuel t k new g s g1 s1 kw w n own Ht (s1_stp _ _ _ _ _ _ S1) ltac:(congruence) Hf Hkw Hgo) as Hf1.
    assert (0 <= n < 61) as Hnr2.
    { destruct Hgo as [[-> _]|(_ & _ & -> & _)]; [done|]. apply least_range; [pose proof (tk_base _ _ _ (to_task _ _ (so_t _ _ _ _ SO1) w kw Hkw)); destruct (io_other _ _ (so_i _ _ _ _ SO1) w kw Hkw Hwi); lia|].
      intros y (o' & v & _ & _ & ->)%elem_firsts. unfold prio_of. destruct (tasks s1 !! v) as [kv|] eqn:Ev; [|lia]. apply (tk_prio _ _ _ (to_task _ _ (so_t _ _ _ _ SO1) v kv Ev)). }
    destruct (IH g1 s1 w kw n SO1 Hkw Hlw Hwi Hnr2 (or_intror Hf1)) as (g2 & s2 & E & Hch2 & Hres2 & Hra2); [destruct Hf1 as [[_ ?]|?]; lia|].
    exists g2, s2. split_and!; [done|by eapply changed_trans|by apply (next_round base own g s SO t k Ht new g1 s1 S1 Hr o Hw Hnr w n kw)|].
    intros Hlt x Hx. destruct Hgo as [[-> Hlt2]|(Hge & Heq2 & _)]; [|lia]. pose proof (Hra g1 s1 S1 Hlt x Hx) as E1. rewrite <- E1 in Hx |- *. by apply Hra2. }
  unfold waiting in *. destruct (task_state k) eqn:Est; try (by auto); [by destruct (tk_seed _ _ _ (to_task _ _ TO t k Ht))|].
  destruct (pri_ready g s KO TO t k Ht new ltac:(lia) Est (idle_ready idle g s t TO IO Hti)) as (g1 & s1 & E & S1 & Hr). exists g1, s1. split_and!; [done|eapply changed_round; try done; by rewrite Est| |by apply (Hra g1)].
  apply (last_round base own g s SO t k Ht new g1 s1 S1 Hr). by destruct (ready_at g s TO t k Ht Est) as [-> _].
Qed.

(** [task_pri_change] returns, also when tasks wait for each other in a circle. *)
Lemma task_pri_change_ok base own g s t k new :
  sok None own g s -> tasks s !! t = Some k -> task_state k <> K_DELETED -> t <> idle -> 0 <= new < 61 ->
  exists g' s', task_pri_change INHERIT t new s = Ret s' /\ changed own g s g' s' /\ restores base own t k new g s g' s' /\ raises k new s s'.
Proof.
  intros SO Ht Hl Hti Hn. apply (pri_loop base own); try done; [|lia]. right. right. pose proof (level_le (fun p => p = prio k) s). lia.
Qed.
End Sok.
