(* ===== verification/KInv.v ===== *)
(** * The invariant of the kernel

    Between two calls: the lists and the tasks agree, objects and mutexes are in order,
    priorities are inherited, no timeout has passed, and the task that runs is the most
    urgent one that is ready. *)

From stdpp Require Import gmap sorting.
From S2P Require Import Prelude KBits KList KKern KCalls KQueue KTasks KSteps KOwn KInherit.

Definition b_of (s : kern) (x : Z) : Z := match tasks s !! x with Some k => b_prio k | None => 0 end.
Definition inherited (own : Z -> list Z) (g : ghost) (s : kern) : Prop := forall x, live s x -> inh (b_of s) own g s x.
Definition ready (s : kern) (t : Z) : Prop := exists k, tasks s !! t = Some k /\ task_state k = K_RDY.

(** The running task is the first of the most urgent ready tasks. *)
Definition best (g : ghost) (s : kern) : Prop := exists p l, rdy g p = g_active_task s :: l /\ forall y q, wh g y = AtReady q -> p <= q.

(** Objects; [ex] is one that is being released or deleted. *)
Record ook (ex : option Z) (g : ghost) (s : kern) : Prop := Ook {
  oo_none : forall t o b, wh g t = AtObj o -> objs s !! o = Some b -> Some o <> ex -> obj_type b <> RHINO_OBJ_TYPE_NONE;
  oo_sem : forall o b x, objs s !! o = Some b -> obj_type b = RHINO_SEM_OBJ_TYPE -> sems s !! o = Some x ->
    0 <= sem_count x < 2 ^ 32 /\ forall t, wh g t = AtObj o -> sem_count x = 0;
  oo_nest : forall o x, mutex_type s o -> mutexes s !! o = Some x -> Some o <> ex -> 0 <= owner_nested x < 2 ^ 32 /\ (mutex_task x <> None -> 1 <= owner_nested x);
  oo_level : 0 <= g_intrpt_nested_level s < 256;
  oo_lock : 0 <= g_sched_lock s <= 200;
  oo_run : g_sys_stat s = RHINO_RUNNING
}.

Lemma base_is_b s : base_is (b_of s) s.
Proof. intros x k H. unfold b_of. by rewrite H. Qed.

Lemma inh_base base base' own g s x : base x = base' x -> inh base own g s x -> inh base' own g s x.
Proof. intros E. unfold inh. by rewrite E. Qed.

(** What a task inherits is decided by the tasks waiting for its mutexes. *)
Lemma eff_ext b l g s g1 s1 :
  tok g s -> tok g1 s1 -> (forall o w, o ∈ l -> w ∈ wait g1 o <-> w ∈ wait g o) -> (forall o w, o ∈ l -> w ∈ wait g o -> prio_of s1 w = prio_of s w) ->
  least b (firsts g1 s1 l) = least b (firsts g s l).
Proof.
  intros TO TO1 Hin Hp. apply z_ext. intros x. rewrite !le_eff by done. split; intros [H1 H2]; (split; [done|]); intros o w Ho Hw.
  - rewrite <- (Hp o) by done. apply (H2 o); [done|]. by apply Hin.
  - apply (Hin o w Ho) in Hw. rewrite (Hp o) by done. by apply (H2 o).
Qed.

Section Step.
Context (g : ghost) (s : kern) (KO : kok g s) (TO : tok g s) (t : Z) (k k' : ktask_t) (Ht : tasks s !! t = Some k) (g' : ghost) (s' : kern) (S1 : step1 t k' g s g' s').

Lemma step_in o w : w <> t \/ (wh g' t = AtObj o <-> wh g t = AtObj o) -> w ∈ wait g' o <-> w ∈ wait g o.
Proof.
  pose proof (ko_placed _ _ KO) as P. pose proof (ko_placed _ _ (sp_kok _ _ _ _ _ _ (s1_stp _ _ _ _ _ _ S1))) as P'.
  intros H. destruct (decide (w = t)) as [->|Hne].
  - destruct H as [?|H]; [done|]. split; intros Hin; [apply (in_wh _ _ _ P') in Hin; apply (wh_in _ _ _ P); [done|by apply H]|apply (in_wh _ _ _ P) in Hin; apply (wh_in _ _ _ P'); [done|by apply H]].
  - rewrite <- (rest_in t (wait g' o)), <- (rest_in t (wait g o)) by done. by rewrite (mv_lst _ _ _ (sp_mv _ _ _ _ _ _ (s1_stp _ _ _ _ _ _ S1))).
Qed.

Lemma step_b x : b_prio k' = b_prio k -> b_of s' x = b_of s x.
Proof.
  intros E. unfold b_of. rewrite (sp_tasks _ _ _ _ _ _ (s1_stp _ _ _ _ _ _ S1)). destruct (decide (x = t)) as [->|Hx]; [by rewrite lookup_insert_eq, Ht|by rewrite lookup_insert_ne].
Qed.
Lemma step_prio x : prio k' = prio k -> prio_of s' x = prio_of s x.
Proof.
  intros E. unfold prio_of. rewrite (sp_tasks _ _ _ _ _ _ (s1_stp _ _ _ _ _ _ S1)). destruct (decide (x = t)) as [->|Hx]; [by rewrite lookup_insert_eq, Ht|by rewrite lookup_insert_ne].
Qed.
Lemma step_live x : (task_state k = K_DELETED -> task_state k' = K_DELETED) -> live s' x -> live s x.
Proof.
  intros Hd (kx & Hx & Hl). rewrite (sp_tasks _ _ _ _ _ _ (s1_stp _ _ _ _ _ _ S1)) in Hx. destruct (decide (x = t)) as [->|Hne].
  - rewrite lookup_insert_eq in Hx. injection Hx as <-. exists k. split; [done|]. auto.
  - rewrite lookup_insert_ne in Hx by done. by exists kx.
Qed.

(** A task whose mutexes [t] waits for as before. *)
Lemma inh_step own x :
  prio k' = prio k -> b_prio k' = b_prio k -> (forall o, o ∈ own x -> wh g' t = AtObj o <-> wh g t = AtObj o) -> inh (b_of s) own g s x -> inh (b_of s') own g' s' x.
Proof.
  intros Ep Eb Hn E. unfold inh. rewrite step_prio, step_b by done. rewrite (eff_ext _ _ g s g' s' TO (s1_tok _ _ _ _ _ _ S1)); [done| |by intros; apply step_prio].
  intros o w Ho. apply step_in. right. by apply Hn.
Qed.

Lemma inherited_step own :
  prio k' = prio k -> b_prio k' = b_prio k -> (task_state k = K_DELETED -> task_state k' = K_DELETED) ->
  (forall x o, o ∈ own x -> wh g' t = AtObj o <-> wh g t = AtObj o) -> inherited own g s -> inherited own g' s'.
Proof. intros Ep Eb Hd Hn Hi x Hx. apply inh_step; try done; [intros o; apply Hn|]. apply Hi. by apply step_live. Qed.

Lemma ook_step ex :
  ook ex g s -> (forall o b, wh g' t = AtObj o -> objs s !! o = Some b -> (Some o <> ex -> obj_type b <> RHINO_OBJ_TYPE_NONE) /\
    (obj_type b = RHINO_SEM_OBJ_TYPE -> forall x, sems s !! o = Some x -> sem_count x = 0)) -> ook ex g' s'.
Proof.
  intros [O1 O2 O3 O4 O5 O6] Hw. pose proof (s1_stp _ _ _ _ _ _ S1) as Sp. assert (objs s' = objs s /\ sems s' = sems s /\ mutexes s' = mutexes s /\ g_intrpt_nested_level s' = g_intrpt_nested_level s /\ g_sched_lock s' = g_sched_lock s /\ g_sys_stat s' = g_sys_stat s) as (E1 & E2 & E3 & E4 & E5 & E6).
  { destruct Sp as [(m & q & ->) _ _]. done. }
  split; rewrite ?E4, ?E5, ?E6; try done.
  - intros x o b Hx Hb He. rewrite E1 in Hb. destruct (decide (x = t)) as [->|Hne]; [by apply (Hw o b)|]. rewrite (stp_wh _ _ _ _ _ _ KO Sp x Hne) in Hx. by apply (O1 x o).
  - intros o b x. rewrite E1, E2. intros Hb Hty Hx. destruct (O2 o b x Hb Hty Hx) as [H1 H2]. split; [done|]. intros y Hy. destruct (decide (y = t)) as [->|Hne]; [by apply (Hw o b)|].
    rewrite (stp_wh _ _ _ _ _ _ KO Sp y Hne) in Hy. by apply (H2 y).
  - intros o x. unfold mutex_type. rewrite E1, E3. apply O3.
Qed.
End Step.

(** A change of priorities. *)
Lemma reordered_wh g s g' s' t o : kok g s -> kok g' s' -> reordered g g' -> wh g' t = AtObj o <-> wh g t = AtObj o.
Proof.
  intros KO KO' [Hr _]. pose proof (ko_placed _ _ KO) as P. pose proof (ko_placed _ _ KO') as P'. split; intros H.
  - apply (in_wh _ _ _ P). rewrite <- Hr. by apply (wh_in _ _ _ P').
  - apply (in_wh _ _ _ P'). rewrite Hr. by apply (wh_in _ _ _ P).
Qed.

Lemma ook_changed ex g s g' s' : kok g s -> kok g' s' -> reordered g g' -> prios_only s s' -> ook ex g s -> ook ex g' s'.
Proof.
  intros KO KO' Hr Hp [O1 O2 O3 O4 O5 O6]. destruct (po_fields s s' Hp) as (E1 & E2 & E3 & _ & _ & _ & E4 & E5 & E6 & _). split; rewrite ?E4, ?E5, ?E6; try done.
  - intros x o b Hx Hb He. rewrite E1 in Hb. apply (O1 x o b); [by apply (reordered_wh g s g' s')|done|done].
  - intros o b x. rewrite E1, E2. intros Hb Hty Hx. destruct (O2 o b x Hb Hty Hx) as [H1 H2]. split; [done|]. intros y Hy. apply (H2 y). by apply (reordered_wh g s g' s').
  - intros o x. unfold mutex_type. rewrite E1, E3. apply O3.
Qed.

(** Nobody waits for the object any more. *)
Lemma ook_done o g s : (forall t, wh g t <> AtObj o) -> ~ mutex_type s o -> ook (Some o) g s -> ook None g s.
Proof.
  intros Hw Hm [O1 O2 O3 O4 O5 O6]. split; try done.
  - intros t o' b Ht Hb _. apply (O1 t o' b Ht Hb). intros [= ->]. by apply (Hw t).
  - intros o' x Hty Hx _. apply (O3 o' x); [done|done|]. by intros [= ->].
Qed.

Lemma ook_chains ex g s s' : chains_only s s' -> ook ex g s -> ook ex g s'.
Proof.
  intros C [O1 O2 O3 O4 O5 O6]. destruct (co_fields s s' C) as (_ & E1 & E2 & _ & _ & _ & _ & E4 & E5 & E6 & _). split; rewrite ?E1, ?E2, ?E4, ?E5, ?E6; try done.
  intros o x Hty Hx He. rewrite (co_type s s' C) in Hty. destruct (fmap_rel _ _ _ _ (co_mutexes _ _ C o) Hx) as (y & Hy & F). destruct (O3 o y Hty Hy He) as [H1 H2]. destruct x, y. cbn in *. by injection F as <- <- <-.
Qed.

Section Inv.
Context (INHERIT : bool) (idle : Z).
Abbreviation sok := (sok INHERIT idle).

Record qok (ex : option Z) (own : Z -> list Z) (g : ghost) (s : kern) : Prop := Qok {
  qo_s : sok None own g s;
  qo_full : INHERIT = true -> full own s;
  qo_o : ook ex g s;
  qo_inh : INHERIT = true -> inherited own g s
}.

Record running (g : ghost) (s : kern) : Prop := Running {
  ru_ready : g_intrpt_nested_level s = 0 \/ 0 < g_sched_lock s -> ready s (g_active_task s);
  ru_task : g_active_task s ∈ dom (tasks s);
  ru_best : INHERIT = true -> g_intrpt_nested_level s = 0 -> g_sched_lock s = 0 -> best g s
}.

Record inv (own : Z -> list Z) (g : ghost) (s : kern) : Prop := Inv {
  in_q : qok None own g s;
  in_fresh : fresh g s;
  in_run : running g s
}.

Lemma full_step own t k' g s g' s' : stp t k' g s g' s' -> full own s -> full own s'.
Proof. intros S1. unfold full, mutex_type, owner. by rewrite (sp_objs _ _ _ _ _ _ S1), (sp_mutexes _ _ _ _ _ _ S1). Qed.
Lemma full_prios own s s' : prios_only s s' -> full own s -> full own s'.
Proof. intros Hp. unfold full, mutex_type, owner. by destruct (po_fields s s' Hp) as (-> & _ & -> & _). Qed.
Lemma full_chains own s s' : chains_only s s' -> full own s -> full own s'.
Proof. intros C [H1 H2]. split; [intros o x; rewrite (co_type s s' C), (co_owner s s' C); apply H1|intros o x; rewrite (co_type s s' C); apply H2]. Qed.

Lemma qok_active a b ex own g s : qok ex own g s -> qok ex own g (set_g_active_task a (set_g_preferred_ready_task b s)).
Proof.
  intros [[[K1 K2 K3] [T1 T2 T3 T4 T5] [M1 M2 M3 M4 M5 M6 M7 M8] [I1 I2 I3]] Q2 [O1 O2 O3 O4 O5 O6] Q4].
  split; [split; [split|split|split|split]| |split|]; assumption.
Qed.

(** The scheduler runs at the end of a call. *)
Lemma sched_exit own g s :
  qok None own g s -> fresh g s -> g_active_task s ∈ dom (tasks s) -> (0 < g_sched_lock s -> ready s (g_active_task s)) ->
  exists a, core_sched s = Ret (set_g_active_task a (set_g_preferred_ready_task (if decide (a = g_active_task s) then g_preferred_ready_task s else a) s)) /\
    inv own g (set_g_active_task a (set_g_preferred_ready_task (if decide (a = g_active_task s) then g_preferred_ready_task s else a) s)).
Proof.
  intros Q F Ha Hl. pose proof (qo_s _ _ _ _ Q) as [KO TO MO IO]. pose proof (io_idle _ _ IO) as (ki & Hki & Hst & _).
  assert (exists x p, wh g x = AtReady p) as Hex by (exists idle, (prio ki); by destruct (ready_at g s TO idle ki Hki Hst)).
  destruct (core_sched_ok g s KO Hex) as (a & E & H1 & H2). exists a. split; [done|]. pose proof (qo_o _ _ _ _ Q) as OO. pose proof (oo_level _ _ _ OO). pose proof (oo_lock _ _ _ OO).
  assert (Hrd : forall x p, wh g x = AtReady p -> ready s x).
  { intros x p Hx. assert (x ∈ dom (tasks s)) as [kx Hkx]%elem_of_dom by (apply (pl_task _ _ _ (ko_placed _ _ KO)); congruence). exists kx. split; [done|].
    pose proof (tk_place _ _ _ (to_task _ _ TO x kx Hkx)) as Hp. rewrite Hx in Hp. unfold place_of in Hp. destruct (task_state kx); try done; by destruct (blk_obj kx). }
  assert (ready s a \/ a = g_active_task s) as Hra.
  { destruct (decide (0 < g_intrpt_nested_level s \/ 0 < g_sched_lock s)) as [Hd|Hd]; [right; auto|]. destruct (H2 Hd) as (_ & p & Hp & _). left. by eapply Hrd. }
  split.
  - by apply qok_active.
  - exact F.
  - split; cbn [set_g_active_task set_g_preferred_ready_task g_active_task g_intrpt_nested_level g_sched_lock tasks].
    + intros Hd. change (ready s a). destruct (decide (0 < g_sched_lock s)) as [Hlk|Hlk]; [rewrite H1 by tauto; auto|]. destruct Hd as [Hd|Hd]; [|lia].
      destruct (H2 ltac:(lia)) as (_ & p & Hp & _). by eapply Hrd.
    + destruct Hra as [(kx & Hkx & _)|E2]; [by apply elem_of_dom|by rewrite E2].
    + intros _ Hn0 Hl0. destruct (H2 ltac:(lia)) as (Hhd & p & Hp & Hmin). unfold best. cbn [set_g_active_task g_active_task]. exists (highest_pri (rq s)).
      destruct (rdy g (highest_pri (rq s))) as [|b l] eqn:El; [done|]. injection Hhd as ->. exists l. split; [done|]. intros y q Hy.
      assert (AtReady p = AtReady (highest_pri (rq s))) as [= ->] by (rewrite <- Hp; apply (in_wh _ _ _ (ko_placed _ _ KO)); rewrite El; by left). by apply (Hmin y).
Qed.

Lemma own_type ex own g s o x : qok ex own g s -> o ∈ own x -> mutex_type s o.
Proof. intros Q Ho. destruct (mk_own _ _ _ _ _ _ (so_m _ _ _ _ _ _ (qo_s _ _ _ _ Q)) x o Ho) as (_ & _ & _ & EI & _). by apply (proj2 (qo_full _ _ _ _ Q EI) o x). Qed.

(** One task changes; the mutexes and who waits for them do not. *)
Lemma qok_step ex own g s t k k' g' s' :
  qok ex own g s -> tasks s !! t = Some k -> step1 t k' g s g' s' -> t <> idle -> prio k' = prio k -> b_prio k' = b_prio k -> mutex_list k' = mutex_list k ->
  task_state k <> K_DELETED -> task_state k' <> K_DELETED -> (forall o, mutex_type s o -> wh g' t = AtObj o <-> wh g t = AtObj o) ->
  (forall o b, wh g' t = AtObj o -> wh g t <> AtObj o -> objs s !! o = Some b -> obj_type b = RHINO_SEM_OBJ_TYPE /\ forall x, sems s !! o = Some x -> sem_count x = 0) ->
  qok ex own g' s'.
Proof.
  intros Q Ht S1 Hti Ep Eb Em Hl Hl' Hmu Hob. pose proof Q as [SO Hfull OO Hinh]. pose proof SO as [KO TO MO IO].
  destruct (io_other _ _ IO t k Ht Hti) as [Hp Hb]. split.
  - apply (sok_step INHERIT idle None own g s t k k' g' s' SO Ht S1); try done; [lia|lia|by left|]. intros o Hw.
    assert (o ∈ own t -> mutex_type s o) as Hty by apply (own_type ex own g s o t Q). split.
    + intros Ho. specialize (Hty Ho). apply (mk_self _ _ _ _ _ _ MO t o Ho). by apply Hmu.
    + intros Hm. apply (mk_wait _ _ _ _ _ _ MO t o Hm). by apply Hmu.
  - intros EI. apply (full_step own t k' g s g' s'); [apply S1|auto].
  - apply (ook_step g s KO t k' g' s' S1 ex OO). intros o b Hw Hb'. destruct (decide (wh g t = AtObj o)) as [Hw0|Hw0].
    + split; [by apply (oo_none _ _ _ OO t o b)|]. intros Hty x Hx. by apply (oo_sem _ _ _ OO o b x Hb' Hty Hx) with (t := t).
    + destruct (Hob o b Hw Hw0 Hb') as [E Hc]. rewrite E. done.
  - intros EI. apply (inherited_step g s KO TO t k k' Ht g' s' S1 own); try done; [|auto]. intros x o Ho. apply Hmu. by apply (own_type ex own g s o x Q).
Qed.

(** ** Ends of calls *)

Definition returns_inv (m : outcome (option Z * kern)) : Prop := exists r s' own g, m = Ret (r, s') /\ inv own g s'.

Lemma ret_done own g s r : inv own g s -> returns_inv (done_with r s).
Proof. intros H. by exists (Some r), s, own, g. Qed.

(** The state before [core_sched]. *)
Record unsched (ex : option Z) (own : Z -> list Z) (g : ghost) (s : kern) : Prop := Unsched {
  un_q : qok ex own g s;
  un_fresh : fresh g s;
  un_task : g_active_task s ∈ dom (tasks s);
  un_lock : 0 < g_sched_lock s -> ready s (g_active_task s)
}.

Lemma ret_sched own g s : unsched None own g s -> returns_inv (exit_sched s).
Proof. intros [Q F D L]. unfold exit_sched. destruct (sched_exit own g s Q F D L) as (a & -> & H). cbn [mbind outcome_bind]. by eexists _, _, own, g. Qed.
Lemma ret_blocked own g s : unsched None own g s -> returns_inv (exit_blocked s).
Proof. intros [Q F D L]. unfold exit_blocked. destruct (sched_exit own g s Q F D L) as (a & -> & H). cbn [mbind outcome_bind]. by eexists _, _, own, g. Qed.

Lemma inv_unsched own g s : inv own g s -> unsched None own g s.
Proof. intros [Q F [R1 R2 R3]]. split; [done|done|done|]. intros H. apply R1. by right. Qed.

(** A step of a task before the scheduler runs. *)
Lemma unsched_step ex own g s t k k' g' s' :
  unsched ex own g s -> tasks s !! t = Some k -> step1 t k' g s g' s' -> t <> idle -> prio k' = prio k -> b_prio k' = b_prio k -> mutex_list k' = mutex_list k ->
  task_state k <> K_DELETED -> task_state k' <> K_DELETED -> (forall o, mutex_type s o -> wh g' t = AtObj o <-> wh g t = AtObj o) ->
  (forall o b, wh g' t = AtObj o -> wh g t <> AtObj o -> objs s !! o = Some b -> obj_type b = RHINO_SEM_OBJ_TYPE /\ forall x, sems s !! o = Some x -> sem_count x = 0) ->
  (t ∈ tmo g' -> g_tick_count s < tick_match k') -> (0 < g_sched_lock s -> t = g_active_task s -> task_state k' = K_RDY) -> unsched ex own g' s'.
Proof.
  intros [Q F D L] Ht S1 Hti Ep Eb Em Hl Hl' Hmu Hob Hfr Hlk. pose proof (s1_stp _ _ _ _ _ _ S1) as Sp. pose proof (sp_tasks _ _ _ _ _ _ Sp) as Et.
  assert (g_active_task s' = g_active_task s /\ g_sched_lock s' = g_sched_lock s) as [Ea El] by (by destruct Sp as [(m & q & ->) _ _]). split.
  - by apply (qok_step ex own g s t k k' g' s').
  - by apply (fresh_kept t k' g s g' s' Sp).
  - rewrite Ea, Et, dom_insert_L. apply elem_of_union. by right.
  - rewrite Ea, El. intros Hlo. unfold ready. rewrite Et. destruct (decide (g_active_task s = t)) as [E|Hne]; [rewrite E, lookup_insert_eq; exists k'; split; [done|by apply Hlk]|].
    rewrite lookup_insert_ne by done. by apply L.
Qed.
End Inv.
