(* ===== verification/KCallsOk.v ===== *)
(** * Calls that change one task

    The scheduler lock, interrupts, sleeping, yielding, suspending and resuming, time
    slices and semaphores: each call returns and keeps the invariant. *)

From stdpp Require Import gmap sorting.
From S2P Require Import Prelude KBits KList KKern KCalls KQueue KTasks KSteps KOwn KInherit KInv.

Lemma not_at g s t k o : tok g s -> tasks s !! t = Some k -> waiting k = false -> wh g t <> AtObj o.
Proof. intros TO Ht Hw. rewrite (tk_place _ _ _ (to_task _ _ TO t k Ht)). unfold place_of, waiting in *. by destruct (task_state k). Qed.

Lemma wh_blk g s t k o : tok g s -> tasks s !! t = Some k -> wh g t = AtObj o -> waiting k = true /\ blk_obj k = Some o.
Proof.
  intros TO Ht Hw. rewrite (tk_place _ _ _ (to_task _ _ TO t k Ht)) in Hw. unfold place_of, waiting in *. destruct (task_state k), (blk_obj k); try done; by injection Hw as ->.
Qed.

Lemma idle_pri idle s t k : iok idle s -> tasks s !! t = Some k -> prio k = RHINO_IDLE_PRI <-> t = idle.
Proof.
  intros [(ki & Hki & _ & E & _) Ho _] Ht. change RHINO_IDLE_PRI with 61. split; [intros Hp|intros ->; congruence].
  destruct (decide (t = idle)) as [?|Hne]; [done|]. destruct (Ho t k Ht Hne). lia.
Qed.

Section Calls.
Context (INHERIT : bool) (idle : Z).
Abbreviation inv := (inv INHERIT idle).
Abbreviation qok := (qok INHERIT idle).
Abbreviation unsched := (unsched INHERIT idle).
Abbreviation returns_inv := (returns_inv INHERIT idle).

(** A task that does not wait afterwards, nor for a mutex before. *)
Lemma unsched_free ex own g s t k k' g' s' :
  unsched ex own g s -> tasks s !! t = Some k -> step1 t k' g s g' s' -> t <> idle -> prio k' = prio k -> b_prio k' = b_prio k -> mutex_list k' = mutex_list k ->
  task_state k <> K_DELETED -> task_state k' <> K_DELETED -> waiting k' = false -> (forall o, wh g t = AtObj o -> ~ mutex_type s o) -> t ∉ tmo g' ->
  (0 < g_sched_lock s -> t = g_active_task s -> task_state k' = K_RDY) -> unsched ex own g' s'.
Proof.
  intros U Ht S1 Hti Ep Eb Em Hl Hl' Hwa Hnm Hn Hlk. pose proof (sp_look _ _ _ _ _ _ (s1_stp _ _ _ _ _ _ S1)) as Ht'.
  assert (forall o, wh g' t <> AtObj o) as Hno by (intros o; by apply (not_at g' s' t k'); [apply S1|..]).
  apply (unsched_step INHERIT idle ex own g s t k k' g' s' U Ht S1); try done.
  - intros o Hm. split; intros Hw; [by destruct (Hno o)|by destruct (Hnm o Hw)].
  - intros o b Hw. by destruct (Hno o).
Qed.

(** A task that stays where it is. *)
Lemma unsched_rec ex own g s t k k' s' :
  unsched ex own g s -> tasks s !! t = Some k -> step1 t k' g s g s' -> t <> idle -> prio k' = prio k -> b_prio k' = b_prio k -> mutex_list k' = mutex_list k ->
  task_state k <> K_DELETED -> task_state k' <> K_DELETED -> tick_match k' = tick_match k -> (0 < g_sched_lock s -> t = g_active_task s -> task_state k' = K_RDY) -> unsched ex own g s'.
Proof.
  intros U Ht S1 Hti Ep Eb Em Hl Hl' Etm Hlk. apply (unsched_step INHERIT idle ex own g s t k k' g s' U Ht S1); try done.
  intros Hin. rewrite Etm. pose proof (un_fresh _ _ _ _ _ _ U t Hin) as Hf. unfold match_of in Hf. by rewrite Ht in Hf.
Qed.

Lemma inv_ready own g s : inv own g s -> g_intrpt_nested_level s = 0 \/ 0 < g_sched_lock s -> ready s (g_active_task s).
Proof. intros H Hc. by apply (ru_ready _ _ _ (in_run _ _ _ _ _ H)). Qed.
Lemma inv_level own g s : inv own g s -> 0 <= g_intrpt_nested_level s < 256 /\ 0 <= g_sched_lock s <= 200.
Proof. intros H. pose proof (qo_o _ _ _ _ _ _ (in_q _ _ _ _ _ H)) as [_ _ _ A B _]. done. Qed.

(** ** The scheduler lock and interrupts *)

Lemma qok_lock own g s n : 0 <= n <= 200 -> qok None own g s -> qok None own g (set_g_sched_lock n s).
Proof.
  intros Hn [[[K1 K2 K3] [T1 T2 T3 T4 T5] [M1 M2 M3 M4 M5 M6 M7 M8] [I1 I2 I3]] Q2 [O1 O2 O3 O4 O5 O6] Q4].
  split; [split; [split|split|split|split]| |split|]; assumption.
Qed.
Lemma qok_level own g s n : 0 <= n < 256 -> qok None own g s -> qok None own g (set_g_intrpt_nested_level n s).
Proof.
  intros Hn [[[K1 K2 K3] [T1 T2 T3 T4 T5] [M1 M2 M3 M4 M5 M6 M7 M8] [I1 I2 I3]] Q2 [O1 O2 O3 O4 O5 O6] Q4].
  split; [split; [split|split|split|split]| |split|]; assumption.
Qed.

Lemma sched_disable_ok own g s : inv own g s -> returns_inv (krhino_sched_disable s).
Proof.
  intros I. unfold krhino_sched_disable. case_decide; [by eapply ret_done|]. case_decide as Hm; [by eapply ret_done|]. destruct (inv_level own g s I) as [Hl Hk]. unfold SCHED_MAX_LOCK_COUNT in Hm.
  apply (ret_done INHERIT idle own g). pose proof I as [Q F [R1 R2 R3]]. split; [apply qok_lock; [lia|done]|done|]. split; [|done|].
  - intros _. apply R1. left. lia.
  - cbn. intros _ _ ?. lia.
Qed.

Lemma sched_enable_ok own g s : inv own g s -> returns_inv (krhino_sched_enable s).
Proof.
  intros I. unfold krhino_sched_enable. case_decide; [by eapply ret_done|]. case_decide; [by eapply ret_done|]. destruct (inv_level own g s I) as [Hl Hk].
  pose proof I as [Q F [R1 R2 R3]]. cbn zeta. case_decide as H1; cbn in H1.
  - apply (ret_done INHERIT idle own g). split; [apply qok_lock; [lia|done]|done|]. split; [|done|].
    + intros _. apply R1. left. lia.
    + cbn. intros _ _ ?. lia.
  - apply (ret_sched INHERIT idle own g). split; [apply qok_lock; [lia|done]|done|done|]. cbn. lia.
Qed.

Lemma intrpt_enter_ok own g s : inv own g s -> g_intrpt_nested_level s < 255 -> inv own g (krhino_intrpt_enter s).
Proof.
  intros I Hlt. destruct (inv_level own g s I) as [Hl Hk]. unfold krhino_intrpt_enter. rewrite u8_small by lia. pose proof I as [Q F [R1 R2 R3]].
  split; [apply qok_level; [lia|done]|done|]. split; [|done|].
  - cbn. intros [?|?]; [lia|]. apply R1. by right.
  - cbn. intros _ ?. lia.
Qed.

Lemma intrpt_exit_ok own g s : inv own g s -> 0 < g_intrpt_nested_level s -> exists s', krhino_intrpt_exit s = Ret s' /\ inv own g s'.
Proof.
  intros I Hlt. destruct (inv_level own g s I) as [Hl Hk]. unfold krhino_intrpt_exit. rewrite u8_small by lia. pose proof I as [Q F [R1 R2 R3]].
  destruct (sched_exit INHERIT idle own g (set_g_intrpt_nested_level (g_intrpt_nested_level s - 1) s)) as (a & E & I'); [apply qok_level; [lia|done]|done|done| |by eexists].
  cbn. intros H. apply R1. by right.
Qed.

(** ** Sleeping and yielding *)

Lemma task_sleep_ok own g s ticks : inv own g s -> g_active_task s <> idle -> 0 <= ticks <= 2 ^ 62 -> returns_inv (krhino_task_sleep ticks s).
Proof.
  intros I Hi Hticks. unfold krhino_task_sleep. case_decide as H0; [by eapply ret_done|]. case_decide as Hn; [by eapply ret_done|]. case_decide as Hl; [by eapply ret_done|].
  destruct (inv_level own g s I) as [Hlv Hlk]. destruct (inv_ready own g s I ltac:(left; lia)) as (k & Ht & Hst). pose proof (inv_unsched _ _ own g s I) as U. pose proof U as [[SO _ _ _] F _ _].
  pose proof SO as [KO TO _ IO]. set (t := g_active_task s) in *.
  destruct (sleep_step g s KO TO t k Ht ticks Hst (idle_ready idle g s t TO IO Hi) F ltac:(lia)) as (g' & s' & E & S1). follow E.
  apply (ret_blocked INHERIT idle own g'). pose proof (to_now _ _ TO) as Hnow. apply (unsched_step INHERIT idle None own g s t k _ g' s' U Ht S1); try done; cbn.
  - by rewrite Hst.
  - intros o Hm. split; intros Hw; [by destruct (not_at g' s' t _ o (s1_tok _ _ _ _ _ _ S1) (sp_look _ _ _ _ _ _ (s1_stp _ _ _ _ _ _ S1)) eq_refl)|]. rewrite (proj1 (ready_at g s TO t k Ht Hst)) in Hw. done.
  - intros o b Hw. by destruct (not_at g' s' t _ o (s1_tok _ _ _ _ _ _ S1) (sp_look _ _ _ _ _ _ (s1_stp _ _ _ _ _ _ S1)) eq_refl).
  - lia.
Qed.

(** The ready tasks of one priority are rotated. *)
Lemma rotate_step g s t k a l :
  kok g s -> tok g s -> tasks s !! t = Some k -> rdy g (prio k) = a :: l ->
  exists ka g' s', ready_list_head_to_tail t s = Ret s' /\ tasks s !! a = Some ka /\ task_state ka = K_RDY /\ step1 a ka g s g' s' /\ rdy g' (prio k) = l ++ [a].
Proof.
  intros KO TO Ht El. pose proof (ko_placed _ _ KO) as P. pose proof (tk_prio _ _ _ (to_task _ _ TO t k Ht)) as Hp.
  assert (wh g a = AtReady (prio k)) as Hwa by (apply (in_wh _ _ _ P); rewrite El; by left).
  assert (a ∈ dom (tasks s)) as [ka Hka]%elem_of_dom by (apply (pl_task _ _ _ P); congruence). pose proof (to_task _ _ TO a ka Hka) as [K1 K2 K3 K4 K5 K6 K7 K8 K9].
  assert (task_state ka = K_RDY /\ prio ka = prio k) as [Hst Ep]. { rewrite Hwa in K1. unfold place_of in K1. destruct (task_state ka), (blk_obj ka); try done; by injection K1 as <-. }
  destruct (head_to_tail_ok g s KO t k Ht Hp a l El) as (q & E & KO'). exists ka, (put (AtReady (prio k)) (l ++ [a]) a (AtReady (prio k)) g). eexists. split_and!; [exact E|done|done| |cbn; by rewrite upd_eq].
  assert (stp a ka g s (put (AtReady (prio k)) (l ++ [a]) a (AtReady (prio k)) g) (with_q (lks s) q s)) as Sp.
  { split; [exists (lks s), q; by rewrite (with_task_id a ka)|done|]. split; [|done]. intros w. cbn [put lst].
    destruct (decide (w = AtReady (prio k))) as [->|Hw]; [|by rewrite upd_ne]. by rewrite upd_eq, El, (rest_mid a l []), rest_cons_eq, app_nil_r. }
  apply (settle_free a ka g s _ _ KO TO Sp); try done; unfold waiting, sleeping, suspended; rewrite ?Hst; try done.
  - rewrite wh_put. unfold place_of. by rewrite Hst, Ep.
  - by destruct (ready_at g s TO a ka Hka Hst).
Qed.

(** Such a rotation keeps the invariant, also for the idle task. *)
Lemma unsched_same ex own g s t k g' s' :
  unsched ex own g s -> tasks s !! t = Some k -> task_state k = K_RDY -> step1 t k g s g' s' -> unsched ex own g' s'.
Proof.
  intros [[SO Hfull OO Hinh] F D L] Ht Hst S1. pose proof SO as [KO TO MO IO]. pose proof (s1_stp _ _ _ _ _ _ S1) as Sp. assert (tasks s' = tasks s) as Et by (rewrite (sp_tasks _ _ _ _ _ _ Sp); by apply insert_id).
  assert (waiting k = false) as Hwa by (unfold waiting; by rewrite Hst). assert (forall x o, wh g' x = AtObj o <-> wh g x = AtObj o) as Hwh.
  { intros x o. destruct (decide (x = t)) as [->|Hx]; [|by rewrite (stp_wh _ _ _ _ _ _ KO Sp x Hx)]. split; intros Hw; [by apply (not_at g' s' t k o (s1_tok _ _ _ _ _ _ S1)) in Hw; [|eapply sp_look|]|by apply (not_at g s t k o TO Ht) in Hw]. }
  assert (exists m q, s' = with_q m q s) as (m & q & Es) by (destruct Sp as [(m & q & ->) _ _]; exists m, q; by rewrite with_task_id).
  split.
  - split.
    + split; [by apply Sp|by apply S1| |rewrite Es; by destruct IO]. rewrite Es. destruct MO as [M1 M2 M3 M4 M5 M6 M7 M8]. split; try done; intros x o Hm Hw; apply Hwh in Hw; [by apply (M7 x o)|by apply (M8 x o)].
    + rewrite Es. exact Hfull.
    + apply (ook_step g s KO t k g' s' S1 ex OO). intros o b Hw _. apply Hwh in Hw. by destruct (not_at g s t k o TO Ht Hwa).
    + intros EI. apply (inherited_step g s KO TO t k k Ht g' s' S1 own); try done. auto.
  - apply (fresh_kept t k g s g' s' Sp F). intros Hin. assert (t ∈ tmo g') as H2 by done. apply (tk_tmo _ _ _ (to_task _ _ (s1_tok _ _ _ _ _ _ S1) t k ltac:(by eapply sp_look))) in H2 as [[H|H] _]; unfold waiting, sleeping in H; by rewrite Hst in H.
  - rewrite Es. exact D.
  - rewrite Es. exact L.
Qed.

Lemma task_yield_ok own g s : inv own g s -> g_intrpt_nested_level s = 0 -> returns_inv (krhino_task_yield s).
Proof.
  intros I Hn. destruct (inv_ready own g s I ltac:(by left)) as (k & Ht & Hst). pose proof (inv_unsched _ _ own g s I) as U. pose proof U as [[[KO TO _ _] _ _ _] _ _ _]. unfold krhino_task_yield.
  pose proof (proj1 (ready_at g s TO _ k Ht Hst)) as Hw. apply (wh_in _ _ _ (ko_placed _ _ KO)) in Hw; [|done]. destruct (rdy g (prio k)) as [|a l] eqn:El; [by apply elem_of_nil in Hw|].
  destruct (rotate_step g s _ k a l KO TO Ht El) as (ka & g' & s' & -> & Hka & Hsa & S1 & _). cbn [mbind outcome_bind]. apply (ret_sched INHERIT idle own g'). by apply (unsched_same None own g s a ka g' s').
Qed.

(** ** Suspending and resuming *)

Lemma live_state k : task_state k <> K_DELETED -> task_state k <> K_SEED -> task_state k = K_RDY \/ waiting k = true \/ sleeping k = true \/ suspended k = true.
Proof. unfold waiting, sleeping, suspended. destruct (task_state k); tauto. Qed.

Lemma record_call own g s t k f :
  inv own g s -> tasks s !! t = Some k -> t <> idle -> task_state k <> K_DELETED -> task_state (f k) <> K_DELETED -> prio (f k) = prio k -> b_prio (f k) = b_prio k ->
  mutex_list (f k) = mutex_list k -> tick_match (f k) = tick_match k -> task_ok (wh g t) (t ∈ tmo g) (f k) -> (0 < g_sched_lock s -> t = g_active_task s -> task_state (f k) = K_RDY) ->
  returns_inv (s ← upd_task t f s; exit_sched s).
Proof.
  intros I Ht Hti H1 H2 H3 H4 H5 H6 H7 Hlk. pose proof (inv_unsched _ _ own g s I) as U. pose proof U as [[[KO TO _ _] _ _ _] _ _ _].
  destruct (record_step g s KO TO t k Ht f H3 H6 H7) as (s' & -> & S1). cbn [mbind outcome_bind]. apply (ret_sched INHERIT idle own g). by apply (unsched_rec None own g s t k (f k) s' U Ht S1).
Qed.

(** With the scheduler locked the running task is ready. *)
Lemma lock_ready ex own g s t k : unsched ex own g s -> tasks s !! t = Some k -> task_state k <> K_RDY -> 0 < g_sched_lock s -> t = g_active_task s -> False.
Proof. intros U Ht Hn Hl ->. destruct (un_lock _ _ _ _ _ _ U Hl) as (k' & Hk & Hst). congruence. Qed.

Lemma not_idle s t k : iok idle s -> tasks s !! t = Some k -> task_state k <> K_RDY -> t <> idle.
Proof. intros IO Ht Hn ->. destruct (io_idle _ _ IO) as (ki & Hki & Hst & _). congruence. Qed.

Lemma task_suspend_ok own g s t k : inv own g s -> tasks s !! t = Some k -> returns_inv (krhino_task_suspend t s).
Proof.
  intros I Ht. unfold krhino_task_suspend, task_suspend. pose proof (inv_unsched _ _ own g s I) as U. pose proof U as [[[KO TO _ IO] _ _ _] _ _ _]. rewrite (get_task_eq _ _ _ Ht). cbn [mbind outcome_bind].
  case_decide as Hid; [by eapply ret_done|]. rewrite (idle_pri idle s t k IO Ht) in Hid. rename Hid into Hti.
  case_decide as Hact; [by eapply ret_done|]. cbn [mbind outcome_bind]. pose proof (to_task _ _ TO t k Ht) as Hok. pose proof Hok as [K1 K2 K3 K4 K5 K6 K7 K8 K9].
  assert (0 < g_sched_lock s -> t = g_active_task s -> False) as Hlk by (intros; apply Hact; done).
  assert (forall f, task_state (f k) <> K_DELETED -> task_state k <> K_DELETED -> prio (f k) = prio k -> b_prio (f k) = b_prio k -> mutex_list (f k) = mutex_list k -> tick_match (f k) = tick_match k -> task_ok (wh g t) (t ∈ tmo g) (f k) -> returns_inv (s ← upd_task t f s; exit_sched s)) as Hrec.
  { intros f H1 H2 H3 H4 H5 H6 H7. apply (record_call own g s t k f); try done. intros Hl Ha. by destruct (Hlk Hl Ha). }
  assert (suspended k = true -> task_state k <> K_DELETED -> returns_inv (if decide (suspend_count k = 255) then done_with RHINO_SUSPENDED_COUNT_OVF s else s ← upd_task t (set_suspend_count (suspend_count k + 1)) s; exit_sched s)) as Hmore.
  { intros Hs Hl. case_decide; [by eapply ret_done|]. specialize (K8 Hs). apply Hrec; try done. eapply task_ok_ext; [exact Hok|..]; try done. intros _. cbn. lia. }
  destruct (task_state k) eqn:Est; try (by eapply ret_done).
  - destruct (ready_out g s KO TO t k Ht (fun k => set_task_state K_SUSPENDED (set_suspend_count 1 k)) id Est (idle_ready idle g s t TO IO Hti)) as (g' & s' & E & S1 & Hn); [by repeat split|done|done|].
    follow E. apply (ret_sched INHERIT idle own g'). apply (unsched_free None own g s t k _ g' s' U Ht S1); try done; [by rewrite Est|by rewrite (proj1 (ready_at g s TO t k Ht Est))|intros Hl Ha; by destruct (Hlk Hl Ha)].
  - apply Hrec; try done. rec_ok Est.
  - apply Hmore; unfold suspended; by rewrite ?Est.
  - apply Hmore; unfold suspended; by rewrite ?Est.
  - apply Hrec; try done. rec_ok Est.
  - apply Hmore; unfold suspended; by rewrite ?Est.
Qed.

Lemma task_resume_ok own g s t k : inv own g s -> tasks s !! t = Some k -> returns_inv (krhino_task_resume t s).
Proof.
  intros I Ht. unfold krhino_task_resume. pose proof (inv_unsched _ _ own g s I) as U. pose proof U as [[[KO TO _ IO] _ _ _] _ _ _]. rewrite (get_task_eq _ _ _ Ht). cbn [mbind outcome_bind]. cbn zeta.
  pose proof (to_task _ _ TO t k Ht) as Hok. pose proof Hok as [K1 K2 K3 K4 K5 K6 K7 K8 K9]. set (n := u8 (suspend_count k - 1)).
  assert (suspended k = true -> 0 <= n <= 255 /\ (n <> 0 -> 1 <= n)) as Hn by (intros Hs; specialize (K8 Hs); unfold n; rewrite u8_small by lia; lia).
  assert (forall f, suspended k = true -> task_state (f k) <> K_DELETED -> prio (f k) = prio k -> b_prio (f k) = b_prio k -> mutex_list (f k) = mutex_list k -> tick_match (f k) = tick_match k -> task_ok (wh g t) (t ∈ tmo g) (f k) -> returns_inv (s ← upd_task t f s; exit_sched s)) as Hrec.
  { intros f Hs H2 H3 H4 H5 H6 H7. assert (task_state k <> K_RDY /\ task_state k <> K_DELETED) as [Hr Hd] by (unfold suspended in Hs; by destruct (task_state k)).
    apply (record_call own g s t k f); try done; [by apply (not_idle s t k IO)|]. intros Hl Ha. by destruct (lock_ready None own g s t k U Ht Hr Hl Ha). }
  assert (forall f, upd_task t f s = Ret (with_task t (f k) s)) as Hu by (intros f; by apply upd_task_ok).
  assert (forall f f' m, (s ← upd_task t f s; s ← (if decide (n = 0) then upd_task t f' s else Ret s); m s) = (s ← upd_task t (fun k => if decide (n = 0) then f' (f k) else f k) s; m s : outcome (option Z * kern))) as Hmerge.
  { intros f f' m. rewrite !Hu. cbn [mbind outcome_bind]. case_decide; [|done]. rewrite (upd_task_ok t f' _ (f k)) by look_task. by rewrite task_task. }
  destruct (task_state k) eqn:Est; try (by eapply ret_done).
  - assert (suspended k = true) as Hs by (unfold suspended; by rewrite Est). specialize (Hn Hs). destruct (decide (n = 0)) as [E0|E0].
    + destruct (resume_ready g s KO TO t k Ht (fun k => set_task_state K_RDY (set_suspend_count n k))) as (g' & s' & E & S1 & Hnt); [unfold waiting; by rewrite Est|unfold sleeping; by rewrite Est|by rewrite Est|by repeat split|done|].
      rewrite Hu in E |- *. cbn [mbind outcome_bind] in E |- *. rewrite (upd_task_ok t _ _ (set_suspend_count n k)) by look_task. cbn [mbind outcome_bind]. rewrite task_task, E. cbn [mbind outcome_bind]. apply (ret_sched INHERIT idle own g').
      apply (unsched_free None own g s t k _ g' s' U Ht S1); try done; [apply (not_idle s t k IO Ht); by rewrite Est|by rewrite Est|]. intros o Hw. rewrite K1 in Hw. unfold place_of in Hw. by rewrite Est in Hw.
    + apply Hrec; try done; [by cbn; rewrite Est|]. rec_ok Est.
  - assert (suspended k = true) as Hs by (unfold suspended; by rewrite Est). specialize (Hn Hs). rewrite Hmerge. apply Hrec; try done; case_decide; try done; try (by cbn; rewrite Est); rec_ok Est.
  - assert (suspended k = true) as Hs by (unfold suspended; by rewrite Est). specialize (Hn Hs). rewrite Hmerge. apply Hrec; try done; case_decide; try done; try (by cbn; rewrite Est); rec_ok Est.
Qed.

(** Fields the invariant does not speak about. *)
Definition cosmetic (k k' : ktask_t) : Prop := set_cancel 0 (set_time_total 0 (set_time_slice 0 k')) = set_cancel 0 (set_time_total 0 (set_time_slice 0 k)).

Lemma cosmetic_fields k k' : cosmetic k k' -> prio k' = prio k /\ b_prio k' = b_prio k /\ task_state k' = task_state k /\ blk_state k' = blk_state k /\ blk_obj k' = blk_obj k /\
  suspend_count k' = suspend_count k /\ mutex_list k' = mutex_list k /\ tick_match k' = tick_match k.
Proof. intros E. destruct k, k'. cbn in E. injection E. cbn. by intros; subst. Qed.

Lemma inv_cosmetic own g s t k k' : inv own g s -> tasks s !! t = Some k -> cosmetic k k' -> inv own g (with_task t k' s).
Proof.
  intros I Ht Hc. destruct (cosmetic_fields k k' Hc) as (E1 & E2 & E3 & E4 & E5 & E6 & E7 & E8). pose proof I as [[SO Hfull OO Hinh] F [R1 R2 R3]]. pose proof SO as [KO TO MO IO].
  pose proof (to_task _ _ TO t k Ht) as Hok. pose proof Hok as [K1 K2 K3 K4 K5 K6 K7 K8 K9].
  assert (step1 t k' g s g (with_task t k' s)) as S1.
  { destruct (record_step g s KO TO t k Ht (fun _ => k') E1 E8) as (s' & E & S1); [|rewrite (upd_task_ok t _ s k Ht) in E; by injection E as <-].
    eapply task_ok_ext; [exact Hok|..]; unfold place_of, waiting, sleeping, suspended; rewrite ?E1, ?E2, ?E3, ?E4, ?E5, ?E6, ?E8; done. }
  assert (forall x kx, tasks (with_task t k' s) !! x = Some kx -> exists k0, tasks s !! x = Some k0 /\ prio kx = prio k0 /\ b_prio kx = b_prio k0 /\ task_state kx = task_state k0 /\ mutex_list kx = mutex_list k0) as Hback.
  { intros x kx. rewrite tasks_task. destruct (decide (x = t)) as [->|Hx]; [rewrite lookup_insert_eq; intros [= <-]; by exists k|rewrite lookup_insert_ne by done; intros H; by exists kx]. }
  assert (forall x k0, tasks s !! x = Some k0 -> exists kx, tasks (with_task t k' s) !! x = Some kx /\ prio kx = prio k0 /\ b_prio kx = b_prio k0 /\ task_state kx = task_state k0) as Hforth.
  { intros x k0 H. rewrite tasks_task. destruct (decide (x = t)) as [->|Hx]; [rewrite lookup_insert_eq; exists k'; rewrite Ht in H; by injection H as <-|rewrite lookup_insert_ne by done; by exists k0]. }
  assert (forall x, live s x -> live (with_task t k' s) x) as Hlive by (intros x (k0 & H & Hl); destruct (Hforth x k0 H) as (kx & Hkx & _ & _ & Es); exists kx; by rewrite Es).
  split; [split| |].
  - split; [by apply S1|by apply S1| |].
    + destruct MO as [M1 M2 M3 M4 M5 M6 M7 M8]. split; try done.
      * intros x kx Hx Hl Hs. destruct (Hback x kx Hx) as (k0 & H0 & _ & _ & Es & ->). apply M3; [done|by rewrite <- Es|done].
      * intros x o Ho. destruct (M5 x o Ho) as (D1 & D2 & D3 & D4). split_and!; try done; [by apply Hlive|apply D4..].
      * intros o x Ho Hx. destruct (M6 o x Ho Hx). split; [by apply Hlive|done].
    + destruct IO as [(ki & Hki & H1 & H2 & H3) H4 H5]. split; [destruct (Hforth idle ki Hki) as (kx & Hkx & Ea & Eb & Ec); exists kx; by rewrite Ea, Eb, Ec| |done].
      intros x kx Hx Hne. destruct (Hback x kx Hx) as (k0 & H0 & -> & -> & _). by apply (H4 x).
  - exact Hfull.
  - by destruct OO.
  - intros EI. apply (inherited_step g s KO TO t k k' Ht g _ S1 own); try done; [by rewrite E3|auto].
  - apply (fresh_kept t k' g s g _ (s1_stp _ _ _ _ _ _ S1) F). intros Hin. rewrite E8. pose proof (F t Hin) as Hf. unfold match_of in Hf. by rewrite Ht in Hf.
  - split; [|cbn; rewrite dom_insert_L; apply elem_of_union; by right|done]. intros Hc2. destruct (R1 Hc2) as (k0 & H0 & Hst). destruct (Hforth _ _ H0) as (kx & Hkx & _ & _ & Es). exists kx. split; [done|congruence].
Qed.

Lemma time_slice_set_ok own g s t k slice : inv own g s -> tasks s !! t = Some k -> returns_inv (krhino_task_time_slice_set t slice s).
Proof.
  intros I Ht. unfold krhino_task_time_slice_set. case_decide; [by eapply ret_done|]. cbn zeta. rewrite (upd_task_ok t _ s k Ht). cbn [mbind outcome_bind].
  apply (ret_done INHERIT idle own g). by apply (inv_cosmetic own g s t k).
Qed.
End Calls.
