(* ===== verification/KSemOk.v ===== *)
(** * Semaphores

    Giving wakes the first waiter, or all of them, or counts; taking counts down or
    blocks; deleting wakes all.  Each call returns and keeps the invariant. *)

From stdpp Require Import gmap sorting.
From S2P Require Import Prelude KBits KList KKern KCalls KQueue KTasks KSteps KOwn KInherit KInv KCallsOk.

(** States that differ in tasks and lists. *)
Definition tasks_only (s s' : kern) : Prop := set_lks ∅ (set_rq runqueue_init (set_tasks ∅ s')) = set_lks ∅ (set_rq runqueue_init (set_tasks ∅ s)).

Lemma tasks_only_fields s s' : tasks_only s s' -> objs s' = objs s /\ sems s' = sems s /\ mutexes s' = mutexes s /\ g_tick_count s' = g_tick_count s /\ g_active_task s' = g_active_task s /\
  g_sched_lock s' = g_sched_lock s /\ g_intrpt_nested_level s' = g_intrpt_nested_level s /\ g_sys_stat s' = g_sys_stat s.
Proof. intros E. destruct s, s'. unfold tasks_only in E. cbn in E. injection E. intros. subst. done. Qed.

Lemma stp_only t k g s g' s' : stp t k g s g' s' -> tasks_only s s'.
Proof. intros [(m & q & ->) _ _]. by destruct s. Qed.

Section Calls.
Context (INHERIT : bool) (idle : Z).
Abbreviation inv := (inv INHERIT idle).
Abbreviation qok := (qok INHERIT idle).
Abbreviation unsched := (unsched INHERIT idle).
Abbreviation returns_inv := (returns_inv INHERIT idle).

Lemma left_state k why : waiting k = true -> task_state (left_wait k why) <> K_DELETED /\ waiting (left_wait k why) = false.
Proof. unfold left_wait, waiting. cbn. by destruct (suspended k). Qed.

(** A waiter of an object that is no mutex leaves. *)
Lemma leave_ok ex own g s t k o why :
  unsched ex own g s -> tasks s !! t = Some k -> wh g t = AtObj o -> ~ mutex_type s o -> why <> BLK_INVALID ->
  exists g' s', pend_leave why t s = Ret s' /\ unsched ex own g' s' /\ stp t (left_wait k why) g s g' s' /\ forall o, wait g' o = rest t (wait g o).
Proof.
  intros U Ht Hw Hm Hwhy. pose proof U as [[[KO TO MO IO] _ _ _] _ _ _]. destruct (wh_blk g s t k o TO Ht Hw) as [Hwa Hbo]. destruct (left_state k why Hwa) as [Hl' Hwa'].
  destruct (leave_step g s KO TO t k Ht why Hwa Hwhy) as (g' & s' & E & S1 & Hn). assert (task_state k <> K_RDY /\ task_state k <> K_DELETED) as [Hr Hd] by (unfold waiting in Hwa; by destruct (task_state k)).
  exists g', s'. pose proof (sp_look _ _ _ _ _ _ (s1_stp _ _ _ _ _ _ S1)) as Ht'. split_and!; [done| |apply S1|].
  - apply (unsched_free INHERIT idle ex own g s t k _ g' s' U Ht S1); try done; [by apply (not_idle idle s t k)|intros o' Ho'; congruence|]. intros Hl Ha. by destruct (lock_ready INHERIT idle ex own g s t k U Ht Hr Hl Ha).
  - intros o'. apply (stp_wait _ _ _ _ _ _ (s1_stp _ _ _ _ _ _ S1)). by apply (not_at g' s' t (left_wait k why)); [apply S1|..].
Qed.

Lemma wait_task ex own g s o t : unsched ex own g s -> t ∈ wait g o -> wh g t = AtObj o /\ exists k, tasks s !! t = Some k.
Proof.
  intros [[[KO _ _ _] _ _ _] _ _ _] Hin. pose proof (ko_placed _ _ KO) as P. pose proof (in_wh _ _ _ P t _ Hin) as Hw. split; [done|]. apply elem_of_dom. apply (pl_task _ _ _ P). congruence.
Qed.

(** All waiters leave. *)
Lemma drain_ok why ex own o : why <> BLK_INVALID -> forall fuel g s,
  unsched ex own g s -> o ∈ dom (objs s) -> ~ mutex_type s o -> (length (wait g o) <= fuel)%nat ->
  exists g' s', drain (pend_leave why) fuel o s = Ret s' /\ unsched ex own g' s' /\ wait g' o = [] /\ tasks_only s s' /\
    (forall t k, t ∈ wait g o -> tasks s !! t = Some k -> tasks s' !! t = Some (left_wait k why)) /\ (forall t, t ∉ wait g o -> tasks s' !! t = tasks s !! t).
Proof.
  intros Hwhy. induction fuel as [|fuel IH]; intros g s U Ho Hm Hf; pose proof U as [[[KO TO MO IO] _ _ _] _ _ _]; cbn [drain]; rewrite (first_waiter_ok g s KO o Ho); cbn [mbind outcome_bind].
  { destruct (wait g o) as [|t l] eqn:El; [|cbn in Hf; lia]. exists g, s. split_and!; try done. by intros t k ?%elem_of_nil. }
  destruct (wait g o) as [|t l] eqn:El; cbn [head hd_error]; [exists g, s; split_and!; try done; by intros t k ?%elem_of_nil|].
  assert (t ∈ wait g o) as Hin by (rewrite El; by left). destruct (wait_task ex own g s o t U Hin) as (Hw & k & Ht).
  destruct (leave_ok ex own g s t k o why U Ht Hw Hm Hwhy) as (g1 & s1 & -> & U1 & Sp & Hwt). cbn [mbind outcome_bind]. pose proof (stp_only _ _ _ _ _ _ Sp) as To.
  assert (NoDup (t :: l)) as Nd by (rewrite <- El; apply (pl_lst _ _ _ (ko_placed _ _ KO) (AtObj o))). apply list.NoDup_cons in Nd as [Hnl _].
  assert (wait g1 o = l) as El1 by (rewrite Hwt, El, rest_cons_eq; by apply rest_out).
  destruct (IH g1 s1 U1) as (g2 & s2 & E & U2 & Hn & To2 & Hl & Hoth); [by rewrite (sp_objs _ _ _ _ _ _ Sp)|unfold mutex_type; by rewrite (sp_objs _ _ _ _ _ _ Sp)|rewrite El1; cbn in Hf; lia|].
  exists g2, s2. rewrite El1 in Hl, Hoth. split_and!; [done|done|done|unfold tasks_only in *; congruence| |].
  - intros x kx [->|Hx]%elem_of_cons Hkx; [rewrite Hoth by done; rewrite (sp_look _ _ _ _ _ _ Sp); congruence|]. apply Hl; [done|]. rewrite (sp_other _ _ _ _ _ _ x Sp); [done|]. by intros ->.
  - intros x [Hx1 Hx2]%not_elem_of_cons. rewrite Hoth by done. by apply (sp_other _ _ _ _ _ _ x Sp).
Qed.

(** ** Giving *)

Lemma inv_sem own g s o b x x' :
  inv own g s -> objs s !! o = Some b -> obj_type b = RHINO_SEM_OBJ_TYPE -> sems s !! o = Some x -> 0 <= sem_count x' < 2 ^ 32 -> (forall t, wh g t = AtObj o -> sem_count x' = 0) ->
  inv own g (set_sems (<[o := x']> (sems s)) s).
Proof.
  intros [[[[K1 K2 K3] [T1 T2 T3 T4 T5] [M1 M2 M3 M4 M5 M6 M7 M8] [I1 I2 I3]] Q2 [O1 O2 O3 O4 O5 O6] Q4] F R] Hb Hty Hx Hc Hw.
  split; [split; [split; [split|split|split|split]| |split|]|assumption|by destruct R]; try assumption.
  - intros o' b' Hb' Hty'. cbn. destruct (decide (o' = o)) as [->|Hne]; [by rewrite lookup_insert_eq|rewrite lookup_insert_ne by done; by apply (M1 o' b')].
  - intros o' b' y Hb' Hty'. cbn. destruct (decide (o' = o)) as [->|Hne]; [rewrite lookup_insert_eq; by intros [= <-]|rewrite lookup_insert_ne by done; by apply (O2 o' b')].
Qed.

Lemma get_obj_eq s o b : objs s !! o = Some b -> get_obj o s = Ret b.
Proof. intros H. unfold get_obj. by rewrite H. Qed.
Lemma get_sem_eq s o x : sems s !! o = Some x -> get_sem o s = Ret x.
Proof. intros H. unfold get_sem. by rewrite H. Qed.

Lemma wait_empty ex own g s o : unsched ex own g s -> head (wait g o) = None -> forall t, wh g t <> AtObj o.
Proof.
  intros [[[KO _ _ _] _ _ _] _ _ _] Hh t Hw. apply (wh_in _ _ _ (ko_placed _ _ KO)) in Hw; [|done]. destruct (wait g o); [by apply elem_of_nil in Hw|done].
Qed.

Lemma sem_not_mutex s o b : objs s !! o = Some b -> obj_type b = RHINO_SEM_OBJ_TYPE -> ~ mutex_type s o.
Proof. intros Hb Hty. unfold mutex_type. rewrite Hb. cbn. rewrite Hty. by intros [=]. Qed.

Lemma wait_fuel g s o : kok g s -> o ∈ dom (objs s) -> (length (wait g o) <= base.size (lks s))%nat.
Proof. intros KO Ho. destruct (wait_ring g s KO o Ho) as [HR Nd]. pose proof (ring_size _ _ HR Nd) as Hs. cbn in Hs. rewrite length_fmap in Hs. lia. Qed.

Lemma sem_give_ok own g s o b wake_all : inv own g s -> objs s !! o = Some b -> returns_inv (sem_give o wake_all s).
Proof.
  intros I Hb. pose proof (inv_unsched _ _ own g s I) as U. pose proof U as [[[KO TO MO IO] _ OO _] _ _ _]. unfold sem_give. rewrite (get_obj_eq _ _ _ Hb). cbn [mbind outcome_bind].
  case_decide as Hty; [by eapply ret_done|]. assert (obj_type b = RHINO_SEM_OBJ_TYPE) as Ht by (by destruct (decide (obj_type b = RHINO_SEM_OBJ_TYPE))).
  destruct (mk_sem _ _ _ _ _ _ MO o b Hb Ht) as [x Hx]. rewrite (get_sem_eq _ _ _ Hx). cbn [mbind outcome_bind]. assert (o ∈ dom (objs s)) as Ho by (by apply elem_of_dom).
  rewrite (first_waiter_ok g s KO o Ho). cbn [mbind outcome_bind]. destruct (oo_sem _ _ _ OO o b x Hb Ht Hx) as [Hc Hz]. pose proof (sem_not_mutex s o b Hb Ht) as Hm.
  destruct (head (wait g o)) as [t|] eqn:Eh.
  - assert (t ∈ wait g o) as Hin by (by apply head_Some_elem_of). destruct wake_all.
    + destruct (drain_ok BLK_FINISH None own o ltac:(done) (base.size (lks s)) g s U Ho Hm (wait_fuel g s o KO Ho)) as (g' & s' & E & U' & _). change pend_task_wakeup with (pend_leave BLK_FINISH). rewrite E.
      cbn [mbind outcome_bind]. by apply (ret_sched INHERIT idle own g').
    + destruct (wait_task None own g s o t U Hin) as (Hw & k & Hk). destruct (leave_ok None own g s t k o BLK_FINISH U Hk Hw Hm ltac:(done)) as (g' & s' & E & U' & _). unfold pend_task_wakeup. rewrite E.
      cbn [mbind outcome_bind]. by apply (ret_sched INHERIT idle own g').
  - case_decide; [by eapply ret_done|]. cbn zeta. unfold upd_sem. rewrite (get_sem_eq _ _ _ Hx). cbn [mbind outcome_bind]. apply (ret_done INHERIT idle own g).
    apply (inv_sem own g s o b x); try done; [cbn; lia|]. intros t Hw. by destruct (wait_empty None own g s o U Eh t).
Qed.

Lemma sem_count_set_ok own g s o b n : inv own g s -> objs s !! o = Some b -> 0 <= n < 2 ^ 32 -> returns_inv (krhino_sem_count_set o n s).
Proof.
  intros I Hb Hn. pose proof (inv_unsched _ _ own g s I) as U. pose proof U as [[[KO TO MO IO] _ OO _] _ _ _]. unfold krhino_sem_count_set. case_decide; [by eapply ret_done|].
  rewrite (get_obj_eq _ _ _ Hb). cbn [mbind outcome_bind]. case_decide as Hty; [by eapply ret_done|]. assert (obj_type b = RHINO_SEM_OBJ_TYPE) as Ht by (by destruct (decide (obj_type b = RHINO_SEM_OBJ_TYPE))).
  destruct (mk_sem _ _ _ _ _ _ MO o b Hb Ht) as [x Hx]. rewrite (get_sem_eq _ _ _ Hx). cbn [mbind outcome_bind]. assert (o ∈ dom (objs s)) as Ho by (by apply elem_of_dom).
  rewrite (first_waiter_ok g s KO o Ho). cbn [mbind outcome_bind]. destruct (oo_sem _ _ _ OO o b x Hb Ht Hx) as [Hc Hz]. case_decide as Hd; [|by eapply ret_done].
  unfold upd_sem. rewrite (get_sem_eq _ _ _ Hx). cbn [mbind outcome_bind]. apply (ret_done INHERIT idle own g). apply (inv_sem own g s o b x); try done.
  intros t Hw. destruct Hd as [Hd|Hd]; [rewrite (Hz t Hw) in Hd; lia|by destruct (wait_empty None own g s o U Hd t)].
Qed.

(** ** Taking *)

Lemma pended_fields s o n k : prio (pended s o n k) = prio k /\ b_prio (pended s o n k) = b_prio k /\ mutex_list (pended s o n k) = mutex_list k /\ task_state (pended s o n k) = K_PEND /\ blk_obj (pended s o n k) = Some o.
Proof. unfold pended. by case_decide. Qed.

Lemma pended_time s o n k : n <> RHINO_WAIT_FOREVER -> n = RHINO_WAIT_FOREVER \/ 0 < n -> g_tick_count s < tick_match (pended s o n k).
Proof. intros Hn Hp. unfold pended. rewrite decide_True by done. cbn. destruct Hp; [done|lia]. Qed.

Lemma cancelled_ok s o b k : tasks s !! g_active_task s = Some k -> objs s !! o = Some b -> exists c, cancelled o s = Ret c.
Proof.
  intros Hk Hb. unfold cancelled. rewrite (get_task_eq _ _ _ Hk). cbn [mbind outcome_bind]. case_decide; [rewrite (get_obj_eq _ _ _ Hb); cbn [mbind outcome_bind]|]; by eexists.
Qed.

Lemma inv_active_task own g s : inv own g s -> exists k, tasks s !! g_active_task s = Some k.
Proof. intros I. apply elem_of_dom. apply (ru_task _ _ _ (in_run _ _ _ _ _ I)). Qed.

Definition ticks_ok (n : Z) : Prop := n = RHINO_WAIT_FOREVER \/ 0 <= n <= 2 ^ 62.

Lemma sem_take_ok own g s o b ticks : inv own g s -> objs s !! o = Some b -> g_active_task s <> idle -> ticks_ok ticks -> returns_inv (krhino_sem_take o ticks s).
Proof.
  intros I Hb Hi Hti. pose proof (inv_unsched _ _ own g s I) as U. pose proof U as [[[KO TO MO IO] _ OO _] F _ _]. destruct (inv_active_task own g s I) as [ka Hka]. destruct (cancelled_ok s o b ka Hka Hb) as [c Ec].
  unfold krhino_sem_take. rewrite Ec. cbn [mbind outcome_bind]. destruct c; [by eapply ret_done|]. case_decide as Hn; [by eapply ret_done|].
  rewrite (get_obj_eq _ _ _ Hb). cbn [mbind outcome_bind]. case_decide as Hty; [by eapply ret_done|]. assert (obj_type b = RHINO_SEM_OBJ_TYPE) as Ht by (by destruct (decide (obj_type b = RHINO_SEM_OBJ_TYPE))).
  destruct (mk_sem _ _ _ _ _ _ MO o b Hb Ht) as [x Hx]. rewrite (get_sem_eq _ _ _ Hx). cbn [mbind outcome_bind]. assert (o ∈ dom (objs s)) as Ho by (by apply elem_of_dom).
  destruct (oo_sem _ _ _ OO o b x Hb Ht Hx) as [Hc Hz]. pose proof (sem_not_mutex s o b Hb Ht) as Hm. case_decide as Hpos.
  - unfold upd_sem. rewrite (get_sem_eq _ _ _ Hx). cbn [mbind outcome_bind]. apply (ret_done INHERIT idle own g). apply (inv_sem own g s o b x); try done; [cbn; lia|]. intros t Hw. rewrite (Hz t Hw) in Hpos. lia.
  - case_decide as Hnw; [by eapply ret_done|]. case_decide as Hl; [by eapply ret_done|]. destruct (inv_level INHERIT idle own g s I) as [Hlv Hlk].
    destruct (inv_ready INHERIT idle own g s I ltac:(left; lia)) as (k & Hk & Hst). set (t := g_active_task s) in *. assert (ticks = RHINO_WAIT_FOREVER \/ 0 < ticks <= 2 ^ 62) as Htk by (unfold ticks_ok, RHINO_NO_WAIT in *; lia).
    destruct (pend_step g s KO TO t k Hk o ticks Hst (idle_ready idle g s t TO IO Hi) F Htk Ho) as (g' & s' & l1 & l2 & -> & S1 & _ & _ & _ & _ & Htm). cbn [mbind outcome_bind]. apply (ret_blocked INHERIT idle own g').
    destruct (pended_fields s o ticks k) as (E1 & E2 & E3 & E4 & E5). destruct (ready_at g s TO t k Hk Hst) as [Hw Hnt].
    assert (wh g' t = AtObj o) as Hw'. { rewrite (tk_place _ _ _ (to_task _ _ (s1_tok _ _ _ _ _ _ S1) t _ (sp_look _ _ _ _ _ _ (s1_stp _ _ _ _ _ _ S1)))). unfold place_of. by rewrite E4, E5. }
    apply (unsched_step INHERIT idle None own g s t k _ g' s' U Hk S1); try done; [by rewrite Hst|by rewrite E4| | |].
    + intros o' Hm'. rewrite Hw, Hw'. split; [|done]. intros [= <-]. done.
    + intros o' b' Hw2 _ Hb'. assert (o' = o) as -> by congruence. replace b' with b by congruence. split; [done|]. intros y Hy. replace y with x by congruence. lia.
    + intros Hin. apply pended_time; [by apply Htm|destruct Htk; [by left|right; lia]].
Qed.
End Calls.
