(* ===== verification/KNew.v ===== *)
(** * Creating tasks and objects, deleting semaphores

    A new task or object gets its list nodes; the address is new, or one of a deleted
    object nobody waits for. *)

From stdpp Require Import gmap sorting.
From S2P Require Import Prelude KBits KList KKern KCalls KQueue KTasks KSteps KOwn KInherit KInv KCallsOk KSemOk.

(** Nodes are written that are in no ring. *)
Lemma linked_new T O T' O' g m m' (k : list node) :
  placed T O g -> linked T O g m -> (forall x, x ∉ k -> nxt m' x = nxt m x /\ prv m' x = prv m x) -> (forall x, is_Some (m !! x) -> is_Some (m' !! x)) ->
  (forall i, ring m' (rings T' O' g i) \/ rings T' O' g i = rings T O g i /\ forall n, n ∈ rings T O g i -> n ∉ k) -> (forall t, t ∈ T' -> t ∈ T \/ is_Some (m' !! NTask t)) -> linked T' O' g m'.
Proof.
  intros P [LR LM] Hs Hd Hi Hm. split.
  - intros i. destruct (Hi i) as [?|[-> Hk]]; [done|]. apply (ring_ext m); [intros n Hn; by apply Hs, Hk|by apply rings_nodup|apply LR].
  - intros t Ht. destruct (Hm t Ht) as [Ht'|?]; [|done]. by apply Hd, LM.
Qed.

Lemma insert_fields (m : links) n v x : x <> n -> nxt (<[n := v]> m) x = nxt m x /\ prv (<[n := v]> m) x = prv m x.
Proof. intros Hx. unfold nxt, prv. by rewrite lookup_insert_ne. Qed.
Lemma insert_some (m : links) n v x : is_Some (m !! x) -> is_Some (<[n := v]> m !! x).
Proof. intros H. apply lookup_insert_is_Some'. by right. Qed.

(** ** Objects *)

Lemma new_obj_links g s o :
  kok g s -> (forall t, wh g t <> AtObj o) -> exists m, klist_init (NBlk o) (<[NBlk o := Klist None None]> (lks s)) = Ret m /\
    placed (dom (tasks s)) ({[o]} ∪ dom (objs s)) g /\ linked (dom (tasks s)) ({[o]} ∪ dom (objs s)) g m.
Proof.
  intros [P L Q] Hn. assert (wait g o = []) as Ew. { destruct (wait g o) as [|t l] eqn:E; [done|]. destruct (Hn t). apply (in_wh _ _ _ P). rewrite E. by left. }
  destruct (klist_init_ok (NBlk o) (<[NBlk o := Klist None None]> (lks s))) as (m & E & HR & [Hon Hdom]); [rewrite lookup_insert_eq; by eexists|]. exists m. split; [done|].
  split; [destruct P as [P1 P2 P3 P4 P5]; split; try done; intros t o' Ht; apply elem_of_union_r; by apply (P5 t)|].
  apply (linked_new _ _ _ _ g (lks s) m [NBlk o] P L); [| | |by left].
  - intros x Hx. destruct (Hon x Hx) as [-> ->]. apply insert_fields. intros ->. apply Hx. by left.
  - intros x Hx. apply Hdom. by apply insert_some.
  - intros i. destruct (decide (i = IAt (AtObj o))) as [->|Hi]; [left; cbn [rings]; rewrite decide_True by (apply elem_of_union; left; by apply elem_of_singleton); by rewrite Ew|]. right. split.
    + destruct i as [[|p|o']| |t]; cbn [rings]; try done. assert (o' <> o) as Hne by congruence. destruct (decide (o' ∈ dom (objs s))) as [H|H]; [rewrite decide_True; [done|by apply elem_of_union_r]|].
      rewrite decide_False; [done|]. rewrite elem_of_union, elem_of_singleton. tauto.
    + intros n Hr Hk. apply list_elem_of_singleton in Hk as ->. pose proof (in_ring_of _ _ _ P _ _ Hr) as E2. by cbn in E2; subst.
Qed.

Section Calls.
Context (INHERIT : bool) (idle : Z).
Abbreviation inv := (inv INHERIT idle).
Abbreviation sok := (sok INHERIT idle).
Abbreviation qok := (qok INHERIT idle).
Abbreviation unsched := (unsched INHERIT idle).
Abbreviation returns_inv := (returns_inv INHERIT idle).

(** A new object, or one that was deleted. *)
Definition obj_free (o : Z) (s : kern) : Prop := match objs s !! o with Some b => obj_type b = RHINO_OBJ_TYPE_NONE | None => True end.

Lemma free_unwaited own g s o : inv own g s -> obj_free o s -> forall t, wh g t <> AtObj o.
Proof.
  intros I Hf t Hw. pose proof (in_q _ _ _ _ _ I) as [[KO TO MO IO] _ OO _]. pose proof (pl_obj _ _ _ (ko_placed _ _ KO) t o Hw) as [b Hb]%elem_of_dom. unfold obj_free in Hf. rewrite Hb in Hf.
  by apply (oo_none _ _ _ OO t o b Hw Hb).
Qed.

Lemma free_not_mutex o s : obj_free o s -> ~ mutex_type s o.
Proof. unfold obj_free, mutex_type. destruct (objs s !! o) as [b|]; [|done]. intros E. cbn. rewrite E. by intros [=]. Qed.

(** The lists of mutexes stay when an object appears. *)
Lemma full_new own s s' o : ~ mutex_type s o -> (forall o', o' <> o -> mutex_type s' o' <-> mutex_type s o') -> (forall o', o' <> o -> owner s' o' = owner s o') -> (mutex_type s' o -> owner s' o = None) -> full own s -> full own s'.
Proof.
  intros Hn Ht Ho Hnew [H1 H2]. split.
  - intros o' x Hty How. destruct (decide (o' = o)) as [->|Hne]; [rewrite Hnew in How by done; done|]. rewrite Ht in Hty by done. rewrite Ho in How by done. by apply H1.
  - intros o' x Hin. pose proof (H2 o' x Hin) as Hty. destruct (decide (o' = o)) as [->|Hne]; [done|]. by rewrite Ht.
Qed.

Lemma mutex_type_insert s s' o b o' : objs s' = <[o := b]> (objs s) -> o' <> o -> mutex_type s' o' <-> mutex_type s o'.
Proof. intros E Hne. unfold mutex_type. by rewrite E, lookup_insert_ne. Qed.

(** An object [b] at [o], with a semaphore or an unowned mutex. *)
Lemma inv_new_obj own g s o b m S M :
  inv own g s -> obj_free o s -> blk_policy b = BLK_POLICY_PRI -> klist_init (NBlk o) (<[NBlk o := Klist None None]> (lks s)) = Ret m ->
  placed (dom (tasks s)) ({[o]} ∪ dom (objs s)) g -> linked (dom (tasks s)) ({[o]} ∪ dom (objs s)) g m ->
  (forall o', o' <> o -> S !! o' = sems s !! o') -> (forall o', o' <> o -> M !! o' = mutexes s !! o') ->
  (obj_type b = RHINO_SEM_OBJ_TYPE -> exists x, S !! o = Some x /\ 0 <= sem_count x < 2 ^ 32) ->
  (obj_type b = RHINO_MUTEX_OBJ_TYPE -> exists x, M !! o = Some x /\ mutex_task x = None /\ owner_nested x = 0) ->
  inv own g (set_objs (<[o := b]> (objs s)) (set_mutexes M (set_sems S (set_lks m s)))).
Proof.
  intros I Hf Hpo El Pn Ln HS HM Hsem Hmu. pose proof (free_unwaited own g s o I Hf) as Hnw. pose proof (free_not_mutex o s Hf) as Hnm.
  destruct I as [[[[K1 K2 K3] [T1 T2 T3 T4 T5] [M1 M2 M3 M4 M5 M6 M7 M8] [I1 I2 I3]] Q2 [O1 O2 O3 O4 O5 O6] Q4] F R]. set (s' := set_objs _ _).
  assert (forall o', o' <> o -> mutex_type s' o' <-> mutex_type s o') as Hty by (intros o' Hne; by apply (mutex_type_insert s s' o b)).
  assert (forall o', o' <> o -> owner s' o' = owner s o') as How by (intros o' Hne; unfold owner; cbn; by rewrite HM).
  assert (mutex_type s' o -> owner s' o = None) as Hnew. { unfold mutex_type. cbn. rewrite lookup_insert_eq. cbn. intros [= Hb]. destruct (Hmu Hb) as (x & Hx & E & _). unfold owner. cbn. by rewrite Hx. }
  assert (forall x, o ∉ own x) as Hno. { intros x Hx. destruct (M5 x o Hx) as (_ & _ & _ & EI & _). apply Hnm. by apply (proj2 (Q2 EI) o x). }
  split; [split; [split; [split|split|split|split]| |split|]|exact F|by destruct R]; try assumption.
  - cbn. by rewrite dom_insert_L.
  - cbn. by rewrite dom_insert_L.
  - intros o' b'. cbn. destruct (decide (o' = o)) as [->|Hne]; [rewrite lookup_insert_eq; by intros [= <-]|rewrite lookup_insert_ne by done; apply T5].
  - intros o' b'. cbn. destruct (decide (o' = o)) as [->|Hne]; [rewrite lookup_insert_eq; intros [= <-] Hb; destruct (Hsem Hb) as (x & Hx & _); by eexists|].
    rewrite lookup_insert_ne by done. rewrite HS by done. apply M1.
  - intros o' Hm. destruct (decide (o' = o)) as [->|Hne]; [|apply Hty in Hm; [|done]; cbn; rewrite HM by done; by apply M2].
    unfold mutex_type in Hm. cbn in Hm. rewrite lookup_insert_eq in Hm. injection Hm as Hb. destruct (Hmu Hb) as (x & Hx & _). by eexists.
  - intros x k Hx Hd Hs. cbn. specialize (M3 x k Hx Hd Hs). specialize (Hno x). revert Hno M3. generalize (mutex_list k) (own x). intros r l. revert r. induction l as [|a l IH]; intros r Hno Hh; [done|].
    apply not_elem_of_cons in Hno as [Ha Hno]. destruct Hh as (-> & y & Hy & Hh). split; [done|]. exists y. split; [by rewrite HM|]. by apply IH.
  - intros x o' Hin. destruct (M5 x o' Hin) as (D1 & D2 & D3). assert (o' <> o) as Hne by (intros ->; by apply (Hno x)). rewrite How by done. split; [|done]. cbn. rewrite dom_insert_L. by apply elem_of_union_r.
  - intros o' x Hm Hx. destruct (decide (o' = o)) as [->|Hne]; [rewrite Hnew in Hx by done; done|]. rewrite Hty in Hm by done. rewrite How in Hx by done. by apply (M6 o').
  - intros x o' Hm Hw. destruct (decide (o' = o)) as [->|Hne]; [by destruct (Hnw x)|]. rewrite Hty in Hm by done. rewrite How by done. by apply M7.
  - intros EI. apply (full_new own s s' o); auto.
  - intros x o' b' Hw. destruct (decide (o' = o)) as [->|Hne]; [by destruct (Hnw x)|]. cbn. rewrite lookup_insert_ne by done. intros Hb _. by apply (O1 x o').
  - intros o' b' x. cbn. destruct (decide (o' = o)) as [->|Hne].
    + rewrite lookup_insert_eq. intros [= <-] Hb Hx. destruct (Hsem Hb) as (y & Hy & Hc). rewrite Hy in Hx. injection Hx as <-. split; [done|]. intros t Hw. by destruct (Hnw t).
    + rewrite lookup_insert_ne by done. rewrite HS by done. apply O2.
  - intros o' x Hm. cbn. destruct (decide (o' = o)) as [->|Hne].
    + unfold mutex_type in Hm. cbn in Hm. rewrite lookup_insert_eq in Hm. injection Hm as Hb. destruct (Hmu Hb) as (y & Hy & E1 & E2). rewrite Hy. intros [= <-] _. rewrite E2. split; [lia|done].
    + rewrite Hty in Hm by done. rewrite HM by done. by apply O3.
Qed.

Lemma sem_create_ok own g s o n : inv own g s -> obj_free o s -> 0 <= n < 2 ^ 32 -> returns_inv (krhino_sem_create o n s).
Proof.
  intros I Hf Hn. pose proof (in_q _ _ _ _ _ I) as [[KO _ _ _] _ _ _]. destruct (new_obj_links g s o KO (free_unwaited own g s o I Hf)) as (m & E & P & L). unfold krhino_sem_create, with_links. cbn [lks set_lks]. rewrite E. cbn [mbind outcome_bind].
  apply (ret_done INHERIT idle own g). apply (inv_new_obj own g s o _ m (<[o := Ksem n n K_OBJ_STATIC_ALLOC]> (sems s)) (mutexes s) I Hf); try done.
  - intros o' Hne. by rewrite lookup_insert_ne.
  - intros _. eexists. rewrite lookup_insert_eq. by split.
Qed.

Lemma mutex_create_ok own g s o : inv own g s -> obj_free o s -> returns_inv (krhino_mutex_create o s).
Proof.
  intros I Hf. pose proof (in_q _ _ _ _ _ I) as [[KO _ _ _] _ _ _]. destruct (new_obj_links g s o KO (free_unwaited own g s o I Hf)) as (m & E & P & L). unfold krhino_mutex_create, with_links. cbn [lks set_lks]. rewrite E. cbn [mbind outcome_bind].
  apply (ret_done INHERIT idle own g). apply (inv_new_obj own g s o _ m (sems s) (<[o := Kmutex None None 0 K_OBJ_STATIC_ALLOC]> (mutexes s)) I Hf); try done.
  - intros o' Hne. by rewrite lookup_insert_ne.
  - intros _. eexists. by rewrite lookup_insert_eq.
Qed.

(** ** Tasks *)

Lemma new_task_links g s t :
  kok g s -> t ∉ dom (tasks s) -> exists m, klist_init (NTick t) (<[NTask t := Klist None None]> (<[NTick t := Klist None None]> (lks s))) = Ret m /\
    wh g t = Nowhere /\ (t ∉ tmo g) /\ placed ({[t]} ∪ dom (tasks s)) (dom (objs s)) g /\ linked ({[t]} ∪ dom (tasks s)) (dom (objs s)) g m.
Proof.
  intros [P L Q] Hn. assert (wh g t = Nowhere) as Hw by (destruct (decide (wh g t = Nowhere)) as [?|Hw]; [done|]; by destruct Hn; apply (pl_task _ _ _ P)).
  assert (t ∉ tmo g) as Ht by (intros Hin; by apply Hn, (pl_tick _ _ _ P)). set (m0 := <[NTask t := _]> _).
  destruct (klist_init_ok (NTick t) m0) as (m & E & HR & [Hon Hdom]); [unfold m0; rewrite lookup_insert_ne, lookup_insert_eq by done; by eexists|]. exists m. split_and!; [done|done|done| |].
  { destruct P as [P1 P2 P3 P4 P5]. split; try done; [intros x Hx; apply elem_of_union_r; by apply P3|intros x Hx; apply elem_of_union_r; by apply P4]. }
  apply (linked_new _ _ _ _ g (lks s) m [NTick t; NTask t] P L).
  - intros x [H1 [H2 _]%not_elem_of_cons]%not_elem_of_cons. destruct (Hon x) as [-> ->]; [by rewrite list_elem_of_singleton|]. unfold m0. destruct (insert_fields (<[NTick t := Klist None None]> (lks s)) (NTask t) (Klist None None) x) as [-> ->]; [done|]. by apply insert_fields.
  - intros x Hx. apply Hdom. unfold m0. by apply insert_some, insert_some.
  - intros i. destruct (decide (i = ISelf t)) as [->|Hi]; [left; cbn [rings]; rewrite decide_True by (split; [apply elem_of_union_l; by apply elem_of_singleton|done]); done|]. right. split.
    + destruct i as [[|p|o']| |x]; cbn [rings]; try done. assert (x <> t) as Hne by congruence. destruct (decide (x ∈ dom (tasks s) /\ x ∉ tmo g)) as [[H1 H2]|H]; [rewrite decide_True; [done|]; split; [by apply elem_of_union_r|done]|].
      rewrite decide_False; [done|]. rewrite elem_of_union, elem_of_singleton. tauto.
    + intros n Hr Hk. pose proof (in_ring_of _ _ _ P _ _ Hr) as E2. apply elem_of_cons in Hk as [->|Hk]; [cbn in E2; by rewrite decide_False in E2|]. apply list_elem_of_singleton in Hk as ->. cbn in E2. rewrite Hw in E2. subst i. by apply elem_of_nil in Hr.
  - intros x [->%elem_of_singleton|Hx]%elem_of_union; [right; apply Hdom; unfold m0; rewrite lookup_insert_eq; by eexists|by left].
Qed.

(** A new task that is suspended. *)
Lemma unsched_new own g s t k m :
  inv own g s -> t ∉ dom (tasks s) -> klist_init (NTick t) (<[NTask t := Klist None None]> (<[NTick t := Klist None None]> (lks s))) = Ret m ->
  task_state k = K_SUSPENDED -> prio k = b_prio k -> 0 <= prio k < 61 -> suspend_count k = 1 -> mutex_list k = None -> blk_state k <> BLK_INVALID ->
  unsched None own g (set_lks m (with_task t k s)).
Proof.
  intros I Hn El Hst Ep Hp Hsc Hml Hwhy. pose proof (in_q _ _ _ _ _ I) as [[KO _ _ _] _ _ _]. destruct (new_task_links g s t KO Hn) as (m' & El' & Hw & Htm & Pn & Ln). rewrite El in El'. injection El' as <-.
  destruct I as [[[[K1 K2 K3] TO [M1 M2 M3 M4 M5 M6 M7 M8] [I1 I2 I3]] Q2 [O1 O2 O3 O4 O5 O6] Q4] F [R1 R2 R3]]. set (s' := set_lks _ _). pose proof TO as [T1 T2 T3 T4 T5].
  assert (forall x, x <> t -> tasks s' !! x = tasks s !! x) as Ho by (intros x Hx; cbn; by rewrite lookup_insert_ne). assert (tasks s' !! t = Some k) as Hk by (cbn; by rewrite lookup_insert_eq).
  assert (forall x, x ∈ dom (tasks s) -> prio_of s' x = prio_of s x /\ match_of s' x = match_of s x) as Hpr by (intros x Hx; assert (x <> t) by (by intros ->); unfold prio_of, match_of; by rewrite Ho).
  assert (forall x, live s x -> live s' x) as Hlive by (intros x (kx & Hx & Hl); exists kx; rewrite Ho; [done|]; intros ->; apply Hn; by apply elem_of_dom).
  assert (own t = []) as Hown. { destruct (own t) as [|o l] eqn:E; [done|]. destruct (M5 t o) as (_ & _ & (kx & Hkx & _) & _); [rewrite E; by left|]. destruct Hn. by apply elem_of_dom. }
  assert (forall x o, x ∈ wait g o -> x ∈ dom (tasks s)) as Hwd by (intros x o Hx; apply (pl_task _ _ _ K1); by rewrite (in_wh _ _ _ K1 x _ Hx)).
  assert (tok g s') as TO'.
  { split; try done.
    - intros x kx Hx. destruct (decide (x = t)) as [->|Hne]; [|rewrite Ho in Hx by done; by apply T1]. rewrite Hk in Hx. injection Hx as <-.
      split; unfold place_of, waiting, sleeping, suspended; rewrite ?Hst; try done; lia.
    - intros o. apply (sorted_ext (prio_of s)); [|apply T2]. intros x Hx. by apply Hpr, (Hwd x o).
    - apply (sorted_ext (match_of s)); [|apply T3]. intros x Hx. by apply Hpr, (pl_tick _ _ _ K1). }
  split; [split; [split; [split|done|split|split]| |split|]| | |]; try assumption.
  - cbn. by rewrite dom_insert_L.
  - cbn. by rewrite dom_insert_L.
  - intros x kx Hx Hl Hs. destruct (decide (x = t)) as [->|Hne]; [|rewrite Ho in Hx by done; by apply M3]. rewrite Hk in Hx. injection Hx as <-. by rewrite Hown, Hml.
  - intros x o Hx. destruct (M5 x o Hx) as (D1 & D2 & D3 & D4). split_and!; try done; [by apply Hlive|apply D4..].
  - intros o x Hm Hx. destruct (M6 o x Hm Hx). split; [by apply Hlive|done].
  - destruct I1 as (ki & Hki & H1). exists ki. rewrite Ho; [done|]. intros ->. apply Hn. by apply elem_of_dom.
  - intros x kx Hx Hne. destruct (decide (x = t)) as [->|Hxt]; [|rewrite Ho in Hx by done; by apply (I2 x)]. rewrite Hk in Hx. injection Hx as <-. lia.
  - intros EI x (kx & Hx & Hl). destruct (decide (x = t)) as [->|Hne].
    + unfold inh, prio_of, b_of. rewrite Hk, Hown. done.
    + rewrite Ho in Hx by done. assert (live s x) as Hlx by (by exists kx). pose proof (Q4 EI x Hlx) as E. unfold inh in E |- *. assert (x ∈ dom (tasks s)) as Hxd by (by apply elem_of_dom).
      rewrite (proj1 (Hpr x Hxd)), E. unfold b_of. rewrite Ho by done. symmetry. apply eff_ext; try done. intros o w _ Hw'. by apply Hpr, (Hwd w o).
  - intros x Hx. rewrite (proj2 (Hpr x (pl_tick _ _ _ K1 x Hx))). by apply F.
  - cbn. rewrite dom_insert_L. by apply elem_of_union_r.
  - intros Hl. destruct (R1 (or_intror Hl)) as (ka & Hka & Hsa). exists ka. split; [|done]. change (tasks s' !! g_active_task s = Some ka). rewrite Ho; [done|]. intros E. apply Hn. rewrite <- E. by apply elem_of_dom.
Qed.

Lemma task_create_ok own g s t pri ticks autorun : inv own g s -> t ∉ dom (tasks s) -> 0 <= pri -> returns_inv (krhino_task_create t pri ticks autorun s).
Proof.
  intros I Hn Hp. unfold krhino_task_create. case_decide as H1; [by eapply ret_done|]. case_decide as H2; [by eapply ret_done|]. case_decide as H3; [by eapply ret_done|].
  pose proof (in_q _ _ _ _ _ I) as [[KO TO _ IO] _ OO _]. pose proof (io_spawned _ _ IO) as Hsp. unfold RHINO_CONFIG_PRI_MAX in H1. assert (pri <> RHINO_IDLE_PRI) as Hni by tauto.
  rewrite (decide_False (P := pri = RHINO_IDLE_PRI)) by done. assert (0 <= pri < 61) as Hp2 by (change RHINO_IDLE_PRI with 61 in Hni; lia). cbn zeta.
  destruct (new_task_links g s t KO Hn) as (m & E & Hw & Htm & _). unfold with_links. cbn [lks set_lks set_tasks]. rewrite E. cbn [mbind outcome_bind].
  set (k := Ktask pri pri _ _ _ _ _ _ _ _ _ _ _ _). set (k0 := set_task_state K_SUSPENDED (set_suspend_count 1 k)).
  pose proof (unsched_new own g s t k0 m I Hn E eq_refl eq_refl Hp2 eq_refl eq_refl ltac:(done)) as U. case_decide as Ha.
  - pose proof U as [[[KO1 TO1 _ _] _ _ _] _ _ _]. assert (tasks (set_lks m (with_task t k0 s)) !! t = Some k0) as Hk0 by (cbn; by rewrite lookup_insert_eq).
    destruct (resume_ready g (set_lks m (with_task t k0 s)) KO1 TO1 t k0 Hk0 (fun _ => k)) as (g' & s' & Er & S1 & Hnt); [done|done|done| | |].
    { by split_and!. }
    { done. }
    rewrite (upd_task_ok t _ _ k0 Hk0) in Er. cbn [mbind outcome_bind] in Er. assert (with_task t k (set_lks m (with_task t k0 s)) = set_lks m (with_task t k s)) as Es.
    { unfold with_task. cbn. by rewrite insert_insert_eq. }
    rewrite Es in Er. unfold ready_list_add in Er. fold (with_task t k s). change (set_lks m (set_lks _ (with_task t k s))) with (set_lks m (with_task t k s)). rewrite Er. cbn [mbind outcome_bind].
    assert (g_sys_stat s' = RHINO_RUNNING) as Hrun. { destruct (tasks_only_fields _ _ (stp_only _ _ _ _ _ _ (s1_stp _ _ _ _ _ _ S1))) as (_ & _ & _ & _ & _ & _ & _ & ->). apply (oo_run _ _ _ OO). }
    rewrite (decide_True (P := g_sys_stat s' = RHINO_RUNNING)) by done. apply (ret_sched INHERIT idle own g'). assert (task_state k = K_RDY) as Hkr by done.
    apply (unsched_free INHERIT idle None own g _ t k0 k g' s' U Hk0 S1); try done; [intros ->; destruct (io_idle _ _ IO) as (ki & Hki & _); apply Hn; by apply elem_of_dom|]. intros o Ho. congruence.
  - assert (k = k0) as Ek by done. fold (with_task t k s). change (set_lks m (set_lks _ (with_task t k s))) with (set_lks m (with_task t k s)). rewrite Ek.
    apply (ret_done INHERIT idle own g). destruct U as [U1 U2 U3 U4]. split; [done|done|]. destruct I as [_ _ [R1 R2 R3]]. split; [|exact U3|exact R3].
    intros Hc. destruct (R1 Hc) as (ka & Hka & Hsa). exists ka. split; [|done]. cbn. rewrite lookup_insert_ne; [done|]. intros ->. apply Hn. by apply elem_of_dom.
Qed.

(** ** Deleting semaphores *)

Definition untyped (o : Z) (b : blk_obj_t) (s : kern) : kern := set_objs (<[o := set_obj_type RHINO_OBJ_TYPE_NONE b]> (objs s)) s.

Lemma untyped_type o b s o' : mutex_type (untyped o b s) o' <-> o' <> o /\ mutex_type s o'.
Proof. unfold mutex_type, untyped. cbn. destruct (decide (o' = o)) as [->|Hne]; [rewrite lookup_insert_eq; cbn; split; [by intros [=]|by intros [? _]]|rewrite lookup_insert_ne by done; tauto]. Qed.

(** The type is taken away first. *)
Lemma sok_untype own g s o b : objs s !! o = Some b -> sok None own g s -> ook None g s -> sok None own g (untyped o b s) /\ ook (Some o) g (untyped o b s).
Proof.
  intros Hb [[K1 K2 K3] [T1 T2 T3 T4 T5] [M1 M2 M3 M4 M5 M6 M7 M8] [I1 I2 I3]] [O1 O2 O3 O4 O5 O6].
  assert (dom (objs (untyped o b s)) = dom (objs s)) as Ed by (cbn; apply dom_insert_lookup_L; by eexists).
  assert (forall o' b', objs (untyped o b s) !! o' = Some b' -> o' <> o -> objs s !! o' = Some b') as Hob by (intros o' b' H Hne; cbn in H; by rewrite lookup_insert_ne in H).
  split; [split; [split; rewrite ?Ed|split|split|split]|split]; try assumption.
  - intros o' b' H. destruct (decide (o' = o)) as [->|Hne]; [cbn in H; rewrite lookup_insert_eq in H; injection H as <-; by apply (T5 o b)|by apply (T5 o' b'), Hob].
  - intros o' b' H Hty. destruct (decide (o' = o)) as [->|Hne]; [cbn in H; rewrite lookup_insert_eq in H; by injection H as <-|]. by apply (M1 o' b' (Hob o' b' H Hne)).
  - intros o' [_ Hm]%untyped_type. by apply M2.
  - rewrite Ed. exact M5.
  - intros o' x [_ Hm]%untyped_type. by apply M6.
  - intros x o' [_ Hm]%untyped_type. by apply M7.
  - intros x o' b' Hw H Hne. apply (O1 x o' b' Hw); [|done]. apply Hob; [done|congruence].
  - intros o' b' x H Hty. destruct (decide (o' = o)) as [->|Hne]; [cbn in H; rewrite lookup_insert_eq in H; by injection H as <-|]. by apply (O2 o' b' x (Hob o' b' H Hne)).
  - intros o' x [_ Hm]%untyped_type Hx _. by apply (O3 o' x).
Qed.

Lemma upd_obj_ok o f s b : objs s !! o = Some b -> upd_obj o f s = Ret (set_objs (<[o := f b]> (objs s)) s).
Proof. intros H. unfold upd_obj. by rewrite (get_obj_eq _ _ _ H). Qed.

(** The end of a deletion: all waiters leave. *)
Lemma drain_end own g s o :
  unsched (Some o) own g s -> o ∈ dom (objs s) -> ~ mutex_type s o -> returns_inv (s ← drain pend_task_rm (base.size (lks s)) o s; exit_sched s).
Proof.
  intros U Ho Hm. pose proof U as [[[KO _ _ _] _ _ _] _ _ _]. change pend_task_rm with (pend_leave BLK_DEL).
  destruct (drain_ok INHERIT idle BLK_DEL (Some o) own o ltac:(done) (base.size (lks s)) g s U Ho Hm (wait_fuel g s o KO Ho)) as (g' & s' & -> & U' & Hn & To & _). cbn [mbind outcome_bind].
  apply (ret_sched INHERIT idle own g'). pose proof (wait_empty INHERIT idle (Some o) own g' s' o U' ltac:(by rewrite Hn)) as Hnw. destruct U' as [[Q1 Q2 Q3 Q4] U2 U3 U4]. split; [split|..]; try done.
  apply (ook_done o g' s' Hnw); [|done]. unfold mutex_type. by destruct (tasks_only_fields _ _ To) as (-> & _).
Qed.

Lemma sem_del_ok own g s o b : inv own g s -> objs s !! o = Some b -> returns_inv (krhino_sem_del o s).
Proof.
  intros I Hb. unfold krhino_sem_del. case_decide; [by eapply ret_done|]. rewrite (get_obj_eq _ _ _ Hb). cbn [mbind outcome_bind]. case_decide as Hty; [by eapply ret_done|].
  assert (obj_type b = RHINO_SEM_OBJ_TYPE) as Ht by (by destruct (decide (obj_type b = RHINO_SEM_OBJ_TYPE))). pose proof (inv_unsched _ _ own g s I) as [[SO Hfull OO Hinh] F D L].
  destruct (mk_sem _ _ _ _ _ _ (so_m _ _ _ _ _ _ SO) o b Hb Ht) as [x Hx]. rewrite (get_sem_eq _ _ _ Hx). cbn [mbind outcome_bind]. case_decide; [by eapply ret_done|].
  rewrite (upd_obj_ok _ _ _ _ Hb). cbn [mbind outcome_bind]. fold (untyped o b s). destruct (sok_untype own g s o b Hb SO OO) as [SO' OO']. pose proof (sem_not_mutex s o b Hb Ht) as Hnm.
  apply (drain_end own g); [|cbn; apply elem_of_dom; rewrite lookup_insert_eq; by eexists|by rewrite untyped_type; intros [? _]]. split; try done. split; try done.
  intros EI. apply (full_new own s _ o Hnm); [|done| |auto]; [intros o' Hne; rewrite untyped_type; tauto|by intros [? _]%untyped_type].
Qed.
End Calls.
