(* ===== verification/KUnwait.v ===== *)
(** * Priorities given back, and tasks that stop to wait

    [mutex_release] and [mutex_task_pri_reset] restore inherited priorities when a mutex is
    given back or a task stops to wait; then the tick, aborted waits and changes of
    priority. *)

From stdpp Require Import gmap sorting.
From S2P Require Import Prelude KBits KList KKern KCalls KQueue KTasks KSteps KOwn KInherit KInv KCallsOk KSemOk KNew.

Lemma co_b s s' x : chains_only s s' -> b_of s' x = b_of s x.
Proof.
  intros C. unfold b_of. destruct (tasks s' !! x) as [k'|] eqn:E; [destruct (co_task_inv s s' C x k' E) as (k & -> & ->); done|]. destruct (tasks s !! x) as [k|] eqn:E2; [|done]. destruct (co_task s s' C x k E2). congruence.
Qed.
Lemma co_inh s s' own g x : chains_only s s' -> inh (b_of s') own g s' x <-> inh (b_of s) own g s x.
Proof. intros C. unfold inh. by rewrite (co_prio s s' C), (co_firsts s s' C), (co_b s s'). Qed.
Lemma co_iok idle s s' : chains_only s s' -> iok idle s -> iok idle s'.
Proof.
  intros C [(ki & Hki & H1) H2 H3]. split.
  - destruct (co_task s s' C idle ki Hki) as [v Hv]. by exists (set_mutex_list v ki).
  - intros t k Ht Hne. destruct (co_task_inv s s' C t k Ht) as (k0 & Hk0 & E). rewrite E. by apply (H2 t k0).
  - destruct (co_fields s s' C) as (_ & _ & _ & _ & _ & _ & _ & _ & _ & _ & ->). done.
Qed.
Lemma po_b s s' x : prios_only s s' -> b_of s' x = b_of s x.
Proof.
  intros C. unfold b_of. destruct (tasks s' !! x) as [k'|] eqn:E; [destruct (po_task_inv s s' C x k' E) as (k & -> & ->); done|]. destruct (tasks s !! x) as [k|] eqn:E2; [|done]. destruct (po_task s s' C x k E2). congruence.
Qed.

Lemma prio_nonneg g s t : tok g s -> 0 <= prio_of s t.
Proof. intros TO. unfold prio_of. destruct (tasks s !! t) as [k|] eqn:E; [|lia]. apply (tk_prio _ _ _ (to_task _ _ TO t k E)). Qed.

Lemma eff_range g s b l : tok g s -> 0 <= b < 61 -> 0 <= least b (firsts g s l) < 61.
Proof. intros TO Hb. apply least_range; [done|]. intros y (o & w & _ & _ & ->)%elem_firsts. by apply (prio_nonneg g). Qed.

Section Mutex.
Context (INHERIT : bool) (idle : Z).
Abbreviation inv := (inv INHERIT idle).
Abbreviation sok := (sok INHERIT idle).
Abbreviation mok := (mok INHERIT idle).
Abbreviation qok := (qok INHERIT idle).
Abbreviation unsched := (unsched INHERIT idle).
Abbreviation changed := (changed INHERIT idle).
Abbreviation returns_inv := (returns_inv INHERIT idle).

Lemma changed_refl own g s : sok None own g s -> changed own g s g s.
Proof. intros H. by split_and!. Qed.

(** ** [mutex_release] *)

Lemma release_ok own g s t k rel :
  sok None own g s -> tasks s !! t = Some k -> task_state k <> K_DELETED -> t <> idle ->
  let own' := upd own t (without rel (own t)) in
  exists g' s' s1, mutex_release INHERIT t rel s = Ret s' /\ chains_only s s1 /\ (rel = None -> s1 = s) /\ changed own' g s1 g' s' /\
    (INHERIT = true -> (task_state k <> K_RDY -> full own' s) -> (forall x, x <> t -> live s x -> inh (b_of s) own' g s x) -> inherited own' g' s') /\
    (least (b_prio k) (firsts g s (own' t)) = prio k -> g' = g /\ s' = s1).
Proof.
  intros SO Ht Hl Hti own'. pose proof SO as [KO TO MO IO]. unfold mutex_release.
  destruct (look_ok INHERIT idle own g s t k rel KO TO MO Ht Hl) as (s1 & -> & C & MO1 & Hnone). cbn [mbind outcome_bind]. fold own' in MO1. destruct (co_task s s1 C t k Ht) as [v Hk1].
  rewrite (get_task_eq _ _ _ Hk1). cbn [mbind outcome_bind prio set_mutex_list]. assert (without rel (own t) = own' t) as Ew by (unfold own'; by rewrite upd_eq). rewrite Ew.
  assert (sok None own' g s1) as SO1 by (split; [by apply (co_kok s s1)|by apply (co_tok s s1)|done|by apply (co_iok idle s s1)]).
  set (n := least (b_prio k) (firsts g s (own' t))). assert (0 <= n < 61) as Hn by (apply eff_range; [done|]; pose proof (tk_base _ _ _ (to_task _ _ TO t k Ht)); destruct (io_other _ _ IO t k Ht Hti); lia).
  case_decide as Hd.
  - destruct (task_pri_change_ok INHERIT idle (b_of s1) own' g s1 t _ n SO1 Hk1 Hl Hti Hn) as (g' & s' & -> & Hch & Hres & _). exists g', s', s1. split_and!; try done.
    intros EI Hfull Hx x Hlx. pose proof Hch as (_ & _ & Hpo). apply (inh_base (b_of s1)); [symmetry; by apply po_b|]. apply Hres; try done.
    + intros Hnr. apply (full_chains own' s s1 C). by apply Hfull.
    + intros y Hy Hly. apply (co_inh s s1); [done|]. apply Hx; [done|]. by apply (co_live_inv s s1 C).
    + unfold n. rewrite (co_firsts s s1 C). unfold b_of. by rewrite Hk1.
    + left. apply base_is_b.
  - exists g, s1, s1. assert (n = prio k) as En by (destruct (decide (n = prio k)); [done|tauto]). split_and!; try done.
    intros EI _ Hx x Hlx. apply (co_inh s s1); [done|]. destruct (decide (x = t)) as [->|Hne]; [|apply Hx; [done|by apply (co_live_inv s s1 C)]]. unfold inh, prio_of, b_of. by rewrite Ht.
Qed.

Lemma full_own_other own own' s : (forall x, own' x = own x) -> full own s -> full own' s.
Proof. intros E [H1 H2]. split; intros o x; rewrite E; [apply H1|apply H2]. Qed.

(** ** [mutex_task_pri_reset]: [t] has stopped to wait *)

Section Leave.
Context (skip : option Z) (own : Z -> list Z) (g : ghost) (s : kern) (SO : sok skip own g s) (t : Z) (k k1 : ktask_t) (Ht : tasks s !! t = Some k) (g1 : ghost) (s1 : kern) (S1 : step1 t k1 g s g1 s1).
Context (o : Z) (Hw : wh g t = AtObj o) (Hw1 : forall o', wh g1 t <> AtObj o') (Ep : prio k1 = prio k) (Eb : b_prio k1 = b_prio k).

(** The owner keeps its priority when another task gives it to it. *)
Lemma leave_keep w : inh (b_of s) own g s w -> o ∈ own w -> prio_of s w <> prio k -> inh (b_of s1) own g1 s1 w.
Proof.
  intros Hinh Ho Hne. pose proof SO as [KO TO MO IO]. unfold inh in *. rewrite (step_prio g s t k k1 Ht g1 s1 S1 w Ep), (step_b g s t k k1 Ht g1 s1 S1 w Eb). apply z_ext. intros x.
  rewrite le_eff by apply S1. assert (forall o' v, v ∈ wait g1 o' <-> v ∈ wait g o' /\ v <> t) as Hin.
  { intros o' v. destruct (decide (v = t)) as [->|Hv].
    - split; [|tauto]. intros Hin. by apply (in_wh _ _ _ (ko_placed _ _ (sp_kok _ _ _ _ _ _ (s1_stp _ _ _ _ _ _ S1)))) in Hin; destruct (Hw1 o').
    - rewrite (step_in g s KO t k1 g1 s1 S1 o' v) by (by left). tauto. }
  split.
  - intros Hx. rewrite Hinh, le_eff in Hx by done. destruct Hx as [H1 H2]. split; [done|]. intros o' v Ho' Hv. apply Hin in Hv as [Hv _]. rewrite (step_prio g s t k k1 Ht g1 s1 S1 v Ep). by apply (H2 o').
  - intros [H1 H2]. rewrite Hinh. destruct (least_in (b_of s w) (firsts g s (own w))) as [->|Hf]; [done|]. apply elem_firsts in Hf as (o' & v & Ho' & Hv & E). rewrite E.
    rewrite <- (step_prio g s t k k1 Ht g1 s1 S1 v Ep). apply (H2 o' v Ho'). apply Hin. split; [by apply head_Some_elem_of|]. intros ->. apply Hne. rewrite Hinh, E. unfold prio_of. by rewrite Ht.
Qed.

Lemma pri_reset_ok :
  sok None own g1 s1 -> blk_obj k1 = Some o -> (INHERIT = true -> full own s) -> (INHERIT = true -> forall x, live s1 x -> inh (b_of s) own g s x) ->
  exists g' s', mutex_task_pri_reset INHERIT t s1 = Ret s' /\ changed own g1 s1 g' s' /\ (INHERIT = true -> inherited own g' s').
Proof.
  intros SO1 Hbo Hfull Hinh. pose proof SO as [KO TO MO IO]. pose proof (s1_stp _ _ _ _ _ _ S1) as Sp. pose proof (sp_look _ _ _ _ _ _ Sp) as Ht1.
  destruct (decide (INHERIT = false)) as [EF|EI]; [exists g1, s1; split_and!; [unfold mutex_task_pri_reset; by rewrite EF|by apply changed_refl|congruence]|].
  apply not_false_is_true in EI. replace (mutex_task_pri_reset INHERIT t s1) with (mutex_task_pri_reset true t s1) by (by rewrite EI). unfold mutex_task_pri_reset. specialize (Hfull EI). specialize (Hinh EI).
  rewrite (get_task_eq _ _ _ Ht1). cbn [mbind outcome_bind]. rewrite Hbo. cbn [non_null mbind outcome_bind]. pose proof (pl_obj _ _ _ (ko_placed _ _ KO) t o Hw) as [b Hb]%elem_of_dom.
  unfold get_obj. rewrite (sp_objs _ _ _ _ _ _ Sp), Hb. cbn [mbind outcome_bind].
  assert (Haside : forall x, live s1 x -> ~ (mutex_type s o /\ owner s o = Some x) -> inh (b_of s1) own g1 s1 x).
  { intros x Hx Hno. apply (inh_step g s KO TO t k k1 Ht g1 s1 S1 own x Ep Eb); [|by apply Hinh]. intros o' Ho'. split; intros H; [by destruct (Hw1 o')|]. rewrite Hw in H. injection H as <-.
    destruct Hno. split; [by apply (proj2 Hfull o x)|]. by apply (mk_own _ _ _ _ _ _ MO x o). }
  case_decide as Hty; [|exists g1, s1; split_and!; [done|by apply changed_refl|]; intros _ x Hx; apply Haside; [done|]; intros [Hm _]; apply Hty; unfold mutex_type in Hm; rewrite Hb in Hm; by injection Hm].
  assert (mutex_type s o) as Hm by (unfold mutex_type; rewrite Hb; cbn; by f_equal). destruct (mk_mutex _ _ _ _ _ _ MO o Hm) as [x Hx]. destruct (mk_wait _ _ _ _ _ _ MO t o Hm Hw) as [[w Hwo] Hne].
  assert (mutex_task x = Some w) as Hxw by (unfold owner in Hwo; rewrite Hx in Hwo; exact Hwo). assert (w <> t) as Hwt by congruence.
  unfold get_mutex. rewrite (sp_mutexes _ _ _ _ _ _ Sp), Hx. cbn [mbind outcome_bind]. rewrite Hxw. cbn [non_null mbind outcome_bind].
  destruct (mk_live _ _ _ _ _ _ MO o w Hm Hwo) as [(kw & Hkw & Hlw) Hwi]. pose proof Hkw as Hkw1. rewrite <- (sp_other _ _ _ _ _ _ w Sp Hwt) in Hkw1. rewrite (get_task_eq _ _ _ Hkw1). cbn [mbind outcome_bind].
  assert (full own s1) as Hfull1 by (by apply (full_step own t k1 g s g1 s1)).
  case_decide as Hpr.
  - destruct (release_ok own g1 s1 w kw None SO1 Hkw1 Hlw Hwi) as (g' & s' & s2 & E & _ & E2 & Hch & Hres & _). rewrite EI in E. rewrite (E2 eq_refl) in Hch. cbn [without] in Hch, Hres.
    assert (forall y, upd own w (own w) y = own y) as Eo by (intros y; unfold upd; case_decide; by subst). exists g', s'. split; [done|].
    assert (changed own g1 s1 g' s') as Hch'. { destruct Hch as ([K1 T1 [M1 M2 M3 M4 M5 M6 M7 M8] I1] & Hr & Hp). split_and!; [|done|done]. split; try done. split; try done; intros y; rewrite <- Eo; auto. }
    split; [done|]. intros _ y Hy. assert (inherited (upd own w (own w)) g' s') as Hall.
    { apply Hres; [done|intros _; by apply (full_own_other own)|]. intros z Hz Hlz. unfold inh. rewrite Eo. apply Haside; [done|]. intros [_ ?]. congruence. }
    specialize (Hall y Hy). unfold inh in Hall |- *. by rewrite Eo in Hall.
  - exists g1, s1. split_and!; [done|by apply changed_refl|]. intros _ y Hy. destruct (decide (y = w)) as [->|Hyw]; [|apply Haside; [done|]; intros [_ ?]; congruence].
    apply leave_keep; [by apply Hinh|by apply (proj1 Hfull)|]. unfold prio_of. rewrite Hkw. by rewrite <- Ep.
Qed.
End Leave.
End Mutex.

(** ** Tasks that stop to wait: timeouts and aborts

    A task leaves the object it waits for, the owner of a mutex gets back the priority it
    is due, and the task forgets the object.  The tick does this for every timeout that
    has passed, [krhino_task_wait_abort] for any task. *)

(** ** The running task *)

Definition awake (s : kern) : Prop := g_active_task s ∈ dom (tasks s) /\ (0 < g_sched_lock s -> ready s (g_active_task s)).

Lemma awake_step t k' g s g' s' : stp t k' g s g' s' -> awake s -> (0 < g_sched_lock s -> t = g_active_task s -> task_state k' = K_RDY) -> awake s'.
Proof.
  intros Sp [D L] Hk. destruct (tasks_only_fields _ _ (stp_only _ _ _ _ _ _ Sp)) as (_ & _ & _ & _ & Ea & El & _). pose proof (sp_tasks _ _ _ _ _ _ Sp) as Et. split.
  - rewrite Ea, Et, dom_insert_L. by apply elem_of_union_r.
  - rewrite Ea, El. intros Hlo. unfold ready. rewrite Et. destruct (decide (g_active_task s = t)) as [E|Hne]; [rewrite E, lookup_insert_eq; exists k'; split; [done|by apply Hk]|].
    rewrite lookup_insert_ne by done. by apply L.
Qed.

Lemma awake_prios s s' : prios_only s s' -> awake s -> awake s'.
Proof.
  intros Hp [D L]. destruct (po_fields s s' Hp) as (_ & _ & _ & _ & Ea & _ & El & _). apply elem_of_dom in D as [k Hk]. destruct (po_task s s' Hp _ k Hk) as [p Hk']. split.
  - rewrite Ea. by apply elem_of_dom.
  - rewrite Ea, El. intros Hlo. destruct (L Hlo) as (k2 & Hk2 & Hst). exists (set_prio p k). split; [done|]. rewrite Hk in Hk2. by injection Hk2 as <-.
Qed.

Lemma fresh_changed g s g' s' : prios_only s s' -> reordered g g' -> fresh g s -> fresh g' s'.
Proof.
  intros Hp [_ Ht] F t Hin. rewrite Ht in Hin. destruct (po_fields s s' Hp) as (_ & _ & _ & -> & _). specialize (F t Hin). unfold match_of in F |- *.
  destruct (tasks s !! t) as [k|] eqn:E; [destruct (po_task s s' Hp t k E) as [p ->]; done|]. destruct (tasks s' !! t) as [k'|] eqn:E'; [destruct (po_task_inv s s' Hp t k' E') as (? & ? & _); congruence|done].
Qed.

Section Calls.
Context (INHERIT : bool) (idle : Z).
Abbreviation inv := (inv INHERIT idle).
Abbreviation sok := (sok INHERIT idle).
Abbreviation qok := (qok INHERIT idle).
Abbreviation unsched := (unsched INHERIT idle).
Abbreviation changed := (changed INHERIT idle).
Abbreviation returns_inv := (returns_inv INHERIT idle).

(** ** The owner of the mutex *)

(** The mutexes of a deleted task do not matter. *)
Lemma sok_dead skip own g s t k : sok skip own g s -> tasks s !! t = Some k -> skip = None \/ (skip = Some t /\ task_state k = K_DELETED) -> sok None own g s.
Proof.
  intros SO Ht [->|[-> Hd]]; [done|]. destruct SO as [KO TO [M1 M2 M3 M4 M5 M6 M7 M8] IO]. split; try done. split; try done.
  intros x kx Hx Hl _. destruct (decide (x = t)) as [->|Hne]; [congruence|]. apply M3; [done|done|congruence].
Qed.

(** [t] has left the list of waiting tasks it was in. *)
Lemma unwait_reset ex skip own g s t k k1 g1 s1 o :
  sok skip own g s -> skip = None \/ (skip = Some t /\ task_state k1 = K_DELETED) -> (INHERIT = true -> full own s) -> ook ex g s -> tasks s !! t = Some k -> step1 t k1 g s g1 s1 -> wh g t = AtObj o -> waiting k1 = false -> t <> idle ->
  prio k1 = prio k -> b_prio k1 = b_prio k -> mutex_list k1 = mutex_list k -> blk_obj k1 = Some o ->
  (task_state k1 <> K_DELETED \/ (own t = [] /\ (forall o, mutex_type s o -> owner s o <> Some t))) -> (INHERIT = true -> forall x, live s1 x -> inh (b_of s) own g s x) ->
  exists g' s', mutex_task_pri_reset INHERIT t s1 = Ret s' /\ reordered g1 g' /\ prios_only s1 s' /\ qok ex own g' s'.
Proof.
  intros SO Hskip Hfull OO Ht S1 Hw Hwa Hti Ep Eb Em Hbo Hl Hinh. pose proof SO as [KO TO MO IO]. pose proof (sp_look _ _ _ _ _ _ (s1_stp _ _ _ _ _ _ S1)) as Ht1.
  assert (forall o', wh g1 t <> AtObj o') as Hw1 by (intros o'; by apply (not_at g1 s1 t k1); [apply S1|..]). destruct (wh_blk g s t k o TO Ht Hw) as [Hwk _].
  assert (task_state k <> K_DELETED) as Hlk by (intros E; unfold waiting in Hwk; by rewrite E in Hwk). destruct (io_other _ _ IO t k Ht Hti) as [Hp Hb].
  assert (sok None own g1 s1) as SO1. { apply (sok_dead skip own g1 s1 t k1); [|done|done]. apply (sok_step INHERIT idle skip own g s t k k1 g1 s1 SO Ht S1); try done; [lia|lia|]. intros o' Ho'. by destruct (Hw1 o'). }
  destruct (pri_reset_ok INHERIT idle skip own g s SO t k k1 Ht g1 s1 S1 o Hw Hw1 Ep Eb SO1 Hbo Hfull Hinh) as (g' & s' & E & (SO' & Hr & Hpo) & Hi). exists g', s'. split_and!; try done. split; try done.
  - intros EI. apply (full_prios own s1 s' Hpo). apply (full_step own t k1 g s g1 s1); [apply S1|auto].
  - apply (ook_changed ex g1 s1 g' s' (so_k _ _ _ _ _ _ SO1) (so_k _ _ _ _ _ _ SO') Hr Hpo). apply (ook_step g s KO t k1 g1 s1 S1 ex OO). intros o' b Ho'. by destruct (Hw1 o').
Qed.

(** The task forgets the object. *)
Lemma unblk_ok ex own g s t k :
  qok ex own g s -> tasks s !! t = Some k -> waiting k = false -> t <> idle -> task_state k <> K_DELETED ->
  exists s', upd_task t (set_blk_obj None) s = Ret s' /\ qok ex own g s' /\ step1 t (set_blk_obj None k) g s g s'.
Proof.
  intros Q Ht Hwa Hti Hl. pose proof Q as [[KO TO _ _] _ _ _]. pose proof (to_task _ _ TO t k Ht) as [K1 K2 K3 K4 K5 K6 K7 K8 K9].
  destruct (record_step g s KO TO t k Ht (set_blk_obj None)) as (s' & E & S1); [done|done| |].
  { split; try done; [|unfold waiting in *; cbn; rewrite Hwa; done]. rewrite K1. unfold place_of, waiting in *. cbn. by destruct (task_state k). }
  exists s'. split_and!; [done| |done]. by apply (qok_step INHERIT idle ex own g s t k _ g s' Q Ht S1).
Qed.

(** ** A timeout *)

Definition woken_state (k : ktask_t) : task_stat_t := if suspended k then K_SUSPENDED else K_RDY.
Definition woken_why (k : ktask_t) : blk_state_t := if waiting k then BLK_TIMEOUT else BLK_FINISH.

(** What else a timeout changes: priorities. *)
Definition others_keep (t : Z) (s s' : kern) : Prop := forall x k, x <> t -> tasks s !! x = Some k -> exists p, tasks s' !! x = Some (set_prio p k).

Lemma moved_out t g g' : moved t g g' -> t ∉ tmo g' -> tmo g' = rest t (tmo g).
Proof. intros [_ M] Hn. rewrite <- M. symmetry. by apply rest_out. Qed.

(** Priorities are changed after [t] has left, and the object is forgotten. *)
Lemma unwait_end ex own g s t k k1 g1 s1 o :
  qok ex own g s -> awake s -> tasks s !! t = Some k -> step1 t k1 g s g1 s1 -> (t ∉ tmo g1) -> wh g t = AtObj o -> waiting k1 = false -> task_state k1 <> K_DELETED ->
  prio k1 = prio k -> b_prio k1 = b_prio k -> mutex_list k1 = mutex_list k -> blk_obj k1 = Some o ->
  exists g' s' p, (s ← mutex_task_pri_reset INHERIT t s1; upd_task t (set_blk_obj None) s) = Ret s' /\ qok ex own g' s' /\ awake s' /\ tmo g' = rest t (tmo g) /\
    tasks s' !! t = Some (set_blk_obj None (set_prio p k1)) /\ others_keep t s s' /\ tasks_only s s'.
Proof.
  intros Q A Ht S1 Hn Hw Hwa Hl Ep Eb Em Hbo. pose proof Q as [SO Hfull OO Hinh]. pose proof SO as [KO TO MO IO]. pose proof (s1_stp _ _ _ _ _ _ S1) as Sp.
  destruct (wh_blk g s t k o TO Ht Hw) as [Hwk _]. assert (task_state k <> K_RDY) as Hnr by (intros E; unfold waiting in Hwk; by rewrite E in Hwk). pose proof (not_idle idle s t k IO Ht Hnr) as Hti.
  assert (task_state k <> K_DELETED) as Hlk by (intros E; unfold waiting in Hwk; by rewrite E in Hwk).
  destruct (unwait_reset ex None own g s t k k1 g1 s1 o SO ltac:(by left) Hfull OO Ht S1 Hw Hwa Hti Ep Eb Em Hbo ltac:(by left)) as (g' & s2 & -> & Hr & Hpo & Q2).
  { intros EI x Hx. apply (Hinh EI). apply (step_live g s t k k1 Ht g1 s1 S1 x); [by intros ?%Hlk|done]. }
  cbn [mbind outcome_bind]. destruct (po_task s1 s2 Hpo t k1 (sp_look _ _ _ _ _ _ Sp)) as [p Hk2].
  destruct (unblk_ok ex own g' s2 t _ Q2 Hk2 Hwa Hti Hl) as (s' & E & Q' & S2). exists g', s', p. pose proof (s1_stp _ _ _ _ _ _ S2) as Sp2.
  assert (awake s1) as A1. { apply (awake_step t k1 g s g1 s1 Sp A). intros Hlo Ha. destruct (proj2 A Hlo) as (ka & Hka & Hsa). rewrite <- Ha in Hka. congruence. }
  split_and!; [done|done| | | | |].
  - apply (awake_step _ _ _ _ _ _ Sp2); [by apply (awake_prios s1)|]. destruct (po_fields s1 s2 Hpo) as (_ & _ & _ & _ & -> & _ & -> & _). cbn. intros Hlo Ha.
    destruct (proj2 A1 Hlo) as (ka & Hka & Hsa). rewrite <- Ha, (sp_look _ _ _ _ _ _ Sp) in Hka. congruence.
  - rewrite (proj2 Hr). apply (moved_out t g g1); [apply Sp|done].
  - apply (sp_look _ _ _ _ _ _ Sp2).
  - intros x kx Hx Hkx. rewrite (sp_other _ _ _ _ _ _ x Sp2 Hx). rewrite <- (sp_other _ _ _ _ _ _ x Sp Hx) in Hkx. by apply (po_task s1 s2 Hpo).
  - pose proof (stp_only _ _ _ _ _ _ Sp) as T1. pose proof (stp_only _ _ _ _ _ _ Sp2) as T2. pose proof (po_rest _ _ Hpo) as T3. unfold tasks_only in *. congruence.
Qed.

Lemma timed_state k : waiting k = true \/ sleeping k = true -> match task_state k with K_PEND | K_PEND_SUSPENDED | K_SLEEP | K_SLEEP_SUSPENDED => True | _ => False end.
Proof. unfold waiting, sleeping. intros [H|H]; by destruct (task_state k). Qed.

Lemma tick_expire_ok own g s t k :
  qok None own g s -> awake s -> tasks s !! t = Some k -> t ∈ tmo g ->
  exists g' s' k', tick_expire INHERIT t s = Ret s' /\ qok None own g' s' /\ awake s' /\ tmo g' = rest t (tmo g) /\
    tasks s' !! t = Some k' /\ task_state k' = woken_state k /\ blk_state k' = woken_why k /\ others_keep t s s' /\ tasks_only s s'.
Proof.
  intros Q A Ht Hin. pose proof Q as [SO Hfull OO Hinh]. pose proof SO as [KO TO MO IO]. pose proof (to_task _ _ TO t k Ht) as [K1 K2 K3 K4 K5 K6 K7 K8 K9]. destruct (K5 Hin) as [Hws _]. apply timed_state in Hws.
  assert (task_state k <> K_RDY /\ task_state k <> K_DELETED) as [Hnr Hl] by (by destruct (task_state k)). pose proof (not_idle idle s t k IO Ht Hnr) as Hti.
  assert (Hsl : forall k1 g1 s1, step1 t k1 g s g1 s1 -> t ∉ tmo g1 -> waiting k = false -> waiting k1 = false -> prio k1 = prio k -> b_prio k1 = b_prio k -> mutex_list k1 = mutex_list k ->
    task_state k1 = woken_state k -> blk_state k1 = woken_why k -> exists g' s' k', Ret s1 = Ret s' /\ qok None own g' s' /\ awake s' /\ tmo g' = rest t (tmo g) /\ tasks s' !! t = Some k' /\ task_state k' = woken_state k /\ blk_state k' = woken_why k /\ others_keep t s s' /\ tasks_only s s').
  { intros k1 g1 s1 S1 Hn Hw Hw1 E1 E2 E3 E4 E5. pose proof (s1_stp _ _ _ _ _ _ S1) as Sp. assert (task_state k1 <> K_DELETED) as Hl1 by (rewrite E4; unfold woken_state; by destruct (suspended k)).
    exists g1, s1, k1. split_and!; try done.
    - apply (qok_step INHERIT idle None own g s t k k1 g1 s1 Q Ht S1); try done.
      + intros o _. split; intros Ho; [by apply (not_at g1 s1 t k1 o (s1_tok _ _ _ _ _ _ S1) (sp_look _ _ _ _ _ _ Sp)) in Ho|by apply (not_at g s t k o TO Ht) in Ho].
      + intros o b Ho. by apply (not_at g1 s1 t k1 o (s1_tok _ _ _ _ _ _ S1) (sp_look _ _ _ _ _ _ Sp)) in Ho.
    - apply (awake_step t k1 g s g1 s1 Sp A). intros Hlo Ha. destruct (proj2 A Hlo) as (ka & Hka & Hsa). rewrite <- Ha in Hka. congruence.
    - apply (moved_out t g g1); [apply Sp|done].
    - apply (sp_look _ _ _ _ _ _ Sp).
    - intros x kx Hx Hkx. exists (prio kx). rewrite (sp_other _ _ _ _ _ _ x Sp Hx), Hkx. by destruct kx.
    - by apply (stp_only _ _ _ _ _ _ Sp). }
  unfold tick_expire. rewrite (get_task_eq _ _ _ Ht). cbn [mbind outcome_bind].
  destruct (task_state k) eqn:Est; try done.
  - assert (waiting k = true) as Hwa by (unfold waiting; by rewrite Est). destruct (waiting_at g s KO TO t k Ht Hwa) as (o & Ho & Hw & _).
    destruct (unwait_ready g s KO TO t k Ht (fun k => set_task_state K_RDY (set_blk_state BLK_TIMEOUT k)) Hwa) as (g1 & s1 & E & S1 & Hn); [by repeat split|done|]. follow E.
    destruct (unwait_end None own g s t k _ g1 s1 o Q A Ht S1 Hn Hw) as (g' & s' & p & E2 & Q' & A' & Htm & Hk' & Hoth & To); try done. exists g', s'. eexists. split_and!; try done; unfold woken_state, woken_why, suspended; rewrite ?Est, ?Hwa; done.
  - assert (waiting k = true) as Hwa by (unfold waiting; by rewrite Est). destruct (waiting_at g s KO TO t k Ht Hwa) as (o & Ho & Hw & _).
    destruct (unwait_out g s KO TO t k Ht (fun k => set_task_state K_SUSPENDED (set_blk_state BLK_TIMEOUT k)) Hwa) as (g1 & s1 & E & S1 & Hn); [|done|].
    { split_and!; try done. intros _. apply K8. unfold suspended. by rewrite Est. }
    follow E. destruct (unwait_end None own g s t k _ g1 s1 o Q A Ht S1 Hn Hw) as (g' & s' & p & E2 & Q' & A' & Htm & Hk' & Hoth & To); try done. exists g', s'. eexists. split_and!; try done; unfold woken_state, woken_why, suspended; rewrite ?Est, ?Hwa; done.
  - assert (waiting k = false) as Hwa by (unfold waiting; by rewrite Est).
    destruct (wake_ready g s KO TO t k Ht (fun k => set_task_state K_RDY (set_blk_state BLK_FINISH k)) id Hwa) as (g1 & s1 & E & S1 & Hn); [by rewrite Est|by repeat split|done|done|]. follow E.
    apply (Hsl _ g1 s1 S1); try done; unfold woken_state, woken_why, suspended; rewrite ?Est, ?Hwa; done.
  - assert (waiting k = false) as Hwa by (unfold waiting; by rewrite Est).
    destruct (sleep_out g s KO TO t k Ht (fun k => set_blk_state BLK_FINISH (set_task_state K_SUSPENDED k)) id Hwa) as (g1 & s1 & E & S1 & Hn); [by rewrite Est| |done|].
    { split_and!; try done. intros _. apply K8. unfold suspended. by rewrite Est. }
    follow E. apply (Hsl _ g1 s1 S1); try done; unfold woken_state, woken_why, suspended; rewrite ?Est, ?Hwa; done.
Qed.

(** ** The tick *)

(** What becomes of a task [k] at the time [now]: it is woken, or only its priority changes. *)
Definition ticked (g : ghost) (s : kern) (g' : ghost) (s' : kern) (x : Z) (k k' : ktask_t) : Prop :=
  if decide (x ∈ tmo g /\ tick_match k <= g_tick_count s) then task_state k' = woken_state k /\ blk_state k' = woken_why k /\ (x ∉ tmo g')
  else (exists p, k' = set_prio p k) /\ (x ∈ tmo g' <-> x ∈ tmo g).

Lemma i64_id z : - 2 ^ 63 <= z < 2 ^ 63 -> i64 z = z.
Proof. intros H. unfold i64. rewrite Z.mod_small by lia. lia. Qed.

Lemma tick_loop_ok own : forall fuel g s,
  qok None own g s -> awake s -> (length (tmo g) <= fuel)%nat ->
  exists g' s', tick_loop INHERIT fuel (hd NTickHead (NTick <$> tmo g)) s = Ret s' /\ qok None own g' s' /\ awake s' /\ fresh g' s' /\ tasks_only s s' /\
    forall x k, tasks s !! x = Some k -> exists k', tasks s' !! x = Some k' /\ ticked g s g' s' x k k'.
Proof.
  induction fuel as [|fuel IH]; intros g s Q A Hf; (destruct (tmo g) as [|t l] eqn:El; [exists g, s; split_and!; try done; [by intros x Hx; rewrite El in Hx; apply elem_of_nil in Hx|]|]).
  1,3: intros x k Hk; exists k; split; [done|]; unfold ticked; rewrite El, decide_False by (intros [H _]; by apply elem_of_nil in H); split; [exists (prio k); by destruct k|done].
  { cbn in Hf. lia. }
  pose proof Q as [SO _ _ _]. pose proof SO as [KO TO MO IO]. cbn [tick_loop fmap list_fmap hd]. rewrite decide_False by done. destruct (tick_ring g s KO) as [HR Nd]. rewrite El in HR, Nd.
  rewrite (next_of_ok s (NTick t) (hd NTickHead (NTick <$> l))) by (by apply (ring_next _ _ _ [NTickHead] _ _ HR)). cbn [mbind outcome_bind tick_entry].
  assert (t ∈ tmo g) as Hin by (rewrite El; by left). pose proof (pl_tick _ _ _ (ko_placed _ _ KO) t Hin) as [k Hk]%elem_of_dom. rewrite (get_task_eq _ _ _ Hk). cbn [mbind outcome_bind].
  pose proof (to_now _ _ TO) as Hnow. destruct (tk_tmo _ _ _ (to_task _ _ TO t k Hk) Hin) as [_ Hm]. cbn zeta. rewrite i64_id by lia. case_decide as Hd.
  - (* the first timeout is still to come *)
    assert (fresh g s) as Fr.
    { intros x Hx. rewrite El in Hx. assert (match_of s t = tick_match k) as Em by (unfold match_of; by rewrite Hk). pose proof (to_tmo _ _ TO) as Hs. rewrite El in Hs. unfold sorted_on in Hs.
      rewrite StronglySorted_cons, list.Forall_forall in Hs. apply elem_of_cons in Hx as [->|Hx]; [lia|]. destruct Hs as [Hs _]. specialize (Hs x Hx). cbn in Hs. lia. }
    exists g, s. split_and!; try done. intros x kx Hkx. exists kx. split; [done|]. unfold ticked. rewrite decide_False; [split; [exists (prio kx); by destruct kx|done]|].
    intros [Hx Hle]. specialize (Fr x Hx). unfold match_of in Fr. rewrite Hkx in Fr. lia.
  - destruct (tick_expire_ok own g s t k Q A Hk Hin) as (g1 & s1 & k1 & -> & Q1 & A1 & Htm & Hk1 & Hst & Hwhy & Hoth & To). cbn [mbind outcome_bind]. apply list.NoDup_cons in Nd as [_ Nd]. cbn in Nd. apply list.NoDup_cons in Nd as [Hnl _].
    assert (t ∉ l) as Htl by (intros H; apply Hnl; by apply list_elem_of_fmap_2). assert (tmo g1 = l) as Htm1 by (rewrite Htm, El, rest_cons_eq; by apply rest_out).
    destruct (IH g1 s1 Q1 A1) as (g' & s' & E & Q' & A' & Fr & To' & Htk); [rewrite Htm1; cbn in Hf; lia|]. rewrite Htm1 in E. exists g', s'. split_and!; try done; [unfold tasks_only in *; congruence|].
    destruct (tasks_only_fields _ _ To) as (_ & _ & _ & Enow & _). intros x kx Hkx. destruct (decide (x = t)) as [->|Hne].
    + destruct (Htk t k1 Hk1) as (k' & Hk' & Hti). exists k'. split; [done|]. rewrite Hk in Hkx. injection Hkx as <-. unfold ticked in Hti |- *. rewrite Htm1 in Hti. rewrite decide_False in Hti by (by intros [? _]). destruct Hti as [[p ->] Hno].
      rewrite decide_True by (split; [done|lia]). cbn. split_and!; try done. by rewrite Hno.
    + destruct (Hoth x kx Hne Hkx) as [p Hkx1]. destruct (Htk x _ Hkx1) as (k' & Hk' & Hti). exists k'. split; [done|]. unfold ticked in Hti |- *. rewrite Htm1, Enow in Hti. cbn [tick_match set_prio] in Hti. rewrite El.
      assert (x ∈ l <-> x ∈ t :: l) as Hxl by (rewrite elem_of_cons; tauto). destruct (decide (x ∈ l /\ tick_match kx <= g_tick_count s)) as [[H1 H2]|H1].
      * rewrite decide_True by (split; [by apply Hxl|done]). exact Hti.
      * rewrite decide_False by (rewrite <- Hxl; done). destruct Hti as [[p' ->] Hti]. split; [by exists p'|]. by rewrite Hti.
Qed.

Lemma qok_now own g s n : 0 <= n < 2 ^ 62 -> qok None own g s -> qok None own g (set_g_tick_count n s).
Proof.
  intros Hn [[[K1 K2 K3] [T1 T2 T3 T4 T5] [M1 M2 M3 M4 M5 M6 M7 M8] [I1 I2 I3]] Q2 [O1 O2 O3 O4 O5 O6] Q4].
  split; [split; [split|split|split|split]| |split|]; assumption.
Qed.

Lemma tick_list_update_ok own g s ticks :
  inv own g s -> 0 <= ticks -> g_tick_count s + ticks < 2 ^ 62 ->
  exists g' s', tick_list_update INHERIT ticks s = Ret s' /\ unsched None own g' s' /\ tasks_only (set_g_tick_count (g_tick_count s + ticks) s) s' /\
    forall x k, tasks s !! x = Some k -> exists k', tasks s' !! x = Some k' /\ ticked g (set_g_tick_count (g_tick_count s + ticks) s) g' s' x k k'.
Proof.
  intros I Ht Hlt. pose proof (inv_unsched _ _ own g s I) as [Q F D L]. pose proof (to_now _ _ (so_t _ _ _ _ _ _ (qo_s _ _ _ _ _ _ Q))) as Hnow. unfold tick_list_update. cbn zeta. rewrite u64_id by lia.
  pose proof (qok_now own g s (g_tick_count s + ticks) ltac:(lia) Q) as Q0. set (s0 := set_g_tick_count _ s) in *. pose proof (so_k _ _ _ _ _ _ (qo_s _ _ _ _ _ _ Q0)) as KO. destruct (tick_ring g s0 KO) as [HR Nd].
  rewrite (next_of_ok s0 NTickHead (hd NTickHead (NTick <$> tmo g))) by (by apply (ring_next _ _ _ [] _ _ HR)). cbn [mbind outcome_bind].
  destruct (tick_loop_ok own (base.size (lks s0)) g s0 Q0 (conj D L)) as (g' & s' & E & Q' & [D' L'] & Fr & To & Hk); [pose proof (ring_size _ _ HR Nd) as Hs; cbn in Hs; rewrite length_fmap in Hs; cbn; lia|].
  exists g', s'. by split_and!.
Qed.

(** ** Time slices *)

Lemma inv_in_intr own g s : unsched None own g s -> 0 < g_intrpt_nested_level s -> inv own g s.
Proof. intros [Q F D L] Hn. split; [done|done|]. split; [intros [?|?]; [lia|auto]|done|intros _ ?; lia]. Qed.

Lemma time_slice_update_ok own g s : inv own g s -> 0 < g_intrpt_nested_level s -> exists g' s', time_slice_update s = Ret s' /\ inv own g' s' /\ g_intrpt_nested_level s' = g_intrpt_nested_level s.
Proof.
  intros I Hn. destruct (inv_active_task INHERIT idle own g s I) as [k Hk]. pose proof (in_q _ _ _ _ _ I) as [[KO TO _ IO] _ _ _]. set (t := g_active_task s) in *.
  pose proof (tk_prio _ _ _ (to_task _ _ TO t k Hk)) as Hp. unfold time_slice_update. fold t. rewrite (get_task_eq _ _ _ Hk). cbn [mbind outcome_bind]. rewrite (list_item_ok g s KO) by done. cbn [mbind outcome_bind].
  destruct (rdy g (prio k)) as [|a l] eqn:El; cbn [head hd_error fmap option_fmap option_map]; [by exists g, s|]. case_decide; [by exists g, s|].
  destruct (ready_ring g s KO k) as [HR _]. rewrite El in HR. destruct (ring_in _ _ (NTask a) HR ltac:(by left)) as [[n En] _]. rewrite (get_next_nxt _ _ _ En). cbn [mbind outcome_bind].
  case_decide; [by exists g, s|]. rewrite (upd_task_ok t _ s k Hk). cbn [mbind outcome_bind]. set (ts := if decide (0 < time_slice k) then _ else _).
  assert (inv own g (with_task t (set_time_slice ts k) s)) as I1 by (by apply (inv_cosmetic INHERIT idle own g s t k)). case_decide; [by exists g, (with_task t (set_time_slice ts k) s)|].
  assert (tasks (with_task t (set_time_slice ts k) s) !! t = Some (set_time_slice ts k)) as Hk1 by look_task. pose proof (in_q _ _ _ _ _ I1) as [[KO1 TO1 _ _] _ _ _].
  destruct (rotate_step g _ t _ a l KO1 TO1 Hk1 El) as (ka & g' & s' & -> & Hka & Hsa & S1 & _). cbn [mbind outcome_bind].
  pose proof (unsched_same INHERIT idle None own g _ a ka g' s' (inv_unsched _ _ own g _ I1) Hka Hsa S1) as U'. destruct (tasks_only_fields _ _ (stp_only _ _ _ _ _ _ (s1_stp _ _ _ _ _ _ S1))) as (_ & _ & _ & _ & _ & _ & En' & _).
  assert (tasks s' !! t = Some (set_time_slice ts k)) as Hk2. { destruct (decide (t = a)) as [E|Hne]; [|by rewrite (sp_other _ _ _ _ _ _ t (s1_stp _ _ _ _ _ _ S1) Hne)]. rewrite E, (sp_look _ _ _ _ _ _ (s1_stp _ _ _ _ _ _ S1)). congruence. }
  rewrite (upd_task_ok t _ s' _ Hk2). exists g', (with_task t (set_time_slice (time_total k) (set_time_slice ts k)) s'). split_and!; [done| |done].
  apply (inv_cosmetic INHERIT idle own g' s' t (set_time_slice ts k)); [|done|done]. apply inv_in_intr; [done|]. rewrite En'. done.
Qed.

Lemma tick_proc_ok own g s : inv own g s -> 0 < g_intrpt_nested_level s -> g_tick_count s + 1 < 2 ^ 62 -> exists g' s', krhino_tick_proc INHERIT s = Ret s' /\ inv own g' s'.
Proof.
  intros I Hn Hlt. destruct (tick_list_update_ok own g s 1 I ltac:(lia) Hlt) as (g1 & s1 & E & U & To & _). destruct (tasks_only_fields _ _ To) as (_ & _ & _ & _ & _ & _ & En & _). cbn in En.
  unfold krhino_tick_proc. rewrite E. cbn [mbind outcome_bind]. destruct (time_slice_update_ok own g1 s1) as (g2 & s2 & E2 & I2 & _); [apply inv_in_intr; [done|lia]|lia|]. by exists g2, s2.
Qed.

(** ** Aborting *)

Lemma fresh_rest t g s g' s' : fresh g s -> (forall x, x ∈ tmo g -> x ∈ dom (tasks s)) -> tmo g' = rest t (tmo g) -> others_keep t s s' -> tasks_only s s' -> fresh g' s'.
Proof.
  intros F D Et Ho To x Hx. rewrite Et in Hx. apply list_elem_of_filter in Hx as [Hne Hx]. destruct (tasks_only_fields _ _ To) as (_ & _ & _ & -> & _). specialize (F x Hx). pose proof (D x Hx) as [k Hk]%elem_of_dom.
  destruct (Ho x k Hne Hk) as [p Hk']. unfold match_of in F |- *. rewrite Hk in F. by rewrite Hk'.
Qed.

Lemma task_wait_abort_ok own g s t k : inv own g s -> tasks s !! t = Some k -> returns_inv (krhino_task_wait_abort INHERIT t s).
Proof.
  intros I Ht. unfold krhino_task_wait_abort. case_decide; [by eapply ret_done|]. rewrite (get_task_eq _ _ _ Ht). cbn [mbind outcome_bind]. pose proof (inv_unsched _ _ own g s I) as U. pose proof U as [Q F D L]. pose proof Q as [[KO TO _ IO] _ _ _].
  pose proof (to_task _ _ TO t k Ht) as [K1 K2 K3 K4 K5 K6 K7 K8 K9].
  assert (Hfree : forall k1 g1 s1, step1 t k1 g s g1 s1 -> t ∉ tmo g1 -> waiting k = false -> task_state k <> K_RDY -> task_state k <> K_DELETED -> waiting k1 = false -> task_state k1 <> K_DELETED -> prio k1 = prio k -> b_prio k1 = b_prio k -> mutex_list k1 = mutex_list k ->
    returns_inv (exit_sched s1)).
  { intros k1 g1 s1 S1 Hn Hwa Hnr Hl Hw1 Hl1 E1 E2 E3. apply (ret_sched INHERIT idle own g1). apply (unsched_free INHERIT idle None own g s t k k1 g1 s1 U Ht S1); try done; [by apply (not_idle idle s t k)| |].
    - intros o Ho. by apply (not_at g s t k o TO Ht) in Ho.
    - intros Hlo Ha. by destruct (lock_ready INHERIT idle None own g s t k U Ht Hnr Hlo Ha). }
  assert (Hpend : waiting k = true -> returns_inv (s ← tick_list_rm t s; s ← with_links (klist_rm (NTask t)) s; s ← ready_list_add t s; s ← upd_task t (fun k => set_blk_state BLK_ABORT (set_task_state K_RDY k)) s;
    s ← mutex_task_pri_reset INHERIT t s; s ← upd_task t (set_blk_obj None) s; exit_sched s)).
  { intros Hwa. destruct (waiting_at g s KO TO t k Ht Hwa) as (o & Ho & Hw & _).
    destruct (unwait_ready g s KO TO t k Ht (fun k => set_blk_state BLK_ABORT (set_task_state K_RDY k)) Hwa) as (g1 & s1 & E & S1 & Hn); [by repeat split|done|]. follow E.
    destruct (unwait_end None own g s t k _ g1 s1 o Q (conj D L) Ht S1 Hn Hw) as (g' & s' & p & E2 & Q' & [D' L'] & Htm & _ & Hoth & To); try done. follow E2. apply (ret_sched INHERIT idle own g'). split; try done.
    apply (fresh_rest t g s g' s' F); try done. apply (pl_tick _ _ _ (ko_placed _ _ KO)). }
  destruct (task_state k) eqn:Est; try (by eapply ret_done).
  - by apply (ret_sched INHERIT idle own g).
  - apply Hpend. unfold waiting. by rewrite Est.
  - destruct (resume_ready g s KO TO t k Ht (set_task_state K_RDY)) as (g1 & s1 & E & S1 & Hn); [unfold waiting; by rewrite Est|unfold sleeping; by rewrite Est|by rewrite Est|by repeat split|done|]. follow E.
    apply (Hfree _ g1 s1 S1); try done; unfold waiting; by rewrite Est.
  - apply Hpend. unfold waiting. by rewrite Est.
  - destruct (wake_ready g s KO TO t k Ht id (fun k => set_blk_state BLK_ABORT (set_task_state K_RDY k))) as (g1 & s1 & E & S1 & Hn); [unfold waiting; by rewrite Est|by rewrite Est|by repeat split|done|done|]. follow E.
    apply (Hfree _ g1 s1 S1); try done; unfold waiting; by rewrite Est.
  - destruct (wake_ready g s KO TO t k Ht id (fun k => set_blk_state BLK_ABORT (set_task_state K_RDY k))) as (g1 & s1 & E & S1 & Hn); [unfold waiting; by rewrite Est|by rewrite Est|by repeat split|done|done|]. follow E.
    apply (Hfree _ g1 s1 S1); try done; unfold waiting; by rewrite Est.
Qed.

Lemma task_cancel_ok own g s t k : inv own g s -> tasks s !! t = Some k -> returns_inv (krhino_task_cancel INHERIT t s).
Proof.
  intros I Ht. unfold krhino_task_cancel. rewrite (upd_task_ok t _ s k Ht). cbn [mbind outcome_bind]. apply (task_wait_abort_ok own g _ t (set_cancel 1 k)); [by apply (inv_cosmetic INHERIT idle own g s t k)|look_task].
Qed.

(** ** The priority of a task *)

Lemma unsched_changed own g s g' s' : prios_only s s' -> reordered g g' -> qok None own g' s' -> fresh g s -> awake s -> unsched None own g' s'.
Proof. intros Hp Hr Q F A. pose proof (awake_prios s s' Hp A) as [D L]. split; try done. by apply (fresh_changed g s). Qed.

(** The state in which the new priority is the one of the task. *)
Lemma sok_base own g s t k pri :
  sok None own g s -> tasks s !! t = Some k -> t <> idle -> 0 <= pri < 61 -> exists s', upd_task t (set_b_prio pri) s = Ret s' /\ step1 t (set_b_prio pri k) g s g s' /\ sok None own g s'.
Proof.
  intros SO Ht Hti Hp. pose proof SO as [KO TO MO IO]. pose proof (to_task _ _ TO t k Ht) as [K1 K2 K3 K4 K5 K6 K7 K8 K9].
  destruct (record_step g s KO TO t k Ht (set_b_prio pri)) as (s' & E & S1); [done|done|split; try done; cbn; lia|]. exists s'. split_and!; [done|done|].
  assert (tasks s' = <[t := set_b_prio pri k]> (tasks s)) as Et by (by rewrite (sp_tasks _ _ _ _ _ _ (s1_stp _ _ _ _ _ _ S1))). pose proof (sp_objs _ _ _ _ _ _ (s1_stp _ _ _ _ _ _ S1)) as Eo. pose proof (sp_mutexes _ _ _ _ _ _ (s1_stp _ _ _ _ _ _ S1)) as Em.
  destruct (decide (task_state k = K_DELETED)) as [Hd|Hd].
  - apply (sok_step INHERIT idle None own g s t k _ g s' SO Ht S1); try done; [cbn; by apply (io_other _ _ IO t k)|cbn; lia| |].
    + right. split.
      * destruct (own t) as [|o l] eqn:El; [done|]. destruct (mk_own _ _ _ _ _ _ MO t o) as (_ & _ & (kx & Hkx & Hlx) & _); [rewrite El; by left|]. congruence.
      * intros o Hm Ho. destruct (mk_live _ _ _ _ _ _ MO o t Hm Ho) as [(kx & Hkx & Hlx) _]. congruence.
    + intros o Hw. split; [intros Ho; by apply (mk_self _ _ _ _ _ _ MO t o Ho)|]. intros Hm. by apply (mk_wait _ _ _ _ _ _ MO t o).
  - apply (sok_step INHERIT idle None own g s t k _ g s' SO Ht S1); try done; [cbn; by apply (io_other _ _ IO t k)|cbn; lia|by left|].
    intros o Hw. split; [intros Ho; by apply (mk_self _ _ _ _ _ _ MO t o Ho)|]. intros Hm. by apply (mk_wait _ _ _ _ _ _ MO t o).
Qed.

Lemma task_pri_change_call own g s t k pri : inv own g s -> tasks s !! t = Some k -> 0 <= pri -> returns_inv (krhino_task_pri_change INHERIT t pri s).
Proof.
  intros I Ht Hp. unfold krhino_task_pri_change. rewrite (get_task_eq _ _ _ Ht). cbn [mbind outcome_bind]. change RHINO_IDLE_PRI with 61. case_decide as H1; [by eapply ret_done|]. case_decide as H2; [by eapply ret_done|].
  case_decide as Hd; [by eapply ret_done|]. case_decide; [by eapply ret_done|]. pose proof (inv_unsched _ _ own g s I) as [Q F D L]. pose proof Q as [SO Hfull OO Hinh]. pose proof SO as [KO TO MO IO].
  assert (t <> idle) as Hti by (intros ->; destruct (io_idle _ _ IO) as (ki & Hki & _ & E & _); rewrite Ht in Hki; injection Hki as <-; lia).
  rewrite (limit_ok INHERIT idle None own g s t k pri KO TO MO Ht Hd ltac:(done)). cbn [mbind outcome_bind]. destruct (sok_base own g s t k pri SO Ht Hti ltac:(lia)) as (s1 & -> & S1 & SO1). cbn [mbind outcome_bind].
  pose proof (s1_stp _ _ _ _ _ _ S1) as Sp. pose proof (sp_look _ _ _ _ _ _ Sp) as Ht1. set (n := least pri (firsts g s (own t))).
  assert (0 <= n < 61) as Hn by (apply eff_range; [done|lia]). destruct (task_pri_change_ok INHERIT idle (b_of s1) own g s1 t _ n SO1 Ht1 Hd Hti Hn) as (g' & s' & -> & (SO' & Hr & Hpo) & Hres & _). cbn [mbind outcome_bind].
  assert (forall x, prio_of s1 x = prio_of s x) as Hprio by (intros x; by apply (step_prio g s t k _ Ht g s1 S1)).
  assert (forall l, firsts g s1 l = firsts g s l) as Hfst by (intros l; induction l as [|o l IH]; [done|]; rewrite !firsts_cons, IH; destruct (head (wait g o)); by rewrite ?Hprio).
  apply (ret_sched INHERIT idle own g'). apply (unsched_changed own g s1 g' s' Hpo Hr).
  - split; try done.
    + intros EI. apply (full_prios own s1 s' Hpo). apply (full_step own t _ g s g s1 Sp). auto.
    + apply (ook_changed None g s1 g' s' (so_k _ _ _ _ _ _ SO1) (so_k _ _ _ _ _ _ SO') Hr Hpo). apply (ook_step g s KO t _ g s1 S1 None OO). intros o b Hw Hb. split; [intros; by apply (oo_none _ _ _ OO t o b)|].
      intros Hty x Hx. by apply (oo_sem _ _ _ OO o b x Hb Hty Hx) with (t := t).
    + intros EI x Hx. apply (inh_base (b_of s1)); [symmetry; by apply po_b|]. apply Hres; try done.
      * intros _. apply (full_step own t _ g s g s1 Sp). auto.
      * intros y Hy Hly. unfold inh. rewrite Hprio, Hfst. unfold b_of. rewrite (sp_other _ _ _ _ _ _ y Sp Hy). apply (Hinh EI). apply (step_live g s t k _ Ht g s1 S1 y); [by intros ?%Hd|done].
      * rewrite Hfst. unfold b_of. by rewrite Ht1.
      * left. apply base_is_b.
  - apply (fresh_kept t _ g s g s1 Sp F). intros Hin. specialize (F t Hin). unfold match_of in F. by rewrite Ht in F.
  - apply (awake_step _ _ _ _ _ _ Sp (conj D L)). intros Hlo Ha. destruct (L Hlo) as (ka & Hka & Hsa). rewrite <- Ha in Hka. cbn. congruence.
Qed.
End Calls.
