(* ===== verification/KMutexCalls.v ===== *)
(** * Calls on mutexes and the deletion of tasks

    Locking, unlocking and deleting mutexes; a task that is deleted hands its mutexes on.
    Each call returns and keeps the invariant. *)

From stdpp Require Import gmap sorting.
From S2P Require Import Prelude KBits KList KKern KCalls KQueue KTasks KSteps KOwn KInherit KInv KCallsOk KSemOk KNew KUnwait.

Lemma held_insert M o l a x : a ∉ l -> held M o l -> held (<[a := x]> M) o l.
Proof.
  revert o. induction l as [|b l IH]; intros o Ha H; [done|]. apply not_elem_of_cons in Ha as [Hab Ha]. destruct H as (-> & y & Hy & H). split; [done|].
  exists y. rewrite lookup_insert_ne by done. split; [done|]. by apply IH.
Qed.

Lemma upd_mutex_ok o f s x : mutexes s !! o = Some x -> upd_mutex o f s = Ret (set_mutexes (<[o := f x]> (mutexes s)) s).
Proof. intros H. unfold upd_mutex, get_mutex. by rewrite H. Qed.

Lemma owner_insert s o x : owner (set_mutexes (<[o := x]> (mutexes s)) s) o = mutex_task x.
Proof. unfold owner. cbn. by rewrite lookup_insert_eq. Qed.
Lemma owner_insert_ne s o x o' : o' <> o -> owner (set_mutexes (<[o := x]> (mutexes s)) s) o' = owner s o'.
Proof. intros H. unfold owner. cbn. by rewrite lookup_insert_ne. Qed.

Section Calls.
Context (INHERIT : bool) (idle : Z).
Abbreviation inv := (inv INHERIT idle).
Abbreviation sok := (sok INHERIT idle).
Abbreviation mok := (mok INHERIT idle).
Abbreviation qok := (qok INHERIT idle).
Abbreviation unsched := (unsched INHERIT idle).
Abbreviation returns_inv := (returns_inv INHERIT idle).

(** ** A mutex record is written *)

(** Nobody owns [o], or its owner stays. *)
Lemma mok_write skip own g s o x x' :
  mok skip own g s -> mutexes s !! o = Some x -> (forall y, o ∈ own y -> mutex_task x' = mutex_task x /\ m_list x' = m_list x) ->
  (forall t, mutex_type s o -> mutex_task x' = Some t -> live s t /\ t <> idle) ->
  (forall t, mutex_type s o -> wh g t = AtObj o -> is_Some (mutex_task x') /\ mutex_task x' <> Some t) ->
  mok skip own g (set_mutexes (<[o := x']> (mutexes s)) s).
Proof.
  intros [M1 M2 M3 M4 M5 M6 M7 M8] Hx Hown Hlive Hwait. split; try done.
  - intros o' Hm. cbn. destruct (decide (o' = o)) as [->|Hne]; [rewrite lookup_insert_eq; by eexists|rewrite lookup_insert_ne by done; by apply M2].
  - intros t k Ht Hl Hs. cbn. specialize (M3 t k Ht Hl Hs). destruct (decide (o ∈ own t)) as [Hin|Hin]; [|by apply held_insert]. destruct (Hown t Hin) as [_ El].
    revert M3. generalize (mutex_list k) (own t). intros r l. revert r. induction l as [|a l IH]; intros r Hh; [done|]. destruct Hh as (-> & y & Hy & Hh). split; [done|].
    destruct (decide (a = o)) as [->|Hne]; [exists x'; rewrite lookup_insert_eq; split; [done|]; rewrite El; rewrite Hx in Hy; injection Hy as <-; by apply IH|]. exists y. rewrite lookup_insert_ne by done. split; [done|]. by apply IH.
  - intros t o' Ho. destruct (M5 t o' Ho) as (D1 & D2 & D3). split; [done|]. split; [|done]. destruct (decide (o' = o)) as [->|Hne]; [|by rewrite owner_insert_ne]. rewrite owner_insert. destruct (Hown t Ho) as [-> _]. unfold owner in D2. by rewrite Hx in D2.
  - intros o' t Hm. destruct (decide (o' = o)) as [->|Hne]; [rewrite owner_insert; by apply Hlive|rewrite owner_insert_ne by done; by apply M6].
  - intros t o' Hm. destruct (decide (o' = o)) as [->|Hne]; [rewrite owner_insert; by apply Hwait|rewrite owner_insert_ne by done; by apply M7].
Qed.

Lemma sok_write skip own g s o x x' :
  sok skip own g s -> mutexes s !! o = Some x -> (forall y, o ∈ own y -> mutex_task x' = mutex_task x /\ m_list x' = m_list x) ->
  (forall t, mutex_type s o -> mutex_task x' = Some t -> live s t /\ t <> idle) ->
  (forall t, mutex_type s o -> wh g t = AtObj o -> is_Some (mutex_task x') /\ mutex_task x' <> Some t) ->
  sok skip own g (set_mutexes (<[o := x']> (mutexes s)) s).
Proof.
  intros [[K1 K2 K3] [T1 T2 T3 T4 T5] MO [I1 I2 I3]] H1 H2 H3 H4. split; [by split|by split|by apply (mok_write skip own g s o x)|by split].
Qed.

Lemma ook_write ex ex' g s o x' :
  ook ex g s -> (Some o <> ex' -> 0 <= owner_nested x' < 2 ^ 32 /\ (mutex_task x' <> None -> 1 <= owner_nested x')) -> ex = ex' \/ ex = Some o /\ ex' = None ->
  (forall t b, ex' = None -> wh g t = AtObj o -> objs s !! o = Some b -> obj_type b <> RHINO_OBJ_TYPE_NONE) -> ook ex' g (set_mutexes (<[o := x']> (mutexes s)) s).
Proof.
  intros [O1 O2 O3 O4 O5 O6] Hn He Hty. split; try done.
  - intros t o' b Hw Hb Hne. destruct He as [->|[-> ->]]; [by apply (O1 t o')|]. destruct (decide (o' = o)) as [->|H]; [by apply (Hty t)|]. apply (O1 t o' b Hw Hb). congruence.
  - intros o' y Hm. cbn. destruct (decide (o' = o)) as [->|Hne]; [rewrite lookup_insert_eq; intros [= <-]; exact Hn|]. rewrite lookup_insert_ne by done. intros Hy He2. apply (O3 o' y); [done|done|]. destruct He as [->|[-> ->]]; [done|congruence].
Qed.

(** ** A task becomes the owner *)

Definition given (o t : Z) (k : ktask_t) (x : kmutex_t) (n : Z) (s : kern) : kern :=
  if INHERIT then set_tasks (<[t := set_mutex_list (Some o) k]> (tasks s)) (set_mutexes (<[o := Kmutex (Some t) (mutex_list k) n (m_alloc_flag x)]> (mutexes s)) s)
  else set_mutexes (<[o := Kmutex (Some t) (m_list x) n (m_alloc_flag x)]> (mutexes s)) s.
Definition own_given (own : Z -> list Z) (o t : Z) : Z -> list Z := if INHERIT then upd own t (o :: own t) else own.

Lemma mutex_get_ok o t s k x : tasks s !! t = Some k -> mutexes s !! o = Some x -> mutex_get INHERIT o t s = Ret (given o t k x 1 s).
Proof.
  intros Ht Hx. unfold mutex_get, given. rewrite (upd_mutex_ok _ _ _ _ Hx). cbn [mbind outcome_bind]. destruct INHERIT.
  - unfold get_task. cbn [tasks set_mutexes]. rewrite Ht. cbn [mbind outcome_bind]. rewrite (upd_mutex_ok o _ _ (set_mutex_task (Some t) x)) by (cbn; apply lookup_insert_eq). cbn [mbind outcome_bind].
    rewrite (upd_task_ok t _ _ k) by done. cbn [mbind outcome_bind]. unfold with_task. cbn. rewrite insert_insert_eq. rewrite (upd_mutex_ok o _ _ (set_m_list (mutex_list k) (set_mutex_task (Some t) x))) by (cbn; apply lookup_insert_eq). cbn. by rewrite insert_insert_eq.
  - cbn [mbind outcome_bind]. rewrite (upd_mutex_ok o _ _ (set_mutex_task (Some t) x)) by (cbn; apply lookup_insert_eq). cbn. by rewrite insert_insert_eq.
Qed.

(** The owner is written first, then the links. *)
Lemma given_chains o t k x n s : tasks s !! t = Some k -> chains_only (set_mutexes (<[o := Kmutex (Some t) (m_list x) n (m_alloc_flag x)]> (mutexes s)) s) (given o t k x n s).
Proof.
  intros Ht. unfold given. destruct INHERIT; [|apply chains_refl]. split; cbn; try done.
  - intros y. destruct (decide (y = t)) as [->|Hy]; [by rewrite lookup_insert_eq, Ht|by rewrite lookup_insert_ne].
  - intros y. destruct (decide (y = o)) as [->|Hy]; [by rewrite !lookup_insert_eq|by rewrite !lookup_insert_ne].
Qed.

Section Given.
Context (skip : option Z) (own : Z -> list Z) (g : ghost) (s : kern) (SO : sok skip own g s) (o t : Z) (k : ktask_t) (x : kmutex_t) (n : Z).
Context (Ht : tasks s !! t = Some k) (Hx : mutexes s !! o = Some x) (Hl : task_state k <> K_DELETED) (Hti : t <> idle) (Hsk : Some t <> skip) (Ho : o ∈ dom (objs s)) (Hno : forall y, o ∉ own y) (Hw : wh g t <> AtObj o).

Abbreviation s0 := (set_mutexes (<[o := Kmutex (Some t) (m_list x) n (m_alloc_flag x)]> (mutexes s)) s).
Abbreviation s' := (given o t k x n s).

Lemma given_sok : sok skip (own_given own o t) g s'.
Proof.
  assert (live s t) as Hlive by (by exists k). assert (sok skip own g s0) as SO0.
  { apply (sok_write skip own g s o x); try done; [intros y Hy; by destruct (Hno y)|intros y _ [= <-]; done|]. intros y _ Hy. cbn. split; [by eexists|]. intros [= <-]. done. }
  pose proof (given_chains o t k x n s Ht) as C. destruct SO0 as [KO TO MO IO]. split; [by apply (co_kok s0 s' C)|by apply (co_tok s0 s' C)| |by apply (co_iok idle s0 s' C)].
  destruct (decide (INHERIT = false)) as [EF|EI]; [replace s' with s0 by (unfold given; by rewrite EF); replace (own_given own o t) with own by (unfold own_given; by rewrite EF); exact MO|].
  apply not_false_is_true in EI. replace (own_given own o t) with (upd own t (o :: own t)) by (unfold own_given; by rewrite EI). set (s2 := s') in *.
  assert (tasks s2 = <[t := set_mutex_list (Some o) k]> (tasks s) /\ mutexes s2 = <[o := Kmutex (Some t) (mutex_list k) n (m_alloc_flag x)]> (mutexes s)) as [Et2 Em2] by (unfold s2, given; by rewrite EI).
  destruct (co_fields _ _ C) as (_ & Eo & Es & _). destruct MO as [M1 M2 M3 M4 M5 M6 M7 M8]. split.
  - by rewrite Eo, Es.
  - intros o' Hm. rewrite (co_type _ _ C) in Hm. rewrite Em2. destruct (decide (o' = o)) as [->|Hne]; [rewrite lookup_insert_eq; by eexists|]. rewrite lookup_insert_ne by done. destruct (M2 o' Hm) as [y Hy]. cbn in Hy. rewrite lookup_insert_ne in Hy by done. by eexists.
  - intros y ky Hy Hly Hs. rewrite Em2. rewrite Et2 in Hy. assert (Hst : forall r l, o ∉ l -> held (mutexes s0) r l -> held (<[o := Kmutex (Some t) (mutex_list k) n (m_alloc_flag x)]> (mutexes s)) r l).
    { intros r l Hnl Hh. cbn in Hh. apply (held_insert _ _ _ o (Kmutex (Some t) (mutex_list k) n (m_alloc_flag x)) Hnl) in Hh. by rewrite insert_insert_eq in Hh. }
    destruct (decide (y = t)) as [->|Hne].
    + rewrite lookup_insert_eq in Hy. injection Hy as <-. rewrite upd_eq. split; [done|]. eexists. rewrite lookup_insert_eq. split; [done|]. cbn. apply Hst; [by apply Hno|]. by apply (M3 t k).
    + rewrite lookup_insert_ne in Hy by done. rewrite upd_ne by done. apply Hst; [by apply Hno|]. by apply (M3 y ky).
  - intros y. destruct (decide (y = t)) as [->|Hne]; [rewrite upd_eq; apply list.NoDup_cons; split; [apply Hno|apply M4]|by rewrite upd_ne].
  - intros y o' Hin. rewrite (co_owner _ _ C). assert (y = t /\ o' = o \/ o' ∈ own y) as [[-> ->]|Hin'].
    { destruct (decide (y = t)) as [->|Hne]; [rewrite upd_eq in Hin; apply elem_of_cons in Hin as [->|?]; tauto|rewrite upd_ne in Hin by done; by right]. }
    + rewrite owner_insert, Eo. cbn. split_and!; try done. by apply (co_live _ _ C).
    + destruct (M5 y o' Hin') as (D1 & D2 & D3 & D4). rewrite Eo. split_and!; try done; [by apply (co_live _ _ C)|apply D4..].
  - intros o' y. rewrite (co_type _ _ C), (co_owner _ _ C). intros Hm Hy. destruct (M6 o' y Hm Hy) as [D1 D2]. split; [by apply (co_live _ _ C)|done].
  - intros y o'. rewrite (co_type _ _ C), (co_owner _ _ C). apply M7.
  - intros y o' Hin. destruct (decide (y = t)) as [->|Hne]; [rewrite upd_eq in Hin; apply elem_of_cons in Hin as [->|Hin]; [done|by apply M8]|rewrite upd_ne in Hin by done; by apply M8].
Qed.

Lemma given_ook ex : ook ex g s -> ex = None \/ ex = Some o -> 1 <= n < 2 ^ 32 -> (forall y b, wh g y = AtObj o -> objs s !! o = Some b -> obj_type b <> RHINO_OBJ_TYPE_NONE) -> ook None g s'.
Proof.
  intros OO He Hn Hb. apply (ook_chains None g s0 s'); [by apply given_chains|]. apply (ook_write ex None g s o _ OO); [cbn; lia|destruct He as [->| ->]; [by left|by right]|]. intros y b _. apply Hb.
Qed.

(** [o] was not in anybody's list, all others were. *)
Lemma given_full : INHERIT = true -> mutex_type s o -> (forall o' y, o' <> o -> mutex_type s o' -> owner s o' = Some y -> o' ∈ own y) -> (forall o' y, o' ∈ own y -> mutex_type s o') -> full (own_given own o t) s'.
Proof.
  intros EI Hm H1 H2. apply (full_chains _ s0 s'); [by apply given_chains|]. unfold own_given. rewrite EI. split.
  - intros o' y Hm' Hy. destruct (decide (o' = o)) as [->|Hne]; [rewrite owner_insert in Hy; injection Hy as <-; rewrite upd_eq; by left|]. rewrite owner_insert_ne in Hy by done.
    specialize (H1 o' y Hne Hm' Hy). destruct (decide (y = t)) as [->|Hyt]; [rewrite upd_eq; by right|by rewrite upd_ne].
  - intros o' y Hin. destruct (decide (y = t)) as [->|Hyt]; [rewrite upd_eq in Hin; apply elem_of_cons in Hin as [->|Hin]; [done|by apply (H2 o' t)]|rewrite upd_ne in Hin by done; by apply (H2 o' y)].
Qed.

(** The other waiters are not more urgent than the new owner. *)
Lemma given_inh y : inh (b_of s) own g s y -> (forall w, w ∈ wait g o -> prio_of s t <= prio_of s w) -> inh (b_of s') (own_given own o t) g s' y.
Proof.
  clear SO. intros Hi Hle. apply (co_inh s0 s'); [by apply given_chains|]. change (inh (b_of s) (own_given own o t) g s y). unfold own_given. destruct INHERIT; [|done]. unfold inh in *.
  destruct (decide (y = t)) as [->|Hne]; [|by rewrite upd_ne]. rewrite upd_eq, firsts_cons. destruct (head (wait g o)) as [w|] eqn:Eh; [|done].
  cbn [least foldr]. fold (least (b_of s t) (firsts g s (own t))). rewrite <- Hi. specialize (Hle w (head_Some_elem_of _ _ Eh)). lia.
Qed.

Lemma given_live y : live s' y <-> live s y.
Proof. pose proof (given_chains o t k x n s Ht) as C. split; intros H; [by apply (co_live_inv _ _ C) in H|by apply (co_live _ _ C)]. Qed.

Lemma given_fresh : fresh g s -> fresh g s'.
Proof. intros F. by apply (co_fresh s0 s'); [apply given_chains|]. Qed.

Lemma given_awake : awake s -> awake s'.
Proof.
  intros [D L]. pose proof (given_chains o t k x n s Ht) as C. destruct (co_fields _ _ C) as (_ & _ & _ & _ & _ & Ea & _ & El & _). split.
  - rewrite Ea, (co_dom _ _ C). done.
  - rewrite Ea, El. intros Hlo. destruct (L Hlo) as (ka & Hka & Hsa). destruct (co_task _ _ C _ ka Hka) as [v Hv]. by exists (set_mutex_list v ka).
Qed.
End Given.

(** ** A mutex that has been given back *)

(** [o] is in no list of mutexes; [skip] is a task that is being deleted. *)
Record loose (skip : option Z) (o : Z) (own : Z -> list Z) (g : ghost) (s : kern) : Prop := Loose {
  lo_s : sok skip own g s;
  lo_o : ook (Some o) g s;
  lo_type : mutex_type s o;
  lo_no : forall y, o ∉ own y;
  lo_full : INHERIT = true -> (forall o' y, o' <> o -> mutex_type s o' -> owner s o' = Some y -> o' ∈ own y) /\ (forall o' y, o' ∈ own y -> mutex_type s o');
  lo_inh : INHERIT = true -> forall y, Some y <> skip -> live s y -> inh (b_of s) own g s y;
  lo_fresh : fresh g s;
  lo_awake : awake s;
  lo_skip : forall t, Some t = skip -> wh g t <> AtObj o
}.

(** The first waiter becomes the owner. *)
Lemma handover skip o own g s w n :
  loose skip o own g s -> head (wait g o) = Some w -> 1 <= n < 2 ^ 32 ->
  exists g2 s2 k2 x, pend_task_wakeup w s = Ret s2 /\ tasks s2 !! w = Some k2 /\ mutexes s2 = mutexes s /\ mutexes s2 !! o = Some x /\ Some w <> skip /\ w <> idle /\
    let s3 := given o w k2 x n s2 in
    sok skip (own_given own o w) g2 s3 /\ ook None g2 s3 /\ (INHERIT = true -> full (own_given own o w) s3) /\ fresh g2 s3 /\ awake s3 /\
    (INHERIT = true -> forall y, Some y <> skip -> live s3 y -> inh (b_of s3) (own_given own o w) g2 s3 y) /\
    (forall y, y <> w -> wh g2 y = wh g y /\ tasks s2 !! y = tasks s !! y) /\ stp w k2 g s g2 s2 /\ k2 = left_wait (default k2 (tasks s !! w)) BLK_FINISH.
Proof.
  intros [SO OO Hm Hno Hfull Hinh F A Hsk] Hh Hn. pose proof SO as [KO TO MO IO]. pose proof (ko_placed _ _ KO) as P. assert (w ∈ wait g o) as Hin by (by apply head_Some_elem_of). pose proof (in_wh _ _ _ P w _ Hin) as Hw.
  assert (w ∈ dom (tasks s)) as [k Hk]%elem_of_dom by (apply (pl_task _ _ _ P); congruence). destruct (wh_blk g s w k o TO Hk Hw) as [Hwa Hbo].
  assert (task_state k <> K_RDY /\ task_state k <> K_DELETED) as [Hnr Hl] by (unfold waiting in Hwa; by destruct (task_state k)). pose proof (not_idle idle s w k IO Hk Hnr) as Hwi.
  destruct (leave_step g s KO TO w k Hk BLK_FINISH Hwa ltac:(done)) as (g2 & s2 & E & S1 & Hnt). set (k2 := left_wait k BLK_FINISH) in *. destruct (left_state k BLK_FINISH Hwa) as [Hl2 Hwa2]. fold k2 in Hl2, Hwa2.
  pose proof (s1_stp _ _ _ _ _ _ S1) as Sp. pose proof (sp_look _ _ _ _ _ _ Sp) as Hk2. destruct (mk_mutex _ _ _ _ _ _ MO o Hm) as [x Hx]. pose proof (sp_mutexes _ _ _ _ _ _ Sp) as Emu. pose proof (sp_objs _ _ _ _ _ _ Sp) as Eob.
  assert (Some w <> skip) as Hws by (intros Es; by apply (Hsk w Es)). assert (forall o', wh g2 w <> AtObj o') as Hw2 by (intros o'; by apply (not_at g2 s2 w k2); [apply S1|..]).
  destruct (io_other _ _ IO w k Hk Hwi) as [Hp Hb].
  assert (sok skip own g2 s2) as SO2. { apply (sok_step INHERIT idle skip own g s w k k2 g2 s2 SO Hk S1); try done; [by left|]. intros o' Ho'. by destruct (Hw2 o'). }
  assert (forall y, wh g2 y = AtObj o -> y <> w) as Hyw by (intros y Hy ->; by apply (Hw2 o)). assert (forall o', mutex_type s2 o' <-> mutex_type s o') as Hty by (intros o'; unfold mutex_type; by rewrite Eob).
  assert (o ∈ dom (objs s2)) as Ho2. { rewrite Eob. unfold mutex_type in Hm. apply elem_of_dom. destruct (objs s !! o); [by eexists|done]. }
  assert (Hle : forall v, v ∈ wait g2 o -> prio_of s2 w <= prio_of s2 v).
  { intros v Hv. rewrite !(step_prio g s w k k2 Hk g2 s2 S1) by done. rewrite (stp_wait _ _ _ _ _ _ Sp o (Hw2 o)) in Hv. apply list_elem_of_filter in Hv as [Hne Hv]. pose proof (to_wait _ _ TO o) as Hs. destruct (wait g o) as [|a l]; [done|].
    injection Hh as ->. apply elem_of_cons in Hv as [->|Hv]; [done|]. unfold sorted_on in Hs. rewrite StronglySorted_cons, list.Forall_forall in Hs. by apply Hs. }
  exists g2, s2, k2, x. split_and!; try done; [by rewrite Emu|]. cbn zeta. split_and!.
  - apply given_sok; try done. by rewrite Emu.
  - apply (given_ook g2 s2 o w k2 x n Hk2 (Some o)); [|by right|done|].
    + apply (ook_step g s KO w k2 g2 s2 S1 (Some o) OO). intros o' b Ho'. by destruct (Hw2 o').
    + intros y b _ Hb' E0. rewrite <- Hty in Hm. unfold mutex_type in Hm. rewrite Hb' in Hm. cbn in Hm. congruence.
  - intros EI. destruct (Hfull EI) as [H1 H2]. apply given_full; try done; [by apply Hty|intros o' y Hne; rewrite Hty; unfold owner; rewrite Emu; by apply H1|intros o' y Hy; apply Hty; by apply (H2 o' y)].
  - apply given_fresh; [done|]. apply (fresh_kept w k2 g s g2 s2 Sp F). by intros ?%Hnt.
  - apply given_awake; [done|]. apply (awake_step w k2 g s g2 s2 Sp A). intros Hlo Ha. destruct (proj2 A Hlo) as (ka & Hka & Hsa). rewrite <- Ha in Hka. congruence.
  - intros EI y Hy Hly. apply given_inh; try done. apply given_live in Hly; [|done]. apply (inh_step g s KO TO w k k2 Hk g2 s2 S1 own y); try done.
    + intros o' Ho'. split; intros Hy'; [by destruct (Hw2 o')|]. rewrite Hw in Hy'. injection Hy' as <-. by destruct (Hno y).
    + apply (Hinh EI y Hy). apply (step_live g s w k k2 Hk g2 s2 S1 y); [by intros ?%Hl|done].
  - intros y Hy. split; [by apply (stp_wh _ _ _ _ _ _ KO Sp)|by apply (sp_other _ _ _ _ _ _ y Sp)].
  - done.
  - by rewrite Hk.
Qed.

(** Nobody waits: the mutex is free. *)
Definition freed_mutex (o : Z) (x : kmutex_t) (s : kern) : kern := set_mutexes (<[o := set_mutex_task None x]> (mutexes s)) s.

Lemma unowned skip o own g s x :
  loose skip o own g s -> head (wait g o) = None -> mutexes s !! o = Some x -> 0 <= owner_nested x < 2 ^ 32 ->
  sok skip own g (freed_mutex o x s) /\ ook None g (freed_mutex o x s) /\ (INHERIT = true -> full own (freed_mutex o x s)) /\ fresh g (freed_mutex o x s) /\ awake (freed_mutex o x s) /\
  (INHERIT = true -> forall y, Some y <> skip -> live (freed_mutex o x s) y -> inh (b_of (freed_mutex o x s)) own g (freed_mutex o x s) y).
Proof.
  intros [SO OO Hm Hno Hfull Hinh F A Hsk] Hh Hx Hn. pose proof SO as [KO TO MO IO].
  assert (forall t, wh g t <> AtObj o) as Hnw. { intros t Hw. apply (wh_in _ _ _ (ko_placed _ _ KO)) in Hw; [|done]. destruct (wait g o); [by apply elem_of_nil in Hw|done]. }
  unfold freed_mutex. split_and!; try done.
  - apply (sok_write skip own g s o x); try done; [intros y Hy; by destruct (Hno y)|]. intros t _ Hw. by destruct (Hnw t).
  - apply (ook_write (Some o) None g s o _ OO); [cbn; split; [done|tauto]|by right|]. intros t b _ Hw. by destruct (Hnw t).
  - intros EI. destruct (Hfull EI) as [H1 H2]. split; [|exact H2]. intros o' y Hm' Hy. destruct (decide (o' = o)) as [->|Hne]; [by rewrite owner_insert in Hy|]. rewrite owner_insert_ne in Hy by done. by apply H1.
Qed.

(** ** Counting nested locks *)

Lemma inv_nest own g s o x n :
  inv own g s -> mutexes s !! o = Some x -> 1 <= n < 2 ^ 32 -> inv own g (set_mutexes (<[o := set_owner_nested n x]> (mutexes s)) s).
Proof.
  intros [[SO Hfull OO Hinh] F R] Hx Hn. pose proof SO as [KO TO MO IO]. assert (forall o', owner (set_mutexes (<[o := set_owner_nested n x]> (mutexes s)) s) o' = owner s o') as How.
  { intros o'. destruct (decide (o' = o)) as [->|Hne]; [rewrite owner_insert; unfold owner; by rewrite Hx|by apply owner_insert_ne]. }
  assert (owner s o = mutex_task x) as Hox by (unfold owner; by rewrite Hx). split; [split|done|by destruct R].
  - apply (sok_write None own g s o x); try done; [intros t Hm; cbn; rewrite <- Hox; by apply (mk_live _ _ _ _ _ _ MO)|intros t Hm Hw; cbn; rewrite <- Hox; by apply (mk_wait _ _ _ _ _ _ MO)].
  - intros EI. destruct (Hfull EI) as [H1 H2]. split; [intros o' y Hm; rewrite How; by apply H1|done].
  - apply (ook_write None None g s o _ OO); [cbn; lia|by left|]. intros t b _ Hw Hb. by apply (oo_none _ _ _ OO t o b).
  - done.
Qed.

(** ** Locking *)

Lemma mutex_of_type s o b : objs s !! o = Some b -> obj_type b = RHINO_MUTEX_OBJ_TYPE -> mutex_type s o.
Proof. intros Hb Hn. unfold mutex_type. rewrite Hb. cbn. by f_equal. Qed.

(** The priority of the owner, before the caller waits: as if it waited already. *)
Definition bonus (s : kern) (w p : Z) : Z -> Z := upd (b_of s) w (Z.min (b_of s w) p).

Lemma raise_ok own g s t k o w kw :
  qok None own g s -> tasks s !! t = Some k -> task_state k = K_RDY -> tasks s !! w = Some kw -> mutex_type s o -> owner s o = Some w -> w <> t ->
  exists g1 s1, (if INHERIT then (k ← get_task t s; ok ← get_task w s; if decide (prio k < prio ok) then task_pri_change INHERIT w (prio k) s else Ret s) else Ret s) = Ret s1 /\
    sok None own g1 s1 /\ reordered g g1 /\ prios_only s s1 /\ tasks s1 !! t = Some k /\ (INHERIT = true -> forall x, live s1 x -> inh (bonus s w (prio k)) own g1 s1 x).
Proof.
  intros [SO Hfull OO Hinh] Ht Hst Hw Hm How Hne. pose proof SO as [KO TO MO IO]. destruct (mk_live _ _ _ _ _ _ MO o w Hm How) as [(kw' & E & Hlw) Hwi]. rewrite Hw in E. injection E as <-.
  assert (prio_of s w = prio kw /\ b_of s w = b_prio kw) as [Epw Ebw] by (unfold prio_of, b_of; by rewrite Hw).
  assert (Hx : INHERIT = true -> forall x, x <> w -> live s x -> inh (bonus s w (prio k)) own g s x) by (intros EI x Hx Hlx; apply (inh_base (b_of s)); [unfold bonus; by rewrite upd_ne|by apply (Hinh EI)]).
  assert (Hb : INHERIT = true -> least (bonus s w (prio k) w) (firsts g s (own w)) = Z.min (prio k) (prio kw)).
  { intros EI. unfold bonus. rewrite upd_eq, Z.min_comm, least_min. f_equal. rewrite <- Epw. symmetry. apply (Hinh EI). by exists kw. }
  destruct (decide (INHERIT = false)) as [EF|EI]; [exists g, s; split_and!; try done; [by rewrite EF|congruence]|]. apply not_false_is_true in EI.
  match goal with |- context [if INHERIT then ?a else ?b] => replace (if INHERIT then a else b) with a by (by rewrite EI) end.
  rewrite (get_task_eq _ _ _ Ht), (get_task_eq _ _ _ Hw). cbn [mbind outcome_bind]. case_decide as Hlt.
  - pose proof (tk_prio _ _ _ (to_task _ _ TO t k Ht)) as Hp. pose proof (tk_prio _ _ _ (to_task _ _ TO w kw Hw)) as Hpw. destruct (io_other _ _ IO w kw Hw Hwi) as [Hw61 _].
    destruct (task_pri_change_ok INHERIT idle (bonus s w (prio k)) own g s w kw (prio k) SO Hw Hlw Hwi ltac:(lia)) as (g1 & s1 & E1 & (SO1 & Hr & Hpo) & Hres & Hra). exists g1, s1. split_and!; try done.
    + destruct (po_task s s1 Hpo t k Ht) as [p Hp1]. assert (p = prio k) as ->; [|rewrite Hp1; by destruct k]. assert (prio_of s t = prio k) as E0 by (unfold prio_of; by rewrite Ht).
      specialize (Hra Hlt t ltac:(lia)). unfold prio_of in Hra. rewrite Hp1, Ht in Hra. exact Hra.
    + intros _ x Hlx. apply Hres; try done; [auto|by apply Hx|rewrite (Hb EI); lia|by right].
  - exists g, s. split_and!; try done. intros _ x Hlx. destruct (decide (x = w)) as [->|Hxw]; [|by apply Hx]. unfold inh. rewrite (Hb EI), Epw. lia.
Qed.

(** The caller waits for a mutex of another task. *)
Lemma lock_wait_ok own g s o b ticks w :
  inv own g s -> g_intrpt_nested_level s = 0 -> g_sched_lock s = 0 -> g_active_task s <> idle -> objs s !! o = Some b -> mutex_type s o -> owner s o = Some w -> w <> g_active_task s ->
  ticks = RHINO_WAIT_FOREVER \/ 0 < ticks <= 2 ^ 62 ->
  returns_inv (s1 ← (if INHERIT then (k ← get_task (g_active_task s) s; ok ← get_task w s; if decide (prio k < prio ok) then task_pri_change INHERIT w (prio k) s else Ret s) else Ret s);
               s1 ← pend_to_blk_obj o (g_active_task s) ticks s1; exit_blocked s1).
Proof.
  intros I Hn Hlk Hi Hb Hm How Hwt Htk. pose proof (inv_unsched _ _ own g s I) as [Q F D L]. pose proof Q as [SO Hfull OO Hinh]. destruct (inv_ready INHERIT idle own g s I ltac:(by left)) as (k & Hk & Hst). set (t := g_active_task s) in *.
  destruct (mk_live _ _ _ _ _ _ (so_m _ _ _ _ _ _ SO) o w Hm How) as [(kw & Hkw & Hlw) Hwi].
  destruct (raise_ok own g s t k o w kw Q Hk Hst Hkw Hm How Hwt) as (g1 & s1 & -> & SO1 & Hr & Hpo & Hk1 & Hinh1). cbn [mbind outcome_bind]. pose proof SO1 as [KO1 TO1 MO1 IO1]. destruct (po_fields s s1 Hpo) as (Eob & Esem & Emu & Enow & Ea & _ & Elk & _).
  assert (o ∈ dom (objs s1)) as Ho by (rewrite Eob; by apply elem_of_dom). pose proof (fresh_changed g s g1 s1 Hpo Hr F) as F1.
  destruct (pend_step g1 s1 KO1 TO1 t k Hk1 o ticks Hst (idle_ready idle g1 s1 t TO1 IO1 Hi) F1 Htk Ho) as (g2 & s2 & l1 & l2 & -> & S2 & Ew1 & Ew2 & _ & _ & Htm). cbn [mbind outcome_bind].
  destruct (pended_fields s1 o ticks k) as (E1 & E2 & E3 & E4 & E5). pose proof (s1_stp _ _ _ _ _ _ S2) as Sp. pose proof (sp_look _ _ _ _ _ _ Sp) as Hk2. pose proof (proj1 (ready_at g1 s1 TO1 t k Hk1 Hst)) as Hw1.
  assert (wh g2 t = AtObj o) as Hw2. { rewrite (tk_place _ _ _ (to_task _ _ (s1_tok _ _ _ _ _ _ S2) t _ Hk2)). unfold place_of. by rewrite E4, E5. }
  assert (forall o', mutex_type s1 o' <-> mutex_type s o') as Hty by (by apply po_type). assert (forall o', owner s1 o' = owner s o') as Hwn by (by apply po_owner). destruct (io_other _ _ IO1 t k Hk1 Hi) as [Hp61 Hb61].
  apply (ret_blocked INHERIT idle own g2). split.
  - split.
    + apply (sok_step INHERIT idle None own g1 s1 t k _ g2 s2 SO1 Hk1 S2); try done; [lia|lia|by rewrite Hst|left; by rewrite E4|]. intros o' Ho'. assert (o' = o) as -> by congruence. split.
      * intros Hin. destruct (mk_own _ _ _ _ _ _ MO1 t o Hin) as (_ & Hin2 & _). rewrite Hwn in Hin2. congruence.
      * intros _. rewrite Hwn, How. split; [by eexists|]. by intros [= ?].
    + intros EI. apply (full_step own t _ g1 s1 g2 s2 Sp). apply (full_prios own s s1 Hpo). auto.
    + apply (ook_step g1 s1 KO1 t _ g2 s2 S2 None); [by apply (ook_changed None g s g1 s1 (so_k _ _ _ _ _ _ SO) KO1 Hr Hpo)|]. intros o' b' Ho' Hb'. assert (o' = o) as -> by congruence.
      unfold mutex_type in Hm. rewrite Eob, Hb in Hb'. injection Hb' as <-. rewrite Hb in Hm. injection Hm as Hm. rewrite Hm. done.
    + intros EI x Hx. apply (step_live g1 s1 t k _ Hk1 g2 s2 S2 x ltac:(by rewrite Hst)) in Hx. specialize (Hinh1 EI x Hx). assert (b_of s2 x = b_of s x) as Ebx by (rewrite (step_b g1 s1 t k _ Hk1 g2 s2 S2 x E2); by apply po_b).
      destruct (decide (x = w)) as [->|Hxw].
      * unfold inh in Hinh1 |- *. rewrite (step_prio g1 s1 t k _ Hk1 g2 s2 S2 w E1), Hinh1, Ebx. unfold bonus. rewrite upd_eq. apply z_ext. intros z. rewrite !le_eff by (done || apply S2). rewrite Z.min_glb_iff.
        assert (o ∈ own w) as How' by (by apply (proj1 (Hfull EI))). assert (forall o' v, v ∈ wait g2 o' <-> v ∈ wait g1 o' \/ (o' = o /\ v = t)) as Hin.
        { intros o' v. destruct (decide (o' = o)) as [->|Hne]; [rewrite Ew1, Ew2, !elem_of_app, elem_of_cons; tauto|]. rewrite (step_in g1 s1 KO1 t _ g2 s2 S2 o' v); [tauto|]. right. rewrite Hw1, Hw2. split; [congruence|done]. }
        assert (forall v, prio_of s2 v = prio_of s1 v) as Hpv by (intros v; by apply (step_prio g1 s1 t k _ Hk1 g2 s2 S2)). assert (prio_of s1 t = prio k) as Ept by (unfold prio_of; by rewrite Hk1).
        split; [intros ((H1 & H2) & H3); split; [done|]; intros o' v Ho' [Hv|[-> ->]]%Hin; rewrite Hpv; [by apply (H3 o')|lia]|].
        intros (H1 & H3). split; [split; [done|]|]; [rewrite <- Ept, <- Hpv; apply (H3 o t How'); apply Hin; by right|intros o' v Ho' Hv; rewrite <- Hpv; apply (H3 o' v Ho'); apply Hin; by left].
      * apply (inh_step g1 s1 KO1 TO1 t k _ Hk1 g2 s2 S2 own x E1 E2); [|apply (inh_base (bonus s w (prio k))); [unfold bonus; rewrite upd_ne by done; symmetry; by apply po_b|done]].
        intros o' Ho'. rewrite Hw1, Hw2. split; [|done]. intros [= <-]. destruct (mk_own _ _ _ _ _ _ MO1 x o Ho') as (_ & E & _). rewrite Hwn in E. congruence.
  - apply (fresh_kept t _ g1 s1 g2 s2 Sp F1). intros Hin. apply pended_time; [by apply Htm|destruct Htk; [by left|right; lia]].
  - apply (awake_step _ _ _ _ _ _ Sp (awake_prios s s1 Hpo (conj D L))). rewrite Elk. lia.
  - destruct (tasks_only_fields _ _ (stp_only _ _ _ _ _ _ Sp)) as (_ & _ & _ & _ & _ & -> & _). rewrite Elk. lia.
Qed.

Lemma mutex_lock_ok own g s o b ticks :
  inv own g s -> objs s !! o = Some b -> g_active_task s <> idle -> ticks_ok ticks ->
  (forall x, mutexes s !! o = Some x -> owner_nested x < 2 ^ 32 - 1) -> returns_inv (krhino_mutex_lock INHERIT o ticks s).
Proof.
  intros I Hb Hi Htk Hov. pose proof (inv_unsched _ _ own g s I) as [Q F D L]. pose proof Q as [SO Hfull OO Hinh]. pose proof SO as [KO TO MO IO]. destruct (inv_active_task INHERIT idle own g s I) as [ka Hka]. destruct (cancelled_ok s o b ka Hka Hb) as [c Ec].
  unfold krhino_mutex_lock. rewrite decide_False by (rewrite (oo_run _ _ _ OO); done). rewrite Ec. cbn [mbind outcome_bind]. destruct c; [by eapply ret_done|]. case_decide as Hn; [by eapply ret_done|].
  rewrite (get_obj_eq _ _ _ Hb). cbn [mbind outcome_bind]. case_decide as Hty; [by eapply ret_done|]. pose proof (mutex_of_type s o b Hb Hty) as Hm. destruct (mk_mutex _ _ _ _ _ _ MO o Hm) as [x Hx]. unfold get_mutex. rewrite Hx. cbn [mbind outcome_bind].
  destruct (inv_level INHERIT idle own g s I) as [Hlv Hlk]. destruct (inv_ready INHERIT idle own g s I ltac:(left; lia)) as (k & Hk & Hst). set (t := g_active_task s) in *. assert (owner s o = mutex_task x) as Hox by (unfold owner; by rewrite Hx).
  cbn zeta. case_decide as Hme.
  - destruct (oo_nest _ _ _ OO o x Hm Hx ltac:(done)) as [H1 H2]. specialize (H2 ltac:(by rewrite Hme)). specialize (Hov x Hx). rewrite decide_False by lia. rewrite (upd_mutex_ok _ _ _ _ Hx). cbn [mbind outcome_bind].
    apply (ret_done INHERIT idle own g). apply (inv_nest own g s o x); [done|done|lia].
  - destruct (mutex_task x) as [w|] eqn:Emt.
    + case_decide as Hnw; [by eapply ret_done|]. case_decide as Hl; [by eapply ret_done|]. apply (lock_wait_ok own g s o b ticks w); try done; [lia|lia|intros ->; by apply Hme|]. unfold ticks_ok, RHINO_NO_WAIT in *. lia.
    + rewrite (mutex_get_ok o t s k x Hk Hx). cbn [mbind outcome_bind]. assert (forall y, wh g y <> AtObj o) as Hnw. { intros y Hy. destruct (mk_wait _ _ _ _ _ _ MO y o Hm Hy) as [[z Hz] _]. congruence. }
      assert (forall y, o ∉ own y) as Hno. { intros y Hy. destruct (mk_own _ _ _ _ _ _ MO y o Hy) as (_ & Hy2 & _). congruence. }
      apply (ret_done INHERIT idle (own_given own o t) g). pose proof (given_chains o t k x 1 s Hk) as C. pose proof (given_awake s o t k x 1 Hk (conj D L)) as [D' L'].
      assert (task_state k <> K_DELETED) as Hlive by (by rewrite Hst). destruct (co_fields _ _ C) as (_ & _ & _ & _ & _ & Ea & _ & El & En & _). split; [split| |].
      * apply given_sok; try done. by apply elem_of_dom.
      * intros EI. destruct (Hfull EI) as [H1 H2]. apply given_full; try done. intros o' y _. apply H1.
      * apply (given_ook g s o t k x 1 Hk None OO); [by left|lia|]. intros y b' Hy. by destruct (Hnw y).
      * intros EI y Hy. apply given_live in Hy; [|done]. apply given_inh; [done|by apply (Hinh EI)|]. intros v Hv. apply (in_wh _ _ _ (ko_placed _ _ KO)) in Hv. by destruct (Hnw v).
      * by apply given_fresh.
      * pose proof (in_run _ _ _ _ _ I) as [R1 R2 R3]. split; [|done|].
        -- intros _. rewrite Ea. destruct (co_task _ _ C t k Hk) as [v Hv]. by exists (set_mutex_list v k).
        -- rewrite En, El. unfold best. rewrite Ea. exact R3.
Qed.
End Calls.
