(* ===== verification/KRelease.v ===== *)
(** * Unlocking and deleting mutexes, deleting tasks *)

From stdpp Require Import gmap sorting.
From S2P Require Import Prelude KBits KList KKern KCalls KQueue KTasks KSteps KOwn KInherit KInv KCallsOk KSemOk KNew KUnwait KMutexCalls.

Lemma awake_chains s s' : chains_only s s' -> awake s -> awake s'.
Proof.
  intros C [D L]. destruct (co_fields _ _ C) as (_ & _ & _ & _ & _ & Ea & _ & El & _). split.
  - rewrite Ea, (co_dom _ _ C). done.
  - rewrite Ea, El. intros Hlo. destruct (L Hlo) as (ka & Hka & Hsa). destruct (co_task _ _ C _ ka Hka) as [v Hv]. by exists (set_mutex_list v ka).
Qed.

(** Links and priorities have changed. *)
Record settled (s s' : kern) : Prop := Settled {
  st_obj : objs s' = objs s;
  st_own : forall o, owner s' o = owner s o;
  st_task : forall t k, tasks s !! t = Some k -> exists k', tasks s' !! t = Some k' /\ task_state k' = task_state k;
  st_back : forall t k', tasks s' !! t = Some k' -> exists k, tasks s !! t = Some k /\ task_state k' = task_state k;
  st_mutex : forall o x, mutexes s !! o = Some x -> exists x', mutexes s' !! o = Some x' /\ mutex_task x' = mutex_task x /\ owner_nested x' = owner_nested x;
  st_run : g_active_task s' = g_active_task s /\ g_sched_lock s' = g_sched_lock s /\ g_intrpt_nested_level s' = g_intrpt_nested_level s
}.

Lemma settled_by s s1 s' : chains_only s s1 -> prios_only s1 s' -> settled s s'.
Proof.
  intros C Hp. destruct (co_fields s s1 C) as (_ & E1 & _ & _ & _ & E2 & _ & E3 & E4 & _). destruct (po_fields s1 s' Hp) as (F1 & _ & F0 & _ & F2 & _ & F3 & F4 & _). split.
  - congruence.
  - intros o. by rewrite (po_owner s1 s' Hp), (co_owner s s1 C).
  - intros t k Ht. destruct (co_task s s1 C t k Ht) as [v Hv]. destruct (po_task s1 s' Hp t _ Hv) as [p Hp']. by eexists.
  - intros t k' Ht. destruct (po_task_inv s1 s' Hp t k' Ht) as (k1 & Hk1 & E). destruct (co_task_inv s s1 C t k1 Hk1) as (k & Hk & E'). exists k. split; [done|]. by rewrite E, E'.
  - intros o x Hx. rewrite F0. destruct (fmap_rel _ _ _ _ (eq_sym (co_mutexes _ _ C o)) Hx) as (y & Hy & F). exists y. split; [done|]. destruct x, y. cbn in F. by injection F as -> -> ->.
  - split_and!; congruence.
Qed.

Lemma settled_type s s' o : settled s s' -> mutex_type s' o <-> mutex_type s o.
Proof. intros S. unfold mutex_type. by rewrite (st_obj _ _ S). Qed.

Section Calls.
Context (INHERIT : bool) (idle : Z).
Abbreviation inv := (inv INHERIT idle).
Abbreviation sok := (sok INHERIT idle).
Abbreviation mok := (mok INHERIT idle).
Abbreviation qok := (qok INHERIT idle).
Abbreviation unsched := (unsched INHERIT idle).
Abbreviation returns_inv := (returns_inv INHERIT idle).
Abbreviation loose := (loose INHERIT idle).

(** Who owns which mutex, but for [o], which [t] gives back. *)
Lemma without_full own s t o :
  full own s -> owner s o = Some t ->
  let own' := upd own t (without (Some o) (own t)) in
  (forall o' y, o' <> o -> mutex_type s o' -> owner s o' = Some y -> o' ∈ own' y) /\ (forall o' y, o' ∈ own' y -> mutex_type s o').
Proof.
  intros [H1 H2] Ho own'. unfold own'. split; intros o' y.
  - intros Hne Hm Hy. specialize (H1 o' y Hm Hy). destruct (decide (y = t)) as [->|Hyt]; [rewrite upd_eq; cbn; by apply rest_in|by rewrite upd_ne].
  - destruct (decide (y = t)) as [->|Hyt]; [rewrite upd_eq; cbn; intros [_ Hin]%list_elem_of_filter; by apply (H2 o' t)|rewrite upd_ne by done; apply H2].
Qed.

Lemma without_no skip own g s t o : mok skip own g s -> owner s o = Some t -> forall y, o ∉ upd own t (without (Some o) (own t)) y.
Proof.
  intros MO Ho y Hy. destruct (decide (y = t)) as [->|Hyt]; [rewrite upd_eq in Hy; cbn in Hy; by apply rest_not in Hy|]. rewrite upd_ne in Hy by done. destruct (mk_own _ _ _ _ _ _ MO y o Hy) as (_ & E & _). congruence.
Qed.

(** [t] gives back [o]; [ex] says whether the count of its locks is 0 already. *)
Lemma release_loose own g s t k o :
  sok None own g s -> ook (Some o) g s -> (INHERIT = true -> full own s) -> (INHERIT = true -> inherited own g s) -> fresh g s -> awake s ->
  tasks s !! t = Some k -> task_state k = K_RDY -> mutex_type s o -> owner s o = Some t ->
  let own' := upd own t (without (Some o) (own t)) in
  exists g' s', mutex_release INHERIT t (Some o) s = Ret s' /\ loose None o own' g' s' /\ settled s s' /\ reordered g g' /\ (INHERIT = true -> wait g o = [] -> g' = g).
Proof.
  intros SO OO Hfull Hinh F A Ht Hst Hm Ho own'. pose proof SO as [KO TO MO IO]. destruct (mk_live _ _ _ _ _ _ MO o t Hm Ho) as [_ Hti]. assert (task_state k <> K_DELETED) as Hl by (by rewrite Hst).
  destruct (release_ok INHERIT idle own g s t k (Some o) SO Ht Hl Hti) as (g' & s' & s1 & E & C & _ & (SO' & Hr & Hpo) & Hres & Hsame). fold own' in SO', Hres, Hsame. pose proof (settled_by s s1 s' C Hpo) as Se. exists g', s'. split_and!; try done.
  - split; try done.
    + apply (ook_changed (Some o) g s1 g' s'); [by apply (co_kok s s1 C)|apply SO'|done|done|]. by apply (ook_chains (Some o) g s s1).
    + by apply (settled_type s s').
    + by apply (without_no None own g s).
    + intros EI. destruct (without_full own s t o (Hfull EI) Ho) as [H1 H2]. split; [intros o' y Hne; rewrite (settled_type s s' o' Se), (st_own _ _ Se); by apply H1|intros o' y Hy; rewrite (settled_type s s' o' Se); by apply (H2 o' y)].
    + intros EI y _ Hy. apply (Hres EI); [by rewrite Hst| |done]. intros x Hx Hlx. unfold inh, own'. rewrite upd_ne by done. by apply (Hinh EI).
    + apply (fresh_changed g s1 g' s' Hpo Hr). by apply (co_fresh s s1 C).
    + apply (awake_prios s1 s' Hpo). by apply (awake_chains s s1).
  - intros EI Hnone. apply Hsame. assert (inh (b_of s) own g s t) as Hi by (apply (Hinh EI); by exists k). unfold inh, prio_of, b_of in Hi. rewrite Ht in Hi. rewrite Hi. unfold own'. rewrite upd_eq.
    apply z_ext. intros z. rewrite !le_eff by done. split; intros [H1 H2]; (split; [done|]); intros o' v Ho' Hv.
    + apply (H2 o' v); [|done]. cbn. apply rest_in; [|done]. intros ->. rewrite Hnone in Hv. by apply elem_of_nil in Hv.
    + apply (H2 o' v); [|done]. cbn in Ho'. by apply list_elem_of_filter in Ho' as [_ ?].
Qed.

(** The last unlock: the mutex is free, or its first waiter [w] has it. *)
Definition unlock_frees (g : ghost) (s : kern) (o : Z) : Prop :=
  wait g o = [] /\ exists own' g' s', krhino_mutex_unlock INHERIT o s = done_with RHINO_SUCCESS s' /\ inv own' g' s' /\ owner s' o = None.
Definition unlock_gives (g : ghost) (s : kern) (o : Z) : Prop :=
  exists w x' k' own' g' s', w ∈ wait g o /\ krhino_mutex_unlock INHERIT o s = exit_sched s' /\ unsched None own' g' s' /\
    mutexes s' !! o = Some x' /\ mutex_task x' = Some w /\ owner_nested x' = 1 /\ tasks s' !! w = Some k' /\ waiting k' = false /\ blk_state k' = BLK_FINISH /\ (forall k, tasks s !! w = Some k -> task_state k' = woken_state k) /\
    (forall v, v ∈ wait g o -> v <> w -> v ∈ wait g' o /\ prio_of s' w <= prio_of s' v).

Lemma given_prio o w k x n s y : tasks s !! w = Some k -> prio_of (given INHERIT o w k x n s) y = prio_of s y.
Proof. intros Hk. unfold given, prio_of. destruct INHERIT; [|done]. cbn. destruct (decide (y = w)) as [->|Hy]; [by rewrite lookup_insert_eq, Hk|by rewrite lookup_insert_ne]. Qed.

Lemma given_task o w k x n s : tasks s !! w = Some k -> exists k', tasks (given INHERIT o w k x n s) !! w = Some k' /\ waiting k' = waiting k /\ task_state k' = task_state k /\ blk_state k' = blk_state k.
Proof. intros Hk. unfold given. destruct INHERIT; [|by exists k]. exists (set_mutex_list (Some o) k). split; [cbn; by rewrite lookup_insert_eq|done]. Qed.

Lemma given_mutex o w k x n s : exists x', mutexes (given INHERIT o w k x n s) !! o = Some x' /\ mutex_task x' = Some w /\ owner_nested x' = n.
Proof. unfold given. destruct INHERIT; eexists; cbn; rewrite lookup_insert_eq; done. Qed.

(** Everybody else goes on waiting behind the new owner. *)
Lemma still_waiting g s g2 s2 o w k2 l :
  tok g s -> wait g o = w :: l -> stp w k2 g s g2 s2 -> (forall k, tasks s !! w = Some k -> prio k2 = prio k) -> (exists k, tasks s !! w = Some k) ->
  forall v, v ∈ wait g o -> v <> w -> v ∈ wait g2 o /\ prio_of s2 w <= prio_of s2 v.
Proof.
  intros TO El Sp Hp [k Hk] v Hv Hvw. split.
  - rewrite <- (rest_in w) by done. rewrite (mv_lst _ _ _ (sp_mv _ _ _ _ _ _ Sp)). by rewrite rest_in.
  - pose proof (to_wait _ _ TO o) as So. rewrite El in So, Hv. apply elem_of_cons in Hv as [->|Hv]; [done|]. apply StronglySorted_cons in So as [So _]. rewrite list.Forall_forall in So.
    rewrite (stp_prio w k2 g s g2 s2 Sp v Hvw). unfold prio_of at 1. rewrite (sp_look _ _ _ _ _ _ Sp), (Hp k Hk). specialize (So v Hv). unfold prio_of at 1 in So. by rewrite Hk in So.
Qed.

Lemma unlock_last own g s o b x :
  inv own g s -> objs s !! o = Some b -> obj_type b = RHINO_MUTEX_OBJ_TYPE -> mutexes s !! o = Some x -> mutex_task x = Some (g_active_task s) -> owner_nested x = 1 -> g_intrpt_nested_level s = 0 ->
  unlock_frees g s o \/ unlock_gives g s o.
Proof.
  intros I Hb Hty Hx Hown Hnest Hn. pose proof (inv_unsched _ _ own g s I) as [Q F D L]. pose proof Q as [SO Hfull OO Hinh]. pose proof SO as [KO TO MO IO]. pose proof (mutex_of_type s o b Hb Hty) as Hm.
  assert (exists k, tasks s !! g_active_task s = Some k /\ task_state k = K_RDY) as (k & Hk & Hst) by (apply (inv_ready INHERIT idle own g s I); by left).
  assert (krhino_mutex_unlock INHERIT o s = (let s := set_mutexes (<[o := set_owner_nested 0 x]> (mutexes s)) s in s ← mutex_release INHERIT (g_active_task s) (Some o) s; w ← first_waiter o s;
    match w with None => s ← upd_mutex o (set_mutex_task None) s; done_with RHINO_SUCCESS s | Some t => s ← pend_task_wakeup t s; s ← mutex_get INHERIT o t s; exit_sched s end)) as Eu.
  { unfold krhino_mutex_unlock. rewrite decide_False by (rewrite (oo_run _ _ _ OO); done). rewrite decide_False by lia. rewrite (get_obj_eq _ _ _ Hb). cbn [mbind outcome_bind]. rewrite decide_False by (intros H; by apply H). unfold get_mutex at 1. rewrite Hx. cbn [mbind outcome_bind].
    rewrite decide_False by (intros H; by apply H). rewrite Hnest. change (u32 (1 - 1)) with 0. cbn zeta. rewrite (upd_mutex_ok _ _ _ _ Hx). cbn [mbind outcome_bind]. by rewrite decide_False by lia. }
  unfold unlock_frees, unlock_gives. rewrite Eu. set (t := g_active_task s) in *. set (x0 := set_owner_nested 0 x). set (s0 := set_mutexes _ s). assert (owner s o = Some t) as How by (unfold owner; by rewrite Hx). assert (forall o', owner s0 o' = owner s o') as How0.
  { intros o'. destruct (decide (o' = o)) as [->|Hne]; [unfold s0; rewrite owner_insert; by rewrite How|by apply owner_insert_ne]. }
  assert (sok None own g s0) as SO0. { apply (sok_write INHERIT idle None own g s o x); try done; [intros y Hm' Hy; apply (mk_live _ _ _ _ _ _ MO o y Hm'); rewrite How; by rewrite <- Hown|intros y Hm' Hw; cbn; rewrite Hown, <- How; by apply (mk_wait _ _ _ _ _ _ MO)]. }
  assert (ook (Some o) g s0) as OO0. { apply (ook_write (Some o) (Some o) g s o x0); [|done|by left|done]. destruct OO as [O1 O2 O3 O4 O5 O6]. split; try done; [intros y o' b' Hy Hb' _; by apply (O1 y o')|intros o' y Hm' Hy _; by apply (O3 o' y)]. }
  assert (INHERIT = true -> full own s0) as Hfull0. { intros EI. destruct (Hfull EI) as [A1 A2]. split; [intros o' y; rewrite How0; apply A1|apply A2]. }
  destruct (release_loose own g s0 t k o SO0 OO0 Hfull0 Hinh F (conj D L) Hk Hst Hm ltac:(by rewrite How0)) as (g1 & s1 & E & Lo & Se & Hr & Hsame). set (own' := upd own t _) in *.
  cbn zeta. change (g_active_task s0) with t. rewrite E. cbn [mbind outcome_bind]. pose proof (lo_s _ _ _ _ _ _ _ Lo) as [KO1 TO1 MO1 IO1]. assert (o ∈ dom (objs s1)) as Ho1 by (rewrite (st_obj _ _ Se); by apply elem_of_dom).
  rewrite (first_waiter_ok g1 s1 KO1 o Ho1). cbn [mbind outcome_bind]. destruct (st_mutex _ _ Se o x0) as (x1 & Hx1 & Emt & Enst); [unfold s0; cbn; by rewrite lookup_insert_eq|]. destruct (st_run _ _ Se) as (Ea & El & En).
  destruct (wait g1 o) as [|w l] eqn:Ewt; cbn [head hd_error].
  - left. assert (wait g o = []) as Ewn by (apply Permutation_nil_r; rewrite <- Ewt; symmetry; by apply Hr). split; [done|]. rewrite (upd_mutex_ok _ _ _ _ Hx1). cbn [mbind outcome_bind]. fold (freed_mutex o x1 s1). cbn in Enst.
    destruct (unowned INHERIT idle None o own' g1 s1 x1 Lo ltac:(by rewrite Ewt) Hx1 ltac:(lia)) as (SO3 & OO3 & Hfull3 & F3 & A3 & Hinh3).
    exists own', g1, (freed_mutex o x1 s1). split; [done|]. split; [|unfold freed_mutex; by rewrite owner_insert]. split; [split; try done; intros EI v Hv; by apply (Hinh3 EI v)|done|]. pose proof (in_run _ _ _ _ _ I) as [R1 R2 R3]. split; [|apply A3|].
    + intros _. change (ready s1 (g_active_task s1)). rewrite Ea. destruct (st_task _ _ Se t k Hk) as (k1 & Hk1 & Es). exists k1. split; [done|congruence].
    + intros EI. cbn [g_intrpt_nested_level g_sched_lock freed_mutex set_mutexes]. rewrite En, El. intros Hn0 Hl0. rewrite (Hsame EI Ewn). unfold best. cbn [g_active_task freed_mutex set_mutexes]. rewrite Ea. by apply R3.
  - right. destruct (handover INHERIT idle None o own' g1 s1 w 1 Lo ltac:(by rewrite Ewt) ltac:(lia)) as (g2 & s2 & k2 & y & Ew & Hk2 & _ & Hy & _ & _ & SO3 & OO3 & Hfull3 & F3 & [D3 L3] & Hinh3 & _ & Sp & Ek2).
    assert (w ∈ wait g1 o) as Hin1 by (rewrite Ewt; by left). assert (wh g1 w = AtObj o) as Hwh by (by apply (in_wh _ _ _ (ko_placed _ _ KO1))). assert (exists k1, tasks s1 !! w = Some k1) as [k1 Hk1] by (apply elem_of_dom; apply (pl_task _ _ _ (ko_placed _ _ KO1)); congruence).
    rewrite Hk1 in Ek2. cbn in Ek2. destruct (wh_blk g1 s1 w k1 o TO1 Hk1 Hwh) as [Hwa1 _]. rewrite Ew. cbn [mbind outcome_bind]. rewrite (mutex_get_ok INHERIT o w s2 k2 y Hk2 Hy). cbn [mbind outcome_bind].
    destruct (given_mutex o w k2 y 1 s2) as (x' & Hx' & Em' & En'). destruct (given_task o w k2 y 1 s2 Hk2) as (k' & Hk' & Ewa & Est & Ebs). exists w, x', k', (own_given INHERIT own' o w), g2, (given INHERIT o w k2 y 1 s2).
    split_and!; try done; [by rewrite <- (proj1 Hr o)|split; try done; split; try done; intros EI v Hv; by apply (Hinh3 EI v)| | | |].
    + rewrite Ewa, Ek2. by apply left_state.
    + by rewrite Ebs, Ek2.
    + intros kw Hkw. destruct (st_back _ _ Se w k1 Hk1) as (k0 & Hk0 & E0). change (tasks s0 !! w) with (tasks s !! w) in Hk0. rewrite Hkw in Hk0. injection Hk0 as <-. rewrite Est, Ek2. unfold left_wait, woken_state, suspended. cbn. by rewrite E0.
    + intros v Hv Hvw. rewrite !given_prio by done. apply (still_waiting g1 s1 g2 s2 o w k2 l TO1 Ewt Sp); [intros kk Hkk; rewrite Hk1 in Hkk; injection Hkk as <-; by rewrite Ek2|by exists k1| |done]. destruct Hr as [Hr _]. by rewrite (Hr o).
Qed.

Lemma mutex_unlock_ok own g s o b : inv own g s -> objs s !! o = Some b -> returns_inv (krhino_mutex_unlock INHERIT o s).
Proof.
  intros I Hb. pose proof (inv_unsched _ _ own g s I) as [[[KO TO MO IO] _ OO _] _ _ _]. destruct (inv_level INHERIT idle own g s I) as [Hlv Hlk]. destruct (decide (obj_type b = RHINO_MUTEX_OBJ_TYPE)) as [Hty|Hty].
  - destruct (mk_mutex _ _ _ _ _ _ MO o (mutex_of_type s o b Hb Hty)) as [x Hx]. destruct (decide (g_intrpt_nested_level s = 0 /\ mutex_task x = Some (g_active_task s) /\ owner_nested x = 1)) as [(Hn & Hown & Hnest)|Hlast].
    { destruct (unlock_last own g s o b x I Hb Hty Hx Hown Hnest Hn) as [(_ & own' & g' & s' & -> & I' & _)|(w & x' & k' & own' & g' & s' & _ & -> & U & _)]; [by apply (ret_done INHERIT idle own' g')|by apply (ret_sched INHERIT idle own' g')]. }
    unfold krhino_mutex_unlock. rewrite decide_False by (rewrite (oo_run _ _ _ OO); done). case_decide as Hn; [by eapply ret_done|]. rewrite (get_obj_eq _ _ _ Hb). cbn [mbind outcome_bind]. case_decide; [by eapply ret_done|].
    unfold get_mutex. rewrite Hx. cbn [mbind outcome_bind]. case_decide as Hown; [by eapply ret_done|]. destruct (oo_nest _ _ _ OO o x (mutex_of_type s o b Hb Hty) Hx ltac:(done)) as [H1 H2]. specialize (H2 ltac:(by rewrite Hown)).
    cbn zeta. assert (u32 (owner_nested x - 1) = owner_nested x - 1) as -> by (unfold u32; apply Z.mod_small; lia). assert (owner_nested x <> 1) by (intros ?; apply Hlast; split_and!; [lia|done|done]).
    rewrite (upd_mutex_ok _ _ _ _ Hx). cbn [mbind outcome_bind]. rewrite decide_True by lia. apply (ret_done INHERIT idle own g). apply (inv_nest INHERIT idle own g s o x); [done|done|lia].
  - unfold krhino_mutex_unlock. rewrite decide_False by (rewrite (oo_run _ _ _ OO); done). case_decide as Hn; [by eapply ret_done|]. rewrite (get_obj_eq _ _ _ Hb). cbn [mbind outcome_bind]. rewrite decide_True by done. by eapply ret_done.
Qed.

(** ** Deleting mutexes *)

Lemma mutex_del_ok own g s o b : inv own g s -> objs s !! o = Some b -> returns_inv (krhino_mutex_del INHERIT o s).
Proof.
  intros I Hb. unfold krhino_mutex_del. case_decide; [by eapply ret_done|]. rewrite (get_obj_eq _ _ _ Hb). cbn [mbind outcome_bind]. case_decide as Hty; [by eapply ret_done|].
  pose proof (inv_unsched _ _ own g s I) as [[SO Hfull OO Hinh] F D L]. pose proof SO as [KO TO MO IO]. pose proof (mutex_of_type s o b Hb Hty) as Hm. destruct (mk_mutex _ _ _ _ _ _ MO o Hm) as [x Hx]. unfold get_mutex. rewrite Hx. cbn [mbind outcome_bind].
  case_decide; [by eapply ret_done|]. rewrite (upd_obj_ok _ _ _ _ Hb). cbn [mbind outcome_bind]. fold (untyped o b s). destruct (sok_untype INHERIT idle own g s o b Hb SO OO) as [SO0 OO0]. set (s0 := untyped o b s) in *.
  assert (owner s o = mutex_task x) as Hox by (unfold owner; by rewrite Hx). assert (o ∈ dom (objs s0)) as Hod by (cbn; apply elem_of_dom; rewrite lookup_insert_eq; by eexists).
  assert (~ mutex_type s0 o) as Hnm by (by intros [? _]%untyped_type). destruct (mutex_task x) as [t|] eqn:Emt.
  - destruct (mk_live _ _ _ _ _ _ MO o t Hm Hox) as [(k & Hk & Hl) Hti]. destruct (release_ok INHERIT idle own g s0 t k (Some o) SO0 Hk Hl Hti) as (g1 & s1 & sc & E & C & _ & (SO1 & Hr & Hpo) & Hres & _).
    set (own' := upd own t _) in *. rewrite E. cbn [mbind outcome_bind]. assert (INHERIT = true -> full own' s0) as Hfull0.
    { intros EI. destruct (without_full own s t o (Hfull EI) Hox) as [H1 H2]. split; [intros o' y [Hne Hm']%untyped_type Hy; by apply H1|]. intros o' y Hy. apply untyped_type. split; [|by apply (H2 o' y)]. intros ->. by apply (without_no None own g s t o MO Hox y). }
    apply (drain_end INHERIT idle own' g1); [|rewrite (st_obj _ _ (settled_by s0 sc s1 C Hpo)); done|by rewrite (settled_type s0 s1 o (settled_by s0 sc s1 C Hpo))].
    pose proof (awake_prios sc s1 Hpo (awake_chains s0 sc C (conj D L))) as [D1 L1]. split; try done; [|apply (fresh_changed g sc g1 s1 Hpo Hr); by apply (co_fresh s0 sc C)]. split; try done.
    + intros EI. apply (full_prios own' sc s1 Hpo). apply (full_chains own' s0 sc C). auto.
    + apply (ook_changed (Some o) g sc g1 s1); [by apply (co_kok s0 sc C); apply SO0|apply SO1|done|done|]. by apply (ook_chains (Some o) g s0 sc).
    + intros EI. apply (Hres EI); [auto|]. intros y Hy Hly. unfold inh, own'. rewrite upd_ne by done. by apply (Hinh EI).
  - cbn [mbind outcome_bind]. apply (drain_end INHERIT idle own g); [|done|done]. split; try done. split; try done. intros EI. destruct (Hfull EI) as [H1 H2]. split; [intros o' y [Hne Hm']%untyped_type Hy; by apply H1|].
    intros o' y Hy. apply untyped_type. split; [|by apply (H2 o' y)]. intros ->. destruct (mk_own _ _ _ _ _ _ MO y o Hy) as (_ & E & _). congruence.
Qed.

(** ** Deleting tasks *)

(** [t] is being deleted and hands its mutexes [own t] on. *)
Record dying (t : Z) (own : Z -> list Z) (g : ghost) (s : kern) : Prop := Dying {
  dy_s : sok (Some t) own g s;
  dy_o : ook None g s;
  dy_full : INHERIT = true -> full own s;
  dy_inh : INHERIT = true -> forall y, y <> t -> live s y -> inh (b_of s) own g s y;
  dy_fresh : fresh g s;
  dy_awake : awake s
}.

Lemma sok_drop own g s t o l : sok (Some t) own g s -> own t = o :: l -> sok (Some t) (upd own t l) g s.
Proof.
  intros [KO TO [M1 M2 M3 M4 M5 M6 M7 M8] IO] El. split; try done. assert (forall y o', o' ∈ upd own t l y -> o' ∈ own y) as Hsub.
  { intros y o'. destruct (decide (y = t)) as [->|Hne]; [rewrite upd_eq, El; by right|by rewrite upd_ne]. }
  split; try done; [intros y ky Hy Hl Hs; rewrite upd_ne by congruence; by apply M3| | |intros y o' Ho; by apply M8, Hsub].
  - intros y. destruct (decide (y = t)) as [->|Hne]; [rewrite upd_eq|by rewrite upd_ne]. specialize (M4 t). rewrite El in M4. by apply list.NoDup_cons in M4 as [_ ?].
  - intros y o' Ho. by apply M5, Hsub.
Qed.

Lemma dying_loose own g s t o l : dying t own g s -> own t = o :: l -> INHERIT = true -> loose (Some t) o (upd own t l) g s /\ owner s o = Some t.
Proof.
  intros [SO OO Hfull Hinh F A] El EI. pose proof (so_m _ _ _ _ _ _ SO) as MO. assert (o ∈ own t) as Ho by (rewrite El; by left). destruct (Hfull EI) as [H1 H2]. destruct (mk_own _ _ _ _ _ _ MO t o Ho) as (_ & Hown & _).
  pose proof (mk_nodup _ _ _ _ _ _ MO t) as Nd. rewrite El in Nd. apply list.NoDup_cons in Nd as [Hnl _]. split; [|done]. split; try done.
  - by apply (sok_drop own g s t o l).
  - destruct OO as [O1 O2 O3 O4 O5 O6]. split; try done; [intros y o' b' Hy Hb' _; by apply (O1 y o')|intros o' y Hm' Hy _; by apply (O3 o' y)].
  - by apply (H2 o t).
  - intros y. destruct (decide (y = t)) as [->|Hne]; [by rewrite upd_eq|]. rewrite upd_ne by done. intros Hy. destruct (mk_own _ _ _ _ _ _ MO y o Hy) as (_ & E & _). congruence.
  - intros _. split.
    + intros o' y Hne Hm Hy. specialize (H1 o' y Hm Hy). destruct (decide (y = t)) as [->|Hyt]; [rewrite upd_eq; rewrite El in H1; by apply elem_of_cons in H1 as [?|?]|by rewrite upd_ne].
    + intros o' y Hy. apply (H2 o' y). destruct (decide (y = t)) as [->|Hne]; [rewrite upd_eq in Hy; rewrite El; by right|by rewrite upd_ne in Hy].
  - intros _ y Hy Hly. unfold inh. rewrite upd_ne by congruence. apply (Hinh EI); [congruence|done].
  - intros t' [= ->]. by apply (mk_self _ _ _ _ _ _ MO t o).
Qed.

(** [task_mutex_free] leaves the count of locks as it is. *)
Lemma free_get o w s k x :
  INHERIT = true -> tasks s !! w = Some k -> mutexes s !! o = Some x ->
  (s ← upd_mutex o (set_mutex_task (Some w)) s; k ← get_task w s; s ← upd_mutex o (set_m_list (mutex_list k)) s; upd_task w (set_mutex_list (Some o)) s) = Ret (given INHERIT o w k x (owner_nested x) s).
Proof.
  intros EI Ht Hx. unfold given. rewrite EI, (upd_mutex_ok _ _ _ _ Hx). cbn [mbind outcome_bind]. unfold get_task. cbn [tasks set_mutexes]. rewrite Ht. cbn [mbind outcome_bind].
  rewrite (upd_mutex_ok o _ _ (set_mutex_task (Some w) x)) by (cbn; apply lookup_insert_eq). cbn [mbind outcome_bind]. rewrite (upd_task_ok w _ _ k) by done. unfold with_task. cbn. by rewrite insert_insert_eq.
Qed.

Lemma mutex_free_ok t k : forall l fuel own g s cur,
  dying t own g s -> tasks s !! t = Some k -> own t = l -> held (mutexes s) cur l -> (length l <= fuel)%nat ->
  exists own' g' s', task_mutex_free fuel cur s = Ret s' /\ dying t own' g' s' /\ tasks s' !! t = Some k /\ wh g' t = wh g t /\ own' t = [] /\ g_active_task s' = g_active_task s /\ g_sched_lock s' = g_sched_lock s /\
    (forall o, mutex_type s' o -> owner s' o = Some t -> INHERIT = true \/ owner s o = Some t /\ mutex_type s o) /\
    (forall o y, y <> t -> owner s o = Some y -> owner s' o = Some y).
Proof.
  induction l as [|o l IH]; intros fuel own g s cur Dy Ht El Hh Hf.
  { cbn in Hh. subst cur. exists own, g, s. assert (task_mutex_free fuel None s = Ret s) as -> by (by destruct fuel). split_and!; try done. by right. }
  destruct Hh as (-> & x & Hx & Hh). destruct fuel as [|fuel]; [cbn in Hf; lia|]. pose proof Dy as [SO OO Hfull Hinh F A]. pose proof SO as [KO TO MO IO].
  destruct (mk_own _ _ _ _ _ _ MO t o) as (Ho & Hown & _ & EI & _); [rewrite El; by left|]. destruct (dying_loose own g s t o l Dy El EI) as [Lo _]. pose proof (mk_nodup _ _ _ _ _ _ MO t) as Nd. rewrite El in Nd. apply list.NoDup_cons in Nd as [Hnl _].
  assert (mutex_task x = Some t) as Hxt by (unfold owner in Hown; by rewrite Hx in Hown). destruct (oo_nest _ _ _ OO o x (lo_type _ _ _ _ _ _ _ Lo) Hx ltac:(done)) as [Hn1 Hn2]. specialize (Hn2 ltac:(by rewrite Hxt)).
  cbn [task_mutex_free]. unfold get_mutex. rewrite Hx. cbn [mbind outcome_bind]. rewrite (first_waiter_ok g s KO o Ho). cbn [mbind outcome_bind]. destruct (head (wait g o)) as [w|] eqn:Eh.
  - destruct (handover INHERIT idle (Some t) o (upd own t l) g s w (owner_nested x) Lo Eh ltac:(lia)) as (g2 & s2 & k2 & y & Ew & Hk2 & Emu & Hy & Hws & _ & SO3 & OO3 & Hfull3 & F3 & A3 & Hinh3 & Hoth & Sp & _).
    rewrite Emu, Hx in Hy. injection Hy as <-. assert (w <> t) as Hwt by congruence. rewrite Ew. cbn [mbind outcome_bind]. pose proof (free_get o w s2 k2 x EI Hk2 ltac:(by rewrite Emu)) as Eg. follow Eg. set (s3 := given INHERIT o w k2 x (owner_nested x) s2) in *.
    assert (tasks s3 !! t = Some k) as Ht3. { unfold s3, given. rewrite EI. cbn. rewrite lookup_insert_ne by done. rewrite (proj2 (Hoth t (not_eq_sym Hwt))). done. }
    destruct (IH fuel (own_given INHERIT (upd own t l) o w) g2 s3 (m_list x)) as (own' & g' & s' & E & Dy' & Ht' & Hw' & Hn' & Ea' & El' & _ & Hoo).
    + split; try done. intros _ v Hv. apply (Hinh3 EI). congruence.
    + done.
    + unfold own_given. rewrite EI, upd_ne by done. by rewrite upd_eq.
    + unfold s3, given. rewrite EI. cbn. rewrite Emu. by apply held_insert.
    + cbn in Hf. lia.
    + exists own', g', s'. rewrite (proj1 (Hoth t (not_eq_sym Hwt))) in Hw'. destruct (tasks_only_fields _ _ (stp_only _ _ _ _ _ _ Sp)) as (_ & _ & _ & _ & Ea & Elk & _).
      split_and!; try done; [rewrite Ea'; unfold s3, given; rewrite EI; exact Ea|rewrite El'; unfold s3, given; rewrite EI; exact Elk|by left|]. intros o' y Hyt Hy. apply Hoo; [done|]. assert (o' <> o) by congruence. unfold s3, given, owner. rewrite EI. cbn. rewrite lookup_insert_ne by done. by rewrite Emu.
  - rewrite (upd_mutex_ok _ _ _ _ Hx). cbn [mbind outcome_bind]. fold (freed_mutex o x s). destruct (unowned INHERIT idle (Some t) o (upd own t l) g s x Lo Eh Hx Hn1) as (SO3 & OO3 & Hfull3 & F3 & A3 & Hinh3).
    destruct (IH fuel (upd own t l) g (freed_mutex o x s) (m_list x)) as (own' & g' & s' & E & Dy' & Ht' & Hw' & Hn' & Ea' & El' & _ & Hoo); [split; try done; intros _ v Hv; apply (Hinh3 EI); congruence|done|by rewrite upd_eq|unfold freed_mutex; cbn; by apply held_insert|cbn in Hf; lia|].
    exists own', g', s'. split_and!; try done; [by left|]. intros o' y Hyt Hy. apply Hoo; [done|]. assert (o' <> o) by congruence. unfold freed_mutex. by rewrite owner_insert_ne.
Qed.

(** The last step, for a task that does not wait. *)
Lemma dying_end own g s t k k1 g1 s1 :
  dying t own g s -> tasks s !! t = Some k -> t <> idle -> own t = [] -> (forall o, mutex_type s o -> owner s o <> Some t) -> waiting k = false -> ~ (t = g_active_task s /\ 0 < g_sched_lock s) ->
  step1 t k1 g s g1 s1 -> (t ∉ tmo g1) -> task_state k1 = K_DELETED -> prio k1 = prio k -> b_prio k1 = b_prio k -> mutex_list k1 = mutex_list k -> returns_inv (exit_sched s1).
Proof.
  intros [SO OO Hfull Hinh F A] Ht Hti Hown Hno Hwa Hact S1 Hn Hd Ep Eb Em. pose proof SO as [KO TO MO IO]. pose proof (s1_stp _ _ _ _ _ _ S1) as Sp. pose proof (sp_look _ _ _ _ _ _ Sp) as Ht1. destruct (io_other _ _ IO t k Ht Hti) as [Hp Hb].
  assert (waiting k1 = false) as Hwa1 by (unfold waiting; by rewrite Hd). assert (forall o, wh g1 t <> AtObj o) as Hw1 by (intros o; by apply (not_at g1 s1 t k1); [apply S1|..]). assert (forall o, wh g t <> AtObj o) as Hw by (intros o; by apply (not_at g s t k)).
  apply (ret_sched INHERIT idle own g1). destruct (awake_step t k1 g s g1 s1 Sp A) as [D1 L1]; [intros Hlo Ha; by destruct Hact|]. split; try done; [|apply (fresh_kept t k1 g s g1 s1 Sp F); by intros ?%Hn]. split.
  - apply (sok_dead INHERIT idle (Some t) own g1 s1 t k1); [|done|by right]. apply (sok_step INHERIT idle (Some t) own g s t k k1 g1 s1 SO Ht S1); try done; [lia|lia|by right|]. intros o Ho. by destruct (Hw1 o).
  - intros EI. apply (full_step own t k1 g s g1 s1 Sp). auto.
  - apply (ook_step g s KO t k1 g1 s1 S1 None OO). intros o b Ho. by destruct (Hw1 o).
  - intros EI y Hy. assert (y <> t) as Hyt by (intros ->; destruct Hy as (ky & Hky & Hly); congruence). apply (inh_step g s KO TO t k k1 Ht g1 s1 S1 own y Ep Eb).
    + intros o _. split; intros Ho; [by destruct (Hw1 o)|by destruct (Hw o)].
    + apply (Hinh EI y Hyt). destruct Hy as (ky & Hky & Hly). exists ky. by rewrite <- (sp_other _ _ _ _ _ _ y Sp Hyt).
Qed.

Lemma task_del_ok own g s t k :
  inv own g s -> tasks s !! t = Some k -> task_state k <> K_DELETED -> (INHERIT = false -> forall o, mutex_type s o -> owner s o <> Some t) -> returns_inv (krhino_task_del INHERIT t s).
Proof.
  intros I Ht Hl Hoff. unfold krhino_task_del. case_decide; [by eapply ret_done|]. rewrite (get_task_eq _ _ _ Ht). cbn [mbind outcome_bind]. pose proof (inv_unsched _ _ own g s I) as [[SO Hfull OO Hinh] F D L]. pose proof SO as [KO TO MO IO].
  case_decide as Hid; [by eapply ret_done|]. case_decide; [by eapply ret_done|]. case_decide as Hact; [by eapply ret_done|]. assert (t <> idle) as Hti by (by rewrite <- (idle_pri idle s t k IO Ht)).
  pose proof (mk_held _ _ _ _ _ _ MO t k Ht Hl ltac:(done)) as Hh. assert (dying t own g s) as Dy. { split; try done; [|by intros EI y _; apply (Hinh EI)]. split; try done. destruct MO as [M1 M2 M3 M4 M5 M6 M7 M8]. split; try done. intros y ky Hy Hly _. by apply M3. }
  destruct (mutex_free_ok t k (own t) (base.size (mutexes s)) own g s (mutex_list k) Dy Ht eq_refl Hh (held_size _ _ _ Hh (mk_nodup _ _ _ _ _ _ MO t))) as (own' & g' & s' & -> & Dy' & Ht' & Hwh & Hown & Ea & El & Hno' & _). cbn [mbind outcome_bind].
  rewrite (get_task_eq _ _ _ Ht'). cbn [mbind outcome_bind]. pose proof Dy' as [SO' OO' Hfull' Hinh' F' A']. pose proof SO' as [KO' TO' MO' IO']. assert (forall o, mutex_type s' o -> owner s' o <> Some t) as Hno.
  { intros o Hm Ho. destruct (Hno' o Hm Ho) as [EI|[Ho2 Hm2]]; [pose proof (proj1 (Hfull' EI) o t Hm Ho) as Hin; rewrite Hown in Hin; by apply elem_of_nil in Hin|]. destruct (decide (INHERIT = false)) as [EF|EI]; [by apply (Hoff EF o)|].
    apply not_false_is_true in EI. pose proof (proj1 (Hfull' EI) o t Hm Ho) as Hin. rewrite Hown in Hin. by apply elem_of_nil in Hin. }
  assert (~ (t = g_active_task s' /\ 0 < g_sched_lock s')) as Hact' by (by rewrite Ea, El).
  assert (Hend : forall k1 g1 s1, step1 t k1 g' s' g1 s1 -> t ∉ tmo g1 -> waiting k = false -> task_state k1 = K_DELETED -> prio k1 = prio k -> b_prio k1 = b_prio k -> mutex_list k1 = mutex_list k -> returns_inv (exit_sched s1)) by (intros k1 g1 s1 S1 Hn1 Hwa1 Hd1 E1 E2 E3; by apply (dying_end own' g' s' t k k1 g1 s1)).
  assert (Hpend : waiting k = true -> returns_inv (s ← tick_list_rm t s'; s ← with_links (klist_rm (NTask t)) s; s ← upd_task t (set_task_state K_DELETED) s; s ← mutex_task_pri_reset INHERIT t s; exit_sched s)).
  { intros Hwa. destruct (waiting_at g' s' KO' TO' t k Ht' Hwa) as (o & Ho & Hw & _). destruct (unwait_out g' s' KO' TO' t k Ht' (set_task_state K_DELETED) Hwa) as (g1 & s1 & E & S1 & Hn); [|done|].
    { split_and!; try done. apply (tk_why _ _ _ (to_task _ _ TO' t k Ht')). }
    follow E. pose proof (s1_stp _ _ _ _ _ _ S1) as Sp. destruct (unwait_reset INHERIT idle None (Some t) own' g' s' t k (set_task_state K_DELETED k) g1 s1 o SO' ltac:(by right) Hfull' OO' Ht' S1 Hw) as (g2 & s2 & -> & Hr & Hpo & Q2); try done.
    { right. by split. }
    { intros EI y Hy. assert (y <> t) as Hyt by (intros ->; destruct Hy as (ky & Hky & Hly); rewrite (sp_look _ _ _ _ _ _ Sp) in Hky; injection Hky as <-; done). apply (Hinh' EI y Hyt). destruct Hy as (ky & Hky & Hly). exists ky. by rewrite <- (sp_other _ _ _ _ _ _ y Sp Hyt). }
    cbn [mbind outcome_bind]. apply (ret_sched INHERIT idle own' g2). apply (unsched_changed INHERIT idle own' g1 s1 g2 s2 Hpo Hr Q2); [apply (fresh_kept t _ g' s' g1 s1 Sp F'); by intros ?%Hn|].
    apply (awake_step _ _ _ _ _ _ Sp A'). intros Hlo Ha. by destruct Hact'. }
  destruct (task_state k) eqn:Est; try done.
  - by destruct (tk_seed _ _ _ (to_task _ _ TO t k Ht)).
  - destruct (ready_out g' s' KO' TO' t k Ht' id (set_task_state K_DELETED) Est (idle_ready idle g' s' t TO' IO' Hti)) as (g1 & s1 & E & S1 & Hn); [split_and!; try done; apply (tk_why _ _ _ (to_task _ _ TO' t k Ht'))|done|done|].
    follow E. apply (Hend _ g1 s1 S1); try done. unfold waiting. by rewrite Est.
  - apply Hpend. unfold waiting. by rewrite Est.
  - assert (waiting k = false /\ sleeping k = false) as [Hwa Hsl] by (unfold waiting, sleeping; by rewrite Est). destruct (stp_upd _ _ _ _ _ _ (stp_refl t k g' s' KO' Ht') (set_task_state K_DELETED)) as (s1 & -> & Sp). cbn [mbind outcome_bind].
    destruct (freed_step g' s' KO' TO' t k Ht' _ g' s1 Sp) as [S1 Hn]; [split_and!; try done; apply (tk_why _ _ _ (to_task _ _ TO' t k Ht'))|rewrite (nowhere_at g' s' TO' t k Ht' Hwa); [done|by rewrite Est]|by apply (timeless g' s' TO' t k Ht')|]. by apply (Hend _ g' s1 S1).
  - apply Hpend. unfold waiting. by rewrite Est.
  - destruct (sleep_out g' s' KO' TO' t k Ht' id (set_task_state K_DELETED)) as (g1 & s1 & E & S1 & Hn); [unfold waiting; by rewrite Est|by rewrite Est|split_and!; try done; apply (tk_why _ _ _ (to_task _ _ TO' t k Ht'))|done|].
    follow E. apply (Hend _ g1 s1 S1); try done. unfold waiting. by rewrite Est.
  - destruct (sleep_out g' s' KO' TO' t k Ht' id (set_task_state K_DELETED)) as (g1 & s1 & E & S1 & Hn); [unfold waiting; by rewrite Est|by rewrite Est|split_and!; try done; apply (tk_why _ _ _ (to_task _ _ TO' t k Ht'))|done|].
    follow E. apply (Hend _ g1 s1 S1); try done. unfold waiting. by rewrite Est.
Qed.
End Calls.
