(* ===== verification/KRun.v ===== *)
(** * The start of the kernel, [components/rhino/k_sys.c], and its runs

    [krhino_init] and [krhino_start] from the memory as it is loaded, and the invariant in
    the state they leave: the idle task is the only one.  The other tasks the kernel makes for itself (timers,
    work queues, dynamic memory) are left out. *)

From stdpp Require Import gmap sorting.
From S2P Require Import Prelude KBits KList KKern KCalls KQueue KTasks KSteps KOwn KInherit KInv KCallsOk KSemOk KNew KUnwait KMutexCalls KRelease.

Definition set_g_sys_stat (v : Z) (s : kern) : kern :=
  Kern (lks s) (tasks s) (objs s) (sems s) (mutexes s) (rq s) (g_tick_count s) (g_active_task s) (g_preferred_ready_task s) (g_sched_lock s) (g_intrpt_nested_level s) v (g_idle_task_spawned s).

(** Memory of the kernel before anything runs: zeros. *)
Definition kern_zero : kern :=
  Kern {[NTickHead := Klist None None]} ∅ ∅ ∅ ∅ (Runqueue (replicate (Z.to_nat RHINO_CONFIG_PRI_MAX) None) (replicate (Z.to_nat NUM_WORDS) 0) 0) 0 0 0 0 0 0 0.

Definition tick_list_init (s : kern) : outcome kern := with_links (klist_init NTickHead) s.

(** [idle] is the address of [g_idle_task[0]]. *)
Definition krhino_init (idle : Z) (s : kern) : outcome (option Z * kern) :=
  let s := set_g_sys_stat RHINO_STOPPED s in
  let s := set_rq runqueue_init s in
  s ← tick_list_init s;
  '(_, s) ← krhino_task_create idle RHINO_IDLE_PRI 0 1 s;
  done_with RHINO_SUCCESS s.

(** [None]: the first task runs and the call never returns. *)
Definition krhino_start (s : kern) : outcome (option Z * kern) :=
  if decide (g_sys_stat s = RHINO_STOPPED) then
    p ← preferred_cpu_ready_task_get s;
    Ret (None, set_g_sys_stat RHINO_RUNNING (set_g_active_task p (set_g_preferred_ready_task p s)))
  else done_with RHINO_RUNNING s.

Definition boot (idle : Z) : outcome (option Z * kern) := '(_, s) ← krhino_init idle kern_zero; krhino_start s.

(** ** The invariant holds at the start *)

Definition no_ghost : ghost := Ghost (fun _ => Nowhere) (fun _ => []) [].

Lemma bit_none p : bit_at (task_bit_map runqueue_init) p = false.
Proof.
  unfold bit_at. change (task_bit_map runqueue_init) with (replicate 2 0). destruct (replicate 2 0 !! _) as [w|] eqn:E; [|done].
  apply lookup_replicate in E as [-> _]. by rewrite Z.bits_0.
Qed.

Lemma queued_none : queued runqueue_init no_ghost.
Proof.
  split; try done.
  - intros p Hp. cbn [cur_list_item runqueue_init]. apply lookup_replicate_2. change (Z.to_nat RHINO_CONFIG_PRI_MAX) with 62%nat. lia.
  - split; [done|]. apply Forall_replicate. lia.
  - intros p _. by rewrite bit_none.
Qed.

Definition kern_lists : kern := set_lks {[NTickHead := Klist (Some NTickHead) (Some NTickHead)]} (set_rq runqueue_init (set_g_sys_stat RHINO_STOPPED kern_zero)).

Lemma kok_none : kok no_ghost kern_lists.
Proof.
  split; [|split|exact queued_none].
  - split; try done; [|exact base.NoDup_nil_2|by intros t ?%elem_of_nil]. intros w. split; [exact base.NoDup_nil_2|]. intros t. split; [intros []%elem_of_nil|by intros [? <-]].
  - intros i. destruct i as [[|p|o]| |t]; cbn; done.
  - by intros t ?%elem_of_empty.
Qed.

Definition idle_task : ktask_t := Ktask 61 61 K_RDY BLK_FINISH None 0 None 0 0 50 50 KSCHED_RR 0 K_OBJ_STATIC_ALLOC.
Definition idle_ghost (idle : Z) : ghost := put (AtReady 61) [idle] idle (AtReady 61) no_ghost.

Lemma idle_wh idle x p : wh (idle_ghost idle) x = AtReady p -> x = idle /\ p = 61.
Proof. unfold idle_ghost, put, upd. cbn. case_decide; [|done]. by intros [= <-]. Qed.
Lemma idle_at idle x o : wh (idle_ghost idle) x <> AtObj o.
Proof. unfold idle_ghost, put, upd. cbn. by case_decide. Qed.

(** The kernel once it is initialised, but for the lists. *)
Definition kern_init (idle : Z) : kern := set_g_idle_task_spawned 1 (set_g_sys_stat RHINO_STOPPED (set_tasks {[idle := idle_task]} kern_zero)).

Lemma kern_init_ok idle : exists m q, krhino_init idle kern_zero = Ret (Some RHINO_SUCCESS, with_q m q (kern_init idle)) /\ kok (idle_ghost idle) (with_q m q (kern_init idle)).
Proof.
  unfold krhino_init, tick_list_init. change (with_links (klist_init NTickHead) (set_rq runqueue_init (set_g_sys_stat RHINO_STOPPED kern_zero))) with (Ret kern_lists). cbn [mbind outcome_bind].
  unfold krhino_task_create. rewrite decide_False by (unfold RHINO_IDLE_PRI, RHINO_CONFIG_PRI_MAX; lia). rewrite decide_False by done. rewrite decide_False by (by intros [_ ?]). rewrite !(decide_True (P := RHINO_IDLE_PRI = RHINO_IDLE_PRI)) by done. rewrite !(decide_True (P := 0 < 1)), !(decide_False (P := 0 < 0)) by done.
  destruct (new_task_links no_ghost kern_lists idle kok_none) as (m & E & _ & _ & Hp & Hl); [apply not_elem_of_empty|]. unfold with_links at 1. cbn [lks set_lks set_tasks set_g_idle_task_spawned].
  change (lks (set_g_idle_task_spawned 1 kern_lists)) with (lks kern_lists). rewrite E. cbn [mbind outcome_bind].
  set (s := set_lks m _). assert (kok no_ghost s) as K. { assert (dom (tasks s) = {[idle]} ∪ dom (tasks kern_lists)) as Ed by (cbn; by rewrite dom_insert_L). split; rewrite ?Ed; [exact Hp|exact Hl|exact queued_none]. }
  destruct (ready_add_tail_ok no_ghost s K idle idle_task) as (m' & q & -> & K'); [apply lookup_insert_eq|done|done|]. cbn [mbind outcome_bind]. cbn [mbind outcome_bind]. rewrite (decide_True (P := 0 < 1)) by done. rewrite decide_False by (intros H; vm_compute in H; done). by exists m', q.
Qed.

Lemma boot_ok INHERIT idle : exists s, boot idle = Ret (None, s) /\ inv INHERIT idle (fun _ => []) (idle_ghost idle) s /\ g_active_task s = idle /\ tasks s = {[idle := idle_task]} /\ objs s = ∅.
Proof.
  unfold boot. destruct (kern_init_ok idle) as (m & q & -> & K). cbn [mbind outcome_bind]. unfold krhino_start. rewrite decide_True by done.
  destruct (preferred_ok (idle_ghost idle) _ K) as (t & l & p & -> & _ & _ & El & _); [exists idle, 61; unfold idle_ghost, put, upd; cbn; by rewrite decide_True|]. cbn [mbind outcome_bind].
  destruct (idle_wh idle t p) as [-> ->]; [apply (in_wh _ _ _ (ko_placed _ _ K)); rewrite El; by left|]. eexists. split; [done|]. split; [|done]. destruct K as [P L Q].
  set (s' := set_g_sys_stat _ _). assert (forall x k, tasks s' !! x = Some k -> x = idle /\ k = idle_task) as Hk by (intros x k Hx; change (({[idle := idle_task]} : gmap Z ktask_t) !! x = Some k) in Hx; by apply lookup_singleton_Some in Hx as [<- <-]).
  assert (kok (idle_ghost idle) s') as K by (by split). assert (forall o x, mutexes s' !! o = Some x -> False) as Hm by (intros o x Hx; by rewrite (lookup_empty o : mutexes s' !! o = None) in Hx). assert (forall o b, objs s' !! o = Some b -> False) as Ho by (intros o b Hb; by rewrite (lookup_empty o : objs s' !! o = None) in Hb).
  split; [split; [split; [done| | |]| | |]| |].
  - split; try done.
    + intros x k [-> ->]%Hk. split; try done; [|by intros []%elem_of_nil]. unfold idle_ghost, put, upd. cbn. by rewrite decide_True.
    + intros o. constructor.
    + constructor.
  - assert (forall o, ~ mutex_type s' o) as Hty by (intros o (b & Hb & _)%fmap_Some; by destruct (Ho o b)).
    split; [by intros o b ?%Ho|by intros o ?%Hty|by intros t k [-> ->]%Hk|intros; exact base.NoDup_nil_2|by intros t o ?%elem_of_nil|by intros o t ?%Hty|by intros t o ?%Hty|by intros t o ?%elem_of_nil].
  - split; [|by intros t k [-> ->]%Hk|done]. exists idle_task. split; [apply lookup_singleton_eq|done].
  - intros _. split; [intros o x (b & Hb & _)%fmap_Some; by destruct (Ho o b)|by intros o x ?%elem_of_nil].
  - by split; [intros t o b Hw; by destruct (idle_at idle t o)|intros o b x Hb; by destruct (Ho o b)|intros o x _ Hx; by destruct (Hm o x)|..].
  - intros _ x (k & [-> ->]%Hk & _). unfold inh, prio_of, b_of. by rewrite (lookup_singleton_eq idle idle_task : tasks s' !! idle = _).
  - by intros t ?%elem_of_nil.
  - split; [intros _; exists idle_task; split; [apply lookup_singleton_eq|done]|apply elem_of_dom; exists idle_task; apply lookup_singleton_eq|].
    intros _ _ _. exists 61, []. split; [done|]. by intros y p [-> ->]%idle_wh.
Qed.

(** ** Runs of the kernel

    A run is the start of the kernel and then calls, one after the other: from the task
    that runs, from interrupts, and the tick.  [allowed] is what a caller has to see to.  The
    invariant holds along every run. *)

Inductive call :=
  | SchedDisable | SchedEnable | IntrptEnter | IntrptExit | Tick
  | TaskCreate (t pri ticks autorun : Z) | TaskSleep (ticks : Z) | TaskYield | TaskSuspend (t : Z) | TaskResume (t : Z)
  | TaskTimeSliceSet (t slice : Z) | TaskPriChange (t pri : Z) | TaskWaitAbort (t : Z) | TaskCancel (t : Z) | TaskDel (t : Z)
  | SemCreate (o n : Z) | SemDel (o : Z) | SemGive (o : Z) | SemGiveAll (o : Z) | SemTake (o ticks : Z) | SemCountSet (o n : Z)
  | MutexCreate (o : Z) | MutexDel (o : Z) | MutexLock (o ticks : Z) | MutexUnlock (o : Z).

(** A function without a result. *)
Definition void (m : outcome kern) : outcome (option Z * kern) := s ← m; done_with RHINO_SUCCESS s.

Definition exists_in {A} (m : gmap Z A) (x : Z) : Prop := m !! x <> None.

Section Run.
Context (INHERIT : bool) (idle : Z).

Definition run_call (c : call) (s : kern) : outcome (option Z * kern) :=
  match c with
  | SchedDisable => krhino_sched_disable s
  | SchedEnable => krhino_sched_enable s
  | IntrptEnter => done_with RHINO_SUCCESS (krhino_intrpt_enter s)
  | IntrptExit => void (krhino_intrpt_exit s)
  | Tick => void (krhino_tick_proc INHERIT s)
  | TaskCreate t pri ticks autorun => krhino_task_create t pri ticks autorun s
  | TaskSleep ticks => krhino_task_sleep ticks s
  | TaskYield => krhino_task_yield s
  | TaskSuspend t => krhino_task_suspend t s
  | TaskResume t => krhino_task_resume t s
  | TaskTimeSliceSet t slice => krhino_task_time_slice_set t slice s
  | TaskPriChange t pri => krhino_task_pri_change INHERIT t pri s
  | TaskWaitAbort t => krhino_task_wait_abort INHERIT t s
  | TaskCancel t => krhino_task_cancel INHERIT t s
  | TaskDel t => krhino_task_del INHERIT t s
  | SemCreate o n => krhino_sem_create o n s
  | SemDel o => krhino_sem_del o s
  | SemGive o => krhino_sem_give o s
  | SemGiveAll o => krhino_sem_give_all o s
  | SemTake o ticks => krhino_sem_take o ticks s
  | SemCountSet o n => krhino_sem_count_set o n s
  | MutexCreate o => krhino_mutex_create o s
  | MutexDel o => krhino_mutex_del INHERIT o s
  | MutexLock o ticks => krhino_mutex_lock INHERIT o ticks s
  | MutexUnlock o => krhino_mutex_unlock INHERIT o s
  end.

Definition deleted (s : kern) (t : Z) : Prop := exists k, tasks s !! t = Some k /\ task_state k = K_DELETED.

(** Pointers are to tasks and objects that were created; the idle task does not block; new
    ones have memory of their own; times stay below [2^62] ticks; interrupts nest less than
    256 deep and mutexes less than [2^32 - 1] deep; the tick and the end of an interrupt are inside one; a
    task is deleted once, and only without mutexes when nothing is inherited. *)
Definition allowed (c : call) (s : kern) : Prop :=
  match c with
  | SchedDisable | SchedEnable => True
  | IntrptEnter => g_intrpt_nested_level s < 255
  | IntrptExit => 0 < g_intrpt_nested_level s
  | Tick => 0 < g_intrpt_nested_level s /\ g_tick_count s + 1 < 2 ^ 62
  | TaskCreate t pri _ _ => ~ exists_in (tasks s) t /\ 0 <= pri
  | TaskSleep ticks => g_active_task s <> idle /\ 0 <= ticks <= 2 ^ 62
  | TaskYield => g_intrpt_nested_level s = 0
  | TaskSuspend t | TaskResume t | TaskTimeSliceSet t _ | TaskWaitAbort t | TaskCancel t => exists_in (tasks s) t
  | TaskPriChange t pri => exists_in (tasks s) t /\ 0 <= pri
  | TaskDel t => exists_in (tasks s) t /\ ~ deleted s t /\ (INHERIT = false -> forall o, mutex_type s o -> owner s o <> Some t)
  | SemCreate o n => obj_free o s /\ 0 <= n < 2 ^ 32
  | SemDel o | SemGive o | SemGiveAll o | MutexDel o | MutexUnlock o => exists_in (objs s) o
  | SemTake o ticks => exists_in (objs s) o /\ g_active_task s <> idle /\ ticks_ok ticks
  | SemCountSet o n => exists_in (objs s) o /\ 0 <= n < 2 ^ 32
  | MutexCreate o => obj_free o s
  | MutexLock o ticks => exists_in (objs s) o /\ g_active_task s <> idle /\ ticks_ok ticks /\ forall x, mutexes s !! o = Some x -> owner_nested x < 2 ^ 32 - 1
  end.

(** The states of the kernel between two calls. *)
Inductive reachable : kern -> Prop :=
  | reach_boot s : boot idle = Ret (None, s) -> reachable s
  | reach_call c s r s' : reachable s -> allowed c s -> run_call c s = Ret (r, s') -> reachable s'.

Lemma void_ok m own : (exists g s, m = Ret s /\ inv INHERIT idle own g s) -> returns_inv INHERIT idle (void m).
Proof. intros (g & s & -> & I). by eapply ret_done. Qed.

Lemma some_of {A} (m : gmap Z A) x : exists_in m x -> exists a, m !! x = Some a.
Proof. unfold exists_in. destruct (m !! x); eauto. done. Qed.

Lemma call_ok c own g s : inv INHERIT idle own g s -> allowed c s -> returns_inv INHERIT idle (run_call c s).
Proof.
  intros I. destruct c; cbn [allowed run_call]; intros H; destruct_and? H; repeat match goal with H : exists_in _ _ |- _ => apply some_of in H as [? ?] end.
  - by eapply sched_disable_ok.
  - by eapply sched_enable_ok.
  - eapply ret_done. by apply (intrpt_enter_ok INHERIT idle own g).
  - apply (void_ok _ own). exists g. by apply intrpt_exit_ok.
  - apply (void_ok _ own). by apply (tick_proc_ok INHERIT idle own g).
  - apply (task_create_ok INHERIT idle own g); [done| |done]. intros [k Hk]%elem_of_dom. match goal with H : ~ exists_in _ _ |- _ => apply H end. unfold exists_in. by rewrite Hk.
  - by apply (task_sleep_ok INHERIT idle own g).
  - by apply (task_yield_ok INHERIT idle own g).
  - by eapply task_suspend_ok.
  - by eapply task_resume_ok.
  - by eapply time_slice_set_ok.
  - by eapply task_pri_change_call.
  - by eapply task_wait_abort_ok.
  - by eapply task_cancel_ok.
  - eapply task_del_ok; [done|done| |done]. intros Hst. match goal with H : ~ deleted _ _ |- _ => apply H end. by eexists.
  - by apply (sem_create_ok INHERIT idle own g).
  - by eapply sem_del_ok.
  - by eapply sem_give_ok.
  - by eapply sem_give_ok.
  - by eapply sem_take_ok.
  - by eapply sem_count_set_ok.
  - by apply (mutex_create_ok INHERIT idle own g).
  - by eapply mutex_del_ok.
  - by eapply mutex_lock_ok.
  - by eapply mutex_unlock_ok.
Qed.

(** ** Runs that can be computed *)

#[export] Instance exists_in_dec {A} (m : gmap Z A) x : Decision (exists_in m x).
Proof. unfold exists_in. destruct (m !! x); [left; done|right; by intros H]. Defined.
#[export] Instance deleted_dec s t : Decision (deleted s t).
Proof.
  unfold deleted. destruct (tasks s !! t) as [k|]; [|right; by intros (k & ? & _)].
  destruct (decide (task_state k = K_DELETED)); [left; by exists k|right; by intros (k' & [= <-] & ?)].
Defined.
#[export] Instance obj_free_dec o s : Decision (obj_free o s).
Proof. unfold obj_free. destruct (objs s !! o); apply _. Defined.
#[export] Instance ticks_ok_dec n : Decision (ticks_ok n).
Proof. unfold ticks_ok. apply _. Defined.

Lemma unowned_by s t : (forall o, mutex_type s o -> owner s o <> Some t) <-> map_Forall (fun o x => mutex_type s o -> mutex_task x <> Some t) (mutexes s).
Proof.
  unfold map_Forall, owner. split; intros H.
  - intros o x Hx Hm. specialize (H o Hm). by rewrite Hx in H.
  - intros o Hm. destruct (mutexes s !! o) as [x|] eqn:Hx; [|done]. by apply (H o x).
Qed.

#[export] Instance unowned_dec s t : Decision (forall o, mutex_type s o -> owner s o <> Some t).
Proof. destruct (decide (map_Forall (fun o x => mutex_type s o -> mutex_task x <> Some t) (mutexes s))) as [H|H]; [left; by apply unowned_by|right; by intros ?%unowned_by]. Defined.
#[export] Instance nest_dec s o : Decision (forall x, mutexes s !! o = Some x -> owner_nested x < 2 ^ 32 - 1).
Proof.
  destruct (mutexes s !! o) as [x|]; [|by left]. destruct (decide (owner_nested x < 2 ^ 32 - 1)); [left; by intros y [= <-]|right]. intros H. by specialize (H x eq_refl).
Defined.

#[export] Instance allowed_dec c s : Decision (allowed c s).
Proof. destruct c; cbn [allowed]; apply _. Defined.

(** The results of a run of allowed calls and its last state. *)
Fixpoint run_trace (l : list call) (s : kern) : option (list (option Z) * kern) :=
  match l with
  | [] => Some ([], s)
  | c :: l =>
      if decide (allowed c s) then
        match run_call c s with
        | Ret (r, s) => match run_trace l s with Some (rs, s) => Some (r :: rs, s) | None => None end
        | Crash => None
        end
      else None
  end.

Definition booted : kern := match boot idle with Ret (_, s) => s | Crash => kern_zero end.

Lemma trace_reachable l : forall s rs s', reachable s -> run_trace l s = Some (rs, s') -> reachable s'.
Proof.
  induction l as [|c l IH]; intros s rs s' R; cbn [run_trace]; [by intros [= _ <-]|]. case_decide as Ha; [|done]. destruct (run_call c s) as [[r s1]|] eqn:E; [|done].
  destruct (run_trace l s1) as [[rs2 s2]|] eqn:E2; [|done]. intros [= _ <-]. apply (IH s1 rs2 s2); [|done]. by eapply reach_call.
Qed.

Lemma booted_reachable : reachable booted.
Proof. destruct (boot_ok INHERIT idle) as (s & E & _). unfold booted. rewrite E. by constructor. Qed.

(** The state after a run. *)
Definition after (l : list call) : kern := match run_trace l booted with Some (_, s) => s | None => kern_zero end.

Lemma after_reachable l : match run_trace l booted with Some _ => true | None => false end = true -> reachable (after l).
Proof. unfold after. destruct (run_trace l booted) as [[rs s]|] eqn:E; [|done]. intros _. by apply (trace_reachable l booted rs s booted_reachable). Qed.

Lemma reachable_inv s : reachable s -> exists own g, inv INHERIT idle own g s.
Proof.
  induction 1 as [s H|c s r s' _ (own & g & I) Ha Hc].
  - destruct (boot_ok INHERIT idle) as (s' & E & I & _). rewrite E in H. injection H as <-. by eexists _, _.
  - destruct (call_ok c own g s I Ha) as (r' & s1 & own' & g' & E & I'). rewrite E in Hc. injection Hc as _ <-. by eexists _, _.
Qed.
End Run.
