(* ===== verification/KView.v ===== *)
(** * What the invariant says of the records of the kernel

    Waiting, timeouts and owners as they can be read from the state, without the lists
    of tasks that the invariant keeps beside it; and which calls take a mutex from its
    owner. *)

From stdpp Require Import gmap sorting.
From S2P Require Import Prelude KBits KList KKern KCalls KQueue KTasks KSteps KOwn KInherit KInv KCallsOk KSemOk KNew KUnwait KMutexCalls KRelease KRun.

(** [w] waits for the object [o]. *)
Definition waits_for (s : kern) (w o : Z) : Prop := exists k, tasks s !! w = Some k /\ waiting k = true /\ blk_obj k = Some o.
(** [w] waits for a mutex of [t]. *)
Definition blocks (s : kern) (t w : Z) : Prop := exists o, waits_for s w o /\ mutex_type s o /\ owner s o = Some t.
(** The task is in the list of timeouts. *)
Definition timed (s : kern) (t : Z) : Prop := nxt (lks s) (NTick t) <> Some (NTick t).

#[export] Instance timed_dec s t : Decision (timed s t).
Proof. unfold timed. apply _. Defined.

Lemma prio_of_eq s t k : tasks s !! t = Some k -> prio_of s t = prio k.
Proof. intros H. unfold prio_of. by rewrite H. Qed.

Lemma waits_at g s w o : kok g s -> tok g s -> wh g w = AtObj o <-> waits_for s w o.
Proof.
  intros KO TO. split.
  - intros Hw. assert (w ∈ dom (tasks s)) as [k Hk]%elem_of_dom by (apply (pl_task _ _ _ (ko_placed _ _ KO)); congruence). exists k. destruct (wh_blk g s w k o TO Hk Hw) as [H1 H2]. done.
  - intros (k & Hk & Hw & Ho). rewrite (tk_place _ _ _ (to_task _ _ TO w k Hk)). unfold place_of, waiting in *. destruct (task_state k); try done; by rewrite Ho.
Qed.

Lemma waits_in g s w o : kok g s -> tok g s -> w ∈ wait g o <-> waits_for s w o.
Proof. intros KO TO. rewrite <- (waits_at g s) by done. pose proof (ko_placed _ _ KO) as P. split; [apply (in_wh _ _ _ P)|by apply (wh_in _ _ _ P)]. Qed.

Lemma timed_in g s t : kok g s -> t ∈ dom (tasks s) -> timed s t <-> t ∈ tmo g.
Proof.
  intros [P L Q] Ht. unfold timed. destruct (decide (t ∈ tmo g)) as [Hin|Hn].
  - split; [done|]. intros _ E. apply list_elem_of_split in Hin as (l1 & l2 & El). pose proof (ln_ring _ _ _ _ L ITick) as R. pose proof (pl_tmo _ _ _ P) as Nd. cbn [rings] in R. rewrite El in R, Nd.
    rewrite (ring_next (lks s) NTickHead (NTick <$> (l1 ++ t :: l2)) (NTickHead :: (NTick <$> l1)) (NTick t) (NTick <$> l2) R ltac:(by rewrite fmap_app)) in E.
    destruct l2 as [|x l2]; [done|]. injection E as ->. apply list.NoDup_app in Nd as (_ & _ & Nd). apply list.NoDup_cons in Nd as [Nd _]. apply Nd. by left.
  - split; [|done]. intros []. pose proof (ln_ring _ _ _ _ L (ISelf t)) as R. cbn [rings] in R. rewrite decide_True in R by done. by destruct R as [_ [R _]].
Qed.

(** ** Reachable states *)

Section View.
Context (INHERIT : bool) (idle : Z) (own : Z -> list Z) (g : ghost) (s : kern) (I : inv INHERIT idle own g s).

Lemma view_k : kok g s.
Proof. apply (in_q _ _ _ _ _ I). Qed.
Lemma view_t : tok g s.
Proof. apply (in_q _ _ _ _ _ I). Qed.
Lemma view_m : mok INHERIT idle None own g s.
Proof. apply (in_q _ _ _ _ _ I). Qed.
Lemma view_o : ook None g s.
Proof. apply (in_q _ _ _ _ _ I). Qed.

Lemma view_best :
  INHERIT = true -> g_intrpt_nested_level s = 0 -> g_sched_lock s = 0 ->
  exists k, tasks s !! g_active_task s = Some k /\ task_state k = K_RDY /\ forall t k', tasks s !! t = Some k' -> task_state k' = K_RDY -> prio k <= prio k'.
Proof.
  intros EI Hn Hl. destruct (ru_best _ _ _ (in_run _ _ _ _ _ I) EI Hn Hl) as (p & l & El & Hmin). destruct (ru_ready _ _ _ (in_run _ _ _ _ _ I)) as (k & Hk & Hst); [by left|]. exists k. split_and!; try done.
  intros t k' Hk' Hst'. destruct (ready_at g s view_t t k' Hk' Hst') as [Hw _]. destruct (ready_at g s view_t _ k Hk Hst) as [Hw0 _].
  assert (AtReady (prio k) = AtReady p) as [= ->] by (rewrite <- Hw0; apply (in_wh _ _ _ (ko_placed _ _ view_k)); rewrite El; by left). by apply (Hmin t).
Qed.

(** What a task inherits. *)
Lemma view_inherits t k : INHERIT = true -> tasks s !! t = Some k -> task_state k <> K_DELETED -> forall x, x <= prio k <-> x <= b_prio k /\ forall w, blocks s t w -> x <= prio_of s w.
Proof.
  intros EI Hk Hl x. pose proof (qo_inh _ _ _ _ _ _ (in_q _ _ _ _ _ I) EI t ltac:(by exists k)) as E. unfold inh in E. rewrite (prio_of_eq s t k Hk) in E. unfold b_of in E. rewrite Hk in E. rewrite E, (le_eff _ _ _ _ _ view_t).
  destruct (qo_full _ _ _ _ _ _ (in_q _ _ _ _ _ I) EI) as [F1 F2]. split; intros [Hb H]; (split; [done|]).
  - intros w (o & Hw & Hty & Ho). apply (H o); [by apply F1|]. by apply (waits_in g s w o view_k view_t).
  - intros o w Ho Hw. apply H. exists o. split_and!; [by apply (waits_in g s w o view_k view_t)|by apply (F2 o t)|]. by destruct (mk_own _ _ _ _ _ _ view_m t o Ho) as (_ & ? & _).
Qed.

Lemma view_le t k w : INHERIT = true -> tasks s !! t = Some k -> task_state k <> K_DELETED -> blocks s t w -> prio k <= prio_of s w.
Proof. intros EI Hk Hl Hw. by apply (view_inherits t k EI Hk Hl (prio k)). Qed.

Lemma blocks_live t w : blocks s t w -> live s t /\ live s w.
Proof.
  intros (o & (k & Hk & Hwa & _) & Hty & Ho). split; [by destruct (mk_live _ _ _ _ _ _ view_m o t Hty Ho)|]. exists k. split; [done|]. unfold waiting in Hwa. by destruct (task_state k).
Qed.

(** A task that is waited for, however indirectly, is as urgent as the one that waits. *)
Lemma view_chain t w : INHERIT = true -> tc (blocks s) t w -> prio_of s t <= prio_of s w.
Proof.
  intros EI. induction 1 as [t w H|t y w H _ IH].
  - destruct (blocks_live t w H) as [(k & Hk & Hl) _]. rewrite (prio_of_eq s t k Hk). by apply (view_le t k w).
  - destruct (blocks_live t y H) as [(k & Hk & Hl) _]. etrans; [|exact IH]. rewrite (prio_of_eq s t k Hk). by apply (view_le t k y).
Qed.

Lemma view_wait w o b : waits_for s w o -> objs s !! o = Some b ->
  (obj_type b = RHINO_SEM_OBJ_TYPE /\ exists x, sems s !! o = Some x /\ sem_count x = 0) \/
  (obj_type b = RHINO_MUTEX_OBJ_TYPE /\ exists t, owner s o = Some t /\ t <> w /\ live s t).
Proof.
  intros Hw Hb. apply (waits_at g s w o view_k view_t) in Hw. pose proof (oo_none _ _ _ view_o w o b Hw Hb ltac:(done)) as Hn. destruct (obj_type b) eqn:Ety; [done| |].
  - left. split; [done|]. destruct (mk_sem _ _ _ _ _ _ view_m o b Hb Ety) as [x Hx]. exists x. split; [done|]. by apply (oo_sem _ _ _ view_o o b x Hb Ety Hx) with (t := w).
  - right. split; [done|]. pose proof (mutex_of_type s o b Hb Ety) as Hty. destruct (mk_wait _ _ _ _ _ _ view_m w o Hty Hw) as [[t Ht] Hne]. exists t. split; [done|]. split; [congruence|]. by destruct (mk_live _ _ _ _ _ _ view_m o t Hty Ht).
Qed.

Lemma view_obj w o : waits_for s w o -> exists b, objs s !! o = Some b.
Proof. intros Hw. apply (waits_at g s w o view_k view_t) in Hw. apply (pl_obj _ _ _ (ko_placed _ _ view_k)) in Hw. by apply elem_of_dom in Hw. Qed.
End View.

(** ** What a call does to the other tasks *)

(** The scheduler only chooses who runs. *)
Definition same_but_run (s s' : kern) : Prop := set_g_active_task 0 (set_g_preferred_ready_task 0 s') = set_g_active_task 0 (set_g_preferred_ready_task 0 s).

Lemma same_fields s s' : same_but_run s s' -> tasks s' = tasks s /\ objs s' = objs s /\ sems s' = sems s /\ mutexes s' = mutexes s /\ lks s' = lks s /\ g_tick_count s' = g_tick_count s.
Proof. intros E. destruct s, s'. by injection E. Qed.

Section Exit.
Context (INHERIT : bool) (idle : Z).

Lemma exit_run own g s : unsched INHERIT idle None own g s -> exists s', exit_sched s = Ret (Some RHINO_SUCCESS, s') /\ same_but_run s s' /\ inv INHERIT idle own g s'.
Proof. intros [Q F D L]. unfold exit_sched. destruct (sched_exit INHERIT idle own g s Q F D L) as (a & -> & I). by eexists. Qed.

(** A semaphore is given to one waiter, or to all. *)
Lemma sem_give_run own g s o b x w :
  inv INHERIT idle own g s -> objs s !! o = Some b -> obj_type b = RHINO_SEM_OBJ_TYPE -> sems s !! o = Some x -> head (wait g o) = Some w ->
  (exists s' k, krhino_sem_give o s = Ret (Some RHINO_SUCCESS, s') /\ sems s' = sems s /\ tasks s !! w = Some k /\ tasks s' = <[w := left_wait k BLK_FINISH]> (tasks s)) /\
  (exists s', krhino_sem_give_all o s = Ret (Some RHINO_SUCCESS, s') /\ sems s' = sems s /\
    forall t k, tasks s !! t = Some k -> tasks s' !! t = Some (if decide (t ∈ wait g o) then left_wait k BLK_FINISH else k)).
Proof.
  intros I Hb Hty Hx Eh. pose proof (inv_unsched _ _ own g s I) as U. pose proof U as [[[KO TO MO IO] _ OO _] _ _ _]. assert (o ∈ dom (objs s)) as Ho by (by apply elem_of_dom). pose proof (sem_not_mutex s o b Hb Hty) as Hm.
  assert (w ∈ wait g o) as Hin by (by apply head_Some_elem_of). destruct (wait_task INHERIT idle None own g s o w U Hin) as (Hw & k & Hk).
  assert (forall all, sem_give o all s = (s ← (if all then drain pend_task_wakeup (base.size (lks s)) o s else pend_task_wakeup w s); exit_sched s)) as E.
  { intros all. unfold sem_give. rewrite (get_obj_eq _ _ _ Hb). cbn [mbind outcome_bind]. rewrite decide_False by (intros H; by apply H). rewrite (get_sem_eq _ _ _ Hx). cbn [mbind outcome_bind]. rewrite (first_waiter_ok g s KO o Ho), Eh. done. }
  unfold krhino_sem_give, krhino_sem_give_all. rewrite !E. change pend_task_wakeup with (pend_leave BLK_FINISH). split.
  - destruct (leave_ok INHERIT idle None own g s w k o BLK_FINISH U Hk Hw Hm ltac:(done)) as (g1 & s1 & -> & U1 & Sp & _). cbn [mbind outcome_bind]. destruct (exit_run own g1 s1 U1) as (s' & -> & Sm & _). destruct (same_fields s1 s' Sm) as (E1 & _ & E2 & _).
    exists s', k. destruct (tasks_only_fields _ _ (stp_only _ _ _ _ _ _ Sp)) as (_ & E3 & _). split_and!; [done|congruence|done|]. by rewrite E1, (sp_tasks _ _ _ _ _ _ Sp).
  - destruct (drain_ok INHERIT idle BLK_FINISH None own o ltac:(done) (base.size (lks s)) g s U Ho Hm (wait_fuel g s o KO Ho)) as (g1 & s1 & -> & U1 & _ & To & H1 & H2). cbn [mbind outcome_bind].
    destruct (exit_run own g1 s1 U1) as (s' & -> & Sm & _). destruct (same_fields s1 s' Sm) as (E1 & _ & E2 & _). exists s'. destruct (tasks_only_fields _ _ To) as (_ & E3 & _). split_and!; [done|congruence|].
    intros t kt Ht. rewrite E1. case_decide; [by apply H1|by rewrite H2].
Qed.

(** With nobody waiting the count goes up. *)
Lemma sem_give_count own g s o b x :
  inv INHERIT idle own g s -> objs s !! o = Some b -> obj_type b = RHINO_SEM_OBJ_TYPE -> sems s !! o = Some x -> head (wait g o) = None -> sem_count x < 2 ^ 32 - 1 ->
  exists s' x', krhino_sem_give o s = Ret (Some RHINO_SUCCESS, s') /\ tasks s' = tasks s /\ sems s' !! o = Some x' /\ sem_count x' = sem_count x + 1.
Proof.
  intros I Hb Hty Hx Eh Hn. pose proof (inv_unsched _ _ own g s I) as [[[KO TO MO IO] _ OO _] _ _ _]. assert (o ∈ dom (objs s)) as Ho by (by apply elem_of_dom).
  unfold krhino_sem_give, sem_give. rewrite (get_obj_eq _ _ _ Hb). cbn [mbind outcome_bind]. rewrite decide_False by (intros H; by apply H). rewrite (get_sem_eq _ _ _ Hx). cbn [mbind outcome_bind]. rewrite (first_waiter_ok g s KO o Ho), Eh. cbn [mbind outcome_bind].
  rewrite decide_False by lia. cbn zeta. unfold upd_sem. rewrite (get_sem_eq _ _ _ Hx). cbn [mbind outcome_bind]. eexists _, _. split; [done|]. split; [done|]. cbn. by rewrite lookup_insert_eq.
Qed.
End Exit.

(** ** Who owns a mutex

    A mutex keeps its owner through every call that is not about it.  [post] is a
    postcondition of a computation that may crash; the hints of [frame] say that a function of
    the kernel leaves the owner [t] of the mutex [o] alone. *)

Definition post {A} (Q : A -> Prop) (m : outcome A) : Prop := match m with Ret a => Q a | Crash => True end.

Lemma post_bind {A B} (R : A -> Prop) (Q : B -> Prop) (m : outcome A) (f : A -> outcome B) : post R m -> (forall a, R a -> post Q (f a)) -> post Q (m ≫= f).
Proof. destruct m as [a|]; cbn; auto. Qed.
Lemma post_read {A B} (Q : B -> Prop) (m : outcome A) (f : A -> outcome B) : (forall a, m = Ret a -> post Q (f a)) -> post Q (m ≫= f).
Proof. destruct m as [a|]; cbn; auto. Qed.

Create HintDb frame.

Section Frame.
Context (o t : Z).

Definition owns (s : kern) : Prop := owner s o = Some t.
Abbreviation keeps := (post owns).
Abbreviation keeps2 := (post (fun p => owns p.2)).

(** One function after the other; those that only read come first. *)
Ltac frame_step :=
  match goal with
  | |- post _ (Ret (if decide _ then _ else _)) => case_decide
  | |- post _ (Ret (match ?x with _ => _ end, _)) => destruct x
  | |- post _ (Ret _) => solve [eauto with frame]
  | |- post _ Crash => exact I
  | |- post _ (done_with _ _) => solve [eauto with frame]
  | |- post _ (mbind _ ?m) => first
      [ eapply (post_bind owns); [solve [eauto 3 with frame]|intros ? ?]
      | eapply (post_bind (fun p => owns p.2)); [solve [eauto 3 with frame]|intros [? ?] ?]
      | match type of m with outcome kern => fail 1 | outcome (_ * kern) => fail 1 | _ => idtac end; apply post_read; intros ? ?
      | eapply (post_bind owns); [|intros ? ?] ]
  | |- post _ (if decide _ then _ else _) => case_decide
  | |- post _ (match ?x with _ => _ end) => destruct x eqn:?
  | |- post _ _ => solve [eauto 3 with frame]
  end.
Hint Extern 1 (owns _) => match goal with H : owns _ |- _ => exact H end : frame.
Hint Extern 1 (owns (if decide _ then _ else _)) => case_decide : frame.
Hint Extern 1 (post owns (Ret _)) => match goal with H : owns _ |- _ => exact H end : frame.
Hint Extern 1 (post _ (Ret (_, _))) => match goal with H : owns _ |- _ => exact H end : frame.
Hint Extern 1 (post _ (done_with _ _)) => match goal with H : owns _ |- _ => exact H end : frame.
Ltac frame := repeat (cbn zeta; frame_step).

Lemma upd_task_keeps x f s : owns s -> keeps (upd_task x f s).
Proof. intros H. unfold upd_task. destruct (get_task x s); cbn; done. Qed.
Lemma upd_obj_keeps x f s : owns s -> keeps (upd_obj x f s).
Proof. intros H. unfold upd_obj. destruct (get_obj x s); cbn; done. Qed.
Lemma upd_sem_keeps x f s : owns s -> keeps (upd_sem x f s).
Proof. intros H. unfold upd_sem. destruct (get_sem x s); cbn; done. Qed.
Lemma with_links_keeps f s : owns s -> keeps (with_links f s).
Proof. intros H. unfold with_links. destruct (f (lks s)); cbn; done. Qed.
Hint Resolve upd_task_keeps upd_obj_keeps upd_sem_keeps with_links_keeps : frame.

(** A write that leaves the owner in place. *)
Lemma upd_mutex_keeps x f s : (forall k, mutex_task (f k) = mutex_task k) \/ x <> o -> owns s -> keeps (upd_mutex x f s).
Proof.
  intros Hf H. unfold upd_mutex, get_mutex. destruct (mutexes s !! x) as [k|] eqn:E; [|done]. cbn. unfold owns, owner in *. cbn. destruct (decide (o = x)) as [->|Hne]; [|by rewrite lookup_insert_ne].
  rewrite lookup_insert_eq. destruct Hf as [Hf|?]; [|done]. cbn. rewrite Hf. by rewrite E in H.
Qed.

Lemma ready_init_keeps x s : owns s -> keeps (ready_list_init x s).
Proof. intros H. unfold ready_list_init. frame. Qed.
Hint Resolve ready_init_keeps : frame.
Lemma ready_tail_keeps x s : owns s -> keeps (ready_list_add_tail x s).
Proof. intros H. unfold ready_list_add_tail. frame. Qed.
Lemma ready_head_keeps x s : owns s -> keeps (ready_list_add_head x s).
Proof. intros H. unfold ready_list_add_head. frame. Qed.
Lemma ready_add_keeps x s : owns s -> keeps (ready_list_add x s).
Proof. apply ready_tail_keeps. Qed.
Lemma ready_rm_keeps x s : owns s -> keeps (ready_list_rm x s).
Proof. intros H. unfold ready_list_rm. frame. Qed.
Lemma rotate_keeps x s : owns s -> keeps (ready_list_head_to_tail x s).
Proof. intros H. unfold ready_list_head_to_tail. frame. Qed.
Lemma core_keeps s : owns s -> keeps (core_sched s).
Proof. intros H. unfold core_sched. frame. Qed.
Hint Resolve ready_tail_keeps ready_head_keeps ready_add_keeps ready_rm_keeps rotate_keeps core_keeps : frame.
Lemma exit_keeps s : owns s -> keeps2 (exit_sched s).
Proof. intros H. unfold exit_sched. frame. Qed.
Lemma blocked_keeps s : owns s -> keeps2 (exit_blocked s).
Proof. intros H. unfold exit_blocked. frame. Qed.
Lemma slice_keeps s : owns s -> keeps (time_slice_update s).
Proof. intros H. unfold time_slice_update. frame. Qed.
Lemma tick_rm_keeps x s : owns s -> keeps (tick_list_rm x s).
Proof. intros H. unfold tick_list_rm. frame. Qed.
Lemma tick_insert_keeps x n s : owns s -> keeps (tick_list_insert x n s).
Proof. intros H. unfold tick_list_insert, tick_list_pri_insert. frame. Qed.
Lemma pend_add_keeps h x s : owns s -> keeps (pend_list_add h x s).
Proof. intros H. unfold pend_list_add. frame. Qed.
Hint Resolve exit_keeps blocked_keeps slice_keeps tick_rm_keeps tick_insert_keeps pend_add_keeps : frame.
Lemma leave_keeps why x s : owns s -> keeps (pend_leave why x s).
Proof. intros H. unfold pend_leave. frame. Qed.
Hint Resolve leave_keeps : frame.
Lemma wakeup_keeps x s : owns s -> keeps (pend_task_wakeup x s).
Proof. apply leave_keeps. Qed.
Lemma pend_rm_keeps x s : owns s -> keeps (pend_task_rm x s).
Proof. apply leave_keeps. Qed.
Lemma pend_to_keeps b x n s : owns s -> keeps (pend_to_blk_obj b x n s).
Proof. intros H. unfold pend_to_blk_obj. frame. Qed.
Lemma reorder_keeps x s : owns s -> keeps (pend_list_reorder x s).
Proof. intros H. unfold pend_list_reorder. frame. Qed.
Hint Resolve wakeup_keeps pend_rm_keeps pend_to_keeps reorder_keeps : frame.
Hint Extern 1 ((forall _, mutex_task _ = mutex_task _) \/ _) => left; done : frame.
Hint Resolve upd_mutex_keeps : frame.

Lemma drain_keeps f x : (forall y s, owns s -> keeps (f y s)) -> forall fuel s, owns s -> keeps (drain f fuel x s).
Proof. intros Hf. induction fuel as [|fuel IH]; intros s H; cbn [drain]; frame. Qed.

Lemma write_keeps r v s : owns s -> keeps (write_ref r v s).
Proof. intros H. unfold write_ref. frame. Qed.
Hint Resolve write_keeps : frame.

Lemma look_keeps rel : forall fuel r n p s, owns s -> keeps2 (look_loop fuel r rel n p s).
Proof. induction fuel as [|fuel IH]; intros r n p s H; cbn [look_loop]; frame. Qed.
Hint Resolve look_keeps : frame.

(** With and without inheritance. *)

Lemma pri_look_keeps (INHERIT : bool) x rel s : owns s -> keeps2 (mutex_pri_look INHERIT x rel s).
Proof. intros H. unfold mutex_pri_look. frame. Qed.
Hint Resolve pri_look_keeps : frame.
Lemma change_ready_keeps x n s : owns s -> keeps (pri_change_ready x n s).
Proof. intros H. unfold pri_change_ready. frame. Qed.
Lemma change_pend_keeps (INHERIT : bool) x n s : owns s -> keeps2 (pri_change_pend INHERIT x n s).
Proof. intros H. unfold pri_change_pend. frame. Qed.
Hint Resolve change_ready_keeps change_pend_keeps : frame.
Lemma change_loop_keeps (INHERIT : bool) : forall fuel x n s, owns s -> keeps (pri_change_loop INHERIT fuel x n s).
Proof. induction fuel as [|fuel IH]; intros x n s H; cbn [pri_change_loop]; frame. Qed.
Lemma pri_change_keeps (INHERIT : bool) x n s : owns s -> keeps (task_pri_change INHERIT x n s).
Proof. unfold task_pri_change. generalize (2 * base.size (tasks s) + 2)%nat. intros fuel. apply change_loop_keeps. Qed.
Hint Resolve pri_change_keeps : frame.
Lemma release_keeps (INHERIT : bool) x rel s : owns s -> keeps (mutex_release INHERIT x rel s).
Proof. intros H. unfold mutex_release. frame. Qed.
Hint Resolve release_keeps : frame.
Lemma reset_keeps (INHERIT : bool) x s : owns s -> keeps (mutex_task_pri_reset INHERIT x s).
Proof. intros H. unfold mutex_task_pri_reset. frame. Qed.
Hint Resolve reset_keeps : frame.
Lemma expire_keeps (INHERIT : bool) x s : owns s -> keeps (tick_expire INHERIT x s).
Proof. intros H. unfold tick_expire. frame. Qed.
Hint Resolve expire_keeps : frame.
Lemma tick_loop_keeps (INHERIT : bool) : forall fuel n s, owns s -> keeps (tick_loop INHERIT fuel n s).
Proof. induction fuel as [|fuel IH]; intros n s H; cbn [tick_loop]; frame. Qed.
Hint Resolve tick_loop_keeps : frame.
Lemma tick_update_keeps (INHERIT : bool) n s : owns s -> keeps (tick_list_update INHERIT n s).
Proof. intros H. unfold tick_list_update. frame. Qed.
Hint Resolve tick_update_keeps : frame.
Lemma tick_proc_keeps (INHERIT : bool) s : owns s -> keeps (krhino_tick_proc INHERIT s).
Proof. intros H. unfold krhino_tick_proc. frame. Qed.
Lemma abort_keeps (INHERIT : bool) x s : owns s -> keeps2 (krhino_task_wait_abort INHERIT x s).
Proof. intros H. unfold krhino_task_wait_abort. frame. Qed.
Hint Resolve tick_proc_keeps abort_keeps : frame.

(** ** Calls *)

Lemma void_keeps m : keeps m -> keeps2 (void m).
Proof. intros H. unfold void. by apply (post_bind owns). Qed.
Lemma suspend_keeps x s : owns s -> keeps2 (krhino_task_suspend x s).
Proof. intros H. unfold krhino_task_suspend, task_suspend. frame. Qed.
Lemma resume_keeps x s : owns s -> keeps2 (krhino_task_resume x s).
Proof. intros H. unfold krhino_task_resume. frame. Qed.
Lemma create_keeps x p n a s : owns s -> keeps2 (krhino_task_create x p n a s).
Proof. intros H. unfold krhino_task_create. destruct (decide (p = RHINO_IDLE_PRI)); frame. Qed.
Lemma give_keeps x all s : owns s -> keeps2 (sem_give x all s).
Proof. intros H. pose proof (drain_keeps pend_task_wakeup x wakeup_keeps). unfold sem_give. frame. Qed.
Lemma sem_del_keeps x s : owns s -> keeps2 (krhino_sem_del x s).
Proof. intros H. pose proof (drain_keeps pend_task_rm x pend_rm_keeps). unfold krhino_sem_del. frame. Qed.
Lemma take_keeps x n s : owns s -> keeps2 (krhino_sem_take x n s).
Proof. intros H. unfold krhino_sem_take, cancelled. frame. Qed.
Lemma mutex_del_keeps (INHERIT : bool) x s : owns s -> keeps2 (krhino_mutex_del INHERIT x s).
Proof. intros H. pose proof (drain_keeps pend_task_rm x pend_rm_keeps). unfold krhino_mutex_del. frame. Qed.
Hint Resolve suspend_keeps resume_keeps create_keeps give_keeps sem_del_keeps take_keeps mutex_del_keeps : frame.

(** A mutex that nobody owns is given away. *)
Lemma mutex_get_keeps (INHERIT : bool) x y s : x <> o -> owns s -> keeps (mutex_get INHERIT x y s).
Proof. intros Hx H. unfold mutex_get. frame. Qed.

Lemma lock_keeps (INHERIT : bool) x n s : owns s -> keeps2 (krhino_mutex_lock INHERIT x n s).
Proof.
  intros H. assert (forall k, get_mutex x s = Ret k -> mutex_task k = None -> x <> o) as Hx.
  { intros k Ek En ->. unfold owns, owner in H. unfold get_mutex in Ek. destruct (mutexes s !! o); [|done]. injection Ek as ->. cbn in H. congruence. }
  unfold krhino_mutex_lock, cancelled. frame. apply mutex_get_keeps; eauto.
Qed.

Lemma unlock_keeps (INHERIT : bool) x s : owns s -> x <> o \/ g_active_task s <> t -> keeps2 (krhino_mutex_unlock INHERIT x s).
Proof.
  intros H Hne. assert (forall k, get_mutex x s = Ret k -> mutex_task k = Some (g_active_task s) -> x <> o) as Hx.
  { intros k Ek En ->. unfold owns, owner in H. unfold get_mutex in Ek. destruct (mutexes s !! o); [|done]. injection Ek as ->. cbn in H. destruct Hne as [?|Hne]; [done|]. apply Hne. congruence. }
  unfold krhino_mutex_unlock. frame; [apply mutex_get_keeps; eauto|apply upd_mutex_keeps; eauto].
Qed.

Lemma del_keeps (INHERIT : bool) idle own g x s :
  inv INHERIT idle own g s -> exists_in (tasks s) x -> ~ deleted s x -> t <> x -> owns s -> keeps2 (krhino_task_del INHERIT x s).
Proof.
  intros I0 Hx Hd Htx H. apply some_of in Hx as [k Hk]. assert (task_state k <> K_DELETED) as Hl by (intros E; apply Hd; by exists k). unfold krhino_task_del. rewrite (get_task_eq _ _ _ Hk). cbn [mbind outcome_bind].
  pose proof (inv_unsched _ _ own g s I0) as [[SO Hfull OO Hinh] F D L]. pose proof SO as [KO TO MO IO]. pose proof (mk_held _ _ _ _ _ _ MO x k Hk Hl ltac:(done)) as Hh.
  assert (dying INHERIT idle x own g s) as Dy. { split; try done; [|by intros EI y _; apply (Hinh EI)]. split; try done. destruct MO as [M1 M2 M3 M4 M5 M6 M7 M8]. split; try done. intros y ky Hy Hly _. by apply M3. }
  destruct (mutex_free_ok INHERIT idle x k (own x) (base.size (mutexes s)) own g s (mutex_list k) Dy Hk eq_refl Hh (held_size _ _ _ Hh (mk_nodup _ _ _ _ _ _ MO x))) as (_ & _ & s' & -> & _ & _ & _ & _ & _ & _ & _ & Ho).
  specialize (Ho o t Htx H). change (owns s') in Ho. cbn [mbind outcome_bind]. frame.
Qed.

(** Only the owner itself, or its deletion, takes the mutex from it. *)
Lemma call_keeps (INHERIT : bool) idle own g c s :
  inv INHERIT idle own g s -> allowed INHERIT idle c s -> mutex_type s o -> owns s -> c <> MutexUnlock o \/ g_active_task s <> t -> c <> TaskDel t -> keeps2 (run_call INHERIT c s).
Proof.
  intros I0 Ha Hty H Hu Hd. destruct c; cbn [run_call allowed] in *; try (solve [eauto 3 with frame]); try (apply void_keeps; solve [eauto 3 with frame]).
  - unfold krhino_sched_disable. frame.
  - unfold krhino_sched_enable. frame.
  - unfold krhino_task_sleep. frame.
  - unfold krhino_task_yield. frame.
  - unfold krhino_task_time_slice_set. frame.
  - unfold krhino_task_pri_change. frame.
  - unfold krhino_task_cancel. frame.
  - destruct Ha as (Hx & Hl & _). apply (del_keeps INHERIT idle own g); congruence.
  - unfold krhino_sem_create. frame.
  - unfold krhino_sem_count_set. frame.
  - assert (o0 <> o) as Hne by (intros ->; by apply (free_not_mutex o s)). unfold krhino_mutex_create. frame. unfold owns, owner. cbn. by rewrite lookup_insert_ne.
  - by apply lock_keeps.
  - apply unlock_keeps; [done|]. destruct Hu as [Hu|Hu]; [left; congruence|by right].
Qed.
End Frame.
