(* ===== verification/KKernTheorems.v ===== *)
(** * The kernel: what holds in every run

    The properties of tasks, semaphores, mutexes and the tick, for every state a run of
    allowed calls ([KRun]) can reach, and short runs that show them at work. *)

From stdpp Require Import gmap sorting.
From S2P Require Import Prelude KBits KList KKern KCalls KQueue KTasks KSteps KOwn KInherit KInv KCallsOk KSemOk KNew KUnwait KMutexCalls KRelease KRun KView.

(** ** Runs for the witnesses

    The task 2 (30) holds the mutex 100, the task 3 (10) waits for it, the task 4 (20) is
    ready; the idle task is 1. *)
Definition inversion_run : list call :=
  [TaskCreate 2 30 0 1; MutexCreate 100; MutexLock 100 0; TaskCreate 3 10 0 1; MutexLock 100 RHINO_WAIT_FOREVER; TaskCreate 4 20 0 1].
(** Two tasks wait for each other's mutex, and the task 4 for a third one of theirs. *)
Definition deadlock_run : list call :=
  [TaskCreate 2 30 0 1; MutexCreate 100; MutexCreate 101; MutexLock 100 0; TaskCreate 3 20 0 1; MutexLock 101 0; MutexLock 100 RHINO_WAIT_FOREVER; MutexLock 101 RHINO_WAIT_FOREVER].
(** The task 2 sleeps for 3 ticks, the task 3 waits at most 2 ticks for the semaphore 200; then an interrupt. *)
Definition timeout_run : list call :=
  [TaskCreate 2 30 0 1; TaskSleep 3; SemCreate 200 0; TaskCreate 3 20 0 1; SemTake 200 2; IntrptEnter].
(** Three tasks wait for the semaphore 200. *)
Definition sem_run : list call :=
  [SemCreate 200 0; TaskCreate 2 30 0 1; SemTake 200 RHINO_WAIT_FOREVER; TaskCreate 3 20 0 1; SemTake 200 7; TaskCreate 4 40 0 1; SemTake 200 RHINO_WAIT_FOREVER].

(** ** No call fails *)

(** C2. Safety of the kernel: after any run of allowed calls, every allowed call returns (no null
    pointer, no broken list, no fatal error [k_err_proc], no endless loop) and leaves a state from which
    this holds again. *)
Theorem kern_calls_return INHERIT idle s c :
  reachable INHERIT idle s -> allowed INHERIT idle c s -> exists r s', run_call INHERIT c s = Ret (r, s') /\ reachable INHERIT idle s'.
Proof.
  intros R Ha. destruct (reachable_inv INHERIT idle s R) as (own & g & I). destruct (call_ok INHERIT idle c own g s I Ha) as (r & s' & _ & _ & E & _).
  exists r, s'. split; [done|]. by eapply reach_call.
Qed.

Lemma kern_calls_return_witness :
  let s := after true 1 deadlock_run in
  allowed true 1 (TaskPriChange 3 5) s /\ exists r s', run_call true (TaskPriChange 3 5) s = Ret (r, s') /\ reachable true 1 s'.
Proof.
  cbn zeta. assert (allowed true 1 (TaskPriChange 3 5) (after true 1 deadlock_run)) as Ha by (split; vm_compute; discriminate).
  split; [exact Ha|]. apply (kern_calls_return true 1); [apply after_reachable; vm_compute; reflexivity|exact Ha].
Defined.







(** C21. Nobody waits in vain: a waiting task is in the list of an object that exists; the count of a semaphore somebody
    waits for is zero, and a mutex somebody waits for has an owner, which is another task and not deleted. *)
Theorem kern_waits_justified INHERIT idle s w o :
  reachable INHERIT idle s -> waits_for s w o ->
  exists b, objs s !! o = Some b /\
    ((obj_type b = RHINO_SEM_OBJ_TYPE /\ exists x, sems s !! o = Some x /\ sem_count x = 0) \/
     (obj_type b = RHINO_MUTEX_OBJ_TYPE /\ exists t, owner s o = Some t /\ t <> w /\ live s t)).
Proof.
  intros R Hw. destruct (reachable_inv INHERIT idle s R) as (own & g & I). destruct (view_obj INHERIT idle own g s I w o Hw) as [b Hb]. exists b. split; [done|]. by eapply view_wait.
Qed.

Lemma kern_waits_justified_witness :
  let s := after true 1 inversion_run in
  waits_for s 3 100 /\ exists b, objs s !! 100 = Some b /\
    ((obj_type b = RHINO_SEM_OBJ_TYPE /\ exists x, sems s !! 100 = Some x /\ sem_count x = 0) \/
     (obj_type b = RHINO_MUTEX_OBJ_TYPE /\ exists t, owner s 100 = Some t /\ t <> 3 /\ live s t)).
Proof.
  cbn zeta. assert (Hw : waits_for (after true 1 inversion_run) 3 100) by (eexists; split; [vm_compute; reflexivity|split; reflexivity]).
  split; [exact Hw|]. apply (kern_waits_justified true 1); [apply after_reachable; vm_compute; reflexivity|exact Hw].
Defined.



(** ** What calls do *)

(** C12. The tick, also when several pass at once: exactly the tasks in the list of timeouts whose time has come are woken, a
    sleeping one with [BLK_FINISH], a waiting one with [BLK_TIMEOUT], a suspended one stays suspended; of the others only priorities change. *)
Theorem kern_tick_wakes INHERIT idle s n :
  reachable INHERIT idle s -> 0 <= n -> g_tick_count s + n < 2 ^ 62 ->
  exists s', tick_list_update INHERIT n s = Ret s' /\ g_tick_count s' = g_tick_count s + n /\
    forall t k, tasks s !! t = Some k -> exists k', tasks s' !! t = Some k' /\
      if decide (timed s t /\ tick_match k <= g_tick_count s + n) then task_state k' = woken_state k /\ blk_state k' = woken_why k /\ ~ timed s' t
      else (exists p, k' = set_prio p k) /\ (timed s' t <-> timed s t).
Proof.
  intros R Hn Hf. destruct (reachable_inv INHERIT idle s R) as (own & g & I). destruct (tick_list_update_ok INHERIT idle own g s n I Hn Hf) as (g' & s' & E & U & To & H). exists s'. split; [done|].
  split; [by destruct (tasks_only_fields _ _ To) as (_ & _ & _ & -> & _)|]. intros t k Hk. destruct (H t k Hk) as (k' & Hk' & T). exists k'. split; [done|]. unfold ticked in T. cbn [g_tick_count set_g_tick_count] in T.
  pose proof (timed_in g s t (view_k _ _ _ _ _ I) ltac:(apply elem_of_dom; by eexists)) as E1. pose proof (timed_in g' s' t (so_k _ _ _ _ _ _ (qo_s _ _ _ _ _ _ (un_q _ _ _ _ _ _ U))) ltac:(apply elem_of_dom; by eexists)) as E2.
  rewrite (decide_ext _ (t ∈ tmo g /\ tick_match k <= g_tick_count s + n)) by (by rewrite E1). case_decide; [by rewrite E2|by rewrite E1, E2].
Qed.

Lemma kern_tick_wakes_witness :
  let s := after true 1 timeout_run in
  timed s 3 /\ exists s', tick_list_update true 2 s = Ret s' /\ g_tick_count s' = g_tick_count s + 2 /\
    forall t k, tasks s !! t = Some k -> exists k', tasks s' !! t = Some k' /\
      if decide (timed s t /\ tick_match k <= g_tick_count s + 2) then task_state k' = woken_state k /\ blk_state k' = woken_why k /\ ~ timed s' t
      else (exists p, k' = set_prio p k) /\ (timed s' t <-> timed s t).
Proof.
  cbn zeta. split; [vm_compute; discriminate|]. apply (kern_tick_wakes true 1); [apply after_reachable; vm_compute; reflexivity|lia|vm_compute; reflexivity].
Defined.

(** C20. Giving a semaphore: with nobody waiting the count goes up by one; otherwise it stays zero and exactly one waiting task of highest
    priority is taken out, while [krhino_sem_give_all] takes out all of them; every other task is unchanged. *)
Theorem kern_sem_give_wakes INHERIT idle s o b x :
  reachable INHERIT idle s -> objs s !! o = Some b -> obj_type b = RHINO_SEM_OBJ_TYPE -> sems s !! o = Some x ->
  ((forall v, ~ waits_for s v o) /\
   (sem_count x < 2 ^ 32 - 1 -> exists s' x', krhino_sem_give o s = Ret (Some RHINO_SUCCESS, s') /\ tasks s' = tasks s /\ sems s' !! o = Some x' /\ sem_count x' = sem_count x + 1)) \/
  (exists w k, tasks s !! w = Some k /\ waits_for s w o /\ (forall v, waits_for s v o -> prio_of s w <= prio_of s v) /\
   (exists s', krhino_sem_give o s = Ret (Some RHINO_SUCCESS, s') /\ sems s' = sems s /\ tasks s' = <[w := left_wait k BLK_FINISH]> (tasks s)) /\
   (exists s', krhino_sem_give_all o s = Ret (Some RHINO_SUCCESS, s') /\ sems s' = sems s /\
      forall v kv, tasks s !! v = Some kv -> (waits_for s v o -> tasks s' !! v = Some (left_wait kv BLK_FINISH)) /\ (~ waits_for s v o -> tasks s' !! v = Some kv))).
Proof.
  intros R Hb Hty Hx. destruct (reachable_inv INHERIT idle s R) as (own & g & I). pose proof (view_k _ _ _ _ _ I) as KO. pose proof (view_t _ _ _ _ _ I) as TO. destruct (wait g o) as [|w l] eqn:El.
  - left. split; [intros v Hv%(waits_in g s v o KO TO); rewrite El in Hv; by apply elem_of_nil in Hv|]. intros Hc. apply (sem_give_count INHERIT idle own g s o b x I Hb Hty Hx); [by rewrite El|done].
  - right. destruct (sem_give_run INHERIT idle own g s o b x w I Hb Hty Hx ltac:(by rewrite El)) as [(s1 & k & E1 & S1 & Hk & T1) (s2 & E2 & S2 & T2)]. exists w, k. split_and!; [done| | |by exists s1|].
    + apply (waits_in g s w o KO TO). rewrite El. by left.
    + intros v Hv%(waits_in g s v o KO TO). pose proof (to_wait _ _ TO o) as So. rewrite El in So, Hv. apply StronglySorted_cons in So as [So _]. rewrite list.Forall_forall in So. apply elem_of_cons in Hv as [->|Hv]; [done|by apply So].
    + exists s2. split_and!; [done|done|]. intros v kv Hv. specialize (T2 v kv Hv). rewrite <- (waits_in g s v o KO TO). case_decide; done.
Qed.

Lemma kern_sem_give_wakes_witness :
  let s := after true 1 sem_run in
  exists b x, objs s !! 200 = Some b /\ sems s !! 200 = Some x /\
  (((forall v, ~ waits_for s v 200) /\
   (sem_count x < 2 ^ 32 - 1 -> exists s' x', krhino_sem_give 200 s = Ret (Some RHINO_SUCCESS, s') /\ tasks s' = tasks s /\ sems s' !! 200 = Some x' /\ sem_count x' = sem_count x + 1)) \/
  (exists w k, tasks s !! w = Some k /\ waits_for s w 200 /\ (forall v, waits_for s v 200 -> prio_of s w <= prio_of s v) /\
   (exists s', krhino_sem_give 200 s = Ret (Some RHINO_SUCCESS, s') /\ sems s' = sems s /\ tasks s' = <[w := left_wait k BLK_FINISH]> (tasks s)) /\
   (exists s', krhino_sem_give_all 200 s = Ret (Some RHINO_SUCCESS, s') /\ sems s' = sems s /\
      forall v kv, tasks s !! v = Some kv -> (waits_for s v 200 -> tasks s' !! v = Some (left_wait kv BLK_FINISH)) /\ (~ waits_for s v 200 -> tasks s' !! v = Some kv)))).
Proof.
  cbn zeta. set (s := after true 1 sem_run). assert (Hr : reachable true 1 s) by (apply after_reachable; vm_compute; reflexivity).
  eexists _, _. split; [vm_compute; reflexivity|]. split; [vm_compute; reflexivity|]. eapply (kern_sem_give_wakes true 1); [exact Hr|vm_compute; reflexivity|vm_compute; reflexivity|vm_compute; reflexivity].
Defined.

(** C13. The last unlock of a mutex: with nobody waiting it is free; otherwise one waiting task owns it at once, with one level of
    nesting, it is woken with [BLK_FINISH], and it is as urgent as every task that goes on waiting. *)
Theorem kern_unlock_hands_over INHERIT idle s o b x :
  reachable INHERIT idle s -> objs s !! o = Some b -> obj_type b = RHINO_MUTEX_OBJ_TYPE -> mutexes s !! o = Some x ->
  mutex_task x = Some (g_active_task s) -> owner_nested x = 1 -> g_intrpt_nested_level s = 0 ->
  exists s', krhino_mutex_unlock INHERIT o s = Ret (Some RHINO_SUCCESS, s') /\
    ((forall v, ~ waits_for s v o) /\ owner s' o = None \/
     exists w k k' x', waits_for s w o /\ mutexes s' !! o = Some x' /\ mutex_task x' = Some w /\ owner_nested x' = 1 /\
       tasks s !! w = Some k /\ tasks s' !! w = Some k' /\ task_state k' = woken_state k /\ blk_state k' = BLK_FINISH /\
       forall v, waits_for s v o -> v <> w -> waits_for s' v o /\ prio_of s' w <= prio_of s' v).
Proof.
  intros R Hb Hty Hx Ho Hn Hl. destruct (reachable_inv INHERIT idle s R) as (own & g & I). pose proof (view_k _ _ _ _ _ I) as KO. pose proof (view_t _ _ _ _ _ I) as TO.
  destruct (unlock_last INHERIT idle own g s o b x I Hb Hty Hx Ho Hn Hl) as [(El & own' & g' & s' & E & _ & Hf)|(w & x' & k' & own' & g' & s1 & Hw & E & U & Hx' & Ht & Hne & Hk' & _ & Hbs & Hst & Hoth)].
  - exists s'. split; [done|]. left. split; [|done]. intros v Hv%(waits_in g s v o KO TO). rewrite El in Hv. by apply elem_of_nil in Hv.
  - destruct (exit_run INHERIT idle own' g' s1 U) as (s' & Es & Sm & I'). destruct (same_fields s1 s' Sm) as (E1 & _ & _ & E2 & _). exists s'. split; [congruence|]. right. pose proof (proj1 (waits_in g s w o KO TO) Hw) as Hww. destruct Hww as (k & Hk & Hkw).
    exists w, k, k', x'. rewrite E1, E2. split_and!; try done; [by exists k|by apply Hst|]. intros v Hv Hvw. apply (waits_in g s v o KO TO) in Hv. destruct (Hoth v Hv Hvw) as [H1 H2]. pose proof (un_q _ _ _ _ _ _ U) as [SO1 _ _ _]. split.
    + destruct (proj1 (waits_in g' s1 v o (so_k _ _ _ _ _ _ SO1) (so_t _ _ _ _ _ _ SO1)) H1) as (kv & Hkv & Hvv). exists kv. by rewrite E1.
    + unfold prio_of in *. by rewrite E1.
Qed.

Lemma kern_unlock_hands_over_witness :
  let s := after true 1 inversion_run in
  exists s', krhino_mutex_unlock true 100 s = Ret (Some RHINO_SUCCESS, s') /\
    ((forall v, ~ waits_for s v 100) /\ owner s' 100 = None \/
     exists w k k' x', waits_for s w 100 /\ mutexes s' !! 100 = Some x' /\ mutex_task x' = Some w /\ owner_nested x' = 1 /\
       tasks s !! w = Some k /\ tasks s' !! w = Some k' /\ task_state k' = woken_state k /\ blk_state k' = BLK_FINISH /\
       forall v, waits_for s v 100 -> v <> w -> waits_for s' v 100 /\ prio_of s' w <= prio_of s' v).
Proof.
  cbn zeta. set (s := after true 1 inversion_run). assert (Hr : reachable true 1 s) by (apply after_reachable; vm_compute; reflexivity).
  eapply (kern_unlock_hands_over true 1); [exact Hr|vm_compute; reflexivity|reflexivity|vm_compute; reflexivity|vm_compute; reflexivity|reflexivity|vm_compute; reflexivity].
Defined.

(** C23. [task_pri_change] ends on every state, also when tasks wait for each other's mutexes in a circle, and changes
    nothing but priorities and the order of the lists. *)
Theorem kern_pri_change_ends INHERIT idle s t k n :
  reachable INHERIT idle s -> tasks s !! t = Some k -> task_state k <> K_DELETED -> t <> idle -> 0 <= n < RHINO_IDLE_PRI ->
  exists s', task_pri_change INHERIT t n s = Ret s' /\ prios_only s s'.
Proof.
  intros R Hk Hl Hti Hn. destruct (reachable_inv INHERIT idle s R) as (own & g & I).
  destruct (task_pri_change_ok INHERIT idle (b_of s) own g s t k n (qo_s _ _ _ _ _ _ (in_q _ _ _ _ _ I)) Hk Hl Hti Hn) as (g' & s' & E & (_ & _ & Hp) & _). by exists s'.
Qed.

Lemma kern_pri_change_ends_witness :
  let s := after true 1 deadlock_run in
  tc (blocks s) 2 2 /\ exists s', task_pri_change true 3 5 s = Ret s' /\ prios_only s s'.
Proof.
  cbn zeta. set (s := after true 1 deadlock_run). assert (Hr : reachable true 1 s) by (apply after_reachable; vm_compute; reflexivity). split.
  - apply (tc_l _ 2 3 2); [|apply tc_once]; [exists 100|exists 101]; (split; [eexists; split; [vm_compute; reflexivity|split; reflexivity]|split; vm_compute; reflexivity]).
  - eapply (kern_pri_change_ends true 1 s 3); [exact Hr|vm_compute; reflexivity|discriminate|discriminate|unfold RHINO_IDLE_PRI, RHINO_CONFIG_PRI_MAX; lia].
Defined.

(** ** What does not hold *)

(** The task 3 (20) waits for the mutex of 2 (30), becomes more urgent (10) and stops waiting; then 2 unlocks. *)
Definition abort_run : list call :=
  [TaskCreate 2 30 0 1; MutexCreate 100; MutexLock 100 0; TaskCreate 3 20 0 1; MutexLock 100 RHINO_WAIT_FOREVER; TaskPriChange 3 10; TaskWaitAbort 3; MutexUnlock 100].

(** Without inheritance ([RHINO_CONFIG_MUTEX_INHERIT] 0) the scheduler's property fails: [krhino_task_pri_change] of a waiting task
    still raises the owner of the mutex, nothing lowers it when the waiting ends, and [krhino_mutex_unlock] lowers it without a
    switch; a task of priority 30 then runs while one of priority 10 is ready. *)
Theorem kern_less_urgent_runs :
  let s := after false 1 abort_run in
  reachable false 1 s /\ g_intrpt_nested_level s = 0 /\ g_sched_lock s = 0 /\ g_active_task s = 2 /\ prio_of s 2 = 30 /\ ready s 3 /\ prio_of s 3 = 10.
Proof.
  cbn zeta. split; [apply after_reachable; vm_compute; reflexivity|]. split_and!; try (vm_compute; reflexivity). eexists. split; vm_compute; reflexivity.
Qed.

(** The task 2 owns the mutex 100 and is deleted; 3 locks it then. *)
Definition delete_run : list call :=
  [TaskCreate 2 30 0 1; MutexCreate 100; MutexLock 100 0; TaskCreate 3 20 0 1; TaskDel 2; MutexLock 100 0].


(** The task 2 has locked the mutex 100 twice, 3 waits for it, and 4 deletes 2 and sleeps: 3 has the mutex and unlocks it once. *)
Definition nested_run : list call :=
  [TaskCreate 2 30 0 1; MutexCreate 100; MutexLock 100 0; MutexLock 100 0; TaskCreate 3 20 0 1; MutexLock 100 RHINO_WAIT_FOREVER; TaskCreate 4 10 0 1; TaskDel 2; TaskSleep 5].

(** [task_mutex_free] leaves the nesting of the deleted owner: the new one has to unlock as often. *)
Lemma kern_nesting_stays :
  let s := after true 1 nested_run in
  reachable true 1 s /\ g_active_task s = 3 /\ owner s 100 = Some 3 /\
  exists s', krhino_mutex_unlock true 100 s = Ret (Some RHINO_MUTEX_OWNER_NESTED, s') /\ owner s' 100 = Some 3.
Proof.
  cbn zeta. split; [apply after_reachable; vm_compute; reflexivity|]. split; [vm_compute; reflexivity|]. split; [vm_compute; reflexivity|]. eexists. split; vm_compute; reflexivity.
Qed.

(** Without inheritance the mutexes of a deleted task stay with it: who waits for one waits for ever. *)
Lemma kern_dead_owner :
  let s := after false 1 [TaskCreate 2 30 0 1; MutexCreate 100; MutexLock 100 0; TaskCreate 3 20 0 1; MutexLock 100 RHINO_WAIT_FOREVER; TaskCreate 4 10 0 1] in
  reachable false 1 s /\ waits_for s 3 100 /\
  exists s', krhino_task_del false 2 s = Ret (Some RHINO_SUCCESS, s') /\ waits_for s' 3 100 /\ owner s' 100 = Some 2 /\ deleted s' 2.
Proof.
  cbn zeta. split; [apply after_reachable; vm_compute; reflexivity|]. split; [eexists; split; [vm_compute; reflexivity|split; reflexivity]|]. eexists. split; [vm_compute; reflexivity|].
  split; [eexists; split; [vm_compute; reflexivity|split; reflexivity]|]. split; [vm_compute; reflexivity|]. eexists. split; vm_compute; reflexivity.
Qed.

(** A sleep of [RHINO_WAIT_FOREVER] ends at the next tick: the time to wake up wraps around. *)
Lemma kern_sleep_forever :
  let s := after true 1 [TaskCreate 2 30 0 1; SemCreate 200 0; IntrptEnter; Tick; Tick; IntrptExit] in
  reachable true 1 s /\ g_active_task s = 2 /\
  exists s1 s2, krhino_task_sleep RHINO_WAIT_FOREVER s = Ret (None, s1) /\ krhino_tick_proc true (krhino_intrpt_enter s1) = Ret s2 /\ ready s2 2.
Proof.
  cbn zeta. split; [apply after_reachable; vm_compute; reflexivity|]. split; [vm_compute; reflexivity|]. eexists _, _. split; [vm_compute; reflexivity|]. split; [vm_compute; reflexivity|]. eexists. split; vm_compute; reflexivity.
Qed.
